(* ===== verification/_CoqProject ===== *)
-Q . S2P
Prelude.v
RustStd.v
Text.v
Signing.v
UpdateCore.v
VersionProps.v
StatusProps.v
TaskGraph.v
Retry.v
UpdateAgent.v
Sha256.v
FsEngine.v
HashChain.v
AuditChain.v
BootChain.v
CoreTypes.v
DepGraph.v
Manager.v
Sandbox.v
Policy.v
AgentCore.v
Devices.v
SandboxPolicy.v
Launcher.v
Json.v
Diagnostics.v
Automation.v
Base64.v
Apps.v
AppStore.v
UnixFs.v
MemoryStore.v
Storage.v
StorageProps.v
DiskEngine.v
DiskProps.v
AiDefense.v
Actions.v
AgentContext.v
Intent.v
IntentProps.v
Planner.v
RuntimeLog.v
RuntimeHost.v
RuntimeProps.v
RuntimeSessions.v
RuntimeScenarios.v
LanguageModel.v
StructuredIntent.v
Agentd.v
AgentdProps.v
AgentdMemory.v
Credentials.v
AppManager.v
TaskToAction.v
SystemInfo.v
CoreState.v
CoreCommands.v
CoreSecurity.v
CoreAgents.v
CoreDispatch.v
CoreProps.v
CoreInvariant.v
Loader.v
Sdk.v
Supervisor.v
Tools.v
Proposals.v
Transport.v
Installer.v
ProcessManager.v
Init.v
Network.v
Proactive.v
Hardware.v
Hal.v
Profiles.v
WindowManager.v
