(* ===== verification/Prelude.v ===== *)
(** * Aether OS: a verification development

    Aether OS is an agent-centred operating system layer written in Rust: a
    service manager, a signed update pipeline, an agent runtime and the
    security components they rest on.  This library models the parts that
    decide what is trusted, what is started and what is installed, as
    executable definitions, and proves them correct.  Paths below are relative
    to the src/ directory of the repository.

    ** How the modelled parts work together

    A signed update (security/aether-security/src/signed_update.rs) is checked
    against a trust list of key fingerprints, turned into a plan under a version
    policy (system/aether-update-core/src) and handed to the update agent
    (system/aether-update-agent/src/lib.rs), which drives an engine through
    Snapshot, Download, Verify, Stage and Apply, asks the retry engine
    (agent/aether-retry-policy/src/lib.rs) what to do after each failure, and
    keeps its progress in the update status machine.  The in-memory engine
    (engine.rs of the update agent) moves payload bytes through staging paths to
    the active slot and compares their SHA-256.  Agents organise work in a task
    graph (agent/aether-agent-core/src/task.rs).  Services are described by
    manifests (core/aether-core/src), ordered by the dependency graph and run by
    the service manager (system/aether-system-core/src: graph.rs, manager.rs)
    under sandbox plans (sandbox.rs, seccomp.rs of aether-core).  Commands pass
    the permission gate (policy.rs over aether-security/src/lib.rs).  What
    happened is kept in two hash chains, the audit log (audit.rs) and the boot
    measurements (boot_measure.rs).

    Applications come as signed packages (app.rs of aether-core,
    app_signing.rs): the installer reviews the permissions a manifest requests
    against the consent of the user (app_security.rs), the store
    (system/aether-store/src) keeps the installed ones with the registry of
    trusted publishers, and the launcher (system/aether-sandbox/src) turns a
    sandbox plan into system calls before it runs the command; aether-sandbox-policy
    compares what was asked for with what the kernel reports.  Agents turn
    observations into proposals and tasks (agent/aether-agent-core/src), the
    diagnostics find symptoms in readings, the recovery and automation crates
    compile plans for them, and the background agent decides which of these need
    the consent of the user.  Devices pair and exchange actions
    (agent/aether-device-core, aether-device-runtime).  Agents reach files only
    through the workspace file manager (storage/aether-storage/src/lib.rs).
    The agent runtime (agent/aether-agent-runtime/src) takes structured actions
    in sessions: the host validates an action against the granted capabilities,
    parks it when its risk asks for the user's approval, lets the executor send
    it to the service it concerns, and logs every step.

    The agent daemon (services/aether-agentd/src) turns what the user says into
    intents, with a snapshot of the system and the conversation to resolve
    pronouns; its planner validates every intent, refuses those that need a
    confirmation, and sends the others to the system-core daemon through the
    client of the SDK (sdk/rust/aether-sdk/src/client.rs), or to the surface
    server when that fails.  Text in which no intent is found goes to a language
    model, whose answer may name one capability and is checked in the same way;
    structured intents go to the runtime host, which the daemon starts with a
    fixed list of grants.  Conversation, working memory and the recent audit log
    are saved in a memory store.

    The system-core daemon (system/aether-system-core/src/main.rs) owns the
    service manager, the applications (system/aether-application-manager), the
    file manager, the audit chain, the sealed credentials
    (security/aether-security/src/credentials.rs), the update status, the
    agent's proposals and tasks and the device registry, and answers one line of
    JSON at a time: every request passes the gate, is handled by the arm of its
    command, and is written to the audit chain when it names a capability.  It
    starts from the manifests its loader (loader.rs) finds in a directory, which
    must be signed when a trust file is named.

    Around these: the init process (system/aether-init) reads the kernel command
    line and starts the daemons; the process manager keeps the lifecycle of
    processes; the supervisor (services/aether-supervisor) restarts one child;
    the installer (system/aether-installer) plans partitions and writes an
    image; the network service answers from the files of the kernel; the
    proactive daemon (services/aether-proactive) probes the control plane and
    feeds the background agent.  Hardware is reached through the traits of
    system/aether-hal, with a mock, through profiles, and through the registry
    and executor of system/aether-hardware-service; telemetry follows the
    consent of the user.  Devices meet over the transports of
    agent/aether-transport, and windows are kept by graphics/aether-wm.
    Developers build packages with the kit (sdk/rust/aether-sdk).

    ** Files

    - [Prelude]: results and the [?] operator, early-return notations, tactics,
      hint database, saturating arithmetic, shared lemmas on lists and numbers.
    - [RustStd]: the standard-library functions the code calls: character
      classes, splitting, decimal parsing, hex printing, big-endian bytes, the
      key order of a [BTreeMap].  [Text]: finding, cutting and replacing.
    - [Signing]: manifest_signing.rs and signed_update.rs.  Keys, signatures,
      SHA-256 and JSON are the operations of the class [Crypto]; the documented
      behaviour relied on is the class [CryptoLaws], with the instance
      [ToyCrypto] to run the definitions.
    - [UpdateCore]: version.rs, plan.rs, recovery.rs, state.rs, one module each.
      [VersionProps] and [StatusProps] hold their theorems.
    - [TaskGraph]: task.rs.  A task graph is the vector of its tasks.
    - [Retry]: backoff strategies, policies and the engine with its breaker
      counters, a list of failure counts per group.
    - [UpdateAgent]: the agent over any engine of the class [ApplyEngine].
    - [Sha256]: the inline SHA-256 of engine.rs, at 32-bit width.
    - [FsEngine]: the in-memory engine, an instance of [ApplyEngine].
    - [HashChain]: the interface [ChainEntry] with its laws, shared by
      [AuditChain] (audit.rs) and [BootChain] (boot_measure.rs).
    - [CoreTypes]: errors, manifests, statuses, capabilities, identities.
    - [DepGraph]: dependency resolution.
    - [Manager]: the service manager over any executor of the
      class [ServiceExecutor].
    - [Sandbox]: capabilities, namespaces, sandbox plans, seccomp filters.
    - [Policy]: the permission policy and the command gate.
    - [AgentCore]: observation.rs, proposal.rs and state.rs of agent-core.
    - [Devices]: identities, pairing, registry, remote messages and the device
      runtime.  Signatures and digests are operations of a class.
    - [SandboxPolicy]: enforcement reports and their diff with a plan.
    - [Launcher]: masks, profiles, argument parsing and the launch sequence over
      the system calls of the class [Kernel].
    - [Json]: the parsers and printers of serde_json, as parameters.
    - [Diagnostics]: readings, rules, reports; and the recovery crate.
    - [Automation]: workflows, and the background agent.
    - [Base64], [Apps]: app.rs, app_signing.rs, app_security.rs.
    - [AppStore]: the trust registry, the in-memory file system
      and the store, over the file systems and launchers of two classes.
    - [UnixFs]: what the code uses of std::path and std::fs: a tree of
      directories, files and symbolic links, resolution with the limit of 40
      links, creation, writing and renaming.
    - [MemoryStore]: memory_store.rs of the agent runtime, in
      memory and in a directory, as instances of one interface.
    - [Storage], [StorageProps]: the workspace file manager over [UnixFs].
    - [DiskEngine], [DiskProps]: the on-disk engine (disk_engine.rs), a second
      instance of [ApplyEngine], over [UnixFs].
    - [AiDefense]: the sanitizer of security/aether-ai-defense, the ceilings of
      actors and their log.
    - [Actions]: errors, actions, recovery policies, plans, the validator,
      sessions and approvals of the agent runtime.  [RuntimeLog]: its audit log
      and memories.  [RuntimeHost]: observations, events, requests, the executor
      and the host, in a state monad whose results are values, errors or
      panics; the clock, uuids and network exchanges are the class
      [RuntimeEnv].  [RuntimeProps], [RuntimeSessions] and [RuntimeScenarios]
      hold the theorems over histories of calls and a concrete environment.
    - [AgentContext], [Intent] and [Planner]: context.rs, conversation.rs,
      progress.rs, confirmation.rs, intent.rs and planner.rs of the agent daemon.
      What it sends is logged by the monad [Net] over the class [WireEnv]; a
      panic of the parser is [None].  [IntentProps] holds the theorems on the
      parser.  [LanguageModel]: the providers of llm.rs, llm_provider.rs and
      the daemon, over the class [HttpEnv]; [StructuredIntent]: the envelopes in
      which a model answers.  [Agentd]: lib.rs, runtime_host.rs,
      intent_to_action.rs and main.rs of the daemon, a definition [ag_*] for
      each command, over the world of the runtime host and the planner;
      [AgentdProps] and [AgentdMemory] hold the theorems.
    - [Credentials]: the sealed store over a cipher and a random generator that
      are classes with their documented laws.  [AppManager]: instances of
      applications over the class [Processes].  [TaskToAction]:
      task_to_action.rs.  [SystemInfo]: system_info.rs of the storage crate.
    - [CoreState], [CoreCommands], [CoreSecurity], [CoreAgents] and
      [CoreDispatch]: main.rs of the system-core daemon, one definition
      [cmd_*] for each command, in the state monad [Cmd] whose failure is a
      panic.  [CoreProps] and [CoreInvariant] hold the theorems.
    - [Loader]: loader.rs of the system core and the start of the daemon, over
      the classes [ManifestFs] and [ManifestJson].
    - [Sdk]: the builders and requests of the kit, and the client aetherctl.
    - [Supervisor]: the supervisor, over the class [Children].
    - [Tools]: tool.rs and tools.rs of the agent runtime, the catalogue of what
      a language model may ask for.  [Proposals]: proposal_generator.rs and
      proposal_runner.rs.
    - [Transport]: discovery, pairing channels and the mock transports.
    - [Installer], [ProcessManager], [Init], [Network]: one crate each, with the
      system they act on as a class.  [Proactive]: lib.rs and proactived.rs.
    - [Hardware]: lib.rs and executor.rs of the hardware service.  [Hal]: the
      traits of aether-hal and the mock, an instance of the class
      [HalSettings].  [Profiles]: hardware profiles and telemetry.
    - [WindowManager]: graphics/aether-wm/src/lib.rs.

    Operations that take [&mut self] become functions from a state to a state,
    and one that returns early with an error returns the state reached there.
    [None] as the result of an operation is a panic of the Rust code or the end
    of the fuel.  Integers are [N] with the range and the wrapping, saturating
    or panicking behaviour of the source written out; the panic of an
    overflow is that of a build with overflow checks, and [Installer] also says what
    a build without them does.  A [HashMap] is a
    [gmap]; where the code iterates over a map or where order matters, a list.

    ** What the theorems show

    - Updates.  An accepted update has the right magic, lengths, signer and
      signature, which binds the header and the payload ([update_verify_exact]), and
      signing round-trips.  A plan
      exists exactly when the version policy permits it ([plan_exact]) and
      never lowers a version unasked ([plan_monotone]).  [apply_outcome]
      describes [apply] over any engine: it returns, and either every step ran or fell
      back, in order, or the first step that gave up is reported and rolled back.
      Over the in-memory engine a successful update installs exactly the bytes
      whose digest was registered ([update_installs_verified_payload]) and a
      failed one leaves everything outside its staging area as it was
      ([failed_update_leaves_active_untouched]), if no retry policy has
      fallbacks; [verify_fallback_installs_unverified_payload] shows that the
      condition is needed.  [disk_update_outcome] says what an update does to
      the files of the on-disk engine, with and without a matching hash, and
      [absolute_target_empties_file] what it does for a target that is a path.
    - Status.  The history is the recent part of the full log, and the attempt
      counter and last error are functions of the calls made.
    - Retries.  [decide_exact] is the decision table of [decide];
      [breaker_trips_exactly] says which calls of a sequence break the circuit.
    - Tasks.  Insertion terminates and decides its cases exactly, reachable
      graphs are acyclic, and a graph built by insertions never deadlocks.
    - Services.  [dependency_graph_exact] relates the sorting loop to the
      transitive dependency relation, cycles included; [start_all] is all or
      nothing, succeeds when the executor does, and restarts stay within the
      limit over any history of calls.
    - Chains.  Two verifying logs of equal length with equal heads are equal or
      exhibit a collision of the digest; the theorems also say exactly when
      eviction, pruning and restoring keep a log verifiable.
    - SHA-256.  Padding and message schedule are those of FIPS 180-4; the loops
      terminate and every digest is 64 hexadecimal digits.
    - Confinement and policy.  A restricted service gets no capability and a
      filter below the system filter; the gate decides every command.  The
      launcher runs a program only after every call of its plan succeeded, in
      order, with arguments read from freed memory ([child_runs_only_confined],
      [arguments_are_freed]), and the masks it passes are exact
      ([kernel_masks_exact]); a report in which nothing was enforced still
      compares as clean ([null_enforcement_looks_clean]).
    - Untrusted text.  What the sanitizer lets through holds no tool call and no
      system marker, and its report says whether the text was one to change
      ([sanitized_hides_tool_calls]), but a repeated injection
      pattern survives ([repeated_injection_survives]); an actor may do exactly
      what its ceiling allows less what was revoked ([ceilings_are_exact]).
    - Files.  Opening a manager gives a workspace whose root is a directory
      without links ([opening_establishes_workspace]).  Whatever links the
      workspace holds, reads return only files inside ([reads_confined]), moves
      change nothing outside ([moves_confined]), nor do writes
      ([writes_confined]) except through a link to a missing file
      ([dangling_link_escapes]).
    - Applications.  [package_verification_exact] says which packages verify,
      [install_consent_enforced] that an installed application has exactly the
      granted permissions, [store_refines_abstract] that the store behaves as
      an abstract one over any sequence of operations, and
      [restart_restores_every_install] what a restart brings back, uninstalled
      applications included.
    - Agents and devices.  Accepted proposals are exactly the valid ones and
      each becomes a task; workflows compile to one task per step with a
      summary; deliveries are accepted at most once and in order per peer and
      kind; the handshake accepts exactly what its comparison allows.

    - Agent runtime.  Over any history of calls, whatever is sent to another
      service belongs to an action that was valid when submitted and either
      needs no approval or was approved ([no_unapproved_execution]), and a
      session begins at most one action ([session_acts_at_most_once]).  An
      action makes a bounded number of requests ([recovery_attempts_bounded]).
      [plan_approval_exact] says which plans ask for approval, which is not what
      the order of risks suggests, [redaction_complete] that no unquoted secret
      of a known key survives in the log, and
      [denied_action_strands_session] that a denied action leaves its session
      unusable.  A task never turns into an action riskier than its kind
      ([task_action_risk_bounded]).
    - Intents.  The parser returns on every ASCII text in which " to " and "into"
      do not stand in the wrong place ([parser_answers],
      [to_before_rename_panics]); whatever it finds, the letters or words it goes
      by are in the text ([intents_were_asked_for]).  The planner sends nothing for an
      intent that is invalid or needs a confirmation, deletions above all
      ([planner_acts_only_on_cleared_intents]).  The two memory stores give the
      same answers ([memory_stores_agree]), temporary names and "." apart
      ([saving_deletes_sibling], [dot_is_no_entry]).  Over any lines, and whatever the language
      model and the services answer, the daemon sends only what its grants
      allow, and never the deletion of a file ([agentd_stays_within_grants]);
      for the same reason nothing is ever there to be approved
      ([agentd_has_nothing_to_approve]).  Its rings stay within their
      capacities ([agentd_memory_bounded]), and what it saves in its directory
      survives a restart ([saved_memory_survives_restart]).
    - The daemon.  From its start on, over any connections and lines, its whole
      state stays sound and every request is answered ([daemon_stays_sound]); a
      request changes only the part its command is about, and never a file
      ([requests_touch_only_their_part]).  Two theorems show what the code does
      not prevent: a refused shutdown stops the system all the same
      ([shutdown_needs_no_permission]), and a pairing is completed on the word
      of the caller ([pairing_trusts_the_caller]).  The sealed store behaves as
      a map of secrets ([sealed_store_refines_map]), and at most one instance of
      an application runs ([one_instance_per_application]).  With a trust file
      every service the daemon ever manages was read from a file whose bytes a
      trusted key has signed ([services_run_signed_manifests]); loading is all or
      nothing ([load_manifests_exact]).
    - Tools and proposals.  The catalogue has a tool for every action, with its
      capabilities and, but for one, its risk ([catalogue_describes_actions]), and
      the executor sends what it says ([executor_follows_catalogue]).  Proposals
      made from the drafts of a model are sound ([generated_proposals_sound]);
      carrying one out settles it ([execute_proposal_settles]) and asks nobody
      ([execution_asks_no_consent]).
    - Transport.  A channel is a queue ([channel_is_queue]), discovery gathers
      what the powered transports report ([discover_all_exact]), and Bluetooth
      scans only while powered ([ble_scans_only_powered]).
    - Installing.  Partitions never overlap ([partitions_never_overlap]) but the
      last one of a plan ends beyond the disk ([install_plan_overruns_disk]).
      What the kit builds and signs, the store installs ([sdk_packages_install]); a skeleton
      of the kit cannot be packaged ([skeleton_cannot_be_packaged]), and its
      requests to the store are unknown to the daemon
      ([store_requests_unknown]).
    - Processes.  The recorded history is that of the allowed transitions
      ([process_history_exact]), the walk over ancestors ends
      ([ancestors_walk_ends]) and spawning is guarded exactly
      ([spawn_guard_exact]).  Init tries once to start each daemon
      ([boot_starts_each_service_once]) and goes on without the core
      ([no_core_never_halts]); a port of the command line is bounded
      ([cmdline_port_bounded]) and the shutdown plan complete
      ([shutdown_plan_complete]).  The supervisor restarts within its limit
      after the delays of its backoff ([supervisor_history_exact],
      [backoff_delays_exact]), but never retries a failed start
      ([failed_start_never_retried]).
    - Network.  The log holds the last events ([network_log_exact]), connectivity
      is decided exactly ([connectivity_exact]), the lines of a routing table
      are read back ([route_table_roundtrip]), and resolvers are sought
      below /proc ([resolvers_sought_below_proc]).
    - Proactive daemon.  A probe is classified exactly
      ([probe_classified_exactly]); no probe leads to a proposal
      ([proactive_proposes_nothing]), and the daemon takes every answer of the
      system core for an error ([proactived_is_blind]).
    - Hardware.  The registry is a map of devices
      ([hardware_registry_refines_map]) and the executor grants exactly the
      permitted requests ([hardware_execution_exact]), which lets an agent
      disable any device ([agents_disable_any_device]).  The settings of the
      mock are variables ([mock_settings_are_variables]) and it fails only when
      poisoned ([mock_fails_only_poisoned]); no profile has more of
      the detected devices than the one chosen ([best_match_is_greatest]);
      telemetry is collected exactly under consent ([telemetry_follows_consent]).
    - Windows.  Any sequence of operations keeps stack, windows, workspaces and
      focus in agreement ([window_manager_sound]), up to the focus flags an
      activation leaves behind ([activation_leaves_two_focused]); the window at a
      point is the topmost one ([window_at_topmost]), and a maximized window gets
      its rectangle back ([maximize_restore_roundtrip]).

    ** Fuel and bounds

    [DependencyGraph_new] runs its queue with the number of services as fuel:
    each service enters the queue once, and [dependency_graph_exact] proves that
    the result is never [None].  The walk of [graph_insert] uses the length of
    the graph as fuel per chain of dependencies; [graph_insert_exact] proves that
    it is enough on reachable graphs.  The retry loop recurses on the attempts the
    policy leaves; [apply_outcome] proves that it returns.  The padding loop of
    [sha256_pad] gets 64 iterations, one more than it can need
    ([padding_exact]).  Path resolution recurses on the links left of the
    kernel's 40, the search of the file manager on the nine levels of its depth
    limit, so neither needs fuel beyond what the code has.  The recovery loop
    of the executor has the retries of the policy plus one as fuel, and
    [recovery_attempts_bounded] proves that it never runs out; so does the loop
    of the planner ([planner_acts_only_on_cleared_intents]).  The depth of a JSON
    value is computed with the recursion limit of the parser, 128.  The loops of
    init, of the proactive daemon and of the supervisor have no end in the code;
    they are cut after a number of rounds that is an argument, and the theorems
    hold for every number.

    ** What is not modelled

    Third-party code is a parameter: Ed25519, SHA-256 of the sha2 crate and
    JSON in [Crypto] and [Digest], the argument values of tasks, the executor
    that spawns processes, the clock.  The locks around the in-memory engine's
    maps are not modelled: no call holds two of them and the agent is the only
    caller.  Key generation and the zeroing of keys on drop are left out.
    Permissions of files and concurrent changes to the tree between two calls
    of the file manager are outside [UnixFs].  Not modelled: the command line
    of the update agent, the interactive shell, the graphical shell, its
    rendering and the widgets of the user interface, whose behaviour is what
    they draw and print; the voice and vision crates, whose engines are mocks;
    the example applications and benchmarks; the Python prototype and the build
    files. *)

From stdpp Require Export sorting base tactics strings gmap pretty numbers list.

(** ** Results and the [?] operator

    Rust's [Result<T, E>] and the early return of the [?] operator. *)

Inductive result (A E : Type) : Type :=
| Ok (a : A)
| Err (e : E).
Arguments Ok {A E} a.
Arguments Err {A E} e.

Declare Scope rust_scope.
Delimit Scope rust_scope with rust.

Notation "'let?' x := c 'in' k" :=
  (match c with Ok x => k | Err e => Err e end)
  (at level 10, x name, c at level 200, k at level 200) : rust_scope.

(** A computation over a mutable state of type [S] that may return early with
    an error: the state reached at the early return is kept, as it is in Rust
    when a method with [&mut self] returns [Err]. *)
Notation "'let*?' ( s , x ) := c 'in' k" :=
  (match c with (s, Ok x) => k | (s, Err e) => (s, Err e) end)
  (at level 10, s name, x name, c at level 200, k at level 200) : rust_scope.

Open Scope rust_scope.

Definition is_ok {A E} (r : result A E) : bool :=
  match r with Ok _ => true | Err _ => false end.

Definition map_err {A E F} (f : E → F) (r : result A E) : result A F :=
  match r with Ok a => Ok a | Err e => Err (f e) end.

#[export] Instance result_eq_dec {A E} `{EqDecision A, EqDecision E} :
  EqDecision (result A E).
Proof. solve_decision. Defined.

(** ** Development tactics *)

(** Case analysis on the outermost [match] or [if] scrutinee of the goal or of
    a hypothesis, keeping the equation. *)
Ltac split_match :=
  match goal with
  | |- context [ match ?x with _ => _ end ] =>
      lazymatch x with context [ match _ with _ => _ end ] => fail | _ => destruct x eqn:? end
  | H : context [ match ?x with _ => _ end ] |- _ =>
      lazymatch x with context [ match _ with _ => _ end ] => fail | _ => destruct x eqn:? end
  end.

Ltac split_matches := repeat (split_match; simplify_eq/=).

(** Turn boolean tests into propositions. *)
Ltac bool_to_prop :=
  repeat match goal with
  | H : bool_decide _ = true |- _ => apply bool_decide_eq_true_1 in H
  | H : bool_decide _ = false |- _ => apply bool_decide_eq_false_1 in H
  | H : (_ && _)%bool = true |- _ => apply andb_true_iff in H; destruct H
  | H : (_ || _)%bool = false |- _ => apply orb_false_iff in H; destruct H
  | H : (_ <=? _)%N = true |- _ => apply N.leb_le in H
  | H : (_ <=? _)%N = false |- _ => apply N.leb_gt in H
  | H : (_ <? _)%N = true |- _ => apply N.ltb_lt in H
  | H : (_ <? _)%N = false |- _ => apply N.ltb_ge in H
  | H : (_ =? _)%N = true |- _ => apply N.eqb_eq in H
  | H : (_ =? _)%N = false |- _ => apply N.eqb_neq in H
  | H : (_ =? _)%nat = true |- _ => apply Nat.eqb_eq in H
  | H : (_ =? _)%nat = false |- _ => apply Nat.eqb_neq in H
  | H : (_ <? _)%nat = true |- _ => apply Nat.ltb_lt in H
  | H : (_ <? _)%nat = false |- _ => apply Nat.ltb_ge in H
  | H : (_ <=? _)%nat = true |- _ => apply Nat.leb_le in H
  | H : (_ <=? _)%nat = false |- _ => apply Nat.leb_gt in H
  | H : negb _ = true |- _ => apply negb_true_iff in H
  | H : negb _ = false |- _ => apply negb_false_iff in H
  end.

(** The hint database of the development: facts that hold by the invariant of
    a component and that the clients of the component use silently. *)
Create HintDb aether.

(** ** Machine integers

    Unsigned integers are [N]; the bounds of the Rust types and the saturating
    operations are written out. *)

Definition u16_max : N := (2 ^ 16 - 1)%N.
Definition u32_max : N := 4294967295.
Definition u64_max : N := 18446744073709551615.

Definition saturating_add (max a b : N) : N := N.min max (a + b).
Definition saturating_mul (max a b : N) : N := N.min max (a * b).
(** [saturating_sub] on an unsigned type is truncated subtraction. *)
Definition saturating_sub (a b : N) : N := a - b.
Definition saturating_pow (max a b : N) : N := N.min max (a ^ b).

Lemma saturating_add_le max a b : (saturating_add max a b ≤ max)%N.
Proof. unfold saturating_add. lia. Qed.
Lemma saturating_mul_le max a b : (saturating_mul max a b ≤ max)%N.
Proof. unfold saturating_mul. lia. Qed.
#[export] Hint Resolve saturating_add_le saturating_mul_le : aether.

(** ** Bounded logs

    The idiom [v.push(x); if v.len() > MAX { v.drain(0..v.len() - MAX) }]. *)

Definition drain_front {A} (n : nat) (l : list A) : list A := drop n l.

Definition push_bounded {A} (max : nat) (x : A) (l : list A) : list A :=
  let l := l ++ [x] in
  if (max <? length l)%nat then drain_front (length l - max) l else l.

(** [suffix_n n l]: the last [n] elements of [l]. *)
Definition suffix_n {A} (n : nat) (l : list A) : list A := drop (length l - n) l.

Lemma length_suffix_n {A} n (l : list A) : length (suffix_n n l) = min n (length l).
Proof. unfold suffix_n. rewrite length_drop. lia. Qed.

Lemma push_bounded_spec {A} max (x : A) l :
  push_bounded max x l = suffix_n max (l ++ [x]).
Proof.
  unfold push_bounded, suffix_n, drain_front.
  destruct (Nat.ltb_spec max (length (l ++ [x]))); [done|].
  by replace (length (l ++ [x]) - max) with 0 by lia.
Qed.

Lemma Forall_push_bounded {A} (P : A → Prop) max x l : P x → Forall P l → Forall P (push_bounded max x l).
Proof.
  intros Hx Hl. rewrite push_bounded_spec. apply Forall_drop, Forall_app. by split; [|constructor].
Qed.

(** Pushing onto the last [max] elements gives the last [max] elements of the
    pushed list: a bounded log is a view of the unbounded one. *)
Lemma push_bounded_suffix {A} max (x : A) l :
  push_bounded max x (suffix_n max l) = suffix_n max (l ++ [x]).
Proof.
  rewrite push_bounded_spec. unfold suffix_n.
  rewrite !length_app, length_drop; simpl.
  destruct (decide (max ≤ length l)).
  - replace (drop (length l - max) l ++ [x]) with (drop (length l - max) (l ++ [x]))
      by (rewrite drop_app_le by lia; done).
    rewrite drop_drop. f_equal. lia.
  - replace (length l - max) with 0 by lia. rewrite drop_0. f_equal. lia.
Qed.

Lemma length_push_bounded {A} max (x : A) l : length (push_bounded max x l) ≤ max.
Proof. rewrite push_bounded_spec, length_suffix_n. lia. Qed.

Lemma last_push_bounded {A} max (x : A) l :
  0 < max → last (push_bounded max x l) = Some x.
Proof.
  intros. rewrite push_bounded_spec. unfold suffix_n.
  rewrite drop_app_le by (rewrite length_app; simpl; lia). by rewrite last_snoc.
Qed.
#[export] Hint Resolve length_push_bounded : aether.

(** ** Lists *)

(** [iter().find] and [iter().position] with a boolean test. *)
Fixpoint find_b {A} (p : A → bool) (l : list A) : option A :=
  match l with
  | [] => None
  | x :: l => if p x then Some x else find_b p l
  end.

Fixpoint position {A} (p : A → bool) (l : list A) : option nat :=
  match l with
  | [] => None
  | x :: l => if p x then Some 0 else S <$> position p l
  end.

Lemma find_b_Some {A} (p : A → bool) l x :
  find_b p l = Some x → x ∈ l ∧ p x = true.
Proof.
  induction l as [|y l IH]; [done|]; simpl. destruct (p y) eqn:E; intros ?; simplify_eq.
  - split; [left|done].
  - destruct IH; [done|]. split; [by right|done].
Qed.

Lemma find_b_app {A} (p : A → bool) l k :
  find_b p (l ++ k) = match find_b p l with Some x => Some x | None => find_b p k end.
Proof. induction l as [|x l IH]; simpl; [done|]. by destruct (p x). Qed.

Lemma find_b_None {A} (p : A → bool) l :
  find_b p l = None ↔ ∀ x, x ∈ l → p x = false.
Proof.
  induction l as [|y l IH]; simpl; [set_solver|].
  destruct (p y) eqn:E; split.
  - done.
  - intros H. specialize (H y). rewrite E in H. assert (true = false) by set_solver. done.
  - intros H x [->|?]%elem_of_cons; [done|]. by apply IH.
  - intros H. apply IH. intros. apply H. by right.
Qed.

Lemma position_Some {A} (p : A → bool) l i :
  position p l = Some i →
  ∃ x, l !! i = Some x ∧ p x = true ∧ ∀ y, y ∈ take i l → p y = false.
Proof.
  revert i. induction l as [|z l IH]; intros i; [done|]; simpl.
  destruct (p z) eqn:E; intros H.
  - simplify_eq. exists z. set_solver.
  - apply fmap_Some in H as (j & Hj & ->).
    destruct (IH j Hj) as (x & Hx & Hp & Hall). exists x. split_and!; [done..|].
    simpl. intros y [->|?]%elem_of_cons; auto.
Qed.

Lemma position_None {A} (p : A → bool) l :
  position p l = None ↔ ∀ x, x ∈ l → p x = false.
Proof.
  induction l as [|z l IH]; simpl; [set_solver|].
  destruct (p z) eqn:E; split.
  - done.
  - intros H. specialize (H z). rewrite E in H. assert (true = false) by set_solver. done.
  - intros H x [->|?]%elem_of_cons; [done|]. apply IH; [|done].
    by destruct (position p l).
  - intros H. apply fmap_None, IH. intros. apply H. by right.
Qed.

Lemma length_omap_le {A B} (f : A → option B) l : length (omap f l) ≤ length l.
Proof. induction l as [|x l IH]; csimpl; [done|]. destruct (f x); csimpl; lia. Qed.

Lemma NoDup_snoc {A} (l : list A) x : NoDup (l ++ [x]) ↔ NoDup l ∧ x ∉ l.
Proof.
  rewrite NoDup_app. split.
  - intros (? & H & ?). split; [done|]. intros Hx. by apply (H x Hx), list_elem_of_singleton.
  - intros [? H]. split_and!; [done| |by apply NoDup_singleton].
    intros y Hy ->%list_elem_of_singleton. done.
Qed.

(** A duplicate-free list included in another is no longer than it. *)
Lemma NoDup_incl_length {A} (l k : list A) :
  NoDup l → (∀ x, x ∈ l → x ∈ k) → length l ≤ length k.
Proof.
  intros Hl Hk. apply submseteq_length. by apply NoDup_submseteq.
Qed.
