(* ===== verification/RustStd.v ===== *)
(** * The parts of the Rust standard library the modelled code calls

    Strings are byte sequences ([String.string], one [ascii] per UTF-8 byte),
    byte vectors are [list byte].  The character predicates modelled here are
    predicates on ASCII characters that fail on every byte of a multi-byte
    character, so testing them byte by byte gives the source's answer. *)
From S2P Require Import Prelude.
From Stdlib Require Import Ascii.
From Stdlib Require Strings.Byte.

Abbreviation byte := Init.Byte.byte.

#[export] Instance byte_eq_dec : EqDecision byte := Byte.byte_eq_dec.

(** ** Characters and strings *)

Definition ascii_N (c : ascii) : N := N_of_ascii c.

Definition is_ascii_digit (c : ascii) : bool :=
  ((48 <=? ascii_N c) && (ascii_N c <=? 57))%N.
Definition is_ascii_lowercase (c : ascii) : bool :=
  ((97 <=? ascii_N c) && (ascii_N c <=? 122))%N.
Definition is_ascii_uppercase (c : ascii) : bool :=
  ((65 <=? ascii_N c) && (ascii_N c <=? 90))%N.
Definition is_ascii_alphanumeric (c : ascii) : bool :=
  is_ascii_digit c || is_ascii_lowercase c || is_ascii_uppercase c.
Definition is_ascii_hexdigit (c : ascii) : bool :=
  is_ascii_digit c
  || ((97 <=? ascii_N c) && (ascii_N c <=? 102))%N
  || ((65 <=? ascii_N c) && (ascii_N c <=? 70))%N.
Definition to_ascii_lowercase_char (c : ascii) : ascii :=
  if is_ascii_uppercase c then ascii_of_N (ascii_N c + 32) else c.

Definition str_is_empty (s : string) : bool :=
  match s with EmptyString => true | _ => false end.

(** The last character of a string. *)
Fixpoint str_last (s : string) : option ascii :=
  match s with
  | EmptyString => None
  | String c EmptyString => Some c
  | String _ s => str_last s
  end.

(** ** White space

    [char::is_whitespace] is the Unicode property White_Space.  On UTF-8 bytes
    its characters are tab to carriage return and space (one byte), U+0085 and
    U+00A0 (two bytes), U+1680, U+2000 to U+200A, U+2028, U+2029, U+202F,
    U+205F and U+3000 (three bytes). *)

Definition whitespace1 (c : ascii) : bool :=
  let n := ascii_N c in ((9 <=? n) && (n <=? 13) || (n =? 32))%N.

Definition whitespace2 (c1 c2 : ascii) : bool :=
  let n2 := ascii_N c2 in
  ((ascii_N c1 =? 0xC2) && ((n2 =? 0x85) || (n2 =? 0xA0)))%N.

Definition whitespace3 (c1 c2 c3 : ascii) : bool :=
  let n1 := ascii_N c1 in let n2 := ascii_N c2 in let n3 := ascii_N c3 in
  ((n1 =? 0xE1) && (n2 =? 0x9A) && (n3 =? 0x80)
   || (n1 =? 0xE2) && (n2 =? 0x80) &&
        ((0x80 <=? n3) && (n3 <=? 0x8A) || (n3 =? 0xA8) || (n3 =? 0xA9) || (n3 =? 0xAF))
   || (n1 =? 0xE2) && (n2 =? 0x81) && (n3 =? 0x9F)
   || (n1 =? 0xE3) && (n2 =? 0x80) && (n3 =? 0x80))%N.

(** [str::trim]: [trim_start], and the same on the reversed text. *)
Fixpoint trim_start (s : string) : string :=
  match s with
  | EmptyString => EmptyString
  | String c s1 =>
      if whitespace1 c then trim_start s1
      else match s1 with
           | EmptyString => s
           | String c2 s2 =>
               if whitespace2 c c2 then trim_start s2
               else match s2 with
                    | EmptyString => s
                    | String c3 s3 => if whitespace3 c c2 c3 then trim_start s3 else s
                    end
           end
  end.

Fixpoint trim_reversed (s : string) : string :=
  match s with
  | EmptyString => EmptyString
  | String c s1 =>
      if whitespace1 c then trim_reversed s1
      else match s1 with
           | EmptyString => s
           | String c2 s2 =>
               if whitespace2 c2 c then trim_reversed s2
               else match s2 with
                    | EmptyString => s
                    | String c3 s3 => if whitespace3 c3 c2 c then trim_reversed s3 else s
                    end
           end
  end.

Fixpoint str_rev (s acc : string) : string :=
  match s with EmptyString => acc | String c s => str_rev s (String c acc) end.

Definition str_trim (s : string) : string :=
  str_rev (trim_reversed (str_rev (trim_start s) EmptyString)) EmptyString.

(** [v.join(sep)]. *)
Definition str_join (sep : string) (l : list string) : string :=
  match l with
  | [] => EmptyString
  | x :: l => foldl (λ acc y, acc +:+ sep +:+ y) x l
  end.

(** [s.contains(pat)]. *)
Fixpoint str_contains_from (pat s : string) : bool :=
  String.prefix pat s ||
  match s with EmptyString => false | String _ s => str_contains_from pat s end.

(** [Path::join] on Unix: an absolute argument replaces the path, and the
    separator is added only when the path is not empty and does not end in
    one. *)
Definition path_join (p f : string) : string :=
  if String.prefix "/" f then f
  else match str_last p with
       | None => f
       | Some c => if Ascii.eqb c "/" then p +:+ f else p +:+ "/" +:+ f
       end.

Fixpoint str_all (p : ascii → bool) (s : string) : bool :=
  match s with
  | EmptyString => true
  | String c s => p c && str_all p s
  end.

Fixpoint to_ascii_lowercase (s : string) : string :=
  match s with
  | EmptyString => EmptyString
  | String c s => String (to_ascii_lowercase_char c) (to_ascii_lowercase s)
  end.

(** [str::split_once(char)]. *)
Fixpoint split_once (sep : ascii) (s : string) : option (string * string) :=
  match s with
  | EmptyString => None
  | String c s =>
      if Ascii.eqb c sep then Some (EmptyString, s)
      else match split_once sep s with
           | Some (a, b) => Some (String c a, b)
           | None => None
           end
  end.

(** [str::split(char)]: never empty, one piece more than separators. *)
Fixpoint str_split (sep : ascii) (s : string) : list string :=
  match s with
  | EmptyString => [EmptyString]
  | String c s =>
      if Ascii.eqb c sep then EmptyString :: str_split sep s
      else match str_split sep s with
           | [] => [String c EmptyString]
           | w :: ws => String c w :: ws
           end
  end.

(** [Iterator::find_map]. *)
Fixpoint list_first {A B} (f : A → option B) (l : list A) : option B :=
  match l with [] => None | x :: l => match f x with Some y => Some y | None => list_first f l end end.

(** [str::strip_prefix]. *)
Definition strip_prefix (pat s : string) : option string :=
  if String.prefix pat s
  then Some (String.substring (String.length pat) (String.length s - String.length pat) s) else None.

(** [str::trim_matches(char)]. *)
Fixpoint trim_start_char (c : ascii) (s : string) : string :=
  match s with
  | EmptyString => EmptyString
  | String d s' => if Ascii.eqb c d then trim_start_char c s' else s
  end.
Definition trim_matches (c : ascii) (s : string) : string :=
  str_rev (trim_start_char c (str_rev (trim_start_char c s) EmptyString)) EmptyString.

(** [str::lines]: a carriage return before a line feed belongs to the line
    ending, and the last line is dropped when it is empty. *)
Definition strip_cr (s : string) : string :=
  match str_rev s EmptyString with
  | String c s' => if Ascii.eqb c (ascii_of_nat 13) then str_rev s' EmptyString else s
  | EmptyString => s
  end.
Fixpoint lines_of (pieces : list string) : list string :=
  match pieces with
  | [] => []
  | [piece] => if str_is_empty piece then [] else [piece]
  | piece :: pieces => strip_cr piece :: lines_of pieces
  end.
Definition str_lines (s : string) : list string := lines_of (str_split (ascii_of_nat 10) s).

(** [s.parse::<u32>().ok()]: an optional leading plus sign, at least one
    digit, and [None] on overflow. *)
Definition digit_val (c : ascii) : option N :=
  if is_ascii_digit c then Some (ascii_N c - 48)%N else None.

Fixpoint parse_digits (max acc : N) (s : string) : option N :=
  match s with
  | EmptyString => Some acc
  | String c s =>
      match digit_val c with
      | None => None
      | Some d =>
          if (acc * 10 + d <=? max)%N then parse_digits max (acc * 10 + d) s else None
      end
  end.

Definition parse_unsigned (max : N) (s : string) : option N :=
  match s with
  | EmptyString => None
  | String "+" EmptyString => None
  | String "-" EmptyString => None
  | String "+" s => parse_digits max 0 s
  | s => parse_digits max 0 s
  end.

Definition parse_u32 : string → option N := parse_unsigned u32_max.

(** [char::to_digit(16)], and [from_str_radix] with radix 16: an optional plus sign,
    at least one digit. *)
Definition hex_digit (ch : ascii) : option N :=
  let n := N_of_ascii ch in
  if is_ascii_digit ch then Some (n - 48)%N
  else if ((97 <=? n) && (n <=? 102))%N then Some (n - 87)%N
  else if ((65 <=? n) && (n <=? 70))%N then Some (n - 55)%N
  else None.
Fixpoint parse_hex_digits (max acc : N) (s : string) : option N :=
  match s with
  | EmptyString => Some acc
  | String c s =>
      d ← hex_digit c;
      if (acc * 16 + d <=? max)%N then parse_hex_digits max (acc * 16 + d) s else None
  end.
Definition from_str_radix_16 (max : N) (s : string) : option N :=
  match s with
  | EmptyString => None
  | String "+" EmptyString => None
  | String "-" EmptyString => None
  | String "+" s => parse_hex_digits max 0 s
  | s => parse_hex_digits max 0 s
  end.

(** Checked arithmetic on [u64]: [None] is the panic of a build with overflow
    checks. *)
Definition u64_add (a b : N) : option N := if (u64_max <? a + b)%N then None else Some (a + b)%N.
Definition u64_sub (a b : N) : option N := if (a <? b)%N then None else Some (a - b)%N.
Lemma u64_add_Some a b c : u64_add a b = Some c ↔ (c = a + b ∧ a + b ≤ u64_max)%N.
Proof. unfold u64_add. destruct (N.ltb_spec u64_max (a + b)); naive_solver lia. Qed.
Lemma u64_sub_Some a b c : u64_sub a b = Some c ↔ (c = a - b ∧ b ≤ a)%N.
Proof. unfold u64_sub. destruct (N.ltb_spec a b); naive_solver lia. Qed.

(** ** [split_whitespace] *)

Definition flush_word (word : string) : list string :=
  if str_is_empty word then [] else [word].

(** [split_whitespace], with the word being read as accumulator. *)
Fixpoint split_whitespace_go (word : string) (s : string) : list string :=
  match s with
  | EmptyString => flush_word word
  | String c s1 =>
      let keep := split_whitespace_go (word +:+ String c EmptyString) s1 in
      if whitespace1 c then flush_word word ++ split_whitespace_go EmptyString s1
      else match s1 with
           | String c2 s2 =>
               if whitespace2 c c2 then flush_word word ++ split_whitespace_go EmptyString s2
               else match s2 with
                    | String c3 s3 =>
                        if whitespace3 c c2 c3
                        then flush_word word ++ split_whitespace_go EmptyString s3
                        else keep
                    | EmptyString => keep
                    end
           | EmptyString => keep
           end
  end.

Definition split_whitespace (s : string) : list string := split_whitespace_go EmptyString s.

(** ** Bytes *)

Definition as_bytes (s : string) : list byte := String.list_byte_of_string s.
Definition string_of_bytes (l : list byte) : string := String.string_of_list_byte l.

Lemma length_as_bytes s : length (as_bytes s) = String.length s.
Proof.
  unfold as_bytes, String.list_byte_of_string. rewrite List.length_map.
  induction s as [|c s IH]; [done|]. simpl. by f_equal.
Qed.

Lemma string_of_bytes_as_bytes s : string_of_bytes (as_bytes s) = s.
Proof. apply String.string_of_list_byte_of_string. Qed.

Definition is_utf8_cont (b : byte) : bool :=
  let n := Byte.to_N b in ((128 <=? n) && (n <=? 191))%N.

Definition byte_in (lo hi : N) (b : byte) : bool :=
  let n := Byte.to_N b in ((lo <=? n) && (n <=? hi))%N.

(** The validity test of [String::from_utf8]. *)
Fixpoint is_utf8 (l : list byte) : bool :=
  match l with
  | [] => true
  | b0 :: l =>
      if byte_in 0 127 b0 then is_utf8 l
      else match l with
           | b1 :: l =>
               if byte_in 194 223 b0 then is_utf8_cont b1 && is_utf8 l
               else match l with
                    | b2 :: l =>
                        if byte_in 224 239 b0 then
                          byte_in (if byte_in 224 224 b0 then 160 else 128)
                            (if byte_in 237 237 b0 then 159 else 191) b1 &&
                          is_utf8_cont b2 && is_utf8 l
                        else match l with
                             | b3 :: l =>
                                 byte_in 240 244 b0 &&
                                 byte_in (if byte_in 240 240 b0 then 144 else 128)
                                   (if byte_in 244 244 b0 then 143 else 191) b1 &&
                                 is_utf8_cont b2 && is_utf8_cont b3 && is_utf8 l
                             | [] => false
                             end
                    | [] => false
                    end
           | [] => false
           end
  end.

(** The low byte of an integer. *)
Definition byte_of_N (n : N) : byte :=
  match Byte.of_N (n mod 256) with Some b => b | None => Byte.x00 end.

(** [to_be_bytes] for an integer of [k] bytes. *)
Fixpoint be_bytes (k : nat) (n : N) : list byte :=
  match k with
  | 0 => []
  | S k => byte_of_N (n / 256 ^ N.of_nat k) :: be_bytes k n
  end.

(** [from_be_bytes]. *)
Definition from_be_bytes (l : list byte) : N :=
  foldl (λ acc b, (acc * 256 + Byte.to_N b)%N) 0%N l.

(** ** Hexadecimal formatting *)

Definition hex_char (d : N) : ascii :=
  match String.get (N.to_nat d) "0123456789abcdef" with Some c => c | None => "0"%char end.

(** [format!("{n:0kx}")] for [n < 16^k]. *)
Fixpoint hex_fixed (k : nat) (n : N) : string :=
  match k with
  | 0 => EmptyString
  | S k => String (hex_char ((n / 16 ^ N.of_nat k) mod 16)) (hex_fixed k n)
  end.

Definition is_lower_hex (c : ascii) : bool :=
  is_ascii_digit c || ((97 <=? ascii_N c) && (ascii_N c <=? 102))%N.

(** ** Vectors *)

(** [slice::sort_by] on a key: a stable sort has one result, which insertion
    computes. *)
Fixpoint insert_by {A} (key : A → string) (x : A) (l : list A) : list A :=
  match l with
  | [] => [x]
  | y :: l => if decide (String.le (key x) (key y)) then x :: y :: l else y :: insert_by key x l
  end.

Definition sort_by {A} (key : A → string) (l : list A) : list A := foldr (insert_by key) [] l.

(** The same for keys that are compared with a function. *)
Fixpoint insert_with {A} (le : A → A → bool) (x : A) (l : list A) : list A :=
  match l with
  | [] => [x]
  | y :: l => if le x y then x :: y :: l else y :: insert_with le x l
  end.

Definition sort_with {A} (le : A → A → bool) (l : list A) : list A := foldr (insert_with le) [] l.

(** [Vec::dedup_by] with the comparison of two keys: of a run of elements with
    the same key the first is kept. *)
Fixpoint dedup_from {A} (key : A → string) (prev : A) (l : list A) : list A :=
  match l with
  | [] => []
  | x :: l =>
      if (key x =? key prev)%string then dedup_from key prev l else x :: dedup_from key x l
  end.

Definition dedup_by {A} (key : A → string) (l : list A) : list A :=
  match l with [] => [] | x :: l => x :: dedup_from key x l end.

(** ** Ordered maps

    [BTreeMap<String, V>] is a [gmap string V]; its iteration order is the
    order of the keys. *)
Definition btree_keys {V} (m : gmap string V) : list string :=
  merge_sort String.le (elements (dom m)).

Definition btree_values {V} (m : gmap string V) : list V :=
  omap (λ k, m !! k) (btree_keys m).

(** * Lemmas *)

Lemma str_all_app p a b : str_all p (a +:+ b) = str_all p a && str_all p b.
Proof. induction a as [|c a IH]; simpl; [done|]. change (String c a +:+ b) with (String c (a +:+ b)). simpl. by rewrite IH, andb_assoc. Qed.

Lemma str_all_impl (p q : ascii → bool) s :
  (∀ c, p c = true → q c = true) → str_all p s = true → str_all q s = true.
Proof.
  intros Hpq. induction s as [|c s IH]; simpl; [done|].
  rewrite !andb_true_iff. intros []. auto.
Qed.

(** ** Splitting *)

Definition char_ne (sep c : ascii) : bool := negb (Ascii.eqb c sep).

Lemma str_is_empty_true s : str_is_empty s = true ↔ s = EmptyString.
Proof. by destruct s. Qed.
Lemma str_is_empty_false s : str_is_empty s = false ↔ s ≠ EmptyString.
Proof. by destruct s. Qed.

Lemma str_app_cons c a b : String c a +:+ b = String c (a +:+ b).
Proof. done. Qed.

Lemma str_app_empty b : EmptyString +:+ b = b.
Proof. done. Qed.

Lemma split_once_cons sep c s :
  split_once sep (String c s)
  = if Ascii.eqb c sep then Some (EmptyString, s)
    else match split_once sep s with Some (a, b) => Some (String c a, b) | None => None end.
Proof. done. Qed.

Lemma str_split_cons sep c s :
  str_split sep (String c s)
  = if Ascii.eqb c sep then EmptyString :: str_split sep s
    else match str_split sep s with
         | [] => [String c EmptyString]
         | w :: ws => String c w :: ws
         end.
Proof. done. Qed.

Lemma str_app_nil_r s : s +:+ EmptyString = s.
Proof. induction s as [|c s IH]; [done|]. by rewrite str_app_cons, IH. Qed.

Lemma str_app_assoc a b c : (a +:+ b) +:+ c = a +:+ (b +:+ c).
Proof. induction a as [|x a IH]; [done|]. by rewrite !str_app_cons, IH. Qed.

Lemma split_once_sep sep a b :
  str_all (char_ne sep) a = true →
  split_once sep (a +:+ String sep b) = Some (a, b).
Proof.
  induction a as [|c a IH]; intros H; simpl in H.
  - rewrite str_app_empty, split_once_cons. by rewrite Ascii.eqb_refl.
  - unfold char_ne at 1 in H. apply andb_true_iff in H as [Hc%negb_true_iff Ha].
    rewrite str_app_cons, split_once_cons, Hc. by rewrite (IH Ha).
Qed.

Lemma split_once_none sep s :
  str_all (char_ne sep) s = true → split_once sep s = None.
Proof.
  induction s as [|c s IH]; simpl; [done|].
  unfold char_ne at 1. rewrite andb_true_iff, negb_true_iff. intros [Hc Hs].
  by rewrite Hc, IH.
Qed.

Lemma str_split_nonempty sep s : str_split sep s ≠ [].
Proof. destruct s; simpl; repeat case_match; done. Qed.

Lemma str_split_none sep s :
  str_all (char_ne sep) s = true → str_split sep s = [s].
Proof.
  induction s as [|c s IH]; simpl; [done|].
  unfold char_ne at 1. rewrite andb_true_iff, negb_true_iff. intros [Hc Hs].
  by rewrite Hc, IH.
Qed.

Lemma str_split_sep sep a b :
  str_all (char_ne sep) a = true →
  str_split sep (a +:+ String sep b) = a :: str_split sep b.
Proof.
  induction a as [|c a IH]; intros H; simpl in H.
  - rewrite str_app_empty, str_split_cons. by rewrite Ascii.eqb_refl.
  - unfold char_ne at 1 in H. apply andb_true_iff in H as [Hc%negb_true_iff Ha].
    rewrite str_app_cons, str_split_cons, Hc. by rewrite (IH Ha).
Qed.

(** ** Decimal printing and parsing *)

Lemma pretty_N_char_digit d : (d < 10)%N →
  digit_val (pretty_N_char d) = Some d.
Proof.
  intros. assert (d = 0 ∨ d = 1 ∨ d = 2 ∨ d = 3 ∨ d = 4 ∨ d = 5 ∨ d = 6 ∨ d = 7 ∨ d = 8 ∨ d = 9)%N
    as Hd by lia.
  destruct_or! Hd; by subst.
Qed.

Lemma parse_digits_pretty_go max x s :
  (x ≤ max)%N → parse_digits max 0 (pretty_N_go x s) = parse_digits max x s.
Proof.
  revert s. induction (N.lt_wf_0 x) as [x _ IH]; intros s Hx.
  destruct (decide (x = 0)%N) as [->|?]; [by rewrite pretty_N_go_0|].
  rewrite pretty_N_go_step by lia.
  assert (x `div` 10 < x)%N by (apply N.div_lt; lia).
  rewrite IH by lia. simpl.
  rewrite pretty_N_char_digit by (apply N.mod_lt; lia).
  replace (x `div` 10 * 10 + x `mod` 10)%N with x by (rewrite (N.div_mod x 10) at 1; lia).
  by destruct (N.leb_spec x max); [|lia].
Qed.

Lemma pretty_N_go_digits x s :
  str_all is_ascii_digit s = true → str_all is_ascii_digit (pretty_N_go x s) = true.
Proof.
  revert s. induction (N.lt_wf_0 x) as [x _ IH]; intros s Hs.
  destruct (decide (x = 0)%N) as [->|?]; [by rewrite pretty_N_go_0|].
  rewrite pretty_N_go_step by lia. apply IH; [apply N.div_lt; lia|].
  simpl. rewrite Hs, andb_true_r.
  pose proof (pretty_N_char_digit (x `mod` 10)) as Hd. unfold digit_val in Hd.
  destruct (is_ascii_digit _); [done|]. discriminate Hd. apply N.mod_lt; lia.
Qed.

Lemma pretty_N_digits (x : N) : str_all is_ascii_digit (pretty x) = true.
Proof.
  unfold pretty, pretty_N. case_decide; [done|]. by apply pretty_N_go_digits.
Qed.

Lemma parse_digits_pretty max (x : N) :
  (x ≤ max)%N → parse_digits max 0 (pretty x) = Some x.
Proof.
  intros. unfold pretty, pretty_N. case_decide as Hd.
  - subst. cbn [parse_digits]. change (digit_val "0") with (Some 0%N).
    lazy beta iota. destruct (N.leb_spec (0 * 10 + 0) max); [done|lia].
  - by rewrite parse_digits_pretty_go.
Qed.

Lemma pretty_N_nonempty (x : N) : ∃ c s, pretty x = String c s ∧ is_ascii_digit c = true.
Proof.
  pose proof (pretty_N_digits x) as Hd.
  destruct (pretty x) as [|c s] eqn:E.
  - exfalso. pose proof (parse_digits_pretty x x (N.le_refl x)) as Hp.
    rewrite E in Hp. simpl in Hp. injection Hp as <-. discriminate E.
  - simpl in Hd. apply andb_true_iff in Hd as []. eauto.
Qed.

Lemma parse_unsigned_digits max c s :
  is_ascii_digit c = true → parse_unsigned max (String c s) = parse_digits max 0 (String c s).
Proof.
  intros Hc. destruct c as [[] [] [] [] [] [] [] []]; first [done | discriminate Hc].
Qed.

Lemma parse_u32_pretty (x : N) : (x ≤ u32_max)%N → parse_u32 (pretty x) = Some x.
Proof.
  intros. destruct (pretty_N_nonempty x) as (c & s & E & Hc).
  unfold parse_u32. rewrite E, parse_unsigned_digits by done.
  rewrite <-E. by apply parse_digits_pretty.
Qed.

Lemma parse_digits_bound max acc s n :
  (acc ≤ max)%N → parse_digits max acc s = Some n → (n ≤ max)%N.
Proof.
  revert acc. induction s as [|c s IH]; intros acc Hacc; simpl; [naive_solver|].
  destruct (digit_val c); [|done]. destruct (N.leb_spec (acc * 10 + n0) max); [|done].
  by apply IH.
Qed.

Lemma parse_unsigned_bound max s n : parse_unsigned max s = Some n → (n ≤ max)%N.
Proof.
  unfold parse_unsigned.
  repeat case_match; intros; try done; by eapply parse_digits_bound; [|done]; lia.
Qed.

(** ** Bytes and hexadecimal digits *)

Lemma length_be_bytes k n : length (be_bytes k n) = k.
Proof. induction k as [|k IH]; simpl; by rewrite ?IH. Qed.

Lemma byte_of_N_to_N n : Byte.to_N (byte_of_N n) = (n mod 256)%N.
Proof.
  unfold byte_of_N. destruct (Byte.of_N (n mod 256)%N) as [b|] eqn:Hb.
  - by apply Byte.to_of_N.
  - exfalso. apply Byte.of_N_None_iff in Hb. pose proof (N.mod_lt n 256). lia.
Qed.

Lemma from_be_be_bytes_acc k n acc :
  foldl (λ acc b, (acc * 256 + Byte.to_N b)%N) acc (be_bytes k n) =
  (acc * 256 ^ N.of_nat k + n mod 256 ^ N.of_nat k)%N.
Proof.
  revert acc. induction k as [|k IH]; intros acc; simpl.
  { rewrite N.mod_1_r. lia. }
  rewrite IH, byte_of_N_to_N. replace (N.of_nat (S k)) with (N.succ (N.of_nat k)) by lia.
  rewrite N.pow_succ_r'. set (p := (256 ^ N.of_nat k)%N).
  assert (p ≠ 0%N) by (apply N.pow_nonzero; lia).
  rewrite (N.mul_comm 256 p), (N.Div0.mod_mul_r n p 256) by lia. lia.
Qed.

Lemma from_be_be_bytes k n : from_be_bytes (be_bytes k n) = (n mod 256 ^ N.of_nat k)%N.
Proof. unfold from_be_bytes. by rewrite from_be_be_bytes_acc. Qed.

Lemma hex_char_lower d : (d < 16)%N → is_lower_hex (hex_char d) = true.
Proof.
  intros. assert (Z.of_N d < 16)%Z by lia.
  destruct d as [|p]; [done|]. do 4 (destruct p as [p|p|]; try done; try lia).
Qed.

Lemma hex_fixed_lower k n : str_all is_lower_hex (hex_fixed k n) = true.
Proof.
  induction k as [|k IH]; [done|]. cbn [hex_fixed str_all].
  rewrite hex_char_lower, IH; [done|]. apply N.mod_lt. lia.
Qed.

Lemma length_hex_fixed k n : String.length (hex_fixed k n) = k.
Proof. induction k as [|k IH]; [done|]. cbn [hex_fixed String.length]. by rewrite IH. Qed.

Lemma str_length_app a b : String.length (a +:+ b) = String.length a + String.length b.
Proof. induction a as [|c a IH]; [done|]. rewrite str_app_cons. cbn. by rewrite IH. Qed.

(** ** Iteration over ordered maps *)

Lemma elem_of_btree_keys {V} (m : gmap string V) k : k ∈ btree_keys m ↔ is_Some (m !! k).
Proof.
  unfold btree_keys. rewrite merge_sort_Permutation, elem_of_elements. apply elem_of_dom.
Qed.

Lemma NoDup_btree_keys {V} (m : gmap string V) : NoDup (btree_keys m).
Proof. unfold btree_keys. rewrite merge_sort_Permutation. apply NoDup_elements. Qed.

Lemma length_btree_keys {V} (m : gmap string V) : length (btree_keys m) = size m.
Proof.
  unfold btree_keys. rewrite merge_sort_Permutation, <-size_dom. done.
Qed.

Lemma elem_of_btree_values {V} (m : gmap string V) v :
  v ∈ btree_values m ↔ ∃ k, m !! k = Some v.
Proof.
  unfold btree_values. rewrite list_elem_of_omap. split; [naive_solver|].
  intros [k Hk]. exists k. split; [|done]. apply elem_of_btree_keys. by eexists.
Qed.

(** ** Sorting permutes *)

Lemma insert_with_perm {A} le (x : A) l : insert_with le x l ≡ₚ x :: l.
Proof. induction l as [|y l IH]; cbn; [done|]. split_match; [done|]. rewrite IH. apply Permutation_swap. Qed.

Lemma sort_with_perm {A} le (l : list A) : sort_with le l ≡ₚ l.
Proof. induction l as [|x l IH]; cbn; [done|]. by rewrite insert_with_perm, IH. Qed.

Lemma insert_by_perm {A} (key : A → string) x l : insert_by key x l ≡ₚ x :: l.
Proof. induction l as [|y l IH]; cbn; [done|]. case_decide; [done|]. rewrite IH. apply Permutation_swap. Qed.

Lemma sort_by_perm {A} (key : A → string) l : sort_by key l ≡ₚ l.
Proof. induction l as [|x l IH]; cbn; [done|]. by rewrite insert_by_perm, IH. Qed.

(** ** Occurrences *)

Definition occ (x : string) (l : list string) : nat :=
  length (List.filter (λ y, bool_decide (y = x)) l).

Lemma occ_nil x : occ x [] = 0.
Proof. done. Qed.

Lemma occ_cons x y l : occ x (y :: l) = (if decide (y = x) then 1 else 0) + occ x l.
Proof. unfold occ. simpl. rewrite decide_bool_decide. by destruct (bool_decide (y = x)). Qed.

Lemma occ_app x l k : occ x (l ++ k) = occ x l + occ x k.
Proof. unfold occ. by rewrite List.filter_app, length_app. Qed.

Lemma occ_pos x l : 0 < occ x l ↔ x ∈ l.
Proof.
  induction l as [|y l IH]; [split; [intros; unfold occ in *; simpl in *; lia|by intros ?%not_elem_of_nil]|].
  rewrite occ_cons, elem_of_cons. case_decide; [naive_solver lia|]. rewrite <-IH. naive_solver lia.
Qed.

Lemma NoDup_occ l : NoDup l → ∀ x, occ x l ≤ 1.
Proof.
  induction 1 as [|y l Hni _ IH]; intros x; [rewrite occ_nil; lia|]. rewrite occ_cons.
  case_decide as Heq; [|apply IH]. subst.
  destruct (decide (0 < occ x l)) as [?%occ_pos|]; [done|lia].
Qed.

(** ** Sorting by a key *)

Section sorting.
Context {A : Type} (key : A → string).

Definition key_lt (x y : A) : Prop := String.le (key x) (key y) ∧ key x ≠ key y.
Definition key_is (k : string) (x : A) : bool := (key x =? k)%string.

Lemma find_insert_by k x l :
  find_b (key_is k) (insert_by key x l) = find_b (key_is k) (x :: l).
Proof.
  induction l as [|y l IH]; [done|]. cbn [insert_by]. case_decide as Hle; [done|].
  cbn [find_b] in *. rewrite IH. unfold key_is.
  destruct (String.eqb_spec (key x) k) as [Hx|]; [|done].
  destruct (String.eqb_spec (key y) k) as [Hy|]; [|done].
  destruct Hle. rewrite Hx, Hy. reflexivity.
Qed.

Lemma find_sort_by k l : find_b (key_is k) (sort_by key l) = find_b (key_is k) l.
Proof.
  induction l as [|x l IH]; [done|]. cbn [sort_by foldr]. rewrite find_insert_by.
  cbn [find_b]. by rewrite <-IH.
Qed.

Lemma find_dedup_from k x l :
  key x ≠ k → find_b (key_is k) (dedup_from key x l) = find_b (key_is k) l.
Proof.
  revert x. induction l as [|y l IH]; intros x Hx; [done|]. cbn [dedup_from find_b].
  destruct (String.eqb_spec (key y) (key x)) as [E|E].
  - rewrite IH by done. unfold key_is at 2. by destruct (String.eqb_spec (key y) k); [congruence|].
  - cbn [find_b]. destruct (key_is k y) eqn:Hy; [done|]. apply IH. by apply String.eqb_neq.
Qed.

Lemma find_dedup_by k l : find_b (key_is k) (dedup_by key l) = find_b (key_is k) l.
Proof.
  destruct l as [|x l]; [done|]. cbn [dedup_by find_b]. destruct (key_is k x) eqn:Hx; [done|].
  apply find_dedup_from. by apply String.eqb_neq.
Qed.

Lemma elem_of_insert_by y x l : y ∈ insert_by key x l ↔ y = x ∨ y ∈ l.
Proof.
  induction l as [|z l IH]; cbn [insert_by]; [set_solver|]. case_decide; set_solver.
Qed.

(** Sorted by the keys, then strictly so. *)
Abbreviation key_sorted := (StronglySorted (λ x y, String.le (key x) (key y))).

Lemma insert_by_sorted x l : key_sorted l → key_sorted (insert_by key x l).
Proof.
  induction 1 as [|y l Hl IH Hy]; cbn [insert_by]; [by repeat constructor|].
  case_decide as Hle.
  - constructor; [by constructor|]. constructor; [done|]. eapply Forall_impl; [done|].
    simpl. intros z Hz. by trans (key y).
  - constructor; [done|]. apply Forall_forall. intros z [->|Hz]%elem_of_insert_by.
    + by destruct (total String.le (key x) (key y)).
    + by eapply Forall_forall in Hy.
Qed.

Lemma sort_by_sorted l : key_sorted (sort_by key l).
Proof. induction l; cbn [sort_by foldr]; [constructor|by apply insert_by_sorted]. Qed.

Lemma dedup_from_sorted x l :
  key_sorted (x :: l) → StronglySorted key_lt (x :: dedup_from key x l).
Proof.
  revert x. induction l as [|y l IH]; intros x [Hl Hx]%StronglySorted_inv;
    cbn [dedup_from]; [by repeat constructor|].
  apply Forall_cons in Hx as [Hxy Hx]. destruct (String.eqb_spec (key y) (key x)) as [E|E].
  - apply IH. apply StronglySorted_inv in Hl as [Hl _]. by constructor.
  - pose proof (IH y Hl) as Hd. constructor; [done|]. constructor; [by split|].
    apply StronglySorted_inv in Hd as [_ Hd]. eapply Forall_impl; [done|].
    intros z [Hz Hne]. split; [by trans (key y)|]. intros Heq. apply E.
    apply (anti_symm String.le); [|done]. by rewrite Heq.
Qed.

Lemma dedup_by_sorted l : key_sorted l → StronglySorted key_lt (dedup_by key l).
Proof. destruct l as [|x l]; [constructor|]. apply dedup_from_sorted. Qed.
End sorting.
