(* ===== verification/Text.v ===== *)
(** * Searching and replacing in strings

    The functions of [str] and [String] that find, cut and replace parts of a
    text.  A string is its bytes; cutting it inside a character is a panic. *)
From S2P Require Import Prelude RustStd.
From Stdlib Require Import Ascii.

(** The byte does not continue a character. *)
Definition starts_char (c : ascii) : bool := let n := N_of_ascii c in ((n <? 128) || (192 <=? n))%N.

(** [str::is_char_boundary] for an index that is not beyond the end. *)
Definition is_char_boundary (s : string) (i : nat) : bool :=
  match String.get i s with None => true | Some c => starts_char c end.

Fixpoint str_take (n : nat) (s : string) : string :=
  match n, s with
  | S n, String c s => String c (str_take n s)
  | _, _ => EmptyString
  end.

Fixpoint str_drop (n : nat) (s : string) : string :=
  match n, s with
  | S n, String _ s => str_drop n s
  | _, _ => s
  end.

(** [String::truncate]. *)
Definition truncate (n : nat) (s : string) : option string :=
  if (String.length s <=? n)%nat then Some s
  else if is_char_boundary s n then Some (str_take n s) else None.

(** [String::replace_range]. *)
Definition replace_range (from to : nat) (rep s : string) : option string :=
  if ((from <=? to) && (to <=? String.length s))%nat && is_char_boundary s from && is_char_boundary s to
  then Some (str_take from s +:+ rep +:+ str_drop to s) else None.

(** [str::find] with a pattern: the offset of the first occurrence. *)
Fixpoint str_find (pat s : string) : option nat :=
  if String.prefix pat s then Some 0
  else match s with EmptyString => None | String _ s => S <$> str_find pat s end.

Fixpoint ends_with (suf s : string) : bool :=
  String.eqb suf s || match s with EmptyString => false | String _ s => ends_with suf s end.

(** The scan of [str::replace]; [skip] bytes of an occurrence are left. *)
Fixpoint replace_from (pat rep : string) (skip : nat) (s : string) : string :=
  match s with
  | EmptyString => EmptyString
  | String c s' =>
      match skip with
      | S skip => replace_from pat rep skip s'
      | 0 =>
          if String.prefix pat s then rep +:+ replace_from pat rep (String.length pat - 1) s'
          else String c (replace_from pat rep 0 s')
      end
  end.

(** An empty pattern occurs before every character and at the end. *)
Fixpoint insert_everywhere (rep s : string) : string :=
  match s with
  | EmptyString => rep
  | String c s => (if starts_char c then rep else EmptyString) +:+ String c (insert_everywhere rep s)
  end.

(** [str::replace]. *)
Definition str_replace (pat rep s : string) : string :=
  if str_is_empty pat then insert_everywhere rep s else replace_from pat rep 0 s.

(** [s[from..to]] and [s[from..]]: a range that is reversed, too long or inside
    a character is a panic. *)
Definition slice (from to : nat) (s : string) : option string :=
  if ((from <=? to) && (to <=? String.length s))%nat && is_char_boundary s from && is_char_boundary s to
  then Some (str_take (to - from) (str_drop from s)) else None.
Definition slice_from (from : nat) (s : string) : option string := slice from (String.length s) s.

(** [chars().take(n)]: a byte that continues a character does not count. *)
Fixpoint take_chars (n : nat) (s : string) : string :=
  match s with
  | EmptyString => EmptyString
  | String c s =>
      if starts_char c
      then match n with 0 => EmptyString | S n => String c (take_chars n s) end
      else String c (take_chars n s)
  end.

(** [str::rfind]. *)
Fixpoint str_rfind (pat s : string) : option nat :=
  let here := if String.prefix pat s then Some 0 else None in
  match s with
  | EmptyString => here
  | String _ s => match str_rfind pat s with Some i => Some (S i) | None => here end
  end.

(** [trim_start_matches], [trim_end_matches] and [trim_matches] with a
    predicate that holds of all characters beyond ASCII or of none, so that it
    can be asked of each byte. *)
Fixpoint trim_start_by (p : ascii → bool) (s : string) : string :=
  match s with
  | EmptyString => EmptyString
  | String c s' => if p c then trim_start_by p s' else s
  end.
Fixpoint trim_end_by (p : ascii → bool) (s : string) : string :=
  match s with
  | EmptyString => EmptyString
  | String c s' =>
      match trim_end_by p s' with
      | EmptyString => if p c then EmptyString else String c EmptyString
      | s' => String c s'
      end
  end.
Definition trim_by (p : ascii → bool) (s : string) : string := trim_end_by p (trim_start_by p s).

(** [str::chars().filter(p)] with such a predicate. *)
Fixpoint str_filter (p : ascii → bool) (s : string) : string :=
  match s with
  | EmptyString => EmptyString
  | String c s => if p c then String c (str_filter p s) else str_filter p s
  end.

Fixpoint str_exists (p : ascii → bool) (s : string) : bool :=
  match s with EmptyString => false | String c s => p c || str_exists p s end.

(** One of the characters of a text. *)
Definition char_in (cs : string) (c : ascii) : bool := str_exists (Ascii.eqb c) cs.

Definition is_ascii_alphabetic (c : ascii) : bool := is_ascii_lowercase c || is_ascii_uppercase c.
Definition is_ascii_whitespace (c : ascii) : bool :=
  let n := ascii_N c in ((n =? 9) || (n =? 10) || (n =? 12) || (n =? 13) || (n =? 32))%N.

Definition to_ascii_uppercase_char (c : ascii) : ascii :=
  if is_ascii_lowercase c then ascii_of_N (ascii_N c - 32) else c.
Fixpoint to_ascii_uppercase (s : string) : string :=
  match s with
  | EmptyString => EmptyString
  | String c s => String (to_ascii_uppercase_char c) (to_ascii_uppercase s)
  end.

Definition eq_ignore_ascii_case (a b : string) : bool :=
  (to_ascii_lowercase a =? to_ascii_lowercase b)%string.

(** [str::replace] with a set of characters. *)
Fixpoint replace_chars (p : ascii → bool) (rep s : string) : string :=
  match s with
  | EmptyString => EmptyString
  | String c s => (if p c then rep else String c EmptyString) +:+ replace_chars p rep s
  end.

(** The quoted form of a text, [{:?}], and that of an [Option<String>]. *)
Class DebugText := { debug_str : string → string }.
Definition debug_opt `{DebugText} (o : option string) : string :=
  match o with Some s => "Some(" +:+ debug_str s +:+ ")" | None => "None" end.

(** [str::to_uppercase] follows the tables of Unicode; on ASCII it is
    [to_ascii_uppercase]. *)
Class Unicode := { to_uppercase : string → string }.
Definition is_ascii_text (s : string) : bool := str_all (λ c, (ascii_N c <? 128)%N) s.
Class UnicodeLaws `{Unicode} := {
  to_uppercase_ascii s : is_ascii_text s = true → to_uppercase s = to_ascii_uppercase s;
}.

(** ** Replacements that bring a pattern back *)

Lemma prefix_nil s : String.prefix EmptyString s = true.
Proof. by destruct s. Qed.

(** A prefix of [a +:+ z] is compatible with [a]. *)
Lemma prefix_compat p a z :
  String.prefix p (a +:+ z) = true → String.prefix p a || String.prefix a p = true.
Proof.
  revert p. induction a as [|c a IH]; intros [|d p]; rewrite ?prefix_nil, ?orb_true_r; try done.
  rewrite str_app_cons. simpl. destruct (ascii_dec d c) as [->|]; [|done].
  destruct (ascii_dec c c); [|done]. by apply IH.
Qed.

Fixpoint tails (s : string) : list string :=
  match s with EmptyString => [] | String _ s' => s :: tails s' end.

(** Text that replaces something can be neither the beginning, the middle nor
    the end of an occurrence of [q]. *)
Definition inert (q rep : string) : bool :=
  negb (str_is_empty rep) &&
  forallb (λ t, negb (String.prefix q t || String.prefix t q)) (tails rep) &&
  forallb (λ t, negb (String.prefix t rep || String.prefix rep t))
    (match q with EmptyString => [] | String _ q => tails q end).

Lemma inert_inside q rep z :
  forallb (λ t, negb (String.prefix q t || String.prefix t q)) (tails rep) = true →
  str_contains_from q z = false → str_contains_from q (rep +:+ z) = false.
Proof.
  induction rep as [|c rep IH]; [done|]. simpl. rewrite andb_true_iff.
  intros [Ht Hr] Hz. apply negb_true_iff in Ht. rewrite orb_false_iff. split; [|by apply IH].
  apply not_true_iff_false. intros Hp. apply (prefix_compat q (String c rep) z) in Hp. simpl in *. congruence.
Qed.

Lemma replace_prefix pat rep t s :
  forallb (λ t, negb (String.prefix t rep || String.prefix rep t)) (tails t) = true →
  String.prefix t (replace_from pat rep 0 s) = true → String.prefix t s = true.
Proof.
  revert s. induction t as [|a t IH]; intros [|c s]; [done..|]. cbn [tails forallb].
  rewrite andb_true_iff. intros [Ha Ht] Hp. apply negb_true_iff in Ha. cbn [replace_from] in Hp.
  destruct (String.prefix pat (String c s)).
  - exfalso. apply prefix_compat in Hp. congruence.
  - simpl in *. destruct (ascii_dec a c); [|done]. by apply IH.
Qed.

(** What does not occur before, or is what is being replaced, does not occur
    after. *)
Lemma replace_keeps_out q pat rep skip s :
  inert q rep = true → q ≠ EmptyString → q = pat ∨ str_contains_from q s = false →
  str_contains_from q (replace_from pat rep skip s) = false.
Proof.
  unfold inert. rewrite !andb_true_iff. intros [[_ Hin] Hov] Hq.
  assert (str_contains_from q EmptyString = false) as Hnil by (by destruct q).
  revert skip. induction s as [|c s IH]; intros skip Hs; [done|]. cbn [replace_from].
  assert (q = pat ∨ str_contains_from q s = false) as Hs'
    by (destruct Hs as [|Hs]; [by left|right]; simpl in Hs; by apply orb_false_iff in Hs as [_ ?]).
  destruct skip as [|skip]; [|by apply IH].
  destruct (String.prefix pat (String c s)) eqn:Hp.
  { apply inert_inside; [done|by apply IH]. }
  cbn [str_contains_from]. rewrite orb_false_iff. split; [|by apply IH].
  apply not_true_iff_false. intros Hq2. assert (String.prefix q (String c s) = true) as Hq3.
  { destruct q as [|a q]; [done|]. simpl in *. destruct (ascii_dec a c); [|done].
    by eapply replace_prefix. }
  destruct Hs as [->|Hs]; [congruence|]. cbn [str_contains_from] in Hs. by rewrite Hq3 in Hs.
Qed.

Lemma length_str_take n s : String.length (str_take n s) = min n (String.length s).
Proof. revert s. induction n as [|n IH]; intros [|c s]; simpl; [done..|]. by rewrite IH. Qed.

(** ** Slices of ASCII text *)

Lemma ascii_boundary s i : is_ascii_text s = true → is_char_boundary s i = true.
Proof.
  intros Ha. unfold is_char_boundary. revert i Ha. induction s as [|c s IH]; intros i; [by destruct i|].
  unfold is_ascii_text. simpl. rewrite andb_true_iff. intros [Hc Hs]. destruct i as [|i]; [|by apply IH].
  unfold starts_char, ascii_N in *. by rewrite Hc.
Qed.

Lemma slice_ascii from to s :
  is_ascii_text s = true → from ≤ to → to ≤ String.length s →
  slice from to s = Some (str_take (to - from) (str_drop from s)).
Proof.
  intros Ha H1 H2. unfold slice. rewrite !ascii_boundary by done.
  by rewrite (proj2 (Nat.leb_le _ _) H1), (proj2 (Nat.leb_le _ _) H2).
Qed.

(** ** Words and lines *)

Definition graphic (c : ascii) : bool := let n := ascii_N c in ((33 <=? n) && (n <=? 126))%N.

Lemma split_word w acc rest : str_all graphic w = true →
  split_whitespace_go acc (w +:+ rest) = split_whitespace_go (acc +:+ w) rest.
Proof.
  revert acc. induction w as [|c w IH]; intros acc; [by rewrite str_app_empty, str_app_nil_r|].
  cbn [str_all]. rewrite andb_true_iff. intros [Hc Hw]. rewrite str_app_cons. cbn [split_whitespace_go].
  assert (whitespace1 c = false ∧ (∀ d, whitespace2 c d = false) ∧ ∀ d e, whitespace3 c d e = false) as (-> & H2 & H3).
  { revert Hc. clear. destruct c as [[] [] [] [] [] [] [] []]; (intros Hc; vm_compute in Hc; try discriminate); by split_and!. }
  rewrite IH by done. rewrite str_app_assoc, str_app_cons, str_app_empty.
  destruct (w +:+ rest) as [|c2 s2]; [done|]. rewrite H2. destruct s2 as [|c3 s3]; [done|]. by rewrite H3.
Qed.

Definition is_word (w : string) : Prop := w ≠ EmptyString ∧ str_all graphic w = true.

Lemma str_join_cons sep w v ws : str_join sep (w :: v :: ws) = w +:+ sep +:+ str_join sep (v :: ws).
Proof.
  cbn [str_join foldl].
  assert (∀ a b, foldl (λ acc y, acc +:+ sep +:+ y) (a +:+ b) ws = a +:+ foldl (λ acc y, acc +:+ sep +:+ y) b ws) as Hf.
  { induction ws as [|y ws IH]; intros a b; [done|]. cbn [foldl]. by rewrite str_app_assoc, IH. }
  by rewrite !Hf.
Qed.

Lemma split_words sep w ws : whitespace1 sep = true → is_word w → Forall is_word ws →
  split_whitespace (str_join (String sep EmptyString) (w :: ws)) = w :: ws.
Proof.
  intros Hsep. revert w. induction ws as [|v ws IH]; intros w [Hne Hg] Hws.
  - unfold split_whitespace. cbn [str_join foldl]. rewrite <-(str_app_nil_r w) at 1. rewrite split_word by done.
    cbn. unfold flush_word. by destruct w.
  - apply Forall_cons in Hws as [Hv Hws]. rewrite str_join_cons. unfold split_whitespace in *.
    rewrite split_word by done. rewrite str_app_cons, !str_app_empty. cbn [split_whitespace_go].
    rewrite Hsep, IH by done. unfold flush_word. by destruct w.
Qed.

Lemma str_rev_all p s acc : str_all p (str_rev s acc) = str_all p s && str_all p acc.
Proof.
  revert acc. induction s as [|c s IH]; intros acc; [done|]. cbn [str_rev str_all]. rewrite IH. cbn [str_all].
  by destruct (p c), (str_all p s), (str_all p acc).
Qed.

(** A line that holds neither a line feed nor a carriage return. *)
Definition is_line (s : string) : Prop :=
  str_all (λ c, negb (Ascii.eqb c (ascii_of_nat 13))) s = true ∧ str_all (char_ne (ascii_of_nat 10)) s = true.

Definition LF : string := String (ascii_of_nat 10) EmptyString.

Lemma str_lines_cons line rest : is_line line → str_lines (line +:+ LF +:+ rest) = line :: str_lines rest.
Proof.
  intros [Hcr Hlf]. unfold str_lines, LF. rewrite str_app_cons, str_app_empty, str_split_sep by done.
  pose proof (str_split_nonempty (ascii_of_nat 10) rest) as Hne. destruct (str_split _ rest) as [|p ps] eqn:Es; [done|].
  cbn [lines_of]. f_equal. unfold strip_cr. pose proof (str_rev_all (λ c, negb (Ascii.eqb c (ascii_of_nat 13))) line EmptyString) as Hr.
  destruct (str_rev line EmptyString) as [|c s] eqn:Er; [done|]. rewrite Hcr in Hr. cbn [str_all] in Hr.
  apply andb_true_iff in Hr as [Hc _]. by apply negb_true_iff in Hc as ->.
Qed.

Lemma str_lines_concat lines : Forall is_line lines → str_lines (foldr (λ l s, l +:+ LF +:+ s) EmptyString lines) = lines.
Proof. induction 1 as [|l lines Hl _ IH]; [done|]. cbn [foldr]. by rewrite str_lines_cons, IH. Qed.

(** ** Texts in texts *)

Lemma prefix_spec p s : String.prefix p s = true ↔ ∃ b, s = p +:+ b.
Proof.
  revert s. induction p as [|c p IH]; intros s; [split; [intros _; exists s; by rewrite str_app_empty|by destruct s]|]. destruct s as [|d s].
  { split; [done|]. intros [b H]. by rewrite str_app_cons in H. }
  cbn [String.prefix]. destruct (ascii_dec c d) as [->|Hne].
  - rewrite IH. split; intros [b Hb]; exists b; rewrite ?str_app_cons in *; [by rewrite Hb|by injection Hb].
  - split; [done|]. intros [b Hb]. rewrite str_app_cons in Hb. congruence.
Qed.

Lemma contains_spec p s : str_contains_from p s = true ↔ ∃ a b, s = a +:+ p +:+ b.
Proof.
  induction s as [|c s IH]; cbn [str_contains_from]; rewrite orb_true_iff, prefix_spec.
  - split; [intros [[b Hb]|]; [by exists EmptyString, b|done]|]. intros (a & b & H).
    destruct a; [|by rewrite str_app_cons in H]. left. by exists b.
  - rewrite IH. split.
    + intros [[b Hb]|(a & b & Hb)]; [by exists EmptyString, b|]. exists (String c a), b. by rewrite str_app_cons, Hb.
    + intros ([|d a] & b & H); [left; by exists b|right]. rewrite str_app_cons in H. injection H as _ H. by exists a, b.
Qed.

Lemma contains_trans p q s : str_contains_from q s = true → str_contains_from p q = true → str_contains_from p s = true.
Proof.
  rewrite !contains_spec. intros (a & b & ->) (a' & b' & ->). exists (a +:+ a'), (b' +:+ b). by rewrite !str_app_assoc.
Qed.

Lemma ends_contains p s : ends_with p s = true → str_contains_from p s = true.
Proof.
  induction s as [|c s IH]; cbn [ends_with str_contains_from]; rewrite !orb_true_iff.
  - intros [->%String.eqb_eq|]; [by left|done].
  - intros [<-%String.eqb_eq|H]; [left|right; auto]. apply prefix_spec. exists EmptyString. by rewrite str_app_nil_r.
Qed.

Lemma trim_end_prefix f s : ∃ b, s = trim_end_by f s +:+ b.
Proof.
  induction s as [|c s [b IH]]; [by exists EmptyString|]. cbn [trim_end_by].
  destruct (trim_end_by f s) as [|d t].
  - destruct (f c); [by exists (String c s)|exists s; by rewrite str_app_cons].
  - exists b. rewrite IH at 1. by rewrite !str_app_cons.
Qed.

Lemma trimmed_contains f p s : str_contains_from p (trim_end_by f s) = true → str_contains_from p s = true.
Proof.
  intros H. eapply contains_trans; [|done]. apply contains_spec. destruct (trim_end_prefix f s) as [b Hb].
  exists EmptyString, b. by rewrite str_app_empty.
Qed.

Lemma dropped_contains n p s : str_contains_from p (str_drop n s) = true → str_contains_from p s = true.
Proof.
  revert s. induction n as [|n IH]; intros [|c s]; try done. simpl. intros H%IH. by rewrite H, orb_true_r.
Qed.

Lemma taken_contains n p s : str_contains_from p (str_take n s) = true → str_contains_from p s = true.
Proof.
  intros H. eapply contains_trans; [|done]. apply contains_spec. exists EmptyString, (str_drop n s).
  rewrite str_app_empty. clear. revert s. induction n as [|n IH]; intros [|c s]; try done. simpl. by rewrite str_app_cons, <-IH.
Qed.

Lemma str_rev_app s acc : str_rev s acc = str_rev s EmptyString +:+ acc.
Proof.
  revert acc. induction s as [|c s IH]; intros acc; [done|]. cbn [str_rev]. rewrite IH, (IH (String c EmptyString)).
  by rewrite str_app_assoc, str_app_cons, str_app_empty.
Qed.

Lemma str_rev_concat a b : str_rev (a +:+ b) EmptyString = str_rev b EmptyString +:+ str_rev a EmptyString.
Proof.
  induction a as [|c a IH]; [by rewrite str_app_empty, str_app_nil_r|]. rewrite str_app_cons. cbn [str_rev].
  by rewrite str_rev_app, IH, (str_rev_app a (String c EmptyString)), str_app_assoc.
Qed.

Lemma str_rev_involutive s : str_rev (str_rev s EmptyString) EmptyString = s.
Proof.
  induction s as [|c s IH]; [done|]. cbn [str_rev]. rewrite (str_rev_app s (String c EmptyString)), str_rev_concat, IH.
  done.
Qed.

(** What is left at the end of a text. *)
Definition end_of (t s : string) : Prop := ∃ a, s = a +:+ t.

Lemma end_of_refl s : end_of s s.
Proof. exists EmptyString. by rewrite str_app_empty. Qed.
Lemma end_of_nil s : end_of EmptyString s.
Proof. exists s. by rewrite str_app_nil_r. Qed.
Lemma end_of_cons c t s : end_of t s → end_of t (String c s).
Proof. intros [a ->]. exists (String c a). by rewrite str_app_cons. Qed.

Ltac leaves_end s IH := destruct s as [|c1 s1]; [apply end_of_nil|];
  match goal with |- end_of (?f _) _ => unfold f; fold f end;
  destruct (whitespace1 c1); [|destruct s1 as [|c2 s2]; [|destruct (whitespace2 _ _); [|destruct s2 as [|c3 s3];
    [|destruct (whitespace3 _ _ _)]]]];
  try apply end_of_refl; repeat apply end_of_cons; apply IH; unfold ltof; simpl; lia.

Lemma trim_start_end s : end_of (trim_start s) s.
Proof. induction s as [s IH] using (induction_ltof1 _ String.length). leaves_end s IH. Qed.
Lemma trim_reversed_end s : end_of (trim_reversed s) s.
Proof. induction s as [s IH] using (induction_ltof1 _ String.length). leaves_end s IH. Qed.

Lemma trim_contains p s : str_contains_from p (str_trim s) = true → str_contains_from p s = true.
Proof.
  intros H. eapply contains_trans; [|done]. apply contains_spec. unfold str_trim.
  destruct (trim_start_end s) as [a Ha]. destruct (trim_reversed_end (str_rev (trim_start s) EmptyString)) as [b Hb].
  exists a, (str_rev b EmptyString). rewrite Ha at 1. f_equal.
  by rewrite <-str_rev_concat, <-Hb, str_rev_involutive.
Qed.
