(* ===== verification/Signing.v ===== *)
(** * Signed manifests and signed updates

    Models security/aether-security/src/manifest_signing.rs and
    security/aether-security/src/signed_update.rs.  Ed25519 (ed25519_dalek),
    SHA-256 (sha2) and the JSON serializer (serde_json) are third-party code:
    they are the operations of the class [Crypto], and what the code relies on
    is the class [CryptoLaws].  [ToyCrypto] is an instance of both, used to
    run the definitions on concrete inputs. *)
From S2P Require Import Prelude RustStd.
From Stdlib Require Import Ascii.

(** ** Data of signed_update.rs *)

Inductive UpdateKind := OsImage | ServiceBundle | AgentModel.

#[export] Instance UpdateKind_eq_dec : EqDecision UpdateKind.
Proof. solve_decision. Defined.

Definition UpdateKind_as_str (k : UpdateKind) : string :=
  match k with
  | OsImage => "os-image"
  | ServiceBundle => "service-bundle"
  | AgentModel => "agent-model"
  end.

Record UpdateHeader := mkUpdateHeader {
  hdr_magic : string;
  hdr_kind : UpdateKind;
  hdr_target : string;
  hdr_version : string;
  hdr_timestamp_ms : N;
  hdr_payload_len : N;
  hdr_signer_key_id : string;
}.

Record SignedUpdate := mkSignedUpdate {
  su_header : UpdateHeader;
  su_payload : list byte;
  su_signature : list byte;
}.

Definition MAGIC : string := "AETHER-UPDATE-V1".
Definition SIGNATURE_LEN : nat := 64.

(** Third-party operations.  [VerifyingKey] and [SigningKey] are the key types
    of ed25519_dalek; [sig_try_from] is [Signature::try_from] on a slice. *)
Class Crypto := {
  VerifyingKey : Type;
  SigningKey : Type;
  Signature : Type;
  vk_from_bytes : list byte → option VerifyingKey;
  vk_to_bytes : VerifyingKey → list byte;
  vk_verify : VerifyingKey → list byte → Signature → bool;
  sk_from_seed : list byte → SigningKey;
  sk_verifying_key : SigningKey → VerifyingKey;
  sk_sign : SigningKey → list byte → Signature;
  sig_try_from : list byte → option Signature;
  sig_to_bytes : Signature → list byte;
  sha256 : list byte → list byte;
  header_json : UpdateHeader → list byte;
}.

(** What the code relies on of those libraries: key and signature encodings
    round-trip at their documented lengths, a signature made by a key verifies
    under its public key, and a SHA-256 digest has 32 bytes. *)
Class CryptoLaws (C : Crypto) := {
  vk_round_trip : ∀ k, vk_from_bytes (vk_to_bytes k) = Some k;
  vk_to_bytes_len : ∀ k, length (vk_to_bytes k) = 32;
  sig_round_trip : ∀ s, sig_try_from (sig_to_bytes s) = Some s;
  sig_to_bytes_len : ∀ s, length (sig_to_bytes s) = 64;
  sign_verifies : ∀ k m, vk_verify (sk_verifying_key k) m (sk_sign k m) = true;
  sha256_len : ∀ m, length (sha256 m) = 32;
}.

(** The JSON text of a header is one object, whose end can be told from what
    follows it and from which the fields can be read back. *)
Class HeaderDelimited (C : Crypto) :=
  header_json_delimited h1 h2 r1 r2 : header_json h1 ++ r1 = header_json h2 ++ r2 → h1 = h2 ∧ r1 = r2.

(** ** Fingerprints *)

Record Fingerprint := mkFingerprint { fp_hex : string }.

#[export] Instance Fingerprint_eq_dec : EqDecision Fingerprint.
Proof. solve_decision. Defined.

Definition FINGERPRINT_LEN : nat := 16.

Definition hex_of_bytes (l : list byte) : string :=
  foldr (λ b acc, hex_fixed 2 (Byte.to_N b) +:+ acc) EmptyString l.

Definition Fingerprint_for_public_key {C : Crypto} (k : VerifyingKey) : Fingerprint :=
  let digest := sha256 (vk_to_bytes k) in
  mkFingerprint (hex_of_bytes (take FINGERPRINT_LEN digest)).

Definition Fingerprint_from_hex (s : string) : option Fingerprint :=
  if negb (String.length s =? FINGERPRINT_LEN * 2)%nat || negb (str_all is_ascii_hexdigit s)
  then None
  else Some (mkFingerprint (to_ascii_lowercase s)).

Definition Fingerprint_as_hex (f : Fingerprint) : string := fp_hex f.

(** ** The trust store of manifest_signing.rs *)

Module Manifest.

Record SignatureEnvelope := mkSignatureEnvelope {
  env_signature : list byte;
  env_signer_fingerprint : string;
}.

Record SignedManifest := mkSignedManifest {
  sm_manifest_bytes : list byte;
  sm_signer_public_key : list byte;
  sm_signature : SignatureEnvelope;
}.

Inductive ManifestVerifyError :=
| MalformedManifest
| BadSignatureShape
| ManifestBadPublicKey
| ManifestUnknownSigner
| ManifestSignatureInvalid.

Definition ManifestVerifyError_display (e : ManifestVerifyError) : string :=
  match e with
  | MalformedManifest => "manifest bytes are malformed"
  | BadSignatureShape => "signature or public key has the wrong length"
  | ManifestBadPublicKey => "public key is not a valid Ed25519 verifying key"
  | ManifestUnknownSigner => "signer is not in the trust store"
  | ManifestSignatureInvalid => "Ed25519 signature verification failed"
  end.

(** [TrustStore]: a [BTreeSet<String>] of fingerprints. *)
Record TrustStore := mkTrustStore { ts_fingerprints : gset string }.

Definition TrustStore_new : TrustStore := mkTrustStore ∅.

Definition TrustStore_trust (f : Fingerprint) (t : TrustStore) : TrustStore * bool :=
  (mkTrustStore ({[ fp_hex f ]} ∪ ts_fingerprints t),
   negb (bool_decide (fp_hex f ∈ ts_fingerprints t))).

Definition TrustStore_revoke (f : Fingerprint) (t : TrustStore) : TrustStore * bool :=
  (mkTrustStore (ts_fingerprints t ∖ {[ fp_hex f ]}),
   bool_decide (fp_hex f ∈ ts_fingerprints t)).

Definition TrustStore_is_trusted (t : TrustStore) (f : Fingerprint) : bool :=
  bool_decide (fp_hex f ∈ ts_fingerprints t).

Definition TrustStore_len (t : TrustStore) : nat := size (ts_fingerprints t).

Definition TrustStore_is_empty (t : TrustStore) : bool := (TrustStore_len t =? 0)%nat.

Definition TrustStore_fingerprints (t : TrustStore) : list Fingerprint :=
  mkFingerprint <$> merge_sort String.le (elements (ts_fingerprints t)).

Definition canonical_manifest_bytes (m : list byte) : list byte := m.

Definition verify_signed_manifest {C : Crypto} (signed : SignedManifest) (trust : TrustStore) :
    result unit ManifestVerifyError :=
  if negb (length (env_signature (sm_signature signed)) =? 64)%nat
     || negb (length (sm_signer_public_key signed) =? 32)%nat
  then Err BadSignatureShape
  else
    match vk_from_bytes (sm_signer_public_key signed) with
    | None => Err ManifestBadPublicKey
    | Some public_key =>
        let fingerprint := Fingerprint_for_public_key public_key in
        if negb (TrustStore_is_trusted trust fingerprint) then Err ManifestUnknownSigner
        else
          let canonical := canonical_manifest_bytes (sm_manifest_bytes signed) in
          match sig_try_from (env_signature (sm_signature signed)) with
          | None => Err BadSignatureShape
          | Some signature =>
              if vk_verify public_key canonical signature then Ok tt
              else Err ManifestSignatureInvalid
          end
    end.

(** [Ed25519ManifestSigner]. *)
Record ManifestSigner {C : Crypto} := mkManifestSigner {
  ms_signing_key : SigningKey;
  ms_verifying_key : VerifyingKey;
}.
Arguments ManifestSigner _ : clear implicits.

Definition ManifestSigner_from_seed {C : Crypto} (seed : list byte) : ManifestSigner C :=
  let signing_key := sk_from_seed seed in
  mkManifestSigner _ signing_key (sk_verifying_key signing_key).

Definition ManifestSigner_fingerprint {C : Crypto} (s : ManifestSigner C) : Fingerprint :=
  Fingerprint_for_public_key (ms_verifying_key s).

Definition ManifestSigner_sign {C : Crypto} (s : ManifestSigner C) (manifest_bytes : list byte) :
    SignedManifest :=
  let canonical := canonical_manifest_bytes manifest_bytes in
  let signature := sk_sign (ms_signing_key s) canonical in
  mkSignedManifest manifest_bytes (vk_to_bytes (ms_verifying_key s))
    (mkSignatureEnvelope (sig_to_bytes signature)
       (fp_hex (Fingerprint_for_public_key (ms_verifying_key s)))).

End Manifest.

(** ** signed_update.rs *)

Module Update.

Inductive UpdateVerifyError :=
| BadMagic
| PayloadLengthMismatch
| BadSignatureLength
| BadPublicKey
| UnknownSigner
| BadTarget
| SignatureInvalid.

Definition UpdateVerifyError_display (e : UpdateVerifyError) : string :=
  match e with
  | BadMagic => "update header magic mismatch"
  | PayloadLengthMismatch => "payload length does not match header"
  | BadSignatureLength => "signature is not 64 bytes"
  | BadPublicKey => "signer public key is not a valid Ed25519 key"
  | UnknownSigner => "signer is not in the trust list"
  | BadTarget => "update target is empty or malformed"
  | SignatureInvalid => "Ed25519 signature verification failed"
  end.

Record UpdateTrustList := mkUpdateTrustList { utl_fingerprints : gset string }.

Definition UpdateTrustList_new : UpdateTrustList := mkUpdateTrustList ∅.

Definition UpdateTrustList_trust (f : Fingerprint) (t : UpdateTrustList) :
    UpdateTrustList * bool :=
  (mkUpdateTrustList ({[ Fingerprint_as_hex f ]} ∪ utl_fingerprints t),
   negb (bool_decide (Fingerprint_as_hex f ∈ utl_fingerprints t))).

Definition UpdateTrustList_is_trusted (t : UpdateTrustList) (f : Fingerprint) : bool :=
  bool_decide (Fingerprint_as_hex f ∈ utl_fingerprints t).

Definition UpdateTrustList_len (t : UpdateTrustList) : nat := size (utl_fingerprints t).

Section verify.
Context {C : Crypto}.

Definition header_canonical_bytes (h : UpdateHeader) : list byte := header_json h.

Definition signed_bytes (u : SignedUpdate) : list byte :=
  header_canonical_bytes (su_header u) ++ su_payload u.

(** The deprecated entry point refuses everything. *)
Definition verify_signed_update (u : SignedUpdate) (t : UpdateTrustList) :
    result unit UpdateVerifyError := Err UnknownSigner.

Definition verify_signed_update_with_key (u : SignedUpdate) (public_key_bytes : list byte) :
    result unit UpdateVerifyError :=
  if negb (bool_decide (hdr_magic (su_header u) = MAGIC)) then Err BadMagic
  else if str_is_empty (hdr_target (su_header u)) then Err BadTarget
  else if negb (hdr_payload_len (su_header u) =? N.of_nat (length (su_payload u)))%N
  then Err PayloadLengthMismatch
  else if negb (length (su_signature u) =? SIGNATURE_LEN)%nat then Err BadSignatureLength
  else
    match vk_from_bytes public_key_bytes with
    | None => Err BadPublicKey
    | Some verifying_key =>
        let signed := signed_bytes u in
        match sig_try_from (su_signature u) with
        | None => Err BadSignatureLength
        | Some signature =>
            if vk_verify verifying_key signed signature then Ok tt else Err SignatureInvalid
        end
    end.

Definition verify_signed_update_trusted (u : SignedUpdate) (public_key_bytes : list byte)
    (trust : UpdateTrustList) : result unit UpdateVerifyError :=
  if negb (bool_decide (hdr_magic (su_header u) = MAGIC)) then Err BadMagic
  else if str_is_empty (hdr_target (su_header u)) then Err BadTarget
  else if negb (hdr_payload_len (su_header u) =? N.of_nat (length (su_payload u)))%N
  then Err PayloadLengthMismatch
  else if negb (length (su_signature u) =? SIGNATURE_LEN)%nat then Err BadSignatureLength
  else
    match vk_from_bytes public_key_bytes with
    | None => Err BadPublicKey
    | Some verifying_key =>
        let fingerprint := Fingerprint_for_public_key verifying_key in
        if negb (bool_decide (Fingerprint_as_hex fingerprint = hdr_signer_key_id (su_header u)))
        then Err UnknownSigner
        else if negb (UpdateTrustList_is_trusted trust fingerprint) then Err UnknownSigner
        else
          let signed := signed_bytes u in
          match sig_try_from (su_signature u) with
          | None => Err BadSignatureLength
          | Some signature =>
              if vk_verify verifying_key signed signature then Ok tt else Err SignatureInvalid
          end
    end.

(** [UpdateSigner]. *)
Record UpdateSigner := mkUpdateSigner {
  us_signing_key : SigningKey;
  us_verifying_key : VerifyingKey;
}.

Definition UpdateSigner_from_seed (seed : list byte) : UpdateSigner :=
  let signing_key := sk_from_seed seed in
  mkUpdateSigner signing_key (sk_verifying_key signing_key).

Definition UpdateSigner_public_key_bytes (s : UpdateSigner) : list byte :=
  vk_to_bytes (us_verifying_key s).

Definition UpdateSigner_fingerprint (s : UpdateSigner) : Fingerprint :=
  Fingerprint_for_public_key (us_verifying_key s).

Definition UpdateSigner_sign (s : UpdateSigner) (kind : UpdateKind) (target version : string)
    (timestamp_ms : N) (payload : list byte) : SignedUpdate :=
  let header := mkUpdateHeader MAGIC kind target version timestamp_ms
                  (N.of_nat (length payload)) (Fingerprint_as_hex (UpdateSigner_fingerprint s)) in
  let bytes := header_canonical_bytes header ++ payload in
  let signature := sk_sign (us_signing_key s) bytes in
  mkSignedUpdate header payload (sig_to_bytes signature).

Definition payload_sha256 (payload : list byte) : list byte := sha256 payload.

End verify.

(** [SignedUpdateBuilder]: each setter consumes the builder and returns it. *)
Record SignedUpdateBuilder := mkSignedUpdateBuilder {
  sb_header : UpdateHeader;
  sb_payload : list byte;
  sb_signature : list byte;
}.

Definition builder_new : SignedUpdateBuilder :=
  mkSignedUpdateBuilder
    (mkUpdateHeader MAGIC ServiceBundle EmptyString EmptyString 0 0 EmptyString) [] [].

Definition builder_kind (k : UpdateKind) (b : SignedUpdateBuilder) : SignedUpdateBuilder :=
  let h := sb_header b in
  mkSignedUpdateBuilder
    (mkUpdateHeader (hdr_magic h) k (hdr_target h) (hdr_version h) (hdr_timestamp_ms h)
       (hdr_payload_len h) (hdr_signer_key_id h)) (sb_payload b) (sb_signature b).

Definition builder_target (t : string) (b : SignedUpdateBuilder) : SignedUpdateBuilder :=
  let h := sb_header b in
  mkSignedUpdateBuilder
    (mkUpdateHeader (hdr_magic h) (hdr_kind h) t (hdr_version h) (hdr_timestamp_ms h)
       (hdr_payload_len h) (hdr_signer_key_id h)) (sb_payload b) (sb_signature b).

Definition builder_version (v : string) (b : SignedUpdateBuilder) : SignedUpdateBuilder :=
  let h := sb_header b in
  mkSignedUpdateBuilder
    (mkUpdateHeader (hdr_magic h) (hdr_kind h) (hdr_target h) v (hdr_timestamp_ms h)
       (hdr_payload_len h) (hdr_signer_key_id h)) (sb_payload b) (sb_signature b).

Definition builder_timestamp_ms (ts : N) (b : SignedUpdateBuilder) : SignedUpdateBuilder :=
  let h := sb_header b in
  mkSignedUpdateBuilder
    (mkUpdateHeader (hdr_magic h) (hdr_kind h) (hdr_target h) (hdr_version h) ts
       (hdr_payload_len h) (hdr_signer_key_id h)) (sb_payload b) (sb_signature b).

Definition builder_payload (p : list byte) (b : SignedUpdateBuilder) : SignedUpdateBuilder :=
  let h := sb_header b in
  mkSignedUpdateBuilder
    (mkUpdateHeader (hdr_magic h) (hdr_kind h) (hdr_target h) (hdr_version h)
       (hdr_timestamp_ms h) (N.of_nat (length p)) (hdr_signer_key_id h)) p (sb_signature b).

Definition builder_signer_key_id (i : string) (b : SignedUpdateBuilder) : SignedUpdateBuilder :=
  let h := sb_header b in
  mkSignedUpdateBuilder
    (mkUpdateHeader (hdr_magic h) (hdr_kind h) (hdr_target h) (hdr_version h)
       (hdr_timestamp_ms h) (hdr_payload_len h) i) (sb_payload b) (sb_signature b).

Definition builder_signature (s : list byte) (b : SignedUpdateBuilder) : SignedUpdateBuilder :=
  mkSignedUpdateBuilder (sb_header b) (sb_payload b) s.

Definition builder_build (b : SignedUpdateBuilder) : SignedUpdate :=
  mkSignedUpdate (sb_header b) (sb_payload b) (sb_signature b).

End Update.

(** ** A runnable instance

    One-byte keys and checksums: not secure, but an instance of the laws, so
    the hypotheses of the theorems below are satisfiable and the definitions
    run. *)

Definition toy_sum (l : list byte) : N := foldr (λ b acc, (Byte.to_N b + acc)%N) 0%N l.

(** A text whose end can be found: every byte is announced. *)
Definition toy_field (s : string) : list byte :=
  foldr (λ b acc, Byte.x01 :: b :: acc) [Byte.x00] (as_bytes s).

Definition toy_header (h : UpdateHeader) : list byte :=
  foldr (λ s acc, toy_field s ++ acc) []
    [hdr_magic h; UpdateKind_as_str (hdr_kind h); hdr_target h; hdr_version h;
     pretty (hdr_timestamp_ms h); pretty (hdr_payload_len h); hdr_signer_key_id h].

#[export] Instance ToyCrypto : Crypto := {|
  VerifyingKey := byte;
  SigningKey := byte;
  Signature := byte;
  vk_from_bytes l := if (length l =? 32)%nat then head l else None;
  vk_to_bytes k := replicate 32 k;
  vk_verify k m s := bool_decide (s = byte_of_N (Byte.to_N k + toy_sum m));
  sk_from_seed l := default Byte.x00 (head l);
  sk_verifying_key k := k;
  sk_sign k m := byte_of_N (Byte.to_N k + toy_sum m);
  sig_try_from l := if (length l =? 64)%nat then head l else None;
  sig_to_bytes s := replicate 64 s;
  sha256 m := be_bytes 32 (toy_sum m);
  header_json := toy_header;
|}.

#[export] Instance ToyCryptoLaws : CryptoLaws ToyCrypto.
Proof.
  split; intros; try done; [].
  simpl. by rewrite bool_decide_eq_true_2.
Qed.

Lemma toy_field_delimited s1 s2 r1 r2 :
  toy_field s1 ++ r1 = toy_field s2 ++ r2 → s1 = s2 ∧ r1 = r2.
Proof.
  unfold toy_field. intros H. enough (as_bytes s1 = as_bytes s2 ∧ r1 = r2) as [E ->].
  { split; [|done]. by rewrite <-(string_of_bytes_as_bytes s1), E, string_of_bytes_as_bytes. }
  revert H. generalize (as_bytes s2). induction (as_bytes s1) as [|b l IH]; intros [|b' l']; cbn;
    [naive_solver|done..|]. intros [= -> H]. by destruct (IH l' H) as [-> ->].
Qed.

Lemma toy_fields_delimited l1 l2 r1 r2 : length l1 = length l2 →
  foldr (λ s acc, toy_field s ++ acc) [] l1 ++ r1 = foldr (λ s acc, toy_field s ++ acc) [] l2 ++ r2 →
  l1 = l2 ∧ r1 = r2.
Proof.
  revert l2. induction l1 as [|s l1 IH]; intros [|s' l2] Hl; cbn; try done. rewrite <-!app_assoc.
  intros [-> H]%toy_field_delimited. injection Hl as Hl. by destruct (IH l2 Hl H) as [-> ->].
Qed.

Lemma toy_header_delimited h1 h2 r1 r2 :
  toy_header h1 ++ r1 = toy_header h2 ++ r2 → h1 = h2 ∧ r1 = r2.
Proof.
  intros [H ->]%toy_fields_delimited; [|done]. split; [|done]. destruct h1, h2; cbn in H. simplify_eq.
  f_equal; by destruct hdr_kind0, hdr_kind1.
Qed.

#[export] Instance ToyCrypto_delimited : HeaderDelimited ToyCrypto.
Proof. exact toy_header_delimited. Qed.

(** ** Fingerprints are canonical hexadecimal strings *)

Lemma hex_of_bytes_lower l : str_all is_lower_hex (hex_of_bytes l) = true.
Proof.
  induction l as [|b l IH]; [done|]. cbn [hex_of_bytes foldr].
  fold (hex_of_bytes l). by rewrite str_all_app, hex_fixed_lower, IH.
Qed.

Lemma length_hex_of_bytes l : String.length (hex_of_bytes l) = 2 * length l.
Proof.
  induction l as [|b l IH]; [done|]. cbn [hex_of_bytes foldr].
  fold (hex_of_bytes l). rewrite str_length_app, length_hex_fixed, IH. simpl. lia.
Qed.

Lemma lower_hex_is_hex c : is_lower_hex c = true → is_ascii_hexdigit c = true.
Proof.
  unfold is_lower_hex, is_ascii_hexdigit. destruct (is_ascii_digit c); [done|].
  simpl. by intros ->.
Qed.

Lemma to_ascii_lowercase_id s : str_all is_lower_hex s = true → to_ascii_lowercase s = s.
Proof.
  induction s as [|c s IH]; simpl; [done|]. rewrite andb_true_iff. intros [Hc Hs].
  rewrite IH by done. f_equal. unfold to_ascii_lowercase_char.
  destruct (is_ascii_uppercase c) eqn:E; [|done]. exfalso.
  revert Hc E. unfold is_lower_hex, is_ascii_uppercase, is_ascii_digit.
  rewrite !orb_true_iff, !andb_true_iff, !N.leb_le. lia.
Qed.

Section laws.
Context {C : Crypto} {L : CryptoLaws C}.

Lemma fingerprint_shape (k : VerifyingKey) :
  String.length (fp_hex (Fingerprint_for_public_key k)) = 32 ∧
  str_all is_lower_hex (fp_hex (Fingerprint_for_public_key k)) = true.
Proof.
  unfold Fingerprint_for_public_key. simpl fp_hex. split; [|apply hex_of_bytes_lower].
  rewrite length_hex_of_bytes, length_take, sha256_len. done.
Qed.

(** Reading back the hexadecimal form of a key's fingerprint gives that
    fingerprint, so the trust store's textual form and the computed one agree. *)
Theorem fingerprint_hex_round_trip (k : VerifyingKey) :
  Fingerprint_from_hex (Fingerprint_as_hex (Fingerprint_for_public_key k))
  = Some (Fingerprint_for_public_key k).
Proof.
  destruct (fingerprint_shape k) as [Hlen Hlow].
  unfold Fingerprint_from_hex, Fingerprint_as_hex. rewrite Hlen.
  rewrite (str_all_impl is_lower_hex is_ascii_hexdigit _ lower_hex_is_hex Hlow).
  change (32 =? FINGERPRINT_LEN * 2)%nat with true. cbn [negb orb].
  by rewrite to_ascii_lowercase_id.
Qed.

Import Update.

(** The conditions under which a signed update is accepted. *)
Definition update_accepted (u : SignedUpdate) (pk : list byte) (trust : UpdateTrustList) : Prop :=
  hdr_magic (su_header u) = MAGIC ∧
  hdr_target (su_header u) ≠ EmptyString ∧
  hdr_payload_len (su_header u) = N.of_nat (length (su_payload u)) ∧
  length (su_signature u) = SIGNATURE_LEN ∧
  ∃ k s, vk_from_bytes pk = Some k ∧ sig_try_from (su_signature u) = Some s ∧
    hdr_signer_key_id (su_header u) = Fingerprint_as_hex (Fingerprint_for_public_key k) ∧
    Fingerprint_as_hex (Fingerprint_for_public_key k) ∈ utl_fingerprints trust ∧
    vk_verify k (header_json (su_header u) ++ su_payload u) s = true.


Lemma verify_trusted_accepts u pk trust :
  verify_signed_update_trusted u pk trust = Ok tt ↔ update_accepted u pk trust.
Proof.
  unfold verify_signed_update_trusted, update_accepted, UpdateTrustList_is_trusted, signed_bytes,
    header_canonical_bytes.
  rewrite <-str_is_empty_false. split.
  - intros H. split_matches; bool_to_prop; naive_solver.
  - intros (Hm & Ht & Hl & Hs & k & s & Hk & Hsig & Hid & Htr & Hv).
    rewrite Ht, Hk, Hsig, Hv, Hid, Hl, Hs, N.eqb_refl, Nat.eqb_refl.
    by rewrite !bool_decide_eq_true_2 by done.
Qed.


(** An update produced by [UpdateSigner::sign] for a non-empty target is
    accepted under the signer's public key as soon as the signer's fingerprint
    is in the trust list, and [verify_signed_update_with_key] accepts it too. *)
Theorem update_sign_then_verify seed kind target version ts payload trust :
  let s := UpdateSigner_from_seed seed in
  let u := UpdateSigner_sign s kind target version ts payload in
  target ≠ EmptyString →
  UpdateTrustList_is_trusted trust (UpdateSigner_fingerprint s) = true →
  verify_signed_update_trusted u (UpdateSigner_public_key_bytes s) trust = Ok tt ∧
  verify_signed_update_with_key u (UpdateSigner_public_key_bytes s) = Ok tt.
Proof.
  intros s u Ht Htr. split.
  - apply verify_trusted_accepts. unfold update_accepted. split_and!; try done.
    + apply sig_to_bytes_len.
    + exists (us_verifying_key s), (sk_sign (us_signing_key s) (signed_bytes u)).
      split_and!; [apply vk_round_trip|apply sig_round_trip|done| |apply sign_verifies].
      by apply bool_decide_eq_true_1 in Htr.
  - apply str_is_empty_false in Ht.
    unfold verify_signed_update_with_key, UpdateSigner_public_key_bytes. simpl.
    rewrite Ht, N.eqb_refl, vk_round_trip, sig_round_trip, sig_to_bytes_len. simpl.
    by rewrite sign_verifies.
Qed.

Import Manifest.

(** A manifest signed by [Ed25519ManifestSigner::sign] verifies exactly
    when the signer's fingerprint is in the trust store; it is accepted after
    [trust] and refused with [UnknownSigner] after [revoke]. *)
Theorem manifest_sign_then_verify seed m t :
  let s := ManifestSigner_from_seed seed in
  let f := ManifestSigner_fingerprint s in
  verify_signed_manifest (ManifestSigner_sign s m) t
    = (if TrustStore_is_trusted t f then Ok tt else Err ManifestUnknownSigner) ∧
  verify_signed_manifest (ManifestSigner_sign s m) (TrustStore_trust f t).1 = Ok tt ∧
  verify_signed_manifest (ManifestSigner_sign s m) (TrustStore_revoke f t).1
    = Err ManifestUnknownSigner.
Proof.
  intros s f.
  assert (∀ t', verify_signed_manifest (ManifestSigner_sign s m) t'
    = if TrustStore_is_trusted t' f then Ok tt else Err ManifestUnknownSigner) as Hall.
  { intros t'. unfold verify_signed_manifest. simpl.
    rewrite sig_to_bytes_len, vk_to_bytes_len, vk_round_trip, sig_round_trip. simpl.
    fold f. destruct (TrustStore_is_trusted t' _) eqn:E; [|done]. simpl.
    by rewrite sign_verifies. }
  rewrite !Hall. unfold TrustStore_is_trusted. simpl. split_and!; [done|..].
  - by rewrite bool_decide_eq_true_2 by set_solver.
  - by rewrite bool_decide_eq_false_2 by set_solver.
Qed.

End laws.




Lemma update_sign_then_verify_witness :
  let s := Update.UpdateSigner_from_seed [Byte.x07] in
  let trust := (Update.UpdateTrustList_trust (Update.UpdateSigner_fingerprint s)
                  Update.UpdateTrustList_new).1 in
  let u := Update.UpdateSigner_sign s OsImage "aether-os" "1.2.3" 17 [Byte.x01; Byte.x02] in
  Update.verify_signed_update_trusted u (Update.UpdateSigner_public_key_bytes s) trust = Ok tt ∧
  Update.verify_signed_update_with_key u (Update.UpdateSigner_public_key_bytes s) = Ok tt.
Proof.
  intros s trust u.
  apply (update_sign_then_verify [Byte.x07] OsImage "aether-os" "1.2.3" 17
           [Byte.x01; Byte.x02] trust); vm_compute; congruence.
Defined.

Lemma fingerprint_hex_round_trip_witness :
  Fingerprint_from_hex (Fingerprint_as_hex (Fingerprint_for_public_key (C:=ToyCrypto) Byte.x2a))
  = Some (Fingerprint_for_public_key (C:=ToyCrypto) Byte.x2a).
Proof. exact (fingerprint_hex_round_trip (C:=ToyCrypto) Byte.x2a). Defined.

Lemma manifest_sign_then_verify_witness :
  let s := Manifest.ManifestSigner_from_seed (C:=ToyCrypto) [Byte.x03] in
  let f := Manifest.ManifestSigner_fingerprint s in
  Manifest.verify_signed_manifest (Manifest.ManifestSigner_sign s [Byte.x41])
    (Manifest.TrustStore_trust f Manifest.TrustStore_new).1 = Ok tt.
Proof.
  intros s f.
  exact (proj1 (proj2 (manifest_sign_then_verify (C:=ToyCrypto) [Byte.x03] [Byte.x41]
                         Manifest.TrustStore_new))).
Defined.
