(* ===== verification/UpdateCore.v ===== *)
(** * The update planning layer

    Models system/aether-update-core/src: version.rs ([Version]), plan.rs
    ([Plan]), recovery.rs ([Recovery]) and state.rs ([State]). *)
From S2P Require Import Prelude RustStd Signing.
From Stdlib Require Import Ascii.

(** The action enum of plan.rs is used by version.rs too. *)
Inductive UpdateAction :=
| UpgradeOsImage
| ReinstallOsImage
| UpgradeServiceBundle
| ReinstallServiceBundle
| UpgradeAgentModel.

#[export] Instance UpdateAction_eq_dec : EqDecision UpdateAction.
Proof. solve_decision. Defined.

Definition UpdateAction_as_str (a : UpdateAction) : string :=
  match a with
  | UpgradeOsImage => "upgrade-os-image"
  | ReinstallOsImage => "reinstall-os-image"
  | UpgradeServiceBundle => "upgrade-service-bundle"
  | ReinstallServiceBundle => "reinstall-service-bundle"
  | UpgradeAgentModel => "upgrade-agent-model"
  end.

(** ** version.rs *)

Module Version.

Inductive VersionRequirement := Upgrade | Downgrade | Same | Prerelease.

#[export] Instance VersionRequirement_eq_dec : EqDecision VersionRequirement.
Proof. solve_decision. Defined.

Definition VersionRequirement_as_str (r : VersionRequirement) : string :=
  match r with
  | Upgrade => "upgrade"
  | Downgrade => "downgrade"
  | Same => "same"
  | Prerelease => "prerelease"
  end.

Record ParsedVersion := mkParsedVersion {
  v_major : N;
  v_minor : N;
  v_patch : N;
  v_pre : option string;
}.

#[export] Instance ParsedVersion_eq_dec : EqDecision ParsedVersion.
Proof. solve_decision. Defined.

(** The characters accepted in a pre-release suffix. *)
Definition pre_char (c : ascii) : bool :=
  is_ascii_alphanumeric c || Ascii.eqb c "-" || Ascii.eqb c ".".

(** [ParsedVersion::parse].  [parts.next()?] is a match on the remaining
    pieces of [core.split('.')]. *)
Definition ParsedVersion_parse (raw : string) : option ParsedVersion :=
  let '(core, pre) :=
    match split_once "-" raw with
    | Some (c, p) => (c, Some p)
    | None => (raw, None)
    end in
  let parts := str_split "." core in
  match parts with
  | [] => None
  | p0 :: parts =>
    major ← parse_u32 p0;
    match parts with
    | [] => None
    | p1 :: parts =>
      minor ← parse_u32 p1;
      match parts with
      | [] => None
      | p2 :: parts =>
        patch ← parse_u32 p2;
        match parts with
        | _ :: _ => None
        | [] =>
          match pre with
          | Some p =>
              if str_is_empty p || (32 <? String.length p)%nat then None
              else if negb (str_all pre_char p) then None
              else Some (mkParsedVersion major minor patch pre)
          | None => Some (mkParsedVersion major minor patch pre)
          end
        end
      end
    end
  end.

(** [Ordering::then]. *)
Definition ordering_then (a b : comparison) : comparison :=
  match a with Eq => b | _ => a end.

Definition numeric_cmp (a b : ParsedVersion) : comparison :=
  ordering_then
    (ordering_then (N.compare (v_major a) (v_major b)) (N.compare (v_minor a) (v_minor b)))
    (N.compare (v_patch a) (v_patch b)).

Definition ParsedVersion_display (v : ParsedVersion) : string :=
  pretty (v_major v) +:+ "." +:+ pretty (v_minor v) +:+ "." +:+ pretty (v_patch v)
  +:+ match v_pre v with Some pre => "-" +:+ pre | None => EmptyString end.

Record VersionPolicyDecision := mkVersionPolicyDecision {
  vd_requirement : VersionRequirement;
  vd_allowed : bool;
  vd_reason : string;
}.

#[export] Instance VersionPolicyDecision_eq_dec : EqDecision VersionPolicyDecision.
Proof. solve_decision. Defined.

Definition decision_allow (req : VersionRequirement) : VersionPolicyDecision :=
  mkVersionPolicyDecision req true EmptyString.
Definition decision_deny (req : VersionRequirement) (reason : string) : VersionPolicyDecision :=
  mkVersionPolicyDecision req false reason.

Record VersionPolicy := mkVersionPolicy {
  allow_downgrade : bool;
  allow_prerelease : bool;
}.

(** [VersionPolicy::default()]: both flags off. *)
Definition VersionPolicy_default : VersionPolicy := mkVersionPolicy false false.

Definition evaluate (p : VersionPolicy) (action : UpdateAction) (installed target : string) :
    VersionPolicyDecision :=
  match ParsedVersion_parse installed with
  | None =>
      decision_deny Same
        ("installed version '" +:+ installed +:+ "' is not a valid Aether version")
  | Some vi =>
    match ParsedVersion_parse target with
    | None =>
        decision_deny Same ("target version '" +:+ target +:+ "' is not a valid Aether version")
    | Some vt =>
      let same_numeric := bool_decide (numeric_cmp vi vt = Eq) in
      if same_numeric && negb (bool_decide (v_pre vi = v_pre vt)) then
        if allow_prerelease p then decision_allow Prerelease
        else decision_deny Prerelease
               ("pre-release target '" +:+ ParsedVersion_display vt
                +:+ "' is not allowed by the version policy")
      else
        match numeric_cmp vi vt with
        | Lt => decision_allow Upgrade
        | Gt =>
            if allow_downgrade p then decision_allow Downgrade
            else decision_deny Downgrade
                   ("downgrade from '" +:+ ParsedVersion_display vi +:+ "' to '"
                    +:+ ParsedVersion_display vt +:+ "' is not allowed by the version policy")
        | Eq =>
            match action with
            | ReinstallOsImage | ReinstallServiceBundle => decision_allow Same
            | UpgradeOsImage | UpgradeServiceBundle | UpgradeAgentModel =>
                decision_deny Same
                  ("target version '" +:+ ParsedVersion_display vt
                   +:+ "' is identical to the installed version for an upgrade")
            end
        end
    end
  end.

End Version.

(** ** plan.rs *)

Module Plan.
Import Version.

Record UpdatePlan := mkUpdatePlan {
  plan_target : string;
  plan_kind : UpdateKind;
  plan_action : UpdateAction;
  plan_version : string;
  plan_timestamp_ms : N;
  plan_signer_fingerprint : string;
  plan_payload_len : N;
  plan_version_decision : VersionPolicyDecision;
}.

#[export] Instance UpdatePlan_eq_dec : EqDecision UpdatePlan.
Proof. solve_decision. Defined.

Inductive UpdatePlanError :=
| PolicyDenied (reason : string)
| EmptyTarget
| EmptyVersion
| EmptyPayload.

Definition UpdatePlanError_display (e : UpdatePlanError) : string :=
  match e with
  | PolicyDenied s => "version policy denied: " +:+ s
  | EmptyTarget => "signed update has empty target"
  | EmptyVersion => "signed update has empty version"
  | EmptyPayload => "signed update has zero-length payload"
  end.

Definition action_placeholder (k : UpdateKind) : UpdateAction :=
  match k with
  | OsImage => UpgradeOsImage
  | ServiceBundle => UpgradeServiceBundle
  | AgentModel => UpgradeAgentModel
  end.

Definition derive_action (k : UpdateKind) (req : VersionRequirement) : UpdateAction :=
  match k, req with
  | OsImage, Same => ReinstallOsImage
  | ServiceBundle, Same => ReinstallServiceBundle
  | OsImage, _ => UpgradeOsImage
  | ServiceBundle, _ => UpgradeServiceBundle
  | AgentModel, _ => UpgradeAgentModel
  end.

Definition plan_from_signed_update (u : SignedUpdate) (installed_version : option string)
    (policy : VersionPolicy) : result UpdatePlan UpdatePlanError :=
  let h := su_header u in
  if str_is_empty (hdr_target h) then Err EmptyTarget
  else if str_is_empty (hdr_version h) then Err EmptyVersion
  else if (hdr_payload_len h =? 0)%N then Err EmptyPayload
  else
    let installed := default "0.0.0" installed_version in
    let pre := evaluate policy (action_placeholder (hdr_kind h)) installed (hdr_version h) in
    let action := derive_action (hdr_kind h) (vd_requirement pre) in
    let decision := evaluate policy action installed (hdr_version h) in
    if negb (vd_allowed decision) then Err (PolicyDenied (vd_reason decision))
    else Ok (mkUpdatePlan (hdr_target h) (hdr_kind h) action (hdr_version h)
               (hdr_timestamp_ms h) (hdr_signer_key_id h) (hdr_payload_len h) decision).

End Plan.

(** ** recovery.rs *)

Module Recovery.

Record SnapshotComponent := mkSnapshotComponent {
  sc_target : string;
  sc_from_version : string;
  sc_stash_path : string;
  sc_note : option string;
}.

Definition SnapshotComponent_new (target from_version stash_path : string) : SnapshotComponent :=
  mkSnapshotComponent target from_version stash_path None.

Definition SnapshotComponent_with_note (note : string) (c : SnapshotComponent) :
    SnapshotComponent :=
  mkSnapshotComponent (sc_target c) (sc_from_version c) (sc_stash_path c) (Some note).

Record RecoverySnapshot := mkRecoverySnapshot {
  rs_snapshot_id : string;
  rs_taken_at_ms : N;
  rs_components : list SnapshotComponent;
}.

Definition RecoverySnapshot_is_complete (s : RecoverySnapshot) : bool :=
  negb (str_is_empty (rs_snapshot_id s))
  && negb (bool_decide (rs_components s = []))
  && forallb (λ c, negb (str_is_empty (sc_stash_path c))) (rs_components s).

Definition RecoverySnapshot_version_of (s : RecoverySnapshot) (target : string) : option string :=
  sc_from_version <$> find_b (λ c, bool_decide (sc_target c = target)) (rs_components s).

Definition RecoverySnapshot_component_count (s : RecoverySnapshot) : nat :=
  length (rs_components s).

Definition RecoverySnapshot_targets (s : RecoverySnapshot) : list string :=
  sc_target <$> rs_components s.

End Recovery.

(** ** state.rs *)

Module State.
Import Plan.

Definition MAX_HISTORY_ENTRIES : nat := 64.

Inductive UpdateStage :=
| Idle | Downloading | Verifying | Staging | Applying | Done | Failed | RolledBack.

#[export] Instance UpdateStage_eq_dec : EqDecision UpdateStage.
Proof. solve_decision. Defined.

Definition UpdateStage_as_str (s : UpdateStage) : string :=
  match s with
  | Idle => "idle"
  | Downloading => "downloading"
  | Verifying => "verifying"
  | Staging => "staging"
  | Applying => "applying"
  | Done => "done"
  | Failed => "failed"
  | RolledBack => "rolled-back"
  end.

Definition UpdateStage_is_terminal (s : UpdateStage) : bool :=
  match s with Done | Failed | RolledBack => true | _ => false end.

Record StageTransition := mkStageTransition {
  tr_from : UpdateStage;
  tr_to : UpdateStage;
  tr_timestamp_ms : N;
  tr_note : option string;
}.

Record HistoryEntry := mkHistoryEntry {
  he_transition : StageTransition;
  he_plan : option UpdatePlan;
}.

Record UpdateStatus := mkUpdateStatus {
  st_stage : UpdateStage;
  st_current_plan : option UpdatePlan;
  st_attempt : N;
  st_last_error : option string;
  st_history : list HistoryEntry;
}.

Definition UpdateStatus_default : UpdateStatus := mkUpdateStatus Idle None 0 None [].

(** [UpdateStatus::transition].  The returned reference is the last history
    entry's transition: [transition_result] below. *)
Definition transition (to : UpdateStage) (timestamp_ms : N) (note : option string)
    (s : UpdateStatus) : UpdateStatus :=
  let from := st_stage s in
  let last_error :=
    match to with
    | Failed => match note with Some n => Some n | None => st_last_error s end
    | Idle | Downloading => None
    | _ => st_last_error s
    end in
  let attempt :=
    match to with Downloading => saturating_add u32_max (st_attempt s) 1 | _ => st_attempt s end in
  let attempt := match to with Done => 0%N | _ => attempt end in
  let tr := mkStageTransition from to timestamp_ms note in
  let history :=
    push_bounded MAX_HISTORY_ENTRIES (mkHistoryEntry tr (st_current_plan s)) (st_history s) in
  mkUpdateStatus to (st_current_plan s) attempt last_error history.

Definition last_transition (s : UpdateStatus) : option StageTransition :=
  he_transition <$> last (st_history s).

(** [&self.history[self.history.len() - 1].transition]: [None] is the panic of
    an out-of-range index. *)
Definition transition_result (s : UpdateStatus) : option StageTransition :=
  he_transition <$> st_history s !! (length (st_history s) - 1).

Definition set_plan (p : UpdatePlan) (s : UpdateStatus) : UpdateStatus :=
  mkUpdateStatus (st_stage s) (Some p) (st_attempt s) (st_last_error s) (st_history s).

Definition clear_plan (s : UpdateStatus) : UpdateStatus :=
  mkUpdateStatus (st_stage s) None (st_attempt s) (st_last_error s) (st_history s).

End State.
