(* ===== verification/VersionProps.v ===== *)
(** * Properties of the version policy and of planning

    Theorems about [UpdateCore.Version] and [UpdateCore.Plan]: the version
    grammar round-trips, [evaluate] is the decision table below, and
    [plan_from_signed_update] plans exactly the permitted updates. *)
From S2P Require Import Prelude RustStd Signing UpdateCore.
From Stdlib Require Import Ascii.
Import Version Plan.

(** ** The version grammar *)

Definition wf_pre (p : string) : Prop :=
  p ≠ EmptyString ∧ String.length p ≤ 32 ∧ str_all pre_char p = true.

Definition wf_version (v : ParsedVersion) : Prop :=
  (v_major v ≤ u32_max)%N ∧ (v_minor v ≤ u32_max)%N ∧ (v_patch v ≤ u32_max)%N ∧
  match v_pre v with Some p => wf_pre p | None => True end.

Lemma digit_not (c sep : ascii) :
  is_ascii_digit sep = false → is_ascii_digit c = true → char_ne sep c = true.
Proof.
  unfold char_ne. destruct (Ascii.eqb_spec c sep); [|done]. subst. by intros ->.
Qed.

Lemma pretty_no_sep (x : N) sep :
  is_ascii_digit sep = false → str_all (char_ne sep) (pretty x) = true.
Proof.
  intros. eapply str_all_impl, pretty_N_digits. intros c. by apply digit_not.
Qed.

Lemma display_core_split (v : ParsedVersion) :
  str_split "." (pretty (v_major v) +:+ "." +:+ pretty (v_minor v) +:+ "." +:+ pretty (v_patch v))
  = [pretty (v_major v); pretty (v_minor v); pretty (v_patch v)].
Proof.
  change ("." +:+ pretty (v_minor v) +:+ "." +:+ pretty (v_patch v))
    with (String "." (pretty (v_minor v) +:+ String "." (pretty (v_patch v)))).
  rewrite !str_split_sep by (by apply pretty_no_sep).
  by rewrite str_split_none by (by apply pretty_no_sep).
Qed.

Lemma display_core_no_dash (v : ParsedVersion) :
  str_all (char_ne "-") (pretty (v_major v) +:+ "." +:+ pretty (v_minor v) +:+ "." +:+ pretty (v_patch v)) = true.
Proof. by rewrite !str_all_app, !pretty_no_sep. Qed.

Lemma parse_display_wf v : wf_version v → ParsedVersion_parse (ParsedVersion_display v) = Some v.
Proof.
  destruct v as [ma mi pa pre]. unfold wf_version, ParsedVersion_parse, ParsedVersion_display.
  cbn [v_major v_minor v_patch v_pre]. intros (H1 & H2 & H3 & Hp).
  set (core := pretty ma +:+ "." +:+ pretty mi +:+ "." +:+ pretty pa).
  pose proof (display_core_split (mkParsedVersion ma mi pa pre)) as Hsplit.
  pose proof (display_core_no_dash (mkParsedVersion ma mi pa pre)) as Hdash.
  cbn [v_major v_minor v_patch] in Hsplit, Hdash. fold core in Hsplit, Hdash.
  destruct pre as [p|].
  - replace (pretty ma +:+ _) with (core +:+ String "-" p)
      by (unfold core; by rewrite !str_app_assoc).
    rewrite split_once_sep, Hsplit by done. rewrite !parse_u32_pretty by done. simpl.
    destruct Hp as (Hne & Hlen & Hall). destruct p as [|c p]; [done|].
    apply Nat.ltb_ge in Hlen. by rewrite Hall, Hlen.
  - rewrite str_app_nil_r. fold core. rewrite split_once_none, Hsplit by done.
    by rewrite !parse_u32_pretty by done.
Qed.

Lemma parse_wf s v : ParsedVersion_parse s = Some v → wf_version v.
Proof.
  unfold ParsedVersion_parse. intros H.
  destruct (match split_once "-" s with Some (c, p) => (c, Some p) | None => (s, None) end)
    as [core pre] eqn:E. clear E.
  repeat (case_match; simplify_eq/=; try done); simplify_option_eq;
    repeat match goal with H : parse_u32 _ = Some _ |- _ => apply parse_unsigned_bound in H end;
    repeat (case_match; simplify_eq/=; try done); bool_to_prop;
    unfold wf_version, wf_pre; simpl; split_and!; try done.
  by apply str_is_empty_false.
Qed.

(** Printing a version and parsing it back gives the same version, for
    exactly the versions [parse] can produce: three [u32] components and an
    optional pre-release of 1 to 32 characters of the accepted alphabet. *)
Theorem version_print_parse v :
  ParsedVersion_parse (ParsedVersion_display v) = Some v ↔ wf_version v.
Proof. split; [apply parse_wf | apply parse_display_wf]. Qed.

(** ** The numeric order *)

Definition numeric_lt (a b : ParsedVersion) : Prop :=
  (v_major a < v_major b)%N ∨
  (v_major a = v_major b ∧
    ((v_minor a < v_minor b)%N ∨ (v_minor a = v_minor b ∧ (v_patch a < v_patch b)%N))).

Definition numeric_eq (a b : ParsedVersion) : Prop :=
  v_major a = v_major b ∧ v_minor a = v_minor b ∧ v_patch a = v_patch b.

(** [numeric_cmp] compares the triples lexicographically. *)
Lemma numeric_cmp_spec a b :
  CompareSpec (numeric_eq a b) (numeric_lt a b) (numeric_lt b a) (numeric_cmp a b).
Proof.
  unfold numeric_cmp, ordering_then, numeric_eq, numeric_lt.
  destruct (N.compare_spec (v_major a) (v_major b));
    destruct (N.compare_spec (v_minor a) (v_minor b));
    destruct (N.compare_spec (v_patch a) (v_patch b)); constructor; lia.
Qed.

Lemma numeric_lt_irrefl a : ¬ numeric_lt a a.
Proof. unfold numeric_lt. lia. Qed.

(** ** The decision table *)

(** What the policy permits for a parsed pair of versions, independently of
    the strings of the decision. *)
Definition version_permitted (p : VersionPolicy) (a : UpdateAction) (vi vt : ParsedVersion) : bool :=
  match numeric_cmp vi vt with
  | Lt => true
  | Gt => allow_downgrade p
  | Eq => if decide (v_pre vi = v_pre vt)
          then bool_decide (a = ReinstallOsImage ∨ a = ReinstallServiceBundle)
          else allow_prerelease p
  end.

Definition version_requirement (vi vt : ParsedVersion) : VersionRequirement :=
  match numeric_cmp vi vt with
  | Lt => Upgrade
  | Gt => Downgrade
  | Eq => if decide (v_pre vi = v_pre vt) then Same else Prerelease
  end.

Lemma evaluate_parsed p a i t vi vt :
  ParsedVersion_parse i = Some vi → ParsedVersion_parse t = Some vt →
  vd_allowed (evaluate p a i t) = version_permitted p a vi vt ∧
  vd_requirement (evaluate p a i t) = version_requirement vi vt.
Proof.
  intros Hi Ht. unfold evaluate, version_permitted, version_requirement.
  rewrite Hi, Ht. destruct (numeric_cmp vi vt) eqn:E; simpl.
  - destruct (decide (v_pre vi = v_pre vt)) as [Hp|Hp].
    + rewrite bool_decide_eq_true_2 by done. simpl. by destruct a.
    + rewrite bool_decide_eq_false_2 by done. simpl. by destruct (allow_prerelease p).
  - done.
  - by destruct (allow_downgrade p).
Qed.

Lemma evaluate_unparsed p a i t :
  ParsedVersion_parse i = None ∨ ParsedVersion_parse t = None →
  vd_allowed (evaluate p a i t) = false.
Proof.
  unfold evaluate. intros [->| Ht]; [done|]. destruct (ParsedVersion_parse i); [|done].
  by rewrite Ht.
Qed.

(** [VersionPolicy::evaluate] allows an update exactly when both versions
    parse and the target is numerically greater, or is a downgrade with
    [allow_downgrade], or differs only in the pre-release with
    [allow_prerelease], or is identical and the action is a reinstall. *)
Theorem evaluate_allowed_iff p a i t :
  vd_allowed (evaluate p a i t) = true ↔
  ∃ vi vt, ParsedVersion_parse i = Some vi ∧ ParsedVersion_parse t = Some vt ∧
    (numeric_lt vi vt ∨
     (numeric_lt vt vi ∧ allow_downgrade p = true) ∨
     (numeric_eq vi vt ∧ v_pre vi ≠ v_pre vt ∧ allow_prerelease p = true) ∨
     (numeric_eq vi vt ∧ v_pre vi = v_pre vt ∧
       (a = ReinstallOsImage ∨ a = ReinstallServiceBundle))).
Proof.
  destruct (ParsedVersion_parse i) as [vi|] eqn:Hi;
    [destruct (ParsedVersion_parse t) as [vt|] eqn:Ht|]; cycle 1.
  - rewrite evaluate_unparsed by auto. naive_solver.
  - rewrite evaluate_unparsed by auto. naive_solver.
  - destruct (evaluate_parsed p a i t vi vt Hi Ht) as [-> _]. unfold version_permitted.
    transitivity (numeric_lt vi vt ∨ (numeric_lt vt vi ∧ allow_downgrade p = true) ∨
     (numeric_eq vi vt ∧ v_pre vi ≠ v_pre vt ∧ allow_prerelease p = true) ∨
     (numeric_eq vi vt ∧ v_pre vi = v_pre vt ∧
       (a = ReinstallOsImage ∨ a = ReinstallServiceBundle))); [|naive_solver].
    destruct (numeric_cmp_spec vi vt); unfold numeric_lt, numeric_eq in *.
    + case_decide; [rewrite bool_decide_eq_true|]; intuition (try congruence; try lia).
    + intuition lia.
    + destruct (allow_downgrade p); intuition (try congruence; try lia).
Qed.

(** ** Planning *)

Lemma derive_action_reinstall k r :
  (derive_action k r = ReinstallOsImage ∨ derive_action k r = ReinstallServiceBundle) ↔
  r = Same ∧ k ≠ AgentModel.
Proof. destruct k, r; simpl; naive_solver. Qed.

(** What planning permits: as the policy's table, with "identical versions"
    permitted for every payload kind but an agent model. *)
Definition plan_permitted (p : VersionPolicy) (k : UpdateKind) (vi vt : ParsedVersion) : bool :=
  match numeric_cmp vi vt with
  | Lt => true
  | Gt => allow_downgrade p
  | Eq => if decide (v_pre vi = v_pre vt)
          then negb (bool_decide (k = AgentModel))
          else allow_prerelease p
  end.

Lemma derived_action_permitted p k vi vt :
  version_permitted p (derive_action k (version_requirement vi vt)) vi vt
  = plan_permitted p k vi vt.
Proof.
  unfold version_permitted, plan_permitted, version_requirement.
  destruct (numeric_cmp vi vt); [|done..]. destruct (decide _); [|done].
  by destruct k.
Qed.

(** The plan the code builds for a header and a policy decision. *)
Definition plan_of (h : UpdateHeader) (d : VersionPolicyDecision) : UpdatePlan :=
  mkUpdatePlan (hdr_target h) (hdr_kind h) (derive_action (hdr_kind h) (vd_requirement d))
    (hdr_version h) (hdr_timestamp_ms h) (hdr_signer_key_id h) (hdr_payload_len h) d.

Lemma evaluate_requirement_action p a a' i t :
  vd_requirement (evaluate p a i t) = vd_requirement (evaluate p a' i t).
Proof.
  unfold evaluate. destruct (ParsedVersion_parse i); [|done].
  destruct (ParsedVersion_parse t); [|done]. destruct (_ && _); [by destruct (allow_prerelease p)|].
  destruct (numeric_cmp _ _); [by destruct a, a'|done|by destruct (allow_downgrade p)].
Qed.

Lemma plan_ok_inv u inst p plan :
  plan_from_signed_update u inst p = Ok plan →
  hdr_target (su_header u) ≠ EmptyString ∧ hdr_version (su_header u) ≠ EmptyString ∧
  hdr_payload_len (su_header u) ≠ 0%N ∧
  vd_allowed (plan_version_decision plan) = true ∧
  plan = plan_of (su_header u) (plan_version_decision plan) ∧
  plan_version_decision plan
    = evaluate p (plan_action plan) (default "0.0.0" inst) (hdr_version (su_header u)).
Proof.
  unfold plan_from_signed_update. intros H. split_matches; bool_to_prop.
  rewrite <-!str_is_empty_false. split_and!; try done.
  unfold plan_of. simpl. f_equal. f_equal. apply evaluate_requirement_action.
Qed.

(** [plan_from_signed_update] succeeds exactly when target, version and
    payload are non-empty, both versions parse ([0.0.0] standing for a missing
    installation) and the policy permits the change for this payload kind; the
    plan then copies the signed header and carries the allowed decision. *)
Theorem plan_exact u inst p :
  (∃ plan, plan_from_signed_update u inst p = Ok plan ∧
     vd_allowed (plan_version_decision plan) = true ∧
     plan = plan_of (su_header u) (plan_version_decision plan)) ↔
  hdr_target (su_header u) ≠ EmptyString ∧ hdr_version (su_header u) ≠ EmptyString ∧
  hdr_payload_len (su_header u) ≠ 0%N ∧
  ∃ vi vt, ParsedVersion_parse (default "0.0.0" inst) = Some vi ∧
    ParsedVersion_parse (hdr_version (su_header u)) = Some vt ∧
    plan_permitted p (hdr_kind (su_header u)) vi vt = true.
Proof.
  set (h := su_header u). set (i := default "0.0.0" inst). split.
  - intros (plan & Hok & Hall & Heq). apply plan_ok_inv in Hok as (? & ? & ? & _ & _ & Hd).
    split_and!; try done. rewrite Hd in Hall.
    destruct (ParsedVersion_parse i) as [vi|] eqn:Hi;
      [|by rewrite evaluate_unparsed in Hall by auto].
    destruct (ParsedVersion_parse (hdr_version h)) as [vt|] eqn:Ht;
      [|by rewrite evaluate_unparsed in Hall by auto].
    exists vi, vt. split_and!; [done..|].
    destruct (evaluate_parsed p (plan_action plan) i (hdr_version h) vi vt Hi Ht) as [Ha Hr].
    rewrite <-derived_action_permitted, <-Hall. fold i h. rewrite Ha. f_equal.
    rewrite Heq. simpl. by rewrite Hd, <-Hr.
  - intros (Ht%str_is_empty_false & Hv%str_is_empty_false & Hp%N.eqb_neq & vi & vt & Hi & Hvt & Hperm).
    unfold plan_from_signed_update. fold h i. rewrite Ht, Hv, Hp.
    set (pre := evaluate p (action_placeholder (hdr_kind h)) i (hdr_version h)).
    set (act := derive_action (hdr_kind h) (vd_requirement pre)).
    assert (vd_allowed (evaluate p act i (hdr_version h)) = true) as Hallow.
    { destruct (evaluate_parsed p act i (hdr_version h) vi vt Hi Hvt) as [-> _].
      unfold act, pre. destruct (evaluate_parsed p (action_placeholder (hdr_kind h)) i
        (hdr_version h) vi vt Hi Hvt) as [_ ->]. by rewrite derived_action_permitted. }
    rewrite Hallow. simpl. eexists. split_and!; [done|done|].
    unfold plan_of. simpl. f_equal. unfold act. f_equal. apply evaluate_requirement_action.
Qed.

(** Without [allow_downgrade] no plan lowers the numeric version, and
    without [allow_prerelease] either the version rises or the plan is a
    reinstall of the same version, never of an agent model. *)
Theorem plan_monotone u inst p plan :
  plan_from_signed_update u inst p = Ok plan →
  allow_downgrade p = false →
  ∃ vi vt, ParsedVersion_parse (default "0.0.0" inst) = Some vi ∧
    ParsedVersion_parse (plan_version plan) = Some vt ∧ ¬ numeric_lt vt vi ∧
    (allow_prerelease p = false → numeric_lt vi vt ∨
       (numeric_eq vi vt ∧ v_pre vi = v_pre vt ∧ plan_kind plan ≠ AgentModel)).
Proof.
  intros Hok Hdown. pose proof (plan_ok_inv _ _ _ _ Hok) as (_ & _ & _ & Hall & Heq & Hd).
  assert (plan_version plan = hdr_version (su_header u)) as Hver by (by rewrite Heq).
  assert (plan_kind plan = hdr_kind (su_header u)) as Hk by (by rewrite Heq).
  rewrite Hd in Hall. rewrite Hver, Hk.
  destruct (ParsedVersion_parse (default "0.0.0" inst)) as [vi|] eqn:Hi;
    [|by rewrite evaluate_unparsed in Hall by auto].
  destruct (ParsedVersion_parse (hdr_version (su_header u))) as [vt|] eqn:Ht;
    [|by rewrite evaluate_unparsed in Hall by auto].
  exists vi, vt. split_and!; [done..| |];
    destruct (evaluate_parsed p (plan_action plan) _ _ vi vt Hi Ht) as [Hp Hr];
    rewrite Hp in Hall; rewrite Heq in Hall; simpl in Hall; rewrite Hd, Hr in Hall;
    rewrite derived_action_permitted in Hall; unfold plan_permitted in Hall;
    destruct (numeric_cmp_spec vi vt); unfold numeric_lt, numeric_eq in *; try congruence.
  - lia.
  - lia.
  - intros Hpre. case_decide; [|congruence]. bool_to_prop. right. naive_solver.
  - intros _. by left.
Qed.

Definition sample_header (k : UpdateKind) (v : string) : UpdateHeader :=
  mkUpdateHeader MAGIC k "aether-os" v 7 3 "abcd".

Definition sample_update (k : UpdateKind) (v : string) : SignedUpdate :=
  mkSignedUpdate (sample_header k v) [Byte.x01; Byte.x02; Byte.x03] [].

Lemma plan_monotone_witness :
  ∃ vi vt, ParsedVersion_parse (default "0.0.0" (Some "1.2.3")) = Some vi ∧
    ParsedVersion_parse "1.3.0" = Some vt ∧ ¬ numeric_lt vt vi ∧
    (false = false → numeric_lt vi vt ∨
       (numeric_eq vi vt ∧ v_pre vi = v_pre vt ∧ OsImage ≠ AgentModel)).
Proof.
  exact (plan_monotone (sample_update OsImage "1.3.0") (Some "1.2.3") VersionPolicy_default
           (plan_of (sample_header OsImage "1.3.0") (decision_allow Upgrade)) eq_refl eq_refl).
Defined.

(** With no installed version, an OS image or service bundle of version
    [0.0.0] is planned as a reinstall, although the comment on
    [plan_from_signed_update] says such an update is rejected. *)
Theorem plan_accepts_zero_version_on_fresh_target u p :
  hdr_target (su_header u) ≠ EmptyString → hdr_payload_len (su_header u) ≠ 0%N →
  hdr_version (su_header u) = "0.0.0" → hdr_kind (su_header u) ≠ AgentModel →
  ∃ plan, plan_from_signed_update u None p = Ok plan ∧
    plan_action plan = derive_action (hdr_kind (su_header u)) Same ∧
    vd_requirement (plan_version_decision plan) = Same.
Proof.
  intros Ht%str_is_empty_false Hl%N.eqb_neq Hv Hk. unfold plan_from_signed_update.
  rewrite Ht, Hl, Hv. cbn [str_is_empty default].
  destruct (hdr_kind (su_header u)); [| |done]; eexists; split_and!; reflexivity.
Qed.

Lemma plan_accepts_zero_version_witness :
  ∃ plan, plan_from_signed_update (sample_update OsImage "0.0.0") None VersionPolicy_default
      = Ok plan ∧ plan_action plan = ReinstallOsImage ∧
    vd_requirement (plan_version_decision plan) = Same.
Proof.
  apply (plan_accepts_zero_version_on_fresh_target (sample_update OsImage "0.0.0"));
    vm_compute; congruence.
Defined.
