(* ===== verification/StatusProps.v ===== *)
(** * Properties of the update state machine

    Theorems about [UpdateCore.State]: every sequence of calls is related to
    an unbounded log, of which the stored history is the most recent part. *)
From S2P Require Import Prelude RustStd Signing UpdateCore.
Import Plan State.

(** ** Calls on an [UpdateStatus] *)

Inductive status_op :=
| OpTransition (to : UpdateStage) (ts : N) (note : option string)
| OpSetPlan (p : UpdatePlan)
| OpClearPlan.

Definition status_step (o : status_op) (s : UpdateStatus) : UpdateStatus :=
  match o with
  | OpTransition to ts note => transition to ts note s
  | OpSetPlan p => set_plan p s
  | OpClearPlan => clear_plan s
  end.

Definition status_run (ops : list status_op) : UpdateStatus :=
  foldl (λ s o, status_step o s) UpdateStatus_default ops.

(** ** The abstract log *)

(** The specification keeps every entry and no counter. *)
Record status_log := mkStatusLog {
  log_stage : UpdateStage;
  log_plan : option UpdatePlan;
  log_entries : list HistoryEntry;
}.

Definition log_step (o : status_op) (l : status_log) : status_log :=
  match o with
  | OpTransition to ts note =>
      mkStatusLog to (log_plan l)
        (log_entries l ++ [mkHistoryEntry (mkStageTransition (log_stage l) to ts note) (log_plan l)])
  | OpSetPlan p => mkStatusLog (log_stage l) (Some p) (log_entries l)
  | OpClearPlan => mkStatusLog (log_stage l) None (log_entries l)
  end.

Definition log_run (ops : list status_op) : status_log :=
  foldl (λ l o, log_step o l) (mkStatusLog Idle None []) ops.

(** The number of downloads since the last completed update. *)
Definition downloads_step (o : status_op) (n : N) : N :=
  match o with
  | OpTransition Downloading _ _ => n + 1
  | OpTransition Done _ _ => 0
  | _ => n
  end.

Definition downloads (ops : list status_op) : N := foldl (λ n o, downloads_step o n) 0%N ops.

(** The most recent failure note not yet cleared by [Idle] or [Downloading]. *)
Definition failure_note_step (o : status_op) (e : option string) : option string :=
  match o with
  | OpTransition Failed _ (Some n) => Some n
  | OpTransition (Idle | Downloading) _ _ => None
  | _ => e
  end.

Definition failure_note (ops : list status_op) : option string :=
  foldl (λ e o, failure_note_step o e) None ops.

(** ** Refinement *)

(** What relates the concrete status to the log. *)
Definition status_refines (s : UpdateStatus) (l : status_log) : Prop :=
  st_stage s = log_stage l ∧ st_current_plan s = log_plan l ∧
  st_history s = suffix_n MAX_HISTORY_ENTRIES (log_entries l).

Lemma status_refines_step o s l :
  status_refines s l → status_refines (status_step o s) (log_step o l).
Proof.
  intros (Hs & Hp & Hh). destruct o; split_and!; try done.
  simpl. rewrite Hh, Hs, Hp. apply push_bounded_suffix.
Qed.

Lemma status_refines_run ops : status_refines (status_run ops) (log_run ops).
Proof.
  unfold status_run, log_run.
  assert (status_refines UpdateStatus_default (mkStatusLog Idle None [])) as H by done.
  revert H. generalize UpdateStatus_default (mkStatusLog Idle None []).
  induction ops as [|o ops IH]; intros s l H; [done|]. simpl. by apply IH, status_refines_step.
Qed.

(** The log is a chain: every entry starts in the stage the previous one ended
    in, the first in [Idle], and the last ends in the current stage. *)
Fixpoint log_chained (from : UpdateStage) (l : list HistoryEntry) (to : UpdateStage) : Prop :=
  match l with
  | [] => from = to
  | e :: l => tr_from (he_transition e) = from ∧ log_chained (tr_to (he_transition e)) l to
  end.

Lemma log_chained_app a l1 b l2 c :
  log_chained a l1 b → log_chained b l2 c → log_chained a (l1 ++ l2) c.
Proof.
  revert a. induction l1 as [|e l1 IH]; intros a; simpl; [by intros ->|].
  intros [??] ?. split; [done|]. by apply IH.
Qed.

Lemma log_chained_drop n a l c :
  log_chained a l c → ∃ b, log_chained b (drop n l) c.
Proof.
  revert n a. induction l as [|e l IH]; intros [|n] a H; simpl in *; eauto.
  destruct H as [_ H]. by eapply IH.
Qed.

Lemma log_run_chained ops : log_chained Idle (log_entries (log_run ops)) (log_stage (log_run ops)).
Proof.
  unfold log_run.
  assert (log_chained Idle (log_entries (mkStatusLog Idle None []))
            (log_stage (mkStatusLog Idle None []))) as H by done.
  revert H. generalize (mkStatusLog Idle None []).
  induction ops as [|o ops IH]; intros l H; [done|]. simpl. apply IH.
  destruct o; simpl; [|done..]. eapply log_chained_app; [done|]. by simpl.
Qed.

(** After any sequence of [transition], [set_plan] and [clear_plan] calls
    the history is the last 64 entries of the complete log of transitions, in
    order and with the plan in flight at the time, so it never exceeds
    [MAX_HISTORY_ENTRIES] and loses only the oldest entries. *)
Theorem history_is_recent_log ops :
  st_history (status_run ops) = suffix_n MAX_HISTORY_ENTRIES (log_entries (log_run ops)) ∧
  length (st_history (status_run ops))
    = min MAX_HISTORY_ENTRIES (length (log_entries (log_run ops))).
Proof.
  destruct (status_refines_run ops) as (_ & _ & ->). by rewrite length_suffix_n.
Qed.

(** The stored history is a connected path: each entry starts where the
    previous one ended and the last one ends in the current stage; while
    nothing was dropped it starts in [Idle]. *)
Theorem history_is_connected ops :
  (∃ from, log_chained from (st_history (status_run ops)) (st_stage (status_run ops))) ∧
  (length (log_entries (log_run ops)) ≤ MAX_HISTORY_ENTRIES →
   log_chained Idle (st_history (status_run ops)) (st_stage (status_run ops))).
Proof.
  destruct (status_refines_run ops) as (-> & _ & ->).
  pose proof (log_run_chained ops) as Hc. split.
  - by eapply log_chained_drop.
  - intros Hlen. unfold suffix_n.
    by replace (length (log_entries (log_run ops)) - MAX_HISTORY_ENTRIES) with 0 by lia.
Qed.

(** [transition] always finds the entry it returns, and that entry is the
    transition just made. *)
Theorem transition_returns_last to ts note s :
  transition_result (transition to ts note s) = Some (mkStageTransition (st_stage s) to ts note) ∧
  last_transition (transition to ts note s) = Some (mkStageTransition (st_stage s) to ts note).
Proof.
  assert (last (st_history (transition to ts note s))
    = Some (mkHistoryEntry (mkStageTransition (st_stage s) to ts note) (st_current_plan s))) as Hl.
  { apply last_push_bounded. unfold MAX_HISTORY_ENTRIES. lia. }
  unfold transition_result, last_transition. rewrite Hl. split; [|done].
  rewrite last_lookup in Hl. rewrite Nat.sub_1_r, Hl. done.
Qed.

Lemma saturating_downloads n :
  saturating_add u32_max (N.min u32_max n) 1 = N.min u32_max (n + 1).
Proof. unfold saturating_add. lia. Qed.

(** The attempt counter is the number of [Downloading] transitions since
    the last [Done], saturated at [u32::MAX]; the last error is the note of the
    latest [Failed] transition that carried one, unless an [Idle] or
    [Downloading] transition followed (a [Failed] transition without a note
    records nothing). *)
Theorem attempt_and_error_spec ops :
  st_attempt (status_run ops) = N.min u32_max (downloads ops) ∧
  st_last_error (status_run ops) = failure_note ops.
Proof.
  unfold status_run, downloads, failure_note.
  assert (∀ s n e, st_attempt s = N.min u32_max n → st_last_error s = e →
    st_attempt (foldl (λ s o, status_step o s) s ops)
      = N.min u32_max (foldl (λ n o, downloads_step o n) n ops) ∧
    st_last_error (foldl (λ s o, status_step o s) s ops)
      = foldl (λ e o, failure_note_step o e) e ops) as H; [|by apply H].
  induction ops as [|o ops IH]; intros s n e Ha He; [done|]. simpl. apply IH.
  - destruct o as [[] ts note| |]; simpl; try done. by rewrite Ha, saturating_downloads.
  - destruct o as [[] ts [n'|]| |]; simpl; done.
Qed.
