(* ===== verification/TaskGraph.v ===== *)
(** * Agent tasks and the task graph

    Models agent/aether-agent-core/src/task.rs.  The structured arguments of a
    task are a [serde_json::Value], a third-party type: [AgentTask] is
    parametric in it. *)
From S2P Require Import Prelude RustStd.
From stdpp Require Import relations.

Inductive TaskRisk := RiskLow | RiskMedium | RiskHigh | RiskCritical.

#[export] Instance TaskRisk_eq_dec : EqDecision TaskRisk.
Proof. solve_decision. Defined.

Inductive TaskKind :=
| RestartService | Notify | ProposeUpdate | ProposeInstall | ProposeCleanup
| ProposeSecurityScan | DeviceControl | DisplayControl | PowerControl
| SecurityControl | Custom.

Definition TaskKind_as_str (k : TaskKind) : string :=
  match k with
  | RestartService => "restart-service"
  | Notify => "notify"
  | ProposeUpdate => "propose-update"
  | ProposeInstall => "propose-install"
  | ProposeCleanup => "propose-cleanup"
  | ProposeSecurityScan => "propose-security-scan"
  | DeviceControl => "device-control"
  | DisplayControl => "display-control"
  | PowerControl => "power-control"
  | SecurityControl => "security-control"
  | Custom => "custom"
  end.

Definition TaskKind_default_risk (k : TaskKind) : TaskRisk :=
  match k with
  | RestartService => RiskMedium
  | Notify => RiskLow
  | ProposeUpdate => RiskHigh
  | ProposeInstall => RiskHigh
  | ProposeCleanup => RiskMedium
  | ProposeSecurityScan => RiskMedium
  | DeviceControl => RiskMedium
  | DisplayControl => RiskLow
  | PowerControl => RiskCritical
  | SecurityControl => RiskHigh
  | Custom => RiskHigh
  end.

(** [TaskId]: a wrapped string; [TaskId::new] refuses the empty one. *)
Record TaskId := mkTaskId { task_id_str : string }.

#[export] Instance TaskId_eq_dec : EqDecision TaskId.
Proof. solve_decision. Defined.

Definition TaskId_default : TaskId := mkTaskId "default".

Definition TaskId_new (s : string) : option TaskId :=
  if str_is_empty s then None else Some (mkTaskId s).

Record AgentTask {Json : Type} := mkAgentTask {
  task_id : TaskId;
  task_kind : TaskKind;
  task_title : string;
  task_description : string;
  task_depends_on : list TaskId;
  task_risk : TaskRisk;
  task_target : option string;
  task_arguments : option Json;
}.
Arguments AgentTask Json : clear implicits.
Arguments mkAgentTask {Json}.

Section builders.
Context {Json : Type}.

Definition AgentTask_new (id : string) (kind : TaskKind) (title description : string) :
    option (AgentTask Json) :=
  id ← TaskId_new id;
  if str_is_empty title || str_is_empty description then None
  else Some (mkAgentTask id kind title description [] (TaskKind_default_risk kind) None None).

Definition with_dependency (dep : TaskId) (t : AgentTask Json) : AgentTask Json :=
  mkAgentTask (task_id t) (task_kind t) (task_title t) (task_description t)
    (task_depends_on t ++ [dep]) (task_risk t) (task_target t) (task_arguments t).

Definition with_dependencies (deps : list TaskId) (t : AgentTask Json) : AgentTask Json :=
  mkAgentTask (task_id t) (task_kind t) (task_title t) (task_description t)
    (task_depends_on t ++ deps) (task_risk t) (task_target t) (task_arguments t).

Definition with_risk (r : TaskRisk) (t : AgentTask Json) : AgentTask Json :=
  mkAgentTask (task_id t) (task_kind t) (task_title t) (task_description t)
    (task_depends_on t) r (task_target t) (task_arguments t).

Definition with_target (x : string) (t : AgentTask Json) : AgentTask Json :=
  mkAgentTask (task_id t) (task_kind t) (task_title t) (task_description t)
    (task_depends_on t) (task_risk t) (Some x) (task_arguments t).

Definition with_arguments (a : Json) (t : AgentTask Json) : AgentTask Json :=
  mkAgentTask (task_id t) (task_kind t) (task_title t) (task_description t)
    (task_depends_on t) (task_risk t) (task_target t) (Some a).

End builders.

Inductive TaskDependencyError :=
| EmptyTaskId
| UnknownDependency (task missing : TaskId)
| Cycle (task : TaskId)
| Duplicate (id : TaskId).

Definition TaskDependencyError_display (e : TaskDependencyError) : string :=
  match e with
  | EmptyTaskId => "task id is empty"
  | UnknownDependency task missing =>
      "task '" +:+ task_id_str task +:+ "' depends on unknown task '"
      +:+ task_id_str missing +:+ "'"
  | Cycle task => "inserting task '" +:+ task_id_str task +:+ "' would create a cycle"
  | Duplicate id => "task '" +:+ task_id_str id +:+ "' already exists"
  end.

Section graph.
Context {Json : Type}.
Implicit Types (t s : AgentTask Json) (g : list (AgentTask Json)).

(** [TaskGraph] is the vector of its tasks in insertion order. *)
Definition graph_get g (id : TaskId) : option (AgentTask Json) :=
  find_b (λ t, bool_decide (task_id t = id)) g.

Definition graph_has g (id : TaskId) : bool :=
  existsb (λ t, bool_decide (task_id t = id)) g.

(** [transitively_depends_on]: the recursion follows the dependency edges of
    the stored graph.  [fuel] bounds its depth; [None] stands for a recursion
    deeper than that. *)
Fixpoint transitively_depends_on (fuel : nat) g (start : AgentTask Json) (target : TaskId) :
    option bool :=
  match fuel with
  | 0 => None
  | S fuel =>
      (fix go (deps : list TaskId) : option bool :=
         match deps with
         | [] => Some false
         | dep :: deps =>
             if decide (dep = target) then Some true
             else
               match graph_get g dep with
               | Some t =>
                   match transitively_depends_on fuel g t target with
                   | None => None
                   | Some true => Some true
                   | Some false => go deps
                   end
               | None => go deps
               end
         end) (task_depends_on start)
  end.

(** The loop [for existing in &self.tasks] of the cycle check. *)
Fixpoint any_depends_on (fuel : nat) g (l : list (AgentTask Json)) (target : TaskId) :
    option bool :=
  match l with
  | [] => Some false
  | x :: l =>
      match transitively_depends_on fuel g x target with
      | None => None
      | Some true => Some true
      | Some false => any_depends_on fuel g l target
      end
  end.

(** The loop over the new task's dependencies. *)
Definition missing_dependency g t : option TaskId :=
  find_b (λ d, negb (graph_has g d)) (task_depends_on t).

(** [TaskGraph::insert]: the recursion depth is at most the number of tasks,
    see [graph_insert_total]. *)
Definition graph_insert t g : option (list (AgentTask Json) * result unit TaskDependencyError) :=
  if str_is_empty (task_id_str (task_id t)) then Some (g, Err EmptyTaskId)
  else if graph_has g (task_id t) then Some (g, Err (Duplicate (task_id t)))
  else
    match missing_dependency g t with
    | Some dep => Some (g, Err (UnknownDependency (task_id t) dep))
    | None =>
        match any_depends_on (length g) g g (task_id t) with
        | None => None
        | Some true => Some (g, Err (Cycle (task_id t)))
        | Some false => Some (g ++ [t], Ok tt)
        end
    end.

Definition graph_ready g (done_ids : list TaskId) : list (AgentTask Json) :=
  List.filter (λ t, forallb (λ d, bool_decide (d ∈ done_ids)) (task_depends_on t)) g.

(** [Vec::remove(pos)]. *)
Definition vec_remove {A} (i : nat) (l : list A) : list A := take i l ++ drop (S i) l.

Definition graph_remove (id : TaskId) g : list (AgentTask Json) * option (AgentTask Json) :=
  match position (λ t, bool_decide (task_id t = id)) g with
  | None => (g, None)
  | Some pos => (vec_remove pos g, g !! pos)
  end.

(** ** The invariant *)

(** Identifiers are unique and no task depends on itself or on a task stored
    after it. *)
Fixpoint graph_ordered g : Prop :=
  match g with
  | [] => True
  | t :: l => (∀ t', t' ∈ t :: l → task_id t' ∉ task_depends_on t) ∧ graph_ordered l
  end.

Definition graph_wf g : Prop := NoDup (task_id <$> g) ∧ graph_ordered g.

(** One dependency edge of the stored graph. *)
Definition graph_edge g (a b : TaskId) : Prop :=
  ∃ t, t ∈ g ∧ task_id t = a ∧ b ∈ task_depends_on t.

Lemma graph_has_true g id : graph_has g id = true ↔ id ∈ task_id <$> g.
Proof.
  unfold graph_has. rewrite existsb_exists, list_elem_of_fmap. split.
  - intros (t & ? & ?%bool_decide_eq_true_1). exists t. by rewrite list_elem_of_In.
  - intros (t & -> & ?). exists t. rewrite <-list_elem_of_In, bool_decide_eq_true. done.
Qed.

Lemma graph_has_false g id : graph_has g id = false ↔ id ∉ task_id <$> g.
Proof. rewrite <-graph_has_true. by destruct (graph_has g id). Qed.

Lemma graph_get_Some g id t : graph_get g id = Some t → t ∈ g ∧ task_id t = id.
Proof. intros [? ?%bool_decide_eq_true_1]%find_b_Some. done. Qed.

Lemma graph_id_inj g t s : graph_wf g → t ∈ g → s ∈ g → task_id t = task_id s → t = s.
Proof.
  intros [Hnd _] (i & Hi)%list_elem_of_lookup (j & Hj)%list_elem_of_lookup Heq.
  assert (i = j) as ->; [|congruence].
  eapply (NoDup_lookup _ _ _ (task_id t) Hnd); rewrite list_lookup_fmap.
  - by rewrite Hi.
  - rewrite Hj. simpl. by rewrite Heq.
Qed.

Lemma missing_dependency_None g t :
  missing_dependency g t = None ↔ ∀ d, d ∈ task_depends_on t → d ∈ task_id <$> g.
Proof.
  unfold missing_dependency. rewrite find_b_None.
  setoid_rewrite negb_false_iff. setoid_rewrite graph_has_true. done.
Qed.

Lemma graph_wf_nil : graph_wf [].
Proof. split; [constructor|done]. Qed.

Lemma graph_ordered_snoc g t :
  graph_ordered g →
  (∀ s, s ∈ g → task_id t ∉ task_depends_on s) → task_id t ∉ task_depends_on t →
  graph_ordered (g ++ [t]).
Proof.
  intros Hord Hnew Hself. induction g as [|s g IH]; simpl in *.
  - split; [|done]. intros t' ->%list_elem_of_singleton. done.
  - destruct Hord as [Hs Hg]. split; [|apply IH; set_solver].
    intros t' [->|[?| ->%list_elem_of_singleton]%elem_of_app]%elem_of_cons; set_solver.
Qed.

Lemma graph_ordered_sublist l g : l `sublist_of` g → graph_ordered g → graph_ordered l.
Proof.
  induction 1 as [|t l g Hsub IH|t l g Hsub IH]; simpl; [done|..]; intros [Ht Hg]; [|auto].
  split; [|auto]. intros t' [->|Hin]%elem_of_cons; [set_solver|].
  apply Ht. right. by eapply elem_of_sublist.
Qed.

Lemma vec_remove_sublist {A} i (l : list A) : vec_remove i l `sublist_of` l.
Proof.
  unfold vec_remove. rewrite <-(take_drop i l) at 3.
  apply sublist_app; [done|]. rewrite <-Nat.add_1_r, <-drop_drop. apply sublist_drop.
Qed.

Lemma graph_wf_sublist l g : l `sublist_of` g → graph_wf g → graph_wf l.
Proof.
  intros Hsub [Hnd Hord]. split; [|by eapply graph_ordered_sublist].
  eapply sublist_NoDup; [exact Hnd|]. by apply fmap_sublist.
Qed.

Lemma graph_remove_wf id g : graph_wf g → graph_wf (graph_remove id g).1.
Proof.
  intros Hwf. unfold graph_remove. destruct (position _ g); [|done].
  by eapply graph_wf_sublist, Hwf; apply vec_remove_sublist.
Qed.

(** ** The dependency search *)

(** The inner loop of [transitively_depends_on], named. *)
Definition depends_go (fuel : nat) g (target : TaskId) : list TaskId → option bool :=
  fix go (deps : list TaskId) : option bool :=
    match deps with
    | [] => Some false
    | dep :: deps =>
        if decide (dep = target) then Some true
        else
          match graph_get g dep with
          | Some t =>
              match transitively_depends_on fuel g t target with
              | None => None
              | Some true => Some true
              | Some false => go deps
              end
          | None => go deps
          end
    end.

Lemma transitively_depends_on_S fuel g s target :
  transitively_depends_on (S fuel) g s target = depends_go fuel g target (task_depends_on s).
Proof. done. Qed.

(** In an ordered graph the search from a task at position [i] goes at most
    [i + 1] calls deep. *)
Lemma depends_total g fuel : graph_wf g →
  ∀ l1 s l2, g = l1 ++ s :: l2 → length l1 < fuel →
  ∀ target, is_Some (transitively_depends_on fuel g s target).
Proof.
  intros Hwf. induction fuel as [|fuel IH]; intros l1 s l2 Heq Hlen target; [lia|].
  rewrite transitively_depends_on_S.
  assert (∀ deps, (∀ d, d ∈ deps → d ∈ task_depends_on s) →
    is_Some (depends_go fuel g target deps)) as Hgo; [|by apply Hgo].
  induction deps as [|d deps IHd]; intros Hsub; [by eexists|]. simpl.
  case_decide; [by eexists|].
  destruct (graph_get g d) as [t|] eqn:Hget; [|apply IHd; set_solver].
  apply graph_get_Some in Hget as [Hin Hid].
  assert (t ∈ l1) as Ht1.
  { rewrite Heq in Hin. apply elem_of_app in Hin as [?|Hin]; [done|]. exfalso.
    destruct Hwf as [_ Hord]. rewrite Heq in Hord.
    assert (graph_ordered (s :: l2)) as [Hs _]
      by (eapply graph_ordered_sublist, Hord; by apply sublist_inserts_l).
    apply (Hs t Hin). rewrite Hid. set_solver. }
  apply list_elem_of_split in Ht1 as (k1 & k2 & ->).
  destruct (IH k1 t (k2 ++ s :: l2)) with (target := target) as [b Hb].
  { by rewrite Heq, <-app_assoc. }
  { rewrite length_app in Hlen. simpl in Hlen. lia. }
  rewrite Hb. destruct b; [by eexists|]. apply IHd. set_solver.
Qed.

(** The search answers whether the target is reachable along edges. *)
Lemma depends_sound fuel g s target b :
  graph_wf g → s ∈ g → transitively_depends_on fuel g s target = Some b →
  b = true ↔ tc (graph_edge g) (task_id s) target.
Proof.
  intros Hwf. revert s b. induction fuel as [|fuel IH]; intros s b Hs; [done|].
  rewrite transitively_depends_on_S.
  assert (∀ deps b, (∀ d, d ∈ deps → d ∈ task_depends_on s) →
    depends_go fuel g target deps = Some b →
    b = true ↔ ∃ d, d ∈ deps ∧ (d = target ∨ tc (graph_edge g) d target)) as Hgo.
  { induction deps as [|d deps IHd]; intros b' Hsub; simpl; [intros; simplify_eq; set_solver|].
    case_decide as Hd; [intros; simplify_eq; set_solver|].
    destruct (graph_get g d) as [t|] eqn:Hget.
    - apply graph_get_Some in Hget as [Hin Hid].
      destruct (transitively_depends_on fuel g t target) as [bt|] eqn:Ht; [|done].
      apply IH in Ht; [|done]. rewrite Hid in Ht. destruct bt; intros Hb.
      + injection Hb as <-. split; [|done]. intros _. exists d. set_solver.
      + rewrite (IHd b') by set_solver. set_solver.
    - intros Hb. rewrite (IHd b') by set_solver. split; [set_solver|].
      intros (d' & [Heq|?]%elem_of_cons & [?|Htc]); [congruence| |set_solver|set_solver].
      exfalso. rewrite Heq in Htc. assert (∃ t, t ∈ g ∧ task_id t = d) as (t & Ht & Hid).
      { inversion Htc as [? ? (t & ? & ? & ?)|? ? ? (t & ? & ? & ?)]; subst; eauto. }
      assert (bool_decide (task_id t = d) = false) as Hf%bool_decide_eq_false_1; [|done].
      exact (proj1 (find_b_None _ _) Hget t Ht). }
  intros H. apply Hgo in H; [|done]. rewrite H. split.
  - intros (d & Hd & Ht). assert (graph_edge g (task_id s) d) as He by (exists s; done).
    destruct Ht as [->|Ht]; [by apply tc_once|by eapply tc_l].
  - intros Htc. inversion Htc as [? ? (t & Hin & Hid & Hd)|? d ? (t & Hin & Hid & Hd) Htc']; subst;
      assert (t = s) as -> by (by eapply graph_id_inj); eauto.
Qed.

Lemma any_depends_total g l target : graph_wf g → (∀ s, s ∈ l → s ∈ g) →
  is_Some (any_depends_on (length g) g l target).
Proof.
  intros Hwf. induction l as [|s l IH]; intros Hsub; simpl; [by eexists|].
  destruct (list_elem_of_split g s) as (l1 & l2 & Heq); [set_solver|].
  destruct (depends_total g (length g) Hwf l1 s l2 Heq) with (target := target) as [b Hb].
  { rewrite Heq, length_app. simpl. lia. }
  rewrite Hb. destruct b; [by eexists|]. apply IH. set_solver.
Qed.

Lemma any_depends_sound fuel g l target b : graph_wf g → (∀ s, s ∈ l → s ∈ g) →
  any_depends_on fuel g l target = Some b →
  b = true ↔ ∃ s, s ∈ l ∧ tc (graph_edge g) (task_id s) target.
Proof.
  intros Hwf. revert b. induction l as [|s l IH]; intros b Hsub; simpl.
  { intros [= <-]. set_solver. }
  destruct (transitively_depends_on fuel g s target) as [bs|] eqn:Hs; [|done].
  apply depends_sound in Hs; [|done|set_solver]. destruct bs; intros Hb.
  - injection Hb as <-. set_solver.
  - rewrite (IH b) by set_solver. set_solver.
Qed.

(** ** Specification of insertion *)

(** The outcomes of inserting [t] in [g]. *)
Inductive insert_spec g t : list (AgentTask Json) * result unit TaskDependencyError → Prop :=
| insert_empty :
    task_id_str (task_id t) = EmptyString → insert_spec g t (g, Err EmptyTaskId)
| insert_duplicate :
    task_id_str (task_id t) ≠ EmptyString → task_id t ∈ task_id <$> g →
    insert_spec g t (g, Err (Duplicate (task_id t)))
| insert_unknown d :
    task_id_str (task_id t) ≠ EmptyString → task_id t ∉ task_id <$> g →
    d ∈ task_depends_on t → d ∉ task_id <$> g →
    insert_spec g t (g, Err (UnknownDependency (task_id t) d))
| insert_cycle s :
    task_id_str (task_id t) ≠ EmptyString → task_id t ∉ task_id <$> g →
    (∀ d, d ∈ task_depends_on t → d ∈ task_id <$> g) →
    s ∈ g → tc (graph_edge g) (task_id s) (task_id t) →
    insert_spec g t (g, Err (Cycle (task_id t)))
| insert_accepted :
    task_id_str (task_id t) ≠ EmptyString → task_id t ∉ task_id <$> g →
    (∀ d, d ∈ task_depends_on t → d ∈ task_id <$> g) →
    (∀ s, s ∈ g → ¬ tc (graph_edge g) (task_id s) (task_id t)) →
    insert_spec g t (g ++ [t], Ok tt).

Lemma graph_insert_spec g t : graph_wf g →
  ∃ out, graph_insert t g = Some out ∧ insert_spec g t out.
Proof.
  intros Hwf. unfold graph_insert.
  destruct (str_is_empty _) eqn:He.
  { eexists. split; [done|]. apply insert_empty. by destruct (task_id_str (task_id t)). }
  assert (task_id_str (task_id t) ≠ EmptyString) as Hne by (by intros Hs; rewrite Hs in He).
  destruct (graph_has g (task_id t)) eqn:Hh.
  { apply graph_has_true in Hh. eexists. split; [done|]. by apply insert_duplicate. }
  apply graph_has_false in Hh.
  destruct (missing_dependency g t) as [d|] eqn:Hm.
  { apply find_b_Some in Hm as [Hd Hd2%negb_true_iff%graph_has_false].
    eexists. split; [done|]. by apply insert_unknown. }
  pose proof (proj1 (missing_dependency_None g t) Hm) as Hdeps.
  destruct (any_depends_total g g (task_id t) Hwf) as [b Hb]; [done|].
  rewrite Hb. apply any_depends_sound in Hb; [|done..]. destruct b; eexists; (split; [done|]).
  - destruct Hb as [(s & Hs & Htc) _]; [done|]. by eapply insert_cycle.
  - apply insert_accepted; try done. intros s Hs Htc. 
    assert (false = true) by (apply Hb; eauto). done.
Qed.

Lemma insert_spec_wf g t out : graph_wf g → insert_spec g t out → graph_wf out.1.
Proof.
  intros Hwf Hsp. destruct Hsp as [| | | |? Hni Hdep Hno]; try done.
  destruct Hwf as [Hnd Hord]. split.
  - simpl. rewrite fmap_app. by apply NoDup_snoc.
  - apply graph_ordered_snoc; [done| |].
    + intros s Hs Hin. apply (Hno s Hs). apply tc_once. by exists s.
    + intros Hin. by apply Hni, Hdep.
Qed.

(** Graphs reachable through the public interface. *)
Inductive graph_reachable : list (AgentTask Json) → Prop :=
| reach_new : graph_reachable []
| reach_insert g t out :
    graph_reachable g → graph_insert t g = Some out → graph_reachable out.1
| reach_remove g id : graph_reachable g → graph_reachable (graph_remove id g).1.

Lemma reachable_wf g : graph_reachable g → graph_wf g.
Proof.
  induction 1 as [|g t out _ IH Hins|g id _ IH].
  - apply graph_wf_nil.
  - destruct (graph_insert_spec g t IH) as (out' & Hout & Hsp). simplify_eq.
    by eapply insert_spec_wf.
  - by apply graph_remove_wf.
Qed.

(** ** Acyclicity *)

Lemma graph_ordered_lookup g i j t t' :
  graph_ordered g → g !! i = Some t → g !! j = Some t' → i ≤ j →
  task_id t' ∉ task_depends_on t.
Proof.
  intros Hord Hi Hj Hle.
  assert (graph_ordered (drop i g)) as Hd by (eapply graph_ordered_sublist, Hord; apply sublist_drop).
  rewrite (drop_S g t i Hi) in Hd. destruct Hd as [Hd _]. apply Hd.
  rewrite <-(drop_S g t i Hi). apply list_elem_of_lookup. exists (j - i).
  rewrite lookup_drop. by replace (i + (j - i)) with j by lia.
Qed.

Lemma edge_index g a b : graph_wf g → graph_edge g a b →
  ∃ i, (task_id <$> g) !! i = Some a ∧ ∀ j, (task_id <$> g) !! j = Some b → j < i.
Proof.
  intros [_ Hord] (t & (i & Hi)%list_elem_of_lookup & <- & Hb).
  exists i. rewrite list_lookup_fmap, Hi. split; [done|]. intros j Hj.
  rewrite list_lookup_fmap in Hj. apply fmap_Some in Hj as (t' & Hj & ->).
  destruct (decide (j < i)); [done|]. exfalso.
  apply (graph_ordered_lookup g i j t t' Hord Hi Hj); [lia|done].
Qed.

Lemma tc_index g a b : graph_wf g → tc (graph_edge g) a b →
  ∃ i, (task_id <$> g) !! i = Some a ∧ ∀ j, (task_id <$> g) !! j = Some b → j < i.
Proof.
  intros Hwf. induction 1 as [a b He|a c b He _ IH]; [by apply edge_index|].
  destruct (edge_index g a c Hwf He) as (i & Hi & Hlt). destruct IH as (k & Hk & Hlt').
  exists i. split; [done|]. intros j Hj. specialize (Hlt k Hk). specialize (Hlt' j Hj). lia.
Qed.

Lemma graph_wf_acyclic g a : graph_wf g → ¬ tc (graph_edge g) a a.
Proof.
  intros Hwf Htc. destruct (tc_index g a a Hwf Htc) as (i & Hi & Hlt).
  specialize (Hlt i Hi). lia.
Qed.

(** ** The ready queue *)

Lemma graph_ready_spec g done_ids t :
  t ∈ graph_ready g done_ids ↔ t ∈ g ∧ ∀ d, d ∈ task_depends_on t → d ∈ done_ids.
Proof.
  unfold graph_ready. rewrite !list_elem_of_In, List.filter_In, forallb_forall.
  setoid_rewrite <-list_elem_of_In. setoid_rewrite bool_decide_eq_true. done.
Qed.

(** Every dependency of a stored task is stored. *)
Definition graph_closed g : Prop :=
  ∀ t d, t ∈ g → d ∈ task_depends_on t → d ∈ task_id <$> g.

(** Graphs built by insertions only. *)
Inductive graph_built : list (AgentTask Json) → Prop :=
| built_new : graph_built []
| built_insert g t out : graph_built g → graph_insert t g = Some out → graph_built out.1.

Lemma built_reachable g : graph_built g → graph_reachable g.
Proof. induction 1; [constructor|by eapply reach_insert]. Qed.

Lemma built_closed g : graph_built g → graph_closed g.
Proof.
  induction 1 as [|g t out Hb IH Hins]; [intros ? ? ?%not_elem_of_nil; done|].
  destruct (graph_insert_spec g t) as (out' & Hout & Hsp);
    [by apply reachable_wf, built_reachable|]. simplify_eq.
  destruct Hsp; try done. intros s d Hs Hd. simpl in *. rewrite fmap_app.
  apply elem_of_app. left. apply elem_of_app in Hs as [Hs| ->%list_elem_of_singleton]; eauto.
Qed.

Lemma ready_progress_wf g done_ids :
  graph_wf g → graph_closed g →
  (∃ id, id ∈ task_id <$> g ∧ id ∉ done_ids) →
  ∃ t, t ∈ graph_ready g done_ids ∧ task_id t ∉ done_ids.
Proof.
  intros [Hnd Hord] Hcl (id & Hid & Hnot).
  destruct (position (λ t, negb (bool_decide (task_id t ∈ done_ids))) g) as [i|] eqn:Hp.
  - apply position_Some in Hp as (t & Hi & Ht%negb_true_iff%bool_decide_eq_false_1 & Hbefore).
    exists t. split; [|done]. apply graph_ready_spec.
    assert (t ∈ g) as Hin by (by eapply list_elem_of_lookup_2). split; [done|].
    intros d Hd. pose proof (Hcl t d Hin Hd) as (t' & -> & Hin')%list_elem_of_fmap.
    apply list_elem_of_lookup in Hin' as (j & Hj).
    destruct (decide (j < i)) as [Hlt|Hge].
    + assert (t' ∈ take i g) as Htake.
      { apply list_elem_of_lookup. exists j. by rewrite lookup_take_lt. }
      apply Hbefore in Htake. by apply negb_false_iff, bool_decide_eq_true_1 in Htake.
    + exfalso. by apply (graph_ordered_lookup g i j t t' Hord Hi Hj); [lia|].
  - exfalso. apply list_elem_of_fmap in Hid as (t & -> & Hin).
    pose proof (proj1 (position_None _ _) Hp t Hin) as Hf.
    by apply negb_false_iff, bool_decide_eq_true_1 in Hf.
Qed.

(** ** Properties *)

(** C39: [TaskGraph::insert] terminates on every reachable graph and its result
    is the first applicable case: empty id, duplicate id, unknown dependency,
    an existing task that transitively depends on the new id, or acceptance,
    in which case the task is appended; every refusal leaves the graph as it
    was. *)
Theorem graph_insert_exact g t :
  graph_reachable g → ∃ out, graph_insert t g = Some out ∧ insert_spec g t out.
Proof. intros Hr. by apply graph_insert_spec, reachable_wf. Qed.

(** On every graph reachable by insertions and removals, task ids are
    unique and the dependency relation has no cycle. *)
Theorem graph_stays_acyclic g :
  graph_reachable g → NoDup (task_id <$> g) ∧ ∀ a, ¬ tc (graph_edge g) a a.
Proof.
  intros Hwf%reachable_wf. split; [apply Hwf|]. intros a. by apply graph_wf_acyclic.
Qed.

(** A graph built by insertions never deadlocks: while some task is not
    done, [ready] returns a task that is not done, and every task it returns
    has all its dependencies done. *)
Theorem ready_never_deadlocks g done_ids :
  graph_built g →
  (∃ id, id ∈ task_id <$> g ∧ id ∉ done_ids) →
  (∃ t, t ∈ graph_ready g done_ids ∧ task_id t ∉ done_ids) ∧
  (∀ t, t ∈ graph_ready g done_ids → ∀ d, d ∈ task_depends_on t → d ∈ done_ids).
Proof.
  intros Hb Hnot. split.
  - apply ready_progress_wf; [by apply reachable_wf, built_reachable|by apply built_closed|done].
  - intros t Ht. by apply graph_ready_spec in Ht as [_ ?].
Qed.

(** Once a task is removed while another still depends on it, inserting a
    task with its id again is refused as a cycle, even one with no
    dependencies at all, for which no cycle can arise. *)
Theorem reinsertion_refused_as_cycle g t s :
  graph_reachable g → s ∈ g → task_id t ∈ task_depends_on s →
  task_id t ∉ task_id <$> g → task_id_str (task_id t) ≠ EmptyString →
  task_depends_on t = [] →
  graph_insert t g = Some (g, Err (Cycle (task_id t))).
Proof.
  intros Hr Hs Hd Hni Hne Hno.
  destruct (graph_insert_spec g t (reachable_wf g Hr)) as (out & Hout & Hsp).
  rewrite Hout. f_equal. destruct Hsp as [| |d ? ? Hd'| |? ? ? Hno']; try done.
  - rewrite Hno in Hd'. by apply not_elem_of_nil in Hd'.
  - destruct (Hno' s Hs). apply tc_once. by exists s.
Qed.
End graph.

(** ** Concrete graphs for the properties *)

Definition example_task (id : string) (deps : list string) : AgentTask unit :=
  mkAgentTask (mkTaskId id) Notify id id (mkTaskId <$> deps) RiskLow None None.

Definition example_graph : list (AgentTask unit) :=
  [example_task "fetch" []; example_task "install" ["fetch"]].

Lemma example_graph_built : graph_built example_graph.
Proof.
  change example_graph with
    ([example_task "fetch" []] ++ [example_task "install" ["fetch"]],
     @Ok unit TaskDependencyError tt).1.
  apply (built_insert [example_task "fetch" []] (example_task "install" ["fetch"]));
    [|vm_compute; reflexivity].
  change [example_task "fetch" []] with
    ([example_task "fetch" []], @Ok unit TaskDependencyError tt).1.
  apply (built_insert [] (example_task "fetch" [])); [apply built_new|vm_compute; reflexivity].
Qed.

(** The dependency of ["install"] removed under it. *)
Lemma example_graph_removed : graph_reachable [example_task "install" ["fetch"]].
Proof.
  change [example_task "install" ["fetch"]] with
    (graph_remove (mkTaskId "fetch") example_graph).1.
  apply reach_remove, built_reachable, example_graph_built.
Qed.

Lemma graph_insert_exact_witness :
  graph_reachable example_graph ∧
  ∃ out, graph_insert (example_task "report" ["install"]) example_graph = Some out ∧
    insert_spec example_graph (example_task "report" ["install"]) out.
Proof.
  split; [apply built_reachable, example_graph_built|].
  apply graph_insert_exact, built_reachable, example_graph_built.
Defined.

Lemma graph_stays_acyclic_witness :
  NoDup (task_id <$> example_graph) ∧ ∀ a, ¬ tc (graph_edge example_graph) a a.
Proof. apply graph_stays_acyclic, built_reachable, example_graph_built. Defined.

Lemma ready_never_deadlocks_witness :
  (∃ t, t ∈ graph_ready example_graph [mkTaskId "fetch"] ∧ task_id t ∉ [mkTaskId "fetch"]) ∧
  (∀ t, t ∈ graph_ready example_graph [mkTaskId "fetch"] →
     ∀ d, d ∈ task_depends_on t → d ∈ [mkTaskId "fetch"]).
Proof.
  apply ready_never_deadlocks; [apply example_graph_built|].
  exists (mkTaskId "install"). split; by apply (bool_decide_unpack _); vm_compute.
Defined.

Lemma reinsertion_refused_witness :
  graph_insert (example_task "fetch" []) [example_task "install" ["fetch"]] =
  Some ([example_task "install" ["fetch"]], Err (Cycle (mkTaskId "fetch"))).
Proof.
  apply (reinsertion_refused_as_cycle [example_task "install" ["fetch"]]
    (example_task "fetch" []) (example_task "install" ["fetch"]));
    [apply example_graph_removed|left| | |done|done];
    by apply (bool_decide_unpack _); vm_compute.
Defined.
