(* ===== verification/Retry.v ===== *)
(** * Retry policies and the circuit breaker

    Models agent/aether-retry-policy/src/lib.rs.  [None] as the result of an
    operation stands for the panic of an unchecked [u32] addition. *)
From S2P Require Import Prelude RustStd TaskGraph.

Inductive BackoffStrategy :=
| BackoffNone
| BackoffConstant (ms : N)
| BackoffLinear (base_ms : N)
| BackoffExponential (base_ms max_ms : N).

#[export] Instance BackoffStrategy_eq_dec : EqDecision BackoffStrategy.
Proof. solve_decision. Defined.

Definition delay_ms (b : BackoffStrategy) (attempt : N) : N :=
  match b with
  | BackoffNone => 0
  | BackoffConstant ms => ms
  | BackoffLinear base_ms => saturating_mul u64_max base_ms attempt
  | BackoffExponential base_ms max_ms =>
      let exp := saturating_pow u64_max 2 (N.min (saturating_sub attempt 1) 20) in
      N.min (saturating_mul u64_max base_ms exp) max_ms
  end.

Inductive RetryDecision :=
| Retry (delay : N)
| Fallback (fallback_id : TaskId)
| CircuitBreak
| GiveUp.

#[export] Instance RetryDecision_eq_dec : EqDecision RetryDecision.
Proof. solve_decision. Defined.

Definition RetryDecision_as_str (d : RetryDecision) : string :=
  match d with
  | Retry _ => "retry"
  | Fallback _ => "fallback"
  | CircuitBreak => "circuit-break"
  | GiveUp => "give-up"
  end.

Record FailureRecord := mkFailureRecord {
  failure_task_id : TaskId;
  failure_error : string;
  failure_timestamp_ms : N;
}.

Record RetryPolicy := mkRetryPolicy {
  max_attempts : N;
  backoff : BackoffStrategy;
  fallbacks : list TaskId;
  circuit_breaker_threshold : N;
  group : option string;
}.

#[export] Instance RetryPolicy_eq_dec : EqDecision RetryPolicy.
Proof. solve_decision. Defined.

Definition RetryPolicy_no_retry : RetryPolicy := mkRetryPolicy 1 BackoffNone [] 0 None.

Definition RetryPolicy_bounded (max_att delay : N) : RetryPolicy :=
  mkRetryPolicy (N.max max_att 1) (BackoffConstant delay) [] 0 None.

Definition RetryPolicy_exponential (max_att base_ms max_ms : N) (grp : string)
    (threshold : N) : RetryPolicy :=
  mkRetryPolicy (N.max max_att 1) (BackoffExponential base_ms max_ms) [] threshold (Some grp).

Definition RetryPolicy_with_fallback (fb : TaskId) (p : RetryPolicy) : RetryPolicy :=
  mkRetryPolicy (max_attempts p) (backoff p) (fallbacks p ++ [fb])
    (circuit_breaker_threshold p) (group p).

Definition RetryPolicy_default : RetryPolicy := RetryPolicy_bounded 3 1000.

Record PolicyEngine := mkPolicyEngine {
  policies : list (TaskId * RetryPolicy);
  group_failures : list (string * N);
}.

#[export] Instance PolicyEngine_eq_dec : EqDecision PolicyEngine.
Proof. solve_decision. Defined.

Definition PolicyEngine_new : PolicyEngine := mkPolicyEngine [] [].

Definition register (id : TaskId) (p : RetryPolicy) (e : PolicyEngine) : PolicyEngine :=
  mkPolicyEngine (policies e ++ [(id, p)]) (group_failures e).

Definition policy_for (e : PolicyEngine) (id : TaskId) : option RetryPolicy :=
  snd <$> find_b (λ x, bool_decide (x.1 = id)) (policies e).

(** [iter().find(|(g, _)| g == group).map(|(_, c)| *c)]. *)
Definition group_count (l : list (string * N)) (g : string) : option N :=
  snd <$> find_b (λ x, bool_decide (x.1 = g)) l.

Definition reset_breaker (g : string) (e : PolicyEngine) : PolicyEngine :=
  mkPolicyEngine (policies e)
    match position (λ x : string * N, bool_decide (x.1 = g)) (group_failures e) with
    | Some i => alter (λ x : string * N, (x.1, 0%N)) i (group_failures e)
    | None => group_failures e
    end.

Definition reset_all_breakers (e : PolicyEngine) : PolicyEngine :=
  mkPolicyEngine (policies e) ((λ x : string * N, (x.1, 0%N)) <$> group_failures e).

(** [self.group_failures[i].1 += 1] or the push of a fresh counter. *)
Definition bump (l : list (string * N)) (g : string) : option (list (string * N)) :=
  match position (λ x : string * N, bool_decide (x.1 = g)) l with
  | Some i =>
      x ← l !! i;
      if (u32_max <? x.2 + 1)%N then None
      else Some (<[i := (x.1, x.2 + 1)%N]> l)
  | None => Some (l ++ [(g, 1%N)])
  end.

Definition decide_policy (p : RetryPolicy) (attempt : N) : option RetryDecision :=
  if (max_attempts p <=? attempt)%N then
    match fallbacks p with
    | fb :: _ => Some (Fallback fb)
    | [] => Some GiveUp
    end
  else
    if (u32_max <? attempt + 1)%N then None
    else Some (Retry (delay_ms (backoff p) (attempt + 1))).

Definition PolicyEngine_decide (e : PolicyEngine) (id : TaskId) (attempt : N) :
    option (PolicyEngine * RetryDecision) :=
  match policy_for e id with
  | None => Some (e, GiveUp)
  | Some p =>
      match group p with
      | None => d ← decide_policy p attempt; Some (e, d)
      | Some g =>
          let current := default 0%N (group_count (group_failures e) g) in
          if (0 <? circuit_breaker_threshold p)%N &&
             (circuit_breaker_threshold p <=? current)%N
          then Some (e, CircuitBreak)
          else
            l ← bump (group_failures e) g;
            d ← decide_policy p attempt;
            Some (mkPolicyEngine (policies e) l, d)
      end
  end.

(** ** Well-formed engines: every number fits its Rust type *)

Definition backoff_ok (b : BackoffStrategy) : Prop :=
  match b with
  | BackoffNone => True
  | BackoffConstant ms => (ms ≤ u64_max)%N
  | BackoffLinear base_ms => (base_ms ≤ u64_max)%N
  | BackoffExponential base_ms max_ms => (base_ms ≤ u64_max)%N ∧ (max_ms ≤ u64_max)%N
  end.

Definition policy_ok (p : RetryPolicy) : Prop :=
  (max_attempts p ≤ u32_max)%N ∧ backoff_ok (backoff p) ∧
  (circuit_breaker_threshold p ≤ u32_max)%N.

Definition engine_ok (e : PolicyEngine) : Prop :=
  Forall (λ x, policy_ok x.2) (policies e) ∧
  Forall (λ x : string * N, (x.2 ≤ u32_max)%N) (group_failures e).

(** The failure count of a group: zero until its first failure. *)
Definition count (e : PolicyEngine) (g : string) : N :=
  default 0%N (group_count (group_failures e) g).

Lemma policy_for_ok e id p : engine_ok e → policy_for e id = Some p → policy_ok p.
Proof.
  intros [Hp _] (x & [Hin _]%find_b_Some & ->)%fmap_Some.
  rewrite Forall_forall in Hp. by apply Hp.
Qed.

Lemma count_le e g : engine_ok e → (count e g ≤ u32_max)%N.
Proof.
  intros [_ Hc]. unfold count, group_count.
  destruct (find_b _ _) as [x|] eqn:H; simpl; [|done].
  apply find_b_Some in H as [Hin _]. rewrite Forall_forall in Hc. by apply Hc.
Qed.

(** Updating the first entry of a group updates its count and no other. *)
Lemma group_count_cons x l g :
  group_count (x :: l) g = if bool_decide (x.1 = g) then Some x.2 else group_count l g.
Proof. unfold group_count. simpl. by destruct (bool_decide _). Qed.

Lemma bump_Some l g l' : bump l g = Some l' →
  default 0%N (group_count l' g) = (default 0 (group_count l g) + 1)%N ∧
  ∀ g', g' ≠ g → group_count l' g' = group_count l g'.
Proof.
  unfold bump. revert l'. induction l as [|x l IH]; intros l'; simpl.
  { intros [= <-]. rewrite group_count_cons, bool_decide_true by done. split; [done|].
    intros g' Hg. by rewrite group_count_cons, bool_decide_false. }
  rewrite !group_count_cons. destruct (bool_decide_reflect (x.1 = g)) as [Hx|Hx]; simpl.
  - destruct (N.ltb_spec u32_max (x.2 + 1)); simpl; [done|]. intros [= <-].
    rewrite group_count_cons, bool_decide_true by done. split; [done|].
    intros g' Hg. rewrite !group_count_cons; simpl.
    by rewrite bool_decide_false by congruence.
  - assert (∀ k', (default 0%N (group_count k' g) = (default 0 (group_count l g) + 1)%N ∧
      ∀ g', g' ≠ g → group_count k' g' = group_count l g') →
      default 0%N (group_count (x :: k') g) = (default 0 (group_count l g) + 1)%N ∧
      ∀ g', g' ≠ g → group_count (x :: k') g' = group_count (x :: l) g') as Hlift.
    { intros k' [IH1 IH2]. rewrite group_count_cons, bool_decide_false by done.
      split; [done|]. intros g' Hg. rewrite !group_count_cons. by rewrite IH2. }
    destruct (position _ l) as [i|]; simpl in *; [|intros [= <-]; by apply Hlift, IH].
    destruct (l !! i) as [y|]; simpl in *; [|done].
    destruct (N.ltb_spec u32_max (y.2 + 1)); simpl; [done|]. intros [= <-]. by apply Hlift, IH.
Qed.

Lemma bump_None l g : bump l g = None ↔ (u32_max ≤ default 0 (group_count l g))%N.
Proof.
  unfold bump. induction l as [|x l IH]; simpl; [done|].
  rewrite !group_count_cons. destruct (bool_decide_reflect (x.1 = g)) as [Hx|Hx]; simpl.
  - destruct (N.ltb_spec u32_max (x.2 + 1)); simpl; split; try done; lia.
  - rewrite <-IH. destruct (position _ l) as [i|]; simpl; [|done].
    destruct (l !! i) as [y|]; simpl; [|done]. by destruct (N.ltb _ _).
Qed.

Lemma bump_ok l g l' : Forall (λ x : string * N, (x.2 ≤ u32_max)%N) l → bump l g = Some l' →
  Forall (λ x : string * N, (x.2 ≤ u32_max)%N) l'.
Proof.
  intros Hl. unfold bump. destruct (position _ l) as [i|]; simpl.
  - destruct (l !! i) as [y|] eqn:Hy; simpl; [|done].
    destruct (N.ltb_spec u32_max (y.2 + 1)); simpl; [done|]. intros [= <-].
    by apply Forall_insert.
  - intros [= <-]. apply Forall_app. split; [done|]. by repeat constructor.
Qed.

Lemma reset_count l g i : position (λ x : string * N, bool_decide (x.1 = g)) l = Some i →
  group_count (alter (λ x : string * N, (x.1, 0%N)) i l) g = Some 0%N.
Proof.
  revert i. induction l as [|x l IH]; intros i; simpl; [done|].
  destruct (bool_decide_reflect (x.1 = g)).
  - intros [= <-]. simpl. by rewrite group_count_cons, bool_decide_true.
  - intros (j & Hj & ->)%fmap_Some. simpl.
    rewrite group_count_cons, bool_decide_false by done. by apply IH.
Qed.

Lemma reset_breaker_count e g : count (reset_breaker g e) g = 0%N.
Proof.
  unfold count, reset_breaker. simpl.
  destruct (position _ _) as [i|] eqn:Hp; [by rewrite (reset_count _ _ _ Hp)|].
  unfold group_count. replace (find_b _ (group_failures e)) with (@None (string * N)); [done|].
  symmetry. apply find_b_None. intros x Hx. by apply (proj1 (position_None _ _) Hp).
Qed.

Lemma reset_breaker_ok e g : engine_ok e → engine_ok (reset_breaker g e).
Proof.
  intros [Hp Hc]. split; [done|]. unfold reset_breaker. simpl.
  destruct (position _ _) as [i|]; [|done].
  apply Forall_alter; [done|]. intros x _ _. simpl. lia.
Qed.

(** ** The decision function *)

(** The counters after a decision that consults the policy [p]. *)
Definition bumped (e : PolicyEngine) (p : RetryPolicy) (e' : PolicyEngine) : Prop :=
  policies e' = policies e ∧
  match group p with
  | None => e' = e
  | Some g => count e' g = (count e g + 1)%N ∧ ∀ g', g' ≠ g → count e' g' = count e g'
  end.

(** The breaker of the group of [p] is open. *)
Definition tripped (e : PolicyEngine) (p : RetryPolicy) : Prop :=
  ∃ g, group p = Some g ∧ (0 < circuit_breaker_threshold p ≤ count e g)%N.

Inductive decide_spec (e : PolicyEngine) (id : TaskId) (attempt : N) :
    option (PolicyEngine * RetryDecision) → Prop :=
| decide_unknown : policy_for e id = None → decide_spec e id attempt (Some (e, GiveUp))
| decide_tripped p : policy_for e id = Some p → tripped e p →
    decide_spec e id attempt (Some (e, CircuitBreak))
| decide_retry p e' : policy_for e id = Some p → ¬ tripped e p → bumped e p e' →
    (attempt < max_attempts p)%N →
    decide_spec e id attempt (Some (e', Retry (delay_ms (backoff p) (attempt + 1))))
| decide_fallback p e' fb rest : policy_for e id = Some p → ¬ tripped e p → bumped e p e' →
    (max_attempts p ≤ attempt)%N → fallbacks p = fb :: rest →
    decide_spec e id attempt (Some (e', Fallback fb))
| decide_give_up p e' : policy_for e id = Some p → ¬ tripped e p → bumped e p e' →
    (max_attempts p ≤ attempt)%N → fallbacks p = [] →
    decide_spec e id attempt (Some (e', GiveUp))
| decide_overflow p g : policy_for e id = Some p → group p = Some g →
    circuit_breaker_threshold p = 0%N → count e g = u32_max →
    decide_spec e id attempt None.

Lemma decide_policy_spec e id p e' attempt : policy_ok p →
  policy_for e id = Some p → ¬ tripped e p → bumped e p e' →
  ∃ d, decide_policy p attempt = Some d ∧ d ≠ CircuitBreak ∧
    decide_spec e id attempt (Some (e', d)).
Proof.
  intros (Hmax & _ & _) Hp Ht Hb. unfold decide_policy.
  destruct (N.leb_spec (max_attempts p) attempt) as [Hle|Hlt].
  - destruct (fallbacks p) as [|fb rest] eqn:Hf; (eexists; split_and!; [done|done|]);
      [by eapply decide_give_up|by eapply decide_fallback].
  - destruct (N.ltb_spec u32_max (attempt + 1)); [lia|]. eexists; split_and!; [done|done|].
    by eapply decide_retry.
Qed.

Lemma decide_meets_spec e id attempt :
  engine_ok e → decide_spec e id attempt (PolicyEngine_decide e id attempt).
Proof.
  intros Hok. unfold PolicyEngine_decide.
  destruct (policy_for e id) as [p|] eqn:Hp; [|by apply decide_unknown].
  pose proof (policy_for_ok _ _ _ Hok Hp) as Hpok.
  destruct (group p) as [g|] eqn:Hg.
  - fold (count e g). destruct (_ && _) eqn:Ht; bool_to_prop.
    { eapply decide_tripped; [done|]. exists g. split; [done|lia]. }
    assert (¬ tripped e p) as Hnt.
    { intros (g' & Hg' & Hc). simplify_eq. apply andb_false_iff in Ht as [?|?]; bool_to_prop; lia. }
    destruct (bump (group_failures e) g) as [l|] eqn:Hl; simpl.
    + apply bump_Some in Hl as [Hc Ho].
      destruct (decide_policy_spec e id p (mkPolicyEngine (policies e) l) attempt Hpok Hp Hnt)
        as (d & -> & _ & Hd); [|done].
      split; [done|]. rewrite Hg. split; [done|]. intros g' Hg'. unfold count. simpl. by rewrite Ho.
    + apply bump_None in Hl. fold (count e g) in Hl. pose proof (count_le e g Hok).
      eapply decide_overflow; [done|done| |lia].
      destruct (decide (circuit_breaker_threshold p = 0%N)); [done|]. exfalso. apply Hnt.
      exists g. destruct Hpok as (_ & _ & ?). split; [done|lia].
  - destruct (decide_policy_spec e id p e attempt Hpok Hp) as (d & -> & _ & Hd); [| |done].
    + intros (g & Hg' & _). congruence.
    + split; [done|]. by rewrite Hg.
Qed.

Lemma decide_preserves_ok e id attempt e' d :
  engine_ok e → PolicyEngine_decide e id attempt = Some (e', d) → engine_ok e'.
Proof.
  intros [Hp Hc] H. unfold PolicyEngine_decide in H.
  destruct (policy_for e id) as [p|]; [|by simplify_eq].
  destruct (group p) as [g|].
  - destruct (_ && _); [by simplify_eq|].
    destruct (bump (group_failures e) g) as [l|] eqn:Hl; simpl in H; [|done].
    destruct (decide_policy p attempt); simplify_eq/=. split; [done|]. by eapply bump_ok.
  - destruct (decide_policy p attempt); by simplify_eq/=.
Qed.

(** A sequence of failures reported to the engine. *)
Fixpoint run_decides (e : PolicyEngine) (calls : list (TaskId * N)) :
    option (PolicyEngine * list RetryDecision) :=
  match calls with
  | [] => Some (e, [])
  | (id, attempt) :: calls =>
      '(e, d) ← PolicyEngine_decide e id attempt;
      '(e, ds) ← run_decides e calls;
      Some (e, d :: ds)
  end.

(** [id] is under a policy of group [g] with threshold [T]. *)
Definition guarded (e : PolicyEngine) (g : string) (T : N) (id : TaskId) : Prop :=
  ∃ p, policy_for e id = Some p ∧ group p = Some g ∧ circuit_breaker_threshold p = T.

Lemma guarded_decide e g T id attempt :
  engine_ok e → (0 < T)%N → guarded e g T id →
  ∃ e' d, PolicyEngine_decide e id attempt = Some (e', d) ∧ engine_ok e' ∧
    policies e' = policies e ∧
    if decide (T ≤ count e g)%N then d = CircuitBreak ∧ e' = e
    else d ≠ CircuitBreak ∧ count e' g = (count e g + 1)%N.
Proof.
  intros Hok HT (p & Hp & Hg & Hthr).
  pose proof (decide_meets_spec e id attempt Hok) as Hs.
  destruct (PolicyEngine_decide e id attempt) as [[e' d]|] eqn:Hd.
  - exists e', d. pose proof (decide_preserves_ok _ _ _ _ _ Hok Hd).
    assert (tripped e p ↔ (T ≤ count e g)%N) as Ht.
    { split; [intros (g' & ? & ?); simplify_eq; lia|]. intros. exists g. split; [done|lia]. }
    inversion Hs as [|? ? Htr|? ? ? Htr [Hb1 Hb2]|? ? ? ? ? Htr [Hb1 Hb2]|? ? ? Htr [Hb1 Hb2]|];
      simplify_eq; (split_and!; [done..|]); try rewrite Hg in Hb2;
      case_decide; try tauto; (split; [done|tauto]).
  - inversion Hs. simplify_eq. lia.
Qed.

(** The circuit breaker admits exactly the failures its threshold leaves:
    when every reported task is under a policy of the group with threshold
    [T > 0], no call panics and the [i]-th decision is [CircuitBreak] exactly
    when [i] is at least the threshold minus the failures already counted;
    the counter then stays at its value, so the breaker remains open. *)
Theorem breaker_trips_exactly e g T calls :
  engine_ok e → (0 < T)%N → Forall (λ c, guarded e g T c.1) calls →
  ∃ e' ds, run_decides e calls = Some (e', ds) ∧ length ds = length calls ∧
    (∀ i d, ds !! i = Some d → d = CircuitBreak ↔ (T - count e g ≤ N.of_nat i)%N) ∧
    count e' g = N.max (count e g) (N.min T (count e g + N.of_nat (length calls))).
Proof.
  intros Hok HT. revert e Hok. induction calls as [|[id attempt] calls IH]; intros e Hok Hall.
  { exists e, []. split_and!; [done|done|intros i d; by rewrite lookup_nil|simpl; lia]. }
  apply Forall_cons in Hall as [Hid Hall].
  destruct (guarded_decide e g T id attempt Hok HT Hid) as (e1 & d & Hd & Hok1 & Hpol & Hcase).
  destruct (IH e1 Hok1) as (e2 & ds & Hrun & Hlen & Hds & Hcount).
  { eapply Forall_impl; [done|]. intros c (p & Hp & Hg). exists p. split; [|done].
    unfold policy_for in *. by rewrite Hpol. }
  exists e2, (d :: ds). simpl. rewrite Hd; simpl. rewrite Hrun; simpl.
  rewrite Hcount. case_decide as Hc.
  - destruct Hcase as [-> ->]. split_and!; [done|by rewrite Hlen| |lia].
    intros [|i] d'; simpl; [intros [= <-]; split; [lia|done]|]. intros Hi.
    rewrite (Hds i d' Hi). lia.
  - destruct Hcase as [Hne Hc1]. rewrite Hc1. split_and!; [done|by rewrite Hlen| |lia].
    intros [|i] d'; simpl; [intros [= <-]; split; [done|lia]|]. intros Hi.
    rewrite (Hds i d' Hi). rewrite Hc1. lia.
Qed.

(** [reset_breaker] closes the breaker: the next failure of a task of the
    group is decided by its attempts again and is counted as the first. *)
Theorem reset_breaker_reopens_group e g T id attempt :
  engine_ok e → (0 < T)%N → guarded e g T id →
  ∃ e' d, PolicyEngine_decide (reset_breaker g e) id attempt = Some (e', d) ∧
    d ≠ CircuitBreak ∧ count e' g = 1%N.
Proof.
  intros Hok HT Hid.
  destruct (guarded_decide (reset_breaker g e) g T id attempt) as (e' & d & Hd & _ & _ & Hc);
    [by apply reset_breaker_ok|done|done|].
  rewrite reset_breaker_count in Hc. case_decide; [lia|]. exists e', d. naive_solver.
Qed.

(** [PolicyEngine::decide] gives, on every engine whose numbers fit their
    types, exactly the documented outcome: give up for an unregistered task,
    circuit break while the group's breaker is open, a retry after the delay
    for the next attempt while attempts remain, else the first fallback, else
    give up; every decision that consults the policy counts one failure for
    its group.  The only panic is the counter overflow of a group whose
    breaker is disabled. *)
Theorem decide_exact e id attempt :
  engine_ok e → decide_spec e id attempt (PolicyEngine_decide e id attempt).
Proof. apply decide_meets_spec. Qed.

(** A policy without a group never breaks the circuit and leaves the
    engine unchanged, whatever its threshold and however often its task has
    failed. *)
Theorem ungrouped_policy_never_breaks e id attempt p :
  engine_ok e → policy_for e id = Some p → group p = None →
  ∃ d, PolicyEngine_decide e id attempt = Some (e, d) ∧ d ≠ CircuitBreak.
Proof.
  intros Hok Hp Hg. unfold PolicyEngine_decide. rewrite Hp, Hg.
  destruct (decide_policy_spec e id p e attempt (policy_for_ok _ _ _ Hok Hp) Hp)
    as (d & -> & Hd & _); [| |by exists d].
  - intros (g & Hg' & _). congruence.
  - split; [done|]. by rewrite Hg.
Qed.

(** The exponential delay is [base * 2^(attempt - 1)] with the exponent
    capped at 20 and the result capped at [max_ms]; no intermediate value
    overflows, the delay never exceeds [max_ms] and never decreases from one
    attempt to the next. *)
Theorem exponential_delay_spec base mx attempt :
  backoff_ok (BackoffExponential base mx) →
  delay_ms (BackoffExponential base mx) attempt =
    N.min (base * 2 ^ N.min (attempt - 1) 20) mx ∧
  (delay_ms (BackoffExponential base mx) attempt ≤ mx)%N ∧
  (delay_ms (BackoffExponential base mx) attempt ≤
   delay_ms (BackoffExponential base mx) (attempt + 1))%N.
Proof.
  intros [Hb Hm].
  assert (∀ a, delay_ms (BackoffExponential base mx) a =
    N.min (base * 2 ^ N.min (a - 1) 20) mx) as Heq.
  { intros a. unfold delay_ms, saturating_sub, saturating_pow, saturating_mul.
    assert (2 ^ N.min (a - 1) 20 ≤ 2 ^ 20)%N by (apply N.pow_le_mono_r; lia).
    rewrite (N.min_r u64_max (2 ^ _)) by (unfold u64_max; lia). lia. }
  rewrite !Heq. split_and!; [done|lia|].
  assert (2 ^ N.min (attempt - 1) 20 ≤ 2 ^ N.min (attempt + 1 - 1) 20)%N
    by (apply N.pow_le_mono_r; lia). nia.
Qed.

(** ** Concrete engines for the properties *)

Definition example_engine : PolicyEngine :=
  register (mkTaskId "b") (RetryPolicy_exponential 5 100 1000 "net" 2)
    (register (mkTaskId "a") (RetryPolicy_exponential 5 100 1000 "net" 2)
      (register (mkTaskId "solo") (mkRetryPolicy 3 BackoffNone [] 1 None) PolicyEngine_new)).

Lemma example_engine_ok : engine_ok example_engine.
Proof. split; repeat constructor; vm_compute; congruence. Qed.

Lemma example_guarded (id : TaskId) :
  id = mkTaskId "a" ∨ id = mkTaskId "b" → guarded example_engine "net" 2 id.
Proof. intros [->| ->]; (eexists; split_and!; [vm_compute; reflexivity|done|done]). Qed.

Lemma breaker_trips_witness :
  ∃ e' ds, run_decides example_engine
      [(mkTaskId "a", 1%N); (mkTaskId "b", 1%N); (mkTaskId "a", 2%N)] = Some (e', ds) ∧
    length ds = 3 ∧
    (∀ i d, ds !! i = Some d → d = CircuitBreak ↔ (2 - count example_engine "net" ≤ N.of_nat i)%N) ∧
    count e' "net" = N.max (count example_engine "net") (N.min 2 (count example_engine "net" + 3)).
Proof.
  apply (breaker_trips_exactly example_engine "net" 2
    [(mkTaskId "a", 1%N); (mkTaskId "b", 1%N); (mkTaskId "a", 2%N)]);
    [apply example_engine_ok|lia|].
  repeat constructor; apply example_guarded; auto.
Defined.

Lemma reset_breaker_reopens_witness :
  ∃ e' d, PolicyEngine_decide (reset_breaker "net" example_engine) (mkTaskId "a") 1 = Some (e', d) ∧
    d ≠ CircuitBreak ∧ count e' "net" = 1%N.
Proof.
  apply (reset_breaker_reopens_group example_engine "net" 2);
    [apply example_engine_ok|lia|apply example_guarded; auto].
Defined.

Lemma decide_exact_witness :
  decide_spec example_engine (mkTaskId "a") 1
    (PolicyEngine_decide example_engine (mkTaskId "a") 1).
Proof. apply decide_exact, example_engine_ok. Defined.

Lemma ungrouped_policy_witness :
  ∃ d, PolicyEngine_decide example_engine (mkTaskId "solo") 7 = Some (example_engine, d) ∧
    d ≠ CircuitBreak.
Proof.
  apply (ungrouped_policy_never_breaks _ _ _ (mkRetryPolicy 3 BackoffNone [] 1 None));
    [apply example_engine_ok|vm_compute; reflexivity|done].
Defined.

Lemma exponential_delay_witness :
  delay_ms (BackoffExponential 100 1000) 3 = N.min (100 * 2 ^ N.min (3 - 1) 20) 1000 ∧
  (delay_ms (BackoffExponential 100 1000) 3 ≤ 1000)%N ∧
  (delay_ms (BackoffExponential 100 1000) 3 ≤ delay_ms (BackoffExponential 100 1000) (3 + 1))%N.
Proof. apply exponential_delay_spec. split; vm_compute; congruence. Defined.

(** The first retry waits the delay of attempt 2: [decide] passes
    [attempt + 1] although the first retry is documented as attempt 1. *)
Example first_retry_waits_twice_the_base :
  snd <$> PolicyEngine_decide example_engine (mkTaskId "a") 1 = Some (Retry 200).
Proof. vm_compute. reflexivity. Qed.
