(* ===== verification/UpdateAgent.v ===== *)
(** * The update agent

    Models system/aether-update-agent/src/lib.rs.  The [ApplyEngine] trait is
    a class whose only operation runs one step of a plan; the interior
    mutability of an engine is a state threaded through the calls.  [None] as
    the result of an operation is the panic of [PolicyEngine::decide]. *)
From S2P Require Import Prelude RustStd Signing UpdateCore TaskGraph Retry.
From stdpp Require Import relations.
Import UpdateCore.Plan UpdateCore.Recovery UpdateCore.State.

Inductive ApplyStep := Download | Verify | Stage | Snapshot | Apply | Reboot.

#[export] Instance ApplyStep_eq_dec : EqDecision ApplyStep.
Proof. solve_decision. Defined.

Definition ApplyStep_as_str (s : ApplyStep) : string :=
  match s with
  | Download => "download"
  | Verify => "verify"
  | Stage => "stage"
  | Snapshot => "snapshot"
  | Apply => "apply"
  | Reboot => "reboot"
  end.

Definition ApplyStep_stage (s : ApplyStep) : UpdateStage :=
  match s with
  | Download => Downloading
  | Verify => Verifying
  | Stage => Staging
  | Snapshot | Apply | Reboot => Applying
  end.

Inductive ApplyError :=
| NonZeroExit (step : ApplyStep) (code : Z)
| Refused (step : ApplyStep) (reason : string)
| WrongStage (step : ApplyStep) (actual : UpdateStage).

#[export] Instance ApplyError_eq_dec : EqDecision ApplyError.
Proof. solve_decision. Defined.

Definition ApplyError_display (e : ApplyError) : string :=
  match e with
  | NonZeroExit step code =>
      "step '" +:+ ApplyStep_as_str step +:+ "' returned exit code " +:+ pretty code
  | Refused step reason => "step '" +:+ ApplyStep_as_str step +:+ "' refused: " +:+ reason
  | WrongStage step actual =>
      "step '" +:+ ApplyStep_as_str step +:+ "' not allowed in stage '"
        +:+ UpdateStage_as_str actual +:+ "'"
  end.

Class ApplyEngine (E : Type) :=
  engine_run : ApplyStep → UpdatePlan → E → E * result unit ApplyError.

#[export] Instance NullApplyEngine : ApplyEngine unit := λ _ _ e, (e, Ok tt).

Inductive AgentAuditEvent :=
| PlanAccepted (plan_id target : string)
| StepAttempted (step : ApplyStep) (attempt : N)
| StepSucceeded (step : ApplyStep)
| StepFailed (step : ApplyStep) (reason : string)
| RetryScheduled (step : ApplyStep) (delay : N)
| StepGaveUp (step : ApplyStep)
| RollbackTriggered (reason : string)
| RollbackCompleted.

#[export] Instance AgentAuditEvent_eq_dec : EqDecision AgentAuditEvent.
Proof. solve_decision. Defined.

Definition AgentAuditEvent_kind (e : AgentAuditEvent) : string :=
  match e with
  | PlanAccepted _ _ => "plan-accepted"
  | StepAttempted _ _ => "step-attempted"
  | StepSucceeded _ => "step-succeeded"
  | StepFailed _ _ => "step-failed"
  | RetryScheduled _ _ => "retry-scheduled"
  | StepGaveUp _ => "step-gave-up"
  | RollbackTriggered _ => "rollback-triggered"
  | RollbackCompleted => "rollback-completed"
  end.

Definition step_task_id (step : ApplyStep) : TaskId :=
  match TaskId_new (ApplyStep_as_str step) with
  | Some id => id
  | None => default TaskId_default (TaskId_new "update")
  end.

Record UpdateAgent {E : Type} := mkUpdateAgent {
  ag_engine : E;
  ag_status : UpdateStatus;
  ag_snapshot : option RecoverySnapshot;
  ag_retries : PolicyEngine;
  ag_audit : list AgentAuditEvent;
}.
Arguments UpdateAgent E : clear implicits.
Arguments mkUpdateAgent {E}.

Section agent.
Context {E : Type} `{!ApplyEngine E}.
Implicit Types (ag : UpdateAgent E).

Definition UpdateAgent_new (e : E) : UpdateAgent E :=
  mkUpdateAgent e UpdateStatus_default None PolicyEngine_new [].

(** The field updates the operations perform. *)
Definition push_audit (ev : AgentAuditEvent) ag : UpdateAgent E :=
  mkUpdateAgent (ag_engine ag) (ag_status ag) (ag_snapshot ag) (ag_retries ag)
    (ag_audit ag ++ [ev]).

Definition set_status (st : UpdateStatus) ag : UpdateAgent E :=
  mkUpdateAgent (ag_engine ag) st (ag_snapshot ag) (ag_retries ag) (ag_audit ag).

Definition set_engine (e : E) ag : UpdateAgent E :=
  mkUpdateAgent e (ag_status ag) (ag_snapshot ag) (ag_retries ag) (ag_audit ag).

Definition set_retries (r : PolicyEngine) ag : UpdateAgent E :=
  mkUpdateAgent (ag_engine ag) (ag_status ag) (ag_snapshot ag) r (ag_audit ag).

Definition move_to (to : UpdateStage) (now : N) (note : option string) ag : UpdateAgent E :=
  set_status (transition to now note (ag_status ag)) ag.

(** [accept]; [plan_debug] is the derived [Debug] formatter of the plan. *)
Definition accept (plan_debug : UpdatePlan → string) (plan : UpdatePlan) (now_ms : N) ag :
    UpdateAgent E :=
  push_audit (PlanAccepted (plan_debug plan) (plan_debug plan))
    (set_status (set_plan plan (ag_status ag)) ag).

Definition run_step (step : ApplyStep) (now_ms : N) ag :
    UpdateAgent E * result unit ApplyError :=
  let attempt := saturating_add u32_max (st_attempt (ag_status ag)) 1 in
  let ag := push_audit (StepAttempted step attempt) ag in
  let ag := move_to (ApplyStep_stage step) now_ms None ag in
  match st_current_plan (ag_status ag) with
  | None => (ag, Err (Refused step "no current plan"))
  | Some plan =>
      let '(e, r) := engine_run step plan (ag_engine ag) in
      let ag := set_engine e ag in
      match r with
      | Ok _ => (push_audit (StepSucceeded step) ag, Ok tt)
      | Err err =>
          let ag := push_audit (StepFailed step (ApplyError_display err)) ag in
          (move_to Failed now_ms (Some (ApplyError_display err)) ag, Err err)
      end
  end.

(** The loop [for attempt in 1..=max], with [n] iterations left. *)
Fixpoint retry_loop (n : nat) (attempt : N) (step : ApplyStep) (now_ms : N) ag :
    option (UpdateAgent E * RetryDecision) :=
  match n with
  | 0 => Some (push_audit (StepGaveUp step) ag, GiveUp)
  | S n =>
      match run_step step now_ms ag with
      | (ag, Ok _) => Some (ag, Retry 0)
      | (ag, Err _) =>
          '(r, d) ← PolicyEngine_decide (ag_retries ag) (step_task_id step) attempt;
          let ag := set_retries r ag in
          match d with
          | Retry delay =>
              retry_loop n (attempt + 1) step now_ms (push_audit (RetryScheduled step delay) ag)
          | _ => Some (push_audit (StepGaveUp step) ag, d)
          end
      end
  end.

Definition step_max (r : PolicyEngine) (step : ApplyStep) : N :=
  from_option max_attempts 1%N (policy_for r (step_task_id step)).

Definition apply_with_retry (step : ApplyStep) (now_ms : N) ag :
    option (UpdateAgent E * RetryDecision) :=
  retry_loop (N.to_nat (step_max (ag_retries ag) step)) 1 step now_ms ag.

Definition fail_and_rollback (failed_step : ApplyStep) (now_ms : N) ag : UpdateAgent E :=
  let ag := push_audit
    (RollbackTriggered ("step '" +:+ ApplyStep_as_str failed_step +:+ "' failed")) ag in
  let ag := move_to Failed now_ms None ag in
  let ag := move_to RolledBack now_ms None ag in
  push_audit RollbackCompleted ag.

Definition apply_order : list ApplyStep := [Snapshot; Download; Verify; Stage; Apply].

(** [matches!(d, Decision::GiveUp | Decision::CircuitBreak)]. *)
Definition stops_apply (d : RetryDecision) : bool :=
  match d with GiveUp | CircuitBreak => true | _ => false end.

Fixpoint apply_steps (steps : list ApplyStep) (now_ms : N) ag :
    option (UpdateAgent E * result unit ApplyError) :=
  match steps with
  | [] => Some (move_to Done now_ms None ag, Ok tt)
  | step :: steps =>
      '(ag, d) ← apply_with_retry step now_ms ag;
      if stops_apply d
      then Some (fail_and_rollback step now_ms ag, Err (Refused step "retries exhausted"))
      else apply_steps steps now_ms ag
  end.

Definition UpdateAgent_apply (now_ms : N) ag : option (UpdateAgent E * result unit ApplyError) :=
  apply_steps apply_order now_ms ag.

Definition reset (now_ms : N) ag : UpdateAgent E :=
  let ag := move_to Idle now_ms None ag in
  mkUpdateAgent (ag_engine ag) (ag_status ag) None (ag_retries ag) (ag_audit ag).

Definition install_default_policies ag : UpdateAgent E :=
  set_retries
    (foldl (λ r step, register (step_task_id step)
        (mkRetryPolicy 3 (BackoffExponential 100 5000) [] 0 None) r)
      (ag_retries ag) [Download; Verify; Stage; Snapshot; Apply]) ag.

(** ** Specification of a step and of an update *)

(** One run of a step as the agent performs it: without a plan the engine is
    not called. *)
Definition agent_run (op : option UpdatePlan) (step : ApplyStep) (e : E) :
    E * result unit ApplyError :=
  match op with
  | None => (e, Err (Refused step "no current plan"))
  | Some plan => engine_run step plan e
  end.

Definition failing_run op step (e e' : E) : Prop :=
  ∃ err, agent_run op step e = (e', Err err).

(** Some failing runs, then a successful one. *)
Definition step_done op step (e e' : E) : Prop :=
  ∃ e1, rtc (failing_run op step) e e1 ∧ agent_run op step e1 = (e', Ok tt).

(** No decision can panic: every number fits its type and every group has its
    breaker enabled. *)
Definition no_panic (r : PolicyEngine) : Prop :=
  engine_ok r ∧
  ∀ id p, policy_for r id = Some p → group p ≠ None → circuit_breaker_threshold p ≠ 0%N.

(** How often a log attempts a step. *)
Definition is_attempt (step : ApplyStep) (ev : AgentAuditEvent) : bool :=
  match ev with StepAttempted s _ => bool_decide (s = step) | _ => false end.

Definition attempts (step : ApplyStep) (evs : list AgentAuditEvent) : nat :=
  length (List.filter (is_attempt step) evs).

Lemma attempts_app step l k : attempts step (l ++ k) = attempts step l + attempts step k.
Proof. unfold attempts. by rewrite List.filter_app, length_app. Qed.

Lemma decide_no_panic r id attempt : no_panic r →
  ∃ r' d, PolicyEngine_decide r id attempt = Some (r', d) ∧ no_panic r' ∧
    policies r' = policies r ∧
    (∀ fb, d = Fallback fb → ∃ p, policy_for r id = Some p ∧ head (fallbacks p) = Some fb).
Proof.
  intros [Hok Hthr]. pose proof (decide_meets_spec r id attempt Hok) as Hs.
  destruct (PolicyEngine_decide r id attempt) as [[r' d]|] eqn:Hd.
  - assert (policies r' = policies r) as Hpol.
    { inversion Hs as [| |? ? ? ? [? _]|? ? ? ? ? ? [? _]|? ? ? ? [? _]|]; by simplify_eq. }
    exists r', d. split_and!; [done| |done|].
    + split; [by eapply decide_preserves_ok|]. intros id' p. unfold policy_for.
      rewrite Hpol. apply Hthr.
    + intros fb ->. inversion Hs as [| | |p ? ? ? Hp ? ? ? Hf| |]; subst.
      exists p. by rewrite Hf.
  - exfalso. inversion Hs as [| | | | |p g Hp Hg H0]; subst. apply (Hthr id p Hp); [|done].
    by rewrite Hg.
Qed.

(** What one run of a step changes. *)
Lemma run_step_spec step now ag :
  let op := st_current_plan (ag_status ag) in
  let '(ag', r) := run_step step now ag in
  (ag_engine ag', r) = agent_run op step (ag_engine ag) ∧
  ag_retries ag' = ag_retries ag ∧ st_current_plan (ag_status ag') = op ∧
  ag_snapshot ag' = ag_snapshot ag ∧
  ∃ evs, ag_audit ag' = ag_audit ag ++ evs ∧
    (∀ s, attempts s evs = if decide (s = step) then 1 else 0) ∧
    (r = Ok tt → last evs = Some (StepSucceeded step)).
Proof.
  assert (∀ k ev s, is_attempt s ev = false →
    attempts s [StepAttempted step k; ev] = if decide (s = step) then 1 else 0) as Hatt.
  { intros k ev s Hev. unfold attempts. simpl. rewrite Hev.
    case_decide; [by rewrite bool_decide_true|by rewrite bool_decide_false]. }
  unfold run_step, agent_run. simpl.
  destruct (st_current_plan (ag_status ag)) as [plan|] eqn:Hp; simpl.
  - destruct (engine_run step plan (ag_engine ag)) as [e [[]|err]]; simpl;
      (split_and!; [done|done|done|done|]); rewrite <-app_assoc; simpl;
      (eexists; split_and!; [done| |done]); intros s; by apply Hatt.
  - split_and!; [done|done|done|done|].
    exists [StepAttempted step (saturating_add u32_max (st_attempt (ag_status ag)) 1)].
    split_and!; [done| |done]. intros s. unfold attempts. simpl.
    case_decide; [by rewrite bool_decide_true|by rewrite bool_decide_false].
Qed.

(** The outcome of a step with its retries. *)
Definition retry_outcome (r : PolicyEngine) op step (e e' : E) (d : RetryDecision) : Prop :=
  (d = Retry 0 ∧ step_done op step e e') ∨
  ((d = GiveUp ∨ d = CircuitBreak ∨
    ∃ p fb, policy_for r (step_task_id step) = Some p ∧ head (fallbacks p) = Some fb ∧
      d = Fallback fb) ∧ rtc (failing_run op step) e e').

(** What a step with its retries, or a whole update, leaves of an agent. *)
Definition agent_frame ag ag' : Prop :=
  no_panic (ag_retries ag') ∧ policies (ag_retries ag') = policies (ag_retries ag) ∧
  st_current_plan (ag_status ag') = st_current_plan (ag_status ag).

Lemma retry_outcome_fail r r' op step e e1 e' d :
  policies r' = policies r → failing_run op step e e1 →
  retry_outcome r' op step e1 e' d → retry_outcome r op step e e' d.
Proof.
  intros Hpol Hf [[-> (e2 & Hr & Ho)]|[Hd Hr]].
  - left. split; [done|]. exists e2. split; [by eapply rtc_l|done].
  - right. unfold policy_for in *. rewrite <-Hpol. split; [done|by eapply rtc_l].
Qed.

Lemma retry_loop_spec n attempt step now ag : no_panic (ag_retries ag) →
  ∃ ag' d evs, retry_loop n attempt step now ag = Some (ag', d) ∧ agent_frame ag ag' ∧
    retry_outcome (ag_retries ag) (st_current_plan (ag_status ag)) step
      (ag_engine ag) (ag_engine ag') d ∧
    ag_audit ag' = ag_audit ag ++ evs ∧
    (∀ s, attempts s evs ≤ if decide (s = step) then n else 0) ∧
    last evs = Some (if decide (d = Retry 0) then StepSucceeded step else StepGaveUp step).
Proof.
  revert attempt ag. induction n as [|n IH]; intros attempt ag Hnp; simpl.
  { eexists _, _, [StepGaveUp step]. split_and!; [done|done| |done| |done].
    - right. split; [by left|apply rtc_refl].
    - intros s. unfold attempts. simpl. by case_decide. }
  pose proof (run_step_spec step now ag) as Hrun. simpl in Hrun.
  destruct (run_step step now ag) as [ag1 r].
  destruct Hrun as (Heng & Hret & Hplan & _ & evs & Haud & Hatt & Hlast).
  destruct r as [[]|err].
  { eexists _, _, evs. split_and!; [done|split_and!; [by rewrite Hret|by rewrite Hret|done]| |done| |].
    - left. split; [done|]. exists (ag_engine ag). split; [apply rtc_refl|by symmetry].
    - intros s. rewrite Hatt. case_decide; lia.
    - rewrite decide_True by done. by apply Hlast. }
  assert (failing_run (st_current_plan (ag_status ag)) step (ag_engine ag) (ag_engine ag1))
    as Hfail by (by exists err).
  destruct (decide_no_panic (ag_retries ag1) (step_task_id step) attempt)
    as (r' & d & Hd & Hnp' & Hpol & Hfb); [by rewrite Hret|].
  rewrite Hd. simpl. rewrite Hret in Hpol, Hfb.
  destruct d as [delay|fb| |];
    try (eexists _, _, (evs ++ [StepGaveUp step]);
      split_and!; [done|by split_and!| |by simpl; rewrite Haud, <-app_assoc|
        intros s; rewrite attempts_app, Hatt; unfold attempts; simpl; case_decide; lia|
        by rewrite last_snoc]; right; split; [|by apply rtc_once]; naive_solver).
  destruct (IH (attempt + 1)%N (push_audit (RetryScheduled step delay) (set_retries r' ag1)))
    as (ag' & d & evs' & Hloop & (Hf1 & Hf2 & Hf3) & Hout & Haud' & Hatt' & Hlast'); [done|].
  simpl in *. exists ag', d, (evs ++ RetryScheduled step delay :: evs').
  split_and!; [done|split_and!; [done|congruence|congruence]| | | |].
  - eapply retry_outcome_fail; [exact Hpol|done|]. by rewrite <-Hplan.
  - rewrite Haud', Haud, <-!app_assoc. done.
  - intros s. rewrite attempts_app, Hatt. specialize (Hatt' s).
    unfold attempts in *. simpl. destruct (decide (s = step)); lia.
  - rewrite last_app_cons. rewrite last_cons, Hlast'. done.
Qed.

Lemma apply_with_retry_spec step now ag : no_panic (ag_retries ag) →
  ∃ ag' d evs, apply_with_retry step now ag = Some (ag', d) ∧ agent_frame ag ag' ∧
    retry_outcome (ag_retries ag) (st_current_plan (ag_status ag)) step
      (ag_engine ag) (ag_engine ag') d ∧
    ag_audit ag' = ag_audit ag ++ evs ∧
    (∀ s, attempts s evs ≤
       if decide (s = step) then N.to_nat (step_max (ag_retries ag) step) else 0) ∧
    last evs = Some (if decide (d = Retry 0) then StepSucceeded step else StepGaveUp step).
Proof. apply retry_loop_spec. Qed.

(** The steps of a list succeed one after the other. *)
Inductive steps_done op : list ApplyStep → E → E → Prop :=
| steps_done_nil e : steps_done op [] e e
| steps_done_cons step steps e e1 e2 :
    step_done op step e e1 → steps_done op steps e1 e2 → steps_done op (step :: steps) e e2.

Definition no_fallbacks (r : PolicyEngine) : Prop :=
  ∀ id p, policy_for r id = Some p → fallbacks p = [].

(** What lets [apply] go on to the next step: the step was done, or it failed
    however often it was tried and its policy names a fallback, which is never
    run. *)
Definition step_passed (r : PolicyEngine) op step (e e' : E) : Prop :=
  step_done op step e e' ∨
  (∃ p, policy_for r (step_task_id step) = Some p ∧ fallbacks p ≠ []) ∧
  rtc (failing_run op step) e e'.

Inductive steps_passed (r : PolicyEngine) op : list ApplyStep → E → E → Prop :=
| steps_passed_nil e : steps_passed r op [] e e
| steps_passed_cons step steps e e1 e2 :
    step_passed r op step e e1 → steps_passed r op steps e1 e2 →
    steps_passed r op (step :: steps) e e2.

Lemma steps_passed_done r op steps e e' :
  no_fallbacks r → steps_passed r op steps e e' → steps_done op steps e e'.
Proof.
  intros Hnf. induction 1 as [|step steps e e1 e2 [Hd|[(p & Hp & Hf) _]] _ IH]; [constructor| |].
  - by econstructor.
  - by destruct (Hf (Hnf _ _ Hp)).
Qed.

Lemma steps_passed_policies r r' op steps e e' :
  policies r' = policies r → steps_passed r op steps e e' → steps_passed r' op steps e e'.
Proof.
  intros Hpol. induction 1 as [|step steps e e1 e2 Hs _ IH]; [constructor|]. econstructor; [|exact IH].
  unfold step_passed, policy_for in *. by rewrite Hpol.
Qed.

Definition apply_post (r0 : PolicyEngine) op (steps : list ApplyStep) (e : E) ag'
    (evs : list AgentAuditEvent) (r : result unit ApplyError) : Prop :=
  match r with
  | Ok _ =>
      st_stage (ag_status ag') = Done ∧ st_attempt (ag_status ag') = 0%N ∧
      steps_passed r0 op steps e (ag_engine ag')
  | Err err =>
      ∃ pre step post, steps = pre ++ step :: post ∧
        err = Refused step "retries exhausted" ∧
        st_stage (ag_status ag') = RolledBack ∧
        suffix [StepGaveUp step;
                RollbackTriggered ("step '" +:+ ApplyStep_as_str step +:+ "' failed");
                RollbackCompleted] evs ∧
        ∃ e1, steps_passed r0 op pre e e1 ∧ rtc (failing_run op step) e1 (ag_engine ag')
  end.

Lemma apply_post_cons r0 r1 op step steps e e1 ag' evs evs' r :
  policies r1 = policies r0 → step_passed r0 op step e e1 →
  apply_post r1 op steps e1 ag' evs' r →
  apply_post r0 op (step :: steps) e ag' (evs ++ evs') r.
Proof.
  intros Hpol Hstep. destruct r as [u|err]; simpl.
  - intros (Hst & Hat & Hd). split_and!; [done|done|].
    econstructor; [exact Hstep|]. by eapply steps_passed_policies.
  - intros (pre & s & post & -> & -> & Hst & [l ->] & e2 & Hpre & Hr).
    exists (step :: pre), s, post. split_and!; [done|done|done| |].
    + exists (evs ++ l). by rewrite app_assoc.
    + exists e2. split; [|done]. econstructor; [exact Hstep|]. by eapply steps_passed_policies.
Qed.

Lemma step_max_policies r r' step : policies r' = policies r → step_max r' step = step_max r step.
Proof. intros H. unfold step_max, policy_for. by rewrite H. Qed.

Lemma apply_steps_spec steps now ag : no_panic (ag_retries ag) → NoDup steps →
  ∃ ag' r evs, apply_steps steps now ag = Some (ag', r) ∧ agent_frame ag ag' ∧
    ag_audit ag' = ag_audit ag ++ evs ∧
    (∀ s, attempts s evs ≤
       if decide (s ∈ steps) then N.to_nat (step_max (ag_retries ag) s) else 0) ∧
    apply_post (ag_retries ag) (st_current_plan (ag_status ag)) steps (ag_engine ag) ag' evs r.
Proof.
  revert ag. induction steps as [|step steps IH]; intros ag Hnp Hnd; simpl.
  { eexists _, _, []. split_and!; [done|done|by rewrite app_nil_r| |].
    { intros s. unfold attempts. simpl. lia. }
    split_and!; [done|done|]. simpl. constructor. }
  apply NoDup_cons in Hnd as [Hni Hnd].
  destruct (apply_with_retry_spec step now ag Hnp)
    as (ag1 & d & evs1 & Hrun & Hfr & Hout & Haud & Hatt & Hlast).
  rewrite Hrun. simpl. destruct Hfr as (Hf1 & Hf2 & Hf3).
  destruct (stops_apply d) eqn:Hstop.
  - eexists _, _, (evs1 ++ [RollbackTriggered _; RollbackCompleted]).
    split_and!; [done|done|simpl; by rewrite Haud, <-!app_assoc| |].
    + intros s. rewrite attempts_app. specialize (Hatt s).
      replace (attempts s [RollbackTriggered _; RollbackCompleted]) with 0 by done.
      destruct (decide (s = step)) as [->|].
      * rewrite decide_True by set_solver. lia.
      * lia.
    + exists [], step, steps. split_and!; [done|done|done| |].
      * rewrite decide_False in Hlast by (by intros ->).
        apply last_Some in Hlast as [l ->]. exists l. by rewrite <-app_assoc.
      * exists (ag_engine ag). split; [constructor|].
        destruct Hout as [[-> _]|[_ Hr]]; [done|exact Hr].
  - destruct (IH ag1) as (ag2 & r & evs2 & Hrun2 & (Hg1 & Hg2 & Hg3) & Haud2 & Hatt2 & Hpost);
      [done|done|].
    exists ag2, r, (evs1 ++ evs2).
    split_and!; [done|split_and!; [done|congruence|congruence]|by rewrite Haud2, Haud, app_assoc| |].
    + intros s. rewrite attempts_app. specialize (Hatt s). specialize (Hatt2 s).
      rewrite (step_max_policies _ _ s Hf2) in Hatt2.
      destruct (decide (s = step)) as [->|].
      * rewrite decide_False in Hatt2 by done. rewrite decide_True by set_solver. lia.
      * destruct (decide (s ∈ steps)); [rewrite decide_True by set_solver|]; lia.
    + eapply apply_post_cons; [exact Hf2| |by rewrite <-Hf3].
      destruct Hout as [[_ ?]|[[->|[->|(p & fb & Hp & Hfb & ->)]] Hr]]; try done; [by left|].
      right. split; [|done]. exists p. split; [done|]. by destruct (fallbacks p).
Qed.

(** A step that succeeds at once, and one that fails without an effect however
    often it is tried. *)
Lemma apply_steps_ok step steps now ag plan e :
  st_current_plan (ag_status ag) = Some plan → (0 < step_max (ag_retries ag) step)%N →
  engine_run step plan (ag_engine ag) = (e, Ok tt) →
  ∃ ag1, apply_steps (step :: steps) now ag = apply_steps steps now ag1 ∧ ag_engine ag1 = e ∧
    ag_retries ag1 = ag_retries ag ∧ st_current_plan (ag_status ag1) = Some plan.
Proof.
  intros Hplan Hmax He. pose proof (run_step_spec step now ag) as Hrun. rewrite Hplan in Hrun. simpl in *.
  unfold apply_with_retry. destruct (N.to_nat (step_max (ag_retries ag) step)) as [|n] eqn:Hn; [lia|].
  simpl. destruct (run_step step now ag) as [ag1 r]. destruct Hrun as (Heq & Hret & Hp & _).
  rewrite He in Heq. injection Heq as Heq ->. by exists ag1.
Qed.

Lemma apply_steps_stuck step steps now ag plan err :
  no_panic (ag_retries ag) → no_fallbacks (ag_retries ag) →
  st_current_plan (ag_status ag) = Some plan →
  engine_run step plan (ag_engine ag) = (ag_engine ag, Err err) →
  ∃ ag', apply_steps (step :: steps) now ag = Some (ag', Err (Refused step "retries exhausted")) ∧
    ag_engine ag' = ag_engine ag ∧ st_stage (ag_status ag') = RolledBack.
Proof.
  intros Hnp Hnf Hplan He.
  destruct (apply_with_retry_spec step now ag Hnp) as (ag1 & d & evs & Hrun & _ & Hout & _).
  rewrite Hplan in Hout.
  assert (∀ e0 e, rtc (failing_run (Some plan) step) e0 e → e0 = ag_engine ag → e = ag_engine ag) as Hkeep.
  { induction 1 as [|x y z [err' Hxy] _ IH]; [done|]. intros ->. simpl in Hxy.
    rewrite He in Hxy. injection Hxy as <- <-. by apply IH. }
  simpl. rewrite Hrun. simpl. destruct Hout as [[_ (e1 & Hr & Ho)]|[Hd Hr]].
  { rewrite (Hkeep _ _ Hr eq_refl) in Ho. simpl in Ho. by rewrite He in Ho. }
  assert (stops_apply d = true) as ->.
  { destruct Hd as [->|[->|(p & fb & Hp & Hfb & ->)]]; [done..|]. apply Hnf in Hp. by rewrite Hp in Hfb. }
  eexists. split; [done|]. simpl. split; [by apply (Hkeep _ _ Hr)|done].
Qed.

(** ** Properties *)

(** C23: as long as the numbers of the policies fit their types and no policy
    with a breaker group has the threshold 0 (whose counter could overflow),
    [UpdateAgent::apply] returns: every retry loop terminates.  The steps are
    Snapshot, Download, Verify, Stage and Apply, in this order, on the current
    plan.  A step is passed when an engine run of it succeeded, after some that
    failed, or when all its runs failed and its policy names a fallback, which
    is never run.  The result is one of two: [Ok], with every step passed, the
    status [Done] and the attempt counter cleared; or [Err] naming the first
    step that gave up, with every earlier step passed, only failing runs of this
    one, no later step run, the status [RolledBack] and the audit log ending in
    the step's give-up and the rollback pair. *)
Theorem apply_outcome now ag :
  no_panic (ag_retries ag) →
  ∃ ag' r evs, UpdateAgent_apply now ag = Some (ag', r) ∧ ag_audit ag' = ag_audit ag ++ evs ∧
    apply_post (ag_retries ag) (st_current_plan (ag_status ag)) apply_order
      (ag_engine ag) ag' evs r.
Proof.
  intros Hnp. destruct (apply_steps_spec apply_order now ag Hnp)
    as (ag' & r & evs & ? & ? & ? & ? & ?); [|by exists ag', r, evs].
  apply (bool_decide_unpack _). by vm_compute.
Qed.

(** During one [apply], each step is attempted at most as often as its
    policy's [max_attempts] says, once when it has no policy, and [Reboot]
    is never attempted; the registered policies are left as they were. *)
Theorem apply_attempts_bounded now ag :
  no_panic (ag_retries ag) →
  ∃ ag' r evs, UpdateAgent_apply now ag = Some (ag', r) ∧ ag_audit ag' = ag_audit ag ++ evs ∧
    (∀ step, attempts step evs ≤ N.to_nat (step_max (ag_retries ag) step)) ∧
    attempts Reboot evs = 0 ∧ policies (ag_retries ag') = policies (ag_retries ag).
Proof.
  intros Hnp. destruct (apply_steps_spec apply_order now ag Hnp)
    as (ag' & r & evs & Happ & (_ & Hpol & _) & Haud & Hatt & _).
  { apply (bool_decide_unpack _). by vm_compute. }
  exists ag', r, evs. split_and!; [done|done| | |done].
  - intros step. specialize (Hatt step). case_decide; lia.
  - specialize (Hatt Reboot). rewrite decide_False in Hatt; [lia|].
    by apply (bool_decide_unpack _); vm_compute.
Qed.

(** [install_default_policies] on a fresh agent registers, for each of the
    five steps of an update, a policy of three attempts with no fallback and
    no group, so that no decision can panic. *)
Theorem default_policies_safe (e : E) :
  let r := ag_retries (install_default_policies (UpdateAgent_new e)) in
  no_panic r ∧ no_fallbacks r ∧
  ∀ step, step_max r step = if decide (step ∈ apply_order) then 3%N else 1%N.
Proof.
  intros r.
  assert (∀ id p, policy_for r id = Some p →
    p = mkRetryPolicy 3 (BackoffExponential 100 5000) [] 0 None) as Hp.
  { intros id p. unfold policy_for. simpl. repeat case_match; intros ?; by simplify_eq/=. }
  split_and!.
  - split; [split; repeat constructor; vm_compute; congruence|].
    intros id p ->%Hp. done.
  - by intros id p ->%Hp.
  - by intros [].
Qed.

End agent.

(** An engine whose verification always fails, with a policy of two attempts
    and a fallback for the verification. *)
#[local] Instance UnverifiedEngine : ApplyEngine (list ApplyStep) := λ step _ e,
  (e ++ [step], if bool_decide (step = Verify) then Err (Refused Verify "no digest") else Ok tt).

Definition unverified_agent : UpdateAgent (list ApplyStep) :=
  let ag := UpdateAgent_new [] in
  let r := register (step_task_id Verify) (mkRetryPolicy 2 (BackoffExponential 100 5000) [mkTaskId "skip"] 0 None)
             (ag_retries ag) in
  set_status (set_plan (mkUpdatePlan "shell" OsImage UpgradeOsImage "1.2.0" 7 "key" 3
    (Version.decision_allow Version.Upgrade)) (ag_status ag)) (set_retries r ag).

Lemma apply_outcome_witness :
  ∃ ag' evs, UpdateAgent_apply 7 unverified_agent = Some (ag', Ok tt) ∧
    ag_engine ag' = [Snapshot; Download; Verify; Verify; Stage; Apply] ∧
    ag_audit ag' = ag_audit unverified_agent ++ evs ∧
    apply_post (ag_retries unverified_agent) (st_current_plan (ag_status unverified_agent))
      apply_order [] ag' evs (Ok tt).
Proof.
  destruct (apply_outcome 7 unverified_agent) as (ag' & r & evs & Happ & Haud & Hpost).
  - split; [split; repeat constructor; vm_compute; congruence|].
    intros id p. unfold policy_for. simpl. repeat case_match; intros ?; by simplify_eq/=.
  - pose proof Happ as Hrun. vm_compute in Hrun. injection Hrun as Hag <-.
    exists ag', evs. split; [exact Happ|]. split; [by rewrite <-Hag|]. by split.
Defined.

Lemma apply_attempts_witness :
  ∃ ag' r evs, UpdateAgent_apply 7 (install_default_policies (UpdateAgent_new tt)) = Some (ag', r) ∧
    ag_audit ag' = ag_audit (install_default_policies (UpdateAgent_new tt)) ++ evs ∧
    (∀ step, attempts step evs ≤
       N.to_nat (step_max (ag_retries (install_default_policies (UpdateAgent_new tt))) step)) ∧
    attempts Reboot evs = 0 ∧
    policies (ag_retries ag') =
      policies (ag_retries (install_default_policies (UpdateAgent_new tt))).
Proof.
  apply apply_attempts_bounded. split; [split; repeat constructor; vm_compute; congruence|].
  intros id p. unfold policy_for. simpl. repeat case_match; intros ?; by simplify_eq/=.
Defined.
