(* ===== verification/Sha256.v ===== *)
(** * The inline SHA-256 of the update agent

    Models [sha256_inline] of system/aether-update-agent/src/engine.rs. *)
From S2P Require Import Prelude RustStd.
Open Scope N_scope.

(** ** [u32] arithmetic *)

Definition wrap32 (x : N) : N := x mod 4294967296.
Definition wrapping_add32 (a b : N) : N := wrap32 (a + b).
Definition shr32 (x n : N) : N := N.shiftr x n.
Definition rotate_right32 (x n : N) : N :=
  N.lor (N.shiftr x n) (wrap32 (N.shiftl x (32 - n))).
Definition not32 (x : N) : N := N.lxor x u32_max.

(** [wrapping_mul(8)] on [u64]. *)
Definition bit_length (input : list byte) : N := (N.of_nat (length input) * 8) mod 18446744073709551616.

(** ** Constants *)

(** One list per line of the source's table. *)
Definition sha256_K : list N :=
  [0x428a2f98; 0x71374491; 0xb5c0fbcf; 0xe9b5dba5; 0x3956c25b; 0x59f111f1; 0x923f82a4]
  ++ [0xab1c5ed5; 0xd807aa98; 0x12835b01; 0x243185be; 0x550c7dc3; 0x72be5d74; 0x80deb1fe]
  ++ [0x9bdc06a7; 0xc19bf174; 0xe49b69c1; 0xefbe4786; 0x0fc19dc6; 0x240ca1cc; 0x2de92c6f]
  ++ [0x4a7484aa; 0x5cb0a9dc; 0x76f988da; 0x983e5152; 0xa831c66d; 0xb00327c8; 0xbf597fc7]
  ++ [0xc6e00bf3; 0xd5a79147; 0x06ca6351; 0x14292967; 0x27b70a85; 0x2e1b2138; 0x4d2c6dfc]
  ++ [0x53380d13; 0x650a7354; 0x766a0abb; 0x81c2c92e; 0x92722c85; 0xa2bfe8a1; 0xa81a664b]
  ++ [0xc24b8b70; 0xc76c51a3; 0xd192e819; 0xd6990624; 0xf40e3585; 0x106aa070; 0x19a4c116]
  ++ [0x1e376c08; 0x2748774c; 0x34b0bcb5; 0x391c0cb3; 0x4ed8aa4a; 0x5b9cca4f; 0x682e6ff3]
  ++ [0x748f82ee; 0x78a5636f; 0x84c87814; 0x8cc70208; 0x90befffa; 0xa4506ceb; 0xbef9a3f7]
  ++ [0xc67178f2].

(** The eight words [h[0]..h[7]], and the working variables [a]..[hh]. *)
Record HashWords := mkHashWords {
  hw_a : N; hw_b : N; hw_c : N; hw_d : N;
  hw_e : N; hw_f : N; hw_g : N; hw_h : N;
}.

Definition sha256_init : HashWords :=
  mkHashWords 0x6a09e667 0xbb67ae85 0x3c6ef372 0xa54ff53a
              0x510e527f 0x9b05688c 0x1f83d9ab 0x5be0cd19.

(** ** Padding *)

(** [while msg.len() % 64 != 56 { msg.push(0) }]. *)
Fixpoint pad_zeros (fuel : nat) (msg : list byte) : option (list byte) :=
  if (length msg mod 64 =? 56)%nat then Some msg
  else match fuel with
       | 0%nat => None
       | S fuel => pad_zeros fuel (msg ++ [Byte.x00])
       end.

Definition sha256_pad (input : list byte) : option (list byte) :=
  msg ← pad_zeros 64 (input ++ [Byte.x80]);
  Some (msg ++ be_bytes 8 (bit_length input)).

(** [slice::chunks(n)] for [n > 0]. *)
Fixpoint chunks_fuel {A} (fuel n : nat) (l : list A) : list (list A) :=
  match fuel, l with
  | S fuel, _ :: _ => take n l :: chunks_fuel fuel n (drop n l)
  | _, _ => []
  end.
Definition chunks {A} (n : nat) (l : list A) : list (list A) := chunks_fuel (length l) n l.

(** ** The message schedule *)

Definition sigma0 (x : N) : N :=
  N.lxor (N.lxor (rotate_right32 x 7) (rotate_right32 x 18)) (shr32 x 3).
Definition sigma1 (x : N) : N :=
  N.lxor (N.lxor (rotate_right32 x 17) (rotate_right32 x 19)) (shr32 x 10).

(** One iteration of [for i in 16..64]. *)
Definition extend_word (w : list N) (i : nat) : list N :=
  let s0 := sigma0 (w !!! (i - 15)%nat) in
  let s1 := sigma1 (w !!! (i - 2)%nat) in
  <[i := wrapping_add32 (wrapping_add32 (wrapping_add32 (w !!! (i - 16)%nat) s0)
           (w !!! (i - 7)%nat)) s1]> w.

(** [w[i] = u32::from_be_bytes(chunk)] for each enumerated 4-byte chunk. *)
Fixpoint load_words (i : nat) (cs : list (list byte)) (w : list N) : list N :=
  match cs with
  | [] => w
  | chunk :: cs => load_words (S i) cs (<[i := from_be_bytes chunk]> w)
  end.

Definition message_schedule (block : list byte) : list N :=
  let w := load_words 0 (chunks 4 block) (replicate 64 0) in
  foldl extend_word w (seq 16 48).

(** ** Compression *)

Definition big_sigma1 (e : N) : N :=
  N.lxor (N.lxor (rotate_right32 e 6) (rotate_right32 e 11)) (rotate_right32 e 25).
Definition big_sigma0 (a : N) : N :=
  N.lxor (N.lxor (rotate_right32 a 2) (rotate_right32 a 13)) (rotate_right32 a 22).
Definition sha_ch (e f g : N) : N := N.lxor (N.land e f) (N.land (not32 e) g).
Definition sha_maj (a b c : N) : N := N.lxor (N.lxor (N.land a b) (N.land a c)) (N.land b c).

Definition sha256_round (w : list N) (s : HashWords) (i : nat) : HashWords :=
  let s1 := big_sigma1 (hw_e s) in
  let ch := sha_ch (hw_e s) (hw_f s) (hw_g s) in
  let t1 := wrapping_add32 (wrapping_add32 (wrapping_add32 (wrapping_add32 (hw_h s) s1) ch)
              (sha256_K !!! i)) (w !!! i) in
  let s0 := big_sigma0 (hw_a s) in
  let mj := sha_maj (hw_a s) (hw_b s) (hw_c s) in
  let t2 := wrapping_add32 s0 mj in
  mkHashWords (wrapping_add32 t1 t2) (hw_a s) (hw_b s) (hw_c s)
              (wrapping_add32 (hw_d s) t1) (hw_e s) (hw_f s) (hw_g s).

Definition add_words (h s : HashWords) : HashWords :=
  mkHashWords
    (wrapping_add32 (hw_a h) (hw_a s)) (wrapping_add32 (hw_b h) (hw_b s))
    (wrapping_add32 (hw_c h) (hw_c s)) (wrapping_add32 (hw_d h) (hw_d s))
    (wrapping_add32 (hw_e h) (hw_e s)) (wrapping_add32 (hw_f h) (hw_f s))
    (wrapping_add32 (hw_g h) (hw_g s)) (wrapping_add32 (hw_h h) (hw_h s)).

Definition sha256_block (h : HashWords) (block : list byte) : HashWords :=
  let w := message_schedule block in
  add_words h (foldl (sha256_round w) h (seq 0 64)).

Definition hash_words (h : HashWords) : list N :=
  [hw_a h; hw_b h; hw_c h; hw_d h; hw_e h; hw_f h; hw_g h; hw_h h].

Definition hex_words (l : list N) : string :=
  foldr (λ word s, hex_fixed 8 word +:+ s) EmptyString l.

(** [sha256_inline]. *)
Definition sha256_inline (input : list byte) : string :=
  hex_words (hash_words (foldl sha256_block sha256_init
    (chunks 64 (default [] (sha256_pad input))))).

(** ** Published test vectors *)

Example sha256_empty :
  sha256_inline [] = "e3b0c44298fc1c149afbf4c8996fb92427ae41e4649b934ca495991b7852b855".
Proof. vm_compute. reflexivity. Qed.

Example sha256_abc :
  sha256_inline (as_bytes "abc") = "ba7816bf8f01cfea414140de5dae2223b00361a396177a9cb410ff61f20015ad".
Proof. vm_compute. reflexivity. Qed.

Example sha256_two_blocks :
  sha256_inline (as_bytes "abcdbcdecdefdefgefghfghighijhijkijkljklmklmnlmnomnopnopq") =
  "248d6a61d20638b8e5c026930c3e6039a33ce45964ff2167f6ecedd419db06c1".
Proof. vm_compute. reflexivity. Qed.

(** * Specification

    The padding, the message schedule and the round functions as FIPS 180-4
    states them. *)

(** The number of zero bytes after the marker: the least one that makes the
    length congruent to 56 modulo 64. *)
Definition zeros_needed (len : nat) : nat := ((56 + 64 - (len + 1) mod 64) mod 64)%nat.

Definition padded (input : list byte) : list byte :=
  input ++ [Byte.x80] ++ replicate (zeros_needed (length input)) Byte.x00
    ++ be_bytes 8 (bit_length input).

(** The [t]-th big-endian word of a block. *)
Definition block_word (block : list byte) (t : nat) : N :=
  from_be_bytes (take 4 (drop (4 * t) block)).

(** The schedule equations of FIPS 180-4, 6.2.2, step 1. *)
Definition is_schedule (block : list byte) (w : list N) : Prop :=
  length w = 64%nat ∧
  (∀ t, (t < 16)%nat → w !!! t = block_word block t) ∧
  (∀ t, (16 ≤ t < 64)%nat → w !!! t =
     (sigma1 (w !!! (t - 2)%nat) + w !!! (t - 7)%nat
        + sigma0 (w !!! (t - 15)%nat) + w !!! (t - 16)%nat) mod 2 ^ 32).

(** ** Padding *)

Lemma pad_zeros_spec fuel msg k :
  (k ≤ fuel)%nat → (k < 64)%nat → ((length msg + k) mod 64 = 56)%nat →
  pad_zeros fuel msg = Some (msg ++ replicate k Byte.x00).
Proof.
  revert msg k. induction fuel as [|fuel IH]; intros msg k Hk Hlt Hmod; cbn [pad_zeros];
    destruct (Nat.eqb_spec (length msg mod 64) 56) as [Heq|Hne].
  1,3: assert (k = 0)%nat as -> by (rewrite Nat.Div0.add_mod, Heq in Hmod;
         rewrite (Nat.mod_small k) in Hmod by done;
         destruct (decide (k < 8)%nat); [rewrite Nat.mod_small in Hmod by lia; lia|];
         replace (56 + k)%nat with (k - 8 + 1 * 64)%nat in Hmod by lia;
         rewrite Nat.Div0.mod_add, Nat.mod_small in Hmod by lia; lia);
       cbn [replicate]; by rewrite app_nil_r.
  - assert (k = 0)%nat as -> by lia. rewrite Nat.add_0_r in Hmod. done.
  - destruct k as [|k]; [rewrite Nat.add_0_r in Hmod; done|].
    rewrite (IH _ k); [by rewrite <-app_assoc|lia|lia|].
    rewrite length_app. cbn [length].
    by replace (length msg + 1 + k)%nat with (length msg + S k)%nat by lia.
Qed.

Lemma zeros_needed_spec len :
  (zeros_needed len < 64)%nat ∧ ((len + 1 + zeros_needed len) mod 64 = 56)%nat.
Proof.
  unfold zeros_needed. pose proof (Nat.mod_upper_bound (len + 1) 64).
  pose proof (Nat.div_mod_eq (len + 1) 64). set (r := ((len + 1) mod 64)%nat) in *.
  split; [apply Nat.mod_upper_bound; lia|].
  destruct (decide (r ≤ 56)%nat).
  - replace (56 + 64 - r)%nat with (56 - r + 1 * 64)%nat by lia.
    rewrite Nat.Div0.mod_add, (Nat.mod_small (56 - r)) by lia.
    replace (len + 1 + (56 - r))%nat with (56 + ((len + 1) / 64) * 64)%nat by lia.
    by rewrite Nat.Div0.mod_add.
  - rewrite (Nat.mod_small (56 + 64 - r)) by lia.
    replace (len + 1 + (56 + 64 - r))%nat with (56 + ((len + 1) / 64 + 1) * 64)%nat by lia.
    by rewrite Nat.Div0.mod_add.
Qed.

Lemma sha256_pad_spec input : sha256_pad input = Some (padded input).
Proof.
  destruct (zeros_needed_spec (length input)) as [Hlt Hmod]. unfold sha256_pad.
  rewrite (pad_zeros_spec _ _ (zeros_needed (length input))); [|lia|done|].
  - simpl. unfold padded. by rewrite <-!app_assoc.
  - by rewrite length_app.
Qed.


Lemma bit_length_small input : N.of_nat (length input) < 2 ^ 61 →
  bit_length input = N.of_nat (length input) * 8.
Proof. intros H. unfold bit_length. apply N.mod_small. lia. Qed.

Lemma length_padded input : (length (padded input) mod 64 = 0)%nat.
Proof.
  destruct (zeros_needed_spec (length input)) as [_ Hmod].
  unfold padded. rewrite !length_app, length_replicate, length_be_bytes. cbn [length].
  replace (length input + (1 + (zeros_needed (length input) + 8)))%nat
    with (length input + 1 + zeros_needed (length input) + 8)%nat by lia.
  by rewrite Nat.Div0.add_mod, Hmod.
Qed.

Lemma padded_inj a b :
  N.of_nat (length a) < 2 ^ 61 → N.of_nat (length b) < 2 ^ 61 →
  padded a = padded b → a = b.
Proof.
  intros Ha Hb Heq. unfold padded in Heq. rewrite !app_assoc in Heq.
  apply app_inj_2 in Heq as [Heq Hlen]; [|by rewrite !length_be_bytes].
  apply (f_equal from_be_bytes) in Hlen. rewrite !from_be_be_bytes in Hlen.
  rewrite !bit_length_small in Hlen by done.
  rewrite !(N.mod_small (_ * 8)) in Hlen by (simpl; lia).
  rewrite <-!app_assoc in Heq. by apply app_inj_1 in Heq as [? _]; [|lia].
Qed.

(** ** The schedule *)

Lemma chunks_fuel_lookup {A} fuel n (l : list A) i :
  (0 < n)%nat → (length l ≤ fuel)%nat → (i * n < length l)%nat →
  chunks_fuel fuel n l !! i = Some (take n (drop (i * n) l)).
Proof.
  intros Hn. revert l i. induction fuel as [|fuel IH]; intros l i Hf Hi; [lia|].
  destruct l as [|x l]; [simpl in Hi; lia|]. destruct i as [|i]; [done|].
  cbn [chunks_fuel lookup list_lookup]. simpl lookup.
  rewrite IH; rewrite ?length_drop; simpl in *; try lia.
  rewrite drop_drop. done.
Qed.

Lemma length_chunks_fuel {A} fuel n m (l : list A) :
  (0 < n)%nat → (length l ≤ fuel)%nat → length l = (m * n)%nat →
  length (chunks_fuel fuel n l) = m.
Proof.
  intros Hn. revert m l. induction fuel as [|fuel IH]; intros m l Hf Hl.
  { destruct l; [|simpl in Hf; lia]. simpl in *. destruct m; [done|lia]. }
  destruct l as [|x l]; [simpl in *; destruct m; [done|lia]|].
  destruct m as [|m]; [done|]. cbn [chunks_fuel length]. f_equal.
  apply IH; rewrite ?length_drop; simpl in *; lia.
Qed.

Lemma length_load_words i cs w : length (load_words i cs w) = length w.
Proof.
  revert i w. induction cs as [|c cs IH]; intros i w; simpl; [done|].
  by rewrite IH, length_insert.
Qed.

Lemma load_words_lookup cs w i t :
  (i + length cs ≤ length w)%nat →
  load_words i cs w !! t =
    if decide (i ≤ t < i + length cs)%nat then from_be_bytes <$> cs !! (t - i)%nat else w !! t.
Proof.
  revert i w. induction cs as [|c cs IH]; intros i w Hlen; simpl in *.
  { by rewrite decide_False by lia. }
  rewrite IH by (rewrite length_insert; lia). destruct (decide (t = i)) as [->|Hne].
  - rewrite decide_False, decide_True by lia. rewrite Nat.sub_diag.
    rewrite list_lookup_insert_eq by lia. done.
  - rewrite list_lookup_insert_ne by done.
    destruct (decide (S i ≤ t < S i + length cs)%nat).
    + rewrite decide_True by lia. by replace (t - i)%nat with (S (t - S i)) by lia.
    + by rewrite decide_False by lia.
Qed.

Lemma wrapping_sum4 a b c d :
  wrapping_add32 (wrapping_add32 (wrapping_add32 a b) c) d = (d + c + b + a) mod 2 ^ 32.
Proof.
  unfold wrapping_add32, wrap32. change 4294967296 with (2 ^ 32).
  rewrite !N.Div0.add_mod_idemp_l, <-(N.add_assoc _ c d), N.Div0.add_mod_idemp_l.
  f_equal. lia.
Qed.

(** The words extended so far satisfy the recurrence, the others are
    untouched. *)
Lemma extend_words_spec w k :
  length w = 64%nat → (k ≤ 48)%nat →
  let w' := foldl extend_word w (seq 16 k) in
  length w' = 64%nat ∧
  (∀ t, (t < 16)%nat → w' !!! t = w !!! t) ∧
  (∀ t, (16 ≤ t < 16 + k)%nat → w' !!! t =
     (sigma1 (w' !!! (t - 2)%nat) + w' !!! (t - 7)%nat
        + sigma0 (w' !!! (t - 15)%nat) + w' !!! (t - 16)%nat) mod 2 ^ 32).
Proof.
  intros Hw. induction k as [|k IH]; intros Hk.
  { split_and!; [done|done|lia]. }
  rewrite seq_S, foldl_app. destruct IH as (Hlen & Hlow & Hrec); [lia|].
  set (v := foldl extend_word w (seq 16 k)) in *. cbn zeta.
  assert (∀ t, t ≠ (16 + k)%nat → foldl extend_word v [(16 + k)%nat] !!! t = v !!! t) as Hne.
  { intros t Ht. simpl. unfold extend_word. by rewrite list_lookup_total_insert_ne. }
  split_and!.
  - simpl. unfold extend_word. by rewrite length_insert.
  - intros t Ht. rewrite Hne by lia. by apply Hlow.
  - intros t Ht. rewrite !(Hne (t - _)%nat) by lia.
    destruct (decide (t = (16 + k)%nat)) as [->|].
    + change (foldl extend_word v [(16 + k)%nat]) with (extend_word v (16 + k)%nat).
      unfold extend_word. rewrite list_lookup_total_insert_eq by lia.
      by rewrite wrapping_sum4.
    + rewrite Hne by done. apply Hrec. lia.
Qed.

Lemma message_schedule_spec block :
  length block = 64%nat → is_schedule block (message_schedule block).
Proof.
  intros Hb. unfold message_schedule.
  assert (length (chunks 4 block) = 16%nat) as Hc
    by (apply length_chunks_fuel; rewrite ?Hb; lia).
  destruct (extend_words_spec (load_words 0 (chunks 4 block) (replicate 64 0)) 48)
    as (Hlen & Hlow & Hrec); [by rewrite length_load_words|lia|].
  split_and!; [done| |intros; apply Hrec; lia].
  intros t Ht. rewrite Hlow by done. apply list_lookup_total_correct.
  rewrite load_words_lookup by (rewrite Hc, length_replicate; lia).
  rewrite decide_True by lia. unfold chunks. rewrite Nat.sub_0_r.
  rewrite chunks_fuel_lookup by lia. simpl. unfold block_word.
  by replace (t * 4)%nat with (4 * t)%nat by lia.
Qed.

(** ** The round functions, bit by bit *)

Lemma testbit_wrap32 x i : i < 32 → N.testbit (wrap32 x) i = N.testbit x i.
Proof. intros. unfold wrap32. change 4294967296 with (2 ^ 32). by apply N.mod_pow2_bits_low. Qed.

Lemma testbit_small x i : x < 2 ^ 32 → 32 ≤ i → N.testbit x i = false.
Proof.
  intros Hx Hi. rewrite <-(N.mod_small x (2 ^ 32)) by done. by apply N.mod_pow2_bits_high.
Qed.

Lemma testbit_not32 x i : i < 32 → N.testbit (not32 x) i = negb (N.testbit x i).
Proof.
  intros Hi. unfold not32. rewrite N.lxor_spec. change u32_max with (N.ones 32).
  rewrite N.ones_spec_low by done. by destruct (N.testbit x i).
Qed.

Lemma testbit_rotate_right32 x n i :
  x < 2 ^ 32 → 0 < n < 32 → i < 32 →
  N.testbit (rotate_right32 x n) i = N.testbit x ((i + n) mod 32).
Proof.
  intros Hx Hn Hi. unfold rotate_right32.
  rewrite N.lor_spec, N.shiftr_spec', testbit_wrap32 by done.
  destruct (N.lt_ge_cases (i + n) 32) as [Hlt|Hge].
  - rewrite N.mod_small by done. rewrite N.shiftl_spec_low by lia. apply orb_false_r.
  - rewrite testbit_small by done. rewrite N.shiftl_spec_high' by lia. simpl. f_equal.
    replace (i + n) with (i + n - 32 + 1 * 32) by lia.
    rewrite N.Div0.mod_add, N.mod_small by lia. lia.
Qed.

(** ** The shape of the digest *)

Lemma hex_words_shape l :
  String.length (hex_words l) = (8 * length l)%nat ∧ str_all is_lower_hex (hex_words l) = true.
Proof.
  induction l as [|x l [IH1 IH2]]; [done|].
  change (hex_words (x :: l)) with (hex_fixed 8 x +:+ hex_words l).
  rewrite str_length_app, length_hex_fixed, str_all_app, hex_fixed_lower, IH1, IH2.
  split; [cbn [length]; lia|done].
Qed.

Lemma sha256_inline_blocks input :
  sha256_inline input =
  hex_words (hash_words (foldl sha256_block sha256_init (chunks 64 (padded input)))).
Proof. unfold sha256_inline. by rewrite sha256_pad_spec. Qed.

Lemma chunks_fuel_blocks {A} fuel m n (l : list A) block :
  (0 < n)%nat → length l = (m * n)%nat → block ∈ chunks_fuel fuel n l → length block = n.
Proof.
  intros Hn. revert m l. induction fuel as [|fuel IH]; intros m l Hl; [by intros ?%not_elem_of_nil|].
  destruct l as [|x l]; [by intros ?%not_elem_of_nil|]. cbn [chunks_fuel].
  destruct m as [|m]; [done|]. intros [->|Hin]%elem_of_cons.
  - rewrite length_take. lia.
  - apply (IH m (drop n (x :: l))); [|done]. rewrite length_drop. lia.
Qed.

(** ** Properties *)

(** The padding loop terminates and produces the padding of FIPS 180-4:
    the message, the byte 0x80, the least number of zero bytes, and the bit
    length as a 64-bit big-endian number; the result is a whole number of
    64-byte blocks. *)
Theorem padding_exact input :
  sha256_pad input = Some (padded input) ∧ (length (padded input) mod 64 = 0)%nat ∧
  (zeros_needed (length input) < 64)%nat.
Proof.
  split_and!; [apply sha256_pad_spec|apply length_padded|apply zeros_needed_spec].
Qed.

(** The padding is injective on messages of less than 2^61 bytes, so two
    different payloads never present the same blocks to the compression
    function. *)
Theorem padding_injective a b :
  N.of_nat (length a) < 2 ^ 61 → N.of_nat (length b) < 2 ^ 61 →
  sha256_pad a = sha256_pad b → a = b.
Proof.
  intros Ha Hb. rewrite !sha256_pad_spec. intros [= Heq]. by apply padded_inj.
Qed.

Lemma padding_injective_witness :
  sha256_pad (as_bytes "ab") = sha256_pad [Byte.x61; Byte.x62] ∧
  as_bytes "ab" = [Byte.x61; Byte.x62].
Proof.
  split; [vm_compute; reflexivity|]. apply padding_injective; vm_compute; reflexivity.
Defined.

(** Every block of the padded message is 64 bytes, the 64-word array the
    in-place loops compute from it satisfies the message-schedule equations of
    FIPS 180-4, and the digest is 64 lowercase hexadecimal digits. *)
Theorem schedule_and_digest_exact input :
  (∀ block, block ∈ chunks 64 (padded input) →
     length block = 64%nat ∧ is_schedule block (message_schedule block)) ∧
  sha256_inline input =
    hex_words (hash_words (foldl sha256_block sha256_init (chunks 64 (padded input)))) ∧
  String.length (sha256_inline input) = 64%nat ∧
  str_all is_lower_hex (sha256_inline input) = true.
Proof.
  split_and!; [|apply sha256_inline_blocks|apply hex_words_shape|apply hex_words_shape].
  intros block Hin. assert (length block = 64%nat) as Hb.
  { eapply (chunks_fuel_blocks _ (length (padded input) / 64)); [lia| |exact Hin].
    pose proof (Nat.div_mod_eq (length (padded input)) 64). rewrite length_padded in *. lia. }
  split; [done|]. by apply message_schedule_spec.
Qed.

(** On 32-bit words, [rotate_right] moves bit [i + n] modulo 32 to bit
    [i], [ch] selects each bit of [f] or [g] by the bit of [e], and [maj] is
    the majority of the three bits. *)
Theorem round_functions_bitwise x y z n i :
  x < 2 ^ 32 → 0 < n < 32 → i < 32 →
  N.testbit (rotate_right32 x n) i = N.testbit x ((i + n) mod 32) ∧
  N.testbit (sha_ch x y z) i = (if N.testbit x i then N.testbit y i else N.testbit z i) ∧
  N.testbit (sha_maj x y z) i =
    (N.testbit x i && N.testbit y i) || (N.testbit x i && N.testbit z i)
      || (N.testbit y i && N.testbit z i).
Proof.
  intros Hx Hn Hi. split_and!; [by apply testbit_rotate_right32| |].
  - unfold sha_ch. rewrite N.lxor_spec, !N.land_spec, testbit_not32 by done.
    by destruct (N.testbit x i), (N.testbit y i), (N.testbit z i).
  - unfold sha_maj. rewrite !N.lxor_spec, !N.land_spec.
    by destruct (N.testbit x i), (N.testbit y i), (N.testbit z i).
Qed.

Lemma round_functions_witness :
  N.testbit (rotate_right32 5 7) 3 = N.testbit 5 ((3 + 7) mod 32) ∧
  N.testbit (sha_ch 5 6 7) 3 = (if N.testbit 5 3 then N.testbit 6 3 else N.testbit 7 3) ∧
  N.testbit (sha_maj 5 6 7) 3 =
    (N.testbit 5 3 && N.testbit 6 3) || (N.testbit 5 3 && N.testbit 7 3)
      || (N.testbit 6 3 && N.testbit 7 3).
Proof. apply round_functions_bitwise; lia. Defined.
