(* ===== verification/FsEngine.v ===== *)
(** * The in-memory apply engine

    Models [FilesystemApplyEngine] of system/aether-update-agent/src/engine.rs.
    The maps behind [Arc<RwLock<..>>] are the fields of one state: [run] holds
    no two locks at once and the agent calls it from one thread. *)
From S2P Require Import Prelude RustStd Signing UpdateCore TaskGraph Retry UpdateAgent Sha256.
From stdpp Require Import relations.
Import UpdateCore.Plan UpdateCore.Recovery UpdateCore.State.

Inductive FilesystemApplyError :=
| NoPayloadRegistered
| StagedFileMissing
| HashMismatch (expected observed : string)
| StagedBytesMissing.

Definition FilesystemApplyError_display (e : FilesystemApplyError) : string :=
  match e with
  | NoPayloadRegistered => "no payload registered for plan id"
  | StagedFileMissing => "staged file missing when verify was asked"
  | HashMismatch expected observed =>
      "sha-256 mismatch: expected " +:+ expected +:+ ", observed " +:+ observed
  | StagedBytesMissing => "staged bytes missing when apply was asked"
  end.

Definition into_apply_error (step : ApplyStep) (e : FilesystemApplyError) : ApplyError :=
  Refused step (FilesystemApplyError_display e).

Inductive EngineAudit :=
| PayloadRegistered (plan_id : string) (bytes : nat)
| Downloaded (plan_id : string) (bytes : nat)
| Verified (plan_id sha256 : string)
| Staged (plan_id path : string)
| Snapshotted (plan_id : string) (components : nat)
| Applied (plan_id path : string)
| RebootRequested (plan_id : string).

Record FilesystemApplyEngine := mkFsEngine {
  fe_fs : gmap string (list byte);
  fe_payloads : gmap string (list byte);
  fe_expected_sha256 : gmap string string;
  fe_snapshot : list SnapshotComponent;
  fe_audit : list EngineAudit;
}.

Definition FilesystemApplyEngine_new : FilesystemApplyEngine := mkFsEngine ∅ ∅ ∅ [] [].

Definition fe_push_audit (ev : EngineAudit) (e : FilesystemApplyEngine) : FilesystemApplyEngine :=
  mkFsEngine (fe_fs e) (fe_payloads e) (fe_expected_sha256 e) (fe_snapshot e) (fe_audit e ++ [ev]).

Definition fe_set_fs (fs : gmap string (list byte)) (e : FilesystemApplyEngine) :
    FilesystemApplyEngine :=
  mkFsEngine fs (fe_payloads e) (fe_expected_sha256 e) (fe_snapshot e) (fe_audit e).

Definition register_payload (plan_id : string) (payload : list byte) (expected : string)
    (e : FilesystemApplyEngine) : FilesystemApplyEngine :=
  fe_push_audit (PayloadRegistered plan_id (length payload))
    (mkFsEngine (fe_fs e) (<[plan_id := payload]> (fe_payloads e))
      (<[plan_id := expected]> (fe_expected_sha256 e)) (fe_snapshot e) (fe_audit e)).

Definition seed_active (path : string) (bytes : list byte) (e : FilesystemApplyEngine) :
    FilesystemApplyEngine :=
  fe_set_fs (<[path := bytes]> (fe_fs e)) e.

Definition active_path (plan : UpdatePlan) : string := "active/" +:+ plan_target plan.
Definition staging_path (plan_id : string) : string := "staging/" +:+ plan_id +:+ ".bin".
Definition staged_path (plan_id : string) : string := "staging/" +:+ plan_id +:+ ".staged".
Definition snapshot_path (plan : UpdatePlan) : string := "snapshot/" +:+ plan_target plan.

Definition engine_plan_id (plan : UpdatePlan) : string :=
  plan_target plan +:+ "@" +:+ pretty (plan_timestamp_ms plan).

(** [map.get(&plan_id).or_else(|| map.get(&plan.target))]. *)
Definition get_for_plan {V} (m : gmap string V) (plan : UpdatePlan) : option V :=
  match m !! engine_plan_id plan with
  | Some v => Some v
  | None => m !! plan_target plan
  end.

(** [ApplyEngine::run]. *)
Definition FilesystemApplyEngine_run (step : ApplyStep) (plan : UpdatePlan)
    (e : FilesystemApplyEngine) : FilesystemApplyEngine * result unit ApplyError :=
  let plan_id := engine_plan_id plan in
  match step with
  | Download =>
      match get_for_plan (fe_payloads e) plan with
      | None => (e, Err (into_apply_error step NoPayloadRegistered))
      | Some payload =>
          let e := fe_set_fs (<[staging_path plan_id := payload]> (fe_fs e)) e in
          (fe_push_audit (Downloaded plan_id (length payload)) e, Ok tt)
      end
  | Verify =>
      match fe_fs e !! staging_path plan_id with
      | None => (e, Err (into_apply_error step StagedFileMissing))
      | Some staged =>
          let observed := sha256_inline staged in
          match get_for_plan (fe_expected_sha256 e) plan with
          | None => (e, Err (into_apply_error step StagedFileMissing))
          | Some expected =>
              if bool_decide (observed ≠ expected)
              then (e, Err (into_apply_error step (HashMismatch expected observed)))
              else (fe_push_audit (Verified plan_id observed) e, Ok tt)
          end
      end
  | Stage =>
      let path := staged_path plan_id in
      match fe_fs e !! staging_path plan_id with
      | Some bytes =>
          let e := fe_set_fs (<[path := bytes]> (delete (staging_path plan_id) (fe_fs e))) e in
          (fe_push_audit (Staged plan_id path) e, Ok tt)
      | None => (e, Err (into_apply_error step StagedFileMissing))
      end
  | Snapshot =>
      let component :=
        SnapshotComponent_new (plan_target plan) (plan_version plan) (snapshot_path plan) in
      let e := mkFsEngine (fe_fs e) (fe_payloads e) (fe_expected_sha256 e)
                 (fe_snapshot e ++ [component]) (fe_audit e) in
      (fe_push_audit (Snapshotted plan_id 1) e, Ok tt)
  | Apply =>
      match fe_fs e !! staged_path plan_id with
      | None => (e, Err (into_apply_error step StagedBytesMissing))
      | Some bytes =>
          let e := fe_set_fs (<[active_path plan := bytes]> (fe_fs e)) e in
          (fe_push_audit (Applied plan_id (staged_path plan_id)) e, Ok tt)
      end
  | Reboot => (fe_push_audit (RebootRequested plan_id) e, Ok tt)
  end.

#[export] Instance FilesystemApplyEngine_engine : ApplyEngine FilesystemApplyEngine :=
  FilesystemApplyEngine_run.

(** ** Paths *)

Lemma str_app_inj_l a b c : a +:+ b = a +:+ c → b = c.
Proof. induction a as [|x a IH]; [done|]. rewrite !str_app_cons. intros [= H]. by apply IH. Qed.

Lemma staging_staged_ne id : staging_path id ≠ staged_path id.
Proof. unfold staging_path, staged_path. intros H. by do 2 apply str_app_inj_l in H. Qed.

Lemma active_staging_ne plan id : active_path plan ≠ staging_path id.
Proof. done. Qed.

Lemma active_staged_ne plan id : active_path plan ≠ staged_path id.
Proof. done. Qed.
#[export] Hint Resolve staging_staged_ne active_staging_ne active_staged_ne : aether.

(** ** Steps of the engine *)

(** A refused step changes nothing. *)
Lemma fs_failing plan step e e' : failing_run (Some plan) step e e' → e' = e.
Proof.
  intros [err H]. unfold agent_run, engine_run, FilesystemApplyEngine_engine in H.
  destruct step; simpl in H; by split_matches.
Qed.

Lemma fs_failing_rtc plan step e e' : rtc (failing_run (Some plan) step) e e' → e' = e.
Proof. induction 1 as [|? ? ? H _ IH]; [done|]. apply fs_failing in H. congruence. Qed.

Lemma fs_step_done plan step e e' :
  step_done (Some plan) step e e' → FilesystemApplyEngine_run step plan e = (e', Ok tt).
Proof. intros (e1 & ->%fs_failing_rtc & H). exact H. Qed.

(** The files of an update in progress. *)
Definition scratch_path (plan : UpdatePlan) (path : string) : Prop :=
  path = staging_path (engine_plan_id plan) ∨ path = staged_path (engine_plan_id plan).

Definition fs_same (plan : UpdatePlan) (e e' : FilesystemApplyEngine) : Prop :=
  fe_payloads e' = fe_payloads e ∧ fe_expected_sha256 e' = fe_expected_sha256 e ∧
  ∀ path, ¬ scratch_path plan path → fe_fs e' !! path = fe_fs e !! path.

Lemma fs_same_refl plan e : fs_same plan e e.
Proof. by split_and!. Qed.

Lemma fs_same_trans plan e1 e2 e3 : fs_same plan e1 e2 → fs_same plan e2 e3 → fs_same plan e1 e3.
Proof.
  intros (? & ? & H1) (? & ? & H2). split_and!; [congruence..|].
  intros path Hp. by rewrite H2, H1.
Qed.

(** Every step but [Apply] touches only the files of its update. *)
Lemma fs_run_same plan step e e' :
  step ≠ Apply → FilesystemApplyEngine_run step plan e = (e', Ok tt) → fs_same plan e e'.
Proof.
  intros Hne H. unfold fs_same, scratch_path.
  destruct step; simpl in H; split_matches; simplify_eq/=; split_and!; try done;
    intros path Hp; repeat (rewrite lookup_insert_ne by naive_solver);
    repeat (rewrite lookup_delete_ne by naive_solver); done.
Qed.

Lemma fs_steps_same plan steps e e' :
  Apply ∉ steps → steps_done (Some plan) steps e e' → fs_same plan e e'.
Proof.
  intros Hni Hs. induction Hs as [|step steps e e1 e2 Hd _ IH]; [apply fs_same_refl|].
  apply fs_step_done in Hd. apply not_elem_of_cons in Hni as [Hne Hni].
  eapply fs_same_trans; [|by apply IH]. by eapply fs_run_same.
Qed.

(** The whole update. *)
Lemma fs_update_done plan e e' :
  steps_done (Some plan) apply_order e e' →
  ∃ bytes, get_for_plan (fe_payloads e) plan = Some bytes ∧
    get_for_plan (fe_expected_sha256 e) plan = Some (sha256_inline bytes) ∧
    fe_fs e' !! active_path plan = Some bytes ∧
    fe_fs e' !! staging_path (engine_plan_id plan) = None ∧
    (∀ path, path ≠ active_path plan → ¬ scratch_path plan path →
       fe_fs e' !! path = fe_fs e !! path).
Proof.
  intros Hs. unfold apply_order in Hs.
  inversion Hs as [|? ? ? e1 ? H1%fs_step_done Hs1]; subst.
  inversion Hs1 as [|? ? ? e2 ? H2%fs_step_done Hs2]; subst.
  inversion Hs2 as [|? ? ? e3 ? H3%fs_step_done Hs3]; subst.
  inversion Hs3 as [|? ? ? e4 ? H4%fs_step_done Hs4]; subst.
  inversion Hs4 as [|? ? ? e5 ? H5%fs_step_done Hs5]; subst. inversion Hs5; subst.
  assert (fs_same plan e e4) as Hsame.
  { repeat (eapply fs_same_trans; [eapply fs_run_same; [|eassumption]; done|]). apply fs_same_refl. }
  simpl in H1, H2, H3, H4, H5. simplify_eq/=. split_matches. bool_to_prop.
  rewrite lookup_insert_eq in *. simplify_eq. clear Hs Hs1 Hs2 Hs3 Hs4 Hs5.
  match goal with H : ¬ (_ ≠ _) |- _ => apply dec_stable in H; subst end.
  eexists. simpl. split_and!; [done|done|done| |].
  - rewrite lookup_insert_ne by auto with aether.
    rewrite lookup_insert_ne by (apply not_eq_sym; auto with aether). by rewrite lookup_delete_eq.
  - intros path Ha Hp. rewrite lookup_insert_ne by done. by apply Hsame.
Qed.

(** ** Properties *)

Lemma apply_order_NoDup : NoDup apply_order.
Proof. apply (bool_decide_unpack _). by vm_compute. Qed.

(** C1: when [UpdateAgent::apply] over the filesystem engine returns [Ok], no
    retry policy has fallbacks and none with a breaker group has the threshold
    0, the active slot of the target holds the
    registered payload, whose SHA-256 equals the registered expected digest;
    the staging file is gone and every other file outside the update's own
    staging area is as before. *)
Theorem update_installs_verified_payload now (ag ag' : UpdateAgent FilesystemApplyEngine) plan :
  no_panic (ag_retries ag) → no_fallbacks (ag_retries ag) →
  st_current_plan (ag_status ag) = Some plan →
  UpdateAgent_apply now ag = Some (ag', Ok tt) →
  ∃ bytes, get_for_plan (fe_payloads (ag_engine ag)) plan = Some bytes ∧
    get_for_plan (fe_expected_sha256 (ag_engine ag)) plan = Some (sha256_inline bytes) ∧
    fe_fs (ag_engine ag') !! active_path plan = Some bytes ∧
    fe_fs (ag_engine ag') !! staging_path (engine_plan_id plan) = None ∧
    (∀ path, path ≠ active_path plan → ¬ scratch_path plan path →
       fe_fs (ag_engine ag') !! path = fe_fs (ag_engine ag) !! path).
Proof.
  intros Hnp Hnf Hplan Happ.
  destruct (apply_steps_spec apply_order now ag Hnp apply_order_NoDup)
    as (ag1 & r & evs & Hrun & _ & _ & _ & Hpost).
  unfold UpdateAgent_apply in Happ. rewrite Hrun in Happ. simplify_eq. simpl in Hpost.
  destruct Hpost as (_ & _ & Hdone). rewrite Hplan in Hdone.
  by apply fs_update_done, (steps_passed_done _ _ _ _ _ Hnf Hdone).
Qed.

(** When [UpdateAgent::apply] over the filesystem engine returns [Err] and
    no retry policy has fallbacks, no file outside the update's own staging
    area has changed: the active slot keeps the old bytes and the registered
    payloads and digests are kept. *)
Theorem failed_update_leaves_active_untouched now (ag ag' : UpdateAgent FilesystemApplyEngine) plan err :
  no_panic (ag_retries ag) → no_fallbacks (ag_retries ag) →
  st_current_plan (ag_status ag) = Some plan →
  UpdateAgent_apply now ag = Some (ag', Err err) →
  fs_same plan (ag_engine ag) (ag_engine ag') ∧
  fe_fs (ag_engine ag') !! active_path plan = fe_fs (ag_engine ag) !! active_path plan.
Proof.
  intros Hnp Hnf Hplan Happ.
  destruct (apply_steps_spec apply_order now ag Hnp apply_order_NoDup)
    as (ag1 & r & evs & Hrun & _ & _ & _ & Hpost).
  unfold UpdateAgent_apply in Happ. rewrite Hrun in Happ. simplify_eq. simpl in Hpost.
  destruct Hpost as (pre & step & post & Heq & _ & _ & _ & e1 & Hpre & Hr).
  rewrite Hplan in Hpre, Hr. apply (steps_passed_done _ _ _ _ _ Hnf) in Hpre.
  apply fs_failing_rtc in Hr as ->.
  assert (fs_same plan (ag_engine ag) e1) as Hs.
  { eapply fs_steps_same, Hpre. intros Hin.
    pose proof apply_order_NoDup as Hnd. rewrite Heq in Hnd.
    apply NoDup_app in Hnd as (_ & Hnd & _). apply (Hnd _ Hin).
    apply last_Some_elem_of. rewrite <-(last_app_cons pre), <-Heq. done. }
  split; [done|]. apply Hs. by intros [H|H].
Qed.

(** ** Steps that are run once *)

Lemma run_once_ok step now (ag : UpdateAgent FilesystemApplyEngine) plan e' :
  step_max (ag_retries ag) step = 1%N → st_current_plan (ag_status ag) = Some plan →
  FilesystemApplyEngine_run step plan (ag_engine ag) = (e', Ok tt) →
  ∃ ag', apply_with_retry step now ag = Some (ag', Retry 0) ∧
    ag_engine ag' = e' ∧ ag_retries ag' = ag_retries ag ∧
    st_current_plan (ag_status ag') = Some plan ∧
    ∃ evs, ag_audit ag' = ag_audit ag ++ evs.
Proof.
  intros Hmax Hplan Hrun. unfold apply_with_retry. rewrite Hmax. simpl.
  pose proof (run_step_spec step now ag) as Hs. cbn zeta in Hs. rewrite Hplan in Hs.
  destruct (run_step step now ag) as [ag' r]. destruct Hs as (Heng & Hret & Hp & _ & evs & Ha & _).
  simpl in Heng. unfold engine_run, FilesystemApplyEngine_engine in Heng.
  rewrite Hrun in Heng. simplify_eq. exists ag'. by split_and!; [..|exists evs].
Qed.

Lemma run_once_fallback step now (ag : UpdateAgent FilesystemApplyEngine) plan p fb rest err :
  policy_for (ag_retries ag) (step_task_id step) = Some p → max_attempts p = 1%N →
  group p = None → fallbacks p = fb :: rest →
  st_current_plan (ag_status ag) = Some plan →
  FilesystemApplyEngine_run step plan (ag_engine ag) = (ag_engine ag, Err err) →
  ∃ ag', apply_with_retry step now ag = Some (ag', Fallback fb) ∧
    ag_engine ag' = ag_engine ag ∧ ag_retries ag' = ag_retries ag ∧
    st_current_plan (ag_status ag') = Some plan ∧
    ∃ evs, ag_audit ag' = ag_audit ag ++ evs ++ [StepGaveUp step].
Proof.
  intros Hpol Hmax Hgrp Hfb Hplan Hrun. unfold apply_with_retry, step_max.
  rewrite Hpol. simpl. rewrite Hmax. simpl.
  pose proof (run_step_spec step now ag) as Hs. cbn zeta in Hs. rewrite Hplan in Hs.
  destruct (run_step step now ag) as [ag' r]. destruct Hs as (Heng & Hret & Hp & _ & evs & Ha & _).
  simpl in Heng. unfold engine_run, FilesystemApplyEngine_engine in Heng.
  rewrite Hrun in Heng. simplify_eq.
  unfold PolicyEngine_decide. rewrite Hret, Hpol, Hgrp. unfold decide_policy. rewrite Hmax, Hfb.
  simpl. eexists. split_and!; [done|done|done|done|].
  exists evs. simpl. by rewrite Ha, app_assoc.
Qed.

Lemma get_for_plan_target {V} (v : V) plan :
  get_for_plan (<[plan_target plan := v]> ∅) plan = Some v.
Proof.
  unfold get_for_plan. destruct (decide (engine_plan_id plan = plan_target plan)) as [->|].
  - by rewrite lookup_insert_eq.
  - rewrite lookup_insert_ne by done. rewrite lookup_empty. by rewrite lookup_insert_eq.
Qed.

(** A retry policy with a fallback for the verify step defeats the
    verification: with one attempt and any fallback, [apply] reports [Ok] and
    [Done] for a payload whose digest is not the registered one, and installs
    it in the active slot. *)
Theorem verify_fallback_installs_unverified_payload plan payload expected fb now :
  expected ≠ sha256_inline payload →
  let e := register_payload (plan_target plan) payload expected FilesystemApplyEngine_new in
  let r := register (step_task_id Verify)
             (RetryPolicy_with_fallback fb RetryPolicy_no_retry) PolicyEngine_new in
  let ag := mkUpdateAgent e (set_plan plan UpdateStatus_default) None r [] in
  ∃ ag', UpdateAgent_apply now ag = Some (ag', Ok tt) ∧ st_stage (ag_status ag') = Done ∧
    StepGaveUp Verify ∈ ag_audit ag' ∧
    fe_fs (ag_engine ag') !! active_path plan = Some payload.
Proof.
  intros Hne e r ag. unfold UpdateAgent_apply, apply_order. cbn [apply_steps].
  destruct (run_once_ok Snapshot now ag plan _ eq_refl eq_refl eq_refl)
    as (ag1 & -> & He1 & Hr1 & Hp1 & _). simpl.
  edestruct (run_once_ok Download now ag1 plan) as (ag2 & -> & He2 & Hr2 & Hp2 & _); [by rewrite Hr1|done| |].
  { rewrite He1. simpl. by rewrite get_for_plan_target. }
  simpl.
  edestruct (run_once_fallback Verify now ag2 plan) as (ag3 & -> & He3 & Hr3 & Hp3 & evs3 & Ha3);
    [by rewrite Hr2, Hr1|done|done|done|done| |].
  { rewrite He2. simpl. rewrite lookup_insert_eq, get_for_plan_target.
    by rewrite bool_decide_true. }
  rewrite Hr2, Hr1 in Hr3. rewrite He2 in He3. simpl.
  edestruct (run_once_ok Stage now ag3 plan) as (ag4 & -> & He4 & Hr4 & Hp4 & evs4 & Ha4); [by rewrite Hr3|done| |].
  { rewrite He3. simpl. by rewrite lookup_insert_eq. }
  rewrite Hr3 in Hr4. simpl.
  edestruct (run_once_ok Apply now ag4 plan) as (ag5 & -> & He5 & Hr5 & Hp5 & evs5 & Ha5); [by rewrite Hr4|done| |].
  { rewrite He4. simpl. by rewrite lookup_insert_eq. }
  simpl. eexists. split_and!; [done|done| |].
  - simpl. rewrite Ha5, Ha4, Ha3. set_solver.
  - simpl. rewrite He5. simpl. by rewrite lookup_insert_eq.
Qed.

(** ** Concrete updates for the properties *)

Definition example_plan : UpdatePlan :=
  mkUpdatePlan "shell" OsImage UpgradeOsImage "1.2.0" 7 "key" 3
    (Version.decision_allow Version.Upgrade).

(** An agent with a registered payload, its expected digest and an old active
    file. *)
Definition example_agent (expected : string) : UpdateAgent FilesystemApplyEngine :=
  mkUpdateAgent
    (seed_active "active/shell" (as_bytes "old")
      (register_payload "shell" (as_bytes "abc") expected FilesystemApplyEngine_new))
    (set_plan example_plan UpdateStatus_default) None PolicyEngine_new [].

Definition example_final (expected : string) : UpdateAgent FilesystemApplyEngine :=
  from_option fst (example_agent expected) (UpdateAgent_apply 9 (example_agent expected)).

Lemma example_no_panic expected :
  no_panic (ag_retries (example_agent expected)) ∧ no_fallbacks (ag_retries (example_agent expected)).
Proof. split; [split; [split; constructor|done]|done]. Qed.

Lemma update_installs_witness :
  ∃ bytes, get_for_plan (fe_payloads (ag_engine (example_agent (sha256_inline (as_bytes "abc"))))) example_plan = Some bytes ∧
    get_for_plan (fe_expected_sha256 (ag_engine (example_agent (sha256_inline (as_bytes "abc"))))) example_plan
      = Some (sha256_inline bytes) ∧
    fe_fs (ag_engine (example_final (sha256_inline (as_bytes "abc")))) !! active_path example_plan = Some bytes ∧
    fe_fs (ag_engine (example_final (sha256_inline (as_bytes "abc"))))
      !! staging_path (engine_plan_id example_plan) = None ∧
    (∀ path, path ≠ active_path example_plan → ¬ scratch_path example_plan path →
       fe_fs (ag_engine (example_final (sha256_inline (as_bytes "abc")))) !! path =
       fe_fs (ag_engine (example_agent (sha256_inline (as_bytes "abc")))) !! path).
Proof.
  apply (update_installs_verified_payload 9); [apply example_no_panic..|done|].
  vm_compute. reflexivity.
Defined.

Lemma failed_update_witness :
  fs_same example_plan (ag_engine (example_agent "wrong")) (ag_engine (example_final "wrong")) ∧
  fe_fs (ag_engine (example_final "wrong")) !! active_path example_plan =
  fe_fs (ag_engine (example_agent "wrong")) !! active_path example_plan.
Proof.
  apply (failed_update_leaves_active_untouched 9 _ _ _ (Refused Verify "retries exhausted"));
    [apply example_no_panic..|done|].
  vm_compute. reflexivity.
Defined.

Lemma verify_fallback_witness :
  let e := register_payload (plan_target example_plan) (as_bytes "abc") "wrong" FilesystemApplyEngine_new in
  let r := register (step_task_id Verify)
             (RetryPolicy_with_fallback (mkTaskId "x") RetryPolicy_no_retry) PolicyEngine_new in
  let ag := mkUpdateAgent e (set_plan example_plan UpdateStatus_default) None r [] in
  ∃ ag', UpdateAgent_apply 9 ag = Some (ag', Ok tt) ∧ st_stage (ag_status ag') = Done ∧
    StepGaveUp Verify ∈ ag_audit ag' ∧
    fe_fs (ag_engine ag') !! active_path example_plan = Some (as_bytes "abc").
Proof. apply verify_fallback_installs_unverified_payload. vm_compute. discriminate. Defined.
