(* ===== verification/HashChain.v ===== *)
(** * Hash chains

    The interface shared by the audit chain and the boot-measurement chain of
    security/aether-security: entries numbered from zero, each carrying the
    digest of its predecessor and its own digest.  The two components prove
    the laws for their entries and get the chain lemmas from here.  SHA-256
    comes from the [sha2] crate: [digest256] is a parameter. *)
From S2P Require Import Prelude RustStd.

Class Digest := digest256 : list byte → list byte.

(** An explicit collision of the digest. *)
Definition collision `{Digest} : Prop := ∃ a b, a ≠ b ∧ digest256 a = digest256 b.

(** [GENESIS_PREV_HASH]: 32 zero bytes. *)
Definition GENESIS_PREV_HASH : list byte := replicate 32 Byte.x00.

(** What a chain needs of its entries. *)
Class ChainEntry (A : Type) := {
  ce_index : A → N;
  ce_prev : A → list byte;
  ce_content : A → list byte;
  ce_timestamp : A → N;
  (** [recompute_hash]. *)
  ce_hash : A → list byte;
  (** The body of the re-stamping loop: new index, new [prev_hash], and
      [content_hash] recomputed. *)
  ce_restamp : N → list byte → A → A;
}.

Class ChainEntryLaws (A : Type) `{ChainEntry A} := {
  restamp_index i p e : ce_index (ce_restamp i p e) = i;
  restamp_prev i p e : ce_prev (ce_restamp i p e) = p;
  restamp_content i p e : ce_content (ce_restamp i p e) = ce_hash (ce_restamp i p e);
  restamp_timestamp i p e : ce_timestamp (ce_restamp i p e) = ce_timestamp e;
}.

Section chain.
Context {A : Type} `{ChainEntry A}.
Implicit Types (l : list A) (e : A).

(** The walk of [verify_chain]: the first inconsistency, if any. *)
Inductive chain_fault :=
| FaultIndex (index : N)
| FaultLink (index : N)
| FaultContent (index : N).

Fixpoint chain_walk (i : N) (prev : list byte) l : option chain_fault :=
  match l with
  | [] => None
  | e :: l =>
      if negb (ce_index e =? i)%N then Some (FaultIndex (ce_index e))
      else if negb (bool_decide (ce_prev e = prev)) then Some (FaultLink (ce_index e))
      else if negb (bool_decide (ce_hash e = ce_content e)) then Some (FaultContent (ce_index e))
      else chain_walk (i + 1) (ce_content e) l
  end.

(** A well-linked chain that starts at index [i] after the digest [prev]. *)
Fixpoint chain_ok (i : N) (prev : list byte) l : Prop :=
  match l with
  | [] => True
  | e :: l =>
      ce_index e = i ∧ ce_prev e = prev ∧ ce_hash e = ce_content e ∧
      chain_ok (i + 1) (ce_content e) l
  end.

Fixpoint restamp_all (i : N) (prev : list byte) l : list A :=
  match l with
  | [] => []
  | e :: l =>
      let e := ce_restamp i prev e in
      e :: restamp_all (i + 1) (ce_content e) l
  end.

(** The digest the next entry links to. *)
Definition chain_head (prev : list byte) l : list byte := from_option ce_content prev (last l).

(** [prune_older_than] on the entries: the entries kept, and the number of
    entries dropped. *)
Definition chain_prune (max_age_ms now_ms : N) l : list A * nat :=
  if (max_age_ms =? 0)%N then (l, 0)
  else
    let cutoff := saturating_sub now_ms max_age_ms in
    match position (λ e, (cutoff <=? ce_timestamp e)%N) l with
    | None => ([], length l)
    | Some 0 => (l, 0)
    | Some keep_from =>
        (restamp_all 0 GENESIS_PREV_HASH (drain_front keep_from l), keep_from)
    end.

Lemma chain_walk_ok i prev l : chain_walk i prev l = None ↔ chain_ok i prev l.
Proof.
  revert i prev. induction l as [|e l IH]; intros i prev; simpl; [done|].
  destruct (N.eqb_spec (ce_index e) i); simpl; [|split; [done|naive_solver]].
  destruct (bool_decide_reflect (ce_prev e = prev)); simpl; [|split; [done|naive_solver]].
  destruct (bool_decide_reflect (ce_hash e = ce_content e)); simpl; [|split; [done|naive_solver]].
  rewrite IH. naive_solver.
Qed.

Lemma chain_head_cons prev e l : chain_head prev (e :: l) = chain_head (ce_content e) l.
Proof. unfold chain_head. rewrite last_cons. by destruct (last l). Qed.

Lemma chain_ok_app i prev l k :
  chain_ok i prev (l ++ k) ↔
  chain_ok i prev l ∧ chain_ok (i + N.of_nat (length l)) (chain_head prev l) k.
Proof.
  revert i prev. induction l as [|e l IH]; intros i prev; simpl.
  { rewrite N.add_0_r. naive_solver. }
  rewrite IH, chain_head_cons.
  replace (i + 1 + N.of_nat (length l))%N with (i + N.pos (Pos.of_succ_nat (length l)))%N by lia.
  naive_solver.
Qed.

Lemma chain_ok_index i prev l j e :
  chain_ok i prev l → l !! j = Some e → ce_index e = (i + N.of_nat j)%N.
Proof.
  revert i prev j. induction l as [|e' l IH]; intros i prev [|j]; simpl; [done|done| |].
  - intros (Hi & _) [= ->]. lia.
  - intros (_ & _ & _ & Hok) Hj. rewrite (IH _ _ _ Hok Hj). lia.
Qed.

(** The chain without its first entries starts at a later index. *)
Lemma chain_walk_drop prev0 prev l k e : chain_ok 0 prev0 l → l !! k = Some e → 0 < k →
  chain_walk 0 prev (drop k l) = Some (FaultIndex (N.of_nat k)).
Proof.
  intros Hok Hk Hpos. rewrite (drop_S _ _ _ Hk). simpl.
  rewrite (chain_ok_index _ _ _ _ _ Hok Hk).
  destruct (N.eqb_spec (0 + N.of_nat k) 0); [lia|]. simpl. by rewrite N.add_0_l.
Qed.

Context `{!ChainEntryLaws A}.

Lemma restamp_all_ok i prev l : chain_ok i prev (restamp_all i prev l).
Proof.
  revert i prev. induction l as [|e l IH]; intros i prev; simpl; [done|].
  rewrite restamp_index, restamp_prev, restamp_content. by split_and!.
Qed.

Lemma restamp_all_fmap {B} (f : A → B) i prev l :
  (∀ i p e, f (ce_restamp i p e) = f e) → f <$> restamp_all i prev l = f <$> l.
Proof.
  intros Hf. revert i prev. induction l as [|e l IH]; intros i prev; [done|].
  cbn [restamp_all]. rewrite !fmap_cons. by rewrite Hf, IH.
Qed.

(** Pruning: nothing dropped and nothing changed, or a prefix of expired
    entries dropped, the rest re-linked into a chain that verifies, whatever
    the chain was before. *)
Lemma chain_prune_spec max_age now l :
  let '(l', n) := chain_prune max_age now l in
  (n = 0 ∧ l' = l) ∨
  (0 < n ≤ length l ∧ chain_ok 0 GENESIS_PREV_HASH l' ∧ length l' = length l - n ∧
   (∀ e, e ∈ take n l → (ce_timestamp e < now - max_age)%N) ∧
   ∀ B (f : A → B), (∀ i p e, f (ce_restamp i p e) = f e) → f <$> l' = f <$> drop n l).
Proof.
  unfold chain_prune, saturating_sub. destruct (N.eqb_spec max_age 0); [by left|].
  destruct (position _ l) as [[|k]|] eqn:Hp; [by left| |].
  - right. apply position_Some in Hp as (e & Hk & _ & Hbefore).
    pose proof (lookup_lt_Some _ _ _ Hk). split_and!; [lia|lia|apply restamp_all_ok| | |].
    + rewrite <-(length_fmap ce_timestamp).
      rewrite restamp_all_fmap by apply restamp_timestamp.
      unfold drain_front. by rewrite length_fmap, length_drop.
    + intros e' He'. apply Hbefore in He'. bool_to_prop. done.
    + intros B f Hf. by rewrite restamp_all_fmap.
  - pose proof (proj1 (position_None _ _) Hp) as Hall.
    destruct l as [|e l]; [by left|]. right.
    split_and!; [simpl; lia|done|done|simpl; lia| |].
    + intros e' He'. rewrite take_ge in He' by done. specialize (Hall e' He').
      bool_to_prop. done.
    + intros B f Hf. by rewrite drop_all.
Qed.

End chain.

(** ** Binding *)

(** Entries of which a digest determines all fields, unless it collides. *)
Class ChainBinding (A : Type) `{ChainEntry A} `{Digest} (wf : A → Prop) :=
  entry_binding a b :
    wf a → wf b → ce_hash a = ce_content a → ce_hash b = ce_content b →
    ce_content a = ce_content b → a = b ∨ collision.

(** Two verifying chains of the same length that end in the same digest have
    the same entries, or exhibit a collision. *)
Lemma chain_binding {A} `{ChainEntry A} `{Digest} (wf : A → Prop) `{!ChainBinding A wf}
    i prev1 prev2 (l1 l2 : list A) :
  Forall wf l1 → Forall wf l2 → length l1 = length l2 →
  chain_ok i prev1 l1 → chain_ok i prev2 l2 →
  chain_head prev1 l1 = chain_head prev2 l2 →
  (l1 = l2 ∧ prev1 = prev2) ∨ collision.
Proof.
  intros Hw1. revert i prev1 prev2 l2.
  induction Hw1 as [|a l1 Ha Hw1 IH]; intros i prev1 prev2 l2 Hw2 Hlen Hok1 Hok2 Hhead.
  { destruct l2; [|done]. left. done. }
  destruct l2 as [|b l2]; [done|]. apply Forall_cons in Hw2 as [Hb Hw2].
  destruct Hok1 as (Hi1 & Hp1 & Hh1 & Hok1), Hok2 as (Hi2 & Hp2 & Hh2 & Hok2).
  rewrite !chain_head_cons in Hhead. injection Hlen as Hlen.
  destruct (IH _ _ _ l2 Hw2 Hlen Hok1 Hok2 Hhead) as [[-> Hc]|Hcol]; [|by right].
  destruct (entry_binding a b) as [->|Hcol]; [done..| |by right].
  left. split; [done|congruence].
Qed.

(** ** Separated byte fields *)

Definition nul_free (s : string) : Prop := Byte.x00 ∉ as_bytes s.

Lemma as_bytes_inj a b : as_bytes a = as_bytes b → a = b.
Proof.
  intros Heq. rewrite <-(String.string_of_list_byte_of_string a),
    <-(String.string_of_list_byte_of_string b).
  unfold as_bytes in Heq. by rewrite Heq.
Qed.

Lemma be_bytes_inj k a b :
  (a < 256 ^ N.of_nat k)%N → (b < 256 ^ N.of_nat k)%N → be_bytes k a = be_bytes k b → a = b.
Proof.
  intros Ha Hb Heq. apply (f_equal from_be_bytes) in Heq.
  rewrite !from_be_be_bytes in Heq. by rewrite !N.mod_small in Heq.
Qed.

(** Fields without NUL are separated by NUL. *)
Lemma nul_split (a b : list byte) k1 k2 :
  Byte.x00 ∉ a → Byte.x00 ∉ b → a ++ [Byte.x00] ++ k1 = b ++ [Byte.x00] ++ k2 → a = b ∧ k1 = k2.
Proof.
  revert b. induction a as [|x a IH]; intros [|y b] Ha Hb Heq; simplify_eq/=; [done| | |].
  - set_solver.
  - set_solver.
  - destruct (IH b) as [-> ->]; [set_solver..|done|]. done.
Qed.
