(* ===== verification/AuditChain.v ===== *)
(** * The tamper-evident audit log

    Models security/aether-security/src/audit.rs. *)
From S2P Require Import Prelude RustStd HashChain.

Definition usize_max : N := u64_max.

Record AuditEntry := mkAuditEntry {
  ae_index : N;
  ae_timestamp_ms : N;
  ae_event : string;
  ae_component : string;
  ae_detail : string;
  ae_prev_hash : list byte;
  ae_content_hash : list byte;
}.

#[export] Instance AuditEntry_eq_dec : EqDecision AuditEntry.
Proof. solve_decision. Defined.

Definition AuditEntry_canonical_bytes (e : AuditEntry) : list byte :=
  be_bytes 8 (ae_index e) ++ be_bytes 8 (ae_timestamp_ms e) ++
  as_bytes (ae_event e) ++ [Byte.x00] ++
  as_bytes (ae_component e) ++ [Byte.x00] ++
  as_bytes (ae_detail e) ++ [Byte.x00] ++
  ae_prev_hash e.

Record RetentionPolicy := mkRetentionPolicy {
  max_entries : N;
  max_age_ms : N;
}.

Definition RetentionPolicy_default : RetentionPolicy := mkRetentionPolicy 4096 0.
Definition RetentionPolicy_last_n (n : N) : RetentionPolicy := mkRetentionPolicy n 0.
Definition RetentionPolicy_bounded (n age_ms : N) : RetentionPolicy := mkRetentionPolicy n age_ms.

Inductive ChainStatus :=
| ChainOk
| ContentMismatch (index : N)
| BrokenLink (index : N)
| IndexGap (index : N).

Record AuditChain := mkAuditChain {
  ac_entries : list AuditEntry;
  ac_retention : RetentionPolicy;
}.

Definition AuditChain_new (r : RetentionPolicy) : AuditChain := mkAuditChain [] r.
Definition AuditChain_default : AuditChain := AuditChain_new RetentionPolicy_default.

Section audit.
Context `{D : Digest}.

Definition AuditEntry_recompute_hash (e : AuditEntry) : list byte :=
  digest256 (AuditEntry_canonical_bytes e).

Definition set_content_hash (h : list byte) (e : AuditEntry) : AuditEntry :=
  mkAuditEntry (ae_index e) (ae_timestamp_ms e) (ae_event e) (ae_component e) (ae_detail e)
    (ae_prev_hash e) h.

(** The body of the loop of [prune_older_than]. *)
Definition AuditEntry_restamp (i : N) (prev : list byte) (e : AuditEntry) : AuditEntry :=
  let e := mkAuditEntry i (ae_timestamp_ms e) (ae_event e) (ae_component e) (ae_detail e)
             prev (ae_content_hash e) in
  set_content_hash (AuditEntry_recompute_hash e) e.

#[export] Instance AuditEntry_chain : ChainEntry AuditEntry := {|
  ce_index := ae_index;
  ce_prev := ae_prev_hash;
  ce_content := ae_content_hash;
  ce_timestamp := ae_timestamp_ms;
  ce_hash := AuditEntry_recompute_hash;
  ce_restamp := AuditEntry_restamp;
|}.

#[export] Instance AuditEntry_chain_laws : ChainEntryLaws AuditEntry.
Proof. by split. Qed.

(** [record]; [None] is the panic of [remove(0)] on an empty vector. *)
Definition AuditChain_record (timestamp_ms : N) (event component detail : string)
    (c : AuditChain) : option (AuditChain * N) :=
  let max := max_entries (ac_retention c) in
  let evict :=
    match (if (max <? usize_max)%N then Some (max + 1)%N else None) with
    | Some cap => negb (cap =? 0)%N && (max <=? N.of_nat (length (ac_entries c)))%N
    | None => false
    end in
  entries ← (if evict
             then match ac_entries c with [] => None | _ :: l => Some l end
             else Some (ac_entries c));
  let prev_hash := from_option ae_content_hash GENESIS_PREV_HASH (last entries) in
  let index := N.of_nat (length entries) in
  let entry := mkAuditEntry index timestamp_ms event component detail prev_hash
                 (replicate 32 Byte.x00) in
  let entry := set_content_hash (AuditEntry_recompute_hash entry) entry in
  Some (mkAuditChain (entries ++ [entry]) (ac_retention c), index).

Definition AuditChain_recent (n : nat) (c : AuditChain) : list AuditEntry :=
  take (min n (length (ac_entries c))) (reverse (ac_entries c)).

(** The walk of [verify_chain] and of [restore_from]. *)
Fixpoint verify_entries (expected_index : N) (expected_prev : list byte)
    (l : list AuditEntry) : result unit ChainStatus :=
  match l with
  | [] => Ok tt
  | e :: l =>
      if negb (ae_index e =? expected_index)%N then Err (IndexGap (ae_index e))
      else if negb (bool_decide (ae_prev_hash e = expected_prev))
        then Err (BrokenLink (ae_index e))
      else if negb (bool_decide (AuditEntry_recompute_hash e = ae_content_hash e))
        then Err (ContentMismatch (ae_index e))
      else verify_entries (expected_index + 1) (ae_content_hash e) l
  end.

Definition AuditChain_verify_chain (c : AuditChain) : result unit ChainStatus :=
  verify_entries 0 GENESIS_PREV_HASH (ac_entries c).

Definition AuditChain_prune_older_than (now_ms : N) (c : AuditChain) : AuditChain * nat :=
  let '(l, dropped) := chain_prune (max_age_ms (ac_retention c)) now_ms (ac_entries c) in
  (mkAuditChain l (ac_retention c), dropped).

Definition AuditChain_restore_from (entries : list AuditEntry) (c : AuditChain) :
    AuditChain * result unit ChainStatus :=
  match verify_entries 0 GENESIS_PREV_HASH entries with
  | Err s => (c, Err s)
  | Ok _ =>
      let max := max_entries (ac_retention c) in
      if negb (max =? 0)%N && (max <? N.of_nat (length entries))%N
      then (mkAuditChain (drain_front (length entries - N.to_nat max) entries) (ac_retention c),
            Ok tt)
      else (mkAuditChain entries (ac_retention c), Ok tt)
  end.

(** ** Verification against the chain interface *)

Definition fault_status (f : chain_fault) : ChainStatus :=
  match f with
  | FaultIndex i => IndexGap i
  | FaultLink i => BrokenLink i
  | FaultContent i => ContentMismatch i
  end.

Lemma verify_entries_walk i prev l :
  verify_entries i prev l =
  match chain_walk i prev l with None => Ok tt | Some f => Err (fault_status f) end.
Proof.
  revert i prev. induction l as [|e l IH]; intros i prev; simpl; [done|].
  destruct (negb (ae_index e =? i)%N); [done|].
  destruct (negb (bool_decide (ae_prev_hash e = prev))); [done|].
  destruct (negb (bool_decide (AuditEntry_recompute_hash e = ae_content_hash e))); [done|].
  apply IH.
Qed.

Lemma verify_entries_ok i prev l : verify_entries i prev l = Ok tt ↔ chain_ok i prev l.
Proof.
  rewrite verify_entries_walk, <-chain_walk_ok. by destruct (chain_walk i prev l).
Qed.

(** ** Recording *)

(** The entry [record] appends to [entries]. *)
Definition new_entry (entries : list AuditEntry) (timestamp_ms : N)
    (event component detail : string) : AuditEntry :=
  let e := mkAuditEntry (N.of_nat (length entries)) timestamp_ms event component detail
             (chain_head GENESIS_PREV_HASH entries) (replicate 32 Byte.x00) in
  set_content_hash (AuditEntry_recompute_hash e) e.

Lemma record_room c ts ev comp det :
  (N.of_nat (length (ac_entries c)) < max_entries (ac_retention c))%N →
  AuditChain_record ts ev comp det c =
  Some (mkAuditChain (ac_entries c ++ [new_entry (ac_entries c) ts ev comp det]) (ac_retention c),
        N.of_nat (length (ac_entries c))).
Proof.
  intros Hlt. unfold AuditChain_record. cbn zeta.
  destruct (_ <? usize_max)%N; [|done].
  rewrite (proj2 (N.leb_gt _ _)) by done. by rewrite andb_false_r.
Qed.

Lemma record_full c ts ev comp det e l :
  (max_entries (ac_retention c) < usize_max)%N → ac_entries c = e :: l →
  (max_entries (ac_retention c) ≤ N.of_nat (length (ac_entries c)))%N →
  AuditChain_record ts ev comp det c =
  Some (mkAuditChain (l ++ [new_entry l ts ev comp det]) (ac_retention c), N.of_nat (length l)).
Proof.
  intros Hmax Heq Hfull. unfold AuditChain_record. cbn zeta.
  rewrite (proj2 (N.ltb_lt _ _)) by done. rewrite (proj2 (N.leb_le _ _)) by done.
  rewrite Heq. destruct (N.eqb_spec (max_entries (ac_retention c) + 1) 0); [lia|]. done.
Qed.

Lemma new_entry_ok entries ts ev comp det :
  chain_ok 0 GENESIS_PREV_HASH entries →
  chain_ok 0 GENESIS_PREV_HASH (entries ++ [new_entry entries ts ev comp det]).
Proof. intros Hok. apply chain_ok_app. split; [done|]. by split_and!. Qed.

(** A sequence of [record] calls. *)
Fixpoint run_records (recs : list (N * string * string * string)) (c : AuditChain) :
    option AuditChain :=
  match recs with
  | [] => Some c
  | (ts, ev, comp, det) :: recs =>
      '(c, _) ← AuditChain_record ts ev comp det c; run_records recs c
  end.

(** The log after [n] records under a cap of [m] entries. *)
Definition recorded (m n : nat) (c : AuditChain) : Prop :=
  max_entries (ac_retention c) = N.of_nat m ∧
  length (ac_entries c) = min n m ∧
  (n ≤ m → chain_ok 0 GENESIS_PREV_HASH (ac_entries c)) ∧
  ∀ p e, ac_entries c !! p = Some e → ae_index e = N.of_nat (min (n - m + p) (m - 1)).

Lemma recorded_step m n c ts ev comp det :
  2 ≤ m → (N.of_nat m < usize_max)%N → recorded m n c →
  ∃ c' i, AuditChain_record ts ev comp det c = Some (c', i) ∧ recorded m (S n) c'.
Proof.
  intros Hm Hmax (Hcap & Hlen & Hok & Hidx). destruct (decide (n < m)) as [Hlt|Hge].
  - rewrite record_room by (rewrite Hcap; lia). eexists _, _. split; [done|].
    split_and!; cbn [ac_entries ac_retention]; [done|rewrite length_app; cbn [length]; lia|intros _; apply new_entry_ok, Hok; lia|].
    intros p e [Hp|[Hp He]]%lookup_app_Some.
    + rewrite (Hidx _ _ Hp). apply lookup_lt_Some in Hp. f_equal. lia.
    + apply list_lookup_singleton_Some in He as [Hp0 <-]. cbn [new_entry set_content_hash ae_index]. f_equal. lia.
  - destruct (ac_entries c) as [|e0 l] eqn:Hc; [simpl in Hlen; lia|].
    rewrite (record_full c ts ev comp det e0 l) by (rewrite ?Hcap, ?Hc; done || lia).
    eexists _, _. split; [done|]. cbn [length] in Hlen.
    split_and!; cbn [ac_entries ac_retention]; [done|rewrite length_app; cbn [length]; lia|lia|].
    intros p e [Hp|[Hp He]]%lookup_app_Some.
    + rewrite (Hidx (S p) e Hp). f_equal. lia.
    + apply list_lookup_singleton_Some in He as [Hp0 <-]. cbn [new_entry set_content_hash ae_index]. f_equal. lia.
Qed.

Lemma recorded_run m n recs c :
  2 ≤ m → (N.of_nat m < usize_max)%N → recorded m n c →
  ∃ c', run_records recs c = Some c' ∧ recorded m (n + length recs) c'.
Proof.
  intros Hm Hmax. revert n c. induction recs as [|[[[ts ev] comp] det] recs IH]; intros n c Hr; simpl.
  { exists c. by rewrite Nat.add_0_r. }
  destruct (recorded_step m n c ts ev comp det Hm Hmax Hr) as (c1 & i & -> & Hr1). simpl.
  replace (n + S (length recs)) with (S n + length recs) by lia. by apply IH.
Qed.

Lemma recorded_new m : recorded m 0 (AuditChain_new (RetentionPolicy_last_n (N.of_nat m))).
Proof. by split_and!. Qed.

(** ** Injectivity of the canonical bytes *)

(** The typing of an entry's fields, and no NUL character in its strings. *)
Definition entry_wf (e : AuditEntry) : Prop :=
  (ae_index e < 2 ^ 64)%N ∧ (ae_timestamp_ms e < 2 ^ 64)%N ∧
  nul_free (ae_event e) ∧ nul_free (ae_component e) ∧ nul_free (ae_detail e).

Lemma canonical_bytes_inj a b :
  entry_wf a → entry_wf b →
  AuditEntry_canonical_bytes a = AuditEntry_canonical_bytes b →
  ae_index a = ae_index b ∧ ae_timestamp_ms a = ae_timestamp_ms b ∧
  ae_event a = ae_event b ∧ ae_component a = ae_component b ∧
  ae_detail a = ae_detail b ∧ ae_prev_hash a = ae_prev_hash b.
Proof.
  intros (Ha1 & Ha2 & Ha3 & Ha4 & Ha5) (Hb1 & Hb2 & Hb3 & Hb4 & Hb5) Heq.
  unfold AuditEntry_canonical_bytes in Heq.
  apply app_inj_1 in Heq as [H1 Heq]; [|by rewrite !length_be_bytes].
  apply app_inj_1 in Heq as [H2 Heq]; [|by rewrite !length_be_bytes].
  apply nul_split in Heq as [H3 Heq]; [|done..].
  apply nul_split in Heq as [H4 Heq]; [|done..].
  apply nul_split in Heq as [H5 Heq]; [|done..].
  split_and!; [by apply (be_bytes_inj 8)|by apply (be_bytes_inj 8)|by apply as_bytes_inj..|done].
Qed.

#[export] Instance AuditEntry_binding : ChainBinding AuditEntry entry_wf.
Proof.
  intros a b Ha Hb Hha Hhb Hc. simpl in *. unfold AuditEntry_recompute_hash in *.
  destruct (decide (AuditEntry_canonical_bytes a = AuditEntry_canonical_bytes b)) as [Heq|Hne].
  - left. apply canonical_bytes_inj in Heq as (? & ? & ? & ? & ? & ?); [|done..].
    destruct a, b; simpl in *. congruence.
  - right. eexists _, _. split; [exact Hne|congruence].
Qed.

(** ** Properties *)

(** Below the retention cap, [record] on a log that verifies appends one
    entry with the caller's fields, numbered by the old length and linked to
    the old head, returns its index, and the log still verifies. *)
Theorem record_keeps_chain_valid c ts ev comp det :
  AuditChain_verify_chain c = Ok tt →
  (N.of_nat (length (ac_entries c)) < max_entries (ac_retention c))%N →
  ∃ c' e, AuditChain_record ts ev comp det c = Some (c', ae_index e) ∧
    AuditChain_verify_chain c' = Ok tt ∧ ac_entries c' = ac_entries c ++ [e] ∧
    ac_retention c' = ac_retention c ∧
    ae_index e = N.of_nat (length (ac_entries c)) ∧ ae_timestamp_ms e = ts ∧
    ae_event e = ev ∧ ae_component e = comp ∧ ae_detail e = det.
Proof.
  intros Hok%verify_entries_ok Hlt. rewrite record_room by done.
  eexists _, (new_entry (ac_entries c) ts ev comp det). split_and!; try done.
  by apply verify_entries_ok, new_entry_ok.
Qed.

(** A log with a cap of [m >= 2] entries accepts any number of records
    and keeps the last [m] of them, but it verifies exactly as long as at
    most [m] have been recorded: the first eviction leaves a head whose index
    is not zero, and no later record repairs it. *)
Theorem chain_verifies_until_full m recs :
  2 ≤ m → (N.of_nat m < usize_max)%N →
  ∃ c, run_records recs (AuditChain_new (RetentionPolicy_last_n (N.of_nat m))) = Some c ∧
    length (ac_entries c) = min (length recs) m ∧
    (AuditChain_verify_chain c = Ok tt ↔ length recs ≤ m).
Proof.
  intros Hm Hmax.
  destruct (recorded_run m 0 recs _ Hm Hmax (recorded_new m)) as (c & Hrun & _ & Hlen & Hok & Hidx).
  exists c. simpl in *. split_and!; [done|done|]. unfold AuditChain_verify_chain.
  rewrite verify_entries_ok. split; [|done]. intros Hver.
  destruct (decide (length recs ≤ m)) as [|Hgt]; [done|]. exfalso.
  destruct (ac_entries c) as [|e l] eqn:Hc; [simpl in Hlen; lia|].
  specialize (Hidx 0 e eq_refl). destruct Hver as [H0 _]. simpl in H0. lia.
Qed.

(** With [max_entries = 0], documented as unbounded, the first [record]
    on an empty log panics. *)
Theorem zero_cap_record_panics age ts ev comp det :
  AuditChain_record ts ev comp det (AuditChain_new (RetentionPolicy_bounded 0 age)) = None.
Proof. done. Qed.

(** [prune_older_than] either changes nothing and returns 0, or drops a
    non-empty prefix of entries that are all older than the cutoff, keeps the
    timestamp, event, component and detail of the rest in order, and leaves a
    log that verifies, whether or not the log verified before. *)
Theorem prune_relinks_chain now c :
  let '(c', n) := AuditChain_prune_older_than now c in
  ac_retention c' = ac_retention c ∧
  ((n = 0 ∧ ac_entries c' = ac_entries c) ∨
   (0 < n ≤ length (ac_entries c) ∧ AuditChain_verify_chain c' = Ok tt ∧
    (∀ e, e ∈ take n (ac_entries c) →
       (ae_timestamp_ms e < now - max_age_ms (ac_retention c))%N) ∧
    (λ e, (ae_timestamp_ms e, ae_event e, ae_component e, ae_detail e)) <$> ac_entries c' =
    (λ e, (ae_timestamp_ms e, ae_event e, ae_component e, ae_detail e)) <$>
      drop n (ac_entries c))).
Proof.
  unfold AuditChain_prune_older_than.
  pose proof (chain_prune_spec (max_age_ms (ac_retention c)) now (ac_entries c)) as Hs.
  destruct (chain_prune _ _ _) as [l n]. split; [done|]. simpl.
  destruct Hs as [[-> ->]|(Hn & Hok & _ & Hold & Hf)]; [by left|right].
  split_and!; [lia|lia|by apply verify_entries_ok|done|]. by apply Hf.
Qed.

(** [restore_from] refuses exactly the logs that do not verify, with the
    verifier's own answer and the old log kept; a log that verifies and fits
    the cap replaces the old one and still verifies; one that exceeds the cap
    is accepted and truncated to its last entries, and then it no longer
    verifies. *)
Theorem restore_from_exact entries c :
  match verify_entries 0 GENESIS_PREV_HASH entries with
  | Err s => AuditChain_restore_from entries c = (c, Err s)
  | Ok _ =>
      ∃ c', AuditChain_restore_from entries c = (c', Ok tt) ∧
        let max := max_entries (ac_retention c) in
        if decide (max = 0%N ∨ (N.of_nat (length entries) ≤ max)%N)
        then ac_entries c' = entries ∧ AuditChain_verify_chain c' = Ok tt
        else ac_entries c' = suffix_n (N.to_nat max) entries ∧
          AuditChain_verify_chain c' = Err (IndexGap (N.of_nat (length entries) - max))
  end.
Proof.
  unfold AuditChain_restore_from.
  destruct (verify_entries 0 GENESIS_PREV_HASH entries) as [[]|s] eqn:Hv; [|done]. cbn zeta.
  set (max := max_entries (ac_retention c)).
  destruct (N.eqb_spec max 0); simpl.
  { eexists. split; [done|]. by rewrite decide_True by auto. }
  destruct (N.ltb_spec max (N.of_nat (length entries))).
  - eexists. split; [done|]. rewrite decide_False by lia. split; [done|].
    unfold AuditChain_verify_chain, drain_front. simpl. rewrite verify_entries_walk.
    destruct (lookup_lt_is_Some_2 entries (length entries - N.to_nat max)) as [e He]; [lia|].
    apply verify_entries_ok in Hv. rewrite (chain_walk_drop _ _ _ _ _ Hv He) by lia.
    simpl. do 2 f_equal. lia.
  - eexists. split; [done|]. by rewrite decide_True by lia.
Qed.

(** C22: tamper evidence: two logs of the same length that both verify and end
    in the same digest hold the same entries, or the digest function has an
    explicit collision, provided the numbers fit 64 bits and no string holds
    a NUL character. *)
Theorem audit_head_binds_log c1 c2 :
  Forall entry_wf (ac_entries c1) → Forall entry_wf (ac_entries c2) →
  length (ac_entries c1) = length (ac_entries c2) →
  AuditChain_verify_chain c1 = Ok tt → AuditChain_verify_chain c2 = Ok tt →
  ae_content_hash <$> last (ac_entries c1) = ae_content_hash <$> last (ac_entries c2) →
  ac_entries c1 = ac_entries c2 ∨ collision.
Proof.
  intros Hw1 Hw2 Hlen Hv1%verify_entries_ok Hv2%verify_entries_ok Hlast.
  destruct (chain_binding entry_wf _ _ _ _ _ Hw1 Hw2 Hlen Hv1 Hv2) as [[? _]|?]; [|by left|by right].
  unfold chain_head.
  destruct (last (ac_entries c1)), (last (ac_entries c2)); by simplify_eq/=.
Qed.

(** Without the NUL restriction the binding fails for every digest
    function: two different logs of one entry verify and end in the same
    digest, because NUL-separated fields do not determine their boundaries. *)
Theorem nul_characters_defeat_binding :
  ∃ c1 c2, ac_entries c1 ≠ ac_entries c2 ∧
    length (ac_entries c1) = length (ac_entries c2) ∧
    AuditChain_verify_chain c1 = Ok tt ∧ AuditChain_verify_chain c2 = Ok tt ∧
    ae_content_hash <$> last (ac_entries c1) = ae_content_hash <$> last (ac_entries c2).
Proof.
  set (nul := String (Ascii.ascii_of_nat 0) EmptyString).
  exists (mkAuditChain [new_entry [] 0 "a" ("b" +:+ nul +:+ "c") EmptyString] RetentionPolicy_default),
         (mkAuditChain [new_entry [] 0 ("a" +:+ nul +:+ "b") "c" EmptyString] RetentionPolicy_default).
  split_and!; [done|done|apply verify_entries_ok; by split_and!..|done].
Qed.

End audit.

(** ** Concrete logs for the properties *)

(** A digest to evaluate with: the message read as a number, modulo 2^256. *)
Definition toy_digest : Digest := λ m, be_bytes 32 (from_be_bytes m).

Definition example_log (recs : list (N * string * string * string)) : AuditChain :=
  default AuditChain_default
    (run_records (D := toy_digest) recs (AuditChain_new (RetentionPolicy_last_n 4))).

Lemma record_keeps_chain_valid_witness :
  ∃ c' e, AuditChain_record (D := toy_digest) 5 "boot" "init" "x"
      (example_log [(1%N, "a", "b", "c")]) = Some (c', ae_index e) ∧
    AuditChain_verify_chain (D := toy_digest) c' = Ok tt ∧
    ac_entries c' = ac_entries (example_log [(1%N, "a", "b", "c")]) ++ [e] ∧
    ac_retention c' = ac_retention (example_log [(1%N, "a", "b", "c")]) ∧
    ae_index e = N.of_nat (length (ac_entries (example_log [(1%N, "a", "b", "c")]))) ∧
    ae_timestamp_ms e = 5%N ∧ ae_event e = "boot" ∧ ae_component e = "init" ∧ ae_detail e = "x".
Proof. apply (record_keeps_chain_valid (D := toy_digest)); vm_compute; reflexivity. Defined.

Lemma chain_verifies_until_full_witness :
  ∃ c, run_records (D := toy_digest) [(1%N, "a", "b", "c"); (2%N, "d", "e", "f")]
      (AuditChain_new (RetentionPolicy_last_n (N.of_nat 2))) = Some c ∧
    length (ac_entries c) = min 2 2 ∧
    (AuditChain_verify_chain (D := toy_digest) c = Ok tt ↔ 2 ≤ 2).
Proof.
  apply (chain_verifies_until_full (D := toy_digest) 2 [(1%N, "a", "b", "c"); (2%N, "d", "e", "f")]);
    [lia|vm_compute; reflexivity].
Defined.

Lemma audit_head_binds_witness :
  ac_entries (example_log [(1%N, "a", "b", "c")]) = ac_entries (example_log [(1%N, "a", "b", "c")]) ∨
  collision (H := toy_digest).
Proof.
  assert (Forall entry_wf (ac_entries (example_log [(1%N, "a", "b", "c")]))) as Hwf.
  { repeat constructor; try (vm_compute; reflexivity);
      apply (bool_decide_unpack _); by vm_compute. }
  apply (audit_head_binds_log (D := toy_digest)); [done|done|done|vm_compute; reflexivity..|done].
Defined.
