(* ===== verification/BootChain.v ===== *)
(** * The boot-measurement chain

    Models security/aether-security/src/boot_measure.rs. *)
From S2P Require Import Prelude RustStd HashChain.
From Stdlib Require Import Ascii.

Inductive BootStage :=
| KernelCommandLine | InitramfsComponent | KernelModule | ServiceManifestStage | BootComplete.

#[export] Instance BootStage_eq_dec : EqDecision BootStage.
Proof. solve_decision. Defined.

Definition BootStage_as_str (s : BootStage) : string :=
  match s with
  | KernelCommandLine => "kernel-command-line"
  | InitramfsComponent => "initramfs-component"
  | KernelModule => "kernel-module"
  | ServiceManifestStage => "service-manifest"
  | BootComplete => "boot-complete"
  end.

Record BootMeasurement := mkBootMeasurement {
  bm_index : N;
  bm_prev_hash : list byte;
  bm_payload : list byte;
  bm_content_hash : list byte;
  bm_stage : BootStage;
  bm_name : string;
  bm_note : string;
  bm_timestamp_ms : N;
}.

#[export] Instance BootMeasurement_eq_dec : EqDecision BootMeasurement.
Proof. solve_decision. Defined.

Definition BootMeasurement_canonical_bytes (e : BootMeasurement) : list byte :=
  be_bytes 8 (bm_index e) ++ be_bytes 8 (bm_timestamp_ms e) ++
  bm_prev_hash e ++ bm_payload e ++
  as_bytes (BootStage_as_str (bm_stage e)) ++ [Byte.x00] ++
  as_bytes (bm_name e) ++ [Byte.x00] ++
  as_bytes (bm_note e) ++ [Byte.x00].

Record BootRetention := mkBootRetention {
  boot_max_entries : N;
  boot_max_age_ms : N;
}.

Definition BootRetention_default : BootRetention := mkBootRetention 256 0.
Definition BootRetention_last_n (n : N) : BootRetention := mkBootRetention n 0.

Inductive BootChainStatus :=
| BootChainOk
| BootContentMismatch (index : N)
| BootBrokenLink (index : N)
| BootIndexGap (index : N)
| MissingBootComplete (last_index : N).

Record BootMeasurementChain := mkBootChain {
  bc_entries : list BootMeasurement;
  bc_retention : BootRetention;
}.

Definition BootMeasurementChain_new (r : BootRetention) : BootMeasurementChain := mkBootChain [] r.
Definition BootMeasurementChain_default : BootMeasurementChain :=
  BootMeasurementChain_new BootRetention_default.

(** A no-break space between two words, and a tab and a space around them. *)
Example split_whitespace_example :
  split_whitespace (String "009" "ro" +:+ String "194" (String "160" "quiet ")) = ["ro"; "quiet"].
Proof. reflexivity. Qed.

Section boot.
Context `{D : Digest}.

Definition BootMeasurement_recompute_hash (e : BootMeasurement) : list byte :=
  digest256 (BootMeasurement_canonical_bytes e).

Definition boot_set_content_hash (h : list byte) (e : BootMeasurement) : BootMeasurement :=
  mkBootMeasurement (bm_index e) (bm_prev_hash e) (bm_payload e) h (bm_stage e) (bm_name e)
    (bm_note e) (bm_timestamp_ms e).

Definition BootMeasurement_restamp (i : N) (prev : list byte) (e : BootMeasurement) :
    BootMeasurement :=
  let e := mkBootMeasurement i prev (bm_payload e) (bm_content_hash e) (bm_stage e) (bm_name e)
             (bm_note e) (bm_timestamp_ms e) in
  boot_set_content_hash (BootMeasurement_recompute_hash e) e.

#[export] Instance BootMeasurement_chain : ChainEntry BootMeasurement := {|
  ce_index := bm_index;
  ce_prev := bm_prev_hash;
  ce_content := bm_content_hash;
  ce_timestamp := bm_timestamp_ms;
  ce_hash := BootMeasurement_recompute_hash;
  ce_restamp := BootMeasurement_restamp;
|}.

#[export] Instance BootMeasurement_chain_laws : ChainEntryLaws BootMeasurement.
Proof. by split. Qed.

(** [record]; [remove(0)] is only reached on a non-empty vector. *)
Definition BootMeasurementChain_record (timestamp_ms : N) (stage : BootStage)
    (name note : string) (payload : list byte) (c : BootMeasurementChain) :
    BootMeasurementChain * N :=
  let max := boot_max_entries (bc_retention c) in
  let entries :=
    if negb (max =? 0)%N && (max <=? N.of_nat (length (bc_entries c)))%N
    then drop 1 (bc_entries c) else bc_entries c in
  let prev_hash := from_option bm_content_hash GENESIS_PREV_HASH (last entries) in
  let index := N.of_nat (length entries) in
  let entry := mkBootMeasurement index prev_hash payload (replicate 32 Byte.x00) stage name note
                 timestamp_ms in
  let entry := boot_set_content_hash (BootMeasurement_recompute_hash entry) entry in
  (mkBootChain (entries ++ [entry]) (bc_retention c), index).

Fixpoint boot_verify_entries (expected_index : N) (expected_prev : list byte)
    (l : list BootMeasurement) : result unit BootChainStatus :=
  match l with
  | [] => Ok tt
  | e :: l =>
      if negb (bm_index e =? expected_index)%N then Err (BootIndexGap (bm_index e))
      else if negb (bool_decide (bm_prev_hash e = expected_prev))
        then Err (BootBrokenLink (bm_index e))
      else if negb (bool_decide (BootMeasurement_recompute_hash e = bm_content_hash e))
        then Err (BootContentMismatch (bm_index e))
      else boot_verify_entries (expected_index + 1) (bm_content_hash e) l
  end.

(** [entries.last().is_some_and(|e| e.stage == BootStage::BootComplete)]. *)
Definition ends_complete (l : list BootMeasurement) : bool :=
  from_option (λ e, bool_decide (bm_stage e = BootComplete)) false (last l).

Definition verify_chain_inner (require_complete : bool) (c : BootMeasurementChain) :
    result unit BootChainStatus :=
  let? _ := boot_verify_entries 0 GENESIS_PREV_HASH (bc_entries c) in
  if require_complete && negb (ends_complete (bc_entries c))
  then Err (MissingBootComplete (N.of_nat (length (bc_entries c) - 1)))
  else Ok tt.

Definition boot_verify_chain : BootMeasurementChain → result unit BootChainStatus :=
  verify_chain_inner true.
Definition boot_verify_chain_lenient : BootMeasurementChain → result unit BootChainStatus :=
  verify_chain_inner false.

Definition boot_prune_older_than (now_ms : N) (c : BootMeasurementChain) :
    BootMeasurementChain * nat :=
  let '(l, dropped) := chain_prune (boot_max_age_ms (bc_retention c)) now_ms (bc_entries c) in
  (mkBootChain l (bc_retention c), dropped).

(** The bytes fed to the hasher: each sorted argument and a NUL. *)
Definition cmdline_bytes (parts : list string) : list byte :=
  concat ((λ p, as_bytes p ++ [Byte.x00]) <$> parts).

Definition kernel_cmdline_digest (cmdline : string) : list byte :=
  digest256 (cmdline_bytes (merge_sort String.le (split_whitespace cmdline))).

(** ** Verification against the chain interface *)

Definition boot_fault_status (f : chain_fault) : BootChainStatus :=
  match f with
  | FaultIndex i => BootIndexGap i
  | FaultLink i => BootBrokenLink i
  | FaultContent i => BootContentMismatch i
  end.

Lemma boot_verify_walk i prev l :
  boot_verify_entries i prev l =
  match chain_walk i prev l with None => Ok tt | Some f => Err (boot_fault_status f) end.
Proof.
  revert i prev. induction l as [|e l IH]; intros i prev; simpl; [done|].
  destruct (negb (bm_index e =? i)%N); [done|].
  destruct (negb (bool_decide (bm_prev_hash e = prev))); [done|].
  destruct (negb (bool_decide (BootMeasurement_recompute_hash e = bm_content_hash e))); [done|].
  apply IH.
Qed.

Lemma boot_verify_ok i prev l : boot_verify_entries i prev l = Ok tt ↔ chain_ok i prev l.
Proof.
  rewrite boot_verify_walk, <-chain_walk_ok. by destruct (chain_walk i prev l).
Qed.

Lemma verify_lenient_ok c :
  boot_verify_chain_lenient c = Ok tt ↔ chain_ok 0 GENESIS_PREV_HASH (bc_entries c).
Proof.
  unfold boot_verify_chain_lenient, verify_chain_inner. rewrite <-boot_verify_ok.
  by destruct (boot_verify_entries _ _ _) as [[]|].
Qed.

Lemma verify_strict_ok c :
  boot_verify_chain c = Ok tt ↔
  chain_ok 0 GENESIS_PREV_HASH (bc_entries c) ∧ ends_complete (bc_entries c) = true.
Proof.
  unfold boot_verify_chain, verify_chain_inner. rewrite <-boot_verify_ok.
  destruct (boot_verify_entries _ _ _) as [[]|]; simpl; [|naive_solver].
  destruct (ends_complete (bc_entries c)); simpl; naive_solver.
Qed.

(** ** Binding *)

(** The typing of a measurement, and no NUL character in its strings. *)
Definition measurement_wf (e : BootMeasurement) : Prop :=
  (bm_index e < 2 ^ 64)%N ∧ (bm_timestamp_ms e < 2 ^ 64)%N ∧
  length (bm_prev_hash e) = 32 ∧ length (bm_payload e) = 32 ∧
  nul_free (bm_name e) ∧ nul_free (bm_note e).

Lemma BootStage_as_str_inj a b : BootStage_as_str a = BootStage_as_str b → a = b.
Proof. by destruct a, b. Qed.

Lemma BootStage_nul_free s : nul_free (BootStage_as_str s).
Proof. unfold nul_free. apply (bool_decide_unpack _). by destruct s; vm_compute. Qed.

Lemma boot_canonical_inj a b :
  measurement_wf a → measurement_wf b →
  BootMeasurement_canonical_bytes a = BootMeasurement_canonical_bytes b →
  boot_set_content_hash [] a = boot_set_content_hash [] b.
Proof.
  intros (Ha1 & Ha2 & Ha3 & Ha4 & Ha5 & Ha6) (Hb1 & Hb2 & Hb3 & Hb4 & Hb5 & Hb6) Heq.
  unfold BootMeasurement_canonical_bytes in Heq.
  apply app_inj_1 in Heq as [H1%(be_bytes_inj 8) Heq]; [|done..|by rewrite !length_be_bytes].
  apply app_inj_1 in Heq as [H2%(be_bytes_inj 8) Heq]; [|done..|by rewrite !length_be_bytes].
  apply app_inj_1 in Heq as [H3 Heq]; [|congruence].
  apply app_inj_1 in Heq as [H4 Heq]; [|congruence].
  apply nul_split in Heq as [H5%as_bytes_inj%BootStage_as_str_inj Heq];
    [|apply BootStage_nul_free..].
  apply nul_split in Heq as [H6%as_bytes_inj Heq]; [|done..].
  apply nul_split in Heq as [H7%as_bytes_inj _]; [|done..].
  unfold boot_set_content_hash. congruence.
Qed.

#[export] Instance BootMeasurement_binding : ChainBinding BootMeasurement measurement_wf.
Proof.
  intros a b Ha Hb Hha Hhb Hc. simpl in *. unfold BootMeasurement_recompute_hash in *.
  destruct (decide (BootMeasurement_canonical_bytes a = BootMeasurement_canonical_bytes b))
    as [Heq|Hne].
  - left. apply boot_canonical_inj in Heq; [|done..]. destruct a, b. simpl in *.
    unfold boot_set_content_hash in Heq. simpl in Heq. congruence.
  - right. eexists _, _. split; [exact Hne|congruence].
Qed.

(** ** The kernel command line *)

Lemma merge_sort_perm (l k : list string) :
  l ≡ₚ k → merge_sort String.le l = merge_sort String.le k.
Proof.
  intros Hp. apply (StronglySorted_unique String.le).
  - apply (StronglySorted_merge_sort String.le).
  - apply (StronglySorted_merge_sort String.le).
  - by rewrite !merge_sort_Permutation.
Qed.

Lemma cmdline_bytes_inj l k :
  Forall nul_free l → Forall nul_free k → cmdline_bytes l = cmdline_bytes k → l = k.
Proof.
  intros Hl. revert k. induction Hl as [|x l Hx Hl IH]; intros k Hk Heq.
  { destruct Hk as [|y k Hy Hk]; [done|]. exfalso. unfold cmdline_bytes in Heq. simpl in Heq.
    by destruct (as_bytes y). }
  destruct Hk as [|y k Hy Hk].
  { exfalso. unfold cmdline_bytes in Heq. simpl in Heq. by destruct (as_bytes x). }
  unfold cmdline_bytes in Heq. simpl in Heq. rewrite <-!app_assoc in Heq.
  apply nul_split in Heq as [->%as_bytes_inj Heq]; [|done..]. f_equal. by apply IH.
Qed.

(** ** Properties *)

(** While there is room under the cap, or without a cap, recording a
    measurement on a chain whose links verify appends one entry numbered by
    the old length; the links still verify, and the strict verifier accepts
    exactly when the recorded stage is the boot-complete marker. *)
Theorem boot_record_keeps_chain_valid c ts stage name note payload :
  boot_verify_chain_lenient c = Ok tt →
  boot_max_entries (bc_retention c) = 0%N ∨
    (N.of_nat (length (bc_entries c)) < boot_max_entries (bc_retention c))%N →
  let '(c', i) := BootMeasurementChain_record ts stage name note payload c in
  i = N.of_nat (length (bc_entries c)) ∧ length (bc_entries c') = S (length (bc_entries c)) ∧
  boot_verify_chain_lenient c' = Ok tt ∧
  (boot_verify_chain c' = Ok tt ↔ stage = BootComplete).
Proof.
  intros Hok%verify_lenient_ok Hroom. unfold BootMeasurementChain_record. cbn zeta.
  assert (negb (boot_max_entries (bc_retention c) =? 0)%N &&
    (boot_max_entries (bc_retention c) <=? N.of_nat (length (bc_entries c)))%N = false) as ->.
  { apply andb_false_iff. destruct Hroom as [->|Hlt]; [by left|right]. by apply N.leb_gt. }
  rewrite verify_lenient_ok, verify_strict_ok. cbn [bc_entries].
  assert (∀ e, ce_index e = N.of_nat (length (bc_entries c)) →
    ce_prev e = chain_head GENESIS_PREV_HASH (bc_entries c) → ce_hash e = ce_content e →
    chain_ok 0 GENESIS_PREV_HASH (bc_entries c ++ [e])) as Hsnoc.
  { intros e ? ? ?. apply chain_ok_app. by split_and!. }
  split_and!; [done|rewrite length_app; simpl; lia|by apply Hsnoc|].
  unfold ends_complete. rewrite last_snoc. simpl. rewrite bool_decide_eq_true.
  split; [naive_solver|]. intros ->. split; [by apply Hsnoc|done].
Qed.

(** The boot chain is binding: two chains of the same length that the
    strict verifier accepts and that end in the same digest hold the same
    measurements, or the digest function has an explicit collision. *)
Theorem boot_head_binds_chain c1 c2 :
  Forall measurement_wf (bc_entries c1) → Forall measurement_wf (bc_entries c2) →
  length (bc_entries c1) = length (bc_entries c2) →
  boot_verify_chain c1 = Ok tt → boot_verify_chain c2 = Ok tt →
  bm_content_hash <$> last (bc_entries c1) = bm_content_hash <$> last (bc_entries c2) →
  bc_entries c1 = bc_entries c2 ∨ collision.
Proof.
  intros Hw1 Hw2 Hlen [Hv1 _]%verify_strict_ok [Hv2 _]%verify_strict_ok Hlast.
  destruct (chain_binding measurement_wf _ _ _ _ _ Hw1 Hw2 Hlen Hv1 Hv2) as [[? _]|?];
    [|by left|by right].
  unfold chain_head.
  destruct (last (bc_entries c1)), (last (bc_entries c2)); by simplify_eq/=.
Qed.

(** The command-line digest does not depend on the order of the arguments
    or on the white space between them, and for arguments without NUL it
    depends on nothing less: equal digests mean the same arguments up to
    order, or an explicit collision. *)
Theorem cmdline_digest_canonical a b :
  (split_whitespace a ≡ₚ split_whitespace b → kernel_cmdline_digest a = kernel_cmdline_digest b) ∧
  (Forall nul_free (split_whitespace a) → Forall nul_free (split_whitespace b) →
   kernel_cmdline_digest a = kernel_cmdline_digest b →
   split_whitespace a ≡ₚ split_whitespace b ∨ collision).
Proof.
  split.
  - intros Hp. unfold kernel_cmdline_digest. by rewrite (merge_sort_perm _ _ Hp).
  - intros Ha Hb Heq. unfold kernel_cmdline_digest in Heq.
    set (la := merge_sort _ (split_whitespace a)) in *.
    set (lb := merge_sort _ (split_whitespace b)) in *.
    assert (la ≡ₚ split_whitespace a) as Hpa by apply merge_sort_Permutation.
    assert (lb ≡ₚ split_whitespace b) as Hpb by apply merge_sort_Permutation.
    destruct (decide (cmdline_bytes la = cmdline_bytes lb)) as [Hc|Hne]; [left|right; by eexists _, _].
    apply cmdline_bytes_inj in Hc; [|by rewrite Hpa|by rewrite Hpb].
    by rewrite <-Hpa, <-Hpb, Hc.
Qed.

End boot.

(** ** Concrete chains for the properties *)

Definition boot_toy_digest : Digest := λ m, be_bytes 32 (from_be_bytes m).

Definition example_boot_chain : BootMeasurementChain :=
  (BootMeasurementChain_record (D := boot_toy_digest) 1 BootComplete EmptyString "ok"
    (replicate 32 Byte.x01) BootMeasurementChain_default).1.

Lemma boot_record_witness :
  let '(c', i) := BootMeasurementChain_record (D := boot_toy_digest) 2 KernelModule "ext4" "n"
                    (replicate 32 Byte.x02) example_boot_chain in
  i = N.of_nat (length (bc_entries example_boot_chain)) ∧
  length (bc_entries c') = S (length (bc_entries example_boot_chain)) ∧
  boot_verify_chain_lenient (D := boot_toy_digest) c' = Ok tt ∧
  (boot_verify_chain (D := boot_toy_digest) c' = Ok tt ↔ KernelModule = BootComplete).
Proof.
  apply (boot_record_keeps_chain_valid (D := boot_toy_digest) example_boot_chain 2 KernelModule);
    [vm_compute; reflexivity|right; vm_compute; reflexivity].
Defined.

Lemma boot_head_binds_witness :
  bc_entries example_boot_chain = bc_entries example_boot_chain ∨
  collision (H := boot_toy_digest).
Proof.
  assert (Forall measurement_wf (bc_entries example_boot_chain)) as Hwf.
  { repeat constructor; try (vm_compute; reflexivity);
      apply (bool_decide_unpack _); by vm_compute. }
  apply (boot_head_binds_chain (D := boot_toy_digest));
    [done|done|done|vm_compute; reflexivity..|done].
Defined.
