(* ===== verification/CoreTypes.v ===== *)
(** * The shared core types

    Models core/aether-core/src: error.rs, manifest.rs, types.rs,
    capability.rs, identity.rs and the request types of ipc.rs. *)
From S2P Require Import Prelude RustStd.
From Stdlib Require Import Ascii.

(** ** error.rs *)

Inductive ErrorKind :=
| EkIo | EkPermissionDenied | EkUnauthorized | EkNotCapable | EkPathTraversal
| EkSymlinkEscape | EkResourceExhausted | EkNotFound | EkInvalidInput
| EkServiceFailed | EkInternal | EkAudit | EkConfig | EkOther.

#[export] Instance ErrorKind_eq_dec : EqDecision ErrorKind.
Proof. solve_decision. Defined.

Definition ErrorKind_display (k : ErrorKind) : string :=
  match k with
  | EkIo => "IO"
  | EkPermissionDenied => "PERMISSION_DENIED"
  | EkUnauthorized => "UNAUTHORIZED"
  | EkNotCapable => "NOT_CAPABLE"
  | EkPathTraversal => "PATH_TRAVERSAL"
  | EkSymlinkEscape => "SYMLINK_ESCAPE"
  | EkResourceExhausted => "RESOURCE_EXHAUSTED"
  | EkNotFound => "NOT_FOUND"
  | EkInvalidInput => "INVALID_INPUT"
  | EkServiceFailed => "SERVICE_FAILED"
  | EkInternal => "INTERNAL"
  | EkAudit => "AUDIT"
  | EkConfig => "CONFIG"
  | EkOther => "OTHER"
  end.

Record AetherError := mkAetherError {
  err_code : ErrorKind;
  err_message : string;
  err_details : list (string * string);
}.

#[export] Instance AetherError_eq_dec : EqDecision AetherError.
Proof. solve_decision. Defined.

Definition AetherError_new (code : ErrorKind) (message : string) : AetherError :=
  mkAetherError code message [].

Definition AetherError_with_detail (key value : string) (e : AetherError) : AetherError :=
  mkAetherError (err_code e) (err_message e) (err_details e ++ [(key, value)]).

Definition AetherError_permission_denied (m : string) := AetherError_new EkPermissionDenied m.
Definition AetherError_unauthorized (m : string) := AetherError_new EkUnauthorized m.
Definition AetherError_not_capable (caps required : string) :=
  AetherError_new EkNotCapable
    ("Missing capability " +:+ required +:+ "; required: [" +:+ caps +:+ "]").
Definition AetherError_path_traversal (path : string) :=
  AetherError_new EkPathTraversal ("Path traversal detected: " +:+ path).
Definition AetherError_symlink_escape (path target : string) :=
  AetherError_new EkSymlinkEscape
    ("Symlink escape detected: " +:+ path +:+ " -> " +:+ target).
Definition AetherError_resource_exhausted (kind : string) :=
  AetherError_new EkResourceExhausted ("Resource exhausted: " +:+ kind).
Definition AetherError_not_found (path : string) :=
  AetherError_new EkNotFound ("Path not found: " +:+ path).
Definition AetherError_invalid_input (m : string) := AetherError_new EkInvalidInput m.
Definition AetherError_service_failed (service reason : string) :=
  AetherError_new EkServiceFailed ("Service " +:+ service +:+ " failed: " +:+ reason).
Definition AetherError_internal (m : string) := AetherError_new EkInternal m.

Definition AetherError_display (e : AetherError) : string :=
  foldl (λ s kv, s +:+ " | " +:+ kv.1 +:+ "=" +:+ kv.2)
    ("[" +:+ ErrorKind_display (err_code e) +:+ "] " +:+ err_message e) (err_details e).

(** ** manifest.rs *)

Definition MANIFEST_SCHEMA_VERSION : string := "1".

Inductive ServiceType := StInternal | StProcess.
Inductive RestartPolicy := RpNever | RpOnFailure | RpAlways.
Inductive SandboxProfile := SbInternal | SbSystemService | SbRestrictedService.
Inductive PermissionProfile := PpSystemInternal | PpServiceRuntime | PpDeveloperControl.
Inductive IpcAccessMode := IaLocalPrivate | IaLocalPublic | IaRemote.

#[export] Instance ServiceType_eq_dec : EqDecision ServiceType.
Proof. solve_decision. Defined.
#[export] Instance RestartPolicy_eq_dec : EqDecision RestartPolicy.
Proof. solve_decision. Defined.
#[export] Instance SandboxProfile_eq_dec : EqDecision SandboxProfile.
Proof. solve_decision. Defined.
#[export] Instance PermissionProfile_eq_dec : EqDecision PermissionProfile.
Proof. solve_decision. Defined.
#[export] Instance IpcAccessMode_eq_dec : EqDecision IpcAccessMode.
Proof. solve_decision. Defined.

(** An [f64], which the code only stores, is its 64-bit pattern. *)
Record ServiceManifest := mkServiceManifest {
  schema_version : string;
  service_id : string;
  manifest_name : string;
  manifest_version : string;
  description : string;
  service_type : ServiceType;
  command : option string;
  dependencies : list string;
  startup_priority : N;
  restart_policy : RestartPolicy;
  restart_limit : N;
  restart_backoff_ms : N;
  health_check : option string;
  config_path : option string;
  security_identity : string;
  ipc_endpoints : list string;
  capabilities : list string;
  resource_cpu_weight : N;
  resource_memory_max_kib : N;
  resource_process_limit : option N;
  resource_io_weight : N;
  requires_root : bool;
  sandbox_profile : SandboxProfile;
  permission_profile : PermissionProfile;
  ipc_access : IpcAccessMode;
  shutdown_timeout_ms : N;
}.

#[export] Instance ServiceManifest_eq_dec : EqDecision ServiceManifest.
Proof. solve_decision. Defined.

Definition ServiceManifest_validate (m : ServiceManifest) : result unit AetherError :=
  if negb (bool_decide (schema_version m = MANIFEST_SCHEMA_VERSION))
  then Err (AetherError_new EkInvalidInput
              ("Unsupported manifest schema version: " +:+ schema_version m))
  else if str_is_empty (service_id m)
  then Err (AetherError_new EkInvalidInput "service_id is required")
  else if str_is_empty (manifest_name m)
  then Err (AetherError_new EkInvalidInput "name is required")
  else if bool_decide (service_type m = StProcess) && negb (bool_decide (is_Some (command m)))
  then Err (AetherError_new EkInvalidInput "command is required for process services")
  else Ok tt.

(** ** types.rs *)

Inductive ServiceStatus := SsStarting | SsRunning | SsStopped | SsFailed | SsRecovering.
Inductive HealthStatus := Healthy | Degraded | Unhealthy.

#[export] Instance ServiceStatus_eq_dec : EqDecision ServiceStatus.
Proof. solve_decision. Defined.
#[export] Instance HealthStatus_eq_dec : EqDecision HealthStatus.
Proof. solve_decision. Defined.

Definition ServiceStatus_display (s : ServiceStatus) : string :=
  match s with
  | SsStarting => "STARTING"
  | SsRunning => "RUNNING"
  | SsStopped => "STOPPED"
  | SsFailed => "FAILED"
  | SsRecovering => "RECOVERING"
  end.

Definition HealthStatus_display (h : HealthStatus) : string :=
  match h with
  | Healthy => "HEALTHY"
  | Degraded => "DEGRADED"
  | Unhealthy => "UNHEALTHY"
  end.

Record ServiceHealth := mkServiceHealth {
  sh_service_id : string;
  sh_status : ServiceStatus;
  sh_health : HealthStatus;
  sh_pid : option N;
  sh_restarts : N;
  sh_failures : N;
  sh_uptime_ms : N;
}.

Record SystemStatus := mkSystemStatus {
  sys_uptime_ms : N;
  sys_services : list ServiceHealth;
  sys_overall_health : HealthStatus;
}.

(** [SystemStatus::overall_health]. *)
Definition SystemStatus_overall_health (s : SystemStatus) : HealthStatus :=
  if forallb (λ h, bool_decide (sh_health h = Healthy)) (sys_services s)
  then Healthy else Degraded.

(** ** capability.rs *)

Inductive CapabilityDomain :=
| CdFilesystem | CdNetwork | CdProcess | CdStorage | CdSystem | CdAudit | CdIdentity
| CdApplication.

Definition CapabilityDomain_display (d : CapabilityDomain) : string :=
  match d with
  | CdFilesystem => "filesystem"
  | CdNetwork => "network"
  | CdProcess => "process"
  | CdStorage => "storage"
  | CdSystem => "system"
  | CdAudit => "audit"
  | CdIdentity => "identity"
  | CdApplication => "application"
  end.

Inductive RiskLevel := RlLow | RlMedium | RlHigh | RlCritical.

#[export] Instance RiskLevel_eq_dec : EqDecision RiskLevel.
Proof. solve_decision. Defined.

(** The derived [PartialOrd]: declaration order. *)
Definition RiskLevel_rank (r : RiskLevel) : nat :=
  match r with RlLow => 0 | RlMedium => 1 | RlHigh => 2 | RlCritical => 3 end.
Definition RiskLevel_ge (a b : RiskLevel) : bool := (RiskLevel_rank b <=? RiskLevel_rank a)%nat.

Record Capability := mkCapability {
  cap_domain : CapabilityDomain;
  cap_name : string;
  cap_risk_level : RiskLevel;
}.

Definition Capability_new (d : CapabilityDomain) (name : string) (r : RiskLevel) : Capability :=
  mkCapability d name r.

Definition qualified_name (c : Capability) : string :=
  CapabilityDomain_display (cap_domain c) +:+ "." +:+ cap_name c.

Definition Capability_is_required (c : Capability) : bool :=
  RiskLevel_ge (cap_risk_level c) RlHigh.
Definition Capability_is_destructive (c : Capability) : bool :=
  RiskLevel_ge (cap_risk_level c) RlCritical.

Definition has_capability (granted : list Capability) (required : Capability) : bool :=
  existsb (λ c, bool_decide (qualified_name c = qualified_name required)) granted.

Definition has_all_capabilities (granted required : list Capability) : bool :=
  forallb (λ r, has_capability granted r) required.

(** ** identity.rs *)

Record ComponentId := mkComponentId { component_id_str : string }.

Definition component_id_char (c : ascii) : bool :=
  is_ascii_lowercase c || is_ascii_digit c
  || Ascii.eqb c "-" || Ascii.eqb c "_" || Ascii.eqb c ".".

Definition ComponentId_new (raw : string) : result ComponentId AetherError :=
  if str_is_empty raw
  then Err (AetherError_invalid_input "component id must not be empty")
  else if negb (str_all component_id_char raw)
  then Err (AetherError_invalid_input
              ("component id '" +:+ raw +:+
               "' contains invalid characters; allowed: [a-z0-9._-]"))
  else Ok (mkComponentId raw).

Record AetherIdentity := mkAetherIdentity {
  ident_name : string;
  ident_scope : string;
  ident_permissions : list string;
  ident_is_root : bool;
}.

Definition AetherIdentity_new (name scope : string) : AetherIdentity :=
  mkAetherIdentity name scope [] false.
Definition with_permission (p : string) (i : AetherIdentity) : AetherIdentity :=
  mkAetherIdentity (ident_name i) (ident_scope i) (ident_permissions i ++ [p]) (ident_is_root i).
Definition with_root (i : AetherIdentity) : AetherIdentity :=
  mkAetherIdentity (ident_name i) (ident_scope i) (ident_permissions i) true.
Definition has_permission (i : AetherIdentity) (p : string) : bool :=
  existsb (λ q, bool_decide (q = p)) (ident_permissions i).
Definition AetherIdentity_verify (i : AetherIdentity) (p : string) : result unit AetherError :=
  if negb (has_permission i p)
  then Err (AetherError_unauthorized
              ("Identity '" +:+ ident_name i +:+ "' lacks permission '" +:+ p +:+ "'"))
  else Ok tt.
Definition AetherIdentity_display_string (i : AetherIdentity) : string :=
  let s := ident_name i +:+ ":" +:+ ident_scope i in
  if ident_is_root i then s +:+ "(root)" else s.

(** ** ipc.rs *)

Inductive ActorTrust := Trusted | Untrusted.

#[export] Instance ActorTrust_eq_dec : EqDecision ActorTrust.
Proof. solve_decision. Defined.

Definition default_actor_trust : ActorTrust := Trusted.

Record IpcRequest {J : Type} := mkIpcRequest {
  req_service_id : string;
  req_command : string;
  req_parameters : J;
  req_actor_trust : ActorTrust;
}.
Arguments IpcRequest J : clear implicits.
Arguments mkIpcRequest {J}.

Record IpcError := mkIpcError { ipc_code : string; ipc_message : string }.

Record IpcResponse {Json : Type} := mkIpcResponse {
  resp_ok : bool;
  resp_command : string;
  resp_result : Json;
  resp_error : option IpcError;
}.
Arguments IpcResponse Json : clear implicits.
Arguments mkIpcResponse {Json}.

Definition IpcResponse_ok {Json} (cmd : string) (r : Json) : IpcResponse Json :=
  mkIpcResponse true cmd r None.
(** [null] is [serde_json::Value::Null]. *)
Definition IpcResponse_err {Json} (null : Json) (cmd : string) (e : IpcError) : IpcResponse Json :=
  mkIpcResponse false cmd null (Some e).
Definition IpcError_from (e : AetherError) : IpcError :=
  mkIpcError (ErrorKind_display (err_code e)) (err_message e).
