(* ===== verification/DepGraph.v ===== *)
(** * Service dependency resolution

    Models system/aether-system-core/src/graph.rs.  The result [None] stands
    for running out of fuel or for the panic of an indexing [map[id]]; the
    theorems show that neither happens. *)
From S2P Require Import Prelude RustStd CoreTypes.
From stdpp Require Import relations.

Record DependencyGraph := mkDependencyGraph {
  dg_manifests : gmap string ServiceManifest;
  dg_start_order : list string;
}.

Inductive GraphError :=
| MissingDependency (service dependency : string)
| CircularDependency (cycle : list string)
| DuplicateServiceId (service : string).

Definition GraphError_display (e : GraphError) : string :=
  match e with
  | MissingDependency service dependency =>
      "service '" +:+ service +:+ "' depends on missing service '" +:+ dependency +:+ "'"
  | CircularDependency cycle => "circular dependency detected: " +:+ str_join " -> " cycle
  | DuplicateServiceId service => "duplicate service id '" +:+ service +:+ "'"
  end.

(** The loop that fills the map, refusing a second manifest with the same id. *)
Fixpoint build_map (manifests : list ServiceManifest) (map : gmap string ServiceManifest) :
    result (gmap string ServiceManifest) GraphError :=
  match manifests with
  | [] => Ok map
  | m :: manifests =>
      match map !! service_id m with
      | Some _ => Err (DuplicateServiceId (service_id m))
      | None => build_map manifests (<[service_id m := m]> map)
      end
  end.

(** The first dependency that is not in the map, in iteration order. *)
Fixpoint find_missing (map : gmap string ServiceManifest) (l : list ServiceManifest) :
    option GraphError :=
  match l with
  | [] => None
  | m :: l =>
      match find_b (λ d, negb (bool_decide (is_Some (map !! d)))) (dependencies m) with
      | Some d => Some (MissingDependency (service_id m) d)
      | None => find_missing map l
      end
  end.

Definition initial_indegree (map : gmap string ServiceManifest) : gmap string nat :=
  (λ m, length (List.filter (λ d, bool_decide (is_Some (map !! d))) (dependencies m))) <$> map.

(** [m.entry(dep).or_default().push(id)]. *)
Definition push_dependent (id : string) (m : gmap string (list string)) (dep : string) :
    gmap string (list string) :=
  <[dep := default [] (m !! dep) ++ [id]]> m.

Definition build_dependents (l : list ServiceManifest) : gmap string (list string) :=
  foldl (λ m mf, foldl (push_dependent (service_id mf)) m (dependencies mf)) ∅ l.

(** The sort key [(startup_priority, service_id)]. *)
Definition manifest_le (a b : ServiceManifest) : Prop :=
  (startup_priority a < startup_priority b)%N ∨
  (startup_priority a = startup_priority b ∧ String.le (service_id a) (service_id b)).

#[export] Instance manifest_le_dec : RelDecision manifest_le.
Proof. unfold manifest_le. solve_decision. Defined.

Definition sort_manifests (l : list ServiceManifest) : list ServiceManifest :=
  merge_sort manifest_le l.

(** The services with no dependency, in key order. *)
Definition initially_ready (map : gmap string ServiceManifest) (indegree : gmap string nat) :
    list ServiceManifest :=
  omap (λ id, if bool_decide (indegree !! id = Some 0) then map !! id else None)
    (btree_keys indegree).

(** The loop over the dependents of [id]. *)
Fixpoint unlock (map : gmap string ServiceManifest) (id : string) (children : list string)
    (indegree : gmap string nat) (unlocked : list ServiceManifest) :
    option (result (gmap string nat * list ServiceManifest) GraphError) :=
  match children with
  | [] => Some (Ok (indegree, unlocked))
  | child :: children =>
      match indegree !! child with
      | None => Some (Err (MissingDependency id child))
      | Some n =>
          let entry := n - 1 in
          let indegree := <[child := entry]> indegree in
          if (entry =? 0)%nat
          then m ← map !! child; unlock map id children indegree (unlocked ++ [m])
          else unlock map id children indegree unlocked
      end
  end.

(** [while let Some(id) = queue.pop_front()]. *)
Fixpoint kahn_loop (fuel : nat) (map : gmap string ServiceManifest)
    (dependents : gmap string (list string)) (indegree : gmap string nat)
    (queue start_order : list string) : option (result (list string) GraphError) :=
  match queue with
  | [] => Some (Ok start_order)
  | id :: queue =>
      match fuel with
      | 0 => None
      | S fuel =>
          let start_order := start_order ++ [id] in
          match dependents !! id with
          | None => kahn_loop fuel map dependents indegree queue start_order
          | Some children =>
              r ← unlock map id children indegree [];
              match r with
              | Err e => Some (Err e)
              | Ok (indegree, unlocked) =>
                  kahn_loop fuel map dependents indegree
                    (queue ++ (service_id <$> sort_manifests unlocked)) start_order
              end
          end
      end
  end.

(** [DependencyGraph::new]. *)
Definition DependencyGraph_new (manifests : list ServiceManifest) :
    option (result DependencyGraph GraphError) :=
  match build_map manifests ∅ with
  | Err e => Some (Err e)
  | Ok map =>
      match find_missing map (btree_values map) with
      | Some e => Some (Err e)
      | None =>
          let indegree := initial_indegree map in
          let dependents := build_dependents (btree_values map) in
          let ready := sort_manifests (initially_ready map indegree) in
          r ← kahn_loop (size map) map dependents indegree (service_id <$> ready) [];
          match r with
          | Err e => Some (Err e)
          | Ok start_order =>
              if negb (length start_order =? size map)%nat
              then
                let remaining :=
                  List.filter (λ id, negb (bool_decide (id ∈ start_order))) (btree_keys map) in
                Some (Err (CircularDependency (merge_sort String.le remaining)))
              else Some (Ok (mkDependencyGraph map start_order))
          end
      end
  end.

Definition stop_order (g : DependencyGraph) : list string := reverse (dg_start_order g).

Definition dg_manifest (g : DependencyGraph) (id : string) : option ServiceManifest :=
  dg_manifests g !! id.

Definition dg_manifest_list (g : DependencyGraph) : list ServiceManifest :=
  btree_values (dg_manifests g).

Definition dg_len (g : DependencyGraph) : nat := size (dg_manifests g).

Definition GraphError_into (e : GraphError) : AetherError :=
  AetherError_new EkInvalidInput (GraphError_display e).

(** A manifest with the given id, dependencies, priority and restart limit. *)
Definition simple_manifest (id : string) (deps : list string) (priority limit : N) :
    ServiceManifest :=
  mkServiceManifest "1" id id "1.0.0" id StInternal None deps priority RpOnFailure limit 0
    None None id [] [] 0 0 None 0 false SbSystemService PpServiceRuntime IaLocalPrivate 1000.

(** * Correctness of dependency resolution

    [DependencyGraph::new] always returns, accepts exactly the sets of
    manifests with unique ids, existing dependencies and no cycle, and orders
    every service after its dependencies. *)

(** ** The graph of a set of manifests *)

(** The map is keyed by service id. *)
Definition keyed (M : gmap string ServiceManifest) : Prop :=
  ∀ id m, M !! id = Some m → service_id m = id.

(** Every dependency is a service. *)
Definition closed (M : gmap string ServiceManifest) : Prop :=
  ∀ id m d, M !! id = Some m → d ∈ dependencies m → is_Some (M !! d).

(** [a] depends directly on [b]. *)
Definition dep_edge (M : gmap string ServiceManifest) (a b : string) : Prop :=
  ∃ m, M !! a = Some m ∧ b ∈ dependencies m.

(** Each service comes after everything it depends on. *)
Definition topological (M : gmap string ServiceManifest) (order : list string) : Prop :=
  ∀ pre id post, order = pre ++ id :: post → ∀ d, dep_edge M id d → d ∈ pre.

Definition manifest_map (l : list ServiceManifest) : gmap string ServiceManifest :=
  list_to_map ((λ m, (service_id m, m)) <$> l).

(** ** Building the map *)

Lemma build_map_Ok l m0 M :
  build_map l m0 = Ok M →
  NoDup (service_id <$> l) ∧ (∀ m, m ∈ l → m0 !! service_id m = None) ∧
  ∀ id, M !! id = match find_b (λ m, bool_decide (service_id m = id)) l with
                  | Some m => Some m | None => m0 !! id end.
Proof.
  revert m0. induction l as [|m l IH]; intros m0; simpl.
  { intros [= ->]. split_and!; [constructor|set_solver|done]. }
  destruct (m0 !! service_id m) eqn:Hm; [done|]. intros (Hnd & Hfresh & Hlook)%IH.
  split_and!.
  - apply NoDup_cons. split; [|done]. intros (m' & Heq & Hin)%list_elem_of_fmap.
    specialize (Hfresh m' Hin). rewrite <-Heq, lookup_insert_eq in Hfresh. done.
  - intros m' [->|Hin]%elem_of_cons; [done|]. specialize (Hfresh m' Hin).
    by apply lookup_insert_None in Hfresh as [? _].
  - intros id. rewrite Hlook. destruct (bool_decide_reflect (service_id m = id)) as [<-|Hne].
    + destruct (find_b _ l) as [m'|] eqn:Hf; [|by rewrite lookup_insert_eq].
      apply find_b_Some in Hf as [Hin Hid%bool_decide_eq_true_1].
      specialize (Hfresh m' Hin). rewrite Hid, lookup_insert_eq in Hfresh. done.
    + destruct (find_b _ l); [done|]. by rewrite lookup_insert_ne.
Qed.

Lemma build_map_Err l m0 e :
  build_map l m0 = Err e →
  ∃ pre m post, l = pre ++ m :: post ∧ e = DuplicateServiceId (service_id m) ∧
    (service_id m ∈ service_id <$> pre ∨ is_Some (m0 !! service_id m)).
Proof.
  revert m0. induction l as [|m l IH]; intros m0; simpl; [done|].
  destruct (m0 !! service_id m) as [m'|] eqn:Hm.
  - intros [= <-]. exists [], m, l. split_and!; [done|done|right]. by rewrite Hm.
  - intros (pre & m' & post & -> & -> & Hor)%IH. exists (m :: pre), m', post.
    split_and!; [done|done|]. destruct Hor as [Hin|His]; [left; set_solver|].
    destruct (decide (service_id m = service_id m')) as [Heq|Hne].
    + left. rewrite fmap_cons, Heq. left.
    + right. by rewrite lookup_insert_ne in His.
Qed.

Lemma manifest_map_lookup l id : NoDup (service_id <$> l) →
  manifest_map l !! id = find_b (λ m, bool_decide (service_id m = id)) l.
Proof.
  unfold manifest_map. induction l as [|m l IH]; intros Hnd; [done|].
  rewrite fmap_cons in Hnd. apply NoDup_cons in Hnd as [Hni Hnd].
  cbn [fmap list_fmap list_to_map foldr curry]. simpl.
  destruct (bool_decide_reflect (service_id m = id)) as [<-|Hne].
  - by rewrite lookup_insert_eq.
  - rewrite lookup_insert_ne by done. by apply IH.
Qed.

Lemma build_map_new l :
  (∃ s, build_map l ∅ = Err (DuplicateServiceId s) ∧ 2 ≤ occ s (service_id <$> l)) ∨
  (NoDup (service_id <$> l) ∧ build_map l ∅ = Ok (manifest_map l)).
Proof.
  destruct (build_map l ∅) as [M|e] eqn:Hb.
  - right. apply build_map_Ok in Hb as (Hnd & _ & Hlook). split; [done|]. f_equal.
    apply map_eq. intros id. rewrite Hlook, manifest_map_lookup by done.
    by destruct (find_b _ l).
  - left. apply build_map_Err in Hb as (pre & m & post & -> & -> & [Hin|[? H]]); [|done].
    exists (service_id m). split; [done|]. rewrite fmap_app, fmap_cons, occ_app, occ_cons.
    rewrite decide_True by done. apply occ_pos in Hin. lia.
Qed.

Lemma manifest_map_keyed l : NoDup (service_id <$> l) → keyed (manifest_map l).
Proof.
  intros Hnd id m. rewrite manifest_map_lookup by done.
  intros [_ H%bool_decide_eq_true_1]%find_b_Some. done.
Qed.

Lemma manifest_map_dom l id : NoDup (service_id <$> l) →
  is_Some (manifest_map l !! id) ↔ id ∈ service_id <$> l.
Proof.
  intros Hnd. rewrite manifest_map_lookup by done. split.
  - intros [m [Hin H%bool_decide_eq_true_1]%find_b_Some]. subst. apply list_elem_of_fmap. eauto.
  - intros (m & -> & Hin)%list_elem_of_fmap.
    destruct (find_b _ l) as [m'|] eqn:Hf; [by eexists|].
    pose proof (proj1 (find_b_None _ _) Hf m Hin) as Hb. by apply bool_decide_eq_false_1 in Hb.
Qed.

(** ** The dependency check *)

Lemma find_missing_None M l :
  find_missing M l = None ↔ ∀ m d, m ∈ l → d ∈ dependencies m → is_Some (M !! d).
Proof.
  induction l as [|m l IH]; simpl; [split; [set_solver|done]|].
  destruct (find_b _ (dependencies m)) as [d|] eqn:Hf.
  - split; [done|]. apply find_b_Some in Hf as [Hd Hb%negb_true_iff%bool_decide_eq_false_1].
    intros H. exfalso. apply Hb. by apply (H m d); [left|].
  - rewrite IH. pose proof (proj1 (find_b_None _ _) Hf) as Hall. split.
    + intros H m' d [->|Hin]%elem_of_cons Hd; [|by eapply H].
      specialize (Hall d Hd). by apply negb_false_iff, bool_decide_eq_true_1 in Hall.
    + intros H m' d Hin Hd. apply (H m' d); [by right|done].
Qed.

Lemma find_missing_Some M l e : find_missing M l = Some e →
  ∃ m d, e = MissingDependency (service_id m) d ∧ m ∈ l ∧ d ∈ dependencies m ∧ M !! d = None.
Proof.
  induction l as [|m l IH]; simpl; [done|].
  destruct (find_b _ (dependencies m)) as [d|] eqn:Hf.
  - intros [= <-]. apply find_b_Some in Hf as [Hd Hb%negb_true_iff%bool_decide_eq_false_1].
    exists m, d. split_and!; [done|left|done|]. by apply eq_None_not_Some.
  - intros (m' & d & -> & Hin & ?)%IH. exists m', d. split_and!; naive_solver set_solver.
Qed.

(** ** The table of dependents *)

Lemma push_dependents_occ id0 ds m x id :
  occ id (default [] (foldl (push_dependent id0) m ds !! x)) =
  occ id (default [] (m !! x)) + if decide (id = id0) then occ x ds else 0.
Proof.
  revert m. induction ds as [|d ds IH]; intros m; simpl;
    [case_decide; rewrite ?occ_nil; lia|].
  rewrite IH. unfold push_dependent. rewrite occ_cons.
  destruct (decide (d = x)) as [->|Hne].
  - rewrite lookup_insert_eq. simpl. rewrite occ_app, occ_cons.
    rewrite occ_nil. destruct (decide (id = id0)) as [->|].
    + rewrite decide_True by done. lia.
    + rewrite decide_False by done. lia.
  - rewrite lookup_insert_ne by done. case_decide; lia.
Qed.

(** How often service [id] is listed as a dependent of [x]. *)
Definition listed (l : list ServiceManifest) (id x : string) : nat :=
  sum_list_with (λ m, if decide (id = service_id m) then occ x (dependencies m) else 0) l.

Lemma build_dependents_occ l x id :
  occ id (default [] (build_dependents l !! x)) = listed l id x.
Proof.
  unfold build_dependents, listed.
  assert (∀ m, occ id (default [] (foldl (λ m mf, foldl (push_dependent (service_id mf)) m
      (dependencies mf)) m l !! x)) = occ id (default [] (m !! x)) +
      sum_list_with (λ m, if decide (id = service_id m) then occ x (dependencies m) else 0) l) as H.
  { induction l as [|mf l IH]; intros m; simpl; [lia|]. rewrite IH, push_dependents_occ. lia. }
  by rewrite H, lookup_empty.
Qed.

Lemma listed_absent l id x : id ∉ service_id <$> l → listed l id x = 0.
Proof.
  induction l as [|m l IH]; [done|]. rewrite fmap_cons, not_elem_of_cons. intros [Hne Hni].
  unfold listed. simpl. rewrite decide_False by done. by apply IH.
Qed.

Lemma listed_present l m x : NoDup (service_id <$> l) → m ∈ l →
  listed l (service_id m) x = occ x (dependencies m).
Proof.
  induction l as [|m' l IH]; [by intros _ ?%not_elem_of_nil|].
  rewrite fmap_cons, NoDup_cons. intros [Hni Hnd] [->|Hin]%elem_of_cons.
  - unfold listed. simpl. rewrite decide_True by done. fold (listed l (service_id m') x).
    rewrite listed_absent by done. lia.
  - unfold listed. simpl. rewrite decide_False.
    + fold (listed l (service_id m) x). by rewrite IH.
    + intros Heq. apply Hni. rewrite <-Heq. apply list_elem_of_fmap. eauto.
Qed.

Lemma btree_values_ids M : keyed M → service_id <$> btree_values M = btree_keys M.
Proof.
  intros Hk. unfold btree_values.
  assert (∀ k, k ∈ btree_keys M → is_Some (M !! k)) as Hall by (intros k; apply elem_of_btree_keys).
  induction (btree_keys M) as [|k ks IH]; [done|].
  destruct (Hall k) as [m Hm]; [left|].
  assert (omap (λ k, M !! k) (k :: ks) = m :: omap (λ k, M !! k) ks) as ->
    by (simpl; by rewrite Hm).
  rewrite fmap_cons, (Hk _ _ Hm), IH; [done|]. intros k' Hk'. apply Hall. by right.
Qed.

(** The dependents of [x] in the map. *)
Definition children (M : gmap string ServiceManifest) (x : string) : list string :=
  default [] (build_dependents (btree_values M) !! x).

Lemma children_occ M x id m : keyed M → M !! id = Some m →
  occ id (children M x) = occ x (dependencies m).
Proof.
  intros Hk Hm. unfold children. rewrite build_dependents_occ.
  rewrite <-(Hk _ _ Hm) at 1. apply listed_present.
  - rewrite btree_values_ids by done. apply NoDup_btree_keys.
  - apply elem_of_btree_values. eauto.
Qed.

Lemma children_dom M x id : keyed M → id ∈ children M x → is_Some (M !! id).
Proof.
  intros Hk Hin%occ_pos. unfold children in Hin. rewrite build_dependents_occ in Hin.
  apply elem_of_btree_keys. rewrite <-btree_values_ids by done.
  destruct (decide (id ∈ service_id <$> btree_values M)); [done|].
  rewrite listed_absent in Hin by done. lia.
Qed.

(** ** Unlocking the dependents of a started service *)

Lemma unlock_spec M x cs I acc : keyed M →
  (∀ c, c ∈ cs → is_Some (M !! c) ∧ ∃ n, I !! c = Some n ∧ occ c cs ≤ n) →
  ∃ I' ms, unlock M x cs I acc = Some (Ok (I', acc ++ ms)) ∧
    (∀ c, I' !! c = (λ n, n - occ c cs) <$> I !! c) ∧
    NoDup (service_id <$> ms) ∧
    (∀ c, c ∈ service_id <$> ms ↔ c ∈ cs ∧ I !! c = Some (occ c cs)).
Proof.
  intros Hk. revert I acc. induction cs as [|c cs IH]; intros I acc Hcs; simpl.
  { exists I, []. rewrite app_nil_r. split_and!; [done| |constructor|set_solver].
    intros c. destruct (I !! c) eqn:Hc; rewrite ?Hc; simpl; [|done]. f_equal. unfold occ. simpl. lia. }
  destruct (Hcs c) as ([m Hm] & n & Hn & Hocc); [left|]. rewrite Hn.
  rewrite occ_cons, decide_True in Hocc by done.
  assert (∀ c', c' ∈ cs → is_Some (M !! c') ∧
    ∃ n', <[c := n - 1]> I !! c' = Some n' ∧ occ c' cs ≤ n') as Hcs'.
  { intros c' Hc'. destruct (Hcs c') as (HM & n' & Hn' & Hle); [by right|]. split; [done|].
    rewrite occ_cons in Hle. destruct (decide (c = c')) as [<-|Hne].
    - rewrite lookup_insert_eq. exists (n - 1). split; [done|]. simplify_eq. lia.
    - rewrite lookup_insert_ne by done. exists n'. split; [done|lia]. }
  assert (∀ c', (λ k, k - occ c' cs) <$> <[c := n - 1]> I !! c' =
    (λ k, k - occ c' (c :: cs)) <$> I !! c') as Hshift.
  { intros c'. rewrite occ_cons. destruct (decide (c = c')) as [<-|Hne].
    - rewrite lookup_insert_eq, Hn. simpl. f_equal. lia.
    - by rewrite lookup_insert_ne. }
  destruct (Nat.eqb_spec (n - 1) 0) as [Hz|Hnz].
  - rewrite Hm. simpl. destruct (IH _ (acc ++ [m]) Hcs') as (I' & ms & -> & HI & Hnd & Hms).
    assert (occ c cs = 0) as Hc0 by lia. assert (c ∉ cs) as Hnin by (rewrite <-occ_pos; lia).
    exists I', (m :: ms). rewrite <-app_assoc, fmap_cons, (Hk _ _ Hm).
    split_and!; [done|intros c'; by rewrite HI, Hshift| |].
    + apply NoDup_cons. split; [|done]. rewrite Hms. naive_solver.
    + intros c'. rewrite elem_of_cons, Hms, occ_cons, elem_of_cons.
      destruct (decide (c = c')) as [<-|Hne].
      * rewrite Hc0, Hn. split; [|naive_solver]. intros _. split; [by left|]. f_equal. lia.
      * rewrite lookup_insert_ne by done. naive_solver.
  - destruct (IH _ acc Hcs') as (I' & ms & -> & HI & Hnd & Hms).
    exists I', ms. split_and!; [done|intros c'; by rewrite HI, Hshift|done|].
    intros c'. rewrite Hms, occ_cons, elem_of_cons.
    destruct (decide (c = c')) as [<-|Hne].
    + rewrite lookup_insert_eq, Hn. rewrite <-occ_pos. split.
      * intros [? [= ?]]. split; [by left|]. f_equal. lia.
      * intros [_ [= ?]]. split; [lia|]. f_equal. lia.
    + rewrite lookup_insert_ne by done. naive_solver.
Qed.

(** ** The invariant of the main loop *)

(** The dependencies that are not started yet, with repetitions. *)
Definition pending (O deps : list string) : nat :=
  length (List.filter (λ d, negb (bool_decide (d ∈ O))) deps).

Lemma pending_snoc O x deps : x ∉ O → pending O deps = pending (O ++ [x]) deps + occ x deps.
Proof.
  intros Hx. unfold pending. induction deps as [|d deps IH]; [done|]. rewrite occ_cons. simpl.
  destruct (decide (d = x)) as [->|Hne].
  - rewrite (bool_decide_false (x ∈ O)) by done.
    rewrite (bool_decide_true (x ∈ O ++ [x])) by set_solver. simpl. lia.
  - rewrite (bool_decide_ext (d ∈ O ++ [x]) (d ∈ O)) by set_solver.
    destruct (bool_decide (d ∈ O)); simpl; lia.
Qed.

Lemma pending_0 O deps : pending O deps = 0 ↔ ∀ d, d ∈ deps → d ∈ O.
Proof.
  unfold pending. induction deps as [|d deps IH]; [split; [set_solver|done]|]. simpl.
  destruct (bool_decide_reflect (d ∈ O)); simpl.
  - rewrite IH. set_solver.
  - split; [done|]. intros H. exfalso. set_solver.
Qed.

Record kahn_inv (M : gmap string ServiceManifest) (I : gmap string nat) (Q O : list string) : Prop := {
  inv_nodup : NoDup (O ++ Q);
  inv_deg id m : M !! id = Some m → I !! id = Some (pending O (dependencies m));
  inv_queue id m : M !! id = Some m → id ∈ O ++ Q ↔ ∀ d, d ∈ dependencies m → d ∈ O;
  inv_sub id : id ∈ O ++ Q → is_Some (M !! id);
  inv_topo : topological M O;
}.

Lemma kahn_inv_perm M I Q Q' O : Q ≡ₚ Q' → kahn_inv M I Q O → kahn_inv M I Q' O.
Proof. intros Hp [H1 H2 H3 H4 H5]. split; try done; intros *; rewrite <-Hp; eauto. Qed.

Lemma sort_manifests_ids ms : service_id <$> sort_manifests ms ≡ₚ service_id <$> ms.
Proof. unfold sort_manifests. by rewrite merge_sort_Permutation. Qed.

Lemma topological_snoc M O x : topological M O → (∀ d, dep_edge M x d → d ∈ O) →
  topological M (O ++ [x]).
Proof.
  intros Ht Hx pre id post Heq d Hd.
  destruct post as [|y post _] using rev_ind.
  - apply app_inj_tail in Heq as [-> ->]. by apply Hx.
  - rewrite app_comm_cons, app_assoc in Heq. apply app_inj_tail in Heq as [-> _]. by eapply Ht.
Qed.

Lemma kahn_step M I x Q O : keyed M → kahn_inv M I (x :: Q) O →
  ∃ I' ms, unlock M x (children M x) I [] = Some (Ok (I', ms)) ∧
    kahn_inv M I' (Q ++ (service_id <$> sort_manifests ms)) (O ++ [x]).
Proof.
  intros Hk [Hnd Hdeg Hq Hsub Htopo].
  assert (x ∉ O) as HxO by (apply NoDup_app in Hnd as (_ & Hd & _); set_solver).
  destruct (unlock_spec M x (children M x) I [] Hk) as (I' & ms & Hun & HI & Hndms & Hms).
  { intros c Hc. destruct (children_dom M x c Hk Hc) as [m Hm]. split; [by eexists|].
    exists (pending O (dependencies m)). split; [by apply Hdeg|].
    rewrite (children_occ M x c m Hk Hm), (pending_snoc O x _ HxO). lia. }
  exists I', ms. split; [done|].
  apply (kahn_inv_perm _ _ (Q ++ (service_id <$> ms))); [by rewrite sort_manifests_ids|].
  assert (∀ c m, M !! c = Some m → c ∈ service_id <$> ms ↔
    (∀ d, d ∈ dependencies m → d ∈ O ++ [x]) ∧ c ∉ O ++ x :: Q) as Hms'.
  { intros c m Hm. rewrite Hms, (Hdeg c m Hm), <-occ_pos, (children_occ M x c m Hk Hm).
    rewrite <-pending_0, (Hq c m Hm), <-(pending_0 O).
    rewrite (pending_snoc O x _ HxO). split; [intros [? [= ?]]; lia|].
    intros [? ?]. split; [lia|]. f_equal. lia. }
  assert (∀ c, c ∈ service_id <$> ms → is_Some (M !! c)) as Hdom.
  { intros c [Hc _]%Hms. by eapply children_dom. }
  split.
  - rewrite <-app_assoc. simpl. rewrite app_comm_cons, app_assoc.
    apply NoDup_app. split_and!; [done| |done].
    intros c Hc Hin. destruct (Hdom c Hin) as [m Hm]. 
    by destruct (proj1 (Hms' c m Hm) Hin).
  - intros id m Hm. rewrite HI, (Hdeg id m Hm). simpl. f_equal.
    rewrite (children_occ M x id m Hk Hm), (pending_snoc O x _ HxO). lia.
  - intros id m Hm. rewrite <-app_assoc. simpl. rewrite app_comm_cons, app_assoc, elem_of_app.
    rewrite (Hms' id m Hm). split.
    + intros [Hin|[? _]]; [|done]. intros d Hd. apply elem_of_app. left.
      by apply (proj1 (Hq id m Hm) Hin).
    + intros Hall. destruct (decide (id ∈ O ++ x :: Q)); [by left|by right].
  - intros id. rewrite <-app_assoc. simpl. rewrite app_comm_cons, app_assoc, elem_of_app.
    intros [Hin|Hin]; [by apply Hsub|by apply Hdom].
  - apply topological_snoc; [done|]. intros d (m & Hm & Hd).
    apply (proj1 (Hq x m Hm)); [|done]. set_solver.
Qed.

Lemma kahn_inv_length M I Q O : kahn_inv M I Q O → length O + length Q ≤ size M.
Proof.
  intros Hinv. rewrite <-length_app, <-length_btree_keys. apply Prelude.NoDup_incl_length; [apply Hinv|].
  intros id Hid. apply elem_of_btree_keys. by eapply inv_sub.
Qed.

Lemma kahn_loop_S fuel M I x Q O :
  kahn_loop (S fuel) M (build_dependents (btree_values M)) I (x :: Q) O =
  r ← unlock M x (children M x) I [];
  match r with
  | Err e => Some (Err e)
  | Ok (I', ms) =>
      kahn_loop fuel M (build_dependents (btree_values M)) I'
        (Q ++ (service_id <$> sort_manifests ms)) (O ++ [x])
  end.
Proof.
  unfold children. simpl. destruct (build_dependents (btree_values M) !! x); simpl; [done|].
  by rewrite app_nil_r.
Qed.

Lemma kahn_loop_spec M fuel I Q O :
  keyed M → kahn_inv M I Q O → size M ≤ fuel + length O →
  ∃ I' O', kahn_loop fuel M (build_dependents (btree_values M)) I Q O = Some (Ok O') ∧
    kahn_inv M I' [] O'.
Proof.
  intros Hk. revert I Q O. induction fuel as [|fuel IH]; intros I Q O Hinv Hsz.
  - pose proof (kahn_inv_length _ _ _ _ Hinv). destruct Q; [|simpl in *; lia]. by exists I, O.
  - destruct Q as [|x Q]; [by exists I, O|].
    destruct (kahn_step M I x Q O Hk Hinv) as (I' & ms & Hun & Hinv').
    rewrite kahn_loop_S, Hun. simpl. apply IH; [done|]. rewrite length_app. simpl. lia.
Qed.

(** ** The initial state *)

Lemma kahn_inv_init M : keyed M → closed M →
  kahn_inv M (initial_indegree M)
    (service_id <$> sort_manifests (initially_ready M (initial_indegree M))) [].
Proof.
  intros Hk Hc.
  assert (∀ id m, M !! id = Some m →
    initial_indegree M !! id = Some (pending [] (dependencies m))) as Hdeg.
  { intros id m Hm. unfold initial_indegree. rewrite lookup_fmap, Hm. simpl. f_equal.
    unfold pending. f_equal. apply filter_ext_in. intros d Hd%list_elem_of_In.
    rewrite bool_decide_true by (by eapply Hc). by rewrite bool_decide_false by set_solver. }
  assert (∀ id m, id ∈ service_id <$> initially_ready M (initial_indegree M) ∧ M !! id = Some m ↔
    M !! id = Some m ∧ pending [] (dependencies m) = 0) as Hready.
  { intros id m. unfold initially_ready. rewrite list_elem_of_fmap. setoid_rewrite list_elem_of_omap.
    split.
    - intros [(m' & -> & k & Hk' & Hm') Hm]. case_bool_decide as Hz; [|done].
      pose proof (Hk _ _ Hm') as <-. rewrite Hm' in Hm. simplify_eq. split; [done|].
      rewrite (Hdeg _ _ Hm') in Hz. congruence.
    - intros [Hm Hz]. split; [|done]. exists m. split; [by rewrite (Hk _ _ Hm)|].
      exists id. split.
      + apply elem_of_btree_keys. by rewrite (Hdeg _ _ Hm).
      + by rewrite bool_decide_true by (by rewrite (Hdeg _ _ Hm), Hz). }
  apply (kahn_inv_perm _ _ (service_id <$> initially_ready M (initial_indegree M)));
    [by rewrite sort_manifests_ids|].
  split; simpl.
  - unfold initially_ready. generalize (NoDup_btree_keys (initial_indegree M)).
    induction (btree_keys (initial_indegree M)) as [|k ks IH]; [constructor|].
    intros [Hni Hnd]%NoDup_cons.
    simpl. case_bool_decide; [|by apply IH]. destruct (M !! k) as [m|] eqn:Hm; [|by apply IH].
    rewrite fmap_cons, (Hk _ _ Hm). apply NoDup_cons. split; [|by apply IH].
    intros (m' & -> & (k' & Hk' & Hm')%list_elem_of_omap)%list_elem_of_fmap.
    case_bool_decide; [|done]. by rewrite (Hk _ _ Hm') in Hni.
  - done.
  - intros id m Hm. rewrite <-pending_0. naive_solver.
  - intros id (m & -> & (k & _ & Hm)%list_elem_of_omap)%list_elem_of_fmap.
    case_bool_decide; [|done]. rewrite (Hk _ _ Hm). by eexists.
  - intros pre id post Heq. by destruct pre.
Qed.

(** ** Cycles *)

(** [id] depends, directly or not, on a service that depends on itself. *)
Definition doomed (M : gmap string ServiceManifest) (id : string) : Prop :=
  ∃ c, rtc (dep_edge M) id c ∧ tc (dep_edge M) c c.

(** A list of services each of which depends on the next. *)
Fixpoint linked (M : gmap string ServiceManifest) (a : string) (l : list string) : Prop :=
  match l with
  | [] => True
  | b :: l => dep_edge M a b ∧ linked M b l
  end.

Lemma linked_tc M a l y : linked M a l → y ∈ l → tc (dep_edge M) a y.
Proof.
  revert a. induction l as [|b l IH]; intros a; simpl; [by intros _ ?%not_elem_of_nil|].
  intros [He Hl] [->|Hin]%elem_of_cons; [by apply tc_once|]. eapply tc_l; [done|by apply IH].
Qed.

Lemma linked_drop M a l1 x l2 : linked M a (l1 ++ x :: l2) → linked M x l2.
Proof.
  revert a. induction l1 as [|b l1 IH]; intros a; simpl; [naive_solver|]. intros [_ H]. eauto.
Qed.

Lemma duplicate_split (l : list string) : ¬ NoDup l → ∃ l1 x l2, l = l1 ++ x :: l2 ∧ x ∈ l2.
Proof.
  induction l as [|a l IH]; intros Hnd; [destruct Hnd; constructor|].
  destruct (decide (a ∈ l)) as [Hin|Hni]; [by exists [], a, l|].
  destruct IH as (l1 & x & l2 & -> & Hx).
  { intros Hl. apply Hnd. by apply NoDup_cons. }
  by exists (a :: l1), x, l2.
Qed.

(** A long enough linked list reaches a cycle. *)
Lemma linked_doomed M a l :
  linked M a l → (∀ b, b ∈ a :: l → is_Some (M !! b)) → size M ≤ length l → doomed M a.
Proof.
  intros Hl Hdom Hlen. destruct (duplicate_split (a :: l)) as ([|a' l1] & x & l2 & Heq & Hx).
  - intros Hnd. assert (length (a :: l) ≤ size M) as Hle; [|simpl in Hle; lia].
    rewrite <-length_btree_keys. apply Prelude.NoDup_incl_length; [done|].
    intros b Hb. by apply elem_of_btree_keys, Hdom.
  - simplify_list_eq. exists x. split; [apply rtc_refl|]. by eapply linked_tc.
  - simplify_list_eq. exists x. split.
    + apply tc_rtc. eapply linked_tc; [done|]. set_solver.
    + eapply linked_tc; [by eapply linked_drop|done].
Qed.

(** The services left when the queue is empty are those that reach a cycle. *)
Lemma stuck_path M I O id n :
  closed M → kahn_inv M I [] O → is_Some (M !! id) → id ∉ O →
  ∃ l, length l = n ∧ linked M id l ∧ ∀ b, b ∈ l → is_Some (M !! b).
Proof.
  intros Hc Hinv. revert id. induction n as [|n IH]; intros id [m Hm] Hni.
  { exists []. split_and!; [done|done|set_solver]. }
  destruct (find_b (λ d, negb (bool_decide (d ∈ O))) (dependencies m)) as [d|] eqn:Hf.
  - apply find_b_Some in Hf as [Hd Hb%negb_true_iff%bool_decide_eq_false_1].
    assert (is_Some (M !! d)) as HdM by (by eapply Hc).
    destruct (IH d HdM Hb) as (l & Hlen & Hl & Hall). exists (d :: l).
    split_and!; [by simpl; rewrite Hlen|split; [by exists m|done]|].
    intros b [->|Hb']%elem_of_cons; auto.
  - exfalso. apply Hni. apply (inv_queue _ _ _ _ Hinv id m) in Hm.
    rewrite app_nil_r in Hm. apply Hm. intros d Hd.
    pose proof (proj1 (find_b_None _ _) Hf d Hd) as Hb.
    by apply negb_false_iff, bool_decide_eq_true_1 in Hb.
Qed.

Lemma topological_tc M O a b : topological M O → tc (dep_edge M) a b →
  ∀ pre post, O = pre ++ a :: post → b ∈ pre.
Proof.
  intros Ht. induction 1 as [a b He|a c b He _ IH]; intros pre post HO; [by eapply Ht|].
  pose proof (Ht _ _ _ HO c He) as (p1 & p2 & ->)%list_elem_of_split.
  apply elem_of_app. left. apply (IH p1 (p2 ++ a :: post)). by rewrite HO, <-app_assoc.
Qed.

Lemma started_not_cyclic M I O c : kahn_inv M I [] O → c ∈ O → ¬ tc (dep_edge M) c c.
Proof.
  intros Hinv (pre & post & HO)%list_elem_of_split Htc.
  pose proof (topological_tc M O c c (inv_topo _ _ _ _ Hinv) Htc pre post HO) as Hin.
  pose proof (inv_nodup _ _ _ _ Hinv) as Hnd. rewrite app_nil_r, HO in Hnd.
  apply NoDup_app in Hnd as (_ & Hd & _). apply (Hd c Hin). left.
Qed.

Lemma started_closed M I O a b : kahn_inv M I [] O → a ∈ O → rtc (dep_edge M) a b → b ∈ O.
Proof.
  intros Hinv Ha. induction 1 as [|a c b (m & Hm & Hc) _ IH]; [done|]. apply IH.
  apply (proj1 (inv_queue _ _ _ _ Hinv _ m Hm)); [by rewrite app_nil_r|done].
Qed.

Lemma remaining_doomed M I O id :
  closed M → kahn_inv M I [] O → is_Some (M !! id) → id ∉ O ↔ doomed M id.
Proof.
  intros Hc Hinv Hid. split.
  - intros Hni. destruct (stuck_path M I O id (size M) Hc Hinv Hid Hni) as (l & Hlen & Hl & Hall).
    eapply linked_doomed; [exact Hl| |lia]. intros b [->|Hb]%elem_of_cons; auto.
  - intros (c & Hr & Htc) Hin. apply (started_not_cyclic M I O c Hinv); [|done].
    by eapply started_closed.
Qed.

(** ** Specification of [DependencyGraph::new] *)

Inductive graph_spec (l : list ServiceManifest) : result DependencyGraph GraphError → Prop :=
| spec_duplicate s :
    2 ≤ occ s (service_id <$> l) → graph_spec l (Err (DuplicateServiceId s))
| spec_missing m d :
    NoDup (service_id <$> l) → m ∈ l → d ∈ dependencies m → d ∉ service_id <$> l →
    graph_spec l (Err (MissingDependency (service_id m) d))
| spec_circular cycle :
    NoDup (service_id <$> l) → closed (manifest_map l) →
    cycle ≠ [] → NoDup cycle → StronglySorted String.le cycle →
    (∀ id, id ∈ cycle ↔ id ∈ service_id <$> l ∧ doomed (manifest_map l) id) →
    graph_spec l (Err (CircularDependency cycle))
| spec_resolved order :
    NoDup (service_id <$> l) → closed (manifest_map l) →
    (∀ id, ¬ tc (dep_edge (manifest_map l)) id id) →
    order ≡ₚ service_id <$> l → topological (manifest_map l) order →
    graph_spec l (Ok (mkDependencyGraph (manifest_map l) order)).

Lemma filter_not_started (M : gmap string ServiceManifest) (O : list string) id :
  id ∈ List.filter (λ id, negb (bool_decide (id ∈ O))) (btree_keys M) ↔ is_Some (M !! id) ∧ id ∉ O.
Proof.
  rewrite list_elem_of_In, List.filter_In, <-list_elem_of_In, elem_of_btree_keys.
  by rewrite negb_true_iff, bool_decide_eq_false.
Qed.

Lemma started_all M I O :
  kahn_inv M I [] O → (length O = size M ↔ ∀ id, is_Some (M !! id) → id ∈ O).
Proof.
  intros Hinv. pose proof (inv_nodup _ _ _ _ Hinv) as Hnd. rewrite app_nil_r in Hnd.
  assert (∀ id, id ∈ O → id ∈ btree_keys M) as Hsub.
  { intros id Hid. apply elem_of_btree_keys, (inv_sub _ _ _ _ Hinv). by rewrite app_nil_r. }
  rewrite <-length_btree_keys. split.
  - intros Hlen id Hid%elem_of_btree_keys.
    assert (O ≡ₚ btree_keys M) as ->; [|done].
    apply submseteq_length_Permutation; [by apply NoDup_submseteq|lia].
  - intros Hall. apply Nat.le_antisymm.
    + by apply Prelude.NoDup_incl_length.
    + apply Prelude.NoDup_incl_length; [apply NoDup_btree_keys|].
      intros id Hid%elem_of_btree_keys. by apply Hall.
Qed.

(** The two outcomes of the loop. *)
Lemma spec_of_loop l I O :
  NoDup (service_id <$> l) → closed (manifest_map l) → kahn_inv (manifest_map l) I [] O →
  graph_spec l
    (if negb (length O =? size (manifest_map l))%nat
     then Err (CircularDependency (merge_sort String.le
            (List.filter (λ id, negb (bool_decide (id ∈ O))) (btree_keys (manifest_map l)))))
     else Ok (mkDependencyGraph (manifest_map l) O)).
Proof.
  intros Hnd Hc Hinv. pose proof (started_all _ _ _ Hinv) as Hall.
  destruct (Nat.eqb_spec (length O) (size (manifest_map l))) as [Hlen|Hlen]; simpl.
  - rewrite Hall in Hlen. apply spec_resolved; [done|done| | |apply Hinv].
    + intros id Htc. apply (started_not_cyclic _ _ _ _ Hinv) in Htc; [done|]. apply Hlen.
      inversion Htc as [? ? (m & ? & _)|? ? ? (m & ? & _)]; by eexists.
    + apply NoDup_Permutation; [|done|].
      * pose proof (inv_nodup _ _ _ _ Hinv) as H. by rewrite app_nil_r in H.
      * intros id. rewrite <-manifest_map_dom by done. split; [|apply Hlen].
        intros Hid. apply (inv_sub _ _ _ _ Hinv). by rewrite app_nil_r.
  - set (rest := List.filter _ _).
    assert (∀ id, id ∈ merge_sort String.le rest ↔
      id ∈ service_id <$> l ∧ doomed (manifest_map l) id) as Hrest.
    { intros id. rewrite merge_sort_Permutation. unfold rest.
      rewrite filter_not_started, <-manifest_map_dom by done.
      split; intros [Hid Hx]; (split; [done|]); by apply (remaining_doomed _ _ _ _ Hc Hinv Hid). }
    apply spec_circular; [done|done| | | |done].
    + intros Hnil. apply Hlen, Hall. intros id Hid. apply dec_stable. intros Hni.
      assert (id ∈ merge_sort String.le rest) as Hin; [|rewrite Hnil in Hin; by apply not_elem_of_nil in Hin].
      rewrite merge_sort_Permutation. by apply filter_not_started.
    + rewrite merge_sort_Permutation. unfold rest.
      apply NoDup_ListNoDup, List.NoDup_filter, NoDup_ListNoDup, NoDup_btree_keys.
    + apply (StronglySorted_merge_sort String.le).
Qed.

Lemma DependencyGraph_new_spec l :
  ∃ r, DependencyGraph_new l = Some r ∧ graph_spec l r.
Proof.
  unfold DependencyGraph_new.
  destruct (build_map_new l) as [(s & -> & Hs)|[Hnd ->]].
  { eexists. split; [done|]. by apply spec_duplicate. }
  set (M := manifest_map l). assert (keyed M) as Hk by (by apply manifest_map_keyed).
  destruct (find_missing M (btree_values M)) as [e|] eqn:Hf.
  { apply find_missing_Some in Hf as (m & d & -> & [k Hm]%elem_of_btree_values & Hd & Hnone).
    eexists. split; [done|]. apply spec_missing; [done| |done|].
    - unfold M in Hm. rewrite manifest_map_lookup in Hm by done. by apply find_b_Some in Hm as [? _].
    - intros Hin. apply manifest_map_dom in Hin as [? Hx]; [|done].
      unfold M in Hnone. congruence. }
  assert (closed M) as Hc.
  { intros id m d Hm Hd. eapply (proj1 (find_missing_None _ _) Hf); [|done].
    apply elem_of_btree_values. eauto. }
  destruct (kahn_loop_spec M (size M) _ _ _ Hk (kahn_inv_init M Hk Hc)) as (I' & O & -> & Hinv);
    [simpl; lia|].
  eexists. split; [|by eapply (spec_of_loop l I' O)]. simpl. by destruct (negb _).
Qed.

(** ** Properties *)

(** C11: [DependencyGraph::new] returns for every list of manifests: the loop
    needs at most one iteration per service and no index panics.  The result
    is a duplicate id, a dependency that is not a service, the sorted list of
    the services that depend on a cycle, or, exactly when ids are unique,
    dependencies exist and no service depends on itself, a start order that is
    a permutation of the services in which each comes after all it depends
    on. *)
Theorem dependency_graph_exact l :
  ∃ r, DependencyGraph_new l = Some r ∧ graph_spec l r.
Proof. apply DependencyGraph_new_spec. Qed.

(** In an accepted graph every service starts after all the services it
    depends on, directly or not, and stops before them. *)
Theorem start_and_stop_orders l g id d pre post :
  DependencyGraph_new l = Some (Ok g) → tc (dep_edge (dg_manifests g)) id d →
  (dg_start_order g = pre ++ id :: post → d ∈ pre) ∧
  (stop_order g = pre ++ id :: post → d ∈ post).
Proof.
  intros Hg Htc. destruct (DependencyGraph_new_spec l) as (r & Hr & Hs).
  rewrite Hg in Hr. simplify_eq. inversion Hs as [| | |order Hnd Hc Hac Hp Ht]; subst. simpl in *.
  split; [by eapply topological_tc|]. intros Hstop. unfold stop_order in Hstop. simpl in Hstop.
  apply (f_equal reverse) in Hstop. rewrite reverse_involutive, reverse_app, reverse_cons in Hstop.
  rewrite <-app_assoc in Hstop. simpl in Hstop.
  by apply elem_of_reverse, (topological_tc _ _ _ _ Ht Htc _ _ Hstop).
Qed.

Definition unique_ids (l : list ServiceManifest) : Prop := NoDup (service_id <$> l).

(** The start order does not depend on the order in which the manifests
    are discovered. *)
Theorem start_order_deterministic l k :
  unique_ids l → l ≡ₚ k → DependencyGraph_new l = DependencyGraph_new k.
Proof.
  unfold unique_ids. intros Hnd Hp. assert (NoDup (service_id <$> k)) as Hnd' by (by rewrite <-Hp).
  unfold DependencyGraph_new.
  destruct (build_map_new l) as [(s & _ & Hs)|[_ ->]]; [pose proof (NoDup_occ _ Hnd s); lia|].
  destruct (build_map_new k) as [(s & _ & Hs)|[_ ->]]; [pose proof (NoDup_occ _ Hnd' s); lia|].
  assert (manifest_map l = manifest_map k) as ->; [|done].
  unfold manifest_map. apply list_to_map_proper; [|by rewrite Hp].
  by rewrite <-list_fmap_compose.
Qed.

(** ** Concrete manifests for the properties *)

Definition example_manifests : list ServiceManifest :=
  [simple_manifest "shell" ["net"] 5 3; simple_manifest "net" [] 9 3; simple_manifest "log" [] 1 3].

Lemma start_and_stop_witness :
  (dg_start_order (mkDependencyGraph (manifest_map example_manifests) ["log"; "net"; "shell"]) =
     ["log"; "net"] ++ "shell" :: [] → "net" ∈ ["log"; "net"]) ∧
  (stop_order (mkDependencyGraph (manifest_map example_manifests) ["log"; "net"; "shell"]) =
     ["log"; "net"] ++ "shell" :: [] → "net" ∈ []).
Proof.
  apply (start_and_stop_orders example_manifests).
  - vm_compute. reflexivity.
  - apply tc_once. exists (simple_manifest "shell" ["net"] 5 3). split; [vm_compute; reflexivity|left].
Defined.

Lemma start_order_deterministic_witness :
  DependencyGraph_new example_manifests = DependencyGraph_new (reverse example_manifests).
Proof.
  apply start_order_deterministic.
  - unfold unique_ids. apply (bool_decide_unpack _). by vm_compute.
  - by rewrite reverse_Permutation.
Defined.

(** Services that merely depend on a cycle are reported as part of it. *)
Example cycle_report_includes_dependents :
  DependencyGraph_new [simple_manifest "a" ["b"] 0 0; simple_manifest "b" ["a"] 0 0;
                       simple_manifest "c" ["a"] 0 0] =
  Some (Err (CircularDependency ["a"; "b"; "c"])).
Proof. vm_compute. reflexivity. Qed.
