(* ===== verification/Manager.v ===== *)
(** * The service lifecycle manager

    Models system/aether-system-core/src/manager.rs.  The [ServiceExecutor]
    trait is a class over the state of the world outside the manager: the
    executor's own state and the clock that [Instant::now] reads. *)
From S2P Require Import Prelude RustStd CoreTypes DepGraph.
From stdpp Require Import relations.

Record ServiceHandle := mkServiceHandle {
  handle_service_id : string;
  handle_pid : N;
}.

Class ServiceExecutor (X : Type) := {
  executor_start : string → X → X * result ServiceHandle AetherError;
  executor_stop : ServiceHandle → X → X * result unit AetherError;
  executor_health : ServiceHandle → X → X * result HealthStatus AetherError;
  (** [Instant::now()], in milliseconds. *)
  executor_now : X → N;
}.

(** [InternalExecutor], with the clock as its only state. *)
#[export] Instance InternalExecutor : ServiceExecutor N := {|
  executor_start _ x := (x, Ok (mkServiceHandle EmptyString 0));
  executor_stop _ x := (x, Ok tt);
  executor_health _ x := (x, Ok Healthy);
  executor_now x := x;
|}.

Record ManagedService := mkManagedService {
  ms_status : ServiceStatus;
  ms_health : HealthStatus;
  ms_handle : option ServiceHandle;
  ms_restarts : N;
  ms_failures : N;
  ms_started_at : option N;
}.

Definition ManagedService_fresh : ManagedService :=
  mkManagedService SsStopped Unhealthy None 0 0 None.

Definition to_health_report (now : N) (id : string) (r : ManagedService) : ServiceHealth :=
  mkServiceHealth id (ms_status r) (ms_health r) (handle_pid <$> ms_handle r)
    (ms_restarts r) (ms_failures r) (from_option (λ t, now - t)%N 0%N (ms_started_at r)).

Record ServiceManager := mkServiceManager {
  sm_graph : DependencyGraph;
  sm_state : gmap string ManagedService;
}.

Definition ServiceManager_new (g : DependencyGraph) : ServiceManager :=
  mkServiceManager g ((λ _, ManagedService_fresh) <$> dg_manifests g).

(** [if let Some(record) = self.state.get_mut(id) { .. }]. *)
Definition update_record (id : string) (f : ManagedService → ManagedService)
    (s : ServiceManager) : ServiceManager :=
  mkServiceManager (sm_graph s) (alter f id (sm_state s)).

(** The assignments to the fields of a record. *)
Definition mark_running (h : ServiceHandle) (now : N) (r : ManagedService) : ManagedService :=
  mkManagedService SsRunning Healthy (Some h) (ms_restarts r) (ms_failures r) (Some now).
Definition mark_stopped (r : ManagedService) : ManagedService :=
  mkManagedService SsStopped Unhealthy (ms_handle r) (ms_restarts r) (ms_failures r) None.
Definition take_handle (r : ManagedService) : ManagedService :=
  mkManagedService (ms_status r) (ms_health r) None (ms_restarts r) (ms_failures r)
    (ms_started_at r).
Definition count_restart (r : ManagedService) : ManagedService :=
  mkManagedService (ms_status r) (ms_health r) (ms_handle r)
    (saturating_add u32_max (ms_restarts r) 1) (ms_failures r) (ms_started_at r).
Definition mark_failed (r : ManagedService) : ManagedService :=
  mkManagedService SsFailed Unhealthy None (ms_restarts r)
    (saturating_add u32_max (ms_failures r) 1) (ms_started_at r).
Definition mark_recovering (r : ManagedService) : ManagedService :=
  mkManagedService SsRecovering (ms_health r) (ms_handle r) (ms_restarts r) (ms_failures r)
    (ms_started_at r).

Definition is_running (s : ServiceManager) (id : string) : bool :=
  from_option (λ r, bool_decide (ms_status r = SsRunning)) false (sm_state s !! id).

Section manager.
Context {X : Type} `{!ServiceExecutor X}.
Implicit Types (s : ServiceManager) (x : X).

Definition start_one (id : string) s x : (ServiceManager * X) * result unit AetherError :=
  match dg_manifest (sm_graph s) id with
  | None => ((s, x), Err (AetherError_not_found id))
  | Some m =>
      match find_b (λ d, negb (is_running s d)) (dependencies m) with
      | Some d =>
          ((s, x), Err (AetherError_service_failed id
                          ("dependency '" +:+ d +:+ "' is not running")))
      | None =>
          if bool_decide (service_type m = StProcess) && negb (bool_decide (is_Some (command m)))
          then ((s, x), Err (AetherError_invalid_input ("service '" +:+ id +:+ "' has no command")))
          else
            match executor_start id x with
            | (x, Err e) => ((s, x), Err e)
            | (x, Ok h) => ((update_record id (mark_running h (executor_now x)) s, x), Ok tt)
            end
      end
  end.

Definition stop_one (id : string) s x : (ServiceManager * X) * result unit AetherError :=
  match sm_state s !! id with
  | None => ((s, x), Err (AetherError_not_found id))
  | Some r =>
      let s := update_record id take_handle s in
      match ms_handle r with
      | None => ((update_record id mark_stopped s, x), Ok tt)
      | Some h =>
          match executor_stop h x with
          | (x, Err e) => ((s, x), Err e)
          | (x, Ok _) => ((update_record id mark_stopped s, x), Ok tt)
          end
      end
  end.

(** The loop of [stop_all] with the first error seen so far. *)
Fixpoint stop_each (ids : list string) (first_error : option AetherError) s x :
    (ServiceManager * X) * option AetherError :=
  match ids with
  | [] => ((s, x), first_error)
  | id :: ids =>
      let '((s, x), r) := stop_one id s x in
      stop_each ids
        match r with
        | Err e => match first_error with None => Some e | Some e0 => Some e0 end
        | Ok _ => first_error
        end s x
  end.

Definition stop_all s x : (ServiceManager * X) * result unit AetherError :=
  let '((s, x), e) := stop_each (stop_order (sm_graph s)) None s x in
  ((s, x), match e with Some e => Err e | None => Ok tt end).

Fixpoint start_each (ids : list string) s x : (ServiceManager * X) * result unit AetherError :=
  match ids with
  | [] => ((s, x), Ok tt)
  | id :: ids =>
      match start_one id s x with
      | ((s, x), Ok _) => start_each ids s x
      | ((s, x), Err _) =>
          let '((s, x), _) := stop_all s x in
          ((s, x), Err (AetherError_service_failed id "startup failed; rolled back all services"))
      end
  end.

Definition start_all s x : (ServiceManager * X) * result unit AetherError :=
  start_each (dg_start_order (sm_graph s)) s x.

Definition restart_one (id : string) s x : (ServiceManager * X) * result unit AetherError :=
  match stop_one id s x with
  | ((s, x), Err e) => ((s, x), Err e)
  | ((s, x), Ok _) => start_one id (update_record id count_restart s) x
  end.

Definition handle_failure (id : string) s x : (ServiceManager * X) * result bool AetherError :=
  match dg_manifest (sm_graph s) id with
  | None => ((s, x), Err (AetherError_not_found id))
  | Some m =>
      match sm_state s !! id with
      | None => ((s, x), Err (AetherError_not_found id))
      | Some _ =>
          let s := update_record id mark_failed s in
          match restart_policy m with
          | RpNever => ((s, x), Ok false)
          | RpOnFailure | RpAlways =>
              if from_option (λ r, (restart_limit m <=? ms_restarts r)%N) false (sm_state s !! id)
              then ((s, x), Ok false)
              else
                let s := update_record id mark_recovering s in
                match stop_one id s x with
                | ((s, x), Err e) => ((s, x), Err e)
                | ((s, x), Ok _) =>
                    match restart_one id s x with
                    | ((s, x), Err e) => ((s, x), Err e)
                    | ((s, x), Ok _) => ((s, x), Ok true)
                    end
                end
          end
      end
  end.

(** The probe of one record. *)
Definition probe_record (r : ManagedService) x : ManagedService * X :=
  match ms_handle r with
  | None => (r, x)
  | Some h =>
      let '(x, res) := executor_health h x in
      let '(health, degraded) :=
        match res with
        | Ok h => (h, bool_decide (h = Unhealthy))
        | Err _ => (Unhealthy, true)
        end in
      let status :=
        if degraded && bool_decide (ms_status r = SsRunning) then SsFailed else ms_status r in
      (mkManagedService status health (ms_handle r) (ms_restarts r) (ms_failures r)
         (ms_started_at r), x)
  end.

Fixpoint poll_each (ids : list string) s x : (ServiceManager * X) * list ServiceHealth :=
  match ids with
  | [] => ((s, x), [])
  | id :: ids =>
      match sm_state s !! id with
      | None => poll_each ids s x
      | Some r =>
          let '(r, x) := probe_record r x in
          let report := to_health_report (executor_now x) id r in
          let '((s, x), reports) := poll_each ids (update_record id (λ _, r) s) x in
          ((s, x), report :: reports)
      end
  end.

Definition poll_health s x : (ServiceManager * X) * list ServiceHealth :=
  poll_each (dg_start_order (sm_graph s)) s x.

Definition system_status s x : SystemStatus :=
  let services :=
    omap (λ id, to_health_report (executor_now x) id <$> sm_state s !! id)
      (dg_start_order (sm_graph s)) in
  let healthy := forallb (λ h, bool_decide (sh_health h = Healthy)) services in
  mkSystemStatus 0 services (if healthy then Healthy else Degraded).

End manager.

(** [build_manager]; [None] as in [DependencyGraph_new]. *)
Definition build_manager (manifests : list ServiceManifest) :
    option (result ServiceManager AetherError) :=
  r ← DependencyGraph_new manifests;
  Some match r with
       | Ok g => Ok (ServiceManager_new g)
       | Err e => Err (AetherError_new EkInvalidInput (GraphError_display e))
       end.

(** * Correctness of the service manager *)

(** A manager over the graph of [l]: one record per service. *)
Definition managed (l : list ServiceManifest) (s : ServiceManager) : Prop :=
  DependencyGraph_new l = Some (Ok (sm_graph s)) ∧
  ∀ id, is_Some (sm_state s !! id) ↔ is_Some (dg_manifests (sm_graph s) !! id).

Lemma managed_new l g : DependencyGraph_new l = Some (Ok g) → managed l (ServiceManager_new g).
Proof. intros Hg. split; [done|]. intros id. simpl. rewrite lookup_fmap. by rewrite fmap_is_Some. Qed.

(** ** Record updates *)

Lemma update_record_eq id f s : sm_state (update_record id f s) !! id = f <$> sm_state s !! id.
Proof. unfold update_record. simpl. by rewrite lookup_alter_eq. Qed.

Lemma update_record_ne id id' f s : id ≠ id' →
  sm_state (update_record id f s) !! id' = sm_state s !! id'.
Proof. intros Hne. unfold update_record. simpl. by rewrite lookup_alter_ne. Qed.

(** Two states of one manager: same graph, same services. *)
Definition same_services (s s' : ServiceManager) : Prop :=
  sm_graph s' = sm_graph s ∧ ∀ id, is_Some (sm_state s' !! id) ↔ is_Some (sm_state s !! id).

Lemma same_services_refl s : same_services s s.
Proof. done. Qed.

Lemma same_services_trans s1 s2 s3 :
  same_services s1 s2 → same_services s2 s3 → same_services s1 s3.
Proof.
  intros [Hg1 H1] [Hg2 H2]. split; [congruence|]. intros id. by rewrite H2, H1.
Qed.

Lemma update_record_same id f s : same_services s (update_record id f s).
Proof.
  split; [done|]. intros id'. destruct (decide (id = id')) as [<-|Hne].
  - rewrite update_record_eq. by rewrite fmap_is_Some.
  - by rewrite update_record_ne.
Qed.
#[export] Hint Resolve same_services_refl update_record_same : aether.

Lemma managed_same l s s' : managed l s → same_services s s' → managed l s'.
Proof.
  intros [Hg Hd] [Hgr Hs]. split; [by rewrite Hgr|]. intros id. by rewrite Hs, Hgr.
Qed.

Lemma is_running_spec s id :
  is_running s id = true ↔ ∃ r, sm_state s !! id = Some r ∧ ms_status r = SsRunning.
Proof.
  unfold is_running. destruct (sm_state s !! id) as [r|]; simpl; [|naive_solver].
  rewrite bool_decide_eq_true. naive_solver.
Qed.

(** What a graph accepted by the resolver guarantees. *)
Lemma managed_graph l s : managed l s →
  topological (dg_manifests (sm_graph s)) (dg_start_order (sm_graph s)) ∧
  ∀ id, id ∈ dg_start_order (sm_graph s) ↔ is_Some (dg_manifests (sm_graph s) !! id).
Proof.
  intros [Hg _]. destruct (DependencyGraph_new_spec l) as (r & Hr & Hs).
  rewrite Hg in Hr. simplify_eq. inversion Hs as [| | |order Hnd Hc Hac Hp Ht Heq].
  split; [done|]. intros id. simpl. rewrite Hp. by rewrite manifest_map_dom.
Qed.

Section props.
Context {X : Type} `{!ServiceExecutor X}.
Implicit Types (s : ServiceManager) (x : X).

(** ** Single operations *)

(** A successful start: the dependencies run, the executor started it, and
    only its record changes. *)
Lemma start_one_Ok id s x s' x' : start_one id s x = ((s', x'), Ok tt) →
  ∃ m h, dg_manifests (sm_graph s) !! id = Some m ∧
    (∀ d, d ∈ dependencies m → is_running s d = true) ∧
    executor_start id x = (x', Ok h) ∧
    s' = update_record id (mark_running h (executor_now x')) s.
Proof.
  unfold start_one, dg_manifest. destruct (dg_manifests (sm_graph s) !! id) as [m|]; [|done].
  destruct (find_b _ (dependencies m)) as [d|] eqn:Hf; [done|]. destruct (_ && _); [done|].
  destruct (executor_start id x) as [x1 [h|e]] eqn:He; [|done]. intros [= <- <-].
  exists m, h. split_and!; [done| |done|done]. intros d Hd.
  by apply negb_false_iff, (proj1 (find_b_None _ _) Hf).
Qed.

Lemma start_one_Err id s x s' x' e : start_one id s x = ((s', x'), Err e) → s' = s.
Proof. unfold start_one. intros H. by split_matches. Qed.

Lemma start_one_same id s x : same_services s (start_one id s x).1.1.
Proof. unfold start_one. split_matches; auto with aether. Qed.

Lemma stop_one_same id s x : same_services s (stop_one id s x).1.1.
Proof.
  unfold stop_one. split_matches; auto with aether;
    (eapply same_services_trans; [|apply update_record_same]; auto with aether).
Qed.

Lemma stop_each_same ids e s x : same_services s (stop_each ids e s x).1.1.
Proof.
  revert e s x. induction ids as [|id ids IH]; intros e s x; simpl; [auto with aether|].
  pose proof (stop_one_same id s x) as H. destruct (stop_one id s x) as [[s1 x1] r]. simpl in H.
  eapply same_services_trans; [exact H|apply IH].
Qed.

(** ** Stopping everything *)

(** The executor can stop whatever it is asked to. *)
Definition stops_succeed : Prop := ∀ h x, ∃ x', executor_stop h x = (x', Ok tt).

Definition stopped_record (r : ManagedService) : ManagedService := mark_stopped (take_handle r).

Lemma stop_one_ok id s x r : stops_succeed → sm_state s !! id = Some r →
  ∃ s' x', stop_one id s x = ((s', x'), Ok tt) ∧ sm_graph s' = sm_graph s ∧
    sm_state s' = alter stopped_record id (sm_state s).
Proof.
  intros Hst Hr. unfold stop_one. rewrite Hr.
  assert (sm_state (update_record id mark_stopped (update_record id take_handle s)) =
    alter stopped_record id (sm_state s)) as Heq.
  { unfold update_record. simpl. apply map_eq. intros i. destruct (decide (id = i)) as [<-|].
    - rewrite !lookup_alter_eq. by destruct (sm_state s !! id).
    - by rewrite !lookup_alter_ne. }
  destruct (ms_handle r) as [h|]; [destruct (Hst h x) as [x' ->]|]; by eexists _, _.
Qed.

Lemma stop_each_ok ids e s x : stops_succeed → (∀ id, id ∈ ids → is_Some (sm_state s !! id)) →
  ∃ s' x', stop_each ids e s x = ((s', x'), e) ∧
    (∀ id, id ∈ ids → ∃ r, sm_state s' !! id = Some r ∧ ms_status r = SsStopped ∧ ms_handle r = None) ∧
    (∀ id, id ∉ ids → sm_state s' !! id = sm_state s !! id).
Proof.
  intros Hst. revert s x. induction ids as [|id ids IH]; intros s x Hdom; simpl.
  { eexists _, _. split_and!; [done|set_solver|done]. }
  destruct (Hdom id) as [r Hr]; [left|].
  destruct (stop_one_ok id s x r Hst Hr) as (s1 & x1 & -> & Hg1 & Hs1).
  destruct (IH s1 x1) as (s2 & x2 & -> & Hin & Hout).
  { intros id' Hid'. rewrite Hs1. destruct (Hdom id') as [r' Hr']; [by right|].
    destruct (decide (id = id')) as [<-|]; [rewrite lookup_alter_eq|rewrite lookup_alter_ne by done];
      rewrite Hr'; by eexists. }
  eexists _, _. split_and!; [done| |].
  - intros id' [->|Hid']%elem_of_cons; [|by apply Hin].
    destruct (decide (id ∈ ids)) as [|Hni]; [by apply Hin|].
    rewrite (Hout id Hni), Hs1, lookup_alter_eq, Hr. by eexists.
  - intros id' [Hne Hni]%not_elem_of_cons. rewrite (Hout id' Hni), Hs1.
    by rewrite lookup_alter_ne.
Qed.

(** ** Starting everything *)

Lemma start_one_running id s x s' x' l : managed l s →
  start_one id s x = ((s', x'), Ok tt) →
  managed l s' ∧ sm_graph s' = sm_graph s ∧ is_running s' id = true ∧
  ∀ id', is_running s id' = true → is_running s' id' = true.
Proof.
  intros Hm Hst. apply start_one_Ok in Hst as (m & h & Hman & _ & _ & ->).
  split_and!; [eapply managed_same; [done|auto with aether]|done| |].
  - apply is_running_spec. rewrite update_record_eq.
    destruct (proj2 (proj2 Hm id)) as [r Hr]; [by eexists|]. rewrite Hr. by eexists.
  - intros id' (r & Hr & Hrun)%is_running_spec. apply is_running_spec.
    destruct (decide (id = id')) as [<-|Hne].
    + rewrite update_record_eq, Hr. by eexists.
    + rewrite update_record_ne by done. eauto.
Qed.

(** The two outcomes of the start loop. *)
Lemma start_each_spec l ids s x : managed l s →
  (∀ id, id ∈ ids → id ∈ dg_start_order (sm_graph s)) →
  let '((s', x'), r) := start_each ids s x in
  managed l s' ∧
  match r with
  | Ok _ => (∀ id, id ∈ ids → is_running s' id = true) ∧
            ∀ id, is_running s id = true → is_running s' id = true
  | Err e =>
      (∃ id, id ∈ ids ∧ e = AetherError_service_failed id "startup failed; rolled back all services") ∧
      (stops_succeed → ∀ id r, sm_state s' !! id = Some r →
         ms_status r = SsStopped ∧ ms_handle r = None)
  end.
Proof.
  revert s x. induction ids as [|id ids IH]; intros s x Hm Hsub; simpl.
  { split; [done|]. split; [set_solver|done]. }
  pose proof (start_one_same id s x) as Hsame.
  destruct (start_one id s x) as [[s1 x1] [[]|e]] eqn:Hst; simpl in Hsame.
  - destruct (start_one_running id s x s1 x1 l Hm Hst) as (Hm1 & Hg1 & Hrun & Hkeep).
    specialize (IH s1 x1 Hm1). destruct (start_each ids s1 x1) as [[s2 x2] r].
    destruct IH as [Hm2 Hr]; [intros id' ?; rewrite Hg1; set_solver|]. split; [done|].
    destruct r as [u|e]; [|destruct Hr as [(id' & ? & ->) ?]; split; [|done]; set_solver].
    destruct Hr as [Hids Hmono]. split; [|auto]. intros id' [->|?]%elem_of_cons; auto.
  - assert (managed l s1) as Hm1 by (by eapply managed_same).
    pose proof (stop_each_same (stop_order (sm_graph s1)) None s1 x1) as Hsame2.
    unfold stop_all.
    destruct (stop_each (stop_order (sm_graph s1)) None s1 x1) as [[s2 x2] err] eqn:Hstop.
    simpl in *. split; [by eapply managed_same|]. split; [exists id; set_solver|].
    intros Hsucc id' r Hr.
    assert (∀ i, i ∈ stop_order (sm_graph s1) ↔ is_Some (sm_state s1 !! i)) as Hall.
    { intros i. unfold stop_order. rewrite elem_of_reverse, (proj2 (managed_graph _ _ Hm1) i).
      by rewrite (proj2 Hm1 i). }
    destruct (stop_each_ok (stop_order (sm_graph s1)) None s1 x1 Hsucc) as (s3 & x3 & Heq & Hin & _);
      [intros i; apply Hall|].
    rewrite Hstop in Heq. simplify_eq. destruct (Hin id') as (r' & Hr' & ?); [|by simplify_eq].
    apply Hall, (proj2 Hsame2 id'). by eexists.
Qed.

(** The executor can start every service. *)
Definition starts_succeed : Prop := ∀ id x, ∃ x' h, executor_start id x = (x', Ok h).

(** Every process service has a command. *)
Definition startable (g : DependencyGraph) : Prop :=
  ∀ id m, dg_manifests g !! id = Some m → service_type m = StProcess → is_Some (command m).

Lemma start_each_ok l pre ids s x : managed l s → starts_succeed → startable (sm_graph s) →
  dg_start_order (sm_graph s) = pre ++ ids → (∀ d, d ∈ pre → is_running s d = true) →
  (start_each ids s x).2 = Ok tt.
Proof.
  intros Hm Hsucc. revert pre s x Hm. induction ids as [|id ids IH]; intros pre s x Hm Hsa Hord Hrun; [done|].
  simpl. destruct (managed_graph l s Hm) as [Htopo Hdom].
  destruct (proj1 (Hdom id)) as [m Hman]; [rewrite Hord; set_solver|].
  assert (∃ s1 x1, start_one id s x = ((s1, x1), Ok tt)) as (s1 & x1 & Hst).
  { unfold start_one, dg_manifest. rewrite Hman.
    destruct (find_b _ (dependencies m)) as [d|] eqn:Hf.
    - apply find_b_Some in Hf as [Hd Hn%negb_true_iff]. rewrite Hrun in Hn; [done|].
      eapply Htopo; [exact Hord|]. by exists m.
    - assert (bool_decide (service_type m = StProcess) &&
        negb (bool_decide (is_Some (command m))) = false) as ->.
      { apply andb_false_iff. case_bool_decide; [right|by left].
        rewrite bool_decide_true by (by eapply Hsa). done. }
      destruct (Hsucc id x) as (x' & h & ->). by eexists _, _. }
  rewrite Hst. destruct (start_one_running id s x s1 x1 l Hm Hst) as (Hm1 & Hg1 & Hr1 & Hkeep).
  apply (IH (pre ++ [id])); [done|by rewrite Hg1|by rewrite Hg1, <-app_assoc|].
  intros d [Hd| ->%list_elem_of_singleton]%elem_of_app; auto.
Qed.

(** ** Restart counters *)

Definition restarts_of (s : ServiceManager) (id : string) : option N :=
  ms_restarts <$> sm_state s !! id.

Lemma update_record_restarts id f s id' : (∀ r, ms_restarts (f r) = ms_restarts r) →
  restarts_of (update_record id f s) id' = restarts_of s id'.
Proof.
  intros Hf. unfold restarts_of. destruct (decide (id = id')) as [<-|Hne].
  - rewrite update_record_eq. destruct (sm_state s !! id); [|done]. simpl. by rewrite Hf.
  - by rewrite update_record_ne.
Qed.

Lemma start_one_restarts id s x id' : restarts_of (start_one id s x).1.1 id' = restarts_of s id'.
Proof. unfold start_one. split_matches; try done; by rewrite update_record_restarts. Qed.

Lemma stop_one_restarts id s x id' : restarts_of (stop_one id s x).1.1 id' = restarts_of s id'.
Proof. unfold stop_one. split_matches; try done; by rewrite !update_record_restarts. Qed.

Lemma stop_each_restarts ids e s x id' :
  restarts_of (stop_each ids e s x).1.1 id' = restarts_of s id'.
Proof.
  revert e s x. induction ids as [|id ids IH]; intros e s x; simpl; [done|].
  pose proof (stop_one_restarts id s x id') as H. destruct (stop_one id s x) as [[s1 x1] r].
  simpl in H. by rewrite IH.
Qed.

Lemma start_each_restarts ids s x id' :
  restarts_of (start_each ids s x).1.1 id' = restarts_of s id'.
Proof.
  revert s x. induction ids as [|id ids IH]; intros s x; simpl; [done|].
  pose proof (start_one_restarts id s x id') as H.
  destruct (start_one id s x) as [[s1 x1] [u|e]]; simpl in H; [by rewrite IH|].
  unfold stop_all.
  pose proof (stop_each_restarts (stop_order (sm_graph s1)) None s1 x1 id') as H2.
  destruct (stop_each _ _ _ _) as [[s2 x2] err]. simpl in *. congruence.
Qed.

Lemma poll_each_restarts ids s x id' :
  restarts_of (poll_each ids s x).1.1 id' = restarts_of s id'.
Proof.
  revert s x. induction ids as [|id ids IH]; intros s x; simpl; [done|].
  destruct (sm_state s !! id) as [r|] eqn:Hr; [|apply IH].
  assert (ms_restarts (probe_record r x).1 = ms_restarts r) as Hp.
  { unfold probe_record. destruct (ms_handle r); [|done].
    destruct (executor_health _ x) as [? [?|?]]; done. }
  destruct (probe_record r x) as [r' x']. simpl in Hp.
  specialize (IH (update_record id (λ _, r') s) x').
  destruct (poll_each ids _ x') as [[s2 x2] reports]. simpl in *. rewrite IH.
  unfold restarts_of. destruct (decide (id = id')) as [<-|Hne].
  - rewrite update_record_eq, Hr. simpl. by rewrite Hp.
  - by rewrite update_record_ne.
Qed.

(** ** Failures *)

(** [stop_one] of a service without a handle does not call the executor. *)
Lemma stop_one_no_handle id s x r : sm_state s !! id = Some r → ms_handle r = None →
  stop_one id s x = ((update_record id mark_stopped (update_record id take_handle s), x), Ok tt).
Proof. intros Hr Hh. unfold stop_one. by rewrite Hr, Hh. Qed.

(** What a failure does before the restart: the record as it is when
    [start_one] is called. *)
Definition recovered (r : ManagedService) : ManagedService :=
  mkManagedService SsStopped Unhealthy None (saturating_add u32_max (ms_restarts r) 1)
    (saturating_add u32_max (ms_failures r) 1) None.

Lemma update_update id f g s :
  update_record id f (update_record id g s) = update_record id (λ r, f (g r)) s.
Proof.
  unfold update_record. simpl. f_equal. apply map_eq. intros i. destruct (decide (id = i)) as [<-|].
  - rewrite !lookup_alter_eq. by destruct (sm_state s !! id).
  - by rewrite !lookup_alter_ne.
Qed.

Lemma handle_failure_spec id s x m r :
  dg_manifests (sm_graph s) !! id = Some m → sm_state s !! id = Some r →
  handle_failure id s x =
  if decide (restart_policy m = RpNever ∨ (restart_limit m ≤ ms_restarts r)%N)
  then ((update_record id mark_failed s, x), Ok false)
  else match start_one id (update_record id recovered s) x with
       | (sx, Ok _) => (sx, Ok true)
       | (sx, Err e) => (sx, Err e)
       end.
Proof.
  intros Hm Hr. unfold handle_failure, dg_manifest. rewrite Hm, Hr, update_record_eq, Hr. simpl.
  assert (∀ y, match stop_one id (update_record id mark_recovering (update_record id mark_failed s)) y with
    | ((s, x), Err e) => ((s, x), Err e)
    | ((s, x), Ok _) =>
        match restart_one id s x with
        | ((s, x), Err e) => ((s, x), Err e)
        | ((s, x), Ok _) => ((s, x), Ok true)
        end
    end = match start_one id (update_record id recovered s) y with
       | (sx, Ok _) => (sx, Ok true)
       | (sx, Err e) => (sx, Err e)
       end) as Hrec.
  { intros y. rewrite (stop_one_no_handle _ _ _ (mark_recovering (mark_failed r)));
      [|by rewrite !update_record_eq, Hr|done].
    unfold restart_one. rewrite !update_update.
    erewrite stop_one_no_handle; [|by rewrite update_record_eq, Hr|done].
    rewrite !update_update. change (λ r0 : ManagedService, _) with recovered.
    by destruct (start_one id _ y) as [[s1 x1] [u|e]]. }
  destruct (restart_policy m) eqn:Hpol; [by rewrite decide_True by auto|..];
    (destruct (N.leb_spec (restart_limit m) (ms_restarts r));
     [by rewrite decide_True by auto|rewrite decide_False by (intros [?|?]; [done|lia]); apply Hrec]).
Qed.

Lemma poll_each_same ids s x : same_services s (poll_each ids s x).1.1.
Proof.
  revert s x. induction ids as [|id ids IH]; intros s x; simpl; [auto with aether|].
  destruct (sm_state s !! id) as [r|]; [|apply IH]. destruct (probe_record r x) as [r' x'].
  specialize (IH (update_record id (λ _, r') s) x').
  destruct (poll_each ids _ x') as [[s2 x2] reports]. simpl in *.
  eapply same_services_trans; [|exact IH]. auto with aether.
Qed.

Lemma handle_failure_unknown id s x : sm_state s !! id = None →
  (handle_failure id s x).1 = (s, x).
Proof. intros Hr. unfold handle_failure. rewrite Hr. by destruct (dg_manifest _ _). Qed.

(** ** Sequences of operations *)

Inductive manager_op :=
| OpStart (id : string)
| OpStop (id : string)
| OpStartAll
| OpStopAll
| OpFailure (id : string)
| OpPoll.

Definition run_op (op : manager_op) (sx : ServiceManager * X) : ServiceManager * X :=
  match op with
  | OpStart id => (start_one id sx.1 sx.2).1
  | OpStop id => (stop_one id sx.1 sx.2).1
  | OpStartAll => (start_all sx.1 sx.2).1
  | OpStopAll => (stop_all sx.1 sx.2).1
  | OpFailure id => (handle_failure id sx.1 sx.2).1
  | OpPoll => (poll_health sx.1 sx.2).1
  end.

Definition run_ops (ops : list manager_op) (sx : ServiceManager * X) : ServiceManager * X :=
  foldl (λ sx op, run_op op sx) sx ops.

Definition within_limits (s : ServiceManager) : Prop :=
  ∀ id m n, dg_manifests (sm_graph s) !! id = Some m → restarts_of s id = Some n →
    (n ≤ restart_limit m)%N.

Lemma within_limits_restarts s s' :
  within_limits s → sm_graph s' = sm_graph s → (∀ id, restarts_of s' id = restarts_of s id) →
  within_limits s'.
Proof. intros Hw Hg Hr id m n. rewrite Hg, Hr. apply Hw. Qed.

Lemma managed_graph_eq l s s' : managed l s → managed l s' → sm_graph s' = sm_graph s.
Proof. intros [Hg _] [Hg' _]. congruence. Qed.

Lemma handle_failure_invariant l id s x : managed l s → within_limits s →
  managed l (handle_failure id s x).1.1 ∧ within_limits (handle_failure id s x).1.1.
Proof.
  intros Hm Hw. destruct (sm_state s !! id) as [r|] eqn:Hr;
    [|by rewrite handle_failure_unknown].
  destruct (proj1 (proj2 Hm id)) as [m Hman]; [by eexists|].
  rewrite (handle_failure_spec id s x m r Hman Hr). case_decide as Hd; simpl.
  { split; [eapply managed_same; [done|auto with aether]|].
    eapply within_limits_restarts; [done|done|]. intros id'. by apply update_record_restarts. }
  pose proof (start_one_same id (update_record id recovered s) x) as Hsame.
  pose proof (start_one_restarts id (update_record id recovered s) x) as Hres.
  assert (managed l (update_record id recovered s)) as Hm1
    by (eapply managed_same; [done|auto with aether]).
  assert (within_limits (update_record id recovered s)) as Hw1.
  { intros id' m' n. unfold restarts_of. simpl. destruct (decide (id = id')) as [<-|Hne].
    - rewrite lookup_alter_eq, Hr, Hman. intros [= <-] [= <-]. unfold saturating_add. lia.
    - rewrite lookup_alter_ne by done. apply Hw. }
  destruct (start_one id (update_record id recovered s) x) as [[s1 x1] [u|e]]; simpl in *;
    (split; [by eapply managed_same|]; eapply within_limits_restarts; [exact Hw1|apply Hsame|done]).
Qed.

Lemma run_op_invariant l op sx : managed l sx.1 → within_limits sx.1 →
  managed l (run_op op sx).1 ∧ within_limits (run_op op sx).1.
Proof.
  destruct sx as [s x]. intros Hm Hw. simpl in *.
  assert (∀ s', managed l s' → (∀ id, restarts_of s' id = restarts_of s id) →
    managed l s' ∧ within_limits s') as Hkeep.
  { intros s' Hm' Hr. split; [done|]. eapply within_limits_restarts; [done|by eapply managed_graph_eq|done]. }
  destruct op as [id|id| | |id|]; simpl.
  - apply Hkeep; [eapply managed_same, start_one_same; done|apply start_one_restarts].
  - apply Hkeep; [eapply managed_same, stop_one_same; done|apply stop_one_restarts].
  - pose proof (start_each_spec l (dg_start_order (sm_graph s)) s x Hm (λ _ H, H)) as Hs.
    pose proof (start_each_restarts (dg_start_order (sm_graph s)) s x) as Hr.
    unfold start_all. destruct (start_each _ s x) as [[s1 x1] r]. simpl in *. apply Hkeep; naive_solver.
  - unfold stop_all.
    pose proof (stop_each_same (stop_order (sm_graph s)) None s x) as Hs.
    pose proof (stop_each_restarts (stop_order (sm_graph s)) None s x) as Hr.
    destruct (stop_each _ None s x) as [[s1 x1] r]. simpl in *.
    apply Hkeep; [by eapply managed_same|done].
  - by apply handle_failure_invariant.
  - apply Hkeep; [eapply managed_same, poll_each_same; done|apply poll_each_restarts].
Qed.

(** ** Properties *)

(** [start_all] over a resolved graph either returns [Ok] with every
    service running, or returns the rollback error for some service, and then,
    if the executor's stops succeed, every service is stopped and holds no
    handle. *)
Theorem start_all_all_or_nothing l s x : managed l s →
  let '((s', x'), r) := start_all s x in
  match r with
  | Ok _ => ∀ id, is_Some (dg_manifests (sm_graph s) !! id) → is_running s' id = true
  | Err e =>
      (∃ id, is_Some (dg_manifests (sm_graph s) !! id) ∧
         e = AetherError_service_failed id "startup failed; rolled back all services") ∧
      (stops_succeed → ∀ id, is_Some (dg_manifests (sm_graph s) !! id) →
         ∃ r, sm_state s' !! id = Some r ∧ ms_status r = SsStopped ∧ ms_handle r = None)
  end.
Proof.
  intros Hm. destruct (managed_graph l s Hm) as [_ Hdom].
  pose proof (start_each_spec l (dg_start_order (sm_graph s)) s x Hm (λ _ H, H)) as Hs.
  unfold start_all. destruct (start_each _ s x) as [[s1 x1] [u|e]]; simpl in Hs.
  - destruct Hs as (_ & Hs & _). intros id Hid. by apply Hs, Hdom.
  - destruct Hs as (Hm1 & (id & Hid & ->) & Hstop). split.
    + exists id. split; [by apply Hdom|done].
    + intros Hsucc id' Hid'.
      destruct (proj2 (proj2 Hm1 id')) as [r Hr]; [by rewrite (managed_graph_eq _ _ _ Hm Hm1)|].
      exists r. split; [done|]. by eapply Hstop.
Qed.

(** C27: when the executor can start every service and every process service
    has a command, [start_all] succeeds: the start order never reaches a
    service before its dependencies run. *)
Theorem start_all_succeeds l s x :
  managed l s → starts_succeed → startable (sm_graph s) → (start_all s x).2 = Ok tt.
Proof. intros Hm Hs Hsa. eapply (start_each_ok l []); [done..|set_solver]. Qed.

(** [handle_failure] of a known service counts the failure and clears the
    handle; when the policy is never or the restart limit is reached it
    returns [Ok(false)] without calling the executor, otherwise it counts one
    restart and its outcome is that of one [start_one]. *)
Theorem handle_failure_exact id s x m r :
  dg_manifests (sm_graph s) !! id = Some m → sm_state s !! id = Some r →
  handle_failure id s x =
  if decide (restart_policy m = RpNever ∨ (restart_limit m ≤ ms_restarts r)%N)
  then ((update_record id mark_failed s, x), Ok false)
  else match start_one id (update_record id recovered s) x with
       | (sx, Ok _) => (sx, Ok true)
       | (sx, Err e) => (sx, Err e)
       end.
Proof. apply handle_failure_spec. Qed.

(** Whatever sequence of starts, stops, failures and polls a manager goes
    through, no service is restarted by the failure handler more often than
    its manifest's restart limit. *)
Theorem restarts_within_limit l g ops x :
  DependencyGraph_new l = Some (Ok g) → within_limits (run_ops ops (ServiceManager_new g, x)).1.
Proof.
  intros Hg. assert (managed l (ServiceManager_new g) ∧ within_limits (ServiceManager_new g)) as Hinv.
  { split; [by apply managed_new|]. intros id m n Hm. unfold restarts_of. simpl.
    rewrite lookup_fmap. simpl in Hm. rewrite Hm. intros [= <-]. simpl. lia. }
  assert (∀ sx, managed l sx.1 ∧ within_limits sx.1 →
    managed l (run_ops ops sx).1 ∧ within_limits (run_ops ops sx).1) as Hrun.
  { unfold run_ops. induction ops as [|op ops IH]; intros sx [Hm Hw]; simpl; [done|].
    apply IH. by apply run_op_invariant. }
  by apply (Hrun (ServiceManager_new g, x)).
Qed.

(** The manager holds the handle [h] of the service. *)
Definition holds_handle (s : ServiceManager) (id : string) (r : ManagedService)
    (h : ServiceHandle) : Prop :=
  sm_state s !! id = Some r ∧ ms_handle r = Some h.

(** A failing executor stop loses the service: [stop_one] returns the
    error with the status unchanged and the handle already taken, so the next
    [stop_one] reports success without calling the executor. *)
Theorem failed_stop_loses_handle id s x r h x' e :
  holds_handle s id r h → executor_stop h x = (x', Err e) →
  let s1 := update_record id take_handle s in
  stop_one id s x = ((s1, x'), Err e) ∧
  (ms_status <$> sm_state s1 !! id) = Some (ms_status r) ∧
  (stop_one id s1 x').1.2 = x' ∧ (stop_one id s1 x').2 = Ok tt.
Proof.
  intros [Hr Hh] Hstop s1.
  assert (sm_state s1 !! id = Some (take_handle r)) as Hr1 by (unfold s1; by rewrite update_record_eq, Hr).
  split_and!.
  - unfold stop_one. by rewrite Hr, Hh, Hstop.
  - by rewrite Hr1.
  - by rewrite (stop_one_no_handle _ _ _ _ Hr1 eq_refl).
  - by rewrite (stop_one_no_handle _ _ _ _ Hr1 eq_refl).
Qed.
End props.

(** ** Concrete managers for the properties *)

(** An executor that starts everything and refuses every stop. *)
Definition StubbornExecutor : ServiceExecutor unit := {|
  executor_start _ x := (x, Ok (mkServiceHandle EmptyString 1));
  executor_stop _ x := (x, Err (AetherError_internal "busy"));
  executor_health _ x := (x, Ok Healthy);
  executor_now _ := 0%N;
|}.

Definition example_services : list ServiceManifest :=
  [simple_manifest "shell" ["net"] 5 3; simple_manifest "net" [] 9 3].

Definition example_dgraph : DependencyGraph :=
  mkDependencyGraph (manifest_map example_services) ["net"; "shell"].

Lemma example_dgraph_resolved : DependencyGraph_new example_services = Some (Ok example_dgraph).
Proof. vm_compute. reflexivity. Qed.

Lemma start_all_all_or_nothing_witness :
  let '((s', x'), r) := start_all (ServiceManager_new example_dgraph) 7%N in
  match r with
  | Ok _ => ∀ id, is_Some (dg_manifests example_dgraph !! id) → is_running s' id = true
  | Err e =>
      (∃ id, is_Some (dg_manifests example_dgraph !! id) ∧
         e = AetherError_service_failed id "startup failed; rolled back all services") ∧
      (stops_succeed (X := N) → ∀ id, is_Some (dg_manifests example_dgraph !! id) →
         ∃ r, sm_state s' !! id = Some r ∧ ms_status r = SsStopped ∧ ms_handle r = None)
  end.
Proof.
  apply (start_all_all_or_nothing example_services (ServiceManager_new example_dgraph) 7%N).
  apply managed_new, example_dgraph_resolved.
Defined.

Lemma start_all_succeeds_witness :
  (start_all (ServiceManager_new example_dgraph) 7%N).2 = Ok tt.
Proof.
  apply (start_all_succeeds example_services).
  - apply managed_new, example_dgraph_resolved.
  - intros id x. by eexists _, _.
  - intros id m Hm Ht. simpl in Hm. unfold manifest_map in Hm.
    apply elem_of_list_to_map_2 in Hm. repeat (apply elem_of_cons in Hm as [Hm|Hm]; [by simplify_eq|]).
    by apply not_elem_of_nil in Hm.
Defined.

Lemma handle_failure_exact_witness :
  handle_failure "net" (ServiceManager_new example_dgraph) 7%N =
  if decide (RpOnFailure = RpNever ∨ (3 ≤ 0)%N)
  then ((update_record "net" mark_failed (ServiceManager_new example_dgraph), 7%N), Ok false)
  else match start_one "net" (update_record "net" recovered (ServiceManager_new example_dgraph)) 7%N with
       | (sx, Ok _) => (sx, Ok true)
       | (sx, Err e) => (sx, Err e)
       end.
Proof.
  apply (handle_failure_exact "net" _ _ (simple_manifest "net" [] 9 3) ManagedService_fresh);
    vm_compute; reflexivity.
Defined.

Lemma restarts_within_limit_witness :
  within_limits (run_ops [OpStartAll; OpFailure "net"] (ServiceManager_new example_dgraph, 7%N)).1.
Proof. apply (restarts_within_limit example_services), example_dgraph_resolved. Defined.

Lemma failed_stop_witness :
  let s := (start_one (ServiceExecutor0 := StubbornExecutor) "net"
              (ServiceManager_new example_dgraph) tt).1.1 in
  let s1 := update_record "net" take_handle s in
  stop_one (ServiceExecutor0 := StubbornExecutor) "net" s tt =
    ((s1, tt), Err (AetherError_internal "busy")) ∧
  (ms_status <$> sm_state s1 !! "net") = Some SsRunning ∧
  (stop_one (ServiceExecutor0 := StubbornExecutor) "net" s1 tt).1.2 = tt ∧
  (stop_one (ServiceExecutor0 := StubbornExecutor) "net" s1 tt).2 = Ok tt.
Proof.
  apply (failed_stop_loses_handle (ServiceExecutor0 := StubbornExecutor) "net" _ tt
    (mark_running (mkServiceHandle EmptyString 1) 0 ManagedService_fresh)
    (mkServiceHandle EmptyString 1)); [split|]; vm_compute; reflexivity.
Defined.
