(* ===== verification/Sandbox.v ===== *)
(** * Kernel sandbox plans and seccomp filters

    Models core/aether-core/src/sandbox.rs and seccomp.rs, and the sandbox
    queries of system/aether-system-core/src/manager.rs. *)
From S2P Require Import Prelude RustStd CoreTypes DepGraph Manager.

(** ** sandbox.rs *)

Inductive LinuxCapability :=
| CapChown | CapDacOverride | CapDacReadSearch | CapFowner | CapFsetid | CapKill
| CapSetgid | CapSetuid | CapSetpcap | CapLinuxImmutable | CapNetBindService
| CapNetBroadcast | CapNetAdmin | CapNetRaw | CapIpcLock | CapIpcOwner | CapSysModule
| CapSysRawio | CapSysChroot | CapSysPtrace | CapSysPacct | CapSysAdmin | CapSysBoot
| CapSysNice | CapSysResource | CapSysTime | CapSysTtyConfig | CapMknod | CapLease
| CapAuditWrite | CapAuditControl | CapSetfcap | CapMacOverride | CapMacAdmin | CapSyslog
| CapWakeAlarm | CapBlockSuspend | CapAuditRead | CapPerfmon | CapBpf
| CapCheckpointRestore.

#[export] Instance LinuxCapability_eq_dec : EqDecision LinuxCapability.
Proof. solve_decision. Defined.

Definition LinuxCapability_name (c : LinuxCapability) : string :=
  match c with
  | CapChown => "chown"
  | CapDacOverride => "dac_override"
  | CapDacReadSearch => "dac_read_search"
  | CapFowner => "fowner"
  | CapFsetid => "fsetid"
  | CapKill => "kill"
  | CapSetgid => "setgid"
  | CapSetuid => "setuid"
  | CapSetpcap => "setpcap"
  | CapLinuxImmutable => "linux_immutable"
  | CapNetBindService => "net_bind_service"
  | CapNetBroadcast => "net_broadcast"
  | CapNetAdmin => "net_admin"
  | CapNetRaw => "net_raw"
  | CapIpcLock => "ipc_lock"
  | CapIpcOwner => "ipc_owner"
  | CapSysModule => "sys_module"
  | CapSysRawio => "sys_rawio"
  | CapSysChroot => "sys_chroot"
  | CapSysPtrace => "sys_ptrace"
  | CapSysPacct => "sys_pacct"
  | CapSysAdmin => "sys_admin"
  | CapSysBoot => "sys_boot"
  | CapSysNice => "sys_nice"
  | CapSysResource => "sys_resource"
  | CapSysTime => "sys_time"
  | CapSysTtyConfig => "sys_tty_config"
  | CapMknod => "mknod"
  | CapLease => "lease"
  | CapAuditWrite => "audit_write"
  | CapAuditControl => "audit_control"
  | CapSetfcap => "setfcap"
  | CapMacOverride => "mac_override"
  | CapMacAdmin => "mac_admin"
  | CapSyslog => "syslog"
  | CapWakeAlarm => "wake_alarm"
  | CapBlockSuspend => "block_suspend"
  | CapAuditRead => "audit_read"
  | CapPerfmon => "perfmon"
  | CapBpf => "bpf"
  | CapCheckpointRestore => "checkpoint_restore"
  end.

Inductive LinuxNamespace := NsMount | NsPid | NsNetwork | NsIpc | NsUts | NsUser | NsCgroup.

#[export] Instance LinuxNamespace_eq_dec : EqDecision LinuxNamespace.
Proof. solve_decision. Defined.

Definition LinuxNamespace_name (n : LinuxNamespace) : string :=
  match n with
  | NsMount => "mount"
  | NsPid => "pid"
  | NsNetwork => "network"
  | NsIpc => "ipc"
  | NsUts => "uts"
  | NsUser => "user"
  | NsCgroup => "cgroup"
  end.

Record SeccompFilterTag := mkSeccompFilterTag { tag_str : string }.

Record ResourceLimits := mkResourceLimits {
  cgroup_slice : string;
  cpu_weight : N;
  memory_max_bytes : option N;
  pids_max : option N;
  io_weight : N;
}.

Definition ResourceLimits_system_default : ResourceLimits :=
  mkResourceLimits "aether.slice/system.service.slice" 100 None (Some 256%N) 100.
Definition ResourceLimits_restricted_default : ResourceLimits :=
  mkResourceLimits "aether.slice/restricted.app.slice" 50 (Some (512 * 1024 * 1024)%N)
    (Some 64%N) 50.

Record SandboxPlan := mkSandboxPlan {
  sp_profile : SandboxProfile;
  sp_namespaces : list LinuxNamespace;
  sp_capabilities : list LinuxCapability;
  sp_no_new_privs : bool;
  sp_seccomp : option SeccompFilterTag;
  sp_resources : ResourceLimits;
  sp_rationale : string;
}.

Definition plan_sandbox (profile : SandboxProfile) : SandboxPlan :=
  match profile with
  | SbInternal =>
      mkSandboxPlan profile [] [] false None
        (mkResourceLimits "aether.slice/internal.slice" 100 None None 100)
        "internal services run inside the system-core address space; no kernel sandbox is applied"
  | SbSystemService =>
      mkSandboxPlan profile [NsUser; NsMount; NsUts]
        [CapChown; CapFowner; CapFsetid; CapSetgid; CapSetuid; CapSetpcap; CapNetBindService;
         CapKill; CapSysTime; CapSysResource; CapAuditWrite]
        true (Some (mkSeccompFilterTag "system-service-v1")) ResourceLimits_system_default
        "system services get a user namespace, the Linux capabilities they actually need, a seccomp allow-list, and no_new_privs so setuid binaries cannot escalate"
  | SbRestrictedService =>
      mkSandboxPlan profile [NsUser; NsMount; NsPid; NsNetwork; NsIpc; NsUts] []
        true (Some (mkSeccompFilterTag "restricted-app-v1")) ResourceLimits_restricted_default
        "user-facing apps run in their own user+pid+network namespace, drop every ambient capability, and are constrained to a strict seccomp allow-list"
  end.

(** The manager's queries. *)
Definition sandbox_plan (s : ServiceManager) (id : string) : option SandboxPlan :=
  m ← dg_manifest (sm_graph s) id; Some (plan_sandbox (sandbox_profile m)).

Definition all_sandbox_plans (s : ServiceManager) : list (string * SandboxPlan) :=
  (λ m, (service_id m, plan_sandbox (sandbox_profile m))) <$> dg_manifest_list (sm_graph s).

(** ** seccomp.rs *)

Inductive SyscallAction := ActAllow | ActKill | ActErrno (code : Z) | ActLog.

#[export] Instance SyscallAction_eq_dec : EqDecision SyscallAction.
Proof. solve_decision. Defined.

Definition SyscallAction_display (a : SyscallAction) : string :=
  match a with
  | ActAllow => "ALLOW"
  | ActKill => "KILL"
  | ActErrno code => "ERRNO(" +:+ pretty code +:+ ")"
  | ActLog => "LOG"
  end.

Inductive ArgCmp :=
| CmpEq | CmpNe | CmpLt | CmpLe | CmpGt | CmpGe | CmpMaskedEq (mask : N).

Record ArgConstraint := mkArgConstraint {
  arg_index : N;
  arg_op : ArgCmp;
  arg_value : N;
}.

Record SyscallRule := mkSyscallRule {
  rule_name : string;
  rule_action : SyscallAction;
  rule_args : list ArgConstraint;
}.

Record SeccompFilter := mkSeccompFilter {
  filter_name : string;
  filter_default : SyscallAction;
  filter_rules : list SyscallRule;
}.

Definition SeccompFilter_new (name : string) (d : SyscallAction) : SeccompFilter :=
  mkSeccompFilter name d [].
Definition SeccompFilter_rule (r : SyscallRule) (f : SeccompFilter) : SeccompFilter :=
  mkSeccompFilter (filter_name f) (filter_default f) (filter_rules f ++ [r]).
Definition SeccompFilter_allow (name : string) (f : SeccompFilter) : SeccompFilter :=
  SeccompFilter_rule (mkSyscallRule name ActAllow []) f.
Definition SeccompFilter_kill (name : string) (f : SeccompFilter) : SeccompFilter :=
  SeccompFilter_rule (mkSyscallRule name ActKill []) f.
Definition SeccompFilter_errno (name : string) (code : Z) (f : SeccompFilter) : SeccompFilter :=
  SeccompFilter_rule (mkSyscallRule name (ActErrno code) []) f.
Definition rule_count (f : SeccompFilter) : nat := length (filter_rules f).
Definition is_allowed (f : SeccompFilter) (syscall_name : string) : bool :=
  existsb (λ r, bool_decide (rule_name r = syscall_name)
                && bool_decide (rule_action r = ActAllow)) (filter_rules f).

Inductive FilterError :=
| NotSupported
| InstallFailed (s : string)
| AlreadyInstalled
| NotInstalled
| FilterIoError (s : string).

Definition FilterError_display (e : FilterError) : string :=
  match e with
  | NotSupported => "seccomp-BPF not supported on this platform"
  | InstallFailed s => "filter install failed: " +:+ s
  | AlreadyInstalled => "filter already installed"
  | NotInstalled => "filter not installed"
  | FilterIoError s => "I/O error: " +:+ s
  end.

(** The chain of [.allow(..)] calls over a list of names. *)
Definition allow_all (names : list string) (f : SeccompFilter) : SeccompFilter :=
  foldl (λ f n, SeccompFilter_allow n f) f names.

(** The first half of the chain of [system_service_rules]. *)
Definition system_service_rules_head : SeccompFilter :=
  allow_all [
    "read"; "write"; "open"; "close"; "fstat"; "lseek"; "mmap"; "mprotect"; "munmap";
    "brk"; "ioctl"; "access"; "pipe"; "select"; "sched_yield"; "mremap"; "msync";
    "mincore"; "madvise"; "shmget"; "shmat"; "shmctl"; "dup"; "dup2"; "pause"; "nanosleep";
    "getitimer"; "alarm"; "setitimer"; "getpid"; "sendfile"; "socket"; "connect"; "accept";
    "sendto"; "recvfrom"; "sendmsg"; "recvmsg"; "shutdown"; "bind"; "listen";
    "getsockname"; "getpeername"; "socketpair"; "setsockopt"; "getsockopt"; "clone";
    "fork"; "vfork"; "execve"; "exit"; "wait4"; "kill"; "uname"; "semget"; "semop";
    "semctl"; "shmdt"; "msgget"; "msgsnd"; "msgrcv"; "msgctl"; "fcntl"; "flock"; "fsync";
    "fdatasync"; "truncate"; "ftruncate"; "getdents"; "getcwd"; "chdir"; "fchdir";
    "rename"; "mkdir"; "rmdir"; "creat"; "link"; "unlink"; "symlink"; "readlink"; "chmod";
    "fchmod"; "chown"; "fchown"; "lchown"; "umask"; "gettimeofday"; "getrlimit";
    "getrusage"; "sysinfo"; "times"; "ptrace"; "getuid"; "getgid"; "setuid"; "setgid";
    "geteuid"; "getegid"; "setpgid"; "getppid"; "getpgrp"; "setsid"; "setreuid";
    "setregid"; "getgroups"; "setgroups"; "setresuid"; "getresuid"; "setresgid";
    "getresgid"; "getpgid"; "setfsuid"; "setfsgid"; "getsid"; "capget"; "capset";
    "rt_sigaction"; "rt_sigprocmask"; "rt_sigreturn"; "rt_sigpending"; "rt_sigtimedwait";
    "rt_sigqueueinfo"; "rt_sigsuspend"; "sigaltstack"; "utime"; "mount"; "pivot_root";
    "umount2"; "sethostname"
  ] (SeccompFilter_new "system-service-v1" ActKill).

Definition system_service_rules : SeccompFilter :=
  allow_all [
    "setdomainname"; "getrlimit"; "syslog"; "setrlimit"; "getrusage"; "gettimeofday";
    "settimeofday"; "adjtimex"; "getpid"; "getppid"; "getuid"; "geteuid"; "getgid";
    "getegid"; "gettid"; "sysinfo"; "mq_open"; "mq_unlink"; "mq_timedsend";
    "mq_timedreceive"; "mq_notify"; "mq_getsetattr"; "msgget"; "msgctl"; "msgrcv";
    "msgsnd"; "semget"; "semctl"; "semtimedop"; "semop"; "shmget"; "shmctl"; "shmat";
    "shmdt"; "socket"; "socketpair"; "bind"; "listen"; "accept"; "connect"; "getsockname";
    "getpeername"; "sendto"; "recvfrom"; "setsockopt"; "getsockopt"; "shutdown"; "sendmsg";
    "recvmsg"; "readahead"; "splice"; "tee"; "readlinkat"; "fchmodat"; "faccessat";
    "pselect6"; "ppoll"; "unshare"; "set_robust_list"; "get_robust_list"; "futex";
    "set_tid_address"; "clock_gettime"; "clock_getres"; "clock_nanosleep"; "exit_group";
    "epoll_wait"; "epoll_ctl"; "tgkill"; "utimes"; "mbind"; "set_mempolicy";
    "get_mempolicy"; "openat"; "mkdirat"; "mknodat"; "fchownat"; "futimesat"; "newfstatat";
    "unlinkat"; "renameat"; "linkat"; "symlinkat"; "readlinkat"; "fchmodat"; "faccessat";
    "dup3"; "pipe2"; "inotify_init1"; "preadv"; "pwritev"; "rt_tgsigqueueinfo";
    "perf_event_open"; "recvmmsg"; "fanotify_init"; "fanotify_mark"; "prlimit64";
    "name_to_handle_at"; "open_by_handle_at"; "clock_adjtime"; "syncfs"; "sendmmsg";
    "setns"; "getcpu"; "process_vm_readv"; "process_vm_writev"; "kcmp"; "finit_module";
    "sched_setattr"; "sched_getattr"; "renameat2"; "seccomp"; "getrandom"; "memfd_create";
    "kexec_file_load"; "bpf"; "execveat"; "userfaultfd"; "membarrier"; "mlock2";
    "copy_file_range"; "preadv2"; "pwritev2"; "pkey_mprotect"; "pkey_alloc"; "pkey_free";
    "statx"; "io_pgetevents"; "rseq"; "kexec_file_load"
  ] system_service_rules_head.

Definition restricted_app_rules : SeccompFilter :=
  allow_all [
    "read"; "write"; "open"; "close"; "fstat"; "lseek"; "mmap"; "mprotect"; "munmap";
    "brk"; "ioctl"; "access"; "pipe"; "select"; "sched_yield"; "mremap"; "msync";
    "mincore"; "madvise"; "dup"; "dup2"; "nanosleep"; "clock_nanosleep"; "getpid"; "clone";
    "fork"; "vfork"; "execve"; "exit"; "exit_group"; "wait4"; "uname"; "fcntl"; "flock";
    "fsync"; "fdatasync"; "truncate"; "ftruncate"; "getdents"; "getcwd"; "chdir"; "fchdir";
    "rename"; "mkdir"; "rmdir"; "creat"; "link"; "unlink"; "symlink"; "readlink"; "chmod";
    "fchmod"; "chown"; "fchown"; "lchown"; "umask"; "gettimeofday"; "getrlimit";
    "getrusage"; "sysinfo"; "times"; "getuid"; "getgid"; "geteuid"; "getegid"; "getppid";
    "getpgrp"; "setsid"; "getgroups"; "gettid"; "sigaltstack"; "rt_sigaction";
    "rt_sigprocmask"; "rt_sigreturn"; "futex"; "set_tid_address"; "clock_gettime";
    "clock_getres"; "epoll_wait"; "epoll_ctl"; "tgkill"; "openat"; "mkdirat"; "mknodat";
    "fchownat"; "futimesat"; "newfstatat"; "unlinkat"; "renameat"; "linkat"; "symlinkat";
    "readlinkat"; "fchmodat"; "faccessat"; "dup3"; "pipe2"; "preadv"; "pwritev";
    "getrandom"; "memfd_create"; "statx"; "rseq"
  ] (SeccompFilter_new "restricted-app-v1" ActKill).

(** ** The mock filter: an install/uninstall state machine *)

Record MockSyscallFilter := mkMockSyscallFilter {
  mock_installed : bool;
  mock_last_filter : option SeccompFilter;
  mock_install_count : N;
}.

Definition MockSyscallFilter_new : MockSyscallFilter := mkMockSyscallFilter false None 0.

(** [install]; [fetch_add] wraps. *)
Definition MockSyscallFilter_install (f : SeccompFilter) (m : MockSyscallFilter) :
    MockSyscallFilter * result unit FilterError :=
  if mock_installed m then (m, Err AlreadyInstalled)
  else (mkMockSyscallFilter true (Some f) ((mock_install_count m + 1) mod 2 ^ 32)%N, Ok tt).

Definition MockSyscallFilter_uninstall (m : MockSyscallFilter) :
    MockSyscallFilter * result unit FilterError :=
  if negb (mock_installed m) then (m, Err NotInstalled)
  else (mkMockSyscallFilter false (mock_last_filter m) (mock_install_count m), Ok tt).

(** ** Lemmas *)

Lemma allow_all_rules names f :
  filter_name (allow_all names f) = filter_name f ∧
  filter_default (allow_all names f) = filter_default f ∧
  filter_rules (allow_all names f) =
    filter_rules f ++ ((λ n, mkSyscallRule n ActAllow []) <$> names).
Proof.
  unfold allow_all. revert f. induction names as [|n names IH]; intros f; simpl.
  - by rewrite app_nil_r.
  - destruct (IH (SeccompFilter_allow n f)) as (-> & -> & ->). simpl. by rewrite <-app_assoc.
Qed.

Lemma is_allowed_names f n :
  is_allowed f n = true ↔ n ∈ rule_name <$> List.filter (λ r, bool_decide (rule_action r = ActAllow)) (filter_rules f).
Proof.
  unfold is_allowed. rewrite existsb_exists, list_elem_of_fmap.
  setoid_rewrite list_elem_of_In. setoid_rewrite List.filter_In. split.
  - intros (r & Hin & [H1%bool_decide_eq_true_1 H2]%andb_true_iff). by exists r.
  - intros (r & -> & Hin & H2). exists r. split; [done|]. by rewrite bool_decide_true, H2.
Qed.

(** System calls that open the network, change mounts or namespaces, load
    kernel code, inspect other processes or change identity. *)
Definition privileged_syscalls : list string :=
  ["socket"; "socketpair"; "bind"; "listen"; "accept"; "connect"; "sendto"; "recvfrom";
   "sendmsg"; "recvmsg"; "sendmmsg"; "recvmmsg"; "mount"; "umount2"; "pivot_root"; "unshare";
   "setns"; "finit_module"; "kexec_file_load"; "bpf"; "ptrace"; "process_vm_readv";
   "process_vm_writev"; "setuid"; "setgid"; "setgroups"; "setresuid"; "setresgid"; "capset";
   "capget"; "settimeofday"; "sethostname"; "perf_event_open"; "userfaultfd"].

(** ** Properties *)

(** The plan of a restricted service keeps no capability, sets
    no-new-privileges, isolates the network and process namespaces and names
    the restricted filter; that filter kills every system call it does not
    list, allows none of the networking, mount, module, tracing or identity
    calls, and allows nothing that the system-service filter does not. *)
Theorem restricted_plan_is_confined :
  let p := plan_sandbox SbRestrictedService in
  sp_capabilities p = [] ∧ sp_no_new_privs p = true ∧
  NsNetwork ∈ sp_namespaces p ∧ NsPid ∈ sp_namespaces p ∧
  sp_seccomp p = Some (mkSeccompFilterTag (filter_name restricted_app_rules)) ∧
  sp_seccomp (plan_sandbox SbSystemService) =
    Some (mkSeccompFilterTag (filter_name system_service_rules)) ∧
  filter_default restricted_app_rules = ActKill ∧
  (∀ n, n ∈ privileged_syscalls → is_allowed restricted_app_rules n = false) ∧
  (∀ n, is_allowed restricted_app_rules n = true → is_allowed system_service_rules n = true).
Proof.
  cbn zeta. split_and!; try reflexivity.
  - apply (bool_decide_unpack _). by vm_compute.
  - apply (bool_decide_unpack _). by vm_compute.
  - intros n Hn. apply not_true_is_false. rewrite is_allowed_names. revert n Hn.
    apply Forall_forall. apply (bool_decide_unpack _). by vm_compute.
  - intros n. rewrite !is_allowed_names. revert n.
    apply Forall_forall. apply (bool_decide_unpack _). by vm_compute.
Qed.

(** Distinct Linux capabilities have distinct wire names, and so have
    distinct namespaces: a logged plan determines its primitives. *)
Theorem sandbox_names_injective :
  (∀ a b, LinuxCapability_name a = LinuxCapability_name b → a = b) ∧
  (∀ a b, LinuxNamespace_name a = LinuxNamespace_name b → a = b).
Proof.
  split; [|by intros [] []].
  intros a b. destruct a; destruct b; (reflexivity || discriminate).
Qed.

(** The system-service filter allows loading kernel code and replacing the
    kernel although the plan keeps neither capability, and omits [poll]. *)
Example system_service_filter_gaps :
  is_allowed system_service_rules "finit_module" = true ∧
  is_allowed system_service_rules "kexec_file_load" = true ∧
  is_allowed system_service_rules "poll" = false ∧
  CapSysModule ∉ sp_capabilities (plan_sandbox SbSystemService).
Proof.
  split_and!; [vm_compute; reflexivity..|]. apply (bool_decide_unpack _). by vm_compute.
Qed.
