(* ===== verification/Policy.v ===== *)
(** * The permission policy gate

    Models security/aether-security/src/lib.rs (the default permission policy)
    and system/aether-system-core/src/policy.rs (its use by the dispatcher). *)
From S2P Require Import Prelude RustStd CoreTypes TaskGraph.

(** ** aether-security *)

Inductive PolicyDecision := Allow | Deny | RequireConsent.

#[export] Instance PolicyDecision_eq_dec : EqDecision PolicyDecision.
Proof. solve_decision. Defined.

Definition PolicyDecision_display (d : PolicyDecision) : string :=
  match d with
  | Allow => "allow"
  | Deny => "deny"
  | RequireConsent => "require-consent"
  end.

Record PermissionDecision := mkPermissionDecision {
  pd_decision : PolicyDecision;
  pd_reason : string;
}.

Definition PermissionDecision_allow (r : string) : PermissionDecision := mkPermissionDecision Allow r.
Definition PermissionDecision_deny (r : string) : PermissionDecision := mkPermissionDecision Deny r.
Definition PermissionDecision_require_consent (r : string) : PermissionDecision :=
  mkPermissionDecision RequireConsent r.

(** The [PermissionPolicy] trait. *)
Class PermissionPolicy (P : Type) := policy_evaluate : P → Capability → PermissionDecision.

(** [DefaultPermissionPolicy::evaluate]. *)
Definition DefaultPermissionPolicy_evaluate (c : Capability) : PermissionDecision :=
  match cap_risk_level c with
  | RlLow => PermissionDecision_allow "low-risk local capability"
  | RlMedium => PermissionDecision_require_consent "medium-risk capability"
  | RlHigh | RlCritical => PermissionDecision_require_consent "elevated-risk capability"
  end.

#[export] Instance DefaultPermissionPolicy : PermissionPolicy unit :=
  λ _, DefaultPermissionPolicy_evaluate.

(** ** aether-system-core *)

Record PolicyVerdict := mkPolicyVerdict {
  pv_decision : PolicyDecision;
  pv_reason : string;
}.

Definition PolicyVerdict_allow (r : string) : PolicyVerdict := mkPolicyVerdict Allow r.
Definition PolicyVerdict_deny (r : string) : PolicyVerdict := mkPolicyVerdict Deny r.
Definition PolicyVerdict_require_consent (r : string) : PolicyVerdict :=
  mkPolicyVerdict RequireConsent r.
Definition PolicyVerdict_is_allow (v : PolicyVerdict) : bool := bool_decide (pv_decision v = Allow).

(** The arms of the match of [command_to_capability]. *)
Definition command_table : list (string * (CapabilityDomain * string * RiskLevel)) :=
  [ ("process.list", (CdProcess, "list", RlLow));
    ("process.inspect", (CdProcess, "inspect", RlLow));
    ("storage.status", (CdStorage, "status", RlLow));
    ("file.list", (CdFilesystem, "list", RlLow));
    ("file.read", (CdFilesystem, "read", RlLow));
    ("file.search", (CdFilesystem, "search", RlLow));
    ("file.create", (CdFilesystem, "create", RlMedium));
    ("file.write", (CdFilesystem, "write", RlMedium));
    ("file.rename", (CdFilesystem, "rename", RlMedium));
    ("file.move", (CdFilesystem, "move", RlMedium));
    ("file.delete", (CdFilesystem, "delete", RlHigh));
    ("system.status", (CdSystem, "status", RlLow));
    ("system.info", (CdSystem, "info", RlLow));
    ("system.resources", (CdSystem, "resources", RlLow));
    ("system.uptime", (CdSystem, "uptime", RlLow));
    ("shutdown", (CdSystem, "shutdown", RlCritical));
    ("system.shutdown", (CdSystem, "shutdown", RlCritical));
    ("network.status", (CdNetwork, "status", RlLow));
    ("network.interfaces", (CdNetwork, "interfaces", RlLow));
    ("sandbox.plan", (CdSystem, "sandbox.plan", RlLow)) ].

Definition command_to_capability (cmd : string) : option Capability :=
  '(_, (domain, name, risk)) ← find_b (λ arm, bool_decide (arm.1 = cmd)) command_table;
  Some (Capability_new domain name risk).

Definition policy_verdict (cmd : string) (trust : ActorTrust) : PolicyVerdict :=
  if bool_decide (trust = Untrusted)
  then PolicyVerdict_deny "untrusted actor: capability denied by policy"
  else
    match command_to_capability cmd with
    | None => PolicyVerdict_allow "command is not policy-gated"
    | Some cap =>
        let decision := policy_evaluate tt cap in
        match pd_decision decision with
        | Allow => PolicyVerdict_allow (pd_reason decision)
        | Deny => PolicyVerdict_deny (pd_reason decision)
        | RequireConsent => PolicyVerdict_require_consent (pd_reason decision)
        end
    end.

(** The conversions between the agent's risk and the core's, task.rs 44-64. *)
Definition RiskLevel_from_TaskRisk (r : TaskRisk) : RiskLevel :=
  match r with
  | RiskLow => RlLow | RiskMedium => RlMedium | RiskHigh => RlHigh | RiskCritical => RlCritical
  end.
Definition TaskRisk_from_RiskLevel (r : RiskLevel) : TaskRisk :=
  match r with
  | RlLow => RiskLow | RlMedium => RiskMedium | RlHigh => RiskHigh | RlCritical => RiskCritical
  end.

(** ** Properties *)

(** The gate is exact: an untrusted actor is denied every command; a
    trusted one is allowed a command exactly when it maps to no capability or
    to a low-risk one, and is asked for consent otherwise, so that no file
    mutation and no shutdown is ever executed without consent. *)
Theorem policy_gate_exact cmd trust :
  (pv_decision (policy_verdict cmd trust) = Deny ↔ trust = Untrusted) ∧
  (PolicyVerdict_is_allow (policy_verdict cmd trust) = true ↔
     trust = Trusted ∧
     ∀ cap, command_to_capability cmd = Some cap → cap_risk_level cap = RlLow) ∧
  (cmd ∈ ["file.create"; "file.write"; "file.rename"; "file.move"; "file.delete"; "shutdown";
          "system.shutdown"] →
   PolicyVerdict_is_allow (policy_verdict cmd trust) = false).
Proof.
  assert (∀ cap, command_to_capability cmd = Some cap → trust = Trusted →
    pv_decision (policy_verdict cmd trust) =
      if decide (cap_risk_level cap = RlLow) then Allow else RequireConsent) as Hcap.
  { intros cap Hc ->. unfold policy_verdict. simpl. rewrite Hc.
    unfold policy_evaluate, DefaultPermissionPolicy, DefaultPermissionPolicy_evaluate.
    by destruct (cap_risk_level cap). }
  unfold PolicyVerdict_is_allow. rewrite bool_decide_eq_true. split_and!.
  - destruct trust; [|done]. split; [|done].
    destruct (command_to_capability cmd) as [cap|] eqn:Hc.
    + rewrite (Hcap cap) by done. by case_decide.
    + unfold policy_verdict. simpl. by rewrite Hc.
  - destruct trust; [|naive_solver].
    destruct (command_to_capability cmd) as [cap|] eqn:Hc.
    + rewrite (Hcap cap) by done. case_decide; naive_solver.
    + unfold policy_verdict. simpl. rewrite Hc. naive_solver.
  - rewrite !elem_of_cons, elem_of_nil. destruct trust; [|done].
    intros Hin. repeat destruct Hin as [->|Hin]; by vm_compute.
Qed.

(** The two risk scales are the same scale: the conversions are inverse
    to each other, and every capability check that a set of granted
    capabilities passes is monotone in the granted set. *)
Theorem risk_scales_agree_and_grants_monotone :
  (∀ r, RiskLevel_from_TaskRisk (TaskRisk_from_RiskLevel r) = r) ∧
  (∀ r, TaskRisk_from_RiskLevel (RiskLevel_from_TaskRisk r) = r) ∧
  (∀ granted granted' required, (∀ c, c ∈ granted → c ∈ granted') →
     has_all_capabilities granted required = true →
     has_all_capabilities granted' required = true).
Proof.
  split_and!; [by intros []|by intros []|].
  intros granted granted' required Hsub. unfold has_all_capabilities.
  rewrite !forallb_forall. intros H r Hr. specialize (H r Hr).
  unfold has_capability in *. rewrite existsb_exists in *. destruct H as (c & Hc & Heq).
  exists c. split; [|done]. apply list_elem_of_In, Hsub. by apply list_elem_of_In.
Qed.
