(* ===== verification/AgentCore.v ===== *)
(** * Observations, proposals and the agent status

    Models agent/aether-agent-core/src: observation.rs, proposal.rs and
    state.rs.  As for tasks, the structured data of an observation and the
    arguments of a proposal are values of the type parameter [Json]. *)
From S2P Require Import Prelude RustStd CoreTypes TaskGraph Policy.

(** ** observation.rs *)

Definition OBSERVATION_LOG_LIMIT : nat := 256.

Inductive ObservationSeverity := SevInfo | SevNotice | SevWarning | SevCritical.

Definition ObservationSeverity_as_str (s : ObservationSeverity) : string :=
  match s with
  | SevInfo => "info" | SevNotice => "notice" | SevWarning => "warning"
  | SevCritical => "critical"
  end.

Record Observation {Json : Type} := mkObservation {
  obs_id : string;
  obs_component : string;
  obs_summary : string;
  obs_detail : option string;
  obs_severity : ObservationSeverity;
  obs_timestamp_ms : N;
  obs_data : option Json;
}.
Arguments Observation Json : clear implicits.
Arguments mkObservation {Json}.

(** ** proposal.rs *)

Inductive ProposalRisk := PrLow | PrMedium | PrHigh | PrCritical.

#[export] Instance ProposalRisk_eq_dec : EqDecision ProposalRisk.
Proof. solve_decision. Defined.

Definition ProposalRisk_as_str (r : ProposalRisk) : string :=
  match r with
  | PrLow => "low" | PrMedium => "medium" | PrHigh => "high" | PrCritical => "critical"
  end.

Definition ProposalRisk_to_risk_level (r : ProposalRisk) : RiskLevel :=
  match r with
  | PrLow => RlLow | PrMedium => RlMedium | PrHigh => RlHigh | PrCritical => RlCritical
  end.

Definition ProposalRisk_requires_consent (r : ProposalRisk) : bool :=
  match r with PrLow => false | _ => true end.

(** The derived order: the order of the constructors. *)
Definition ProposalRisk_rank (r : ProposalRisk) : nat :=
  match r with PrLow => 0 | PrMedium => 1 | PrHigh => 2 | PrCritical => 3 end.

Definition ProposalRisk_lt (a b : ProposalRisk) : bool :=
  (ProposalRisk_rank a <? ProposalRisk_rank b)%nat.

(** [ProposalId] is a wrapped string and is modelled by the string. *)
Definition ProposalId_new (s : string) : option string :=
  if str_is_empty s then None else Some s.

Record Proposal {Json : Type} := mkProposal {
  prop_id : string;
  prop_kind : TaskKind;
  prop_title : string;
  prop_description : string;
  prop_risk : ProposalRisk;
  prop_reasoning : string;
  prop_evidence : list string;
  prop_timestamp_ms : N;
  prop_target : option string;
  prop_arguments : option Json;
}.
Arguments Proposal Json : clear implicits.
Arguments mkProposal {Json}.

Inductive ProposalError :=
| EmptyId
| IncompleteDescription
| UnknownEvidence (proposal missing : string)
| RiskTooLowForKind (kind : TaskKind) (risk : ProposalRisk).

Definition ProposalError_display (e : ProposalError) : string :=
  match e with
  | EmptyId => "proposal id is empty"
  | IncompleteDescription => "proposal is missing title, description, or reasoning"
  | UnknownEvidence proposal missing =>
      "proposal '" +:+ proposal +:+ "' references unknown observation '" +:+ missing +:+ "'"
  | RiskTooLowForKind kind risk =>
      "proposal kind '" +:+ TaskKind_as_str kind +:+ "' requires consent, but risk is '"
      +:+ ProposalRisk_as_str risk +:+ "'"
  end.

(** The [min_risk] of [validate_proposal]. *)
Definition min_risk (k : TaskKind) : ProposalRisk :=
  match k with
  | Notify | DisplayControl => PrLow
  | ProposeUpdate | ProposeInstall | SecurityControl | PowerControl | Custom => PrHigh
  | _ => PrMedium
  end.

Section proposals.
Context {Json : Type}.
Implicit Types (p : Proposal Json) (o : Observation Json).

Definition Observation_new (id component summary : string) (severity : ObservationSeverity)
    (timestamp_ms : N) : option (Observation Json) :=
  if str_is_empty id || str_is_empty component || str_is_empty summary then None
  else Some (mkObservation id component summary None severity timestamp_ms None).

Definition Observation_with_detail (detail : string) o : Observation Json :=
  mkObservation (obs_id o) (obs_component o) (obs_summary o) (Some detail) (obs_severity o)
    (obs_timestamp_ms o) (obs_data o).

Definition Observation_with_data (data : Json) o : Observation Json :=
  mkObservation (obs_id o) (obs_component o) (obs_summary o) (obs_detail o) (obs_severity o)
    (obs_timestamp_ms o) (Some data).

Definition Proposal_new (id : string) (kind : TaskKind) (title description reasoning : string)
    (risk : ProposalRisk) (timestamp_ms : N) : option (Proposal Json) :=
  id ← ProposalId_new id;
  if str_is_empty title || str_is_empty description || str_is_empty reasoning then None
  else Some (mkProposal id kind title description risk reasoning [] timestamp_ms None None).

Definition Proposal_with_evidence (ids : list string) p : Proposal Json :=
  mkProposal (prop_id p) (prop_kind p) (prop_title p) (prop_description p) (prop_risk p)
    (prop_reasoning p) (prop_evidence p ++ ids) (prop_timestamp_ms p) (prop_target p)
    (prop_arguments p).

Definition Proposal_with_target (target : string) p : Proposal Json :=
  mkProposal (prop_id p) (prop_kind p) (prop_title p) (prop_description p) (prop_risk p)
    (prop_reasoning p) (prop_evidence p) (prop_timestamp_ms p) (Some target) (prop_arguments p).

Definition Proposal_with_arguments (args : Json) p : Proposal Json :=
  mkProposal (prop_id p) (prop_kind p) (prop_title p) (prop_description p) (prop_risk p)
    (prop_reasoning p) (prop_evidence p) (prop_timestamp_ms p) (prop_target p) (Some args).

Definition Proposal_requires_consent p : bool := ProposalRisk_requires_consent (prop_risk p).

(** The loop over the evidence: the first id that no observation has. *)
Definition unknown_evidence (evidence : list string) (observations : list (Observation Json)) :
    option string :=
  find_b (λ ev, negb (existsb (λ o, bool_decide (obs_id o = ev)) observations)) evidence.

Definition validate_proposal p (observations : list (Observation Json)) :
    result unit ProposalError :=
  if str_is_empty (prop_id p) then Err EmptyId
  else if str_is_empty (prop_title p) || str_is_empty (prop_description p)
          || str_is_empty (prop_reasoning p)
  then Err IncompleteDescription
  else
    match unknown_evidence (prop_evidence p) observations with
    | Some ev => Err (UnknownEvidence (prop_id p) ev)
    | None =>
        if ProposalRisk_lt (prop_risk p) (min_risk (prop_kind p))
        then Err (RiskTooLowForKind (prop_kind p) (prop_risk p))
        else Ok tt
    end.

Fixpoint propose_from_observations (drafts : list (Proposal Json))
    (observations : list (Observation Json)) : list (Proposal Json) * list ProposalError :=
  match drafts with
  | [] => ([], [])
  | draft :: drafts =>
      let '(accepted, rejected) := propose_from_observations drafts observations in
      match validate_proposal draft observations with
      | Ok _ => (draft :: accepted, rejected)
      | Err e => (accepted, e :: rejected)
      end
  end.

Definition proposal_to_task p (id : TaskId) : option (AgentTask Json) :=
  t ← AgentTask_new (task_id_str id) (prop_kind p) (prop_title p) (prop_description p);
  let t := with_risk (TaskRisk_from_RiskLevel (ProposalRisk_to_risk_level (prop_risk p))) t in
  let t := match prop_target p with Some x => with_target x t | None => t end in
  let t := match prop_arguments p with Some a => with_arguments a t | None => t end in
  Some t.
End proposals.

(** ** state.rs *)

Definition MAX_TASK_HISTORY : nat := 64.

Inductive TaskStage := StProposed | StApproved | StExecuting | StDone | StFailed | StCancelled.

Definition TaskStage_as_str (s : TaskStage) : string :=
  match s with
  | StProposed => "proposed" | StApproved => "approved" | StExecuting => "executing"
  | StDone => "done" | StFailed => "failed" | StCancelled => "cancelled"
  end.

Definition TaskStage_is_terminal (s : TaskStage) : bool :=
  match s with StDone | StFailed | StCancelled => true | _ => false end.

Record TaskHistoryEntry {Json : Type} := mkTaskHistoryEntry {
  th_task : AgentTask Json;
  th_stage : TaskStage;
  th_timestamp_ms : N;
  th_note : option string;
}.
Arguments TaskHistoryEntry Json : clear implicits.
Arguments mkTaskHistoryEntry {Json}.

Record AgentStatus {Json : Type} := mkAgentStatus {
  as_tasks : list (AgentTask Json);
  as_proposals : gmap string (Proposal Json);
  as_history : list (TaskHistoryEntry Json);
  as_observations : list (Observation Json);
}.
Arguments AgentStatus Json : clear implicits.
Arguments mkAgentStatus {Json}.

Section status.
Context {Json : Type}.
Implicit Types (s : AgentStatus Json).

Definition AgentStatus_new : AgentStatus Json := mkAgentStatus [] ∅ [] [].

Definition add_proposal (p : Proposal Json) s : AgentStatus Json * bool :=
  (mkAgentStatus (as_tasks s) (<[prop_id p := p]> (as_proposals s)) (as_history s)
     (as_observations s),
   bool_decide (as_proposals s !! prop_id p = None)).

Definition remove_proposal (id : string) s : AgentStatus Json * option (Proposal Json) :=
  (mkAgentStatus (as_tasks s) (delete id (as_proposals s)) (as_history s) (as_observations s),
   as_proposals s !! id).

Definition status_proposal s (id : string) : option (Proposal Json) := as_proposals s !! id.

Definition status_proposals s : list (Proposal Json) := btree_values (as_proposals s).

(** [record_history]; [debug] says whether debug assertions are compiled in,
    [None] is the panic of the assertion. *)
Definition record_history (debug : bool) (e : TaskHistoryEntry Json) s :
    option (AgentStatus Json) :=
  if debug && negb (TaskStage_is_terminal (th_stage e)) then None
  else Some (mkAgentStatus (as_tasks s) (as_proposals s)
               (push_bounded MAX_TASK_HISTORY e (as_history s)) (as_observations s)).

Definition add_observation (o : Observation Json) s : AgentStatus Json :=
  mkAgentStatus (as_tasks s) (as_proposals s) (as_history s)
    (push_bounded OBSERVATION_LOG_LIMIT o (as_observations s)).
End status.

(** ** Validation *)

Section validation.
Context {Json : Type}.
Implicit Types (p : Proposal Json) (obs : list (Observation Json)).

(** The conditions the batch validation promises. *)
Definition proposal_valid p obs : Prop :=
  prop_id p ≠ EmptyString ∧ prop_title p ≠ EmptyString ∧ prop_description p ≠ EmptyString ∧
  prop_reasoning p ≠ EmptyString ∧
  (∀ ev, ev ∈ prop_evidence p → ev ∈ obs_id <$> obs) ∧
  ProposalRisk_rank (min_risk (prop_kind p)) ≤ ProposalRisk_rank (prop_risk p).

Lemma unknown_evidence_None evidence obs :
  unknown_evidence evidence obs = None ↔ ∀ ev, ev ∈ evidence → ev ∈ obs_id <$> obs.
Proof.
  unfold unknown_evidence. rewrite find_b_None.
  assert (∀ ev, negb (existsb (λ o, bool_decide (obs_id o = ev)) obs) = false
                ↔ ev ∈ obs_id <$> obs) as H; [|set_solver].
  intros ev. rewrite negb_false_iff, existsb_exists, list_elem_of_fmap.
  setoid_rewrite bool_decide_eq_true. setoid_rewrite <-list_elem_of_In. naive_solver.
Qed.

Lemma str_is_empty_or a b : str_is_empty a || b = false ↔ a ≠ EmptyString ∧ b = false.
Proof. destruct a; simpl; naive_solver. Qed.

Lemma validate_proposal_Ok p obs :
  validate_proposal p obs = Ok tt ↔ proposal_valid p obs.
Proof.
  unfold validate_proposal, proposal_valid, ProposalRisk_lt.
  destruct (prop_id p) as [|c i] eqn:Hid; simpl; [naive_solver|].
  destruct (_ || _ || _) eqn:Hd.
  { split; [done|]. intros (_ & ? & ? & ? & _). exfalso.
    by destruct (prop_title p), (prop_description p), (prop_reasoning p). }
  assert (prop_title p ≠ EmptyString ∧ prop_description p ≠ EmptyString ∧
          prop_reasoning p ≠ EmptyString) as (? & ? & ?).
  { by destruct (prop_title p), (prop_description p), (prop_reasoning p). }
  destruct (unknown_evidence _ _) as [ev|] eqn:He.
  { split; [done|]. intros (_ & _ & _ & _ & Hev & _).
    by apply unknown_evidence_None in Hev; rewrite Hev in He. }
  rewrite unknown_evidence_None in He.
  destruct (Nat.ltb_spec (ProposalRisk_rank (prop_risk p))
              (ProposalRisk_rank (min_risk (prop_kind p)))); [|naive_solver].
  split; [done|]. intros (_ & _ & _ & _ & _ & ?). lia.
Qed.

Lemma proposal_to_task_valid p obs id :
  proposal_valid p obs → task_id_str id ≠ EmptyString →
  ∃ t, proposal_to_task p id = Some t ∧ task_id t = id ∧ task_kind t = prop_kind p ∧
    task_risk t = TaskRisk_from_RiskLevel (ProposalRisk_to_risk_level (prop_risk p)) ∧
    task_depends_on t = [] ∧ task_target t = prop_target p ∧
    task_arguments t = prop_arguments p.
Proof.
  intros (_ & Ht & Hd & _) Hid. destruct id as [[|c i]]; [done|]. unfold proposal_to_task, AgentTask_new.
  destruct (prop_title p); [done|]. destruct (prop_description p); [done|]. simpl.
  eexists. split; [done|]. by destruct (prop_target p), (prop_arguments p).
Qed.

(** The batch loop. *)
Lemma propose_spec drafts obs :
  let '(accepted, rejected) := propose_from_observations drafts obs in
  length accepted + length rejected = length drafts ∧
  accepted = List.filter (λ p, is_ok (validate_proposal p obs)) drafts ∧
  ∀ p, p ∈ accepted ↔ p ∈ drafts ∧ proposal_valid p obs.
Proof.
  induction drafts as [|d drafts IH]; simpl; [set_solver|].
  destruct (propose_from_observations drafts obs) as [acc rej].
  destruct IH as (IH1 & IH2 & IH3).
  destruct (validate_proposal d obs) as [[]|e] eqn:Hv; simpl.
  - apply validate_proposal_Ok in Hv. split_and!; [lia|by rewrite IH2|].
    intros p. rewrite !elem_of_cons, IH3. naive_solver.
  - split_and!; [lia|done|]. intros p. rewrite elem_of_cons, IH3. split; [naive_solver|].
    intros [[->|?] Hd]; [|done]. apply validate_proposal_Ok in Hd. congruence.
Qed.

(** [propose_from_observations] accepts exactly the valid drafts, in order,
    and reports one error for each of the others.  Every accepted draft turns
    into a task of its own kind, risk, target and arguments for any non-empty
    task id, and it requires consent unless it is a notification or a display
    control. *)
Theorem accepted_proposals_become_tasks drafts obs :
  let '(accepted, rejected) := propose_from_observations drafts obs in
  length accepted + length rejected = length drafts ∧
  accepted = List.filter (λ p, is_ok (validate_proposal p obs)) drafts ∧
  (∀ p, p ∈ accepted ↔ p ∈ drafts ∧ proposal_valid p obs) ∧
  ∀ p, p ∈ accepted →
    (Proposal_requires_consent p = false → prop_kind p = Notify ∨ prop_kind p = DisplayControl) ∧
    ∀ id, task_id_str id ≠ EmptyString →
      ∃ t, proposal_to_task p id = Some t ∧ task_id t = id ∧ task_kind t = prop_kind p ∧
        task_risk t = TaskRisk_from_RiskLevel (ProposalRisk_to_risk_level (prop_risk p)) ∧
        task_depends_on t = [] ∧ task_target t = prop_target p ∧
        task_arguments t = prop_arguments p.
Proof.
  pose proof (propose_spec drafts obs) as Hs.
  destruct (propose_from_observations drafts obs) as [acc rej].
  destruct Hs as (H1 & H2 & H3). split_and!; [done..|].
  intros p [_ Hv]%H3. split; [|intros id; by eapply proposal_to_task_valid].
  destruct Hv as (_ & _ & _ & _ & _ & Hr). unfold Proposal_requires_consent.
  destruct (prop_risk p), (prop_kind p); simpl in *; auto; try done; lia.
Qed.

(** The least risk [validate_proposal] accepts for a kind is the kind's
    default task risk, as documented, for every kind except power control: a
    power-control proposal is accepted at high risk and becomes a task below
    the critical default. *)
Theorem risk_floor_exact k :
  TaskRisk_from_RiskLevel (ProposalRisk_to_risk_level (min_risk k)) =
    (match k with PowerControl => RiskHigh | _ => TaskKind_default_risk k end) ∧
  TaskKind_default_risk PowerControl = RiskCritical ∧
  ∃ p : Proposal Json, prop_kind p = PowerControl ∧ validate_proposal p [] = Ok tt ∧
    ∃ t, proposal_to_task p TaskId_default = Some t ∧ task_risk t = RiskHigh.
Proof.
  split_and!; [by destruct k|done|].
  exists (mkProposal "p" PowerControl "t" "d" PrHigh "r" [] 0 None None).
  split_and!; [done|done|]. by eexists.
Qed.
End validation.

(** ** The agent status *)

Section status_log.
Context {Json : Type}.

Inductive agent_op :=
| OpAddProposal (p : Proposal Json)
| OpRemoveProposal (id : string)
| OpRecordHistory (e : TaskHistoryEntry Json)
| OpAddObservation (o : Observation Json).

Definition agent_step (debug : bool) (o : agent_op) (s : AgentStatus Json) :
    option (AgentStatus Json) :=
  match o with
  | OpAddProposal p => Some (add_proposal p s).1
  | OpRemoveProposal id => Some (remove_proposal id s).1
  | OpRecordHistory e => record_history debug e s
  | OpAddObservation o => Some (add_observation o s)
  end.

Fixpoint agent_steps (debug : bool) (ops : list agent_op) (s : AgentStatus Json) :
    option (AgentStatus Json) :=
  match ops with
  | [] => Some s
  | o :: ops => s ← agent_step debug o s; agent_steps debug ops s
  end.

(** The unbounded logs of the calls, and the last call about a proposal. *)
Definition history_log (ops : list agent_op) : list (TaskHistoryEntry Json) :=
  omap (λ o, match o with OpRecordHistory e => Some e | _ => None end) ops.
Definition observation_log (ops : list agent_op) : list (Observation Json) :=
  omap (λ o, match o with OpAddObservation o => Some o | _ => None end) ops.
Definition about_proposal (id : string) (o : agent_op) : option (option (Proposal Json)) :=
  match o with
  | OpAddProposal p => if decide (prop_id p = id) then Some (Some p) else None
  | OpRemoveProposal id' => if decide (id' = id) then Some None else None
  | _ => None
  end.
Definition current_proposal (ops : list agent_op) (id : string) : option (Proposal Json) :=
  default None (last (omap (about_proposal id) ops)).

Lemma agent_steps_snoc debug ops o s :
  agent_steps debug (ops ++ [o]) s = agent_steps debug ops s ≫= agent_step debug o.
Proof.
  revert s. induction ops as [|o' ops IH]; intros s; simpl.
  - by destruct (agent_step debug o s).
  - by destruct (agent_step debug o' s); simpl.
Qed.

Lemma current_proposal_snoc ops o id :
  current_proposal (ops ++ [o]) id =
  match about_proposal id o with Some r => r | None => current_proposal ops id end.
Proof.
  unfold current_proposal. rewrite omap_app. simpl.
  destruct (about_proposal id o); simpl; [by rewrite last_snoc|by rewrite app_nil_r].
Qed.

(** Only the assertion can fail. *)
Definition op_terminal (o : agent_op) : Prop :=
  match o with OpRecordHistory e => TaskStage_is_terminal (th_stage e) = true | _ => True end.

Lemma agent_step_defined debug o s :
  is_Some (agent_step debug o s) ↔ (debug = true → op_terminal o).
Proof.
  destruct o as [p|id|e|o]; simpl; try (split; [done|by eexists]).
  unfold record_history.
  destruct debug, (TaskStage_is_terminal (th_stage e)); simpl; rewrite is_Some_alt; naive_solver.
Qed.

Lemma agent_steps_defined debug ops s :
  is_Some (agent_steps debug ops s) ↔ (debug = true → Forall op_terminal ops).
Proof.
  revert s. induction ops as [|o ops IH]; intros s; simpl.
  { split; [by constructor|by eexists]. }
  pose proof (agent_step_defined debug o s) as Ho. rewrite Forall_cons.
  destruct (agent_step debug o s) as [s'|]; simpl.
  - rewrite IH. assert (debug = true → op_terminal o) by (apply Ho; by eexists). naive_solver.
  - split; [by intros []|]. intros H. exfalso.
    cut (is_Some (@None (AgentStatus Json))); [by intros []|]. apply Ho. naive_solver.
Qed.

Lemma agent_steps_logs debug ops s :
  agent_steps debug ops AgentStatus_new = Some s →
  as_history s = suffix_n MAX_TASK_HISTORY (history_log ops) ∧
  as_observations s = suffix_n OBSERVATION_LOG_LIMIT (observation_log ops) ∧
  (∀ id, status_proposal s id = current_proposal ops id) ∧ as_tasks s = [].
Proof.
  revert s. induction ops as [|o ops IH] using rev_ind; [by intros s [= <-]|].
  intros s'. rewrite agent_steps_snoc. unfold status_proposal, history_log, observation_log in *.
  destruct (agent_steps debug ops AgentStatus_new) as [s|]; [|done].
  destruct (IH s eq_refl) as (Hh & Ho & Hp & Ht). cbn [mbind option_bind].
  setoid_rewrite current_proposal_snoc. rewrite !omap_app.
  destruct o as [p|id|e|o]; simpl; rewrite ?app_nil_r.
  - intros [= <-]; simpl. split_and!; [done..| |done].
    intros id. case_decide; subst; [by rewrite lookup_insert_eq|by rewrite lookup_insert_ne].
  - intros [= <-]; simpl. split_and!; [done..| |done].
    intros id'. case_decide; subst; [by rewrite lookup_delete_eq|by rewrite lookup_delete_ne].
  - unfold record_history. destruct (_ && _); [done|]. intros [= <-]; simpl.
    split_and!; [by rewrite Hh, push_bounded_suffix|done..].
  - intros [= <-]; simpl. split_and!; [done|by rewrite Ho, push_bounded_suffix|done..].
Qed.

(** Without debug assertions every sequence of calls succeeds, with them
    exactly those whose history entries are all terminal; afterwards the
    history and the observations are the last 64 and the last 256 of all that
    were recorded, in order, and the stored proposal of an id is the one of
    the last call about that id. *)
Theorem agent_status_refines_log debug ops :
  (is_Some (agent_steps debug ops AgentStatus_new) ↔ (debug = true → Forall op_terminal ops)) ∧
  ∀ s, agent_steps debug ops AgentStatus_new = Some s →
    as_history s = suffix_n MAX_TASK_HISTORY (history_log ops) ∧
    as_observations s = suffix_n OBSERVATION_LOG_LIMIT (observation_log ops) ∧
    (∀ id, status_proposal s id = current_proposal ops id) ∧ as_tasks s = [].
Proof. split; [apply agent_steps_defined|intros s; apply agent_steps_logs]. Qed.
End status_log.
