(* ===== verification/Devices.v ===== *)
(** * Device pairing and cross-device delivery

    Models agent/aether-device-core/src (identity.rs, fingerprint.rs,
    pairing.rs, registry.rs, remote.rs) and agent/aether-device-runtime/src.
    SHA-256 is the [Digest] parameter of [HashChain].  A [DeviceId] is its
    string; maps keyed by device ids are [gmap string]. *)
From S2P Require Import Prelude RustStd HashChain TaskGraph AgentCore.
From Stdlib Require Import Ascii Sorting.Sorted.

(** ** identity.rs *)

Definition DEVICE_ID_MAX_LEN : nat := 64.

Definition DeviceId_new (s : string) : option string :=
  if str_is_empty s || (DEVICE_ID_MAX_LEN <? String.length s)%nat then None else Some s.

Inductive DeviceClass := Phone | Tablet | Laptop | Desktop | Iot | Server | External | OtherDevice.

Definition DeviceClass_as_str (c : DeviceClass) : string :=
  match c with
  | Phone => "phone" | Tablet => "tablet" | Laptop => "laptop" | Desktop => "desktop"
  | Iot => "iot" | Server => "server" | External => "external" | OtherDevice => "other"
  end.

Definition is_battery_powered (c : DeviceClass) : bool :=
  match c with Phone | Tablet | Laptop => true | _ => false end.

Definition has_user_ui (c : DeviceClass) : bool :=
  match c with Phone | Tablet | Laptop | Desktop => true | _ => false end.

(** ** fingerprint.rs: 32 bytes *)

Definition DeviceFingerprint_from_public_key `{Digest} (public_key : list byte) : list byte :=
  digest256 public_key.

Definition DeviceFingerprint_as_hex (f : list byte) : string :=
  foldr (λ b s, hex_fixed 2 (Byte.to_N b) +:+ s) EmptyString f.

(** ** pairing.rs *)

Inductive PairingState := Available | PairingInProgress | Paired | PCancelled | Revoked | Expired.

#[export] Instance PairingState_eq_dec : EqDecision PairingState.
Proof. solve_decision. Defined.

Definition PairingState_as_str (s : PairingState) : string :=
  match s with
  | Available => "available" | PairingInProgress => "pairing" | Paired => "paired"
  | PCancelled => "cancelled" | Revoked => "revoked" | Expired => "expired"
  end.

Definition PairingState_is_trusted (s : PairingState) : bool :=
  match s with Paired => true | _ => false end.

(** [PairingCode]: six bytes, only built by [new]. *)
Record PairingCode := mkPairingCode { pc_bytes : list byte }.

#[export] Instance PairingCode_eq_dec : EqDecision PairingCode.
Proof. solve_decision. Defined.

Definition PairingCode_is_valid (s : string) : bool :=
  if negb (String.length s =? 6)%nat then false else str_all is_ascii_digit s.

Definition PairingCode_new (s : string) : option PairingCode :=
  if negb (PairingCode_is_valid s) then None else Some (mkPairingCode (as_bytes s)).

(** [from_utf8] of ASCII bytes, which those of a code are. *)
Definition PairingCode_as_str (c : PairingCode) : string :=
  String.string_of_list_byte (pc_bytes c).

Record PairingGrant := mkPairingGrant {
  receive_observations : bool;
  receive_proposals : bool;
  execute_remote_tasks : bool;
}.

Definition PairingGrant_permissive : PairingGrant := mkPairingGrant true true false.

Record PairingRequest := mkPairingRequest {
  preq_device_id : string;
  preq_device_class : DeviceClass;
  preq_fingerprint : list byte;
  preq_code : PairingCode;
  preq_grant : PairingGrant;
  preq_timestamp_ms : N;
}.

Record PairingAcceptance := mkPairingAcceptance {
  pacc_device_id : string;
  pacc_device_class : DeviceClass;
  pacc_fingerprint : list byte;
  pacc_code : PairingCode;
  pacc_grant : PairingGrant;
  pacc_timestamp_ms : N;
}.

Record Pairing := mkPairing {
  pair_device_id : string;
  pair_device_class : DeviceClass;
  pair_fingerprint : list byte;
  pair_state : PairingState;
  pair_grant : PairingGrant;
  pair_last_transition_ms : N;
}.

Inductive PairingError :=
| CodeMismatch | FingerprintMismatch | IdentityMismatch | RequestExpired | AlreadyPaired
| TerminalState.

Definition PairingError_display (e : PairingError) : string :=
  match e with
  | CodeMismatch => "pairing code does not match"
  | FingerprintMismatch => "pairing fingerprint does not match"
  | IdentityMismatch => "peer identity does not match"
  | RequestExpired => "pairing request has expired"
  | AlreadyPaired => "peer is already paired"
  | TerminalState => "peer is in a terminal state; re-register first"
  end.

Definition validate_acceptance (request : PairingRequest) (acceptance : PairingAcceptance)
    (skew_ms now_ms : N) : result unit PairingError :=
  if bool_decide (pacc_code acceptance ≠ preq_code request) then Err CodeMismatch
  else if bool_decide (pacc_fingerprint acceptance ≠ preq_fingerprint request)
  then Err FingerprintMismatch
  else if bool_decide (pacc_device_id acceptance ≠ preq_device_id request)
  then Err IdentityMismatch
  else if (skew_ms <? saturating_sub now_ms (preq_timestamp_ms request))%N
  then Err RequestExpired
  else Ok tt.

(** ** registry.rs *)

Definition DEVICE_REGISTRY_LIMIT : nat := 256.

Record RegisteredDevice := mkRegisteredDevice {
  rd_device_id : string;
  rd_device_class : DeviceClass;
  rd_fingerprint : list byte;
  rd_pairing : Pairing;
}.

Inductive DeviceRegistryError := RegistryFull | AlreadyRegistered | UnknownDevice.

Definition DeviceRegistryError_display (e : DeviceRegistryError) : string :=
  match e with
  | RegistryFull => "device registry is full"
  | AlreadyRegistered => "device is already registered"
  | UnknownDevice => "device is not registered"
  end.

(** [DeviceRegistry] holds one map. *)
Abbreviation DeviceRegistry := (gmap string RegisteredDevice).

Definition registry_is_full (r : DeviceRegistry) : bool :=
  (DEVICE_REGISTRY_LIMIT <=? size r)%nat.

Definition register_device (id : string) (class : DeviceClass) (fingerprint : list byte)
    (grant : PairingGrant) (now_ms : N) (r : DeviceRegistry) :
    DeviceRegistry * result unit DeviceRegistryError :=
  if bool_decide (is_Some (r !! id)) then (r, Err AlreadyRegistered)
  else if registry_is_full r then (r, Err RegistryFull)
  else
    let pairing := mkPairing id class fingerprint Available grant now_ms in
    (<[id := mkRegisteredDevice id class fingerprint pairing]> r, Ok tt).

Definition registry_get (r : DeviceRegistry) (id : string) : option RegisteredDevice := r !! id.

Definition registry_devices (r : DeviceRegistry) : list RegisteredDevice := btree_values r.

Definition device_le (a b : RegisteredDevice) : Prop :=
  String.le (rd_device_id a) (rd_device_id b).

#[export] Instance device_le_dec : RelDecision device_le.
Proof. unfold device_le. solve_decision. Defined.

Definition registry_paired (r : DeviceRegistry) : list RegisteredDevice :=
  merge_sort device_le
    (List.filter (λ d, PairingState_is_trusted (pair_state (rd_pairing d))) (btree_values r)).

Definition set_pairing_state (next : PairingState) (now_ms : N) (d : RegisteredDevice) :
    RegisteredDevice :=
  let p := rd_pairing d in
  mkRegisteredDevice (rd_device_id d) (rd_device_class d) (rd_fingerprint d)
    (mkPairing (pair_device_id p) (pair_device_class p) (pair_fingerprint p) next (pair_grant p)
       now_ms).

Definition registry_transition (id : string) (next : PairingState) (now_ms : N)
    (r : DeviceRegistry) : DeviceRegistry * result unit DeviceRegistryError :=
  match r !! id with
  | None => (r, Err UnknownDevice)
  | Some d => (<[id := set_pairing_state next now_ms d]> r, Ok tt)
  end.

Definition unregister (id : string) (r : DeviceRegistry) :
    DeviceRegistry * option RegisteredDevice := (delete id r, r !! id).

(** ** remote.rs *)

Record RemoteSource := mkRemoteSource {
  rs_device_id : string;
  rs_fingerprint : list byte;
  rs_seq : N;
  rs_timestamp_ms : N;
}.

Record RemoteObservation {Json : Type} := mkRemoteObservation {
  ro_source : RemoteSource;
  ro_observation : Observation Json;
}.
Arguments RemoteObservation Json : clear implicits.
Arguments mkRemoteObservation {Json}.

Record RemoteProposal {Json : Type} := mkRemoteProposal {
  rp_source : RemoteSource;
  rp_proposal : Proposal Json;
}.
Arguments RemoteProposal Json : clear implicits.
Arguments mkRemoteProposal {Json}.

Inductive RemoteDeliveryError :=
| UnknownPeer | NotPaired | GrantMissing | RemoteFingerprintMismatch
| OutOfOrder (last_seq new_seq : N) | TooOld.

Definition RemoteDeliveryError_display (e : RemoteDeliveryError) : string :=
  match e with
  | UnknownPeer => "peer is not registered"
  | NotPaired => "peer is not in Paired state"
  | GrantMissing => "peer grant does not cover the operation"
  | RemoteFingerprintMismatch => "peer fingerprint does not match the registry entry"
  | OutOfOrder last_seq new_seq =>
      "peer seq " +:+ pretty new_seq +:+ " is older than the last seen seq " +:+ pretty last_seq
  | TooOld => "peer source is older than the skew window"
  end.

Inductive RemoteDeliveryKind := KindObservation | KindProposal.

#[export] Instance RemoteDeliveryKind_eq_dec : EqDecision RemoteDeliveryKind.
Proof. solve_decision. Defined.

Definition grant_covers (grant : PairingGrant) (kind : RemoteDeliveryKind) : bool :=
  match kind with
  | KindObservation => receive_observations grant
  | KindProposal => receive_proposals grant
  end.

Definition accept_remote_delivery (state : PairingState) (grant : PairingGrant)
    (registered_fingerprint : list byte) (source : RemoteSource) (last_seq skew_ms now_ms : N)
    (kind : RemoteDeliveryKind) : result unit RemoteDeliveryError :=
  if negb (PairingState_is_trusted state) then Err NotPaired
  else if bool_decide (rs_fingerprint source ≠ registered_fingerprint)
  then Err RemoteFingerprintMismatch
  else if negb (grant_covers grant kind) then Err GrantMissing
  else if (rs_seq source <=? last_seq)%N then Err (OutOfOrder last_seq (rs_seq source))
  else if (skew_ms <? saturating_sub now_ms (rs_timestamp_ms source))%N then Err TooOld
  else Ok tt.

(** ** aether-device-runtime *)

Record PeerState := mkPeerState {
  last_obs_seq : N;
  last_prop_seq : N;
}.

Definition PeerState_default : PeerState := mkPeerState 0 0.

Inductive DeliveryOutcome := Accepted | Rejected (e : RemoteDeliveryError).

Record DeviceRuntime := mkDeviceRuntime {
  dr_registry : DeviceRegistry;
  dr_peer_state : gmap string PeerState;
  dr_skew_ms : N;
}.

Definition DeviceRuntime_new (registry : DeviceRegistry) (skew_ms : N) : DeviceRuntime :=
  mkDeviceRuntime registry ∅ skew_ms.

Section runtime.
Context {Json : Type}.

Definition accept_observation (remote : RemoteObservation Json) (now_ms : N)
    (rt : DeviceRuntime) : DeviceRuntime * DeliveryOutcome :=
  let source := ro_source remote in
  let device_id := rs_device_id source in
  match registry_get (dr_registry rt) device_id with
  | None => (rt, Rejected UnknownPeer)
  | Some peer =>
      let p := rd_pairing peer in
      let last_seq := from_option last_obs_seq 0%N (dr_peer_state rt !! device_id) in
      match accept_remote_delivery (pair_state p) (pair_grant p) (pair_fingerprint p) source
              last_seq (dr_skew_ms rt) now_ms KindObservation with
      | Ok _ =>
          let entry := default PeerState_default (dr_peer_state rt !! device_id) in
          (mkDeviceRuntime (dr_registry rt)
             (<[device_id := mkPeerState (rs_seq source) (last_prop_seq entry)]>
                (dr_peer_state rt))
             (dr_skew_ms rt), Accepted)
      | Err e => (rt, Rejected e)
      end
  end.

Definition accept_proposal (remote : RemoteProposal Json) (now_ms : N)
    (rt : DeviceRuntime) : DeviceRuntime * DeliveryOutcome :=
  let source := rp_source remote in
  let device_id := rs_device_id source in
  match registry_get (dr_registry rt) device_id with
  | None => (rt, Rejected UnknownPeer)
  | Some peer =>
      let p := rd_pairing peer in
      let last_seq := from_option last_prop_seq 0%N (dr_peer_state rt !! device_id) in
      match accept_remote_delivery (pair_state p) (pair_grant p) (pair_fingerprint p) source
              last_seq (dr_skew_ms rt) now_ms KindProposal with
      | Ok _ =>
          let entry := default PeerState_default (dr_peer_state rt !! device_id) in
          (mkDeviceRuntime (dr_registry rt)
             (<[device_id := mkPeerState (last_obs_seq entry) (rs_seq source)]>
                (dr_peer_state rt))
             (dr_skew_ms rt), Accepted)
      | Err e => (rt, Rejected e)
      end
  end.
End runtime.

(** ** Deliveries *)

Section deliveries.
Context {Json : Type}.

(** A delivery and the time at which it arrives. *)
Inductive delivery :=
| DeliverObservation (r : RemoteObservation Json) (now_ms : N)
| DeliverProposal (r : RemoteProposal Json) (now_ms : N).

Definition del_source (d : delivery) : RemoteSource :=
  match d with DeliverObservation r _ => ro_source r | DeliverProposal r _ => rp_source r end.
Definition del_kind (d : delivery) : RemoteDeliveryKind :=
  match d with DeliverObservation _ _ => KindObservation | DeliverProposal _ _ => KindProposal end.
Definition del_now (d : delivery) : N :=
  match d with DeliverObservation _ n | DeliverProposal _ n => n end.
Definition del_seq (d : delivery) : N := rs_seq (del_source d).
Definition del_peer (d : delivery) : string := rs_device_id (del_source d).

Definition deliver (d : delivery) (rt : DeviceRuntime) : DeviceRuntime * DeliveryOutcome :=
  match d with
  | DeliverObservation r now => accept_observation r now rt
  | DeliverProposal r now => accept_proposal r now rt
  end.

(** The deliveries the runtime accepts, in order. *)
Fixpoint accepted_deliveries (ds : list delivery) (rt : DeviceRuntime) : list delivery :=
  match ds with
  | [] => []
  | d :: ds =>
      let '(rt, out) := deliver d rt in
      match out with
      | Accepted => d :: accepted_deliveries ds rt
      | Rejected _ => accepted_deliveries ds rt
      end
  end.

(** *** The abstract specification: no counters, only what was accepted *)

(** The peer may make this delivery, whatever was delivered before. *)
Definition authorised (reg : DeviceRegistry) (skew : N) (d : delivery) : Prop :=
  ∃ peer, reg !! del_peer d = Some peer ∧ pair_state (rd_pairing peer) = Paired ∧
    rs_fingerprint (del_source d) = pair_fingerprint (rd_pairing peer) ∧
    grant_covers (pair_grant (rd_pairing peer)) (del_kind d) = true ∧
    (0 < del_seq d)%N ∧ (del_now d - rs_timestamp_ms (del_source d) ≤ skew)%N.

Definition same_stream (d d' : delivery) : Prop := del_peer d = del_peer d' ∧ del_kind d = del_kind d'.

(** No delivery of the same peer and kind with this or a later number. *)
Definition fresh (past : list delivery) (d : delivery) : Prop :=
  ∀ d', d' ∈ past → same_stream d' d → (del_seq d' < del_seq d)%N.

(** [accepts reg skew past ds out]: after [past] was accepted, [out] is the
    part of [ds] that is authorised and fresh when it arrives. *)
Inductive accepts (reg : DeviceRegistry) (skew : N) :
    list delivery → list delivery → list delivery → Prop :=
| accepts_nil past : accepts reg skew past [] []
| accepts_yes past d ds out :
    authorised reg skew d → fresh past d → accepts reg skew (past ++ [d]) ds out →
    accepts reg skew past (d :: ds) (d :: out)
| accepts_no past d ds out :
    ¬ (authorised reg skew d ∧ fresh past d) → accepts reg skew past ds out →
    accepts reg skew past (d :: ds) out.

(** *** The counters *)

Definition seq_of (ps : PeerState) (k : RemoteDeliveryKind) : N :=
  match k with KindObservation => last_obs_seq ps | KindProposal => last_prop_seq ps end.

Definition last_seq_of (rt : DeviceRuntime) (peer : string) (k : RemoteDeliveryKind) : N :=
  from_option (λ ps, seq_of ps k) 0%N (dr_peer_state rt !! peer).

Definition acceptable (reg : DeviceRegistry) (skew last : N) (d : delivery) : Prop :=
  ∃ peer, reg !! del_peer d = Some peer ∧
    let p := rd_pairing peer in
    accept_remote_delivery (pair_state p) (pair_grant p) (pair_fingerprint p) (del_source d)
      last skew (del_now d) (del_kind d) = Ok tt.

Lemma acceptable_spec reg skew last d :
  acceptable reg skew last d ↔ authorised reg skew d ∧ (last < del_seq d)%N.
Proof.
  unfold acceptable, authorised, accept_remote_delivery, del_seq, saturating_sub. split.
  - intros (peer & Hp & Hacc). destruct (pair_state _) eqn:Hs; try done. simpl in Hacc.
    case_bool_decide as Hf; [done|]. destruct (grant_covers _ _) eqn:Hg; [|done]. simpl in Hacc.
    destruct (N.leb_spec (rs_seq (del_source d)) last); [done|].
    destruct (N.ltb_spec skew (del_now d - rs_timestamp_ms (del_source d))); [done|].
    split; [|done]. exists peer. split_and!; [done..|lia|lia].
  - intros [(peer & Hp & Hs & Hf & Hg & Hseq & Hts) Hlast]. exists peer. split; [done|].
    rewrite Hs, Hg. simpl. rewrite bool_decide_false by (by intros []).
    destruct (N.leb_spec (rs_seq (del_source d)) last); [lia|].
    destruct (N.ltb_spec skew (del_now d - rs_timestamp_ms (del_source d))); [lia|done].
Qed.

(** Both handlers are one transition on the counters. *)
Definition counters_updated (d : delivery) (rt rt' : DeviceRuntime) : Prop :=
  ∀ peer k, last_seq_of rt' peer k =
    if decide (peer = del_peer d ∧ k = del_kind d) then del_seq d else last_seq_of rt peer k.

Lemma counters_insert d rt ps :
  (∀ k, seq_of ps k =
     if decide (k = del_kind d) then del_seq d else last_seq_of rt (del_peer d) k) →
  counters_updated d rt
    (mkDeviceRuntime (dr_registry rt) (<[del_peer d := ps]> (dr_peer_state rt)) (dr_skew_ms rt)).
Proof.
  intros Hps peer k. unfold last_seq_of; simpl. destruct (decide (peer = del_peer d)) as [->|].
  - rewrite lookup_insert_eq. simpl. rewrite Hps. do 2 case_decide; naive_solver.
  - rewrite lookup_insert_ne by done. by rewrite decide_False by naive_solver.
Qed.

Lemma deliver_spec d rt :
  let last := last_seq_of rt (del_peer d) (del_kind d) in
  let '(rt', out) := deliver d rt in
  dr_registry rt' = dr_registry rt ∧ dr_skew_ms rt' = dr_skew_ms rt ∧
  match out with
  | Accepted => acceptable (dr_registry rt) (dr_skew_ms rt) last d ∧ counters_updated d rt rt'
  | Rejected _ => ¬ acceptable (dr_registry rt) (dr_skew_ms rt) last d ∧ rt' = rt
  end.
Proof.
  assert (∀ peer k, default PeerState_default (dr_peer_state rt !! peer) = default PeerState_default (dr_peer_state rt !! peer) →
    seq_of (default PeerState_default (dr_peer_state rt !! peer)) k = last_seq_of rt peer k) as Hdef.
  { intros peer k _. unfold last_seq_of. destruct (_ !! _); [done|]. by destruct k. }
  intros last. unfold deliver, accept_observation, accept_proposal, registry_get, acceptable.
  destruct d as [r now|r now].
  - change (from_option last_obs_seq 0%N (dr_peer_state rt !! rs_device_id (ro_source r)))
      with last. unfold del_peer; simpl.
    destruct (dr_registry rt !! _) as [peer|] eqn:Hp;
      [|by split_and!; [done..| |done]; intros (? & ? & _)].
    destruct (accept_remote_delivery _ _ _ _ _ _ _ _) as [[]|e] eqn:Ha;
      [|by split_and!; [done..| |done]; intros (? & [= <-] & Ha'); simpl in Ha'; congruence].
    split_and!; [done..|by exists peer|].
    apply (counters_insert (DeliverObservation r now)). intros k. simpl.
    case_decide as Hk; [by rewrite Hk|]. rewrite <-Hdef by done. by destruct k.
  - change (from_option last_prop_seq 0%N (dr_peer_state rt !! rs_device_id (rp_source r)))
      with last. unfold del_peer; simpl.
    destruct (dr_registry rt !! _) as [peer|] eqn:Hp;
      [|by split_and!; [done..| |done]; intros (? & ? & _)].
    destruct (accept_remote_delivery _ _ _ _ _ _ _ _) as [[]|e] eqn:Ha;
      [|by split_and!; [done..| |done]; intros (? & [= <-] & Ha'); simpl in Ha'; congruence].
    split_and!; [done..|by exists peer|].
    apply (counters_insert (DeliverProposal r now)). intros k. simpl.
    case_decide as Hk; [by rewrite Hk|]. rewrite <-Hdef by done. by destruct k.
Qed.

(** The counter of a stream is the number of its last accepted delivery. *)
Definition counters_track (past : list delivery) (rt : DeviceRuntime) : Prop :=
  ∀ peer k n, (last_seq_of rt peer k < n)%N ↔
    (0 < n)%N ∧ ∀ d, d ∈ past → del_peer d = peer → del_kind d = k → (del_seq d < n)%N.

Lemma counters_track_fresh past rt d :
  counters_track past rt → (0 < del_seq d)%N →
  (last_seq_of rt (del_peer d) (del_kind d) < del_seq d)%N ↔ fresh past d.
Proof. intros Ht Hpos. rewrite (Ht _ _ _). unfold fresh, same_stream. naive_solver. Qed.

Lemma counters_track_accept past rt rt' d :
  counters_track past rt → counters_updated d rt rt' → (0 < del_seq d)%N →
  fresh past d → counters_track (past ++ [d]) rt'.
Proof.
  intros Ht Hu Hpos Hf peer k n. rewrite Hu. case_decide as Hd.
  - destruct Hd as [-> ->]. split; [|intros [_ H]; apply H; set_solver].
    intros Hn. split; [lia|]. intros d' [Hd'|Hd']%elem_of_app Hp Hk;
      [|apply list_elem_of_singleton in Hd'; by subst].
    specialize (Hf d' Hd' (conj Hp Hk)). lia.
  - rewrite (Ht peer k n). split; intros [? H]; (split; [done|]); intros d' Hd' ??.
    + apply elem_of_app in Hd' as [Hd'|Hd']; [by apply H|].
      apply list_elem_of_singleton in Hd'. naive_solver.
    + apply H; [set_solver|done..].
Qed.

Lemma accepted_deliveries_spec reg skew ds past rt :
  dr_registry rt = reg → dr_skew_ms rt = skew → counters_track past rt →
  accepts reg skew past ds (accepted_deliveries ds rt).
Proof.
  revert past rt. induction ds as [|d ds IH]; intros past rt Hreg Hskew Ht; [constructor|]. simpl.
  pose proof (deliver_spec d rt) as Hd. destruct (deliver d rt) as [rt' out].
  destruct Hd as (Hreg' & Hskew' & Hout). rewrite Hreg, Hskew in *.
  destruct out as [|e]; destruct Hout as [Ha Hc]; rewrite acceptable_spec in Ha.
  - destruct Ha as [Ha Hlt]. assert (0 < del_seq d)%N as Hpos by lia.
    apply (counters_track_fresh past) in Hlt; [|done..].
    constructor; [done..|]. apply IH; [congruence..|]. by eapply counters_track_accept.
  - subst rt'. constructor; [|by apply IH]. intros [Haut Hf]. apply Ha. split; [done|].
    destruct Haut as (peer & ? & ? & ? & ? & Hpos & ?). by apply (counters_track_fresh past).
Qed.

(** What the specification gives: each stream is accepted in strictly
    increasing order. *)
Definition stream (peer : string) (k : RemoteDeliveryKind) (ds : list delivery) : list N :=
  omap (λ d, if decide (del_peer d = peer ∧ del_kind d = k) then Some (del_seq d) else None) ds.

Lemma accepts_above reg skew past ds out :
  accepts reg skew past ds out →
  ∀ d' d, d' ∈ past → d ∈ out → same_stream d' d → (del_seq d' < del_seq d)%N.
Proof.
  induction 1 as [past|past d ds out _ Hf _ IH|past d ds out _ _ IH]; intros d1 d2 H1 H2 Hs.
  - by apply elem_of_nil in H2.
  - apply elem_of_cons in H2 as [->|H2]; [by apply Hf|]. by apply IH; [set_solver|..].
  - by apply IH.
Qed.

Lemma accepts_sorted reg skew past ds out peer k :
  accepts reg skew past ds out → StronglySorted N.lt (stream peer k out).
Proof.
  induction 1 as [past|past d ds out Ha Hf Hacc IH|past d ds out _ _ IH]; [constructor| |done].
  simpl. case_decide as Hd; [|done]. constructor; [done|]. apply Forall_forall.
  intros n (d' & Hd' & Hn)%list_elem_of_omap. case_decide as Hs; [|done]. simplify_eq.
  apply (accepts_above _ _ _ _ _ Hacc d d'); [set_solver|done|].
  unfold same_stream. naive_solver.
Qed.

(** C28: the runtime accepts a delivery exactly when the sender is registered,
    paired, presents its registered fingerprint, holds the grant for the kind,
    is within the skew window and uses a sequence number above zero and above
    those of every delivery of the same peer and kind accepted before; so the
    accepted sequence numbers of each peer and kind strictly increase, and no
    delivery is accepted twice. *)
Theorem deliveries_exactly_once reg skew ds :
  let out := accepted_deliveries ds (DeviceRuntime_new reg skew) in
  accepts reg skew [] ds out ∧ ∀ peer k, StronglySorted N.lt (stream peer k out).
Proof.
  intros out. assert (accepts reg skew [] ds out) as H; [|split; [done|]].
  - apply accepted_deliveries_spec; [done..|]. intros peer k n. unfold last_seq_of; simpl.
    rewrite lookup_empty. simpl. set_solver.
  - intros peer k. by eapply accepts_sorted.
Qed.
End deliveries.

(** ** Pairing codes and the handshake *)

Lemma string_of_as_bytes s : String.string_of_list_byte (as_bytes s) = s.
Proof. apply String.string_of_list_byte_of_string. Qed.

(** A code is accepted exactly when it is six ASCII digits, and then prints
    as it was entered; an acceptance is valid exactly when it repeats the
    request's code, fingerprint and device id and the request is at most
    [skew] old.  As the request carries the initiator's identity, no
    acceptance that names a different responder is valid. *)
Theorem pairing_handshake_exact req acc skew now s :
  (∀ c, PairingCode_new s = Some c ↔
     String.length s = 6 ∧ str_all is_ascii_digit s = true ∧ c = mkPairingCode (as_bytes s)) ∧
  (∀ c, PairingCode_new s = Some c → PairingCode_as_str c = s) ∧
  (validate_acceptance req acc skew now = Ok tt ↔
     pacc_code acc = preq_code req ∧ pacc_fingerprint acc = preq_fingerprint req ∧
     pacc_device_id acc = preq_device_id req ∧ (now ≤ preq_timestamp_ms req + skew)%N).
Proof.
  unfold PairingCode_new, PairingCode_is_valid, validate_acceptance, saturating_sub. split_and!.
  - intros c. destruct (Nat.eqb_spec (String.length s) 6); simpl; [|naive_solver].
    destruct (str_all is_ascii_digit s); simpl; naive_solver.
  - intros c. destruct (negb _); [done|]. intros [= <-]. apply string_of_as_bytes.
  - repeat case_bool_decide; try naive_solver.
    destruct (N.ltb_spec skew (now - preq_timestamp_ms req)); split; try done.
    + intros (_ & _ & _ & ?). lia.
    + intros _. split_and!; [done..|lia].
Qed.

(** ** The registry *)

Inductive registry_op :=
| OpRegister (id : string) (c : DeviceClass) (f : list byte) (g : PairingGrant) (now : N)
| OpPairTransition (id : string) (next : PairingState) (now : N)
| OpUnregister (id : string).

Definition registry_step (o : registry_op) (r : DeviceRegistry) : DeviceRegistry :=
  match o with
  | OpRegister id c f g now => (register_device id c f g now r).1
  | OpPairTransition id next now => (registry_transition id next now r).1
  | OpUnregister id => (unregister id r).1
  end.

Definition registry_run (ops : list registry_op) : DeviceRegistry :=
  foldl (λ r o, registry_step o r) ∅ ops.

(** The identity under a key is that key's, in both copies, and the map is
    within its bound. *)
Definition registry_wf (r : DeviceRegistry) : Prop :=
  size r ≤ DEVICE_REGISTRY_LIMIT ∧
  map_Forall (λ id d, rd_device_id d = id ∧ pair_device_id (rd_pairing d) = id ∧
    pair_fingerprint (rd_pairing d) = rd_fingerprint d ∧
    pair_device_class (rd_pairing d) = rd_device_class d) r.

Lemma registry_step_wf o r : registry_wf r → registry_wf (registry_step o r).
Proof.
  unfold registry_wf in *. intros [Hs Hr].
  destruct o as [id c f g now|id next now|id]; simpl.
  - unfold register_device, registry_is_full. case_bool_decide as Hid; [done|].
    destruct (Nat.leb_spec DEVICE_REGISTRY_LIMIT (size r)); simpl; [auto|]. split.
    + rewrite map_size_insert_None by (by apply eq_None_not_Some). lia.
    + apply map_Forall_insert_2; done.
  - unfold registry_transition. destruct (r !! id) as [d|] eqn:Hd; [|done]. simpl. split.
    + by rewrite map_size_insert_Some by done.
    + apply map_Forall_insert_2; [|done]. apply (Hr id d Hd).
  - split; [|by apply map_Forall_delete]. transitivity (size r); [|done].
    apply map_subseteq_size, delete_subseteq.
Qed.

Lemma registry_run_wf ops : registry_wf (registry_run ops).
Proof.
  unfold registry_run. assert (registry_wf ∅) as H by (split; [vm_compute; lia|apply map_Forall_empty]).
  revert H. generalize (∅ : DeviceRegistry). induction ops as [|o ops IH]; intros r Hr; [done|].
  by apply IH, registry_step_wf.
Qed.

(** After any sequence of registrations, state changes and removals the
    registry holds at most 256 devices, each under its own id with the
    identity and fingerprint it was registered with in both copies; a
    registration succeeds exactly when the id is new and there is room, and a
    state change is applied to every known device, whatever its state, so a
    revoked device can become paired without a new registration. *)
Theorem registry_invariant ops :
  let r := registry_run ops in
  registry_wf r ∧
  (∀ id c f g now, (register_device id c f g now r).2 = Ok tt ↔
     r !! id = None ∧ size r < DEVICE_REGISTRY_LIMIT) ∧
  (∀ id next now, is_Some (r !! id) →
     ∃ d, registry_get (registry_transition id next now r).1 id = Some d ∧
       pair_state (rd_pairing d) = next ∧ (registry_transition id next now r).2 = Ok tt).
Proof.
  intros r. split_and!; [apply registry_run_wf|..].
  - intros id c f g now. unfold register_device, registry_is_full.
    case_bool_decide as Hid.
    + split; [done|]. intros [Hn _]. rewrite Hn in Hid. by destruct Hid.
    + apply eq_None_not_Some in Hid.
      destruct (Nat.leb_spec DEVICE_REGISTRY_LIMIT (size r)); simpl; split; naive_solver lia.
  - intros id next now [d Hd]. unfold registry_transition, registry_get. rewrite Hd. simpl.
    rewrite lookup_insert_eq. by eexists.
Qed.
