(* ===== verification/SandboxPolicy.v ===== *)
(** * Auditing the enforcement of sandbox plans

    Models system/aether-sandbox-policy/src/lib.rs: the primitives a plan
    requests, the audit an enforcer writes, the difference of the two, and the
    host policy. *)
From S2P Require Import Prelude RustStd CoreTypes Sandbox.

Inductive SandboxPrimitive :=
| NoNewPrivs | UserNamespace | MountNamespace | NetworkNamespace | PidNamespace | IpcNamespace
| DropCapabilities | InstallSeccomp | CreateCgroupSlice | WriteCgroupLimits | ExecChild.

#[export] Instance SandboxPrimitive_eq_dec : EqDecision SandboxPrimitive.
Proof. solve_decision. Defined.

Definition SandboxPrimitive_as_str (p : SandboxPrimitive) : string :=
  match p with
  | NoNewPrivs => "no-new-privs"
  | UserNamespace => "user-namespace"
  | MountNamespace => "mount-namespace"
  | NetworkNamespace => "network-namespace"
  | PidNamespace => "pid-namespace"
  | IpcNamespace => "ipc-namespace"
  | DropCapabilities => "drop-capabilities"
  | InstallSeccomp => "install-seccomp"
  | CreateCgroupSlice => "create-cgroup-slice"
  | WriteCgroupLimits => "write-cgroup-limits"
  | ExecChild => "exec-child"
  end.

Inductive PrimitiveStatus := PsApplied | PsSkipped | PsFailed.

#[export] Instance PrimitiveStatus_eq_dec : EqDecision PrimitiveStatus.
Proof. solve_decision. Defined.

Definition PrimitiveStatus_as_str (s : PrimitiveStatus) : string :=
  match s with PsApplied => "applied" | PsSkipped => "skipped" | PsFailed => "failed" end.

Record PrimitiveAudit := mkPrimitiveAudit {
  pa_primitive : SandboxPrimitive;
  pa_status : PrimitiveStatus;
  pa_return_code : Z;
  pa_reason : string;
}.

Definition PrimitiveAudit_new (p : SandboxPrimitive) (s : PrimitiveStatus) (code : Z) :
    PrimitiveAudit := mkPrimitiveAudit p s code EmptyString.

Definition PrimitiveAudit_with_reason (reason : string) (r : PrimitiveAudit) : PrimitiveAudit :=
  mkPrimitiveAudit (pa_primitive r) (pa_status r) (pa_return_code r) reason.

Definition is_applied (r : PrimitiveAudit) : bool := bool_decide (pa_status r = PsApplied).
Definition is_skipped (r : PrimitiveAudit) : bool := bool_decide (pa_status r = PsSkipped).
Definition is_failed (r : PrimitiveAudit) : bool := bool_decide (pa_status r = PsFailed).

(** One step of the loop over the namespaces. *)
Definition namespace_primitive (ns : LinuxNamespace) : list SandboxPrimitive :=
  match ns with
  | NsUser => [UserNamespace]
  | NsMount => [MountNamespace]
  | NsNetwork => [NetworkNamespace]
  | NsPid => [PidNamespace]
  | NsIpc => [IpcNamespace]
  | _ => []
  end.

Definition primitives_for (plan : SandboxPlan) : list SandboxPrimitive :=
  (if sp_no_new_privs plan then [NoNewPrivs] else []) ++
  (sp_namespaces plan ≫= namespace_primitive) ++
  (match sp_capabilities plan with [] => [] | _ => [DropCapabilities] end) ++
  (match sp_seccomp plan with Some _ => [InstallSeccomp] | None => [] end) ++
  [CreateCgroupSlice; WriteCgroupLimits; ExecChild].

Record SandboxAudit := mkSandboxAudit {
  sa_plan : SandboxPlan;
  sa_rows : list PrimitiveAudit;
  sa_timestamp_ms : N;
  sa_service : string;
}.

Definition SandboxAudit_new (plan : SandboxPlan) (service : string) (timestamp_ms : N) :
    SandboxAudit := mkSandboxAudit plan [] timestamp_ms service.

Definition SandboxAudit_record (row : PrimitiveAudit) (a : SandboxAudit) : SandboxAudit :=
  mkSandboxAudit (sa_plan a) (sa_rows a ++ [row]) (sa_timestamp_ms a) (sa_service a).

Definition applied_count (a : SandboxAudit) : nat := length (List.filter is_applied (sa_rows a)).
Definition skipped_count (a : SandboxAudit) : nat := length (List.filter is_skipped (sa_rows a)).
Definition failed_count (a : SandboxAudit) : nat := length (List.filter is_failed (sa_rows a)).

Definition SandboxAudit_is_complete (a : SandboxAudit) : bool :=
  (failed_count a =? 0)%nat && (skipped_count a =? 0)%nat.

Record SandboxDiff := mkSandboxDiff {
  diff_missing : list SandboxPrimitive;
  diff_unexpected : list SandboxPrimitive;
  diff_failed : list SandboxPrimitive;
}.

Definition SandboxDiff_is_clean (d : SandboxDiff) : bool :=
  match diff_missing d, diff_unexpected d, diff_failed d with
  | [], [], [] => true
  | _, _, _ => false
  end.

Definition discrepancy_count (d : SandboxDiff) : nat :=
  length (diff_missing d) + length (diff_unexpected d) + length (diff_failed d).

(** The row [find] returns for a primitive. *)
Definition audit_row (a : SandboxAudit) (p : SandboxPrimitive) : option PrimitiveAudit :=
  find_b (λ r, bool_decide (pa_primitive r = p)) (sa_rows a).

Definition diff_plan_vs_audit (plan : SandboxPlan) (a : SandboxAudit) : SandboxDiff :=
  let requested := primitives_for plan in
  mkSandboxDiff
    (List.filter (λ p, match audit_row a p with None => true | Some _ => false end) requested)
    (List.filter (λ p, negb (bool_decide (p ∈ requested))) (pa_primitive <$> sa_rows a))
    (List.filter (λ p, match audit_row a p with Some r => is_failed r | None => false end)
       requested).

(** The trait [SandboxEnforcer]. *)
Class SandboxEnforcer := enforcer_apply : SandboxPlan → string → N → SandboxAudit.

Definition NullEnforcer_apply (plan : SandboxPlan) (service : string) (now_ms : N) :
    SandboxAudit :=
  foldl (λ a p, SandboxAudit_record
                  (PrimitiveAudit_with_reason "null enforcer" (PrimitiveAudit_new p PsSkipped 0)) a)
    (SandboxAudit_new plan service now_ms) (primitives_for plan).

#[export] Instance NullEnforcer : SandboxEnforcer := NullEnforcer_apply.

Record SandboxHostPolicy := mkSandboxHostPolicy {
  allowed_profiles : list SandboxProfile;
  refuse_on_discrepancy : bool;
}.

Definition SandboxHostPolicy_permissive : SandboxHostPolicy :=
  mkSandboxHostPolicy [SbInternal; SbSystemService; SbRestrictedService] false.
Definition SandboxHostPolicy_strict : SandboxHostPolicy :=
  mkSandboxHostPolicy [SbRestrictedService] true.
Definition host_allows (p : SandboxHostPolicy) (profile : SandboxProfile) : bool :=
  bool_decide (profile ∈ allowed_profiles p).

(** ** What a clean difference means *)

Lemma filter_nil_iff {A} (p : A → bool) l :
  List.filter p l = [] ↔ ∀ x, x ∈ l → p x = false.
Proof.
  induction l as [|y l IH]; simpl; [set_solver|]. destruct (p y) eqn:E.
  - split; [done|]. intros H. specialize (H y). rewrite E in H. assert (true = false) by set_solver. done.
  - rewrite IH. set_solver.
Qed.

Lemma diff_is_clean_iff d :
  SandboxDiff_is_clean d = true ↔ diff_missing d = [] ∧ diff_unexpected d = [] ∧ diff_failed d = [].
Proof. destruct d as [[] [] []]; naive_solver. Qed.

(** The difference of a plan and an audit is clean exactly when the first
    row of every requested primitive exists and is not a failure and every row
    is about a requested primitive; a primitive that was skipped counts as
    present, although the difference documents it as missing. *)
Theorem clean_diff_exact plan a :
  SandboxDiff_is_clean (diff_plan_vs_audit plan a) = true ↔
  (∀ p, p ∈ primitives_for plan →
     ∃ r, audit_row a p = Some r ∧ (pa_status r = PsApplied ∨ pa_status r = PsSkipped)) ∧
  (∀ r, r ∈ sa_rows a → pa_primitive r ∈ primitives_for plan).
Proof.
  rewrite diff_is_clean_iff. unfold diff_plan_vs_audit. simpl. rewrite !filter_nil_iff.
  setoid_rewrite negb_false_iff. setoid_rewrite bool_decide_eq_true.
  setoid_rewrite list_elem_of_fmap. split.
  - intros (Hm & Hu & Hf). split; [|naive_solver]. intros p Hp.
    specialize (Hm p Hp). specialize (Hf p Hp). destruct (audit_row a p) as [r|]; [|done].
    exists r. split; [done|]. unfold is_failed in Hf. destruct (pa_status r); [by left|by right|done].
  - intros [Hr Hrow]. split_and!.
    + intros p Hp. destruct (Hr p Hp) as (r & -> & _). done.
    + intros p (r & -> & Hin). by apply Hrow.
    + intros p Hp. destruct (Hr p Hp) as (r & -> & [Hs|Hs]); unfold is_failed; by rewrite Hs.
Qed.

(** ** The null enforcer *)

Lemma null_rows plan service now :
  sa_rows (NullEnforcer_apply plan service now) =
  (λ p, mkPrimitiveAudit p PsSkipped 0 "null enforcer") <$> primitives_for plan.
Proof.
  unfold NullEnforcer_apply. generalize (primitives_for plan). intros l.
  assert (∀ a, sa_rows (foldl (λ a p, SandboxAudit_record (PrimitiveAudit_with_reason "null enforcer"
      (PrimitiveAudit_new p PsSkipped 0)) a) a l) =
    sa_rows a ++ ((λ p, mkPrimitiveAudit p PsSkipped 0 "null enforcer") <$> l)) as H; [|apply H].
  induction l as [|p l IH]; intros a; simpl; [by rewrite app_nil_r|].
  rewrite IH. simpl. by rewrite <-app_assoc.
Qed.

Lemma audit_row_fmap plan service now p :
  p ∈ primitives_for plan →
  audit_row (NullEnforcer_apply plan service now) p =
  Some (mkPrimitiveAudit p PsSkipped 0 "null enforcer").
Proof.
  unfold audit_row. rewrite null_rows. generalize (primitives_for plan).
  induction l as [|q l IH]; [set_solver|]. simpl. intros [->|Hin]%elem_of_cons.
  - by rewrite bool_decide_true.
  - case_bool_decide; [by subst|]. by apply IH.
Qed.

(** An enforcer that applies nothing passes the check: for every plan the
    audit of the null enforcer gives a clean difference, so that even the
    strict host policy sees no discrepancy, while no primitive was applied and
    the audit is not complete. *)
Theorem null_enforcement_looks_clean plan service now :
  let a := enforcer_apply plan service now in
  SandboxDiff_is_clean (diff_plan_vs_audit plan a) = true ∧
  discrepancy_count (diff_plan_vs_audit plan a) = 0 ∧
  applied_count a = 0 ∧ SandboxAudit_is_complete a = false.
Proof.
  cbv zeta. change (enforcer_apply plan service now) with (NullEnforcer_apply plan service now).
  assert (SandboxDiff_is_clean (diff_plan_vs_audit plan (NullEnforcer_apply plan service now))
          = true) as Hc.
  { apply diff_is_clean_iff. unfold diff_plan_vs_audit. simpl. rewrite !filter_nil_iff. split_and!.
    - intros p Hp. by rewrite (audit_row_fmap plan service now p Hp).
    - intros p Hp. rewrite null_rows, <-list_fmap_compose, list_fmap_id in Hp.
      by rewrite bool_decide_true.
    - intros p Hp. by rewrite (audit_row_fmap plan service now p Hp). }
  split_and!; [done| | |].
  - apply diff_is_clean_iff in Hc as (H1 & H2 & H3). unfold discrepancy_count.
    by rewrite H1, H2, H3.
  - unfold applied_count. rewrite null_rows. by induction (primitives_for plan).
  - unfold SandboxAudit_is_complete, skipped_count. rewrite null_rows. apply andb_false_iff. right.
    assert (ExecChild ∈ primitives_for plan) as Hin by (unfold primitives_for; set_solver).
    destruct (primitives_for plan); [set_solver|done].
Qed.

Lemma elem_of_namespace_primitives l q :
  q ∈ (l ≫= namespace_primitive) ↔
  match q with
  | UserNamespace => NsUser ∈ l
  | MountNamespace => NsMount ∈ l
  | NetworkNamespace => NsNetwork ∈ l
  | PidNamespace => NsPid ∈ l
  | IpcNamespace => NsIpc ∈ l
  | _ => False
  end.
Proof.
  induction l as [|ns l IH]; simpl; [destruct q; set_solver|].
  rewrite elem_of_app, IH. destruct ns, q; simpl; set_solver.
Qed.

(** The primitives a plan requests leave out what it asks for: the plan of
    a restricted service keeps no capability, yet its request does not include
    dropping the capabilities (only a plan that keeps some does), and no plan
    requests the UTS and cgroup namespaces it lists. *)
Theorem requested_primitives_exact plan p :
  p ∈ primitives_for plan ↔
  match p with
  | NoNewPrivs => sp_no_new_privs plan = true
  | UserNamespace => NsUser ∈ sp_namespaces plan
  | MountNamespace => NsMount ∈ sp_namespaces plan
  | NetworkNamespace => NsNetwork ∈ sp_namespaces plan
  | PidNamespace => NsPid ∈ sp_namespaces plan
  | IpcNamespace => NsIpc ∈ sp_namespaces plan
  | DropCapabilities => sp_capabilities plan ≠ []
  | InstallSeccomp => is_Some (sp_seccomp plan)
  | CreateCgroupSlice | WriteCgroupLimits | ExecChild => True
  end.
Proof.
  unfold primitives_for. rewrite !elem_of_app, elem_of_namespace_primitives.
  assert (is_Some (sp_seccomp plan) ↔ sp_seccomp plan ≠ None) as Hs
    by (symmetry; apply not_eq_None_Some).
  destruct (sp_no_new_privs plan), (sp_capabilities plan), (sp_seccomp plan), p;
    rewrite ?elem_of_cons, ?elem_of_nil; naive_solver.
Qed.
