(* ===== verification/Launcher.v ===== *)
(** * The sandbox launcher

    Models system/aether-sandbox/src: the command line, plan resolution and
    validation of main.rs, and [apply_and_exec] of linux.rs.  The kernel is the
    class [Kernel]: an answer for each system call, over a state of its own, and what it
    reads at addresses that were freed, which nothing is assumed about.  Reading a file and decoding a plan from JSON are parameters.  What is
    printed to the standard streams is not modelled. *)
From S2P Require Import Prelude RustStd CoreTypes Sandbox.
From Stdlib Require Import Ascii.
Open Scope N_scope.

(** ** linux.rs: kernel constants *)

Definition cap_number (c : LinuxCapability) : N :=
  match c with
  | CapChown => 0 | CapDacOverride => 1 | CapDacReadSearch => 2 | CapFowner => 3
  | CapFsetid => 4 | CapKill => 5 | CapSetgid => 6 | CapSetuid => 7
  | CapSetpcap => 8 | CapLinuxImmutable => 9 | CapNetBindService => 10
  | CapNetBroadcast => 11 | CapNetAdmin => 12 | CapNetRaw => 13 | CapIpcLock => 14
  | CapIpcOwner => 15 | CapSysModule => 16 | CapSysRawio => 17 | CapSysChroot => 18
  | CapSysPtrace => 19 | CapSysPacct => 20 | CapSysAdmin => 21 | CapSysBoot => 22
  | CapSysNice => 23 | CapSysResource => 24 | CapSysTime => 25 | CapSysTtyConfig => 26
  | CapMknod => 27 | CapLease => 28 | CapAuditWrite => 29 | CapAuditControl => 30
  | CapSetfcap => 31 | CapMacOverride => 32 | CapMacAdmin => 33 | CapSyslog => 34
  | CapWakeAlarm => 35 | CapBlockSuspend => 36 | CapAuditRead => 37 | CapPerfmon => 38
  | CapBpf => 39 | CapCheckpointRestore => 40
  end.

Definition namespace_flag (ns : LinuxNamespace) : N :=
  match ns with
  | NsMount => 0x00020000
  | NsPid => 0x20000000
  | NsNetwork => 0x40000000
  | NsIpc => 0x08000000
  | NsUts => 0x04000000
  | NsUser => 0x10000000
  | NsCgroup => 0x02000000
  end.

Record CapHeader := mkCapHeader { cap_version : N; cap_pid : N }.

Record CapData := mkCapData { effective : N; permitted : N; inheritable : N }.

Definition CapData_zero : CapData := mkCapData 0 0 0.

Definition cap_or (mask : N) (d : CapData) : CapData :=
  mkCapData (N.lor (effective d) mask) (N.lor (permitted d) mask) (N.lor (inheritable d) mask).

(** The loop of [set_capabilities] over the two words of [data]. *)
Definition cap_data (keep : list LinuxCapability) : CapData * CapData :=
  foldl (λ '(d0, d1) c,
    let bit := cap_number c in
    if bit <? 32 then (cap_or (N.shiftl 1 bit) d0, d1)
    else (d0, cap_or (N.shiftl 1 (bit - 32)) d1))
    (CapData_zero, CapData_zero) keep.

(** The loop of [apply_and_exec] over the namespaces. *)
Definition unshare_flags (l : list LinuxNamespace) : N :=
  foldl (λ flags ns, N.lor flags (namespace_flag ns)) 0 l.

(** ** The kernel *)

Inductive Syscall :=
| SysNoNewPrivs
| SysUnshare (flags : N)
| SysCreateDirAll (path : string)
| SysWriteFile (path content : string)
| SysCapset (h : CapHeader) (d : CapData * CapData)
| SysExecvp (file : string) (argv : list string).

Class Kernel (W : Type) := {
  sys : Syscall → W → W * bool;
  process_id : N;
  (** What is found at the address of the [i]th C string of a command after the
      strings have been freed: nothing is known of it. *)
  freed_text : list string → nat → W → string;
}.

(** How the launcher ends: an exit code, or the process image is replaced by a
    program, started with these arguments (its own name the first). *)
Inductive LaunchOutcome := Exit (code : N) | Panicked | Replaced (file : string) (argv : list string).

Section launch.
Context {W : Type} `{!Kernel W}.

(** The kernel state and the calls made so far. *)
Definition call (s : Syscall) (st : W * list Syscall) : (W * list Syscall) * bool :=
  let '(w, ok) := sys s st.1 in ((w, st.2 ++ [s]), ok).

Definition write_cgroup_slice (slice : string) (st : W * list Syscall) :
    (W * list Syscall) * bool :=
  let path := "/sys/fs/cgroup/" +:+ slice in
  match call (SysCreateDirAll path) st with
  | (st, false) => (st, false)
  | (st, true) => call (SysWriteFile (path_join path "cgroup.procs") (pretty process_id)) st
  end.

Definition set_capabilities (keep : list LinuxCapability) (st : W * list Syscall) :
    (W * list Syscall) * bool :=
  call (SysCapset (mkCapHeader 0x2000302 0) (cap_data keep)) st.

(** [CString::new] refuses a string with a NUL character. *)
Definition has_nul (s : string) : bool := negb (str_all (λ c, negb (Ascii.eqb c "000")) s).

(** The arguments as [execvp] reads them: the C string of each one is freed at the end of its
    round of the loop, so that the pointers pushed lead into freed memory. *)
Definition dangling_argv (cmd : list string) (w : W) : list string :=
  imap (λ i _, freed_text cmd i w) cmd.

(** The C string of the program itself lives to the call. *)
Definition exec_child (cmd : list string) (st : W * list Syscall) : (W * list Syscall) * LaunchOutcome :=
  match cmd with
  | [] => (st, Panicked)
  | file :: _ =>
      if has_nul file then (st, Exit 127)
      else if existsb has_nul cmd then (st, Exit 127)
      else
        let argv := dangling_argv cmd st.1 in
        match call (SysExecvp file argv) st with
        | (st, true) => (st, Replaced file argv)
        | (st, false) => (st, Exit 127)
        end
  end.

Definition apply_and_exec (plan : SandboxPlan) (cmd : list string) (st : W * list Syscall) :
    (W * list Syscall) * LaunchOutcome :=
  match cmd with
  | [] => (st, Exit 2)
  | _ =>
      let '(st, ok) := if sp_no_new_privs plan then call SysNoNewPrivs st else (st, true) in
      if negb ok then (st, Exit 1)
      else
        let '(st, ok) :=
          match sp_namespaces plan with
          | [] => (st, true)
          | l => call (SysUnshare (unshare_flags l)) st
          end in
        if negb ok then (st, Exit 1)
        else
          let '(st, ok) := write_cgroup_slice (cgroup_slice (sp_resources plan)) st in
          if negb ok then (st, Exit 1)
          else
            let '(st, ok) := set_capabilities (sp_capabilities plan) st in
            if negb ok then (st, Exit 1) else exec_child cmd st
  end.
End launch.

(** ** main.rs *)

Inductive ParsedArgs :=
| ArgsHelp
| ArgsUnknownFlag
| ArgsParsed (plan_path profile : option string) (dry_run : bool) (cmd : option (list string)).

(** The loop over the arguments after the program name; the last argument is
    the part of the command line still to read. *)
Fixpoint parse_args (plan_path profile : option string) (dry_run : bool) (args : list string) :
    ParsedArgs :=
  match args with
  | [] => ArgsParsed plan_path profile dry_run None
  | a :: rest =>
      if (a =? "--plan")%string then
        match rest with
        | v :: rest => parse_args (Some v) profile dry_run rest
        | [] => ArgsParsed None profile dry_run None
        end
      else if (a =? "--profile")%string then
        match rest with
        | v :: rest => parse_args plan_path (Some v) dry_run rest
        | [] => ArgsParsed plan_path None dry_run None
        end
      else if (a =? "--dry-run")%string then parse_args plan_path profile true rest
      else if ((a =? "--help") || (a =? "-h"))%string then ArgsHelp
      else if (a =? "--")%string then
        ArgsParsed plan_path profile dry_run (match rest with [] => None | _ => Some rest end)
      else if String.prefix "--" a then ArgsUnknownFlag
      else ArgsParsed plan_path profile dry_run (Some args)
  end.

Definition profile_of_name (name : string) : option SandboxProfile :=
  if (name =? "internal")%string then Some SbInternal
  else if (name =? "system-service")%string then Some SbSystemService
  else if (name =? "restricted-service")%string then Some SbRestrictedService
  else None.

(** The capabilities no plan may keep. *)
Definition forbidden_capability (c : LinuxCapability) : bool :=
  match c with
  | CapSysAdmin | CapSysModule | CapSysRawio | CapSysBoot | CapLinuxImmutable | CapMacAdmin
  | CapMacOverride | CapBpf | CapCheckpointRestore => true
  | _ => false
  end.

Definition validate (plan : SandboxPlan) : result unit string :=
  let r := sp_resources plan in
  match find_b forbidden_capability (sp_capabilities plan) with
  | Some c => Err ("plan requests forbidden capability " +:+ LinuxCapability_name c)
  | None =>
      if negb (String.prefix "aether.slice/" (cgroup_slice r))
      then Err ("cgroup slice '" +:+ cgroup_slice r +:+ "' is not under aether.slice/")
      else if (cpu_weight r <? 1) || (10000 <? cpu_weight r)
      then Err ("cpu_weight " +:+ pretty (cpu_weight r)
                +:+ " is outside the cgroup v2 range 1..=10000")
      else if (io_weight r <? 1) || (10000 <? io_weight r)
      then Err ("io_weight " +:+ pretty (io_weight r)
                +:+ " is outside the cgroup v2 range 1..=10000")
      else Ok tt
  end.

Section main.
Context {W : Type} `{!Kernel W}.
Variable read_to_string : string → result string string.
Variable plan_from_json : string → result SandboxPlan string.

Definition resolve_plan (plan_path profile : option string) : result SandboxPlan string :=
  match plan_path, profile with
  | Some _, Some _ => Err "--plan and --profile are mutually exclusive"
  | None, None => Err "one of --plan or --profile is required"
  | Some path, None =>
      match read_to_string path with
      | Err e => Err ("cannot read plan file " +:+ path +:+ ": " +:+ e)
      | Ok text =>
          match plan_from_json text with
          | Err e => Err ("plan file " +:+ path +:+ " is not a valid SandboxPlan: " +:+ e)
          | Ok plan => Ok plan
          end
      end
  | None, Some name =>
      match profile_of_name name with
      | Some p => Ok (plan_sandbox p)
      | None => Err ("unknown profile '" +:+ name
                     +:+ "'; expected internal | system-service | restricted-service")
      end
  end.

(** [main], for the arguments after the program name. *)
Definition sandbox_main (args : list string) (st : W * list Syscall) :
    (W * list Syscall) * LaunchOutcome :=
  match parse_args None None false args with
  | ArgsHelp => (st, Exit 0)
  | ArgsUnknownFlag => (st, Exit 2)
  | ArgsParsed _ _ _ None => (st, Exit 2)
  | ArgsParsed plan_path profile dry_run (Some cmd) =>
      match resolve_plan plan_path profile with
      | Err _ => (st, Exit 2)
      | Ok plan =>
          match validate plan with
          | Err _ => (st, Exit 2)
          | Ok _ => if dry_run then (st, Exit 0) else apply_and_exec plan cmd st
          end
      end
  end.
End main.

(** ** Bit masks *)

Definition ns_bit (ns : LinuxNamespace) : N :=
  match ns with
  | NsMount => 17 | NsPid => 29 | NsNetwork => 30 | NsIpc => 27 | NsUts => 26 | NsUser => 28
  | NsCgroup => 25
  end.

Lemma namespace_flag_bit ns : namespace_flag ns = 2 ^ ns_bit ns.
Proof. by destruct ns. Qed.

Lemma ns_bit_inj a b : ns_bit a = ns_bit b → a = b.
Proof. by destruct a, b. Qed.

Lemma cap_number_inj a b : cap_number a = cap_number b → a = b.
Proof. destruct a; destruct b; done || (intros H; discriminate H). Qed.

Lemma cap_number_bound c : cap_number c < 64.
Proof. by destruct c. Qed.

(** A fold that only adds bits. *)
Lemma testbit_fold_lor {A} (f : A → N) l acc i :
  N.testbit (foldl (λ a x, N.lor a (f x)) acc l) i =
  N.testbit acc i || existsb (λ x, N.testbit (f x) i) l.
Proof.
  revert acc. induction l as [|x l IH]; intros acc; simpl; [by rewrite orb_false_r|].
  by rewrite IH, N.lor_spec, orb_assoc.
Qed.

Lemma existsb_decide {A} `{EqDecision A} (x : A) l :
  existsb (λ y, bool_decide (y = x)) l = bool_decide (x ∈ l).
Proof.
  apply eq_true_iff_eq. rewrite existsb_exists, bool_decide_eq_true.
  setoid_rewrite bool_decide_eq_true. setoid_rewrite <-list_elem_of_In. naive_solver.
Qed.

Lemma existsb_ext' {A} (f g : A → bool) l :
  (∀ x, f x = g x) → existsb f l = existsb g l.
Proof. intros H. induction l as [|x l IH]; simpl; [done|]. by rewrite H, IH. Qed.

(** One word of the capability data: the fold restricted to that word. *)
Definition cap_mask (word : N) (c : LinuxCapability) : N :=
  if (cap_number c <? 32) then (if word =? 0 then N.shiftl 1 (cap_number c) else 0)
  else (if word =? 0 then 0 else N.shiftl 1 (cap_number c - 32)).

Definition word_of (word : N) (d : CapData * CapData) : CapData := if word =? 0 then d.1 else d.2.

Definition cap_word (word : N) (keep : list LinuxCapability) : N :=
  foldl (λ a c, N.lor a (cap_mask word c)) 0 keep.

Lemma cap_data_word word keep :
  word_of word (cap_data keep) =
  mkCapData (cap_word word keep) (cap_word word keep) (cap_word word keep).
Proof.
  unfold cap_data, cap_word. induction keep as [|c keep IH] using rev_ind.
  { unfold word_of. by destruct (word =? 0). }
  rewrite !foldl_snoc. destruct (foldl _ _ keep) as [d0 d1]. unfold word_of, cap_mask in *.
  destruct (cap_number c <? 32), (word =? 0); simpl in *; rewrite ?IH, ?N.lor_0_r; done.
Qed.

Lemma testbit_cap_mask c c' :
  N.testbit (cap_mask (cap_number c / 32) c') (cap_number c mod 32) = bool_decide (c' = c).
Proof. by destruct c, c'. Qed.

(** The words passed to [capset] are exact: the effective, permitted and
    inheritable sets are equal, the bit of a capability is set exactly when
    the plan keeps it, and no bit is set that is not the number of a kept
    capability; likewise the flags of [unshare] hold exactly the bits of the
    listed namespaces. *)
Theorem kernel_masks_exact keep l :
  (∀ c, let d := word_of (cap_number c / 32) (cap_data keep) in
     effective d = permitted d ∧ permitted d = inheritable d ∧
     N.testbit (effective d) (cap_number c mod 32) = bool_decide (c ∈ keep)) ∧
  (∀ word i, N.testbit (effective (word_of word (cap_data keep))) i = true →
     ∃ c, c ∈ keep ∧ cap_number c = (if word =? 0 then i else 32 + i)) ∧
  (∀ ns, N.testbit (unshare_flags l) (ns_bit ns) = bool_decide (ns ∈ l)) ∧
  (∀ i, N.testbit (unshare_flags l) i = true → ∃ ns, ns ∈ l ∧ ns_bit ns = i).
Proof.
  unfold unshare_flags. split_and!.
  - intros c. rewrite cap_data_word. simpl. split_and!; [done..|].
    unfold cap_word. rewrite testbit_fold_lor, N.bits_0. simpl.
    rewrite <-existsb_decide. apply existsb_ext'. intros c'. apply testbit_cap_mask.
  - intros word i. rewrite cap_data_word. simpl. unfold cap_word.
    rewrite testbit_fold_lor, N.bits_0. simpl. rewrite existsb_exists.
    intros (c & Hc%list_elem_of_In & Hb). exists c. split; [done|]. unfold cap_mask in Hb.
    destruct (N.ltb_spec (cap_number c) 32), (word =? 0); rewrite ?N.bits_0 in Hb; try done;
      rewrite N.shiftl_1_l, N.pow2_bits_eqb in Hb; apply N.eqb_eq in Hb; lia.
  - intros ns. rewrite testbit_fold_lor, N.bits_0. simpl. rewrite <-existsb_decide.
    apply existsb_ext'. intros ns'. by destruct ns, ns'.
  - intros i. rewrite testbit_fold_lor, N.bits_0. simpl. rewrite existsb_exists.
    intros (ns & Hns%list_elem_of_In & Hb). exists ns. split; [done|].
    rewrite namespace_flag_bit, N.pow2_bits_eqb in Hb. by apply N.eqb_eq.
Qed.

(** ** The calls of a launch *)

Section launch_props.
Context {W : Type} `{!Kernel W}.
Implicit Types st : W * list Syscall.

(** The calls a plan asks for, in order. *)
Definition planned_calls (plan : SandboxPlan) : list Syscall :=
  let path := "/sys/fs/cgroup/" +:+ cgroup_slice (sp_resources plan) in
  (if sp_no_new_privs plan then [SysNoNewPrivs] else []) ++
  (match sp_namespaces plan with [] => [] | l => [SysUnshare (unshare_flags l)] end) ++
  [SysCreateDirAll path; SysWriteFile (path_join path "cgroup.procs") (pretty process_id);
   SysCapset (mkCapHeader 0x2000302 0) (cap_data (sp_capabilities plan))].

(** Run calls until one fails. *)
Fixpoint run_calls (l : list Syscall) st : (W * list Syscall) * bool :=
  match l with
  | [] => (st, true)
  | s :: l => let '(st, ok) := call s st in if ok then run_calls l st else (st, false)
  end.

Lemma run_calls_app l k st :
  run_calls (l ++ k) st = let '(st, ok) := run_calls l st in
                          if ok then run_calls k st else (st, false).
Proof.
  revert st. induction l as [|s l IH]; intros st; simpl; [done|].
  destruct (call s st) as [st' []]; [apply IH|done].
Qed.

Lemma apply_and_exec_calls plan cmd st : cmd ≠ [] →
  apply_and_exec plan cmd st =
  let '(st, ok) := run_calls (planned_calls plan) st in
  if ok then exec_child cmd st else (st, Exit 1).
Proof.
  intros Hc. unfold apply_and_exec, planned_calls, write_cgroup_slice, set_capabilities.
  destruct cmd as [|a cmd]; [done|]. rewrite !run_calls_app.
  assert (∀ s (c : bool), run_calls (if c then [SysNoNewPrivs] else []) s =
    if c then call SysNoNewPrivs s else (s, true)) as ->.
  { intros s []; [|done]. simpl. by destruct (call _ s) as [? []]. }
  destruct (if sp_no_new_privs plan then _ else _) as [st1 []]; [|done]. simpl.
  rewrite run_calls_app.
  assert (∀ s, run_calls (match sp_namespaces plan with [] => []
      | l => [SysUnshare (unshare_flags l)] end) s =
    match sp_namespaces plan with [] => (s, true) | l => call (SysUnshare (unshare_flags l)) s end)
    as ->.
  { intros s. destruct (sp_namespaces plan); [done|]. simpl. by destruct (call _ s) as [? []]. }
  destruct (match sp_namespaces plan with [] => _ | _ => _ end) as [st2 []]; [|done]. simpl.
  destruct (call (SysCreateDirAll _) st2) as [st3 []]; [|done]. simpl.
  destruct (call (SysWriteFile _ _) st3) as [st4 []]; [|done]. simpl.
  by destruct (call (SysCapset _ _) st4) as [st5 []].
Qed.

(** The answers the kernel gives along a run. *)
Inductive calls_succeed : list Syscall → W → W → Prop :=
| succeed_nil w : calls_succeed [] w w
| succeed_cons s l w w' w'' :
    sys s w = (w', true) → calls_succeed l w' w'' → calls_succeed (s :: l) w w''.

Lemma run_calls_true l st st' :
  run_calls l st = (st', true) → calls_succeed l st.1 st'.1 ∧ st'.2 = st.2 ++ l.
Proof.
  revert st. induction l as [|s l IH]; intros st; simpl.
  { intros [= <-]. rewrite app_nil_r. split; [constructor|done]. }
  unfold call. destruct (sys s st.1) as [w []] eqn:Hs; [|done].
  intros [H1 H2]%IH. simpl in *. split; [by econstructor|]. by rewrite H2, <-app_assoc.
Qed.

Lemma calls_succeed_app l k w w' w'' :
  calls_succeed l w w' → calls_succeed k w' w'' → calls_succeed (l ++ k) w w''.
Proof. induction 1; intros; simpl; [done|]. econstructor; eauto. Qed.

Definition plan_sound (plan : SandboxPlan) : Prop :=
  Forall (λ c, forbidden_capability c = false) (sp_capabilities plan) ∧
  String.prefix "aether.slice/" (cgroup_slice (sp_resources plan)) = true ∧
  1 ≤ cpu_weight (sp_resources plan) ≤ 10000 ∧ 1 ≤ io_weight (sp_resources plan) ≤ 10000.

Lemma validate_Ok plan : validate plan = Ok tt ↔ plan_sound plan.
Proof.
  unfold validate, plan_sound. rewrite Forall_forall.
  destruct (find_b _ _) as [c|] eqn:Hf.
  { apply find_b_Some in Hf as [Hin Hc]. split; [done|]. intros [H _]. by rewrite H in Hc. }
  rewrite find_b_None in Hf. destruct (String.prefix _ _); simpl; [|naive_solver].
  destruct (N.ltb_spec (cpu_weight (sp_resources plan)) 1); simpl; [naive_solver lia|].
  destruct (N.ltb_spec 10000 (cpu_weight (sp_resources plan))); simpl; [naive_solver lia|].
  destruct (N.ltb_spec (io_weight (sp_resources plan)) 1); simpl; [naive_solver lia|].
  destruct (N.ltb_spec 10000 (io_weight (sp_resources plan))); simpl; naive_solver lia.
Qed.

(** C25: the launcher replaces its image only by the program named first on its command
    line, no part of which has a NUL, under a plan that was resolved from exactly one
    source and is valid, and only after every call the plan asks for was made, in
    order and with success; no other call is made.  In every other case it ends with
    an exit code.  Of the arguments only the number is that of the command line: what
    the program is given is whatever the kernel finds in the freed C strings. *)
Theorem child_runs_only_confined read parse args (w : W) :
  match sandbox_main read parse args (w, []) with
  | ((w', calls), Replaced file argv) =>
      ∃ plan_path profile plan cmd w1,
        parse_args None None false args = ArgsParsed plan_path profile false (Some (file :: cmd)) ∧
        resolve_plan read parse plan_path profile = Ok plan ∧ plan_sound plan ∧
        existsb has_nul (file :: cmd) = false ∧
        calls_succeed (planned_calls plan) w w1 ∧ argv = dangling_argv (file :: cmd) w1 ∧
        length argv = S (length cmd) ∧
        calls = planned_calls plan ++ [SysExecvp file argv] ∧ sys (SysExecvp file argv) w1 = (w', true)
  | (_, Exit _) => True
  | (_, Panicked) => False
  end.
Proof.
  unfold sandbox_main.
  destruct (parse_args None None false args) as [| |pp pr dry [cmd|]] eqn:Hp; try done.
  destruct (resolve_plan read parse pp pr) as [plan|] eqn:Hr; [|done].
  destruct (validate plan) as [[]|] eqn:Hv; [|done]. destruct dry; [done|].
  destruct cmd as [|file cmd]; [done|]. rewrite apply_and_exec_calls by done.
  destruct (run_calls (planned_calls plan) (w, [])) as [[w1 calls] []] eqn:Hrun; [|done].
  apply run_calls_true in Hrun as [Hs Htr]. cbn [fst snd app] in *. subst calls. unfold exec_child.
  destruct (has_nul file); [done|]. destruct (existsb has_nul (file :: cmd)) eqn:Hnul; [done|].
  unfold call. cbn [fst snd]. destruct (sys (SysExecvp _ _) w1) as [w2 []] eqn:He; [|done].
  exists pp, pr, plan, cmd, w1. split_and!; try done; [by apply validate_Ok|].
  unfold dangling_argv. by rewrite length_imap.
Qed.
End launch_props.

(** A kernel that counts the calls and lets every one succeed, on a machine where a
    freed C string reads as empty ([CString] clears its first byte when it is dropped). *)
#[local] Instance counting_kernel : Kernel nat :=
  {| sys _ w := (S w, true); process_id := 42; freed_text _ _ _ := EmptyString |}.

(** The arguments of a command are lost on such a machine. *)
Theorem arguments_are_freed :
  (sandbox_main (λ _, Err "") (λ _, Err "")
     ["--profile"; "restricted-service"; "--"; "/bin/cp"; "/a"; "/b"] (0%nat, [])).2 =
  Replaced "/bin/cp" [""; ""; ""].
Proof. by vm_compute. Qed.

(** The plans of the three built-in profiles pass the launcher's
    validation, and the profile names on the command line are exactly the
    three documented ones. *)
Theorem builtin_profiles_launchable read parse name :
  (∀ p, validate (plan_sandbox p) = Ok tt) ∧
  (is_ok (resolve_plan read parse None (Some name)) = true ↔
   name ∈ ["internal"; "system-service"; "restricted-service"]).
Proof.
  split; [by intros []|]. unfold resolve_plan, profile_of_name.
  repeat case_match; simplify_eq; simpl; rewrite ?String.eqb_eq, ?String.eqb_neq in *;
    subst; set_solver.
Qed.
