(* ===== verification/Json.v ===== *)
(** * JSON values

    [serde_json] is third-party code: the operations of [serde_json::Value] the
    sources use are the class [JsonOps], what they rely on is [JsonLaws].
    [ToyJson] is an instance of both, used to run definitions on concrete
    inputs. *)
From S2P Require Import Prelude RustStd.

Class JsonOps (J : Type) := {
  json_null : J;
  json_str : string → J;
  json_num : N → J;
  json_obj : list (string * J) → J;
  json_arr : list J → J;
  (** [Value::get] with a string key. *)
  json_get : J → string → option J;
  json_as_str : J → option string;
  json_bool : bool → J;
  json_as_bool : J → option bool;
  json_as_u64 : J → option N;
  json_as_array : J → option (list J);
  json_to_string : J → string;
}.

(** [serde_json::from_str]. *)
Class JsonParse (J : Type) := { json_from_str : string → result J string }.

(** [value[key]]: [Null] when there is no such key. *)
Definition json_index {J} `{JsonOps J} (j : J) (k : string) : J := default json_null (json_get j k).

(** Objects with distinct keys, as the [json!] literals of the sources are. *)
Class JsonLaws (J : Type) `{JsonOps J} := {
  json_get_obj l k v : NoDup l.*1 → (k, v) ∈ l → json_get (json_obj l) k = Some v;
  json_as_str_str s : json_as_str (json_str s) = Some s;
  json_to_string_nonempty j : json_to_string j ≠ EmptyString;
}.

Inductive ToyJson :=
| TNull | TBool (b : bool) | TStr (s : string) | TNum (n : N) | TObj (l : list (string * ToyJson))
| TArr (l : list ToyJson).

#[export] Instance ToyJsonOps : JsonOps ToyJson := {|
  json_null := TNull;
  json_str := TStr;
  json_num := TNum;
  json_obj := TObj;
  json_arr := TArr;
  json_get j k := match j with
                  | TObj l => snd <$> find_b (λ x, bool_decide (x.1 = k)) l
                  | _ => None
                  end;
  json_as_str j := match j with TStr s => Some s | _ => None end;
  json_bool := TBool;
  json_as_bool j := match j with TBool b => Some b | _ => None end;
  json_as_u64 j := match j with TNum n => Some n | _ => None end;
  json_as_array j := match j with TArr l => Some l | _ => None end;
  json_to_string _ := "json";
|}.

#[export] Instance ToyJsonLaws : JsonLaws ToyJson.
Proof.
  split; [|done|done]. intros l k v. simpl.
  induction l as [|[k' v'] l IH]; [set_solver|]. simpl. rewrite NoDup_cons, elem_of_cons.
  intros [Hni Hnd] Hin. case_bool_decide as Hk; simpl in Hk.
  - subst. destruct Hin as [[= ->]|Hin]; [done|]. destruct Hni. apply list_elem_of_fmap. by exists (k, v).
  - destruct Hin as [[= -> ->]|Hin]; [done|by apply IH].
Qed.
