(* ===== verification/Diagnostics.v ===== *)
(** * Diagnostics and recovery policies

    Models system/aether-diagnostics/src/lib.rs and
    system/aether-recovery/src/lib.rs.  An [f32] is a [spec_float] of the
    Standard Library; the code only compares and clamps.  A literal is written
    with the 24-bit significand of the nearest [f32]. *)
From S2P Require Import Prelude RustStd TaskGraph AgentCore.
From Stdlib Require Import Floats.SpecFloat.

Abbreviation f32 := spec_float.

Definition f32_zero : f32 := S754_zero false.
Definition f32_half : f32 := S754_finite false 8388608 (-24).
Definition f32_one : f32 := S754_finite false 8388608 (-23).
(** 0.85, 0.9 and 0.95. *)
Definition f32_0_85 : f32 := S754_finite false 14260634 (-24).
Definition f32_0_90 : f32 := S754_finite false 15099494 (-24).
Definition f32_0_95 : f32 := S754_finite false 15938355 (-24).

(** [f32::clamp]: a NaN is returned as it is. *)
Definition f32_clamp (lo hi x : f32) : f32 :=
  if SFltb x lo then lo else if SFltb hi x then hi else x.

(** [a >= b] and [a > b]. *)
Definition f32_ge (a b : f32) : bool := SFleb b a.
Definition f32_gt (a b : f32) : bool := SFltb b a.

(** ** aether-diagnostics *)

Inductive Subsystem :=
| SubCpu | SubMemory | SubDisk | SubNetwork | SubService | SubApp | SubSecurity | SubPower
| SubFileSystem | SubOther.

#[export] Instance Subsystem_eq_dec : EqDecision Subsystem.
Proof. solve_decision. Defined.

Definition Subsystem_label (s : Subsystem) : string :=
  match s with
  | SubCpu => "CPU" | SubMemory => "Memory" | SubDisk => "Disk" | SubNetwork => "Network"
  | SubService => "Services" | SubApp => "Applications" | SubSecurity => "Security"
  | SubPower => "Power" | SubFileSystem => "File system" | SubOther => "Other"
  end.

(** The derived [Debug] text. *)
Definition Subsystem_debug (s : Subsystem) : string :=
  match s with
  | SubCpu => "Cpu" | SubMemory => "Memory" | SubDisk => "Disk" | SubNetwork => "Network"
  | SubService => "Service" | SubApp => "App" | SubSecurity => "Security"
  | SubPower => "Power" | SubFileSystem => "FileSystem" | SubOther => "Other"
  end.

Record Signal := mkSignal {
  sig_subsystem : Subsystem;
  sig_tag : string;
  sig_value : f32;
  sig_detail : string;
}.

Definition Signal_new (sub : Subsystem) (tag : string) (value : f32) (detail : string) : Signal :=
  mkSignal sub tag (f32_clamp f32_zero f32_one value) detail.

Definition is_alarming (s : Signal) : bool := f32_gt (sig_value s) f32_half.

Record Symptom := mkSymptom {
  sym_id : string;
  sym_subsystem : Subsystem;
  sym_severity : ObservationSeverity;
  sym_signals : list string;
}.

Record Explanation := mkExplanation {
  exp_symptom_id : string;
  exp_cause : string;
  exp_fix : string;
  exp_requires_consent : bool;
}.

Definition Explanation_new (id cause fix_ : string) : Explanation :=
  mkExplanation id cause fix_ true.

Definition self_healing (e : Explanation) : Explanation :=
  mkExplanation (exp_symptom_id e) (exp_cause e) (exp_fix e) false.

Inductive SymptomRule :=
| AboveThreshold (sub : Subsystem) (tag : string) (threshold : f32) (symptom_id : string)
    (severity : ObservationSeverity)
| AnyAlarming (tags : list string) (symptom_id : string) (severity : ObservationSeverity).

Record RulesTable := mkRulesTable {
  symptom_rules : list (SymptomRule * Symptom);
  rule_explanations : list (string * Explanation);
}.

Definition RulesTable_new : RulesTable := mkRulesTable [] [].

Definition with_rule (rule : SymptomRule) (s : Symptom) (t : RulesTable) : RulesTable :=
  mkRulesTable (symptom_rules t ++ [(rule, s)]) (rule_explanations t).

Definition with_explanation (e : Explanation) (t : RulesTable) : RulesTable :=
  mkRulesTable (symptom_rules t) (rule_explanations t ++ [(exp_symptom_id e, e)]).

Definition explanation_for (t : RulesTable) (id : string) : option Explanation :=
  snd <$> find_b (λ x, bool_decide (x.1 = id)) (rule_explanations t).

Definition rule_matches (r : SymptomRule) (signals : list Signal) : option Symptom :=
  match r with
  | AboveThreshold sub tag threshold id severity =>
      s ← find_b (λ s, bool_decide (sig_subsystem s = sub) && bool_decide (sig_tag s = tag)) signals;
      if f32_ge (sig_value s) threshold then Some (mkSymptom id sub severity [tag]) else None
  | AnyAlarming tags id severity =>
      let matching :=
        List.filter (λ t, existsb (λ s, bool_decide (sig_tag s = t) && is_alarming s) signals) tags in
      match matching with
      | [] => None
      | _ =>
          let sub := from_option sig_subsystem SubOther
                       (find_b (λ s, bool_decide (sig_tag s ∈ matching)) signals) in
          Some (mkSymptom id sub severity matching)
      end
  end.

Definition default_rules : RulesTable :=
  let t := RulesTable_new in
  let t := with_rule (AboveThreshold SubCpu "cpu.load" f32_0_85 "cpu_overload" SevWarning)
             (mkSymptom "cpu_overload" SubCpu SevWarning ["cpu.load"]) t in
  let t := with_rule (AboveThreshold SubMemory "memory.pressure" f32_0_90 "memory_pressure" SevCritical)
             (mkSymptom "memory_pressure" SubMemory SevCritical ["memory.pressure"]) t in
  let t := with_rule (AboveThreshold SubDisk "disk.used_ratio" f32_0_95 "disk_full" SevCritical)
             (mkSymptom "disk_full" SubDisk SevCritical ["disk.used_ratio"]) t in
  let t := with_rule (AboveThreshold SubService "service.down" f32_half "service_down" SevCritical)
             (mkSymptom "service_down" SubService SevCritical ["service.down"]) t in
  let t := with_rule (AboveThreshold SubApp "app.crash_rate" f32_half "app_crash_loop" SevWarning)
             (mkSymptom "app_crash_loop" SubApp SevWarning ["app.crash_rate"]) t in
  let t := with_rule (AnyAlarming ["cpu.load"; "memory.oom"; "app.crashed"] "system_unstable" SevCritical)
             (mkSymptom "system_unstable" SubOther SevCritical []) t in
  let t := with_explanation (self_healing (Explanation_new "cpu_overload"
             "A process is using the CPU heavily."
             "Open the taskbar's CPU chip to see the top process.")) t in
  let t := with_explanation (self_healing (Explanation_new "memory_pressure"
             "Memory is nearly full."
             "Close a few large apps, or restart the most memory-hungry one.")) t in
  let t := with_explanation (Explanation_new "disk_full"
             "The disk is almost full."
             "Run the disk cleanup, or archive old files.") t in
  let t := with_explanation (self_healing (Explanation_new "service_down"
             "A required system service is not running."
             "Restart the service.")) t in
  let t := with_explanation (Explanation_new "app_crash_loop"
             "An application is repeatedly crashing."
             "Open the app to see the crash report, or uninstall it.") t in
  with_explanation (self_healing (Explanation_new "system_unstable"
    "Multiple subsystems are alarming at once."
    "The system is in an unstable state. Consider restarting.")) t.

Record DiagnosticReport := mkDiagnosticReport {
  dr_signals : list Signal;
  dr_symptoms : list Symptom;
  dr_explanations : list Explanation;
  dr_rules : RulesTable;
}.

Definition DiagnosticReport_new : DiagnosticReport := mkDiagnosticReport [] [] [] default_rules.

Definition DiagnosticReport_with_rules (rules : RulesTable) : DiagnosticReport :=
  mkDiagnosticReport [] [] [] rules.

Definition SIGNAL_LIMIT : nat := 256.

Definition ingest (s : Signal) (r : DiagnosticReport) : DiagnosticReport :=
  mkDiagnosticReport (push_bounded SIGNAL_LIMIT s (dr_signals r)) (dr_symptoms r)
    (dr_explanations r) (dr_rules r).

(** [retain] with the list of ids seen so far. *)
Fixpoint dedup_symptoms (seen : list string) (l : list Symptom) : list Symptom :=
  match l with
  | [] => []
  | s :: l =>
      if bool_decide (sym_id s ∈ seen) then dedup_symptoms seen l
      else s :: dedup_symptoms (seen ++ [sym_id s]) l
  end.

Definition evaluate_report (r : DiagnosticReport) : DiagnosticReport :=
  let found := omap (λ x : SymptomRule * Symptom, rule_matches x.1 (dr_signals r))
                 (symptom_rules (dr_rules r)) in
  let symptoms := dedup_symptoms [] found in
  mkDiagnosticReport (dr_signals r) symptoms
    (omap (λ s, explanation_for (dr_rules r) (sym_id s)) symptoms) (dr_rules r).

Definition severity_cost (s : ObservationSeverity) : Z :=
  match s with SevInfo => 2 | SevNotice => 3 | SevWarning => 5 | SevCritical => 30 end.

Definition i32_min : Z := -2147483648.

(** [score]; [None] is the overflow of the [i32] subtraction. *)
Fixpoint score_from (s : Z) (l : list Symptom) : option Z :=
  match l with
  | [] => Some s
  | x :: l =>
      let s := (s - severity_cost (sym_severity x))%Z in
      if (s <? i32_min)%Z then None else score_from s l
  end.

Definition score (r : DiagnosticReport) : option N :=
  s ← score_from 100 (dr_symptoms r); Some (Z.to_N (Z.max s 0)).

Definition needs_attention (r : DiagnosticReport) : option bool :=
  s ← score r; Some (s <? 50)%N.

Definition to_observations {Json : Type} (r : DiagnosticReport) : list (Observation Json) :=
  omap (λ s, Observation_new (sym_id s) ("diagnostics." +:+ Subsystem_debug (sym_subsystem s))
               (sym_id s) (sym_severity s) 0) (dr_symptoms r).

(** ** aether-recovery *)

Inductive RecoveryAction :=
| RaRestartService (service reason : string)
| RaRestartApp (app_id reason : string)
| RaReconnectNetwork (interface reason : string)
| RaResolveDependency (dependency reason : string)
| RaFreeDiskCache (cache reason : string)
| RaDropPageCache (reason : string)
| RaKillProcess (pid : N) (reason : string)
| RaInformUser (explanation : Explanation).

Definition RecoveryAction_subsystem (a : RecoveryAction) : Subsystem :=
  match a with
  | RaRestartService _ _ => SubService
  | RaRestartApp _ _ => SubApp
  | RaReconnectNetwork _ _ => SubNetwork
  | RaResolveDependency _ _ => SubOther
  | RaFreeDiskCache _ _ => SubDisk
  | RaDropPageCache _ => SubMemory
  | RaKillProcess _ _ => SubOther
  | RaInformUser _ => SubOther
  end.

Definition RecoveryAction_summary (a : RecoveryAction) : string :=
  match a with
  | RaRestartService x reason | RaRestartApp x reason => "Restart `" +:+ x +:+ "`: " +:+ reason
  | RaReconnectNetwork i reason =>
      "Reconnect " +:+ (if str_is_empty i then "the default network" else i) +:+ ": " +:+ reason
  | RaResolveDependency d reason => "Resolve `" +:+ d +:+ "`: " +:+ reason
  | RaFreeDiskCache c reason => "Free `" +:+ c +:+ "` cache: " +:+ reason
  | RaDropPageCache reason => "Drop page cache: " +:+ reason
  | RaKillProcess pid reason => "Kill pid " +:+ pretty pid +:+ ": " +:+ reason
  | RaInformUser e => exp_cause e
  end.

Definition RecoveryAction_requires_consent (a : RecoveryAction) : bool :=
  match a with RaKillProcess _ _ => true | _ => false end.

Record RecoveryPlan := mkRecoveryPlan {
  rp_symptom_id : string;
  rp_actions : list RecoveryAction;
}.

Definition RecoveryPlan_new (id : string) : RecoveryPlan := mkRecoveryPlan id [].

Definition with_action (a : RecoveryAction) (p : RecoveryPlan) : RecoveryPlan :=
  mkRecoveryPlan (rp_symptom_id p) (rp_actions p ++ [a]).

Definition plan_needs_consent (p : RecoveryPlan) : bool :=
  existsb RecoveryAction_requires_consent (rp_actions p).

Record RecoveryPolicy := mkRecoveryPolicy { recipes : list (string * list RecoveryAction) }.

Definition RecoveryPolicy_new : RecoveryPolicy := mkRecoveryPolicy [].

Definition with_recipe (id : string) (actions : list RecoveryAction) (p : RecoveryPolicy) :
    RecoveryPolicy := mkRecoveryPolicy (recipes p ++ [(id, actions)]).

Definition plan_for (p : RecoveryPolicy) (id : string) : option RecoveryPlan :=
  (λ x, mkRecoveryPlan x.1 x.2) <$> find_b (λ x, bool_decide (x.1 = id)) (recipes p).

Definition default_policy : RecoveryPolicy :=
  let p := RecoveryPolicy_new in
  let p := with_recipe "cpu_overload"
    [RaInformUser (self_healing (Explanation_new "cpu_overload"
       "A process is using the CPU heavily."
       "Open the taskbar's CPU chip to see the top process."))] p in
  let p := with_recipe "memory_pressure"
    [RaDropPageCache "Free kernel page cache to relieve memory pressure."] p in
  let p := with_recipe "disk_full"
    [RaFreeDiskCache "package-manager" "Clean the package manager's cache to free disk space."] p in
  let p := with_recipe "service_down"
    [RaRestartService "<auto>" "Service is down; restart to recover."] p in
  let p := with_recipe "app_crash_loop"
    [RaRestartApp "<auto>" "App is in a crash loop; restart to recover."] p in
  with_recipe "system_unstable"
    [RaDropPageCache "Free kernel page cache as part of system recovery.";
     RaReconnectNetwork EmptyString "Cycle the network link as part of system recovery."] p.

Definition plan_recovery (symptoms : list Symptom) (p : RecoveryPolicy) : list RecoveryPlan :=
  omap (λ s, plan_for p (sym_id s)) symptoms.

(** ** Evaluation *)

Definition found_symptoms (r : DiagnosticReport) : list Symptom :=
  omap (λ x : SymptomRule * Symptom, rule_matches x.1 (dr_signals r)) (symptom_rules (dr_rules r)).

Lemma dedup_spec seen l :
  NoDup (sym_id <$> dedup_symptoms seen l) ∧
  (∀ id, id ∈ sym_id <$> dedup_symptoms seen l ↔ id ∈ sym_id <$> l ∧ id ∉ seen) ∧
  sublist (dedup_symptoms seen l) l.
Proof.
  revert seen. induction l as [|s l IH]; intros seen; simpl; [split_and!; [constructor|set_solver|done]|].
  case_bool_decide as Hs.
  - destruct (IH seen) as (H1 & H2 & H3). split_and!; [done| |by constructor]. set_solver.
  - destruct (IH (seen ++ [sym_id s])) as (H1 & H2 & H3). simpl. split_and!.
    + constructor; [|done]. rewrite H2. set_solver.
    + intros id. rewrite !elem_of_cons, H2. destruct (decide (id = sym_id s)); set_solver.
    + by constructor.
Qed.

(** The total cost of a list of symptoms. *)
Definition total_cost (l : list Symptom) : Z :=
  foldr (λ s c, severity_cost (sym_severity s) + c)%Z 0%Z l.

Lemma severity_cost_bounds s : (0 < severity_cost s ≤ 30)%Z.
Proof. by destruct s. Qed.

Lemma total_cost_bounds l : (0 ≤ total_cost l ≤ 30 * Z.of_nat (length l))%Z.
Proof.
  induction l as [|s l IH]; simpl; [lia|]. pose proof (severity_cost_bounds (sym_severity s)). lia.
Qed.

Lemma score_from_spec s l :
  (i32_min ≤ s - total_cost l)%Z → score_from s l = Some (s - total_cost l)%Z.
Proof.
  revert s. induction l as [|x l IH]; intros s; simpl; [intros; f_equal; lia|]. intros H.
  pose proof (total_cost_bounds l). destruct (Z.ltb_spec (s - severity_cost (sym_severity x)) i32_min).
  { lia. }
  rewrite IH by lia. f_equal. lia.
Qed.

(** [evaluate] reports one symptom for each id that some rule finds in the
    signal log, in rule order, and the score is then 100 minus the documented
    costs, at least 0: it is between 0 and 100, and the [i32] subtraction does
    not overflow for fewer than 71 million rules. *)
Theorem health_score_exact r :
  (N.of_nat (length (symptom_rules (dr_rules r))) ≤ 71000000)%N →
  let r' := evaluate_report r in
  score r' = Some (Z.to_N (Z.max (100 - total_cost (dr_symptoms r')) 0)) ∧
  (∀ s, score r' = Some s → (s ≤ 100)%N) ∧
  NoDup (sym_id <$> dr_symptoms r') ∧ sublist (dr_symptoms r') (found_symptoms r) ∧
  (∀ id, id ∈ sym_id <$> dr_symptoms r' ↔
     ∃ rule d s, (rule, d) ∈ symptom_rules (dr_rules r) ∧
       rule_matches rule (dr_signals r) = Some s ∧ sym_id s = id).
Proof.
  intros Hlen r'. destruct (dedup_spec [] (found_symptoms r)) as (Hnd & Hin & Hsub).
  assert (N.of_nat (length (dr_symptoms r')) ≤ 71000000)%N as Hl.
  { apply sublist_length in Hsub.
    assert (length (found_symptoms r) ≤ length (symptom_rules (dr_rules r))) by apply length_omap_le.
    change (dr_symptoms r') with (dedup_symptoms [] (found_symptoms r)). lia. }
  assert (score r' = Some (Z.to_N (Z.max (100 - total_cost (dr_symptoms r')) 0))) as Hs.
  { unfold score. pose proof (total_cost_bounds (dr_symptoms r')).
    rewrite score_from_spec; [done|]. unfold i32_min. lia. }
  split_and!; [done| |done|done|].
  - intros s. rewrite Hs. intros H%(inj Some). subst s.
    pose proof (total_cost_bounds (dr_symptoms r')). lia.
  - intros id. transitivity (id ∈ sym_id <$> dedup_symptoms [] (found_symptoms r)); [done|].
    rewrite Hin. unfold found_symptoms.
    rewrite list_elem_of_fmap. setoid_rewrite list_elem_of_omap. split.
    + intros [(s & -> & [rule d] & Hx & Hm) _]. simpl in Hm. by exists rule, d, s.
    + intros (rule & d & s & Hx & Hm & <-). split; [|set_solver]. exists s. split; [done|].
      by exists (rule, d).
Qed.

(** ** Which reading of a signal counts *)

Definition same_reading (sub : Subsystem) (tag : string) (s : Signal) : bool :=
  bool_decide (sig_subsystem s = sub) && bool_decide (sig_tag s = tag).

Lemma ingest_all_signals l r :
  length (dr_signals r) + length l ≤ SIGNAL_LIMIT →
  dr_signals (foldl (λ r s, ingest s r) r l) = dr_signals r ++ l ∧
  dr_rules (foldl (λ r s, ingest s r) r l) = dr_rules r.
Proof.
  revert r. induction l as [|s l IH]; intros r; simpl; [by rewrite app_nil_r|]. intros Hlen.
  assert (dr_signals (ingest s r) = dr_signals r ++ [s]) as Hs.
  { unfold ingest; simpl. rewrite push_bounded_spec. unfold suffix_n. rewrite length_app. simpl.
    by replace (length (dr_signals r) + 1 - SIGNAL_LIMIT) with 0 by lia. }
  destruct (IH (ingest s r)) as [H1 H2].
  { rewrite Hs, length_app. simpl. lia. }
  rewrite H1, H2, Hs, <-app_assoc. done.
Qed.

(** A threshold rule reads the oldest signal of its subsystem and tag, not
    the latest: once a reading is in the log, no later reading changes the
    answer until that one is evicted, so after a first reading below the
    threshold an overload is never reported, whatever follows it within the
    256 signals of the log. *)
Theorem oldest_reading_decides sub tag threshold id severity first later r :
  same_reading sub tag first = true →
  Forall (λ s, same_reading sub tag s = false) (dr_signals r) →
  length (dr_signals r) + S (length later) ≤ SIGNAL_LIMIT →
  rule_matches (AboveThreshold sub tag threshold id severity)
    (dr_signals (foldl (λ r s, ingest s r) r (first :: later))) =
  if f32_ge (sig_value first) threshold then Some (mkSymptom id sub severity [tag]) else None.
Proof.
  intros Hf Hr Hlen. destruct (ingest_all_signals (first :: later) r) as [-> _]; [done|].
  unfold rule_matches. fold (same_reading sub tag). rewrite find_b_app.
  replace (find_b (same_reading sub tag) (dr_signals r)) with (@None Signal).
  - simpl. by rewrite Hf.
  - symmetry. apply find_b_None. by apply Forall_forall.
Qed.

(** A correlation rule fires as soon as one of its tags has an alarming
    signal in the log, and exactly then: it does not wait for all of them, as
    its documentation says.  With the default rules a single alarming
    processor reading is reported as a critical instability. *)
Theorem any_alarm_fires tags id severity signals :
  (is_Some (rule_matches (AnyAlarming tags id severity) signals) ↔
   ∃ s, s ∈ signals ∧ sig_tag s ∈ tags ∧ is_alarming s = true) ∧
  (∀ v detail, f32_gt v f32_half = true → f32_gt v f32_one = false →
     let r := evaluate_report (ingest (Signal_new SubCpu "cpu.load" v detail) DiagnosticReport_new) in
     "system_unstable" ∈ sym_id <$> dr_symptoms r).
Proof.
  split.
  - unfold rule_matches. set (matching := List.filter _ tags).
    assert (∀ t, t ∈ matching ↔ t ∈ tags ∧ ∃ s, s ∈ signals ∧ sig_tag s = t ∧ is_alarming s = true) as Hm.
    { intros t. unfold matching. rewrite list_elem_of_In, filter_In, <-list_elem_of_In, existsb_exists.
      setoid_rewrite andb_true_iff. setoid_rewrite bool_decide_eq_true.
      setoid_rewrite <-list_elem_of_In. naive_solver. }
    destruct matching as [|t l] eqn:E.
    + split; [by intros []|]. intros (s & Hs & Ht & Ha).
      assert (sig_tag s ∈ @nil string) as []%elem_of_nil. apply Hm. eauto.
    + split; [|by eexists]. intros _. destruct (Hm t) as [Ht _].
      destruct Ht as (? & s & ? & <- & ?); [left|]. eauto.
  - intros v detail Hv H1 r.
    assert (is_alarming (Signal_new SubCpu "cpu.load" v detail) = true) as Ha.
    { unfold is_alarming, Signal_new, f32_clamp. simpl. unfold f32_gt in *. rewrite H1.
      destruct (SFltb v f32_zero) eqn:E; [|done].
      destruct v as [[]|[]| |[] m e]; try done. }
    unfold r, evaluate_report. simpl. rewrite Ha.
    destruct (f32_ge _ f32_0_85); simpl; set_solver.
Qed.
