(* ===== verification/Automation.v ===== *)
(** * Workflows and the background agent

    Models system/aether-automation/src/lib.rs and
    agent/aether-background-agent/src/lib.rs.  Payloads are JSON values of the
    class [JsonOps]. *)
From S2P Require Import Prelude RustStd TaskGraph AgentCore Json Diagnostics.

(** ** aether-automation *)

Inductive StepAction :=
| SaLaunchApp (app_id : string)
| SaOpenFile (target : string)
| SaAgentTask (title description : string)
| SaRecoveryAction (action_summary : string)
| SaNotify (body : string)
| SaWait (seconds : N).

Definition StepAction_task_kind (a : StepAction) : TaskKind :=
  match a with
  | SaLaunchApp _ | SaOpenFile _ => Custom
  | SaAgentTask _ _ | SaRecoveryAction _ | SaNotify _ => Notify
  | SaWait _ => Custom
  end.

Definition StepAction_summary (a : StepAction) : string :=
  match a with
  | SaLaunchApp app_id => "Launch `" +:+ app_id +:+ "`"
  | SaOpenFile target => "Open `" +:+ target +:+ "`"
  | SaAgentTask title _ => title
  | SaRecoveryAction s => s
  | SaNotify body => "Notify: " +:+ body
  | SaWait seconds => "Wait " +:+ pretty seconds +:+ "s"
  end.

Inductive FailurePolicy := FpAbort | FpSkip | FpContinue | FpRetryThenAbort | FpRetryThenSkip.

Definition max_retries (p : FailurePolicy) : N :=
  match p with FpRetryThenAbort | FpRetryThenSkip => 3 | _ => 0 end.

Definition FailurePolicy_str (p : FailurePolicy) : string :=
  match p with
  | FpAbort => "abort" | FpSkip => "skip" | FpContinue => "continue"
  | FpRetryThenAbort => "retry-then-abort" | FpRetryThenSkip => "retry-then-skip"
  end.

Record WorkflowStep := mkWorkflowStep {
  step_label : string;
  step_action : StepAction;
  on_failure : FailurePolicy;
}.

Definition WorkflowStep_new (label : string) (a : StepAction) : WorkflowStep :=
  mkWorkflowStep label a FpAbort.

Definition with_failure_policy (p : FailurePolicy) (s : WorkflowStep) : WorkflowStep :=
  mkWorkflowStep (step_label s) (step_action s) p.

(** A [WorkflowId] is its string. *)
Definition WorkflowId_new (s : string) : option string :=
  if str_is_empty s then None else Some s.

Inductive Trigger := TrManual | TrTimeOfDay (hour minute : N) | TrOnEvent (event_id : string).

#[export] Instance Trigger_eq_dec : EqDecision Trigger.
Proof. solve_decision. Defined.

(** [{:02}]. *)
Definition pad2 (n : N) : string :=
  let s := pretty n in if (String.length s <? 2)%nat then "0" +:+ s else s.

Definition Trigger_summary (t : Trigger) : string :=
  match t with
  | TrManual => "Manual"
  | TrTimeOfDay h m => "Daily at " +:+ pad2 h +:+ ":" +:+ pad2 m
  | TrOnEvent e => "On event `" +:+ e +:+ "`"
  end.

Record Workflow := mkWorkflow {
  wf_id : string;
  wf_name : string;
  wf_description : string;
  wf_trigger : Trigger;
  wf_steps : list WorkflowStep;
}.

Definition Workflow_new (id name description : string) (t : Trigger) : option Workflow :=
  id ← WorkflowId_new id;
  if str_is_empty name then None else Some (mkWorkflow id name description t []).

Definition with_step (s : WorkflowStep) (w : Workflow) : Workflow :=
  mkWorkflow (wf_id w) (wf_name w) (wf_description w) (wf_trigger w) (wf_steps w ++ [s]).

(** [WorkflowRegistry] holds one vector. *)
Record WorkflowRegistry := mkWorkflowRegistry { wr_workflows : list Workflow }.

Definition WorkflowRegistry_new : WorkflowRegistry := mkWorkflowRegistry [].

Definition register_workflow (w : Workflow) (r : WorkflowRegistry) : WorkflowRegistry * bool :=
  if existsb (λ w', bool_decide (wf_id w' = wf_id w)) (wr_workflows r) then (r, false)
  else (mkWorkflowRegistry (wr_workflows r ++ [w]), true).

Definition get_workflow (r : WorkflowRegistry) (id : string) : option Workflow :=
  find_b (λ w, bool_decide (wf_id w = id)) (wr_workflows r).

Definition with_trigger (r : WorkflowRegistry) (t : Trigger) : list Workflow :=
  List.filter (λ w, bool_decide (wf_trigger w = t)) (wr_workflows r).

(** [if let Some(w) = Workflow::new(..) { reg.register(..) }]. *)
Definition register_built (w : option Workflow) (steps : list WorkflowStep)
    (r : WorkflowRegistry) : WorkflowRegistry :=
  match w with
  | Some w => (register_workflow (foldl (λ w s, with_step s w) w steps) r).1
  | None => r
  end.

Definition default_registry : WorkflowRegistry :=
  let r := WorkflowRegistry_new in
  let r := register_built
    (Workflow_new "morning_setup" "Morning setup"
       "Open email, free memory, surface today's agenda." (TrTimeOfDay 9 0))
    [WorkflowStep_new "Open the email app" (SaLaunchApp "aether.mail");
     with_failure_policy FpSkip (WorkflowStep_new "Drop the page cache to free memory"
       (SaRecoveryAction "Drop page cache: free kernel page cache for a fresh day."));
     WorkflowStep_new "Surface the day's agenda"
       (SaNotify "Good morning — your first meeting is at 10:00.")] r in
  let r := register_built
    (Workflow_new "end_of_day" "End of day" "Free memory, close the day." (TrTimeOfDay 18 0))
    [WorkflowStep_new "Drop the page cache"
       (SaRecoveryAction "Drop page cache: end of day cleanup.");
     WorkflowStep_new "Notify the user" (SaNotify "Wrapping up — see you tomorrow.")] r in
  register_built
    (Workflow_new "before_meeting" "Before a meeting" "Quiet the desktop, open the notes app."
       TrManual)
    [with_failure_policy FpSkip (WorkflowStep_new "Drop the page cache"
       (SaRecoveryAction "Drop page cache: pre-meeting cleanup."));
     WorkflowStep_new "Open the notes app" (SaLaunchApp "aether.notes")] r.

Section compile.
Context {J : Type} `{!JsonOps J}.

Definition action_json (a : StepAction) : J :=
  match a with
  | SaLaunchApp app_id => json_obj [("kind", json_str "launch_app"); ("app_id", json_str app_id)]
  | SaOpenFile target => json_obj [("kind", json_str "open_file"); ("target", json_str target)]
  | SaAgentTask title description =>
      json_obj [("kind", json_str "agent_task"); ("title", json_str title);
                ("description", json_str description)]
  | SaRecoveryAction s => json_obj [("kind", json_str "recovery"); ("summary", json_str s)]
  | SaNotify body => json_obj [("kind", json_str "notify"); ("body", json_str body)]
  | SaWait seconds => json_obj [("kind", json_str "wait"); ("seconds", json_num seconds)]
  end.

Definition step_payload (i : N) (s : WorkflowStep) : J :=
  json_obj [("policy", json_str (FailurePolicy_str (on_failure s)));
            ("max_retries", json_num (max_retries (on_failure s)));
            ("step_index", json_num i);
            ("action", action_json (step_action s))].

(** The body of the loop: no task when an id, title or description is empty. *)
Definition compile_step (name prefix : string) (i : N) (s : WorkflowStep) : option (AgentTask J) :=
  id ← TaskId_new (prefix +:+ "." +:+ pretty i);
  t ← AgentTask_new (task_id_str id) (StepAction_task_kind (step_action s))
        (name +:+ " — " +:+ step_label s) (StepAction_summary (step_action s));
  Some (with_arguments (step_payload i s) (with_risk RiskLow t)).

Fixpoint compile_steps (name prefix : string) (i : N) (l : list WorkflowStep) :
    list (AgentTask J) :=
  match l with
  | [] => []
  | s :: l =>
      match compile_step name prefix i s with
      | Some t => t :: compile_steps name prefix (i + 1) l
      | None => compile_steps name prefix (i + 1) l
      end
  end.

Definition compile_to_tasks (w : Workflow) (prefix : string) : list (AgentTask J) :=
  compile_steps (wf_name w) prefix 0 (wf_steps w).
End compile.

(** ** aether-background-agent *)

Inductive AgentEvent :=
| EvSignalUpdate (s : Signal)
| EvTimeTick (hour minute : N)
| EvWorkflowTrigger (id : string).

Inductive ActionKind := AkRecovery | AkWorkflow.

Definition ActionKind_as_str (k : ActionKind) : string :=
  match k with AkRecovery => "recovery" | AkWorkflow => "workflow" end.

Inductive ActionReason := ArSymptom (id : string) | ArWorkflow (id : string).

Definition ActionReason_summary (r : ActionReason) : string :=
  match r with
  | ArSymptom id => "Symptom `" +:+ id +:+ "`"
  | ArWorkflow id => "Workflow `" +:+ id +:+ "`"
  end.

Record ActionItem {J : Type} := mkActionItem {
  ai_kind : ActionKind;
  ai_reason : ActionReason;
  ai_title : string;
  ai_description : string;
  ai_requires_consent : bool;
  ai_task_kind : TaskKind;
  ai_task_risk : TaskRisk;
  ai_subsystem : option Subsystem;
  ai_payload : J;
}.
Arguments ActionItem J : clear implicits.
Arguments mkActionItem {J}.

(** [last_fired] and [planned_symptoms] are maps keyed by ids. *)
Record BackgroundState := mkBackgroundState {
  bs_report : DiagnosticReport;
  bs_recovery : RecoveryPolicy;
  bs_workflows : WorkflowRegistry;
  bs_last_fired : gmap string N;
  bs_planned_symptoms : gmap string N;
}.

Definition BackgroundState_new (report : DiagnosticReport) (recovery : RecoveryPolicy)
    (workflows : WorkflowRegistry) : BackgroundState :=
  mkBackgroundState report recovery workflows ∅ ∅.

Definition default_state : BackgroundState :=
  BackgroundState_new DiagnosticReport_new default_policy default_registry.

Section background.
Context {J : Type} `{!JsonOps J}.

Definition item_workflow_id (i : ActionItem J) : option string :=
  match ai_reason i with ArWorkflow id => Some id | ArSymptom _ => None end.
Definition item_symptom_id (i : ActionItem J) : option string :=
  match ai_reason i with ArSymptom id => Some id | ArWorkflow _ => None end.

(** An [ActionQueue] is its vector of items. *)
Definition queue_needs_consent (q : list (ActionItem J)) : bool := existsb ai_requires_consent q.
Definition queue_consent_count (q : list (ActionItem J)) : nat :=
  length (List.filter ai_requires_consent q).

Fixpoint partition_consent (q : list (ActionItem J)) : list (ActionItem J) * list (ActionItem J) :=
  match q with
  | [] => ([], [])
  | i :: q =>
      let '(auto, consent) := partition_consent q in
      if ai_requires_consent i then (auto, i :: consent) else (i :: auto, consent)
  end.

Definition subsystem_for_payload (payload : J) : option Subsystem :=
  action ← json_get payload "action";
  kind ← json_get action "kind";
  kind ← json_as_str kind;
  if (kind =? "launch_app")%string then Some SubApp
  else if (kind =? "open_file")%string then Some SubFileSystem
  else if (kind =? "agent_task")%string then Some SubOther
  else if (kind =? "recovery")%string then Some SubOther
  else if (kind =? "notify")%string then Some SubOther
  else None.

Definition task_to_item (id : string) (t : AgentTask J) : ActionItem J :=
  let payload := default (json_obj []) (task_arguments t) in
  mkActionItem AkWorkflow (ArWorkflow id) (task_title t)
    (json_to_string (json_index payload "action"))
    (match task_risk t with RiskHigh | RiskCritical => true | _ => false end)
    (task_kind t) (task_risk t) (subsystem_for_payload payload) payload.

Definition plan_workflow (w : Workflow) (id : string) : list (ActionItem J) :=
  task_to_item id <$> compile_to_tasks w ("wf." +:+ id).

(** The loop of [plan_time_triggers]. *)
Fixpoint fire_workflows (l : list Workflow) (now_ms : N) (last_fired : gmap string N) :
    gmap string N * list (ActionItem J) :=
  match l with
  | [] => (last_fired, [])
  | w :: l =>
      let id := wf_id w in
      if from_option (λ prev, saturating_sub now_ms prev <? 60000)%N false (last_fired !! id)
      then fire_workflows l now_ms last_fired
      else
        let '(last_fired, q) := fire_workflows l now_ms (<[id := now_ms]> last_fired) in
        (last_fired, plan_workflow w id ++ q)
  end.

Definition plan_time_triggers (r : WorkflowRegistry) (hour minute now_ms : N)
    (last_fired : gmap string N) : gmap string N * list (ActionItem J) :=
  fire_workflows (with_trigger r (TrTimeOfDay hour minute)) now_ms last_fired.

Definition recovery_payload (a : RecoveryAction) : TaskKind * J :=
  match a with
  | RaRestartService service reason =>
      (RestartService, json_obj [("kind", json_str "restart_service");
                                 ("service", json_str service); ("reason", json_str reason)])
  | RaRestartApp app_id reason =>
      (Custom, json_obj [("kind", json_str "restart_app"); ("app_id", json_str app_id);
                         ("reason", json_str reason)])
  | RaReconnectNetwork interface reason =>
      (Custom, json_obj [("kind", json_str "reconnect_network");
                         ("interface", json_str interface); ("reason", json_str reason)])
  | RaResolveDependency dependency reason =>
      (Custom, json_obj [("kind", json_str "resolve_dependency");
                         ("dependency", json_str dependency); ("reason", json_str reason)])
  | RaFreeDiskCache cache reason =>
      (ProposeCleanup, json_obj [("kind", json_str "free_disk_cache"); ("cache", json_str cache);
                                 ("reason", json_str reason)])
  | RaDropPageCache reason =>
      (ProposeCleanup, json_obj [("kind", json_str "drop_page_cache"); ("reason", json_str reason)])
  | RaKillProcess pid reason =>
      (Custom, json_obj [("kind", json_str "kill_process"); ("pid", json_num pid);
                         ("reason", json_str reason)])
  | RaInformUser e =>
      (Notify, json_obj [("kind", json_str "inform_user"); ("cause", json_str (exp_cause e));
                         ("fix", json_str (exp_fix e))])
  end.

Definition recovery_description (a : RecoveryAction) : string :=
  match a with
  | RaRestartService service _ =>
      if (service =? "<auto>")%string
      then "The agent will look up the actual service name at execution time."
      else RecoveryAction_summary a
  | RaRestartApp app_id _ =>
      if (app_id =? "<auto>")%string
      then "The agent will look up the actual app id at execution time."
      else RecoveryAction_summary a
  | _ => RecoveryAction_summary a
  end.

Definition recovery_to_item (symptom_id : string) (a : RecoveryAction) : ActionItem J :=
  let '(task_kind, payload) := recovery_payload a in
  mkActionItem AkRecovery (ArSymptom symptom_id) (RecoveryAction_summary a)
    (recovery_description a) (RecoveryAction_requires_consent a) task_kind
    (if RecoveryAction_requires_consent a then RiskHigh else RiskMedium)
    (Some (RecoveryAction_subsystem a)) payload.

Definition plan_recovery_actions (plans : list RecoveryPlan) : list (ActionItem J) :=
  plans ≫= λ p, recovery_to_item (rp_symptom_id p) <$> rp_actions p.

Definition set_report (r : DiagnosticReport) (s : BackgroundState) : BackgroundState :=
  mkBackgroundState r (bs_recovery s) (bs_workflows s) (bs_last_fired s) (bs_planned_symptoms s).
Definition set_last_fired (m : gmap string N) (s : BackgroundState) : BackgroundState :=
  mkBackgroundState (bs_report s) (bs_recovery s) (bs_workflows s) m (bs_planned_symptoms s).
Definition set_planned (m : gmap string N) (s : BackgroundState) : BackgroundState :=
  mkBackgroundState (bs_report s) (bs_recovery s) (bs_workflows s) (bs_last_fired s) m.

(** The loop over the events. *)
Definition handle_event (now_ms : N) (e : AgentEvent) (s : BackgroundState) :
    BackgroundState * list (ActionItem J) :=
  match e with
  | EvSignalUpdate signal => (set_report (ingest signal (bs_report s)) s, [])
  | EvTimeTick hour minute =>
      let '(m, q) := plan_time_triggers (bs_workflows s) hour minute now_ms (bs_last_fired s) in
      (set_last_fired m s, q)
  | EvWorkflowTrigger id =>
      match get_workflow (bs_workflows s) id with
      | Some w => (s, plan_workflow w id)
      | None => (s, [])
      end
  end.

Fixpoint handle_events (now_ms : N) (events : list AgentEvent) (s : BackgroundState) :
    BackgroundState * list (ActionItem J) :=
  match events with
  | [] => (s, [])
  | e :: events =>
      let '(s, q) := handle_event now_ms e s in
      let '(s, q') := handle_events now_ms events s in
      (s, q ++ q')
  end.

(** The loop over the symptoms. *)
Fixpoint plan_symptoms (now_ms : N) (policy : RecoveryPolicy) (l : list Symptom)
    (planned : gmap string N) : gmap string N * list RecoveryPlan :=
  match l with
  | [] => (planned, [])
  | s :: l =>
      if bool_decide (is_Some (planned !! sym_id s)) then plan_symptoms now_ms policy l planned
      else
        match plan_for policy (sym_id s) with
        | Some p =>
            let '(planned, plans) :=
              plan_symptoms now_ms policy l (<[sym_id s := now_ms]> planned) in
            (planned, p :: plans)
        | None => plan_symptoms now_ms policy l planned
        end
  end.

Definition tick (now_ms : N) (events : list AgentEvent) (s : BackgroundState) :
    BackgroundState * list (ActionItem J) :=
  let '(s, queue) := handle_events now_ms events s in
  let s := set_report (evaluate_report (bs_report s)) s in
  let '(planned, plans) :=
    plan_symptoms now_ms (bs_recovery s) (dr_symptoms (bs_report s)) (bs_planned_symptoms s) in
  (set_planned planned s, queue ++ plan_recovery_actions plans).

Definition action_to_task (i : ActionItem J) (id : TaskId) : option (AgentTask J) :=
  t ← AgentTask_new (task_id_str id) (ai_task_kind i) (ai_title i) (ai_description i);
  Some (with_arguments (ai_payload i) (with_risk (ai_task_risk i) t)).
End background.

(** * Properties of workflows and of the background agent *)

(** ** Compiling a workflow *)

Section compile.
Context {J : Type} `{!JsonOps J}.

Definition step_compiles (s : WorkflowStep) : bool :=
  negb (str_is_empty (StepAction_summary (step_action s))).

Definition compiled (name prefix : string) (i : N) (s : WorkflowStep) (t : AgentTask J) : Prop :=
  task_id t = mkTaskId (prefix +:+ "." +:+ pretty i) ∧
  task_kind t = StepAction_task_kind (step_action s) ∧
  task_title t = name +:+ " — " +:+ step_label s ∧
  task_description t = StepAction_summary (step_action s) ∧ task_depends_on t = [] ∧
  task_risk t = RiskLow ∧ task_arguments t = Some (step_payload i s).

Lemma str_app_ne a b : b ≠ EmptyString → a +:+ b ≠ EmptyString.
Proof. by destruct a. Qed.

Lemma compile_step_spec name prefix i s :
  match compile_step name prefix i s with
  | Some t => step_compiles s = true ∧ compiled name prefix i s t
  | None => step_compiles s = false
  end.
Proof.
  unfold compile_step, TaskId_new, AgentTask_new, TaskId_new, step_compiles, compiled.
  destruct (prefix +:+ "." +:+ pretty i) as [|c r] eqn:Hid.
  { exfalso. by eapply str_app_ne in Hid. }
  simpl. destruct (name +:+ " — " +:+ step_label s) as [|c' r'] eqn:Ht.
  { exfalso. by eapply str_app_ne in Ht. }
  simpl. by destruct (StepAction_summary (step_action s)) as [|c'' r''] eqn:Hs.
Qed.

(** The steps with their positions. *)
Fixpoint number (i : N) (l : list WorkflowStep) : list (N * WorkflowStep) :=
  match l with [] => [] | s :: l => (i, s) :: number (i + 1) l end.

Lemma compile_steps_spec name prefix i l :
  Forall2 (λ x t, compiled name prefix x.1 x.2 t)
    (List.filter (λ x, step_compiles x.2) (number i l)) (compile_steps name prefix i l).
Proof.
  revert i. induction l as [|s l IH]; intros i; simpl; [constructor|].
  pose proof (compile_step_spec name prefix i s) as Hs.
  destruct (compile_step name prefix i s) as [t|]; [|by rewrite Hs].
  destruct Hs as [-> Hs]. by constructor.
Qed.

Lemma number_ge i l x : x ∈ (number i l).*1 → (i ≤ x)%N.
Proof.
  revert i. induction l as [|s l IH]; intros i; simpl; [set_solver|].
  intros [->|H]%elem_of_cons; [done|]. specialize (IH _ H). lia.
Qed.

Lemma number_NoDup p i l : NoDup (List.filter p (number i l)).*1.
Proof.
  revert i. induction l as [|s l IH]; intros i; simpl; [constructor|].
  destruct (p (i, s)); [|done]. simpl. constructor; [|done].
  intros ([j s'] & Hj & Hin)%list_elem_of_fmap. simpl in *.
  rewrite list_elem_of_In in Hin. apply filter_In in Hin as [Hin%list_elem_of_In _].
  assert (i + 1 ≤ j)%N; [|lia]. apply (number_ge _ l). apply list_elem_of_fmap. by exists (j, s').
Qed.

Lemma compiled_ids name prefix l ts :
  Forall2 (λ x t, compiled name prefix x.1 x.2 t) l ts →
  task_id <$> ts = (λ i : N, mkTaskId (prefix +:+ "." +:+ pretty i)) <$> l.*1.
Proof. induction 1 as [|[i s] t l ts Ht _ IH]; csimpl; [done|]. destruct Ht as [-> _]. by rewrite IH. Qed.

Lemma str_app_inj_r a b c : a +:+ b = a +:+ c → b = c.
Proof. induction a as [|x a IH]; [done|]. intros [= H]. by apply IH. Qed.

(** A workflow compiles to one task for each step whose summary is not
    empty, in order: the task carries the step's kind, label, position and
    failure policy, all task ids are distinct, no task depends on another, and
    every task is low risk, whatever its kind's default risk. *)
Theorem compiled_workflow_exact w prefix :
  Forall2 (λ x t, compiled (wf_name w) prefix x.1 x.2 t)
    (List.filter (λ x, step_compiles x.2) (number 0 (wf_steps w)))
    (compile_to_tasks w prefix) ∧
  NoDup (task_id <$> compile_to_tasks w prefix) ∧
  (length (compile_to_tasks w prefix) = length (wf_steps w) ↔
     Forall (λ s, StepAction_summary (step_action s) ≠ EmptyString) (wf_steps w)).
Proof.
  pose proof (compile_steps_spec (wf_name w) prefix 0 (wf_steps w)) as Hc. split_and!; [done| |].
  - unfold compile_to_tasks. rewrite (compiled_ids _ _ _ _ Hc).
    apply NoDup_fmap; [|apply number_NoDup]. intros i j H.
    apply (f_equal task_id_str) in H. cbn [task_id_str] in H.
    do 2 apply str_app_inj_r in H. by apply (inj pretty).
  - apply Forall2_length in Hc. unfold compile_to_tasks. rewrite <-Hc. clear Hc.
    generalize 0%N. unfold step_compiles.
    assert (∀ i l, length (List.filter (λ x : N * WorkflowStep, negb (str_is_empty
      (StepAction_summary (step_action x.2)))) (number i l)) ≤ length l) as Hle.
    { intros i l. revert i. induction l as [|s l IH]; intros i; simpl; [done|].
      destruct (str_is_empty _); simpl; specialize (IH (i + 1)%N); lia. }
    induction (wf_steps w) as [|s l IH]; intros i; simpl; [by split|]. rewrite Forall_cons.
    specialize (Hle (i + 1)%N l). specialize (IH (i + 1)%N).
    destruct (StepAction_summary (step_action s)); simpl; [split; [lia|by intros [[] _]]|].
    split; [intros [= H]; split; [done|by apply IH]|]. intros [_ H]. f_equal. by apply IH.
Qed.
End compile.

(** ** Consent *)

Section consent.
Context {J : Type} `{!JsonOps J}.

(** How an item of a tick was made. *)
Inductive item_origin : ActionItem J → Prop :=
| origin_workflow id t : task_risk t = RiskLow → item_origin (task_to_item id t)
| origin_recovery id a : item_origin (recovery_to_item id a).

Lemma compile_low_risk name prefix i l t :
  t ∈ compile_steps (J := J) name prefix i l → task_risk t = RiskLow.
Proof.
  intros Ht. pose proof (compile_steps_spec name prefix i l) as Hc.
  apply list_elem_of_lookup in Ht as [k Ht].
  destruct (Forall2_lookup_r _ _ _ _ _ Hc Ht) as ([j s] & _ & Hx).
  by destruct Hx as (_ & _ & _ & _ & _ & ? & _).
Qed.

Lemma plan_workflow_origin w id i : i ∈ plan_workflow (J := J) w id → item_origin i.
Proof.
  unfold plan_workflow, compile_to_tasks. intros (t & -> & Ht)%list_elem_of_fmap. constructor.
  by eapply compile_low_risk.
Qed.

Lemma fire_origin l now m i : i ∈ (fire_workflows (J := J) l now m).2 → item_origin i.
Proof.
  revert m. induction l as [|w l IH]; intros m; simpl; [set_solver|].
  destruct (from_option _ _ _); [apply IH|].
  specialize (IH (<[wf_id w := now]> m)). destruct (fire_workflows l now _) as [m' q]. simpl in *.
  intros [?%plan_workflow_origin|?]%elem_of_app; auto.
Qed.

Lemma handle_event_origin now e s i : i ∈ (handle_event (J := J) now e s).2 → item_origin i.
Proof.
  destruct e as [sg|h m|id]; simpl; [set_solver| |].
  - unfold plan_time_triggers. intros Hi. eapply fire_origin.
    destruct (fire_workflows _ _ _) as [m' q] eqn:E. rewrite E. exact Hi.
  - destruct (get_workflow _ _); [apply plan_workflow_origin|set_solver].
Qed.

Lemma handle_events_origin now evs s i : i ∈ (handle_events (J := J) now evs s).2 → item_origin i.
Proof.
  revert s. induction evs as [|e evs IH]; intros s; simpl; [set_solver|].
  pose proof (handle_event_origin now e s i) as He. destruct (handle_event now e s) as [s1 q1].
  specialize (IH s1). destruct (handle_events now evs s1) as [s2 q2]. simpl in *.
  intros [?|?]%elem_of_app; auto.
Qed.

Lemma tick_origin now evs s i : i ∈ (tick (J := J) now evs s).2 → item_origin i.
Proof.
  unfold tick. pose proof (handle_events_origin now evs s i) as He.
  destruct (handle_events now evs s) as [s1 q1]. destruct (plan_symptoms _ _ _ _) as [m plans].
  simpl in *. intros [?|Hr]%elem_of_app; [auto|]. unfold plan_recovery_actions in Hr.
  apply list_elem_of_bind in Hr as (p & Hr & _). apply list_elem_of_fmap in Hr as (a & -> & _).
  constructor.
Qed.

Lemma partition_consent_spec (q : list (ActionItem J)) :
  partition_consent q =
  (List.filter (λ i, negb (ai_requires_consent i)) q, List.filter ai_requires_consent q).
Proof.
  induction q as [|i q IH]; simpl; [done|]. rewrite IH. by destruct (ai_requires_consent i).
Qed.

(** In the queue of a tick, from any state and for any events, an item
    asks for consent exactly when its risk is high or critical, and the only
    such items are the kill actions of a recovery recipe: no workflow item
    ever asks for consent, although launching applications and custom tasks
    are high risk by default. *)
Theorem consent_only_for_kills now evs s i :
  i ∈ (tick (J := J) now evs s).2 →
  (ai_requires_consent i = true ↔ ai_task_risk i = RiskHigh ∨ ai_task_risk i = RiskCritical) ∧
  (ai_requires_consent i = true ↔
     ∃ id pid reason, i = recovery_to_item id (RaKillProcess pid reason)) ∧
  (ai_kind i = AkWorkflow → ai_requires_consent i = false ∧ ai_task_risk i = RiskLow) ∧
  (i ∈ (partition_consent (tick (J := J) now evs s).2).1 ∨ ai_requires_consent i = true).
Proof.
  intros Hi. pose proof (tick_origin _ _ _ _ Hi) as Ho. split_and!.
  4: { rewrite partition_consent_spec. destruct (ai_requires_consent i) eqn:E; [by right|left].
       apply list_elem_of_In, filter_In. rewrite E. by rewrite <-list_elem_of_In. }
  all: destruct Ho as [id t Ht|id a].
  - simpl. rewrite Ht. naive_solver.
  - destruct a; simpl; naive_solver.
  - simpl. rewrite Ht. split; [done|]. intros (id' & pid & reason & [=]).
  - destruct a; simpl; split; try done; try (by intros (? & ? & ? & [=])). by eauto.
  - simpl. by rewrite Ht.
  - by destruct a.
Qed.
End consent.

(** ** Runs of the background agent *)

Section runs.
Context {J : Type} `{!JsonOps J}.

Fixpoint run_ticks (ts : list (N * list AgentEvent)) (s : BackgroundState) :
    BackgroundState * list (list (ActionItem J)) :=
  match ts with
  | [] => (s, [])
  | (now, evs) :: ts =>
      let '(s, q) := tick now evs s in
      let '(s, qs) := run_ticks ts s in
      (s, q :: qs)
  end.

(** *** Symptoms are planned once *)

Definition queue_symptoms (q : list (ActionItem J)) : list string := omap item_symptom_id q.

Lemma plan_for_id policy id p : plan_for policy id = Some p → rp_symptom_id p = id.
Proof.
  unfold plan_for. intros (x & Hx & ->)%fmap_Some. apply find_b_Some in Hx as [_ Hx].
  by apply bool_decide_eq_true in Hx.
Qed.

Lemma plan_symptoms_spec now policy l m :
  let '(m', plans) := plan_symptoms now policy l m in
  (∀ p, p ∈ plans → m !! rp_symptom_id p = None ∧ is_Some (m' !! rp_symptom_id p)) ∧
  (∀ id, is_Some (m !! id) → is_Some (m' !! id)) ∧
  NoDup (rp_symptom_id <$> plans).
Proof.
  revert m. induction l as [|s l IH]; intros m; simpl.
  { split_and!; [set_solver|done|constructor]. }
  case_bool_decide as Hm; [apply IH|]. destruct (plan_for policy (sym_id s)) as [p|] eqn:Hp; [|apply IH].
  specialize (IH (<[sym_id s := now]> m)).
  destruct (plan_symptoms now policy l _) as [m' plans]. destruct IH as (H1 & H2 & H3).
  apply plan_for_id in Hp. split_and!.
  - intros p' [->|Hp']%elem_of_cons.
    + rewrite Hp. split; [by apply eq_None_not_Some|]. apply H2. by rewrite lookup_insert_eq.
    + destruct (H1 p' Hp') as [Hn Hs]. split; [|done].
      by apply lookup_insert_None in Hn as [? _].
  - intros id Hid. apply H2. destruct (decide (sym_id s = id)) as [->|];
      [by rewrite lookup_insert_eq|by rewrite lookup_insert_ne].
  - csimpl. constructor; [|done]. rewrite Hp. intros (p' & Hid & Hp')%list_elem_of_fmap.
    destruct (H1 p' Hp') as [Hn _]. by rewrite <-Hid, lookup_insert_eq in Hn.
Qed.

Lemma recovery_items_symptoms id l :
  ∀ x, x ∈ queue_symptoms (recovery_to_item id <$> l) → x = id.
Proof.
  unfold queue_symptoms. intros x (i & Hi & Hx)%list_elem_of_omap.
  apply list_elem_of_fmap in Hi as (a & -> & _). unfold item_symptom_id, recovery_to_item in Hx.
  destruct (recovery_payload a). simpl in Hx. congruence.
Qed.

Lemma plans_symptoms plans x :
  x ∈ queue_symptoms (plan_recovery_actions plans) → x ∈ rp_symptom_id <$> plans.
Proof.
  unfold plan_recovery_actions. induction plans as [|p plans IH]; csimpl; [set_solver|].
  unfold queue_symptoms. rewrite omap_app, elem_of_app.
  intros [?%recovery_items_symptoms|?]; [subst; left|right; by apply IH].
Qed.

Lemma origin_not_symptom w id x : x ∈ queue_symptoms (plan_workflow w id) → False.
Proof.
  unfold queue_symptoms, plan_workflow. intros (i & Hi & Hx)%list_elem_of_omap.
  by apply list_elem_of_fmap in Hi as (t & -> & _).
Qed.

Lemma fire_no_symptom l now m x : x ∉ queue_symptoms (fire_workflows l now m).2.
Proof.
  revert m. induction l as [|w l IH]; intros m; simpl; [set_solver|].
  destruct (from_option _ _ _); [apply IH|].
  specialize (IH (<[wf_id w := now]> m)). destruct (fire_workflows l now _) as [m' q].
  unfold queue_symptoms in *. simpl. rewrite omap_app, elem_of_app.
  intros [?%origin_not_symptom|?]; [done|by apply IH].
Qed.

(** The events of a tick leave the plans alone. *)
Lemma handle_events_planned now evs s :
  bs_planned_symptoms (handle_events (J := J) now evs s).1 = bs_planned_symptoms s ∧
  ∀ x, x ∉ queue_symptoms (handle_events now evs s).2.
Proof.
  revert s. induction evs as [|e evs IH]; intros s; simpl; [set_solver|].
  assert (bs_planned_symptoms (handle_event (J := J) now e s).1 = bs_planned_symptoms s ∧
          ∀ x, x ∉ queue_symptoms (handle_event now e s).2) as [H1 H2].
  { destruct e as [sg|h m|id]; simpl; [set_solver| |].
    - unfold plan_time_triggers. pose proof (fire_no_symptom
        (with_trigger (bs_workflows s) (TrTimeOfDay h m)) now (bs_last_fired s)) as Hf.
      by destruct (fire_workflows _ _ _).
    - destruct (get_workflow _ _); [|set_solver]. split; [done|]. intros x ?%origin_not_symptom. done. }
  destruct (handle_event now e s) as [s1 q1]. specialize (IH s1).
  destruct (handle_events now evs s1) as [s2 q2]. destruct IH as [IH1 IH2]. simpl in *.
  split; [congruence|]. intros x. unfold queue_symptoms in *. rewrite omap_app. set_solver.
Qed.

Lemma tick_planned now evs s :
  let '(s', q) := tick (J := J) now evs s in
  (∀ x, x ∈ queue_symptoms q → bs_planned_symptoms s !! x = None ∧
     is_Some (bs_planned_symptoms s' !! x)) ∧
  (∀ x, is_Some (bs_planned_symptoms s !! x) → is_Some (bs_planned_symptoms s' !! x)).
Proof.
  unfold tick. pose proof (handle_events_planned now evs s) as [He1 He2].
  destruct (handle_events now evs s) as [s1 q1]. simpl in *.
  pose proof (plan_symptoms_spec now (bs_recovery s1) (dedup_symptoms [] (found_symptoms (bs_report s1)))
    (bs_planned_symptoms s1)) as Hp. unfold found_symptoms in Hp.
  destruct (plan_symptoms _ _ _ _) as [m' plans]. destruct Hp as (Hp1 & Hp2 & _). simpl.
  rewrite He1 in *. split; [|done]. intros x. unfold queue_symptoms. rewrite omap_app, elem_of_app.
  intros [Hx|Hx]; [by apply He2 in Hx|]. apply plans_symptoms in Hx.
  apply list_elem_of_fmap in Hx as (p & -> & Hx). by apply Hp1.
Qed.

Lemma run_ticks_planned ts s x :
  is_Some (bs_planned_symptoms s !! x) →
  ∀ q, q ∈ (run_ticks ts s).2 → x ∉ queue_symptoms q.
Proof.
  revert s. induction ts as [|[now evs] ts IH]; intros s Hx q; simpl; [set_solver|].
  pose proof (tick_planned now evs s) as Ht. destruct (tick now evs s) as [s1 q1].
  destruct Ht as [Ht1 Ht2]. specialize (IH s1 (Ht2 x Hx)).
  destruct (run_ticks ts s1) as [s2 qs]. simpl in *. intros [->|Hq]%elem_of_cons; [|by apply IH].
  intros [Hn _]%Ht1. rewrite Hn in Hx. by destruct Hx.
Qed.

(** Over any run of ticks from any state, the recovery actions of a symptom
    are queued in at most one tick: once planned, a symptom is never planned
    again, even if it goes away and comes back. *)
Theorem symptoms_planned_once ts s i j qi qj x :
  (run_ticks ts s).2 !! i = Some qi → (run_ticks ts s).2 !! j = Some qj →
  x ∈ queue_symptoms qi → x ∈ queue_symptoms qj → i = j.
Proof.
  revert s i j. induction ts as [|[now evs] ts IH]; intros s i j; simpl; [done|].
  pose proof (tick_planned now evs s) as Ht. destruct (tick now evs s) as [s1 q1].
  destruct Ht as [Ht1 _]. specialize (IH s1). pose proof (run_ticks_planned ts s1 x) as Hp.
  destruct (run_ticks ts s1) as [s2 qs]. simpl in *.
  destruct i as [|i], j as [|j]; simpl; [done| | |].
  - intros [= <-] Hj Hx Hx'. destruct (Ht1 x Hx) as [_ Hs].
    apply list_elem_of_lookup_2 in Hj. by destruct (Hp Hs qj).
  - intros Hi [= <-] Hx Hx'. destruct (Ht1 x Hx') as [_ Hs].
    apply list_elem_of_lookup_2 in Hi. by destruct (Hp Hs qi).
  - intros Hi Hj Hx Hx'. f_equal. by apply IH.
Qed.
End runs.

(** ** Time-of-day workflows *)

Section debounce.
Context {J : Type} `{!JsonOps J}.

(** A workflow is ready when it has not fired within the last minute. *)
Definition ready_to_fire (m : gmap string N) (now : N) (w : Workflow) : bool :=
  from_option (λ prev, (prev + 60000 <=? now)%N) true (m !! wf_id w).

(** The workflows of [l] that fire at [now], and the new times. *)
Fixpoint firing (l : list Workflow) (now : N) (m : gmap string N) : gmap string N * list Workflow :=
  match l with
  | [] => (m, [])
  | w :: l =>
      if ready_to_fire m now w
      then let '(m, ws) := firing l now (<[wf_id w := now]> m) in (m, w :: ws)
      else firing l now m
  end.

Lemma fire_workflows_firing l now m :
  fire_workflows (J := J) l now m =
  ((firing l now m).1, (firing l now m).2 ≫= λ w, plan_workflow w (wf_id w)).
Proof.
  revert m. induction l as [|w l IH]; intros m; simpl; [done|].
  assert (from_option (λ prev, (saturating_sub now prev <? 60000)%N) false (m !! wf_id w) =
          negb (ready_to_fire m now w)) as ->.
  { unfold ready_to_fire, saturating_sub. destruct (m !! wf_id w) as [prev|]; simpl; [|done].
    destruct (N.ltb_spec (now - prev) 60000), (N.leb_spec (prev + 60000) now); simpl; lia || done. }
  destruct (ready_to_fire m now w); simpl; [|apply IH]. rewrite IH.
  by destruct (firing l now _).
Qed.

(** A run of time ticks [(now, hour, minute)]: the log of what fired when. *)
Fixpoint firing_log (r : WorkflowRegistry) (ts : list (N * N * N)) (m : gmap string N) :
    list (string * N) :=
  match ts with
  | [] => []
  | (now, hour, minute) :: ts =>
      let '(m, ws) := firing (with_trigger r (TrTimeOfDay hour minute)) now m in
      ((λ w, (wf_id w, now)) <$> ws) ++ firing_log r ts m
  end.

(** Each entry of the log comes a minute after the times in the map, which
    bound all earlier entries. *)
Inductive spaced (m : gmap string N) : list (string * N) → Prop :=
| spaced_nil : spaced m []
| spaced_cons id now l :
    (∀ prev, m !! id = Some prev → (prev + 60000 ≤ now)%N) →
    spaced (<[id := now]> m) l → spaced m ((id, now) :: l).

Lemma firing_spaced l now m k :
  spaced (firing l now m).1 k →
  spaced m (((λ w, (wf_id w, now)) <$> (firing l now m).2) ++ k).
Proof.
  revert m. induction l as [|w l IH]; intros m; simpl; [done|].
  destruct (ready_to_fire m now w) eqn:Hr; [|apply IH].
  specialize (IH (<[wf_id w := now]> m)). destruct (firing l now _) as [m' ws]. simpl in *.
  intros Hk. constructor; [|by apply IH]. intros prev Hp. unfold ready_to_fire in Hr.
  rewrite Hp in Hr. by apply N.leb_le in Hr.
Qed.

Lemma firing_log_spaced r ts m : spaced m (firing_log r ts m).
Proof.
  revert m. induction ts as [|[[now h] mi] ts IH]; intros m; simpl; [constructor|].
  pose proof (firing_spaced (with_trigger r (TrTimeOfDay h mi)) now m) as H.
  destruct (firing _ now m) as [m' ws]. by apply H.
Qed.

Lemma spaced_after m l id prev t :
  spaced m l → m !! id = Some prev → (id, t) ∈ l → (prev + 60000 ≤ t)%N.
Proof.
  intros Hs. revert prev. induction Hs as [m|m id' now l Hn Hs IH]; intros prev Hm; [set_solver|].
  intros [[= -> ->]|Hin]%elem_of_cons; [by apply Hn|].
  destruct (decide (id' = id)) as [->|Hne].
  - specialize (Hn _ Hm). assert (now + 60000 ≤ t)%N; [|lia].
    apply IH; [by rewrite lookup_insert_eq|done].
  - apply IH; [by rewrite lookup_insert_ne|done].
Qed.

(** Over any run of time ticks, with times in any order, two firings of one
    workflow are at least a minute apart, and the items a tick queues are
    exactly the compiled steps of the workflows it fires. *)
Theorem time_triggers_debounced r ts m id t1 t2 before between after :
  (firing_log r ts m = before ++ (id, t1) :: between ++ (id, t2) :: after →
   (t1 + 60000 ≤ t2)%N) ∧
  (∀ hour minute now, plan_time_triggers (J := J) r hour minute now m =
     let '(m', ws) := firing (with_trigger r (TrTimeOfDay hour minute)) now m in
     (m', ws ≫= λ w, plan_workflow w (wf_id w))).
Proof.
  split.
  - intros Hl. pose proof (firing_log_spaced r ts m) as Hs. rewrite Hl in Hs. clear Hl.
    revert m Hs. induction before as [|[id' t'] before IH]; intros m Hs; inversion Hs; subst.
    + eapply spaced_after; [done|by rewrite lookup_insert_eq|set_solver].
    + by eapply IH.
  - intros hour minute now. unfold plan_time_triggers. rewrite fire_workflows_firing.
    by destruct (firing _ now m).
Qed.
End debounce.

(** ** Concrete runs *)

Definition overload_tick : list AgentEvent :=
  [EvSignalUpdate (Signal_new SubMemory "memory.pressure" f32_one "full")].

Lemma symptoms_planned_once_witness :
  let r := (run_ticks (J := ToyJson) [(1000%N, overload_tick); (2000%N, [])] default_state).2 in
  (∃ q0 q1, r !! 0 = Some q0 ∧ r !! 1 = Some q1 ∧
     "memory_pressure" ∈ queue_symptoms q0 ∧ "memory_pressure" ∉ queue_symptoms q1).
Proof.
  intros r. destruct (r !! 0) as [q0|] eqn:H0; [|by vm_compute in H0].
  destruct (r !! 1) as [q1|] eqn:H1; [|by vm_compute in H1].
  assert ("memory_pressure" ∈ queue_symptoms q0) as Hx.
  { apply (bool_decide_unpack _). vm_compute in H0. injection H0 as <-. by vm_compute. }
  exists q0, q1. split_and!; [done..|]. intros Hx'.
  assert (0 = 1) as [=]. exact (symptoms_planned_once _ _ 0 1 q0 q1 _ H0 H1 Hx Hx').
Defined.

Definition kill_policy : RecoveryPolicy :=
  with_recipe "memory_pressure" [RaKillProcess 42 "memory hog"] RecoveryPolicy_new.

Lemma consent_only_for_kills_witness :
  let i := recovery_to_item (J := ToyJson) "memory_pressure" (RaKillProcess 42 "memory hog") in
  ai_requires_consent i = true ∧ (ai_task_risk i = RiskHigh ∨ ai_task_risk i = RiskCritical).
Proof.
  intros i.
  destruct (consent_only_for_kills (J := ToyJson) 1000 overload_tick
    (BackgroundState_new DiagnosticReport_new kill_policy default_registry) i) as [H _].
  - vm_compute. left.
  - split; [reflexivity|]. apply H. reflexivity.
Defined.

Lemma oldest_reading_decides_witness :
  let ok := Signal_new SubCpu "cpu.load" f32_zero "idle" in
  let hot := Signal_new SubCpu "cpu.load" f32_one "busy" in
  rule_matches (AboveThreshold SubCpu "cpu.load" f32_0_85 "cpu_overload" SevWarning)
    (dr_signals (foldl (λ r s, ingest s r) DiagnosticReport_new [ok; hot; hot])) = None.
Proof.
  intros ok hot.
  rewrite (oldest_reading_decides SubCpu "cpu.load" f32_0_85 "cpu_overload" SevWarning ok [hot; hot]
    DiagnosticReport_new); [reflexivity|reflexivity|constructor|vm_compute; lia].
Defined.

Lemma health_score_exact_witness :
  score (evaluate_report (foldl (λ r s, ingest s r) DiagnosticReport_new
    [Signal_new SubMemory "memory.pressure" f32_one "full"])) = Some 70%N.
Proof.
  destruct (health_score_exact (foldl (λ r s, ingest s r) DiagnosticReport_new
    [Signal_new SubMemory "memory.pressure" f32_one "full"])) as [H _]; [vm_compute; done|].
  exact H.
Defined.
