(* ===== verification/Base64.v ===== *)
(** * Base64

    Models [base64_encode] and [base64_decode] of
    security/aether-security/src/app_signing.rs, the encoding of package
    signatures.  Bytes keep their width: the shifts of the decoder drop the
    bits above the eighth. *)
From S2P Require Import Prelude RustStd.
From Stdlib Require Import Ascii.
Open Scope N_scope.

(** The constant [ALPHA] of both functions. *)
Definition ALPHA : string :=
  "ABCDEFGHIJKLMNOPQRSTUVWXYZabcdefghijklmnopqrstuvwxyz0123456789+/".

(** [ALPHA[i] as char]; the indices of the encoder are below 64. *)
Definition alpha_char (i : N) : ascii :=
  match String.get (N.to_nat i) ALPHA with Some c => c | None => "000"%char end.

(** The table of the decoder: 255 marks a character outside the alphabet. *)
Definition alpha_table (c : ascii) : N :=
  from_option N.of_nat 255 (position (Ascii.eqb c) (String.list_ascii_of_string ALPHA)).

(** The sextets of a group of three bytes. *)
Definition sextet0 (b0 : N) : N := N.shiftr b0 2.
Definition sextet1 (b0 b1 : N) : N := N.lor (N.shiftl (N.land b0 3) 4) (N.shiftr b1 4).
Definition sextet2 (b1 b2 : N) : N := N.lor (N.shiftl (N.land b1 15) 2) (N.shiftr b2 6).
Definition sextet3 (b2 : N) : N := N.land b2 63.

Fixpoint base64_encode (l : list byte) : string :=
  match l with
  | b0 :: b1 :: b2 :: l =>
      let b0 := Byte.to_N b0 in let b1 := Byte.to_N b1 in let b2 := Byte.to_N b2 in
      String (alpha_char (sextet0 b0)) (String (alpha_char (sextet1 b0 b1))
        (String (alpha_char (sextet2 b1 b2)) (String (alpha_char (sextet3 b2)) (base64_encode l))))
  | [b0] =>
      let b0 := Byte.to_N b0 in
      String (alpha_char (sextet0 b0))
        (String (alpha_char (N.shiftl (N.land b0 3) 4)) (String "=" (String "=" EmptyString)))
  | [b0; b1] =>
      let b0 := Byte.to_N b0 in let b1 := Byte.to_N b1 in
      String (alpha_char (sextet0 b0)) (String (alpha_char (sextet1 b0 b1))
        (String (alpha_char (N.shiftl (N.land b1 15) 2)) (String "=" EmptyString)))
  | [] => EmptyString
  end.

(** The bytes one group of four characters decodes to, the body of the loop. *)
Definition decode_quad (ca cb cc cd : ascii) : result (list byte) string :=
  let a := alpha_table ca in
  let b := alpha_table cb in
  let c := if Ascii.eqb cc "=" then 0 else alpha_table cc in
  let d := if Ascii.eqb cd "=" then 0 else alpha_table cd in
  if (a =? 255) || (b =? 255) || (c =? 255) || (d =? 255)
  then Err "invalid base64 character"
  else Ok ([byte_of_N (N.lor (N.shiftl a 2) (N.shiftr b 4))] ++
           (if Ascii.eqb cc "=" then [] else [byte_of_N (N.lor (N.shiftl b 4) (N.shiftr c 2))]) ++
           (if Ascii.eqb cd "=" then [] else [byte_of_N (N.lor (N.shiftl c 6) d)])).

(** The loop over the groups. *)
Fixpoint decode_quads (s : string) : result (list byte) string :=
  match s with
  | EmptyString => Ok []
  | String a (String b (String c (String d s))) =>
      match decode_quad a b c d with
      | Err e => Err e
      | Ok l => match decode_quads s with Ok k => Ok (l ++ k) | Err e => Err e end
      end
  | _ => Err "base64 length not a multiple of 4"
  end.

Definition base64_decode (s : string) : result (list byte) string :=
  if negb (String.length s mod 4 =? 0)%nat then Err "base64 length not a multiple of 4"
  else decode_quads s.

(** ** The alphabet *)

Definition all_bytes : list byte :=
  Eval vm_compute in ((λ i, byte_of_N (N.of_nat i)) <$> seq 0 256).

Lemma elem_of_all_bytes b : b ∈ all_bytes.
Proof.
  assert (existsb (Byte.eqb b) all_bytes = true) as (c & Hc & Hb)%existsb_exists by by destruct b.
  apply Byte.byte_dec_bl in Hb as ->. by apply list_elem_of_In.
Qed.

(** Reduce a statement about one byte to evaluation. *)
Lemma forall_byte (p : byte → bool) : forallb p all_bytes = true → ∀ b, p b = true.
Proof. rewrite forallb_forall. intros H b. apply H, list_elem_of_In, elem_of_all_bytes. Qed.

Lemma alpha_table_char i : i < 64 →
  alpha_table (alpha_char i) = i ∧ alpha_char i ≠ "="%char ∧ (i =? 255) = false.
Proof.
  intros Hi. cut (forallb (λ i, (alpha_table (alpha_char i) =? i) &&
    negb (Ascii.eqb (alpha_char i) "=") && negb (i =? 255)) (N.of_nat <$> seq 0 64) = true).
  - rewrite forallb_forall. intros H. specialize (H i).
    rewrite !andb_true_iff, !negb_true_iff, N.eqb_eq, Ascii.eqb_neq in H.
    destruct H as [[??]?]; [|done]. apply list_elem_of_In, list_elem_of_fmap.
    exists (N.to_nat i). rewrite elem_of_seq. lia.
  - by vm_compute.
Qed.

(** ** Bytes from sextets *)

Lemma byte_to_N_inj (a b : byte) : Byte.to_N a = Byte.to_N b → a = b.
Proof. intros H%(f_equal Byte.of_N). rewrite !Byte.of_to_N in H. by simplify_eq. Qed.

Lemma lor_mod_pow2 x y k : N.lor x y mod 2 ^ k = N.lor (x mod 2 ^ k) (y mod 2 ^ k).
Proof. by rewrite <-!N.land_ones, N.land_lor_distr_l. Qed.

Lemma lor_lt_pow2 x y k : x < 2 ^ k → y < 2 ^ k → N.lor x y < 2 ^ k.
Proof.
  intros Hx Hy. rewrite <-(N.mod_small x (2 ^ k)), <-(N.mod_small y (2 ^ k)) by done.
  rewrite <-lor_mod_pow2. apply N.mod_lt, N.pow_nonzero. lia.
Qed.

(** Close a fact about the bits of one byte. *)
Ltac one_byte b :=
  (apply N.eqb_eq || apply N.ltb_lt); revert b; apply forall_byte; by vm_compute.

Lemma sextets_lt (x y : byte) :
  sextet0 (Byte.to_N x) < 64 ∧ sextet1 (Byte.to_N x) (Byte.to_N y) < 64 ∧
  sextet2 (Byte.to_N x) (Byte.to_N y) < 64 ∧ sextet3 (Byte.to_N x) < 64.
Proof.
  unfold sextet0, sextet1, sextet2, sextet3.
  split_and!; [one_byte x|apply (lor_lt_pow2 _ _ 6)..|one_byte x];
    [one_byte x|one_byte y|one_byte x|one_byte y].
Qed.

Lemma sextets_first (b0 b1 : byte) :
  byte_of_N (N.lor (N.shiftl (sextet0 (Byte.to_N b0)) 2)
    (N.shiftr (sextet1 (Byte.to_N b0) (Byte.to_N b1)) 4)) = b0.
Proof.
  apply byte_to_N_inj. rewrite byte_of_N_to_N. unfold sextet0, sextet1. rewrite N.shiftr_lor.
  replace (N.shiftr (N.shiftr (Byte.to_N b1) 4) 4) with 0 by (symmetry; one_byte b1).
  rewrite N.lor_0_r. one_byte b0.
Qed.

Lemma sextets_second (b0 b1 b2 : byte) :
  byte_of_N (N.lor (N.shiftl (sextet1 (Byte.to_N b0) (Byte.to_N b1)) 4)
    (N.shiftr (sextet2 (Byte.to_N b1) (Byte.to_N b2)) 2)) = b1.
Proof.
  apply byte_to_N_inj. rewrite byte_of_N_to_N. unfold sextet1, sextet2.
  rewrite N.shiftl_lor, N.shiftr_lor.
  replace (N.shiftr (N.shiftr (Byte.to_N b2) 6) 2) with 0 by (symmetry; one_byte b2).
  rewrite N.lor_0_r, <-N.lor_assoc. change 256 with (2 ^ 8). rewrite lor_mod_pow2.
  replace (N.shiftl (N.shiftl (N.land (Byte.to_N b0) 3) 4) 4 mod 2 ^ 8) with 0
    by (symmetry; one_byte b0).
  rewrite N.lor_0_l. one_byte b1.
Qed.

Lemma sextets_third (b1 b2 : byte) :
  byte_of_N (N.lor (N.shiftl (sextet2 (Byte.to_N b1) (Byte.to_N b2)) 6)
    (sextet3 (Byte.to_N b2))) = b2.
Proof.
  apply byte_to_N_inj. rewrite byte_of_N_to_N. unfold sextet2, sextet3.
  rewrite N.shiftl_lor, <-N.lor_assoc. change 256 with (2 ^ 8). rewrite lor_mod_pow2.
  replace (N.shiftl (N.shiftl (N.land (Byte.to_N b1) 15) 2) 6 mod 2 ^ 8) with 0
    by (symmetry; one_byte b1).
  rewrite N.lor_0_l. one_byte b2.
Qed.

(** The bytes of a group whose characters are in the alphabet; padding is
    decided by the last two characters only. *)
Lemma decode_quad_alpha i j k l :
  i < 64 → j < 64 → k < 64 → l < 64 →
  decode_quad (alpha_char i) (alpha_char j) (alpha_char k) (alpha_char l) =
    Ok [byte_of_N (N.lor (N.shiftl i 2) (N.shiftr j 4));
        byte_of_N (N.lor (N.shiftl j 4) (N.shiftr k 2));
        byte_of_N (N.lor (N.shiftl k 6) l)] ∧
  decode_quad (alpha_char i) (alpha_char j) (alpha_char k) "=" =
    Ok [byte_of_N (N.lor (N.shiftl i 2) (N.shiftr j 4));
        byte_of_N (N.lor (N.shiftl j 4) (N.shiftr k 2))] ∧
  decode_quad (alpha_char i) (alpha_char j) "=" "=" =
    Ok [byte_of_N (N.lor (N.shiftl i 2) (N.shiftr j 4))].
Proof.
  intros (Ei & Ni & Fi)%alpha_table_char (Ej & Nj & Fj)%alpha_table_char
    (Ek & Nk & Fk)%alpha_table_char (El & Nl & Fl)%alpha_table_char.
  apply Ascii.eqb_neq in Nk, Nl. unfold decode_quad. rewrite Ei, Ej, Ek, El, Nk, Nl, Fi, Fj.
  split_and!; simpl; rewrite ?Fk, ?Fl; done.
Qed.

(** ** Round trip *)

(** Induction by groups of three. *)
Lemma list_ind3 {A} (P : list A → Prop) :
  P [] → (∀ a, P [a]) → (∀ a b, P [a; b]) → (∀ a b c l, P l → P (a :: b :: c :: l)) →
  ∀ l, P l.
Proof.
  intros H0 H1 H2 H3. cut (∀ n l, (length l < n)%nat → P l).
  { intros H l. apply (H (S (length l))). lia. }
  intros n. induction n as [|n IH]; intros l Hl; [lia|].
  destruct l as [|a [|b [|c l]]]; auto. apply H3, IH. simpl in Hl. lia.
Qed.

Lemma decode_quads_cons a b c d s l k :
  decode_quad a b c d = Ok l → decode_quads s = Ok k →
  decode_quads (String a (String b (String c (String d s)))) = Ok (l ++ k).
Proof. intros H1 H2. cbn -[decode_quad]. by rewrite H1, H2. Qed.

Lemma decode_quads_encode l : decode_quads (base64_encode l) = Ok l.
Proof.
  induction l as [|a|a b|a b c l IH] using list_ind3; cbn -[decode_quad]; [done|..].
  - destruct (sextets_lt a Byte.x00) as (Ha & Hb & _).
    destruct (decode_quad_alpha _ _ 0 0 Ha Hb) as (_ & _ & H); [lia..|].
    pose proof (sextets_first a Byte.x00) as E. unfold sextet1 at 1 in H.
    unfold sextet1 in E. cbn [Byte.to_N] in *. rewrite N.shiftr_0_l, N.lor_0_r in H, E.
    unfold sextet1 in H. rewrite N.shiftr_0_l, N.lor_0_r in H. by rewrite H, E.
  - destruct (sextets_lt a b) as (Ha & Hb & _), (sextets_lt b Byte.x00) as (_ & _ & Hc & _).
    destruct (decode_quad_alpha _ _ _ 0 Ha Hb Hc) as (_ & H & _); [lia|].
    rewrite sextets_first, sextets_second in H. unfold sextet2 in H. cbn [Byte.to_N] in H.
    rewrite N.shiftr_0_l, N.lor_0_r in H. by rewrite H.
  - destruct (sextets_lt a b) as (Ha & Hb & _), (sextets_lt b c) as (_ & _ & Hc & _),
      (sextets_lt c c) as (_ & _ & _ & Hd).
    destruct (decode_quad_alpha _ _ _ _ Ha Hb Hc Hd) as (H & _).
    rewrite sextets_first, sextets_second, sextets_third in H. by rewrite H, IH.
Qed.

Lemma length_base64_encode l :
  String.length (base64_encode l) = (4 * ((length l + 2) / 3))%nat.
Proof.
  induction l as [|a|a b|a b c l IH] using list_ind3; [done..|].
  cbn [base64_encode length]. simpl String.length. rewrite IH.
  replace (S (S (S (length l))) + 2)%nat with (length l + 2 + 1 * 3)%nat by lia.
  rewrite Nat.div_add by done. lia.
Qed.

Lemma base64_decode_encode l : base64_decode (base64_encode l) = Ok l.
Proof.
  unfold base64_decode. rewrite length_base64_encode, Nat.mul_comm, Nat.Div0.mod_mul. simpl.
  apply decode_quads_encode.
Qed.

(** Another text with the same bytes: the bits of the last character before
    the padding that the decoder drops. *)
Lemma other_text l : (length l mod 3 ≠ 0)%nat →
  ∃ s, s ≠ base64_encode l ∧ String.length s = String.length (base64_encode l) ∧
    decode_quads s = Ok l.
Proof.
  induction l as [|a|a b|a b c l IH] using list_ind3; intros Hl; [done|..].
  - destruct (sextets_lt a Byte.x10) as (Ha & Hb & _).
    destruct (decode_quad_alpha _ _ 0 0 Ha Hb) as (_ & _ & H); [lia..|].
    rewrite sextets_first in H.
    exists (String (alpha_char (sextet0 (Byte.to_N a)))
      (String (alpha_char (sextet1 (Byte.to_N a) (Byte.to_N Byte.x10))) "==")).
    split_and!; [|done|by apply (decode_quads_cons _ _ _ _ _ _ _ H)].
    cbn -[alpha_char]. intros [= E]. revert E. apply Ascii.eqb_neq, negb_true_iff.
    clear Ha Hb H Hl. revert a. apply forall_byte. by vm_compute.
  - destruct (sextets_lt a b) as (Ha & Hb & _), (sextets_lt b Byte.x40) as (_ & _ & Hc & _).
    destruct (decode_quad_alpha _ _ _ 0 Ha Hb Hc) as (_ & H & _); [lia|].
    rewrite sextets_first, sextets_second in H.
    exists (String (alpha_char (sextet0 (Byte.to_N a)))
      (String (alpha_char (sextet1 (Byte.to_N a) (Byte.to_N b)))
        (String (alpha_char (sextet2 (Byte.to_N b) (Byte.to_N Byte.x40))) "="))).
    split_and!; [|done|by apply (decode_quads_cons _ _ _ _ _ _ _ H)].
    cbn -[alpha_char]. intros [= E]. revert E. apply Ascii.eqb_neq, negb_true_iff.
    clear Ha Hb Hc H Hl. revert b. apply forall_byte. by vm_compute.
  - destruct IH as (s & Hne & Hlen & Hs).
    { replace (length (a :: b :: c :: l)) with (length l + 1 * 3)%nat in Hl by (simpl; lia).
      by rewrite Nat.Div0.mod_add in Hl. }
    destruct (sextets_lt a b) as (Ha & Hb & _), (sextets_lt b c) as (_ & _ & Hc & _),
      (sextets_lt c c) as (_ & _ & _ & Hd).
    destruct (decode_quad_alpha _ _ _ _ Ha Hb Hc Hd) as (H & _).
    rewrite sextets_first, sextets_second, sextets_third in H.
    eexists (String _ (String _ (String _ (String _ s)))).
    split_and!; [| |by apply (decode_quads_cons _ _ _ _ _ _ _ H)].
    + cbn -[alpha_char]. congruence.
    + simpl. by rewrite Hlen.
Qed.

(** Decoding the encoding of any bytes gives them back, and the encoding
    has four characters for every started group of three bytes, so that the
    64 bytes of a signature take the 88 characters the code expects.  The
    decoder is not injective: every signature has a second text of 88
    characters that decodes to the same bytes. *)
Theorem base64_round_trip l :
  base64_decode (base64_encode l) = Ok l ∧
  String.length (base64_encode l) = (4 * ((length l + 2) / 3))%nat ∧
  (length l = 64%nat →
     String.length (base64_encode l) = 88%nat ∧
     ∃ s, s ≠ base64_encode l ∧ String.length s = 88%nat ∧ base64_decode s = Ok l).
Proof.
  split_and!; [apply base64_decode_encode|apply length_base64_encode|]. intros Hl.
  pose proof (length_base64_encode l) as H. rewrite Hl in H. split; [done|].
  destruct (other_text l) as (s & Hne & Hlen & Hs); [by rewrite Hl|]. exists s.
  unfold base64_decode. rewrite Hlen, H. done.
Qed.
