(* ===== verification/Apps.v ===== *)
(** * Application packages

    Models core/aether-core/src/app.rs (manifests and packages),
    security/aether-security/src/app_signing.rs (the package signer and
    verifier) and security/aether-security/src/app_security.rs (install-time
    consent, the runtime gate and the sandbox plan of an app).  Ed25519 and
    SHA-256 are the operations of [Crypto]; the JSON serializer of a manifest
    is the operation of [AppJson]. *)
From S2P Require Import Prelude RustStd Base64 Signing HashChain.
From S2P Require Import AuditChain CoreTypes DepGraph Sandbox Launcher.
From Stdlib Require Import Ascii.
#[local] Open Scope nat_scope.

(** ** app.rs *)

Definition APP_PACKAGE_SCHEMA_VERSION : string := "1".

Inductive AppPermission :=
| ReadUserFiles | WriteUserFiles | NetworkEgress | NetworkListen | ReadPersonalData | ApNotify
| CaptureScreen | Camera | Microphone | Location | PairDevices.

#[export] Instance AppPermission_eq_dec : EqDecision AppPermission.
Proof. solve_decision. Defined.

Definition AppPermission_as_str (p : AppPermission) : string :=
  match p with
  | ReadUserFiles => "read-user-files"
  | WriteUserFiles => "write-user-files"
  | NetworkEgress => "network-egress"
  | NetworkListen => "network-listen"
  | ReadPersonalData => "read-personal-data"
  | ApNotify => "notify"
  | CaptureScreen => "capture-screen"
  | Camera => "camera"
  | Microphone => "microphone"
  | Location => "location"
  | PairDevices => "pair-devices"
  end.

Record AppResourceLimits := mkAppResourceLimits {
  arl_cpu_weight : N;
  arl_memory_max_bytes : option N;
  arl_pids_max : option N;
  arl_io_weight : N;
}.

Definition AppResourceLimits_default_for (_app_id : string) : AppResourceLimits :=
  mkAppResourceLimits 50 (Some (256 * 1024 * 1024)%N) (Some 64%N) 50.

Record AppManifest := mkAppManifest {
  am_schema_version : string;
  am_app_id : string;
  am_name : string;
  am_version : string;
  am_publisher : string;
  am_description : string;
  am_min_os_version : string;
  am_permissions : list AppPermission;
  am_sandbox_profile : SandboxProfile;
  am_resources : AppResourceLimits;
  am_binary_sha256 : string;
  am_payload_len : N;
  am_depends_on : list string;
  am_timestamp_ms : N;
  am_publisher_key_id : string;
}.

Record AppPackage := mkAppPackage {
  pkg_manifest : AppManifest;
  pkg_signature : string;
  pkg_payload : list byte;
}.

Definition app_id_char (c : ascii) : bool :=
  is_ascii_lowercase c || is_ascii_digit c || Ascii.eqb c "-".

(** The body of the loop of [is_valid_app_id]. *)
Definition valid_segment (seg : string) : bool :=
  negb (str_is_empty seg) && (String.length seg <=? 63)%nat &&
  negb (String.prefix "-" seg) && negb (bool_decide (str_last seg = Some "-"%char)) &&
  str_all app_id_char seg.

Definition is_valid_app_id (id : string) : bool :=
  negb (str_is_empty id) && (String.length id <=? 253)%nat &&
  (2 <=? length (str_split "." id))%nat && forallb valid_segment (str_split "." id).

(** The character map of [app_cgroup_slice]. *)
Fixpoint sanitise (s : string) : string :=
  match s with
  | EmptyString => EmptyString
  | String c s => String (if is_ascii_alphanumeric c then c else "_"%char) (sanitise s)
  end.

Definition app_cgroup_slice (app_id : string) : string :=
  "aether.slice/app." +:+ sanitise app_id +:+ ".slice".

Definition weight_error (name : string) (w : N) : string :=
  name +:+ " " +:+ pretty w +:+ " is outside the cgroup v2 range 1..=10000".

Definition AppManifest_validate (m : AppManifest) : result unit string :=
  let r := am_resources m in
  if negb (am_schema_version m =? APP_PACKAGE_SCHEMA_VERSION)%string then
    Err ("unsupported app manifest schema_version '" +:+ am_schema_version m +:+
         "' (this build expects '" +:+ APP_PACKAGE_SCHEMA_VERSION +:+ "')")
  else if str_is_empty (am_app_id m) then Err "app_id is required"
  else if negb (is_valid_app_id (am_app_id m)) then
    Err ("app_id '" +:+ am_app_id m +:+ "' is not a valid reverse-DNS identifier")
  else if str_is_empty (am_name m) then Err "name is required"
  else if str_is_empty (am_version m) then Err "version is required"
  else if str_is_empty (am_publisher m) then Err "publisher is required"
  else if str_is_empty (am_publisher_key_id m) then Err "publisher_key_id is required"
  else if str_is_empty (am_min_os_version m) then Err "min_os_version is required"
  else if negb (String.length (am_binary_sha256 m) =? 64)%nat ||
          negb (str_all is_ascii_hexdigit (am_binary_sha256 m)) then
    Err ("binary_sha256 '" +:+ am_binary_sha256 m +:+ "' is not a 64-character hex string")
  else if (am_payload_len m =? 0)%N then Err "payload_len must be > 0"
  else if ((arl_cpu_weight r <? 1) || (10000 <? arl_cpu_weight r))%N then
    Err (weight_error "cpu_weight" (arl_cpu_weight r))
  else if ((arl_io_weight r <? 1) || (10000 <? arl_io_weight r))%N then
    Err (weight_error "io_weight" (arl_io_weight r))
  else Ok tt.

(** [serde_json::to_vec] of a manifest, with the text of its error. *)
Class AppJson := manifest_to_vec : AppManifest → result (list byte) string.

Definition app_manifest_bytes `{!AppJson} (p : AppPackage) : result (list byte) string :=
  map_err (λ e, "encode manifest: " +:+ e) (manifest_to_vec (pkg_manifest p)).

(** ** app_signing.rs *)

Record AppSignature := mkAppSignature { app_signature_str : string }.

Definition AppSignature_to_bytes (s : AppSignature) : result (list byte) string :=
  let len := String.length (app_signature_str s) in
  if negb (len =? 88)%nat then
    Err ("signature must be 88 base64 characters (got " +:+ pretty (N.of_nat len) +:+ ")")
  else base64_decode (app_signature_str s).

Record AppPackageVerifier := mkAppPackageVerifier { trusted_fingerprints : list string }.

Definition set_digest (sha : string) (len : N) (m : AppManifest) : AppManifest :=
  mkAppManifest (am_schema_version m) (am_app_id m) (am_name m) (am_version m) (am_publisher m)
    (am_description m) (am_min_os_version m) (am_permissions m) (am_sandbox_profile m)
    (am_resources m) sha len (am_depends_on m) (am_timestamp_ms m) (am_publisher_key_id m).

Section app_signing.
Context {C : Crypto} `{!AppJson}.

(** The text of the error of [VerifyingKey::verify]. *)
Variable signature_error : string.

Record AppPackageSigner := mkAppPackageSigner { aps_signing_key : SigningKey }.

Definition AppPackageSigner_from_secret_bytes (secret : list byte) : AppPackageSigner :=
  mkAppPackageSigner (sk_from_seed secret).

Definition AppPackageSigner_public_key (s : AppPackageSigner) : VerifyingKey :=
  sk_verifying_key (aps_signing_key s).

Definition public_key_fingerprint_hex (s : AppPackageSigner) : string :=
  hex_of_bytes (sha256 (vk_to_bytes (AppPackageSigner_public_key s))).

(** The two conditional updates of [sign_package]. *)
Definition refresh_digest (hex : string) (len : N) (m : AppManifest) : AppManifest :=
  let m := if negb (am_binary_sha256 m =? hex)%string
           then set_digest hex (am_payload_len m) m else m in
  if negb (am_payload_len m =? len)%N then set_digest (am_binary_sha256 m) len m else m.

Definition sign_package (s : AppPackageSigner) (p : AppPackage) : result AppPackage string :=
  let m := refresh_digest (hex_of_bytes (sha256 (pkg_payload p)))
             (N.of_nat (length (pkg_payload p))) (pkg_manifest p) in
  let p := mkAppPackage m (pkg_signature p) (pkg_payload p) in
  match app_manifest_bytes p with
  | Err e => Err e
  | Ok bytes =>
      Ok (mkAppPackage m (base64_encode (sig_to_bytes (sk_sign (aps_signing_key s) bytes)))
            (pkg_payload p))
  end.

Definition untrusted_publisher (p : AppPackage) : string :=
  "publisher '" +:+ am_publisher_key_id (pkg_manifest p) +:+
  "' is not in the trusted-publisher registry".

(** [lookup_public_key], the stub of the source. *)
Definition lookup_public_key (_fingerprints : list string) (_p : AppPackage) :
    option VerifyingKey := None.

(** The signature check both verifiers end with. *)
Definition check_signature (p : AppPackage) (key : VerifyingKey) (sig : Signature) :
    result string string :=
  match app_manifest_bytes p with
  | Err e => Err e
  | Ok bytes =>
      if vk_verify key bytes sig then Ok (am_publisher_key_id (pkg_manifest p))
      else Err ("signature verification failed: " +:+ signature_error)
  end.

Definition AppPackageVerifier_verify (v : AppPackageVerifier) (p : AppPackage) :
    result string string :=
  let m := pkg_manifest p in
  let actual := hex_of_bytes (sha256 (pkg_payload p)) in
  match AppManifest_validate m with
  | Err e => Err e
  | Ok _ =>
      if negb (bool_decide (am_publisher_key_id m ∈ trusted_fingerprints v))
      then Err (untrusted_publisher p)
      else if negb (am_payload_len m =? N.of_nat (length (pkg_payload p)))%N then
        Err ("payload length " +:+ pretty (N.of_nat (length (pkg_payload p))) +:+
             " does not match manifest.payload_len " +:+ pretty (am_payload_len m))
      else if negb (actual =? am_binary_sha256 m)%string then
        Err ("payload SHA-256 " +:+ actual +:+ " does not match manifest.binary_sha256 " +:+
             am_binary_sha256 m)
      else match AppSignature_to_bytes (mkAppSignature (pkg_signature p)) with
           | Err e => Err e
           | Ok bytes =>
               match sig_try_from bytes with
               | None => Err "signature is not 64 bytes"
               | Some sig =>
                   match lookup_public_key (trusted_fingerprints v) p with
                   | None => Err "no public key for trusted fingerprint"
                   | Some key => check_signature p key sig
                   end
               end
           end
  end.

Definition verify_with_key (v : AppPackageVerifier) (p : AppPackage) (key : VerifyingKey) :
    result string string :=
  let m := pkg_manifest p in
  match AppManifest_validate m with
  | Err e => Err e
  | Ok _ =>
      if negb (bool_decide (am_publisher_key_id m ∈ trusted_fingerprints v))
      then Err (untrusted_publisher p)
      else if negb (am_payload_len m =? N.of_nat (length (pkg_payload p)))%N
        then Err "payload length mismatch"
      else if negb (hex_of_bytes (sha256 (pkg_payload p)) =? am_binary_sha256 m)%string
        then Err "payload SHA-256 mismatch"
      else match AppSignature_to_bytes (mkAppSignature (pkg_signature p)) with
           | Err e => Err e
           | Ok bytes =>
               match sig_try_from bytes with
               | None => Err "signature is not 64 bytes"
               | Some sig => check_signature p key sig
               end
           end
  end.
End app_signing.

(** ** app_security.rs *)

Record AppConsentRecord := mkAppConsentRecord {
  acr_app_id : string;
  acr_publisher_key_id : string;
  acr_granted : list AppPermission;
  acr_granted_at_ms : N;
  acr_version : N;
}.

Definition AppConsentRecord_new (app_id publisher_key_id : string) (granted : list AppPermission)
    (granted_at_ms : N) : AppConsentRecord :=
  mkAppConsentRecord app_id publisher_key_id granted granted_at_ms 1.

Definition consent_grants (c : AppConsentRecord) (p : AppPermission) : bool :=
  bool_decide (p ∈ acr_granted c).

(** [sort_by_key(|p| p.as_str())]. *)
Definition permission_le (p q : AppPermission) : Prop :=
  String.le (AppPermission_as_str p) (AppPermission_as_str q).

#[export] Instance permission_le_dec : RelDecision permission_le.
Proof. unfold permission_le. solve_decision. Defined.

Definition sort_permissions (l : list AppPermission) : list AppPermission :=
  merge_sort permission_le l.

Definition sorted_grants (c : AppConsentRecord) : list AppPermission :=
  sort_permissions (acr_granted c).

Record AppInstallDecision := mkAppInstallDecision {
  aid_manifest : AppManifest;
  aid_consent : AppConsentRecord;
  aid_plan : SandboxPlan;
  aid_refused : list AppPermission;
}.

Definition set_limits (slice : string) (memory : option N) (r : ResourceLimits) : ResourceLimits :=
  mkResourceLimits slice (cpu_weight r) memory (pids_max r) (io_weight r).

Definition set_resources (r : ResourceLimits) (p : SandboxPlan) : SandboxPlan :=
  mkSandboxPlan (sp_profile p) (sp_namespaces p) (sp_capabilities p) (sp_no_new_privs p)
    (sp_seccomp p) r (sp_rationale p).

Definition sandbox_plan_for_app (m : AppManifest) : SandboxPlan :=
  let plan := plan_sandbox SbRestrictedService in
  let slice := app_cgroup_slice (am_app_id m) in
  let memory := match arl_memory_max_bytes (am_resources m) with
                | Some bytes => Some bytes
                | None => memory_max_bytes (sp_resources plan)
                end in
  set_resources (set_limits slice memory (sp_resources plan)) plan.

(** The permissions of the manifest the user did not grant. *)
Definition refused_permissions (m : AppManifest) (user_consent : list AppPermission) :
    list AppPermission :=
  List.filter (λ p, negb (bool_decide (p ∈ user_consent))) (am_permissions m).

Definition unrequested (m : AppManifest) (user_consent : list AppPermission) :
    option AppPermission :=
  find_b (λ p, negb (bool_decide (p ∈ am_permissions m))) user_consent.

(** The detail of the audit entry of an install. *)
Definition install_detail (consent : AppConsentRecord) (refused : list AppPermission)
    (plan : SandboxPlan) : string :=
  "version=" +:+ pretty (acr_version consent) +:+ " refused=[" +:+
  str_join "," (AppPermission_as_str <$> refused) +:+ "] plan_seccomp=" +:+
  from_option tag_str "none" (sp_seccomp plan) +:+ " plan_slice=" +:+
  cgroup_slice (sp_resources plan).

(** [AppInstaller::install] on the audit chain it holds; [None] is the panic
    of the chain's [record]. *)
Definition AppInstaller_install `{Digest} (m : AppManifest) (user_consent : list AppPermission)
    (granted_at_ms : N) (chain : AuditChain) :
    option (AuditChain * result AppInstallDecision string) :=
  match AppManifest_validate m with
  | Err e => Some (chain, Err e)
  | Ok _ =>
      match unrequested m user_consent with
      | Some p =>
          Some (chain, Err ("user granted '" +:+ AppPermission_as_str p +:+
                            "' but the manifest did not request it"))
      | None =>
          let refused := refused_permissions m user_consent in
          let consent := mkAppConsentRecord (am_app_id m) (am_publisher_key_id m)
                           (sort_permissions user_consent) granted_at_ms 1 in
          let plan := sandbox_plan_for_app m in
          '(chain, _) ← AuditChain_record granted_at_ms "app.install" "app-installer"
                          (install_detail consent refused plan) chain;
          Some (chain, Ok (mkAppInstallDecision m consent plan refused))
      end
  end.

Record GateVerdict := mkGateVerdict { gv_allowed : bool; gv_reason : string }.

Definition GateVerdict_allow (reason : string) : GateVerdict := mkGateVerdict true reason.
Definition GateVerdict_deny (reason : string) : GateVerdict := mkGateVerdict false reason.

Definition app_permission_capability (p : AppPermission) : Capability :=
  let '(domain, name, risk) :=
    match p with
    | ReadUserFiles => (CdFilesystem, "user.read", RlMedium)
    | WriteUserFiles => (CdFilesystem, "user.write", RlHigh)
    | NetworkEgress => (CdNetwork, "egress", RlHigh)
    | NetworkListen => (CdNetwork, "listen", RlHigh)
    | ReadPersonalData => (CdIdentity, "personal.read", RlHigh)
    | ApNotify => (CdApplication, "notify", RlLow)
    | CaptureScreen => (CdApplication, "screen.capture", RlCritical)
    | Camera => (CdApplication, "camera", RlHigh)
    | Microphone => (CdApplication, "microphone", RlHigh)
    | Location => (CdApplication, "location", RlHigh)
    | PairDevices => (CdApplication, "pair.devices", RlMedium)
    end in
  Capability_new domain name risk.

#[export] Instance CapabilityDomain_eq_dec : EqDecision CapabilityDomain.
Proof. solve_decision. Defined.

Definition app_permission_for_capability (c : Capability) : option AppPermission :=
  let guards d n := bool_decide (cap_domain c = d) && (cap_name c =? n)%string in
  if guards CdFilesystem "user.read" then Some ReadUserFiles
  else if guards CdFilesystem "user.write" then Some WriteUserFiles
  else if guards CdNetwork "egress" then Some NetworkEgress
  else if guards CdNetwork "listen" then Some NetworkListen
  else if guards CdIdentity "personal.read" then Some ReadPersonalData
  else if guards CdApplication "notify" then Some ApNotify
  else if guards CdApplication "screen.capture" then Some CaptureScreen
  else if guards CdApplication "camera" then Some Camera
  else if guards CdApplication "microphone" then Some Microphone
  else if guards CdApplication "location" then Some Location
  else if guards CdApplication "pair.devices" then Some PairDevices
  else None.

(** The derived [Debug] text. *)
Definition RiskLevel_debug (r : RiskLevel) : string :=
  match r with RlLow => "Low" | RlMedium => "Medium" | RlHigh => "High" | RlCritical => "Critical" end.

(** [AppPermissionGate::evaluate] of the gate bound to a consent record. *)
Definition gate_evaluate (consent : AppConsentRecord) (app_id : string) (c : Capability) :
    GateVerdict :=
  if negb (app_id =? acr_app_id consent)%string then
    GateVerdict_deny ("consent record is for '" +:+ acr_app_id consent +:+ "', not '" +:+ app_id
                      +:+ "'")
  else match app_permission_for_capability c with
       | None => GateVerdict_allow "system capability not gated by user consent"
       | Some p =>
           if consent_grants consent p
           then GateVerdict_allow ("user granted '" +:+ AppPermission_as_str p +:+
                                   "' at install time")
           else GateVerdict_deny ("user did not grant '" +:+ AppPermission_as_str p +:+
                                  "' (capability " +:+ qualified_name c +:+ " at " +:+
                                  RiskLevel_debug (cap_risk_level c) +:+ " risk)")
       end.

Definition verify_consent_for_package (consent : AppConsentRecord) (p : AppPackage) :
    result string string :=
  let m := pkg_manifest p in
  if negb (acr_app_id consent =? am_app_id m)%string then
    Err ("consent record is for '" +:+ acr_app_id consent +:+ "' but package is for '" +:+
         am_app_id m +:+ "'")
  else if negb (acr_publisher_key_id consent =? am_publisher_key_id m)%string then
    Err ("consent record was issued for publisher '" +:+ acr_publisher_key_id consent +:+
         "' but package is signed by '" +:+ am_publisher_key_id m +:+ "'")
  else Ok (am_publisher_key_id m).

(** ** Validation *)

(** What a valid manifest satisfies. *)
Record manifest_valid (m : AppManifest) : Prop := {
  mv_schema : am_schema_version m = APP_PACKAGE_SCHEMA_VERSION;
  mv_app_id : is_valid_app_id (am_app_id m) = true;
  mv_texts : Forall (λ s, s ≠ EmptyString)
    [am_name m; am_version m; am_publisher m; am_publisher_key_id m; am_min_os_version m];
  mv_sha : String.length (am_binary_sha256 m) = 64 ∧
           str_all is_ascii_hexdigit (am_binary_sha256 m) = true;
  mv_len : (am_payload_len m ≠ 0)%N;
  mv_weights : (1 ≤ arl_cpu_weight (am_resources m) ≤ 10000)%N ∧
               (1 ≤ arl_io_weight (am_resources m) ≤ 10000)%N;
}.

Lemma manifest_validate_exact m : AppManifest_validate m = Ok tt ↔ manifest_valid m.
Proof.
  split.
  - unfold AppManifest_validate. intros H.
    repeat match type of H with
    | (if ?b then _ else _) = _ => let E := fresh "E" in destruct b eqn:E; [done|]
    end.
    rewrite ?negb_false_iff, ?orb_false_iff, ?negb_false_iff, ?str_is_empty_false, ?String.eqb_eq,
      ?N.eqb_neq, ?N.ltb_ge, ?Nat.eqb_eq in *.
    split; rewrite ?Forall_cons, ?Forall_nil; naive_solver lia.
  - intros [H1 H2 H3 [H4 H5] H6 [H7 H8]]. rewrite !Forall_cons in H3. unfold AppManifest_validate.
    assert (am_app_id m ≠ EmptyString) by (by intros E; rewrite E in H2).
    rewrite H1, H2, H4, H5. simpl.
    repeat (rewrite (proj2 (str_is_empty_false _)) by naive_solver).
    rewrite (proj2 (N.eqb_neq _ _)) by done.
    repeat (rewrite (proj2 (N.ltb_ge _ _)) by lia). done.
Qed.

(** ** Signing and verification *)

Section app_signing_props.
Context {C : Crypto} {L : CryptoLaws C} `{!AppJson}.
Implicit Types (p q : AppPackage) (v : AppPackageVerifier).

(** The conditions under which a package is accepted with a key. *)
Definition package_accepted v p (key : VerifyingKey) : Prop :=
  let m := pkg_manifest p in
  manifest_valid m ∧
  am_publisher_key_id m ∈ trusted_fingerprints v ∧
  am_payload_len m = N.of_nat (length (pkg_payload p)) ∧
  am_binary_sha256 m = hex_of_bytes (sha256 (pkg_payload p)) ∧
  String.length (pkg_signature p) = 88 ∧
  ∃ bytes sig mb, base64_decode (pkg_signature p) = Ok bytes ∧ sig_try_from bytes = Some sig ∧
    app_manifest_bytes p = Ok mb ∧ vk_verify key mb sig = true.

Lemma to_bytes_Ok s l :
  AppSignature_to_bytes (mkAppSignature s) = Ok l ↔
  String.length s = 88 ∧ base64_decode s = Ok l.
Proof.
  unfold AppSignature_to_bytes. simpl. destruct (Nat.eqb_spec (String.length s) 88); simpl;
    naive_solver.
Qed.

Lemma check_signature_Ok err p key sig id :
  check_signature err p key sig = Ok id ↔
  id = am_publisher_key_id (pkg_manifest p) ∧
  ∃ mb, app_manifest_bytes p = Ok mb ∧ vk_verify key mb sig = true.
Proof.
  unfold check_signature. destruct (app_manifest_bytes p) as [mb|]; [|naive_solver].
  destruct (vk_verify key mb sig) eqn:E; split.
  - intros [= <-]. eauto.
  - by intros [-> _].
  - done.
  - intros (_ & mb' & [= <-] & E'). congruence.
Qed.

Lemma verify_with_key_exact err v p key id :
  verify_with_key err v p key = Ok id ↔
  package_accepted v p key ∧ id = am_publisher_key_id (pkg_manifest p).
Proof.
  unfold verify_with_key, package_accepted.
  destruct (AppManifest_validate (pkg_manifest p)) as [[]|] eqn:Hv.
  2:{ split; [done|]. intros [[Hm _] _]. apply manifest_validate_exact in Hm. congruence. }
  apply manifest_validate_exact in Hv. case_bool_decide as Ht; simpl; [|naive_solver].
  destruct (N.eqb_spec (am_payload_len (pkg_manifest p)) (N.of_nat (length (pkg_payload p))));
    simpl; [|naive_solver].
  destruct (String.eqb_spec (hex_of_bytes (sha256 (pkg_payload p)))
    (am_binary_sha256 (pkg_manifest p))); simpl; [|naive_solver].
  destruct (AppSignature_to_bytes (mkAppSignature (pkg_signature p))) as [bytes|] eqn:Hb.
  - apply to_bytes_Ok in Hb as [Hlen Hb]. rewrite Hb.
    destruct (sig_try_from bytes) as [sig|] eqn:Hs; [|naive_solver].
    rewrite check_signature_Ok. naive_solver.
  - split; [done|]. intros [(_ & _ & _ & _ & Hlen & bytes & _ & _ & Hd & _) _].
    by rewrite (proj2 (to_bytes_Ok _ _) (conj Hlen Hd)) in Hb.
Qed.

Lemma refresh_digest_eq hex len m : refresh_digest hex len m = set_digest hex len m.
Proof.
  unfold refresh_digest. destruct m as [? ? ? ? ? ? ? ? ? ? sha l ? ? ?].
  cbn -[String.eqb N.eqb]. destruct (String.eqb_spec sha hex) as [->|]; cbn -[N.eqb];
    by destruct (N.eqb_spec l len) as [->|].
Qed.

(** The manifest of a signed package. *)
Lemma sign_package_Ok s p q :
  sign_package s p = Ok q ↔
  let m := set_digest (hex_of_bytes (sha256 (pkg_payload p)))
             (N.of_nat (length (pkg_payload p))) (pkg_manifest p) in
  ∃ mb, manifest_to_vec m = Ok mb ∧
    q = mkAppPackage m (base64_encode (sig_to_bytes (sk_sign (aps_signing_key s) mb)))
          (pkg_payload p).
Proof.
  unfold sign_package, app_manifest_bytes. rewrite refresh_digest_eq. cbn zeta.
  cbn [pkg_manifest pkg_payload].
  destruct (manifest_to_vec _) as [mb|]; simpl; split; [|by intros (? & [= <-] & ->)|done|by intros (? & ? & ?)].
  intros [= <-]. by exists mb.
Qed.

(** A package verifies with a key exactly when its manifest is valid, its
    publisher id is on the trust list, the length and the SHA-256 digest of
    the payload are those of the manifest, and the 88 characters of the
    signature decode to a signature of the manifest's bytes under that key.
    The registry-backed [verify] accepts no package at all, because its key
    lookup is a stub. *)
Theorem package_verification_exact err v p key id :
  (verify_with_key err v p key = Ok id ↔
   package_accepted v p key ∧ id = am_publisher_key_id (pkg_manifest p)) ∧
  is_ok (AppPackageVerifier_verify err v p) = false.
Proof.
  split; [apply verify_with_key_exact|]. unfold AppPackageVerifier_verify.
  repeat case_match; done.
Qed.

(** A package signed with any key verifies with that key whenever its
    publisher id is trusted and its manifest, with the digest and the length
    of the payload filled in by the signer, is valid.  Nothing ties the key to
    the publisher id: the verifier never compares the fingerprint of the key
    with it, so the signer need not be the publisher it names. *)
Theorem signed_package_verifies err v s p q :
  sign_package s p = Ok q →
  manifest_valid (pkg_manifest q) →
  am_publisher_key_id (pkg_manifest p) ∈ trusted_fingerprints v →
  verify_with_key err v q (AppPackageSigner_public_key s) =
    Ok (am_publisher_key_id (pkg_manifest p)).
Proof.
  intros (mb & Hmb & ->)%sign_package_Ok Hv Ht. apply verify_with_key_exact.
  split; [|done]. split_and!; try done; simpl.
  - by rewrite length_base64_encode, sig_to_bytes_len.
  - eexists _, _, mb. rewrite base64_decode_encode, sig_round_trip. split_and!; [done..| |].
    + unfold app_manifest_bytes. simpl. by rewrite Hmb.
    + apply sign_verifies.
Qed.
End app_signing_props.

(** A manifest with every required field, and a serializer to run with. *)
Definition example_manifest (id publisher_key : string) (perms : list AppPermission) :
    AppManifest :=
  mkAppManifest "1" id "Example" "1.0.0" "Example Org" "An example" "0.1.0" perms
    SbRestrictedService (AppResourceLimits_default_for id)
    (hex_of_bytes (sha256 (as_bytes "payload"))) 7 [] 0 publisher_key.

#[export] Instance ToyAppJson : AppJson :=
  λ m, Ok (as_bytes (am_app_id m +:+ am_publisher_key_id m +:+ am_binary_sha256 m)).

Lemma signed_package_verifies_witness :
  let signer := AppPackageSigner_from_secret_bytes [Byte.x07] in
  let p := mkAppPackage (example_manifest "com.example.app" "fingerprint-of-another-key" [])
             "" (as_bytes "payload") in
  public_key_fingerprint_hex signer ≠ am_publisher_key_id (pkg_manifest p) ∧
  ∃ q, sign_package signer p = Ok q ∧
    verify_with_key "" (mkAppPackageVerifier ["fingerprint-of-another-key"]) q
      (AppPackageSigner_public_key signer) = Ok "fingerprint-of-another-key".
Proof.
  split; [by vm_compute|]. eexists. split; [by vm_compute|].
  eapply (signed_package_verifies "" _
    (AppPackageSigner_from_secret_bytes [Byte.x07])
    (mkAppPackage (example_manifest "com.example.app" "fingerprint-of-another-key" [])
       "" (as_bytes "payload"))).
  - by vm_compute.
  - apply manifest_validate_exact. by vm_compute.
  - simpl. set_solver.
Defined.


(** ** Identifiers and slices *)

Lemma str_all_segments (p : ascii → bool) sep s :
  forallb (str_all p) (str_split sep s) = true →
  str_all (λ c, p c || Ascii.eqb c sep) s = true.
Proof.
  induction s as [|c s IH]; [done|]. rewrite str_split_cons. cbn [str_all].
  destruct (Ascii.eqb_spec c sep) as [->|Hc]; simpl.
  - rewrite orb_true_r. apply IH.
  - destruct (str_split sep s) as [|w ws]; simpl in *; rewrite !andb_true_iff.
    + intros [[-> _] _]. auto.
    + rewrite andb_true_iff in IH. intros [[-> ?] ?]. auto.
Qed.

Lemma valid_app_id_chars id :
  is_valid_app_id id = true → str_all (λ c, app_id_char c || Ascii.eqb c ".") id = true.
Proof.
  unfold is_valid_app_id. rewrite !andb_true_iff. intros [_ H]. apply str_all_segments.
  rewrite forallb_forall in *. intros s Hs. specialize (H s Hs). unfold valid_segment in H.
  rewrite !andb_true_iff in H. naive_solver.
Qed.

(** A valid id is one ordinary component of a path. *)
Lemma valid_app_id_component id :
  is_valid_app_id id = true → str_split "/" id = [id] ∧ id ∉ [""; "."; ".."].
Proof.
  intros H. split.
  - apply str_split_none. eapply str_all_impl; [|by apply valid_app_id_chars]. intros c Hc.
    unfold char_ne. destruct (Ascii.eqb_spec c "/") as [->|]; [by vm_compute in Hc|done].
  - rewrite !not_elem_of_cons. split_and!; [by intros ->..|apply not_elem_of_nil].
Qed.

Lemma sanitise_alnum s :
  str_all (λ c, is_ascii_alphanumeric c || Ascii.eqb c "_") (sanitise s) = true.
Proof.
  induction s as [|c s IH]; [done|]. cbn [sanitise str_all]. rewrite IH, andb_true_r.
  destruct (is_ascii_alphanumeric c) eqn:E; [by rewrite E|done].
Qed.

Lemma sanitise_one_component s : str_all (char_ne "/") (sanitise s) = true.
Proof.
  eapply str_all_impl; [|apply sanitise_alnum]. intros c Hc. unfold char_ne.
  destruct (Ascii.eqb_spec c "/") as [->|]; [by vm_compute in Hc|done].
Qed.

(** The plan of every app passes the launcher's validation and is the
    restricted plan: it isolates the same namespaces, keeps no capability,
    sets no_new_privs and carries the strict filter.  Its slice stays below
    aether.slice/, in one component.  The memory cap is what the manifest
    asks for, however large.  The slice is not specific to the app: two valid
    ids that differ only in a dot and a hyphen share one. *)
Theorem app_plan_exact m :
  let plan := sandbox_plan_for_app m in
  let restricted := plan_sandbox SbRestrictedService in
  validate plan = Ok tt ∧
  sp_namespaces plan = sp_namespaces restricted ∧ sp_capabilities plan = [] ∧
  sp_no_new_privs plan = true ∧ sp_seccomp plan = sp_seccomp restricted ∧
  (∃ leaf, cgroup_slice (sp_resources plan) = "aether.slice/" +:+ leaf ∧
     str_split "/" leaf = [leaf]) ∧
  memory_max_bytes (sp_resources plan) =
    match arl_memory_max_bytes (am_resources m) with
    | Some bytes => Some bytes
    | None => Some 536870912%N
    end ∧
  is_valid_app_id "com.example.a-b" = true ∧ is_valid_app_id "com.example.a.b" = true ∧
  app_cgroup_slice "com.example.a-b" = app_cgroup_slice "com.example.a.b".
Proof.
  split_and!; try done.
  exists ("app." +:+ sanitise (am_app_id m) +:+ ".slice"). split; [done|].
  apply str_split_none. by rewrite !str_all_app, sanitise_one_component.
Qed.

(** ** Permissions and capabilities *)

Lemma permission_of_capability c p :
  app_permission_for_capability c = Some p ↔
  cap_domain c = cap_domain (app_permission_capability p) ∧
  cap_name c = cap_name (app_permission_capability p).
Proof.
  split.
  - unfold app_permission_for_capability. intros H.
    repeat match type of H with
    | (if ?b then _ else _) = _ =>
        let E := fresh "E" in destruct b eqn:E;
          [apply andb_true_iff in E as [?%bool_decide_eq_true ?%String.eqb_eq]; by simplify_eq|]
    end. done.
  - destruct c as [d n r]. simpl. destruct p; simpl; by intros [-> ->].
Qed.

Section consent.
Context `{Digest}.

Lemma record_total ts ev comp det chain :
  max_entries (ac_retention chain) ≠ 0%N →
  ∃ chain' l i, AuditChain_record ts ev comp det chain = Some (chain', i) ∧
    ac_retention chain' = ac_retention chain ∧
    ac_entries chain' = l ++ [new_entry l ts ev comp det] ∧ suffix l (ac_entries chain).
Proof.
  intros Hm. unfold AuditChain_record. cbn zeta.
  assert (∃ l, suffix l (ac_entries chain) ∧
    (if match (if (max_entries (ac_retention chain) <? usize_max)%N
               then Some (max_entries (ac_retention chain) + 1)%N else None) with
        | Some cap => negb (cap =? 0)%N &&
                      (max_entries (ac_retention chain) <=? N.of_nat (length (ac_entries chain)))%N
        | None => false
        end
     then match ac_entries chain with [] => None | _ :: l => Some l end
     else Some (ac_entries chain)) = Some l) as (l & Hl & ->).
  { destruct (ac_entries chain) as [|e l] eqn:E.
    - exists []. split; [done|]. simpl length.
      destruct (_ <? usize_max)%N; [|done].
      by rewrite (proj2 (N.leb_gt _ _)), andb_false_r by lia.
    - case_match; [|by eexists]. exists l. split; [by apply suffix_cons_r|done]. }
  simpl. eexists _, l, _. split; [done|]. by split_and!.
Qed.

Lemma unrequested_None m l : unrequested m l = None ↔ l ⊆ am_permissions m.
Proof.
  unfold unrequested. rewrite find_b_None. split.
  - intros H' p Hp. specialize (H' p Hp). by rewrite negb_false_iff, bool_decide_eq_true in H'.
  - intros H' p Hp. rewrite negb_false_iff, bool_decide_eq_true. auto.
Qed.

#[export] Instance permission_le_total : Total permission_le.
Proof. intros p q. unfold permission_le. apply total. apply _. Qed.
#[export] Instance permission_le_trans : Transitive permission_le.
Proof. intros p q r. unfold permission_le. apply transitivity. Qed.

(** What the gate makes of a consent record. *)
Lemma gate_allows consent app c :
  gv_allowed (gate_evaluate consent app c) = true ↔
  app = acr_app_id consent ∧
  ∀ p, app_permission_for_capability c = Some p → p ∈ acr_granted consent.
Proof.
  unfold gate_evaluate. destruct (String.eqb_spec app (acr_app_id consent)) as [->|]; simpl;
    [|naive_solver].
  destruct (app_permission_for_capability c) as [p|]; simpl; [|naive_solver].
  unfold consent_grants. case_bool_decide; simpl; naive_solver.
Qed.

(** What the installer decides and what the gate then allows. *)
Definition consent_enforced (m : AppManifest) (user_consent : list AppPermission) (now : N)
    (d : AppInstallDecision) : Prop :=
  aid_manifest d = m ∧ aid_plan d = sandbox_plan_for_app m ∧
  acr_app_id (aid_consent d) = am_app_id m ∧
  acr_publisher_key_id (aid_consent d) = am_publisher_key_id m ∧
  acr_granted_at_ms (aid_consent d) = now ∧ acr_version (aid_consent d) = 1%N ∧
  acr_granted (aid_consent d) ≡ₚ user_consent ∧
  Sorted permission_le (acr_granted (aid_consent d)) ∧
  (∀ p, p ∈ aid_refused d ↔ p ∈ am_permissions m ∧ p ∉ user_consent) ∧
  ∀ app c, gv_allowed (gate_evaluate (aid_consent d) app c) = true ↔
    app = am_app_id m ∧ ∀ p, app_permission_for_capability c = Some p → p ∈ user_consent.

Lemma elem_of_refused m l p :
  p ∈ refused_permissions m l ↔ p ∈ am_permissions m ∧ p ∉ l.
Proof.
  unfold refused_permissions.
  by rewrite list_elem_of_In, filter_In, negb_true_iff, bool_decide_eq_false, <-list_elem_of_In.
Qed.

Lemma install_decides m l now chain :
  max_entries (ac_retention chain) ≠ 0%N →
  ∃ chain' r, AppInstaller_install m l now chain = Some (chain', r) ∧
    match r with
    | Err _ => chain' = chain ∧ ¬ (manifest_valid m ∧ l ⊆ am_permissions m)
    | Ok d =>
        manifest_valid m ∧ l ⊆ am_permissions m ∧ consent_enforced m l now d ∧
        ac_retention chain' = ac_retention chain ∧
        ∃ k e, ac_entries chain' = k ++ [e] ∧ suffix k (ac_entries chain) ∧
          ae_event e = "app.install" ∧
          ae_detail e = install_detail (aid_consent d) (aid_refused d) (aid_plan d)
    end.
Proof.
  intros Hm. unfold AppInstaller_install.
  destruct (AppManifest_validate m) as [[]|] eqn:Hv.
  2:{ eexists _, _. split; [done|]. split; [done|]. intros [Hv' _].
      apply manifest_validate_exact in Hv'. congruence. }
  apply manifest_validate_exact in Hv. destruct (unrequested m l) as [p|] eqn:Hu.
  { eexists _, _. split; [done|]. split; [done|]. intros [_ Hl%unrequested_None]. congruence. }
  apply unrequested_None in Hu. edestruct record_total as (chain' & k & i & -> & Hr & He & Hs);
    [done|].
  simpl. eexists _, _. split; [done|]. split_and!; [done..| |done|].
  - split_and!; simpl; try done.
    + apply merge_sort_Permutation.
    + apply (Sorted_merge_sort permission_le).
    + apply elem_of_refused.
    + intros app c. rewrite gate_allows. simpl. unfold sort_permissions.
      by setoid_rewrite merge_sort_Permutation.
  - exists k. eexists. split; [exact He|]. by split_and!.
Qed.

(** On an audit chain with room for an entry the installer returns: it
    refuses exactly the invalid manifests and the grants the manifest does not
    request, leaving the chain as it was.  Otherwise it appends one entry with
    the decision, and from then on the gate built on the consent record allows
    a capability exactly to this app and only when the user granted the
    permission that guards it, if any does; what was requested and not granted
    is reported as refused, and a permission guards exactly the capability it
    maps to. *)
Theorem install_consent_enforced m l now chain :
  max_entries (ac_retention chain) ≠ 0%N →
  (∃ chain' r, AppInstaller_install m l now chain = Some (chain', r) ∧
    match r with
    | Err _ => chain' = chain ∧ ¬ (manifest_valid m ∧ l ⊆ am_permissions m)
    | Ok d =>
        manifest_valid m ∧ l ⊆ am_permissions m ∧ consent_enforced m l now d ∧
        ac_retention chain' = ac_retention chain ∧
        ∃ k e, ac_entries chain' = k ++ [e] ∧ suffix k (ac_entries chain) ∧
          ae_event e = "app.install" ∧
          ae_detail e = install_detail (aid_consent d) (aid_refused d) (aid_plan d)
    end) ∧
  ∀ c p, app_permission_for_capability c = Some p ↔
    cap_domain c = cap_domain (app_permission_capability p) ∧
    cap_name c = cap_name (app_permission_capability p).
Proof. intros Hm. split; [by apply install_decides|]. apply permission_of_capability. Qed.
End consent.

Lemma install_consent_enforced_witness :
  let m := example_manifest "com.example.app" "key" [NetworkEgress; Camera] in
  (∃ chain' r, AppInstaller_install (H := toy_digest) m [Camera] 5 AuditChain_default =
      Some (chain', r) ∧
    match r with
    | Err _ => chain' = AuditChain_default ∧ ¬ (manifest_valid m ∧ [Camera] ⊆ am_permissions m)
    | Ok d =>
        manifest_valid m ∧ [Camera] ⊆ am_permissions m ∧ consent_enforced m [Camera] 5 d ∧
        ac_retention chain' = ac_retention AuditChain_default ∧
        ∃ k e, ac_entries chain' = k ++ [e] ∧ suffix k (ac_entries AuditChain_default) ∧
          ae_event e = "app.install" ∧
          ae_detail e = install_detail (aid_consent d) (aid_refused d) (aid_plan d)
    end) ∧
  ∀ c p, app_permission_for_capability c = Some p ↔
    cap_domain c = cap_domain (app_permission_capability p) ∧
    cap_name c = cap_name (app_permission_capability p).
Proof. apply (install_consent_enforced (H := toy_digest)). done. Defined.
