(* ===== verification/AppStore.v ===== *)
(** * The application store

    Models system/aether-store/src: the trusted-publisher registry
    (registry.rs), the trait [StoreFs] and its in-memory implementation
    (fs.rs) and the store itself (store.rs).  The trait [Launcher] and the
    trait [StoreFs] are classes; the JSON encoders and decoders of serde_json
    are the operations of [StoreJson].  [LocalFs], which forwards to std::fs,
    is not modelled: a file system is any instance of [StoreFs], and the
    theorems that need one to behave like a directory tree say so with
    [DirectoryLaws]. *)
From S2P Require Import Prelude RustStd Signing HashChain AuditChain CoreTypes DepGraph Sandbox Launcher Base64 Apps.
From Stdlib Require Import Ascii.
#[local] Open Scope nat_scope.

(** ** fs.rs *)

(** The trait [StoreFs]. *)
Class StoreFs (F : Type) := {
  fs_exists : string → F → bool;
  fs_read : string → F → result (list byte) string;
  fs_write : string → list byte → F → F * result unit string;
  fs_mkdir_all : string → F → F * result unit string;
  fs_list : string → F → result (list string) string;
}.

(** [MemoryFs]; its lock cannot be poisoned, since no method panics while it
    is held. *)
Record MemoryFs := mkMemoryFs { mem_files : gmap string (list byte) }.

Definition MemoryFs_new : MemoryFs := mkMemoryFs ∅.

(** The text after a prefix, [&p[prefix.len()..]] of a string that starts
    with it. *)
Definition strip_prefix (prefix p : string) : option string :=
  if String.prefix prefix p
  then Some (String.substring (String.length prefix) (String.length p - String.length prefix) p)
  else None.

(** The directory entry a stored path has below [prefix]. *)
Definition entry_below (prefix p : string) : option string :=
  rest ← strip_prefix prefix p; head (str_split "/" rest).

Definition MemoryFs_list (path : string) (f : MemoryFs) : result (list string) string :=
  Ok (dedup_by id (merge_sort String.le
        (omap (entry_below (path +:+ "/")) (btree_keys (mem_files f))))).

#[export] Instance MemoryFs_fs : StoreFs MemoryFs := {|
  fs_exists path f := bool_decide (is_Some (mem_files f !! path));
  fs_read path f :=
    match mem_files f !! path with
    | Some b => Ok b
    | None => Err ("no such file: " +:+ path)
    end;
  fs_write path bytes f := (mkMemoryFs (<[path := bytes]> (mem_files f)), Ok tt);
  fs_mkdir_all _ f := (f, Ok tt);
  fs_list := MemoryFs_list;
|}.

(** ** registry.rs *)

Definition TRUST_FILE : string := "trust.json".

Record PublisherTrust := mkPublisherTrust {
  pt_fingerprint : string;
  pt_display_name : option string;
  pt_notes : option string;
}.

Definition PublisherTrust_new (fp : string) : PublisherTrust := mkPublisherTrust fp None None.
Definition with_display_name (n : string) (p : PublisherTrust) : PublisherTrust :=
  mkPublisherTrust (pt_fingerprint p) (Some n) (pt_notes p).
Definition with_notes (n : string) (p : PublisherTrust) : PublisherTrust :=
  mkPublisherTrust (pt_fingerprint p) (pt_display_name p) (Some n).

Record TrustedPublisherRegistry := mkRegistry { publishers : list PublisherTrust }.

Definition Registry_empty : TrustedPublisherRegistry := mkRegistry [].

Definition from_publishers (l : list PublisherTrust) : TrustedPublisherRegistry :=
  mkRegistry (dedup_by pt_fingerprint (sort_by pt_fingerprint l)).

Definition registry_contains (r : TrustedPublisherRegistry) (fp : string) : bool :=
  existsb (λ p, (pt_fingerprint p =? fp)%string) (publishers r).

Definition publisher_get (r : TrustedPublisherRegistry) (fp : string) : option PublisherTrust :=
  find_b (λ p, (pt_fingerprint p =? fp)%string) (publishers r).

Definition registry_add (p : PublisherTrust) (r : TrustedPublisherRegistry) :
    TrustedPublisherRegistry :=
  mkRegistry (dedup_by pt_fingerprint (sort_by pt_fingerprint (publishers r ++ [p]))).

Definition registry_remove (fp : string) (r : TrustedPublisherRegistry) :
    TrustedPublisherRegistry * bool :=
  let l := List.filter (λ p, negb (pt_fingerprint p =? fp)%string) (publishers r) in
  (mkRegistry l, negb (length l =? length (publishers r))%nat).

(** ** store.rs: data *)

Inductive StoreError :=
| TrustRegistryMissing
| UntrustedPublisher (fingerprint : string)
| BadSignature (s : string)
| BadManifest (s : string)
| UnrequestedGrant (s : string)
| AlreadyInstalled (app_id : string)
| NotInstalled (app_id : string)
| ConsentMismatch (s : string)
| Persistence (s : string)
| LaunchFailed (s : string).

Definition StoreError_display (e : StoreError) : string :=
  match e with
  | TrustRegistryMissing => "trusted-publisher registry is not loaded"
  | UntrustedPublisher fp => "publisher '" +:+ fp +:+ "' is not in the trusted-publisher registry"
  | BadSignature s => "signature did not verify: " +:+ s
  | BadManifest s => "manifest is invalid: " +:+ s
  | UnrequestedGrant s => "user grant not requested by the manifest: " +:+ s
  | AlreadyInstalled id => "app '" +:+ id +:+ "' is already installed"
  | NotInstalled id => "app '" +:+ id +:+ "' is not installed"
  | ConsentMismatch s => "consent record does not match package: " +:+ s
  | Persistence s => "persistence failure: " +:+ s
  | LaunchFailed s => "launcher refused: " +:+ s
  end.

Inductive UntrustedReason :=
| UnknownPublisher (fingerprint : string)
| UntrustedBadSignature (fingerprint : string).

Record AppInstallRecord := mkAppInstallRecord {
  air_app_id : string;
  air_version : string;
  air_publisher_key_id : string;
  air_installed_at_ms : N;
  air_manifest_digest_hex : string;
  air_granted : list AppPermission;
  air_refused : list AppPermission;
  air_plan_digest_hex : string;
  air_seccomp_filter : string;
  air_cgroup_slice : string;
  air_receipt_version : N;
}.

Record InstalledApp := mkInstalledApp {
  ia_record : AppInstallRecord;
  ia_manifest : AppManifest;
  ia_consent : AppConsentRecord;
}.

(** [LaunchOutcome] of store.rs. *)
Record StoreLaunchOutcome := mkStoreLaunchOutcome {
  slo_app_id : string;
  slo_instance_id : N;
  slo_seccomp_filter : string;
  slo_cgroup_slice : string;
  slo_plan_digest_hex : string;
  slo_started_at_unix_s : N;
}.

(** The trait [Launcher]. *)
Class AppLauncher (L : Type) :=
  app_launch : string → SandboxPlan → list byte → N → L → L * result StoreLaunchOutcome string.

(** serde_json on the types the store writes and reads. *)
Class StoreJson := {
  plan_to_vec : SandboxPlan → result (list byte) string;
  manifest_to_vec_pretty : AppManifest → result (list byte) string;
  consent_to_vec_pretty : AppConsentRecord → result (list byte) string;
  record_to_vec_pretty : AppInstallRecord → result (list byte) string;
  trust_to_vec_pretty : TrustedPublisherRegistry → result (list byte) string;
  manifest_from_slice : list byte → result AppManifest string;
  consent_from_slice : list byte → result AppConsentRecord string;
  record_from_slice : list byte → result AppInstallRecord string;
  trust_from_slice : list byte → result TrustedPublisherRegistry string;
}.

Record Store {F L : Type} := mkStore {
  st_fs : F;
  st_launcher : L;
  st_trust : option TrustedPublisherRegistry;
  st_audit : AuditChain;
  st_installed : gmap string InstalledApp;
  st_next_instance : N;
  st_payloads : gmap string (list byte);
}.
Arguments Store : clear implicits.

(** [s.contains(pat)]. *)
Definition str_contains (pat s : string) : bool :=
  match String.index 0 pat s with Some _ => true | None => false end.

Definition is_base64_char (c : ascii) : bool :=
  is_ascii_alphanumeric c || Ascii.eqb c "+" || Ascii.eqb c "/" || Ascii.eqb c "=".

(** The [map_err] of [install_signed] on the text of the installer. *)
Definition installer_error (e : string) : StoreError :=
  if str_contains "schema_version" e || str_contains "app_id" e || str_contains "publisher" e
  then BadManifest e
  else if str_contains "did not request" e then UnrequestedGrant e
  else BadManifest e.

Section store.
Context {F L : Type} `{!StoreFs F} `{!AppLauncher L} {SJ : StoreJson} {AJ : AppJson} {D : Digest}
  {C : Crypto}.
#[local] Abbreviation Store := (Store F L).
Implicit Types (s : Store) (p : AppPackage).

(** [TrustedPublisherRegistry::load] and [save]. *)
Definition registry_load (f : F) : result TrustedPublisherRegistry string :=
  if negb (fs_exists TRUST_FILE f) then Ok Registry_empty
  else match fs_read TRUST_FILE f with
       | Err e => Err e
       | Ok bytes => map_err (λ e, "parse trust.json: " +:+ e) (trust_from_slice bytes)
       end.

Definition registry_save (r : TrustedPublisherRegistry) (f : F) : F * result unit string :=
  match trust_to_vec_pretty r with
  | Err e => (f, Err ("encode trust: " +:+ e))
  | Ok json => fs_write TRUST_FILE json f
  end.

Definition set_fs (f : F) s : Store :=
  mkStore _ _ f (st_launcher s) (st_trust s) (st_audit s) (st_installed s) (st_next_instance s)
    (st_payloads s).
Definition set_audit (a : AuditChain) s : Store :=
  mkStore _ _ (st_fs s) (st_launcher s) (st_trust s) a (st_installed s) (st_next_instance s)
    (st_payloads s).
Definition set_trust_registry (t : option TrustedPublisherRegistry) s : Store :=
  mkStore _ _ (st_fs s) (st_launcher s) t (st_audit s) (st_installed s) (st_next_instance s)
    (st_payloads s).
Definition set_apps (m : gmap string InstalledApp) (q : gmap string (list byte)) s : Store :=
  mkStore _ _ (st_fs s) (st_launcher s) (st_trust s) (st_audit s) m (st_next_instance s) q.
Definition set_launcher (l : L) (n : N) s : Store :=
  mkStore _ _ (st_fs s) l (st_trust s) (st_audit s) (st_installed s) n (st_payloads s).

(** The three files of one entry, read back; [None] is each [continue] of the
    loop of [rehydrate_installs]. *)
Definition load_entry (f : F) (entry : string) : option InstalledApp :=
  if negb (fs_exists (entry +:+ "/install.json") f) then None
  else
    match fs_read (entry +:+ "/install.json") f, fs_read (entry +:+ "/manifest.json") f,
          fs_read (entry +:+ "/consent.json") f with
    | Ok install_bytes, Ok manifest_bytes, Ok consent_bytes =>
        match record_from_slice install_bytes, manifest_from_slice manifest_bytes,
              consent_from_slice consent_bytes with
        | Ok record, Ok manifest, Ok consent => Some (mkInstalledApp record manifest consent)
        | _, _, _ => None
        end
    | _, _, _ => None
    end.

Fixpoint rehydrate_entries (f : F) (entries : list string) (m : gmap string InstalledApp) :
    gmap string InstalledApp :=
  match entries with
  | [] => m
  | e :: entries =>
      rehydrate_entries f entries
        (match load_entry f e with
         | Some a => <[air_app_id (ia_record a) := a]> m
         | None => m
         end)
  end.

Definition rehydrate_installs s : Store :=
  match fs_list "." (st_fs s) with
  | Err _ => s
  | Ok entries =>
      set_apps (rehydrate_entries (st_fs s) entries (st_installed s)) (st_payloads s) s
  end.

Definition Store_new (f : F) (l : L) : Store :=
  let s := mkStore _ _ f l None AuditChain_default ∅ 0 ∅ in
  let s := set_trust_registry
             (match registry_load f with Ok t => Some t | Err _ => None end) s in
  rehydrate_installs s.

(** The operations below return [None] where the source panics: in
    [AuditChain::record], and in the increment of [next_instance]. *)
Definition record_event (now_ms : N) (event detail : string) s : option Store :=
  '(a, _) ← AuditChain_record now_ms event "aether-store" detail (st_audit s);
  Some (set_audit a s).

Definition set_trust (trust : TrustedPublisherRegistry) (now_ms : N) s :
    option (Store * result unit StoreError) :=
  match registry_save trust (st_fs s) with
  | (f, Err e) => Some (set_fs f s, Err (Persistence e))
  | (f, Ok _) =>
      s ← record_event now_ms "store.trust.replace"
            ("publishers=" +:+ pretty (N.of_nat (length (publishers trust)))) (set_fs f s);
      Some (set_trust_registry (Some trust) s, Ok tt)
  end.

Definition installed_apps s : list InstalledApp :=
  sort_by (λ a, air_app_id (ia_record a)) (btree_values (st_installed s)).

Definition is_installed s (app_id : string) : bool :=
  bool_decide (is_Some (st_installed s !! app_id)).

Definition check_trust s p : result unit UntrustedReason :=
  let fingerprint := am_publisher_key_id (pkg_manifest p) in
  match st_trust s with
  | None => Err (UnknownPublisher fingerprint)
  | Some trust =>
      if negb (registry_contains trust fingerprint) then Err (UnknownPublisher fingerprint)
      else if negb (String.length (pkg_signature p) =? 88)%nat ||
              negb (str_all is_base64_char (pkg_signature p))
        then Err (UntrustedBadSignature fingerprint)
      else Ok tt
  end.

Definition verify_signature (signature_error : string) p (key : VerifyingKey) :
    result unit string :=
  match verify_with_key signature_error
          (mkAppPackageVerifier [am_publisher_key_id (pkg_manifest p)]) p key with
  | Ok _ => Ok tt
  | Err e => Err e
  end.

(** The write of one file of [persist_install]. *)
Definition persist_file (what path : string) (json : result (list byte) string) (f : F) :
    F * result unit string :=
  match json with
  | Err e => (f, Err ("encode " +:+ what +:+ ": " +:+ e))
  | Ok bytes => fs_write path bytes f
  end.

Definition persist_install p (d : AppInstallDecision) (r : AppInstallRecord) (f : F) :
    F * result unit string :=
  let app_id := air_app_id r in
  match fs_mkdir_all app_id f with
  | (f, Err e) => (f, Err e)
  | (f, Ok _) =>
      match persist_file "manifest" (app_id +:+ "/manifest.json")
              (manifest_to_vec_pretty (pkg_manifest p)) f with
      | (f, Err e) => (f, Err e)
      | (f, Ok _) =>
          match persist_file "consent" (app_id +:+ "/consent.json")
                  (consent_to_vec_pretty (aid_consent d)) f with
          | (f, Err e) => (f, Err e)
          | (f, Ok _) =>
              persist_file "install" (app_id +:+ "/install.json") (record_to_vec_pretty r) f
          end
      end
  end.

Definition sha256_hex (bytes : list byte) : string := hex_of_bytes (sha256 bytes).

(** Step 6 of [install_signed]. *)
Definition build_record p (user_consent : list AppPermission) (now_ms : N)
    (d : AppInstallDecision) (manifest_bytes plan_json : list byte) : AppInstallRecord :=
  let m := pkg_manifest p in
  mkAppInstallRecord (am_app_id m) (am_version m) (am_publisher_key_id m) now_ms
    (sha256_hex manifest_bytes) (acr_granted (aid_consent d))
    (refused_permissions m user_consent) (sha256_hex plan_json)
    (from_option tag_str EmptyString (sp_seccomp (aid_plan d)))
    (cgroup_slice (sp_resources (aid_plan d))) 1.

Definition install_signed p (user_consent : list AppPermission) (now_ms : N) s :
    option (Store * result AppInstallDecision StoreError) :=
  let m := pkg_manifest p in
  match AppManifest_validate m with
  | Err e => Some (s, Err (BadManifest e))
  | Ok _ =>
  match st_trust s with
  | None => Some (s, Err TrustRegistryMissing)
  | Some trust =>
  if negb (registry_contains trust (am_publisher_key_id m)) then
    Some (s, Err (UntrustedPublisher (am_publisher_key_id m)))
  else match unrequested m user_consent with
  | Some g => Some (s, Err (UnrequestedGrant (AppPermission_as_str g)))
  | None =>
  if is_installed s (am_app_id m) then Some (s, Err (AlreadyInstalled (am_app_id m)))
  else
    '(a, r) ← AppInstaller_install m user_consent now_ms (st_audit s);
    let s := set_audit a s in
    match r with
    | Err e => Some (s, Err (installer_error e))
    | Ok d =>
        match plan_to_vec (aid_plan d) with
        | Err e => Some (s, Err (Persistence ("encode plan: " +:+ e)))
        | Ok plan_json =>
            match app_manifest_bytes p with
            | Err e => Some (s, Err (Persistence ("encode manifest: " +:+ e)))
            | Ok manifest_bytes =>
                let record := build_record p user_consent now_ms d manifest_bytes plan_json in
                match persist_install p d record (st_fs s) with
                | (f, Err e) => Some (set_fs f s, Err (Persistence e))
                | (f, Ok _) =>
                    s ← record_event now_ms "store.install"
                          ("version=" +:+ pretty (air_receipt_version record) +:+
                           " plan_digest=" +:+ air_plan_digest_hex record) (set_fs f s);
                    Some (set_apps
                            (<[am_app_id m := mkInstalledApp record m (aid_consent d)]>
                               (st_installed s))
                            (<[am_app_id m := pkg_payload p]> (st_payloads s)) s, Ok d)
                end
            end
        end
    end
  end end end.

Definition launch (app_id : string) (now_ms : N) s :
    option (Store * result StoreLaunchOutcome StoreError) :=
  match st_installed s !! app_id with
  | None => Some (s, Err (NotInstalled app_id))
  | Some installed =>
      match st_payloads s !! app_id with
      | None => Some (s, Err (Persistence ("no cached payload for " +:+ app_id)))
      | Some payload =>
          let pkg := mkAppPackage (ia_manifest installed) EmptyString payload in
          match verify_consent_for_package (ia_consent installed) pkg with
          | Err e => Some (s, Err (ConsentMismatch e))
          | Ok _ =>
              let plan := sandbox_plan_for_app (ia_manifest installed) in
              match app_launch app_id plan payload (now_ms / 1000) (st_launcher s) with
              | (l, Err e) => Some (set_launcher l (st_next_instance s) s, Err (LaunchFailed e))
              | (l, Ok outcome) =>
                  if (st_next_instance s =? u64_max)%N then None
                  else
                    let instance_id := (st_next_instance s + 1)%N in
                    s ← record_event now_ms "store.launch"
                          ("version=" +:+ pretty (air_receipt_version (ia_record installed)) +:+
                           " instance_id=" +:+ pretty instance_id +:+ " plan_digest=" +:+
                           air_plan_digest_hex (ia_record installed))
                          (set_launcher l instance_id s);
                    Some (s, Ok (mkStoreLaunchOutcome app_id instance_id
                                   (slo_seccomp_filter outcome) (slo_cgroup_slice outcome)
                                   (slo_plan_digest_hex outcome) (slo_started_at_unix_s outcome)))
              end
          end
      end
  end.

Definition uninstall (app_id : string) (now_ms : N) s :
    option (Store * result unit StoreError) :=
  if negb (is_installed s app_id) then Some (s, Err (NotInstalled app_id))
  else
    s ← record_event now_ms "store.uninstall" app_id
          (set_apps (delete app_id (st_installed s)) (delete app_id (st_payloads s)) s);
    Some (s, Ok tt).
End store.

(** * Properties of the application store

    The registry of trusted publishers refines a map; the store refines an
    abstract store that keeps, for each app, the package last installed; what
    a restart restores. *)

#[local] Open Scope nat_scope.

(** ** The registry refines a map *)

(** The operations on a registry, and on the map it stands for. *)
Inductive trust_op := TrustAdd (p : PublisherTrust) | TrustRemove (fp : string).

Definition trust_step (r : TrustedPublisherRegistry) (o : trust_op) : TrustedPublisherRegistry :=
  match o with TrustAdd p => registry_add p r | TrustRemove fp => (registry_remove fp r).1 end.

Definition trust_map_step (m : gmap string PublisherTrust) (o : trust_op) :
    gmap string PublisherTrust :=
  match o with
  | TrustAdd p => m ∪ {[pt_fingerprint p := p]}
  | TrustRemove fp => delete fp m
  end.

Definition registry_refines (r : TrustedPublisherRegistry) (m : gmap string PublisherTrust) :
    Prop :=
  StronglySorted (key_lt pt_fingerprint) (publishers r) ∧ ∀ fp, publisher_get r fp = m !! fp.

Lemma publisher_get_key r fp :
  publisher_get r fp = find_b (key_is pt_fingerprint fp) (publishers r).
Proof. done. Qed.

Lemma find_filter_key fp fp' l :
  find_b (λ p, (pt_fingerprint p =? fp')%string)
    (List.filter (λ p, negb (pt_fingerprint p =? fp)%string) l) =
  if decide (fp = fp') then None else find_b (λ p, (pt_fingerprint p =? fp')%string) l.
Proof.
  induction l as [|p l IH]; simpl; [by case_decide|].
  destruct (String.eqb_spec (pt_fingerprint p) fp) as [E|E]; simpl; rewrite IH.
  - case_decide; [done|]. by rewrite (proj2 (String.eqb_neq _ _)) by congruence.
  - destruct (String.eqb_spec (pt_fingerprint p) fp'); case_decide; congruence.
Qed.

Lemma StronglySorted_filter_bool {A} (R : A → A → Prop) (q : A → bool) l :
  StronglySorted R l → StronglySorted R (List.filter q l).
Proof.
  induction 1 as [|x l Hl IH Hx]; simpl; [constructor|]. destruct (q x); [|done].
  constructor; [done|]. rewrite Forall_forall in *. intros y [Hy _]%list_elem_of_In%filter_In.
  by apply Hx, list_elem_of_In.
Qed.

Lemma from_publishers_refines l :
  registry_refines (from_publishers l) (list_to_map ((λ p, (pt_fingerprint p, p)) <$> l)).
Proof.
  split; [apply dedup_by_sorted, sort_by_sorted|]. intros fp.
  rewrite publisher_get_key. simpl publishers. rewrite find_dedup_by, find_sort_by.
  induction l as [|p l IH]; [done|]. simpl. unfold key_is at 1.
  destruct (String.eqb_spec (pt_fingerprint p) fp) as [<-|].
  - by rewrite lookup_insert_eq.
  - by rewrite lookup_insert_ne.
Qed.

Lemma trust_step_refines r m o :
  registry_refines r m → registry_refines (trust_step r o) (trust_map_step m o).
Proof.
  intros [Hs Hm]. destruct o as [p|fp]; split; simpl.
  - apply dedup_by_sorted, sort_by_sorted.
  - intros fp. rewrite publisher_get_key. simpl publishers.
    rewrite find_dedup_by, find_sort_by, find_b_app, <-publisher_get_key, Hm, lookup_union.
    cbn [find_b]. unfold key_is.
    destruct (String.eqb_spec (pt_fingerprint p) fp) as [<-|].
    + rewrite lookup_singleton_eq. by destruct (m !! _).
    + rewrite lookup_singleton_ne by done. by destruct (m !! _).
  - by apply StronglySorted_filter_bool.
  - intros fp'. unfold publisher_get in *. simpl. rewrite find_filter_key, Hm.
    case_decide; subst; [by rewrite lookup_delete_eq|by rewrite lookup_delete_ne].
Qed.

Lemma contains_refines r m fp :
  registry_refines r m → registry_contains r fp = bool_decide (is_Some (m !! fp)).
Proof.
  intros [_ Hm]. rewrite <-Hm. unfold registry_contains, publisher_get.
  induction (publishers r) as [|p l IH]; [done|]. simpl.
  by destruct (pt_fingerprint p =? fp)%string.
Qed.

(** The registry of trusted publishers behaves as a map from fingerprints:
    built from any list and changed by any additions and removals, lookups
    give what the map gives, where the first record of a fingerprint wins (an
    addition does not replace), and the records are kept strictly sorted by
    fingerprint, without duplicates. *)
Theorem trust_registry_refines_map l ops fp :
  let r := foldl trust_step (from_publishers l) ops in
  let m := foldl trust_map_step (list_to_map ((λ p, (pt_fingerprint p, p)) <$> l)) ops in
  publisher_get r fp = m !! fp ∧ registry_contains r fp = bool_decide (is_Some (m !! fp)) ∧
  StronglySorted (key_lt pt_fingerprint) (publishers r).
Proof.
  assert (registry_refines (foldl trust_step (from_publishers l) ops)
    (foldl trust_map_step (list_to_map ((λ p, (pt_fingerprint p, p)) <$> l)) ops)) as H.
  { pose proof (from_publishers_refines l) as H. revert H.
    generalize (from_publishers l), (list_to_map (M := gmap string _)
      ((λ p, (pt_fingerprint p, p)) <$> l)).
    induction ops as [|o ops IH]; intros r m H; [done|]. apply IH. by apply trust_step_refines. }
  split_and!; [apply H|by apply contains_refines|apply H].
Qed.

(** ** The store refines an abstract store *)

Inductive store_op :=
| OpSetTrust (t : TrustedPublisherRegistry) (now_ms : N)
| OpInstall (p : AppPackage) (user_consent : list AppPermission) (now_ms : N)
| OpLaunch (app_id : string) (now_ms : N)
| OpUninstall (app_id : string) (now_ms : N).

Inductive store_resp :=
| RsTrust (r : result unit StoreError)
| RsInstall (r : result AppInstallDecision StoreError)
| RsLaunch (r : result StoreLaunchOutcome StoreError)
| RsUninstall (r : result unit StoreError).

(** The abstract store: the trusted publishers, the package and the grants of
    each installed app, the launcher and the number of launches. *)
Record abs_store {L : Type} := mkAbsStore {
  ab_trust : option TrustedPublisherRegistry;
  ab_apps : gmap string (AppPackage * list AppPermission);
  ab_launcher : L;
  ab_launches : N;
}.
Arguments abs_store : clear implicits.
Arguments mkAbsStore {L}.

Section refinement.
Context {F L : Type} `{!StoreFs F} `{!AppLauncher L} {SJ : StoreJson} {AJ : AppJson} {D : Digest}
  {C : Crypto}.
Implicit Types (s : Store F L) (a : abs_store L).

Definition store_step (o : store_op) s : option (Store F L * store_resp) :=
  match o with
  | OpSetTrust t now => '(s, r) ← set_trust t now s; Some (s, RsTrust r)
  | OpInstall p l now => '(s, r) ← install_signed p l now s; Some (s, RsInstall r)
  | OpLaunch id now => '(s, r) ← launch id now s; Some (s, RsLaunch r)
  | OpUninstall id now => '(s, r) ← uninstall id now s; Some (s, RsUninstall r)
  end.

Fixpoint store_run (ops : list store_op) s : option (Store F L * list store_resp) :=
  match ops with
  | [] => Some (s, [])
  | o :: ops =>
      '(s, r) ← store_step o s;
      '(s, rs) ← store_run ops s;
      Some (s, r :: rs)
  end.

Definition trusted_by a (p : AppPackage) : Prop :=
  ∃ t, ab_trust a = Some t ∧
    registry_contains t (am_publisher_key_id (pkg_manifest p)) = true.

(** What an install asks for before anything is written. *)
Definition installable a (p : AppPackage) (l : list AppPermission) : Prop :=
  manifest_valid (pkg_manifest p) ∧ trusted_by a p ∧ l ⊆ am_permissions (pkg_manifest p) ∧
  ab_apps a !! am_app_id (pkg_manifest p) = None.

(** The error of an install that is refused, in the order of the checks. *)
Inductive install_refusal a (p : AppPackage) (l : list AppPermission) : StoreError → Prop :=
| refuse_manifest e :
    ¬ manifest_valid (pkg_manifest p) → install_refusal a p l (BadManifest e)
| refuse_no_registry :
    manifest_valid (pkg_manifest p) → ab_trust a = None →
    install_refusal a p l TrustRegistryMissing
| refuse_publisher :
    manifest_valid (pkg_manifest p) → is_Some (ab_trust a) → ¬ trusted_by a p →
    install_refusal a p l (UntrustedPublisher (am_publisher_key_id (pkg_manifest p)))
| refuse_grant g :
    manifest_valid (pkg_manifest p) → trusted_by a p →
    g ∈ l → g ∉ am_permissions (pkg_manifest p) →
    install_refusal a p l (UnrequestedGrant (AppPermission_as_str g))
| refuse_installed :
    manifest_valid (pkg_manifest p) → trusted_by a p → l ⊆ am_permissions (pkg_manifest p) →
    is_Some (ab_apps a !! am_app_id (pkg_manifest p)) →
    install_refusal a p l (AlreadyInstalled (am_app_id (pkg_manifest p))).

(** The steps of the abstract store.  A launch hands the launcher the payload
    of the installed package and the plan of its manifest. *)
Inductive abs_step : store_op → store_resp → abs_store L → abs_store L → Prop :=
| abs_trust t now a :
    abs_step (OpSetTrust t now) (RsTrust (Ok tt)) a
      (mkAbsStore (Some t) (ab_apps a) (ab_launcher a) (ab_launches a))
| abs_trust_io t now e a :
    abs_step (OpSetTrust t now) (RsTrust (Err (Persistence e))) a a
| abs_install p l now d a :
    installable a p l → consent_enforced (pkg_manifest p) l now d →
    abs_step (OpInstall p l now) (RsInstall (Ok d)) a
      (mkAbsStore (ab_trust a) (<[am_app_id (pkg_manifest p) := (p, l)]> (ab_apps a))
         (ab_launcher a) (ab_launches a))
| abs_install_io p l now e a :
    installable a p l →
    abs_step (OpInstall p l now) (RsInstall (Err (Persistence e))) a a
| abs_install_refused p l now e a :
    install_refusal a p l e → abs_step (OpInstall p l now) (RsInstall (Err e)) a a
| abs_launch id now p l k o a :
    ab_apps a !! id = Some (p, l) →
    app_launch id (sandbox_plan_for_app (pkg_manifest p)) (pkg_payload p) (now / 1000)
      (ab_launcher a) = (k, Ok o) →
    abs_step (OpLaunch id now)
      (RsLaunch (Ok (mkStoreLaunchOutcome id (ab_launches a + 1) (slo_seccomp_filter o)
         (slo_cgroup_slice o) (slo_plan_digest_hex o) (slo_started_at_unix_s o)))) a
      (mkAbsStore (ab_trust a) (ab_apps a) k (ab_launches a + 1))
| abs_launch_failed id now p l k e a :
    ab_apps a !! id = Some (p, l) →
    app_launch id (sandbox_plan_for_app (pkg_manifest p)) (pkg_payload p) (now / 1000)
      (ab_launcher a) = (k, Err e) →
    abs_step (OpLaunch id now) (RsLaunch (Err (LaunchFailed e))) a
      (mkAbsStore (ab_trust a) (ab_apps a) k (ab_launches a))
| abs_launch_missing id now a :
    ab_apps a !! id = None →
    abs_step (OpLaunch id now) (RsLaunch (Err (NotInstalled id))) a a
| abs_uninstall id now a :
    is_Some (ab_apps a !! id) →
    abs_step (OpUninstall id now) (RsUninstall (Ok tt)) a
      (mkAbsStore (ab_trust a) (delete id (ab_apps a)) (ab_launcher a) (ab_launches a))
| abs_uninstall_missing id now a :
    ab_apps a !! id = None →
    abs_step (OpUninstall id now) (RsUninstall (Err (NotInstalled id))) a a.

Inductive abs_run : list store_op → list store_resp → abs_store L → abs_store L → Prop :=
| abs_run_nil a : abs_run [] [] a a
| abs_run_cons o r ops rs a1 a2 a3 :
    abs_step o r a1 a2 → abs_run ops rs a2 a3 → abs_run (o :: ops) (r :: rs) a1 a3.

(** One app of the abstract store in the concrete one. *)
Definition app_matches (id : string) (x : option (AppPackage * list AppPermission))
    (i : option InstalledApp) (payload : option (list byte)) : Prop :=
  match x with
  | Some (p, _) =>
      payload = Some (pkg_payload p) ∧ am_app_id (pkg_manifest p) = id ∧
      ∃ i', i = Some i' ∧ ia_manifest i' = pkg_manifest p ∧ acr_app_id (ia_consent i') = id ∧
        acr_publisher_key_id (ia_consent i') = am_publisher_key_id (pkg_manifest p)
  | None => i = None ∧ payload = None
  end.

Record store_refines a s : Prop := {
  sr_trust : ab_trust a = st_trust s;
  sr_launcher : ab_launcher a = st_launcher s;
  sr_launches : ab_launches a = st_next_instance s;
  sr_audit : max_entries (ac_retention (st_audit s)) ≠ 0%N;
  sr_apps id : app_matches id (ab_apps a !! id) (st_installed s !! id) (st_payloads s !! id);
}.

Lemma record_event_total now ev det s :
  max_entries (ac_retention (st_audit s)) ≠ 0%N →
  ∃ c, record_event now ev det s = Some (set_audit c s) ∧ max_entries (ac_retention c) ≠ 0%N.
Proof.
  intros Hm. destruct (record_total now ev "aether-store" det _ Hm) as (c & _ & i & E & Hr & _).
  unfold record_event. rewrite E. exists c. by rewrite Hr.
Qed.

(** The one simulation step all operations share. *)
Definition simulates (o : store_op) a s : Prop :=
  ∃ s' r a', store_step o s = Some (s', r) ∧ abs_step o r a a' ∧ store_refines a' s' ∧
    (ab_launches a' ≤ ab_launches a + 1)%N.

(** A step that leaves the abstract store as it is. *)
Ltac simulates_same a := eexists _, _, a; split; [done|]; split; [|split; [|lia]].

Lemma refines_set_fs a s f : store_refines a s → store_refines a (set_fs f s).
Proof. by intros []. Qed.

Lemma refines_set_audit a s c :
  max_entries (ac_retention c) ≠ 0%N → store_refines a s → store_refines a (set_audit c s).
Proof. by intros ? []. Qed.

Lemma set_trust_simulates t now a s : store_refines a s → simulates (OpSetTrust t now) a s.
Proof.
  intros Hr. unfold simulates, store_step, set_trust.
  destruct (registry_save t (st_fs s)) as [f [[]|e]].
  - destruct (record_event_total now "store.trust.replace"
      ("publishers=" +:+ pretty (N.of_nat (length (publishers t)))) (set_fs f s) (sr_audit _ _ Hr))
      as (c & -> & Hc). simpl. eexists _, _, _. split; [done|].
    split; [constructor|]. split; [|simpl; lia]. destruct Hr. by split.
  - simulates_same a; [constructor|by apply refines_set_fs].
Qed.

Lemma launch_simulates id now a s :
  store_refines a s → (ab_launches a < u64_max)%N → simulates (OpLaunch id now) a s.
Proof.
  intros Hr Hn. pose proof (sr_apps _ _ Hr id) as Ha.
  unfold simulates, store_step, launch.
  destruct (ab_apps a !! id) as [[p l]|] eqn:Hid; simpl in Ha.
  2:{ destruct Ha as [-> _]. by simulates_same a; [constructor|]. }
  destruct Ha as (Hpay & Hid' & i & -> & Hm & Hc & Hp). rewrite Hpay. unfold verify_consent_for_package. simpl.
  rewrite Hm, Hc, Hid', Hp, !String.eqb_refl. simpl. rewrite <-(sr_launcher _ _ Hr).
  destruct (app_launch _ _ _ _ (ab_launcher a)) as [k [o|e]] eqn:Hl.
  - rewrite <-(sr_launches _ _ Hr), (proj2 (N.eqb_neq _ _)) by lia.
    edestruct (record_event_total now "store.launch") as (c & -> & Hc');
      [|simpl; eexists _, _, _; split; [done|]; split; [by econstructor|]].
    { apply (sr_audit _ _ Hr). }
    split; [|simpl; lia]. destruct Hr. by split.
  - simpl. eexists _, _, _. split; [done|]. split; [by econstructor|].
    split; [|simpl; lia]. destruct Hr. by split.
Qed.

Lemma uninstall_simulates id now a s : store_refines a s → simulates (OpUninstall id now) a s.
Proof.
  intros Hr. pose proof (sr_apps _ _ Hr id) as Ha.
  unfold simulates, store_step, uninstall, is_installed.
  destruct (ab_apps a !! id) as [[p l]|] eqn:Hid; simpl in Ha.
  - destruct Ha as (_ & _ & i & Hi & _). rewrite Hi. simpl.
    edestruct (record_event_total now "store.uninstall" id) as (c & -> & Hc);
      [|simpl; eexists _, _, _; split; [done|]; split; [constructor; by rewrite Hid|]].
    { apply (sr_audit _ _ Hr). }
    split; [|simpl; lia]. destruct Hr as [? ? ? ? Happs]. split; try done. simpl. intros id'.
    destruct (decide (id = id')) as [<-|Hne].
    + by rewrite !lookup_delete_eq.
    + rewrite !lookup_delete_ne by done. apply Happs.
  - destruct Ha as [-> _]. by simulates_same a; [constructor|].
Qed.

Lemma installed_iff a s id :
  store_refines a s → is_installed s id = bool_decide (is_Some (ab_apps a !! id)).
Proof.
  intros Hr. unfold is_installed. apply bool_decide_ext. pose proof (sr_apps _ _ Hr id) as Ha.
  destruct (ab_apps a !! id) as [[p l]|]; simpl in Ha.
  - destruct Ha as (_ & _ & i & -> & _). by split; eexists.
  - by destruct Ha as [-> _].
Qed.

(** The checks of [install_signed] that precede its first change. *)
Definition install_check (p : AppPackage) (l : list AppPermission) s : option StoreError :=
  let m := pkg_manifest p in
  match AppManifest_validate m with
  | Err e => Some (BadManifest e)
  | Ok _ =>
      match st_trust s with
      | None => Some TrustRegistryMissing
      | Some t =>
          if negb (registry_contains t (am_publisher_key_id m))
          then Some (UntrustedPublisher (am_publisher_key_id m))
          else match unrequested m l with
               | Some g => Some (UnrequestedGrant (AppPermission_as_str g))
               | None => if is_installed s (am_app_id m)
                         then Some (AlreadyInstalled (am_app_id m)) else None
               end
      end
  end.

Lemma install_check_refused p l now s e :
  install_check p l s = Some e → install_signed p l now s = Some (s, Err e).
Proof.
  unfold install_check, install_signed. intros Hc. repeat case_match; by simplify_eq.
Qed.

Lemma install_check_refusal a s p l e :
  store_refines a s → install_check p l s = Some e → install_refusal a p l e.
Proof.
  intros Hr. unfold install_check.
  destruct (AppManifest_validate (pkg_manifest p)) as [[]|e'] eqn:Hv.
  2:{ intros [= <-]. constructor. intros Hm%manifest_validate_exact. congruence. }
  apply manifest_validate_exact in Hv. rewrite <-(sr_trust _ _ Hr).
  destruct (ab_trust a) as [t|] eqn:Ht; [|intros [= <-]; by constructor].
  destruct (registry_contains t _) eqn:Hc; simpl.
  2:{ intros [= <-]. constructor; [done|by rewrite Ht|]. intros (t' & ? & ?). congruence. }
  assert (trusted_by a p) as Htr by (exists t; done).
  destruct (unrequested (pkg_manifest p) l) as [g|] eqn:Hu.
  { intros [= <-]. unfold unrequested in Hu. apply find_b_Some in Hu as [Hi Hg]. rewrite negb_true_iff, bool_decide_eq_false in Hg.
    by constructor. }
  apply unrequested_None in Hu. rewrite (installed_iff a) by done. case_bool_decide; [|done].
  intros [= <-]. by constructor.
Qed.

Lemma install_check_passed a s p l :
  store_refines a s → install_check p l s = None → installable a p l.
Proof.
  intros Hr. unfold install_check.
  destruct (AppManifest_validate (pkg_manifest p)) as [[]|e'] eqn:Hv; [|done].
  apply manifest_validate_exact in Hv. rewrite <-(sr_trust _ _ Hr).
  destruct (ab_trust a) as [t|] eqn:Ht; [|done].
  destruct (registry_contains t _) eqn:Hc; simpl; [|done].
  destruct (unrequested (pkg_manifest p) l) as [g|] eqn:Hu; [done|].
  apply unrequested_None in Hu. rewrite (installed_iff a) by done. case_bool_decide as Hi; [done|].
  intros _. split_and!; [done|by exists t|done|]. by apply eq_None_not_Some.
Qed.

(** The rest of [install_signed], after the checks. *)
Lemma install_signed_passed p l now s :
  install_check p l s = None →
  install_signed p l now s =
    '(c, r) ← AppInstaller_install (pkg_manifest p) l now (st_audit s);
    match r with
    | Err e => Some (set_audit c s, Err (installer_error e))
    | Ok d =>
        match plan_to_vec (aid_plan d), app_manifest_bytes p with
        | Err e, _ => Some (set_audit c s, Err (Persistence ("encode plan: " +:+ e)))
        | _, Err e => Some (set_audit c s, Err (Persistence ("encode manifest: " +:+ e)))
        | Ok plan_json, Ok mb =>
            let r := build_record p l now d mb plan_json in
            match persist_install p d r (st_fs s) with
            | (f, Err e) => Some (set_fs f (set_audit c s), Err (Persistence e))
            | (f, Ok _) =>
                s ← record_event now "store.install"
                      ("version=" +:+ pretty (air_receipt_version r) +:+ " plan_digest=" +:+
                       air_plan_digest_hex r) (set_fs f (set_audit c s));
                Some (set_apps (<[am_app_id (pkg_manifest p) :=
                                   mkInstalledApp r (pkg_manifest p) (aid_consent d)]>
                                   (st_installed s))
                        (<[am_app_id (pkg_manifest p) := pkg_payload p]> (st_payloads s)) s, Ok d)
            end
        end
    end.
Proof.
  unfold install_check, install_signed. intros Hc.
  repeat match type of Hc with
  | context [match ?x with _ => _ end] => destruct x eqn:?; try done
  end.
Qed.

Lemma install_simulates p l now a s : store_refines a s → simulates (OpInstall p l now) a s.
Proof.
  intros Hr. unfold simulates, store_step. destruct (install_check p l s) as [e|] eqn:Hc.
  { rewrite (install_check_refused _ _ now _ _ Hc). simulates_same a; [|done].
    constructor. by eapply install_check_refusal. }
  rewrite install_signed_passed by done. apply (install_check_passed a) in Hc; [|done].
  destruct (install_decides (pkg_manifest p) l now (st_audit s) (sr_audit _ _ Hr))
    as (c & r & -> & Hi). simpl. destruct r as [d|e].
  2:{ destruct Hi as [_ []]. destruct Hc as (? & _ & ? & _). done. }
  destruct Hi as (_ & _ & Hd & Hret & _).
  assert (max_entries (ac_retention c) ≠ 0%N) as Hm by (rewrite Hret; apply (sr_audit _ _ Hr)).
  destruct (plan_to_vec (aid_plan d)) as [plan_json|e].
  2:{ simulates_same a; [by constructor|by apply refines_set_audit]. }
  destruct (app_manifest_bytes p) as [mb|e].
  2:{ simulates_same a; [by constructor|by apply refines_set_audit]. }
  cbn zeta. destruct (persist_install p d _ (st_fs s)) as [f [[]|e]].
  2:{ simulates_same a; [by constructor|by apply refines_set_fs, refines_set_audit]. }
  match goal with |- context [record_event ?n ?ev ?det ?s0] =>
    destruct (record_event_total n ev det s0 Hm) as (c' & -> & Hc') end.
  simpl. eexists _, _, _. split; [done|]. split; [by constructor|]. split; [|simpl; lia].
  destruct Hr as [? ? ? ? Happs]. split; try done. simpl. intros id.
  destruct (decide (am_app_id (pkg_manifest p) = id)) as [<-|Hne].
  - rewrite !lookup_insert_eq. simpl. split_and!; [done..|]. eexists. split; [done|]. simpl.
    destruct Hd as (_ & _ & Hid & Hpub & _). by split_and!.
  - rewrite !lookup_insert_ne by done. apply Happs.
Qed.

(** *** Any store, rehydrated ones included *)

(** An audit chain that keeps entries. *)
Definition keeps_entries s : Prop := max_entries (ac_retention (st_audit s)) ≠ 0%N.

Lemma record_event_keeps now ev det s s' : record_event now ev det s = Some s' → keeps_entries s → keeps_entries s'.
Proof. intros E Hk. destruct (record_event_total now ev det s Hk) as (c & E' & Hc). by simplify_eq. Qed.

Lemma install_audit_keeps m l now c c' r :
  AppInstaller_install m l now c = Some (c', r) →
  max_entries (ac_retention c) ≠ 0%N → max_entries (ac_retention c') ≠ 0%N.
Proof.
  intros E Hk. destruct (install_decides m l now c Hk) as (c2 & r2 & E2 & Hr). simplify_eq.
  destruct r as [d|e]; [|by destruct Hr as [-> _]]. by destruct Hr as (_ & _ & _ & -> & _).
Qed.

Lemma store_step_keeps o s s' r : store_step o s = Some (s', r) → keeps_entries s → keeps_entries s'.
Proof.
  intros Hs Hk. destruct o as [t now|p l now|id now|id now]; simpl in Hs; apply bind_Some in Hs as ([s1 x] & Hs & [= <- <-]).
  - unfold set_trust in Hs. destruct (registry_save t (st_fs s)) as [f [[]|e]]; [|by simplify_eq].
    apply bind_Some in Hs as (s2 & Hs2%record_event_keeps & [= <- <-]); done.
  - destruct (install_check p l s) as [e|] eqn:Hc.
    { rewrite (install_check_refused _ _ now _ _ Hc) in Hs. by simplify_eq. }
    rewrite install_signed_passed in Hs by done. apply bind_Some in Hs as ([c y] & Hi%install_audit_keeps & Hs); [|done].
    destruct y as [d|e]; [|by simplify_eq]. cbv zeta in Hs. repeat (case_match; simplify_eq; try done).
    apply bind_Some in Hs as (s2 & Hs2%record_event_keeps & [= <- <-]); done.
  - unfold launch in Hs. repeat (case_match; simplify_eq; try done).
    apply bind_Some in Hs as (s2 & Hs2%record_event_keeps & [= <- <-]); done.
  - unfold uninstall in Hs. repeat (case_match; simplify_eq; try done).
    apply bind_Some in Hs as (s2 & Hs2%record_event_keeps & [= <- <-]); done.
Qed.

Lemma store_run_keeps ops f (l : L) s rs : store_run ops (Store_new f l) = Some (s, rs) → keeps_entries s.
Proof.
  assert (keeps_entries (Store_new f l)) as Hk by (unfold Store_new, rehydrate_installs; by repeat case_match).
  revert Hk rs. generalize (Store_new f l). induction ops as [|o ops IH]; intros s0 Hk rs; simpl.
  { by intros [= <- _]. }
  intros ([s1 r] & Hs%store_step_keeps & ([s2 rs'] & Hrun & [= <- <-])%bind_Some)%bind_Some; eauto.
Qed.

(** An install that passes the checks enforces the consent, or fails to write. *)
Lemma install_passed_result p l now s :
  keeps_entries s → install_check p l s = None →
  ∃ s' r, install_signed p l now s = Some (s', r) ∧
    match r with Ok d => consent_enforced (pkg_manifest p) l now d | Err e => ∃ x, e = Persistence x end.
Proof.
  intros Hk Hc. rewrite install_signed_passed by done.
  assert (manifest_valid (pkg_manifest p) ∧ l ⊆ am_permissions (pkg_manifest p)) as Hv.
  { unfold install_check in Hc. destruct (AppManifest_validate _) as [[]|] eqn:Hv; [|done].
    split; [by apply manifest_validate_exact|]. apply unrequested_None. by repeat (case_match; try done). }
  destruct (install_decides (pkg_manifest p) l now (st_audit s) Hk) as (c & r & -> & Hi). simpl.
  destruct r as [d|e]; [|by destruct Hi]. destruct Hi as (_ & _ & Hd & Hret & _).
  assert (max_entries (ac_retention c) ≠ 0%N) as Hm by (by rewrite Hret).
  destruct (plan_to_vec (aid_plan d)) as [pj|e]; [|eexists _, _; split; [done|by eexists]].
  destruct (app_manifest_bytes p) as [mb|e]; [|eexists _, _; split; [done|by eexists]].
  cbn zeta. destruct (persist_install p d _ (st_fs s)) as [f [[]|e]]; [|eexists _, _; split; [done|by eexists]].
  match goal with |- context [record_event ?n ?ev ?det ?s0] =>
    destruct (record_event_total n ev det s0 Hm) as (c' & -> & _) end.
  simpl. by do 2 eexists.
Qed.

Lemma step_simulates o a s :
  store_refines a s → (ab_launches a < u64_max)%N → simulates o a s.
Proof.
  intros Hr Hn. destruct o;
    eauto using set_trust_simulates, install_simulates, launch_simulates, uninstall_simulates.
Qed.

Lemma run_simulates ops a s :
  store_refines a s → (ab_launches a + N.of_nat (length ops) ≤ u64_max)%N →
  ∃ s' rs a', store_run ops s = Some (s', rs) ∧ abs_run ops rs a a' ∧ store_refines a' s'.
Proof.
  revert a s. induction ops as [|o ops IH]; intros a s Hr Hn; simpl.
  { eexists _, _, _. split; [done|]. split; [constructor|done]. }
  simpl in Hn. destruct (step_simulates o a s Hr) as (s1 & r & a1 & -> & Hs & Hr1 & Hn1); [lia|].
  destruct (IH a1 s1 Hr1) as (s2 & rs & a2 & E & Hrun & Hr2); [lia|]. simpl. rewrite E. simpl.
  eexists _, _, _. split; [done|]. split; [by econstructor|done].
Qed.

Lemma fresh_refines (f : F) (l : L) :
  st_installed (Store_new f l) = ∅ →
  store_refines (mkAbsStore (st_trust (Store_new f l)) ∅ l 0) (Store_new f l).
Proof.
  unfold Store_new, rehydrate_installs. destruct (fs_list "." _) as [entries|]; simpl.
  - intros E. split; try done. intros id. simpl in *. rewrite E. by rewrite !lookup_empty.
  - intros _. by split.
Qed.

(** C10: a store opened on a file system without installed apps carries out any
    sequence of operations as the abstract store does: an app is installed
    exactly when its manifest is valid, its publisher trusted, the grants
    requested and no app of that id installed, unless persistence fails; the
    errors come in the documented order; a launch hands the launcher the
    payload that was installed last, with the plan of its manifest, and counts
    instances without a gap; what is uninstalled can no longer be launched.
    The missing-payload and consent-mismatch errors of a launch do not arise. *)
Theorem store_refines_abstract (f : F) (l : L) ops :
  st_installed (Store_new f l) = ∅ → (N.of_nat (length ops) ≤ u64_max)%N →
  ∃ s rs a, store_run ops (Store_new f l) = Some (s, rs) ∧
    abs_run ops rs (mkAbsStore (st_trust (Store_new f l)) ∅ l 0) a ∧ store_refines a s.
Proof. intros Hi Hn. by apply run_simulates; [apply fresh_refines|]. Qed.
End refinement.

(** ** Restarts *)

(** What the restart theorems need of a file system: writes succeed and are
    read back, other files keep their content, and the listing of the root
    names every directory that holds a file. *)
Class DirectoryLaws (F : Type) `{!StoreFs F} := {
  dir_write p b f : (fs_write p b f).2 = Ok tt;
  dir_read_write p q b f :
    fs_read q (fs_write p b f).1 = if decide (p = q) then Ok b else fs_read q f;
  dir_mkdir p f : (fs_mkdir_all p f).2 = Ok tt;
  dir_read_mkdir p q f : fs_read q (fs_mkdir_all p f).1 = fs_read q f;
  dir_exists p b f : fs_read p f = Ok b → fs_exists p f = true;
  dir_list e rest b f l :
    str_split "/" e = [e] → fs_read (e +:+ "/" +:+ rest) f = Ok b → fs_list "." f = Ok l → e ∈ l;
  dir_list_ok f : is_ok (fs_list "." f) = true;
}.

(** The JSON of what is written can be read back. *)
Class StoreJsonLaws `{!StoreJson} `{!AppJson} := {
  plan_encodes p : is_ok (plan_to_vec p) = true;
  manifest_encodes m : is_ok (manifest_to_vec m) = true;
  manifest_round_trip m : ∃ b, manifest_to_vec_pretty m = Ok b ∧ manifest_from_slice b = Ok m;
  consent_round_trip c : ∃ b, consent_to_vec_pretty c = Ok b ∧ consent_from_slice b = Ok c;
  record_round_trip r : ∃ b, record_to_vec_pretty r = Ok b ∧ record_from_slice b = Ok r;
  trust_round_trip t : ∃ b, trust_to_vec_pretty t = Ok b ∧ trust_from_slice b = Ok t;
}.

(** ** Paths *)

Lemma str_split_app_sep sep a b :
  str_split sep (a +:+ String sep b) = str_split sep a ++ str_split sep b.
Proof.
  induction a as [|c a IH].
  - rewrite str_app_empty, str_split_cons, Ascii.eqb_refl. done.
  - rewrite str_app_cons, !str_split_cons, IH. destruct (Ascii.eqb c sep); [done|].
    destruct (str_split sep a) eqn:E; [by apply str_split_nonempty in E|done].
Qed.

Lemma str_split_inj sep a b : str_split sep a = str_split sep b → a = b.
Proof.
  revert b. induction a as [|c a IH]; intros [|d b]; rewrite ?str_split_cons; [done|..].
  - destruct (Ascii.eqb d sep); simpl; [intros [= E]; symmetry in E; by apply str_split_nonempty in E|].
    destruct (str_split sep b) eqn:E; [by apply str_split_nonempty in E|done].
  - destruct (Ascii.eqb c sep); simpl; [intros [= E]; by apply str_split_nonempty in E|].
    destruct (str_split sep a) eqn:E; [by apply str_split_nonempty in E|done].
  - destruct (Ascii.eqb_spec c sep) as [->|Hc], (Ascii.eqb_spec d sep) as [->|Hd].
    + intros [= E]. f_equal. by apply IH.
    + by destruct (str_split sep b) eqn:E; [apply str_split_nonempty in E|].
    + by destruct (str_split sep a) eqn:E; [apply str_split_nonempty in E|].
    + destruct (str_split sep a) eqn:Ea, (str_split sep b) eqn:Eb;
        try by (apply str_split_nonempty in Ea || apply str_split_nonempty in Eb).
      intros [= -> -> ->]. f_equal. apply IH. congruence.
Qed.

(** The files of an app. *)
Definition app_file (id name : string) : string := id +:+ "/" +:+ name.

Lemma app_file_inj id id' name name' :
  str_split "/" name = [name] → str_split "/" name' = [name'] →
  app_file id name = app_file id' name' → id = id' ∧ name = name'.
Proof.
  unfold app_file. intros Hn Hn' E%(f_equal (str_split "/")).
  rewrite !str_app_cons, !str_app_empty, !str_split_app_sep, Hn, Hn' in E.
  apply app_inj_tail in E as [E%str_split_inj ->]. done.
Qed.

Lemma app_file_not_trust id name : app_file id name ≠ TRUST_FILE.
Proof.
  unfold app_file. intros E%(f_equal (length ∘ str_split "/")). simpl in E.
  rewrite str_app_cons, str_app_empty, str_split_app_sep, length_app in E.
  pose proof (str_split_nonempty "/" id). pose proof (str_split_nonempty "/" name).
  destruct (str_split "/" id), (str_split "/" name); try done; simpl in E; lia.
Qed.

Section restart.
Context {F L : Type} `{!StoreFs F} `{!AppLauncher L} {SJ : StoreJson} {AJ : AppJson} {D : Digest}
  {C : Crypto} `{!DirectoryLaws F} `{!StoreJsonLaws}.
Implicit Types (s : Store F L) (f : F) (m : gmap string InstalledApp).

(** [load_entry] without the existence test, which the reads subsume. *)
Lemma load_entry_reads f e :
  load_entry f e =
    match fs_read (app_file e "install.json") f, fs_read (app_file e "manifest.json") f,
          fs_read (app_file e "consent.json") f with
    | Ok ib, Ok mb, Ok cb =>
        match record_from_slice ib, manifest_from_slice mb, consent_from_slice cb with
        | Ok r, Ok m, Ok c => Some (mkInstalledApp r m c)
        | _, _, _ => None
        end
    | _, _, _ => None
    end.
Proof.
  unfold load_entry, app_file.
  change (?a +:+ "/install.json") with (a +:+ "/" +:+ "install.json").
  change (?a +:+ "/manifest.json") with (a +:+ "/" +:+ "manifest.json").
  change (?a +:+ "/consent.json") with (a +:+ "/" +:+ "consent.json").
  destruct (fs_read (e +:+ "/" +:+ "install.json") f) as [ib|] eqn:E.
  - by rewrite (dir_exists _ _ _ E).
  - by destruct (negb _).
Qed.

Lemma load_entry_ext f f' e :
  (∀ name, fs_read (app_file e name) f = fs_read (app_file e name) f') →
  load_entry f e = load_entry f' e.
Proof. intros E. rewrite !load_entry_reads. by rewrite !E. Qed.

(** What the disk holds: the apps of [m] and nothing else. *)
Definition disk_holds f m : Prop :=
  ∀ e, load_entry f e = m !! e ∧
    ∀ i, m !! e = Some i → is_valid_app_id e = true ∧ air_app_id (ia_record i) = e.

Lemma rehydrate_lookup f m entries k id :
  disk_holds f m →
  rehydrate_entries f entries k !! id =
    if decide (id ∈ entries) then match m !! id with Some i => Some i | None => k !! id end
    else k !! id.
Proof.
  intros Hd. revert k. induction entries as [|e entries IH]; intros k; simpl; [done|].
  destruct (Hd e) as [-> Hid]. rewrite IH. clear IH.
  destruct (m !! e) as [i|] eqn:Hm.
  - destruct (Hid i eq_refl) as [_ ->]. destruct (decide (e = id)) as [<-|Hne].
    + rewrite Hm, lookup_insert_eq. rewrite (decide_True (P := e ∈ e :: entries)) by set_solver.
      by case_decide.
    + rewrite lookup_insert_ne by done. repeat case_decide; done || set_solver.
  - destruct (decide (e = id)) as [<-|Hne]; [rewrite Hm|]; repeat case_decide;
      done || set_solver.
Qed.

Lemma restart_installed f m (l : L) :
  disk_holds f m → st_installed (Store_new f l) = m.
Proof.
  intros Hd. unfold Store_new, rehydrate_installs. simpl.
  pose proof (dir_list_ok f) as Hok. destruct (fs_list "." f) as [entries|] eqn:Hl; [|done].
  simpl. apply map_eq. intros id. rewrite (rehydrate_lookup f m) by done. rewrite lookup_empty.
  destruct (m !! id) as [i|] eqn:Hi; [|by case_decide].
  rewrite decide_True; [done|]. destruct (Hd id) as [Hload Hid].
  destruct (Hid i Hi) as [Hv _]. rewrite Hi, load_entry_reads in Hload.
  destruct (fs_read (app_file id "install.json") f) as [b|] eqn:Hb; [|done].
  eapply dir_list; [by apply valid_app_id_component|exact Hb|done].
Qed.

Lemma disk_write_other f m p b :
  disk_holds f m → (∀ e name, app_file e name ≠ p) → disk_holds (fs_write p b f).1 m.
Proof.
  intros Hd Hp e. destruct (Hd e) as [<- Hid]. split; [|done]. apply load_entry_ext.
  intros name. rewrite dir_read_write, decide_False; [done|]. intros E. by apply (Hp e name).
Qed.

Lemma persist_file_write what path json b f :
  json = Ok b → persist_file what path json f = ((fs_write path b f).1, Ok tt).
Proof.
  intros ->. unfold persist_file. rewrite <-(dir_write path b f). by destruct (fs_write path b f).
Qed.

Lemma persist_install_disk p d r f m :
  disk_holds f m → is_valid_app_id (air_app_id r) = true →
  ∃ f', persist_install p d r f = (f', Ok tt) ∧
    disk_holds f' (<[air_app_id r := mkInstalledApp r (pkg_manifest p) (aid_consent d)]> m).
Proof.
  intros Hd Hv. unfold persist_install. set (id := air_app_id r) in *.
  destruct (manifest_round_trip (pkg_manifest p)) as (mb & Em & Dm).
  destruct (consent_round_trip (aid_consent d)) as (cb & Ec & Dc).
  destruct (record_round_trip r) as (rb & Er & Dr).
  pose proof (dir_mkdir id f) as Hk. pose proof (λ q, dir_read_mkdir id q f) as Hrk.
  destruct (fs_mkdir_all id f) as [f1 x]. simpl in Hk, Hrk. subst x.
  rewrite (persist_file_write _ _ _ _ _ Em), (persist_file_write _ _ _ _ _ Ec),
    (persist_file_write _ _ _ _ _ Er).
  eexists. split; [done|]. intros e.
  change (id +:+ "/install.json") with (app_file id "install.json").
  change (id +:+ "/manifest.json") with (app_file id "manifest.json").
  change (id +:+ "/consent.json") with (app_file id "consent.json").
  assert (∀ e n n', str_split "/" n = [n] → str_split "/" n' = [n'] →
    (app_file id n = app_file e n') ↔ id = e ∧ n = n') as Hpath.
  { intros e' n n' Hn Hn'. split; [by apply app_file_inj|by intros [-> ->]]. }
  destruct (decide (id = e)) as [<-|Hne].
  - rewrite lookup_insert_eq. split; [|by intros i [= <-]].
    rewrite load_entry_reads, !dir_read_write.
    repeat match goal with
    | |- context [decide (app_file id ?n = app_file id ?n')] =>
        (rewrite (decide_True (P := app_file id n = app_file id n')) by done) ||
        (rewrite (decide_False (P := app_file id n = app_file id n'))
           by (rewrite Hpath by done; by intros [_ ?]))
    end.
    by rewrite Dr, Dm, Dc.
  - rewrite lookup_insert_ne by done. destruct (Hd e) as [<- Hid]. split; [|done].
    rewrite !load_entry_reads, !dir_read_write, !Hrk.
    repeat match goal with
    | |- context [decide (app_file id ?n = app_file e ?n')] =>
        rewrite (decide_False (P := app_file id n = app_file e n'))
          by (rewrite Hpath by done; by intros [? _])
    end. done.
Qed.

(** The record each app had when its last install succeeded. *)
Fixpoint last_installs (ops : list store_op) s m : gmap string InstalledApp :=
  match ops with
  | [] => m
  | o :: ops =>
      match store_step o s with
      | None => m
      | Some (s', r) =>
          last_installs ops s'
            (match o, r with
             | OpInstall p _ _, RsInstall (Ok _) =>
                 partial_alter (λ _, st_installed s' !! am_app_id (pkg_manifest p))
                   (am_app_id (pkg_manifest p)) m
             | _, _ => m
             end)
      end
  end.

Lemma install_signed_disk p l now s s' r m :
  disk_holds (st_fs s) m → install_signed p l now s = Some (s', r) →
  match r with
  | Ok _ => ∃ i, st_installed s' !! am_app_id (pkg_manifest p) = Some i ∧
                 disk_holds (st_fs s') (<[am_app_id (pkg_manifest p) := i]> m)
  | Err _ => disk_holds (st_fs s') m
  end.
Proof.
  intros Hd. destruct (install_check p l s) as [e|] eqn:Hc.
  { rewrite (install_check_refused _ _ now _ _ Hc). by intros [= <- <-]. }
  assert (is_valid_app_id (am_app_id (pkg_manifest p)) = true) as Hv.
  { unfold install_check in Hc. destruct (AppManifest_validate _) as [[]|] eqn:Hv; [|done].
    by apply manifest_validate_exact in Hv as []. }
  rewrite install_signed_passed by done. intros Hi. apply bind_Some in Hi as ([c x] & _ & Hi).
  destruct x as [d|e]; [|by simplify_eq].
  pose proof (plan_encodes (aid_plan d)). destruct (plan_to_vec (aid_plan d)) as [pj|]; [|done].
  unfold app_manifest_bytes in Hi. pose proof (manifest_encodes (pkg_manifest p)).
  destruct (manifest_to_vec (pkg_manifest p)) as [mb|]; [|done]. cbn in Hi.
  set (rec := build_record p l now d mb pj) in *.
  destruct (persist_install_disk p d rec (st_fs s) m Hd Hv) as (f' & E & Hd'). rewrite E in Hi.
  apply bind_Some in Hi as (s1 & Hs1 & [= <- <-]). unfold record_event in Hs1.
  apply bind_Some in Hs1 as ([c' ?] & _ & [= <-]). eexists. cbn. by rewrite lookup_insert_eq.
Qed.

Lemma record_event_fs now ev det s s' : record_event now ev det s = Some s' → st_fs s' = st_fs s.
Proof. unfold record_event. by intros ([c i] & _ & [= <-])%bind_Some. Qed.

Lemma step_disk o s s' r m :
  disk_holds (st_fs s) m → store_step o s = Some (s', r) →
  disk_holds (st_fs s')
    (match o, r with
     | OpInstall p _ _, RsInstall (Ok _) =>
         partial_alter (λ _, st_installed s' !! am_app_id (pkg_manifest p))
           (am_app_id (pkg_manifest p)) m
     | _, _ => m
     end).
Proof.
  intros Hd. destruct o as [t now|p l now|id now|id now]; simpl;
    intros ([s1 x] & Hs & [= <- <-])%bind_Some.
  - unfold set_trust, registry_save in Hs. destruct (trust_to_vec_pretty t) as [b|]; [|by simplify_eq].
    assert (disk_holds (fs_write TRUST_FILE b (st_fs s)).1 m) as Hw.
    { apply disk_write_other; [done|]. intros. apply app_file_not_trust. }
    destruct (fs_write TRUST_FILE b (st_fs s)) as [f [[]|e]]; [|by simplify_eq].
    apply bind_Some in Hs as (s2 & Hs2%record_event_fs & [= <- <-]). simpl. by rewrite Hs2.
  - pose proof (install_signed_disk p l now s s1 x m Hd Hs) as H'. destruct x as [d|]; [|done].
    destruct H' as (i & Hi & Hd'). by rewrite Hi.
  - unfold launch in Hs. destruct (st_installed s !! id) as [i|]; [|by simplify_eq].
    destruct (st_payloads s !! id) as [q|]; [|by simplify_eq].
    destruct (verify_consent_for_package _ _); [|by simplify_eq].
    destruct (app_launch _ _ _ _ _) as [k [out|e]]; [|by simplify_eq].
    destruct (_ =? u64_max)%N; [done|].
    apply bind_Some in Hs as (s2 & Hs2%record_event_fs & [= <- <-]). by rewrite Hs2.
  - unfold uninstall in Hs. case_match; [by simplify_eq|].
    apply bind_Some in Hs as (s2 & Hs2%record_event_fs & [= <- <-]). by rewrite Hs2.
Qed.

Lemma run_disk ops s s' rs m :
  disk_holds (st_fs s) m → store_run ops s = Some (s', rs) →
  disk_holds (st_fs s') (last_installs ops s m).
Proof.
  revert s m rs. induction ops as [|o ops IH]; intros s m rs Hd; simpl.
  { by intros [= <- <-]. }
  intros ([s1 r] & Hs & ([s2 rs'] & Hrun & [= <- <-])%bind_Some)%bind_Some. rewrite Hs.
  eapply IH; [|done]. by eapply (step_disk o s).
Qed.

(** On a file system that keeps what is written, a store that is opened
    again after any sequence of operations has exactly the apps whose install
    ever succeeded, each with the manifest, consent and receipt of its last
    install: an uninstall is undone by the restart, since it leaves the files
    in place.  None of the restored apps can be launched: the payload is
    not kept. *)
Theorem restart_restores_every_install f (l l' : L) ops s rs :
  (∀ e, load_entry f e = None) →
  store_run ops (Store_new f l) = Some (s, rs) →
  let again := Store_new (st_fs s) l' in
  st_installed again = last_installs ops (Store_new f l) ∅ ∧ st_payloads again = ∅ ∧
  ∀ id now, is_Some (st_installed again !! id) →
    launch id now again =
      Some (again, Err (Persistence ("no cached payload for " +:+ id))).
Proof.
  intros Hf Hrun. cbn zeta.
  assert (disk_holds f ∅) as Hd.
  { intros e. rewrite Hf, lookup_empty. by split. }
  assert (disk_holds (st_fs s) (last_installs ops (Store_new f l) ∅)) as Hd'.
  { eapply run_disk; [|done]. unfold Store_new, rehydrate_installs. by repeat case_match. }
  assert (st_payloads (Store_new (st_fs s) l') = ∅) as Hp.
  { unfold Store_new, rehydrate_installs. by repeat case_match. }
  split_and!; [by apply restart_installed|done|].
  intros id now [i Hi]. unfold launch. by rewrite Hi, Hp, lookup_empty.
Qed.
End restart.

(** ** A directory tree and an encoding to run the store with *)

(** A file system whose root listing names the first component of every
    path. *)
Record DirFs := mkDirFs { dir_files : gmap string (list byte) }.

#[export] Instance DirFs_fs : StoreFs DirFs := {|
  fs_exists path f := bool_decide (is_Some (dir_files f !! path));
  fs_read path f := match dir_files f !! path with Some b => Ok b | None => Err path end;
  fs_write path bytes f := (mkDirFs (<[path := bytes]> (dir_files f)), Ok tt);
  fs_mkdir_all _ f := (f, Ok tt);
  fs_list _ f := Ok (omap (λ k, head (str_split "/" k)) (btree_keys (dir_files f)));
|}.

#[export] Instance DirFs_laws : DirectoryLaws DirFs.
Proof.
  split; try done; simpl.
  - intros p q b f. case_decide as E; [subst; by rewrite lookup_insert_eq|].
    by rewrite lookup_insert_ne.
  - intros p b f. by destruct (dir_files f !! p).
  - intros e rest b f l He Hr [= <-]. destruct (dir_files f !! _) eqn:Hf; [|done].
    apply list_elem_of_omap. eexists. split; [apply elem_of_btree_keys; by eexists|].
    rewrite str_app_cons, str_app_empty, str_split_app_sep, He. done.
Qed.

(** Bits as bytes. *)
Fixpoint bytes_of_pos (p : positive) : list byte :=
  match p with
  | xH => []
  | xO p => Byte.x00 :: bytes_of_pos p
  | xI p => Byte.x01 :: bytes_of_pos p
  end.

Fixpoint pos_of_bytes (l : list byte) : positive :=
  match l with
  | [] => xH
  | Byte.x00 :: l => xO (pos_of_bytes l)
  | _ :: l => xI (pos_of_bytes l)
  end.

Lemma pos_of_bytes_of_pos p : pos_of_bytes (bytes_of_pos p) = p.
Proof. by induction p as [p IH|p IH|]; simpl; rewrite ?IH. Qed.

Definition toy_encode {A} `{Countable A} (x : A) : result (list byte) string :=
  Ok (bytes_of_pos (encode x)).
Definition toy_decode {A} `{Countable A} (l : list byte) : result A string :=
  match decode (pos_of_bytes l) with Some x => Ok x | None => Err "" end.

Lemma toy_round_trip {A} `{Countable A} (x : A) :
  ∃ b, toy_encode x = Ok b ∧ toy_decode b = Ok x.
Proof.
  eexists. split; [done|]. unfold toy_decode. by rewrite pos_of_bytes_of_pos, decode_encode.
Qed.

Definition all_permissions : list AppPermission :=
  [ReadUserFiles; WriteUserFiles; NetworkEgress; NetworkListen; ReadPersonalData; ApNotify;
   CaptureScreen; Camera; Microphone; Location; PairDevices].

#[export] Instance AppPermission_countable : Countable AppPermission.
Proof.
  apply (inj_countable (λ p, from_option id 0 (position (λ q, bool_decide (p = q)) all_permissions))
    (λ n, all_permissions !! n)). by intros [].
Defined.

#[export] Instance SandboxProfile_countable : Countable SandboxProfile.
Proof.
  apply (inj_countable (λ p, match p with SbInternal => 0 | SbSystemService => 1 | SbRestrictedService => 2 end)
    (λ n, [SbInternal; SbSystemService; SbRestrictedService] !! n)). by intros [].
Defined.

(** Records are encoded field by field. *)
Ltac countable_fields f g :=
  apply (inj_countable f g); intros []; cbn -[encode decode]; by rewrite !decode_encode.

#[export] Instance AppResourceLimits_eq_dec : EqDecision AppResourceLimits.
Proof. solve_decision. Defined.
#[export] Instance AppResourceLimits_countable : Countable AppResourceLimits.
Proof.
  countable_fields
    (λ r, [encode (arl_cpu_weight r); encode (arl_memory_max_bytes r); encode (arl_pids_max r);
           encode (arl_io_weight r)])
    (λ l : list positive, match l with
     | [x0; x1; x2; x3] =>
         x0 ← decode x0; x1 ← decode x1; x2 ← decode x2; x3 ← decode x3;
         Some (mkAppResourceLimits x0 x1 x2 x3)
     | _ => None
     end).
Defined.

#[export] Instance AppManifest_eq_dec : EqDecision AppManifest.
Proof. solve_decision. Defined.
#[export] Instance AppManifest_countable : Countable AppManifest.
Proof.
  countable_fields
    (λ r, [encode (am_schema_version r); encode (am_app_id r); encode (am_name r);
           encode (am_version r); encode (am_publisher r); encode (am_description r);
           encode (am_min_os_version r); encode (am_permissions r);
           encode (am_sandbox_profile r); encode (am_resources r); encode (am_binary_sha256 r);
           encode (am_payload_len r); encode (am_depends_on r); encode (am_timestamp_ms r);
           encode (am_publisher_key_id r)])
    (λ l : list positive, match l with
     | [x0; x1; x2; x3; x4; x5; x6; x7; x8; x9; x10; x11; x12; x13; x14] =>
         x0 ← decode x0; x1 ← decode x1; x2 ← decode x2; x3 ← decode x3; x4 ← decode x4;
         x5 ← decode x5; x6 ← decode x6; x7 ← decode x7; x8 ← decode x8; x9 ← decode x9;
         x10 ← decode x10; x11 ← decode x11; x12 ← decode x12; x13 ← decode x13;
         x14 ← decode x14;
         Some (mkAppManifest x0 x1 x2 x3 x4 x5 x6 x7 x8 x9 x10 x11 x12 x13 x14)
     | _ => None
     end).
Defined.

#[export] Instance AppConsentRecord_eq_dec : EqDecision AppConsentRecord.
Proof. solve_decision. Defined.
#[export] Instance AppConsentRecord_countable : Countable AppConsentRecord.
Proof.
  countable_fields
    (λ r, [encode (acr_app_id r); encode (acr_publisher_key_id r); encode (acr_granted r);
           encode (acr_granted_at_ms r); encode (acr_version r)])
    (λ l : list positive, match l with
     | [x0; x1; x2; x3; x4] =>
         x0 ← decode x0; x1 ← decode x1; x2 ← decode x2; x3 ← decode x3; x4 ← decode x4;
         Some (mkAppConsentRecord x0 x1 x2 x3 x4)
     | _ => None
     end).
Defined.

#[export] Instance AppInstallRecord_eq_dec : EqDecision AppInstallRecord.
Proof. solve_decision. Defined.
#[export] Instance AppInstallRecord_countable : Countable AppInstallRecord.
Proof.
  countable_fields
    (λ r, [encode (air_app_id r); encode (air_version r); encode (air_publisher_key_id r);
           encode (air_installed_at_ms r); encode (air_manifest_digest_hex r);
           encode (air_granted r); encode (air_refused r); encode (air_plan_digest_hex r);
           encode (air_seccomp_filter r); encode (air_cgroup_slice r);
           encode (air_receipt_version r)])
    (λ l : list positive, match l with
     | [x0; x1; x2; x3; x4; x5; x6; x7; x8; x9; x10] =>
         x0 ← decode x0; x1 ← decode x1; x2 ← decode x2; x3 ← decode x3; x4 ← decode x4;
         x5 ← decode x5; x6 ← decode x6; x7 ← decode x7; x8 ← decode x8; x9 ← decode x9;
         x10 ← decode x10;
         Some (mkAppInstallRecord x0 x1 x2 x3 x4 x5 x6 x7 x8 x9 x10)
     | _ => None
     end).
Defined.

#[export] Instance PublisherTrust_eq_dec : EqDecision PublisherTrust.
Proof. solve_decision. Defined.
#[export] Instance PublisherTrust_countable : Countable PublisherTrust.
Proof.
  countable_fields
    (λ r, [encode (pt_fingerprint r); encode (pt_display_name r); encode (pt_notes r)])
    (λ l : list positive, match l with
     | [x0; x1; x2] =>
         x0 ← decode x0; x1 ← decode x1; x2 ← decode x2;
         Some (mkPublisherTrust x0 x1 x2)
     | _ => None
     end).
Defined.

#[export] Instance Registry_eq_dec : EqDecision TrustedPublisherRegistry.
Proof. solve_decision. Defined.
#[export] Instance Registry_countable : Countable TrustedPublisherRegistry.
Proof. apply (inj_countable' publishers mkRegistry). by intros []. Defined.

#[export] Instance ToyStoreJson : StoreJson := {|
  plan_to_vec _ := Ok [];
  manifest_to_vec_pretty := toy_encode;
  consent_to_vec_pretty := toy_encode;
  record_to_vec_pretty := toy_encode;
  trust_to_vec_pretty := toy_encode;
  manifest_from_slice := toy_decode;
  consent_from_slice := toy_decode;
  record_from_slice := toy_decode;
  trust_from_slice := toy_decode;
|}.

#[export] Instance ToyStoreJson_laws : StoreJsonLaws.
Proof. split; simpl; try done; apply toy_round_trip. Qed.

(** A launcher that counts, and a life of one app. *)
#[export] Instance CountingLauncher : AppLauncher nat :=
  λ id _ _ t n, (S n, Ok (mkStoreLaunchOutcome id 0 "" "" "" t)).

Definition example_package : AppPackage :=
  mkAppPackage (example_manifest "com.example.app" "key" [NetworkEgress; Camera]) ""
    (as_bytes "payload").

Definition example_ops : list store_op :=
  [OpSetTrust (from_publishers [PublisherTrust_new "key"]) 1;
   OpInstall example_package [Camera] 2; OpLaunch "com.example.app" 3;
   OpUninstall "com.example.app" 4].

Lemma store_refines_abstract_witness :
  ∃ s rs a, store_run (D := toy_digest) example_ops (Store_new MemoryFs_new 0) = Some (s, rs) ∧
    abs_run (L := nat) example_ops rs
      (mkAbsStore (st_trust (Store_new (L := nat) MemoryFs_new 0)) ∅ 0 0) a ∧ store_refines a s.
Proof. apply (store_refines_abstract (D := toy_digest)); [by vm_compute|done]. Defined.

Lemma example_comes_back :
  match store_run (D := toy_digest) example_ops (Store_new (mkDirFs ∅) 0) with
  | Some (s, _) => negb (is_installed s "com.example.app") &&
                   is_installed (Store_new (st_fs s) 0) "com.example.app"
  | None => false
  end = true.
Proof. by vm_compute. Qed.

Lemma restart_restores_witness :
  match store_run (D := toy_digest) example_ops (Store_new (mkDirFs ∅) 0) with
  | Some (s, _) =>
      let again := Store_new (st_fs s) 0 in
      is_installed s "com.example.app" = false ∧
      is_installed again "com.example.app" = true ∧
      (st_installed again = last_installs (D := toy_digest) example_ops
                              (Store_new (mkDirFs ∅) 0) ∅ ∧
       st_payloads again = ∅ ∧
       ∀ id now, is_Some (st_installed again !! id) →
         launch (D := toy_digest) id now again =
           Some (again, Err (Persistence ("no cached payload for " +:+ id))))
  | None => False
  end.
Proof.
  pose proof example_comes_back as H.
  destruct (store_run example_ops (Store_new (mkDirFs ∅) 0)) as [[s rs]|] eqn:E; [|done].
  apply andb_true_iff in H as [H1%negb_true_iff H2].
  split; [exact H1|]. split; [exact H2|].
  eapply (restart_restores_every_install (D := toy_digest) (mkDirFs ∅) 0 0 example_ops);
    [done|exact E].
Defined.
