(* ===== verification/UnixFs.v ===== *)
(** * Paths and files

    What the sources use of std::path and std::fs, on Unix: a tree of
    directories, files and symbolic links, path resolution with the kernel's
    limit of 40 links, and the operations [exists], [canonicalize],
    [create_dir], [create_dir_all], [write] and [rename].  A [PathBuf] is the
    list of its parts as the separator splits them, so that empty parts and
    dots keep their meaning; every path here is absolute and holds no NUL byte,
    which the standard library would refuse.  Permissions are not
    modelled: the process may access every file. *)
From S2P Require Import Prelude RustStd.
From Stdlib Require Import Ascii.

(** A resolved location: the names from the root down. *)
Abbreviation path := (list string).

Inductive node := NDir | NFile (content : list byte) | NLink (target : string).

#[export] Instance node_eq_dec : EqDecision node.
Proof. solve_decision. Defined.

Abbreviation filesystem := (gmap (list string) node).

Inductive errno := ENOENT | ENOTDIR | ELOOP | EEXIST | EISDIR | EINVAL | ENOTEMPTY | ENOSPC | EBUSY.

#[export] Instance errno_eq_dec : EqDecision errno.
Proof. solve_decision. Defined.

(** [io::Error::to_string]. *)
Definition errno_text (e : errno) : string :=
  match e with
  | ENOENT => "No such file or directory (os error 2)"
  | ENOTDIR => "Not a directory (os error 20)"
  | ELOOP => "Too many levels of symbolic links (os error 40)"
  | EEXIST => "File exists (os error 17)"
  | EISDIR => "Is a directory (os error 21)"
  | EINVAL => "Invalid argument (os error 22)"
  | ENOTEMPTY => "Directory not empty (os error 39)"
  | ENOSPC => "No space left on device (os error 28)"
  | EBUSY => "Device or resource busy (os error 16)"
  end.

(** ** Paths *)

(** Parts that name nothing. *)
Definition is_dot (c : string) : bool := (c =? "")%string || (c =? ".")%string.

(** [Path::components] of an absolute path, the root left out. *)
Definition components (p : path) : path := List.filter (λ c, negb (is_dot c)) p.

(** [Path::parent]. *)
Definition parent (p : path) : option path :=
  match components p with [] => None | cs => Some (removelast cs) end.

(** [Path::starts_with]. *)
Fixpoint is_prefix (a p : path) : bool :=
  match a, p with
  | [], _ => true
  | x :: a, y :: p => (x =? y)%string && is_prefix a p
  | _, _ => false
  end.
Definition path_starts_with (p base : path) : bool :=
  is_prefix (components base) (components p).

(** [Path::strip_prefix]. *)
Definition path_strip_prefix (p base : path) : option path :=
  if path_starts_with p base then Some (drop (length (components base)) (components p)) else None.

(** The text of a path. *)
Fixpoint join_slash (p : path) : string :=
  match p with
  | [] => EmptyString
  | [c] => c
  | c :: p => c +:+ "/" +:+ join_slash p
  end.
Definition display (p : path) : string := "/" +:+ join_slash p.

(** ** Resolution *)

Definition node_at (fs : filesystem) (p : path) : option node :=
  match p with [] => Some NDir | _ => fs !! p end.

Definition is_dir_at (fs : filesystem) (p : path) : bool :=
  bool_decide (node_at fs p = Some NDir).

(** Follow [todo] from [cur], with a number of links left; [create] accepts a
    last part that does not exist, as opening with [O_CREAT] does.  The result
    is a location without links, and the links that are left. *)
Fixpoint walk (create : bool) (fs : filesystem) (links : nat) :
    path → list string → result (path * nat) errno :=
  fix go cur todo :=
    match todo with
    | [] => Ok (cur, links)
    | c :: t =>
        if negb (is_dir_at fs cur) then Err ENOTDIR
        else if is_dot c then go cur t
        else if (c =? "..")%string then go (removelast cur) t
        else
          match fs !! (cur ++ [c]) with
          | None =>
              match create, t with
              | true, [] => Ok (cur ++ [c], links)
              | _, _ => Err ENOENT
              end
          | Some (NLink target) =>
              match links with
              | 0 => Err ELOOP
              | S links =>
                  walk create fs links (if String.prefix "/" target then [] else cur)
                    (str_split "/" target ++ t)
              end
          | Some _ => go (cur ++ [c]) t
          end
    end.

#[global] Arguments walk : simpl never.

Definition MAXSYMLINKS : nat := 40.
#[global] Arguments MAXSYMLINKS : simpl never.

(** [canonicalize]. *)
Definition resolve (fs : filesystem) (p : path) : result path errno :=
  match walk false fs MAXSYMLINKS [] p with Ok (q, _) => Ok q | Err e => Err e end.

(** [Path::exists] and [Path::is_dir], which follow links. *)
Definition path_exists (fs : filesystem) (p : path) : bool := is_ok (resolve fs p).
Definition path_is_dir (fs : filesystem) (p : path) : bool :=
  match resolve fs p with Ok q => is_dir_at fs q | Err _ => false end.

(** The location a path names when its last name is not followed; [special] is
    the error for a path that does not end in a name. *)
Definition locate (special : errno) (fs : filesystem) (p : path) : result path errno :=
  let inside d k := if is_dir_at fs d then k else Err ENOTDIR in
  if (List.last p EmptyString =? ".")%string then
    match resolve fs (removelast p) with
    | Err e => Err e
    | Ok d => inside d (Err special)
    end
  else
    match components p with
    | [] => Err special
    | cs =>
        match resolve fs (removelast cs) with
        | Err e => Err e
        | Ok d =>
            inside d (if (List.last cs EmptyString =? "..")%string then Err special
                      else Ok (d ++ [List.last cs EmptyString]))
        end
    end.

(** ** Operations *)

(** [fs::create_dir]. *)
Definition create_dir (p : path) (fs : filesystem) : filesystem * result unit errno :=
  match locate EEXIST fs p with
  | Err e => (fs, Err e)
  | Ok q => match fs !! q with
            | Some _ => (fs, Err EEXIST)
            | None => (<[q := NDir]> fs, Ok tt)
            end
  end.

(** [fs::create_dir_all] on the names of a path, innermost first: the parents
    are created only when the directory could not be for want of one. *)
Fixpoint create_dirs (rev : list string) (fs : filesystem) : filesystem * result unit errno :=
  match rev with
  | [] => (fs, Ok tt)
  | c :: up =>
      let p := reverse rev in
      match create_dir p fs with
      | (fs, Ok _) => (fs, Ok tt)
      | (fs, Err ENOENT) =>
          match create_dirs up fs with
          | (fs, Err e) => (fs, Err e)
          | (fs, Ok _) =>
              match create_dir p fs with
              | (fs, Ok _) => (fs, Ok tt)
              | (fs, Err e) => (fs, if path_is_dir fs p then Ok tt else Err e)
              end
          end
      | (fs, Err e) => (fs, if path_is_dir fs p then Ok tt else Err e)
      end
  end.

Definition create_dir_all (p : path) (fs : filesystem) : filesystem * result unit errno :=
  create_dirs (reverse (components p)) fs.

Section write.
(** Whether the device has no room for the content of a file. *)
Variable no_space : filesystem → path → bool.

(** [fs::write]: open with [O_CREAT] and [O_TRUNC], then write. *)
Definition fs_write_file (p : path) (content : list byte) (fs : filesystem) :
    filesystem * result unit errno :=
  match walk true fs MAXSYMLINKS [] p with
  | Err e => (fs, Err e)
  | Ok (q, _) =>
      if is_dir_at fs q then (fs, Err EISDIR)
      else if no_space fs q then (<[q := NFile []]> fs, Err ENOSPC)
      else (<[q := NFile content]> fs, Ok tt)
  end.
End write.

(** The node below [p] of a location below it. *)
Definition move_key (p q k : path) : path :=
  if is_prefix p k then q ++ drop (length p) k else k.

(** A tree moved from [p] to [q]. *)
Definition move_tree (p q : path) (fs : filesystem) : filesystem :=
  list_to_map ((λ kv : path * node, (move_key p q kv.1, kv.2)) <$> map_to_list (delete q fs)).

Definition has_children (fs : filesystem) (p : path) : bool :=
  existsb (λ kv : path * node, is_prefix p kv.1 && negb (bool_decide (kv.1 = p)))
    (map_to_list fs).

(** [fs::rename]. *)
Definition fs_rename (from to : path) (fs : filesystem) : filesystem * result unit errno :=
  match locate EBUSY fs from, locate EBUSY fs to with
  | Ok p, Ok q =>
      match fs !! p with
      | None => (fs, Err ENOENT)
      | Some n =>
          if (is_dot (List.last from EmptyString) || is_dot (List.last to EmptyString))
             && negb (bool_decide (n = NDir)) then (fs, Err ENOTDIR)
          else if bool_decide (p = q) then (fs, Ok tt)
          else if is_prefix p q then (fs, Err EINVAL)
          else
            match fs !! q, n with
            | None, _ => (move_tree p q fs, Ok tt)
            | Some NDir, NDir =>
                if has_children fs q then (fs, Err ENOTEMPTY) else (move_tree p q fs, Ok tt)
            | Some NDir, _ => (fs, Err EISDIR)
            | Some _, NDir => (fs, Err ENOTDIR)
            | Some _, _ => (move_tree p q fs, Ok tt)
            end
      end
  | Err e, _ => (fs, Err e)
  | _, Err e => (fs, Err e)
  end.

(** [fs::read]. *)
Definition fs_read_file (p : path) (fs : filesystem) : result (list byte) errno :=
  match resolve fs p with
  | Err e => Err e
  | Ok q => match node_at fs q with Some (NFile content) => Ok content | _ => Err EISDIR end
  end.

(** [fs::remove_file] of a path that does not end in a separator. *)
Definition fs_remove_file (p : path) (fs : filesystem) : filesystem * result unit errno :=
  match locate EISDIR fs p with
  | Err e => (fs, Err e)
  | Ok q => match fs !! q with
            | None => (fs, Err ENOENT)
            | Some NDir => (fs, Err EISDIR)
            | Some _ => (delete q fs, Ok tt)
            end
  end.

(** * Lemmas *)

(** ** Names and prefixes *)

Definition is_name (c : string) : Prop := is_dot c = false ∧ c ≠ "..".

Lemma is_prefix_spec a p : is_prefix a p = true ↔ a `prefix_of` p.
Proof.
  revert p. induction a as [|x a IH]; intros p; simpl; [split; [intros; apply prefix_nil|done]|].
  destruct p as [|y p]; [split; [done|intros [k ?]; done]|].
  rewrite andb_true_iff, String.eqb_eq, IH. split.
  - intros [-> H]. by apply prefix_cons.
  - intros H. split; [by apply prefix_cons_inv_1 in H|by apply prefix_cons_inv_2 in H].
Qed.

Lemma components_names p : Forall is_name p → components p = p.
Proof.
  induction 1 as [|c p [Hc _] _ IH]; [done|]. unfold components in *. simpl. by rewrite Hc, IH.
Qed.

Lemma components_app p q : components (p ++ q) = components p ++ components q.
Proof. apply List.filter_app. Qed.

Lemma components_idemp p : components (components p) = components p.
Proof.
  induction p as [|c p IH]; [done|]. unfold components in *. simpl.
  destruct (is_dot c) eqn:E; simpl; [done|]. by rewrite E, IH.
Qed.

Lemma names_components p : Forall (λ c, c ≠ "..") p → Forall is_name (components p).
Proof.
  induction 1 as [|c p Hc _ IH]; [constructor|]. unfold components in *. simpl.
  destruct (is_dot c) eqn:E; simpl; [done|]. constructor; [by split|done].
Qed.

(** ** Resolution *)

Section walk_lemmas.
Implicit Types fs : filesystem.

(** One step of [walk]. *)
Lemma walk_nil cr fs l cur : walk cr fs l cur [] = Ok (cur, l).
Proof. by destruct l. Qed.

Lemma walk_cons cr fs l cur c t :
  walk cr fs l cur (c :: t) =
    if negb (is_dir_at fs cur) then Err ENOTDIR
    else if is_dot c then walk cr fs l cur t
    else if (c =? "..")%string then walk cr fs l (removelast cur) t
    else
      match fs !! (cur ++ [c]) with
      | None => match cr, t with true, [] => Ok (cur ++ [c], l) | _, _ => Err ENOENT end
      | Some (NLink target) =>
          match l with
          | 0 => Err ELOOP
          | S l => walk cr fs l (if String.prefix "/" target then [] else cur)
                     (str_split "/" target ++ t)
          end
      | Some _ => walk cr fs l (cur ++ [c]) t
      end.
Proof. by destruct l. Qed.

(** Induction over the steps of a walk. *)
Lemma walk_ind (P : nat → path → list string → Prop) :
  (∀ l cur, P l cur []) →
  (∀ l cur c t, (∀ cur', P l cur' t) → (∀ l' cur' t', l' < l → P l' cur' t') →
     P l cur (c :: t)) →
  ∀ l cur t, P l cur t.
Proof.
  intros H0 H1 l. induction l as [l IHl] using lt_wf_ind. intros cur t. revert cur.
  induction t as [|c t IHt]; intros cur; [apply H0|]. apply H1; [apply IHt|].
  intros l' cur' t' Hl. by apply IHl.
Qed.

Lemma walk_app fs l cur t1 t2 :
  walk false fs l cur (t1 ++ t2) =
    match walk false fs l cur t1 with
    | Ok (d, l') => walk false fs l' d t2
    | Err e => Err e
    end.
Proof.
  revert l cur t1. apply (walk_ind (λ l cur t1, walk false fs l cur (t1 ++ t2) = _)).
  - intros l cur. by rewrite walk_nil.
  - intros l cur c t IHt IHl. rewrite <-app_comm_cons, !walk_cons.
    destruct (negb (is_dir_at fs cur)); [done|]. destruct (is_dot c); [apply IHt|].
    destruct (c =? "..")%string; [apply IHt|].
    destruct (fs !! (cur ++ [c])) as [[| |target]|]; [apply IHt..| |done].
    destruct l as [|l]; [done|]. rewrite app_assoc. apply IHl. lia.
Qed.

Lemma is_dir_at_mono fs fs' p : fs ⊆ fs' → is_dir_at fs p = true → is_dir_at fs' p = true.
Proof.
  unfold is_dir_at, node_at. rewrite !bool_decide_eq_true. intros Hs.
  destruct p as [|c p]; [done|]. intros H. by apply (lookup_weaken _ _ _ _ H Hs).
Qed.

Lemma walk_mono fs fs' l cur t r :
  fs ⊆ fs' → walk false fs l cur t = Ok r → walk false fs' l cur t = Ok r.
Proof.
  intros Hs. revert l cur t r.
  apply (walk_ind (λ l cur t, ∀ r, walk false fs l cur t = Ok r → walk false fs' l cur t = Ok r)).
  { intros l cur r. by rewrite !walk_nil. }
  intros l cur c t IHt IHl r. rewrite !walk_cons.
  destruct (is_dir_at fs cur) eqn:Hd; simpl; [|done].
  rewrite (is_dir_at_mono _ _ _ Hs Hd). simpl. destruct (is_dot c); [apply IHt|].
  destruct (c =? "..")%string; [apply IHt|].
  destruct (fs !! (cur ++ [c])) as [n|] eqn:E; [|done].
  rewrite (lookup_weaken _ _ _ _ E Hs). destruct n as [| |target]; [apply IHt..|].
  destruct l as [|l]; [done|]. apply IHl. lia.
Qed.

(** A location without links: every directory on the way exists. *)
Definition clean fs (p : path) : Prop :=
  Forall is_name p ∧
  ∀ q c r, p = q ++ c :: r →
    is_dir_at fs q = true ∧ ∃ n, fs !! (q ++ [c]) = Some n ∧ ∀ t, n ≠ NLink t.

Lemma clean_nil fs : clean fs [].
Proof. split; [constructor|]. intros [] ?? ?; done. Qed.

Lemma clean_app fs p q : clean fs (p ++ q) → clean fs p.
Proof.
  intros [Hn Hc]. apply Forall_app in Hn as [Hn _]. split; [done|]. intros p' c r ->.
  apply (Hc p' c (r ++ q)). by rewrite <-app_assoc.
Qed.

Lemma clean_removelast fs p : clean fs p → clean fs (removelast p).
Proof.
  intros H. destruct p as [|c p] using rev_ind; [done|].
  rewrite removelast_last. by eapply clean_app.
Qed.

Lemma clean_snoc fs p c n :
  clean fs p → is_dir_at fs p = true → is_name c → fs !! (p ++ [c]) = Some n →
  (∀ t, n ≠ NLink t) → clean fs (p ++ [c]).
Proof.
  intros [Hn Hc] Hd Hname Hl Hnl. split; [apply Forall_app; by rewrite Forall_singleton|].
  intros q x r E. destruct r as [|y r] using rev_ind.
  - apply app_inj_tail in E as [<- <-]. eauto.
  - rewrite app_comm_cons, app_assoc in E. apply app_inj_tail in E as [-> _]. by eapply Hc.
Qed.

Lemma walk_clean fs l cur t d l' :
  clean fs cur → walk false fs l cur t = Ok (d, l') → clean fs d.
Proof.
  revert l cur t d l'.
  apply (walk_ind (λ l cur t, ∀ d l', clean fs cur → walk false fs l cur t = Ok (d, l') →
    clean fs d)).
  { intros l cur d l' Hc. rewrite walk_nil. by intros [= <- <-]. }
  intros l cur c t IHt IHl d l' Hc. rewrite walk_cons.
  destruct (is_dir_at fs cur) eqn:Hd; simpl; [|done]. destruct (is_dot c) eqn:Hdot; [by apply IHt|].
  destruct (String.eqb_spec c "..") as [->|Hne]; [by apply IHt, clean_removelast|].
  destruct (fs !! (cur ++ [c])) as [[|b|target]|] eqn:E; [| | |done].
  - apply IHt. by eapply clean_snoc.
  - apply IHt. by eapply clean_snoc.
  - destruct l as [|l]; [done|]. apply IHl; [lia|]. destruct (String.prefix _ _); [apply clean_nil|done].
Qed.

(** Resolving a location without links leads to it. *)
Lemma clean_walk fs l p t :
  clean fs (p ++ t) → walk false fs l p t = Ok (p ++ t, l).
Proof.
  revert p. induction t as [|c t IH]; intros p Hc; [by rewrite walk_nil, app_nil_r|].
  replace (p ++ c :: t) with ((p ++ [c]) ++ t) in * by (by rewrite <-app_assoc).
  rewrite walk_cons, (IH (p ++ [c])) by done. destruct Hc as [Hn Hc].
  destruct (Hc p c t) as (-> & n & -> & Hnl); [by rewrite <-app_assoc|].
  rewrite !Forall_app in Hn. destruct Hn as [[_ [[-> ->%String.eqb_neq] _]%Forall_cons] _]. simpl.
  destruct n; try done. by destruct (Hnl target).
Qed.

Lemma resolve_Ok fs p d : resolve fs p = Ok d ↔ ∃ l, walk false fs MAXSYMLINKS [] p = Ok (d, l).
Proof.
  unfold resolve. destruct (walk false fs MAXSYMLINKS [] p) as [[q l]|]; split.
  - intros [= <-]. by exists l.
  - by intros [? [= <- <-]].
  - done.
  - by intros [? ?].
Qed.

Lemma resolve_clean fs p d : resolve fs p = Ok d → clean fs d.
Proof. intros [l H]%resolve_Ok. eapply walk_clean; [apply clean_nil|done]. Qed.

Lemma clean_resolve fs p : clean fs p → resolve fs p = Ok p.
Proof. intros H. apply resolve_Ok. exists MAXSYMLINKS. by apply (clean_walk fs _ []). Qed.

(** A tree: what has a name lies in a directory. *)
Definition fs_wf fs : Prop := ∀ p c n, fs !! (p ++ [c]) = Some n → is_dir_at fs p = true.

Definition fs_wf_check fs : bool :=
  forallb (λ kv : path * node, is_dir_at fs (removelast kv.1)) (map_to_list fs).

Lemma fs_wf_check_sound fs : fs_wf_check fs = true → fs_wf fs.
Proof.
  unfold fs_wf_check. rewrite forallb_forall. intros H p c n Hl.
  specialize (H (p ++ [c], n)). simpl in H. rewrite removelast_last in H. apply H.
  by apply list_elem_of_In, elem_of_map_to_list.
Qed.

Lemma missing_below fs p q : fs_wf fs → p ≠ [] → fs !! p = None → fs !! (p ++ q) = None.
Proof.
  intros Hw Hp Hn. induction q as [|c q IH] using rev_ind; [by rewrite app_nil_r|].
  destruct (fs !! (p ++ q ++ [c])) as [n|] eqn:E; [|done]. rewrite app_assoc in E.
  apply Hw in E. unfold is_dir_at, node_at in E. rewrite bool_decide_eq_true in E.
  destruct (p ++ q) eqn:Epq; [by destruct p|]. by rewrite IH in E.
Qed.

(** ** Creating directories *)

(** Directories for the names [b], one below the other, from [d] on. *)
Fixpoint add_dirs (d : path) (b : list string) (fs : filesystem) : filesystem :=
  match b with
  | [] => fs
  | c :: b => add_dirs (d ++ [c]) b (<[d ++ [c] := NDir]> fs)
  end.

Lemma add_dirs_other d b fs p :
  add_dirs d b fs !! p = fs !! p ∨
  add_dirs d b fs !! p = Some NDir ∧ ∃ b1 b2, b = b1 ++ b2 ∧ b1 ≠ [] ∧ p = d ++ b1.
Proof.
  revert d fs. induction b as [|c b IH]; intros d fs; simpl; [by left|].
  destruct (IH (d ++ [c]) (<[d ++ [c] := NDir]> fs)) as [->|(-> & b1 & b2 & -> & Hb1 & ->)].
  - destruct (decide (d ++ [c] = p)) as [<-|Hne].
    + rewrite lookup_insert_eq. right. split; [done|]. by exists [c], b.
    + rewrite lookup_insert_ne by done. by left.
  - right. split; [done|]. exists (c :: b1), b2. by rewrite <-app_assoc.
Qed.

Lemma add_dirs_snoc d b c fs :
  add_dirs d (b ++ [c]) fs = <[d ++ b ++ [c] := NDir]> (add_dirs d b fs).
Proof.
  revert d fs. induction b as [|x b IH]; intros d fs; [done|].
  cbn [add_dirs app]. rewrite IH. by rewrite <-!app_assoc.
Qed.

Lemma add_dirs_new d b1 b2 fs :
  b1 ≠ [] → add_dirs d (b1 ++ b2) fs !! (d ++ b1) = Some NDir.
Proof.
  intros Hb. induction b2 as [|x b2 IH] using rev_ind.
  - rewrite app_nil_r. destruct b1 as [|c b1] using rev_ind; [done|].
    by rewrite add_dirs_snoc, lookup_insert_eq.
  - rewrite app_assoc, add_dirs_snoc, lookup_insert_ne; [done|].
    intros E%(f_equal length). rewrite !length_app in E. simpl in E. lia.
Qed.

(** What is found below a new chain of directories. *)
Definition fresh_below fs (d : path) (b : list string) : Prop :=
  match b with [] => True | c :: _ => fs !! (d ++ [c]) = None end.

Lemma fresh_missing fs d b p :
  fs_wf fs → fresh_below fs d b → b ≠ [] → fs !! (d ++ b ++ p) = None.
Proof.
  intros Hw Hf Hb. destruct b as [|c b]; [done|]. simpl in Hf.
  replace (d ++ (c :: b) ++ p) with ((d ++ [c]) ++ b ++ p) by (by rewrite <-app_assoc).
  apply missing_below; [done| |done]. by destruct d.
Qed.

Lemma fresh_missing_prefix fs d b1 b2 :
  fs_wf fs → fresh_below fs d (b1 ++ b2) → b1 ≠ [] → fs !! (d ++ b1) = None.
Proof.
  intros Hw Hf Hb. rewrite <-(app_nil_r b1). apply fresh_missing; [done| |done].
  by destruct b1.
Qed.

Lemma add_dirs_incl fs d b : fs_wf fs → fresh_below fs d b → fs ⊆ add_dirs d b fs.
Proof.
  intros Hw Hf. apply map_subseteq_spec. intros p n Hp.
  destruct (add_dirs_other d b fs p) as [->|(_ & b1 & b2 & -> & Hb & ->)]; [done|].
  by rewrite (fresh_missing_prefix fs d b1 b2) in Hp.
Qed.

Lemma add_dirs_is_dir fs d b1 b2 :
  is_dir_at fs d = true → fs_wf fs → fresh_below fs d (b1 ++ b2) →
  is_dir_at (add_dirs d (b1 ++ b2) fs) (d ++ b1) = true.
Proof.
  intros Hd Hw Hf. destruct b1 as [|c b1].
  - rewrite app_nil_r. eapply is_dir_at_mono; [by apply add_dirs_incl|done].
  - unfold is_dir_at, node_at. rewrite bool_decide_eq_true.
    destruct (d ++ c :: b1) eqn:E; [done|]. rewrite <-E. by apply add_dirs_new.
Qed.

Lemma walk_add_dirs fs a d l b1 b2 :
  fs_wf fs → is_dir_at fs d = true → fresh_below fs d (b1 ++ b2) →
  Forall is_name (b1 ++ b2) →
  walk false fs MAXSYMLINKS [] a = Ok (d, l) →
  walk false (add_dirs d (b1 ++ b2) fs) MAXSYMLINKS [] (a ++ b1) = Ok (d ++ b1, l).
Proof.
  intros Hw Hd Hf Hn Ha. rewrite walk_app.
  rewrite (walk_mono fs _ _ _ _ _ (add_dirs_incl _ _ _ Hw Hf) Ha).
  revert b2 Hf Hn. induction b1 as [|c b1 IH] using rev_ind; intros b2 Hf Hn.
  { by rewrite walk_nil, app_nil_r. }
  rewrite walk_app. rewrite <-app_assoc in *.
  rewrite (IH _ Hf Hn), walk_cons, add_dirs_is_dir by done.
  rewrite Forall_app in Hn. destruct Hn as [_ [[-> ->%String.eqb_neq] _]%Forall_cons]. simpl.
  pose proof (add_dirs_new d (b1 ++ [c]) b2 fs) as E. rewrite <-app_assoc in E. simpl in E.
  rewrite app_assoc in E. rewrite E by (by destruct b1). by rewrite walk_nil, <-app_assoc.
Qed.

(** What creating the directories of a path does: it finds the part [a] that
    exists, and adds directories for [b], which lead to the whole path when it
    succeeds. *)
Definition dirs_created fs (cs : path) fs' (r : result unit errno) : Prop :=
  ∃ a b rest d l, cs = a ++ b ++ rest ∧ walk false fs MAXSYMLINKS [] a = Ok (d, l) ∧
    is_dir_at fs d = true ∧ fresh_below fs d b ∧ fs' = add_dirs d b fs ∧
    (r = Ok tt → rest = []).

Lemma dirs_created_none fs cs e :
  dirs_created fs cs fs (if path_is_dir fs cs then Ok tt else Err e).
Proof.
  unfold path_is_dir. destruct (resolve fs cs) as [q|] eqn:E.
  - apply resolve_Ok in E as [l E]. destruct (is_dir_at fs q) eqn:Hd.
    + exists cs, [], [], q, l. by rewrite !app_nil_r.
    + by exists [], [], cs, [], MAXSYMLINKS.
  - by exists [], [], cs, [], MAXSYMLINKS.
Qed.

Lemma locate_snoc special fs cs c :
  Forall is_name (cs ++ [c]) →
  locate special fs (cs ++ [c]) =
    match resolve fs cs with
    | Err e => Err e
    | Ok d => if is_dir_at fs d then Ok (d ++ [c]) else Err ENOTDIR
    end.
Proof.
  intros Hn. unfold locate. rewrite components_names by done.
  pose proof Hn as [_ [[Hdot Hc%String.eqb_neq] _]%Forall_cons]%Forall_app.
  destruct (cs ++ [c]) eqn:E; [by destruct cs|]. rewrite <-E.
  rewrite !List.last_last, removelast_last, Hc. unfold is_dot in Hdot. apply orb_false_iff in Hdot as [_ ->].
  by destruct (resolve fs cs).
Qed.

Lemma create_dirs_spec rev fs fs' r :
  fs_wf fs → Forall is_name (reverse rev) → create_dirs rev fs = (fs', r) →
  dirs_created fs (reverse rev) fs' r.
Proof.
  intros Hw. revert fs' r. induction rev as [|c up IH]; intros fs' r Hn.
  { intros [= <- <-]. by exists [], [], [], [], MAXSYMLINKS. }
  assert (Forall is_name (reverse up)) as Hup.
  { rewrite reverse_cons, Forall_app in Hn. by destruct Hn. }
  cbn [create_dirs]. unfold create_dir. rewrite !reverse_cons in *.
  rewrite locate_snoc by done. destruct (resolve fs (reverse up)) as [d|e] eqn:Hd.
  - apply resolve_Ok in Hd as [l Hd].
    destruct (is_dir_at fs d) eqn:Hdir; [|intros [= <- <-]; apply dirs_created_none].
    destruct (fs !! (d ++ [c])) as [n|] eqn:E; intros [= <- <-]; [apply dirs_created_none|].
    by exists (reverse up), [c], [], d, l.
  - destruct e; try (intros [= <- <-]; apply dirs_created_none).
    destruct (create_dirs up fs) as [fs1 r1] eqn:H1.
    destruct (IH _ _ Hup eq_refl) as (a & b & rest & d & l & Hcs & Ha & Hdir & Hf & -> & Hr).
    destruct r1 as [[]|e1].
    2:{ intros [= <- <-]. exists a, b, (rest ++ [c]), d, l. rewrite Hcs, <-!app_assoc.
        by split_and!. }
    rewrite (Hr eq_refl), app_nil_r in Hcs. clear Hr.
    assert (b ≠ []) as Hb.
    { intros ->. rewrite app_nil_r in Hcs. subst a. unfold resolve in Hd. by rewrite Ha in Hd. }
    assert (Forall is_name b) as Hnb by (rewrite Hcs, Forall_app in Hup; by destruct Hup).
    assert (walk false (add_dirs d b fs) MAXSYMLINKS [] (reverse up) = Ok (d ++ b, l)) as Hwalk.
    { rewrite Hcs. pose proof (walk_add_dirs fs a d l b [] Hw Hdir) as H.
      rewrite app_nil_r in H. by apply H. }
    rewrite locate_snoc by done. assert (resolve (add_dirs d b fs) (reverse up) = Ok (d ++ b)) as ->
      by (apply resolve_Ok; by exists l).
    pose proof (add_dirs_is_dir fs d b [] Hdir Hw) as Hdir'. rewrite app_nil_r in Hdir'.
    rewrite Hdir' by done. clear Hdir'.
    assert (add_dirs d b fs !! ((d ++ b) ++ [c]) = None) as ->.
    { destruct (add_dirs_other d b fs ((d ++ b) ++ [c])) as [->|(_ & b1 & b2 & -> & _ & E)].
      - rewrite <-app_assoc. by apply fresh_missing.
      - apply (f_equal length) in E. rewrite !length_app in E. simpl in E. lia. }
    intros [= <- <-]. exists a, (b ++ [c]), [], d, l.
    rewrite Hcs, app_nil_r, add_dirs_snoc, <-!app_assoc. split_and!; try done. by destruct b.
Qed.
Lemma clean_mono fs fs' p : fs ⊆ fs' → clean fs p → clean fs' p.
Proof.
  intros Hs [Hn Hc]. split; [done|]. intros q c r E.
  destruct (Hc q c r E) as (Hd & n & Hl & Hnl). split; [by eapply is_dir_at_mono|].
  exists n. split; [by eapply lookup_weaken|done].
Qed.

Lemma walk_components fs l cur p d l' :
  walk false fs l cur p = Ok (d, l') → walk false fs l cur (components p) = Ok (d, l').
Proof.
  revert l cur. induction p as [|c p IH]; intros l cur; [done|].
  change (c :: p) with ([c] ++ p). rewrite walk_app, components_app.
  destruct (walk false fs l cur [c]) as [[d1 l1]|] eqn:E; [|done]. intros H. rewrite walk_app.
  unfold components at 1. simpl. destruct (is_dot c) eqn:Hdot; simpl.
  - rewrite walk_cons, walk_nil, Hdot in E. destruct (negb _); [done|]. simplify_eq.
    rewrite walk_nil. by apply IH.
  - rewrite E. by apply IH.
Qed.

(** A walk that may create the last name. *)
Lemma walk_create_app fs l cur t1 t2 :
  t2 ≠ [] →
  walk true fs l cur (t1 ++ t2) =
    match walk false fs l cur t1 with
    | Ok (d, l') => walk true fs l' d t2
    | Err e => Err e
    end.
Proof.
  intros Ht. revert l cur t1. apply (walk_ind (λ l cur t1, walk true fs l cur (t1 ++ t2) = _)).
  - intros l cur. by rewrite walk_nil.
  - intros l cur c t IHt IHl. rewrite <-app_comm_cons, !walk_cons.
    destruct (negb (is_dir_at fs cur)); [done|]. destruct (is_dot c); [apply IHt|].
    destruct (c =? "..")%string; [apply IHt|].
    destruct (fs !! (cur ++ [c])) as [[| |target]|]; [apply IHt..| |].
    + destruct l as [|l]; [done|]. rewrite app_assoc. apply IHl. lia.
    + by destruct t, t2.
Qed.

Lemma clean_walk_create fs l p t :
  clean fs (p ++ t) → walk true fs l p t = Ok (p ++ t, l).
Proof.
  revert p. induction t as [|c t IH]; intros p Hc; [by rewrite walk_nil, app_nil_r|].
  replace (p ++ c :: t) with ((p ++ [c]) ++ t) in * by (by rewrite <-app_assoc).
  rewrite walk_cons, (IH (p ++ [c])) by done. destruct Hc as [Hn Hc].
  destruct (Hc p c t) as (-> & n & -> & Hnl); [by rewrite <-app_assoc|].
  rewrite !Forall_app in Hn. destruct Hn as [[_ [[-> ->%String.eqb_neq] _]%Forall_cons] _]. simpl.
  destruct n; try done. by destruct (Hnl target).
Qed.

Lemma clean_components fs p : clean fs p → components p = p.
Proof. intros [Hn _]. by apply components_names. Qed.

Lemma path_exists_walk fs p :
  path_exists fs p = true ↔ ∃ d l, walk false fs MAXSYMLINKS [] p = Ok (d, l).
Proof.
  unfold path_exists. destruct (resolve fs p) as [d|] eqn:E.
  - apply resolve_Ok in E as [l E]. split; [by exists d, l|done].
  - split; [done|]. intros (d & l & E'). unfold resolve in E. by rewrite E' in E.
Qed.

(** Nothing is created when the path exists. *)
Lemma dirs_created_existing fs cs fs' r d0 l0 :
  dirs_created fs cs fs' r → Forall is_name cs → walk false fs MAXSYMLINKS [] cs = Ok (d0, l0) →
  fs' = fs.
Proof.
  intros (a & b & rest & d & l & -> & Ha & Hd & Hf & -> & _) Hn Hw.
  destruct b as [|c b]; [done|]. exfalso. rewrite walk_app, Ha in Hw. simpl in Hf.
  rewrite !Forall_app, Forall_cons in Hn. destruct Hn as (_ & [[Hdot Hne%String.eqb_neq] _] & _).
  simpl in Hw. by rewrite walk_cons, Hd, Hdot, Hne, Hf in Hw.
Qed.

Lemma locate_clean special fs p q : clean fs p → locate special fs p = Ok q → q = p.
Proof.
  intros Hc. unfold locate. rewrite (clean_components _ _ Hc).
  destruct (_ =? ".")%string; [by destruct (resolve _ _) as [d|]; [destruct (is_dir_at fs d)|]|].
  destruct p as [|x p]; [done|].
  rewrite (clean_resolve fs (removelast (x :: p))) by (by apply clean_removelast).
  destruct (is_dir_at _ _); [|done]. destruct (_ =? "..")%string; [done|]. intros [= <-].
  exact (eq_sym (app_removelast_last EmptyString (l := x :: p) ltac:(done))).
Qed.

(** ** The files of a directory *)

(** There is nothing, or a regular file. *)
Definition free fs (p : path) : Prop := ∀ m, fs !! p = Some m → ∃ c, m = NFile c.

(** A directory of a tree that is reached without links. *)
Record at_dir fs (d : path) : Prop := {
  ad_tree : fs_wf fs;
  ad_clean : clean fs d;
  ad_is_dir : is_dir_at fs d = true;
}.

Lemma node_at_snoc fs d n : node_at fs (d ++ [n]) = fs !! (d ++ [n]).
Proof. by destruct d. Qed.

Lemma free_insert fs p q c : free fs p → free (<[q := NFile c]> fs) p.
Proof.
  intros Hf m. destruct (decide (q = p)) as [->|Hne].
  - rewrite lookup_insert_eq. intros [= <-]. by eexists.
  - rewrite lookup_insert_ne by done. apply Hf.
Qed.

Lemma free_delete fs p q : free fs p → free (delete q fs) p.
Proof. intros Hf m. rewrite lookup_delete_Some. intros [_ Hm]. by apply Hf. Qed.

(** A change of one file keeps the directories. *)
Lemma is_dir_alter fs fs' q p :
  free fs q → (∀ p, p ≠ q → fs' !! p = fs !! p) → is_dir_at fs p = true → is_dir_at fs' p = true.
Proof.
  intros Hf Hsame. unfold is_dir_at, node_at. rewrite !bool_decide_eq_true. destruct p as [|x p]; [done|].
  intros Hp. rewrite Hsame; [done|]. intros E. rewrite E in Hp. by destruct (Hf _ Hp).
Qed.

Lemma at_dir_alter fs fs' d d' n :
  at_dir fs d → is_dir_at fs d' = true → free fs (d' ++ [n]) → free fs' (d' ++ [n]) →
  (∀ p, p ≠ d' ++ [n] → fs' !! p = fs !! p) → at_dir fs' d.
Proof.
  intros [Hw [Hn Hc] Hd] Hd' Hf Hf' Hsame. split.
  - intros p c m Hm. destruct (decide (p ++ [c] = d' ++ [n])) as [E|Hne].
    + apply app_inj_tail in E as [-> ->]. by apply (is_dir_alter fs fs' (d' ++ [n])).
    + rewrite Hsame in Hm by done. apply (is_dir_alter fs fs' (d' ++ [n])); [done..|]. by apply (Hw p c m).
  - split; [done|]. intros q c r E. destruct (Hc q c r E) as (Hq & m & Hm & Hl).
    split; [by apply (is_dir_alter fs fs' (d' ++ [n]))|]. exists m. rewrite Hsame; [done|]. intros E'.
    assert (is_dir_at fs (d' ++ [n]) = true) as Hdir.
    { rewrite <-E'. destruct r as [|x r]; [by rewrite <-E|].
      destruct (Hc (q ++ [c]) x r) as [Hdir _]; [by rewrite E, <-app_assoc|done]. }
    unfold is_dir_at in Hdir. rewrite node_at_snoc, bool_decide_eq_true in Hdir. by destruct (Hf _ Hdir).
  - by apply (is_dir_alter fs fs' (d' ++ [n])).
Qed.

Lemma at_dir_insert fs d d' n c :
  at_dir fs d → is_dir_at fs d' = true → free fs (d' ++ [n]) → at_dir (<[d' ++ [n] := NFile c]> fs) d.
Proof.
  intros Ha Hd Hf. eapply (at_dir_alter fs _ d d' n); [done..| |].
  - by apply free_insert.
  - intros p Hp. by rewrite lookup_insert_ne.
Qed.

Lemma at_dir_delete fs d d' n :
  at_dir fs d → is_dir_at fs d' = true → free fs (d' ++ [n]) → at_dir (delete (d' ++ [n]) fs) d.
Proof.
  intros Ha Hd Hf. eapply (at_dir_alter fs _ d d' n); [done..| |].
  - by apply free_delete.
  - intros p Hp. by rewrite lookup_delete_ne.
Qed.

Section at_dir.
Context fs (d : path) (Hd : at_dir fs d).

Lemma names_at n : is_name n → Forall is_name (d ++ [n]).
Proof. intros Hn. apply Forall_app. split; [apply Hd|by constructor]. Qed.

Lemma resolve_at n c : is_name n → fs !! (d ++ [n]) = Some (NFile c) → resolve fs (d ++ [n]) = Ok (d ++ [n]).
Proof. intros Hn Hl. apply clean_resolve. eapply clean_snoc; [apply Hd|apply Hd|done|done|done]. Qed.

Lemma read_at n c :
  is_name n → fs !! (d ++ [n]) = Some (NFile c) →
  path_exists fs (d ++ [n]) = true ∧ fs_read_file (d ++ [n]) fs = Ok c.
Proof.
  intros Hn Hl. pose proof (resolve_at n c Hn Hl) as Hp. unfold path_exists, fs_read_file.
  rewrite Hp. split; [done|]. by rewrite node_at_snoc, Hl.
Qed.

Lemma missing_at n : is_name n → fs !! (d ++ [n]) = None → resolve fs (d ++ [n]) = Err ENOENT.
Proof.
  intros [Hn1 Hn2%String.eqb_neq] Hl. unfold resolve.
  rewrite walk_app, (clean_walk fs _ [] d) by apply Hd. simpl.
  by rewrite walk_cons, (ad_is_dir _ _ Hd), Hn1, Hn2, Hl.
Qed.

Lemma walk_at n :
  is_name n → free fs (d ++ [n]) →
  walk true fs MAXSYMLINKS [] (d ++ [n]) = Ok (d ++ [n], MAXSYMLINKS) ∧ is_dir_at fs (d ++ [n]) = false.
Proof.
  intros [Hn1 Hn2%String.eqb_neq] Hf. unfold is_dir_at at 1. rewrite node_at_snoc.
  rewrite walk_create_app, (clean_walk fs _ [] d) by (done || apply Hd). simpl app.
  rewrite walk_cons, (ad_is_dir _ _ Hd), Hn1, Hn2. simpl negb. cbn iota.
  destruct (fs !! (d ++ [n])) as [m|] eqn:Hl; [|by rewrite bool_decide_false by done].
  destruct (Hf m Hl) as [c ->]. rewrite walk_nil. by rewrite bool_decide_false by done.
Qed.

Lemma locate_at special n : is_name n → locate special fs (d ++ [n]) = Ok (d ++ [n]).
Proof.
  intros Hn. rewrite locate_snoc by by apply names_at.
  by rewrite (clean_resolve fs _ (ad_clean _ _ Hd)), (ad_is_dir _ _ Hd).
Qed.
End at_dir.

(** Below a file, and below nothing, there is nothing. *)
Lemma nothing_below fs p c r :
  fs_wf fs → p ≠ [] → free fs p → fs !! (p ++ c :: r) = None.
Proof.
  intros Hw Hp Hf. replace (p ++ c :: r) with ((p ++ [c]) ++ r) by (by rewrite <-app_assoc).
  assert (fs !! (p ++ [c]) = None) as Hn.
  { destruct (fs !! (p ++ [c])) as [m|] eqn:E; [|done]. apply Hw in E.
    unfold is_dir_at, node_at in E. rewrite bool_decide_eq_true in E. destruct p; [done|].
    by destruct (Hf _ E). }
  apply missing_below; [done|by destruct p|done].
Qed.

Lemma move_file fs p q c :
  fs_wf fs → p ≠ [] → p ≠ q → fs !! p = Some (NFile c) →
  move_tree p q fs = <[q := NFile c]> (delete p fs).
Proof.
  intros Hw Hp0 Hpq Hp. unfold move_tree.
  assert (∀ k m, fs !! k = Some m → k ≠ p → move_key p q k = k) as Hkey.
  { intros k m Hk Hne. unfold move_key. destruct (is_prefix p k) eqn:E; [|done]. exfalso.
    apply is_prefix_spec in E as [[|x r] ->]; [by rewrite app_nil_r in Hne|].
    rewrite (nothing_below fs p x r Hw Hp0) in Hk; [done|]. intros m' Hm'. rewrite Hp in Hm'.
    injection Hm' as <-. by eexists. }
  assert (move_key p q p = q) as Hpkey.
  { unfold move_key. rewrite (proj2 (is_prefix_spec p p)) by done. by rewrite drop_ge, app_nil_r. }
  apply map_eq. intros k. destruct (decide (k = q)) as [->|Hkq].
  - rewrite lookup_insert_eq. apply elem_of_list_to_map_1'.
    + intros m' ([k' m0] & [= E1 ->] & Hin)%list_elem_of_fmap. apply elem_of_map_to_list in Hin.
      rewrite lookup_delete_Some in Hin. destruct Hin as [Hk' Hin]. simpl in *.
      destruct (decide (k' = p)) as [->|Hne]; [congruence|]. by rewrite (Hkey k' m0 Hin Hne) in E1.
    + apply list_elem_of_fmap. exists (p, NFile c). simpl. rewrite Hpkey. split; [done|].
      apply elem_of_map_to_list. by rewrite lookup_delete_ne.
  - rewrite lookup_insert_ne by done. destruct (decide (k = p)) as [->|Hkp].
    + rewrite lookup_delete_eq. apply not_elem_of_list_to_map_1. rewrite <-list_fmap_compose.
      intros ([k' m0] & E1 & Hin)%list_elem_of_fmap. apply elem_of_map_to_list in Hin.
      rewrite lookup_delete_Some in Hin. destruct Hin as [Hk' Hin]. simpl in *.
      destruct (decide (k' = p)) as [->|Hne]; [congruence|]. by rewrite (Hkey k' m0 Hin Hne) in E1.
    + rewrite lookup_delete_ne by done. destruct (fs !! k) as [m|] eqn:Hk.
      * apply elem_of_list_to_map_1'.
        -- intros m' ([k' m0] & [= E1 ->] & Hin)%list_elem_of_fmap. apply elem_of_map_to_list in Hin.
           rewrite lookup_delete_Some in Hin. destruct Hin as [Hk' Hin]. simpl in *.
           destruct (decide (k' = p)) as [->|Hne]; [congruence|].
           rewrite (Hkey k' m0 Hin Hne) in E1. congruence.
        -- apply list_elem_of_fmap. exists (k, m). simpl. rewrite (Hkey k m Hk Hkp). split; [done|].
           apply elem_of_map_to_list. by rewrite lookup_delete_ne.
      * apply not_elem_of_list_to_map_1. rewrite <-list_fmap_compose.
        intros ([k' m0] & E1 & Hin)%list_elem_of_fmap. apply elem_of_map_to_list in Hin.
        rewrite lookup_delete_Some in Hin. destruct Hin as [Hk' Hin]. simpl in *.
        destruct (decide (k' = p)) as [->|Hne]; [congruence|].
        rewrite (Hkey k' m0 Hin Hne) in E1. congruence.
Qed.

Lemma rename_at fs d n d' n' c :
  at_dir fs d → at_dir fs d' → is_name n → is_name n' → d ++ [n] ≠ d' ++ [n'] →
  fs !! (d ++ [n]) = Some (NFile c) → free fs (d' ++ [n']) →
  fs_rename (d ++ [n]) (d' ++ [n']) fs =
    (<[d' ++ [n'] := NFile c]> (delete (d ++ [n]) fs), Ok tt).
Proof.
  intros Hd Hd' Hn Hn' Hne Hl Hf. unfold fs_rename. rewrite !locate_at by done. rewrite Hl.
  rewrite !List.last_last, (proj1 Hn), (proj1 Hn'). simpl orb. simpl andb. cbn iota.
  rewrite bool_decide_false by done.
  assert (is_prefix (d ++ [n]) (d' ++ [n']) = false) as ->.
  { apply not_true_iff_false. rewrite is_prefix_spec. intros [k E].
    destruct k as [|x k _] using rev_ind; [by rewrite app_nil_r in E|].
    rewrite app_assoc in E. apply app_inj_tail in E as [E _].
    pose proof (ad_is_dir _ _ Hd') as Hdir. rewrite E in Hdir. destruct k as [|y k].
    - rewrite app_nil_r in Hdir. unfold is_dir_at in Hdir.
      rewrite node_at_snoc, Hl, bool_decide_eq_true in Hdir. done.
    - unfold is_dir_at, node_at in Hdir. rewrite bool_decide_eq_true in Hdir.
      destruct ((d ++ [n]) ++ y :: k) eqn:E2; [by destruct d|]. rewrite <-E2 in Hdir.
      rewrite (nothing_below fs) in Hdir; [done|apply Hd|by destruct d|].
      intros m Hm. rewrite Hl in Hm. injection Hm as <-. by eexists. }
  pose proof (move_file fs (d ++ [n]) (d' ++ [n']) c (ad_tree _ _ Hd) ltac:(by destruct d) Hne Hl) as Hm.
  destruct (fs !! (d' ++ [n'])) as [m|] eqn:Hq; [|by rewrite Hm].
  destruct (Hf m Hq) as [c' ->]. by rewrite Hm.
Qed.
End walk_lemmas.
