(* ===== verification/MemoryStore.v ===== *)
(** * The memory store

    Models agent/aether-agent-runtime/src/memory_store.rs: the interface, the
    store in memory, the store in a directory over [UnixFs], and the envelope
    of persisted values. *)
From S2P Require Import Prelude RustStd Text UnixFs.
From Stdlib Require Import Ascii.

Definition MAX_NAME_LEN : nat := 64.
Definition MAX_PAYLOAD_BYTES : N := 262144.

Inductive MemoryStoreError :=
| MsIo (s : string) | MsInvalidName (s : string) | MsTooLarge (size cap : N) | MsCorrupt (s : string).

Definition MemoryStoreError_display (e : MemoryStoreError) : string :=
  match e with
  | MsIo s => "memory store io: " +:+ s
  | MsInvalidName s => "memory store invalid name: " +:+ s
  | MsTooLarge size cap =>
      "memory store payload too large: " +:+ pretty size +:+ " bytes (cap " +:+ pretty cap +:+ ")"
  | MsCorrupt s => "memory store corrupt: " +:+ s
  end.

(** The trait [MemoryStore]. *)
Class MemoryStore (S : Type) := {
  store_load : string → S → result (option (list byte)) MemoryStoreError;
  store_save : string → list byte → S → S * result unit MemoryStoreError;
  store_delete : string → S → S * result bool MemoryStoreError;
}.

Section names.
Context `{!DebugText}.

Definition validate_name (name : string) : result unit MemoryStoreError :=
  if str_is_empty name then Err (MsInvalidName "name is empty")
  else if (MAX_NAME_LEN <? String.length name)%nat
  then Err (MsInvalidName ("name too long: " +:+ pretty (N.of_nat (String.length name)) +:+
                           " chars (cap " +:+ pretty (N.of_nat MAX_NAME_LEN) +:+ ")"))
  else if str_contains_from "/" name || str_contains_from "\" name
  then Err (MsInvalidName ("name contains a path separator: " +:+ debug_str name))
  else if (name =? "..")%string || str_contains_from ".." name
  then Err (MsInvalidName ("name contains a parent reference: " +:+ debug_str name))
  else if String.prefix (String Ascii.zero EmptyString) name
  then Err (MsInvalidName "name starts with NUL")
  else Ok tt.

(** ** In memory *)

Definition InMemoryStore : Type := gmap string (list byte).

Definition InMemoryStore_names (s : InMemoryStore) : list string := btree_keys s.

Definition too_large (bytes : list byte) : bool := (MAX_PAYLOAD_BYTES <? N.of_nat (length bytes))%N.

Definition InMemoryStore_load (name : string) (s : InMemoryStore) :
    result (option (list byte)) MemoryStoreError :=
  let? _ := validate_name name in Ok (s !! name).

Definition InMemoryStore_save (name : string) (bytes : list byte) (s : InMemoryStore) :
    InMemoryStore * result unit MemoryStoreError :=
  match validate_name name with
  | Err e => (s, Err e)
  | Ok _ =>
      if too_large bytes then (s, Err (MsTooLarge (N.of_nat (length bytes)) MAX_PAYLOAD_BYTES))
      else (<[name := bytes]> s, Ok tt)
  end.

Definition InMemoryStore_delete (name : string) (s : InMemoryStore) :
    InMemoryStore * result bool MemoryStoreError :=
  match validate_name name with
  | Err e => (s, Err e)
  | Ok _ => (delete name s, Ok (bool_decide (is_Some (s !! name))))
  end.

#[export] Instance in_memory_store : MemoryStore InMemoryStore := {|
  store_load := InMemoryStore_load;
  store_save := InMemoryStore_save;
  store_delete := InMemoryStore_delete;
|}.

(** ** In a directory

    The root is an absolute path.  A store is the file system it writes to. *)

Section files.
Variable no_space : filesystem → path → bool.
Variable root : path.

(** [root.join(name)], for a name without separators. *)
Definition store_path (name : string) : result path MemoryStoreError :=
  let? _ := validate_name name in Ok (root ++ [name]).

(** The standard library refuses a path with a NUL byte before the system sees
    it; the root has none. *)
Definition has_nul (name : string) : bool := str_contains_from (String Ascii.zero EmptyString) name.
Definition nul_error : string := "file name contained an unexpected NUL byte".

Definition FileMemoryStore_load (name : string) (fs : filesystem) :
    result (option (list byte)) MemoryStoreError :=
  let? target := store_path name in
  if has_nul name then Err (MsIo ("read " +:+ display target +:+ ": " +:+ nul_error))
  else match fs_read_file target fs with
  | Ok bytes => Ok (Some bytes)
  | Err ENOENT => Ok None
  | Err e => Err (MsIo ("read " +:+ display target +:+ ": " +:+ errno_text e))
  end.

(** The root, made when it is missing. *)
Definition create_root (fs : filesystem) : filesystem * result unit MemoryStoreError :=
  if path_exists fs root then (fs, Ok tt)
  else match create_dir_all root fs with
       | (fs, Ok _) => (fs, Ok tt)
       | (fs, Err e) => (fs, Err (MsIo ("create root " +:+ display root +:+ ": " +:+ errno_text e)))
       end.

Definition FileMemoryStore_save (name : string) (bytes : list byte) (fs : filesystem) :
    filesystem * result unit MemoryStoreError :=
  match store_path name with
  | Err e => (fs, Err e)
  | Ok target =>
      if too_large bytes then (fs, Err (MsTooLarge (N.of_nat (length bytes)) MAX_PAYLOAD_BYTES))
      else match create_root fs with
           | (fs, Err e) => (fs, Err e)
           | (fs, Ok _) =>
               let tmp := root ++ [name +:+ ".tmp"] in
               if has_nul name then (fs, Err (MsIo ("write " +:+ display tmp +:+ ": " +:+ nul_error)))
               else match fs_write_file no_space tmp bytes fs with
               | (fs, Err e) => (fs, Err (MsIo ("write " +:+ display tmp +:+ ": " +:+ errno_text e)))
               | (fs, Ok _) =>
                   match fs_rename tmp target fs with
                   | (fs, Ok _) => (fs, Ok tt)
                   | (fs, Err e) =>
                       let '(fs, _) := fs_remove_file tmp fs in
                       (fs, Err (MsIo ("rename " +:+ display tmp +:+ " -> " +:+ display target +:+ ": "
                                       +:+ errno_text e)))
                   end
               end
           end
  end.

Definition FileMemoryStore_delete (name : string) (fs : filesystem) :
    filesystem * result bool MemoryStoreError :=
  match store_path name with
  | Err e => (fs, Err e)
  | Ok target =>
      if has_nul name then (fs, Err (MsIo ("remove " +:+ display target +:+ ": " +:+ nul_error)))
      else match fs_remove_file target fs with
      | (fs, Ok _) => (fs, Ok true)
      | (fs, Err ENOENT) => (fs, Ok false)
      | (fs, Err e) => (fs, Err (MsIo ("remove " +:+ display target +:+ ": " +:+ errno_text e)))
      end
  end.

Definition file_memory_store : MemoryStore filesystem := {|
  store_load := FileMemoryStore_load;
  store_save := FileMemoryStore_save;
  store_delete := FileMemoryStore_delete;
|}.
End files.
End names.

(** ** Envelopes *)

(** FNV-1a, with [wrapping_mul] on [u64]. *)
Definition FNV_OFFSET : N := 0xcbf29ce484222325.
Definition FNV_PRIME : N := 0x100000001b3.
Definition fnv1a_64 (bytes : list byte) : N :=
  foldl (λ h b, (N.lxor h (Byte.to_N b) * FNV_PRIME) mod 18446744073709551616)%N FNV_OFFSET bytes.
Definition fnv1a_64_hex (bytes : list byte) : string := hex_fixed 16 (fnv1a_64 bytes).

Record Persisted {T : Type} := mkPersisted {
  pd_version : N;
  pd_saved_at_ms : N;
  pd_content_checksum : string;
  pd_data : T;
}.
Arguments Persisted T : clear implicits.
Arguments mkPersisted {T}.

Definition ENVELOPE_VERSION : N := 1.

(** The derived serializers of a type and of its envelope. *)
Class PersistCodec (T : Type) := {
  data_to_vec : T → result (list byte) string;
  envelope_to_vec : Persisted T → result (list byte) string;
  envelope_from_slice : list byte → result (Persisted T) string;
}.

Section envelope.
Context {T : Type} `{!PersistCodec T}.

(** [now_ms] is the time of the call. *)
Definition Persisted_wrap (now_ms : N) (data : T) : result (Persisted T) MemoryStoreError :=
  match data_to_vec data with
  | Err e => Err (MsCorrupt ("encode inner: " +:+ e))
  | Ok bytes => Ok (mkPersisted ENVELOPE_VERSION now_ms (fnv1a_64_hex bytes) data)
  end.

Definition Persisted_validate (p : Persisted T) : result T MemoryStoreError :=
  if negb (pd_version p =? ENVELOPE_VERSION)%N
  then Err (MsCorrupt ("envelope version mismatch: got " +:+ pretty (pd_version p) +:+ ", expected " +:+
                       pretty ENVELOPE_VERSION))
  else Ok (pd_data p).

Definition encode_persisted (now_ms : N) (value : T) : result (list byte) MemoryStoreError :=
  let? envelope := Persisted_wrap now_ms value in
  map_err (λ e, MsCorrupt ("encode envelope: " +:+ e)) (envelope_to_vec envelope).

Definition decode_persisted (bytes : list byte) : result T MemoryStoreError :=
  match envelope_from_slice bytes with
  | Err e => Err (MsCorrupt ("decode envelope: " +:+ e))
  | Ok envelope => Persisted_validate envelope
  end.
End envelope.

(** * The two memory stores agree *)

(** ** Sequences of operations on any store *)

Inductive StoreOp := SoLoad (name : string) | SoSave (name : string) (bytes : list byte) | SoDelete (name : string).
Definition op_name (o : StoreOp) : string :=
  match o with SoLoad n | SoSave n _ | SoDelete n => n end.

Inductive StoreAnswer :=
| SaLoaded (r : result (option (list byte)) MemoryStoreError)
| SaSaved (r : result unit MemoryStoreError)
| SaDeleted (r : result bool MemoryStoreError).

Section runs.
Context {S : Type} `{!MemoryStore S}.

Definition run_op (o : StoreOp) (s : S) : S * StoreAnswer :=
  match o with
  | SoLoad n => (s, SaLoaded (store_load n s))
  | SoSave n b => let '(s, r) := store_save n b s in (s, SaSaved r)
  | SoDelete n => let '(s, r) := store_delete n s in (s, SaDeleted r)
  end.

Fixpoint run_ops (l : list StoreOp) (s : S) : list StoreAnswer :=
  match l with
  | [] => []
  | o :: l => let '(s, a) := run_op o s in a :: run_ops l s
  end.
End runs.

(** ** Names *)

Lemma ends_with_app (a suf : string) : ends_with suf (a +:+ suf) = true.
Proof.
  induction a as [|c a IH].
  - rewrite str_app_empty. destruct suf; [done|]. cbn [ends_with]. by rewrite String.eqb_refl.
  - rewrite str_app_cons. cbn [ends_with]. by rewrite IH, orb_true_r.
Qed.

(** A name that is no directory and no temporary file, without a NUL byte. *)
Definition proper_name (n : string) : Prop := n ≠ "." ∧ has_nul n = false ∧ ends_with ".tmp" n = false.

Section stores.
Context `{!DebugText}.
Variable no_space : filesystem → path → bool.
Variable root : path.
Implicit Types fs : filesystem.

Lemma valid_is_name n : validate_name n = Ok tt → n ≠ "." → is_name n.
Proof.
  unfold validate_name. destruct (str_is_empty n) eqn:He; [done|].
  destruct (MAX_NAME_LEN <? _)%nat; [done|]. destruct (_ || _); [done|].
  destruct ((n =? "..")%string || _) eqn:Hd; [done|]. intros _ Hne. apply orb_false_iff in Hd as [Hd _]. split.
  - unfold is_dot. apply orb_false_iff. split; [by destruct n|by apply String.eqb_neq].
  - by apply String.eqb_neq in Hd.
Qed.

Lemma tmp_is_name n : is_name (n +:+ ".tmp").
Proof.
  assert (4 ≤ String.length (n +:+ ".tmp")) as Hlen by (rewrite str_length_app; simpl; lia).
  split; [|intros E; rewrite E in Hlen; simpl in Hlen; lia].
  unfold is_dot. apply orb_false_iff. rewrite !String.eqb_neq.
  split; intros E; rewrite E in Hlen; simpl in Hlen; lia.
Qed.

Definition entry (n : string) : path := root ++ [n].

Lemma entry_inj n m : entry n = entry m → n = m.
Proof. unfold entry. intros E%app_inv_head. by injection E. Qed.

Lemma tmp_ne n : n ≠ n +:+ ".tmp".
Proof. intros E%(f_equal String.length). rewrite str_length_app in E. simpl in E. lia. Qed.

(** Saving replaces the entry and its temporary file; on a full disk it leaves an
    empty temporary file. *)
Lemma save_effect n bytes fs :
  at_dir fs root → validate_name n = Ok tt → is_name n → has_nul n = false → too_large bytes = false →
  free fs (entry n) → free fs (entry (n +:+ ".tmp")) →
  if no_space fs (entry (n +:+ ".tmp")) then
    ∃ e, FileMemoryStore_save no_space root n bytes fs = (<[entry (n +:+ ".tmp") := NFile []]> fs, Err e)
  else FileMemoryStore_save no_space root n bytes fs
    = (<[entry n := NFile bytes]> (delete (entry (n +:+ ".tmp")) fs), Ok tt).
Proof.
  intros Hr Hv Hn Hnul Hlen Hf Hf'. unfold FileMemoryStore_save, store_path. rewrite Hv, Hlen, Hnul.
  unfold create_root, path_exists. rewrite (clean_resolve _ _ (ad_clean _ _ Hr)). simpl.
  fold (entry n) (entry (n +:+ ".tmp")). unfold fs_write_file.
  destruct (walk_at fs root Hr _ (tmp_is_name n) Hf') as [Hw Hd]. fold (entry (n +:+ ".tmp")) in Hw, Hd.
  rewrite Hw, Hd. destruct (no_space fs _); [by eexists|].
  assert (entry (n +:+ ".tmp") ≠ entry n) as Hne by (intros E%entry_inj; symmetry in E; by apply tmp_ne in E).
  assert (is_dir_at fs root = true) as Hdir by apply Hr.
  pose proof (at_dir_insert fs root root (n +:+ ".tmp") bytes Hr Hdir Hf') as Hr'.
  pose proof (rename_at _ root (n +:+ ".tmp") root n bytes Hr' Hr' (tmp_is_name n) Hn Hne) as Hmv.
  fold (entry n) (entry (n +:+ ".tmp")) in Hmv.
  rewrite Hmv; [by rewrite delete_insert_eq|by rewrite lookup_insert_eq|by apply free_insert].
Qed.

(** *** A directory used for some names *)

Variable names : list string.

(** The root is a directory reached without links, and none of the names and of
    their temporary files is a directory or a link. *)
Record ready fs : Prop := {
  rd_root : at_dir fs root;
  rd_entry n : n ∈ names → free fs (entry n);
  rd_tmp n : n ∈ names → free fs (entry (n +:+ ".tmp"));
}.

(** Names a store can be used for. *)
Definition usable_names : Prop :=
  Forall (λ n, validate_name n = Ok tt ∧ n ≠ "." ∧ has_nul n = false ∧ ends_with ".tmp" n = false) names.

Lemma usable_insert fs n b :
  ready fs → free fs (entry n) → is_dir_at fs root = true → ready (<[entry n := NFile b]> fs).
Proof.
  intros [Hr He Ht] Hf Hd. split; [by apply at_dir_insert|..]; intros m Hm; apply free_insert; auto.
Qed.

Lemma usable_delete fs n :
  ready fs → free fs (entry n) → is_dir_at fs root = true → ready (delete (entry n) fs).
Proof.
  intros [Hr He Ht] Hf Hd. split; [by apply at_dir_delete|..]; intros m Hm; apply free_delete; auto.
Qed.

(** A save, whether it succeeds or not, leaves the directory ready and the other
    names alone. *)
Lemma save_ready n bytes fs fs' r :
  usable_names → n ∈ names → ready fs → FileMemoryStore_save no_space root n bytes fs = (fs', r) →
  ready fs' ∧ (r = Ok tt → fs' !! entry n = Some (NFile bytes)) ∧
  (∀ m, m ∈ names → m ≠ n → fs' !! entry m = fs !! entry m).
Proof.
  intros Hu Hn Hd Hs. pose proof (proj1 (Forall_forall _ _) Hu) as Hu'.
  destruct (Hu' n Hn) as (Hv & Hdot & Hnul & _). pose proof (valid_is_name n Hv Hdot) as Hname.
  destruct (too_large bytes) eqn:Hl.
  { unfold FileMemoryStore_save, store_path in Hs. rewrite Hv, Hl in Hs. by simplify_eq. }
  pose proof (rd_tmp _ Hd n Hn) as Ht. pose proof (rd_entry _ Hd n Hn) as He.
  assert (is_dir_at fs root = true) as Hdir by apply (rd_root _ Hd).
  assert (∀ m, m ∈ names → entry m ≠ entry (n +:+ ".tmp")) as Hne.
  { intros m Hm ->%entry_inj. destruct (Hu' _ Hm) as (_ & _ & _ & Hsuf). by rewrite ends_with_app in Hsuf. }
  pose proof (save_effect n bytes fs (rd_root _ Hd) Hv Hname Hnul Hl He Ht) as Heff.
  destruct (no_space fs _).
  - destruct Heff as [e Heff]. rewrite Heff in Hs. injection Hs as <- <-. split; [by apply usable_insert|].
    split; [done|]. intros m Hm _. by rewrite lookup_insert_ne by (apply not_eq_sym; auto).
  - rewrite Heff in Hs. injection Hs as <- <-. pose proof (usable_delete fs _ Hd Ht Hdir) as Hd'. split.
    + apply usable_insert; [done|by apply free_delete|]. apply (rd_root _ Hd').
    + split; [intros _; apply lookup_insert_eq|]. intros m Hm Hmn.
      rewrite lookup_insert_ne by (intros E%entry_inj; congruence). by rewrite lookup_delete_ne by (apply not_eq_sym; auto).
Qed.

(** What a load answers depends on the entry only. *)
Lemma load_ready n fs :
  usable_names → n ∈ names → ready fs →
  FileMemoryStore_load root n fs = Ok (match fs !! entry n with Some (NFile b) => Some b | _ => None end).
Proof.
  intros Hu Hn Hd. destruct (proj1 (Forall_forall _ _) Hu n Hn) as (Hv & Hdot & Hnul & _).
  pose proof (valid_is_name n Hv Hdot) as Hname. unfold FileMemoryStore_load, store_path. rewrite Hv, Hnul.
  destruct (fs !! entry n) as [k|] eqn:He.
  - destruct (rd_entry _ Hd n Hn k He) as [b ->]. by destruct (read_at fs root (rd_root _ Hd) n b Hname He) as [_ ->].
  - unfold fs_read_file. pose proof (missing_at fs root (rd_root _ Hd) n Hname He) as Hm. by rewrite Hm.
Qed.

(** *** Agreement with the store in memory *)

Hypothesis room : ∀ fs p, no_space fs p = false.

Lemma save_done n bytes fs :
  at_dir fs root → validate_name n = Ok tt → is_name n → has_nul n = false → too_large bytes = false →
  free fs (entry n) → free fs (entry (n +:+ ".tmp")) →
  FileMemoryStore_save no_space root n bytes fs
    = (<[entry n := NFile bytes]> (delete (entry (n +:+ ".tmp")) fs), Ok tt).
Proof. intros. pose proof (save_effect n bytes fs) as H'. rewrite room in H'. auto. Qed.

(** What the directory holds for an abstract store. *)
Record agrees (m : InMemoryStore) fs : Prop := {
  ag_root : at_dir fs root;
  ag_entries : ∀ n, proper_name n → fs !! entry n = NFile <$> (m !! n);
  ag_tmp : ∀ n, free fs (entry (n +:+ ".tmp"));
}.

Lemma agrees_free m fs n : agrees m fs → proper_name n → free fs (entry n).
Proof. intros Ha Hn k. rewrite (ag_entries _ _ Ha n Hn). destruct (m !! n); [|done]. intros [= <-]. by eexists. Qed.

Lemma load_agrees m fs n :
  agrees m fs → proper_name n → FileMemoryStore_load root n fs = InMemoryStore_load n m.
Proof.
  intros Ha Hn. unfold FileMemoryStore_load, InMemoryStore_load, store_path.
  destruct (validate_name n) as [[]|e] eqn:Hv; [|done].
  pose proof (valid_is_name n Hv (proj1 Hn)) as Hname. pose proof (ag_entries _ _ Ha n Hn) as He.
  rewrite (proj1 (proj2 Hn)). destruct (m !! n) as [b|]; simpl in He.
  - by destruct (read_at fs root (ag_root _ _ Ha) n b Hname He) as [_ ->].
  - unfold fs_read_file. pose proof (missing_at fs root (ag_root _ _ Ha) n Hname He) as Hm.
    by rewrite Hm.
Qed.

Lemma save_agrees m fs n bytes :
  agrees m fs → proper_name n →
  let '(fs', r) := FileMemoryStore_save no_space root n bytes fs in
  let '(m', r') := InMemoryStore_save n bytes m in r = r' ∧ agrees m' fs'.
Proof.
  intros Ha Hn. unfold InMemoryStore_save. destruct (validate_name n) as [[]|e] eqn:Hv.
  2:{ unfold FileMemoryStore_save, store_path. by rewrite Hv. }
  destruct (too_large bytes) eqn:Hl; [unfold FileMemoryStore_save, store_path; by rewrite Hv, Hl|].
  pose proof (valid_is_name n Hv (proj1 Hn)) as Hname. pose proof (ag_root _ _ Ha) as Hr.
  assert (is_dir_at fs root = true) as Hdir by apply Hr.
  pose proof (agrees_free m fs n Ha Hn) as Hf. pose proof (ag_tmp _ _ Ha n) as Hf'.
  rewrite save_done by (done || apply Hn). split; [done|]. split.
  - unfold entry. pose proof (at_dir_delete fs root root _ Hr Hdir Hf') as Hr'.
    apply at_dir_insert; [done|apply Hr'|by apply free_delete].
  - intros k Hk. destruct (decide (k = n)) as [->|Hne].
    { rewrite (lookup_insert_eq m). apply (lookup_insert_eq (M := gmap path)). }
    rewrite (lookup_insert_ne m) by done. rewrite lookup_insert_ne by (by intros E%entry_inj; congruence).
    rewrite lookup_delete_ne.
    + by apply Ha.
    + intros E%entry_inj. destruct Hk as (_ & _ & Hk). rewrite <-E, ends_with_app in Hk. done.
  - intros k. apply free_insert, free_delete, Ha.
Qed.

Lemma delete_agrees m fs n :
  agrees m fs → proper_name n →
  let '(fs', r) := FileMemoryStore_delete root n fs in
  let '(m', r') := InMemoryStore_delete n m in r = r' ∧ agrees m' fs'.
Proof.
  intros Ha Hn. unfold InMemoryStore_delete, FileMemoryStore_delete, store_path.
  destruct (validate_name n) as [[]|e] eqn:Hv; [|done].
  pose proof (valid_is_name n Hv (proj1 Hn)) as Hname. pose proof (ag_root _ _ Ha) as Hr.
  assert (is_dir_at fs root = true) as Hdir by apply Hr.
  pose proof (agrees_free m fs n Ha Hn) as Hf. pose proof (ag_entries _ _ Ha n Hn) as He.
  rewrite (proj1 (proj2 Hn)). unfold fs_remove_file. rewrite (locate_at fs root Hr EISDIR n Hname). fold (entry n).
  rewrite He. destruct (m !! n) as [b|] eqn:Hm; simpl.
  - split; [done|]. split.
    + by apply at_dir_delete.
    + intros k Hk. destruct (decide (k = n)) as [->|Hne].
      { rewrite (lookup_delete_eq m). apply (lookup_delete_eq (M := gmap path)). }
      rewrite (lookup_delete_ne m), lookup_delete_ne by (done || intros E%entry_inj; congruence). by apply Ha.
    + intros k. by apply free_delete, Ha.
  - split; [done|]. exact (eq_ind_r (λ x, agrees x fs) Ha (delete_id (M := gmap string) m n Hm)).
Qed.

(** C21: the store in a directory gives the same answers as the one in memory,
    whatever is loaded, saved and deleted, refused names and values that are too
    large included, when: the root is an existing directory reached without links;
    it holds at the start what the store in memory holds, and no directory or link
    under a temporary name; the disk has room; and no name used is ".", ends in
    ".tmp" or has a NUL byte.  The names are checked by [validate_name] in both stores,
    which lets these last ones through (all but a leading NUL); on "." and on a
    NUL the stores differ ([dot_is_no_entry]), and saving an entry deletes the one
    named like its temporary file ([saving_deletes_sibling]). *)
Theorem memory_stores_agree ops m fs :
  agrees m fs → Forall (λ o, proper_name (op_name o)) ops →
  run_ops (MemoryStore0 := file_memory_store no_space root) ops fs = run_ops ops m.
Proof.
  intros Ha Hops. revert m fs Ha. induction Hops as [|o ops Ho _ IH]; intros m fs Ha; [done|].
  destruct o as [n|n b|n]; simpl in *.
  - f_equal; [by rewrite (load_agrees m)|by apply IH].
  - pose proof (save_agrees m fs n b Ha Ho) as Hs.
    destruct (FileMemoryStore_save _ _ _ _ _) as [fs' r], (InMemoryStore_save _ _ _) as [m' r'].
    destruct Hs as [-> Ha']. f_equal. by apply IH.
  - pose proof (delete_agrees m fs n Ha Ho) as Hs.
    destruct (FileMemoryStore_delete _ _ _) as [fs' r], (InMemoryStore_delete _ _) as [m' r'].
    destruct Hs as [-> Ha']. f_equal. by apply IH.
Qed.

(** The name "." passes the check of the names: the store in memory treats it as
    any other, while in a directory it is the root itself, which cannot be
    read. *)
Theorem dot_is_no_entry fs m :
  at_dir fs root → validate_name "." = Ok tt ∧
  (∃ e, FileMemoryStore_load root "." fs = Err (MsIo e)) ∧ InMemoryStore_load "." m = Ok (m !! ".").
Proof.
  intros Hr. split; [done|]. split; [|done]. unfold FileMemoryStore_load, store_path, fs_read_file.
  assert (resolve fs (root ++ ["."]) = Ok root) as Hres.
  { apply resolve_Ok. exists MAXSYMLINKS. rewrite walk_app.
    pose proof (clean_walk fs MAXSYMLINKS [] root (ad_clean _ _ Hr)) as Hw. cbn [app] in Hw.
    by rewrite Hw, walk_cons, (ad_is_dir _ _ Hr), walk_nil. }
  cbn -[resolve node_at display]. rewrite Hres. pose proof (ad_is_dir _ _ Hr) as Hd. unfold is_dir_at in Hd.
  destruct (node_at fs root) as [[]|]; try done. by eexists.
Qed.

(** In a directory, saving an entry deletes the one of that name followed
    by ".tmp", which is a valid name of its own. *)
Theorem saving_deletes_sibling n bytes old fs :
  at_dir fs root → validate_name n = Ok tt → validate_name (n +:+ ".tmp") = Ok tt → n ≠ "." →
  has_nul n = false → has_nul (n +:+ ".tmp") = false →
  too_large bytes = false → free fs (entry n) → fs !! entry (n +:+ ".tmp") = Some (NFile old) →
  FileMemoryStore_load root (n +:+ ".tmp") fs = Ok (Some old) ∧
  ∃ fs', FileMemoryStore_save no_space root n bytes fs = (fs', Ok tt) ∧
    FileMemoryStore_load root (n +:+ ".tmp") fs' = Ok None.
Proof.
  intros Hr Hv Hv' Hdot Hnul Hnul' Hl Hf Hold.
  assert (free fs (entry (n +:+ ".tmp"))) as Hf' by (intros k Hk; rewrite Hold in Hk; injection Hk as <-; by eexists).
  assert (is_dir_at fs root = true) as Hdir by apply Hr.
  pose proof (valid_is_name n Hv Hdot) as Hname. unfold FileMemoryStore_load, store_path. rewrite Hv', Hnul'. split.
  - by destruct (read_at fs root Hr _ old (tmp_is_name n) Hold) as [_ ->].
  - eexists. split; [by apply save_done|]. unfold fs_read_file.
    rewrite missing_at; [done| |apply tmp_is_name|].
    + pose proof (at_dir_delete fs root root _ Hr Hdir Hf') as Hr'.
      apply at_dir_insert; [done|apply Hr'|by apply free_delete].
    + fold (entry (n +:+ ".tmp")). rewrite lookup_insert_ne by (intros E%entry_inj; by apply tmp_ne in E).
      apply lookup_delete_eq.
Qed.
End stores.

(** A directory of the root that holds nothing. *)
Definition shelf : filesystem := {[ ["m"] := NDir ]}.
#[local] Instance plain_debug : DebugText := {| debug_str s := s |}.

Lemma shelf_dir : at_dir shelf ["m"].
Proof.
  split; [apply fs_wf_check_sound; vm_compute; reflexivity| |vm_compute; reflexivity].
  split; [by repeat constructor|]. intros q c r E. destruct q as [|? q].
  - injection E as <- <-. split; [vm_compute; reflexivity|]. exists NDir. split; [vm_compute; reflexivity|done].
  - injection E as _ E. by destruct q.
Qed.

Lemma shelf_empty n : shelf !! ["m"; n] = None.
Proof. unfold shelf. by rewrite lookup_singleton_ne. Qed.

Lemma shelf_free n : free shelf ["m"; n].
Proof. intros k. by rewrite shelf_empty. Qed.

Lemma memory_stores_agree_witness :
  let ops := [SoLoad "plan"; SoSave "plan" [Byte.x01]; SoLoad "plan"; SoDelete "plan"; SoDelete "plan"; SoSave "a/b" []] in
  run_ops (S := filesystem) (MemoryStore0 := file_memory_store (λ _ _, false) ["m"]) ops shelf = run_ops (S := InMemoryStore) ops ∅.
Proof.
  apply (memory_stores_agree (λ _ _, false) ["m"] (λ _ _, eq_refl)).
  - split; [apply shelf_dir| |intros n; apply shelf_free]. intros n _. apply shelf_empty.
  - repeat constructor; done.
Defined.

Lemma saving_deletes_sibling_witness :
  let fs := <[ ["m"; "plan.tmp"] := NFile [Byte.x02] ]> shelf in
  FileMemoryStore_load ["m"] ("plan" +:+ ".tmp") fs = Ok (Some [Byte.x02]) ∧
  ∃ fs', FileMemoryStore_save (λ _ _, false) ["m"] "plan" [Byte.x01] fs = (fs', Ok tt) ∧
    FileMemoryStore_load ["m"] ("plan" +:+ ".tmp") fs' = Ok None.
Proof.
  apply (saving_deletes_sibling (λ _ _, false) ["m"] (λ _ _, eq_refl) "plan" [Byte.x01] [Byte.x02]); try reflexivity.
  - apply (at_dir_insert _ ["m"] ["m"] "plan.tmp"); [apply shelf_dir|reflexivity|apply shelf_free].
  - done.
  - apply free_insert, shelf_free.
Defined.
