(* ===== verification/Storage.v ===== *)
(** * The workspace file manager

    Models storage/aether-storage/src/lib.rs over the file system of
    [UnixFs].  Strings are read as ASCII: the white space of [trim] is the
    ASCII one.  The order in which [read_dir] lists a directory is a
    parameter. *)
From S2P Require Import Prelude RustStd CoreTypes UnixFs.
From Stdlib Require Import Ascii.

(** ** Standard library *)

(** [s.trim().is_empty()]. *)
Definition is_blank (s : string) : bool := str_is_empty (str_trim s).

(** [s.replace('\\', "/")]. *)
Fixpoint replace_backslash (s : string) : string :=
  match s with
  | EmptyString => EmptyString
  | String c s => String (if Ascii.eqb c "\" then "/"%char else c) (replace_backslash s)
  end.

(** ** Data *)

Record WorkspaceConfig := mkWorkspaceConfig {
  wc_root : path;
  wc_max_read_bytes : N;
  wc_allowed_read_extensions : gset string;
}.

Definition default_with_root (root : path) : WorkspaceConfig :=
  mkWorkspaceConfig root (512 * 1024)
    (list_to_set
       ["txt"; "md"; "json"; "yaml"; "yml"; "toml"; "rs"; "py"; "js"; "ts"; "tsx"; "jsx"; "c";
        "h"; "cpp"; "hpp"; "go"; "java"; "sh"; "css"; "html"; "xml"; "ini"; "cfg"; "log"; "csv"]).

Record FileMeta := mkFileMeta {
  fm_filename : string;
  fm_relative_path : string;
  fm_file_type : string;
  fm_size : N;
}.

Definition io_error (e : errno) : AetherError := AetherError_new EkIo (errno_text e).

(** The four subdirectories; failures are ignored. *)
Definition create_standard (root : path) (fs : filesystem) : filesystem :=
  foldl (λ fs sub, (create_dir_all (root ++ [sub]) fs).1) fs
    ["Documents"; "Downloads"; "Projects"; "Notes"].

Definition FileManager_new (config : WorkspaceConfig) (fs : filesystem) :
    filesystem * result WorkspaceConfig AetherError :=
  match create_dir_all (wc_root config) fs with
  | (fs, Err e) =>
      (fs, Err (AetherError_new EkIo ("cannot create workspace " +:+ display (wc_root config) +:+
                                      ": " +:+ errno_text e)))
  | (fs, Ok _) =>
      let fs := create_standard (wc_root config) fs in
      let canon := match resolve fs (wc_root config) with Ok p => p | Err _ => wc_root config end in
      (fs, Ok (mkWorkspaceConfig canon (wc_max_read_bytes config)
                 (wc_allowed_read_extensions config)))
  end.

Definition PROTECTED : list string :=
  ["/etc"; "/proc"; "/sys"; "/bin"; "/sbin"; "/usr"; "/dev"; "/run"].

Definition is_protected (s : string) : bool :=
  existsb (λ prot, (s =? prot)%string || String.prefix (prot +:+ "/") s) PROTECTED.

(** The loop over the ancestors: the nearest one that exists, above a path
    given by its names, innermost first. *)
Fixpoint nearest_ancestor (fs : filesystem) (rev : list string) : option path :=
  match rev with
  | [] => None
  | _ :: up =>
      if path_exists fs (reverse up) then Some (reverse up) else nearest_ancestor fs up
  end.

Section file_manager.
Variable config : WorkspaceConfig.
Let root := wc_root config.

Definition joined_path (user_path : string) : path := root ++ str_split "/" user_path.

(** The checks of a path whose parent is missing. *)
Definition check_missing_parent (fs : filesystem) (user_path : string) (parent : path) :
    result unit AetherError :=
  if negb (String.prefix (display root) (display (joined_path user_path)))
  then Err (AetherError_path_traversal user_path)
  else match nearest_ancestor fs (reverse (components parent)) with
       | None => Ok tt
       | Some a =>
           match resolve fs a with
           | Err _ => Ok tt
           | Ok canon =>
               if path_starts_with canon root then Ok tt
               else Err (AetherError_symlink_escape user_path (display canon))
           end
       end.

(** The checks of a path that does not exist. *)
Definition check_new_path (fs : filesystem) (user_path : string) : result unit AetherError :=
  match parent (joined_path user_path) with
  | None => Ok tt
  | Some p =>
      if path_exists fs p then
        let canon := match resolve fs p with Ok q => q | Err _ => p end in
        if path_starts_with canon root then Ok tt
        else Err (AetherError_symlink_escape user_path (display canon))
      else check_missing_parent fs user_path p
  end.

Definition validate_and_resolve (fs : filesystem) (user_path : string) :
    result path AetherError :=
  if is_blank user_path then Err (AetherError_invalid_input "empty path")
  else if negb (str_all (char_ne "000") user_path)
    then Err (AetherError_invalid_input "path contains null byte")
  else if String.prefix "/" user_path
    then Err (AetherError_new EkPathTraversal ("absolute paths not allowed: " +:+ user_path))
  else if existsb (String.eqb "..") (str_split "/" user_path)
    then Err (AetherError_path_traversal user_path)
  else
    let joined := joined_path user_path in
    if path_exists fs joined then
      match resolve fs joined with
      | Err _ => Err (AetherError_new EkIo ("cannot resolve path: " +:+ user_path))
      | Ok canon =>
          if negb (path_starts_with canon root)
          then Err (AetherError_symlink_escape user_path (display canon))
          else if is_protected (display canon)
            then Err (AetherError_new EkPermissionDenied
                        ("access to protected location denied: " +:+ user_path))
          else Ok canon
      end
    else match check_new_path fs user_path with
         | Err e => Err e
         | Ok _ =>
             if negb (String.prefix (display root) (display joined))
             then Err (AetherError_path_traversal user_path)
             else Ok joined
         end.

(** The relative path reported for a location. *)
Fixpoint drop_components (n : nat) (p : path) : path :=
  match n, p with
  | S n', c :: p => if is_dot c then drop_components n p else drop_components n' p
  | _, _ => p
  end.

Fixpoint skip_dots (p : path) : path :=
  match p with
  | c :: p' => if is_dot c then skip_dots p' else p
  | [] => []
  end.

Definition relative_path (abs : path) : string :=
  replace_backslash
    (if path_starts_with abs root
     then join_slash (reverse (skip_dots (reverse (skip_dots
            (drop_components (length (components root)) abs)))))
     else display abs).

Definition FileManager_read (fs : filesystem) (rel : string) : result string AetherError :=
  match validate_and_resolve fs rel with
  | Err e => Err e
  | Ok abs =>
      if negb (path_exists fs abs) then Err (AetherError_not_found rel)
      else match resolve fs abs with
           | Err e => Err (io_error e)
           | Ok q =>
               match node_at fs q with
               | Some NDir => Err (AetherError_invalid_input ("is a directory: " +:+ rel))
               | Some (NFile content) =>
                   let len := N.of_nat (length content) in
                   if (wc_max_read_bytes config <? len)%N then
                     Err (AetherError_new EkResourceExhausted
                       ("file too large (" +:+ pretty len +:+ " bytes, limit " +:+
                        pretty (wc_max_read_bytes config) +:+ "): " +:+ rel))
                   else
                     let buf := take (N.to_nat (wc_max_read_bytes config + 1)) content in
                     if (wc_max_read_bytes config <? N.of_nat (length buf))%N then
                       Err (AetherError_new EkResourceExhausted ("file too large: " +:+ rel))
                     else if bool_decide (Byte.x00 ∈ buf) then
                       Err (AetherError_new EkInvalidInput ("unsupported binary file: " +:+ rel))
                     else if is_utf8 buf then Ok (string_of_bytes buf)
                     else Err (AetherError_new EkInvalidInput
                                 ("unsupported file encoding: " +:+ rel))
               | _ => Err (io_error ENOENT)
               end
           end
  end.

(** [create_dir_all] of the parent of a path, when it has one. *)
Definition create_parent (abs : path) (fs : filesystem) : filesystem * result unit errno :=
  match parent abs with None => (fs, Ok tt) | Some p => create_dir_all p fs end.

Section writing.
Variable no_space : filesystem → path → bool.

Definition FileManager_create (rel content : string) (fs : filesystem) :
    filesystem * result (string * N) AetherError :=
  match validate_and_resolve fs rel with
  | Err e => (fs, Err e)
  | Ok abs =>
      if path_exists fs abs
      then (fs, Err (AetherError_new EkInvalidInput ("file already exists: " +:+ rel)))
      else
        match create_parent abs fs with
        | (fs, Err e) => (fs, Err (io_error e))
        | (fs, Ok _) =>
            let canon_parent :=
              match parent abs with
              | None => root
              | Some p => match resolve fs p with Ok q => q | Err _ => p end
              end in
            if negb (path_starts_with canon_parent root)
            then (fs, Err (AetherError_symlink_escape rel (display canon_parent)))
            else
              match fs_write_file no_space abs (as_bytes content) fs with
              | (fs, Err e) =>
                  (fs, Err (if str_contains_from "No space" (errno_text e)
                            then AetherError_new EkResourceExhausted "disk full"
                            else io_error e))
              | (fs, Ok _) => (fs, Ok (relative_path abs, N.of_nat (String.length content)))
              end
        end
  end.

Definition FileManager_write (rel content : string) (fs : filesystem) :
    filesystem * result (string * N) AetherError :=
  match validate_and_resolve fs rel with
  | Err e => (fs, Err e)
  | Ok abs =>
      match create_parent abs fs with
      | (fs, Err e) => (fs, Err (io_error e))
      | (fs, Ok _) =>
          match fs_write_file no_space abs (as_bytes content) fs with
          | (fs, Err e) => (fs, Err (io_error e))
          | (fs, Ok _) => (fs, Ok (relative_path abs, N.of_nat (String.length content)))
          end
      end
  end.
End writing.

Definition FileManager_rename (from to : string) (fs : filesystem) :
    filesystem * result string AetherError :=
  match validate_and_resolve fs from with
  | Err e => (fs, Err e)
  | Ok abs_from =>
      if negb (path_exists fs abs_from) then (fs, Err (AetherError_not_found from))
      else
        match validate_and_resolve fs to with
        | Err e => (fs, Err e)
        | Ok abs_to =>
            if path_exists fs abs_to
            then (fs, Err (AetherError_new EkInvalidInput ("destination already exists: " +:+ to)))
            else
              match create_parent abs_to fs with
              | (fs, Err e) => (fs, Err (io_error e))
              | (fs, Ok _) =>
                  match fs_rename abs_from abs_to fs with
                  | (fs, Err e) => (fs, Err (io_error e))
                  | (fs, Ok _) => (fs, Ok (relative_path abs_to))
                  end
              end
        end
  end.

Definition FileManager_move_file (from to : string) (fs : filesystem) :
    filesystem * result string AetherError := FileManager_rename from to fs.

Section listing.
(** The names [read_dir] yields for a directory, in its order. *)
Variable dir_names : filesystem → path → list string.

(** [DirEntry::metadata], which does not follow links: whether the entry is a
    directory, whether it is a regular file, and its length. *)
Definition entry_meta (fs : filesystem) (p : path) : bool * bool * N :=
  match node_at fs p with
  | Some NDir => (true, false, 0%N)
  | Some (NFile content) => (false, true, N.of_nat (length content))
  | _ => (false, false, 0%N)
  end.

Definition file_meta (fs : filesystem) (dir : path) (name : string) : FileMeta :=
  let '(is_dir, is_file, len) := entry_meta fs (dir ++ [name]) in
  mkFileMeta name (relative_path (dir ++ [name])) (if is_dir then "directory" else "file")
    (if is_file then len else 0%N).

Definition FileManager_list (fs : filesystem) (relative : string) :
    result (list FileMeta) AetherError :=
  let rel := if is_blank relative || (relative =? ".")%string || (relative =? "/")%string
             then EmptyString else relative in
  match (if str_is_empty rel then Ok root else validate_and_resolve fs rel) with
  | Err e => Err e
  | Ok abs =>
      if negb (path_exists fs abs) then Err (AetherError_not_found rel)
      else if negb (path_is_dir fs abs)
        then Err (AetherError_invalid_input ("not a directory: " +:+ rel))
      else Ok (sort_by fm_filename (file_meta fs abs <$> dir_names fs abs))
  end.

(** The loop of [search_recursive] over the entries of one directory: [sub]
    searches a subdirectory. *)
Fixpoint search_entries (fs : filesystem) (query : string) (dir : path)
    (sub : path → list FileMeta → result (list FileMeta) AetherError)
    (names : list string) (out : list FileMeta) : result (list FileMeta) AetherError :=
  match names with
  | [] => Ok out
  | name :: names =>
      let p := dir ++ [name] in
      let escapes := match resolve fs p with
                     | Ok canon => negb (path_starts_with canon root)
                     | Err _ => false
                     end in
      if escapes then search_entries fs query dir sub names out
      else
        let '(is_dir, _, _) := entry_meta fs p in
        let out := if str_contains_from query (to_ascii_lowercase name)
                   then out ++ [file_meta fs dir name] else out in
        match (if is_dir then sub p out else Ok out) with
        | Err e => Err e
        | Ok out =>
            if (50 <=? length out)%nat then Ok out
            else search_entries fs query dir sub names out
        end
  end.

(** [search_recursive]; [levels] is what is left of the depth limit. *)
Fixpoint search_recursive (levels : nat) (fs : filesystem) (query : string) (dir : path)
    (out : list FileMeta) : result (list FileMeta) AetherError :=
  match levels with
  | 0 => Ok out
  | S levels =>
      match resolve fs dir with
      | Err e => Err (io_error e)
      | Ok d =>
          if negb (is_dir_at fs d) then Err (io_error ENOTDIR)
          else search_entries fs query dir (search_recursive levels fs query)
                 (dir_names fs d) out
      end
  end.

(** Depths 0 to 8 are searched. *)
Definition SEARCH_LEVELS : nat := 9.

Definition FileManager_search (fs : filesystem) (query : string) :
    result (list FileMeta) AetherError :=
  if is_blank query then Err (AetherError_invalid_input "empty search query")
  else if (100 <? String.length query)%nat then Err (AetherError_invalid_input "query too long")
  else match search_recursive SEARCH_LEVELS fs (to_ascii_lowercase query) root [] with
       | Err e => Err e
       | Ok results => Ok (take 50 (sort_by fm_filename results))
       end.
End listing.
End file_manager.
