(* ===== verification/StorageProps.v ===== *)
(** * Confinement of the workspace

    Reads return files below the workspace root; writes, creations and moves
    change nothing outside it, unless the last name of the path is a symbolic
    link to a missing file, in which case they do. *)
From S2P Require Import Prelude RustStd CoreTypes UnixFs Storage.
From Stdlib Require Import Ascii.

Implicit Types (fs : filesystem) (config : WorkspaceConfig).

(** The state [FileManager_new] establishes: a tree with the workspace in it. *)
Record workspace config fs : Prop := {
  ws_tree : fs_wf fs;
  ws_root : clean fs (wc_root config);
  ws_dir : is_dir_at fs (wc_root config) = true;
}.

Definition inside config (p : path) : Prop := wc_root config `prefix_of` p.

Definition same_outside config fs fs' : Prop :=
  ∀ p, ¬ inside config p → fs' !! p = fs !! p.

Lemma inside_app config p q : inside config p → inside config (p ++ q).
Proof. by apply prefix_app_r. Qed.

(** ** More on resolution *)

(** Dots after a location that exists. *)
Lemma walk_dots cr fs l d t q l' :
  Forall (λ c, is_dot c = true) t → walk cr fs l d t = Ok (q, l') → q = d.
Proof.
  induction 1 as [|c t Hc _ IH]; [rewrite walk_nil; by intros [= <- _]|].
  rewrite walk_cons, Hc. destruct (negb _); [done|]. apply IH.
Qed.

(** A path splits at its last name. *)
Lemma split_last_name p :
  components p ≠ [] →
  ∃ pre c dots, p = pre ++ c :: dots ∧ is_dot c = false ∧
    Forall (λ c, is_dot c = true) dots ∧ components p = components pre ++ [c].
Proof.
  induction p as [|x p IH] using rev_ind; [done|]. rewrite components_app.
  destruct (is_dot x) eqn:Hx.
  - unfold components at 2 4. simpl. rewrite Hx. simpl. rewrite app_nil_r. intros Hp.
    destruct (IH Hp) as (pre & c & dots & -> & Hc & Hd & E). exists pre, c, (dots ++ [x]).
    rewrite E. split_and!; [by rewrite <-app_assoc|done| |done].
    apply Forall_app. by rewrite Forall_singleton.
  - intros _. exists p, x, []. split_and!; [done..|]. f_equal. unfold components. simpl.
    by rewrite Hx.
Qed.

(** ** Validation *)

Lemma starts_with_inside config fs p :
  workspace config fs → components p = p →
  path_starts_with p (wc_root config) = true ↔ inside config p.
Proof.
  intros Hw Hp. unfold path_starts_with. rewrite Hp, (clean_components _ _ (ws_root _ _ Hw)).
  apply is_prefix_spec.
Qed.

(** The parts of an accepted path. *)
Lemma validate_parts config fs u abs :
  validate_and_resolve config fs u = Ok abs → Forall (λ c, c ≠ "..") (str_split "/" u).
Proof.
  unfold validate_and_resolve. destruct (is_blank u); [done|]. destruct (negb _); [done|].
  destruct (String.prefix "/" u); [done|].
  destruct (existsb (String.eqb "..") (str_split "/" u)) eqn:E; [done|]. intros _.
  apply Forall_forall. intros c Hc ->. apply not_true_iff_false in E. apply E.
  apply existsb_exists. exists "..". split; [by apply list_elem_of_In|done].
Qed.

Lemma validate_existing config fs u abs :
  workspace config fs → validate_and_resolve config fs u = Ok abs →
  path_exists fs (joined_path config u) = true →
  resolve fs (joined_path config u) = Ok abs ∧ clean fs abs ∧ inside config abs.
Proof.
  intros Hw Hv He. unfold validate_and_resolve in Hv.
  destruct (is_blank u); [done|]. destruct (negb _); [done|].
  destruct (String.prefix "/" u); [done|]. destruct (existsb _ _); [done|].
  rewrite He in Hv. destruct (resolve fs (joined_path config u)) as [canon|] eqn:E; [|done].
  assert (clean fs canon) as Hc by by eapply resolve_clean.
  destruct (path_starts_with canon (wc_root config)) eqn:Hs; simpl in Hv; [|done].
  destruct (is_protected (display canon)); [done|]. injection Hv as <-. split_and!; try done.
  eapply starts_with_inside; [done|by eapply clean_components|done].
Qed.

Lemma validate_new config fs u abs :
  validate_and_resolve config fs u = Ok abs →
  path_exists fs (joined_path config u) = false →
  abs = joined_path config u ∧ check_new_path config fs u = Ok tt.
Proof.
  intros Hv He. unfold validate_and_resolve in Hv.
  destruct (is_blank u); [done|]. destruct (negb _); [done|].
  destruct (String.prefix "/" u); [done|]. destruct (existsb _ _); [done|].
  rewrite He in Hv. destruct (check_new_path config fs u) as [[]|]; [|done].
  destruct (negb _); [done|]. by injection Hv as <-.
Qed.

(** The nearest ancestor is the longest part of the path that exists. *)
Lemma nearest_ancestor_spec fs rev a :
  nearest_ancestor fs rev = Some a →
  path_exists fs a = true ∧
  ∃ c r, reverse rev = a ++ c :: r ∧
    ∀ r1 r2, r1 ≠ [] → r2 ≠ [] → c :: r = r1 ++ r2 → path_exists fs (a ++ r1) = false.
Proof.
  induction rev as [|x up IH]; [done|]. cbn [nearest_ancestor].
  destruct (path_exists fs (reverse up)) eqn:E.
  - intros [= <-]. split; [done|]. exists x, []. split; [by rewrite reverse_cons|].
    intros r1 r2 Hr1 Hr2 Hr. by destruct r1 as [|? [|]], r2.
  - intros (He & c & r & Hr & Hlong)%IH. split; [done|]. exists c, (r ++ [x]).
    split; [by rewrite reverse_cons, Hr, <-app_assoc|].
    intros r1 r2 Hr1 Hr2 Heq. destruct r2 as [|y r2] using rev_ind; [done|].
    rewrite app_comm_cons, app_assoc in Heq. apply app_inj_tail in Heq as [Heq _].
    destruct r2 as [|z r2]; [rewrite app_nil_r in Heq; by rewrite <-Heq, <-Hr|].
    by apply (Hlong r1 (z :: r2)).
Qed.

Lemma nearest_ancestor_None fs rev : rev ≠ [] → nearest_ancestor fs rev ≠ None.
Proof.
  induction rev as [|x up IH]; [done|]. intros _. cbn [nearest_ancestor].
  destruct (path_exists fs (reverse up)) eqn:E; [done|]. destruct up; [|by apply IH].
  change (path_exists fs [] = false) in E.
  by rewrite (proj2 (path_exists_walk fs [])) in E by (by exists [], MAXSYMLINKS).
Qed.

(** ** Creating the parent *)

(** What [create_parent] leaves for the operation that follows: nothing
    changed outside, and the parent resolves to a directory inside, where no
    link was added. *)
Definition parent_ready config fs (cs : path) (c : string) fs' : Prop :=
  ∃ d l, walk false fs' MAXSYMLINKS [] cs = Ok (d, l) ∧ is_dir_at fs' d = true ∧
    inside config d ∧
    ∀ t, fs' !! (d ++ [c]) = Some (NLink t) →
      resolve fs cs = Ok d ∧ fs !! (d ++ [c]) = Some (NLink t).

Lemma joined_components config fs u :
  workspace config fs → Forall (λ c, c ≠ "..") (str_split "/" u) →
  components (joined_path config u) = wc_root config ++ components (str_split "/" u) ∧
  Forall is_name (components (joined_path config u)).
Proof.
  intros Hw Hu. unfold joined_path.
  rewrite components_app, (clean_components _ _ (ws_root _ _ Hw)). split; [done|].
  apply Forall_app. split; [apply (ws_root _ _ Hw)|by apply names_components].
Qed.

(** A path that does not exist has a last name. *)
Lemma new_path_names config fs u :
  workspace config fs → Forall (λ c, c ≠ "..") (str_split "/" u) →
  path_exists fs (joined_path config u) = false →
  components (str_split "/" u) ≠ [].
Proof.
  intros Hw Hu He Hn. apply not_true_iff_false in He. apply He, path_exists_walk.
  exists (wc_root config), MAXSYMLINKS. unfold joined_path. rewrite walk_app.
  rewrite (clean_walk fs _ [] _ (ws_root _ _ Hw)). simpl. clear He Hu.
  induction (str_split "/" u) as [|c t IH]; [by rewrite walk_nil|].
  unfold components in *. simpl in Hn. rewrite walk_cons, (ws_dir _ _ Hw).
  destruct (is_dot c); [|done]. by apply IH.
Qed.

(** Below a directory that misses the first name, nothing exists. *)
Lemma walk_missing fs a d l x b :
  walk false fs MAXSYMLINKS [] a = Ok (d, l) → is_dir_at fs d = true → is_name x →
  fs !! (d ++ [x]) = None → path_exists fs (a ++ x :: b) = false.
Proof.
  intros Ha Hd [Hdot Hne%String.eqb_neq] Hx. apply not_true_iff_false.
  intros (q & l' & H)%path_exists_walk. rewrite walk_app, Ha in H. simpl in H.
  by rewrite walk_cons, Hd, Hdot, Hne, Hx in H.
Qed.

(** The directories are added below the ancestor that was checked. *)
Lemma ancestor_checked fs cs a0 a x b rest d l :
  Forall is_name cs → cs = a ++ (x :: b) ++ rest →
  walk false fs MAXSYMLINKS [] a = Ok (d, l) → is_dir_at fs d = true →
  fs !! (d ++ [x]) = None → nearest_ancestor fs (reverse cs) = Some a0 → a0 = a.
Proof.
  intros Hn Hcs Ha Hd Hx (He0 & c0 & r0 & Hr0 & Hlong)%nearest_ancestor_spec.
  rewrite reverse_involutive in Hr0.
  assert (is_name x) as Hnx.
  { rewrite Hcs, !Forall_app, Forall_cons in Hn. naive_solver. }
  rewrite Hcs in Hr0. simpl in Hr0.
  destruct (prefix_weak_total a0 a (a ++ x :: b ++ rest)) as [[r1 ->]|[r1 ->]].
  { rewrite Hr0. by apply prefix_app_r. }
  { by apply prefix_app_r. }
  - destruct r1 as [|y r1]; [by rewrite app_nil_r|]. exfalso.
    rewrite <-app_assoc in Hr0. apply app_inv_head in Hr0.
    assert (path_exists fs (a0 ++ y :: r1) = false) as Hno.
    { eapply Hlong; [done| |by symmetry]. done. }
    by rewrite (proj2 (path_exists_walk fs (a0 ++ y :: r1))) in Hno by eauto.
  - destruct r1 as [|y r1]; [by rewrite app_nil_r|]. exfalso.
    rewrite <-app_assoc in Hr0. apply app_inv_head in Hr0. injection Hr0 as <- _.
    by rewrite (walk_missing fs a d l x r1) in He0.
Qed.

Lemma create_parent_new config fs u fs' r cs c :
  workspace config fs → Forall (λ c, c ≠ "..") (str_split "/" u) →
  check_new_path config fs u = Ok tt →
  components (joined_path config u) = cs ++ [c] →
  create_parent (joined_path config u) fs = (fs', r) →
  same_outside config fs fs' ∧ fs ⊆ fs' ∧ (r = Ok tt → parent_ready config fs cs c fs').
Proof.
  intros Hw Hu Hc Hcs. destruct (joined_components config fs u Hw Hu) as [_ Hn].
  rewrite Hcs in Hn. apply Forall_app in Hn as [Hn [Hname _]%Forall_cons].
  assert (parent (joined_path config u) = Some cs) as Hp.
  { unfold parent. rewrite Hcs. destruct (cs ++ [c]) eqn:E; [by destruct cs|].
    by rewrite <-E, removelast_last. }
  unfold create_parent, create_dir_all. rewrite Hp, components_names by done. intros Hcr.
  apply create_dirs_spec in Hcr; [|apply (ws_tree _ _ Hw)|by rewrite reverse_involutive].
  rewrite reverse_involutive in Hcr. unfold check_new_path in Hc. rewrite Hp in Hc.
  destruct (path_exists fs cs) eqn:He.
  - apply path_exists_walk in He as (d & l & Hd).
    assert (fs' = fs) as -> by by eapply dirs_created_existing. split_and!; [done..|].
    intros ->. assert (resolve fs cs = Ok d) as Hres by (apply resolve_Ok; by exists l).
    rewrite Hres in Hc. destruct (path_starts_with d (wc_root config)) eqn:Hs; [|done].
    apply (starts_with_inside config fs) in Hs;
      [|done|by eapply clean_components, resolve_clean].
    exists d, l. split_and!; [done| |done|done].
    destruct Hcr as (a & b & rest & d' & l' & Hcs' & Ha & Hdir & Hf & E & Hr).
    rewrite (Hr eq_refl), app_nil_r in Hcs'. destruct b as [|x b].
    + rewrite app_nil_r in Hcs'. subst a. rewrite Ha in Hd. by simplify_eq.
    + exfalso. subst cs. rewrite walk_app, Ha in Hd. simpl in Hf.
      rewrite Forall_app, Forall_cons in Hn. destruct Hn as (_ & [Hdot Hne%String.eqb_neq] & _).
      by rewrite walk_cons, Hdir, Hdot, Hne, Hf in Hd.
  - unfold check_missing_parent in Hc. destruct (negb _); [done|].
    rewrite components_names in Hc by done.
    destruct Hcr as (a & b & rest & d & l & Hcs' & Ha & Hdir & Hf & -> & Hr).
    destruct b as [|x b].
    { split_and!; [done..|]. intros E. rewrite (Hr E), !app_nil_r in Hcs'. subst a.
      by rewrite (proj2 (path_exists_walk fs cs)) in He by eauto. }
    destruct (nearest_ancestor fs (reverse cs)) as [a0|] eqn:Ha0.
    2:{ exfalso. revert Ha0. apply nearest_ancestor_None. intros E%(f_equal reverse).
        rewrite reverse_involutive in E. subst cs. by destruct a. }
    assert (a0 = a) as -> by by eapply ancestor_checked.
    assert (resolve fs a = Ok d) as Hres by (apply resolve_Ok; by exists l).
    rewrite Hres in Hc. destruct (path_starts_with d (wc_root config)) eqn:Hs; [|done].
    apply (starts_with_inside config fs) in Hs;
      [|done|by eapply clean_components, resolve_clean].
    pose proof (ws_tree _ _ Hw) as Htree. split_and!.
    + intros p Hout. destruct (add_dirs_other d (x :: b) fs p)
        as [E|(_ & b1 & b2 & _ & _ & ->)]; [done|]. destruct Hout. by apply inside_app.
    + by apply add_dirs_incl.
    + intros E. rewrite (Hr E), app_nil_r in Hcs'. subst cs.
      apply Forall_app in Hn as [_ Hnb]. exists (d ++ x :: b), l.
      pose proof (walk_add_dirs fs a d l (x :: b) []) as H1.
      pose proof (add_dirs_is_dir fs d (x :: b) []) as H2. rewrite app_nil_r in H1, H2.
      split_and!; [by apply H1|by apply H2|by apply inside_app|].
      intros t Ht. exfalso. destruct (add_dirs_other d (x :: b) fs ((d ++ x :: b) ++ [c]))
        as [E'|(E' & _)]; [|by rewrite Ht in E'].
      rewrite Ht, <-app_assoc in E'. by rewrite (fresh_missing fs d (x :: b) [c]) in E'.
Qed.

Lemma create_parent_existing fs abs fs' r :
  fs_wf fs → clean fs abs → create_parent abs fs = (fs', r) → fs' = fs.
Proof.
  intros Hw Hc. unfold create_parent, parent. rewrite (clean_components _ _ Hc).
  destruct abs as [|x abs]; [by intros [= <- <-]|]. set (cs := removelast (x :: abs)).
  assert (clean fs cs) as Hcs by by apply clean_removelast.
  unfold create_dir_all. rewrite (clean_components _ _ Hcs). intros H.
  apply create_dirs_spec in H; [|done|rewrite reverse_involutive; apply Hcs].
  rewrite reverse_involutive in H. eapply dirs_created_existing; [done|apply Hcs|].
  apply (clean_walk fs _ []). by simpl.
Qed.

(** ** Writing *)

Lemma same_outside_refl config fs : same_outside config fs fs.
Proof. done. Qed.
Lemma same_outside_trans config fs1 fs2 fs3 :
  same_outside config fs1 fs2 → same_outside config fs2 fs3 → same_outside config fs1 fs3.
Proof. intros H1 H2 p Hp. by rewrite H2, H1. Qed.
Lemma same_outside_insert config fs p n :
  inside config p → same_outside config fs (<[p := n]> fs).
Proof. intros Hp q Hq. rewrite lookup_insert_ne; [done|]. by intros ->. Qed.

#[local] Hint Resolve same_outside_refl same_outside_insert : core.

Lemma write_file_outside config ns p content fs fs' r :
  (∀ q l, walk true fs MAXSYMLINKS [] p = Ok (q, l) → inside config q) →
  fs_write_file ns p content fs = (fs', r) → same_outside config fs fs'.
Proof.
  intros Hq. unfold fs_write_file.
  destruct (walk true fs MAXSYMLINKS [] p) as [[q l]|]; [|by intros [= <- <-]].
  specialize (Hq q l eq_refl). destruct (is_dir_at fs q), (ns fs q); intros [= <- <-]; auto.
Qed.

(** Where a write to a new path ends. *)
Lemma new_path_target config fs fs1 raw cs c q l :
  components raw = cs ++ [c] → is_name c → parent_ready config fs cs c fs1 →
  (∀ d t, resolve fs cs = Ok d → fs !! (d ++ [c]) ≠ Some (NLink t)) →
  walk true fs1 MAXSYMLINKS [] raw = Ok (q, l) → inside config q.
Proof.
  intros Hraw [Hdot Hne] (d & l1 & Hd & Hdir & Hin & Hlink) Hnl.
  destruct (split_last_name raw) as (pre & x & dots & -> & Hx & Hdots & E).
  { rewrite Hraw. by destruct cs. }
  rewrite Hraw in E. apply app_inj_tail in E as [-> <-].
  rewrite walk_create_app by done.
  destruct (walk false fs1 MAXSYMLINKS [] pre) as [[d' l']|] eqn:Hpre; [|done].
  apply walk_components in Hpre. rewrite Hd in Hpre. simplify_eq.
  rewrite walk_cons, Hdir, Hdot. simpl. apply String.eqb_neq in Hne. rewrite Hne.
  destruct (fs1 !! (d' ++ [c])) as [[|b|t]|] eqn:E.
  - intros ->%walk_dots; [|done]. by apply inside_app.
  - intros ->%walk_dots; [|done]. by apply inside_app.
  - destruct (Hlink t eq_refl) as [Hr Hl]. by destruct (Hnl d' t).
  - destruct dots; [|done]. intros [= <- <-]. by apply inside_app.
Qed.

(** The last name of the path is a link that leads nowhere. *)
Definition dangling config fs (u : string) : Prop :=
  path_exists fs (joined_path config u) = false ∧
  ∃ q t, locate EBUSY fs (components (joined_path config u)) = Ok q ∧ fs !! q = Some (NLink t).

Lemma not_dangling config fs u cs c d t :
  workspace config fs → ¬ dangling config fs u →
  path_exists fs (joined_path config u) = false →
  components (joined_path config u) = cs ++ [c] → is_name c → resolve fs cs = Ok d →
  fs !! (d ++ [c]) ≠ Some (NLink t).
Proof.
  intros Hw Hnd He Hcs [Hdot Hc%String.eqb_neq] Hd Hl. pose proof (ws_tree _ _ Hw _ _ _ Hl) as Hdir.
  apply Hnd. split; [done|]. exists (d ++ [c]), t. split; [|done]. unfold locate.
  rewrite components_idemp, Hcs. destruct (cs ++ [c]) eqn:E; [by destruct cs|]. rewrite <-E.
  apply orb_false_iff in Hdot as [_ Hdot]. by rewrite !List.last_last, Hdot, removelast_last, Hd, Hdir, Hc.
Qed.

(** The last name of a new path. *)
Lemma new_path_last config fs u :
  workspace config fs → Forall (λ c, c ≠ "..") (str_split "/" u) →
  path_exists fs (joined_path config u) = false →
  ∃ cs c, components (joined_path config u) = cs ++ [c] ∧ is_name c.
Proof.
  intros Hw Hu He. pose proof (new_path_names config fs u Hw Hu He) as Hne.
  destruct (joined_components config fs u Hw Hu) as [E Hn].
  destruct (components (joined_path config u)) as [|c cs _] eqn:E' using rev_ind.
  - by destruct (wc_root config).
  - exists cs, c. split; [done|]. by apply Forall_app in Hn as [_ [? _]%Forall_cons].
Qed.

(** After the parent is there, the write ends inside. *)
Lemma write_after_parent config ns fs u abs fs1 r1 content fs2 r2 :
  workspace config fs → validate_and_resolve config fs u = Ok abs → ¬ dangling config fs u →
  create_parent abs fs = (fs1, r1) →
  same_outside config fs fs1 ∧
  (r1 = Ok tt → fs_write_file ns abs content fs1 = (fs2, r2) → same_outside config fs fs2).
Proof.
  intros Hw Hv Hnd Hcp. destruct (path_exists fs (joined_path config u)) eqn:He.
  - destruct (validate_existing config fs u abs Hw Hv He) as (_ & Hclean & Hin).
    assert (fs1 = fs) as -> by (eapply create_parent_existing; [apply (ws_tree _ _ Hw)|done..]).
    split; [done|]. intros _. apply write_file_outside. intros q l.
    rewrite (clean_walk_create fs _ [] abs) by done. by intros [= <- <-].
  - destruct (validate_new config fs u abs Hv He) as [-> Hc].
    pose proof (validate_parts _ _ _ _ Hv) as Hu.
    destruct (new_path_last config fs u Hw Hu He) as (cs & c & Hcs & Hname).
    destruct (create_parent_new config fs u fs1 r1 cs c Hw Hu Hc Hcs Hcp) as (Ho & _ & Hr).
    split; [done|]. intros E Hwr. eapply same_outside_trans; [done|].
    eapply write_file_outside; [|done]. intros q l. eapply new_path_target; [done..|by apply Hr|].
    intros d t Hd. by eapply not_dangling.
Qed.

(** C7: writing or creating a file through the manager changes nothing outside
    the workspace root, whatever links the workspace holds and whatever the
    outcome, as long as the last name of the path is not a symbolic link to a
    missing file. *)
Theorem writes_confined config ns rel content fs :
  workspace config fs → ¬ dangling config fs rel →
  same_outside config fs (FileManager_write config ns rel content fs).1 ∧
  same_outside config fs (FileManager_create config ns rel content fs).1.
Proof.
  intros Hw Hnd. unfold FileManager_write, FileManager_create.
  destruct (validate_and_resolve config fs rel) as [abs|] eqn:Hv; [|done].
  destruct (create_parent abs fs) as [fs1 r1] eqn:Hcp.
  destruct (fs_write_file ns abs (as_bytes content) fs1) as [fs2 r2] eqn:Hwr.
  destruct (write_after_parent config ns fs rel abs fs1 r1 (as_bytes content) fs2 r2)
    as [H1 H2]; [done..|].
  destruct r1 as [[]|e]; [|by destruct (path_exists fs abs)].
  specialize (H2 eq_refl Hwr). split; [by destruct r2|].
  destruct (path_exists fs abs); [done|]. cbn zeta.
  destruct (negb _); [done|]. by destruct r2.
Qed.

(** A tree with a directory, a link to a missing file outside, and a place
    for that file. *)
Definition dangling_fs : filesystem :=
  <[["ws"] := NDir]> (<[["ws"; "link"] := NLink "/outside/new.txt"]> (<[["outside"] := NDir]> ∅)).

Definition ws_config : WorkspaceConfig := default_with_root ["ws"].

(** A symbolic link to a missing file defeats the confinement: such a path
    does not exist for the validation, which follows the link and so checks
    only the parent, and the write then follows the link and creates the file
    outside the workspace.  With the default configuration, a workspace that
    holds such a link and a device with room, both operations succeed and the
    file outside appears. *)
Theorem dangling_link_escapes :
  let '(fs1, r1) := FileManager_create ws_config (λ _ _, false) "link" "secret" dangling_fs in
  let '(fs2, r2) := FileManager_write ws_config (λ _ _, false) "link" "secret" dangling_fs in
  r1 = Ok ("link", 6%N) ∧ r2 = Ok ("link", 6%N) ∧
  dangling_fs !! ["outside"; "new.txt"] = None ∧
  fs1 !! ["outside"; "new.txt"] = Some (NFile (as_bytes "secret")) ∧
  fs2 !! ["outside"; "new.txt"] = Some (NFile (as_bytes "secret")) ∧
  ¬ inside ws_config ["outside"; "new.txt"].
Proof.
  vm_compute FileManager_create. vm_compute FileManager_write. split_and!; try (by vm_compute).
  by intros [k [=]].
Qed.

(** ** Reading *)

(** What a read returns is the whole content of a file that lies inside
    the workspace root at a location without links, not longer than the
    limit, free of NUL bytes and valid UTF-8. *)
Theorem reads_confined config rel fs s :
  workspace config fs → FileManager_read config fs rel = Ok s →
  ∃ p content, inside config p ∧ clean fs p ∧ fs !! p = Some (NFile content) ∧
    s = string_of_bytes content ∧ (N.of_nat (length content) ≤ wc_max_read_bytes config)%N ∧
    (Byte.x00 ∉ content) ∧ is_utf8 content = true.
Proof.
  intros Hw Hr. unfold FileManager_read in Hr.
  destruct (validate_and_resolve config fs rel) as [abs|] eqn:Hv; [|done].
  destruct (path_exists fs (joined_path config rel)) eqn:He.
  2:{ destruct (validate_new config fs rel abs Hv He) as [-> _]. by rewrite He in Hr. }
  destruct (validate_existing config fs rel abs Hw Hv He) as (_ & Hc & Hin).
  rewrite (clean_resolve fs abs Hc) in Hr. destruct (negb _); [done|].
  destruct (node_at fs abs) as [[|content|]|] eqn:Hn; try done. exists abs, content.
  destruct (N.ltb_spec (wc_max_read_bytes config) (N.of_nat (length content))) as [|Hle]; [done|].
  rewrite take_ge in Hr by lia. rewrite (proj2 (N.ltb_ge _ _)) in Hr by done.
  case_bool_decide; [done|]. destruct (is_utf8 content) eqn:Hutf; [|done].
  injection Hr as <-. split_and!; try done. by destruct abs.
Qed.

(** ** Moving *)

Lemma move_tree_outside config p q fs :
  inside config p → inside config q → same_outside config fs (move_tree p q fs).
Proof.
  intros Hp Hq k Hk. unfold move_tree.
  assert (∀ k' n, (k', n) ∈ map_to_list (delete q fs) → move_key p q k' = k → k' = k) as Hkey.
  { intros k' n _. unfold move_key. destruct (is_prefix p k') eqn:E; [|done].
    intros E'. destruct Hk. rewrite <-E'. by apply inside_app. }
  assert (delete q fs !! k = fs !! k) as Hdel by (rewrite lookup_delete_ne; [done|by intros ->]).
  assert (is_prefix p k = false) as Hpk.
  { apply not_true_iff_false. intros [r ->]%is_prefix_spec. by apply Hk, inside_app. }
  rewrite <-Hdel. destruct (delete q fs !! k) as [n|] eqn:E.
  - apply elem_of_list_to_map_1'.
    + intros n' ([k' n0] & [= E1 ->] & Hin)%list_elem_of_fmap.
      pose proof (Hkey k' n0 Hin (eq_sym E1)) as ->. apply elem_of_map_to_list in Hin. congruence.
    + apply list_elem_of_fmap. exists (k, n). unfold move_key. simpl. rewrite Hpk.
      split; [done|]. by apply elem_of_map_to_list.
  - apply not_elem_of_list_to_map_1. rewrite <-list_fmap_compose.
    intros ([k' n] & E1 & Hin)%list_elem_of_fmap. simpl in E1.
    pose proof (Hkey k' n Hin (eq_sym E1)) as ->. apply elem_of_map_to_list in Hin. congruence.
Qed.

Lemma rename_outside config from to fs fs' r :
  (∀ p, locate EBUSY fs from = Ok p → inside config p) →
  (∀ q, locate EBUSY fs to = Ok q → inside config q) →
  fs_rename from to fs = (fs', r) → same_outside config fs fs'.
Proof.
  intros Hp Hq. unfold fs_rename.
  destruct (locate EBUSY fs from) as [p|]; [|by intros [= <- <-]].
  destruct (locate EBUSY fs to) as [q|]; [|by intros [= <- <-]].
  pose proof (move_tree_outside config p q fs (Hp p eq_refl) (Hq q eq_refl)) as Hm.
  intros H. repeat case_match; simplify_eq; done.
Qed.

(** Renaming and moving change nothing outside the workspace root,
    whatever links the workspace holds and whatever the outcome. *)
Theorem moves_confined config from to fs :
  workspace config fs → same_outside config fs (FileManager_rename config from to fs).1.
Proof.
  intros Hw. unfold FileManager_rename.
  destruct (validate_and_resolve config fs from) as [abs_from|] eqn:Hf; [|done].
  destruct (path_exists fs abs_from) eqn:Hfe; [|done]. simpl.
  destruct (validate_and_resolve config fs to) as [abs_to|] eqn:Ht; [|done].
  destruct (path_exists fs abs_to) eqn:Hte; [done|].
  destruct (path_exists fs (joined_path config from)) eqn:He.
  2:{ destruct (validate_new config fs from _ Hf He) as [-> _]. congruence. }
  destruct (validate_existing config fs from _ Hw Hf He) as (_ & Hclean & Hin).
  destruct (path_exists fs (joined_path config to)) eqn:He'.
  { destruct (validate_existing config fs to _ Hw Ht He') as (_ & Hc & _).
    unfold path_exists in Hte. by rewrite (clean_resolve fs abs_to Hc) in Hte. }
  destruct (validate_new config fs to _ Ht He') as [-> Hc].
  pose proof (validate_parts _ _ _ _ Ht) as Hu.
  destruct (new_path_last config fs to Hw Hu He') as (cs & c & Hcs & Hname).
  destruct (create_parent (joined_path config to) fs) as [fs1 r1] eqn:Hcp.
  destruct (create_parent_new config fs to fs1 r1 cs c Hw Hu Hc Hcs Hcp) as (Ho & Hsub & Hr).
  destruct r1 as [[]|]; [|done].
  destruct (Hr eq_refl) as (d & l & Hd & Hdir & Hind & _).
  destruct (fs_rename abs_from (joined_path config to) fs1) as [fs2 r2] eqn:Hmv.
  assert (same_outside config fs fs2); [|by destruct r2].
  eapply same_outside_trans; [done|]. eapply rename_outside; [| |done].
  - intros p Hp. apply locate_clean in Hp as ->; [done|]. by eapply clean_mono.
  - intros q. unfold locate. rewrite Hcs.
    destruct (_ =? ".")%string; [by destruct (resolve _ _) as [d'|]; [destruct (is_dir_at fs1 d')|]|].
    destruct (cs ++ [c]) eqn:E; [by destruct cs|].
    rewrite <-E, removelast_last, List.last_last.
    assert (resolve fs1 cs = Ok d) as -> by (apply resolve_Ok; by exists l).
    rewrite Hdir. destruct (c =? "..")%string; [done|]. intros [= <-]. by apply inside_app.
Qed.

(** ** Opening a workspace *)

Lemma add_dirs_wf fs d b :
  fs_wf fs → is_dir_at fs d = true → fresh_below fs d b → fs_wf (add_dirs d b fs).
Proof.
  intros Hw Hd Hf p c n Hp.
  destruct (add_dirs_other d b fs (p ++ [c])) as [E|(_ & b1 & b2 & -> & Hb & E)].
  - rewrite E in Hp. eapply is_dir_at_mono; [by apply add_dirs_incl|]. by eapply Hw.
  - destruct b1 as [|x b1] using rev_ind; [done|]. rewrite app_assoc in E.
    apply app_inj_tail in E as [-> ->]. rewrite <-app_assoc in *.
    by apply (add_dirs_is_dir fs d b1 ([x] ++ b2)).
Qed.

Lemma create_dir_all_wf p fs fs' r :
  fs_wf fs → Forall is_name p → create_dir_all p fs = (fs', r) →
  fs_wf fs' ∧ fs ⊆ fs' ∧ (r = Ok tt → path_is_dir fs' p = true).
Proof.
  intros Hw Hn H. unfold create_dir_all in H. rewrite components_names in H by done.
  apply create_dirs_spec in H; [|done|by rewrite reverse_involutive].
  rewrite reverse_involutive in H.
  destruct H as (a & b & rest & d & l & Hp & Ha & Hd & Hf & -> & Hr).
  split_and!; [by apply add_dirs_wf|by apply add_dirs_incl|]. intros E.
  rewrite (Hr E), app_nil_r in Hp. subst p. apply Forall_app in Hn as [_ Hnb].
  pose proof (walk_add_dirs fs a d l b []) as H1. pose proof (add_dirs_is_dir fs d b []) as H2.
  rewrite app_nil_r in H1, H2. unfold path_is_dir.
  rewrite (proj2 (resolve_Ok _ _ (d ++ b))); [by apply H2|]. exists l. by apply H1.
Qed.

Lemma path_is_dir_mono fs fs' p : fs ⊆ fs' → path_is_dir fs p = true → path_is_dir fs' p = true.
Proof.
  intros Hs. unfold path_is_dir. destruct (resolve fs p) as [q|] eqn:E; [|done].
  apply resolve_Ok in E as [l E]. rewrite (proj2 (resolve_Ok fs' p q)).
  - by apply is_dir_at_mono.
  - exists l. by eapply walk_mono.
Qed.

Lemma create_standard_wf root fs :
  fs_wf fs → Forall is_name root → fs_wf (create_standard root fs) ∧ fs ⊆ create_standard root fs.
Proof.
  intros Hw Hn. unfold create_standard.
  assert (Forall is_name ["Documents"; "Downloads"; "Projects"; "Notes"]) as Hsub
    by (repeat constructor; done).
  revert fs Hw. induction Hsub as [|c l Hc _ IH]; intros fs Hw; [done|]. cbn [foldl].
  destruct (create_dir_all (root ++ [c]) fs) as [fs1 r] eqn:E.
  apply create_dir_all_wf in E as (Hw1 & Hs & _);
    [|done|apply Forall_app; by rewrite Forall_singleton].
  destruct (IH fs1 Hw1) as [H1 H2]. split; [done|]. by etrans.
Qed.

(** C37: a file manager that was opened on a tree, with a root path free of dot
    parts, holds a workspace: the tree stays one, the root it keeps is a
    directory reached without links, and the files that were there are
    unchanged. *)
Theorem opening_establishes_workspace config fs config' fs' :
  fs_wf fs → Forall is_name (wc_root config) →
  FileManager_new config fs = (fs', Ok config') →
  workspace config' fs' ∧ resolve fs' (wc_root config) = Ok (wc_root config') ∧ fs ⊆ fs'.
Proof.
  intros Hw Hn. unfold FileManager_new.
  destruct (create_dir_all (wc_root config) fs) as [fs1 r] eqn:E.
  apply create_dir_all_wf in E as (Hw1 & Hs1 & Hr); [|done..].
  destruct r as [[]|e]; [|done]. specialize (Hr eq_refl).
  destruct (create_standard_wf (wc_root config) fs1 Hw1 Hn) as [Hw2 Hs2].
  apply (path_is_dir_mono _ _ _ Hs2) in Hr. unfold path_is_dir in Hr.
  destruct (resolve (create_standard (wc_root config) fs1) (wc_root config)) as [q|] eqn:Hq;
    [|done].
  intros [= <- <-]. split_and!; [|done|by etrans].
  split; [done|by eapply resolve_clean|done].
Qed.

(** ** Searching *)

(** A description of a listed entry of a directory inside, whose name contains
    the query and whose target, if it has one, is inside. *)
Definition found_inside config (names : filesystem → path → list string) fs (query : string) (m : FileMeta) : Prop :=
  ∃ d q name, inside config d ∧ resolve fs d = Ok q ∧ name ∈ names fs q ∧
    str_contains_from query (to_ascii_lowercase name) = true ∧
    (∀ t, resolve fs (d ++ [name]) = Ok t → path_starts_with t (wc_root config) = true) ∧
    m = file_meta config fs d name.

Lemma search_entries_inside config names fs query dir q sub listed out out' :
  let ok := Forall (found_inside config names fs query) in
  inside config dir → resolve fs dir = Ok q → listed ⊆ names fs q →
  (∀ p o o', inside config p → ok o → sub p o = Ok o' → ok o') →
  ok out → search_entries config fs query dir sub listed out = Ok out' → ok out'.
Proof.
  intros ok Hd Hq Hl Hsub. revert out. induction listed as [|name listed IH]; intros out Ho;
    cbn [search_entries]; [by intros [= <-]|]. cbn zeta.
  assert (listed ⊆ names fs q ∧ name ∈ names fs q) as [Hl' Hname] by set_solver.
  specialize (IH Hl').
  destruct (match resolve _ _ with Ok _ => _ | Err _ => _ end) eqn:He; [by apply IH|].
  destruct (entry_meta fs (dir ++ [name])) as [[is_dir ?] ?].
  set (out1 := if str_contains_from _ _ then _ else _).
  assert (ok out1) as Ho1.
  { unfold out1. destruct (str_contains_from _ _) eqn:Hc; [|done]. apply Forall_app. split; [done|].
    apply Forall_singleton. exists dir, q, name. split_and!; [done..| |done].
    intros t Ht. rewrite Ht in He. by apply negb_false_iff in He. }
  destruct (if is_dir then sub (dir ++ [name]) out1 else Ok out1) as [out2|] eqn:E; [|done].
  assert (ok out2) as Ho2.
  { destruct is_dir; [|by simplify_eq]. eapply Hsub; [|exact Ho1|done]. by apply inside_app. }
  destruct (50 <=? length out2); [by intros [= <-]|]. by apply IH.
Qed.

Lemma search_recursive_inside config names levels fs query dir out out' :
  inside config dir → Forall (found_inside config names fs query) out →
  search_recursive config names levels fs query dir out = Ok out' →
  Forall (found_inside config names fs query) out'.
Proof.
  revert dir out out'. induction levels as [|levels IH]; intros dir out out' Hd Ho; simpl.
  { by intros [= <-]. }
  destruct (resolve fs dir) as [d|] eqn:Hr; [|done]. destruct (negb _); [done|].
  apply (search_entries_inside config names fs query dir d); [done| |done| |done].
  - set_solver.
  - intros p o o' Hp Hfo. by apply IH.
Qed.

(** A search returns at most fifty entries, each of them the description
    of a listed entry of a directory inside the workspace root, whose name
    contains the lower-case query and which, followed as a link, does not
    leave the root; the entries come in the order of their names, whatever
    order the directories are listed in. *)
Theorem search_bounded_and_confined config names fs query l :
  FileManager_search config names fs query = Ok l →
  length l ≤ 50 ∧ Forall (found_inside config names fs (to_ascii_lowercase query)) l ∧
  StronglySorted (λ x y, String.le (fm_filename x) (fm_filename y)) l.
Proof.
  unfold FileManager_search. destruct (is_blank query); [done|]. destruct (100 <? _); [done|].
  destruct (search_recursive _ _ _ _ _ _ _) as [results|] eqn:E; [|done]. intros [= <-].
  apply search_recursive_inside in E; [|unfold inside; reflexivity|constructor]. split_and!.
  - rewrite length_take. lia.
  - apply Forall_take, Forall_forall. intros m Hm. rewrite Forall_forall in E. apply E.
    revert Hm. unfold sort_by. clear E. induction results as [|x results IH]; simpl; [done|].
    rewrite elem_of_insert_by. set_solver.
  - generalize (sort_by_sorted fm_filename results). generalize (sort_by fm_filename results), 50.
    intros k. induction k as [|x k IH]; intros [|n] Hs; simpl; try constructor.
    + apply StronglySorted_inv in Hs as [Hs _]. by apply IH.
    + apply StronglySorted_inv in Hs as [_ Hx]. by apply Forall_take.
Qed.

(** ** A workspace with a file *)

Definition example_fs : filesystem :=
  <[["ws"] := NDir]> (<[["ws"; "Notes"] := NDir]>
  (<[["ws"; "Notes"; "a.txt"] := NFile (as_bytes "hi")]>
  (<[["ws"; "out"] := NLink "/etc"]> (<[["etc"] := NDir]> ∅)))).

Lemma example_workspace : workspace ws_config example_fs.
Proof.
  split; [apply fs_wf_check_sound; vm_compute; reflexivity| |vm_compute; reflexivity].
  split; [repeat constructor; discriminate|]. intros q c r E.
  destruct q as [|? [|]]; simplify_eq/=. split; [by vm_compute|].
  exists NDir. split; [by vm_compute|done].
Qed.

Lemma writes_confined_witness :
  let '(fs, r) := FileManager_write ws_config (λ _ _, false) "Notes/b.txt" "x" example_fs in
  r = Ok ("Notes/b.txt", 1%N) ∧ same_outside ws_config example_fs fs.
Proof.
  destruct (FileManager_write ws_config (λ _ _, false) "Notes/b.txt" "x" example_fs)
    as [fs r] eqn:E.
  assert (r = Ok ("Notes/b.txt", 1%N)) as ->.
  { change r with (fs, r).2. rewrite <- E. vm_compute. reflexivity. }
  split; [reflexivity|]. change fs with (fs, Ok (A:=string * N) (E:=AetherError) ("Notes/b.txt", 1%N)).1.
  rewrite <- E. apply (writes_confined ws_config (λ _ _, false) "Notes/b.txt" "x" example_fs).
  - exact example_workspace.
  - intros [_ (q & t & Hq & Hl)]. vm_compute in Hq. injection Hq as <-. vm_compute in Hl. discriminate.
Defined.

Lemma reads_confined_witness :
  FileManager_read ws_config example_fs "Notes/a.txt" = Ok "hi" ∧
  ∃ p content, inside ws_config p ∧ clean example_fs p ∧ example_fs !! p = Some (NFile content) ∧
    "hi" = string_of_bytes content ∧
    (N.of_nat (length content) ≤ wc_max_read_bytes ws_config)%N ∧
    (Byte.x00 ∉ content) ∧ is_utf8 content = true.
Proof.
  assert (FileManager_read ws_config example_fs "Notes/a.txt" = Ok "hi") as E
    by (vm_compute; reflexivity).
  split; [exact E|]. apply (reads_confined ws_config "Notes/a.txt" example_fs).
  - exact example_workspace.
  - exact E.
Defined.

Lemma moves_confined_witness :
  (FileManager_rename ws_config "Notes/a.txt" "out/a.txt" example_fs).1 !! ["etc"; "a.txt"] = None ∧
  same_outside ws_config example_fs
    (FileManager_rename ws_config "Notes/a.txt" "out/a.txt" example_fs).1.
Proof.
  split; [vm_compute; reflexivity|].
  apply (moves_confined ws_config "Notes/a.txt" "out/a.txt" example_fs). exact example_workspace.
Defined.

Lemma opening_establishes_workspace_witness :
  let '(fs, r) := FileManager_new ws_config ∅ in
  is_ok r = true ∧ ∀ c, r = Ok c → workspace c fs.
Proof.
  destruct (FileManager_new ws_config ∅) as [fs r] eqn:E. split.
  - change r with (fs, r).2. rewrite <- E. vm_compute. reflexivity.
  - intros c ->. apply (opening_establishes_workspace ws_config ∅ c fs).
    + apply fs_wf_check_sound. vm_compute. reflexivity.
    + repeat constructor; discriminate.
    + exact E.
Defined.

Lemma search_bounded_and_confined_witness :
  let r := FileManager_search ws_config (λ _ _, ["a.txt"]) example_fs "a" in
  match r with
  | Ok l => length l ≤ 50
  | Err _ => False
  end.
Proof.
  intros r. destruct r as [l|e] eqn:E; [|vm_compute in E; discriminate].
  apply (search_bounded_and_confined ws_config (λ _ _, ["a.txt"]) example_fs "a" l E).
Defined.
