(* ===== verification/DiskEngine.v ===== *)
(** * The on-disk apply engine

    Models [DiskApplyEngine] of
    system/aether-update-agent/src/disk_engine.rs over the files of [UnixFs],
    as an instance of [ApplyEngine].  The base directory is an absolute path. *)
From S2P Require Import Prelude RustStd Text Signing UpdateCore TaskGraph Retry UpdateAgent Sha256 UnixFs.
From Stdlib Require Import Ascii.
Import UpdateCore.Plan.

(** The text of the error of [String::from_utf8]. *)
Class Utf8ErrorText := { utf8_error_text : list byte → string }.

Inductive DiskApplyError :=
| DePayloadNotFound (p : path)
| DeStagedFileNotFound (p : path)
| DeHashMismatch (expected observed : string)
| DeActiveFileNotFound (p : path)
| DeIoError (operation message : string).

Definition DiskApplyError_to_string (e : DiskApplyError) : string :=
  match e with
  | DePayloadNotFound p => "payload not found: " +:+ display p
  | DeStagedFileNotFound p => "staged file not found: " +:+ display p
  | DeHashMismatch expected observed =>
      "sha-256 mismatch: expected " +:+ expected +:+ ", observed " +:+ observed
  | DeActiveFileNotFound p => "active file not found: " +:+ display p
  | DeIoError operation message => operation +:+ " failed: " +:+ message
  end.

Definition disk_into_apply_error (step : ApplyStep) (e : DiskApplyError) : ApplyError :=
  Refused step (DiskApplyError_to_string e).

Inductive DiskEngineAudit :=
| DkDownloaded (plan_id source dest : string) (bytes : nat)
| DkVerified (plan_id sha256 : string)
| DkStaged (plan_id source dest : string)
| DkSnapshotted (plan_id source dest : string)
| DkApplied (plan_id source dest : string)
| DkRebootRequested (plan_id : string).

Record DiskApplyEngine := mkDiskEngine {
  de_base : path;
  de_fs : filesystem;
  de_audit : list DiskEngineAudit;
}.

Definition de_push (ev : DiskEngineAudit) (e : DiskApplyEngine) : DiskApplyEngine :=
  mkDiskEngine (de_base e) (de_fs e) (de_audit e ++ [ev]).
Definition de_set_fs (fs : filesystem) (e : DiskApplyEngine) : DiskApplyEngine :=
  mkDiskEngine (de_base e) fs (de_audit e).

(** ** What it uses of std::path and std::fs *)

(** [Path::join]: an absolute argument takes the place of the path. *)
Definition join_path (p : path) (s : string) : path :=
  if String.prefix "/" s then tail (str_split "/" s) else p ++ str_split "/" s.

(** [Path::file_stem] of a last name: the part before the last dot, unless
    nothing is before it. *)
Fixpoint before_last_dot (s : string) : option string :=
  match s with
  | EmptyString => None
  | String c s =>
      match before_last_dot s with
      | Some b => Some (String c b)
      | None => if Ascii.eqb c "." then Some EmptyString else None
      end
  end.
Definition file_stem (name : string) : string :=
  match before_last_dot name with
  | None | Some EmptyString => name
  | Some stem => stem
  end.

(** The path without the parts at its end that name nothing. *)
Fixpoint trim_dots (p : path) : path :=
  match p with
  | [] => []
  | c :: p => match trim_dots p with [] => if is_dot c then [] else [c] | p => c :: p end
  end.

(** [Path::with_extension] with a non-empty extension. *)
Definition with_extension (ext : string) (p : path) : path :=
  match trim_dots p with
  | [] => p
  | cs =>
      let name := List.last cs EmptyString in
      if (name =? "..")%string then p else removelast cs ++ [file_stem name +:+ "." +:+ ext]
  end.

Section engine.
Variable no_space : filesystem → path → bool.
Context {U : Utf8ErrorText}.

(** [fs::copy]: the target is truncated before the source is read, so copying a
    file to itself empties it. *)
Definition fs_copy (src dst : path) (fs : filesystem) : filesystem * result unit string :=
  match resolve fs src with
  | Err e => (fs, Err (errno_text e))
  | Ok p =>
      match node_at fs p with
      | Some (NFile content) =>
          match walk true fs MAXSYMLINKS [] dst with
          | Err e => (fs, Err (errno_text e))
          | Ok (q, _) =>
              if is_dir_at fs q then (fs, Err (errno_text EISDIR))
              else if bool_decide (p = q) then (<[q := NFile []]> fs, Ok tt)
              else if no_space fs q then (<[q := NFile []]> fs, Err (errno_text ENOSPC))
              else (<[q := NFile content]> fs, Ok tt)
          end
      | _ => (fs, Err "the source path is neither a regular file nor a symlink to a regular file")
      end
  end.

(** ** The engine *)

Definition io_error (operation : string) (e : errno) : DiskApplyError :=
  DeIoError operation (errno_text e).

(** The directories of [new]. *)
Fixpoint create_base_dirs (base : path) (dirs : list string) (fs : filesystem) :
    filesystem * result unit DiskApplyError :=
  match dirs with
  | [] => (fs, Ok tt)
  | dir :: dirs =>
      let p := join_path base dir in
      match create_dir_all p fs with
      | (fs, Err e) => (fs, Err (io_error ("create_dir " +:+ display p) e))
      | (fs, Ok _) => create_base_dirs base dirs fs
      end
  end.

Definition DiskApplyEngine_new (base : path) (fs : filesystem) :
    filesystem * result DiskApplyEngine DiskApplyError :=
  match create_base_dirs base ["payloads"; "staging"; "active"; "snapshot"] fs with
  | (fs, Ok _) => (fs, Ok (mkDiskEngine base fs []))
  | (fs, Err e) => (fs, Err e)
  end.

Definition clear_audit (e : DiskApplyEngine) : DiskApplyEngine := mkDiskEngine (de_base e) (de_fs e) [].

Definition disk_staging_path (base : path) (plan_id : string) : path :=
  join_path (join_path base "staging") (plan_id +:+ ".bin").
Definition disk_staged_path (base : path) (plan_id : string) : path :=
  join_path (join_path base "staging") (plan_id +:+ ".staged").
Definition disk_sha256_path (base : path) (plan_id : string) : path :=
  join_path (join_path base "staging") (plan_id +:+ ".sha256").
Definition disk_active_path (base : path) (plan : UpdatePlan) : path :=
  join_path (join_path base "active") (plan_target plan).
Definition disk_snapshot_path (base : path) (plan : UpdatePlan) : path :=
  join_path (join_path base "snapshot") (plan_target plan).
Definition disk_payload_path (base : path) (plan_id : string) : path :=
  join_path (join_path base "payloads") (plan_id +:+ ".bin").

Definition disk_plan_id (plan : UpdatePlan) : string :=
  plan_target plan +:+ "@" +:+ pretty (plan_timestamp_ms plan).

Definition read_file (p : path) (fs : filesystem) : result (list byte) DiskApplyError :=
  match fs_read_file p fs with
  | Ok b => Ok b
  | Err e => Err (io_error ("read " +:+ display p) e)
  end.

Definition write_file (p : path) (bytes : list byte) (fs : filesystem) :
    filesystem * result unit DiskApplyError :=
  let tmp := with_extension "tmp" p in
  match fs_write_file no_space tmp bytes fs with
  | (fs, Err e) => (fs, Err (io_error ("write " +:+ display tmp) e))
  | (fs, Ok _) =>
      match fs_rename tmp p fs with
      | (fs, Err e) => (fs, Err (io_error ("rename " +:+ display tmp +:+ " -> " +:+ display p) e))
      | (fs, Ok _) => (fs, Ok tt)
      end
  end.

(** The parent of the target, created first by [copy_file] and [rename_file]. *)
Definition create_parent_of (dst : path) (fs : filesystem) : filesystem * result unit DiskApplyError :=
  match parent dst with
  | None => (fs, Ok tt)
  | Some d =>
      match create_dir_all d fs with
      | (fs, Err e) => (fs, Err (io_error ("create_dir " +:+ display d) e))
      | (fs, Ok _) => (fs, Ok tt)
      end
  end.

Definition copy_file (src dst : path) (fs : filesystem) : filesystem * result unit DiskApplyError :=
  match create_parent_of dst fs with
  | (fs, Err e) => (fs, Err e)
  | (fs, Ok _) =>
      match fs_copy src dst fs with
      | (fs, Err e) => (fs, Err (DeIoError ("copy " +:+ display src +:+ " -> " +:+ display dst) e))
      | (fs, Ok _) => (fs, Ok tt)
      end
  end.

Definition rename_file (src dst : path) (fs : filesystem) : filesystem * result unit DiskApplyError :=
  match create_parent_of dst fs with
  | (fs, Err e) => (fs, Err e)
  | (fs, Ok _) =>
      match fs_rename src dst fs with
      | (fs, Err e) => (fs, Err (io_error ("rename " +:+ display src +:+ " -> " +:+ display dst) e))
      | (fs, Ok _) => (fs, Ok tt)
      end
  end.

(** A step that changed the files: the entry is written when it succeeded. *)
Definition finish_step (step : ApplyStep) (ev : DiskEngineAudit) (e : DiskApplyEngine)
    (x : filesystem * result unit DiskApplyError) : DiskApplyEngine * result unit ApplyError :=
  match x with
  | (fs, Ok _) => (de_push ev (de_set_fs fs e), Ok tt)
  | (fs, Err err) => (de_set_fs fs e, Err (disk_into_apply_error step err))
  end.

Definition disk_download (plan : UpdatePlan) (e : DiskApplyEngine) :
    DiskApplyEngine * result unit ApplyError :=
  let plan_id := disk_plan_id plan in
  let source := disk_payload_path (de_base e) plan_id in
  let dest := disk_staging_path (de_base e) plan_id in
  if negb (path_exists (de_fs e) source)
  then (e, Err (disk_into_apply_error Download (DePayloadNotFound source)))
  else match read_file source (de_fs e) with
       | Err err => (e, Err (disk_into_apply_error Download err))
       | Ok bytes =>
           finish_step Download (DkDownloaded plan_id (display source) (display dest) (length bytes)) e
             (write_file dest bytes (de_fs e))
       end.

Definition disk_verify (plan : UpdatePlan) (e : DiskApplyEngine) :
    DiskApplyEngine * result unit ApplyError :=
  let plan_id := disk_plan_id plan in
  let refuse err := (e, Err (disk_into_apply_error Verify err)) in
  let staged := disk_staging_path (de_base e) plan_id in
  let expected_path := disk_sha256_path (de_base e) plan_id in
  if negb (path_exists (de_fs e) staged) then refuse (DeStagedFileNotFound staged)
  else match read_file staged (de_fs e) with
       | Err err => refuse err
       | Ok bytes =>
           let observed := sha256_inline bytes in
           if negb (path_exists (de_fs e) expected_path)
           then refuse (DeIoError "verify" "no expected hash registered (write .sha256 sidecar first)")
           else match read_file expected_path (de_fs e) with
                | Err err => refuse err
                | Ok s =>
                    if negb (is_utf8 s) then refuse (DeIoError "read sha256 sidecar" (utf8_error_text s))
                    else
                      let expected := string_of_bytes s in
                      if bool_decide (observed ≠ expected) then refuse (DeHashMismatch expected observed)
                      else (de_push (DkVerified plan_id observed) e, Ok tt)
                end
       end.

Definition disk_stage (plan : UpdatePlan) (e : DiskApplyEngine) :
    DiskApplyEngine * result unit ApplyError :=
  let plan_id := disk_plan_id plan in
  let source := disk_staging_path (de_base e) plan_id in
  let dest := disk_staged_path (de_base e) plan_id in
  if negb (path_exists (de_fs e) source)
  then (e, Err (disk_into_apply_error Stage (DeStagedFileNotFound source)))
  else finish_step Stage (DkStaged plan_id (display source) (display dest)) e
         (rename_file source dest (de_fs e)).

Definition disk_snapshot (plan : UpdatePlan) (e : DiskApplyEngine) :
    DiskApplyEngine * result unit ApplyError :=
  let plan_id := disk_plan_id plan in
  let active := disk_active_path (de_base e) plan in
  let snap := disk_snapshot_path (de_base e) plan in
  finish_step Snapshot (DkSnapshotted plan_id (display active) (display snap)) e
    (if path_exists (de_fs e) active then copy_file active snap (de_fs e) else (de_fs e, Ok tt)).

Definition disk_apply (plan : UpdatePlan) (e : DiskApplyEngine) :
    DiskApplyEngine * result unit ApplyError :=
  let plan_id := disk_plan_id plan in
  let source := disk_staged_path (de_base e) plan_id in
  let dest := disk_active_path (de_base e) plan in
  if negb (path_exists (de_fs e) source)
  then (e, Err (disk_into_apply_error Apply (DeStagedFileNotFound source)))
  else finish_step Apply (DkApplied plan_id (display source) (display dest)) e
         (rename_file source dest (de_fs e)).

(** [ApplyEngine::run]. *)
Definition DiskApplyEngine_run (step : ApplyStep) (plan : UpdatePlan) (e : DiskApplyEngine) :
    DiskApplyEngine * result unit ApplyError :=
  match step with
  | Download => disk_download plan e
  | Verify => disk_verify plan e
  | Stage => disk_stage plan e
  | Snapshot => disk_snapshot plan e
  | Apply => disk_apply plan e
  | Reboot => (de_push (DkRebootRequested (disk_plan_id plan)) e, Ok tt)
  end.

#[export] Instance DiskApplyEngine_engine : ApplyEngine DiskApplyEngine := DiskApplyEngine_run.
End engine.
