(* ===== verification/DiskProps.v ===== *)
(** * Correctness of the on-disk engine *)
From S2P Require Import Prelude RustStd Text Signing UpdateCore TaskGraph Retry UpdateAgent Sha256 UnixFs DiskEngine.
From S2P Require Import VersionProps.
From Stdlib Require Import Ascii.
Import UpdateCore.Plan UpdateCore.State.

(** ** Files below two directories *)

Section flat.
Variable base : path.
Implicit Types (fs : filesystem) (d : string).

Definition base_dirs : list string := ["payloads"; "staging"; "active"; "snapshot"].

Lemma in_payloads : "payloads" ∈ base_dirs.
Proof. repeat constructor. Qed.
Lemma in_staging : "staging" ∈ base_dirs.
Proof. repeat constructor. Qed.
Lemma in_active : "active" ∈ base_dirs.
Proof. repeat constructor. Qed.
Lemma in_snapshot : "snapshot" ∈ base_dirs.
Proof. repeat constructor. Qed.
#[local] Hint Resolve in_payloads in_staging in_active in_snapshot : core.

Definition loc d (n : string) : path := base ++ [d; n].

(** The directories of the engine, reached without links. *)
Record ready fs : Prop := {
  rd_tree : fs_wf fs;
  rd_base : clean fs base;
  rd_base_dir : is_dir_at fs base = true;
  rd_dirs : ∀ d, d ∈ base_dirs → fs !! (base ++ [d]) = Some NDir;
}.

Lemma loc_inj d n d' n' : loc d n = loc d' n' → d = d' ∧ n = n'.
Proof. unfold loc. intros E%app_inv_head. by injection E. Qed.

Lemma loc_snoc d n : loc d n = (base ++ [d]) ++ [n].
Proof. unfold loc. by rewrite <-app_assoc. Qed.

Lemma base_dir_name d : d ∈ base_dirs → is_name d.
Proof. unfold base_dirs. rewrite !elem_of_cons, elem_of_nil. by intros [->|[->|[->|[->|[]]]]]. Qed.

Lemma ready_dir fs d : ready fs → d ∈ base_dirs → at_dir fs (base ++ [d]).
Proof.
  intros Hr Hd. pose proof (rd_dirs _ Hr d Hd) as Hl. split; [apply Hr| |].
  - eapply clean_snoc; [apply Hr|apply Hr|by apply base_dir_name|done|done].
  - unfold is_dir_at. by rewrite node_at_snoc, bool_decide_eq_true.
Qed.

(** A change of one file keeps the directories. *)
Lemma ready_alter fs fs' d n :
  ready fs → d ∈ base_dirs → free fs (loc d n) → free fs' (loc d n) →
  (∀ p, p ≠ loc d n → fs' !! p = fs !! p) → ready fs'.
Proof.
  intros Hr Hd Hf Hf' Hsame. rewrite loc_snoc in *. pose proof (ready_dir fs d Hr Hd) as Had.
  assert (∀ q, at_dir fs q → at_dir fs' q) as Halter
    by (intros q Hq; by eapply (at_dir_alter fs fs' q (base ++ [d]) n); [|apply Had|..]).
  destruct (Halter base) as [H1 H2 H3]; [split; apply Hr|]. split; [done..|].
  intros d' Hd'. destruct (Halter _ (ready_dir fs d' Hr Hd')) as [_ _ H]. unfold is_dir_at in H.
  by rewrite node_at_snoc, bool_decide_eq_true in H.
Qed.

Lemma ready_insert fs d n c :
  ready fs → d ∈ base_dirs → free fs (loc d n) → ready (<[loc d n := NFile c]> fs).
Proof.
  intros Hr Hd Hf. eapply (ready_alter _ _ d n); [done..| |].
  - by apply free_insert.
  - intros p Hp. by rewrite lookup_insert_ne.
Qed.

Lemma ready_delete fs d n :
  ready fs → d ∈ base_dirs → free fs (loc d n) → ready (delete (loc d n) fs).
Proof.
  intros Hr Hd Hf. eapply (ready_alter _ _ d n); [done..| |].
  - by apply free_delete.
  - intros p Hp. by rewrite lookup_delete_ne.
Qed.

(** ** Operations on such files *)

Lemma read_loc fs d n c :
  ready fs → d ∈ base_dirs → is_name n → fs !! loc d n = Some (NFile c) →
  path_exists fs (loc d n) = true ∧ read_file (loc d n) fs = Ok c.
Proof.
  intros Hr Hd Hn Hl. unfold read_file. rewrite loc_snoc in *.
  by destruct (read_at fs _ (ready_dir fs d Hr Hd) n c Hn Hl) as [-> ->].
Qed.

Lemma missing_loc fs d n :
  ready fs → d ∈ base_dirs → is_name n → fs !! loc d n = None → path_exists fs (loc d n) = false.
Proof.
  intros Hr Hd Hn Hl. unfold path_exists. rewrite loc_snoc in *.
  by rewrite (missing_at fs _ (ready_dir fs d Hr Hd)).
Qed.

Lemma rename_loc fs d n d' n' c :
  ready fs → d ∈ base_dirs → d' ∈ base_dirs → is_name n → is_name n' → loc d n ≠ loc d' n' →
  fs !! loc d n = Some (NFile c) → free fs (loc d' n') →
  fs_rename (loc d n) (loc d' n') fs =
    (<[loc d' n' := NFile c]> (delete (loc d n) fs), Ok tt).
Proof. intros Hr Hd Hd'. rewrite !loc_snoc. by apply rename_at; apply ready_dir. Qed.

(** The parent of such a file is there already. *)
Lemma create_dir_all_existing fs p :
  clean fs p → is_dir_at fs p = true → create_dir_all p fs = (fs, Ok tt).
Proof.
  intros Hc Hd. unfold create_dir_all. rewrite (clean_components _ _ Hc).
  destruct p as [|c p _] using rev_ind; [done|]. rewrite reverse_snoc. cbn [create_dirs].
  rewrite reverse_cons, reverse_involutive. unfold create_dir.
  rewrite locate_snoc by apply Hc. pose proof (clean_app _ _ _ Hc) as Hp.
  destruct (proj2 Hc p c [] eq_refl) as (Hdir & m & Hm & _).
  rewrite (clean_resolve _ _ Hp), Hdir, Hm. unfold path_is_dir. by rewrite (clean_resolve _ _ Hc), Hd.
Qed.

Lemma create_parent_loc fs d n :
  ready fs → d ∈ base_dirs → is_name n → create_parent_of (loc d n) fs = (fs, Ok tt).
Proof.
  intros Hr Hd Hn. destruct (ready_dir fs d Hr Hd) as [_ Hc Hdir]. unfold create_parent_of, parent.
  rewrite loc_snoc, components_names by (apply Forall_app; split; [apply Hc|by constructor]).
  destruct ((base ++ [d]) ++ [n]) eqn:E; [by destruct base|]. rewrite <-E, removelast_last.
  by rewrite create_dir_all_existing.
Qed.

Lemma rename_file_loc fs d n d' n' c :
  ready fs → d ∈ base_dirs → d' ∈ base_dirs → is_name n → is_name n' → loc d n ≠ loc d' n' →
  fs !! loc d n = Some (NFile c) → free fs (loc d' n') →
  rename_file (loc d n) (loc d' n') fs = (<[loc d' n' := NFile c]> (delete (loc d n) fs), Ok tt).
Proof. intros. unfold rename_file. rewrite create_parent_loc by done. by erewrite rename_loc. Qed.

Variable no_space : filesystem → path → bool.
Hypothesis room : ∀ fs p, no_space fs p = false.

Lemma copy_file_loc fs d n d' n' c :
  ready fs → d ∈ base_dirs → d' ∈ base_dirs → is_name n → is_name n' → loc d n ≠ loc d' n' →
  fs !! loc d n = Some (NFile c) → free fs (loc d' n') →
  copy_file no_space (loc d n) (loc d' n') fs = (<[loc d' n' := NFile c]> fs, Ok tt).
Proof.
  intros Hr Hd Hd' Hn Hn' Hne Hl Hf. unfold copy_file. rewrite create_parent_loc by done.
  unfold fs_copy. rewrite !loc_snoc in *.
  rewrite (resolve_at fs _ (ready_dir fs d Hr Hd) n c), node_at_snoc, Hl by done.
  destruct (walk_at fs _ (ready_dir fs d' Hr Hd') n' Hn' Hf) as [-> ->]. by rewrite bool_decide_false, room.
Qed.

(** ** Names *)

Lemma join_plain (p : path) (n : string) : str_all (char_ne "/") n = true → join_path p n = p ++ [n].
Proof.
  intros Hn. unfold join_path. rewrite str_split_none by done.
  destruct (String.prefix "/" n) eqn:E; [|done]. destruct n as [|c n]; [done|].
  simpl in Hn. apply andb_true_iff in Hn as [Hc _]. exfalso. revert E Hc. unfold char_ne.
  cbn [String.prefix]. destruct (ascii_dec "/" c) as [<-|]; [by vm_compute|done].
Qed.

Lemma before_last_dot_none (n : string) : str_all (char_ne ".") n = true → before_last_dot n = None.
Proof.
  induction n as [|c n IH]; [done|]. simpl. intros [Hc Hn]%andb_true_iff. rewrite IH by done.
  unfold char_ne in Hc. by destruct (Ascii.eqb c ".").
Qed.

Lemma file_stem_ext (n ext : string) :
  n ≠ "" → str_all (char_ne ".") ext = true → file_stem (n +:+ "." +:+ ext) = n.
Proof.
  intros Hn Hext. unfold file_stem. assert (before_last_dot (n +:+ "." +:+ ext) = Some n) as ->.
  { clear Hn. induction n as [|c n IH].
    - simpl. by rewrite before_last_dot_none.
    - rewrite str_app_cons. simpl. by rewrite IH. }
  by destruct n.
Qed.

Lemma trim_dots_names (p : path) : Forall is_name p → trim_dots p = p.
Proof.
  induction 1 as [|c p [Hc _] _ IH]; [done|]. simpl. rewrite IH. destruct p; [|done]. by rewrite Hc.
Qed.

Lemma with_extension_loc fs d (n ext ext' : string) :
  ready fs → d ∈ base_dirs → n ≠ "" → str_all (char_ne ".") ext = true →
  is_name (n +:+ "." +:+ ext) →
  with_extension ext' (loc d (n +:+ "." +:+ ext)) = loc d (n +:+ "." +:+ ext').
Proof.
  intros Hr Hd Hn Hext Hname. destruct (ready_dir fs d Hr Hd) as [_ [Hc _] _]. unfold with_extension.
  rewrite !loc_snoc, trim_dots_names by (apply Forall_app; split; [done|by constructor]).
  destruct ((base ++ [d]) ++ [_]) eqn:E; [by destruct base|]. rewrite <-E.
  rewrite List.last_last, removelast_last. destruct Hname as [_ Hname%String.eqb_neq]. rewrite Hname.
  by rewrite file_stem_ext.
Qed.

Lemma write_file_loc fs d (n ext : string) bytes :
  ready fs → d ∈ base_dirs → n ≠ "" → str_all (char_ne ".") ext = true → ext ≠ "tmp" →
  is_name (n +:+ "." +:+ ext) → is_name (n +:+ "." +:+ "tmp") →
  free fs (loc d (n +:+ "." +:+ ext)) → free fs (loc d (n +:+ "." +:+ "tmp")) →
  write_file no_space (loc d (n +:+ "." +:+ ext)) bytes fs =
    (<[loc d (n +:+ "." +:+ ext) := NFile bytes]> (delete (loc d (n +:+ "." +:+ "tmp")) fs), Ok tt).
Proof.
  intros Hr Hd Hn Hext Htmp Hname Hname' Hf Hf'. unfold write_file, fs_write_file.
  rewrite (with_extension_loc fs) by done. rewrite (loc_snoc d (n +:+ "." +:+ "tmp")) in *.
  destruct (walk_at fs _ (ready_dir fs d Hr Hd) (n +:+ "." +:+ "tmp") Hname' Hf') as [-> ->].
  rewrite room. rewrite <-(loc_snoc d (n +:+ "." +:+ "tmp")) in *. assert (loc d (n +:+ "." +:+ "tmp") ≠ loc d (n +:+ "." +:+ ext)) as Hne.
  { intros [_ E]%loc_inj. apply (inj (String.append n)), (inj (String.append ".")) in E. by subst. }
  rewrite (rename_loc _ d _ d _ bytes); [by rewrite delete_insert_eq|by apply ready_insert|done..| |].
  - by rewrite lookup_insert_eq.
  - intros m. rewrite lookup_insert_ne by done. apply Hf.
Qed.
End flat.

(** ** The files of an update *)

Lemma at_name (a b : string) : is_name (a +:+ "@" +:+ b).
Proof.
  assert (str_all (char_ne "@") (a +:+ "@" +:+ b) = false) as H.
  { rewrite str_all_app. simpl. by rewrite andb_false_r. }
  split.
  - unfold is_dot. apply orb_false_iff. rewrite !String.eqb_neq. split; intros E; by rewrite E in H.
  - intros E. by rewrite E in H.
Qed.

Section update.
Variable base : path.
Variable plan : UpdatePlan.
Let id : string := disk_plan_id plan.

Definition payload_file : path := loc base "payloads" (id +:+ ".bin").
Definition sidecar_file : path := loc base "staging" (id +:+ ".sha256").
Definition download_file : path := loc base "staging" (id +:+ ".bin").
Definition partial_file : path := loc base "staging" (id +:+ ".tmp").
Definition staged_file : path := loc base "staging" (id +:+ ".staged").
Definition active_file : path := loc base "active" (plan_target plan).
Definition snapshot_file : path := loc base "snapshot" (plan_target plan).

(** What an update may write. *)
Definition written_files : list path :=
  [download_file; partial_file; staged_file; active_file; snapshot_file].

(** The target is a file name, and the payload and its sidecar are in place. *)
Record prepared (fs : filesystem) (payload sidecar : list byte) : Prop := {
  pr_target : is_name (plan_target plan);
  pr_plain : str_all (char_ne "/") (plan_target plan) = true;
  pr_ready : ready base fs;
  pr_payload : fs !! payload_file = Some (NFile payload);
  pr_sidecar : fs !! sidecar_file = Some (NFile sidecar);
  pr_utf8 : is_utf8 sidecar = true;
  pr_free : ∀ p, p ∈ written_files → free fs p;
}.

(** The snapshot after the update's first step. *)
Definition saved (fs fs' : filesystem) : Prop :=
  fs' !! snapshot_file = match fs !! active_file with Some m => Some m | None => fs !! snapshot_file end.

Definition installed (fs : filesystem) (payload : list byte) (fs' : filesystem) : Prop :=
  fs' !! active_file = Some (NFile payload) ∧ saved fs fs' ∧
  (∀ p, p ∈ [download_file; partial_file; staged_file] → fs' !! p = None) ∧
  ∀ p, p ∉ written_files → fs' !! p = fs !! p.

Definition left_alone (fs : filesystem) (payload : list byte) (fs' : filesystem) : Prop :=
  saved fs fs' ∧ fs' !! download_file = Some (NFile payload) ∧ fs' !! partial_file = None ∧
  ∀ p, p ∉ [download_file; partial_file; snapshot_file] → fs' !! p = fs !! p.

Hypothesis plain : str_all (char_ne "/") (plan_target plan) = true.

Lemma plan_id_plain ext : str_all (char_ne "/") ext = true → str_all (char_ne "/") (id +:+ ext) = true.
Proof.
  intros Hext. unfold id, disk_plan_id. rewrite !str_all_app, plain, Hext. simpl.
  rewrite andb_true_r. by apply pretty_no_sep.
Qed.

Lemma plan_id_name ext : is_name (id +:+ ext).
Proof. unfold id, disk_plan_id. rewrite !str_app_assoc. apply at_name. Qed.

Lemma join_join d n : str_all (char_ne "/") d = true → str_all (char_ne "/") n = true →
  join_path (join_path base d) n = loc base d n.
Proof. intros Hd Hn. rewrite !join_plain by done. by rewrite loc_snoc. Qed.

Lemma disk_paths :
  disk_payload_path base id = payload_file ∧ disk_staging_path base id = download_file ∧
  disk_staged_path base id = staged_file ∧ disk_sha256_path base id = sidecar_file ∧
  disk_active_path base plan = active_file ∧ disk_snapshot_path base plan = snapshot_file.
Proof. by split_and!; apply join_join; try apply plan_id_plain. Qed.

(** The states between the steps. *)
Definition after_snapshot (fs : filesystem) : filesystem :=
  match fs !! active_file with Some m => <[snapshot_file := m]> fs | None => fs end.
Definition after_download (payload : list byte) (fs : filesystem) : filesystem :=
  <[download_file := NFile payload]> (delete partial_file (after_snapshot fs)).
Definition after_stage (payload : list byte) (fs : filesystem) : filesystem :=
  <[staged_file := NFile payload]> (delete download_file (after_download payload fs)).
Definition after_apply (payload : list byte) (fs : filesystem) : filesystem :=
  <[active_file := NFile payload]> (delete staged_file (after_stage payload fs)).

Ltac file_ne :=
  unfold payload_file, sidecar_file, download_file, partial_file, staged_file, active_file, snapshot_file;
  let H := fresh in let H1 := fresh in let H2 := fresh in
  intros H; apply loc_inj in H as [H1 H2];
  first [discriminate H1 | apply (inj (String.append id)) in H2; discriminate H2].
Ltac look := repeat (rewrite lookup_insert_eq || rewrite lookup_delete_eq
  || (rewrite lookup_insert_ne by file_ne) || (rewrite lookup_delete_ne by file_ne)).

Section run.
Variable no_space : filesystem → path → bool.
Hypothesis room : ∀ fs p, no_space fs p = false.
Context {U : Utf8ErrorText}.
Variables (fs : filesystem) (payload sidecar : list byte).
Hypothesis prep : prepared fs payload sidecar.

Let engine f a : DiskApplyEngine := mkDiskEngine base f a.

Lemma free_written p : p ∈ written_files → free (after_snapshot fs) p.
Proof.
  intros Hp. unfold after_snapshot. destruct (fs !! active_file) as [m|] eqn:Hm.
  - destruct (pr_free _ _ _ prep active_file) with m as [c ->]; [set_solver|done|].
    by apply free_insert, prep.
  - by apply prep.
Qed.

Lemma snapshot_run audit : ∃ audit', DiskApplyEngine_run no_space Snapshot plan (engine fs audit)
  = (engine (after_snapshot fs) audit', Ok tt) ∧ ready base (after_snapshot fs).
Proof.
  pose proof (pr_ready _ _ _ prep) as Hr. pose proof (pr_target _ _ _ prep) as Ht.
  unfold DiskApplyEngine_run, disk_snapshot, after_snapshot. simpl.
  destruct disk_paths as (_ & _ & _ & _ & -> & ->). destruct (fs !! active_file) as [m|] eqn:Hm.
  - destruct (pr_free _ _ _ prep active_file) with m as [c ->]; [set_solver|done|].
    assert (free fs snapshot_file) as Hf by (apply prep; set_solver).
    pose proof (read_loc base fs "active" _ c Hr in_active Ht Hm) as [Hex _].
    pose proof (copy_file_loc base no_space room fs "active" _ "snapshot" _ c Hr
      in_active in_snapshot Ht Ht ltac:(file_ne) Hm Hf) as Hcopy.
    fold active_file snapshot_file in Hex, Hcopy. rewrite Hex, Hcopy. simpl.
    eexists. split; [done|]. by apply ready_insert; [|apply in_snapshot|].
  - pose proof (missing_loc base fs "active" _ Hr in_active Ht Hm) as Hex.
    fold active_file in Hex. rewrite Hex. simpl. eexists. by split.
Qed.

Lemma snapshot_other p : p ≠ snapshot_file → after_snapshot fs !! p = fs !! p.
Proof.
  intros Hp. unfold after_snapshot. destruct (fs !! active_file); [|done]. by rewrite lookup_insert_ne.
Qed.

Lemma download_run a :
  ready base (after_snapshot fs) →
  ∃ a', DiskApplyEngine_run no_space Download plan (engine (after_snapshot fs) a)
    = (engine (after_download payload fs) a', Ok tt) ∧ ready base (after_download payload fs).
Proof.
  intros Hr. unfold DiskApplyEngine_run, disk_download. simpl. fold id.
  destruct disk_paths as (-> & -> & _).
  assert (after_snapshot fs !! payload_file = Some (NFile payload)) as Hp.
  { rewrite snapshot_other by file_ne. apply prep. }
  pose proof (read_loc base _ "payloads" _ _ Hr in_payloads (plan_id_name _) Hp) as [Hex Hread].
  fold payload_file in Hex, Hread. rewrite Hex, Hread. simpl negb. cbn iota.
  assert (free (after_snapshot fs) download_file) as Hf by (apply free_written; set_solver).
  assert (free (after_snapshot fs) partial_file) as Hf' by (apply free_written; set_solver).
  assert (id ≠ "") as Hid by (unfold id, disk_plan_id; by destruct (plan_target plan)).
  pose proof (write_file_loc base no_space room _ "staging" id "bin" payload Hr in_staging Hid
    eq_refl ltac:(done) (plan_id_name _) (plan_id_name _) Hf Hf') as Hw.
  change (loc base "staging" (id +:+ "." +:+ "bin")) with download_file in Hw.
  change (loc base "staging" (id +:+ "." +:+ "tmp")) with partial_file in Hw.
  rewrite Hw. simpl. eexists. split; [done|].
  apply ready_insert; [apply ready_delete; [done|apply in_staging|done]|apply in_staging|].
  by apply free_delete.
Qed.

Lemma verify_run a :
  ready base (after_download payload fs) →
  DiskApplyEngine_run no_space Verify plan (engine (after_download payload fs) a) =
    if bool_decide (sha256_inline payload = string_of_bytes sidecar)
    then (engine (after_download payload fs) (a ++ [DkVerified id (sha256_inline payload)]), Ok tt)
    else (engine (after_download payload fs) a,
          Err (disk_into_apply_error Verify
                 (DeHashMismatch (string_of_bytes sidecar) (sha256_inline payload)))).
Proof.
  intros Hr. unfold DiskApplyEngine_run, disk_verify. simpl. fold id.
  destruct disk_paths as (_ & -> & _ & -> & _).
  assert (after_download payload fs !! download_file = Some (NFile payload)) as Hp.
  { unfold after_download. by look. }
  pose proof (read_loc base _ "staging" _ _ Hr in_staging (plan_id_name _) Hp) as [Hex Hread].
  fold download_file in Hex, Hread.
  assert (after_download payload fs !! sidecar_file = Some (NFile sidecar)) as Hs.
  { unfold after_download. look. rewrite snapshot_other by file_ne. apply prep. }
  pose proof (read_loc base _ "staging" _ _ Hr in_staging (plan_id_name _) Hs) as [Hex' Hread'].
  fold sidecar_file in Hex', Hread'. rewrite Hex, Hread, Hex', Hread', (pr_utf8 _ _ _ prep). simpl.
  destruct (decide (sha256_inline payload = string_of_bytes sidecar)).
  - by rewrite (bool_decide_false (_ ≠ _)), bool_decide_true by tauto.
  - by rewrite (bool_decide_true (_ ≠ _)), bool_decide_false by done.
Qed.

(** A file of the staging directory moves. *)
Lemma move_run f d n d' n' c :
  ready base f → d ∈ base_dirs → d' ∈ base_dirs → is_name n → is_name n' → loc base d n ≠ loc base d' n' →
  f !! loc base d n = Some (NFile c) → free f (loc base d' n') →
  path_exists f (loc base d n) = true ∧
  rename_file (loc base d n) (loc base d' n') f
    = (<[loc base d' n' := NFile c]> (delete (loc base d n) f), Ok tt) ∧
  ready base (<[loc base d' n' := NFile c]> (delete (loc base d n) f)).
Proof.
  intros. split_and!.
  - by eapply (read_loc base f).
  - by apply rename_file_loc.
  - apply ready_insert; [apply ready_delete|done|by apply free_delete]; [done..|].
    intros m Hm. exists c. congruence.
Qed.

Lemma stage_run a :
  ready base (after_download payload fs) →
  ∃ a', DiskApplyEngine_run no_space Stage plan (engine (after_download payload fs) a)
    = (engine (after_stage payload fs) a', Ok tt) ∧ ready base (after_stage payload fs).
Proof.
  intros Hr. unfold DiskApplyEngine_run, disk_stage. simpl. fold id.
  destruct disk_paths as (_ & -> & -> & _).
  destruct (move_run _ "staging" (id +:+ ".bin") "staging" (id +:+ ".staged") payload Hr in_staging
    in_staging (plan_id_name _) (plan_id_name _)) as (Hex & Hmv & Hr').
  - file_ne.
  - unfold after_download. by rewrite lookup_insert_eq.
  - apply free_insert, free_delete, free_written. set_solver.
  - fold download_file staged_file in Hex, Hmv, Hr'. rewrite Hex, Hmv. simpl. by eexists.
Qed.

Lemma apply_run a :
  ready base (after_stage payload fs) →
  ∃ a', DiskApplyEngine_run no_space Apply plan (engine (after_stage payload fs) a)
    = (engine (after_apply payload fs) a', Ok tt).
Proof.
  intros Hr. unfold DiskApplyEngine_run, disk_apply. simpl. fold id.
  destruct disk_paths as (_ & _ & -> & _ & -> & _).
  destruct (move_run _ "staging" (id +:+ ".staged") "active" (plan_target plan) payload Hr in_staging
    in_active (plan_id_name _) (pr_target _ _ _ prep)) as (Hex & Hmv & Hr').
  - file_ne.
  - unfold after_stage. by rewrite lookup_insert_eq.
  - apply free_insert, free_delete, free_insert, free_delete, free_written. set_solver.
  - fold staged_file active_file in Hex, Hmv. rewrite Hex, Hmv. simpl. by eexists.
Qed.

Lemma snapshot_saved : saved fs (after_snapshot fs).
Proof.
  unfold saved, after_snapshot. destruct (fs !! active_file) eqn:Hm; [by rewrite lookup_insert_eq|done].
Qed.

Lemma apply_installed : installed fs payload (after_apply payload fs).
Proof.
  unfold installed, saved, after_apply, after_stage, after_download. split_and!.
  - by look.
  - look. apply snapshot_saved.
  - intros p. rewrite !elem_of_cons, elem_of_nil. intros [->|[->|[->|[]]]]; by look.
  - unfold written_files. intros p. rewrite !not_elem_of_cons. intros (? & ? & ? & ? & ? & _).
    rewrite lookup_insert_ne, lookup_delete_ne, lookup_insert_ne, lookup_delete_ne,
      lookup_insert_ne, lookup_delete_ne by done. by apply snapshot_other.
Qed.

Lemma download_left_alone : left_alone fs payload (after_download payload fs).
Proof.
  unfold left_alone, saved, after_download. split_and!.
  - look. apply snapshot_saved.
  - by look.
  - by look.
  - intros p. rewrite !not_elem_of_cons. intros (? & ? & ? & _).
    rewrite lookup_insert_ne, lookup_delete_ne by done. by apply snapshot_other.
Qed.
End run.
End update.

Section theorems.
Variable no_space : filesystem → path → bool.
Context {U : Utf8ErrorText}.

(** The files, as the steps of the agent. *)
#[local] Instance disk_engine : ApplyEngine DiskApplyEngine := DiskApplyEngine_run no_space.

(** C2: what [UpdateAgent::apply] does with the on-disk engine.  The base
    directory and its directories exist and are no links; the target is a file
    name; the payload and its hash sidecar, which is UTF-8, are in place; where
    the update writes there is a file or nothing; the device has room; every
    step has at least one attempt, no retry policy has fallbacks and none with a
    breaker group has the threshold 0.  Then [apply] returns.  When the sidecar
    is the hash of the payload, the update succeeds: the active file holds the
    payload, the snapshot holds what was active before, if anything was, the
    files this update wrote in the staging directory are gone, and no other
    file has changed, the sidecar and what other updates left there included.
    Otherwise it is refused at the verification: the active file is what it was,
    the snapshot is made, and the rollback leaves the downloaded payload in the
    staging directory; no other file has changed. *)
Theorem disk_update_outcome (base : path) plan fs payload sidecar audit now (ag : UpdateAgent DiskApplyEngine) :
  (∀ fs p, no_space fs p = false) → prepared base plan fs payload sidecar →
  st_current_plan (ag_status ag) = Some plan → ag_engine ag = mkDiskEngine base fs audit →
  no_panic (ag_retries ag) → no_fallbacks (ag_retries ag) →
  (∀ step, 0 < step_max (ag_retries ag) step)%N →
  ∃ ag' r, UpdateAgent_apply now ag = Some (ag', r) ∧
    if bool_decide (sha256_inline payload = string_of_bytes sidecar)
    then r = Ok tt ∧ st_stage (ag_status ag') = Done ∧
         installed base plan fs payload (de_fs (ag_engine ag'))
    else r = Err (Refused Verify "retries exhausted") ∧ st_stage (ag_status ag') = RolledBack ∧
         left_alone base plan fs payload (de_fs (ag_engine ag')).
Proof.
  intros Hroom Hprep Hplan He Hnp Hnf Hmax. pose proof (pr_plain _ _ _ _ _ Hprep) as Hplain.
  unfold UpdateAgent_apply, apply_order.
  destruct (snapshot_run base plan Hplain no_space Hroom fs payload sidecar Hprep audit) as (a1 & H1 & R1).
  destruct (apply_steps_ok Snapshot [Download; Verify; Stage; Apply] now ag plan _ Hplan (Hmax _)
    ltac:(rewrite He; exact H1)) as (ag1 & -> & E1 & Hr1 & Hp1).
  destruct (download_run base plan Hplain no_space Hroom fs payload sidecar Hprep a1 R1) as (a2 & H2 & R2).
  destruct (apply_steps_ok Download [Verify; Stage; Apply] now ag1 plan _ Hp1
    ltac:(rewrite Hr1; apply Hmax) ltac:(rewrite E1; exact H2)) as (ag2 & -> & E2 & Hr2 & Hp2).
  rewrite Hr1 in Hr2. pose proof (verify_run base plan Hplain no_space fs payload sidecar Hprep a2 R2) as H3.
  case_bool_decide as Hsha.
  - destruct (apply_steps_ok Verify [Stage; Apply] now ag2 plan _ Hp2
      ltac:(rewrite Hr2; apply Hmax) ltac:(rewrite E2; exact H3)) as (ag3 & -> & E3 & Hr3 & Hp3).
    rewrite Hr2 in Hr3.
    destruct (stage_run base plan Hplain no_space Hroom fs payload sidecar Hprep
      (a2 ++ [DkVerified (disk_plan_id plan) (sha256_inline payload)]) R2) as (a4 & H4 & R4).
    destruct (apply_steps_ok Stage [Apply] now ag3 plan _ Hp3
      ltac:(rewrite Hr3; apply Hmax) ltac:(rewrite E3; exact H4)) as (ag4 & -> & E4 & Hr4 & Hp4).
    rewrite Hr3 in Hr4.
    destruct (apply_run base plan Hplain no_space Hroom fs payload sidecar Hprep a4 R4) as (a5 & H5).
    destruct (apply_steps_ok Apply [] now ag4 plan _ Hp4
      ltac:(rewrite Hr4; apply Hmax) ltac:(rewrite E4; exact H5)) as (ag5 & -> & E5 & _).
    simpl. eexists _, _. split_and!; [done..|]. simpl. rewrite E5. by eapply apply_installed.
  - destruct (apply_steps_stuck Verify [Stage; Apply] now ag2 plan
      (disk_into_apply_error Verify (DeHashMismatch (string_of_bytes sidecar) (sha256_inline payload))))
      as (ag3 & -> & E3 & Hst); [by rewrite Hr2..|done|by rewrite E2|].
    eexists _, _. split_and!; [done..|]. rewrite E3, E2. by eapply download_left_alone.
Qed.

(** The target of a plan is not checked: an absolute one names the file
    itself, both as active file and as snapshot, wherever the base directory
    is.  The Snapshot step then copies the file onto itself, which truncates
    it, and reports success. *)
Theorem absolute_target_empties_file (base : path) plan fs content audit :
  let file := tail (str_split "/" (plan_target plan)) in
  String.prefix "/" (plan_target plan) = true → clean fs file → fs !! file = Some (NFile content) →
  ∃ audit', DiskApplyEngine_run no_space Snapshot plan (mkDiskEngine base fs audit)
    = (mkDiskEngine base (<[file := NFile []]> fs) audit', Ok tt).
Proof.
  intros file Hpre Hc Hl. assert (file ≠ []) as Hnil.
  { unfold file. destruct (plan_target plan) as [|c t]; [done|]. cbn [String.prefix] in Hpre.
    destruct (ascii_dec "/" c) as [<-|]; [|done]. apply str_split_nonempty. }
  unfold DiskApplyEngine_run, disk_snapshot, disk_active_path, disk_snapshot_path, join_path. simpl.
  rewrite Hpre. fold file. clearbody file. unfold path_exists. rewrite (clean_resolve _ _ Hc). simpl.
  unfold copy_file, create_parent_of, parent. rewrite (clean_components _ _ Hc).
  destruct file as [|x p] eqn:E; [done|]. rewrite <-E in *. clear E x p.
  assert (is_dir_at fs (removelast file) = true) as Hdir.
  { destruct file as [|c p _] using rev_ind; [done|]. rewrite removelast_last.
    by destruct (proj2 Hc p c [] eq_refl). }
  rewrite create_dir_all_existing by (done || by apply clean_removelast).
  assert (node_at fs file = Some (NFile content)) as Hat by (by destruct file).
  unfold fs_copy. rewrite (clean_resolve _ _ Hc), (clean_walk_create _ _ [] file Hc), Hat.
  rewrite app_nil_l. unfold is_dir_at. rewrite Hat, bool_decide_false by done.
  rewrite bool_decide_true by done. by eexists.
Qed.
End theorems.

(** ** A base directory with a payload *)

Definition plain_errors : Utf8ErrorText := {| utf8_error_text _ := "invalid utf-8 sequence" |}.

Definition disk_plan (target : string) : UpdatePlan :=
  mkUpdatePlan target OsImage UpgradeOsImage "1.2.0" 7 "key" 3 (Version.decision_allow Version.Upgrade).

Definition disk_fs : filesystem :=
  <[["u"] := NDir]> (<[["u"; "payloads"] := NDir]> (<[["u"; "staging"] := NDir]>
  (<[["u"; "active"] := NDir]> (<[["u"; "snapshot"] := NDir]>
  (<[["u"; "payloads"; "shell@7.bin"] := NFile (as_bytes "abc")]>
  (<[["u"; "staging"; "shell@7.sha256"] := NFile (as_bytes (sha256_inline (as_bytes "abc")))]>
  (<[["u"; "active"; "shell"] := NFile (as_bytes "old")]> ∅))))))).

Definition disk_agent : UpdateAgent DiskApplyEngine :=
  mkUpdateAgent (mkDiskEngine ["u"] disk_fs []) (set_plan (disk_plan "shell") UpdateStatus_default) None
    PolicyEngine_new [].

Lemma disk_prepared :
  prepared ["u"] (disk_plan "shell") disk_fs (as_bytes "abc") (as_bytes (sha256_inline (as_bytes "abc"))).
Proof.
  split; try (vm_compute; reflexivity).
  - by vm_compute.
  - split; [apply fs_wf_check_sound; vm_compute; reflexivity| |vm_compute; reflexivity|].
    + apply (clean_snoc _ [] "u" NDir); [apply clean_nil|done|by vm_compute|by vm_compute|done].
    + intros d. unfold base_dirs. rewrite !elem_of_cons, elem_of_nil.
      intros [->|[->|[->|[->|[]]]]]; vm_compute; reflexivity.
  - intros p. unfold written_files. rewrite !elem_of_cons, elem_of_nil.
    intros [->|[->|[->|[->|[->|[]]]]]] m Hm; vm_compute in Hm; simplify_eq; by eexists.
Qed.

Lemma disk_update_outcome_witness :
  ∃ ag' r, UpdateAgent_apply (ApplyEngine0 := disk_engine (λ _ _, false) (U := plain_errors)) 9 disk_agent = Some (ag', r) ∧
    r = Ok tt ∧ st_stage (ag_status ag') = Done ∧
    installed ["u"] (disk_plan "shell") disk_fs (as_bytes "abc") (de_fs (ag_engine ag')).
Proof.
  destruct (disk_update_outcome (λ _ _, false) (U := plain_errors) ["u"] (disk_plan "shell") disk_fs (as_bytes "abc")
    (as_bytes (sha256_inline (as_bytes "abc"))) [] 9 disk_agent) as (ag' & r & E & H).
  - done.
  - exact disk_prepared.
  - done.
  - done.
  - split; [split; constructor|done].
  - done.
  - done.
  - exists ag', r. split; [exact E|]. rewrite bool_decide_true in H; [exact H|].
    by rewrite string_of_bytes_as_bytes.
Defined.

Lemma absolute_target_empties_file_witness :
  ∃ audit', DiskApplyEngine_run (λ _ _, false) (U := plain_errors) Snapshot (disk_plan "/etc/passwd")
      (mkDiskEngine ["u"] (<[["etc"; "passwd"] := NFile (as_bytes "root")]> (<[["etc"] := NDir]> ∅)) [])
    = (mkDiskEngine ["u"] (<[["etc"; "passwd"] := NFile []]>
         (<[["etc"; "passwd"] := NFile (as_bytes "root")]> (<[["etc"] := NDir]> ∅))) audit', Ok tt).
Proof.
  apply (absolute_target_empties_file (λ _ _, false) (U := plain_errors) ["u"] (disk_plan "/etc/passwd")
    (<[["etc"; "passwd"] := NFile (as_bytes "root")]> (<[["etc"] := NDir]> ∅)) (as_bytes "root")).
  - done.
  - apply (clean_snoc _ ["etc"] "passwd" (NFile (as_bytes "root"))).
    + apply (clean_snoc _ [] "etc" NDir); [apply clean_nil|done|by vm_compute|by vm_compute|done].
    + by vm_compute.
    + by vm_compute.
    + by vm_compute.
    + done.
  - by vm_compute.
Defined.
