(* ===== verification/AiDefense.v ===== *)
(** * The defenses against prompt injection

    Models security/aether-ai-defense/src/lib.rs: the sanitizer of what the
    model reads, the ceilings of what its actors may ask for, and their log. *)
From S2P Require Import Prelude RustStd Text.
From Stdlib Require Import Ascii.

(** ** Content *)

Inductive ContentSource := UserFile | ToolOutput | WebFetch | PeerMessage | AppIpc | FileMetadata.
#[export] Instance ContentSource_eq_dec : EqDecision ContentSource. Proof. solve_decision. Defined.

Definition ContentSource_as_str (s : ContentSource) : string :=
  match s with
  | UserFile => "user-file" | ToolOutput => "tool-output" | WebFetch => "web-fetch"
  | PeerMessage => "peer-message" | AppIpc => "app-ipc" | FileMetadata => "file-metadata"
  end.

Definition trust_score (s : ContentSource) : N :=
  match s with
  | ToolOutput => 80 | UserFile => 60 | AppIpc => 50 | FileMetadata => 30 | WebFetch => 20
  | PeerMessage => 10
  end.

Record Content := mkContent { ct_source : ContentSource; ct_body : string }.

Inductive SanitizationReason :=
| InjectionPattern | ToolCallHidden | SystemPromptRedacted | Truncated | ReasonRefused.
Inductive DefenseVerdict := DvAllow | DvModified | DvRefused | DvEscalation.
#[export] Instance DefenseVerdict_eq_dec : EqDecision DefenseVerdict. Proof. solve_decision. Defined.

Definition DefenseVerdict_is_allowed (v : DefenseVerdict) : bool :=
  match v with DvAllow | DvModified => true | _ => false end.

Record Sanitized := mkSanitized {
  sz_sanitized : string;
  sz_reasons : list SanitizationReason;
  sz_verdict : DefenseVerdict;
}.

Definition Sanitized_is_clean (s : Sanitized) : bool :=
  match sz_reasons s with [] => true | _ => false end.

(** ** The sanitizer *)

Record SanitizationPolicy := mkSanitizationPolicy {
  max_length : nat;
  injection_patterns : list string;
  tool_call_prefixes : list string;
  system_prompt_markers : list string;
  refuse_escalation_from_peers : bool;
}.

Definition SanitizationPolicy_default : SanitizationPolicy := {|
  max_length := N.to_nat 16384;
  injection_patterns :=
    ["ignore previous instructions"; "ignore all instructions"; "disregard the above";
     "forget everything"; "you are now"; "new system prompt"; "act as"];
  tool_call_prefixes := ["aetherctl "; "tool:"; "[tool]"];
  system_prompt_markers := ["system:"; "<|system|>"; "<|im_start|>"];
  refuse_escalation_from_peers := true;
|}.

(** [u8::eq_ignore_ascii_case]. *)
Definition eq_ignore_case (a b : ascii) : bool :=
  Ascii.eqb (to_ascii_lowercase_char a) (to_ascii_lowercase_char b).

Fixpoint prefix_ci (n h : string) : bool :=
  match n, h with
  | EmptyString, _ => true
  | String a n, String b h => eq_ignore_case b a && prefix_ci n h
  | _, EmptyString => false
  end.

(** The loop of [find_ci] over the offsets. *)
Fixpoint find_ci_from (needle h : string) : option nat :=
  if prefix_ci needle h then Some 0
  else match h with EmptyString => None | String _ h => S <$> find_ci_from needle h end.

Definition find_ci (haystack needle : string) : option nat :=
  if str_is_empty needle then None else find_ci_from needle haystack.

Definition escalation_phrases : list string :=
  ["run as root"; "give me access"; "elevate"; "sudo"; "disable security"; "turn off the";
   "ignore the policy"].

Definition contains_escalation_phrase (body : string) : bool :=
  existsb (λ p, str_contains_from p (to_ascii_lowercase body)) escalation_phrases.

(** The loops of the second to the fourth step. *)
Fixpoint strip_patterns (pats : list string) (body : string) (reasons : list SanitizationReason) :
    option (string * list SanitizationReason) :=
  match pats with
  | [] => Some (body, reasons)
  | pat :: pats =>
      match find_ci body pat with
      | Some pos =>
          body ← replace_range pos (pos + String.length pat) "[REDACTED]" body;
          strip_patterns pats body (reasons ++ [InjectionPattern])
      | None => strip_patterns pats body reasons
      end
  end.

Definition hide (reason : SanitizationReason) (rep : string)
    (acc : string * list SanitizationReason) (pat : string) : string * list SanitizationReason :=
  let '(body, reasons) := acc in
  if str_contains_from pat body then (str_replace pat rep body, reasons ++ [reason]) else acc.

Definition cap_length (n : nat) (body : string) : option (string * list SanitizationReason) :=
  if (n <? String.length body)%nat then body ← truncate n body; Some (body, [Truncated])
  else Some (body, []).

(** [None] is the panic of cutting inside a character. *)
Definition sanitize (p : SanitizationPolicy) (c : Content) : option Sanitized :=
  '(body, reasons) ← cap_length (max_length p) (ct_body c);
  '(body, reasons) ← strip_patterns (injection_patterns p) body reasons;
  let '(body, reasons) := foldl (hide ToolCallHidden "[tool-call hidden] ") (body, reasons)
                            (tool_call_prefixes p) in
  let '(body, reasons) := foldl (hide SystemPromptRedacted "[system-prompt redacted] ") (body, reasons)
                            (system_prompt_markers p) in
  Some (if bool_decide (ct_source c = PeerMessage) && refuse_escalation_from_peers p
           && contains_escalation_phrase body
        then mkSanitized EmptyString (reasons ++ [ReasonRefused]) DvRefused
        else mkSanitized body reasons (match reasons with [] => DvAllow | _ => DvModified end)).

(** ** Actions *)

Inductive ActionVerb :=
| AppControl | FileControl | ReadFile | WriteFile | ServiceControl | NetworkControl | WindowControl
| SystemSetting | Display | VNotify | PowerControl | ApproveCapability | RevokeCapability
| ResetDevicePairing.
#[export] Instance ActionVerb_eq_dec : EqDecision ActionVerb. Proof. solve_decision. Defined.

Definition ActionVerb_as_str (v : ActionVerb) : string :=
  match v with
  | AppControl => "app-control" | FileControl => "file-control" | ReadFile => "read-file"
  | WriteFile => "write-file" | ServiceControl => "service-control" | NetworkControl => "network-control"
  | WindowControl => "window-control" | SystemSetting => "system-setting" | Display => "display"
  | VNotify => "notify" | PowerControl => "power-control" | ApproveCapability => "approve-capability"
  | RevokeCapability => "revoke-capability" | ResetDevicePairing => "reset-device-pairing"
  end.

(** Sets of verbs; a [BTreeSet] is the list of its elements. *)
Definition all_verbs : list ActionVerb :=
  [AppControl; FileControl; ReadFile; WriteFile; ServiceControl; NetworkControl; WindowControl;
   SystemSetting; Display; VNotify; PowerControl; ApproveCapability; RevokeCapability;
   ResetDevicePairing].

Definition verb_in (v : ActionVerb) (l : list ActionVerb) : bool := bool_decide (v ∈ l).
Definition verb_insert (v : ActionVerb) (l : list ActionVerb) : list ActionVerb :=
  if verb_in v l then l else l ++ [v].
Definition verb_remove (v : ActionVerb) (l : list ActionVerb) : list ActionVerb :=
  List.filter (λ w, negb (bool_decide (w = v))) l.

Inductive DefActor := DaUser | DaAgent | DaPeer.
#[export] Instance DefActor_eq_dec : EqDecision DefActor. Proof. solve_decision. Defined.

Definition default_ceiling (a : DefActor) : list ActionVerb :=
  match a with
  | DaUser => all_verbs
  | DaAgent => verb_remove ResetDevicePairing (verb_remove RevokeCapability
                 (verb_remove ApproveCapability all_verbs))
  | DaPeer => [Display; ReadFile; VNotify]
  end.

Record EmittedAction := mkEmittedAction {
  ea_actor : DefActor;
  ea_verb : ActionVerb;
  ea_target : option string;
  ea_reason : string;
}.

Definition EmittedAction_new (a : DefActor) (v : ActionVerb) (reason : string) : EmittedAction :=
  mkEmittedAction a v None reason.
Definition EmittedAction_with_target (t : string) (e : EmittedAction) : EmittedAction :=
  mkEmittedAction (ea_actor e) (ea_verb e) (Some t) (ea_reason e).

(** A [BTreeMap] keyed by the three actors is a function of the actor. *)
Record ActionValidator := mkActionValidator {
  av_ceilings : DefActor → option (list ActionVerb);
  av_revocations : DefActor → option (list ActionVerb);
}.

Definition ActionValidator_new : ActionValidator :=
  mkActionValidator (λ a, Some (default_ceiling a)) (λ _, None).

Definition set_actor (a : DefActor) (l : list ActionVerb) (f : DefActor → option (list ActionVerb)) :
    DefActor → option (list ActionVerb) :=
  λ b, if bool_decide (b = a) then Some l else f b.

Definition revoke (a : DefActor) (v : ActionVerb) (x : ActionValidator) : ActionValidator :=
  mkActionValidator (av_ceilings x)
    (set_actor a (verb_insert v (default [] (av_revocations x a))) (av_revocations x)).

Definition restore (a : DefActor) (v : ActionVerb) (x : ActionValidator) : ActionValidator :=
  match av_revocations x a with
  | Some l => mkActionValidator (av_ceilings x) (set_actor a (verb_remove v l) (av_revocations x))
  | None => x
  end.

Definition verb_allowed (x : ActionValidator) (a : DefActor) (v : ActionVerb) : bool :=
  match av_ceilings x a with
  | None => false
  | Some ceiling =>
      if negb (verb_in v ceiling) then false
      else match av_revocations x a with
           | Some revoked => negb (verb_in v revoked)
           | None => true
           end
  end.

Definition validate_action (x : ActionValidator) (e : EmittedAction) : DefenseVerdict :=
  if verb_allowed x (ea_actor e) (ea_verb e) then DvAllow else DvEscalation.

(** ** The log *)

Inductive DefenseRow :=
| DrSanitization (source : ContentSource) (verdict : DefenseVerdict)
    (reasons : list SanitizationReason) (original_length : N)
| DrAction (actor : DefActor) (verb : ActionVerb) (verdict : DefenseVerdict) (reason : string)
| DrEscalationAttempt (actor : DefActor) (verb : ActionVerb) (reason : string).

Definition log_append (r : DefenseRow) (l : list DefenseRow) : list DefenseRow := l ++ [r].

Definition row_refused (r : DefenseRow) : bool :=
  match r with
  | DrSanitization _ v _ _ => negb (DefenseVerdict_is_allowed v)
  | DrAction _ _ v _ => negb (DefenseVerdict_is_allowed v)
  | DrEscalationAttempt _ _ _ => true
  end.

Definition refused_count (l : list DefenseRow) : nat := length (List.filter row_refused l).

(** ** Properties of the sanitizer *)

Lemma hide_absent q reason rep acc pat :
  inert q rep = true → q ≠ EmptyString → pat ≠ EmptyString →
  q = pat ∨ str_contains_from q acc.1 = false →
  str_contains_from q (hide reason rep acc pat).1 = false.
Proof.
  intros Hi Hq Hp Hs. destruct acc as [body reasons]. unfold hide.
  destruct (str_contains_from pat body) eqn:Hc; simpl in *.
  - unfold str_replace. rewrite (proj2 (str_is_empty_false pat) Hp). by apply replace_keeps_out.
  - by destruct Hs as [->|].
Qed.

Lemma hide_all_absent q reason rep pats acc :
  inert q rep = true → q ≠ EmptyString → Forall (.≠ EmptyString) pats →
  q ∈ pats ∨ str_contains_from q acc.1 = false →
  str_contains_from q (foldl (hide reason rep) acc pats).1 = false.
Proof.
  intros Hi Hq Hne. revert acc. induction Hne as [|pat pats Hp Hne IH]; intros acc Hs; simpl.
  { destruct Hs as [Hs|]; [|done]. by apply elem_of_nil in Hs. }
  apply IH. rewrite elem_of_cons in Hs. destruct (decide (q ∈ pats)); [by left|right].
  apply hide_absent; [done..|naive_solver].
Qed.

Lemma strip_reasons pats body reasons body' reasons' :
  strip_patterns pats body reasons = Some (body', reasons') →
  ∃ k, reasons' = reasons ++ replicate k InjectionPattern.
Proof.
  revert body reasons. induction pats as [|pat pats IH]; intros body reasons; simpl.
  { intros [= <- <-]. exists 0. by rewrite app_nil_r. }
  destruct (find_ci body pat) as [pos|]; [|apply IH]. destruct (replace_range _ _ _ _); [|done]. simpl.
  intros [k ->]%IH. exists (S k). by rewrite <-app_assoc.
Qed.

Lemma hide_reasons reason rep pats acc :
  ∃ k, (foldl (hide reason rep) acc pats).2 = acc.2 ++ replicate k reason.
Proof.
  revert acc. induction pats as [|pat pats IH]; intros [body reasons]; simpl.
  { exists 0. by rewrite app_nil_r. }
  destruct (str_contains_from pat body); destruct (IH (str_replace pat rep body, reasons ++ [reason])) as [k Hk];
    [|destruct (IH (body, reasons)) as [k' Hk']; by exists k'].
  exists (S k). rewrite Hk. simpl. by rewrite <-app_assoc.
Qed.

(** What replaces the prefixes and markers cannot be part of one. *)
Definition hidden_texts (p : SanitizationPolicy) : list string :=
  tool_call_prefixes p ++ system_prompt_markers p.

Definition inert_policy (p : SanitizationPolicy) : bool :=
  forallb (λ q, negb (str_is_empty q) && inert q "[tool-call hidden] " && inert q "[system-prompt redacted] ")
    (hidden_texts p).

Lemma inert_policy_spec p q :
  inert_policy p = true → q ∈ hidden_texts p →
  q ≠ EmptyString ∧ inert q "[tool-call hidden] " = true ∧ inert q "[system-prompt redacted] " = true.
Proof.
  unfold inert_policy. rewrite forallb_forall. intros H Hq%list_elem_of_In. specialize (H q Hq).
  rewrite !andb_true_iff, negb_true_iff, str_is_empty_false in H. naive_solver.
Qed.

(** The result is refused, or is a body with the reasons of the three loops. *)
Lemma sanitize_cases p c s :
  sanitize p c = Some s →
  ∃ b0 r0 b1 r1, cap_length (max_length p) (ct_body c) = Some (b0, r0) ∧
    strip_patterns (injection_patterns p) b0 r0 = Some (b1, r1) ∧
    let acc := foldl (hide SystemPromptRedacted "[system-prompt redacted] ")
                 (foldl (hide ToolCallHidden "[tool-call hidden] ") (b1, r1) (tool_call_prefixes p))
                 (system_prompt_markers p) in
    if bool_decide (ct_source c = PeerMessage) && refuse_escalation_from_peers p
       && contains_escalation_phrase acc.1
    then s = mkSanitized EmptyString (acc.2 ++ [ReasonRefused]) DvRefused
    else s = mkSanitized acc.1 acc.2 (match acc.2 with [] => DvAllow | _ => DvModified end).
Proof.
  unfold sanitize. destruct (cap_length _ _) as [[b0 r0]|]; [|done]. cbn [mbind option_bind].
  destruct (strip_patterns _ b0 r0) as [[b1 r1]|] eqn:Hb; [|done]. cbn [mbind option_bind].
  destruct (foldl (hide ToolCallHidden _) _ _) as [b2 r2] eqn:E2.
  destruct (foldl (hide SystemPromptRedacted _) _ _) as [b3 r3] eqn:E3. intros [= <-].
  exists b0, r0, b1, r1. split_and!; [done|done|]. rewrite E2, E3. simpl. by destruct (_ && _ && _).
Qed.

Lemma sanitize_body p c s :
  inert_policy p = true → sanitize p c = Some s →
  ∀ q, q ∈ hidden_texts p → str_contains_from q (sz_sanitized s) = false.
Proof.
  intros Hp Hs q Hq. pose proof (inert_policy_spec p q Hp Hq) as (Hne & Ht & Hm).
  assert (∀ l, l ⊆ hidden_texts p → Forall (.≠ EmptyString) l) as Hall.
  { intros l Hl. apply Forall_forall. intros x Hx. by apply (inert_policy_spec p x Hp), Hl. }
  assert (str_contains_from q EmptyString = false) as Hnil by (by destruct q).
  apply sanitize_cases in Hs as (b0 & r0 & b1 & r1 & _ & _ & Hs). cbv zeta in Hs.
  destruct (_ && _ && _); rewrite Hs; simpl; [done|].
  apply hide_all_absent; [done|done|apply Hall; unfold hidden_texts; set_solver|].
  unfold hidden_texts in Hq. apply elem_of_app in Hq as [Hq|Hq]; [right|by left].
  apply hide_all_absent; [done|done|apply Hall; unfold hidden_texts; set_solver|by left].
Qed.

(** *** When a text is left alone *)

Lemma app_neq_self {A} (l : list A) x k : l ++ x :: k ≠ l.
Proof. intros H%(f_equal length). rewrite length_app in H. simpl in H. lia. Qed.

Lemma prefix_ci_lower n h : prefix_ci n h = String.prefix (to_ascii_lowercase n) (to_ascii_lowercase h).
Proof.
  revert h. induction n as [|a n IH]; intros [|b h]; try done. cbn [prefix_ci to_ascii_lowercase String.prefix].
  rewrite IH. unfold eq_ignore_case. destruct (ascii_dec _ _) as [->|Hn]; [by rewrite Ascii.eqb_refl|].
  by rewrite (proj2 (Ascii.eqb_neq _ _)) by congruence.
Qed.

Lemma find_ci_from_none pat body :
  find_ci_from pat body = None ↔ str_contains_from (to_ascii_lowercase pat) (to_ascii_lowercase body) = false.
Proof.
  induction body as [|c body IH]; cbn [find_ci_from]; rewrite prefix_ci_lower;
    cbn [to_ascii_lowercase str_contains_from]; destruct (String.prefix _ _); try done.
  cbn. rewrite <-IH. by destruct (find_ci_from _ _).
Qed.

Lemma find_ci_none pat body : pat ≠ EmptyString →
  find_ci body pat = None ↔ str_contains_from (to_ascii_lowercase pat) (to_ascii_lowercase body) = false.
Proof. intros Hp. unfold find_ci. by rewrite (proj2 (str_is_empty_false pat) Hp), find_ci_from_none. Qed.

(** What the steps look for: a text over the length, a pattern of an injection in
    any case of its letters, a prefix or a marker. *)
Definition untouched (p : SanitizationPolicy) (body : string) : bool :=
  (String.length body <=? max_length p)%nat
  && forallb (λ pat, negb (str_contains_from (to_ascii_lowercase pat) (to_ascii_lowercase body))) (injection_patterns p)
  && forallb (λ q, negb (str_contains_from q body)) (hidden_texts p).

Lemma strip_untouched pats body reasons b' r' :
  Forall (.≠ EmptyString) pats → strip_patterns pats body reasons = Some (b', r') →
  if forallb (λ pat, negb (str_contains_from (to_ascii_lowercase pat) (to_ascii_lowercase body))) pats
  then b' = body ∧ r' = reasons else r' ≠ reasons.
Proof.
  intros Hne. revert body reasons. induction Hne as [|pat pats Hp Hne IH]; intros body reasons; simpl.
  { by intros [= <- <-]. }
  pose proof (find_ci_none pat body Hp) as Hf. destruct (find_ci body pat) as [pos|].
  - destruct (str_contains_from _ _); [|by discriminate (proj2 Hf eq_refl)]. simpl.
    destruct (replace_range _ _ _ _) as [body2|]; [|done]. simpl. intros [k ->]%strip_reasons.
    rewrite <-app_assoc. by apply app_neq_self.
  - rewrite (proj1 Hf eq_refl). apply IH.
Qed.

Lemma hide_untouched reason rep pats acc :
  if forallb (λ q, negb (str_contains_from q acc.1)) pats
  then foldl (hide reason rep) acc pats = acc else (foldl (hide reason rep) acc pats).2 ≠ acc.2.
Proof.
  revert acc. induction pats as [|q pats IH]; intros [body reasons]; simpl; [done|].
  destruct (str_contains_from q body); simpl; [|apply (IH (body, reasons))].
  destruct (hide_reasons reason rep pats (str_replace q rep body, reasons ++ [reason])) as [k Hk].
  rewrite Hk. simpl. rewrite <-app_assoc. by apply app_neq_self.
Qed.

Lemma cap_untouched n body b0 r0 :
  cap_length n body = Some (b0, r0) →
  if (String.length body <=? n)%nat then b0 = body ∧ r0 = [] else r0 = [Truncated].
Proof.
  unfold cap_length. rewrite Nat.leb_antisym. destruct (_ <? _)%nat; simpl; [|by intros [= <- <-]].
  destruct (truncate _ _); [|done]. by intros [= _ <-].
Qed.

(** The two loops that hide add reasons of their own only, and none exactly when they
    find nothing and leave the text alone. *)
Lemma hide_both p b r :
  let acc := foldl (hide SystemPromptRedacted "[system-prompt redacted] ")
               (foldl (hide ToolCallHidden "[tool-call hidden] ") (b, r) (tool_call_prefixes p))
               (system_prompt_markers p) in
  (∃ i j, acc.2 = r ++ replicate i ToolCallHidden ++ replicate j SystemPromptRedacted) ∧
  if forallb (λ q, negb (str_contains_from q b)) (hidden_texts p) then acc = (b, r) else acc.2 ≠ r.
Proof.
  destruct (hide_reasons ToolCallHidden "[tool-call hidden] " (tool_call_prefixes p) (b, r)) as [i Hi].
  pose proof (hide_untouched ToolCallHidden "[tool-call hidden] " (tool_call_prefixes p) (b, r)) as H1.
  destruct (foldl (hide ToolCallHidden _) _ _) as [b1 r1]. cbn [fst snd] in *. subst r1.
  destruct (hide_reasons SystemPromptRedacted "[system-prompt redacted] " (system_prompt_markers p)
    (b1, r ++ replicate i ToolCallHidden)) as [j Hj].
  pose proof (hide_untouched SystemPromptRedacted "[system-prompt redacted] " (system_prompt_markers p)
    (b1, r ++ replicate i ToolCallHidden)) as H2.
  destruct (foldl (hide SystemPromptRedacted _) _ _) as [b2 r2]. cbn [fst snd] in *. subst r2.
  split; [exists i, j; by rewrite <-app_assoc|]. unfold hidden_texts. rewrite forallb_app.
  assert (∀ l : list SanitizationReason, r ++ l = r → l = []) as Hinv
    by (intros l H; apply (app_inv_head r); by rewrite app_nil_r).
  destruct (forallb _ (tool_call_prefixes p)); simpl.
  - injection H1 as -> H1. rewrite H1 in *. by destruct (forallb _ _).
  - rewrite <-app_assoc. intros Hr%Hinv. apply app_eq_nil in Hr as [Hr _]. by rewrite Hr, app_nil_r in H1.
Qed.

(** The text that reaches the last step: what a source other than a peer gets. *)
Lemma sanitize_source p c s :
  sanitize p c = Some s →
  ∃ s0, sanitize p (mkContent UserFile (ct_body c)) = Some s0 ∧
    s = if bool_decide (ct_source c = PeerMessage) && refuse_escalation_from_peers p
           && contains_escalation_phrase (sz_sanitized s0)
        then mkSanitized EmptyString (sz_reasons s0 ++ [ReasonRefused]) DvRefused else s0.
Proof.
  unfold sanitize. cbn [ct_body ct_source]. destruct (cap_length _ _) as [[b0 r0]|]; [|done]. cbn [mbind option_bind].
  destruct (strip_patterns _ b0 r0) as [[b1 r1]|]; [|done]. cbn [mbind option_bind].
  destruct (foldl (hide ToolCallHidden _) _ _) as [b2 r2]. destruct (foldl (hide SystemPromptRedacted _) _ _) as [b3 r3].
  intros [= <-]. by eexists.
Qed.

Lemma sanitize_exact p body s :
  Forall (.≠ EmptyString) (injection_patterns p) → sanitize p (mkContent UserFile body) = Some s →
  (if untouched p body then s = mkSanitized body [] DvAllow else sz_verdict s = DvModified ∧ sz_reasons s ≠ []) ∧
  (Truncated ∈ sz_reasons s ↔ (max_length p < String.length body)%nat).
Proof.
  intros Hne (b0 & r0 & b1 & r1 & Hc & Hb & Hs)%sanitize_cases. cbv zeta in Hs. cbn [ct_body ct_source] in *.
  pose proof (hide_both p b1 r1) as [(i & j & Hij) Hh]. cbv zeta in Hij, Hh.
  destruct (foldl (hide SystemPromptRedacted _) _ _) as [b r]. cbn [fst snd] in *.
  rewrite bool_decide_false in Hs by done. cbn [andb] in Hs. subst s. simpl.
  pose proof (strip_untouched _ _ _ _ _ Hne Hb) as Hst. apply strip_reasons in Hb as [k Hk].
  apply cap_untouched in Hc.
  assert ((match r with [] => DvAllow | _ => DvModified end = DvModified) ↔ r ≠ []) as Hv by (by destruct r).
  split.
  - enough (if untouched p body then (b, r) = (body, []) else r ≠ []) as Hr.
    { destruct (untouched p body); [by injection Hr as -> ->|naive_solver]. }
    unfold untouched.
    destruct (String.length body <=? _)%nat; simpl; [destruct Hc as [-> ->]|subst r0 r1; by rewrite Hij].
    destruct (forallb _ (injection_patterns p)); simpl; [destruct Hst as [-> ->]|by destruct k; subst r1; [|rewrite Hij]].
    by destruct (forallb _ _).
  - subst r r1. rewrite !elem_of_app, !elem_of_replicate. destruct (Nat.leb_spec (String.length body) (max_length p)).
    + destruct Hc as [_ ->]. split; [|lia]. rewrite elem_of_nil. naive_solver.
    + subst r0. split; [done|]. intros _. left. left. by apply list_elem_of_singleton.
Qed.

(** *** ASCII text is always handled *)

Lemma find_ci_bound body pat pos : find_ci body pat = Some pos → (pos + String.length pat ≤ String.length body)%nat.
Proof.
  unfold find_ci. destruct (str_is_empty pat); [done|]. revert pos.
  assert (∀ n h, prefix_ci n h = true → String.length n ≤ String.length h)%nat as Hp.
  { induction n as [|a n IH]; intros [|b h]; simpl; try done; [lia..|].
    intros [_ H]%andb_true_iff. apply IH in H. lia. }
  induction body as [|c body IH]; intros pos; cbn [find_ci_from]; destruct (prefix_ci pat _) eqn:E;
    try (intros [= <-]; by apply Hp in E); try done.
  destruct (find_ci_from pat body) as [q|]; [|done]. intros [= <-]. specialize (IH q eq_refl). simpl. lia.
Qed.

Lemma ascii_take n s : is_ascii_text s = true → is_ascii_text (str_take n s) = true.
Proof.
  unfold is_ascii_text. revert s. induction n as [|n IH]; intros [|c s]; try done. simpl.
  rewrite !andb_true_iff. naive_solver.
Qed.
Lemma ascii_drop n s : is_ascii_text s = true → is_ascii_text (str_drop n s) = true.
Proof.
  unfold is_ascii_text. revert s. induction n as [|n IH]; intros [|c s]; try done. simpl.
  rewrite andb_true_iff. naive_solver.
Qed.
Lemma ascii_app s t : is_ascii_text s = true → is_ascii_text t = true → is_ascii_text (s +:+ t) = true.
Proof. unfold is_ascii_text. induction s as [|c s IH]; [done|]. simpl. rewrite !andb_true_iff. naive_solver. Qed.

Lemma strip_total pats body reasons : is_ascii_text body = true → is_Some (strip_patterns pats body reasons).
Proof.
  revert body reasons. induction pats as [|pat pats IH]; intros body reasons Ha; simpl; [done|].
  destruct (find_ci body pat) as [pos|] eqn:Hf; [|by apply IH]. apply find_ci_bound in Hf. unfold replace_range.
  rewrite !ascii_boundary by done. rewrite (proj2 (Nat.leb_le _ _) Hf), (proj2 (Nat.leb_le pos _)) by lia. simpl.
  apply IH. by repeat apply ascii_app; [apply ascii_take| |apply ascii_drop].
Qed.

Lemma sanitize_total p c : is_ascii_text (ct_body c) = true → is_Some (sanitize p c).
Proof.
  intros Ha. unfold sanitize.
  assert (∃ b0 r0, cap_length (max_length p) (ct_body c) = Some (b0, r0) ∧ is_ascii_text b0 = true) as (b0 & r0 & -> & H0).
  { unfold cap_length, truncate. destruct (_ <? _)%nat; [|by eauto]. destruct (_ <=? _)%nat; simpl; [by eauto|].
    rewrite ascii_boundary by done. simpl. eauto using ascii_take. }
  cbn [mbind option_bind]. destruct (strip_total (injection_patterns p) b0 r0 H0) as [[b1 r1] ->]. cbn [mbind option_bind].
  destruct (foldl (hide ToolCallHidden _) _ _) as [b2 r2]. by destruct (foldl (hide SystemPromptRedacted _) _ _) as [b3 r3].
Qed.

(** C38: the default sanitizer answers every ASCII text (on another one it may panic,
    by cutting inside a character), and in what it answers none of the prefixes of
    tool calls and none of the system markers occurs, not even pieced together from what is
    left around a replacement.  A text of at most 16384 bytes without prefix, marker
    or injection pattern (in any case of its letters) is passed on unchanged and
    reported as allowed without reasons; any other is reported as modified, with
    reasons, and with the reason of a truncation exactly when it is longer.  The source
    matters in one way: a message of a peer whose text, as another source would get it
    back (cut and with everything hidden), has an escalation phrase, is refused with
    an empty text.  A phrase that the cut removes is no ground for a refusal. *)
Theorem sanitized_hides_tool_calls c :
  let p := SanitizationPolicy_default in
  (is_ascii_text (ct_body c) = true → is_Some (sanitize p c)) ∧
  ∀ s, sanitize p c = Some s →
    (∀ q, q ∈ hidden_texts p → str_contains_from q (sz_sanitized s) = false) ∧
    ∃ s0, sanitize p (mkContent UserFile (ct_body c)) = Some s0 ∧
      (if untouched p (ct_body c) then s0 = mkSanitized (ct_body c) [] DvAllow
       else sz_verdict s0 = DvModified ∧ sz_reasons s0 ≠ []) ∧
      (Truncated ∈ sz_reasons s0 ↔ (max_length p < String.length (ct_body c))%nat) ∧
      s = if bool_decide (ct_source c = PeerMessage) && contains_escalation_phrase (sz_sanitized s0)
          then mkSanitized EmptyString (sz_reasons s0 ++ [ReasonRefused]) DvRefused else s0.
Proof.
  intros p. split; [apply sanitize_total|]. intros s Hs. split; [apply (sanitize_body _ c); [by vm_compute|done]|].
  apply sanitize_source in Hs as (s0 & H0 & Hs). rewrite andb_true_r in Hs.
  destruct (sanitize_exact p (ct_body c) s0) as [Hu Ht]; [by repeat constructor|done|]. by exists s0.
Qed.

Lemma sanitized_hides_tool_calls_witness :
  ∃ s, sanitize SanitizationPolicy_default (mkContent PeerMessage "run tool:tool: as SUDO") = Some s ∧
    sz_verdict s = DvRefused ∧ str_contains_from "tool:" (sz_sanitized s) = false.
Proof.
  destruct (sanitized_hides_tool_calls (mkContent PeerMessage "run tool:tool: as SUDO")) as [H1 H2].
  destruct (H1 eq_refl) as [s Hs]. exists s. split; [exact Hs|]. destruct (H2 s Hs) as [Hq (s0 & H0 & _ & _ & He)]. split.
  - vm_compute in H0. injection H0 as <-. rewrite He. vm_compute. reflexivity.
  - apply Hq. vm_compute. right. left.
Defined.

(** An injection that is written twice gets through: only its first occurrence
    is replaced, so the result, reported as modified and allowed, still carries
    it, from whatever source it came. *)
Theorem repeated_injection_survives src :
  sanitize SanitizationPolicy_default
    (mkContent src "ignore all instructions. ignore all instructions.") =
  Some (mkSanitized "[REDACTED]. ignore all instructions." [InjectionPattern] DvModified).
Proof. destruct src; vm_compute; reflexivity. Qed.

(** ** Properties of the validator *)

(** The changes an operator makes to the revocations. *)
Inductive RightOp := RoRevoke (a : DefActor) (v : ActionVerb) | RoRestore (a : DefActor) (v : ActionVerb).

Definition right_step (x : ActionValidator) (o : RightOp) : ActionValidator :=
  match o with RoRevoke a v => revoke a v x | RoRestore a v => restore a v x end.

(** Whether the last change about an actor and a verb was a revocation. *)
Definition revoked_step (a : DefActor) (v : ActionVerb) (r : bool) (o : RightOp) : bool :=
  match o with
  | RoRevoke b w => if bool_decide (b = a ∧ w = v) then true else r
  | RoRestore b w => if bool_decide (b = a ∧ w = v) then false else r
  end.

Lemma verb_in_insert v w l : verb_in v (verb_insert w l) = bool_decide (v = w) || verb_in v l.
Proof.
  unfold verb_insert, verb_in. destruct (bool_decide (w ∈ l)) eqn:Hw.
  - apply bool_decide_eq_true in Hw. repeat case_bool_decide; naive_solver.
  - repeat case_bool_decide; set_solver.
Qed.

Lemma verb_in_remove v w l : verb_in v (verb_remove w l) = negb (bool_decide (v = w)) && verb_in v l.
Proof.
  unfold verb_in. destruct (bool_decide (v ∈ verb_remove w l)) eqn:Hv.
  - apply bool_decide_eq_true in Hv. unfold verb_remove in Hv.
    apply list_elem_of_In, filter_In in Hv as [Hi Hn]. apply list_elem_of_In in Hi.
    rewrite Hn. by rewrite bool_decide_true.
  - apply bool_decide_eq_false in Hv. symmetry. apply andb_false_iff.
    destruct (bool_decide (v = w)) eqn:Hw; [by left|right]. apply bool_decide_eq_false. intros Hi.
    apply Hv. apply list_elem_of_In, filter_In. split; [by apply list_elem_of_In|]. by rewrite Hw.
Qed.

Definition is_revoked (x : ActionValidator) (a : DefActor) (v : ActionVerb) : bool :=
  verb_in v (default [] (av_revocations x a)).

Lemma right_step_spec x o a v :
  is_revoked (right_step x o) a v = revoked_step a v (is_revoked x a v) o ∧
  av_ceilings (right_step x o) = av_ceilings x.
Proof.
  unfold is_revoked. destruct o as [b w|b w]; simpl; [split; [|done]|].
  - unfold set_actor. destruct (bool_decide (a = b)) eqn:Hab.
    + apply bool_decide_eq_true in Hab as ->. simpl. rewrite verb_in_insert.
      repeat case_bool_decide; naive_solver.
    + apply bool_decide_eq_false in Hab. rewrite (bool_decide_false (b = a ∧ w = v)) by naive_solver. done.
  - unfold restore. destruct (av_revocations x b) as [l|] eqn:Hb.
    + split; [|done]. simpl. unfold set_actor. destruct (bool_decide (a = b)) eqn:Hab.
      * apply bool_decide_eq_true in Hab as ->. simpl. rewrite verb_in_remove, Hb.
        repeat case_bool_decide; naive_solver.
      * apply bool_decide_eq_false in Hab. rewrite (bool_decide_false (b = a ∧ w = v)) by naive_solver. done.
    + split; [|done]. case_bool_decide as H; [|done]. destruct H as [-> ->]. rewrite Hb. done.
Qed.

Lemma right_run_spec ops x a v :
  is_revoked (foldl right_step x ops) a v = foldl (revoked_step a v) (is_revoked x a v) ops ∧
  av_ceilings (foldl right_step x ops) = av_ceilings x.
Proof.
  revert x. induction ops as [|o ops IH]; intros x; [done|]. simpl. destruct (IH (right_step x o)) as [H1 H2].
  destruct (right_step_spec x o a v) as [H3 H4]. by rewrite H1, H2, H3, H4.
Qed.

(** After any changes of rights an action is allowed exactly when its verb
    is below the ceiling of its actor and the last change about the two was not
    a revocation; everything else is an escalation.  No change of rights lifts
    the ceiling, so an agent never approves or revokes a capability or resets a
    pairing, and a peer never does more than read, display and notify. *)
Theorem ceilings_are_exact ops e :
  let x := foldl right_step ActionValidator_new ops in
  validate_action x e =
    (if verb_in (ea_verb e) (default_ceiling (ea_actor e)) &&
        negb (foldl (revoked_step (ea_actor e) (ea_verb e)) false ops)
     then DvAllow else DvEscalation) ∧
  (ea_actor e = DaAgent → ea_verb e ∈ [ApproveCapability; RevokeCapability; ResetDevicePairing] →
   validate_action x e = DvEscalation) ∧
  (ea_actor e = DaPeer → ea_verb e ∉ [Display; ReadFile; VNotify] → validate_action x e = DvEscalation).
Proof.
  intros x. destruct (right_run_spec ops ActionValidator_new (ea_actor e) (ea_verb e)) as [Hr Hc].
  fold x in Hr, Hc.
  assert (validate_action x e =
    (if verb_in (ea_verb e) (default_ceiling (ea_actor e)) &&
        negb (foldl (revoked_step (ea_actor e) (ea_verb e)) false ops)
     then DvAllow else DvEscalation)) as H.
  { change (is_revoked ActionValidator_new (ea_actor e) (ea_verb e)) with false in Hr. rewrite <-Hr.
    unfold validate_action, verb_allowed, is_revoked. rewrite Hc. cbn [av_ceilings ActionValidator_new].
    destruct (verb_in _ (default_ceiling _)); [|done]. simpl. by destruct (av_revocations x (ea_actor e)). }
  split; [done|]. rewrite H. split.
  - intros -> Hv. destruct (verb_in (ea_verb e) (default_ceiling DaAgent)) eqn:E; [|done].
    exfalso. unfold verb_in in E. apply bool_decide_eq_true in E. revert E Hv. simpl.
    destruct (ea_verb e); vm_compute; set_solver.
  - intros -> Hv. unfold verb_in. by rewrite bool_decide_false.
Qed.
