(* ===== verification/Actions.v ===== *)
(** * Actions of the agent runtime

    Models agent/aether-agent-runtime/src: errors.rs, action.rs, recovery.rs,
    planner.rs, validator.rs, session.rs and approval.rs.  A [Uuid] is a 128-bit
    number; its text form, third-party code, is the class [UuidText].  The
    parameters of an action are the arguments of its constructor. *)
From S2P Require Import Prelude RustStd Json.
From Stdlib Require Import Ascii.

Class UuidText := { uuid_text : N → string; uuid_parse : string → result N string }.

(** Printing a uuid and parsing it gives it back. *)
Class UuidLaws `{UuidText} : Prop := uuid_parse_text u : uuid_parse (uuid_text u) = Ok u.

(** ** errors.rs *)

Inductive AgentError :=
| AeSession (s : string) | AeRequest (s : string) | AeIntent (s : string)
| AeAction (s : string) | AeValidation (s : string) | AeCapabilityDenied (s : string)
| AePolicyDenied (s : string) | AeApprovalRequired (s : string)
| AeExecution (s : string) | AeIpc (s : string) | AeTool (s : string)
| AePlanner (s : string) | AeLlm (s : string) | AeObservation (s : string)
| AeCancellation (s : string) | AeTimeout (s : string) | AeNotFound (s : string)
| AeInternal (s : string).

Definition AgentError_to_string (e : AgentError) : string :=
  match e with
  | AeSession s => "Session error: " +:+ s
  | AeRequest s => "Request error: " +:+ s
  | AeIntent s => "Intent error: " +:+ s
  | AeAction s => "Action error: " +:+ s
  | AeValidation s => "Validation error: " +:+ s
  | AeCapabilityDenied s => "Capability denied: " +:+ s
  | AePolicyDenied s => "Policy denied: " +:+ s
  | AeApprovalRequired s => "Approval required: " +:+ s
  | AeExecution s => "Execution error: " +:+ s
  | AeIpc s => "IPC error: " +:+ s
  | AeTool s => "Tool error: " +:+ s
  | AePlanner s => "Planner error: " +:+ s
  | AeLlm s => "LLM error: " +:+ s
  | AeObservation s => "Observation error: " +:+ s
  | AeCancellation s => "Cancellation: " +:+ s
  | AeTimeout s => "Timeout: " +:+ s
  | AeNotFound s => "Not found: " +:+ s
  | AeInternal s => "Internal error: " +:+ s
  end.

(** ** action.rs *)

Inductive ActionRisk := ArLow | ArMedium | ArHigh | ArCritical.

#[export] Instance ActionRisk_eq_dec : EqDecision ActionRisk.
Proof. solve_decision. Defined.

(** The derived [Debug] text. *)
Definition ActionRisk_debug (r : ActionRisk) : string :=
  match r with
  | ArLow => "Low" | ArMedium => "Medium" | ArHigh => "High" | ArCritical => "Critical"
  end.

Inductive ActionVariant :=
| ApplicationLaunch (application_id : string)
| ApplicationClose (application_id : string)
| WindowList
| WindowFocus (window_id : option N) (application_id : option string)
| WindowMinimize (window_id : N)
| WindowMaximize (window_id : N)
| WindowClose (window_id : option N) (application_id : option string)
| FileList (path : string)
| FileRead (path : string)
| FileCreate (path : string) (content : option string)
| FileWrite (path content : string)
| FileSearch (query : string) (path : option string)
| FileRename (from to : string)
| FileMove (from to : string)
| FileDelete (path : string)
| ProcessList
| ProcessInspect (pid : option N) (name : option string)
| NetworkStatus
| NetworkInterfaces
| SystemStatus
| SystemInfo
| SystemResources
| SystemUptime
| ServiceRestart (service_id : string)
| StorageStatus
| ContextGet
| DisplayList
| DisplaySetBrightness (display_id : string) (level : N)
| DisplaySetResolution (display_id : string) (width height : N)
| DeviceList
| DeviceInspect (device_id : string)
| DeviceEnable (device_id : string)
| DeviceDisable (device_id : string)
| SystemReboot (delay_ms : N)
| SystemShutdown (delay_ms : N)
| SystemSuspend
| CredentialSeal (name plaintext : string)
| CredentialUnseal (name : string)
| PolicyReload.

Record Action := mkAction {
  act_id : N;
  act_session_id : string;
  act_variant : ActionVariant;
  act_requested_capabilities : list string;
  act_risk_level : ActionRisk;
  act_reason : string;
  act_timeout_ms : N;
}.

Definition action_name (v : ActionVariant) : string :=
  match v with
  | ApplicationLaunch _ => "application.launch"
  | ApplicationClose _ => "application.close"
  | WindowList => "window.list"
  | WindowFocus _ _ => "window.focus"
  | WindowMinimize _ => "window.minimize"
  | WindowMaximize _ => "window.maximize"
  | WindowClose _ _ => "window.close"
  | FileList _ => "file.list"
  | FileRead _ => "file.read"
  | FileCreate _ _ => "file.create"
  | FileWrite _ _ => "file.write"
  | FileSearch _ _ => "file.search"
  | FileRename _ _ => "file.rename"
  | FileMove _ _ => "file.move"
  | FileDelete _ => "file.delete"
  | ProcessList => "process.list"
  | ProcessInspect _ _ => "process.inspect"
  | NetworkStatus => "network.status"
  | NetworkInterfaces => "network.interfaces"
  | SystemStatus => "system.status"
  | SystemInfo => "system.info"
  | SystemResources => "system.resources"
  | SystemUptime => "system.uptime"
  | ServiceRestart _ => "service.restart"
  | StorageStatus => "storage.status"
  | ContextGet => "context.get"
  | DisplayList => "display.list"
  | DisplaySetBrightness _ _ => "display.set_brightness"
  | DisplaySetResolution _ _ _ => "display.set_resolution"
  | DeviceList => "device.list"
  | DeviceInspect _ => "device.inspect"
  | DeviceEnable _ => "device.enable"
  | DeviceDisable _ => "device.disable"
  | SystemReboot _ => "system.reboot"
  | SystemShutdown _ => "system.shutdown"
  | SystemSuspend => "system.suspend"
  | CredentialSeal _ _ => "credential.seal"
  | CredentialUnseal _ => "credential.unseal"
  | PolicyReload => "policy.reload"
  end.

Definition classify_action (v : ActionVariant) : list string * ActionRisk :=
  match v with
  | ApplicationLaunch _ => (["application.launch"], ArMedium)
  | ApplicationClose _ => (["application.close"], ArMedium)
  | WindowList => (["window.list"], ArLow)
  | WindowFocus _ _ => (["window.focus"], ArLow)
  | WindowMinimize _ => (["window.minimize"], ArLow)
  | WindowMaximize _ => (["window.maximize"], ArLow)
  | WindowClose _ _ => (["window.close"], ArMedium)
  | FileList _ => (["file.list"], ArLow)
  | FileRead _ => (["file.read"], ArLow)
  | FileCreate _ _ => (["file.create"], ArMedium)
  | FileWrite _ _ => (["file.write"], ArMedium)
  | FileSearch _ _ => (["file.search"], ArLow)
  | FileRename _ _ => (["file.rename"], ArMedium)
  | FileMove _ _ => (["file.move"], ArMedium)
  | FileDelete _ => (["file.delete"], ArHigh)
  | ProcessList => (["process.list"], ArLow)
  | ProcessInspect _ _ => (["process.inspect"], ArLow)
  | NetworkStatus => (["network.status"], ArLow)
  | NetworkInterfaces => (["network.interfaces"], ArLow)
  | SystemStatus => (["system.status"], ArLow)
  | SystemInfo => (["system.info"], ArLow)
  | SystemResources => (["system.resources"], ArLow)
  | SystemUptime => (["system.uptime"], ArLow)
  | ServiceRestart _ => (["service.restart"], ArMedium)
  | StorageStatus => (["storage.status"], ArLow)
  | ContextGet => (["context.get"], ArLow)
  | DisplayList => (["display.list"], ArLow)
  | DisplaySetBrightness _ _ => (["display.set_brightness"], ArLow)
  | DisplaySetResolution _ _ _ => (["display.set_resolution"], ArMedium)
  | DeviceList => (["device.list"], ArLow)
  | DeviceInspect _ => (["device.inspect"], ArLow)
  | DeviceEnable _ => (["device.enable"], ArMedium)
  | DeviceDisable _ => (["device.disable"], ArMedium)
  | SystemReboot _ => (["system.reboot"], ArCritical)
  | SystemShutdown _ => (["system.shutdown"], ArCritical)
  | SystemSuspend => (["system.suspend"], ArHigh)
  | CredentialSeal _ _ => (["credential.seal"], ArHigh)
  | CredentialUnseal _ => (["credential.unseal"], ArHigh)
  | PolicyReload => (["policy.reload"], ArHigh)
  end.

(** The fresh id is an argument. *)
Definition Action_new (id : N) (session_id : string) (v : ActionVariant) (reason : string) : Action :=
  let '(caps, risk) := classify_action v in mkAction id session_id v caps risk reason 30000.

Definition Action_with_timeout (ms : N) (a : Action) : Action :=
  mkAction (act_id a) (act_session_id a) (act_variant a) (act_requested_capabilities a)
    (act_risk_level a) (act_reason a) ms.

Definition Action_with_risk_level (r : ActionRisk) (a : Action) : Action :=
  mkAction (act_id a) (act_session_id a) (act_variant a) (act_requested_capabilities a)
    r (act_reason a) (act_timeout_ms a).

(** ** recovery.rs *)

Inductive RecoveryAction := RaRetry | RaAbort | RaSkip.

Definition RecoveryAction_as_str (r : RecoveryAction) : string :=
  match r with RaRetry => "retry" | RaAbort => "abort" | RaSkip => "skip" end.

Inductive FailureKind := FkTransient | FkPermanent | FkUnknown.

Definition FailureKind_from_error (e : AgentError) : FailureKind :=
  match e with
  | AeIpc _ | AeTimeout _ => FkTransient
  | AeCapabilityDenied _ | AePolicyDenied _ | AeApprovalRequired _
  | AeValidation _ | AeNotFound _ => FkPermanent
  | _ => FkUnknown
  end.

Record RecoveryPolicy := mkRecoveryPolicy {
  rec_max_retries : N;
  rec_backoff_base_ms : N;
  rec_backoff_max_ms : N;
  rec_timeout_ms : option N;
}.

Definition RecoveryPolicy_default : RecoveryPolicy := mkRecoveryPolicy 0 100 5000 None.
Definition transient_default : RecoveryPolicy := mkRecoveryPolicy 3 100 5000 (Some 2000%N).
Definition no_retry : RecoveryPolicy := RecoveryPolicy_default.

Definition backoff_delay (p : RecoveryPolicy) (attempt : N) : N :=
  if (attempt =? 0)%N then 0
  else
    let shift := N.min (saturating_sub attempt 1) 20 in
    N.min (saturating_mul u64_max (rec_backoff_base_ms p) (N.shiftl 1 shift))
      (rec_backoff_max_ms p).

(** [None] is the failed assertion. *)
Definition decide_recovery (p : RecoveryPolicy) (attempt : N) (kind : FailureKind)
    (optional : bool) : option RecoveryAction :=
  let on_stop := if optional then RaSkip else RaAbort in
  if (attempt =? 0)%N then None
  else Some
    (if (rec_max_retries p <? attempt)%N then on_stop
     else match kind with
          | FkPermanent => on_stop
          | FkUnknown => if (1 <? attempt)%N then on_stop else RaRetry
          | FkTransient => RaRetry
          end).

Definition recovery_policy_for (v : ActionVariant) : RecoveryPolicy :=
  match v with
  | ApplicationLaunch _ | ApplicationClose _ => no_retry
  | FileCreate _ _ | FileWrite _ _ | FileRename _ _ | FileMove _ _ | FileDelete _ => no_retry
  | DeviceEnable _ | DeviceDisable _ => no_retry
  | DisplaySetResolution _ _ _ | DisplaySetBrightness _ _ => no_retry
  | CredentialSeal _ _ | CredentialUnseal _ | PolicyReload => no_retry
  | SystemReboot _ | SystemShutdown _ | SystemSuspend => no_retry
  | WindowClose _ _ => no_retry
  | WindowList | WindowFocus _ _ | WindowMinimize _ | WindowMaximize _ => transient_default
  | FileList _ | FileRead _ | FileSearch _ _ => transient_default
  | ProcessList | ProcessInspect _ _ => transient_default
  | NetworkStatus | NetworkInterfaces => transient_default
  | SystemStatus | SystemInfo | SystemResources | SystemUptime => transient_default
  | ServiceRestart _ => no_retry
  | StorageStatus | ContextGet => transient_default
  | DisplayList => transient_default
  | DeviceList | DeviceInspect _ => transient_default
  end.

(** ** planner.rs *)

Section planner.
Context {J : Type}.

Record PlanStep := mkPlanStep {
  ps_step_index : N;
  ps_action_name : string;
  ps_parameters : J;
  ps_depends_on : list N;
  ps_required_capabilities : list string;
  ps_risk_level : string;
  ps_optional : bool;
  ps_recovery : RecoveryPolicy;
}.

Record Plan := mkPlan {
  pl_id : N;
  pl_session_id : string;
  pl_intent_summary : string;
  pl_steps : list PlanStep;
  pl_estimated_risk : string;
  pl_requires_approval : bool;
  pl_created_at : N;
  pl_max_plan_retries : N;
}.

Definition Plan_new (id now : N) (session_id intent_summary : string) : Plan :=
  mkPlan id session_id intent_summary [] "low" false now 0.

(** [Iterator::max] of strings, in the order of their bytes. *)
Definition str_max (l : list string) : option string :=
  match l with
  | [] => None
  | s :: l => Some (foldl (λ m r, if String.leb m r then r else m) s l)
  end.

Definition recalculate_risk (p : Plan) : Plan :=
  match str_max (ps_risk_level <$> pl_steps p) with
  | None => p
  | Some risk =>
      mkPlan (pl_id p) (pl_session_id p) (pl_intent_summary p) (pl_steps p) risk
        ((risk =? "high")%string || (risk =? "critical")%string)
        (pl_created_at p) (pl_max_plan_retries p)
  end.

Definition add_step (s : PlanStep) (p : Plan) : Plan :=
  recalculate_risk
    (mkPlan (pl_id p) (pl_session_id p) (pl_intent_summary p) (pl_steps p ++ [s])
       (pl_estimated_risk p) (pl_requires_approval p) (pl_created_at p) (pl_max_plan_retries p)).

Definition future_dependency (s : PlanStep) : option N :=
  find_b (λ dep, (ps_step_index s <=? dep)%N) (ps_depends_on s).

Fixpoint validate_steps (l : list PlanStep) : result unit string :=
  match l with
  | [] => Ok tt
  | s :: l =>
      match future_dependency s with
      | Some dep => Err ("Step " +:+ pretty (ps_step_index s) +:+ " depends on future step " +:+
                         pretty dep)
      | None => validate_steps l
      end
  end.

Definition Plan_validate (p : Plan) : result unit string := validate_steps (pl_steps p).

Definition plan_single_with_recovery (id now : N) (session_id name : string) (params : J)
    (capabilities : list string) (risk_level : string) (recovery : RecoveryPolicy) : Plan :=
  add_step (mkPlanStep 0 name params [] capabilities risk_level false recovery)
    (Plan_new id now session_id name).

Definition plan_single (id now : N) (session_id name : string) (params : J)
    (capabilities : list string) (risk_level : string) : Plan :=
  plan_single_with_recovery id now session_id name params capabilities risk_level
    RecoveryPolicy_default.

Definition ActionRisk_plan_str (r : ActionRisk) : string :=
  match r with
  | ArLow => "low" | ArMedium => "medium" | ArHigh => "high" | ArCritical => "critical"
  end.

(** [to_value] is the derived serializer of the variant. *)
Definition plan_for_action (to_value : ActionVariant → J) (id now : N) (a : Action) : Plan :=
  plan_single_with_recovery id now (act_session_id a) (action_name (act_variant a))
    (to_value (act_variant a)) (act_requested_capabilities a)
    (ActionRisk_plan_str (act_risk_level a)) (recovery_policy_for (act_variant a)).

Definition plan_multi (id now : N) (session_id intent_summary : string) (steps : list PlanStep) :
    Plan :=
  foldl (λ p s, add_step s p) (Plan_new id now session_id intent_summary) steps.
End planner.
Arguments PlanStep J : clear implicits.
Arguments Plan J : clear implicits.

(** ** validator.rs *)

Record ValidationResult := mkValidationResult {
  vr_valid : bool;
  vr_schema_ok : bool;
  vr_capability_ok : bool;
  vr_policy_ok : bool;
  vr_risk_level : ActionRisk;
  vr_requires_confirmation : bool;
  vr_errors : list string;
}.

Definition validate_schema (a : Action) : list string * bool :=
  if str_is_empty (act_session_id a) then (["Action missing session ID"], false)
  else if str_is_empty (act_reason a) then (["Action missing reason"], false)
  else match act_variant a with
       | ApplicationLaunch id =>
           if str_is_empty id then (["Application launch missing application_id"], false)
           else ([], true)
       | FileRead path | FileList path =>
           if str_is_empty path then (["File action missing path"], false) else ([], true)
       | FileDelete path =>
           if str_is_empty path then (["File delete missing path"], false)
           else if (path =? "/")%string || (path =? "/root")%string || (path =? "/etc")%string
           then (["Refusing to delete system directory"], false)
           else ([], true)
       | _ => ([], true)
       end.

Definition is_granted (granted : list string) (cap : string) : bool :=
  existsb (λ c, (c =? cap)%string) granted.

Definition validate_capabilities (granted : list string) (a : Action) : list string * bool :=
  let missing := List.filter (λ cap, negb (is_granted granted cap)) (act_requested_capabilities a) in
  ((λ cap, "Missing capability: " +:+ cap) <$> missing, match missing with [] => true | _ => false end).

Definition validate_policy (a : Action) : list string * bool :=
  let name := action_name (act_variant a) in
  if str_contains_from "sh " name || str_contains_from "bash " name || str_contains_from "exec" name
  then (["Policy violation: raw shell execution blocked"], false)
  else ([], true).

(** [Validator::validate] under the granted capabilities; it never fails. *)
Definition Validator_validate (granted : list string) (a : Action) : ValidationResult :=
  let '(e1, schema_ok) := validate_schema a in
  let '(e2, capability_ok) := validate_capabilities granted a in
  let '(e3, policy_ok) := validate_policy a in
  mkValidationResult (schema_ok && capability_ok && policy_ok) schema_ok capability_ok policy_ok
    (act_risk_level a)
    (match act_risk_level a with ArHigh | ArCritical => true | _ => false end)
    (e1 ++ e2 ++ e3).

(** ** session.rs *)

Inductive SessionState :=
| SsCreated | SsReady | SsThinking | SsPlanning | SsWaitingApproval | SsExecuting
| SsObserving | SsCompleted | SsFailed | SsCancelled.

#[export] Instance SessionState_eq_dec : EqDecision SessionState.
Proof. solve_decision. Defined.

Definition SessionState_to_string (s : SessionState) : string :=
  match s with
  | SsCreated => "created" | SsReady => "ready" | SsThinking => "thinking"
  | SsPlanning => "planning" | SsWaitingApproval => "waiting_approval"
  | SsExecuting => "executing" | SsObserving => "observing" | SsCompleted => "completed"
  | SsFailed => "failed" | SsCancelled => "cancelled"
  end.

Definition session_is_terminal (s : SessionState) : bool :=
  match s with SsCompleted | SsFailed | SsCancelled => true | _ => false end.

Definition can_transition_to (s next : SessionState) : bool :=
  match s, next with
  | SsCreated, SsReady
  | SsReady, SsThinking
  | SsThinking, SsPlanning
  | SsPlanning, SsExecuting
  | SsPlanning, SsWaitingApproval
  | SsWaitingApproval, SsExecuting
  | SsWaitingApproval, SsCancelled
  | SsExecuting, SsObserving
  | SsExecuting, SsFailed
  | SsObserving, SsCompleted
  | SsObserving, SsThinking
  | SsObserving, SsFailed => true
  | _, _ => false
  end.

Inductive ActorType := AtHuman | AtSystem | AtAgent.

Record SessionActor := mkSessionActor { sa_actor_type : ActorType; sa_identity : string }.

Record AgentSession := mkAgentSession {
  ses_id : N;
  ses_state : SessionState;
  ses_actor : SessionActor;
  ses_created_at : N;
  ses_updated_at : N;
  ses_request_count : N;
  ses_action_count : N;
  ses_observation_count : N;
  ses_error_count : N;
  ses_cancelled : bool;
}.

Definition AgentSession_new (id now : N) (actor : SessionActor) : AgentSession :=
  mkAgentSession id SsCreated actor now now 0 0 0 0 false.

Definition set_session_state (st : SessionState) (now : N) (s : AgentSession) : AgentSession :=
  mkAgentSession (ses_id s) st (ses_actor s) (ses_created_at s) now (ses_request_count s)
    (ses_action_count s) (ses_observation_count s) (ses_error_count s) (ses_cancelled s).

Definition session_transition (next : SessionState) (now : N) (s : AgentSession) :
    AgentSession * result unit string :=
  if session_is_terminal (ses_state s)
  then (s, Err ("Cannot transition from terminal state " +:+ SessionState_to_string (ses_state s)))
  else if negb (can_transition_to (ses_state s) next)
  then (s, Err ("Invalid transition: " +:+ SessionState_to_string (ses_state s) +:+ " -> " +:+
                SessionState_to_string next))
  else (set_session_state next now s, Ok tt).

Definition session_is_active (s : AgentSession) : bool := negb (session_is_terminal (ses_state s)).

(** The counters are 32-bit; an increment past the end is a panic. *)
Definition count_up (n : N) : option N := if (n =? u32_max)%N then None else Some (n + 1)%N.

Definition mark_error (s : AgentSession) : option AgentSession :=
  n ← count_up (ses_error_count s);
  Some (mkAgentSession (ses_id s) (ses_state s) (ses_actor s) (ses_created_at s)
          (ses_updated_at s) (ses_request_count s) (ses_action_count s)
          (ses_observation_count s) n (ses_cancelled s)).

(** ** approval.rs *)

Inductive ApprovalStatus := ApPending | ApApproved | ApDenied | ApExpired.

Record ApprovalRequest := mkApprovalRequest {
  ap_id : N;
  ap_session_id : string;
  ap_action_id : string;
  ap_action_name : string;
  ap_risk_level : string;
  ap_reason : string;
  ap_status : ApprovalStatus;
  ap_created_at : N;
  ap_resolved_at : option N;
}.

Definition ApprovalRequest_new (id now : N) (session_id action_id name risk_level reason : string) :
    ApprovalRequest :=
  mkApprovalRequest id session_id action_id name risk_level reason ApPending now None.

Definition ap_resolve (st : ApprovalStatus) (now : N) (a : ApprovalRequest) : ApprovalRequest :=
  mkApprovalRequest (ap_id a) (ap_session_id a) (ap_action_id a) (ap_action_name a)
    (ap_risk_level a) (ap_reason a) st (ap_created_at a) (Some now).

Definition ApprovalRequest_approve (now : N) (a : ApprovalRequest) : ApprovalRequest :=
  ap_resolve ApApproved now a.
Definition ApprovalRequest_deny (now : N) (a : ApprovalRequest) : ApprovalRequest :=
  ap_resolve ApDenied now a.

(** * Properties *)

(** ** Validation *)

(** No action name looks like a shell command: the policy check always passes. *)
Lemma validate_policy_ok a : validate_policy a = ([], true).
Proof. unfold validate_policy. by destruct (act_variant a). Qed.

Lemma is_granted_true granted c : is_granted granted c = true ↔ c ∈ granted.
Proof.
  unfold is_granted. rewrite existsb_exists, list_elem_of_In. setoid_rewrite String.eqb_eq.
  naive_solver.
Qed.

Lemma validate_capabilities_ok granted a :
  (validate_capabilities granted a).2 = true ↔ act_requested_capabilities a ⊆ granted.
Proof.
  unfold validate_capabilities. simpl. induction (act_requested_capabilities a) as [|c l IH]; simpl.
  { split; [set_solver|done]. }
  destruct (is_granted granted c) eqn:E; simpl.
  - apply is_granted_true in E. set_solver.
  - split; [done|]. intros H. assert (c ∈ granted) as Hc by set_solver.
    apply is_granted_true in Hc. congruence.
Qed.

Definition needs_approval (a : Action) : Prop :=
  act_risk_level a = ArHigh ∨ act_risk_level a = ArCritical.

Lemma validate_valid granted a :
  vr_valid (Validator_validate granted a) = true →
  act_requested_capabilities a ⊆ granted ∧ act_session_id a ≠ EmptyString ∧
  act_reason a ≠ EmptyString.
Proof.
  unfold Validator_validate. destruct (validate_schema a) as [e1 b1] eqn:E1.
  destruct (validate_capabilities granted a) as [e2 b2] eqn:E2.
  rewrite validate_policy_ok. simpl. rewrite !andb_true_iff. intros [[-> ->] _]. split_and!.
  - apply validate_capabilities_ok. by rewrite E2.
  - intros H. unfold validate_schema in E1. by rewrite H in E1.
  - intros H. unfold validate_schema in E1. rewrite H in E1. by destruct (str_is_empty _).
Qed.

Lemma validate_confirmation granted a :
  vr_requires_confirmation (Validator_validate granted a) = true ↔ needs_approval a.
Proof.
  unfold Validator_validate, needs_approval.
  destruct (validate_schema a), (validate_capabilities granted a), (validate_policy a). simpl.
  destruct (act_risk_level a); naive_solver.
Qed.

(** ** Plans *)

Lemma str_max_spec l m : str_max l = Some m → m ∈ l ∧ ∀ r, r ∈ l → String.le r m.
Proof.
  destruct l as [|s l]; [done|]. simpl. intros [= <-]. revert s.
  induction l as [|x l IH]; intros s; simpl.
  { split; [set_solver|]. by intros r ->%list_elem_of_singleton. }
  assert (String.le s x ∨ String.le x s ∧ String.leb s x = false) as Hsx.
  { destruct (String.leb s x) eqn:E; [left; unfold String.le; by rewrite E|right].
    split; [|done]. destruct (String.leb_total s x) as [|H]; [congruence|].
    unfold String.le. by rewrite H. }
  destruct Hsx as [Hsx|[Hsx ->]].
  - assert (String.leb s x = true) as -> by by apply Is_true_true.
    destruct (IH x) as [H1 H2]. split; [set_solver|].
    intros r [->|Hr]%elem_of_cons; [|by apply H2]. etrans; [done|]. apply H2. set_solver.
  - destruct (IH s) as [H1 H2]. split; [set_solver|].
    intros r [->|[->|Hr]%elem_of_cons]%elem_of_cons; [apply H2; set_solver| |apply H2; set_solver].
    etrans; [done|]. apply H2. set_solver.
Qed.

Section plan_props.
Context {J : Type}.
Implicit Types (s : PlanStep J) (p : Plan J).

Definition risk_known s : Prop := ∃ r, ps_risk_level s = ActionRisk_plan_str r.
Definition risky s : Prop := ps_risk_level s = "high" ∨ ps_risk_level s = "critical".

(** The order of the bytes ranks critical below high, high below low and low
    below medium. *)
Lemma plan_str_order r r' :
  String.le (ActionRisk_plan_str r) (ActionRisk_plan_str r') →
  r' = ArHigh ∨ r' = ArCritical → r = ArHigh ∨ r = ArCritical.
Proof. destruct r, r'; simpl; intros H [?|?]; try done; vm_compute in H; naive_solver. Qed.

Definition approval_consistent p : Prop :=
  match str_max (ps_risk_level <$> pl_steps p) with
  | None => pl_requires_approval p = false
  | Some risk => pl_requires_approval p = ((risk =? "high")%string || (risk =? "critical")%string)
  end.

Lemma plan_multi_spec id now sid intent (steps : list (PlanStep J)) :
  let p := plan_multi id now sid intent steps in
  pl_steps p = steps ∧ approval_consistent p.
Proof.
  unfold plan_multi. induction steps as [|s steps [IH1 IH2]] using rev_ind; [done|].
  rewrite foldl_app. simpl. set (p := foldl _ _ steps) in *. unfold add_step, recalculate_risk. simpl.
  destruct (str_max _) as [risk|] eqn:E; simpl.
  - rewrite IH1 in *. split; [done|]. unfold approval_consistent. simpl. by rewrite E.
  - by destruct (pl_steps p); simpl in E.
Qed.

Lemma plan_step_risk l m :
  Forall risk_known l → str_max (ps_risk_level <$> l) = Some m →
  ∃ r, m = ActionRisk_plan_str r ∧
    ((r = ArHigh ∨ r = ArCritical) ↔ Forall risky l).
Proof.
  intros Hk Hm. apply str_max_spec in Hm as [Hin Hle].
  rewrite Forall_forall in Hk. apply list_elem_of_fmap in Hin as (s & -> & Hs).
  destruct (Hk s Hs) as [r Hr]. exists r. split; [done|]. rewrite Forall_forall. split.
  - intros Hhi s' Hs'. destruct (Hk s' Hs') as [r' Hr']. unfold risky. rewrite Hr'.
    assert (r' = ArHigh ∨ r' = ArCritical) as [->| ->]; [|by left|by right].
    apply (plan_str_order r' r); [|done]. rewrite <-Hr, <-Hr'. apply Hle.
    apply list_elem_of_fmap. eauto.
  - intros Hall. destruct (Hall s Hs) as [H|H]; rewrite Hr in H; destruct r; naive_solver.
Qed.

Lemma validate_steps_ok (l : list (PlanStep J)) :
  validate_steps l = Ok tt ↔
  ∀ s d, s ∈ l → d ∈ ps_depends_on s → (d < ps_step_index s)%N.
Proof.
  induction l as [|s l IH]; simpl; [set_solver|].
  destruct (future_dependency s) as [d|] eqn:E.
  - split; [done|]. intros H. apply find_b_Some in E as [Hd Hle].
    apply N.leb_le in Hle. specialize (H s d). assert (d < ps_step_index s)%N by set_solver. lia.
  - rewrite IH. unfold future_dependency in E. rewrite find_b_None in E. split.
    + intros H s' d [->|Hs]%elem_of_cons Hd; [|by eapply H].
      specialize (E d Hd). apply N.leb_gt in E. lia.
    + intros H s' d Hs Hd. apply (H s' d); set_solver.
Qed.

(** A plan of several steps keeps them in order, and its validation accepts
    it exactly when every step depends on smaller indices only.  The estimate
    of its risk compares the names of the levels as text: a plan of known
    levels asks for approval exactly when it has steps and all of them are high
    or critical, so one step of low or medium risk turns approval off for a
    plan with a critical one. *)
Theorem plan_approval_exact id now sid intent (steps : list (PlanStep J)) :
  let p := plan_multi id now sid intent steps in
  pl_steps p = steps ∧
  (Plan_validate p = Ok tt ↔
   ∀ s d, s ∈ steps → d ∈ ps_depends_on s → (d < ps_step_index s)%N) ∧
  (Forall risk_known steps →
   pl_requires_approval p = true ↔ steps ≠ [] ∧ Forall risky steps).
Proof.
  intros p. destruct (plan_multi_spec id now sid intent steps) as [Hs Ha]. fold p in Hs, Ha.
  split_and!; [done|by unfold Plan_validate; rewrite Hs, validate_steps_ok|]. intros Hk.
  unfold approval_consistent in Ha. rewrite Hs in Ha.
  destruct (str_max _) as [m|] eqn:E.
  - destruct (plan_step_risk _ _ Hk E) as (r & -> & Hr). rewrite <-Hr, Ha.
    assert (steps ≠ []) by by intros ->. destruct r; simpl; naive_solver.
  - destruct steps; [|done]. rewrite Ha. naive_solver.
Qed.
End plan_props.

(** ** Retries *)

Lemma backoff_doubles p attempt :
  (1 ≤ attempt ≤ 21)%N → (rec_backoff_base_ms p * 2 ^ 20 ≤ u64_max)%N →
  backoff_delay p attempt =
  N.min (rec_backoff_base_ms p * 2 ^ (attempt - 1)) (rec_backoff_max_ms p).
Proof.
  intros Ha Hb. unfold backoff_delay, saturating_mul, saturating_sub.
  destruct (N.eqb_spec attempt 0); [lia|].
  rewrite (N.min_l (attempt - 1) 20) by lia. rewrite N.shiftl_1_l. rewrite (N.min_r u64_max); [done|].
  etrans; [|done]. apply N.mul_le_mono_l, N.pow_le_mono_r; lia.
Qed.

Lemma decide_none p attempt kind optional :
  decide_recovery p attempt kind optional = None → attempt = 0%N.
Proof. unfold decide_recovery. by destruct (N.eqb_spec attempt 0). Qed.

Lemma decide_retry_bound p attempt kind optional :
  decide_recovery p attempt kind optional = Some RaRetry → (attempt ≤ rec_max_retries p)%N.
Proof.
  unfold decide_recovery. destruct (attempt =? 0)%N; [done|].
  destruct (N.ltb_spec (rec_max_retries p) attempt); [by destruct optional|done].
Qed.

(** A retry is decided only while the retries last, never after a permanent
    failure, and after an unknown one only once; in every other case the step
    is given up.  The delays start at the base, double with every failure and
    stay at or below the cap. *)
Theorem recovery_decision_exact p attempt kind optional :
  (decide_recovery p attempt kind optional = None ↔ attempt = 0%N) ∧
  (decide_recovery p attempt kind optional = Some RaRetry ↔
   (1 ≤ attempt ≤ rec_max_retries p)%N ∧
   (kind = FkTransient ∨ kind = FkUnknown ∧ attempt = 1%N)) ∧
  (decide_recovery p attempt kind optional = Some RaSkip → optional = true) ∧
  (decide_recovery p attempt kind optional = Some RaAbort → optional = false) ∧
  (backoff_delay p attempt ≤ rec_backoff_max_ms p)%N ∧
  ((1 ≤ attempt ≤ 21)%N → (rec_backoff_base_ms p * 2 ^ 20 ≤ u64_max)%N →
   backoff_delay p attempt =
   N.min (rec_backoff_base_ms p * 2 ^ (attempt - 1)) (rec_backoff_max_ms p)).
Proof.
  split_and!; cycle -2.
  { unfold backoff_delay. destruct (attempt =? 0)%N; lia. }
  { apply backoff_doubles. }
  all: unfold decide_recovery; destruct (N.eqb_spec attempt 0) as [->|Hne]; [naive_solver lia|];
    destruct (N.ltb_spec (rec_max_retries p) attempt), (N.ltb_spec 1 attempt), kind, optional;
    naive_solver lia.
Qed.
