(* ===== verification/AgentContext.v ===== *)
(** * Context, conversation and progress of the agent daemon

    Models context.rs, conversation.rs, progress.rs and confirmation.rs of
    services/aether-agentd/src.  What the daemon sends over the network is
    logged, in order, in the state of the monad [Net]. *)
From S2P Require Import Prelude RustStd Text Json CoreTypes.
From Stdlib Require Import Ascii.

(** ** The network *)

Inductive CallError :=
| CeConnect (e : string) | CeTimeout (e : string) | CeClone (e : string) | CeSend (e : string)
| CeRecv (e : string).

Inductive SurfaceError :=
| SeConnect (e : string) | SeTimeout (e : string) | SeSend (e : string) | SeRecv (e : string).

(** Connect to a local port, send a line and read one: through the SDK, to the
    surface server, and for a caller that drops every error. *)
Class WireEnv (E : Type) := {
  wire_call : N → string → E → result string CallError * E;
  wire_surface : N → string → E → result string SurfaceError * E;
  wire_ask : N → string → E → option string * E;
}.

Inductive WireMessage {J : Type} :=
| ToControl (req : IpcRequest J)
| ToSurface (payload : J)
| Query (payload : J).
Arguments WireMessage J : clear implicits.

Record Wire {E J : Type} := mkWire { wire_env : E; wire_log : list (N * WireMessage J) }.
Arguments Wire E J : clear implicits.
Arguments mkWire {E J}.

Definition Net (E J A : Type) : Type := Wire E J → Wire E J * A.

#[export] Instance Net_ret {E J} : MRet (Net E J) := λ A a w, (w, a).
#[export] Instance Net_bind {E J} : MBind (Net E J) := λ A B f m w, let '(w, a) := m w in f a w.

Definition line_feed : string := String (ascii_of_nat 10) EmptyString.

Section wire.
Context {E J : Type} `{!WireEnv E} `{!JsonOps J} `{!JsonParse J}.

Definition ask (port : N) (payload : J) : Net E J (option string) := λ w,
  let '(r, e) := wire_ask port (json_to_string payload +:+ line_feed) (wire_env w) in
  (mkWire e (wire_log w ++ [(port, Query payload)]), r).

(** ** context.rs *)

Record WindowSnapshot := mkWindowSnapshot {
  ws_id : N;
  ws_app_id : string;
  ws_title : string;
  ws_state : string;
  ws_focused : bool;
}.

Record ServiceSnapshot := mkServiceSnapshot {
  ss_service_id : string;
  ss_status : string;
  ss_health : string;
}.

Record SystemContext := mkSystemContext {
  sc_active_window : option string;
  sc_focused_window_id : option N;
  sc_windows : list WindowSnapshot;
  sc_minimized_windows : list string;
  sc_running_apps : list string;
  sc_installed_apps : list string;
  sc_app_states : gmap string string;
  sc_overall_health : string;
  sc_services : list ServiceSnapshot;
}.

Definition SystemContext_empty : SystemContext :=
  mkSystemContext None None [] [] [] [] ∅ "UNKNOWN" [].

Definition focused_app (c : SystemContext) : option string :=
  ws_app_id <$> List.find ws_focused (sc_windows c).

Definition ctx_is_running (c : SystemContext) (app : string) : bool :=
  existsb (λ a, (a =? app)%string) (sc_running_apps c).
Definition ctx_is_installed (c : SystemContext) (app : string) : bool :=
  existsb (λ a, (a =? app)%string) (sc_installed_apps c).

Definition window_for_app (c : SystemContext) (app : string) : option WindowSnapshot :=
  let lower := to_ascii_lowercase app in
  List.find (λ w, (to_ascii_lowercase (ws_app_id w) =? lower)%string
                  || (to_ascii_lowercase (ws_title w) =? lower)%string) (sc_windows c).

Definition ctx_is_minimized (c : SystemContext) (app : string) : bool :=
  existsb (λ t, eq_ignore_ascii_case t app) (sc_minimized_windows c).

Definition open_titles (c : SystemContext) : list string := ws_title <$> sc_windows c.

Definition grounding_text (c : SystemContext) : string :=
  str_join line_feed
    ([match sc_active_window c with
      | Some active => "active_window: " +:+ active
      | None => "active_window: none"
      end;
      match sc_running_apps c with
      | [] => "running_apps: none"
      | apps => "running_apps: " +:+ str_join ", " apps
      end;
      match sc_windows c with
      | [] => "windows: none"
      | _ => "windows: " +:+ str_join ", " (open_titles c)
      end]
     ++ match sc_minimized_windows c with
        | [] => []
        | l => ["minimized: " +:+ str_join ", " l]
        end
     ++ ["health: " +:+ sc_overall_health c]).

(** A query that gives the response when it says [ok]. *)
Definition ok_response (line : option string) : option J :=
  line ← line;
  match json_from_str (str_trim line) with
  | Ok resp => if default false (json_as_bool (json_index resp "ok")) then Some resp else None
  | Err _ => None
  end.

Definition control_query (control_port : N) (command : string) (parameters : J) : Net E J (option J) :=
  line ← ask control_port (json_obj [("service_id", json_str "aether-system-core");
                                     ("command", json_str command); ("parameters", parameters)]);
  mret (ok_response line).

Definition fetch_system_status (control_port : N) : Net E J (option J) :=
  resp ← control_query control_port "status" (json_obj []);
  mret ((λ r, json_index r "result") <$> resp).

Definition fetch_app_list (control_port : N) : Net E J (list J) :=
  resp ← control_query control_port "app.list" (json_obj []);
  mret (match resp with
        | Some r => default [] (json_as_array (json_index (json_index r "result") "apps"))
        | None => []
        end).

Definition text_at (j : J) (key otherwise : string) : string :=
  default otherwise (json_as_str (json_index j key)).

Definition window_snapshot (v : J) : WindowSnapshot :=
  mkWindowSnapshot (default 0%N (json_as_u64 (json_index v "id"))) (text_at v "app" "?")
    (text_at v "title" "?") (text_at v "state" "normal")
    (default false (json_as_bool (json_index v "focused"))).

Definition windows_of (v : J) : option (list WindowSnapshot) :=
  fmap (M := list) window_snapshot <$> json_as_array (json_index v "windows").

Definition fetch_windows_direct (surface_port : N) : Net E J (option (list WindowSnapshot)) :=
  line ← ask surface_port (json_obj [("op", json_str "window.list")]);
  mret (match ok_response line with Some resp => windows_of resp | None => None end).

Definition fetch_windows_via_control (control_port : N) : Net E J (option (list WindowSnapshot)) :=
  resp ← control_query control_port "window.list" (json_obj []);
  mret (match resp with Some resp => windows_of (json_index resp "result") | None => None end).

Definition fetch_windows (surface_port control_port : N) : Net E J (list WindowSnapshot) :=
  direct ← fetch_windows_direct surface_port;
  match direct with
  | Some wins => mret wins
  | None => via ← fetch_windows_via_control control_port; mret (default [] via)
  end.

Definition fetch_app_state (control_port : N) (app_id : string) : Net E J (option string) :=
  resp ← control_query control_port "app.status" (json_obj [("app", json_str app_id)]);
  mret (match resp with
        | Some r => json_as_str (json_index (json_index (json_index r "result") "report") "state")
        | None => None
        end).

Definition service_snapshot (s : J) : ServiceSnapshot :=
  mkServiceSnapshot (text_at s "service_id" "?") (text_at s "status" "UNKNOWN")
    (text_at s "health" "UNKNOWN").

(** The loop over the installed applications. *)
Fixpoint fetch_app_states (control_port : N) (apps : list string) (running : list string)
    (states : gmap string string) : Net E J (list string * gmap string string) :=
  match apps with
  | [] => mret (running, states)
  | app :: apps =>
      report ← fetch_app_state control_port app;
      match report with
      | Some report =>
          let running := if (report =? "RUNNING")%string && negb (existsb (String.eqb app) running)
                         then running ++ [app] else running in
          fetch_app_states control_port apps running (<[app := report]> states)
      | None => fetch_app_states control_port apps running (<[app := "UNKNOWN"]> states)
      end
  end.

Definition build_context (control_port surface_port : N) : Net E J SystemContext :=
  status ← fetch_system_status control_port;
  apps ← fetch_app_list control_port;
  windows ← fetch_windows surface_port control_port;
  let installed := omap (λ a, json_as_str (json_index a "id")) apps in
  let focused := last (List.filter ws_focused windows) in
  let running := dedup_by id (sort_by id (ws_app_id <$> windows)) in
  '(running, states) ← fetch_app_states control_port installed running ∅;
  mret (mkSystemContext (ws_title <$> focused) (ws_id <$> focused) windows
    (ws_title <$> List.filter (λ w, (ws_state w =? "minimized")%string) windows)
    running installed states
    (match status with
     | Some s => text_at s "overall_health" "UNKNOWN"
     | None => "UNKNOWN"
     end)
    (match status with
     | Some s => service_snapshot <$> default [] (json_as_array (json_index s "services"))
     | None => []
     end)).
End wire.

(** ** conversation.rs *)

Definition CONVERSATION_SNAPSHOT_VERSION : N := 1.

Record ConversationTurn := mkConversationTurn {
  tu_user_text : string;
  tu_apps : list string;
  tu_windows : list string;
  tu_files : list string;
}.

Record ConversationContext := mkConversation {
  cv_turns : list ConversationTurn;
  cv_capacity : N;
  cv_last_app : option string;
  cv_last_window : option string;
  cv_last_file : option string;
}.

Definition ConversationContext_new (capacity : N) : ConversationContext :=
  mkConversation [] (N.max capacity 2) None None None.
Definition ConversationContext_default : ConversationContext := ConversationContext_new 8.

(** The last of a list, or what was there before. *)
Definition last_or (l : list string) (o : option string) : option string :=
  match l with [] => o | _ => last l end.

Definition push_with_files (user_text : string) (apps windows files : list string)
    (c : ConversationContext) : ConversationContext :=
  let turns := if (cv_capacity c <=? N.of_nat (length (cv_turns c)))%N then tail (cv_turns c) else cv_turns c in
  mkConversation (turns ++ [mkConversationTurn user_text apps windows files]) (cv_capacity c)
    (last_or apps (cv_last_app c)) (last_or windows (last_or apps (cv_last_window c)))
    (last_or files (cv_last_file c)).

Definition push (user_text : string) (apps windows : list string) (c : ConversationContext) :
    ConversationContext :=
  push_with_files user_text apps windows [] c.

Definition not_alpha (c : ascii) : bool := negb (is_ascii_alphabetic c).

Definition resolve_pronoun (c : ConversationContext) (text : string) : option string :=
  let lower := to_ascii_lowercase text in
  let has_pronoun :=
    existsb (λ w, existsb (String.eqb (trim_by not_alpha w)) ["it"; "that"; "this"; "them"; "there"])
      (split_whitespace lower)
    || str_contains_from " it " lower || str_contains_from " it." lower || ends_with " it" lower in
  if has_pronoun then (match cv_last_app c with Some a => Some a | None => cv_last_window c end) else None.

Definition conversation_summary `{DebugText} (c : ConversationContext) : string :=
  "turns=" +:+ pretty (N.of_nat (length (cv_turns c))) +:+ " last_app=" +:+ debug_opt (cv_last_app c)
  +:+ " last_window=" +:+ debug_opt (cv_last_window c) +:+ " last_file=" +:+ debug_opt (cv_last_file c).

Record ConversationSnapshot := mkConversationSnapshot {
  sn_version : N;
  sn_capacity : N;
  sn_turns : list ConversationTurn;
  sn_last_app : option string;
  sn_last_window : option string;
  sn_last_file : option string;
}.

Definition conversation_snapshot (c : ConversationContext) : ConversationSnapshot :=
  mkConversationSnapshot CONVERSATION_SNAPSHOT_VERSION (cv_capacity c) (cv_turns c) (cv_last_app c)
    (cv_last_window c) (cv_last_file c).

Definition conversation_restore (snap : ConversationSnapshot) (c : ConversationContext) :
    ConversationContext * result unit string :=
  if negb (sn_version snap =? CONVERSATION_SNAPSHOT_VERSION)%N
  then (c, Err ("conversation snapshot version " +:+ pretty (sn_version snap) +:+
                " is not supported (expected " +:+ pretty CONVERSATION_SNAPSHOT_VERSION +:+ ")"))
  else
    let new_cap := N.max (N.max (cv_capacity c) (sn_capacity snap)) 2 in
    let turns := drop (length (sn_turns snap) - N.to_nat new_cap) (sn_turns snap) in
    (mkConversation turns new_cap (sn_last_app snap) (sn_last_window snap) (sn_last_file snap), Ok tt).

(** ** confirmation.rs *)

Inductive Confirmation := AutoExecute | RequiresConsent (reason : string) | Denied (reason : string).

Definition ConfirmationPolicy_decide (c : Capability) : Confirmation :=
  match cap_risk_level c with
  | RlLow | RlMedium => AutoExecute
  | RlHigh | RlCritical => RequiresConsent (qualified_name c +:+ " requires user confirmation")
  end.
Definition ConfirmationPolicy_is_auto (c : Capability) : bool :=
  match ConfirmationPolicy_decide c with AutoExecute => true | _ => false end.

(** ** progress.rs *)

Definition PROGRESS_RING_CAPACITY : nat := 64.

Inductive ProgressState :=
| PsIdle | PsThinking | PsPlanning | PsWorking | PsWaitingForPermission | PsCompleted | PsFailed
| PsRecovering.

Definition ProgressState_as_str (s : ProgressState) : string :=
  match s with
  | PsIdle => "idle" | PsThinking => "thinking" | PsPlanning => "planning" | PsWorking => "working"
  | PsWaitingForPermission => "waiting_for_permission" | PsCompleted => "completed"
  | PsFailed => "failed" | PsRecovering => "recovering"
  end.

Record ProgressEvent := mkProgressEvent {
  pe_state : ProgressState;
  pe_session_id : option string;
  pe_message : string;
  pe_timestamp_ms : N;
}.

Definition ProgressEvent_to_json {J} `{JsonOps J} (e : ProgressEvent) : J :=
  json_obj [("state", json_str (ProgressState_as_str (pe_state e)));
            ("session_id", from_option json_str json_null (pe_session_id e));
            ("message", json_str (pe_message e)); ("timestamp_ms", json_num (pe_timestamp_ms e))].

Record ProgressTracker := mkProgressTracker {
  pt_history : list ProgressEvent;
  pt_current : ProgressState;
}.

Definition ProgressTracker_new : ProgressTracker := mkProgressTracker [] PsIdle.

Definition progress_transition (state : ProgressState) (session_id : option string) (message : string)
    (now : N) (t : ProgressTracker) : ProgressTracker :=
  let history := if (PROGRESS_RING_CAPACITY <=? length (pt_history t))%nat
                 then removelast (pt_history t) else pt_history t in
  mkProgressTracker (mkProgressEvent state session_id message now :: history) state.

Definition progress_history (t : ProgressTracker) (limit : nat) : list ProgressEvent :=
  take limit (pt_history t).

Definition progress_reset (t : ProgressTracker) : ProgressTracker := mkProgressTracker [] PsIdle.
