(* ===== verification/Intent.v ===== *)
(** * Intents

    Models services/aether-agentd/src/intent.rs up to the network: the
    capabilities of the agent, the parser that turns what the user says into
    intents, their validation, and the sentences that report a result.

    The outer [option] of a parser is a panic: a string cut at a bad place. *)
From S2P Require Import Prelude RustStd Text Json CoreTypes AgentContext.
From Stdlib Require Import Ascii.

Inductive CapabilityId :=
| CiSystemStatus | CiAppStatus | CiAppList | CiAppLaunch | CiAppClose
| CiWindowList | CiWindowFocus | CiWindowMinimize | CiWindowMaximize | CiWindowClose | CiWindowRestore
| CiContextGet
| CiFileList | CiFileSearch | CiFileRead | CiFileCreate | CiFileWrite | CiFileRename | CiFileMove
| CiFileDelete
| CiSystemInfo | CiSystemResources | CiSystemUptime.

#[export] Instance CapabilityId_eq_dec : EqDecision CapabilityId.
Proof. solve_decision. Defined.

Definition CapabilityId_as_str (c : CapabilityId) : string :=
  match c with
  | CiSystemStatus => "system.status"
  | CiAppStatus => "app.status"
  | CiAppList => "app.list"
  | CiAppLaunch => "app.launch"
  | CiAppClose => "app.close"
  | CiWindowList => "window.list"
  | CiWindowFocus => "window.focus"
  | CiWindowMinimize => "window.minimize"
  | CiWindowMaximize => "window.maximize"
  | CiWindowClose => "window.close"
  | CiWindowRestore => "window.restore"
  | CiContextGet => "context.get"
  | CiFileList => "file.list"
  | CiFileSearch => "file.search"
  | CiFileRead => "file.read"
  | CiFileCreate => "file.create"
  | CiFileWrite => "file.write"
  | CiFileRename => "file.rename"
  | CiFileMove => "file.move"
  | CiFileDelete => "file.delete"
  | CiSystemInfo => "system.info"
  | CiSystemResources => "system.resources"
  | CiSystemUptime => "system.uptime"
  end.

Definition CapabilityId_capability (c : CapabilityId) : Capability :=
  match c with
  | CiSystemStatus => Capability_new CdSystem "status" RlLow
  | CiAppStatus => Capability_new CdApplication "status" RlLow
  | CiAppList => Capability_new CdApplication "list" RlLow
  | CiAppLaunch => Capability_new CdApplication "launch" RlMedium
  | CiAppClose => Capability_new CdApplication "close" RlMedium
  | CiWindowList => Capability_new CdApplication "window.list" RlLow
  | CiWindowFocus => Capability_new CdApplication "window.focus" RlLow
  | CiWindowMinimize => Capability_new CdApplication "window.minimize" RlLow
  | CiWindowMaximize => Capability_new CdApplication "window.maximize" RlLow
  | CiWindowClose => Capability_new CdApplication "window.close" RlMedium
  | CiWindowRestore => Capability_new CdApplication "window.restore" RlLow
  | CiContextGet => Capability_new CdSystem "context" RlLow
  | CiFileList => Capability_new CdFilesystem "list" RlLow
  | CiFileSearch => Capability_new CdFilesystem "search" RlLow
  | CiFileRead => Capability_new CdFilesystem "read" RlLow
  | CiFileCreate => Capability_new CdFilesystem "create" RlMedium
  | CiFileWrite => Capability_new CdFilesystem "write" RlMedium
  | CiFileRename => Capability_new CdFilesystem "rename" RlMedium
  | CiFileMove => Capability_new CdFilesystem "move" RlMedium
  | CiFileDelete => Capability_new CdFilesystem "delete" RlHigh
  | CiSystemInfo => Capability_new CdSystem "info" RlLow
  | CiSystemResources => Capability_new CdSystem "resources" RlLow
  | CiSystemUptime => Capability_new CdSystem "uptime" RlLow
  end.

Definition auto_execute (c : CapabilityId) : bool := true.

Definition CapabilityId_from_str (raw : string) : option CapabilityId :=
  match raw with
  | "system.status" => Some CiSystemStatus
  | "app.status" => Some CiAppStatus
  | "app.list" => Some CiAppList
  | "app.launch" => Some CiAppLaunch
  | "app.close" => Some CiAppClose
  | "window.list" => Some CiWindowList
  | "window.focus" => Some CiWindowFocus
  | "window.minimize" => Some CiWindowMinimize
  | "window.maximize" => Some CiWindowMaximize
  | "window.close" => Some CiWindowClose
  | "window.restore" => Some CiWindowRestore
  | "context.get" => Some CiContextGet
  | "file.list" => Some CiFileList
  | "file.search" => Some CiFileSearch
  | "file.read" => Some CiFileRead
  | "file.create" => Some CiFileCreate
  | "file.write" => Some CiFileWrite
  | "file.rename" => Some CiFileRename
  | "file.move" => Some CiFileMove
  | "file.delete" => Some CiFileDelete
  | "system.info" => Some CiSystemInfo
  | "system.resources" => Some CiSystemResources
  | "system.uptime" => Some CiSystemUptime
  | _ => None
  end%string.

Record Intent {J : Type} := mkIntent { in_capability : CapabilityId; in_arguments : J }.
Arguments Intent J : clear implicits.
Arguments mkIntent {J}.

(** ** Words *)

Definition FILLER : list string := ["THE"; "MY"; "A"; "AN"; "THIS"; "THAT"].
Definition CONJ : list string := ["AND"; "THEN"; "PLUS"; ","; "&"; ";"].
Definition VERBS : list string :=
  ["OPEN"; "LAUNCH"; "START"; "RUN"; "CLOSE"; "FOCUS"; "BRING"; "SHOW"; "MINIMIZE"; "HIDE";
   "MAXIMIZE"; "MAXIMISE"; "FULLSCREEN"; "EXPAND"; "RESTORE"; "FRONT"; "BACK"].

Definition one_of (l : list string) (w : string) : bool := existsb (String.eqb w) l.

Definition is_filler (w : string) : bool := one_of FILLER w.
Definition is_conj (w : string) : bool := one_of CONJ w || one_of ["AND"; ","; "&"] w.
Definition is_verb (w : string) : bool := one_of VERBS w.

Definition not_alnum (c : ascii) : bool := negb (is_ascii_alphanumeric c).

(** The characters of an application id. *)
Definition id_char (c : ascii) : bool := is_ascii_lowercase c || is_ascii_digit c || char_in "-_" c.

Definition normalize_token (raw : string) : option string :=
  let t := to_ascii_lowercase (trim_start_by not_alnum (trim_end_by not_alnum raw)) in
  if str_is_empty t then None else if str_all id_char t then Some t else None.

(** The verbs that end the targets of the one before, the words that are
    passed over, and those that name no target. *)
Definition next_verbs : list string :=
  ["OPEN"; "LAUNCH"; "START"; "CLOSE"; "MINIMIZE"; "HIDE"; "MAXIMIZE"; "MAXIMISE"; "BRING"; "FOCUS"].
Definition skipped_words : list string :=
  ["TO"; "THE"; "FRONT"; "BACK"; "FORE"; "GROUND"; "UP"; "IT"; "THAT"; "THIS"; "THEM"].
Definition ignored_targets : list string :=
  ["whats"; "what"; "is"; "are"; "open"; "app"; "apps"; "window"; "windows"; "please"; "bring";
   "minimize"; "maximize"; "close"; "focus"; "me"; "installed"; "show"; "are"; "the"].

(** The loop of [collect_targets] over the words after the verb. *)
Fixpoint collect_from (words targets : list string) : list string :=
  match words with
  | [] => targets
  | w :: words =>
      if is_verb w && negb (one_of ["AND"; "THEN"] w) && one_of next_verbs w then targets
      else if is_conj w || is_filler w then collect_from words targets
      else if one_of skipped_words w then collect_from words targets
      else
        let step targets := if (4 <=? length targets)%nat then targets else collect_from words targets in
        match normalize_token w with
        | Some norm =>
            if one_of ignored_targets norm then collect_from words targets
            else step (targets ++ [norm])
        | None => step targets
        end
  end.

Definition collect_targets (words : list string) (verb_idx : nat) : list string :=
  collect_from (drop (S verb_idx) words) [].

(** ** Paths and quotations *)

Definition dquote : ascii := ascii_of_nat 34.

(** A quotation mark or one of the given characters. *)
Definition quote_or (cs : string) (c : ascii) : bool := Ascii.eqb c dquote || char_in cs c.

Definition quoted_by (quote : ascii) (text : string) : option (option string) :=
  match str_find (String quote EmptyString) text with
  | None => Some None
  | Some start =>
      rest ← slice_from (S start) text;
      match str_find (String quote EmptyString) rest with
      | None => Some None
      | Some stop =>
          content ← slice (S start) (S start + stop) text;
          Some (if str_is_empty (str_trim content) then None else Some content)
      end
  end.

Definition extract_quoted_content (text : string) : option (option string) :=
  found ← quoted_by "'" text;
  match found with
  | Some content => Some (Some content)
  | None => quoted_by dquote text
  end.

Definition find_file_paths (text : string) : list string :=
  omap (λ token,
      let clean := trim_end_by (quote_or "')")
                     (trim_start_by (quote_or "('") (trim_end_by (char_in ",;:)(!?") token)) in
      let is_path :=
        (str_contains_from "." clean && (3 <=? String.length clean)%nat && negb (String.prefix "." clean)
         || str_contains_from "/" clean)
        && str_exists is_ascii_alphanumeric clean
        && negb (eq_ignore_ascii_case clean "aether") && negb (eq_ignore_ascii_case clean "os") in
      let is_absolute := String.prefix "/" clean && (1 <? String.length clean)%nat in
      if is_path || is_absolute then
        let norm := trim_end_by (char_in ".,;") clean in
        if str_is_empty norm then None else Some norm
      else None)
    (split_whitespace text).

(** A word without the punctuation around it. *)
Definition bare (w : string) : string := trim_by (quote_or "',.;") w.

Definition first_word (text : string) : option string := head (split_whitespace text).
Definition last_segment_of (p : string) : string := List.last (str_split "/" p) p.

(** The destination of a move: a directory gets the name of the file. *)
Definition destination (to file : string) : string :=
  if str_contains_from "." to then to
  else trim_end_by (char_in "/") to +:+ "/" +:+ last_segment_of file.

(** ** File intents *)

Section parser.
Context {J : Type} `{!JsonOps J}.

(** A parser may panic, and may find nothing. *)
Definition Parsed : Type := option (option (Intent J)).

Definition found (c : CapabilityId) (args : list (string * J)) : Parsed :=
  Some (Some (mkIntent c (json_obj args))).
Definition nothing : Parsed := Some None.

(** The next parser, when this one found nothing. *)
Definition orelse (a b : Parsed) : Parsed :=
  match a with Some None => b | _ => a end.

Section file.
Variables (lower original : string).

Definition says (w : string) : bool := str_contains_from w lower.

Definition listed_folder : option string :=
  match str_find " in " lower with
  | None => Some ""
  | Some idx =>
      after ← slice_from (idx + 4) original;
      Some (match first_word (str_trim after) with
            | None => ""
            | Some folder =>
                let clean := trim_by (λ c, negb (is_ascii_alphanumeric c) && negb (char_in "/._-" c)) folder in
                if negb (str_is_empty clean) &&
                   (eq_ignore_ascii_case clean "documents" || eq_ignore_ascii_case clean "downloads"
                    || eq_ignore_ascii_case clean "projects" || eq_ignore_ascii_case clean "notes"
                    || str_contains_from "/" clean)
                then clean else ""
            end)
  end.

Definition parse_list : Parsed :=
  if (says "show" || says "list" || says "display") && says "file" then
    path ← listed_folder;
    found CiFileList
      [("path", json_str (if says "show my files" || (lower =? "show my files.")%string
                             || says "show my files." then "" else path))]
  else if one_of ["show my files"; "show my files."] (str_trim lower)
  then found CiFileList [("path", json_str "")]
  else nothing.

Definition word_at (words : list string) (i : nat) : string :=
  trim_by not_alnum (nth i words "").

(** The word before "files", and the word after "find". *)
Definition query_before (words : list string) : option string :=
  list_first (λ i,
      if one_of ["files"; "file"] (nth i words "") && (0 <? i)%nat then
        let cand := word_at words (i - 1) in
        let cand := if one_of ["my"; "all"; "the"; "a"; "an"] cand && (1 <? i)%nat
                    then word_at words (i - 2) else cand in
        if negb (str_is_empty cand) && negb (one_of ["find"; "search"; "all"; "my"] cand)
        then Some cand else None
      else None)
    (seq 0 (length words)).

Definition query_after (words : list string) : option string :=
  list_first (λ i,
      if one_of ["find"; "search"] (nth i words "") && (i + 1 <? length words)%nat then
        let cand := word_at words (i + 1) in
        let cand := if one_of ["my"; "all"; "the"] cand && (i + 2 <? length words)%nat
                    then word_at words (i + 2) else cand in
        if negb (str_is_empty cand) && negb (one_of ["files"; "file"] cand)
        then Some cand else None
      else None)
    (seq 0 (length words)).

Definition parse_search : Parsed :=
  if (says "find" || says "search") && says "file" then
    let words := split_whitespace lower in
    let query := match query_before words with
                 | Some q => q
                 | None => default "all" (query_after words)
                 end in
    found CiFileSearch [("query", json_str (if (query =? "markdown")%string then "md" else query))]
  else if says "find my project files" then found CiFileSearch [("query", json_str "project")]
  else nothing.

Definition parse_read : Parsed :=
  if says "read" then
    match find_file_paths original with
    | p :: _ => found CiFileRead [("path", json_str p)]
    | [] =>
        match str_find "read" lower with
        | None => nothing
        | Some idx =>
            after ← slice_from (idx + 4) original;
            let token := bare (default "" (first_word (str_trim after))) in
            if str_is_empty token then nothing else found CiFileRead [("path", json_str token)]
        end
    end
  else nothing.

(** "called NAME" and "named NAME". *)
Definition parse_named (marker : string) : Parsed :=
  match str_find marker lower with
  | None => nothing
  | Some idx =>
      after ← slice_from (idx + String.length marker) original;
      match first_word (str_trim after) with
      | None => nothing
      | Some tok =>
          if str_is_empty (bare tok) then nothing
          else found CiFileCreate [("path", json_str (bare tok)); ("content", json_str "")]
      end
  end.

Definition parse_create : Parsed :=
  if says "create" && says "file" then
    match find_file_paths original with
    | p :: _ =>
        content ← extract_quoted_content original;
        found CiFileCreate [("path", json_str p); ("content", json_str (default "" content))]
    | [] => orelse (parse_named "called") (parse_named "named")
    end
  else nothing.

(** What stands between "write" and "into". *)
Definition unquoted_content : option string :=
  match str_find "write" lower, str_find "into" lower with
  | Some write_idx, Some into_idx =>
      between ← slice (write_idx + 5) into_idx original;
      Some (trim_by (quote_or "' ") (str_trim between))
  | _, _ => Some ""
  end.

Definition parse_write : Parsed :=
  if says "write" then
    content ← default "" <$> extract_quoted_content original;
    match last (find_file_paths original) with
    | None => nothing
    | Some p =>
        content ← (if str_is_empty content then unquoted_content else Some content);
        found CiFileWrite [("path", json_str p); ("content", json_str content)]
    end
  else nothing.

(** "rename A to B" without file names. *)
Definition parse_rename_words : Parsed :=
  match str_find "rename" lower, str_find " to " lower with
  | Some rename_idx, Some to_idx =>
      from_part ← slice (rename_idx + 6) to_idx original;
      to_part ← slice_from (to_idx + 4) original;
      let from_tok := bare (default "" (last (split_whitespace (str_trim from_part)))) in
      let to_tok := bare (default "" (first_word (str_trim to_part))) in
      if negb (str_is_empty from_tok) && negb (str_is_empty to_tok)
      then found CiFileRename [("from", json_str from_tok); ("to", json_str to_tok)]
      else nothing
  | _, _ => nothing
  end.

Definition parse_rename : Parsed :=
  if says "rename" then
    match find_file_paths original with
    | p :: q :: _ => found CiFileRename [("from", json_str p); ("to", json_str q)]
    | _ => parse_rename_words
    end
  else nothing.

(** The word after " into ", or else after the last " to ". *)
Definition move_target : option string :=
  let word_after idx len :=
    after ← slice_from (idx + len) original;
    Some (match first_word (str_trim after) with Some tok => bare tok | None => "" end) in
  match str_find " into " lower with
  | Some idx => word_after idx 6
  | None => match str_rfind " to " lower with
            | Some idx => word_after idx 4
            | None => Some ""
            end
  end.

(** "move this note ...", about the last file of the conversation. *)
Definition parse_move_this (paths : list string) (last_file : option string) : Parsed :=
  if says "this" && (says "note" || says "file") || says " this " && says "move" then
    match last_file with
    | None => nothing
    | Some file =>
        to ← move_target;
        if negb (str_is_empty to)
        then found CiFileMove [("from", json_str file); ("to", json_str (destination to file))]
        else match paths with
             | p :: _ => found CiFileMove [("from", json_str file); ("to", json_str (destination p file))]
             | [] => nothing
             end
    end
  else nothing.

Definition parse_move_paths (paths : list string) : Parsed :=
  match paths with
  | p :: q :: _ => found CiFileMove [("from", json_str p); ("to", json_str q)]
  | _ => nothing
  end.

Definition parse_move (last_file : option string) : Parsed :=
  if says "move" then
    let paths := find_file_paths original in
    orelse (parse_move_this paths last_file)
      (if says " into " || says " to " then
         let from := default "" (head paths) in
         to ← move_target;
         if negb (str_is_empty from) && negb (str_is_empty to) && negb (from =? to)%string
         then found CiFileMove [("from", json_str from); ("to", json_str (destination to from))]
         else parse_move_paths paths
       else parse_move_paths paths)
  else nothing.

Definition parse_delete : Parsed :=
  if says "delete" then
    match find_file_paths original with
    | p :: _ => found CiFileDelete [("path", json_str p)]
    | [] => found CiFileDelete [("path", json_str "*")]
    end
  else nothing.

Definition parse_file_intent (last_file : option string) : Parsed :=
  orelse parse_list (orelse parse_search (orelse parse_read (orelse parse_create
    (orelse parse_write (orelse parse_rename (orelse (parse_move last_file) parse_delete)))))).

Definition parse_system_intent : option (Intent J) :=
  let intent c := Some (mkIntent c (json_obj [])) in
  if (says "ram" || says "memory" || says "resources" && says "system") &&
     (says "how much" || says "available" || says "memory" || says "ram" || says "resources")
  then intent CiSystemResources
  else if says "uptime" || says "how long" && says "running" || says "been running"
  then intent CiSystemUptime
  else if says "system info" || says "os version" || says "system information"
          || says "system" && says "info"
  then intent CiSystemInfo
  else if says "ram" && says "available" then intent CiSystemResources
  else if says "how long has aether been running" then intent CiSystemUptime
  else None.
End file.

(** ** All intents of a text *)

Section text.
Context `{!Unicode}.
Variables (text : string) (ctx : SystemContext) (convo_last_app convo_last_file : option string).

Let upper : string := to_uppercase text.
Let lower : string := to_ascii_lowercase text.
Let shouts (w : string) : bool := str_contains_from w upper.

Definition words_of_text : list string :=
  List.filter (λ w, negb (str_is_empty w)) (trim_by not_alnum <$> split_whitespace upper).

(** The four ways to ask which windows are open. *)
Definition asks_for_windows1 : bool :=
  let normalized := replace_chars (char_in "?.,") " " (str_replace "'" "" upper) in
  let norm_words := split_whitespace normalized in
  let joined := str_join " " norm_words in
  let mentions w := str_contains_from w joined in
  (mentions "WHAT" && mentions "OPEN" || mentions "WHATS OPEN" || mentions "WHAT IS OPEN"
   || mentions "WHICH" && mentions "WINDOW" || mentions "LIST" && mentions "WINDOW"
   || mentions "SHOW" && mentions "WINDOW" && mentions "OPEN"
   || (joined =? "WHAT IS OPEN")%string || (joined =? "WHATS OPEN")%string)
  && (existsb (String.eqb "WHAT") norm_words || existsb (String.eqb "WHICH") norm_words
      || existsb (String.eqb "LIST") norm_words).

Definition asks_for_windows2 : bool :=
  shouts "WHAT" && shouts "OPEN?" || one_of ["WHAT'S OPEN?"; "WHATS OPEN"] (str_trim upper).

Definition asks_for_windows3 : bool :=
  let lower_nopunct := str_filter (λ c, is_ascii_alphabetic c || is_ascii_whitespace c) lower in
  one_of ["whats open"; "what is open"; "what is open "; "which windows are open"; "list windows";
          "show open windows"; "what windows are open"]
    (str_replace "  " " " (str_trim lower_nopunct)).

Definition asks_for_windows4 : bool :=
  let says w := str_contains_from w lower in
  (says "what's open" || says "whats open"
   || says "what" && says "open" && (length (split_whitespace lower) <=? 4)%nat
      && negb (says "calculator") && negb (says "notes") && negb (says "files"))
  && negb (says "calculator") && negb (says "notes") && negb (says "files")
  && negb (says "open calculator").

Definition has_pronoun : bool :=
  existsb (λ w, one_of ["it"; "that"; "this"; "them"] (trim_by not_alpha w)) (split_whitespace lower)
  || str_contains_from " it " lower || str_contains_from " it." lower
  || ends_with " it" (trim_end_by not_alpha lower).

Definition or_else {A} (a b : option A) : option A := match a with Some _ => a | None => b end.

Definition app_intent (c : CapabilityId) (app : string) : Intent J :=
  mkIntent c (json_obj [("app", json_str app)]).

(** The targets of a verb, or what the pronoun stands for. *)
Definition targets_or (targets : list string) (last : option string) : list string :=
  match targets with
  | [] => if has_pronoun then option_list last else []
  | _ => targets
  end.

(** The intents of the verb at a position. *)
Definition verb_intents (words : list string) (idx : nat) (verb : string) : option (list (Intent J)) :=
  let targets := collect_targets words idx in
  let about c last := Some (app_intent c <$> targets_or targets last) in
  if (verb =? "CLOSE")%string then
    if (match targets with [] => true | _ => false end) && has_pronoun
    then Some (app_intent CiAppClose <$> option_list (or_else convo_last_app (focused_app ctx)))
    else match targets with
         | [] => Some []
         | _ =>
             rest ← slice_from idx upper;
             Some (app_intent (if str_contains_from "WINDOW" rest then CiWindowClose else CiAppClose)
                     <$> targets)
         end
  else if one_of ["OPEN"; "LAUNCH"; "START"; "RUN"] verb then about CiAppLaunch convo_last_app
  else if one_of ["BRING"; "FOCUS"; "SHOW"] verb then
    about CiWindowFocus
      (to_ascii_lowercase <$> or_else convo_last_app (or_else (sc_active_window ctx) (focused_app ctx)))
  else if one_of ["MINIMIZE"; "HIDE"] verb then
    about CiWindowMinimize (or_else convo_last_app (focused_app ctx))
  else if one_of ["MAXIMIZE"; "MAXIMISE"; "EXPAND"; "FULLSCREEN"] verb then
    about CiWindowMaximize (or_else convo_last_app (focused_app ctx))
  else if (verb =? "RESTORE")%string then about CiWindowRestore (or_else convo_last_app (focused_app ctx))
  else Some [].

(** The loop over the words from a position on. *)
Fixpoint verbs_from (words : list string) (idx : nat) (rest : list string) : option (list (Intent J)) :=
  match rest with
  | [] => Some []
  | verb :: rest =>
      now ← verb_intents words idx verb;
      later ← verbs_from words (S idx) rest;
      Some (now ++ later)
  end.

(** The word before "RUNNING". *)
Definition running_target (words : list string) : option string :=
  match list_first (λ i, if str_contains_from "RUNNING" (nth i words "") then Some i else None)
          (seq 0 (length words)) with
  | None => None
  | Some ri =>
      match List.find (λ w, negb (one_of ["IS"; "THE"; "MY"; "STILL"] w)) (reverse (take ri words)) with
      | None => None
      | Some w =>
          let w := to_ascii_lowercase (trim_end_by not_alnum w) in
          if str_is_empty w then None else Some w
      end
  end.

Definition parse_intents_with_file : option (list (Intent J)) :=
  let words := words_of_text in
  let only c := Some [mkIntent c (json_obj [])] in
  match words with
  | [] => Some []
  | _ =>
      if asks_for_windows1 || asks_for_windows2 || asks_for_windows3 || asks_for_windows4
      then only CiWindowList
      else
        file ← parse_file_intent lower text convo_last_file;
        match file, parse_system_intent lower with
        | Some i, _ => Some [i]
        | None, Some i => Some [i]
        | None, None =>
            intents ← verbs_from words 0 words;
            match intents with
            | _ :: _ => Some intents
            | [] =>
                if existsb (String.eqb "APPS") words || shouts "APPLICATIONS" then only CiAppList
                else if shouts "RUNNING" then
                  Some [mkIntent CiAppStatus
                          (json_obj [("app", from_option json_str json_null (running_target words))])]
                else if shouts "STATUS" || shouts "HEALTH" then only CiSystemStatus
                else Some []
            end
        end
  end.
End text.

Definition parse_intents `{!Unicode} (text : string) (ctx : SystemContext) (convo_last_app : option string) :
    option (list (Intent J)) :=
  parse_intents_with_file text ctx convo_last_app None.

Definition parse_intent `{!Unicode} (text : string) : option (option (Intent J)) :=
  head <$> parse_intents text SystemContext_empty None.

(** ** Validation *)

Definition needs_target (c : CapabilityId) : bool :=
  match c with
  | CiAppLaunch | CiAppClose | CiAppStatus | CiWindowFocus | CiWindowMinimize | CiWindowMaximize
  | CiWindowClose | CiWindowRestore => true
  | _ => false
  end.

Definition NUL : string := String Ascii.zero EmptyString.

Definition arg_text (args : J) (key : string) : string :=
  default "" (match json_get args key with Some v => json_as_str v | None => None end).

Definition blank (s : string) : bool := str_is_empty (str_trim s).

Definition valid_app (args : J) : bool :=
  match json_as_str (default json_null (json_get args "app")) with
  | Some s => negb (blank s) && str_all id_char s
  | None => false
  end.

Definition validate (i : Intent J) : result unit string :=
  let args := in_arguments i in
  let malformed s := Err ("MALFORMED_ARGUMENTS: " +:+ s) in
  match CapabilityId_from_str (CapabilityId_as_str (in_capability i)) with
  | None => Err "UNKNOWN_CAPABILITY"
  | Some _ =>
      if needs_target (in_capability i) && negb (valid_app args)
      then malformed "'app' must be a registered app id"
      else
        let? _ :=
          match in_capability i with
          | CiFileList =>
              match json_get args "path" with
              | None => Ok tt
              | Some p =>
                  match json_as_str p with
                  | None => malformed "'path' must be string"
                  | Some s => if str_contains_from NUL s then malformed "path contains null" else Ok tt
                  end
              end
          | CiFileSearch =>
              let q := arg_text args "query" in
              if blank q || (100 <? String.length q)%nat
              then malformed "'query' must be 1..100 chars" else Ok tt
          | CiFileRead | CiFileCreate | CiFileDelete =>
              let p := arg_text args "path" in
              if blank p then malformed "'path' is required"
              else if str_contains_from NUL p then malformed "path contains null" else Ok tt
          | CiFileWrite =>
              if blank (arg_text args "path") then malformed "'path' is required"
              else match json_get args "content" with
                   | Some v => match json_as_str v with
                               | Some _ => Ok tt
                               | None => malformed "'content' must be string"
                               end
                   | None => malformed "'content' must be string"
                   end
          | CiFileRename | CiFileMove =>
              if blank (arg_text args "from") || blank (arg_text args "to")
              then malformed "'from' and 'to' required" else Ok tt
          | _ => Ok tt
          end in
        if negb (auto_execute (in_capability i)) then Err "APPROVAL_REQUIRED" else Ok tt
  end.

(** ** Results in words *)

Section report.
Context `{!Unicode}.

Definition field (result : J) (key otherwise : string) : string :=
  default otherwise (json_as_str (json_index result key)).
Definition upper_field (result : J) (key otherwise : string) : string :=
  to_uppercase (field result key otherwise).
Definition number (o : option N) : string := pretty (default 0%N o).

(** The names of files in a list or a search. *)
Definition file_name (f : J) : string :=
  match json_as_str (json_index f "relative_path") with
  | Some s => s
  | None => field f "filename" "?"
  end.

Definition report_files (result : J) (keys : string * string) (some : list J → string) (none other : string) :
    string :=
  match or_else (json_as_array (json_index result keys.1)) (json_as_array (json_index result keys.2)) with
  | Some [] => none
  | Some files => some files
  | None => other
  end.

Definition format_result (c : CapabilityId) (result : J) : string :=
  match c with
  | CiSystemStatus =>
      "SYSTEM " +:+ field result "overall_health" "UNKNOWN" +:+ " - " +:+
      pretty (N.of_nat (length (default [] (json_as_array (json_index result "services")))))
      +:+ " SERVICES REGISTERED"
  | CiAppList =>
      match (λ a, upper_field a "id" "?") <$> default [] (json_as_array (json_index result "apps")) with
      | [] => "NO APPLICATIONS INSTALLED"
      | names => "INSTALLED APPS: " +:+ str_join ", " names
      end
  | CiAppLaunch =>
      let app := upper_field result "app" "APP" in
      match json_as_u64 (json_index (json_index result "instance") "pid") with
      | Some p => "LAUNCHED " +:+ app +:+ " (PID " +:+ pretty p +:+ ")"
      | None => "LAUNCHED " +:+ app
      end
  | CiAppClose => "APPLICATION CLOSED"
  | CiAppStatus =>
      let report := json_index result "report" in
      upper_field report "app" "APP" +:+ " STATE: " +:+ field report "state" "UNKNOWN"
  | CiWindowList =>
      match json_as_array (json_index result "windows") with
      | None | Some [] => "NO WINDOWS OPEN"
      | Some arr => "OPEN WINDOWS: " +:+ str_join ", " ((λ w, upper_field w "title" "?") <$> arr)
      end
  | CiWindowFocus => "FOCUSED " +:+ upper_field result "app" "WINDOW"
  | CiWindowMinimize => "WINDOW MINIMIZED"
  | CiWindowMaximize => "WINDOW MAXIMIZED"
  | CiWindowClose => "WINDOW CLOSED"
  | CiWindowRestore => "WINDOW RESTORED"
  | CiContextGet => "CONTEXT: " +:+ json_to_string result
  | CiFileList =>
      report_files result ("files", "entries")
        (λ files, "FILES: " +:+ str_join ", " (file_name <$> files)) "NO FILES FOUND"
        ("FILES: " +:+ json_to_string result)
  | CiFileSearch =>
      report_files result ("results", "files")
        (λ files, "FOUND " +:+ pretty (N.of_nat (length files)) +:+ " FILES: " +:+
                  str_join ", " (file_name <$> files))
        "NO FILES FOUND" ("SEARCH RESULTS: " +:+ json_to_string result)
  | CiFileRead =>
      let path := upper_field result "path" "FILE" in
      let preview := take_chars 80 (field result "content" "") in
      if str_is_empty preview
      then "READ " +:+ path +:+ ": " +:+ number (json_as_u64 (json_index result "size")) +:+ " bytes"
      else "READ " +:+ path +:+ ": " +:+ preview
  | CiFileCreate =>
      "CREATED " +:+ upper_field result "path" "FILE" +:+ " (" +:+
      number (or_else (json_as_u64 (json_index result "bytes_written"))
                (json_as_u64 (json_index result "size"))) +:+ " bytes)"
  | CiFileWrite =>
      "WROTE " +:+ number (json_as_u64 (json_index result "bytes_written")) +:+ " bytes to " +:+
      upper_field result "path" "FILE"
  | CiFileRename =>
      "RENAMED " +:+ upper_field result "from" "FILE" +:+ " -> " +:+ upper_field result "to" "FILE"
  | CiFileMove =>
      "MOVED " +:+ upper_field result "from" "FILE" +:+ " -> " +:+ upper_field result "to" "FILE"
  | CiFileDelete => "FILE DELETED"
  | CiSystemInfo =>
      str_trim ("SYSTEM " +:+ field result "os_version" "UNKNOWN" +:+ " " +:+
                field result "kernel_version" "")
  | CiSystemResources =>
      let memory := json_index result "memory" in
      "RESOURCES CPU:" +:+ number (json_as_u64 (json_index result "cpu_count")) +:+ " MEM:" +:+
      number (json_as_u64 (json_index memory "total_kib")) +:+ "KiB avail:" +:+
      number (json_as_u64 (json_index memory "available_kib")) +:+ "KiB"
  | CiSystemUptime =>
      let human := field result "uptime_human" "" in
      let ms := number (json_as_u64 (json_index result "uptime_ms")) in
      if negb (str_is_empty human) then "UPTIME " +:+ human +:+ " (" +:+ ms +:+ "ms)"
      else "UPTIME " +:+ ms +:+ "ms"
  end.
End report.
End parser.
