(* ===== verification/IntentProps.v ===== *)
(** * What the parser of intents does

    Theorems about [parse_intents_with_file]: it names no action the user did
    not name, and it answers every text but those that mention some words in an
    unexpected order. *)
From S2P Require Import Prelude RustStd Text Json CoreTypes AgentContext Intent.
From Stdlib Require Import Ascii.

(** ** Cuts *)

Lemma length_to_ascii_lowercase s : String.length (to_ascii_lowercase s) = String.length s.
Proof. induction s as [|c s IH]; simpl; [done|]. by rewrite IH. Qed.

Lemma length_to_ascii_uppercase s : String.length (to_ascii_uppercase s) = String.length s.
Proof. induction s as [|c s IH]; simpl; [done|]. by rewrite IH. Qed.

Lemma prefix_length p s : String.prefix p s = true → String.length p ≤ String.length s.
Proof.
  revert s. induction p as [|c p IH]; intros [|d s]; simpl; try done; [lia|].
  destruct (ascii_dec c d); [|done]. intros H%IH. lia.
Qed.

Lemma str_find_bound pat s i : str_find pat s = Some i → i + String.length pat ≤ String.length s.
Proof.
  revert i. induction s as [|c s IH]; intros i; cbn [str_find].
  - destruct (String.prefix pat "") eqn:Hp; [|done]. intros [= <-]. by apply prefix_length.
  - destruct (String.prefix pat (String c s)) eqn:Hp.
    + intros [= <-]. by apply prefix_length.
    + destruct (str_find pat s) as [j|]; [|done]. intros [= <-]. specialize (IH j eq_refl). simpl. lia.
Qed.

Lemma str_rfind_bound pat s i : str_rfind pat s = Some i → i + String.length pat ≤ String.length s.
Proof.
  revert i. induction s as [|c s IH]; intros i; cbn [str_rfind].
  - destruct (String.prefix pat "") eqn:Hp; [|done]. intros [= <-]. by apply prefix_length.
  - destruct (str_rfind pat s) as [j|].
    + intros [= <-]. specialize (IH j eq_refl). simpl. lia.
    + destruct (String.prefix pat (String c s)) eqn:Hp; [|done]. intros [= <-]. by apply prefix_length.
Qed.

Lemma length_str_drop n s : String.length (str_drop n s) = String.length s - n.
Proof. revert s. induction n as [|n IH]; intros [|c s]; simpl; [done..|]. apply IH. Qed.

Lemma slice_from_ascii from s :
  is_ascii_text s = true → from ≤ String.length s → ∃ r, slice_from from s = Some r.
Proof. intros Ha H. unfold slice_from. rewrite slice_ascii by done. by eexists. Qed.

Lemma ascii_lower s : is_ascii_text s = true → is_ascii_text (to_ascii_uppercase s) = true.
Proof.
  unfold is_ascii_text. induction s as [|c s IH]; [done|]. simpl. rewrite !andb_true_iff.
  intros [Hc Hs]. split; [|by apply IH]. clear IH Hs. revert Hc. destruct c as [[] [] [] [] [] [] [] []];
    by vm_compute.
Qed.

(** There are no more words than characters. *)
Lemma split_whitespace_go_length w s :
  length (split_whitespace_go w s) ≤ (if str_is_empty w then 0 else 1) + String.length s.
Proof.
  assert (∀ x, length (flush_word x) = if str_is_empty x then 0 else 1) as Hf
    by (intros x; unfold flush_word; by destruct (str_is_empty x)).
  revert w. induction s as [s IH] using (induction_ltof1 _ String.length). unfold ltof in IH. intros w.
  destruct s as [|c s]; simpl; [rewrite Hf; lia|].
  assert (∀ s' , String.length s' ≤ String.length s →
    length (flush_word w ++ split_whitespace_go "" s') ≤ (if str_is_empty w then 0 else 1) + S (String.length s))
    as Hcut.
  { intros s' Hs'. rewrite length_app, Hf. specialize (IH s' ltac:(simpl; lia) ""). simpl in IH. lia. }
  assert (length (split_whitespace_go (w +:+ String c "") s) ≤ (if str_is_empty w then 0 else 1) + S (String.length s))
    as Hkeep.
  { specialize (IH s ltac:(simpl; lia) (w +:+ String c "")).
    destruct (str_is_empty (w +:+ String c "")), (str_is_empty w); lia. }
  destruct (whitespace1 c); [by apply Hcut|]. destruct s as [|c2 s2]; [done|].
  destruct (whitespace2 c c2); [apply Hcut; simpl; lia|]. destruct s2 as [|c3 s3]; [done|].
  destruct (whitespace3 c c2 c3); [apply Hcut; simpl; lia|done].
Qed.

Lemma split_whitespace_length s : length (split_whitespace s) ≤ String.length s.
Proof. apply split_whitespace_go_length. Qed.

(** ** Texts that are answered *)

Section total.
Context {J : Type} `{!JsonOps J}.

Lemma orelse_is_Some (a b : Parsed (J := J)) : is_Some a → is_Some b → is_Some (orelse a b).
Proof. intros [[x|] ->] Hb; [by eexists|done]. Qed.

Lemma bind_is_Some {A B} (o : option A) (f : A → option B) :
  is_Some o → (∀ a, is_Some (f a)) → is_Some (o ≫= f).
Proof. intros [a ->] Hf. apply Hf. Qed.

Section cuts.
Variables lower original : string.
Hypothesis ascii : is_ascii_text original = true.
Hypothesis lengths : String.length lower = String.length original.

Lemma cut_after pat i n :
  str_find pat lower = Some i ∨ str_rfind pat lower = Some i → n = String.length pat →
  is_Some (slice_from (i + n) original).
Proof.
  intros H ->. destruct (slice_from_ascii (i + String.length pat) original ascii) as [r ->]; [|by eexists].
  rewrite <-lengths. destruct H as [H|H]; [by apply str_find_bound in H|by apply str_rfind_bound in H].
Qed.

Lemma cut_between pat1 pat2 i j n :
  str_find pat1 lower = Some i → str_find pat2 lower = Some j → i + n ≤ j →
  is_Some (slice (i + n) j original).
Proof.
  intros Hi Hj Hn. rewrite slice_ascii; [by eexists|done|done|].
  apply str_find_bound in Hj. rewrite <-lengths. lia.
Qed.

Lemma quoted_total q : is_Some (quoted_by q original).
Proof.
  unfold quoted_by. destruct (str_find _ original) as [i|] eqn:Hi; [|by eexists].
  apply str_find_bound in Hi. simpl in Hi. unfold slice_from. rewrite slice_ascii by (done || lia).
  cbn [mbind option_bind]. destruct (str_find _ (str_take _ _)) as [j|] eqn:Hj; [|by eexists].
  apply str_find_bound in Hj. rewrite length_str_take, length_str_drop in Hj. cbn [String.length] in Hj.
  rewrite slice_ascii; [by eexists|done|lia|lia].
Qed.

Lemma extract_total : is_Some (extract_quoted_content original).
Proof.
  unfold extract_quoted_content. destruct (quoted_total "'") as [[c|] ->]; [by eexists|]. apply quoted_total.
Qed.

(** The two cuts whose ends come from different searches. *)
Definition in_order : Prop :=
  (∀ w i, str_find "write" lower = Some w → str_find "into" lower = Some i → w + 5 ≤ i) ∧
  (∀ r t, str_find "rename" lower = Some r → str_find " to " lower = Some t → r + 6 ≤ t).

Lemma listed_folder_total : is_Some (listed_folder lower original).
Proof.
  unfold listed_folder. destruct (str_find " in " lower) as [i|] eqn:Hi; [|by eexists].
  apply bind_is_Some; [|by eexists]. eapply (cut_after " in "); [by left|done].
Qed.

Lemma move_target_total : is_Some (move_target lower original).
Proof.
  unfold move_target. destruct (str_find " into " lower) as [i|] eqn:Hi.
  - apply bind_is_Some; [|by eexists]. eapply (cut_after " into "); [by left|done].
  - destruct (str_rfind " to " lower) as [j|] eqn:Hj; [|by eexists].
    apply bind_is_Some; [|by eexists]. eapply (cut_after " to "); [by right|done].
Qed.

Lemma parse_named_total marker : is_Some (parse_named (J := J) lower original marker).
Proof.
  unfold parse_named. destruct (str_find marker lower) as [i|] eqn:Hi; [|by eexists].
  apply bind_is_Some; [by eapply cut_after; [left|]|]. intros a. repeat case_match; by eexists.
Qed.

Lemma parse_file_intent_total last_file :
  in_order → is_Some (parse_file_intent (J := J) lower original last_file).
Proof.
  intros [Hwrite Hrename]. unfold parse_file_intent. repeat apply orelse_is_Some.
  - unfold parse_list. destruct (_ && _); [|case_match; by eexists].
    apply bind_is_Some; [apply listed_folder_total|by eexists].
  - unfold parse_search. repeat case_match; by eexists.
  - unfold parse_read. destruct (says lower "read"); [|by eexists].
    destruct (find_file_paths original); [|by eexists].
    destruct (str_find "read" lower) as [i|] eqn:Hi; [|by eexists].
    apply bind_is_Some; [by eapply (cut_after "read"); [left|]|]. intros a. case_match; by eexists.
  - unfold parse_create. destruct (_ && _); [|by eexists]. destruct (find_file_paths original).
    + apply orelse_is_Some; apply parse_named_total.
    + apply bind_is_Some; [apply extract_total|by eexists].
  - unfold parse_write. destruct (says lower "write"); [|by eexists]. apply bind_is_Some.
    { destruct extract_total as [c ->]. by eexists. }
    intros content. destruct (last _); [|by eexists]. apply bind_is_Some; [|by eexists].
    destruct (str_is_empty content); [|by eexists]. unfold unquoted_content.
    destruct (str_find "write" lower) as [w|] eqn:Hw; [|by eexists].
    destruct (str_find "into" lower) as [i|] eqn:Hi; [|by eexists].
    apply bind_is_Some; [|by eexists]. eapply (cut_between "write" "into"); [done..|by apply Hwrite].
  - unfold parse_rename. destruct (says lower "rename"); [|by eexists].
    assert (is_Some (parse_rename_words (J := J) lower original)) as Hbranch.
    { unfold parse_rename_words. destruct (str_find "rename" lower) as [r|] eqn:Hr; [|by eexists].
      destruct (str_find " to " lower) as [t|] eqn:Ht; [|by eexists].
      apply bind_is_Some; [eapply (cut_between "rename" " to "); [done..|by apply Hrename]|]. intros a.
      apply bind_is_Some; [by eapply (cut_after " to "); [left|]|]. intros b. cbv zeta. case_match; by eexists. }
    destruct (find_file_paths original) as [|p [|q l]]; [exact Hbranch..|by eexists].
  - unfold parse_move. destruct (says lower "move"); [|by eexists].
    assert (∀ ps, is_Some (parse_move_paths (J := J) ps)) as Hpaths.
    { intros [|p [|q ps]]; by eexists. }
    apply orelse_is_Some.
    + unfold parse_move_this. destruct (_ || _); [|by eexists]. destruct last_file; [|by eexists].
      apply bind_is_Some; [apply move_target_total|]. intros to. repeat case_match; by eexists.
    + destruct (_ || _); [|apply Hpaths]. cbv zeta.
      apply bind_is_Some; [apply move_target_total|]. intros to. case_match; [by eexists|apply Hpaths].
  - unfold parse_delete. repeat case_match; by eexists.
Qed.
End cuts.

(** ** The whole parser *)

Section whole.
Context `{!Unicode} `{!UnicodeLaws}.
Variables (text : string) (ctx : SystemContext) (last_app last_file : option string).

Lemma words_of_text_length : is_ascii_text text = true → length (words_of_text text) ≤ String.length text.
Proof.
  intros Ha. unfold words_of_text. etrans; [apply List.filter_length_le|]. rewrite length_fmap.
  rewrite to_uppercase_ascii by done. rewrite <-(length_to_ascii_uppercase text).
  apply split_whitespace_length.
Qed.

Lemma verbs_total words idx rest :
  is_ascii_text text = true → idx + length rest ≤ String.length text →
  is_Some (verbs_from (J := J) text ctx last_app words idx rest).
Proof.
  intros Ha. revert idx. induction rest as [|verb rest IH]; intros idx Hl; [by eexists|].
  cbn [verbs_from]. simpl in Hl. apply bind_is_Some.
  - unfold verb_intents. destruct (verb =? "CLOSE")%string; [|repeat case_match; by eexists].
    destruct (_ && _); [by eexists|]. destruct (collect_targets words idx); [by eexists|].
    rewrite to_uppercase_ascii by done.
    destruct (slice_from_ascii idx (to_ascii_uppercase text)) as [r ->]; [by apply ascii_lower| |by eexists].
    rewrite length_to_ascii_uppercase. lia.
  - intros now. apply bind_is_Some; [apply IH; lia|]. by eexists.
Qed.
End whole.

(** The parser answers every ASCII text in which "into" does not come
    before the end of "write", nor " to " before the end of "rename". *)
Theorem parser_answers `{!Unicode} `{!UnicodeLaws} text ctx last_app last_file :
  is_ascii_text text = true → in_order (to_ascii_lowercase text) →
  is_Some (parse_intents_with_file (J := J) text ctx last_app last_file).
Proof.
  intros Ha Ho. unfold parse_intents_with_file.
  pose proof (words_of_text_length text Ha) as Hlen.
  destruct (words_of_text text) as [|w0 ws] eqn:Hw; [by eexists|]. rewrite <-Hw in *. clear Hw w0 ws.
  destruct (_ || _); [by eexists|]. apply bind_is_Some.
  { apply parse_file_intent_total; [done|apply length_to_ascii_lowercase|done]. }
  intros [i|]; [by eexists|]. destruct (parse_system_intent _); [by eexists|].
  apply bind_is_Some; [by apply verbs_total|]. intros [|]; [|by eexists]. repeat case_match; by eexists.
Qed.

(** The parsers that come before the one for "rename". *)
Definition before_rename (lower text : string) : Parsed (J := J) :=
  orelse (parse_list lower text) (orelse (parse_search lower) (orelse (parse_read lower text)
    (orelse (parse_create lower text) (parse_write lower text)))).

(** A request to rename in which " to " comes first, as in "I want to rename
    it", makes the parser panic: the text between the two words is cut out in
    the wrong order. *)
Theorem to_before_rename_panics `{!Unicode} text ctx last_app last_file r t :
  let lower := to_ascii_lowercase text in
  words_of_text text ≠ [] →
  asks_for_windows1 text || asks_for_windows2 text || asks_for_windows3 text || asks_for_windows4 text = false →
  before_rename lower text = nothing →
  str_find "rename" lower = Some r → str_find " to " lower = Some t → t < r + 6 →
  length (find_file_paths text) < 2 → says lower "rename" = true →
  parse_intents_with_file (J := J) text ctx last_app last_file = None.
Proof.
  intros lower Hw Hq Hb Hr Ht Hlt Hp Hs. unfold parse_intents_with_file.
  destruct (words_of_text text) as [|w0 ws]; [done|]. rewrite Hq. fold lower.
  assert (parse_rename_words (J := J) lower text = None) as Hcut.
  { unfold parse_rename_words. rewrite Hr, Ht. unfold slice.
    rewrite (proj2 (Nat.leb_gt _ _)) by lia. done. }
  assert (parse_file_intent (J := J) lower text last_file = None) as ->; [|done].
  unfold parse_file_intent, before_rename, orelse in *. unfold parse_rename. rewrite Hs.
  assert (match find_file_paths text with
          | p :: q :: _ => found (J := J) CiFileRename [("from", json_str p); ("to", json_str q)]
          | _ => parse_rename_words lower text
          end = None) as ->.
  { destruct (find_file_paths text) as [|p [|q l]]; [done..|simpl in Hp; lia]. }
  destruct (parse_list lower text) as [[i|]|]; try done.
  destruct (parse_search lower) as [[i|]|]; try done.
  destruct (parse_read lower text) as [[i|]|]; try done.
  destruct (parse_create lower text) as [[i|]|]; try done.
  by rewrite Hb.
Qed.
End total.

(** ** Nothing is done that was not asked for *)

Section asked.
Context {J : Type} `{!JsonOps J} `{!Unicode}.
Variables (text : string) (ctx : SystemContext) (last_app last_file : option string).
Let lower : string := to_ascii_lowercase text.

(** The text in small letters, and in capitals, has a sequence of letters. *)
Definition has (w : string) : Prop := str_contains_from w lower = true.
Definition has_capital (w : string) : Prop := str_contains_from w (to_uppercase text) = true.

(** A pronoun: a word of the text, or "it" after a blank. *)
Definition pronoun_said : Prop :=
  (∃ w, w ∈ split_whitespace lower ∧ trim_by not_alpha w ∈ ["it"; "that"; "this"; "them"]) ∨ has " it".

(** The verbs that ask for an action on an application or a window. *)
Definition verbs_for (c : CapabilityId) : list string :=
  match c with
  | CiAppLaunch => ["OPEN"; "LAUNCH"; "START"; "RUN"]
  | CiAppClose | CiWindowClose => ["CLOSE"]
  | CiWindowFocus => ["BRING"; "FOCUS"; "SHOW"]
  | CiWindowMinimize => ["MINIMIZE"; "HIDE"]
  | CiWindowMaximize => ["MAXIMIZE"; "MAXIMISE"; "EXPAND"; "FULLSCREEN"]
  | CiWindowRestore => ["RESTORE"]
  | _ => []
  end.

(** What the pronoun stands for. *)
Definition referent (c : CapabilityId) : option string :=
  match c with
  | CiAppLaunch => last_app
  | CiWindowFocus => to_ascii_lowercase <$> or_else last_app (or_else (sc_active_window ctx) (focused_app ctx))
  | CiWindowClose => None
  | _ => or_else last_app (focused_app ctx)
  end.

Definition good_id (app : string) : Prop := app ≠ "" ∧ str_all id_char app = true.

(** An action on an application: its verb is a word of the text, and the target is
    made of a later word, or no later word is one and a pronoun stands for it. *)
Definition acts_on (c : CapabilityId) (args : J) : Prop := ∃ idx verb app,
  words_of_text text !! idx = Some verb ∧ verb ∈ verbs_for c ∧
  args = json_obj [("app", json_str app)] ∧
  ((∃ k w, idx < k ∧ words_of_text text !! k = Some w ∧ normalize_token w = Some app ∧ good_id app) ∨
   collect_targets (words_of_text text) idx = [] ∧ pronoun_said ∧ referent c = Some app).

Definition asked_for (i : Intent J) : Prop :=
  match in_capability i with
  | CiFileList => (has "show" ∨ has "list" ∨ has "display") ∧ has "file"
  | CiFileSearch => (has "find" ∨ has "search") ∧ has "file"
  | CiFileRead => has "read"
  | CiFileCreate => has "create" ∧ has "file"
  | CiFileWrite => has "write"
  | CiFileRename => has "rename"
  | CiFileMove => has "move"
  | CiFileDelete => has "delete"
  | CiSystemResources => has "ram" ∨ has "memory" ∨ has "resources" ∧ has "system"
  | CiSystemUptime => has "uptime" ∨ has "running" ∧ (has "how long" ∨ has "been")
  | CiSystemInfo => has "os version" ∨ has "system" ∧ has "info"
  | CiSystemStatus => has_capital "STATUS" ∨ has_capital "HEALTH"
  | CiAppList => "APPS" ∈ words_of_text text ∨ has_capital "APPLICATIONS"
  | CiAppStatus => has_capital "RUNNING"
  | CiWindowList =>
      asks_for_windows1 text || asks_for_windows2 text || asks_for_windows3 text || asks_for_windows4 text = true
  | CiContextGet => False
  | CiWindowClose => acts_on CiWindowClose (in_arguments i) ∧ has_capital "WINDOW"
  | c => acts_on c (in_arguments i)
  end.

Lemma has_part p q : has q → str_contains_from p q = true → has p.
Proof. unfold has. apply contains_trans. Qed.

Lemma one_of_elem l w : one_of l w = true ↔ w ∈ l.
Proof.
  unfold one_of. rewrite existsb_exists. split.
  - intros (x & Hx & ->%String.eqb_eq). by apply list_elem_of_In.
  - intros Hw. exists w. rewrite String.eqb_refl. by rewrite <-list_elem_of_In.
Qed.

Lemma has_pronoun_said : has_pronoun text = true → pronoun_said.
Proof.
  unfold has_pronoun. fold lower. rewrite !orb_true_iff, existsb_exists.
  intros [[[(w & Hw & Hp)|Hp]|Hp]|Hp].
  - left. exists w. split; [by apply list_elem_of_In|by apply one_of_elem].
  - right. by apply (has_part _ " it ").
  - right. by apply (has_part _ " it.").
  - right. by apply (trimmed_contains not_alpha), ends_contains.
Qed.

(** *** The targets of a verb *)

(** An identifier made of one of the words. *)
Definition from_words (words : list string) (app : string) : Prop :=
  good_id app ∧ ∃ w, w ∈ words ∧ normalize_token w = Some app.

Lemma normalize_good w n : normalize_token w = Some n → good_id n.
Proof.
  unfold normalize_token. destruct (str_is_empty _) eqn:He; [done|]. destruct (str_all id_char _) eqn:Ha; [|done].
  intros [= <-]. split; [|done]. intros E. by rewrite E in He.
Qed.

Lemma collect_from_words all words targets :
  words ⊆ all → Forall (from_words all) targets → Forall (from_words all) (collect_from words targets).
Proof.
  revert targets. induction words as [|w words IH]; intros targets Hs Ht; [done|]. cbn [collect_from].
  assert (words ⊆ all) as Hs' by set_solver.
  destruct (_ && _); [done|]. destruct (_ || _); [by apply IH|]. destruct (one_of _ w); [by apply IH|].
  destruct (normalize_token w) as [n|] eqn:Hn.
  - destruct (one_of _ n); [by apply IH|].
    assert (Forall (from_words all) (targets ++ [n])) as Ht'.
    { apply Forall_app. split; [done|]. constructor; [|constructor]. split; [by eapply normalize_good|].
      exists w. split; [set_solver|done]. }
    destruct (4 <=? length (targets ++ [n]))%nat; [done|by apply IH].
  - destruct (4 <=? length targets)%nat; [done|by apply IH].
Qed.

Lemma collected_later words idx app :
  app ∈ collect_targets words idx →
  ∃ k w, idx < k ∧ words !! k = Some w ∧ normalize_token w = Some app ∧ good_id app.
Proof.
  intros Hin. pose proof (collect_from_words (drop (S idx) words) (drop (S idx) words) [] ltac:(done) (Forall_nil_2 _)) as Hg.
  rewrite Forall_forall in Hg. destruct (Hg app Hin) as (Hid & w & Hw & Hn).
  apply list_elem_of_lookup in Hw as [k Hk]. rewrite lookup_drop in Hk. exists (S idx + k), w. split_and!; try done. lia.
Qed.

Lemma targets_act_on c idx verb app :
  words_of_text text !! idx = Some verb → verb ∈ verbs_for c →
  app ∈ targets_or text (collect_targets (words_of_text text) idx) (referent c) →
  acts_on c (json_obj [("app", json_str app)]).
Proof.
  intros Hv Hc Ha. exists idx, verb, app. split_and!; try done. unfold targets_or in Ha.
  destruct (collect_targets (words_of_text text) idx) as [|t ts] eqn:E; [right|left].
  - destruct (has_pronoun text) eqn:Hp; [|by apply elem_of_nil in Ha]. split; [done|].
    split; [by apply has_pronoun_said|]. destruct (referent c) as [x|]; [|by apply elem_of_nil in Ha].
    simpl in Ha. by apply list_elem_of_singleton in Ha as ->.
  - apply collected_later. by rewrite E.
Qed.

(** Of these capabilities, what is asked for is the action. *)
Definition plain_action (c : CapabilityId) : Prop :=
  ∀ args, acts_on c args → asked_for (mkIntent c args).

Lemma about_asked c idx verb l :
  plain_action c → words_of_text text !! idx = Some verb → one_of (verbs_for c) verb = true →
  Some (app_intent (J := J) c <$> targets_or text (collect_targets (words_of_text text) idx) (referent c)) = Some l →
  Forall asked_for l.
Proof.
  intros Hc Hv Ho%one_of_elem [= <-]. apply Forall_fmap, Forall_forall. intros app Ha. apply Hc. by eapply targets_act_on.
Qed.

Lemma close_asked idx l :
  words_of_text text !! idx = Some "CLOSE" →
  verb_intents (J := J) text ctx last_app (words_of_text text) idx "CLOSE" = Some l → Forall asked_for l.
Proof.
  intros Hv. unfold verb_intents. cbn -[collect_targets has_pronoun slice_from app_intent option_list].
  destruct (collect_targets (words_of_text text) idx) as [|t ts] eqn:Et.
  - destruct (has_pronoun text) eqn:Hp; cbn [andb]; [|intros [= <-]; constructor].
    intros [= <-]. apply Forall_fmap, Forall_forall. intros app Ha. change (acts_on CiAppClose (json_obj [("app", json_str app)])).
    eapply targets_act_on; [done|by apply list_elem_of_singleton|]. unfold targets_or. rewrite Et, Hp. exact Ha.
  - cbn [andb]. destruct (slice_from idx _) as [rest|] eqn:Hr; [|done]. cbn [mbind option_bind]. intros <-%(inj Some).
    apply Forall_fmap, Forall_forall. intros app Ha. rewrite <-Et in Ha.
    assert (∀ c, c = CiAppClose ∨ c = CiWindowClose → acts_on c (json_obj [("app", json_str app)])) as Hact.
    { intros c Hc. exists idx, "CLOSE", app. split_and!; [done| |done|left; by apply collected_later].
      by destruct Hc as [->| ->]; apply list_elem_of_singleton. }
    destruct (str_contains_from "WINDOW" rest) eqn:Hw; unfold asked_for; simpl; [|auto]. split; [auto|].
    unfold has_capital. unfold slice_from, slice in Hr. destruct (_ && _); [|done]. injection Hr as <-.
    by eapply dropped_contains, taken_contains.
Qed.

Lemma verb_intents_asked idx verb l :
  words_of_text text !! idx = Some verb →
  verb_intents (J := J) text ctx last_app (words_of_text text) idx verb = Some l → Forall asked_for l.
Proof.
  intros Hv. destruct (String.eqb_spec verb "CLOSE") as [->|Hne]; [by apply close_asked|].
  unfold verb_intents. rewrite (proj2 (String.eqb_neq _ _) Hne). cbv zeta.
  destruct (one_of ["OPEN"; "LAUNCH"; "START"; "RUN"] verb) eqn:H1; [by apply (about_asked CiAppLaunch idx verb _ (λ _ H, H))|].
  destruct (one_of ["BRING"; "FOCUS"; "SHOW"] verb) eqn:H2; [by apply (about_asked CiWindowFocus idx verb _ (λ _ H, H))|].
  destruct (one_of ["MINIMIZE"; "HIDE"] verb) eqn:H3; [by apply (about_asked CiWindowMinimize idx verb _ (λ _ H, H))|].
  destruct (one_of ["MAXIMIZE"; "MAXIMISE"; "EXPAND"; "FULLSCREEN"] verb) eqn:H4;
    [by apply (about_asked CiWindowMaximize idx verb _ (λ _ H, H))|].
  destruct (String.eqb_spec verb "RESTORE") as [->|_]; [by apply (about_asked CiWindowRestore idx "RESTORE" _ (λ _ H, H))|].
  intros [= <-]. constructor.
Qed.

Lemma verbs_from_asked idx rest l :
  drop idx (words_of_text text) = rest →
  verbs_from (J := J) text ctx last_app (words_of_text text) idx rest = Some l → Forall asked_for l.
Proof.
  revert idx l. induction rest as [|verb rest IH]; intros idx l Hd; cbn [verbs_from].
  { intros [= <-]. constructor. }
  assert (words_of_text text !! idx = Some verb ∧ drop (S idx) (words_of_text text) = rest) as [Hv Hd'].
  { split; [by rewrite <-(Nat.add_0_r idx), <-lookup_drop, Hd|].
    replace (S idx) with (idx + 1) by lia. by rewrite <-drop_drop, Hd. }
  destruct (verb_intents _ _ _ _ _ _) as [now|] eqn:Hnow; [|done]. simpl.
  destruct (verbs_from _ _ _ _ _ _) as [later|] eqn:Hlater; [|done]. intros [= <-]. apply Forall_app. split.
  - by eapply verb_intents_asked.
  - by eapply IH.
Qed.

(** *** The other parsers *)

Definition answers (p : Parsed (J := J)) : Prop := ∀ i, p = Some (Some i) → asked_for i.

Lemma answers_orelse p q : answers p → answers q → answers (orelse p q).
Proof. intros Hp Hq i. destruct p as [[j|]|] eqn:E; simpl; [apply Hp|apply Hq|done]. Qed.

Lemma answers_found c args : asked_for (mkIntent c (json_obj args)) → answers (found c args).
Proof. by intros Hc i [= <-]. Qed.

Lemma answers_nothing : answers nothing.
Proof. by intros i. Qed.

Lemma answers_bind {A} (o : option A) (f : A → Parsed (J := J)) :
  (∀ a, answers (f a)) → answers (mbind (M := option) f o).
Proof. intros Hf i. destruct o as [a|]; simpl; [apply Hf|done]. Qed.

(** Walk through a parser that has passed its words. *)
Ltac parser_walk := repeat first
  [apply answers_nothing
  |apply answers_bind; intros ?
  |apply answers_orelse
  |apply answers_found; assumption
  |match goal with |- answers (match ?x with _ => _ end) => destruct x eqn:? end].

Lemma list_answers : answers (parse_list lower text).
Proof.
  unfold parse_list. destruct (_ && _) eqn:Hs.
  - apply andb_true_iff in Hs as [Hv Hf]. rewrite !orb_true_iff in Hv.
    assert ((has "show" ∨ has "list" ∨ has "display") ∧ has "file") as Hl by (unfold has; naive_solver). parser_walk.
  - destruct (one_of _ _) eqn:Ho; [|parser_walk]. apply answers_found.
    assert (has "show my file") as Hf.
    { apply one_of_elem in Ho. apply trim_contains. rewrite !elem_of_cons, elem_of_nil in Ho.
      destruct Ho as [->|[->|[]]]; reflexivity. }
    split; [left|]; by apply (has_part _ _ Hf).
Qed.

Lemma search_answers : answers (parse_search lower).
Proof.
  unfold parse_search. destruct (_ && _) eqn:Hs.
  - apply andb_true_iff in Hs as [Hv Hf]. rewrite !orb_true_iff in Hv.
    assert ((has "find" ∨ has "search") ∧ has "file") as Hl by (unfold has; naive_solver). parser_walk.
  - destruct (says lower "find my project files") eqn:Hf; [|parser_walk]. apply answers_found.
    split; [left|]; by apply (has_part _ _ Hf).
Qed.

Lemma file_intent_answers : answers (parse_file_intent lower text last_file).
Proof.
  unfold parse_file_intent. apply answers_orelse; [apply list_answers|].
  apply answers_orelse; [apply search_answers|]. repeat apply answers_orelse.
  - unfold parse_read. parser_walk.
  - unfold parse_create, parse_named. destruct (_ && _) eqn:Hs; [|parser_walk].
    apply andb_true_iff in Hs as [H1 H2].
    assert (has "create" ∧ has "file") as Hc by done. parser_walk.
  - unfold parse_write. parser_walk.
  - unfold parse_rename, parse_rename_words. parser_walk.
  - unfold parse_move, parse_move_this, parse_move_paths. parser_walk.
  - unfold parse_delete. parser_walk.
Qed.

(** The next test of a chain of them. *)
Ltac next_test H := match goal with |- (if ?b then _ else _) = _ → _ => destruct b eqn:H end.

Lemma system_intent_asked i : parse_system_intent (J := J) lower = Some i → asked_for i.
Proof.
  unfold parse_system_intent. cbv zeta.
  next_test H1.
  { intros [= <-]. apply andb_true_iff in H1 as [H1 _]. rewrite !orb_true_iff, andb_true_iff in H1.
    destruct H1 as [[H1|H1]|[H1 H1']]; [by left|by right; left|by right; right; split]. }
  next_test H2.
  { intros [= <-]. rewrite !orb_true_iff, andb_true_iff in H2.
    destruct H2 as [[H2|[H2 H3]]|H2]; [by left|right; by split; [|left]|right].
    split; [|right]; by apply (has_part _ _ H2). }
  next_test H3.
  { intros [= <-]. rewrite !orb_true_iff, andb_true_iff in H3.
    destruct H3 as [[[H3|H3]|H3]|H3]; [right|by left|right..]; try done; split; by apply (has_part _ _ H3). }
  next_test H4.
  { intros [= <-]. left. by apply andb_true_iff in H4 as [H4 _]. }
  next_test H5; [|done]. intros [= <-]. right. split; [|left]; by apply (has_part _ _ H5).
Qed.

(** C20: every intent the parser finds was asked for, in the sense of the sequences
    of letters the parser looks for; they need not be words of their own ("already"
    has "read").  A file is read, written, renamed, moved or deleted only if the text, in small
    letters, has "read", "write", "rename", "move" or "delete" in it, and created only
    if it has "create" and "file"; files are listed for "show", "list" or "display"
    with "file", searched for "find" or "search" with "file"; the resources, the
    uptime, the information and the status of the system, the applications and what
    is running are asked for by their own letters, and the windows by one of the
    four questions for them.  An application or window is acted on only if one of
    the words of the text is a verb for it, and the target is a valid identifier made
    of a later word, or, when the words up to the next verb give none, what the pronoun
    stands for, and then the text has one; a window is closed only if the text has "WINDOW". *)
Theorem intents_were_asked_for l :
  parse_intents_with_file (J := J) text ctx last_app last_file = Some l → Forall asked_for l.
Proof.
  unfold parse_intents_with_file.
  assert (∀ i l, Some [i] = Some l → asked_for i → Forall asked_for l) as Hone by (intros i l' [= <-] Hi; by repeat constructor).
  destruct (words_of_text text) as [|w0 ws] eqn:Hw; [intros [= <-]; constructor|]. rewrite <-Hw. clear Hw w0 ws.
  destruct (_ || _) eqn:Hwin; [intros Hl; by eapply Hone|].
  destruct (parse_file_intent _ _ _) as [[i|]|] eqn:Hfile; [| |done]; cbn [mbind option_bind].
  { intros Hl. eapply Hone; [done|]. by apply file_intent_answers. }
  destruct (parse_system_intent _) as [i|] eqn:Hsys.
  { intros Hl. eapply Hone; [done|]. by apply system_intent_asked. }
  destruct (verbs_from _ _ _ _ _ _) as [intents|] eqn:Hv; [|done]. cbn [mbind option_bind].
  apply verbs_from_asked in Hv; [|done]. destruct intents as [|i intents]; [|intros [= <-]; done].
  next_test H1.
  { intros Hl. eapply Hone; [done|]. apply orb_true_iff in H1 as [H1|H1]; [left|by right].
    apply existsb_exists in H1 as (x & Hx%list_elem_of_In & <-%String.eqb_eq). done. }
  next_test H2; [intros Hl; by eapply Hone|].
  next_test H3; [|intros [= <-]; constructor].
  intros Hl. eapply Hone; [done|]. by apply orb_true_iff in H3.
Qed.
End asked.

(** ** Texts *)

#[local] Instance ascii_unicode : Unicode := {| to_uppercase := to_ascii_uppercase |}.
#[local] Instance ascii_unicode_laws : UnicodeLaws.
Proof. by split. Qed.

Lemma parser_answers_witness :
  in_order (to_ascii_lowercase "Rename draft to final") ∧
  parse_intents_with_file (J := ToyJson) "Rename draft to final" SystemContext_empty None None
    = Some [mkIntent CiFileRename (TObj [("from", TStr "draft"); ("to", TStr "final")])] ∧
  is_Some (parse_intents_with_file (J := ToyJson) "Rename draft to final" SystemContext_empty None None).
Proof.
  assert (in_order (to_ascii_lowercase "Rename draft to final")) as Ho.
  { split; intros a b Ha Hb; vm_compute in Ha, Hb; [discriminate|].
    injection Ha as <-. injection Hb as <-. lia. }
  split; [exact Ho|]. split; [vm_compute; reflexivity|].
  apply (parser_answers "Rename draft to final" SystemContext_empty None None); [vm_compute; reflexivity|exact Ho].
Defined.

Lemma to_before_rename_panics_witness :
  parse_intents_with_file (J := ToyJson) "I want to rename budget" SystemContext_empty None None = None.
Proof.
  apply (to_before_rename_panics "I want to rename budget" SystemContext_empty None None 10 6);
    try (vm_compute; reflexivity); [by vm_compute|lia|vm_compute; lia].
Defined.

Lemma intents_were_asked_for_witness :
  Forall (asked_for "Close the calculator" SystemContext_empty None)
    [mkIntent (J := ToyJson) CiAppClose (TObj [("app", TStr "calculator")])].
Proof.
  apply (intents_were_asked_for "Close the calculator" SystemContext_empty None None).
  vm_compute. reflexivity.
Defined.
