(* ===== verification/Planner.v ===== *)
(** * The planner

    Models client.rs of sdk/rust/aether-sdk/src, the network part of
    services/aether-agentd/src/intent.rs and planner.rs: how intents become
    requests, and when they do not. *)
From S2P Require Import Prelude RustStd Text CoreTypes Json Actions AgentContext Intent.
From Stdlib Require Import Ascii.

(** The derived deserializer of [IpcResponse]. *)
Class ResponseParse (J : Type) := { ipc_response_from_str : string → result (IpcResponse J) string }.

Definition local_addr (port : N) : string := "127.0.0.1:" +:+ pretty port.

Section planner.
Context {E J : Type} `{!WireEnv E} `{!JsonOps J} `{!JsonParse J} `{!ResponseParse J} `{!Unicode}.
Variables control_port surface_port : N.

(** ** client.rs *)

Definition trust_text (t : ActorTrust) : string :=
  match t with Trusted => "trusted" | Untrusted => "untrusted" end.

(** The derived serializer of [IpcRequest]. *)
Definition request_json (r : IpcRequest J) : J :=
  json_obj [("service_id", json_str (req_service_id r)); ("command", json_str (req_command r));
            ("parameters", req_parameters r); ("actor_trust", json_str (trust_text (req_actor_trust r)))].

Definition call_error (addr : string) (e : CallError) : string :=
  match e with
  | CeConnect e => "connect " +:+ addr +:+ ": " +:+ e
  | CeTimeout e => "set timeout: " +:+ e
  | CeClone e => "clone stream: " +:+ e
  | CeSend e => "send: " +:+ e
  | CeRecv e => "recv: " +:+ e
  end.

Definition client_request (r : IpcRequest J) : Net E J (result (IpcResponse J) string) := λ w,
  let '(answer, e) := wire_call control_port (json_to_string (request_json r) +:+ line_feed) (wire_env w) in
  (mkWire e (wire_log w ++ [(control_port, ToControl r)]),
   match answer with
   | Err err => Err (call_error (local_addr control_port) err)
   | Ok line =>
       if str_is_empty (str_trim line) then Err "empty response from control plane"
       else map_err (λ e, "decode response: " +:+ e) (ipc_response_from_str (str_trim line))
   end).

(** The requests of [execute_extended]; [client.status()] is one of them. *)
Definition control_request (command : string) (parameters : J) : IpcRequest J :=
  mkIpcRequest "aether-system-core" command parameters Trusted.

(** ** The surface client *)

Definition surface_error (addr : string) (e : SurfaceError) : string :=
  match e with
  | SeConnect e => "connect surface " +:+ addr +:+ ": " +:+ e
  | SeTimeout e => "timeout: " +:+ e
  | SeSend e => "send: " +:+ e
  | SeRecv e => "recv: " +:+ e
  end.

Definition surface_call (req : J) : Net E J (result J string) := λ w,
  let '(answer, e) := wire_surface surface_port (json_to_string req +:+ line_feed) (wire_env w) in
  (mkWire e (wire_log w ++ [(surface_port, ToSurface req)]),
   match answer with
   | Err err => Err (surface_error (local_addr surface_port) err)
   | Ok line =>
       if str_is_empty (str_trim line) then Err "empty surface response"
       else match json_from_str (str_trim line) with
            | Err e => Err ("decode: " +:+ e)
            | Ok v => if default false (json_as_bool (json_index v "ok")) then Ok v
                      else Err (text_at v "error" "surface error")
            end
   end).

Definition surface_window_list : Net E J (result J string) :=
  surface_call (json_obj [("op", json_str "window.list")]).

Definition window_op (op : string) (id : N) : Net E J (result J string) :=
  surface_call (json_obj [("op", json_str op); ("window_id", json_num id)]).

(** The first window of that application or title that has an id. *)
Definition window_named (target : string) (windows : list J) : option N :=
  list_first (λ w,
      let target := to_ascii_lowercase target in
      if (to_ascii_lowercase (text_at w "app" "") =? target)%string
         || (to_ascii_lowercase (text_at w "title" "") =? target)%string
      then json_as_u64 (json_index w "id") else None)
    windows.

Definition window_by_name (op app : string) (window_id : option N) : Net E J (result J string) :=
  match window_id with
  | Some id => window_op op id
  | None =>
      r ← surface_window_list;
      match r with
      | Err e => mret (Err e)
      | Ok v =>
          match window_named app (default [] (json_as_array (json_index v "windows"))) with
          | Some id => window_op op id
          | None => mret (Err ("no such window for '" +:+ app +:+ "'"))
          end
      end
  end.

Definition window_focus (app : string) (id : option N) : Net E J (result J string) :=
  window_by_name "window.focus" app id.
Definition window_minimize (app : string) (id : option N) : Net E J (result J string) :=
  window_by_name "window.minimize" app id.
Definition window_maximize (app : string) (id : option N) : Net E J (result J string) :=
  window_by_name "window.maximize" app id.
Definition window_close (app : string) (id : option N) : Net E J (result J string) :=
  match id with
  | Some id => window_op "window.close" id
  | None => surface_call (json_obj [("op", json_str "window.close"); ("app_id", json_str app)])
  end.

(** ** Executing an intent *)

Definition request_result (command : string) (parameters : J) : Net E J (result J string) :=
  r ← client_request (control_request command parameters);
  mret (match r with
        | Err e => Err e
        | Ok resp =>
            if resp_ok resp then Ok (resp_result resp)
            else Err (match resp_error resp with
                      | Some e => ipc_code e +:+ ": " +:+ ipc_message e
                      | None => "unknown error"
                      end)
        end).

(** By the control plane, or by the surface server when it does not succeed. *)
Definition control_or_surface (command : string) (parameters : J) (surface : Net E J (result J string)) :
    Net E J (result J string) :=
  r ← client_request (control_request command parameters);
  match r with
  | Ok resp => if resp_ok resp then mret (Ok (resp_result resp)) else surface
  | Err _ => surface
  end.

Definition execute_extended (i : Intent J) : Net E J (result J string) :=
  let arg := json_index (in_arguments i) in
  let arg_or_empty key := default (json_str "") (json_get (in_arguments i) key) in
  let app := text_at (in_arguments i) "app" "" in
  let by_app command := request_result command (json_obj [("app", arg "app")]) in
  let on_window command surface :=
    control_or_surface command (json_obj [("app", json_str app)]) (surface app None) in
  match in_capability i with
  | CiSystemStatus => request_result "status" (json_obj [])
  | CiAppStatus => by_app "app.status"
  | CiAppList => request_result "app.list" (json_obj [])
  | CiAppLaunch => by_app "app.launch"
  | CiAppClose => by_app "app.close"
  | CiWindowList => control_or_surface "window.list" (json_obj []) surface_window_list
  | CiWindowFocus => on_window "window.focus" window_focus
  | CiWindowMinimize => on_window "window.minimize" window_minimize
  | CiWindowMaximize => on_window "window.maximize" window_maximize
  | CiWindowClose => on_window "window.close" window_close
  | CiWindowRestore => on_window "window.restore" window_focus
  | CiContextGet => request_result "context.get" (json_obj [])
  | CiFileList => request_result "file.list" (json_obj [("path", arg_or_empty "path")])
  | CiFileSearch => request_result "file.search" (json_obj [("query", arg "query")])
  | CiFileRead => request_result "file.read" (json_obj [("path", arg "path")])
  | CiFileCreate =>
      request_result "file.create" (json_obj [("path", arg "path"); ("content", arg_or_empty "content")])
  | CiFileWrite =>
      request_result "file.write" (json_obj [("path", arg "path"); ("content", arg "content")])
  | CiFileRename => request_result "file.rename" (json_obj [("from", arg "from"); ("to", arg "to")])
  | CiFileMove => request_result "file.move" (json_obj [("from", arg "from"); ("to", arg "to")])
  | CiFileDelete => request_result "file.delete" (json_obj [("path", arg "path")])
  | CiSystemInfo => request_result "system.info" (json_obj [])
  | CiSystemResources => request_result "system.resources" (json_obj [])
  | CiSystemUptime => request_result "system.uptime" (json_obj [])
  end.

(** ** planner.rs *)

Inductive ActionStatus := AsSuccess | AsFailed | AsRejected | AsRequiresConsent.

Record ActionResult := mkActionResult {
  ar_capability : CapabilityId;
  ar_arguments : J;
  ar_status : ActionStatus;
  ar_message : string;
  ar_raw_result : option J;
}.

Record PlanResult := mkPlanResult { pr_actions : list ActionResult; pr_summary : string; pr_ok : bool }.

Definition is_success (s : ActionStatus) : bool := match s with AsSuccess => true | _ => false end.

(** [None] is a panic of the parser. *)
Definition plan_with_file (text : string) (ctx : SystemContext) (last_app last_file : option string) :
    option (option (list (Intent J))) :=
  intents ← parse_intents_with_file text ctx last_app last_file;
  Some (match intents with [] => None | _ => Some (take 8 intents) end).

Definition planner_recovery_policy (c : CapabilityId) : RecoveryPolicy :=
  match c with
  | CiWindowList | CiWindowFocus | CiWindowMinimize | CiWindowMaximize | CiWindowClose | CiWindowRestore
  | CiAppList | CiAppStatus | CiSystemStatus | CiSystemInfo | CiSystemResources | CiSystemUptime
  | CiContextGet | CiFileList | CiFileSearch | CiFileRead => transient_default
  | _ => mkRecoveryPolicy 1 50 1000 None
  end.

Definition contains_any (l : list string) (s : string) : bool := existsb (λ p, str_contains_from p s) l.

Definition classify_failure (err : string) : FailureKind :=
  let lower := to_ascii_lowercase err in
  if contains_any ["connect"; "timeout"; "timed out"; "temporarily"; "unavailable"; "service unavailable"] lower
  then FkTransient
  else if contains_any ["not_found"; "not found"; "unknown"; "denied"; "rejected"; "approval";
                        "requires consent"] lower
  then FkPermanent
  else FkUnknown.

Definition precheck (i : Intent J) (ctx : SystemContext) : option (bool * string) :=
  let app := arg_text (in_arguments i) "app" in
  let named := negb (str_is_empty app) in
  match in_capability i with
  | CiWindowFocus | CiWindowMinimize | CiWindowMaximize | CiWindowClose | CiWindowRestore =>
      if named && (match window_for_app ctx app with None => true | Some _ => false end)
         && negb (ctx_is_running ctx app)
      then Some (false, "WINDOW NOT FOUND - no window for '" +:+ app +:+ "'")
      else None
  | CiAppLaunch =>
      if named && negb (ctx_is_installed ctx app)
      then Some (false, "APPLICATION NOT FOUND - '" +:+ app +:+ "' is not installed")
      else if ctx_is_running ctx app
      then Some (false, "ALREADY RUNNING - '" +:+ app +:+ "' is already open")
      else None
  | _ => None
  end.

Definition friendly_error (raw : string) : string :=
  let lower := to_ascii_lowercase raw in
  if contains_any ["not_found"; "unknown"; "no such window"; "not found"] lower then "NOT FOUND - " +:+ raw
  else if contains_any ["already running"; "already open"] lower then "ALREADY RUNNING - " +:+ raw
  else if contains_any ["unknown_capability"] lower then "UNKNOWN CAPABILITY - " +:+ raw
  else if contains_any ["malformed"] lower then "INVALID REQUEST - " +:+ raw
  else if contains_any ["approval_required"; "requires confirmation"] lower
  then "REQUIRES CONFIRMATION - " +:+ raw
  else if contains_any ["connect"; "timeout"; "service unavailable"] lower
  then "SERVICE UNAVAILABLE - " +:+ raw
  else "ACTION FAILED - " +:+ raw.

Definition status_mark (s : ActionStatus) : string :=
  match s with AsSuccess => "✓" | AsFailed => "✗" | AsRejected => "⛔" | AsRequiresConsent => "⏳" end.

Definition build_summary (actions : list ActionResult) : string :=
  match actions with
  | [] => "NO ACTIONS PERFORMED"
  | [a] => ar_message a
  | _ => str_join line_feed
           ((λ a, status_mark (ar_status a) +:+ " " +:+
                  to_ascii_uppercase (CapabilityId_as_str (ar_capability a)) +:+ ": " +:+ ar_message a)
              <$> actions)
  end.

(** The retry loop; the fuel is more than the retries the policy allows. *)
Fixpoint attempt_loop (fuel : nat) (attempt : N) (policy : RecoveryPolicy)
    (act : Net E J (result J string)) : Net E J (option (result J string)) :=
  match fuel with
  | 0 => mret None
  | S fuel =>
      r ← act;
      match r with
      | Ok v => mret (Some (Ok v))
      | Err e =>
          match decide_recovery policy attempt (classify_failure e) false with
          | None => mret None
          | Some RaRetry => attempt_loop fuel (attempt + 1) policy act
          | Some _ => mret (Some (Err e))
          end
      end
  end.

(** What is decided about an intent before anything is sent: its result, when
    it is not executed. *)
Definition refusal (i : Intent J) (ctx : SystemContext) : option (ActionStatus * string) :=
  match validate i with
  | Err rejection => Some (AsRejected, "REQUEST REJECTED - " +:+ rejection)
  | Ok _ =>
      match ConfirmationPolicy_decide (CapabilityId_capability (in_capability i)) with
      | Denied reason => Some (AsRejected, "DENIED - " +:+ reason)
      | RequiresConsent reason => Some (AsRequiresConsent, "REQUIRES CONFIRMATION - " +:+ reason)
      | AutoExecute =>
          match precheck i ctx with
          | Some (false, message) => Some (AsFailed, message)
          | _ => None
          end
      end
  end.

Definition execute_one (i : Intent J) (ctx : SystemContext) : Net E J (option ActionResult) :=
  let result status message raw :=
    mkActionResult (in_capability i) (in_arguments i) status message raw in
  match refusal i ctx with
  | Some (status, message) => mret (Some (result status message None))
  | None =>
      let policy := planner_recovery_policy (in_capability i) in
      r ← attempt_loop (S (N.to_nat (rec_max_retries policy))) 1 policy (execute_extended i);
      mret (match r with
            | None => None
            | Some (Ok v) => Some (result AsSuccess (format_result (in_capability i) v) (Some v))
            | Some (Err e) => Some (result AsFailed (friendly_error e) None)
            end)
  end.

(** The loop over the intents stops at the first that does not succeed. *)
Fixpoint execute_all (intents : list (Intent J)) (ctx : SystemContext) : Net E J (option (list ActionResult)) :=
  match intents with
  | [] => mret (Some [])
  | i :: intents =>
      r ← execute_one i ctx;
      match r with
      | None => mret None
      | Some a =>
          if is_success (ar_status a) then
            rest ← execute_all intents ctx;
            mret (match rest with Some l => Some (a :: l) | None => None end)
          else mret (Some [a])
      end
  end.

Definition planner_execute (intents : list (Intent J)) (ctx : SystemContext) : Net E J (option PlanResult) :=
  r ← execute_all intents ctx;
  mret (match r with
        | None => None
        | Some actions =>
            Some (mkPlanResult actions (build_summary actions)
              (match actions with [] => false | _ => forallb (λ a, is_success (ar_status a)) actions end))
        end).
End planner.

(** * What the planner sends

    Theorems about [Planner]: whatever the intents, the services and the
    answers are, what is sent belongs to an intent that passed validation,
    confirmation and precheck. *)

(** ** Computations and what they send *)

Section emits.
Context {E J : Type}.
Implicit Types P : N * WireMessage J → Prop.

(** At most [n] messages are sent, all of them in [P]. *)
Definition emits {A} P (n : nat) (m : Net E J A) : Prop := ∀ w,
  ∃ msgs, wire_log (m w).1 = wire_log w ++ msgs ∧ Forall P msgs ∧ length msgs ≤ n.

Lemma emits_ret {A} P (a : A) : emits P 0 (mret a).
Proof. intros w. exists []. by rewrite app_nil_r. Qed.

Lemma emits_mono {A} P n n' (m : Net E J A) : n ≤ n' → emits P n m → emits P n' m.
Proof. intros Hn Hm w. destruct (Hm w) as (l & ? & ? & ?). exists l. split_and!; [done|done|lia]. Qed.

Lemma emits_bind {A B} P n k (m : Net E J A) (f : A → Net E J B) :
  emits P n m → (∀ a, emits P k (f a)) → emits P (n + k) (m ≫= f).
Proof.
  intros Hm Hf w. destruct (Hm w) as (l1 & E1 & F1 & L1). unfold mbind, Net_bind.
  destruct (m w) as [w1 a]. simpl in E1. destruct (Hf a w1) as (l2 & E2 & F2 & L2).
  exists (l1 ++ l2). rewrite E2, E1, app_assoc, length_app. split_and!; [done|by apply Forall_app|lia].
Qed.
End emits.

Section props.
Context {E J : Type} `{!WireEnv E} `{!JsonOps J} `{!JsonParse J} `{!ResponseParse J} `{!Unicode}.
Variables control_port surface_port : N.
Implicit Types (i : Intent J) (ctx : SystemContext).

Definition command_of (c : CapabilityId) : string :=
  match c with CiSystemStatus => "status" | c => CapabilityId_as_str c end.

Definition is_window (c : CapabilityId) : bool :=
  match c with
  | CiWindowList | CiWindowFocus | CiWindowMinimize | CiWindowMaximize | CiWindowClose
  | CiWindowRestore => true
  | _ => false
  end.

(** A message that carries out an intent. *)
Definition about i (m : N * WireMessage J) : Prop :=
  match m with
  | (port, ToControl req) => port = control_port ∧ req_command req = command_of (in_capability i)
  | (port, ToSurface _) => port = surface_port ∧ is_window (in_capability i) = true
  | (_, Query _) => False
  end.

Lemma client_request_emits (P : N * WireMessage J → Prop) r :
  P (control_port, ToControl r) → emits P 1 (client_request control_port r).
Proof.
  intros HP w. unfold client_request. destruct (wire_call _ _ _) as [a e]. simpl.
  eexists. split_and!; [done|by constructor|done].
Qed.

Lemma surface_call_emits (P : N * WireMessage J → Prop) v :
  P (surface_port, ToSurface v) → emits P 1 (surface_call surface_port v).
Proof.
  intros HP w. unfold surface_call. destruct (wire_surface _ _ _) as [a e]. simpl.
  eexists. split_and!; [done|by constructor|done].
Qed.

Lemma request_result_emits P command params :
  P (control_port, ToControl (control_request command params)) →
  emits P 1 (request_result control_port command params).
Proof.
  intros HP. apply (emits_bind P 1 0); [by apply client_request_emits|]. intros r. apply emits_ret.
Qed.

Lemma control_or_surface_emits P command params surface n :
  P (control_port, ToControl (control_request command params)) → emits P n surface →
  emits P (1 + n) (control_or_surface control_port command params surface).
Proof.
  intros HP Hs. apply emits_bind; [by apply client_request_emits|]. intros [resp|e]; [|done].
  destruct (resp_ok resp); [|done]. eapply emits_mono, emits_ret. lia.
Qed.

Lemma window_by_name_emits (P : N * WireMessage J → Prop) op app :
  (∀ v, P (surface_port, ToSurface v)) → emits P 2 (window_by_name surface_port op app None).
Proof.
  intros HP. apply (emits_bind P 1 1); [by apply surface_call_emits|]. intros [v|e].
  - destruct (window_named _ _); [by apply surface_call_emits|eapply emits_mono, emits_ret; lia].
  - eapply emits_mono, emits_ret. lia.
Qed.

Lemma execute_extended_emits i : emits (about i) 3 (execute_extended control_port surface_port i).
Proof.
  destruct i as [c args]. unfold execute_extended. simpl.
  destruct c; try (apply (emits_mono _ 1); [lia|apply request_result_emits; done]);
    first [apply (control_or_surface_emits _ _ _ _ 2); [done|by apply window_by_name_emits]
          |apply (emits_mono _ (1 + 1)); [lia|]; apply control_or_surface_emits; [done|by apply surface_call_emits]].
Qed.

(** ** Retries *)

Lemma attempt_loop_emits P n fuel attempt policy (act : Net E J (result J string)) :
  emits P n act → emits P (fuel * n) (attempt_loop fuel attempt policy act).
Proof.
  intros Ha. revert attempt. induction fuel as [|fuel IH]; intros attempt; [apply emits_ret|].
  cbn [attempt_loop]. apply emits_bind; [done|]. intros [v|e]; [eapply emits_mono, emits_ret; lia|].
  destruct (decide_recovery _ _ _ _) as [[]|]; [apply IH|eapply emits_mono, emits_ret; lia..].
Qed.

Lemma attempt_loop_returns fuel attempt policy (act : Net E J (result J string)) w :
  (0 < attempt)%N → 0 < fuel → (rec_max_retries policy + 2 ≤ attempt + N.of_nat fuel)%N →
  is_Some (attempt_loop fuel attempt policy act w).2.
Proof.
  revert attempt w. induction fuel as [|fuel IH]; intros attempt w Ha Hf Hm; [lia|].
  cbn [attempt_loop]. unfold mbind, Net_bind. destruct (act w) as [w1 [v|e]]; [by eexists|].
  unfold decide_recovery. destruct (N.eqb_spec attempt 0) as [->|_]; [lia|].
  destruct (N.ltb_spec (rec_max_retries policy) attempt); [by eexists|].
  destruct (classify_failure e); [apply IH; lia|by eexists|].
  destruct (1 <? attempt)%N; [by eexists|apply IH; lia].
Qed.

(** ** One intent *)

Lemma refusal_delete i ctx : in_capability i = CiFileDelete → is_Some (refusal i ctx).
Proof. intros Hc. unfold refusal. rewrite Hc. simpl. destruct (validate i); by eexists. Qed.

Lemma execute_one_emits i ctx :
  emits (λ m, refusal i ctx = None ∧ about i m) 12 (execute_one control_port surface_port i ctx).
Proof.
  unfold execute_one. destruct (refusal i ctx) as [[s m]|]; [eapply emits_mono, emits_ret; lia|].
  apply (emits_mono _ (S (N.to_nat (rec_max_retries (planner_recovery_policy (in_capability i)))) * 3 + 0)).
  { by destruct (in_capability i); vm_compute; lia. }
  apply emits_bind; [|intros r; apply emits_ret]. apply attempt_loop_emits.
  intros w. destruct (execute_extended_emits i w) as (l & El & Fl & Ll). exists l. split_and!; [done| |done].
  eapply Forall_impl; [exact Fl|]. intros m Hm. by split.
Qed.

Lemma execute_one_returns i ctx w :
  ∃ a, (execute_one control_port surface_port i ctx w).2 = Some a ∧ ar_capability a = in_capability i.
Proof.
  unfold execute_one. destruct (refusal i ctx) as [[s m]|]; [by eexists|].
  unfold mbind, Net_bind. destruct (attempt_loop_returns
    (S (N.to_nat (rec_max_retries (planner_recovery_policy (in_capability i))))) 1
    (planner_recovery_policy (in_capability i)) (execute_extended control_port surface_port i) w)
    as [r Hr]; [lia..|].
  destruct (attempt_loop _ _ _ _ _) as [w1 o]. simpl in Hr. subst o. destruct r; by eexists.
Qed.

(** ** A plan *)

Definition all_but_last_succeed (actions : list (ActionResult (J := J))) : Prop :=
  ∀ l a, actions = l ++ [a] → Forall (λ b, is_success (ar_status b) = true) l.

Lemma execute_all_spec intents ctx w :
  ∃ actions, (execute_all control_port surface_port intents ctx w).2 = Some actions ∧
    ar_capability <$> actions = in_capability <$> take (length actions) intents ∧
    all_but_last_succeed actions ∧
    (forallb (λ a, is_success (ar_status a)) actions = true → length actions = length intents) ∧
    ∃ msgs, wire_log (execute_all control_port surface_port intents ctx w).1 = wire_log w ++ msgs ∧
      Forall (λ m, ∃ i, i ∈ intents ∧ refusal i ctx = None ∧ about i m) msgs ∧
      length msgs ≤ 12 * length intents.
Proof.
  revert w. induction intents as [|i intents IH]; intros w; cbn [execute_all].
  { exists []. split_and!; [done|done|by intros [] ? ?|done|]. exists []. by rewrite app_nil_r. }
  unfold mbind, Net_bind. destruct (execute_one_returns i ctx w) as (a & Ha & Hcap).
  destruct (execute_one_emits i ctx w) as (m1 & E1 & F1 & L1).
  destruct (execute_one control_port surface_port i ctx w) as [w1 o]. simpl in *. subst o.
  assert (Forall (λ m, ∃ i', i' ∈ i :: intents ∧ refusal i' ctx = None ∧ about i' m) m1) as F1'.
  { eapply Forall_impl; [exact F1|]. intros m Hm. exists i. split; [set_solver|done]. }
  destruct (is_success (ar_status a)) eqn:Hs.
  - destruct (IH w1) as (actions & Hr & Hcaps & Hall & Hok & m2 & E2 & F2 & L2).
    destruct (execute_all control_port surface_port intents ctx w1) as [w2 o]. simpl in *. subst o.
    exists (a :: actions). split_and!; [done|by rewrite fmap_cons, Hcap, Hcaps| | |].
    + intros l b Eq. destruct l as [|c l]; [constructor|]. injection Eq as -> Eq. constructor; [done|].
      by apply (Hall l b).
    + simpl. rewrite Hs. simpl. intros Hf. by rewrite (Hok Hf).
    + exists (m1 ++ m2). rewrite E2, E1, app_assoc, length_app. split_and!; [done| |simpl; lia].
      apply Forall_app. split; [done|]. eapply Forall_impl; [exact F2|].
      intros m (i' & Hi & Hm). exists i'. split; [set_solver|done].
  - exists [a]. split_and!; [done|by rewrite fmap_cons, Hcap| | |].
    + intros l b Eq. destruct l as [|? [|]]; [constructor|done..].
    + simpl. by rewrite Hs.
    + exists m1. split_and!; [done|done|simpl; lia].
Qed.

(** C16: whatever the intents, the services and their answers are, the planner
    returns a result, and stops at the first action that does not succeed: the
    actions it reports are those of the first intents in order, all but the
    last of them successful.  Every message it sends carries out one of the
    intents, and that intent was valid, needs no confirmation and passed the
    precheck; an intent causes at most twelve messages, and a file is never
    deleted.  A plan is reported as done only if there was something to do and
    all of it was done. *)
Theorem planner_acts_only_on_cleared_intents intents ctx w :
  ∃ w' plan msgs, planner_execute control_port surface_port intents ctx w = (w', Some plan) ∧
    wire_log w' = wire_log w ++ msgs ∧
    ar_capability <$> pr_actions plan = in_capability <$> take (length (pr_actions plan)) intents ∧
    all_but_last_succeed (pr_actions plan) ∧
    Forall (λ m, ∃ i, i ∈ intents ∧ refusal i ctx = None ∧ about i m) msgs ∧
    length msgs ≤ 12 * length intents ∧
    (∀ port req, (port, ToControl req) ∈ msgs → req_command req ≠ "file.delete") ∧
    (pr_ok plan = true → intents ≠ [] ∧ length (pr_actions plan) = length intents ∧
       Forall (λ a, is_success (ar_status a) = true) (pr_actions plan)).
Proof.
  unfold planner_execute, mbind, Net_bind.
  destruct (execute_all_spec intents ctx w) as (actions & Hr & Hcaps & Hall & Hok & msgs & El & Fl & Ll).
  destruct (execute_all control_port surface_port intents ctx w) as [w' o]. simpl in *. subst o.
  eexists _, _, msgs. split_and!; try done.
  - intros port req Hin Hd. rewrite Forall_forall in Fl. destruct (Fl _ Hin) as (i & _ & Hi & _ & Hc).
    destruct (decide (in_capability i = CiFileDelete)) as [Hdel|Hdel].
    + apply (refusal_delete i ctx) in Hdel as [x Hx]. congruence.
    + rewrite Hd in Hc. by destruct (in_capability i).
  - simpl. destruct actions as [|a actions]; [done|]. intros Hf. specialize (Hok Hf). split_and!.
    + by intros ->.
    + done.
    + apply Forall_forall. intros b Hb. rewrite forallb_forall in Hf. apply Hf. by apply list_elem_of_In.
Qed.
End props.
