(* ===== verification/RuntimeLog.v ===== *)
(** * The audit log and the memory of the agent runtime

    Models agent/aether-agent-runtime/src: audit.rs and memory.rs.  The time of
    an entry, read from the clock, is an argument.  [None] is a panic: cutting a
    string inside a character. *)
From S2P Require Import Prelude RustStd Text.
From Stdlib Require Import Ascii.

(** ** audit.rs *)

Inductive AuditEventType :=
| EvSessionCreated | EvSessionStarted | EvSessionCompleted | EvSessionFailed
| EvSessionCancelled | EvIntentCreated | EvPlanCreated | EvActionRequested
| EvActionApproved | EvActionDenied | EvActionStarted | EvActionCompleted
| EvActionFailed | EvCapabilityCheck | EvPolicyCheck | EvApprovalRequested
| EvApprovalGranted | EvApprovalDenied | EvLlmRequest | EvLlmResponse.

Definition AuditEventType_to_string (e : AuditEventType) : string :=
  match e with
  | EvSessionCreated => "session.created" | EvSessionStarted => "session.started"
  | EvSessionCompleted => "session.completed" | EvSessionFailed => "session.failed"
  | EvSessionCancelled => "session.cancelled" | EvIntentCreated => "intent.created"
  | EvPlanCreated => "plan.created" | EvActionRequested => "action.requested"
  | EvActionApproved => "action.approved" | EvActionDenied => "action.denied"
  | EvActionStarted => "action.started" | EvActionCompleted => "action.completed"
  | EvActionFailed => "action.failed" | EvCapabilityCheck => "capability.check"
  | EvPolicyCheck => "policy.check" | EvApprovalRequested => "approval.requested"
  | EvApprovalGranted => "approval.granted" | EvApprovalDenied => "approval.denied"
  | EvLlmRequest => "llm.request" | EvLlmResponse => "llm.response"
  end.

Record RtAuditEntry := mkRtAuditEntry {
  rae_timestamp : N;
  rae_session_id : string;
  rae_event_type : AuditEventType;
  rae_detail : string;
  rae_success : bool;
  rae_component : string;
}.

Record AuditLog := mkAuditLog { al_entries : list RtAuditEntry; al_capacity : nat }.

Definition AuditLog_new (capacity : nat) : AuditLog := mkAuditLog [] capacity.

(** *** Redaction *)

Abbreviation chars := (list ascii).

Definition chars_of (s : string) : chars := String.list_ascii_of_string s.
Definition string_of (l : chars) : string := String.string_of_list_ascii l.

Definition sensitive_keys : list chars :=
  chars_of <$> ["password"; "token"; "api_key"; "secret"; "key"; "credential"].

Definition REDACTED : chars := chars_of "[REDACTED]".

Definition is_delimiter (c : ascii) : bool :=
  Ascii.eqb c " " || Ascii.eqb c "," || Ascii.eqb c ")" || Ascii.eqb c (ascii_of_nat 34).

Fixpoint starts_with (pat s : chars) : bool :=
  match pat, s with
  | [], _ => true
  | c :: pat, d :: s => Ascii.eqb c d && starts_with pat s
  | _, _ => false
  end.

(** [find]: what comes before the first occurrence. *)
Fixpoint find_before (pat s : chars) : option chars :=
  if starts_with pat s then Some []
  else match s with
       | [] => None
       | c :: s => (c ::.) <$> find_before pat s
       end.

(** What is left from the first delimiter on. *)
Fixpoint skip_value (s : chars) : chars :=
  match s with
  | [] => []
  | c :: s' => if is_delimiter c then s else skip_value s'
  end.

(** The loop for one key, on the part of the text from [search_from] on: the
    search goes on at the bracket that ends the replacement, since
    [search_from] does not count the equals sign. *)
Fixpoint redact_key (fuel : nat) (key s : chars) : option chars :=
  match fuel with
  | 0 => None
  | S fuel =>
      let pattern := key ++ ["="%char] in
      match find_before pattern s with
      | None => Some s
      | Some before =>
          let value := drop (length before + length pattern) s in
          rest ← redact_key fuel key (drop 9 REDACTED ++ skip_value value);
          Some (before ++ pattern ++ take 9 REDACTED ++ rest)
      end
  end.

Fixpoint redact_keys (keys : list chars) (s : chars) : option chars :=
  match keys with
  | [] => Some s
  | key :: keys => s ← redact_key (S (length s)) key s; redact_keys keys s
  end.

Definition redact_sensitive (s : string) : option string :=
  string_of <$> redact_keys sensitive_keys (chars_of s).

Definition sanitize_detail (detail : string) : option string :=
  if (500 <? String.length detail)%nat then
    if is_char_boundary detail 497
    then redact_sensitive (String.substring 0 497 detail +:+ "...")
    else None
  else redact_sensitive detail.

Definition pop_front_full {A} (capacity : nat) (l : list A) : list A :=
  if (capacity <=? length l)%nat then tail l else l.

Definition AuditLog_record (now : N) (session_id : string) (event_type : AuditEventType)
    (detail : string) (success : bool) (component : string) (log : AuditLog) : option AuditLog :=
  detail ← sanitize_detail detail;
  Some (mkAuditLog
          (pop_front_full (al_capacity log) (al_entries log) ++
           [mkRtAuditEntry now session_id event_type detail success component])
          (al_capacity log)).

Definition log_recent (count : nat) (log : AuditLog) : list RtAuditEntry :=
  take count (reverse (al_entries log)).

Definition log_for_session (session_id : string) (log : AuditLog) : list RtAuditEntry :=
  List.filter (λ e, (rae_session_id e =? session_id)%string) (al_entries log).

Definition snapshot_recent (count : nat) (log : AuditLog) : list RtAuditEntry :=
  let n := Nat.min count (length (al_entries log)) in
  reverse (take n (reverse (al_entries log))).

Definition restore_recent (entries : list RtAuditEntry) (log : AuditLog) : AuditLog * nat :=
  let entries :=
    if (al_capacity log <? length entries)%nat
    then drop (length entries - al_capacity log) entries else entries in
  (mkAuditLog entries (al_capacity log), length entries).

(** ** memory.rs *)

Inductive MemoryRole := MrUser | MrAgent | MrSystem | MrTool.

Record MemoryEntry := mkMemoryEntry {
  me_role : MemoryRole;
  me_content : string;
  me_timestamp : N;
}.

Record ConversationMemory := mkConversationMemory {
  cm_entries : list MemoryEntry;
  cm_capacity : nat;
}.

Definition ConversationMemory_new (capacity : nat) : ConversationMemory :=
  mkConversationMemory [] capacity.

Definition memory_add (now : N) (role : MemoryRole) (content : string) (m : ConversationMemory) :
    ConversationMemory :=
  mkConversationMemory
    (pop_front_full (cm_capacity m) (cm_entries m) ++ [mkMemoryEntry role content now])
    (cm_capacity m).

Definition memory_clear (m : ConversationMemory) : ConversationMemory :=
  mkConversationMemory [] (cm_capacity m).

Definition MemoryRole_tag (r : MemoryRole) : string :=
  match r with MrUser => "USER" | MrAgent => "AGENT" | MrSystem => "SYSTEM" | MrTool => "TOOL" end.

Definition as_context (m : ConversationMemory) : string :=
  String.concat (String (ascii_of_nat 10) EmptyString)
    ((λ e, "[" +:+ MemoryRole_tag (me_role e) +:+ "] " +:+ me_content e) <$> cm_entries m).

Record SessionMemory := mkSessionMemory {
  sm_conversation : ConversationMemory;
  sm_working : gmap string string;
}.

Definition SessionMemory_new : SessionMemory := mkSessionMemory (ConversationMemory_new 32) ∅.
Definition memory_store (k v : string) (m : SessionMemory) : SessionMemory :=
  mkSessionMemory (sm_conversation m) (<[k := v]> (sm_working m)).
Definition memory_retrieve (k : string) (m : SessionMemory) : option string := sm_working m !! k.
Definition memory_remove (k : string) (m : SessionMemory) : SessionMemory * bool :=
  (mkSessionMemory (sm_conversation m) (delete k (sm_working m)),
   bool_decide (is_Some (sm_working m !! k))).
Definition clear_working (m : SessionMemory) : SessionMemory := mkSessionMemory (sm_conversation m) ∅.

(** * Properties *)

(** ** Redaction *)

Definition occurs (pat s : chars) (n : nat) : Prop :=
  ∀ i c, pat !! i = Some c → s !! (n + i) = Some c.

(** Every occurrence of the key with its equals sign is followed by the mark. *)
Definition redacted (pat s : chars) : Prop := ∀ n, occurs pat s n → occurs (pat ++ REDACTED) s n.

(** What the proofs need of a pattern. *)
Definition pattern_ok (pat : chars) : Prop := 2 ≤ length pat ∧ ∀ c, c ∈ pat → c ∉ REDACTED.

Lemma starts_with_spec pat s : starts_with pat s = true ↔ occurs pat s 0.
Proof.
  revert s. induction pat as [|c pat IH]; intros s; simpl; [split; [by intros _ [|i] c|done]|].
  destruct s as [|d s]; [split; [done|]; intros H; by specialize (H 0 c eq_refl)|].
  rewrite andb_true_iff, Ascii.eqb_eq, IH. split.
  - intros [-> H] [|i] c'; simpl; [done|]. apply H.
  - intros H. split; [by injection (H 0 c eq_refl)|]. intros i c' Hi. by apply (H (S i) c').
Qed.

Lemma occurs_tail pat c s n : occurs pat (c :: s) (S n) ↔ occurs pat s n.
Proof. done. Qed.

Lemma find_before_Some pat s b :
  find_before pat s = Some b →
  s = b ++ pat ++ drop (length b + length pat) s ∧ ∀ n, occurs pat s n → length b ≤ n.
Proof.
  revert b. induction s as [|c s IH]; intros b; simpl.
  - destruct (starts_with pat []) eqn:E; [|done]. intros [= <-]. simpl. split; [|lia].
    by destruct pat.
  - destruct (starts_with pat (c :: s)) eqn:E.
    + intros [= <-]. split; [|simpl; lia]. apply starts_with_spec in E.
      simpl. rewrite <-(take_drop (length pat) (c :: s)) at 1. f_equal.
      apply list_eq. intros i. destruct (decide (i < length pat)) as [Hi|Hi].
      * rewrite lookup_take_lt by done. apply lookup_lt_is_Some in Hi as [x Hx].
        rewrite Hx. by rewrite <-(E i x Hx).
      * rewrite lookup_take_ge, lookup_ge_None_2 by lia. done.
    + destruct (find_before pat s) as [b'|] eqn:Eb; [|done]. intros [= <-].
      destruct (IH b' eq_refl) as [H1 H2]. split; [simpl; by f_equal|].
      intros [|n] Hn; [|simpl; apply le_n_S, H2, Hn].
      apply starts_with_spec in Hn. congruence.
Qed.

Lemma find_before_None pat s n : find_before pat s = None → 0 < length pat → ¬ occurs pat s n.
Proof.
  revert n. induction s as [|c s IH]; intros n; simpl.
  - intros _ Hp Ho. apply lookup_lt_is_Some in Hp as [x Hx]. by specialize (Ho 0 x Hx).
  - destruct (starts_with pat (c :: s)) eqn:E; [done|].
    destruct (find_before pat s) eqn:Eb; [done|]. intros _ Hp Ho.
    destruct n as [|n]; [apply starts_with_spec in Ho; congruence|]. by apply (IH n).
Qed.

Lemma skip_value_drop s : ∃ k, skip_value s = drop k s.
Proof.
  induction s as [|c s [k IH]]; simpl; [by exists 0|]. destruct (is_delimiter c); [by exists 0|].
  by exists (S k).
Qed.

Lemma lookup_redacted j : j < 10 → ∃ c, REDACTED !! j = Some c ∧ c ∈ REDACTED.
Proof.
  intros Hj. destruct (REDACTED !! j) as [c|] eqn:E.
  - exists c. split; [done|]. by eapply list_elem_of_lookup_2.
  - apply lookup_ge_None in E. change (length REDACTED) with 10 in E. lia.
Qed.

Lemma redact_key_total fuel key s :
  0 < length key → length s < fuel → ∃ out, redact_key fuel key s = Some out.
Proof.
  intros Hk. revert s. induction fuel as [|fuel IH]; intros s Hs; [lia|]. simpl.
  destruct (find_before _ s) as [b|] eqn:E; [|by eexists].
  apply find_before_Some in E as [E _]. destruct (IH (drop 9 REDACTED ++
    skip_value (drop (length b + length (key ++ ["="%char])) s))) as [out Hout].
  - destruct (skip_value_drop (drop (length b + length (key ++ ["="%char])) s)) as [k ->].
    rewrite length_app, !length_drop, length_app. change (length REDACTED) with 10. simpl.
    apply (f_equal length) in E. rewrite !length_app in E. simpl in E. lia.
  - simpl in Hout. simpl. rewrite Hout. by eexists.
Qed.

(** The first character stays when it is none of a pattern's. *)
Lemma redact_key_head fuel key s c out :
  redact_key fuel key (c :: s) = Some out → c ∉ key ++ ["="%char] → ∃ out', out = c :: out'.
Proof.
  destruct fuel as [|fuel]; [done|]. intros H Hc. cbn [redact_key] in H.
  destruct (find_before _ (c :: s)) as [b|] eqn:E; [|simplify_eq; by eexists].
  apply find_before_Some in E as [E _]. cbn zeta in H.
  destruct (redact_key fuel _ _); [|done]. injection H as <-. destruct b as [|c' b]; simplify_eq/=; [|by eexists].
  destruct Hc. destruct key; simplify_eq/=; set_solver.
Qed.

(** One replacement: an occurrence of [q] in the new text starts in the rest,
    ends with the key that was replaced, or lies before it. *)
Lemma replaced_occurs q b pat out n :
  pattern_ok q → occurs q (b ++ pat ++ take 9 REDACTED ++ out) n →
  (length b + length pat + 9 ≤ n ∧ occurs q out (n - (length b + length pat + 9))) ∨
  n + length q ≤ length b + length pat.
Proof.
  intros [Hl Hq] Ho. destruct (decide (length b + length pat + 9 ≤ n)) as [Hn|Hn].
  { left. split; [done|]. intros i c Hi. specialize (Ho i c Hi).
    rewrite !lookup_app_r in Ho by (rewrite ?length_take; change (length REDACTED) with 10; lia).
    rewrite <-Ho. f_equal. rewrite length_take. change (length REDACTED) with 10. lia. }
  right. destruct (decide (n + length q ≤ length b + length pat)) as [|Hc]; [done|].
  assert (∃ i, i < length q ∧ length b + length pat ≤ n + i < length b + length pat + 9)
    as (i & Hi & Hr).
  { destruct (decide (length b + length pat ≤ n)); [exists 0; lia|].
    exists (length b + length pat - n). lia. }
  apply lookup_lt_is_Some in Hi as [c Hi]. specialize (Ho i c Hi).
  rewrite lookup_app_r, lookup_app_r, lookup_app_l in Ho
    by (rewrite ?length_take; change (length REDACTED) with 10; lia).
  rewrite lookup_take_lt in Ho by lia. destruct (Hq c); [by eapply list_elem_of_lookup_2|].
  by eapply list_elem_of_lookup_2.
Qed.

(** Before the replaced key the text is unchanged. *)
Lemma replaced_prefix q b pat out rest n :
  occurs q (b ++ pat ++ out) n → n + length q ≤ length b + length pat → occurs q (b ++ pat ++ rest) n.
Proof.
  intros Ho Hn i c Hi. specialize (Ho i c Hi). pose proof (lookup_lt_Some _ _ _ Hi).
  rewrite !app_assoc in *. rewrite lookup_app_l in * by (rewrite length_app; lia). done.
Qed.

Lemma occurs_app q r s n : occurs (q ++ r) s n ↔ occurs q s n ∧ occurs r s (n + length q).
Proof.
  split.
  - intros H. split; intros i c Hi.
    + apply H. by rewrite lookup_app_l by by eapply lookup_lt_Some.
    + rewrite <-Nat.add_assoc. apply H. rewrite lookup_app_r by lia. by rewrite Nat.add_comm, Nat.add_sub.
  - intros [H1 H2] i c Hi. apply lookup_app_Some in Hi as [Hi|[Hl Hi]]; [by apply H1|].
    specialize (H2 _ _ Hi). rewrite <-H2. f_equal. lia.
Qed.

(** The mark right after the replaced key. *)
Lemma replaced_mark b pat out' :
  occurs REDACTED (b ++ pat ++ take 9 REDACTED ++ "]"%char :: out') (length b + length pat).
Proof.
  intros i c Hi. rewrite !app_assoc, <-app_assoc, lookup_app_r; rewrite length_app; [|lia].
  replace (length b + length pat + i - (length b + length pat)) with i by lia.
  change (take 9 REDACTED ++ "]"%char :: out') with (REDACTED ++ out').
  rewrite lookup_app_l; [done|]. by eapply lookup_lt_Some.
Qed.

Lemma redact_step fuel key s out b :
  pattern_ok (key ++ ["="%char]) →
  find_before (key ++ ["="%char]) s = Some b → redact_key (S fuel) key s = Some out →
  ∃ out', redact_key fuel key ("]"%char :: skip_value (drop (length b + length (key ++ ["="%char])) s))
    = Some ("]"%char :: out') ∧
    out = b ++ (key ++ ["="%char]) ++ take 9 REDACTED ++ "]"%char :: out'.
Proof.
  intros Hok E H. cbn [redact_key] in H. rewrite E in H. cbn zeta in H.
  change (drop 9 REDACTED) with ["]"%char] in H. cbn [app] in H.
  destruct (redact_key fuel _ _) as [rest|] eqn:Er; [|done]. injection H as <-.
  destruct (redact_key_head _ _ _ _ _ Er) as [out' ->].
  { intros Hc. apply (proj2 Hok) in Hc. destruct Hc. by apply (list_elem_of_lookup_2 _ 9). }
  exists out'. done.
Qed.

Lemma redact_key_done fuel key s out :
  pattern_ok (key ++ ["="%char]) → redact_key fuel key s = Some out →
  redacted (key ++ ["="%char]) out.
Proof.
  intros Hok. revert s out. induction fuel as [|fuel IH]; intros s out H; [done|].
  destruct (find_before (key ++ ["="%char]) s) as [b|] eqn:E.
  2:{ cbn [redact_key] in H. rewrite E in H. injection H as <-. intros n Hn.
      destruct (find_before_None _ _ n E); [|done]. destruct Hok. lia. }
  destruct (redact_step _ _ _ _ _ Hok E H) as (out' & Hr & ->).
  apply find_before_Some in E as [E Hmin]. intros n Hn.
  destruct (replaced_occurs _ _ _ _ _ Hok Hn) as [[Hge Ho]|Hle].
  - apply (IH _ _ Hr) in Ho. intros i c Hi. specialize (Ho i c Hi).
    rewrite lookup_app_r, lookup_app_r, lookup_app_r
      by (rewrite ?length_take; change (length REDACTED) with 10; lia).
    rewrite <-Ho. f_equal. rewrite length_take. change (length REDACTED) with 10. lia.
  - assert (length b ≤ n) as Hb.
    { apply Hmin. rewrite E. by eapply replaced_prefix. }
    apply occurs_app. split; [done|]. replace n with (length b) in * by lia. apply replaced_mark.
Qed.

Lemma redacted_suffix q s k : pattern_ok q → redacted q s → redacted q ("]"%char :: drop k s).
Proof.
  intros [Hl Hq] H [|n] Hn.
  { destruct q as [|c q]; [simpl in Hl; lia|]. specialize (Hn 0 c eq_refl). injection Hn as <-.
    destruct (Hq "]"%char); [set_solver|]. by apply (list_elem_of_lookup_2 _ 9). }
  assert (∀ r, occurs r ("]"%char :: drop k s) (S n) ↔ occurs r s (k + n)) as Hr.
  { intros r. unfold occurs. simpl. setoid_rewrite lookup_drop. by setoid_rewrite Nat.add_assoc. }
  apply Hr, H. by apply Hr.
Qed.

Lemma redact_key_keeps fuel key q s out :
  pattern_ok (key ++ ["="%char]) → pattern_ok q → redact_key fuel key s = Some out →
  redacted q s → redacted q out.
Proof.
  intros Hok Hq. revert s out. induction fuel as [|fuel IH]; intros s out H Hs; [done|].
  destruct (find_before (key ++ ["="%char]) s) as [b|] eqn:E.
  2:{ cbn [redact_key] in H. rewrite E in H. by injection H as <-. }
  destruct (redact_step _ _ _ _ _ Hok E H) as (out' & Hr & ->).
  apply find_before_Some in E as [E _]. intros n Hn. set (pat := key ++ ["="%char]) in *.
  destruct (replaced_occurs _ _ _ _ _ Hq Hn) as [[Hge Ho]|Hle].
  - apply (IH _ _ Hr) in Ho.
    + intros i c Hi. specialize (Ho i c Hi).
      rewrite lookup_app_r, lookup_app_r, lookup_app_r
        by (rewrite ?length_take; change (length REDACTED) with 10; lia).
      rewrite <-Ho. f_equal. rewrite length_take. change (length REDACTED) with 10. lia.
    + destruct (skip_value_drop (drop (length b + length pat) s)) as [k ->].
      rewrite drop_drop. by apply redacted_suffix.
  - apply occurs_app. split; [done|].
    destruct (decide (n + length q = length b + length pat)) as [->|Hne]; [apply replaced_mark|].
    assert (occurs (q ++ REDACTED) s n) as Ho.
    { apply Hs. rewrite E. by eapply replaced_prefix. }
    apply occurs_app in Ho as [_ Ho]. rewrite E in Ho.
    eapply replaced_prefix; [exact Ho|]. change (length REDACTED) with 10.
    destruct (decide (n + length q + 10 ≤ length b)) as [|Hc]; [lia|].
    exfalso. pose proof (proj1 Hok) as Hl. pose proof (proj1 Hq) as Hlq.
    destruct (decide (length b ≤ n + length q)) as [Hb|Hb].
    { destruct (lookup_redacted 0) as (c & Hc1 & Hc2); [lia|].
      specialize (Ho 0 c Hc1). rewrite lookup_app_r, lookup_app_l in Ho by lia.
      apply (proj2 Hok c); [by eapply list_elem_of_lookup_2|done]. }
    assert (∃ j, n + length q + j = length b ∧ j < 10) as (j & Hj & Hj10)
      by (exists (length b - (n + length q)); lia).
    destruct (lookup_redacted j) as (c & Hc1 & Hc2); [lia|].
    specialize (Ho j c Hc1). rewrite lookup_app_r, lookup_app_l in Ho by lia.
    apply (proj2 Hok c); [by eapply list_elem_of_lookup_2|done].
Qed.

Lemma sensitive_ok key : key ∈ sensitive_keys → pattern_ok (key ++ ["="%char]).
Proof.
  assert (forallb (λ key, (2 <=? length (key ++ ["="%char])) &&
    forallb (λ c, bool_decide (c ∉ REDACTED)) (key ++ ["="%char])) sensitive_keys = true) as H
    by by vm_compute.
  rewrite forallb_forall in H. intros Hk%list_elem_of_In. apply H in Hk.
  apply andb_true_iff in Hk as [H1 H2]. split; [by apply Nat.leb_le|].
  rewrite forallb_forall in H2. intros c Hc%list_elem_of_In. apply H2 in Hc.
  by apply bool_decide_eq_true_1 in Hc.
Qed.

Lemma redact_keys_spec keys s :
  (∀ key, key ∈ keys → pattern_ok (key ++ ["="%char])) →
  ∃ out, redact_keys keys s = Some out ∧
    (∀ key, key ∈ keys → redacted (key ++ ["="%char]) out) ∧
    ∀ q, pattern_ok q → redacted q s → redacted q out.
Proof.
  revert s. induction keys as [|key keys IH]; intros s Hok; cbn [redact_keys].
  { exists s. split_and!; [done|set_solver|done]. }
  pose proof (Hok key) as Hk. destruct (redact_key_total (S (length s)) key s) as [s1 Hs1]; [|lia|].
  { destruct Hk as [Hl _]; [set_solver|]. rewrite length_app in Hl. simpl in Hl. lia. }
  rewrite Hs1. cbn [mbind option_bind]. destruct (IH s1) as (out & -> & Hall & Hkeep); [set_solver|].
  exists out. split_and!; [done| |].
  - intros k [->|Hin]%elem_of_cons; [|by apply Hall]. apply Hkeep; [apply Hk; set_solver|].
    eapply redact_key_done; [|done]. apply Hk. set_solver.
  - intros q Hq Hs. apply Hkeep; [done|]. eapply redact_key_keeps; [|done..]. apply Hk. set_solver.
Qed.

Lemma chars_of_app a b : chars_of (a +:+ b) = chars_of a ++ chars_of b.
Proof. unfold chars_of. induction a as [|c a IH]; simpl; [done|by f_equal]. Qed.

Lemma occurs_middle a b c : occurs b (a ++ b ++ c) (length a).
Proof.
  intros i x Hi. rewrite lookup_app_r by lia. replace (length a + i - length a) with i by lia.
  rewrite lookup_app_l; [done|]. by eapply lookup_lt_Some.
Qed.

Lemma prefix_starts a b : starts_with (chars_of a) (chars_of b) = String.prefix a b.
Proof.
  revert b. induction a as [|c a IH]; intros [|d b]; simpl; try done.
  destruct (ascii_dec c d) as [->|Hne]; [by rewrite Ascii.eqb_refl, IH|].
  by rewrite (proj2 (Ascii.eqb_neq c d)).
Qed.

(** Redaction always returns, and in the text it returns every occurrence
    of a sensitive key followed by an equals sign is followed by the mark, so
    that no value directly after such a key is left, also where one key is part
    of another or a value contains a key. *)
Theorem redaction_complete s :
  ∃ out, redact_sensitive s = Some out ∧
    ∀ key pre post, key ∈ ["password"; "token"; "api_key"; "secret"; "key"; "credential"] →
      out = pre +:+ key +:+ "=" +:+ post → String.prefix "[REDACTED]" post = true.
Proof.
  destruct (redact_keys_spec sensitive_keys (chars_of s) sensitive_ok) as (out & Ho & Hall & _).
  unfold redact_sensitive. rewrite Ho. simpl. eexists. split; [done|]. intros key pre post Hk Hs.
  assert (out = chars_of pre ++ (chars_of key ++ ["="%char]) ++ chars_of post) as ->.
  { apply (f_equal String.list_ascii_of_string) in Hs.
    rewrite String.list_ascii_of_string_of_list_ascii in Hs.
    change (String.list_ascii_of_string (pre +:+ key +:+ "=" +:+ post))
      with (chars_of (pre +:+ key +:+ "=" +:+ post)) in Hs.
    by rewrite Hs, !chars_of_app, <-!app_assoc. }
  assert (chars_of key ∈ sensitive_keys) as Hin by (apply list_elem_of_fmap; eauto).
  specialize (Hall _ Hin _ (occurs_middle _ _ _)). apply occurs_app in Hall as [_ Hall].
  rewrite <-prefix_starts. apply starts_with_spec. intros i c Hi. specialize (Hall i c Hi).
  rewrite !app_assoc, lookup_app_r in Hall by (rewrite !length_app; lia).
  rewrite <-Hall. f_equal. rewrite !length_app. simpl. lia.
Qed.

(** A text whose only equals sign follows another name holds no key. *)
Lemma no_key_here key a b :
  (∀ x, List.last key x ≠ "d"%char) → 0 < length key → "="%char ∉ key →
  "="%char ∉ a → "="%char ∉ b →
  find_before (key ++ ["="%char]) (a ++ "d"%char :: "="%char :: b) = None.
Proof.
  intros Hlast Hl Hk Ha Hb. destruct (find_before _ _) as [p|] eqn:E; [|done]. exfalso.
  apply find_before_Some in E as [E _]. set (rest := drop _ _) in E. clearbody rest.
  rewrite <-app_assoc in E. destruct key as [|c key _] using rev_ind; [simpl in Hl; lia|].
  specialize (Hlast c). rewrite List.last_last in Hlast.
  assert (∀ (l1 l2 k1 k2 : chars) x, l1 ++ x :: l2 = k1 ++ x :: k2 → x ∉ l1 → x ∉ l2 → l1 = k1) as Hsplit.
  { intros l1. induction l1 as [|y l1 IH]; intros l2 [|z k1] k2 x He H1 H2; simplify_eq/=; try done.
    - set_solver.
    - set_solver.
    - f_equal. eapply IH; [done|set_solver|done]. }
  replace (a ++ "d"%char :: "="%char :: b) with ((a ++ ["d"%char]) ++ "="%char :: b) in E
    by by rewrite <-app_assoc.
  replace (p ++ (key ++ [c]) ++ ["="%char] ++ rest) with (((p ++ key) ++ [c]) ++ "="%char :: rest) in E
    by by rewrite <-!app_assoc.
  apply Hsplit in E; [|set_solver|done]. apply app_inj_tail in E as [_ Hc]. by apply Hlast.
Qed.

Ltac by_decide := refine (bool_decide_unpack _ _); vm_compute; exact I.

(** The first key, when a quote follows. *)
Lemma redact_password w c w' :
  w = ascii_of_nat 34 :: w' → c = "="%char → c ∉ w →
  redact_key (S (length (chars_of "password=" ++ w))) (chars_of "password")
    (chars_of "password=" ++ w) = Some (chars_of "password=[REDACTED]" ++ w).
Proof.
  intros Hw -> Hn. cbn [redact_key].
  assert (find_before (chars_of "password" ++ ["="%char]) (chars_of "password=" ++ w) = Some []) as ->
    by done.
  assert (find_before (chars_of "password" ++ ["="%char]) ("]"%char :: w) = None) as Hnone.
  { destruct (find_before _ _) as [p|] eqn:E; [|done]. apply find_before_Some in E as [E _].
    assert ("="%char ∈ "]"%char :: w) as Hin.
    { rewrite E, !elem_of_app. right. left. right. set_solver. }
    by apply elem_of_cons in Hin as [?|?]. }
  change (drop _ (chars_of "password=" ++ w)) with w.
  assert (skip_value w = w) as -> by by rewrite Hw.
  change (drop 9 REDACTED ++ w) with ("]"%char :: w).
  cbn [length]. change (length (chars_of "password=" ++ w)) with (S (8 + length w)).
  cbn [redact_key]. rewrite Hnone. done.
Qed.

Definition quote : string := String (ascii_of_nat 34) EmptyString.

(** A value in quotes is not redacted: the quote ends the value before it
    begins, so the mark is inserted in front of a secret that stays in the
    log. *)
Theorem quoted_secret_stays v :
  "="%char ∉ chars_of v →
  redact_sensitive ("password=" +:+ quote +:+ v +:+ quote) =
  Some ("password=[REDACTED]" +:+ quote +:+ v +:+ quote).
Proof.
  intros Hv. unfold redact_sensitive. rewrite chars_of_app.
  assert (chars_of (quote +:+ v +:+ quote) =
    ascii_of_nat 34 :: (chars_of v ++ [ascii_of_nat 34])) as Hw by by rewrite !chars_of_app.
  set (w := chars_of (quote +:+ v +:+ quote)) in *.
  assert ("="%char ∉ w) as Hnw.
  { rewrite Hw, not_elem_of_cons, not_elem_of_app. split_and!; [done|done|]. by_decide. }
  assert (∀ k, (∀ x, List.last k x ≠ "d"%char) → 0 < length k → "="%char ∉ k →
    redact_key (S (length (chars_of "password=[REDACTED]" ++ w))) k
      (chars_of "password=[REDACTED]" ++ w) = Some (chars_of "password=[REDACTED]" ++ w)) as Hkey.
  { intros k H1 H2 H3. cbn [redact_key].
    change (chars_of "password=[REDACTED]" ++ w) with
      (chars_of "passwor" ++ "d"%char :: "="%char :: (REDACTED ++ w)).
    rewrite (no_key_here k); [done|done..|by_decide|].
    rewrite not_elem_of_app. split; [by_decide|done]. }
  assert (redact_keys sensitive_keys (chars_of "password=" ++ w) =
    Some (chars_of "password=[REDACTED]" ++ w)) as ->.
  { unfold sensitive_keys. cbn [fmap list_fmap redact_keys].
    rewrite (redact_password w _ _ Hw eq_refl Hnw). cbn [mbind option_bind].
    do 5 (rewrite Hkey; [cbn [mbind option_bind]|done|simpl; lia|by_decide]). done. }
  cbn [fmap option_fmap option_map]. f_equal.
  unfold w. rewrite <-chars_of_app. unfold string_of, chars_of.
  apply String.string_of_list_ascii_of_string.
Qed.

Lemma quoted_secret_stays_witness :
  redact_sensitive ("password=" +:+ quote +:+ "hunter2" +:+ quote) =
  Some ("password=[REDACTED]" +:+ quote +:+ "hunter2" +:+ quote).
Proof. apply (quoted_secret_stays "hunter2"). by_decide. Defined.

(** ** The bounded log *)

Record LogCall := mkLogCall {
  lc_now : N;
  lc_session_id : string;
  lc_event_type : AuditEventType;
  lc_detail : string;
  lc_success : bool;
  lc_component : string;
}.

Definition log_call (c : LogCall) (log : AuditLog) : option AuditLog :=
  AuditLog_record (lc_now c) (lc_session_id c) (lc_event_type c) (lc_detail c) (lc_success c)
    (lc_component c) log.

Fixpoint log_calls (l : list LogCall) (log : AuditLog) : option AuditLog :=
  match l with [] => Some log | c :: l => log ← log_call c log; log_calls l log end.

Definition entry_of (c : LogCall) : option RtAuditEntry :=
  detail ← sanitize_detail (lc_detail c);
  Some (mkRtAuditEntry (lc_now c) (lc_session_id c) (lc_event_type c) detail (lc_success c)
          (lc_component c)).

Lemma push_full_suffix {A} cap (x : A) full :
  let keep := Nat.max 1 cap in
  pop_front_full cap (suffix_n keep full) ++ [x] = suffix_n keep (full ++ [x]).
Proof.
  intros keep. assert (keep = Nat.max 1 cap) as Hkeep by done. clearbody keep.
  unfold pop_front_full, suffix_n. rewrite length_drop, length_app. simpl.
  destruct (Nat.leb_spec cap (length full - (length full - keep))) as [H|H].
  - destruct (decide (length full < keep)) as [Hl|Hl].
    + assert (cap = 0 ∧ full = []) as [-> ->] by (destruct full; simpl in *; [split; [lia|done]|exfalso; lia]). by subst.
    + change (tail ?k) with (drop 1 k). rewrite drop_drop, drop_app_le by lia. f_equal. f_equal. lia.
  - replace (length full - keep) with 0 by lia. replace (length full + 1 - keep) with 0 by lia. done.
Qed.

Lemma log_call_entry c log :
  log_call c log =
  x ← entry_of c;
  Some (mkAuditLog (pop_front_full (al_capacity log) (al_entries log) ++ [x]) (al_capacity log)).
Proof. unfold log_call, AuditLog_record, entry_of. by destruct (sanitize_detail _). Qed.

Lemma log_calls_spec l log full es :
  al_entries log = suffix_n (Nat.max 1 (al_capacity log)) full → mapM entry_of l = Some es →
  ∃ log', log_calls l log = Some log' ∧ al_capacity log' = al_capacity log ∧
    al_entries log' = suffix_n (Nat.max 1 (al_capacity log)) (full ++ es).
Proof.
  revert log full es. induction l as [|c l IH]; intros log full es Hf; simpl.
  { intros [= <-]. exists log. by rewrite app_nil_r. }
  rewrite log_call_entry. destruct (entry_of c) as [x|] eqn:E; simpl; [|done].
  destruct (mapM entry_of l) as [es'|] eqn:El; simpl; [|done]. intros [= <-].
  destruct (IH (mkAuditLog (pop_front_full (al_capacity log) (al_entries log) ++ [x])
    (al_capacity log)) (full ++ [x]) es') as (log' & -> & Hc & He); [|done|].
  - simpl. by rewrite Hf, push_full_suffix.
  - exists log'. simpl in *. by rewrite <-app_assoc in He.
Qed.

Lemma suffix_n_le {A} m n (l : list A) : suffix_n m (suffix_n n l) = suffix_n (Nat.min m n) l.
Proof. unfold suffix_n. rewrite length_drop, drop_drop. f_equal. lia. Qed.

Lemma snapshot_recent_suffix n log : snapshot_recent n log = suffix_n n (al_entries log).
Proof.
  unfold snapshot_recent, suffix_n. rewrite take_reverse, reverse_involutive. f_equal. lia.
Qed.

(** The log holds the last entries recorded, up to its capacity (one, when
    the capacity is zero), each with its sanitized detail; recording panics
    exactly when some detail of more than 500 bytes is cut inside a character;
    a snapshot of the last [n] entries restored into a log of any capacity
    leaves the last entries that fit. *)
Theorem audit_log_exact cap calls n log2 :
  (∀ es, mapM entry_of calls = Some es →
   ∃ log, log_calls calls (AuditLog_new cap) = Some log ∧
     al_entries log = suffix_n (Nat.max 1 cap) es ∧
     al_entries (restore_recent (snapshot_recent n log) log2).1 =
       suffix_n (Nat.min (al_capacity log2) (Nat.min n (Nat.max 1 cap))) es) ∧
  ∀ c, entry_of c = None ↔
    500 < String.length (lc_detail c) ∧ is_char_boundary (lc_detail c) 497 = false.
Proof.
  split.
  - intros es He. destruct (log_calls_spec calls (AuditLog_new cap) [] es) as (log & Hl & _ & Hes);
      [done..|]. exists log. split_and!; [done|done|]. simpl in Hes.
    rewrite snapshot_recent_suffix, Hes, suffix_n_le. unfold restore_recent. simpl.
    rewrite <-(suffix_n_le (al_capacity log2)). set (l := suffix_n _ es).
    unfold suffix_n. destruct (Nat.ltb_spec (al_capacity log2) (length l)); [done|].
    by replace (length l - al_capacity log2) with 0 by lia.
  - intros c. unfold entry_of, sanitize_detail.
    assert (∀ s, ∃ out, redact_sensitive s = Some out) as Hr.
    { intros s. destruct (redact_keys_spec sensitive_keys (chars_of s) sensitive_ok) as (o & Ho & _).
      unfold redact_sensitive. rewrite Ho. by eexists. }
    destruct (Nat.ltb_spec 500 (String.length (lc_detail c))).
    + destruct (is_char_boundary _ _) eqn:E; simpl; [|naive_solver].
      destruct (Hr (String.substring 0 497 (lc_detail c) +:+ "...")) as [o ->]. naive_solver.
    + destruct (Hr (lc_detail c)) as [o ->]. simpl. naive_solver lia.
Qed.
