(* ===== verification/RuntimeHost.v ===== *)
(** * The host of the agent runtime

    Models agent/aether-agent-runtime/src: observation.rs, events.rs,
    request.rs, executor.rs and host.rs.  The clock, the generator of uuids and
    the connections to the other services are the class [RuntimeEnv].  The
    operations are written in a monad over the host, the environment and the
    list of the requests that were sent; an operation ends with a value, an
    error or a panic, and what was done before an error stays done.  The
    iteration order of a [HashMap] is a parameter. *)
From S2P Require Import Prelude RustStd Text Json Actions RuntimeLog.
From Stdlib Require Import Ascii.

(** ** observation.rs *)

Inductive ObservationType {J : Type} :=
| ObsApplicationStarted (application_id : string)
| ObsApplicationFailed (application_id reason : string)
| ObsApplicationClosed (application_id : string)
| ObsProcessExited (pid : N) (exit_code : Z)
| ObsWindowCreated (window_id : N)
| ObsWindowClosed (window_id : N)
| ObsWindowFocused (window_id : N)
| ObsWindowMinimized (window_id : N)
| ObsWindowMaximized (window_id : N)
| ObsWindowList (windows : J)
| ObsFilesystemResult (operation : string) (data : J)
| ObsNetworkStatus (data : J)
| ObsNetworkInterfaces (data : J)
| ObsSystemStatus (data : J)
| ObsSystemInfo (data : J)
| ObsSystemResources (data : J)
| ObsSystemUptime (data : J)
| ObsServiceRestarted (service_id : string)
| ObsStorageStatus (data : J)
| ObsProcessList (processes : J)
| ObsProcessInspect (data : J)
| ObsContextSnapshot (data : J)
| ObsDisplayList (displays : J)
| ObsDisplayBrightnessSet (display_id : string) (level : N)
| ObsDisplayResolutionSet (display_id : string) (width height : N)
| ObsDeviceList (devices : J)
| ObsDeviceInspect (data : J)
| ObsDeviceEnabled (device_id : string)
| ObsDeviceDisabled (device_id : string)
| ObsSystemRebootRequested (delay_ms : N)
| ObsSystemShutdownRequested (delay_ms : N)
| ObsSystemSuspendRequested
| ObsCredentialSealed (name : string)
| ObsCredentialUnsealed (name value : string)
| ObsPolicyReloaded
| ObsError (message : string).
Arguments ObservationType J : clear implicits.

Record RtObservation {J : Type} := mkRtObservation {
  ro_id : N;
  ro_action_id : string;
  ro_session_id : string;
  ro_timestamp : N;
  ro_type : ObservationType J;
  ro_success : bool;
  ro_data : J;
}.
Arguments RtObservation J : clear implicits.
Arguments mkRtObservation {J}.

(** The derived serializer and debug printer of an observation. *)
Class ObservationText (J : Type) := {
  obs_to_value : ObservationType J → J;
  obs_debug : ObservationType J → string;
}.

Section observation.
Context {J : Type} `{!JsonOps J} `{!ObservationText J}.

Definition obs_is_error (t : ObservationType J) : bool :=
  match t with ObsError _ => true | _ => false end.

Definition RtObservation_new (id now : N) (action_id session_id : string) (t : ObservationType J) :
    RtObservation J :=
  mkRtObservation id action_id session_id now t (negb (obs_is_error t)) (obs_to_value t).

Definition normalized (o : RtObservation J) : J :=
  json_obj
    ([("success", json_bool (ro_success o)); ("type", json_str (obs_debug (ro_type o)))] ++
     match ro_type o with
     | ObsApplicationStarted id => [("application_id", json_str id)]
     | ObsApplicationFailed id reason =>
         [("application_id", json_str id); ("reason", json_str reason)]
     | ObsWindowList windows => [("windows", windows)]
     | ObsFilesystemResult operation data =>
         [("operation", json_str operation); ("data", data)]
     | ObsError message => [("error", json_str message)]
     | _ => [("data", ro_data o)]
     end).

Definition observation_type_name (t : ObservationType J) : string :=
  match t with
  | ObsApplicationStarted _ => "application.started"
  | ObsApplicationFailed _ _ => "application.failed"
  | ObsApplicationClosed _ => "application.closed"
  | ObsProcessExited _ _ => "process.exited"
  | ObsWindowCreated _ => "window.created"
  | ObsWindowClosed _ => "window.closed"
  | ObsWindowFocused _ => "window.focused"
  | ObsWindowMinimized _ => "window.minimized"
  | ObsWindowMaximized _ => "window.maximized"
  | ObsWindowList _ => "window.list"
  | ObsFilesystemResult _ _ => "filesystem.result"
  | ObsNetworkStatus _ => "network.status"
  | ObsNetworkInterfaces _ => "network.interfaces"
  | ObsSystemStatus _ => "system.status"
  | ObsSystemInfo _ => "system.info"
  | ObsSystemResources _ => "system.resources"
  | ObsSystemUptime _ => "system.uptime"
  | ObsServiceRestarted _ => "service.restarted"
  | ObsStorageStatus _ => "storage.status"
  | ObsProcessList _ => "process.list"
  | ObsProcessInspect _ => "process.inspect"
  | ObsContextSnapshot _ => "context.snapshot"
  | ObsDisplayList _ => "display.list"
  | ObsDisplayBrightnessSet _ _ => "display.brightness_set"
  | ObsDisplayResolutionSet _ _ _ => "display.resolution_set"
  | ObsDeviceList _ => "device.list"
  | ObsDeviceInspect _ => "device.inspect"
  | ObsDeviceEnabled _ => "device.enabled"
  | ObsDeviceDisabled _ => "device.disabled"
  | ObsSystemRebootRequested _ => "system.reboot_requested"
  | ObsSystemShutdownRequested _ => "system.shutdown_requested"
  | ObsSystemSuspendRequested => "system.suspend_requested"
  | ObsCredentialSealed _ => "credential.sealed"
  | ObsCredentialUnsealed _ _ => "credential.unsealed"
  | ObsPolicyReloaded => "policy.reloaded"
  | ObsError _ => "error"
  end.

Definition observation_to_json `{!UuidText} (o : RtObservation J) : J :=
  json_obj [("observation_id", json_str (uuid_text (ro_id o)));
            ("action_id", json_str (ro_action_id o));
            ("session_id", json_str (ro_session_id o));
            ("success", json_bool (ro_success o));
            ("type", json_str (observation_type_name (ro_type o)));
            ("data", normalized o)].
End observation.

(** ** events.rs *)

Inductive AgentEvent :=
| EvtSessionCreated (session_id actor : string)
| EvtSessionStarted (session_id : string)
| EvtSessionCompleted (session_id : string)
| EvtSessionFailed (session_id reason : string)
| EvtSessionCancelled (session_id : string)
| EvtIntentCreated (session_id intent_type : string) (confidence : N)
| EvtPlanCreated (session_id plan_id : string) (step_count : N)
| EvtActionRequested (session_id action_id action_name risk_level : string)
| EvtActionApproved (session_id action_id : string)
| EvtActionDenied (session_id action_id reason : string)
| EvtApprovalRequested (session_id action_id action_name risk_level : string)
| EvtApprovalGranted (session_id action_id : string)
| EvtApprovalDenied (session_id action_id reason : string)
| EvtActionStarted (session_id action_id : string)
| EvtActionCompleted (session_id action_id : string) (duration_ms : N)
| EvtActionFailed (session_id action_id error : string)
| EvtObservationCreated (session_id observation_id : string) (success : bool).

Definition event_type (e : AgentEvent) : string :=
  match e with
  | EvtSessionCreated _ _ => "agent.session.created"
  | EvtSessionStarted _ => "agent.session.started"
  | EvtSessionCompleted _ => "agent.session.completed"
  | EvtSessionFailed _ _ => "agent.session.failed"
  | EvtSessionCancelled _ => "agent.session.cancelled"
  | EvtIntentCreated _ _ _ => "agent.intent.created"
  | EvtPlanCreated _ _ _ => "agent.plan.created"
  | EvtActionRequested _ _ _ _ => "agent.action.requested"
  | EvtActionApproved _ _ => "agent.action.approved"
  | EvtActionDenied _ _ _ => "agent.action.denied"
  | EvtApprovalRequested _ _ _ _ => "agent.approval.requested"
  | EvtApprovalGranted _ _ => "agent.approval.granted"
  | EvtApprovalDenied _ _ _ => "agent.approval.denied"
  | EvtActionStarted _ _ => "agent.action.started"
  | EvtActionCompleted _ _ _ => "agent.action.completed"
  | EvtActionFailed _ _ _ => "agent.action.failed"
  | EvtObservationCreated _ _ _ => "agent.observation.created"
  end.

(** ** request.rs *)

Record RequestActor := mkRequestActor { ra_actor_type : ActorType; ra_identity : string }.

Record UserRequest {J : Type} := mkUserRequest {
  ur_id : N;
  ur_session_id : string;
  ur_actor : RequestActor;
  ur_input : string;
  ur_timestamp : N;
  ur_metadata : J;
}.
Arguments UserRequest J : clear implicits.
Arguments mkUserRequest {J}.

Definition UserRequest_validate {J} (r : UserRequest J) : result unit string :=
  if str_is_empty (ur_input r) then Err "Request input must not be empty"
  else if (10000 <? N.of_nat (String.length (ur_input r)))%N then Err "Request input exceeds maximum length"
  else if str_is_empty (ur_session_id r) then Err "Session ID must not be empty"
  else Ok tt.

(** [None]: cut inside a character. *)
Definition sanitized_input {J} (r : UserRequest J) : option string :=
  if (200 <? String.length (ur_input r))%nat then
    if is_char_boundary (ur_input r) 197
    then Some (String.substring 0 197 (ur_input r) +:+ "...") else None
  else Some (ur_input r).

(** ** The data of host.rs *)

Inductive HostState := HsStarting | HsReady | HsRunning | HsStopping | HsStopped | HsFailed.

#[export] Instance HostState_eq_dec : EqDecision HostState.
Proof. solve_decision. Defined.

Definition HostState_to_string (s : HostState) : string :=
  match s with
  | HsStarting => "STARTING" | HsReady => "READY" | HsRunning => "RUNNING"
  | HsStopping => "STOPPING" | HsStopped => "STOPPED" | HsFailed => "FAILED"
  end.

Definition is_accepting (s : HostState) : bool :=
  match s with HsReady | HsRunning => true | _ => false end.
Definition host_is_terminal (s : HostState) : bool :=
  match s with HsStopped | HsFailed => true | _ => false end.

(** The cancellation tokens are flags that nothing reads: the map from action
    ids to tokens is modelled by its keys. *)
Record HostSessionRecord := mkHostSessionRecord {
  hr_session : AgentSession;
  hr_requests : list N;
  hr_actions : gset N;
  hr_ordinal : N;
}.

Record PendingApproval {J : Type} := mkPendingApproval {
  pa_action : Action;
  pa_request : UserRequest J;
  pa_approval : ApprovalRequest;
}.
Arguments PendingApproval J : clear implicits.
Arguments mkPendingApproval {J}.

Record RequestOutcome {J : Type} := mkRequestOutcome {
  out_request_id : string;
  out_session_id : string;
  out_action_id : option string;
  out_success : bool;
  out_observation : option J;
  out_error : option string;
  out_duration_ms : N;
  out_pending_approval_id : option string;
  out_session_state : SessionState;
}.
Arguments RequestOutcome J : clear implicits.
Arguments mkRequestOutcome {J}.

(** The publisher is an in-memory bus: the list of what was published.  The
    capabilities of the validator are kept apart from those of the host, as in
    the source. *)
Record Host {J : Type} := mkHost {
  h_id : N;
  h_state : HostState;
  h_audit : AuditLog;
  h_events : list AgentEvent;
  h_sessions : gmap N HostSessionRecord;
  h_validator : list string;
  h_granted_capabilities : list string;
  h_max_sessions : nat;
  h_published_event_count : N;
  h_next_session_ordinal : N;
  h_control_port : N;
  h_surface_port : N;
  h_pending_approvals : gmap N (PendingApproval J);
  h_max_pending_approvals : nat;
}.
Arguments Host J : clear implicits.
Arguments mkHost {J}.

Section host_updates.
Context {J : Type}.
Implicit Types (h : Host J).

Definition set_state (s : HostState) h : Host J :=
  mkHost (h_id h) s (h_audit h) (h_events h) (h_sessions h) (h_validator h)
    (h_granted_capabilities h) (h_max_sessions h) (h_published_event_count h)
    (h_next_session_ordinal h) (h_control_port h) (h_surface_port h) (h_pending_approvals h)
    (h_max_pending_approvals h).

Definition set_audit_log (a : AuditLog) h : Host J :=
  mkHost (h_id h) (h_state h) a (h_events h) (h_sessions h) (h_validator h)
    (h_granted_capabilities h) (h_max_sessions h) (h_published_event_count h)
    (h_next_session_ordinal h) (h_control_port h) (h_surface_port h) (h_pending_approvals h)
    (h_max_pending_approvals h).

Definition set_events (l : list AgentEvent) (n : N) h : Host J :=
  mkHost (h_id h) (h_state h) (h_audit h) l (h_sessions h) (h_validator h)
    (h_granted_capabilities h) (h_max_sessions h) n
    (h_next_session_ordinal h) (h_control_port h) (h_surface_port h) (h_pending_approvals h)
    (h_max_pending_approvals h).

Definition set_sessions (m : gmap N HostSessionRecord) h : Host J :=
  mkHost (h_id h) (h_state h) (h_audit h) (h_events h) m (h_validator h)
    (h_granted_capabilities h) (h_max_sessions h) (h_published_event_count h)
    (h_next_session_ordinal h) (h_control_port h) (h_surface_port h) (h_pending_approvals h)
    (h_max_pending_approvals h).

Definition set_grants (caps : list string) h : Host J :=
  mkHost (h_id h) (h_state h) (h_audit h) (h_events h) (h_sessions h) caps
    caps (h_max_sessions h) (h_published_event_count h)
    (h_next_session_ordinal h) (h_control_port h) (h_surface_port h) (h_pending_approvals h)
    (h_max_pending_approvals h).

Definition set_ordinal (n : N) h : Host J :=
  mkHost (h_id h) (h_state h) (h_audit h) (h_events h) (h_sessions h) (h_validator h)
    (h_granted_capabilities h) (h_max_sessions h) (h_published_event_count h)
    n (h_control_port h) (h_surface_port h) (h_pending_approvals h)
    (h_max_pending_approvals h).

Definition set_pending (m : gmap N (PendingApproval J)) h : Host J :=
  mkHost (h_id h) (h_state h) (h_audit h) (h_events h) (h_sessions h) (h_validator h)
    (h_granted_capabilities h) (h_max_sessions h) (h_published_event_count h)
    (h_next_session_ordinal h) (h_control_port h) (h_surface_port h) m
    (h_max_pending_approvals h).
End host_updates.

(** ** The environment and the monad *)

Inductive NetError :=
| ConnectError (e : string) | TimeoutError (e : string) | SendError (e : string)
| RecvError (e : string).

Class RuntimeEnv (E : Type) := {
  (** The clock, in milliseconds. *)
  env_now : E → N * E;
  env_uuid : E → N * E;
  (** Connect to a port of the local host, send a line and read one. *)
  env_exchange : N → string → E → result string NetError * E;
}.

Inductive outcome (A : Type) := Done (a : A) | Fail (e : AgentError) | Panic.
Arguments Done {A}.
Arguments Fail {A}.
Arguments Panic {A}.

(** A request that was sent on behalf of an action. *)
Record Sent {J : Type} := mkSent { sent_action : Action; sent_port : N; sent_payload : J }.
Arguments Sent J : clear implicits.
Arguments mkSent {J}.

Record World {E J : Type} := mkWorld {
  w_host : Host J;
  w_env : E;
  w_sent : list (Sent J);
}.
Arguments World E J : clear implicits.
Arguments mkWorld {E J}.

Definition M (E J A : Type) : Type := World E J → World E J * outcome A.

#[export] Instance M_ret {E J} : MRet (M E J) := λ A a w, (w, Done a).
#[export] Instance M_bind {E J} : MBind (M E J) := λ A B f m w,
  let '(w, o) := m w in
  match o with Done a => f a w | Fail e => (w, Fail e) | Panic => (w, Panic) end.

Section monad.
Context {E J : Type} `{!RuntimeEnv E}.

Definition fail {A} (e : AgentError) : M E J A := λ w, (w, Fail e).
Definition panic {A} : M E J A := λ w, (w, Panic).

(** [Result::ok]: an error is dropped. *)
Definition ignore {A} (m : M E J A) : M E J unit := λ w,
  let '(w, o) := m w in match o with Panic => (w, Panic) | _ => (w, Done tt) end.

(** The result as a value: [match m { Ok .. Err .. }]. *)
Definition try {A} (m : M E J A) : M E J (result A AgentError) := λ w,
  let '(w, o) := m w in
  match o with Done a => (w, Done (Ok a)) | Fail e => (w, Done (Err e)) | Panic => (w, Panic) end.

Definition get : M E J (Host J) := λ w, (w, Done (w_host w)).
Definition modify (f : Host J → Host J) : M E J unit := λ w,
  (mkWorld (f (w_host w)) (w_env w) (w_sent w), Done tt).
Definition now : M E J N := λ w,
  let '(t, e) := env_now (w_env w) in (mkWorld (w_host w) e (w_sent w), Done t).
Definition new_uuid : M E J N := λ w,
  let '(u, e) := env_uuid (w_env w) in (mkWorld (w_host w) e (w_sent w), Done u).

Definition exchange (a : Action) (port : N) (payload : J) (line : string) :
    M E J (result string NetError) := λ w,
  let '(r, e) := env_exchange port line (w_env w) in
  (mkWorld (w_host w) e (w_sent w ++ [mkSent a port payload]), Done r).

Definition lift_option {A} (o : option A) : M E J A :=
  match o with Some a => mret a | None => panic end.
End monad.

Definition newline : string := String (ascii_of_nat 10) EmptyString.

(** ** executor.rs *)

Record ExecutionResult {J : Type} := mkExecutionResult {
  er_success : bool;
  er_observation : RtObservation J;
  er_duration_ms : N;
}.
Arguments ExecutionResult J : clear implicits.
Arguments mkExecutionResult {J}.

Section executor.
Context {E J : Type} `{!RuntimeEnv E} `{!JsonOps J} `{!JsonParse J} `{!ObservationText J}
  `{!UuidText}.
(** The ports of the executor. *)
Variables control_port surface_port : N.

Definition net_error (connect : string) (e : NetError) : AgentError :=
  match e with
  | ConnectError s => AeIpc ("connect " +:+ connect +:+ ": " +:+ s)
  | TimeoutError s => AeIpc s
  | SendError s => AeIpc ("send: " +:+ s)
  | RecvError s => AeIpc ("recv: " +:+ s)
  end.

(** What [ipc_request] and [surface_request] do with the line they read. *)
Definition decode_line (empty : string) (line : string) : M E J J :=
  if str_is_empty line then fail (AeIpc empty)
  else match json_from_str (str_trim line) with
       | Ok j => mret j
       | Err e => fail (AeIpc ("decode: " +:+ e))
       end.

Definition ipc_request (a : Action) (command : string) (parameters : J) : M E J J :=
  let req := json_obj [("service_id", json_str "aether-system-core");
                       ("command", json_str command); ("parameters", parameters)] in
  r ← exchange a control_port req (json_to_string req +:+ newline);
  match r with
  | Err e => fail (net_error (pretty control_port) e)
  | Ok line => decode_line "empty response" line
  end.

Definition surface_request (a : Action) (payload : J) : M E J J :=
  r ← exchange a surface_port payload (json_to_string payload +:+ newline);
  match r with
  | Err e => fail (net_error "surface" e)
  | Ok line => decode_line "empty surface response" line
  end.

Definition json_opt_str (o : option string) : J := from_option json_str json_null o.
Definition json_opt_num (o : option N) : J := from_option json_num json_null o.

(** Applications and windows. *)
Definition execute_windows (a : Action) (v : ActionVariant) : M E J (option (ObservationType J)) :=
  match v with
  | ApplicationLaunch app =>
      _ ← ipc_request a "app.launch" (json_obj [("app", json_str app)]);
      mret (Some (ObsApplicationStarted app))
  | ApplicationClose app =>
      _ ← ipc_request a "app.close" (json_obj [("app", json_str app)]);
      mret (Some (ObsApplicationClosed app))
  | WindowList =>
      resp ← surface_request a (json_obj [("op", json_str "window.list")]);
      mret (Some (ObsWindowList (json_index resp "windows")))
  | WindowFocus window_id _ =>
      let id := default 0%N window_id in
      _ ← surface_request a (json_obj [("op", json_str "window.focus"); ("window_id", json_num id)]);
      mret (Some (ObsWindowFocused id))
  | WindowMinimize id =>
      _ ← surface_request a
            (json_obj [("op", json_str "window.minimize"); ("window_id", json_num id)]);
      mret (Some (ObsWindowMinimized id))
  | WindowMaximize id =>
      _ ← surface_request a
            (json_obj [("op", json_str "window.maximize"); ("window_id", json_num id)]);
      mret (Some (ObsWindowMaximized id))
  | WindowClose window_id app_id =>
      req ← match window_id, app_id with
            | Some id, _ =>
                mret (json_obj [("op", json_str "window.close"); ("window_id", json_num id)])
            | None, Some app =>
                mret (json_obj [("op", json_str "window.close"); ("app_id", json_str app)])
            | None, None => fail (AeExecution "Window close requires ID or app_id")
            end;
      _ ← surface_request a req;
      mret (Some (ObsWindowClosed (default 0%N window_id)))
  | _ => mret None
  end.

(** A file operation: the response is the data. *)
Definition file_request (a : Action) (operation : string) (parameters : J) :
    M E J (option (ObservationType J)) :=
  resp ← ipc_request a ("file." +:+ operation) parameters;
  mret (Some (ObsFilesystemResult operation resp)).

Definition execute_files (a : Action) (v : ActionVariant) : M E J (option (ObservationType J)) :=
  match v with
  | FileList path => file_request a "list" (json_obj [("path", json_str path)])
  | FileRead path => file_request a "read" (json_obj [("path", json_str path)])
  | FileCreate path content =>
      file_request a "create" (json_obj [("path", json_str path); ("content", json_opt_str content)])
  | FileWrite path content =>
      file_request a "write" (json_obj [("path", json_str path); ("content", json_str content)])
  | FileSearch query path =>
      file_request a "search" (json_obj [("query", json_str query); ("path", json_opt_str path)])
  | FileRename from to =>
      file_request a "rename" (json_obj [("from", json_str from); ("to", json_str to)])
  | FileMove from to =>
      file_request a "move" (json_obj [("from", json_str from); ("to", json_str to)])
  | FileDelete path => file_request a "delete" (json_obj [("path", json_str path)])
  | _ => mret None
  end.

Definition execute_system (a : Action) (v : ActionVariant) : M E J (option (ObservationType J)) :=
  match v with
  | ProcessList =>
      resp ← ipc_request a "process.list" (json_obj []);
      mret (Some (ObsProcessList (json_index resp "processes")))
  | ProcessInspect pid name =>
      resp ← ipc_request a "process.inspect"
               (json_obj [("pid", json_opt_num pid); ("name", json_opt_str name)]);
      mret (Some (ObsProcessInspect resp))
  | NetworkStatus =>
      resp ← ipc_request a "network.status" (json_obj []); mret (Some (ObsNetworkStatus resp))
  | NetworkInterfaces =>
      resp ← ipc_request a "network.interfaces" (json_obj []);
      mret (Some (ObsNetworkInterfaces resp))
  | SystemStatus =>
      resp ← ipc_request a "status" (json_obj []); mret (Some (ObsSystemStatus resp))
  | SystemInfo =>
      resp ← ipc_request a "system.info" (json_obj []); mret (Some (ObsSystemInfo resp))
  | SystemResources =>
      resp ← ipc_request a "system.resources" (json_obj []); mret (Some (ObsSystemResources resp))
  | SystemUptime =>
      resp ← ipc_request a "system.uptime" (json_obj []); mret (Some (ObsSystemUptime resp))
  | ServiceRestart service_id =>
      _ ← ipc_request a "restart" (json_obj [("service", json_str service_id)]);
      mret (Some (ObsServiceRestarted service_id))
  | StorageStatus =>
      resp ← ipc_request a "storage.status" (json_obj []); mret (Some (ObsStorageStatus resp))
  | ContextGet => mret (Some (ObsContextSnapshot (json_obj [])))
  | _ => mret None
  end.

Definition execute_devices (a : Action) (v : ActionVariant) : M E J (option (ObservationType J)) :=
  match v with
  | DisplayList =>
      resp ← ipc_request a "display.list" (json_obj []); mret (Some (ObsDisplayList resp))
  | DisplaySetBrightness id level =>
      _ ← ipc_request a "display.set_brightness"
            (json_obj [("display_id", json_str id); ("level", json_num level)]);
      mret (Some (ObsDisplayBrightnessSet id level))
  | DisplaySetResolution id width height =>
      _ ← ipc_request a "display.set_resolution"
            (json_obj [("display_id", json_str id); ("width", json_num width);
                       ("height", json_num height)]);
      mret (Some (ObsDisplayResolutionSet id width height))
  | DeviceList =>
      resp ← ipc_request a "device.list" (json_obj []); mret (Some (ObsDeviceList resp))
  | DeviceInspect id =>
      resp ← ipc_request a "device.inspect" (json_obj [("device_id", json_str id)]);
      mret (Some (ObsDeviceInspect resp))
  | DeviceEnable id =>
      _ ← ipc_request a "device.enable" (json_obj [("device_id", json_str id)]);
      mret (Some (ObsDeviceEnabled id))
  | DeviceDisable id =>
      _ ← ipc_request a "device.disable" (json_obj [("device_id", json_str id)]);
      mret (Some (ObsDeviceDisabled id))
  | _ => mret None
  end.

Definition execute_power (a : Action) (v : ActionVariant) : M E J (option (ObservationType J)) :=
  match v with
  | SystemReboot delay_ms =>
      _ ← ipc_request a "system.reboot" (json_obj [("delay_ms", json_num delay_ms)]);
      mret (Some (ObsSystemRebootRequested delay_ms))
  | SystemShutdown delay_ms =>
      _ ← ipc_request a "system.shutdown" (json_obj [("delay_ms", json_num delay_ms)]);
      mret (Some (ObsSystemShutdownRequested delay_ms))
  | SystemSuspend =>
      _ ← ipc_request a "system.suspend" (json_obj []);
      mret (Some ObsSystemSuspendRequested)
  | CredentialSeal name plaintext =>
      _ ← ipc_request a "credentials.seal"
            (json_obj [("name", json_str name); ("plaintext", json_str plaintext)]);
      mret (Some (ObsCredentialSealed name))
  | CredentialUnseal name =>
      resp ← ipc_request a "credentials.unseal" (json_obj [("name", json_str name)]);
      mret (Some (ObsCredentialUnsealed name
                    (default EmptyString (json_as_str (json_index resp "plaintext")))))
  | PolicyReload =>
      _ ← ipc_request a "policy.reload" (json_obj []); mret (Some ObsPolicyReloaded)
  | _ => mret None
  end.

(** The match of [execute]: the groups of variants, one after the other. *)
Definition execute_variant (a : Action) : M E J (ObservationType J) :=
  let v := act_variant a in
  o ← match v with
      | ApplicationLaunch _ | ApplicationClose _ | WindowList | WindowFocus _ _
      | WindowMinimize _ | WindowMaximize _ | WindowClose _ _ => execute_windows a v
      | FileList _ | FileRead _ | FileCreate _ _ | FileWrite _ _ | FileSearch _ _
      | FileRename _ _ | FileMove _ _ | FileDelete _ => execute_files a v
      | ProcessList | ProcessInspect _ _ | NetworkStatus | NetworkInterfaces | SystemStatus
      | SystemInfo | SystemResources | SystemUptime | ServiceRestart _ | StorageStatus
      | ContextGet => execute_system a v
      | DisplayList | DisplaySetBrightness _ _ | DisplaySetResolution _ _ _ | DeviceList
      | DeviceInspect _ | DeviceEnable _ | DeviceDisable _ => execute_devices a v
      | _ => execute_power a v
      end;
  match o with Some t => mret t | None => panic end.

Definition execute (a : Action) : M E J (ExecutionResult J) :=
  start ← now;
  t ← execute_variant a;
  stop ← now;
  created ← now;
  id ← new_uuid;
  mret (mkExecutionResult true
          (RtObservation_new id created (uuid_text (act_id a)) (act_session_id a) t)
          (saturating_sub stop start)).

(** The loop of [execute_with_recovery] after [attempt] attempts; [fuel] bounds
    the attempts that are left. *)
Fixpoint recovery_loop (fuel : nat) (a : Action) (started attempt : N) : M E J (ExecutionResult J) :=
  match fuel with
  | 0 => panic
  | S fuel =>
      let attempt := saturating_add u32_max attempt 1 in
      r ← try (execute a);
      match r with
      | Ok res =>
          stop ← now;
          mret (mkExecutionResult (er_success res) (er_observation res) (saturating_sub stop started))
      | Err e =>
          match decide_recovery (recovery_policy_for (act_variant a)) attempt
                  (FailureKind_from_error e) false with
          | None => panic
          | Some RaRetry => recovery_loop fuel a started attempt
          | Some _ => fail e
          end
      end
  end.

Definition execute_with_recovery (a : Action) : M E J (ExecutionResult J) :=
  started ← now;
  recovery_loop (S (N.to_nat (rec_max_retries (recovery_policy_for (act_variant a))))) a started 0.
End executor.

(** ** host.rs *)

Section host.
Context {E J : Type} `{!RuntimeEnv E} `{!JsonOps J} `{!JsonParse J} `{!ObservationText J}
  `{!UuidText}.
(** The order in which a [HashMap] is iterated. *)
Variable iter : ∀ {V}, gmap N V → list (N * V).

Definition audit_record (session_id : string) (ev : AuditEventType) (detail : string)
    (success : bool) : M E J unit :=
  t ← now;
  h ← get;
  a ← lift_option (AuditLog_record t session_id ev detail success "host" (h_audit h));
  modify (set_audit_log a).

(** Publishing and counting; the counter is a [usize]. *)
Definition publish (e : AgentEvent) : M E J unit :=
  h ← get;
  if (h_published_event_count h =? u64_max)%N then panic
  else modify (set_events (h_events h ++ [e]) (h_published_event_count h + 1)%N).

Definition transition_allowed (s next : HostState) : bool :=
  match s, next with
  | HsStarting, HsReady | HsReady, HsRunning | HsRunning, HsStopping | HsRunning, HsFailed
  | HsReady, HsFailed | HsStarting, HsFailed | HsStopping, HsStopped => true
  | _, _ => false
  end.

Definition transition_state (next : HostState) (reason : string) : M E J unit :=
  h ← get;
  if transition_allowed (h_state h) next then modify (set_state next)
  else fail (AeInternal ("invalid host transition " +:+ HostState_to_string (h_state h) +:+
                         " -> " +:+ HostState_to_string next +:+ " (" +:+ reason +:+ ")")).

Definition start_host (id control_port surface_port : N) (caps : list string) : Host J :=
  set_state HsReady
    (mkHost id HsStarting (AuditLog_new 4096) [] ∅ caps [] 64 0 0 control_port surface_port ∅ 64).

Definition grant_capabilities (caps : list string) : M E J unit := modify (set_grants caps).

Definition ensure_accepting : M E J unit :=
  h ← get;
  if is_accepting (h_state h) then mret tt
  else fail (AeInternal ("host is " +:+ HostState_to_string (h_state h) +:+ "; not accepting work")).

Definition not_found {A} (sid : N) : M E J A := fail (AeNotFound ("session " +:+ uuid_text sid)).

Definition put_session (sid : N) (r : HostSessionRecord) : M E J unit :=
  h ← get; modify (set_sessions (<[sid := r]> (h_sessions h))).

Definition with_session (s : AgentSession) (r : HostSessionRecord) : HostSessionRecord :=
  mkHostSessionRecord s (hr_requests r) (hr_actions r) (hr_ordinal r).

(** [AgentSession::transition] on the record of a session. *)
Definition transition_session (sid : N) (next : SessionState) : M E J unit :=
  h ← get;
  match h_sessions h !! sid with
  | None => not_found sid
  | Some r =>
      if session_is_terminal (ses_state (hr_session r)) ||
         negb (can_transition_to (ses_state (hr_session r)) next)
      then match (session_transition next 0 (hr_session r)).2 with
           | Err e => fail (AeSession e)
           | Ok _ => mret tt
           end
      else
        t ← now;
        put_session sid (with_session (session_transition next t (hr_session r)).1 r)
  end.

Definition advance_session (sid : N) (next : SessionState) : M E J unit :=
  h ← get;
  match h_sessions h !! sid with
  | None => not_found sid
  | Some r =>
      let s := hr_session r in
      if session_is_terminal (ses_state s)
      then fail (AeSession ("session " +:+ uuid_text sid +:+ " already terminal (" +:+
                            SessionState_to_string (ses_state s) +:+ ")"))
      else if ses_cancelled s
      then fail (AeCancellation ("session " +:+ uuid_text sid +:+ " cancelled"))
      else if decide (ses_state s = next) then mret tt
      else if negb (can_transition_to (ses_state s) next)
      then fail (AeSession ("invalid session transition " +:+
                            SessionState_to_string (ses_state s) +:+ " -> " +:+
                            SessionState_to_string next))
      else transition_session sid next
  end.

Definition advance_session_if_not (sid : N) (next : SessionState) : M E J unit :=
  h ← get;
  match h_sessions h !! sid with
  | None => not_found sid
  | Some r =>
      if bool_decide (ses_state (hr_session r) = next) ||
         session_is_terminal (ses_state (hr_session r))
      then mret tt
      else advance_session sid next
  end.

Definition create_session (actor : SessionActor) : M E J N :=
  _ ← ensure_accepting;
  h ← get;
  if (h_max_sessions h <=? size (h_sessions h))%nat
  then fail (AeInternal ("max sessions (" +:+ pretty (N.of_nat (h_max_sessions h)) +:+ ") reached"))
  else
    t ← now;
    id ← new_uuid;
    if (h_next_session_ordinal h =? u64_max)%N then panic
    else
      _ ← modify (set_ordinal (h_next_session_ordinal h + 1)%N);
      t' ← now;
      let '(s, _) := session_transition SsReady t' (AgentSession_new id t actor) in
      _ ← audit_record (uuid_text id) EvSessionCreated ("actor=" +:+ sa_identity actor) true;
      _ ← publish (EvtSessionCreated (uuid_text id) (sa_identity actor));
      _ ← put_session id (mkHostSessionRecord s [] ∅ (h_next_session_ordinal h));
      h ← get;
      _ ← (if decide (h_state h = HsReady) then transition_state HsRunning "first session created"
           else mret tt);
      mret id.

Definition complete_session (sid : N) : M E J unit :=
  _ ← transition_session sid SsCompleted;
  _ ← audit_record (uuid_text sid) EvSessionCompleted "session completed" true;
  publish (EvtSessionCompleted (uuid_text sid)).

Definition update_session (sid : N) (f : HostSessionRecord → option HostSessionRecord) : M E J unit :=
  h ← get;
  match h_sessions h !! sid with
  | None => mret tt
  | Some r => r ← lift_option (f r); put_session sid r
  end.

Definition count_action (id : N) (r : HostSessionRecord) : option HostSessionRecord :=
  let s := hr_session r in
  n ← count_up (ses_action_count s);
  Some (mkHostSessionRecord
          (mkAgentSession (ses_id s) (ses_state s) (ses_actor s) (ses_created_at s)
             (ses_updated_at s) (ses_request_count s) n (ses_observation_count s)
             (ses_error_count s) (ses_cancelled s))
          (hr_requests r) ({[id]} ∪ hr_actions r) (hr_ordinal r)).

Definition record_action (sid id : N) : M E J unit := update_session sid (count_action id).

Definition count_request (id : N) (r : HostSessionRecord) : option HostSessionRecord :=
  let s := hr_session r in
  n ← count_up (ses_request_count s);
  m ← count_up (ses_observation_count s);
  Some (mkHostSessionRecord
          (mkAgentSession (ses_id s) (ses_state s) (ses_actor s) (ses_created_at s)
             (ses_updated_at s) n (ses_action_count s) m (ses_error_count s) (ses_cancelled s))
          (hr_requests r ++ [id]) (hr_actions r) (hr_ordinal r)).

Definition record_request (sid id : N) : M E J unit := update_session sid (count_request id).

Definition record_session_error (sid : N) : M E J unit :=
  update_session sid (λ r, s ← mark_error (hr_session r); Some (with_session s r)).

Definition session_state (h : Host J) (sid : N) : option SessionState :=
  (λ r, ses_state (hr_session r)) <$> h_sessions h !! sid.

(** [min_by_key] over the pending approvals: the first of the smallest. *)
Definition oldest (l : list (N * PendingApproval J)) : option (N * PendingApproval J) :=
  match l with
  | [] => None
  | x :: l =>
      Some (foldl (λ m y, if (ap_created_at (pa_approval y.2) <? ap_created_at (pa_approval m.2))%N
                          then y else m) x l)
  end.

Definition evict_oldest_pending_approval : M E J unit :=
  h ← get;
  match oldest (iter (h_pending_approvals h)) with
  | None => mret tt
  | Some (id, evicted) =>
      _ ← modify (set_pending (delete id (h_pending_approvals h)));
      audit_record (ap_session_id (pa_approval evicted)) EvApprovalDenied
        ("action=" +:+ action_name (act_variant (pa_action evicted)) +:+ " approval_id=" +:+
         uuid_text id +:+ " reason=evicted_by_cap") false
  end.

Definition UserRequest_new (session_id : string) (actor : RequestActor) (input : string)
    (metadata : J) : M E J (UserRequest J) :=
  t ← now; id ← new_uuid; mret (mkUserRequest id session_id actor input t metadata).

Definition action_metadata (a : Action) : J :=
  json_obj [("action", json_str (action_name (act_variant a)))].

(** The two branches of [execute_validated_action] after the execution. *)
Definition report_success (sid : N) (a : Action) (request : UserRequest J) (duration_ms : N)
    (result : ExecutionResult J) : M E J (RequestOutcome J) :=
  _ ← audit_record (uuid_text sid) EvActionCompleted
        ("action=" +:+ action_name (act_variant a) +:+ " dur_ms=" +:+
         pretty (er_duration_ms result)) true;
  _ ← publish (EvtActionCompleted (uuid_text sid) (uuid_text (act_id a)) (er_duration_ms result));
  _ ← advance_session sid SsObserving;
  _ ← complete_session sid;
  h ← get;
  mret (mkRequestOutcome (uuid_text (ur_id request)) (uuid_text sid)
          (Some (uuid_text (act_id a))) (er_success result)
          (Some (observation_to_json (er_observation result))) None duration_ms None
          (default SsCompleted (session_state h sid))).

Definition report_failure (sid : N) (a : Action) (request : UserRequest J) (duration_ms : N)
    (e : AgentError) : M E J (RequestOutcome J) :=
  _ ← audit_record (uuid_text sid) EvActionFailed
        ("action=" +:+ action_name (act_variant a) +:+ " err=" +:+ AgentError_to_string e) false;
  _ ← publish (EvtActionFailed (uuid_text sid) (uuid_text (act_id a)) (AgentError_to_string e));
  _ ← ignore (advance_session sid SsFailed);
  _ ← record_session_error sid;
  h ← get;
  mret (mkRequestOutcome (uuid_text (ur_id request)) (uuid_text sid)
          (Some (uuid_text (act_id a))) false None (Some (AgentError_to_string e))
          duration_ms None (default SsFailed (session_state h sid))).

Definition execute_validated_action (sid : N) (a : Action) (request : UserRequest J) :
    M E J (RequestOutcome J) :=
  let name := action_name (act_variant a) in
  let risk := ActionRisk_debug (act_risk_level a) in
  _ ← advance_session sid SsExecuting;
  _ ← audit_record (uuid_text sid) EvActionRequested ("action=" +:+ name +:+ " risk=" +:+ risk) true;
  _ ← publish (EvtActionRequested (uuid_text sid) (uuid_text (act_id a)) name risk);
  _ ← record_action sid (act_id a);
  h ← get;
  start ← now;
  exec ← try (execute (h_control_port h) (h_surface_port h) a);
  stop ← now;
  let duration_ms := saturating_sub stop start in
  outcome ← match exec with
            | Ok result => report_success sid a request duration_ms result
            | Err e => report_failure sid a request duration_ms e
            end;
  _ ← record_request sid (ur_id request);
  mret outcome.

(** The branch of [submit_action] that parks an action until it is approved. *)
Definition park_action (sid : N) (actor : RequestActor) (a : Action) : M E J (RequestOutcome J) :=
  let name := action_name (act_variant a) in
  let risk := ActionRisk_debug (act_risk_level a) in
  _ ← advance_session sid SsWaitingApproval;
  t ← now;
  approval_id ← new_uuid;
  let approval :=
    ApprovalRequest_new approval_id t (uuid_text sid) (uuid_text (act_id a)) name risk
      (if str_is_empty (act_reason a) then "high-risk action requires approval"
       else act_reason a) in
  _ ← audit_record (uuid_text sid) EvApprovalRequested
        ("action=" +:+ name +:+ " approval_id=" +:+ uuid_text approval_id) true;
  _ ← publish (EvtApprovalRequested (uuid_text sid) (uuid_text (act_id a)) name risk);
  request ← UserRequest_new (uuid_text sid) actor (act_reason a) (action_metadata a);
  h ← get;
  _ ← (if (h_max_pending_approvals h <=? size (h_pending_approvals h))%nat
       then evict_oldest_pending_approval else mret tt);
  h ← get;
  _ ← modify (set_pending
        (<[approval_id := mkPendingApproval a request approval]> (h_pending_approvals h)));
  mret (mkRequestOutcome (uuid_text (ur_id request)) (uuid_text sid) None false None
          (Some "action requires approval") 0 (Some (uuid_text approval_id)) SsWaitingApproval).

Definition deny_invalid (sid : N) (a : Action) (errors : list string) :
    M E J (RequestOutcome J) :=
  let reason := String.concat "; " errors in
  _ ← ignore (advance_session sid SsFailed);
  _ ← audit_record (uuid_text sid) EvActionDenied reason false;
  _ ← publish (EvtActionDenied (uuid_text sid) (uuid_text (act_id a)) reason);
  fail (AeValidation reason).

Definition submit_action (sid : N) (actor : RequestActor) (a : Action) : M E J (RequestOutcome J) :=
  let name := action_name (act_variant a) in
  _ ← ensure_accepting;
  _ ← advance_session_if_not sid SsReady;
  _ ← advance_session sid SsThinking;
  _ ← advance_session sid SsPlanning;
  h ← get;
  let result := Validator_validate (h_validator h) a in
  _ ← audit_record (uuid_text sid) EvCapabilityCheck
        ("action=" +:+ name +:+ " valid=" +:+ (if vr_valid result then "true" else "false"))
        (vr_valid result);
  _ ← audit_record (uuid_text sid) EvPolicyCheck ("action=" +:+ name) true;
  if negb (vr_valid result) then deny_invalid sid a (vr_errors result)
  else if vr_requires_confirmation result then park_action sid actor a
  else
    request ← UserRequest_new (uuid_text sid) actor (act_reason a) (action_metadata a);
    execute_validated_action sid a request.

Definition parse_session (p : PendingApproval J) : M E J N :=
  match uuid_parse (ap_session_id (pa_approval p)) with
  | Ok sid => mret sid
  | Err e => fail (AeSession ("bad session id: " +:+ e))
  end.

Definition approve_request (approval_id : N) : M E J (option (RequestOutcome J)) :=
  h ← get;
  match h_pending_approvals h !! approval_id with
  | None => mret None
  | Some p =>
      _ ← modify (set_pending (delete approval_id (h_pending_approvals h)));
      sid ← parse_session p;
      _ ← audit_record (uuid_text sid) EvApprovalGranted
            ("action=" +:+ action_name (act_variant (pa_action p)) +:+ " approval_id=" +:+
             uuid_text approval_id) true;
      _ ← publish (EvtApprovalGranted (uuid_text sid) (uuid_text (act_id (pa_action p))));
      outcome ← execute_validated_action sid (pa_action p) (pa_request p);
      mret (Some outcome)
  end.

Definition deny_request (approval_id : N) (reason : string) : M E J bool :=
  h ← get;
  match h_pending_approvals h !! approval_id with
  | None => mret false
  | Some p =>
      _ ← modify (set_pending (delete approval_id (h_pending_approvals h)));
      _ ← now;
      sid ← parse_session p;
      _ ← audit_record (uuid_text sid) EvApprovalDenied
            ("action=" +:+ action_name (act_variant (pa_action p)) +:+ " approval_id=" +:+
             uuid_text approval_id +:+ " reason=" +:+ reason) false;
      _ ← publish (EvtApprovalDenied (uuid_text sid) (uuid_text (act_id (pa_action p))) reason);
      _ ← ignore (advance_session sid SsCancelled);
      _ ← record_session_error sid;
      mret true
  end.

Definition cancel_action (sid action_id : N) : M E J bool :=
  h ← get;
  match h_sessions h !! sid with
  | None => not_found sid
  | Some r =>
      if decide (action_id ∈ hr_actions r) then
        _ ← put_session sid (mkHostSessionRecord (hr_session r) (hr_requests r)
                               (hr_actions r ∖ {[action_id]}) (hr_ordinal r));
        _ ← audit_record (uuid_text sid) EvActionDenied
              ("action_id=" +:+ uuid_text action_id +:+ " cancelled") true;
        _ ← publish (EvtActionDenied (uuid_text sid) (uuid_text action_id) "cancelled");
        mret true
      else mret false
  end.

Definition cancelled_session (s : AgentSession) : AgentSession :=
  mkAgentSession (ses_id s) SsCancelled (ses_actor s) (ses_created_at s) (ses_updated_at s)
    (ses_request_count s) (ses_action_count s) (ses_observation_count s) (ses_error_count s) true.

Definition cancel_session (sid : N) : M E J bool :=
  h ← get;
  match h_sessions h !! sid with
  | None => not_found sid
  | Some r =>
      if session_is_terminal (ses_state (hr_session r)) then
        _ ← put_session sid (mkHostSessionRecord (hr_session r) (hr_requests r) ∅ (hr_ordinal r));
        mret false
      else
        _ ← put_session sid (mkHostSessionRecord (cancelled_session (hr_session r))
                               (hr_requests r) ∅ (hr_ordinal r));
        _ ← audit_record (uuid_text sid) EvSessionCancelled "session cancelled by host" true;
        _ ← publish (EvtSessionCancelled (uuid_text sid));
        mret true
  end.

Fixpoint cancel_each (l : list N) : M E J unit :=
  match l with [] => mret tt | sid :: l => _ ← ignore (cancel_session sid); cancel_each l end.

Definition stop : M E J unit :=
  h ← get;
  if decide (h_state h = HsStopped) then mret tt
  else
    _ ← transition_state HsStopping "stop requested";
    h ← get;
    _ ← cancel_each (iter (h_sessions h)).*1;
    transition_state HsStopped "host stopped".

Definition fail_host (reason : string) : M E J unit :=
  _ ← audit_record "host" EvSessionFailed reason false;
  _ ← publish (EvtSessionFailed "host" reason);
  modify (set_state HsFailed).

(** ** What the host shows of itself *)

Record HostStatus := mkHostStatus {
  hst_host_id : N;
  hst_state : HostState;
  hst_session_count : N;
  hst_active_session_count : N;
  hst_audit_count : nat;
  hst_event_count : N;
  hst_control_port : N;
  hst_surface_port : N;
}.

(** The counts are cut to their width. *)
Definition host_status (h : Host J) : HostStatus :=
  let active := List.filter (λ x, session_is_active (hr_session x.2)) (iter (h_sessions h)) in
  mkHostStatus (h_id h) (h_state h) (N.of_nat (size (h_sessions h)) mod 2 ^ 32)
    (N.of_nat (length active) mod 2 ^ 32)
    (length (al_entries (h_audit h))) (h_published_event_count h) (h_control_port h)
    (h_surface_port h).

Definition has_session (h : Host J) (sid : N) : bool := bool_decide (is_Some (h_sessions h !! sid)).
Definition session_count (h : Host J) : nat := size (h_sessions h).

Definition ActorType_json (t : ActorType) : J :=
  json_str (match t with AtHuman => "Human" | AtSystem => "System" | AtAgent => "Agent" end).

Definition inspect_session (h : Host J) (sid : N) : option J :=
  (λ r, let s := hr_session r in
     json_obj [("session_id", json_str (uuid_text (ses_id s)));
               ("state", json_str (SessionState_to_string (ses_state s)));
               ("actor", ActorType_json (sa_actor_type (ses_actor s)));
               ("actor_identity", json_str (sa_identity (ses_actor s)));
               ("created_at", json_num (ses_created_at s));
               ("updated_at", json_num (ses_updated_at s));
               ("request_count", json_num (ses_request_count s));
               ("action_count", json_num (ses_action_count s));
               ("observation_count", json_num (ses_observation_count s));
               ("error_count", json_num (ses_error_count s));
               ("cancelled", json_bool (ses_cancelled s));
               ("is_active", json_bool (session_is_active s));
               ("request_ids", json_arr ((λ u, json_str (uuid_text u)) <$> hr_requests r))])
  <$> h_sessions h !! sid.

(** The records with the newest first. *)
Definition sessions_newest_first (h : Host J) : list HostSessionRecord :=
  sort_with (λ r r', (hr_ordinal r' <=? hr_ordinal r)%N) (iter (h_sessions h)).*2.

Definition list_sessions (h : Host J) : list J :=
  (λ r, let s := hr_session r in
     json_obj [("session_id", json_str (uuid_text (ses_id s)));
               ("state", json_str (SessionState_to_string (ses_state s)));
               ("actor_identity", json_str (sa_identity (ses_actor s)));
               ("request_count", json_num (ses_request_count s));
               ("action_count", json_num (ses_action_count s));
               ("is_active", json_bool (session_is_active s))])
  <$> sessions_newest_first h.

Definition ApprovalStatus_debug (s : ApprovalStatus) : string :=
  match s with
  | ApPending => "Pending" | ApApproved => "Approved" | ApDenied => "Denied" | ApExpired => "Expired"
  end.

(** The pending approvals with the oldest first. *)
Definition approvals_oldest_first (h : Host J) : list (PendingApproval J) :=
  sort_with (λ p p', (ap_created_at (pa_approval p) <=? ap_created_at (pa_approval p'))%N)
    (iter (h_pending_approvals h)).*2.

Definition list_pending_approvals (h : Host J) : list J :=
  (λ p, let a := pa_approval p in
     json_obj [("approval_id", json_str (uuid_text (ap_id a)));
               ("session_id", json_str (ap_session_id a));
               ("action_id", json_str (ap_action_id a));
               ("action_name", json_str (ap_action_name a));
               ("risk_level", json_str (ap_risk_level a));
               ("reason", json_str (ap_reason a));
               ("created_at", json_num (ap_created_at a));
               ("status", json_str (ApprovalStatus_debug (ap_status a)))])
  <$> approvals_oldest_first h.

Definition audit_entry_json (e : RtAuditEntry) : J :=
  json_obj [("timestamp", json_num (rae_timestamp e)); ("session_id", json_str (rae_session_id e));
            ("event_type", json_str (AuditEventType_to_string (rae_event_type e)));
            ("success", json_bool (rae_success e)); ("component", json_str (rae_component e));
            ("detail", json_str (rae_detail e))].

Definition audit_for (h : Host J) (session_id : string) : list J :=
  audit_entry_json <$> log_for_session session_id (h_audit h).
Definition audit_recent (h : Host J) (count : nat) : list J :=
  audit_entry_json <$> log_recent count (h_audit h).
Definition event_count (h : Host J) : N := h_published_event_count h.
End host.
