(* ===== verification/RuntimeProps.v ===== *)
(** * Properties of the runtime host

    What the operations of [RuntimeHost] do over any history of calls: which
    actions reach the other services, and how often a session acts. *)
From S2P Require Import Prelude RustStd Json Actions RuntimeLog RuntimeHost.
From stdpp Require Import relations.

(** ** Relations kept by a computation *)

Section always.
Context {E J : Type} `{!RuntimeEnv E}.

(** The world after [m] is related to the one before, however [m] ends. *)
Definition always (R : relation (World E J)) {A} (m : M E J A) : Prop := ∀ w, R w (m w).1.

Context (R : relation (World E J)) `{!PreOrder R}.

Lemma always_ret {A} (a : A) : always R (mret a).
Proof. intros w. simpl. reflexivity. Qed.

Lemma always_fail {A} e : always R (fail (A := A) e).
Proof. intros w. simpl. reflexivity. Qed.

Lemma always_panic {A} : always R (panic (A := A)).
Proof. intros w. simpl. reflexivity. Qed.

Lemma always_get : always R get.
Proof. intros w. simpl. reflexivity. Qed.

Lemma always_bind {A B} (m : M E J A) (f : A → M E J B) :
  always R m → (∀ a, always R (f a)) → always R (m ≫= f).
Proof.
  intros Hm Hf w. unfold mbind, M_bind. specialize (Hm w). destruct (m w) as [w' []]; simpl in *;
    [|done..]. etrans; [done|]. apply Hf.
Qed.

Lemma always_ignore {A} (m : M E J A) : always R m → always R (ignore m).
Proof. intros Hm w. unfold ignore. specialize (Hm w). by destruct (m w) as [w' []]. Qed.

Lemma always_try {A} (m : M E J A) : always R m → always R (try m).
Proof. intros Hm w. unfold try. specialize (Hm w). by destruct (m w) as [w' []]. Qed.

Lemma always_lift_option {A} (o : option A) : always R (lift_option o).
Proof. destruct o; [apply always_ret|apply always_panic]. Qed.

(** A first part that keeps [R], from a world reached by [R]. *)
Lemma bind_after {A B} (m : M E J A) (f : A → M E J B) w0 w
    (Q : World E J * outcome B → Prop) :
  R w0 w → always R m → (∀ w1 a, R w0 w1 → Q (f a w1)) →
  (∀ w1 o, R w0 w1 → (∀ b, o ≠ Done b) → Q (w1, o)) → Q ((m ≫= f) w).
Proof.
  intros Hw Hm Hd Hn. unfold mbind, M_bind. specialize (Hm w).
  destruct (m w) as [w1 []]; simpl in *; [apply Hd|apply Hn|apply Hn]; try done; by etrans.
Qed.

Lemma always_weaken {A} (R' : relation (World E J)) (m : M E J A) :
  (∀ w w', R' w w' → R w w') → always R' m → always R m.
Proof. intros HR Hm w. apply HR, Hm. Qed.
End always.

Lemma get_bind {E J B} (f : Host J → M E J B) w : (get ≫= f) w = f (w_host w) w.
Proof. done. Qed.

Create HintDb always discriminated.
#[export] Hint Resolve always_ret always_fail always_panic always_get always_lift_option : always.

(** Split a computation into its parts. *)
Ltac always_split :=
  repeat match goal with
         | |- always _ (match ?x with _ => _ end) => destruct x
         | |- always _ (_ ≫= _) => apply always_bind; [typeclasses eauto| |intros ?]
         | |- always _ (ignore _) => apply always_ignore
         | |- always _ (try _) => apply always_try
         end; auto with always typeclass_instances.

(** ** What stays the same *)

Section frame.
Context {E J : Type} `{!RuntimeEnv E} `{!JsonOps J} `{!JsonParse J} `{!ObservationText J}
  `{!UuidText}.
Context (iter : ∀ {V}, gmap N V → list (N * V)).

Definition frame (w w' : World E J) : Prop :=
  h_pending_approvals (w_host w') = h_pending_approvals (w_host w) ∧
  h_validator (w_host w') = h_validator (w_host w) ∧ w_sent w' = w_sent w.

#[export] Instance frame_preorder : PreOrder frame.
Proof.
  split; [by intros w|]. intros w1 w2 w3 (H1 & H2 & H3) (H4 & H5 & H6).
  split_and!; congruence.
Qed.

Lemma frame_now : always frame (now (E := E) (J := J)).
Proof. intros w. unfold now. by destruct (env_now (w_env w)). Qed.

Lemma frame_uuid : always frame (new_uuid (E := E) (J := J)).
Proof. intros w. unfold new_uuid. by destruct (env_uuid (w_env w)). Qed.

Lemma frame_audit_log a : always frame (modify (E := E) (J := J) (set_audit_log a)).
Proof. by intros w. Qed.
Lemma frame_events l n : always frame (modify (E := E) (J := J) (set_events l n)).
Proof. by intros w. Qed.
Lemma frame_state s : always frame (modify (E := E) (J := J) (set_state s)).
Proof. by intros w. Qed.
Lemma frame_sessions m : always frame (modify (E := E) (J := J) (set_sessions m)).
Proof. by intros w. Qed.
Lemma frame_ordinal n : always frame (modify (E := E) (J := J) (set_ordinal n)).
Proof. by intros w. Qed.

#[local] Hint Resolve frame_now frame_uuid frame_audit_log frame_events frame_state frame_sessions
  frame_ordinal : always.

Lemma frame_audit_record sid ev d b : always frame (audit_record (E := E) (J := J) sid ev d b).
Proof. unfold audit_record. always_split. Qed.
Lemma frame_publish e : always frame (publish (E := E) (J := J) e).
Proof. unfold publish. always_split. Qed.
Lemma frame_transition s r : always frame (transition_state (E := E) (J := J) s r).
Proof. unfold transition_state. always_split. Qed.
Lemma frame_put sid r : always frame (put_session (E := E) (J := J) sid r).
Proof. unfold put_session. always_split. Qed.
#[local] Hint Resolve frame_audit_record frame_publish frame_transition frame_put : always.

Lemma frame_transition_session sid s : always frame (transition_session (E := E) (J := J) sid s).
Proof. unfold transition_session, not_found. always_split. Qed.
#[local] Hint Resolve frame_transition_session : always.
Lemma frame_advance sid s : always frame (advance_session (E := E) (J := J) sid s).
Proof. unfold advance_session, not_found. always_split. Qed.
#[local] Hint Resolve frame_advance : always.
Lemma frame_advance_if_not sid s : always frame (advance_session_if_not (E := E) (J := J) sid s).
Proof. unfold advance_session_if_not, not_found. always_split. Qed.
Lemma frame_ensure : always frame (ensure_accepting (E := E) (J := J)).
Proof. unfold ensure_accepting. always_split. Qed.
Lemma frame_update sid f : always frame (update_session (E := E) (J := J) sid f).
Proof. unfold update_session. always_split. Qed.
#[local] Hint Resolve frame_advance_if_not frame_ensure frame_update : always.
Lemma frame_complete sid : always frame (complete_session (E := E) (J := J) sid).
Proof. unfold complete_session. always_split. Qed.
Lemma frame_request sid a i m : always frame (UserRequest_new (E := E) (J := J) sid a i m).
Proof. unfold UserRequest_new. always_split. Qed.
Lemma frame_parse p : always frame (parse_session (E := E) (J := J) p).
Proof. unfold parse_session. always_split. Qed.
#[local] Hint Resolve frame_complete frame_request frame_parse : always.

Lemma frame_create actor : always frame (create_session (E := E) (J := J) actor).
Proof. unfold create_session. always_split. Qed.
Lemma frame_cancel_action sid a : always frame (cancel_action (E := E) (J := J) sid a).
Proof. unfold cancel_action, not_found. always_split. Qed.
Lemma frame_cancel_session sid : always frame (cancel_session (E := E) (J := J) sid).
Proof. unfold cancel_session, not_found. always_split. Qed.
#[local] Hint Resolve frame_cancel_session : always.
Lemma frame_cancel_each l : always frame (cancel_each (E := E) (J := J) l).
Proof. induction l; simpl; always_split. Qed.
#[local] Hint Resolve frame_cancel_each : always.
Lemma frame_stop : always frame (stop (E := E) (J := J) (@iter)).
Proof. unfold stop. always_split. Qed.
Lemma frame_fail r : always frame (fail_host (E := E) (J := J) r).
Proof. unfold fail_host. always_split. Qed.
Lemma frame_deny_invalid sid a l : always frame (deny_invalid (E := E) (J := J) sid a l).
Proof. unfold deny_invalid. always_split. Qed.
#[local] Hint Resolve frame_deny_invalid : always.

(** ** What executing an action sends *)

Definition sends (a : Action) (w w' : World E J) : Prop :=
  h_pending_approvals (w_host w') = h_pending_approvals (w_host w) ∧
  h_validator (w_host w') = h_validator (w_host w) ∧
  ∃ l, w_sent w' = w_sent w ++ l ∧ Forall (λ s, sent_action s = a) l.

#[export] Instance sends_preorder a : PreOrder (sends a).
Proof.
  split; [intros w; split_and!; [done..|]; exists []; by rewrite app_nil_r|].
  intros w1 w2 w3 (H1 & H2 & l1 & H3 & H3') (H4 & H5 & l2 & H6 & H6').
  split_and!; [congruence..|]. exists (l1 ++ l2). rewrite H6, H3, <-app_assoc.
  split; [done|]. by apply Forall_app.
Qed.

Lemma frame_sends a {A} (m : M E J A) : always frame m → always (sends a) m.
Proof.
  apply always_weaken. intros w w' (H1 & H2 & H3). split_and!; [done..|]. exists [].
  by rewrite app_nil_r.
Qed.

Lemma sends_exchange a port j line : always (sends a) (exchange a port j line).
Proof.
  intros w. unfold exchange. destruct (env_exchange port line (w_env w)) as [r e]. simpl.
  split_and!; [done..|]. eexists. split; [done|]. by constructor.
Qed.
#[local] Hint Resolve sends_exchange : always.
#[local] Hint Extern 1 (always (sends _) _) =>
  apply frame_sends; solve [auto with always typeclass_instances] : always.

Lemma sends_decode a s l : always (sends a) (decode_line (E := E) (J := J) s l).
Proof. unfold decode_line. always_split. Qed.
#[local] Hint Resolve sends_decode : always.

Lemma sends_ipc a p c j : always (sends a) (ipc_request p a c j).
Proof. unfold ipc_request. always_split. Qed.
Lemma sends_surface a p j : always (sends a) (surface_request p a j).
Proof. unfold surface_request. always_split. Qed.
#[local] Hint Resolve sends_ipc sends_surface : always.

Lemma sends_execute a p q : always (sends a) (execute p q a).
Proof.
  unfold execute, execute_variant, execute_windows, execute_files, file_request, execute_system,
    execute_devices, execute_power.
  destruct (act_variant a); always_split.
Qed.
#[local] Hint Resolve sends_execute : always.

Lemma sends_validated sid a r : always (sends a) (execute_validated_action sid a r).
Proof.
  unfold execute_validated_action, report_success, report_failure, record_action,
    record_session_error, record_request.
  always_split.
Qed.
End frame.

(** ** Histories of calls *)

Inductive Op :=
| OpGrant (caps : list string)
| OpCreate (actor : SessionActor)
| OpSubmit (sid : N) (actor : RequestActor) (a : Action)
| OpApprove (id : N)
| OpDeny (id : N) (reason : string)
| OpCancelAction (sid id : N)
| OpCancelSession (sid : N)
| OpStop
| OpFail (reason : string).

Inductive Reply {J : Type} :=
| RUnit | RSession (sid : N) | RBool (b : bool) | ROutcome (o : RequestOutcome J)
| RApproved (o : option (RequestOutcome J)).
Arguments Reply J : clear implicits.

Section history.
Context {E J : Type} `{!RuntimeEnv E} `{!JsonOps J} `{!JsonParse J} `{!ObservationText J}
  `{!UuidText}.
Context (iter : ∀ {V}, gmap N V → list (N * V)).

Definition run_op (op : Op) : M E J (Reply J) :=
  match op with
  | OpGrant caps => _ ← grant_capabilities caps; mret RUnit
  | OpCreate actor => sid ← create_session actor; mret (RSession sid)
  | OpSubmit sid actor a => o ← submit_action (@iter) sid actor a; mret (ROutcome o)
  | OpApprove id => o ← approve_request id; mret (RApproved o)
  | OpDeny id reason => b ← deny_request id reason; mret (RBool b)
  | OpCancelAction sid id => b ← cancel_action sid id; mret (RBool b)
  | OpCancelSession sid => b ← cancel_session sid; mret (RBool b)
  | OpStop => _ ← stop (@iter); mret RUnit
  | OpFail reason => _ ← fail_host reason; mret RUnit
  end.

(** The calls that were made with what they answered; a panic is the end. *)
Fixpoint host_run (ops : list Op) (w : World E J) : World E J * list (Op * outcome (Reply J)) :=
  match ops with
  | [] => (w, [])
  | op :: ops =>
      let '(w, o) := run_op op w in
      match o with
      | Panic => (w, [(op, o)])
      | _ => let '(w, h) := host_run ops w in (w, (op, o) :: h)
      end
  end.

(** The capabilities of the validator after a history. *)
Definition granted_after (caps : list string) (h : list (Op * outcome (Reply J))) : list string :=
  foldl (λ caps x, match x.1 with OpGrant caps => caps | _ => caps end) caps h.

Definition valid_under (caps : list string) (a : Action) : Prop :=
  vr_valid (Validator_validate caps a) = true.

Definition parked (op : Op) (o : outcome (Reply J)) (id : N) (a : Action) : Prop :=
  ∃ sid actor out, op = OpSubmit sid actor a ∧ o = Done (ROutcome out) ∧
    out_pending_approval_id out = Some (uuid_text id).

(** What one call may send, and what it may leave for approval. *)
Record step_ok (op : Op) (o : outcome (Reply J)) (w w' : World E J) : Prop := {
  so_validator : h_validator (w_host w') =
    match op with OpGrant caps => caps | _ => h_validator (w_host w) end;
  so_sent : ∃ l, w_sent w' = w_sent w ++ l ∧ ∀ s, s ∈ l →
    (∃ sid actor, op = OpSubmit sid actor (sent_action s) ∧
       valid_under (h_validator (w_host w)) (sent_action s) ∧ ¬ needs_approval (sent_action s)) ∨
    (∃ id p, op = OpApprove id ∧ h_pending_approvals (w_host w) !! id = Some p ∧
       sent_action s = pa_action p);
  so_pending id p : h_pending_approvals (w_host w') !! id = Some p →
    (h_pending_approvals (w_host w) !! id = Some p ∧ op ≠ OpApprove id ∧ ∀ r, op ≠ OpDeny id r) ∨
    (parked op o id (pa_action p) ∧ valid_under (h_validator (w_host w)) (pa_action p) ∧
     needs_approval (pa_action p));
}.

Lemma frame_step op o w w' :
  frame w w' → (∀ caps, op ≠ OpGrant caps) → (∀ id, op ≠ OpApprove id) →
  (∀ id r, op ≠ OpDeny id r) → step_ok op o w w'.
Proof.
  intros (H1 & H2 & H3) Hg Ha Hd. split.
  - rewrite H2. destruct op; naive_solver.
  - exists []. rewrite app_nil_r. split; [done|set_solver].
  - rewrite H1. naive_solver.
Qed.

(** The approvals that are left are among those that were there. *)
Definition shrinks (w w' : World E J) : Prop :=
  h_pending_approvals (w_host w') ⊆ h_pending_approvals (w_host w) ∧
  h_validator (w_host w') = h_validator (w_host w) ∧ w_sent w' = w_sent w.

#[export] Instance shrinks_preorder : PreOrder shrinks.
Proof.
  split; [by intros w|]. intros w1 w2 w3 (H1 & H2 & H3) (H4 & H5 & H6).
  split_and!; [by etrans|congruence..].
Qed.

Lemma frame_shrinks {A} (m : M E J A) : always frame m → always shrinks m.
Proof.
  apply always_weaken. intros w w' (H1 & H2 & H3). split_and!; [by rewrite H1|done..].
Qed.

Lemma shrinks_delete id w :
  shrinks w (modify (set_pending (delete id (h_pending_approvals (w_host w)))) w).1.
Proof. split_and!; [apply delete_subseteq|done..]. Qed.

Lemma evict_shrinks : always shrinks (evict_oldest_pending_approval (@iter)).
Proof.
  intros w. unfold evict_oldest_pending_approval. rewrite get_bind.
  destruct (oldest _) as [[id p]|]; [|by simpl].
  etrans; [apply (shrinks_delete id w)|]. eapply (frame_shrinks (audit_record _ _ _ _)).
  apply frame_audit_record.
Qed.

(** The world and the answer of a parked action. *)
Definition park_ok (a : Action) (w : World E J) (r : World E J * outcome (RequestOutcome J)) : Prop :=
  h_validator (w_host r.1) = h_validator (w_host w) ∧ w_sent r.1 = w_sent w ∧
  ∀ id p, h_pending_approvals (w_host r.1) !! id = Some p →
    h_pending_approvals (w_host w) !! id = Some p ∨
    (pa_action p = a ∧ ∃ out, r.2 = Done out ∧
       out_pending_approval_id out = Some (uuid_text id)).

Lemma shrinks_park a w w' o : shrinks w w' → park_ok a w (w', o).
Proof.
  intros (H1 & H2 & H3). split_and!; [done..|]. intros id p Hp. left. by eapply lookup_weaken.
Qed.

Ltac next_park H x :=
  eapply (bind_after shrinks);
    [exact H
    |apply frame_shrinks; auto using frame_advance, frame_now, frame_uuid, frame_audit_record,
       frame_publish, frame_request
    | |by intros; apply shrinks_park]; clear H; intros ? x H.

Lemma park_action_ok sid actor a w : park_ok a w (park_action (@iter) sid actor a w).
Proof.
  unfold park_action. cbn zeta. assert (shrinks w w) as H0 by done.
  next_park H0 x0. next_park H0 t. next_park H0 approval_id. next_park H0 x1. next_park H0 x2.
  next_park H0 request.
  rewrite get_bind. eapply (bind_after shrinks); [done| | |by intros; apply shrinks_park].
  { case_match; [apply evict_shrinks|apply always_ret; typeclasses eauto]. }
  intros w' _ (H1 & H2 & H3). rewrite get_bind. split_and!; [done..|]. simpl. intros id p.
  destruct (decide (id = approval_id)) as [->|Hne].
  - rewrite lookup_insert_eq. intros [= <-]. right. eauto.
  - rewrite lookup_insert_ne by done. intros Hp. left. by eapply lookup_weaken.
Qed.

Lemma bind_ret_pair {A B} (m : M E J A) (f : A → B) w :
  (m ≫= λ a, mret (f a)) w =
  ((m w).1, match (m w).2 with Done a => Done (f a) | Fail e => Fail e | Panic => Panic end).
Proof. unfold mbind, M_bind. by destruct (m w) as [w' []]. Qed.

(** Submitting keeps the frame until the action is parked or executed. *)
Lemma submit_step sid actor a w :
  let r := submit_action (@iter) sid actor a w in
  step_ok (OpSubmit sid actor a)
    (match r.2 with Done o => Done (ROutcome o) | Fail e => Fail e | Panic => Panic end) w r.1.
Proof.
  intros r. set (Q := λ r : World E J * outcome (RequestOutcome J),
    step_ok (OpSubmit sid actor a)
      (match r.2 with Done o => Done (ROutcome o) | Fail e => Fail e | Panic => Panic end) w r.1).
  change (Q r). subst r. unfold submit_action. cbn zeta.
  assert (∀ w1 o, frame w w1 → Q (w1, o)) as Hearly by (intros; by apply frame_step).
  assert (frame w w) as H0 by done.
  do 4 (eapply (bind_after frame); [exact H0| | |by auto];
    [auto using frame_ensure, frame_advance_if_not, frame_advance|]; clear H0; intros ? ? H0).
  rewrite get_bind, (proj1 (proj2 H0)).
  set (v := Validator_validate (h_validator (w_host w)) a).
  do 2 (eapply (bind_after frame); [exact H0|apply frame_audit_record| |by auto]; clear H0;
    intros ? ? H0).
  destruct (vr_valid v) eqn:Hv; cbn [negb]; cycle 1.
  { match goal with |- Q ?r => destruct r as [w' o] eqn:Er end. apply Hearly. etrans; [exact H0|].
    change w' with (w', o).1. rewrite <-Er. apply frame_deny_invalid. }
  destruct (vr_requires_confirmation v) eqn:Hc.
  - apply validate_confirmation in Hc. destruct H0 as (Hp & Hval & Hs).
    match goal with |- Q (?m ?x) =>
      assert (park_ok a x (m x)) as Hpark by apply park_action_ok; revert Hpark;
      destruct (m x) as [w' o]
    end. intros Hpark. destruct Hpark as (H1 & H2 & H3). simpl in *.
    split; simpl.
    + congruence.
    + exists []. rewrite app_nil_r. split; [congruence|set_solver].
    + intros id p Hid. destruct (H3 id p Hid) as [Hold|(<- & out & -> & Hout)].
      * left. rewrite <-Hp. naive_solver.
      * right. split_and!; [|done..]. exists sid, actor, out. done.
  - assert (¬ needs_approval a) as Hna.
    { intros Hn. apply (validate_confirmation (h_validator (w_host w))) in Hn. fold v in Hn. congruence. }
    eapply (bind_after frame); [exact H0|apply frame_request| |by auto]. clear H0.
    intros wr req (Hp & Hval & Hs).
    destruct (execute_validated_action sid a req wr) as [w' o] eqn:Er.
    assert (sends a wr w') as (H1 & H2 & l & H3 & H4).
    { change w' with (w', o).1. rewrite <-Er. apply sends_validated. }
    split; simpl.
    + congruence.
    + exists l. split; [congruence|]. intros s Hs'. left. rewrite Forall_forall in H4.
      rewrite (H4 s Hs'). by exists sid, actor.
    + intros id p. rewrite H1, Hp. naive_solver.
Qed.

Lemma approve_step id w :
  let r := approve_request id w in
  step_ok (OpApprove id)
    (match r.2 with Done o => Done (RApproved o) | Fail e => Fail e | Panic => Panic end) w r.1.
Proof.
  intros r. subst r. unfold approve_request. rewrite get_bind.
  destruct (h_pending_approvals (w_host w) !! id) as [p|] eqn:Hp; cycle 1.
  { simpl. split; [done|exists []; rewrite app_nil_r; split; [done|set_solver]|].
    intros id' p' Hp'. left. split_and!; [done| |done]. intros [= ->]. simpl in Hp'. congruence. }
  match goal with |- step_ok _ _ _ (?m w).1 => set (k := m) end.
  set (w0 := (modify (set_pending (delete id (h_pending_approvals (w_host w)))) w).1).
  assert (sends (pa_action p) w0 (k w).1) as (H1 & H2 & l & H3 & H4).
  { change (k w) with ((sid ← parse_session p;
      _ ← audit_record (uuid_text sid) EvApprovalGranted
            ("action=" +:+ action_name (act_variant (pa_action p)) +:+ " approval_id=" +:+
             uuid_text id) true;
      _ ← publish (EvtApprovalGranted (uuid_text sid) (uuid_text (act_id (pa_action p))));
      outcome ← execute_validated_action sid (pa_action p) (pa_request p);
      mret (Some outcome)) w0). clearbody w0. revert w0.
    match goal with |- ∀ w0, sends ?a w0 (?m w0).1 => change (always (sends a) m) end.
    apply always_bind; [typeclasses eauto|apply frame_sends, frame_parse|intros sid].
    apply always_bind; [typeclasses eauto|apply frame_sends, frame_audit_record|intros _].
    apply always_bind; [typeclasses eauto|apply frame_sends, frame_publish|intros _].
    apply always_bind; [typeclasses eauto|apply sends_validated|intros o].
    apply always_ret; typeclasses eauto. }
  split.
  - by rewrite H2.
  - exists l. split; [done|]. intros s Hs. right. exists id, p. split_and!; [done..|].
    rewrite Forall_forall in H4. by apply H4.
  - intros id' p'. rewrite H1. simpl. intros [Hne Hl]%lookup_delete_Some. left. naive_solver.
Qed.

Lemma deny_step id reason w :
  let r := deny_request id reason w in
  step_ok (OpDeny id reason)
    (match r.2 with Done o => Done (RBool o) | Fail e => Fail e | Panic => Panic end) w r.1.
Proof.
  intros r. subst r. unfold deny_request. rewrite get_bind.
  destruct (h_pending_approvals (w_host w) !! id) as [p|] eqn:Hp; cycle 1.
  { simpl. split; [done|exists []; rewrite app_nil_r; split; [done|set_solver]|].
    intros id' p' Hp'. left. split_and!; [done|done|]. intros r [= -> ->]. simpl in Hp'. congruence. }
  match goal with |- step_ok _ _ _ (?m w).1 => set (k := m) end.
  set (w0 := (modify (set_pending (delete id (h_pending_approvals (w_host w)))) w).1).
  assert (frame w0 (k w).1) as (H1 & H2 & H3).
  { unfold k. match goal with |- frame w0 ((_ ≫= ?f) w).1 => change (frame w0 (f tt w0).1) end.
    cbv beta. clearbody w0. revert w0.
    match goal with |- ∀ w0, frame w0 (?m w0).1 => change (always frame m) end.
    always_split; auto using frame_now, frame_parse, frame_audit_record, frame_publish, frame_advance.
    unfold record_session_error. apply frame_update. }
  split.
  - by rewrite H2.
  - exists []. rewrite app_nil_r. split; [done|set_solver].
  - intros id' p'. rewrite H1. simpl. intros [Hne Hl]%lookup_delete_Some. left. naive_solver.
Qed.

Lemma run_op_step op w : step_ok op (run_op op w).2 w (run_op op w).1.
Proof.
  destruct op; cbn [run_op]; rewrite bind_ret_pair; cbn [fst snd].
  - split; [done|exists []; rewrite app_nil_r; split; [done|set_solver]|]. intros id p Hp. left. naive_solver.
  - apply frame_step; [apply frame_create|done..].
  - apply submit_step.
  - apply approve_step.
  - apply deny_step.
  - apply frame_step; [apply frame_cancel_action|done..].
  - apply frame_step; [apply frame_cancel_session|done..].
  - apply frame_step; [apply frame_stop|done..].
  - apply frame_step; [apply frame_fail|done..].
Qed.

(** ** Which actions are executed *)

Section justified.
Context (caps : list string).
Implicit Types (h : list (Op * outcome (Reply J))).

(** The action waits for the approval [id]: it was parked under that id by a
    call that validated it, and no later call approved or denied the id. *)
Definition waiting h (id : N) (a : Action) : Prop :=
  ∃ h1 op o h2, h = h1 ++ (op, o) :: h2 ∧ parked op o id a ∧
    valid_under (granted_after caps h1) a ∧ needs_approval a ∧
    ∀ x, x ∈ h2 → x.1 ≠ OpApprove id ∧ ∀ r, x.1 ≠ OpDeny id r.

(** The action was submitted when it was valid and needs no approval, or
    approved while it was waiting. *)
Definition justified h (a : Action) : Prop :=
  ∃ h1 op o h2, h = h1 ++ (op, o) :: h2 ∧
    ((∃ sid actor, op = OpSubmit sid actor a ∧ valid_under (granted_after caps h1) a ∧
        ¬ needs_approval a) ∨
     (∃ id, op = OpApprove id ∧ waiting h1 id a)).

Record history_inv h (w : World E J) : Prop := {
  hi_validator : h_validator (w_host w) = granted_after caps h;
  hi_sent s : s ∈ w_sent w → justified h (sent_action s);
  hi_pending id p : h_pending_approvals (w_host w) !! id = Some p → waiting h id (pa_action p);
}.

Lemma justified_snoc h x a : justified h a → justified (h ++ [x]) a.
Proof.
  intros (h1 & op & o & h2 & -> & Hj). exists h1, op, o, (h2 ++ [x]). split; [|done].
  by rewrite <-app_assoc.
Qed.

Lemma history_step h op o w w' :
  history_inv h w → step_ok op o w w' → history_inv (h ++ [(op, o)]) w'.
Proof.
  intros [Hv Hs Hp] [Sv (l & Sl & Ss) Sp]. split.
  - rewrite Sv. unfold granted_after. rewrite foldl_app. simpl. destruct op; done.
  - rewrite Sl. intros s [Hin|Hin]%elem_of_app; [by apply justified_snoc, Hs|].
    exists h, op, o, []. split; [done|]. destruct (Ss s Hin) as [(sid & actor & -> & Hva & Hn)|
      (id & p & -> & Hid & Ha)].
    + left. rewrite <-Hv. eauto.
    + right. exists id. split; [done|]. rewrite Ha. by apply Hp.
  - intros id p Hid. destruct (Sp id p Hid) as [(Hold & Hna & Hnd)|(Hpark & Hva & Hn)].
    + destruct (Hp id p Hold) as (h1 & op' & o' & h2 & -> & H1 & H2 & H3 & H4).
      exists h1, op', o', (h2 ++ [(op, o)]). split_and!; [by rewrite <-app_assoc|done..|].
      intros x [Hx|Hx]%elem_of_app; [by apply H4|]. apply list_elem_of_singleton in Hx as ->. done.
    + exists h, op, o, []. split_and!; [done..|by rewrite <-Hv|done|set_solver].
Qed.

Lemma history_run ops h w :
  history_inv h w → history_inv (h ++ (host_run ops w).2) (host_run ops w).1.
Proof.
  revert h w. induction ops as [|op ops IH]; intros h w Hi; simpl; [by rewrite app_nil_r|].
  pose proof (run_op_step op w) as Hs. destruct (run_op op w) as [w1 o]. simpl in Hs.
  apply (history_step h op o w w1 Hi) in Hs. destruct o; [| |done].
  all: specialize (IH _ _ Hs); destruct (host_run ops w1) as [w2 h2]; simpl in *;
    by rewrite <-app_assoc in IH.
Qed.

(** C8: over any history of calls to a fresh host, every request sent to
    another service belongs to an action that was submitted when it passed
    validation under the capabilities granted at that time and whose risk needs
    no approval, or that was parked as one of high or critical risk by such a
    call, was handed out under an approval id, and was released by the first
    decision on that id, an approval. *)
Theorem no_unapproved_execution id control surface e ops :
  let '(w, h) := host_run ops (mkWorld (start_host id control surface caps) e []) in
  ∀ s, s ∈ w_sent w → justified h (sent_action s).
Proof.
  pose proof (history_run ops [] (mkWorld (start_host id control surface caps) e [])) as Hr.
  destruct (host_run ops _) as [w h]. simpl in Hr.
  assert (history_inv h w) as Hi by (apply Hr; split; [done|set_solver|done]). apply Hi.
Qed.
End justified.
End history.
