(* ===== verification/RuntimeSessions.v ===== *)
(** * How often a session acts

    The second group of theorems on [RuntimeHost]: the states a session can
    have between two calls, and that it executes at most one action. *)
From S2P Require Import Prelude RustStd Json Actions RuntimeLog RuntimeHost RuntimeProps.
From stdpp Require Import relations.

Section sessions.
Context {E J : Type} `{!RuntimeEnv E} `{!JsonOps J} `{!JsonParse J} `{!ObservationText J}
  {UT : UuidText} {UL : UuidLaws}.
Context (iter : ∀ {V}, gmap N V → list (N * V)).
Implicit Types (w : World E J) (t sid : N).

Lemma uuid_text_inj u v : uuid_text u = uuid_text v → u = v.
Proof. intros H%(f_equal uuid_parse). rewrite !uuid_parse_text in H. by injection H. Qed.

Definition requested t (e : AgentEvent) : bool :=
  match e with EvtActionRequested sid _ _ _ => (sid =? uuid_text t)%string | _ => false end.

(** The actions the session has begun to execute. *)
Definition acted t w : nat := length (List.filter (requested t) (h_events (w_host w))).

(** The state of the session and whether it was cancelled. *)
Definition mode (r : HostSessionRecord) : SessionState * bool :=
  (ses_state (hr_session r), ses_cancelled (hr_session r)).
Definition st t w : option (SessionState * bool) := mode <$> h_sessions (w_host w) !! t.

(** ** Parts that leave a session alone *)

Definition same t w w' : Prop := st t w' = st t w ∧ acted t w' = acted t w.

#[export] Instance same_preorder t : PreOrder (same t).
Proof. split; [by intros w|]. intros ??? [H1 H2] [H3 H4]. split; congruence. Qed.

(** A computation that cannot end in an error. *)
Definition no_fail {A} (m : M E J A) : Prop := ∀ w e, (m w).2 ≠ Fail e.

Lemma no_fail_bind {A B} (m : M E J A) (f : A → M E J B) :
  no_fail m → (∀ a, no_fail (f a)) → no_fail (m ≫= f).
Proof.
  intros Hm Hf w e. unfold mbind, M_bind. specialize (Hm w e). destruct (m w) as [w' []]; simpl in *;
    [apply Hf|congruence|done].
Qed.

Lemma bind_quiet {A B} (m : M E J A) (f : A → M E J B) R `{!PreOrder R} w0 w
    (Q : World E J * outcome B → Prop) :
  R w0 w → always R m → no_fail m → (∀ w1 a, R w0 w1 → Q (f a w1)) →
  (∀ w1, R w0 w1 → Q (w1, Panic)) → Q ((m ≫= f) w).
Proof.
  intros Hw Hm Hn Hd Hp. unfold mbind, M_bind. specialize (Hm w). specialize (Hn w).
  destruct (m w) as [w1 []]; simpl in *; [apply Hd; by etrans|by destruct (Hn e)|apply Hp; by etrans].
Qed.

Lemma quiet_audit s ev d b : no_fail (audit_record (E := E) (J := J) s ev d b).
Proof.
  intros w e. unfold audit_record, now. unfold mbind, M_bind. destruct (env_now _). simpl.
  by destruct (AuditLog_record _ _ _ _ _ _ _).
Qed.

Lemma quiet_publish ev : no_fail (publish (E := E) (J := J) ev).
Proof. intros w e. unfold publish. rewrite get_bind. by case_match. Qed.

Lemma quiet_update sid f : no_fail (update_session (E := E) (J := J) sid f).
Proof.
  intros w e. unfold update_session. rewrite get_bind. destruct (_ !! sid) as [r|]; [|done].
  unfold lift_option. by destruct (f r).
Qed.

Lemma quiet_record_error sid : no_fail (record_session_error (E := E) (J := J) sid).
Proof. apply quiet_update. Qed.
Lemma quiet_record_request sid id : no_fail (record_request (E := E) (J := J) sid id).
Proof. apply quiet_update. Qed.
Lemma quiet_record_action sid id : no_fail (record_action (E := E) (J := J) sid id).
Proof. apply quiet_update. Qed.

Lemma quiet_try {A} (m : M E J A) : no_fail (try m).
Proof. intros w e. unfold try. by destruct (m w) as [w' []]. Qed.

Lemma quiet_ignore {A} (m : M E J A) : no_fail (ignore m).
Proof. intros w e. unfold ignore. by destruct (m w) as [w' []]. Qed.

Lemma quiet_now : no_fail (now (E := E) (J := J)).
Proof. intros w e. unfold now. by destruct (env_now _). Qed.

Lemma same_now t : always (same t) now.
Proof. intros w. unfold now. by destruct (env_now _). Qed.
Lemma same_uuid t : always (same t) new_uuid.
Proof. intros w. unfold new_uuid. by destruct (env_uuid _). Qed.
Lemma same_audit_log t a : always (same t) (modify (set_audit_log a)).
Proof. by intros w. Qed.
Lemma same_state t s : always (same t) (modify (set_state s)).
Proof. by intros w. Qed.
Lemma same_ordinal t n : always (same t) (modify (set_ordinal n)).
Proof. by intros w. Qed.
Lemma same_exchange t a p j l : always (same t) (exchange a p j l).
Proof. intros w. unfold exchange. by destruct (env_exchange _ _ _). Qed.
#[local] Hint Resolve same_now same_uuid same_audit_log same_state same_ordinal same_exchange : always.

Lemma same_audit t s ev d b : always (same t) (audit_record s ev d b).
Proof. unfold audit_record. always_split. Qed.

Lemma acted_publish t e w :
  acted t (publish e w).1 = acted t w ∨
  requested t e = true ∧ acted t (publish e w).1 = S (acted t w).
Proof.
  unfold publish. rewrite get_bind. destruct (_ =? _)%N; [by left|]. unfold acted. simpl.
  rewrite List.filter_app, length_app. simpl. destruct (requested t e); simpl; [right|left]; lia.
Qed.

Lemma same_publish t e : requested t e = false → always (same t) (publish e).
Proof.
  intros He w. split.
  - unfold publish. rewrite get_bind. by destruct (_ =? _)%N.
  - destruct (acted_publish t e w) as [|[]]; [done|congruence].
Qed.

Lemma st_put t sid r w :
  st t (put_session sid r w).1 = if decide (sid = t) then Some (mode r) else st t w.
Proof.
  unfold put_session, st. simpl. case_decide as Hd; [subst; by rewrite lookup_insert_eq|].
  by rewrite lookup_insert_ne.
Qed.

Lemma same_put t sid r : sid ≠ t → always (same t) (put_session sid r).
Proof. intros Hne w. split; [rewrite st_put; by case_decide|done]. Qed.

(** An update that keeps the state of the session. *)
Lemma same_update t sid f :
  (∀ r r', f r = Some r' → mode r' = mode r) →
  always (same t) (update_session sid f).
Proof.
  intros Hf w. unfold update_session. rewrite get_bind.
  destruct (h_sessions (w_host w) !! sid) as [r|] eqn:Hr; [|by simpl].
  destruct (f r) as [r'|] eqn:Hr'; cbn [lift_option]; [|split; reflexivity]. split; [|done].
  change (st t (put_session sid r' w).1 = st t w). rewrite st_put. case_decide as Hd; [|done].
  subst. unfold st. rewrite Hr. simpl. by rewrite (Hf _ _ Hr').
Qed.

Lemma same_record_action t sid id : always (same t) (record_action sid id).
Proof.
  apply same_update. intros r r'. unfold count_action. destruct (count_up _); simpl; naive_solver.
Qed.
Lemma same_record_request t sid id : always (same t) (record_request sid id).
Proof.
  apply same_update. intros r r'. unfold count_request.
  destruct (count_up (ses_request_count _)), (count_up _); simpl; naive_solver.
Qed.
Lemma same_record_error t sid : always (same t) (record_session_error sid).
Proof.
  apply same_update. intros r r'. unfold mark_error.
  destruct (count_up _); simpl; naive_solver.
Qed.

Lemma same_request t s a i m : always (same t) (UserRequest_new s a i m).
Proof. unfold UserRequest_new. always_split. Qed.

Lemma same_execute t p q a : always (same t) (execute p q a).
Proof.
  assert (∀ s l, always (same t) (decode_line (E := E) (J := J) s l)) as Hd
    by (intros; unfold decode_line; always_split).
  assert (∀ c j, always (same t) (ipc_request p a c j)) as Hi
    by (intros; unfold ipc_request; always_split).
  assert (∀ j, always (same t) (surface_request q a j)) as Hs
    by (intros; unfold surface_request; always_split).
  unfold execute, execute_variant, execute_windows, execute_files, file_request, execute_system,
    execute_devices, execute_power.
  destruct (act_variant a); always_split.
Qed.

(** ** Transitions of a session *)

Lemma same_transition t sid next : sid ≠ t → always (same t) (transition_session sid next).
Proof.
  intros Hne. pose proof (same_put t sid) as Hp. unfold transition_session, not_found. always_split.
Qed.

Lemma same_advance t sid next : sid ≠ t → always (same t) (advance_session sid next).
Proof.
  intros Hne. pose proof (same_transition t sid next Hne). unfold advance_session, not_found.
  always_split.
Qed.

Lemma can_transition_not_terminal s next : can_transition_to s next = true → session_is_terminal s = false.
Proof. by destruct s, next. Qed.

Lemma transition_self t next w s c :
  st t w = Some (s, c) → can_transition_to s next = true →
  ∃ w', transition_session t next w = (w', Done tt) ∧ st t w' = Some (next, c) ∧
    acted t w' = acted t w.
Proof.
  intros Hs Hc. unfold st in Hs. apply fmap_Some in Hs as (r & Hr & Hm). injection Hm as -> ->.
  unfold transition_session. rewrite get_bind, Hr.
  rewrite (can_transition_not_terminal _ _ Hc), Hc. cbn [orb negb].
  unfold now. unfold mbind at 1, M_bind at 1. destruct (env_now (w_env w)) as [n e].
  eexists. split; [done|]. split; [|done].
  match goal with |- st t ?w' = _ => change w' with (put_session t (with_session
    (session_transition next n (hr_session r)).1 r) (mkWorld (w_host w) e (w_sent w))).1 end.
  rewrite st_put, decide_True by done. unfold session_transition, mode.
  rewrite (can_transition_not_terminal _ _ Hc), Hc. done.
Qed.

Inductive advanced t next w w' : outcome unit → Prop :=
| advanced_stays c : st t w = Some (next, c) → same t w w' → advanced t next w w' (Done tt)
| advanced_moves s : st t w = Some (s, false) → can_transition_to s next = true →
    st t w' = Some (next, false) → acted t w' = acted t w → advanced t next w w' (Done tt)
| advanced_fails e : (∀ s, st t w = Some (s, false) → can_transition_to s next = false) →
    same t w w' → advanced t next w w' (Fail e).

Lemma advance_self t next w :
  advanced t next w (advance_session t next w).1 (advance_session t next w).2.
Proof.
  unfold advance_session. rewrite get_bind.
  destruct (h_sessions (w_host w) !! t) as [r|] eqn:Hr; cycle 1.
  { simpl. constructor 3; [|done]. unfold st. by rewrite Hr. }
  assert (st t w = Some (mode r)) as Hst by (unfold st; by rewrite Hr).
  destruct (session_is_terminal _) eqn:Ht.
  { simpl. constructor 3; [|done]. intros s. rewrite Hst. intros [= <- _].
    destruct (can_transition_to _ _) eqn:Hc; [|done].
    apply can_transition_not_terminal in Hc. congruence. }
  destruct (ses_cancelled (hr_session r)) eqn:Hcan.
  { simpl. constructor 3; [|done]. intros s. rewrite Hst. unfold mode. rewrite Hcan. by intros [=]. }
  case_decide as Hd.
  { simpl. econstructor 1; [|done]. rewrite Hst. unfold mode. by rewrite Hd. }
  destruct (can_transition_to _ next) eqn:Hc; cbn [negb]; cycle 1.
  { simpl. constructor 3; [|done]. intros s. rewrite Hst. unfold mode. by intros [= <- _]. }
  unfold mode in Hst. rewrite Hcan in Hst.
  destruct (transition_self t next w _ _ Hst Hc) as (w' & -> & H1 & H2). simpl.
  by econstructor 2.
Qed.

(** ** The budget of a session: what it has done, and one more while it may *)

Definition late (s : SessionState) : bool :=
  match s with SsExecuting | SsObserving | SsCompleted | SsFailed | SsCancelled => true | _ => false end.

Definition open_mode (o : option (SessionState * bool)) : nat :=
  match o with Some (s, _) => if late s then 0 else 1 | None => 1 end.

Definition budget t w : nat := acted t w + open_mode (st t w).

(** Between two calls no session is executing or observing. *)
Definition idle t w : Prop :=
  ∀ s c, st t w = Some (s, c) → s ≠ SsExecuting ∧ s ≠ SsObserving.

(** A call keeps the budget, and leaves the session idle unless it panics. *)
Definition fine {A} t w (r : World E J * outcome A) : Prop :=
  budget t r.1 ≤ budget t w ∧ (r.2 ≠ Panic → idle t r.1).

Lemma same_budget t w w' : same t w w' → budget t w' = budget t w.
Proof. intros [H1 H2]. unfold budget. by rewrite H1, H2. Qed.

Lemma same_idle t w w' : same t w w' → idle t w → idle t w'.
Proof. intros [H1 _] Hi. unfold idle. by rewrite H1. Qed.

Lemma same_fine {A} t w w' (o : outcome A) : same t w w' → idle t w → fine t w (w', o).
Proof. intros Hs Hi. split; simpl; [by rewrite (same_budget _ _ _ Hs)|]. intros _. by eapply same_idle. Qed.

Lemma always_fine {A} t w (m : M E J A) : always (same t) m → idle t w → fine t w (m w).
Proof. intros Hm Hi. specialize (Hm w). destruct (m w) as [w' o]. by apply same_fine. Qed.

(** In a late state and with the action counted, what is left of a call may
    change the state to other late ones. *)
Definition spent t n w : Prop := acted t w = n ∧ ∃ s c, st t w = Some (s, c) ∧ late s = true.

Lemma spent_budget t n w : spent t n w → budget t w = n.
Proof. intros [Ha (s & c & Hs & Hl)]. unfold budget. rewrite Hs. simpl. rewrite Hl. lia. Qed.

Lemma same_spent t n w w' : same t w w' → spent t n w → spent t n w'.
Proof. intros [H1 H2] [H3 H4]. split; [congruence|]. by rewrite H1. Qed.

(** How a report on an execution ends: in a terminal state, or in a panic. *)
Definition closes t n {A} (r : World E J * outcome A) : Prop :=
  spent t n r.1 ∧
  match r.2 with
  | Done _ => ∃ s c, st t r.1 = Some (s, c) ∧ (s = SsCompleted ∨ s = SsFailed)
  | Fail _ => False
  | Panic => True
  end.

Lemma quiet_closes {A B} t n w0 w (m : M E J A) (f : A → M E J B) :
  same t w0 w → always (same t) m → no_fail m → spent t n w0 →
  (∀ w1 a, same t w0 w1 → closes t n (f a w1)) → closes t n ((m ≫= f) w).
Proof.
  intros Hw Hm Hn Hs Hf. eapply (bind_quiet _ _ (same t)); [done..|]. intros w1 Hw1.
  split; simpl; [by eapply same_spent|done].
Qed.

Lemma closes_ret {A} t n w s (a : A) :
  acted t w = n → st t w = Some (s, false) → s = SsCompleted ∨ s = SsFailed →
  closes t n (mret (M := M E J) a w).
Proof.
  intros Ha Hs Ht. split; simpl; [|by exists s, false]. split; [done|]. exists s, false.
  split; [done|]. by destruct Ht as [->| ->].
Qed.

Ltac next_quiet H w' :=
  eapply quiet_closes;
    [exact H|auto using same_audit, same_publish, same_record_error, same_now, same_record_request
    |auto using quiet_audit, quiet_publish, quiet_record_error, quiet_now
    |done|clear H; intros w' ? H].

Lemma success_closes t n w a req d res :
  st t w = Some (SsExecuting, false) → acted t w = n → closes t n (report_success t a req d res w).
Proof.
  intros Hs Ha. unfold report_success. assert (same t w w) as Hw by done.
  assert (spent t n w) as Hsp by (split; [done|by exists SsExecuting, false]).
  next_quiet Hw w1. next_quiet Hw w2.
  unfold mbind at 1, M_bind at 1. pose proof (advance_self t SsObserving w2) as Hadv.
  destruct (advance_session t SsObserving w2) as [w3 o]. simpl in Hadv.
  destruct Hw as [Hw1 Hw2]. rewrite Hs in Hw1.
  inversion Hadv as [c Hc|s Hc Ht Hst Hac|e Hno]; subst; try congruence.
  2:{ specialize (Hno _ Hw1). done. }
  unfold complete_session.
  destruct (transition_self t SsCompleted w3 _ _ Hst eq_refl) as (w4 & Ht4 & Hst4 & Hac4).
  unfold mbind at 1, M_bind at 1. unfold mbind at 1, M_bind at 1. rewrite Ht4.
  match goal with |- closes _ _ (let '(w0, o) := ?m w4 in match o with Done a0 => ?f w0 | _ => _ end) =>
    change (closes t (acted t w) ((m ≫= λ _, f) w4)) end.
  eapply (quiet_closes t _ w4); [done| | |split; [congruence|by exists SsCompleted, false]|].
  - apply always_bind; [typeclasses eauto|apply same_audit|intros _; by apply same_publish].
  - apply no_fail_bind; [apply quiet_audit|intros _; apply quiet_publish].
  - intros w5 _ [H1 H2]. cbv beta. rewrite get_bind. apply (closes_ret _ _ _ SsCompleted); [congruence..|by left].
Qed.

Lemma failure_closes t n w a req d e :
  st t w = Some (SsExecuting, false) → acted t w = n → closes t n (report_failure t a req d e w).
Proof.
  intros Hs Ha. unfold report_failure. assert (same t w w) as Hw by done.
  assert (spent t n w) as Hsp by (split; [done|by exists SsExecuting, false]).
  next_quiet Hw w1. next_quiet Hw w2.
  unfold mbind at 1, M_bind at 1, ignore. pose proof (advance_self t SsFailed w2) as Hadv.
  destruct (advance_session t SsFailed w2) as [w3 o]. simpl in Hadv.
  destruct Hw as [Hw1 Hw2]. rewrite Hs in Hw1.
  inversion Hadv as [c Hc|s Hc Ht Hst Hac|e' Hno]; subst; try congruence.
  2:{ specialize (Hno _ Hw1). done. }
  assert (same t w3 w3) as Hw by done.
  assert (spent t (acted t w) w3) as Hsp3 by (split; [congruence|by exists SsFailed, false]).
  clear Hsp. next_quiet Hw w4. destruct Hw as [H1 H2]. rewrite get_bind.
  apply (closes_ret _ _ _ SsFailed); [congruence..|by right].
Qed.

Lemma validated_self t a req w :
  idle t w → fine t w (execute_validated_action t a req w).
Proof.
  intros Hi. unfold execute_validated_action. cbn zeta.
  unfold mbind at 1, M_bind at 1. pose proof (advance_self t SsExecuting w) as Hadv.
  destruct (advance_session t SsExecuting w) as [w1 o]. simpl in Hadv.
  inversion Hadv as [c Hc|s Hc Ht Hst Hac|e' Hno Hsame]; subst.
  { by destruct (Hi _ _ Hc). }
  2:{ by apply same_fine. }
  assert (budget t w = S (acted t w)) as Hb.
  { unfold budget. rewrite Hc. destruct s; done || (simpl; lia). }
  assert (∀ {A} (r : World E J * outcome A), acted t r.1 ≤ S (acted t w) →
    (∃ s c, st t r.1 = Some (s, c) ∧ late s = true) → (r.2 ≠ Panic → idle t r.1) → fine t w r) as Hfine.
  { intros A r Hr (s' & c' & Hs' & Hl) Hid. split; [|done]. unfold budget at 1. rewrite Hs'. simpl.
    rewrite Hl. lia. }
  eapply (bind_quiet _ _ (same t) w1); [done|apply same_audit|apply quiet_audit| |].
  2:{ intros w2 [H1 H2]. apply Hfine; simpl; [lia| |done]. rewrite H1, Hst. by exists SsExecuting, false. }
  intros w2 _ [H1 H2].
  set (ev := EvtActionRequested _ _ _ _).
  assert (st t (publish ev w2).1 = st t w2) as Hps
    by (unfold publish; rewrite get_bind; by destruct (_ =? _)%N).
  pose proof (acted_publish t ev w2) as Hp. pose proof (quiet_publish ev w2) as Hq.
  unfold mbind at 1, M_bind at 1. destruct (publish ev w2) as [w3 o]. simpl in *.
  assert (st t w3 = Some (SsExecuting, false)) as Hs3 by congruence.
  assert (acted t w3 ≤ S (acted t w)) as Ha3 by (destruct Hp as [|[_ ?]]; lia).
  assert (∀ w4, same t w3 w4 → fine t w (A := RequestOutcome J) (w4, Panic)) as Hpan.
  { intros w4 [H3 H4]. apply Hfine; simpl; [lia| |done]. rewrite H3, Hs3. by exists SsExecuting, false. }
  destruct o; [|by destruct (Hq e)|by apply Hpan].
  eapply (bind_quiet _ _ (same t) w3);
    [done|apply same_record_action|apply quiet_record_action| |done]. intros w4 _ Hw.
  rewrite get_bind.
  eapply (bind_quiet _ _ (same t) w3); [exact Hw|apply same_now|apply quiet_now| |done].
  clear Hw. intros wb start Hw.
  eapply (bind_quiet _ _ (same t) w3);
    [exact Hw|apply always_try, same_execute|apply quiet_try| |done].
  clear Hw. intros wc exec Hw.
  eapply (bind_quiet _ _ (same t) w3); [exact Hw|apply same_now|apply quiet_now| |done].
  clear Hw. intros wd stop [H3 H4].
  match goal with |- fine t w ((?m ≫= ?f) wd) =>
    set (k := f); assert (closes t (acted t w3) (m wd)) as Hcl;
      [|revert Hcl; unfold mbind, M_bind; destruct (m wd) as [w5 o]] end.
  { destruct exec; [apply success_closes|apply failure_closes]; congruence. }
  intros [[Ha5 Hs5] Ho]. simpl in *. destruct o as [out| |]; [|done|apply Hfine; simpl; [lia|done|done]].
  destruct Ho as (s' & c' & Hs' & Ht'). unfold k.
  assert (∀ w6 (o : outcome (RequestOutcome J)), same t w5 w6 → fine t w (w6, o)) as Hend.
  { intros w6 o [H5 H6]. apply Hfine; simpl; [lia| |].
    - rewrite H5. exists s', c'. split; [done|]. by destruct Ht' as [->| ->].
    - intros _ s2 c2. rewrite H5, Hs'. intros [= <- <-]. by destruct Ht' as [->| ->]. }
  eapply (bind_quiet _ _ (same t) w5);
    [done|apply same_record_request|apply quiet_record_request| |by intros; apply Hend].
  intros w6 _ Hw. by apply Hend.
Qed.

Lemma not_requested t sid a n r : sid ≠ t → requested t (EvtActionRequested (uuid_text sid) a n r) = false.
Proof. intros Hne. simpl. apply String.eqb_neq. intros Heq%uuid_text_inj. congruence. Qed.

Lemma validated_other t sid a req : sid ≠ t → always (same t) (execute_validated_action sid a req).
Proof.
  intros Hne. pose proof (not_requested t sid) as Hr.
  unfold execute_validated_action, report_success, report_failure, complete_session. always_split;
    auto using same_audit, same_publish, same_advance, same_record_action, same_record_request,
      same_record_error, same_execute, same_transition.
Qed.

Lemma validated_fine t sid a req w : idle t w → fine t w (execute_validated_action sid a req w).
Proof.
  intros Hi. destruct (decide (sid = t)) as [->|Hne]; [by apply validated_self|].
  by apply always_fine; [apply validated_other|].
Qed.

(** ** Calls that execute nothing *)

Definition calm t w w' : Prop := idle t w → budget t w' ≤ budget t w ∧ idle t w'.

#[export] Instance calm_preorder t : PreOrder (calm t).
Proof.
  split; [by intros w Hi|]. intros w1 w2 w3 H1 H2 Hi.
  destruct (H1 Hi) as [? Hi2]. destruct (H2 Hi2). split; [lia|done].
Qed.

Lemma same_calm {A} t (m : M E J A) : always (same t) m → always (calm t) m.
Proof.
  apply always_weaken. intros w w' Hs Hi. rewrite (same_budget _ _ _ Hs). split; [done|].
  by eapply same_idle.
Qed.

Lemma calm_fine {A} t w w' (o : outcome A) : calm t w w' → idle t w → fine t w (w', o).
Proof. intros Hc Hi. destruct (Hc Hi) as [H1 H2]. by split. Qed.

Lemma always_calm_fine {A} t w (m : M E J A) : always (calm t) m → idle t w → fine t w (m w).
Proof. intros Hm Hi. specialize (Hm w). destruct (m w) as [w' o]. by apply calm_fine. Qed.

Lemma calm_advance t sid next :
  next ≠ SsExecuting → next ≠ SsObserving → always (calm t) (advance_session sid next).
Proof.
  intros Hn1 Hn2. destruct (decide (sid = t)) as [->|Hne]; [|by apply same_calm, same_advance].
  intros w Hi. pose proof (advance_self t next w) as Hadv.
  destruct (advance_session t next w) as [w' o]. simpl in *.
  inversion Hadv as [c Hc Hs|s Hc Ht Hst Hac|e Hno Hs]; subst.
  1,3: rewrite (same_budget _ _ _ Hs); split; [done|by eapply same_idle].
  unfold budget. rewrite Hac, Hst, Hc. simpl. destruct (Hi _ _ Hc). split.
  - destruct s; try done; destruct (late next); simpl; lia.
  - intros s' c'. rewrite Hst. by intros [= <- <-].
Qed.

Lemma calm_put_same t sid r r' w :
  h_sessions (w_host w) !! sid = Some r → mode r' = mode r → calm t w (put_session sid r' w).1.
Proof.
  intros Hr Hm Hi. assert (same t w (put_session sid r' w).1) as Hs.
  { split; [|done]. rewrite st_put. case_decide as Hd; [|done]. subst. unfold st. by rewrite Hr, Hm. }
  rewrite (same_budget _ _ _ Hs). split; [done|by eapply same_idle].
Qed.

Lemma calm_put_cancelled t sid r w :
  (mode r).1 = SsCancelled → calm t w (put_session sid r w).1.
Proof.
  intros Hm Hi. unfold budget, idle. rewrite st_put. case_decide as Hd; [|done].
  destruct (mode r) as [s c]. simpl in Hm. subst. split.
  - change (acted t _) with (acted t w). simpl. lia.
  - intros s' c' [= <- <-]. done.
Qed.

Lemma put_bind {A} sid r (f : unit → M E J A) w :
  (put_session sid r ≫= f) w = f tt (put_session sid r w).1.
Proof. done. Qed.

Create HintDb same discriminated.
#[local] Hint Resolve same_audit same_publish same_record_error same_now same_uuid same_request : same.
#[local] Hint Extern 1 (always (calm _) _) => apply same_calm; auto with same : always.
#[local] Hint Extern 1 (always (calm _) (advance_session _ _)) => apply calm_advance; done : always.

Lemma calm_audit t s ev d b : always (calm t) (audit_record s ev d b).
Proof. apply same_calm, same_audit. Qed.
Lemma calm_publish t e : requested t e = false → always (calm t) (publish e).
Proof. intros He. by apply same_calm, same_publish. Qed.
#[local] Hint Resolve calm_audit : always.

Lemma calm_cancel_session t sid : always (calm t) (cancel_session sid).
Proof.
  intros w. unfold cancel_session. rewrite get_bind.
  destruct (h_sessions (w_host w) !! sid) as [r|] eqn:Hr; [|by simpl].
  destruct (session_is_terminal _); rewrite put_bind.
  - by eapply calm_put_same.
  - set (r' := mkHostSessionRecord _ _ _ _).
    etrans; [by apply (calm_put_cancelled t sid r' w)|]. generalize (put_session sid r' w).1.
    match goal with |- ∀ w0, calm t w0 (?m w0).1 => change (always (calm t) m) end.
    always_split.
Qed.

Lemma calm_cancel_action t sid id : always (calm t) (cancel_action sid id).
Proof.
  intros w. unfold cancel_action. rewrite get_bind.
  destruct (h_sessions (w_host w) !! sid) as [r|] eqn:Hr; [|by simpl].
  case_decide; [|by simpl]. rewrite put_bind. set (r' := mkHostSessionRecord _ _ _ _).
  etrans; [by apply (calm_put_same t sid r r' w)|]. generalize (put_session sid r' w).1.
  match goal with |- ∀ w0, calm t w0 (?m w0).1 => change (always (calm t) m) end.
  always_split.
Qed.

Lemma calm_cancel_each t l : always (calm t) (cancel_each l).
Proof. induction l; simpl; always_split. apply calm_cancel_session. Qed.

Lemma calm_transition_state t s r : always (calm t) (transition_state s r).
Proof. apply same_calm. unfold transition_state. pose proof (same_state t). always_split. Qed.

Lemma calm_stop t : always (calm t) (stop (@iter)).
Proof. unfold stop. always_split; auto using calm_transition_state, calm_cancel_each. Qed.

Lemma calm_fail t r : always (calm t) (fail_host r).
Proof.
  apply same_calm. unfold fail_host.
  pose proof (same_state t). pose proof (same_audit t). pose proof (same_publish t). always_split.
Qed.

Lemma same_pending t m : always (same t) (modify (set_pending m)).
Proof. by intros w. Qed.

Lemma calm_deny t id reason : always (calm t) (deny_request id reason).
Proof.
  unfold deny_request, parse_session. pose proof (same_pending t). always_split.
Qed.

Lemma same_evict t : always (same t) (evict_oldest_pending_approval (@iter)).
Proof.
  unfold evict_oldest_pending_approval. pose proof (same_pending t). pose proof (same_audit t).
  always_split.
Qed.

Lemma calm_park t sid actor a : always (calm t) (park_action (@iter) sid actor a).
Proof.
  unfold park_action. cbn zeta. pose proof (same_pending t). pose proof (same_evict t). always_split.
Qed.

Lemma calm_advance_if_not t sid : always (calm t) (advance_session_if_not sid SsReady).
Proof. unfold advance_session_if_not, not_found. always_split. Qed.

Lemma submit_fine t sid actor a w : idle t w → fine t w (submit_action (@iter) sid actor a w).
Proof.
  intros Hi. unfold submit_action, ensure_accepting. cbn zeta.
  assert (∀ w1 (o : outcome (RequestOutcome J)), calm t w w1 → fine t w (w1, o)) as Hearly
    by (intros; by apply calm_fine).
  assert (calm t w w) as H0 by done.
  do 4 (eapply (bind_after (calm t)); [exact H0|auto using calm_advance_if_not; always_split| |by auto];
    clear H0; intros ? ? H0).
  rewrite get_bind.
  do 2 (eapply (bind_after (calm t)); [exact H0|apply calm_audit| |by auto]; clear H0; intros ? ? H0).
  destruct (H0 Hi) as [Hb Hi'].
  assert (∀ (r : World E J * outcome (RequestOutcome J)) w1, fine t w1 r →
    budget t w1 ≤ budget t w → fine t w r) as Htrans.
  { intros r w1' [H1 H2] Hle. split; [lia|done]. }
  destruct (negb _); [|destruct (vr_requires_confirmation _)].
  - eapply Htrans; [apply always_calm_fine; [|done]|done]. unfold deny_invalid. always_split.
  - eapply Htrans; [apply always_calm_fine; [apply calm_park|done]|done].
  - eapply (bind_after (calm t)); [exact H0|always_split| |by auto]. clear H0 Hb Hi'.
    intros w1' req H0. destruct (H0 Hi) as [Hb Hi'].
    eapply Htrans; [by apply validated_fine|done].
Qed.

Lemma approve_fine t id w : idle t w → fine t w (approve_request id w).
Proof.
  intros Hi. unfold approve_request. rewrite get_bind.
  destruct (h_pending_approvals (w_host w) !! id) as [p|]; [|by apply calm_fine].
  assert (∀ w1 (o : outcome (option (RequestOutcome J))), calm t w w1 → fine t w (w1, o)) as Hearly
    by (intros; by apply calm_fine).
  assert (calm t w w) as H0 by done. pose proof (same_pending t). unfold parse_session.
  do 4 (eapply (bind_after (calm t)); [exact H0|always_split| |by auto]; clear H0; intros ? ? H0).
  destruct (H0 Hi) as [Hb Hi']. rewrite bind_ret_pair.
  match goal with |- fine t w ((?m ?w1).1, _) => destruct (validated_fine t a0 (pa_action p) (pa_request p) w1 Hi') as [H1 H2] end.
  split; simpl; [lia|]. intros Hp. apply H2. intros Hp'. apply Hp. by rewrite Hp'.
Qed.

(** ** Creating sessions *)

Definition absent t w w' : Prop := st t w = None → st t w' = None.

#[export] Instance absent_preorder t : PreOrder (absent t).
Proof. split; [by intros w Hn|]. intros w1 w2 w3 H1 H2 Hn. by apply H2, H1. Qed.

Lemma same_absent {A} t (m : M E J A) : always (same t) m → always (absent t) m.
Proof. apply always_weaken. intros w w' [Hs _] Hn. by rewrite Hs. Qed.

Lemma absent_put t sid r r' w :
  h_sessions (w_host w) !! sid = Some r → absent t w (put_session sid r' w).1.
Proof.
  intros Hr. unfold absent. rewrite st_put. case_decide as Hd; [|done]. subst. unfold st. by rewrite Hr.
Qed.

Lemma absent_advance t sid next : always (absent t) (advance_session sid next).
Proof.
  destruct (decide (sid = t)) as [->|Hne]; [|by apply same_absent, same_advance].
  intros w Hn. pose proof (advance_self t next w) as Hadv.
  destruct (advance_session t next w) as [w' o]. simpl in *.
  inversion Hadv as [c Hc|s Hc|e Hno [Hs _]]; subst; congruence.
Qed.

Lemma absent_transition t sid next : always (absent t) (transition_session sid next).
Proof.
  intros w. unfold transition_session. rewrite get_bind.
  destruct (h_sessions (w_host w) !! sid) as [r|] eqn:Hr; [|by simpl].
  destruct (_ || _); [by destruct (session_transition _ _ _) as [? []]|].
  unfold now, mbind, M_bind. destruct (env_now (w_env w)) as [n e].
  by apply (absent_put t sid r _ (mkWorld (w_host w) e (w_sent w))).
Qed.

#[local] Hint Resolve absent_advance absent_transition : always.
#[local] Hint Resolve same_record_action same_record_request same_execute same_state : same.
#[local] Hint Extern 2 (always (absent _) _) => apply same_absent; auto with same : always.

Lemma absent_publish t e : always (absent t) (publish e).
Proof. intros w Hn. unfold publish. rewrite get_bind. by destruct (_ =? _)%N. Qed.
#[local] Hint Resolve absent_publish : always.

Lemma absent_validated t sid a req : always (absent t) (execute_validated_action sid a req).
Proof. unfold execute_validated_action, report_success, report_failure, complete_session. always_split. Qed.

Lemma absent_cancel_session t sid : always (absent t) (cancel_session sid).
Proof.
  intros w. unfold cancel_session. rewrite get_bind.
  destruct (h_sessions (w_host w) !! sid) as [r|] eqn:Hr; [|by simpl].
  destruct (session_is_terminal _); rewrite put_bind; set (r' := mkHostSessionRecord _ _ _ _).
  - by apply (absent_put t sid r).
  - etrans; [by apply (absent_put t sid r r' w)|]. generalize (put_session sid r' w).1.
    match goal with |- ∀ w0, absent t w0 (?m w0).1 => change (always (absent t) m) end.
    always_split.
Qed.

Lemma absent_cancel_action t sid id : always (absent t) (cancel_action sid id).
Proof.
  intros w. unfold cancel_action. rewrite get_bind.
  destruct (h_sessions (w_host w) !! sid) as [r|] eqn:Hr; [|by simpl].
  case_decide; [|by simpl]. rewrite put_bind. set (r' := mkHostSessionRecord _ _ _ _).
  etrans; [by apply (absent_put t sid r r' w)|]. generalize (put_session sid r' w).1.
  match goal with |- ∀ w0, absent t w0 (?m w0).1 => change (always (absent t) m) end.
  always_split.
Qed.

Lemma absent_cancel_each t l : always (absent t) (cancel_each l).
Proof. pose proof (absent_cancel_session t). induction l; simpl; always_split. Qed.

Lemma same_grants t caps : always (same t) (grant_capabilities caps).
Proof. by intros w. Qed.

(** Only creating a session makes one appear. *)
Lemma absent_run_op t op : (∀ actor, op ≠ OpCreate actor) → always (absent t) (run_op (@iter) op).
Proof.
  intros Hc. pose proof (same_pending t). pose proof (same_evict t). pose proof (absent_validated t).
  pose proof (absent_cancel_action t). pose proof (absent_cancel_session t).
  pose proof (absent_cancel_each t). pose proof (same_grants t).
  destruct op; simpl; [always_split|by destruct (Hc actor)|..];
    unfold submit_action, ensure_accepting, advance_session_if_not, not_found, deny_invalid,
      park_action, approve_request, deny_request, parse_session, stop, transition_state, fail_host;
    always_split.
Qed.

Lemma create_fine t actor w :
  idle t w →
  let r := create_session actor w in
  (r.2 = Done t → st t w = None) →
  fine t w r ∧ (st t w = None → st t r.1 ≠ None → r.2 = Done t).
Proof.
  intros Hi. cbn zeta. set (Q := λ r : World E J * outcome N, (r.2 = Done t → st t w = None) →
    fine t w r ∧ (st t w = None → st t r.1 ≠ None → r.2 = Done t)).
  change (Q (create_session actor w)).
  assert (∀ w1 o, same t w w1 → Q (w1, o)) as Hearly.
  { intros w1 o Hs _. split; [by apply same_fine|]. destruct Hs as [Hs _]. simpl. congruence. }
  unfold create_session, ensure_accepting. assert (same t w w) as H0 by done.
  eapply (bind_after (same t)); [exact H0|always_split| |by auto]. clear H0. intros w1 _ H0.
  rewrite get_bind. destruct (_ <=? _)%nat; [by apply Hearly|].
  eapply (bind_after (same t)); [exact H0|apply same_now| |by auto]. clear H0. intros w2 n H0.
  eapply (bind_after (same t)); [exact H0|apply same_uuid| |by auto]. clear H0. intros w3 id H0.
  destruct (_ =? u64_max)%N; [by apply Hearly|].
  eapply (bind_after (same t)); [exact H0|apply same_ordinal| |by auto]. clear H0. intros w4 _ H0.
  eapply (bind_after (same t)); [exact H0|apply same_now| |by auto]. clear H0. intros w5 n' H0.
  cbn [session_transition AgentSession_new ses_state session_is_terminal can_transition_to negb].
  eapply (bind_after (same t)); [exact H0|apply same_audit| |by auto]. clear H0. intros w6 _ H0.
  eapply (bind_after (same t)); [exact H0|by apply same_publish| |by auto]. clear H0. intros w7 _ [H1 H2].
  rewrite put_bind, get_bind. set (r := mkHostSessionRecord _ _ _ _).
  set (w8 := (put_session id r w7).1).
  assert (∃ w9, ((if decide (h_state (w_host w8) = HsReady)
      then transition_state HsRunning "first session created" else mret tt) ≫= λ _, mret id) w8
    = (w9, Done id) ∧ same t w8 w9) as (w9 & -> & [H3 H4]).
  { case_decide as Hd; [|by eexists]. unfold transition_state, mbind, M_bind. simpl.
    unfold w8 in Hd. simpl in Hd. rewrite Hd. by eexists. }
  assert (st t w9 = if decide (id = t) then Some (SsReady, false) else st t w) as Hst.
  { rewrite H3. unfold w8. rewrite st_put, H1. done. }
  assert (acted t w9 = acted t w) as Hac by (rewrite H4, <-H2; done).
  intros Hnew. simpl in *. case_decide as Hd.
  - subst id. specialize (Hnew eq_refl). split; [|done]. split; simpl.
    + unfold budget. rewrite Hst, Hac, Hnew. done.
    + intros _ s c. rewrite Hst. by intros [= <- <-].
  - split; [by apply same_fine|]. intros. congruence.
Qed.

(** ** Histories *)

Definition created (h : list (Op * outcome (Reply J))) : list N :=
  omap (λ x, match x.2 with Done (RSession sid) => Some sid | _ => None end) h.

Definition moderate (h : list (Op * outcome (Reply J))) w : Prop :=
  ∀ t, idle t w ∧ budget t w ≤ 1 ∧ (st t w ≠ None → t ∈ created h).

Lemma run_op_fine t op w :
  idle t w → (∀ actor, op ≠ OpCreate actor) → fine t w (run_op (@iter) op w).
Proof.
  intros Hi Hc.
  assert (∀ {A} (m : M E J A) (f : A → Reply J), fine t w (m w) → fine t w ((x ← m; mret (f x)) w)) as Hret.
  { intros A m f [H1 H2]. rewrite bind_ret_pair. split; [done|]. simpl. intros Hp. apply H2.
    intros Hp'. apply Hp. by rewrite Hp'. }
  destruct op; cbn [run_op]; [..|]; try (by destruct (Hc actor)); apply Hret.
  - by apply always_fine; [apply same_grants|].
  - by apply submit_fine.
  - by apply approve_fine.
  - by apply always_calm_fine; [apply calm_deny|].
  - by apply always_calm_fine; [apply calm_cancel_action|].
  - by apply always_calm_fine; [apply calm_cancel_session|].
  - by apply always_calm_fine; [apply calm_stop|].
  - by apply always_calm_fine; [apply calm_fail|].
Qed.

Lemma created_snoc h op (o : outcome (Reply J)) :
  created (h ++ [(op, o)]) =
  created h ++ match o with Done (RSession sid) => [sid] | _ => [] end.
Proof. unfold created. rewrite omap_app. simpl. by destruct o as [[]| |]. Qed.

Lemma moderate_step h op w :
  let '(w', o) := run_op (@iter) op w in
  moderate h w → NoDup (created (h ++ [(op, o)])) →
  (∀ t, budget t w' ≤ 1) ∧ (o ≠ Panic → moderate (h ++ [(op, o)]) w').
Proof.
  destruct (run_op (@iter) op w) as [w' o] eqn:Er. intros Hm Hnd.
  assert (∀ t, fine t w (w', o) ∧ (st t w' ≠ None → st t w ≠ None ∨ o = Done (RSession t))) as Hall.
  { intros t. destruct (Hm t) as (Hi & _ & Hin).
    assert ((∃ actor, op = OpCreate actor) ∨ ∀ actor, op ≠ OpCreate actor) as [[actor ->]|Hc]
      by (destruct op; naive_solver).
    - cbn [run_op] in Er. rewrite bind_ret_pair in Er.
      destruct (create_fine t actor w Hi) as [Hf Hn].
      { intros Ho. destruct (create_session actor w) as [w1 o1]. simpl in *. subst o1.
        injection Er as <- <-. rewrite created_snoc in Hnd. apply NoDup_app in Hnd as (_ & Hnd & _).
        destruct (st t w) eqn:Hst; [|done]. destruct (Hnd t); [apply Hin; congruence|set_solver]. }
      destruct (create_session actor w) as [w1 o1]. simpl in *. injection Er as <- <-. split.
      + destruct Hf as [H1 H2]. split; [done|]. simpl in *. intros Hp. apply H2. intros Hp'. by rewrite Hp' in Hp.
      + intros Hs. destruct (st t w) eqn:Hst; [by left|]. right. specialize (Hn eq_refl Hs). simpl in Hn. by subst.
    - pose proof (run_op_fine t op w Hi Hc) as Hf. rewrite Er in Hf. split; [done|].
      intros Hs. left. intros Hn. apply Hs. pose proof (absent_run_op t op Hc w Hn) as Ha.
      by rewrite Er in Ha. }
  split.
  - intros t. destruct (Hall t) as [[H1 _] _], (Hm t) as (_ & H2 & _). simpl in H1. lia.
  - intros Hp t. destruct (Hall t) as [[H1 H2] H3], (Hm t) as (_ & H4 & H5). simpl in *.
    split_and!; [by apply H2|lia|]. intros Hs. rewrite created_snoc. apply elem_of_app.
    destruct (H3 Hs) as [H6| ->]; [left; by apply H5|right; set_solver].
Qed.

Lemma host_run_cons op ops w :
  let '(w1, o) := run_op (@iter) op w in
  let r := host_run (@iter) (op :: ops) w in
  (o = Panic ∧ r = (w1, [(op, o)])) ∨
  (o ≠ Panic ∧ r = ((host_run (@iter) ops w1).1, (op, o) :: (host_run (@iter) ops w1).2)).
Proof.
  simpl. destruct (run_op (@iter) op w) as [w1 o].
  destruct o; [right|right|by left]; by destruct (host_run (@iter) ops w1).
Qed.

Lemma moderate_run ops h w :
  moderate h w → NoDup (created (h ++ (host_run (@iter) ops w).2)) →
  ∀ t, budget t (host_run (@iter) ops w).1 ≤ 1.
Proof.
  revert h w. induction ops as [|op ops IH]; intros h w Hm Hnd t; [apply Hm|].
  pose proof (moderate_step h op w) as Hs. pose proof (host_run_cons op ops w) as Hc.
  destruct (run_op (@iter) op w) as [w1 o]. destruct Hc as [[-> Hc]|[Hp Hc]]; rewrite Hc in *;
    cbn [fst snd] in *.
  - destruct (Hs Hm Hnd) as [Hb _]. apply Hb.
  - rewrite (cons_middle (op, o) h), app_assoc in Hnd.
    apply (IH (h ++ [(op, o)]) w1); [|done]. apply Hs; [done| |done].
    unfold created in *. rewrite omap_app in Hnd. by apply NoDup_app in Hnd as [? _].
Qed.

(** C9: a session executes at most one action.  Over any history of calls to a
    fresh host in which the generator of uuids gives every new session its own
    id, at most one action is ever begun for a session, counted by the events
    that announce it, whatever was submitted, approved, denied or cancelled in
    between. *)
Theorem session_acts_at_most_once id control surface caps e ops t :
  let '(w, h) := host_run (@iter) ops (mkWorld (start_host id control surface caps) e []) in
  NoDup (created h) → acted t w ≤ 1.
Proof.
  pose proof (moderate_run ops [] (mkWorld (start_host id control surface caps) e [])) as Hr.
  destruct (host_run (@iter) ops _) as [w h]. simpl in Hr. intros Hnd.
  assert (budget t w ≤ 1) as Hb; [|unfold budget in Hb; lia].
  apply Hr; [|done]. intros t'. split_and!; [by intros s c|done|done].
Qed.

(** ** Sessions of denied actions *)

Lemma ready_advances t w next s :
  st t w = Some (s, false) → can_transition_to s next = true →
  ∃ w', advance_session t next w = (w', Done tt) ∧ st t w' = Some (next, false) ∧
    acted t w' = acted t w.
Proof.
  intros Hs Hc. pose proof (advance_self t next w) as Hadv.
  destruct (advance_session t next w) as [w' o]. simpl in Hadv.
  inversion Hadv as [c Hst|s' Hst Ht Hst' Hac|e Hno]; subst.
  - rewrite Hs in Hst. injection Hst as -> ->. by destruct next.
  - by exists w'.
  - rewrite (Hno _ Hs) in Hc. done.
Qed.

Lemma stuck_advance t w next s :
  st t w = Some (s, false) → s ≠ next → can_transition_to s next = false →
  ∃ e, (advance_session t next w).2 = Fail e ∧ same t w (advance_session t next w).1.
Proof.
  intros Hs Hne Hc. pose proof (advance_self t next w) as Hadv.
  destruct (advance_session t next w) as [w' o]. simpl in *.
  inversion Hadv as [c Hst|s' Hst Ht|e Hno Hsame]; subst; [congruence|congruence|by exists e].
Qed.

Lemma ensure_accepting_ok w :
  is_accepting (h_state (w_host w)) = true → ensure_accepting (E := E) (J := J) w = (w, Done tt).
Proof. intros Ha. unfold ensure_accepting. by rewrite get_bind, Ha. Qed.

Lemma st_lookup t w m : st t w = Some m → ∃ r, h_sessions (w_host w) !! t = Some r ∧ mode r = m.
Proof. unfold st. intros (r & Hr & ->)%fmap_Some. eauto. Qed.

Lemma bind_done {A B} (m : M E J A) (k : A → M E J B) w w' x :
  m w = (w', Done x) → (m ≫= k) w = k x w'.
Proof. intros H. unfold mbind, M_bind. by rewrite H. Qed.

Lemma bind_fail {A B} (m : M E J A) (k : A → M E J B) w w' e :
  m w = (w', Fail e) → (m ≫= k) w = (w', Fail e).
Proof. intros H. unfold mbind, M_bind. by rewrite H. Qed.

Lemma if_not_ready t w s :
  st t w = Some (s, false) → s ≠ SsReady → session_is_terminal s = false →
  advance_session_if_not t SsReady w = advance_session t SsReady w.
Proof.
  intros Hs Hne Ht. destruct (st_lookup _ _ _ Hs) as (r & Hr & Hm). injection Hm as Hm _.
  unfold advance_session_if_not. by rewrite get_bind, Hr, Hm, bool_decide_false, Ht.
Qed.

(** A session left in planning takes no action any more. *)
Lemma planning_refuses t actor a w :
  st t w = Some (SsPlanning, false) →
  let r := submit_action (@iter) t actor a w in
  (∃ e, r.2 = Fail e) ∧ st t r.1 = Some (SsPlanning, false) ∧ acted t r.1 = acted t w.
Proof.
  intros Hs. cbn zeta. unfold submit_action. cbn zeta.
  destruct (is_accepting (h_state (w_host w))) eqn:Ha.
  - rewrite (bind_done _ _ _ _ _ (ensure_accepting_ok _ Ha)).
    destruct (stuck_advance t w SsReady SsPlanning Hs) as (e & He & Hst & Hac); [done..|].
    rewrite (bind_fail _ _ w (advance_session t SsReady w).1 e).
    + simpl. split_and!; [eauto|congruence|congruence].
    + rewrite if_not_ready with (s := SsPlanning) by done. rewrite <- He. by destruct (advance_session _ _ _).
  - erewrite bind_fail; [|unfold ensure_accepting; rewrite get_bind, Ha; done].
    simpl. split_and!; [eauto|done..].
Qed.

Lemma deny_invalid_spec t a errs w :
  st t w = Some (SsPlanning, false) →
  let r := deny_invalid t a errs w in
  same t w r.1 ∧ (r.2 = Panic ∨ r.2 = Fail (AeValidation (String.concat "; " errs))).
Proof.
  intros Hs. cbn zeta.
  set (Q := λ r : World E J * outcome (RequestOutcome J),
    same t w r.1 ∧ (r.2 = Panic ∨ r.2 = Fail (AeValidation (String.concat "; " errs)))).
  change (Q (deny_invalid t a errs w)). unfold deny_invalid. cbn zeta.
  destruct (stuck_advance t w SsFailed SsPlanning Hs) as (e & He & Hsame); [done..|].
  rewrite (bind_done _ _ w (advance_session t SsFailed w).1 tt);
    [|unfold ignore; destruct (advance_session t SsFailed w); simpl in He |- *; by subst].
  assert (∀ w1, same t w w1 → Q (w1, Panic)) as HP by (intros; split; [done|by left]).
  eapply (bind_quiet _ _ (same t) w); [done|apply same_audit|apply quiet_audit| |done].
  intros w2 _ Hw. eapply (bind_quiet _ _ (same t) w);
    [exact Hw|by apply same_publish|apply quiet_publish| |done].
  intros w3 _ Hw3. split; [done|by right].
Qed.

(** An action that does not pass validation strands its session.  The host
    means to move the session to the failed state, but that step is not allowed
    from planning and its error is dropped: the session stays in planning,
    still counts as active, and refuses every later action. *)
Theorem denied_action_strands_session t actor a w :
  st t w = Some (SsReady, false) → is_accepting (h_state (w_host w)) = true →
  vr_valid (Validator_validate (h_validator (w_host w)) a) = false →
  let '(w', o) := submit_action (@iter) t actor a w in
  o ≠ Panic →
  (∃ e, o = Fail (AeValidation e)) ∧ st t w' = Some (SsPlanning, false) ∧
  session_is_terminal SsPlanning = false ∧
  ∀ actor' a', let r := submit_action (@iter) t actor' a' w' in
    (∃ e, r.2 = Fail e) ∧ st t r.1 = Some (SsPlanning, false) ∧ acted t r.1 = acted t w'.
Proof.
  intros Hs Ha Hv. set (Q := λ r : World E J * outcome (RequestOutcome J), r.2 ≠ Panic →
    (∃ e, r.2 = Fail (AeValidation e)) ∧ st t r.1 = Some (SsPlanning, false)).
  assert (Q (submit_action (@iter) t actor a w)) as HQ.
  - unfold submit_action. cbn zeta. rewrite (bind_done _ _ _ _ _ (ensure_accepting_ok _ Ha)).
    destruct (st_lookup _ _ _ Hs) as (r & Hr & Hm). injection Hm as Hm _.
    rewrite (bind_done _ _ w w tt)
      by (unfold advance_session_if_not; by rewrite get_bind, Hr, Hm, bool_decide_true).
    destruct (ready_advances t w SsThinking SsReady Hs) as (w1 & H1 & Hs1 & _); [done|].
    destruct (ready_advances t w1 SsPlanning SsThinking Hs1) as (w2 & H2 & Hs2 & _); [done|].
    rewrite (bind_done _ _ _ _ _ H1), (bind_done _ _ _ _ _ H2), get_bind.
    pose proof (frame_advance t SsThinking w) as Hf1. pose proof (frame_advance t SsPlanning w1) as Hf2.
    rewrite H1 in Hf1. rewrite H2 in Hf2. destruct Hf1 as (_ & Hf1 & _), Hf2 as (_ & Hf2 & _).
    simpl in Hf1, Hf2. rewrite Hf2, Hf1.
    eapply (bind_quiet _ _ (same t) w2); [done|apply same_audit|apply quiet_audit| |by intros].
    intros w3 _ Hw. eapply (bind_quiet _ _ (same t) w2);
      [exact Hw|apply same_audit|apply quiet_audit| |by intros].
    clear w3 Hw. intros w3 _ [Hw _]. rewrite Hv. cbn [negb].
    destruct (deny_invalid_spec t a (vr_errors (Validator_validate (h_validator (w_host w)) a)) w3)
      as [[Hst _] Ho]; [congruence|]. intros Hp. split; [|congruence].
    destruct Ho as [?|Ho]; [done|eauto].
  - destruct (submit_action (@iter) t actor a w) as [w' o]. intros Hp. destruct (HQ Hp) as [He Hst].
    split_and!; [done..|]. intros actor' a'. by apply planning_refuses.
Qed.
End sessions.
