(* ===== verification/RuntimeScenarios.v ===== *)
(** * Attempts of the executor, and runs of the host

    How many requests [execute_with_recovery] makes for one action, a concrete
    environment in which the host runs, and runs of the host in it. *)
From S2P Require Import Prelude RustStd Json Actions RuntimeLog RuntimeHost RuntimeProps RuntimeSessions.
From stdpp Require Import relations.

(** ** Attempts *)

Section attempts.
Context {E J : Type} `{!RuntimeEnv E} `{!JsonOps J} `{!JsonParse J} `{!ObservationText J}
  {UT : UuidText}.
Implicit Types (w : World E J) (a : Action).

(** At most [n] requests for [a] were sent, and the host is as it was. *)
Definition attempts a (n : nat) w w' : Prop :=
  w_host w' = w_host w ∧
  ∃ l, w_sent w' = w_sent w ++ l ∧ length l ≤ n ∧ Forall (λ s, sent_action s = a) l.

Lemma attempts_refl a n w w' :
  w_host w' = w_host w → w_sent w' = w_sent w → attempts a n w w'.
Proof.
  intros H1 H2. split; [done|]. exists []. rewrite app_nil_r. split_and!; [done|simpl; lia|done].
Qed.

Lemma attempts_trans a n m w1 w2 w3 :
  attempts a n w1 w2 → attempts a m w2 w3 → attempts a (n + m) w1 w3.
Proof.
  intros (H1 & l1 & E1 & L1 & A1) (H2 & l2 & E2 & L2 & A2). split; [congruence|].
  exists (l1 ++ l2). rewrite E2, E1, <-app_assoc, length_app. split_and!; [done|lia|].
  by apply Forall_app.
Qed.

(** A computation that makes at most [n] requests for [a] and does not panic. *)
Definition tries a n {A} (m : M E J A) : Prop :=
  ∀ w, attempts a n w (m w).1 ∧ (m w).2 ≠ Panic.

Lemma tries_bind a n m {A B} (x : M E J A) (f : A → M E J B) :
  tries a n x → (∀ y, tries a m (f y)) → tries a (n + m) (x ≫= f).
Proof.
  intros Hx Hf w. unfold mbind, M_bind. destruct (Hx w) as [H1 H2].
  destruct (x w) as [w1 [y|e|]]; simpl in *; [|split; [|done]|done].
  - destruct (Hf y w1) as [H3 H4]. split; [by eapply attempts_trans|done].
  - destruct H1 as (H1 & l & Hl & Hn & Ha). split; [done|]. exists l. split_and!; [done|lia|done].
Qed.

Lemma tries_weaken a n m {A} (x : M E J A) : tries a n x → n ≤ m → tries a m x.
Proof.
  intros H Hle w. destruct (H w) as [(H1 & l & Hl & Hn & Ha) H2]. split; [|done].
  split; [done|]. exists l. split_and!; [done|lia|done].
Qed.

Lemma tries_ret a n {A} (x : A) : tries a n (mret x).
Proof. intros w. split; [by apply attempts_refl|done]. Qed.
Lemma tries_fail a n {A} e : tries a n (fail (A := A) e).
Proof. intros w. split; [by apply attempts_refl|done]. Qed.
Lemma tries_now a n : tries a n now.
Proof. intros w. unfold now. destruct (env_now _). split; [by apply attempts_refl|done]. Qed.
Lemma tries_uuid a n : tries a n new_uuid.
Proof. intros w. unfold new_uuid. destruct (env_uuid _). split; [by apply attempts_refl|done]. Qed.

Lemma tries_exchange a port payload line : tries a 1 (exchange a port payload line).
Proof.
  intros w. unfold exchange. destruct (env_exchange _ _ _). simpl. split; [|done].
  split; [done|]. eexists [_]. simpl. split_and!; [done|lia|by repeat constructor].
Qed.

Lemma tries_try a n {A} (x : M E J A) : tries a n x → tries a n (try x).
Proof. intros H w. destruct (H w). unfold try. by destruct (x w) as [w1 []]. Qed.

Lemma tries_decode a n empty line : tries a n (decode_line empty line).
Proof. unfold decode_line. repeat case_match; auto using tries_fail, tries_ret. Qed.

Lemma tries_then_ret a n {A B} (x : M E J A) (f : A → B) :
  tries a n x → tries a n (y ← x; mret (f y)).
Proof.
  intros H. apply (tries_weaken a (n + 0)); [|lia]. apply tries_bind; [done|]. intros y. apply tries_ret.
Qed.

Lemma tries_ipc a port c p : tries a 1 (ipc_request port a c p).
Proof.
  unfold ipc_request. apply (tries_weaken a (1 + 0)); [|lia].
  apply tries_bind; [apply tries_exchange|]. intros []; [apply tries_decode|apply tries_fail].
Qed.

Lemma tries_surface a port p : tries a 1 (surface_request port a p).
Proof.
  unfold surface_request. apply (tries_weaken a (1 + 0)); [|lia].
  apply tries_bind; [apply tries_exchange|]. intros []; [apply tries_decode|apply tries_fail].
Qed.

Lemma tries_file a port op p : tries a 1 (file_request port a op p).
Proof. apply tries_then_ret, tries_ipc. Qed.

(** The same for a computation that never ends in [None]. *)
Definition tries_some a n {A} (x : M E J (option A)) : Prop :=
  tries a n x ∧ ∀ w, (x w).2 ≠ Done None.

Lemma tries_some_ret a n {A B} (x : M E J A) (f : A → B) :
  tries a n x → tries_some a n (y ← x; mret (Some (f y))).
Proof.
  intros H. split; [by apply tries_then_ret|]. intros w. unfold mbind, M_bind. by destruct (x w) as [? []].
Qed.

Lemma tries_some_bind a n m {A B} (x : M E J A) (f : A → M E J (option B)) :
  tries a n x → (∀ y, tries_some a m (f y)) → tries_some a (n + m) (x ≫= f).
Proof.
  intros H Hf. split; [apply tries_bind; [done|]; intros y; apply Hf|].
  intros w. unfold mbind, M_bind. destruct (x w) as [? []]; [apply Hf|done..].
Qed.

Lemma tries_unwrap a n {A} (x : M E J (option A)) :
  tries_some a n x → tries a n (o ← x; match o with Some t => mret t | None => panic end).
Proof.
  intros [H Hs] w. destruct (H w) as [Ha Hp]. specialize (Hs w). unfold mbind, M_bind.
  by destruct (x w) as [w1 [[y|]|e|]]; simpl in *.
Qed.

Lemma tries_execute cp sp a : tries a 1 (execute cp sp a).
Proof.
  unfold execute. apply (tries_bind a 0 1); [apply tries_now|]. intros start.
  apply (tries_bind a 1 0).
  - unfold execute_variant, execute_windows, execute_files, file_request, execute_system,
      execute_devices, execute_power. apply tries_unwrap.
    destruct (act_variant a); cbn zeta; repeat case_match.
    all: first [split; [apply tries_ret|done]|apply tries_some_ret
               |apply (tries_some_bind a 0 1); [|intros req; apply tries_some_ret]].
    all: auto using tries_ipc, tries_surface, tries_ret, tries_fail.
  - intros t. apply (tries_bind a 0 0); [apply tries_now|]. intros ?.
    apply (tries_bind a 0 0); [apply tries_now|]. intros ?.
    apply (tries_bind a 0 0); [apply tries_uuid|]. intros ?. apply tries_ret.
Qed.

Lemma tries_recovery cp sp a started fuel : ∀ attempt,
  (rec_max_retries (recovery_policy_for (act_variant a)) < attempt + N.of_nat fuel)%N →
  (attempt ≤ rec_max_retries (recovery_policy_for (act_variant a)))%N →
  tries a fuel (recovery_loop cp sp fuel a started attempt).
Proof.
  assert (rec_max_retries (recovery_policy_for (act_variant a)) ≤ 3)%N as H3
    by (destruct (act_variant a); simpl; lia).
  induction fuel as [|fuel IH]; intros attempt Hf Ha; [lia|]. simpl.
  replace (saturating_add u32_max attempt 1) with (attempt + 1)%N
    by (unfold saturating_add, u32_max; lia).
  apply (tries_bind a 1 fuel); [apply tries_try, tries_execute|]. intros [res|e].
  - apply (tries_weaken a 0); [|lia]. apply tries_then_ret, tries_now.
  - destruct (decide_recovery _ _ _ _) as [[]|] eqn:Hd; [|apply tries_fail..|].
    + apply decide_retry_bound in Hd. apply IH; lia.
    + apply decide_none in Hd. lia.
Qed.

Lemma execute_with_recovery_tries cp sp a :
  tries a (S (N.to_nat (rec_max_retries (recovery_policy_for (act_variant a)))))
    (execute_with_recovery cp sp a).
Proof. apply (tries_bind a 0); [apply tries_now|]. intros started. apply tries_recovery; lia. Qed.

(** Executing an action makes a bounded number of requests, all of them for
    that action, and never panics: one for an action that changes something,
    at most four for one that only reads, whatever the other services answer
    and however often they do not.  The host itself is untouched until the
    outcome is reported. *)
Theorem recovery_attempts_bounded cp sp a w :
  let '(w', o) := execute_with_recovery cp sp a w in
  o ≠ Panic ∧
  attempts a (if (rec_max_retries (recovery_policy_for (act_variant a)) =? 0)%N then 1 else 4) w w'.
Proof.
  pose proof (execute_with_recovery_tries cp sp a w) as H. destruct (execute_with_recovery cp sp a w) as [w' o]. simpl in H.
  destruct H as [(Hh & l & Hl & Hn & Ha) Hp]. split; [done|]. split; [done|]. exists l.
  split_and!; [done| |done]. destruct (act_variant a); simpl in *; lia.
Qed.
End attempts.

(** ** A concrete environment *)

Module ToyRuntime.
Fixpoint stars (n : nat) : string :=
  match n with 0 => EmptyString | S n => String (Ascii.ascii_of_nat 42) (stars n) end.

Lemma stars_length n : String.length (stars n) = n.
Proof. induction n as [|n IH]; simpl; congruence. Qed.

(** A uuid is written as that many stars. *)
#[export] Instance toy_uuid : UuidText := {|
  uuid_text u := stars (N.to_nat u);
  uuid_parse s := Ok (N.of_nat (String.length s));
|}.

#[export] Instance toy_uuid_laws : UuidLaws.
Proof. intros u. simpl. by rewrite stars_length, N2Nat.id. Qed.

(** Clock and uuids are one counter; every service answers [ok]. *)
#[export] Instance toy_env : RuntimeEnv N := {|
  env_now e := (e, e + 1)%N;
  env_uuid e := (e, e + 1)%N;
  env_exchange port line e := (Ok "ok", e + 1)%N;
|}.

#[export] Instance toy_parse : JsonParse ToyJson := {| json_from_str s := Ok (TStr s) |}.
#[export] Instance toy_observation : ObservationText ToyJson := {|
  obs_to_value t := TNull;
  obs_debug t := "";
|}.

Definition toy_iter {V} (m : gmap N V) : list (N * V) := map_to_list m.

(** A host at the start of a run: the id and the next value of the counter. *)
Definition toy_world (caps : list string) : World N ToyJson :=
  mkWorld (start_host 1 7000 7001 caps) 2%N [].
End ToyRuntime.

(** ** Runs *)

Section runs.
Import ToyRuntime.

Definition a_user : SessionActor := mkSessionActor AtHuman "user".
Definition a_requester : RequestActor := mkRequestActor AtHuman "user".
Definition delete_notes : Action := Action_new 900 (uuid_text 3) (FileDelete "/home/user/notes") "tidy up".

(** An approval outlives the host's failure and the loss of the
    capability.  A deletion is parked for approval, the host fails with every
    submission refused from then on, and all capabilities are revoked; the
    approval given after that still sends the deletion to the system core and
    answers that it succeeded. *)
Theorem approval_outlives_failure_and_revocation :
  let '(w, h) := host_run (@toy_iter)
    [OpCreate a_user; OpSubmit 3 a_requester delete_notes; OpFail "disk error"; OpGrant [];
     OpSubmit 3 a_requester delete_notes; OpApprove 12]
    (toy_world ["file.delete"]) in
  is_accepting (h_state (w_host w)) = false ∧
  vr_valid (Validator_validate (h_validator (w_host w)) delete_notes) = false ∧
  (∃ e, h.*2 !! 4 = Some (Fail (AeInternal e))) ∧
  (∃ out, h.*2 !! 5 = Some (Done (RApproved (Some out))) ∧ out_success out = true) ∧
  sent_action <$> w_sent w = [delete_notes].
Proof.
  destruct (host_run _ _ _) as [w h] eqn:E. vm_compute in E. injection E as <- <-.
  split_and!; [done|done|by eexists|eexists; split; done|done].
Qed.

Lemma session_acts_at_most_once_witness :
  let '(w, h) := host_run (@toy_iter)
    [OpCreate a_user; OpSubmit 3 a_requester delete_notes; OpApprove 12] (toy_world ["file.delete"]) in
  NoDup (created h) ∧ acted 3 w ≤ 1 ∧ acted 3 w = 1.
Proof.
  pose proof (session_acts_at_most_once (@toy_iter) 1 7000 7001 ["file.delete"] 2%N
    [OpCreate a_user; OpSubmit 3 a_requester delete_notes; OpApprove 12] 3) as H.
  unfold toy_world. destruct (host_run _ _ _) as [w h] eqn:E.
  assert (created h = [3%N] ∧ acted 3 w = 1) as [Hc Ha]
    by (vm_compute in E; injection E as <- <-; split; reflexivity).
  assert (NoDup (created h)) as Hn by (rewrite Hc; apply NoDup_singleton).
  split; [exact Hn|]. split; [exact (H Hn)|exact Ha].
Defined.

(** The deletion is denied when the capability was never granted. *)
Definition ungranted : World N ToyJson := (create_session a_user (toy_world [])).1.

Lemma denied_action_strands_session_witness :
  ∃ w', (submit_action (@toy_iter) 3 a_requester delete_notes ungranted).1 = w' ∧
        st 3 w' = Some (SsPlanning, false).
Proof.
  pose proof (denied_action_strands_session (@toy_iter) 3 a_requester delete_notes ungranted) as H.
  specialize (H ltac:(vm_compute; reflexivity) ltac:(vm_compute; reflexivity) ltac:(vm_compute; reflexivity)).
  destruct (submit_action _ _ _ _ _) as [w' o] eqn:E. exists w'. split; [done|].
  apply H. vm_compute in E. injection E as <- <-. discriminate.
Defined.
End runs.
