(* ===== verification/LanguageModel.v ===== *)
(** * Language models

    Models llm.rs, llm_provider.rs, intent.rs and structured_intent.rs of
    agent/aether-agent-runtime/src, the providers of lib.rs of
    services/aether-agentd/src, and its structured_llm.rs: what is asked of a
    language model, and what is accepted of its answer.

    What a model answers is the environment's. *)
From S2P Require Import Prelude RustStd Text Json CoreTypes AgentContext Intent.
From Stdlib Require Import Ascii.

Definition crlf : string := String (ascii_of_nat 13) (String (ascii_of_nat 10) EmptyString).

(** [str::trim_start_matches] with a string: every copy at the start goes. *)
Fixpoint trim_copies (fuel : nat) (pat s : string) : string :=
  match fuel with
  | 0 => s
  | S fuel => match strip_prefix pat s with Some rest => trim_copies fuel pat rest | None => s end
  end.
Definition trim_start_matches (pat s : string) : string := trim_copies (String.length s) pat s.

(** ** llm.rs *)

Record LlmRequest {J : Type} := mkLlmRequest {
  lq_prompt : string;
  lq_system_prompt : option string;
  lq_max_tokens : option N;
  (** An [f32], which is only passed on. *)
  lq_temperature : option J;
  lq_structured_output : option J;
}.
Arguments LlmRequest J : clear implicits.
Arguments mkLlmRequest {J}.

Record LlmResponse {J : Type} := mkLlmResponse {
  lr_content : string;
  lr_model : string;
  lr_tokens_used : option N;
  lr_finish_reason : string;
  lr_parsed_output : option J;
}.
Arguments LlmResponse J : clear implicits.
Arguments mkLlmResponse {J}.

Record LlmModelInfo := mkLlmModelInfo {
  lmi_name : string; lmi_version : string; lmi_capabilities : list string;
}.

(** Connect to an authority, send a request and read until the peer closes;
    the text is decoded with losses. *)
Inductive HttpError :=
| HeConnect (e : string) | HeTimeout (e : string) | HeSend (e : string) | HeRecv (e : string).

Class HttpEnv (E : Type) := { http_exchange : string → string → E → result string HttpError * E }.

(** The trait [LlmProvider], with the methods that have no default. *)
Record LlmProvider {E J : Type} := mkLlmProvider {
  llm_name : string;
  llm_generate : LlmRequest J → E → result (LlmResponse J) string * E;
  llm_health : E → result unit string * E;
  llm_model_info : LlmModelInfo;
}.
Arguments LlmProvider E J : clear implicits.
Arguments mkLlmProvider {E J}.

Section llm.
Context {E J : Type} `{!HttpEnv E} `{!JsonOps J} `{!JsonParse J}.

Definition default_model_info (name : string) : LlmModelInfo := mkLlmModelInfo name "unknown" [].

Definition LlmProvider_stream (p : LlmProvider E J) (r : LlmRequest J) (e : E) :
    result (LlmResponse J) string * E := llm_generate p r e.

Definition LlmProvider_structured_output (p : LlmProvider E J) (r : LlmRequest J) (schema : J) (e : E) :
    result J string * E :=
  let '(response, e) := llm_generate p r e in
  (let? response := response in
   map_err (λ e, "Failed to parse structured output: " +:+ e) (json_from_str (lr_content response)), e).

Definition plain_response (model content : string) : LlmResponse J :=
  mkLlmResponse content model (Some 0%N) "stop" None.

(** The mock's counter is a part of the environment: an index and its successor.
    [None] is the panic of a remainder by zero. *)
Definition MockLlmProvider_generate (responses : list string) (idx : N) : option (LlmResponse J * N) :=
  match responses with
  | [] => None
  | _ => Some (plain_response "mock"
                 (nth (N.to_nat (idx mod N.of_nat (length responses))) responses ""),
               ((idx + 1) mod 18446744073709551616)%N)
  end.

Definition EchoLlmProvider : LlmProvider E J :=
  mkLlmProvider "echo" (λ r e, (Ok (plain_response "echo" (lq_prompt r)), e)) (λ e, (Ok tt, e))
    (default_model_info "echo").

Definition ScriptedLlmProvider (name : string) (callback : LlmRequest J → result string string) :
    LlmProvider E J :=
  mkLlmProvider name
    (λ r e, (let? content := callback r in Ok (plain_response name content), e))
    (λ e, (Ok tt, e)) (default_model_info name).
Definition ScriptedLlmProvider_constant (name content : string) : LlmProvider E J :=
  ScriptedLlmProvider name (λ _, Ok content).
Definition ScriptedLlmProvider_always_error (name error : string) : LlmProvider E J :=
  ScriptedLlmProvider name (λ _, Err error).

(** ** llm_provider.rs *)

Definition DEFAULT_OLLAMA_URL : string := "http://127.0.0.1:11434".
Definition DEFAULT_OLLAMA_MODEL : string := "llama3.2".
Definition DEFAULT_OPENAI_URL : string := "http://127.0.0.1:1234".
Definition DEFAULT_OPENAI_MODEL : string := "gpt-3.5-turbo".

Definition authority_of (url : string) : string :=
  let rest := trim_start_matches "https://" (trim_start_matches "http://" url) in
  default rest (head (str_split "/" rest)).

Definition http_error (authority : string) (e : HttpError) : string :=
  match e with
  | HeConnect e => "connect " +:+ authority +:+ ": " +:+ e
  | HeTimeout e => "timeout: " +:+ e
  | HeSend e => "send: " +:+ e
  | HeRecv e => "recv: " +:+ e
  end.

Definition bearer (auth : option string) : string :=
  match auth with Some token => "Authorization: Bearer " +:+ token +:+ crlf | None => "" end.

Definition post_request (path authority body : string) (auth : option string) : string :=
  "POST " +:+ path +:+ " HTTP/1.1" +:+ crlf +:+ "Host: " +:+ authority +:+ crlf
  +:+ "Content-Type: application/json" +:+ crlf
  +:+ "Content-Length: " +:+ pretty (N.of_nat (String.length body)) +:+ crlf
  +:+ "Connection: close" +:+ crlf +:+ bearer auth +:+ crlf +:+ body.

(** The body of a response whose status line is a success. *)
Definition http_body (text : string) : result string string :=
  match str_find (crlf +:+ crlf) text with
  | None => Err "malformed HTTP response: no header terminator"
  | Some split =>
      let head_part := str_take (split + 4) text in
      let body_out := str_drop (split + 4) text in
      match head (str_lines head_part) with
      | Some status_line =>
          if negb (str_contains_from " 200 " status_line) && negb (str_contains_from " 201 " status_line)
          then Err ("http " +:+ status_line +:+ ": " +:+ take_chars 200 body_out)
          else Ok body_out
      | None => Ok body_out
      end
  end.

Definition http_post_json (url path body : string) (auth : option string) (e : E) :
    result string string * E :=
  let authority := authority_of url in
  let '(r, e) := http_exchange authority (post_request path authority body auth) e in
  (match r with Err err => Err (http_error authority err) | Ok text => http_body text end, e).

Definition messages_of (r : LlmRequest J) : J :=
  let message role content := json_obj [("role", json_str role); ("content", json_str content)] in
  json_arr (match lq_system_prompt r with Some sys => [message "system" sys] | None => [] end
            ++ [message "user" (lq_prompt r)]).

(** [v.get(k)] of an optional value. *)
Definition get_in (o : option J) (k : string) : option J := v ← o; json_get v k.
Definition str_in (o : option J) : option string := v ← o; json_as_str v.

Definition ollama_body (model : string) (r : LlmRequest J) : J :=
  json_obj ([("model", json_str model); ("messages", messages_of r); ("stream", json_bool false)]
            ++ match lq_structured_output r with Some schema => [("format", schema)] | None => [] end).

Definition ollama_answer (model raw : string) : result (LlmResponse J) string :=
  match str_find "{" raw with
  | None => Err "no JSON in response"
  | Some start =>
      match json_from_str (str_trim (str_drop start raw)) with
      | Err e => Err ("bad ollama json: " +:+ e)
      | Ok value =>
          match str_in (get_in (json_get value "message") "content") with
          | None => Err "missing message.content in ollama response"
          | Some content =>
              Ok (mkLlmResponse content (default model (str_in (json_get value "model"))) None "stop" None)
          end
      end
  end.

Definition OllamaLlmProvider (url model : string) : LlmProvider E J :=
  mkLlmProvider "ollama"
    (λ r e, let '(raw, e) := http_post_json url "/api/chat" (json_to_string (ollama_body model r)) None e in
            (let? raw := raw in ollama_answer model raw, e))
    (λ e, let '(r, e) := http_post_json url "/api/tags" "{}" None e in (let? _ := r in Ok tt, e))
    (mkLlmModelInfo model "unknown" ["chat"; "structured"]).

Definition openai_body (model : string) (r : LlmRequest J) : J :=
  json_obj ([("model", json_str model); ("messages", messages_of r)]
            ++ match lq_max_tokens r with Some max => [("max_tokens", json_num max)] | None => [] end
            ++ match lq_temperature r with Some t => [("temperature", t)] | None => [] end
            ++ match lq_structured_output r with
               | Some schema =>
                   [("response_format", json_obj [("type", json_str "json_schema"); ("schema", schema)])]
               | None => []
               end).

Definition first_choice (value : J) : option J :=
  choices ← json_get value "choices"; l ← json_as_array choices; head l.

Definition openai_answer (model raw : string) : result (LlmResponse J) string :=
  match json_from_str (str_trim raw) with
  | Err e => Err ("bad openai json: " +:+ e)
  | Ok value =>
      match str_in (get_in (get_in (first_choice value) "message") "content") with
      | None => Err "missing choices[0].message.content"
      | Some content =>
          let tokens := (t ← get_in (json_get value "usage") "total_tokens"; json_as_u64 t) in
          Ok (mkLlmResponse content (default model (str_in (json_get value "model")))
                ((λ v, v mod 4294967296)%N <$> tokens)
                (default "stop" (str_in (get_in (first_choice value) "finish_reason"))) None)
      end
  end.

Definition openai_health_request (authority : string) (api_key : option string) : string :=
  "GET /v1/models HTTP/1.1" +:+ crlf +:+ "Host: " +:+ authority +:+ crlf +:+ "Connection: close" +:+ crlf
  +:+ bearer api_key +:+ crlf.

Definition openai_health (url : string) (api_key : option string) (e : E) : result unit string * E :=
  let authority := authority_of url in
  let '(r, e) := http_exchange authority (openai_health_request authority api_key) e in
  (match r with
   | Err err => Err (http_error authority err)
   | Ok text => if str_contains_from " 200 " text then Ok tt
                else Err ("openai health: " +:+ default "?" (head (str_lines text)))
   end, e).

Definition OpenAILlmProvider (url model : string) (api_key : option string) : LlmProvider E J :=
  mkLlmProvider "openai"
    (λ r e, let '(raw, e) :=
              http_post_json url "/v1/chat/completions" (json_to_string (openai_body model r)) api_key e in
            (let? raw := raw in openai_answer model raw, e))
    (openai_health url api_key)
    (mkLlmModelInfo model "unknown"
       (["chat"; "structured"] ++ match api_key with Some _ => ["authenticated"] | None => [] end)).

(** The mock that is selected by name answers every request with nothing, since
    it has one response. *)
Definition select_provider (provider : string) (url model api_key : option string) : LlmProvider E J :=
  if (provider =? "ollama")%string then
    OllamaLlmProvider (default DEFAULT_OLLAMA_URL url) (default DEFAULT_OLLAMA_MODEL model)
  else if (provider =? "openai")%string then
    OpenAILlmProvider (default DEFAULT_OPENAI_URL url) (default DEFAULT_OPENAI_MODEL model) api_key
  else if (provider =? "mock")%string then
    mkLlmProvider "mock" (λ _ e, (Ok (plain_response "mock" ""), e)) (λ e, (Ok tt, e)) (default_model_info "mock")
  else EchoLlmProvider.
End llm.

(** ** The providers of the agent daemon *)

(** The trait [AiProvider]. *)
Class AiProvider (E : Type) := {
  ai_name : string;
  ai_complete : string → E → result string string * E;
}.

Section providers.
Context {E J : Type} `{!HttpEnv E} `{!JsonOps J} `{!JsonParse J}.

Definition EchoProvider : AiProvider E := {|
  ai_name := "echo";
  ai_complete prompt e := (Ok ("ECHO: " +:+ prompt), e);
|}.

(** [text.split(sep).nth(1)]: between the first separator and the second. *)
Definition second_part (sep text : string) : option string :=
  match str_find sep text with
  | None => None
  | Some i =>
      let rest := str_drop (i + String.length sep) text in
      Some (match str_find sep rest with Some j => str_take j rest | None => rest end)
  end.

Definition OllamaProvider_http_post_json (url path body : string) (e : E) : result string string * E :=
  let authority := authority_of url in
  let '(r, e) := http_exchange authority (post_request path authority body None) e in
  (match r with
   | Err err => Err (http_error authority err)
   | Ok text => match second_part (crlf +:+ crlf) text with
                | Some payload => Ok payload
                | None => Err "malformed HTTP response"
                end
   end, e).

Definition OllamaProvider_answer (payload : string) : result string string :=
  match str_find "{" payload with
  | None => Err "no JSON in response"
  | Some start =>
      match json_from_str (str_trim (str_drop start payload)) with
      | Err e => Err ("bad ollama json: " +:+ e)
      | Ok value => match str_in (json_get (J := J) value "response") with
                    | Some s => Ok s
                    | None => Err "missing 'response' field"
                    end
      end
  end.

Definition OllamaProvider (url model : string) : AiProvider E := {|
  ai_name := "ollama";
  ai_complete prompt e :=
    let body := json_obj (J := J) [("model", json_str model); ("prompt", json_str prompt);
                                   ("stream", json_bool false)] in
    let '(payload, e) := OllamaProvider_http_post_json url "/api/generate" (json_to_string body) e in
    (let? payload := payload in OllamaProvider_answer payload, e);
|}.

Definition RuntimeBackedProvider (inner : LlmProvider E J) : AiProvider E := {|
  ai_name := "ollama";
  ai_complete prompt e :=
    let '(r, e) := llm_generate inner (mkLlmRequest prompt None None None None) e in
    (let? r := r in Ok (lr_content r), e);
|}.

Definition provider_from_selection (provider url model : option string) : AiProvider E :=
  let url := default "http://127.0.0.1:11434" url in
  let model := default "llama3.2" model in
  match provider with
  | Some p => if (p =? "ollama")%string then OllamaProvider url model
              else if (p =? "runtime-ollama")%string then RuntimeBackedProvider (OllamaLlmProvider url model)
              else EchoProvider
  | None => EchoProvider
  end.
End providers.
