(* ===== verification/StructuredIntent.v ===== *)
(** * Structured intents

    Models intent.rs and structured_intent.rs of
    agent/aether-agent-runtime/src and structured_llm.rs of
    services/aether-agentd/src: the envelope in which a language model names a
    capability, what is checked before it is believed, and the prompt. *)
From S2P Require Import Prelude RustStd Text Json CoreTypes AgentContext Intent LanguageModel.
From Stdlib Require Import Ascii.

(** [Value::as_object], in the order of the map. *)
Class JsonObject (J : Type) := { json_as_object : J → option (list (string * J)) }.

(** ** intent.rs of the runtime *)

Inductive IntentType :=
| ItApplicationLaunch | ItApplicationClose | ItApplicationStatus | ItApplicationList
| ItWindowList | ItWindowFocus | ItWindowMinimize | ItWindowMaximize | ItWindowClose
| ItFileList | ItFileRead | ItFileCreate | ItFileWrite | ItFileSearch | ItFileRename | ItFileMove
| ItFileDelete
| ItProcessList | ItProcessInspect
| ItNetworkStatus | ItNetworkInterfaces
| ItSystemStatus | ItSystemInfo | ItSystemResources | ItSystemUptime
| ItStorageStatus | ItContextGet | ItChat.

Definition IntentType_from_str (s : string) : option IntentType :=
  match s with
  | "application.launch" => Some ItApplicationLaunch
  | "application.close" => Some ItApplicationClose
  | "application.status" => Some ItApplicationStatus
  | "application.list" => Some ItApplicationList
  | "window.list" => Some ItWindowList
  | "window.focus" => Some ItWindowFocus
  | "window.minimize" => Some ItWindowMinimize
  | "window.maximize" => Some ItWindowMaximize
  | "window.close" => Some ItWindowClose
  | "file.list" => Some ItFileList
  | "file.read" => Some ItFileRead
  | "file.create" => Some ItFileCreate
  | "file.write" => Some ItFileWrite
  | "file.search" => Some ItFileSearch
  | "file.rename" => Some ItFileRename
  | "file.move" => Some ItFileMove
  | "file.delete" => Some ItFileDelete
  | "process.list" => Some ItProcessList
  | "process.inspect" => Some ItProcessInspect
  | "network.status" => Some ItNetworkStatus
  | "network.interfaces" => Some ItNetworkInterfaces
  | "system.status" => Some ItSystemStatus
  | "system.info" => Some ItSystemInfo
  | "system.resources" => Some ItSystemResources
  | "system.uptime" => Some ItSystemUptime
  | "storage.status" => Some ItStorageStatus
  | "context.get" => Some ItContextGet
  | "chat" => Some ItChat
  | _ => None
  end%string.

Definition all_slugs : list string :=
  ["application.launch"; "application.close"; "application.status"; "application.list"; "window.list";
   "window.focus"; "window.minimize"; "window.maximize"; "window.close"; "file.list"; "file.read";
   "file.create"; "file.write"; "file.search"; "file.rename"; "file.move"; "file.delete";
   "process.list"; "process.inspect"; "network.status"; "network.interfaces"; "system.status";
   "system.info"; "system.resources"; "system.uptime"; "storage.status"; "context.get"; "chat"].

Definition IntentType_display (t : IntentType) : string :=
  match t with
  | ItApplicationLaunch => "application.launch"
  | ItApplicationClose => "application.close"
  | ItApplicationStatus => "application.status"
  | ItApplicationList => "application.list"
  | ItWindowList => "window.list"
  | ItWindowFocus => "window.focus"
  | ItWindowMinimize => "window.minimize"
  | ItWindowMaximize => "window.maximize"
  | ItWindowClose => "window.close"
  | ItFileList => "file.list"
  | ItFileRead => "file.read"
  | ItFileCreate => "file.create"
  | ItFileWrite => "file.write"
  | ItFileSearch => "file.search"
  | ItFileRename => "file.rename"
  | ItFileMove => "file.move"
  | ItFileDelete => "file.delete"
  | ItProcessList => "process.list"
  | ItProcessInspect => "process.inspect"
  | ItNetworkStatus => "network.status"
  | ItNetworkInterfaces => "network.interfaces"
  | ItSystemStatus => "system.status"
  | ItSystemInfo => "system.info"
  | ItSystemResources => "system.resources"
  | ItSystemUptime => "system.uptime"
  | ItStorageStatus => "storage.status"
  | ItContextGet => "context.get"
  | ItChat => "chat"
  end.

Inductive IntentRisk := IrLow | IrMedium | IrHigh | IrCritical.

Record RtIntent {J : Type} := mkRtIntent {
  ri_id : N;
  ri_request_id : string;
  ri_intent_type : IntentType;
  ri_confidence : N;
  ri_entities : J;
  ri_constraints : list string;
  ri_risk_level : IntentRisk;
  ri_reason : string;
}.
Arguments RtIntent J : clear implicits.
Arguments mkRtIntent {J}.

(** The fresh id is an argument. *)
Definition RtIntent_new {J} (id : N) (request_id : string) (t : IntentType) (confidence : N) (entities : J) :
    RtIntent J := mkRtIntent id request_id t confidence entities [] IrLow "".
Definition RtIntent_with_risk_level {J} (level : IntentRisk) (i : RtIntent J) : RtIntent J :=
  mkRtIntent (ri_id i) (ri_request_id i) (ri_intent_type i) (ri_confidence i) (ri_entities i)
    (ri_constraints i) level (ri_reason i).
Definition RtIntent_with_reason {J} (reason : string) (i : RtIntent J) : RtIntent J :=
  mkRtIntent (ri_id i) (ri_request_id i) (ri_intent_type i) (ri_confidence i) (ri_entities i)
    (ri_constraints i) (ri_risk_level i) reason.
Definition RtIntent_validate {J} (i : RtIntent J) : result unit string :=
  if str_is_empty (ri_request_id i) then Err "Intent must reference a request ID" else Ok tt.

(** ** Envelopes *)

Record IntentEnvelope {J : Type} := mkIntentEnvelope {
  ie_capability : string;
  ie_confidence : N;
  ie_entities : J;
  ie_reason : string;
}.
Arguments IntentEnvelope J : clear implicits.
Arguments mkIntentEnvelope {J}.

(** The derived deserializer, which refuses unknown fields. *)
Class EnvelopeParse (J : Type) := { envelope_from_value : J → result (IntentEnvelope J) string }.

Definition MAX_RAW_ENVELOPE_BYTES : N := 65536.
Definition MAX_CAPABILITY_LEN : N := 128.
Definition MAX_REASON_LEN : N := 2048.
Definition MAX_ENTITIES_DEPTH : nat := 8.
Definition MAX_ENTITIES_KEYS : N := 64.

(** [StructuredError] of the daemon; [StructuredIntentError] of the runtime is
    the same without [ProviderUnavailable]. *)
Inductive StructuredError :=
| SeBadJson (s : string) | SeBadShape (s : string) | SeUnknownCapability (s : string)
| SeBadConfidence (c : N) | SeBadEntities (s : string) | SeEmptyReason
| SeProviderUnavailable (s : string)
| SeTooLarge (size limit : N) | SeCapabilityTooLong (size limit : N) | SeReasonTooLong (size limit : N)
| SeEntitiesTooDeep (depth limit : N) | SeEntitiesTooManyKeys (count limit : N).

Definition StructuredError_display (e : StructuredError) : string :=
  let sized what size unit limit :=
    what +:+ pretty size +:+ unit +:+ " (limit " +:+ pretty limit +:+ ")" in
  match e with
  | SeBadJson s => "invalid JSON: " +:+ s
  | SeBadShape s => "envelope shape mismatch: " +:+ s
  | SeUnknownCapability s => "unknown capability: '" +:+ s +:+ "'"
  | SeBadConfidence c => "confidence " +:+ pretty c +:+ " out of range 0..=100"
  | SeBadEntities s => "entities not a JSON object: " +:+ s
  | SeEmptyReason => "reason must be a non-empty string"
  | SeProviderUnavailable s => "provider unavailable: " +:+ s
  | SeTooLarge size limit => sized "raw envelope too large: " size " bytes" limit
  | SeCapabilityTooLong size limit => sized "capability too long: " size " bytes" limit
  | SeReasonTooLong size limit => sized "reason too long: " size " bytes" limit
  | SeEntitiesTooDeep depth limit => sized "entities too deeply nested: " depth " levels" limit
  | SeEntitiesTooManyKeys count limit => sized "entities has too many keys: " count "" limit
  end.

Definition fence : string := "```".

Definition strip_suffix (suf s : string) : option string :=
  if ends_with suf s then Some (str_take (String.length s - String.length suf) s) else None.

Definition strip_code_fence (raw : string) : string :=
  let raw := str_trim raw in
  match strip_prefix fence raw with
  | None => raw
  | Some rest =>
      match str_find line_feed rest with
      | None => raw
      | Some newline_idx =>
          let after_lang := str_drop (newline_idx + 1) rest in
          match strip_suffix fence after_lang with
          | Some stripped => str_trim stripped
          | None => str_trim after_lang
          end
      end
  end.

Section envelope.
Context {J : Type} `{!JsonOps J} `{!JsonParse J} `{!JsonObject J} `{!EnvelopeParse J}.

(** The parser of [serde_json] refuses values nested deeper than 128, so that
    the fuel of the depth is enough for whatever it accepted. *)
Definition JSON_RECURSION_LIMIT : nat := 128.

Fixpoint json_depth (fuel : nat) (v : J) : nat :=
  match fuel with
  | 0 => 0
  | S fuel =>
      match json_as_object v, json_as_array v with
      | Some map, _ => S (foldr max 0 (json_depth fuel ∘ snd <$> map))
      | None, Some arr => S (foldr max 0 (json_depth fuel <$> arr))
      | None, None => 0
      end
  end.

Definition str_len (s : string) : N := N.of_nat (String.length s).

Definition check_envelope (env : IntentEnvelope J) : result (IntentEnvelope J) StructuredError :=
  if (MAX_CAPABILITY_LEN <? str_len (ie_capability env))%N
  then Err (SeCapabilityTooLong (str_len (ie_capability env)) MAX_CAPABILITY_LEN)
  else if (MAX_REASON_LEN <? str_len (ie_reason env))%N
  then Err (SeReasonTooLong (str_len (ie_reason env)) MAX_REASON_LEN)
  else
    match json_as_object (ie_entities env) with
    | None => Ok env
    | Some obj =>
        if (MAX_ENTITIES_KEYS <? N.of_nat (length obj))%N
        then Err (SeEntitiesTooManyKeys (N.of_nat (length obj)) MAX_ENTITIES_KEYS)
        else
          let depth := json_depth JSON_RECURSION_LIMIT (ie_entities env) in
          if (MAX_ENTITIES_DEPTH <? depth)%nat
          then Err (SeEntitiesTooDeep (N.of_nat depth) (N.of_nat MAX_ENTITIES_DEPTH))
          else Ok env
    end.

Definition parse_envelope (raw : string) : result (IntentEnvelope J) StructuredError :=
  if (MAX_RAW_ENVELOPE_BYTES <? str_len raw)%N
  then Err (SeTooLarge (str_len raw) MAX_RAW_ENVELOPE_BYTES)
  else
    let? value := map_err SeBadJson (json_from_str (strip_code_fence raw)) in
    let? env := map_err SeBadShape (envelope_from_value value) in
    check_envelope env.

Definition is_object (v : J) : bool :=
  match json_as_object v with Some _ => true | None => false end.

(** What both readers check of an envelope whose capability is known. *)
Definition check_rest (env : IntentEnvelope J) : result unit StructuredError :=
  if (100 <? ie_confidence env)%N then Err (SeBadConfidence (ie_confidence env))
  else if negb (is_object (ie_entities env)) then Err (SeBadEntities "expected JSON object")
  else if blank (ie_reason env) then Err SeEmptyReason
  else Ok tt.

(** [parse_intent] of the runtime. *)
Definition rt_parse_intent (id : N) (env : IntentEnvelope J) (request_id : string) :
    result (option (RtIntent J)) StructuredError :=
  if blank (ie_capability env) then Ok None
  else match IntentType_from_str (ie_capability env) with
       | None => Err (SeUnknownCapability (ie_capability env))
       | Some t =>
           let? _ := check_rest env in
           Ok (Some (RtIntent_with_reason (ie_reason env)
                       (RtIntent_new id request_id t (ie_confidence env) (ie_entities env))))
       end.

Definition mapped_capability (c : string) : string :=
  if (c =? "application.launch")%string then "app.launch"
  else if (c =? "application.close")%string then "app.close"
  else if (c =? "application.status")%string then "app.status"
  else if (c =? "application.list")%string then "app.list"
  else c.

(** [parse_intent] of the daemon. *)
Definition parse_structured_intent (env : IntentEnvelope J) : result (option (Intent J)) StructuredError :=
  if blank (ie_capability env) then Ok None
  else match CapabilityId_from_str (mapped_capability (ie_capability env)) with
       | None => Err (SeUnknownCapability (ie_capability env))
       | Some capability =>
           let? _ := check_rest env in
           Ok (Some (mkIntent capability (ie_entities env)))
       end.

(** ** The prompts *)

(** A text in which a back quote stands for a double quote. *)
Definition with_quotes (s : string) : string :=
  replace_chars (Ascii.eqb "`") (String (ascii_of_nat 34) EmptyString) s.

(** The schema, with the three descriptions in which the two copies differ. *)
Definition schema_text (capability confidence reason : string) : string :=
  with_quotes ("{
  `type`: `object`,
  `additionalProperties`: false,
  `required`: [`capability`, `confidence`, `entities`, `reason`],
  `properties`: {
    `capability`: {
      `type`: `string`,
      `description`: `" +:+ capability +:+ "`
    },
    `confidence`: {
      `type`: `integer`,
      `minimum`: 0,
      `maximum`: 100,
      `description`: `LLM self-rated confidence in the proposed " +:+ confidence +:+ ", 0-100.`
    },
    `entities`: {
      `type`: `object`,
      `description`: `Structured arguments for the capability (e.g. { 'app': 'calculator' }).`
    },
    `reason`: {
      `type`: `string`,
      `description`: `Short human-readable explanation of why this " +:+ reason +:+ " was chosen.`
    }
  }
}").

Definition RT_INTENT_SCHEMA : string :=
  schema_text "One of the Aether IntentType values, e.g. 'application.launch'. Empty string means 'no structured intent'."
    "intent" "intent".
Definition INTENT_SCHEMA : string :=
  schema_text "One of the Aether CapabilityId slugs (e.g. 'app.launch'), or empty string for chat."
    "capability" "capability".

Definition prompt_text (slugs schema valid context user : string) : string :=
  let blank_line := line_feed +:+ line_feed in
  "You are the Aether intent classifier. Map the user request to exactly one of the Aether capability "
  +:+ slugs +:+ " listed below, or empty string if the user is just chatting. Respond with a single JSON object matching this schema:"
  +:+ blank_line +:+ schema +:+ blank_line
  +:+ "Valid capability " +:+ slugs +:+ ":" +:+ line_feed +:+ "  " +:+ valid +:+ blank_line
  +:+ "Current OS context:" +:+ line_feed +:+ "  " +:+ context +:+ blank_line
  +:+ "User request:" +:+ line_feed +:+ "  " +:+ user +:+ blank_line +:+ "JSON:".

Definition rt_build_intent_prompt (user_text context_hint : string) : string :=
  prompt_text "strings" RT_INTENT_SCHEMA (str_join ", " all_slugs)
    (if str_is_empty context_hint then "(none)" else context_hint) user_text.

Definition prompt_slugs : list string :=
  ["system.status"; "app.list"; "app.status"; "app.launch"; "app.close"; "window.list"; "window.focus";
   "window.minimize"; "window.maximize"; "window.close"; "context.get"; "file.list"; "file.search";
   "file.read"; "file.create"; "file.write"; "file.rename"; "file.move"; "file.delete"; "system.info";
   "system.resources"; "system.uptime"].

Definition build_intent_prompt (user_text : string) (ctx : SystemContext) : string :=
  prompt_text "slugs" INTENT_SCHEMA (str_join ", " prompt_slugs)
    (if str_is_empty (grounding_text ctx) then "(none)" else grounding_text ctx) user_text.

(** ** Asking the model *)

Inductive LlmIntentOutcome :=
| LlmIntent (i : Intent J) | LlmChat | LlmFallback (e : StructuredError).

(** What an answer means. *)
Definition read_answer (raw : string) : LlmIntentOutcome :=
  match parse_envelope raw with
  | Err e => LlmFallback e
  | Ok env =>
      match parse_structured_intent env with
      | Ok (Some i) => LlmIntent i
      | Ok None => LlmChat
      | Err e => LlmFallback e
      end
  end.

Definition try_structured {E} `{!AiProvider E} (text : string) (ctx : SystemContext) (e : E) :
    LlmIntentOutcome * E :=
  let '(answer, e) := ai_complete (build_intent_prompt text ctx) e in
  (match answer with
   | Err err => LlmFallback (SeProviderUnavailable err)
   | Ok raw => read_answer raw
   end, e).
End envelope.
Arguments LlmIntentOutcome J : clear implicits.

(** ** What an accepted intent is *)

Section props.
Context {J : Type} `{!JsonOps J} `{!JsonParse J} `{!JsonObject J} `{!EnvelopeParse J}.

(** Every slug is the name of exactly one type of intents. *)
Lemma intent_types_round_trip t :
  IntentType_from_str (IntentType_display t) = Some t ∧ IntentType_display t ∈ all_slugs.
Proof. destruct t; split; try reflexivity; apply (bool_decide_unpack _); vm_compute; exact I. Qed.


(** The checks an answer has passed. *)
Record screened (raw : string) (i : Intent J) : Prop := {
  scr_size : (str_len raw ≤ MAX_RAW_ENVELOPE_BYTES)%N;
  scr_envelope : ∃ value env, json_from_str (strip_code_fence raw) = Ok value ∧
    envelope_from_value value = Ok env ∧
    CapabilityId_from_str (mapped_capability (ie_capability env)) = Some (in_capability i) ∧
    ie_entities env = in_arguments i ∧ (ie_confidence env ≤ 100)%N ∧ blank (ie_reason env) = false;
  scr_object : ∃ obj, json_as_object (in_arguments i) = Some obj ∧ (N.of_nat (length obj) ≤ MAX_ENTITIES_KEYS)%N;
  scr_depth : json_depth JSON_RECURSION_LIMIT (in_arguments i) ≤ MAX_ENTITIES_DEPTH;
}.

Lemma read_answer_screened raw i : read_answer raw = LlmIntent i → screened raw i.
Proof.
  unfold read_answer, parse_envelope.
  destruct (MAX_RAW_ENVELOPE_BYTES <? str_len raw)%N eqn:Hsize; [done|].
  destruct (json_from_str (strip_code_fence raw)) as [value|] eqn:Hv; [|done]. simpl.
  destruct (envelope_from_value value) as [env|] eqn:He; [|done]. simpl.
  destruct (check_envelope env) as [env'|] eqn:Hc; [|done].
  unfold check_envelope in Hc. destruct (MAX_CAPABILITY_LEN <? _)%N; [done|].
  destruct (MAX_REASON_LEN <? _)%N; [done|].
  destruct (parse_structured_intent env') as [[i'|]|] eqn:Hi; try done. intros [= ->].
  unfold parse_structured_intent in Hi. destruct (blank (ie_capability env')); [done|].
  destruct (CapabilityId_from_str (mapped_capability (ie_capability env'))) as [c|] eqn:Hcap; [|done].
  destruct (check_rest env') as [[]|] eqn:Hr; [|done]. simpl in Hi. injection Hi as <-. unfold check_rest in Hr.
  destruct (100 <? ie_confidence env')%N eqn:Hconf; [done|].
  destruct (is_object (ie_entities env')) eqn:Ho; [|done]. simpl in Hr.
  destruct (blank (ie_reason env')) eqn:Hb; [done|]. unfold is_object in Ho.
  destruct (json_as_object (ie_entities env)) as [obj|] eqn:Hobj; cycle 1.
  { injection Hc as <-. by rewrite Hobj in Ho. }
  destruct (MAX_ENTITIES_KEYS <? _)%N eqn:Hk; [done|].
  destruct (MAX_ENTITIES_DEPTH <? _)%nat eqn:Hd; [done|]. injection Hc as <-.
  apply N.ltb_ge in Hsize, Hk, Hconf. apply Nat.ltb_ge in Hd. split; [done| |by exists obj|done].
  exists value, env. split_and!; done.
Qed.
End props.
