(* ===== verification/Agentd.v ===== *)
(** * The agent daemon

    Models lib.rs, runtime_host.rs, intent_to_action.rs and main.rs of
    services/aether-agentd/src: the state of the daemon, what it saves and
    loads, and the handler of every command.

    A handler is a computation over the whole world of the daemon: its state
    with the runtime host it starts on demand, the environment, and the logs of
    what the host and the planner sent.  [None] is a panic; the state stays as
    it was then, since the lock of a panicked thread is taken all the same. *)
From S2P Require Import Prelude RustStd Text Json CoreTypes Actions AgentContext Intent Planner MemoryStore RuntimeLog RuntimeHost LanguageModel StructuredIntent.
From Stdlib Require Import Ascii.

(** ** intent_to_action.rs *)

Section convert.
Context {J : Type} `{!JsonOps J}.

Definition str_at (args : J) (key : string) : option string := v ← json_get args key; json_as_str v.
Definition u64_at (args : J) (key : string) : option N := v ← json_get args key; json_as_u64 v.

Definition string_arg (args : J) (key display : string) : result string string :=
  match str_at args key with
  | Some s => Ok s
  | None => Err ("missing or non-string '" +:+ display +:+ "' argument")
  end.

Definition string_arg_with_alias (args : J) (keys : list string) : result string string :=
  match list_first (str_at args) keys with
  | Some s => Ok s
  | None => Err ("missing or non-string '" +:+ default "argument" (head keys) +:+ "' argument")
  end.

(** "application_id", or "app" when there is no such key. *)
Definition application_of (args : J) : option string :=
  v ← (match json_get args "application_id" with Some v => Some v | None => json_get args "app" end);
  json_as_str v.

Definition window_or_app (capability : string) (args : J) (make : option N → option string → ActionVariant) :
    result ActionVariant string :=
  match u64_at args "window_id", application_of args with
  | None, None => Err (capability +:+ " requires 'window_id' or 'application_id'")
  | window_id, application_id => Ok (make window_id application_id)
  end.

Definition window_only (capability : string) (args : J) (make : N → ActionVariant) : result ActionVariant string :=
  match u64_at args "window_id" with
  | Some id => Ok (make id)
  | None => Err (capability +:+ " requires 'window_id'")
  end.

Definition from_to (args : J) (make : string → string → ActionVariant) : result ActionVariant string :=
  let? from := string_arg args "from" "from" in
  let? to := string_arg args "to" "to" in
  Ok (make from to).

Definition variant_of (capability : string) (args : J) : result ActionVariant string :=
  match capability with
  | "application.launch" =>
      let? app := string_arg_with_alias args ["application_id"; "app"] in Ok (ApplicationLaunch app)
  | "application.close" =>
      let? app := string_arg_with_alias args ["application_id"; "app"] in Ok (ApplicationClose app)
  | "window.list" => Ok WindowList
  | "window.focus" => window_or_app "window.focus" args WindowFocus
  | "window.minimize" => window_only "window.minimize" args WindowMinimize
  | "window.maximize" => window_only "window.maximize" args WindowMaximize
  | "window.close" => window_or_app "window.close" args WindowClose
  | "file.list" => Ok (FileList (default "" (str_at args "path")))
  | "file.read" => let? path := string_arg args "path" "path" in Ok (FileRead path)
  | "file.create" =>
      let? path := string_arg args "path" "path" in Ok (FileCreate path (str_at args "content"))
  | "file.write" =>
      let? path := string_arg args "path" "path" in
      match str_at args "content" with
      | Some content => Ok (FileWrite path content)
      | None => Err "file.write requires 'content' string"
      end
  | "file.search" =>
      let? query := string_arg args "query" "query" in Ok (FileSearch query (str_at args "path"))
  | "file.rename" => from_to args FileRename
  | "file.move" => from_to args FileMove
  | "file.delete" => let? path := string_arg args "path" "path" in Ok (FileDelete path)
  | "process.list" => Ok ProcessList
  | "process.inspect" =>
      let pid := (n ← u64_at args "pid"; if (n <=? u32_max)%N then Some n else None) in
      match pid, str_at args "name" with
      | None, None => Err "process.inspect requires 'pid' or 'name'"
      | pid, name => Ok (ProcessInspect pid name)
      end
  | "network.status" => Ok NetworkStatus
  | "network.interfaces" => Ok NetworkInterfaces
  | "system.status" => Ok SystemStatus
  | "system.info" => Ok SystemInfo
  | "system.resources" => Ok SystemResources
  | "system.uptime" => Ok SystemUptime
  | "storage.status" => Ok StorageStatus
  | unknown => Err ("unknown capability: '" +:+ unknown +:+ "' (or not exposed by this surface)")
  end%string.

(** The fresh id of the action is an argument. *)
Definition intent_to_action (id : N) (session_id capability : string) (args : J) : result Action string :=
  if blank session_id then Err "session_id is required"
  else
    let? variant := variant_of capability args in
    Ok (Action_new id session_id variant "structured intent via agent.intent").
End convert.

(** ** The state *)

Definition EVENT_RING_CAPACITY : nat := 256.

Inductive EventSeverity := SevInfo | SevWarning | SevError.
#[export] Instance EventSeverity_eq_dec : EqDecision EventSeverity.
Proof. solve_decision. Defined.

Record DaemonEvent := mkDaemonEvent {
  dv_id : N;
  dv_severity : EventSeverity;
  dv_source : string;
  dv_message : string;
  dv_timestamp_ms : N;
}.

Record TaskRecord := mkTaskRecord { tr_id : N; tr_description : string; tr_done : bool }.

Record AgentState {S J : Type} := mkAgentState {
  ag_id : N;
  ag_events : list DaemonEvent;
  ag_tasks : list TaskRecord;
  ag_control_port : N;
  ag_surface_port : N;
  ag_conversation : ConversationContext;
  ag_runtime : option (Host J);
  ag_working : gmap string string;
  ag_memory_store : S;
  ag_last_flush_ms : N;
  ag_progress : ProgressTracker;
}.
Arguments AgentState S J : clear implicits.
Arguments mkAgentState {S J}.

(** [default_memory_store]: where the memory is kept, by three variables. *)
Inductive StoreChoice := KeepInMemory | KeepInDirectory (root : string).
Definition default_memory_store (backend memory_root workspace : option string) : StoreChoice :=
  let backend := default "" backend in
  if eq_ignore_ascii_case backend "in-memory" || eq_ignore_ascii_case backend "memory" then KeepInMemory
  else
    let given o := match o with Some p => if blank p then None else Some p | None => None end in
    match given memory_root, given workspace with
    | Some p, _ => KeepInDirectory p
    | None, Some p => KeepInDirectory (path_join p "aether-agent")
    | None, None => KeepInMemory
    end.

(** [AgentState::new] with the ports of [main]. *)
Definition AgentState_new {S J} (id control_port surface_port : N) (store : S) : AgentState S J :=
  mkAgentState id [] [] control_port surface_port ConversationContext_default None ∅ store 0
    ProgressTracker_new.

Section updates.
Context {S J : Type}.
Implicit Types a : AgentState S J.

Definition set_ag_events (l : list DaemonEvent) a : AgentState S J :=
  mkAgentState (ag_id a) l (ag_tasks a) (ag_control_port a) (ag_surface_port a) (ag_conversation a)
    (ag_runtime a) (ag_working a) (ag_memory_store a) (ag_last_flush_ms a) (ag_progress a).
Definition set_ag_tasks (l : list TaskRecord) a : AgentState S J :=
  mkAgentState (ag_id a) (ag_events a) l (ag_control_port a) (ag_surface_port a) (ag_conversation a)
    (ag_runtime a) (ag_working a) (ag_memory_store a) (ag_last_flush_ms a) (ag_progress a).
Definition set_ag_conversation (c : ConversationContext) a : AgentState S J :=
  mkAgentState (ag_id a) (ag_events a) (ag_tasks a) (ag_control_port a) (ag_surface_port a) c
    (ag_runtime a) (ag_working a) (ag_memory_store a) (ag_last_flush_ms a) (ag_progress a).
Definition set_ag_runtime (h : Host J) a : AgentState S J :=
  mkAgentState (ag_id a) (ag_events a) (ag_tasks a) (ag_control_port a) (ag_surface_port a)
    (ag_conversation a) (Some h) (ag_working a) (ag_memory_store a) (ag_last_flush_ms a) (ag_progress a).
Definition set_ag_working (m : gmap string string) a : AgentState S J :=
  mkAgentState (ag_id a) (ag_events a) (ag_tasks a) (ag_control_port a) (ag_surface_port a)
    (ag_conversation a) (ag_runtime a) m (ag_memory_store a) (ag_last_flush_ms a) (ag_progress a).
Definition set_ag_store (s : S) a : AgentState S J :=
  mkAgentState (ag_id a) (ag_events a) (ag_tasks a) (ag_control_port a) (ag_surface_port a)
    (ag_conversation a) (ag_runtime a) (ag_working a) s (ag_last_flush_ms a) (ag_progress a).
Definition set_ag_flushed (t : N) a : AgentState S J :=
  mkAgentState (ag_id a) (ag_events a) (ag_tasks a) (ag_control_port a) (ag_surface_port a)
    (ag_conversation a) (ag_runtime a) (ag_working a) (ag_memory_store a) t (ag_progress a).
Definition set_ag_progress (p : ProgressTracker) a : AgentState S J :=
  mkAgentState (ag_id a) (ag_events a) (ag_tasks a) (ag_control_port a) (ag_surface_port a)
    (ag_conversation a) (ag_runtime a) (ag_working a) (ag_memory_store a) (ag_last_flush_ms a) p.
End updates.

(** ** Handlers *)

Record AgentWorld {E S J : Type} := mkAgentWorld {
  aw_agent : AgentState S J;
  aw_env : E;
  aw_sent : list (Sent J);
  aw_wire : list (N * WireMessage J);
}.
Arguments AgentWorld E S J : clear implicits.
Arguments mkAgentWorld {E S J}.

Definition Daemon (E S J A : Type) : Type := AgentWorld E S J → AgentWorld E S J * option A.

#[export] Instance Daemon_ret {E S J} : MRet (Daemon E S J) := λ A a w, (w, Some a).
#[export] Instance Daemon_bind {E S J} : MBind (Daemon E S J) := λ A B f m w,
  let '(w, o) := m w in match o with Some a => f a w | None => (w, None) end.

Record AgentRequest := mkAgentRequest { rq_command : string; rq_argument : option string }.
Record AgentResponse {J : Type} := mkAgentResponse { rp_ok : bool; rp_result : J }.
Arguments AgentResponse J : clear implicits.
Arguments mkAgentResponse {J}.

(** The derived deserializer of a request. *)
Class AgentRequestParse := { agent_request_from_str : string → result AgentRequest string }.

Section daemon.
Context {E S J : Type} `{!RuntimeEnv E} `{!WireEnv E} `{!AiProvider E} `{!MemoryStore S}
  `{!JsonOps J} `{!JsonParse J} `{!JsonObject J} `{!EnvelopeParse J} `{!ObservationText J}
  `{!ResponseParse J} `{!UuidText} `{!Unicode} `{!DebugText}
  `{!PersistCodec ConversationSnapshot} `{!PersistCodec (gmap string string)}
  `{!PersistCodec (list RtAuditEntry)}.
(** The orders in which hash maps are iterated. *)
Variable iter : ∀ {V}, gmap N V → list (N * V).
Variable iter_working : gmap string string → list (string * string).

(** ** Parts of the world *)

Definition lift_panic {A} (o : option A) : Daemon E S J A := λ w, (w, o).
Definition state : Daemon E S J (AgentState S J) := λ w, (w, Some (aw_agent w)).
Definition update (f : AgentState S J → AgentState S J) : Daemon E S J unit := λ w,
  (mkAgentWorld (f (aw_agent w)) (aw_env w) (aw_sent w) (aw_wire w), Some tt).
Definition with_env {A} (f : E → A * E) : Daemon E S J A := λ w,
  let '(a, e) := f (aw_env w) in (mkAgentWorld (aw_agent w) e (aw_sent w) (aw_wire w), Some a).
Definition clock : Daemon E S J N := with_env env_now.
Definition fresh_uuid : Daemon E S J N := with_env env_uuid.

(** A computation of the planner or the context engine. *)
Definition over_net {A} (m : Net E J A) : Daemon E S J A := λ w,
  let '(n, a) := m (mkWire (aw_env w) (aw_wire w)) in
  (mkAgentWorld (aw_agent w) (wire_env n) (aw_sent w) (wire_log n), Some a).

(** ** runtime_host.rs *)

Definition default_capabilities : list string :=
  ["system.status"; "system.info"; "system.resources"; "system.uptime"; "context.get"; "storage.status";
   "network.status"; "network.interfaces"; "application.list"; "process.list"; "process.inspect";
   "window.list"; "file.list"; "file.search"; "file.read"; "file.stat"; "file.create"; "file.write";
   "file.rename"; "file.move"; "application.launch"; "application.close"; "window.focus";
   "window.minimize"; "window.maximize"; "window.close"; "agent.memory.write"].

(** [AgentState::runtime_mut]: the host, started when there is none. *)
Definition runtime_mut : Daemon E S J (Host J) :=
  a ← state;
  match ag_runtime a with
  | Some h => mret h
  | None =>
      id ← fresh_uuid;
      let h := start_host id (ag_control_port a) (ag_surface_port a) default_capabilities in
      _ ← update (set_ag_runtime h);
      mret h
  end.

(** [with_host_mut]. *)
Definition run_host {A} (m : M E J A) (h : Host J) : Daemon E S J (result A AgentError) := λ w,
  let '(w', o) := m (mkWorld h (aw_env w) (aw_sent w)) in
  (mkAgentWorld (set_ag_runtime (w_host w') (aw_agent w)) (w_env w') (w_sent w') (aw_wire w),
   match o with Done a => Some (Ok a) | Fail e => Some (Err e) | Panic => None end).
Definition on_host {A} (m : M E J A) : Daemon E S J (result A AgentError) := runtime_mut ≫= run_host m.

Definition rt_ok (result : J) : J := json_obj [("ok", json_bool true); ("result", result)].
Definition rt_err (message : string) : J :=
  json_obj [("ok", json_bool false); ("result", json_obj [("error", json_str message)])].

Definition request_actor_from_str (identity : string) : RequestActor := mkRequestActor AtHuman identity.
Definition session_actor_from_str (identity : string) : SessionActor := mkSessionActor AtHuman identity.

Definition parse_session_id (raw : string) : result N J :=
  match uuid_parse raw with
  | Ok id => Ok id
  | Err _ => Err (rt_err ("invalid session id: '" +:+ raw +:+ "' (must be a UUID)"))
  end.

Definition resolve_session (h : Host J) (raw : string) : result N J :=
  let? id := parse_session_id raw in
  if has_session h id then Ok id else Err (rt_err ("no such session: '" +:+ raw +:+ "'")).

Definition outcome_to_value (o : RequestOutcome J) : J :=
  let optional key v := match v with Some v => [(key, v)] | None => [] end in
  rt_ok (json_obj
    ([("request_id", json_str (out_request_id o)); ("session_id", json_str (out_session_id o))]
     ++ optional "action_id" (json_str <$> out_action_id o)
     ++ [("success", json_bool (out_success o)); ("duration_ms", json_num (out_duration_ms o));
         ("session_state", json_str (SessionState_to_string (out_session_state o)))]
     ++ optional "observation" (out_observation o)
     ++ optional "error" (json_str <$> out_error o)
     ++ optional "pending_approval_id" (json_str <$> out_pending_approval_id o))).

Definition submit_and_format (session_id : string) (a : Action) : Daemon E S J J :=
  match parse_session_id session_id with
  | Err e => mret e
  | Ok id =>
      r ← on_host (submit_action (@iter) id (request_actor_from_str "agentd") a);
      mret (match r with
            | Ok o => outcome_to_value o
            | Err e => rt_err (AgentError_to_string e)
            end)
  end.

(** ** Events, tasks, progress *)

Definition record_event (severity : EventSeverity) (source message : string) :
    Daemon E S J DaemonEvent :=
  id ← fresh_uuid;
  t ← clock;
  a ← state;
  let event := mkDaemonEvent id severity source message t in
  _ ← update (set_ag_events
        ((if (EVENT_RING_CAPACITY <=? length (ag_events a))%nat then tail (ag_events a) else ag_events a)
         ++ [event]));
  mret event.

Definition progress_to (s : ProgressState) (session_id : option string) (message : string) :
    Daemon E S J unit :=
  t ← clock;
  a ← state;
  update (set_ag_progress (progress_transition s session_id message t (ag_progress a))).

Definition recent_events (a : AgentState S J) (limit : N) : list DaemonEvent :=
  take (N.to_nat (N.min limit (N.of_nat (length (ag_events a))))) (reverse (ag_events a)).

Definition add_task (description : string) : Daemon E S J TaskRecord :=
  id ← fresh_uuid;
  a ← state;
  let task := mkTaskRecord id description false in
  _ ← update (set_ag_tasks (ag_tasks a ++ [task]));
  mret task.

(** Marks the first open task of that id. *)
Fixpoint mark_done (id : N) (l : list TaskRecord) : option (list TaskRecord) :=
  match l with
  | [] => None
  | t :: l =>
      if (tr_id t =? id)%N && negb (tr_done t)
      then Some (mkTaskRecord (tr_id t) (tr_description t) true :: l)
      else cons t <$> mark_done id l
  end.

Definition complete_task (id : N) : Daemon E S J bool :=
  a ← state;
  match mark_done id (ag_tasks a) with
  | Some l => _ ← update (set_ag_tasks l); mret true
  | None => mret false
  end.

Definition health_verdict (a : AgentState S J) : string :=
  if existsb (λ e, bool_decide (dv_severity e = SevError)) (ag_events a) then "DEGRADED" else "HEALTHY".

(** ** Saving and loading *)

Inductive PersistenceOutcome :=
| PoMissing | PoLoaded (entries : N) | PoWritten (bytes : N) | PoCorrupt (s : string)
| PoWriteFailed (s : string).

Record PersistenceReport := mkPersistenceReport {
  per_conversation : PersistenceOutcome;
  per_working : PersistenceOutcome;
  per_audit_recent : PersistenceOutcome;
}.

Definition outcome_is_clean (o : PersistenceOutcome) : bool :=
  match o with PoMissing | PoLoaded _ | PoWritten _ => true | PoCorrupt _ | PoWriteFailed _ => false end.
Definition is_clean (r : PersistenceReport) : bool :=
  outcome_is_clean (per_conversation r) && outcome_is_clean (per_working r)
  && outcome_is_clean (per_audit_recent r).

Definition estimate_conversation_size (turns : N) : N := (64 + turns * 256)%N.

(** [ConversationContext::persist] and [load]; the envelope takes the time. *)
Definition conversation_persist (now : N) (c : ConversationContext) (store : S) :
    S * result unit MemoryStoreError :=
  match encode_persisted now (conversation_snapshot c) with
  | Err e => (store, Err e)
  | Ok bytes => store_save "conversation" bytes store
  end.

Definition conversation_load (store : S) (c : ConversationContext) :
    ConversationContext * result bool MemoryStoreError :=
  match store_load "conversation" store with
  | Err e => (c, Err e)
  | Ok None => (c, Ok false)
  | Ok (Some bytes) =>
      match decode_persisted bytes with
      | Err e => (c, Err e)
      | Ok snap =>
          let '(c, r) := conversation_restore snap c in
          (c, match r with Ok _ => Ok true | Err e => Err (MsCorrupt e) end)
      end
  end.

(** [AgentRuntimeHost::persist_audit_recent] and [restore_audit_recent]. *)
Definition persist_audit_recent (now : N) (h : Host J) (count : nat) (store : S) :
    S * result N MemoryStoreError :=
  let entries := snapshot_recent count (h_audit h) in
  match encode_persisted now entries with
  | Err e => (store, Err e)
  | Ok bytes =>
      let '(store, r) := store_save "audit_recent" bytes store in
      (store, let? _ := r in Ok (N.of_nat (length entries)))
  end.

Definition restore_audit_recent (store : S) (h : Host J) : Host J * result N MemoryStoreError :=
  match store_load "audit_recent" store with
  | Err e => (h, Err e)
  | Ok None => (h, Ok 0%N)
  | Ok (Some bytes) =>
      match decode_persisted bytes with
      | Err e => (h, Err e)
      | Ok entries => let '(log, n) := restore_recent entries (h_audit h) in
                      (set_audit_log log h, Ok (N.of_nat n))
      end
  end.

Definition warn (message : string) : Daemon E S J DaemonEvent := record_event SevWarning "persistence" message.
Definition inform (message : string) : Daemon E S J DaemonEvent := record_event SevInfo "persistence" message.

Definition load_conversation : Daemon E S J PersistenceOutcome :=
  a ← state;
  let '(c, r) := conversation_load (ag_memory_store a) (ag_conversation a) in
  _ ← update (set_ag_conversation c);
  match r with
  | Ok true =>
      _ ← inform ("conversation restored: " +:+ conversation_summary c);
      mret (PoLoaded (N.of_nat (length (cv_turns c))))
  | Ok false => mret PoMissing
  | Err e =>
      _ ← warn ("conversation load failed: " +:+ MemoryStoreError_display e +:+ "; using defaults");
      mret (PoCorrupt (MemoryStoreError_display e))
  end.

Definition load_working : Daemon E S J PersistenceOutcome :=
  a ← state;
  match store_load "working" (ag_memory_store a) with
  | Ok (Some bytes) =>
      match decode_persisted (T := gmap string string) bytes with
      | Ok map =>
          let n := N.of_nat (size map) in
          _ ← update (set_ag_working map);
          _ ← inform ("working memory restored: " +:+ pretty n +:+ " entries");
          mret (PoLoaded n)
      | Err e =>
          _ ← warn ("working memory load failed: " +:+ MemoryStoreError_display e +:+ "; using defaults");
          mret (PoCorrupt (MemoryStoreError_display e))
      end
  | Ok None => mret PoMissing
  | Err e =>
      _ ← warn ("working memory read failed: " +:+ MemoryStoreError_display e);
      mret (PoCorrupt (MemoryStoreError_display e))
  end.

Definition load_audit : Daemon E S J PersistenceOutcome :=
  h ← runtime_mut;
  a ← state;
  let '(h, r) := restore_audit_recent (ag_memory_store a) h in
  _ ← update (set_ag_runtime h);
  match r with
  | Ok n =>
      if (n =? 0)%N then mret PoMissing
      else
        _ ← inform ("audit log restored: " +:+ pretty n +:+ " recent entries");
        mret (PoLoaded n)
  | Err (MsCorrupt reason) =>
      _ ← warn "audit recent load failed: corrupt blob; using empty ring";
      mret (PoCorrupt reason)
  | Err e =>
      _ ← warn ("audit recent load failed: " +:+ MemoryStoreError_display e);
      mret (PoCorrupt (MemoryStoreError_display e))
  end.

Definition load_persisted : Daemon E S J PersistenceReport :=
  conversation ← load_conversation;
  working ← load_working;
  audit ← load_audit;
  mret (mkPersistenceReport conversation working audit).

Definition flush_conversation : Daemon E S J PersistenceOutcome :=
  t ← clock;
  a ← state;
  let '(store, r) := conversation_persist t (ag_conversation a) (ag_memory_store a) in
  _ ← update (set_ag_store store);
  match r with
  | Ok _ => mret (PoWritten (estimate_conversation_size (N.of_nat (length (cv_turns (ag_conversation a))))))
  | Err e =>
      _ ← warn ("conversation flush failed: " +:+ MemoryStoreError_display e);
      mret (PoWriteFailed (MemoryStoreError_display e))
  end.

Definition flush_working : Daemon E S J PersistenceOutcome :=
  t ← clock;
  a ← state;
  match encode_persisted t (ag_working a) with
  | Err e =>
      _ ← warn ("working memory encode failed: " +:+ MemoryStoreError_display e);
      mret (PoWriteFailed (MemoryStoreError_display e))
  | Ok bytes =>
      let '(store, r) := store_save "working" bytes (ag_memory_store a) in
      _ ← update (set_ag_store store);
      match r with
      | Ok _ => mret (PoWritten (N.of_nat (length bytes)))
      | Err e =>
          _ ← warn ("working memory flush failed: " +:+ MemoryStoreError_display e);
          mret (PoWriteFailed (MemoryStoreError_display e))
      end
  end.

Definition flush_audit : Daemon E S J PersistenceOutcome :=
  h ← runtime_mut;
  t ← clock;
  a ← state;
  let '(store, r) := persist_audit_recent t h 256 (ag_memory_store a) in
  _ ← update (set_ag_store store);
  match r with
  | Ok n => mret (if (n =? 0)%N then PoMissing else PoWritten n)
  | Err e =>
      _ ← warn ("audit recent flush failed: " +:+ MemoryStoreError_display e);
      mret (PoWriteFailed (MemoryStoreError_display e))
  end.

Definition flush_persisted : Daemon E S J PersistenceReport :=
  conversation ← flush_conversation;
  working ← flush_working;
  audit ← flush_audit;
  t ← clock;
  _ ← update (set_ag_flushed t);
  mret (mkPersistenceReport conversation working audit).

(** ** Answers *)

Definition answer (ok : bool) (fields : list (string * J)) : Daemon E S J (AgentResponse J) :=
  mret (mkAgentResponse ok (json_obj fields)).
Definition refuse (message : string) : Daemon E S J (AgentResponse J) :=
  answer false [("error", json_str message)].

(** The derived serializers. *)
Definition severity_json (s : EventSeverity) : J :=
  json_str (match s with SevInfo => "Info" | SevWarning => "Warning" | SevError => "Error" end).
Definition event_json (e : DaemonEvent) : J :=
  json_obj [("id", json_str (uuid_text (dv_id e))); ("severity", severity_json (dv_severity e));
            ("source", json_str (dv_source e)); ("message", json_str (dv_message e));
            ("timestamp_ms", json_num (dv_timestamp_ms e))].
Definition task_json (t : TaskRecord) : J :=
  json_obj [("id", json_str (uuid_text (tr_id t))); ("description", json_str (tr_description t));
            ("done", json_bool (tr_done t))].
Definition HostState_json (s : HostState) : J :=
  json_str (match s with
            | HsStarting => "Starting" | HsReady => "Ready" | HsRunning => "Running"
            | HsStopping => "Stopping" | HsStopped => "Stopped" | HsFailed => "Failed"
            end).
Definition HostStatus_json (s : HostStatus) : J :=
  json_obj [("host_id", json_str (uuid_text (hst_host_id s))); ("state", HostState_json (hst_state s));
            ("session_count", json_num (hst_session_count s));
            ("active_session_count", json_num (hst_active_session_count s));
            ("audit_count", json_num (N.of_nat (hst_audit_count s)));
            ("event_count", json_num (hst_event_count s));
            ("control_port", json_num (hst_control_port s)); ("surface_port", json_num (hst_surface_port s))].
Definition window_json (w : WindowSnapshot) : J :=
  json_obj [("id", json_num (ws_id w)); ("app_id", json_str (ws_app_id w)); ("title", json_str (ws_title w));
            ("state", json_str (ws_state w)); ("focused", json_bool (ws_focused w))].
Definition service_json (s : ServiceSnapshot) : J :=
  json_obj [("service_id", json_str (ss_service_id s)); ("status", json_str (ss_status s));
            ("health", json_str (ss_health s))].
Definition strings_json (l : list string) : J := json_arr (json_str <$> l).
Definition context_json (c : SystemContext) : J :=
  json_obj [("active_window", json_opt_str (sc_active_window c));
            ("focused_window_id", json_opt_num (sc_focused_window_id c));
            ("windows", json_arr (window_json <$> sc_windows c));
            ("minimized_windows", strings_json (sc_minimized_windows c));
            ("running_apps", strings_json (sc_running_apps c));
            ("installed_apps", strings_json (sc_installed_apps c));
            ("app_states", json_obj ((λ k, (k, json_str (default "" (sc_app_states c !! k))))
                                       <$> btree_keys (sc_app_states c)));
            ("overall_health", json_str (sc_overall_health c));
            ("services", json_arr (service_json <$> sc_services c))].
Definition PersistenceOutcome_json (o : PersistenceOutcome) : J :=
  match o with
  | PoMissing => json_str "Missing"
  | PoLoaded n => json_obj [("Loaded", json_obj [("entries", json_num n)])]
  | PoWritten n => json_obj [("Written", json_obj [("bytes", json_num n)])]
  | PoCorrupt s => json_obj [("Corrupt", json_str s)]
  | PoWriteFailed s => json_obj [("WriteFailed", json_str s)]
  end.
Definition PersistenceReport_json (r : PersistenceReport) : J :=
  json_obj [("conversation", PersistenceOutcome_json (per_conversation r));
            ("working", PersistenceOutcome_json (per_working r));
            ("audit_recent", PersistenceOutcome_json (per_audit_recent r))].

(** ** The commands *)

(** A count given as the argument. *)
Definition count_argument (arg : option string) (otherwise : N) : N :=
  default otherwise (s ← arg; parse_unsigned u64_max s).

Definition ag_status : Daemon E S J (AgentResponse J) :=
  a ← state;
  answer true [("agent_id", json_str (uuid_text (ag_id a))); ("health", json_str (health_verdict a));
               ("event_count", json_num (N.of_nat (length (ag_events a))));
               ("task_count", json_num (N.of_nat (length (ag_tasks a))));
               ("provider", json_str ai_name)].

Definition ag_list_events (arg : option string) : Daemon E S J (AgentResponse J) :=
  a ← state;
  mret (mkAgentResponse true (json_arr (event_json <$> recent_events a (count_argument arg 10)))).

Definition ag_agent_status : Daemon E S J (AgentResponse J) :=
  h ← runtime_mut;
  a ← state;
  answer true [("agent_id", json_str (uuid_text (ag_id a))); ("health", json_str (health_verdict a));
               ("provider", json_str ai_name); ("runtime", HostStatus_json (host_status (@iter) h))].

Definition ag_session_create (arg : option string) : Daemon E S J (AgentResponse J) :=
  r ← on_host (create_session (session_actor_from_str (default "human" arg)));
  match r with
  | Ok sid => answer true [("session_id", json_str (uuid_text sid)); ("state", json_str "ready")]
  | Err e => refuse (AgentError_to_string e)
  end.

Definition ag_session_list : Daemon E S J (AgentResponse J) :=
  h ← runtime_mut;
  answer true [("sessions", json_arr (list_sessions (@iter) h))].

Definition ag_session_status (arg : option string) : Daemon E S J (AgentResponse J) :=
  let raw := default "" arg in
  h ← runtime_mut;
  match parse_session_id raw with
  | Err e => mret (mkAgentResponse false e)
  | Ok id => match inspect_session h id with
             | Some v => answer true [("session", v)]
             | None => refuse ("no such session: '" +:+ raw +:+ "'")
             end
  end.

(** A call of the host about a session named in the request: an error is
    printed inside an answer of the host. *)
Definition for_session {A} (raw : string) (m : N → M E J A) : Daemon E S J (result A J) :=
  match parse_session_id raw with
  | Err e => _ ← runtime_mut; mret (Err e)
  | Ok id => r ← on_host (m id); mret (map_err (λ e, rt_err (AgentError_to_string e)) r)
  end.

Definition ag_session_cancel (arg : option string) : Daemon E S J (AgentResponse J) :=
  r ← for_session (default "" arg) cancel_session;
  match r with
  | Ok true => answer true [("cancelled", json_bool true)]
  | Ok false => answer true [("cancelled", json_bool false); ("note", json_str "already terminal")]
  | Err e => refuse (json_to_string e)
  end.

Definition ag_approval_list : Daemon E S J (AgentResponse J) :=
  h ← runtime_mut;
  answer true [("pending", json_arr (list_pending_approvals (@iter) h))].

(** An approval id that does not parse. *)
Definition bad_approval (raw : string) : Daemon E S J (AgentResponse J) :=
  refuse ("invalid approval_id: '" +:+ raw +:+ "'").

Definition ag_approval_grant (arg : option string) : Daemon E S J (AgentResponse J) :=
  let raw := default "" arg in
  match uuid_parse raw with
  | Err _ => bad_approval raw
  | Ok id =>
      r ← on_host (approve_request id);
      match r with
      | Ok (Some o) =>
          _ ← progress_to PsWorking (Some (out_session_id o))
                ("approval granted; executing action " +:+ default "?" (out_action_id o));
          mret (mkAgentResponse true (json_index (outcome_to_value o) "result"))
      | Ok None => answer false [("error", json_str "approval not found"); ("approval_id", json_str raw)]
      | Err e => refuse (json_to_string (rt_err (AgentError_to_string e)))
      end
  end.

(** The argument as JSON, an empty object when it is none. *)
Definition payload_of (arg : option string) : J :=
  match json_from_str (default "{}" arg) with Ok v => v | Err _ => json_obj [] end.

Definition ag_approval_deny (arg : option string) : Daemon E S J (AgentResponse J) :=
  let payload := payload_of arg in
  let raw := text_at payload "approval_id" "" in
  let reason := text_at payload "reason" "user denied" in
  match uuid_parse raw with
  | Err _ => bad_approval raw
  | Ok id =>
      r ← on_host (deny_request id reason);
      match r with
      | Ok true =>
          _ ← progress_to PsFailed None ("approval denied: " +:+ reason);
          answer true [("denied", json_bool true); ("reason", json_str reason)]
      | Ok false =>
          answer false [("denied", json_bool false); ("error", json_str "approval not found");
                        ("approval_id", json_str raw)]
      | Err e => refuse (json_to_string (rt_err (AgentError_to_string e)))
      end
  end.

Definition ag_audit_session (arg : option string) : Daemon E S J (AgentResponse J) :=
  h ← runtime_mut;
  match parse_session_id (default "" arg) with
  | Ok id => answer true [("entries", json_arr (audit_for h (uuid_text id)))]
  | Err e => mret (mkAgentResponse false e)
  end.

(** A count beyond the length of the log is its length. *)
Definition ag_audit_recent (arg : option string) : Daemon E S J (AgentResponse J) :=
  h ← runtime_mut;
  let count := N.min (count_argument arg 50) (N.of_nat (length (al_entries (h_audit h)))) in
  answer true [("entries", json_arr (audit_recent h (N.to_nat count)))].

Definition ag_action_cancel (arg : option string) : Daemon E S J (AgentResponse J) :=
  let payload := payload_of arg in
  let action_str := text_at payload "action_id" "" in
  match uuid_parse action_str with
  | Err _ => refuse ("invalid action_id: '" +:+ action_str +:+ "'")
  | Ok action_id =>
      r ← for_session (text_at payload "session_id" "") (λ sid, cancel_action sid action_id);
      match r with
      | Ok found => answer true [("found", json_bool found)]
      | Err e => refuse (json_to_string e)
      end
  end.

Definition ag_stop : Daemon E S J (AgentResponse J) :=
  r ← on_host (stop (@iter));
  let stopped := match r with Ok _ => true | Err _ => false end in
  answer stopped [("stopped", json_bool stopped); ("state", json_str "stopped")].

Definition report_progress (o : RequestOutcome J) (session_str action_name : string) : Daemon E S J unit :=
  match out_pending_approval_id o with
  | Some _ =>
      progress_to PsWaitingForPermission (Some session_str)
        ("action " +:+ action_name +:+ " requires approval")
  | None =>
      if out_success o
      then progress_to PsCompleted (Some session_str) ("action " +:+ action_name +:+ " succeeded")
      else progress_to PsFailed (Some session_str)
             ("action " +:+ action_name +:+ " failed: " +:+ default "unknown" (out_error o))
  end.

(** The id is drawn first; a request that is refused does not use it. *)
Definition ag_intent (arg : option string) : Daemon E S J (AgentResponse J) :=
  let payload := payload_of arg in
  let session_str := text_at payload "session_id" "" in
  let action_name := text_at payload "capability" "" in
  let args := default (json_obj []) (json_get payload "arguments") in
  id ← fresh_uuid;
  match intent_to_action id session_str action_name args with
  | Err e => refuse e
  | Ok action =>
      r ← for_session session_str (λ sid, submit_action (@iter) sid (request_actor_from_str "agentd") action);
      match r with
      | Err e =>
          _ ← progress_to PsFailed (Some session_str) ("submit_action failed: " +:+ json_to_string e);
          refuse (json_to_string e)
      | Ok o =>
          _ ← report_progress o session_str action_name;
          mret (mkAgentResponse (out_success o) (json_index (outcome_to_value o) "result"))
      end
  end.

Definition ag_context : Daemon E S J (AgentResponse J) :=
  a ← state;
  ctx ← over_net (build_context (ag_control_port a) (ag_surface_port a));
  mret (mkAgentResponse true (context_json ctx)).

(** The argument, unless it is blank. *)
Definition given_text (arg : option string) : option string :=
  text ← arg; if blank text then None else Some text.

Definition ag_note (arg : option string) : Daemon E S J (AgentResponse J) :=
  match given_text arg with
  | Some text =>
      event ← record_event SevInfo "session" text;
      answer true [("recorded", json_str (uuid_text (dv_id event)))]
  | None => refuse "'argument' with note text required"
  end.

Definition ag_task_add (arg : option string) : Daemon E S J (AgentResponse J) :=
  match given_text arg with
  | Some text =>
      task ← add_task text;
      _ ← record_event SevInfo "tasks" ("added '" +:+ tr_description task +:+ "'");
      mret (mkAgentResponse true (task_json task))
  | None => refuse "'argument' with task text required"
  end.

Definition ag_task_done (arg : option string) : Daemon E S J (AgentResponse J) :=
  match (s ← arg; match uuid_parse s with Ok id => Some id | Err _ => None end) with
  | Some id =>
      completed ← complete_task id;
      answer completed [("completed", json_bool completed)]
  | None => refuse "'argument' must be a task UUID"
  end.

(** ** Chat *)

Definition ActionStatus_debug (s : ActionStatus) : string :=
  match s with
  | AsSuccess => "Success" | AsFailed => "Failed" | AsRejected => "Rejected"
  | AsRequiresConsent => "RequiresConsent"
  end.

Definition apps_in_plan (intents : list (Intent J)) : list string :=
  omap (λ i, str_at (in_arguments i) "app") intents.

Definition files_in_plan (intents : list (Intent J)) : list string :=
  List.filter (λ s, negb (str_is_empty s))
    (omap (λ i,
        match in_capability i with
        | CiFileList | CiFileRead | CiFileCreate | CiFileWrite | CiFileDelete => str_at (in_arguments i) "path"
        | CiFileSearch => str_at (in_arguments i) "query"
        | CiFileRename | CiFileMove => str_at (in_arguments i) "from"
        | _ => None
        end) intents).

Definition action_severity (s : ActionStatus) : EventSeverity :=
  match s with
  | AsSuccess => SevInfo
  | AsRejected => SevWarning
  | AsFailed | AsRequiresConsent => SevError
  end.

Fixpoint record_actions (l : list (ActionResult (J := J))) : Daemon E S J unit :=
  match l with
  | [] => mret tt
  | r :: l =>
      _ ← record_event (action_severity (ar_status r)) "capability"
            (CapabilityId_as_str (ar_capability r) +:+ " -> " +:+ ar_message r +:+ " ("
             +:+ ActionStatus_debug (ar_status r) +:+ ")");
      record_actions l
  end.

Definition action_json (r : ActionResult) : J :=
  json_obj [("capability", json_str (CapabilityId_as_str (ar_capability r)));
            ("arguments", ar_arguments r); ("status", json_str (ActionStatus_debug (ar_status r)));
            ("message", json_str (ar_message r))].

(** The answer to a plan that was carried out. *)
Definition plan_answer (provider : string) (plan : PlanResult) (ctx : SystemContext) : AgentResponse J :=
  mkAgentResponse (pr_ok plan)
    (json_obj [("response", json_str (match pr_actions plan with [r] => ar_message r | _ => pr_summary plan end));
               ("capability", json_str (match pr_actions plan with
                                        | r :: _ => CapabilityId_as_str (ar_capability r)
                                        | [] => "none"
                                        end));
               ("provider", json_str provider);
               ("actions", json_arr (action_json <$> pr_actions plan));
               ("context", json_obj [("active_window", json_opt_str (sc_active_window ctx));
                                     ("running_apps", strings_json (sc_running_apps ctx));
                                     ("windows", strings_json (open_titles ctx))])]).

(** Execute, remember, record, report: the common part of the two branches of
    [chat] that have intents. *)
Definition carry_out (text provider whose : string) (intents : list (Intent J)) (files : list string)
    (ctx : SystemContext) : Daemon E S J (AgentResponse J) :=
  a ← state;
  r ← over_net (planner_execute (ag_control_port a) (ag_surface_port a) intents ctx);
  plan ← lift_panic r;
  let apps := apps_in_plan intents in
  _ ← update (λ a, set_ag_conversation (push_with_files text apps apps files (ag_conversation a)) a);
  _ ← record_actions (pr_actions plan);
  _ ← progress_to PsWorking None
        ("executing " +:+ pretty (N.of_nat (length (pr_actions plan))) +:+ " step(s)");
  _ ← (if pr_ok plan then progress_to PsCompleted None (whose +:+ " plan succeeded")
       else progress_to PsFailed None (whose +:+ " plan failed"));
  mret (plan_answer provider plan ctx).

Definition plain_chat (text : string) : Daemon E S J (AgentResponse J) :=
  r ← with_env (ai_complete text);
  let '(provider, response) :=
    match r with
    | Ok reply => (ai_name, reply)
    | Err e => ("fallback", "AI provider unavailable (" +:+ e +:+ "); echoing instead: ECHO: " +:+ text)
    end in
  _ ← record_event SevInfo "ai" ("reply via " +:+ provider);
  _ ← update (λ a, set_ag_conversation (push text [] [] (ag_conversation a)) a);
  _ ← progress_to PsCompleted None ("chat reply via " +:+ provider);
  answer true [("response", json_str response); ("provider", json_str provider)].

Definition chat_text (text : string) : Daemon E S J (AgentResponse J) :=
  _ ← record_event SevInfo "ai" ("user: " +:+ text);
  _ ← progress_to PsThinking None "received user input";
  a ← state;
  ctx ← over_net (build_context (ag_control_port a) (ag_surface_port a));
  let app := cv_last_app (ag_conversation a) in
  let file := cv_last_file (ag_conversation a) in
  _ ← progress_to PsPlanning None "matching capabilities";
  plan ← lift_panic (plan_with_file text ctx app file);
  match plan with
  | Some intents => carry_out text "capability-layer" "capability" intents (files_in_plan intents) ctx
  | None =>
      llm ← with_env (try_structured text ctx);
      match llm with
      | LlmIntent i =>
          _ ← record_event SevInfo "ai"
                ("structured LLM intent: " +:+ CapabilityId_as_str (in_capability i) +:+ " ("
                 +:+ json_to_string (in_arguments i) +:+ ")");
          carry_out text "structured-llm" "LLM" [i] [] ctx
      | LlmChat | LlmFallback _ => plain_chat text
      end
  end.

Definition ag_chat (arg : option string) : Daemon E S J (AgentResponse J) :=
  match given_text arg with
  | Some text => chat_text text
  | None => refuse "'argument' with prompt text required"
  end.

(** ** Memory *)

Definition ag_memory_show : Daemon E S J (AgentResponse J) :=
  a ← state;
  let entries := (λ kv, json_obj [("key", json_str kv.1); ("value", json_str kv.2)])
                   <$> iter_working (ag_working a) in
  answer true [("count", json_num (N.of_nat (length entries))); ("entries", json_arr entries)].

Definition memory_usage : string := with_quotes "'argument' must be 'key=value' or {`key`:`value`}".

(** The key and the value, or why there are none. *)
Definition key_value (raw : string) : result (string * string) string :=
  match str_find "=" raw with
  | Some idx =>
      let k := str_trim (str_take idx raw) in
      if str_is_empty k then Err "memory key must not be empty" else Ok (k, str_drop (idx + 1) raw)
  | None =>
      match json_from_str (J := J) raw with
      | Ok v => match str_at v "key" with
                | Some k => Ok (k, default "" (str_at v "value"))
                | None => Err "JSON form must have a string 'key'"
                end
      | Err _ => Err memory_usage
      end
  end.

Definition ag_memory_set (arg : option string) : Daemon E S J (AgentResponse J) :=
  let raw := str_trim (default "" arg) in
  if str_is_empty raw then refuse memory_usage
  else match key_value raw with
       | Err e => refuse e
       | Ok (key, value) =>
           a ← state;
           let working := <[key := value]> (ag_working a) in
           _ ← update (set_ag_working working);
           answer true [("key", json_str key); ("value", json_str value);
                        ("total", json_num (N.of_nat (size working)))]
       end.

Definition ag_memory_get (arg : option string) : Daemon E S J (AgentResponse J) :=
  let key := str_trim (default "" arg) in
  if str_is_empty key then refuse "'argument' must be the key to read"
  else
    a ← state;
    match ag_working a !! key with
    | Some v => answer true [("key", json_str key); ("value", json_str v)]
    | None => refuse ("no such key: '" +:+ key +:+ "'")
    end.

Definition ag_memory_delete (arg : option string) : Daemon E S J (AgentResponse J) :=
  let key := str_trim (default "" arg) in
  if str_is_empty key then refuse "'argument' must be the key to delete"
  else
    a ← state;
    let removed := bool_decide (is_Some (ag_working a !! key)) in
    _ ← update (set_ag_working (delete key (ag_working a)));
    answer removed [("key", json_str key); ("deleted", json_bool removed)].

Definition ag_memory_flush : Daemon E S J (AgentResponse J) :=
  r ← flush_persisted; answer (is_clean r) [("report", PersistenceReport_json r)].
Definition ag_memory_load : Daemon E S J (AgentResponse J) :=
  r ← load_persisted; answer (is_clean r) [("report", PersistenceReport_json r)].

Definition ag_progress_current : Daemon E S J (AgentResponse J) :=
  a ← state;
  answer true [("state", json_str (ProgressState_as_str (pt_current (ag_progress a))))].

Definition ag_progress_history (arg : option string) : Daemon E S J (AgentResponse J) :=
  a ← state;
  let limit := N.min (count_argument arg 10) (N.of_nat (length (pt_history (ag_progress a)))) in
  let events := ProgressEvent_to_json <$> progress_history (ag_progress a) (N.to_nat limit) in
  answer true [("count", json_num (N.of_nat (length events))); ("events", json_arr events)].

(** ** The dispatcher *)

(** The arms of the dispatcher. *)
Definition commands (arg : option string) : list (string * Daemon E S J (AgentResponse J)) :=
  [("status", ag_status);
   ("events", ag_list_events arg);
   ("agent.status", ag_agent_status);
   ("agent.session.create", ag_session_create arg);
   ("agent.session.list", ag_session_list);
   ("agent.session.status", ag_session_status arg);
   ("agent.session.cancel", ag_session_cancel arg);
   ("agent.approval.list", ag_approval_list);
   ("agent.approval.grant", ag_approval_grant arg);
   ("agent.approval.deny", ag_approval_deny arg);
   ("agent.audit.session", ag_audit_session arg);
   ("agent.audit.recent", ag_audit_recent arg);
   ("agent.action.cancel", ag_action_cancel arg);
   ("agent.stop", ag_stop);
   ("agent.intent", ag_intent arg);
   ("context", ag_context);
   ("context.get", ag_context);
   ("note", ag_note arg);
   ("task.add", ag_task_add arg);
   ("task.done", ag_task_done arg);
   ("chat", ag_chat arg);
   ("agent.memory.show", ag_memory_show);
   ("agent.memory.set", ag_memory_set arg);
   ("agent.memory.get", ag_memory_get arg);
   ("agent.memory.delete", ag_memory_delete arg);
   ("agent.memory.flush", ag_memory_flush);
   ("agent.memory.load", ag_memory_load);
   ("agent.progress.current", ag_progress_current);
   ("agent.progress.history", ag_progress_history arg)].

Definition handle_request (r : AgentRequest) : Daemon E S J (AgentResponse J) :=
  match List.find (λ arm, (arm.1 =? rq_command r)%string) (commands (rq_argument r)) with
  | Some (_, handler) => handler
  | None => refuse ("unknown command '" +:+ rq_command r +:+ "'")
  end.

(** ** main.rs *)

Context `{!AgentRequestParse}.

Definition response_json (r : AgentResponse J) : J :=
  json_obj [("ok", json_bool (rp_ok r)); ("result", rp_result r)].

(** One line of a connection: nothing is said to a blank one.  A panic ends the
    connection, not the daemon. *)
Definition handle_line (line : string) : Daemon E S J (option string) :=
  if blank line then mret None
  else
    response ← match agent_request_from_str line with
               | Ok req => handle_request req
               | Err e => refuse ("bad request: " +:+ e)
               end;
    mret (Some (json_to_string (response_json response))).

(** The lines of all connections, in the order in which they take the lock. *)
Fixpoint handle_lines (lines : list string) (w : AgentWorld E S J) : AgentWorld E S J :=
  match lines with
  | [] => w
  | line :: lines => handle_lines lines (handle_line line w).1
  end.
End daemon.
