(* ===== verification/AgentdProps.v ===== *)
(** * What the agent daemon does

    Theorems about [Agentd], over any lines its connections receive and
    whatever the language model and the services answer. *)
From S2P Require Import Prelude RustStd Text Json CoreTypes Actions AgentContext Intent Planner MemoryStore RuntimeLog RuntimeHost RuntimeProps LanguageModel StructuredIntent Agentd.

(** ** Actions of the daemon *)

(** What is granted to the daemon needs no approval, whatever it is. *)
Lemma granted_is_mild v :
  (∀ c, c ∈ (classify_action v).1 → c ∈ default_capabilities) →
  (classify_action v).2 = ArLow ∨ (classify_action v).2 = ArMedium.
Proof.
  destruct v; intros Hc; try (left; reflexivity); try (right; reflexivity); exfalso;
    match type of Hc with (∀ c, c ∈ (classify_action ?v).1 → _) =>
      let l := eval cbv in (classify_action v).1 in
      match l with [?c] => specialize (Hc c ltac:(by apply list_elem_of_singleton)) end
    end; revert Hc; apply (bool_decide_unpack _); vm_compute; exact I.
Qed.

(** An action made from an intent. *)
Definition from_intent (a : Action) : Prop := ∃ id sid v reason, a = Action_new id sid v reason.

Lemma valid_is_mild a : from_intent a → valid_under default_capabilities a → ¬ needs_approval a.
Proof.
  intros (id & sid & v & reason & ->) (Hsub & _)%validate_valid.
  destruct (granted_is_mild v) as [Hr|Hr].
  - intros c Hc. apply Hsub. unfold Action_new. by destruct (classify_action v).
  - unfold Action_new, needs_approval. destruct (classify_action v). simpl in *. subst. by intros [|].
  - unfold Action_new, needs_approval. destruct (classify_action v). simpl in *. subst. by intros [|].
Qed.

Section host.
Context {E J : Type} `{!RuntimeEnv E} `{!JsonOps J} `{!JsonParse J} `{!ObservationText J} `{!UuidText}.
Variable iter : ∀ {V}, gmap N V → list (N * V).

(** The host of the daemon: it checks the fixed grants, and nothing waits. *)
Record host_good (h : Host J) : Prop := {
  hg_validator : h_validator h = default_capabilities;
  hg_pending : h_pending_approvals h = ∅;
}.

(** An action the daemon may carry out. *)
Definition cleared (a : Action) : Prop :=
  from_intent a ∧ valid_under default_capabilities a ∧ ¬ needs_approval a.

Definition host_ok {A} (m : M E J A) : Prop := ∀ w, host_good (w_host w) →
  host_good (w_host (m w).1) ∧
  ∃ l, w_sent (m w).1 = w_sent w ++ l ∧ Forall (λ s, cleared (sent_action s)) l.

Lemma frame_host_ok {A} (m : M E J A) : always frame m → host_ok m.
Proof.
  intros Hm w [Hv Hp]. destruct (Hm w) as (E1 & E2 & E3). split; [by split; congruence|].
  exists []. by rewrite app_nil_r.
Qed.

Lemma approve_host_ok id : host_ok (approve_request id).
Proof.
  intros w Hg. unfold approve_request. rewrite get_bind, (hg_pending _ Hg), lookup_empty. split; [done|].
  exists []. by rewrite app_nil_r.
Qed.

Lemma deny_host_ok id reason : host_ok (deny_request id reason).
Proof.
  intros w Hg. unfold deny_request. rewrite get_bind, (hg_pending _ Hg), lookup_empty. split; [done|].
  exists []. by rewrite app_nil_r.
Qed.

Lemma submit_host_ok sid actor a : from_intent a → host_ok (submit_action (@iter) sid actor a).
Proof.
  intros Ha w Hg. destruct (submit_step (@iter) sid actor a w) as [Hv (l & Hl & Hs) Hp]. split.
  - split; [by rewrite Hv, (hg_validator _ Hg)|]. apply map_empty. intros id.
    destruct (h_pending_approvals _ !! id) as [p|] eqn:Hid; [|done]. exfalso.
    destruct (Hp _ _ Hid) as [(Hold & _)|((? & ? & ? & [= _ _ ->] & _) & Hval & Hneed)].
    + by rewrite (hg_pending _ Hg), lookup_empty in Hold.
    + rewrite (hg_validator _ Hg) in Hval. by apply valid_is_mild in Hval.
  - exists l. split; [done|]. apply Forall_forall. intros s Hin.
    destruct (Hs s Hin) as [(sid' & actor' & [= -> -> <-] & Hval & Hn)|(id & p & [=] & _)].
    rewrite (hg_validator _ Hg) in Hval. by split_and!.
Qed.
End host.

(** ** The daemon *)

Section daemon.
Context {E S J : Type} `{!RuntimeEnv E} `{!WireEnv E} `{!AiProvider E} `{!MemoryStore S}
  `{!JsonOps J} `{!JsonParse J} `{!JsonObject J} `{!EnvelopeParse J} `{!ObservationText J}
  `{!ResponseParse J} `{!UuidText} `{!Unicode} `{!DebugText}
  `{!PersistCodec ConversationSnapshot} `{!PersistCodec (gmap string string)}
  `{!PersistCodec (list RtAuditEntry)} `{!AgentRequestParse}.
Variable iter : ∀ {V}, gmap N V → list (N * V).
Variable iter_working : gmap string string → list (string * string).
Variables control_port surface_port : N.
Implicit Types w : AgentWorld E S J.

(** A question about the state of the system. *)
Definition is_question (port : N) (j : J) : Prop :=
  (port = surface_port ∧ j = json_obj [("op", json_str "window.list")]) ∨
  (port = control_port ∧ ∃ command parameters, command ∈ ["status"; "app.list"; "window.list"; "app.status"] ∧
    j = json_obj [("service_id", json_str "aether-system-core"); ("command", json_str command);
                  ("parameters", parameters)]).

(** A message the daemon may send. *)
Definition lawful (m : N * WireMessage J) : Prop :=
  (∃ i ctx, refusal i ctx = None ∧ about control_port surface_port i m) ∨
  (∃ j, m.2 = Query j ∧ is_question m.1 j).

(** The rings are within their capacities. *)
Record tidy (a : AgentState S J) : Prop := {
  td_events : length (ag_events a) ≤ EVENT_RING_CAPACITY;
  td_progress : length (pt_history (ag_progress a)) ≤ PROGRESS_RING_CAPACITY;
  td_turns : (N.of_nat (length (cv_turns (ag_conversation a))) ≤ cv_capacity (ag_conversation a))%N;
  td_capacity : (8 ≤ cv_capacity (ag_conversation a))%N;
}.

Record good w : Prop := {
  gd_tidy : tidy (aw_agent w);
  gd_control : ag_control_port (aw_agent w) = control_port;
  gd_surface : ag_surface_port (aw_agent w) = surface_port;
  gd_host h : ag_runtime (aw_agent w) = Some h → host_good h;
}.

(** From a good world to a good world, doing only what it may. *)
Definition behaves w w' : Prop := good w → good w' ∧
  (∃ l, aw_sent w' = aw_sent w ++ l ∧ Forall (λ s, cleared (sent_action s)) l) ∧
  (∃ msgs, aw_wire w' = aw_wire w ++ msgs ∧ Forall lawful msgs).

#[local] Instance behaves_preorder : PreOrder behaves.
Proof.
  split.
  - intros w Hw. split_and!; [done|exists []; by rewrite app_nil_r..].
  - intros w1 w2 w3 H12 H23 Hw1. destruct (H12 Hw1) as (Hw2 & (l1 & El1 & Fl1) & m1 & Em1 & Fm1).
    destruct (H23 Hw2) as (Hw3 & (l2 & El2 & Fl2) & m2 & Em2 & Fm2). split_and!; [done| |].
    + exists (l1 ++ l2). rewrite El2, El1, app_assoc. split; [done|]. by apply Forall_app.
    + exists (m1 ++ m2). rewrite Em2, Em1, app_assoc. split; [done|]. by apply Forall_app.
Qed.

Definition behaved {A} (m : Daemon E S J A) : Prop := ∀ w, behaves w (m w).1.

Lemma behaved_ret {A} (a : A) : behaved (mret a).
Proof. intros w. simpl. reflexivity. Qed.
Lemma behaved_state : behaved state.
Proof. intros w. simpl. reflexivity. Qed.
Lemma behaved_lift {A} (o : option A) : behaved (lift_panic o).
Proof. intros w. simpl. reflexivity. Qed.

Lemma behaves_bind {A B} (m : Daemon E S J A) (f : A → Daemon E S J B) w :
  behaves w (m w).1 → (∀ a, behaved (f a)) → behaves w ((m ≫= f) w).1.
Proof.
  intros Hm Hf. unfold mbind, Daemon_bind. destruct (m w) as [w' [a|]]; simpl in *; [|done].
  etrans; [done|apply Hf].
Qed.
Lemma behaved_bind {A B} (m : Daemon E S J A) (f : A → Daemon E S J B) :
  behaved m → (∀ a, behaved (f a)) → behaved (m ≫= f).
Proof. intros Hm Hf w. by apply behaves_bind. Qed.

(** A step that sends nothing and leaves the ports. *)
Lemma behaves_quiet w w' :
  aw_sent w' = aw_sent w → aw_wire w' = aw_wire w →
  ag_control_port (aw_agent w') = ag_control_port (aw_agent w) →
  ag_surface_port (aw_agent w') = ag_surface_port (aw_agent w) →
  (good w → tidy (aw_agent w')) →
  (∀ h', good w → ag_runtime (aw_agent w') = Some h' → host_good h') → behaves w w'.
Proof.
  intros Es Ew Ec Ep Ht Hh Hw. split_and!; [|by exists []; rewrite app_nil_r..].
  split; [by apply Ht|rewrite Ec; apply Hw|rewrite Ep; apply Hw|]. intros h' Hh'. by apply Hh.
Qed.

Lemma behaved_update f :
  (∀ a, ag_runtime (f a) = ag_runtime a ∧ ag_control_port (f a) = ag_control_port a ∧
        ag_surface_port (f a) = ag_surface_port a) → (∀ a, tidy a → tidy (f a)) → behaved (update f).
Proof.
  intros Hf Ht w. destruct (Hf (aw_agent w)) as (Hr & Hc & Hs). apply behaves_quiet; try done; simpl.
  - intros Hw. apply Ht, Hw.
  - intros h' Hw. rewrite Hr. apply Hw.
Qed.

(** The state that is read is tidy, and its ports are those of the daemon. *)
Lemma behaved_state_bind {A} (f : AgentState S J → Daemon E S J A) :
  (∀ a, tidy a → ag_control_port a = control_port → ag_surface_port a = surface_port → behaved (f a)) →
  behaved (state ≫= f).
Proof. intros Hf w Hw. by apply (Hf (aw_agent w)); [apply Hw..|]. Qed.

Lemma behaved_env {A} (f : E → A * E) : behaved (with_env f).
Proof. intros w. unfold with_env. destruct (f (aw_env w)). apply behaves_quiet; try done; [by intros []|]. by intros h' Hw; apply Hw. Qed.

Lemma start_host_good id : host_good (start_host (J := J) id control_port surface_port default_capabilities).
Proof. by split. Qed.

Lemma runtime_mut_behaves w : behaves w (runtime_mut w).1.
Proof.
  unfold runtime_mut, state, mbind, Daemon_bind. destruct (ag_runtime (aw_agent w)) as [h|] eqn:Hr.
  - simpl. reflexivity.
  - unfold fresh_uuid, with_env. destruct (env_uuid (aw_env w)) as [id e]. apply behaves_quiet; try done; simpl.
    + intros Hw. destruct (gd_tidy _ Hw). by split.
    + intros h' Hw [= <-]. by split.
Qed.

(** The host that [runtime_mut] gives is the one it leaves. *)
Lemma runtime_mut_host w h : (runtime_mut w).2 = Some h → ag_runtime (aw_agent (runtime_mut w).1) = Some h.
Proof.
  unfold runtime_mut, state, mbind, Daemon_bind. destruct (ag_runtime (aw_agent w)) as [h'|] eqn:Hr; simpl; [congruence|].
  unfold fresh_uuid, with_env. destruct (env_uuid (aw_env w)) as [id e]. by intros [= <-].
Qed.

Lemma behaved_host {B} (f : Host J → Daemon E S J B) :
  (∀ h w, ag_runtime (aw_agent w) = Some h → behaves w (f h w).1) → behaved (runtime_mut ≫= f).
Proof.
  intros Hf w. unfold mbind, Daemon_bind at 1. pose proof (runtime_mut_behaves w) as Hb.
  pose proof (runtime_mut_host w) as Hh. destruct (runtime_mut w) as [w1 [h|]]; simpl in *; [|done].
  etrans; [done|]. apply Hf. by apply Hh.
Qed.

Lemma behaved_on_host {A} (m : M E J A) : host_ok m → behaved (on_host m).
Proof.
  intros Hm. apply behaved_host. intros h w Hh Hw. unfold run_host.
  destruct (Hm (mkWorld h (aw_env w) (aw_sent w)) (gd_host _ Hw h Hh)) as (Hg & l & El & Fl).
  destruct (m _) as [w' o]. simpl in *. split_and!.
  - split; simpl; [|apply Hw|apply Hw|by intros h' [= <-]]. destruct (gd_tidy _ Hw). by split.
  - by exists l.
  - exists []. by rewrite app_nil_r.
Qed.

(** A computation over the network that sends lawful messages. *)
Definition speaks {A} (m : Net E J A) : Prop := ∀ n,
  ∃ l, wire_log (m n).1 = wire_log n ++ l ∧ Forall lawful l.

Lemma emits_speaks {A} k (m : Net E J A) : emits lawful k m → speaks m.
Proof. intros Hm n. destruct (Hm n) as (l & ? & ? & _). by exists l. Qed.

Lemma speaks_bind {A B} (m : Net E J A) (f : A → Net E J B) :
  speaks m → (∀ a, speaks (f a)) → speaks (m ≫= f).
Proof.
  intros Hm Hf n. destruct (Hm n) as (l1 & E1 & F1). unfold mbind, Net_bind. destruct (m n) as [n2 a].
  simpl in E1. destruct (Hf a n2) as (l2 & E2 & F2). exists (l1 ++ l2). rewrite E2, E1, app_assoc.
  split; [done|by apply Forall_app].
Qed.

Lemma behaved_over_net {A} (m : Net E J A) : speaks m → behaved (over_net m).
Proof.
  intros Hm w Hw. unfold over_net. destruct (Hm (mkWire (aw_env w) (aw_wire w))) as (l & El & Fl).
  destruct (m _) as [n a]. simpl in *. split_and!; [|by exists []; rewrite app_nil_r|by exists l].
  split; simpl; apply Hw.
Qed.

(** What is only read of the host. *)
Lemma behaved_view {A} (f : Host J → Daemon E S J A) : (∀ h, behaved (f h)) → behaved (runtime_mut ≫= f).
Proof. intros Hf. apply behaved_bind; [intros w; apply runtime_mut_behaves|done]. Qed.

Create HintDb behaved discriminated.
#[local] Hint Resolve behaved_ret behaved_state behaved_lift behaved_env behaved_on_host : behaved.
#[local] Hint Extern 1 (behaved (update _)) => apply behaved_update; [done|by intros ? []; split] : behaved.
#[local] Hint Extern 1 (behaved runtime_mut) => intros ?; apply runtime_mut_behaves : behaved.
#[local] Hint Unfold clock fresh_uuid answer refuse : behaved.

Ltac behaved_split :=
  repeat match goal with
         | |- behaved (let _ := _ in _) => cbv zeta
         | |- behaved (match ?x with _ => _ end) => destruct x
         | |- behaved (_ ≫= _) => apply behaved_bind; [|intros ?]
         end; auto with behaved.

Lemma behaved_clock : behaved clock.
Proof. apply behaved_env. Qed.
Lemma behaved_uuid : behaved fresh_uuid.
Proof. apply behaved_env. Qed.
Lemma behaved_answer ok fields : behaved (answer ok fields).
Proof. apply behaved_ret. Qed.
Lemma behaved_refuse m : behaved (refuse m).
Proof. apply behaved_ret. Qed.
#[local] Hint Resolve behaved_clock behaved_uuid behaved_answer behaved_refuse : behaved.

Lemma ring_push {A} cap (l : list A) x :
  0 < cap → length l ≤ cap → length ((if (cap <=? length l)%nat then tail l else l) ++ [x]) ≤ cap.
Proof.
  intros Hc Hl. rewrite length_app. simpl. destruct (Nat.leb_spec cap (length l)); [|lia].
  destruct l; simpl in *; lia.
Qed.

Lemma behaved_event sev source message : behaved (record_event sev source message).
Proof.
  unfold record_event. apply behaved_bind; [auto with behaved|]. intros id.
  apply behaved_bind; [auto with behaved|]. intros t.
  apply behaved_state_bind. intros a Ha _ _. behaved_split. apply behaved_update; [done|].
  intros b []. split; try done. apply (ring_push EVENT_RING_CAPACITY); [by vm_compute; lia|apply Ha].
Qed.
Lemma ring_push_front {A} cap (l : list A) x :
  0 < cap → length l ≤ cap → length (x :: (if (cap <=? length l)%nat then removelast l else l)) ≤ cap.
Proof.
  intros Hc Hl. simpl. destruct (Nat.leb_spec cap (length l)); [|lia].
  destruct l as [|y l] using rev_ind; simpl in *; [lia|]. rewrite removelast_last, length_app in *. simpl in *. lia.
Qed.

Lemma behaved_progress s sid message : behaved (progress_to s sid message).
Proof.
  unfold progress_to. apply behaved_bind; [auto with behaved|]. intros t.
  apply behaved_state_bind. intros a Ha _ _. apply behaved_update; [done|].
  intros b []. split; try done. apply (ring_push_front PROGRESS_RING_CAPACITY); [by vm_compute; lia|apply Ha].
Qed.

(** The conversation keeps its capacity. *)
Lemma push_tidy text apps windows files c :
  (N.of_nat (length (cv_turns c)) ≤ cv_capacity c)%N → (8 ≤ cv_capacity c)%N →
  (N.of_nat (length (cv_turns (push_with_files text apps windows files c))) ≤ cv_capacity c)%N.
Proof.
  intros Hl Hc. simpl. rewrite length_app. simpl.
  destruct (N.leb_spec (cv_capacity c) (N.of_nat (length (cv_turns c)))); [|lia].
  destruct (cv_turns c); simpl in *; lia.
Qed.

Lemma behaved_push text apps windows files :
  behaved (update (λ a, set_ag_conversation (push_with_files text apps windows files (ag_conversation a)) a)).
Proof. apply behaved_update; [done|]. intros a [? ? Ht Hc]. split; try done. exact (push_tidy _ _ _ _ _ Ht Hc). Qed.

Lemma load_tidy (store : S) c c' r :
  conversation_load store c = (c', r) →
  (N.of_nat (length (cv_turns c)) ≤ cv_capacity c)%N → (8 ≤ cv_capacity c)%N →
  (N.of_nat (length (cv_turns c')) ≤ cv_capacity c')%N ∧ (8 ≤ cv_capacity c')%N.
Proof.
  unfold conversation_load, conversation_restore. intros E0 Hl Hc.
  repeat case_match; simplify_eq/=; try done. rewrite length_drop. lia.
Qed.
Lemma behaved_add_task d : behaved (add_task d).
Proof. unfold add_task. behaved_split. Qed.
Lemma behaved_complete id : behaved (complete_task id).
Proof. unfold complete_task. behaved_split. Qed.
#[local] Hint Resolve behaved_event behaved_progress behaved_push behaved_add_task behaved_complete : behaved.

(** ** Saving and loading *)

Lemma behaved_load_audit : behaved load_audit.
Proof.
  apply behaved_host. intros h w Hh. unfold state. unfold mbind at 1, Daemon_bind at 1. cbn iota.
  destruct (restore_audit_recent (ag_memory_store (aw_agent w)) h) as [h' r] eqn:Hr.
  apply behaves_bind; [|unfold warn, inform; intros _; behaved_split].
  apply behaves_quiet; try done; simpl; [intros Hw; destruct (gd_tidy _ Hw); by split|]. intros h1 Hw [= <-]. pose proof (gd_host _ Hw h Hh) as [Hv Hp].
  unfold restore_audit_recent in Hr. repeat case_match; simplify_eq; by split.
Qed.
#[local] Hint Resolve behaved_load_audit : behaved.

Lemma behaved_load_conversation : behaved load_conversation.
Proof.
  apply behaved_state_bind. intros a Ha _ _. destruct (conversation_load _ _) as [c r] eqn:Hl.
  apply load_tidy in Hl as [Hturns Hcap]; [|apply Ha..]. unfold warn, inform.
  apply behaved_bind; [|intros _; behaved_split]. apply behaved_update; [done|]. intros b []. by split.
Qed.
#[local] Hint Resolve behaved_load_conversation : behaved.

Lemma behaved_load : behaved load_persisted.
Proof. unfold load_persisted, load_working, warn, inform. behaved_split. Qed.

Lemma behaved_flush : behaved flush_persisted.
Proof.
  unfold flush_persisted, flush_conversation, flush_working, flush_audit, warn. behaved_split.
Qed.
#[local] Hint Resolve behaved_load behaved_flush : behaved.

(** ** Messages *)

Lemma control_query_emits command parameters :
  command ∈ ["status"; "app.list"; "window.list"; "app.status"] →
  emits lawful 1 (control_query (E := E) control_port command parameters).
Proof.
  intros Hc. apply (emits_bind _ 1 0); [|intros line; apply emits_ret]. intros w. unfold ask.
  destruct (wire_ask _ _ _) as [r e]. simpl. eexists. split_and!; [done| |done]. constructor; [|done].
  right. eexists. split; [done|]. right. split; [done|]. by exists command, parameters.
Qed.

Lemma fetch_windows_emits : emits lawful 2 (fetch_windows (E := E) (J := J) surface_port control_port).
Proof.
  apply (emits_bind _ 1 1).
  - apply (emits_bind _ 1 0); [|intros line; apply emits_ret]. intros w. unfold ask.
    destruct (wire_ask _ _ _) as [r e]. simpl. eexists. split_and!; [done| |done]. constructor; [|done].
    right. eexists. split; [done|]. by left.
  - intros [wins|]; [eapply emits_mono, emits_ret; lia|]. apply (emits_bind _ 1 0); [|intros v; apply emits_ret].
    apply (emits_bind _ 1 0); [|intros v; apply emits_ret]. apply control_query_emits. set_solver.
Qed.

Lemma fetch_app_states_emits apps running states :
  emits lawful (length apps) (fetch_app_states (E := E) (J := J) control_port apps running states).
Proof.
  revert running states. induction apps as [|app apps IH]; intros running states; [apply emits_ret|].
  apply (emits_bind _ 1 (length apps)); [|intros [report|]; apply IH].
  apply (emits_bind _ 1 0); [|intros v; apply emits_ret]. apply control_query_emits. set_solver.
Qed.

(** Reading the context asks questions only. *)
Lemma build_context_speaks : speaks (build_context (E := E) (J := J) control_port surface_port).
Proof.
  assert (∀ c p A (f : option J → A), c ∈ ["status"; "app.list"; "window.list"; "app.status"] →
    speaks (r ← control_query (E := E) control_port c p; mret (f r))) as Hq.
  { intros c p A f Hc. apply (emits_speaks (1 + 0)), emits_bind; [by apply control_query_emits|].
    intros r. apply emits_ret. }
  unfold build_context. apply speaks_bind; [apply Hq; set_solver|]. intros status.
  apply speaks_bind; [apply Hq; set_solver|]. intros apps.
  apply speaks_bind; [eapply emits_speaks, fetch_windows_emits|]. intros windows.
  apply speaks_bind; [eapply emits_speaks, fetch_app_states_emits|]. intros [running states].
  eapply emits_speaks, emits_ret.
Qed.

Lemma planner_speaks intents ctx : speaks (planner_execute control_port surface_port intents ctx).
Proof.
  apply speaks_bind; [|intros r; eapply emits_speaks, emits_ret]. intros n.
  destruct (execute_all_spec control_port surface_port intents ctx n) as (_ & _ & _ & _ & _ & msgs & El & Fl & _).
  exists msgs. split; [done|]. eapply Forall_impl; [exact Fl|]. intros m (i & _ & Hi & Hm). left. by exists i, ctx.
Qed.

#[local] Hint Resolve build_context_speaks planner_speaks behaved_over_net : behaved.

(** ** Every command *)

Lemma behaved_actions l : behaved (record_actions l).
Proof. induction l as [|r l IH]; simpl; behaved_split. Qed.
#[local] Hint Resolve behaved_actions : behaved.

Lemma behaved_carry_out text provider whose intents files ctx :
  behaved (carry_out text provider whose intents files ctx).
Proof.
  apply behaved_state_bind. intros a _ -> ->. behaved_split.
Qed.
#[local] Hint Resolve behaved_carry_out : behaved.

Lemma behaved_chat arg : behaved (ag_chat arg).
Proof.
  unfold ag_chat, chat_text, plain_chat, push. destruct (given_text arg) as [text|]; [|auto with behaved].
  apply behaved_bind; [auto with behaved|]. intros _. apply behaved_bind; [auto with behaved|]. intros _.
  apply behaved_state_bind. intros a _ -> ->. behaved_split.
Qed.

Lemma behaved_context : behaved ag_context.
Proof. apply behaved_state_bind. intros a _ -> ->. behaved_split. Qed.

Lemma behaved_for_session {A} raw (m : N → M E J A) : (∀ sid, host_ok (m sid)) → behaved (for_session raw m).
Proof. intros Hm. unfold for_session. behaved_split. Qed.

Lemma intent_to_action_new id session capability args a :
  intent_to_action (J := J) id session capability args = Ok a → from_intent a.
Proof.
  unfold intent_to_action. destruct (blank session); [done|]. destruct (variant_of capability args) as [v|]; [|done].
  intros [= <-]. by eexists _, _, _, _.
Qed.

Lemma behaved_intent arg : behaved (ag_intent (@iter) arg).
Proof.
  unfold ag_intent, report_progress. apply behaved_bind; [auto with behaved|]. intros id.
  destruct (intent_to_action _ _ _ _) as [a|e] eqn:Ha; [|auto with behaved].
  apply behaved_bind; [|intros [o|e]; behaved_split].
  apply behaved_for_session. intros sid. by eapply submit_host_ok, intent_to_action_new.
Qed.

#[local] Hint Resolve behaved_chat behaved_context behaved_intent behaved_for_session frame_host_ok
  frame_create frame_cancel_action frame_cancel_session frame_stop approve_host_ok deny_host_ok : behaved.

Lemma behaved_commands arg : Forall (λ arm, behaved arm.2) (commands (@iter) iter_working arg).
Proof.
  unfold commands. repeat (apply Forall_cons_2; [cbn [snd]|]); [..|apply Forall_nil_2].
  all: unfold ag_status, ag_list_events, ag_agent_status, ag_session_create, ag_session_list,
    ag_session_status, ag_session_cancel, ag_approval_list, ag_approval_grant, ag_approval_deny,
    bad_approval, ag_audit_session, ag_audit_recent, ag_action_cancel, ag_stop, ag_note, ag_task_add,
    ag_task_done, ag_memory_show, ag_memory_set, ag_memory_get, ag_memory_delete, ag_memory_flush,
    ag_memory_load, ag_progress_current, ag_progress_history; behaved_split.
Qed.

Lemma behaved_request r : behaved (handle_request (@iter) iter_working r).
Proof.
  unfold handle_request. destruct (List.find _ _) as [[c h]|] eqn:Hf; [|auto with behaved].
  apply List.find_some in Hf as [Hin _]. pose proof (behaved_commands (rq_argument r)) as Hall.
  rewrite Forall_forall in Hall. apply (Hall (c, h)). by apply list_elem_of_In.
Qed.

Lemma behaved_line line : behaved (handle_line (@iter) iter_working line).
Proof. unfold handle_line. pose proof behaved_request. behaved_split. Qed.

Lemma behaved_lines lines w : behaves w (handle_lines (@iter) iter_working lines w).
Proof.
  revert w. induction lines as [|line lines IH]; intros w; simpl; [reflexivity|].
  etrans; [apply behaved_line|apply IH].
Qed.

(** ** From the start *)

Definition daemon_start (id : N) (store : S) (e : E) : AgentWorld E S J :=
  mkAgentWorld (AgentState_new id control_port surface_port store) e [] [].
Definition daemon_after (lines : list string) (id : N) (store : S) (e : E) : AgentWorld E S J :=
  handle_lines (@iter) iter_working lines (daemon_start id store e).

Lemma start_good id store e : good (daemon_start id store e).
Proof. split; [split; simpl; unfold EVENT_RING_CAPACITY, PROGRESS_RING_CAPACITY; lia|done..]. Qed.

Lemma after_good lines id store e : good (daemon_after lines id store e).
Proof. by destruct (behaved_lines lines _ (start_good id store e)). Qed.

(** C14: whatever lines the daemon receives, and whatever the language model and
    the services answer, it sends only what it may.  The runtime sends only for
    actions whose capabilities are all among the fixed grants and which need no
    approval; the chat sends only questions about the system and requests of
    intents that are valid, need no confirmation and passed the precheck.  No
    request to delete a file is sent by either. *)
Theorem agentd_stays_within_grants lines id store e :
  let w := daemon_after lines id store e in
  (∀ s, s ∈ aw_sent w →
     act_requested_capabilities (sent_action s) ⊆ default_capabilities ∧
     ¬ needs_approval (sent_action s) ∧ ∀ p, act_variant (sent_action s) ≠ FileDelete p) ∧
  (∀ m, m ∈ aw_wire w →
     lawful m ∧ ∀ req, m.2 = ToControl req → req_command req ≠ "file.delete").
Proof.
  intros w. destruct (behaved_lines lines _ (start_good id store e)) as (_ & (l & El & Fl) & msgs & Em & Fm).
  fold (daemon_after lines id store e) in El, Em. fold w in El, Em. simpl in El, Em. rewrite El, Em.
  rewrite Forall_forall in Fl. rewrite Forall_forall in Fm. split.
  - intros s Hs. destruct (Fl s Hs) as (Hnew & Hv & Hn). split_and!; [by destruct (validate_valid _ _ Hv)|done|].
    intros p Hp. apply Hn. destruct Hnew as (? & ? & v & ? & Hnew). rewrite Hnew in *. unfold Action_new in *.
    destruct v; simplify_eq/=. by left.
  - intros m Hm. split; [by apply Fm|]. intros req Hreq Hd.
    destruct (Fm m Hm) as [(i & ctx & Hi & Ha)|(j & Hj & _)]; [|congruence]. destruct m as [port m]. simpl in *. subst m.
    destruct Ha as [_ Hc]. destruct (decide (in_capability i = CiFileDelete)) as [Hdel|Hdel].
    + apply (refusal_delete i ctx) in Hdel as [x Hx]. congruence.
    + rewrite Hd in Hc. by destruct (in_capability i).
Qed.

(** A call of the host that always gives the same value. *)
Lemma on_host_answers {A B} (m : M E J A) (x : A) (f : result A AgentError → Daemon E S J B)
    (Q : option B → Prop) w :
  good w → (∀ v : World E J, host_good (w_host v) → (m v).2 = Done x) → (∀ w, Q (f (Ok x) w).2) →
  Q ((on_host m ≫= f) w).2.
Proof.
  intros Hw Hm Hf. unfold on_host, mbind, Daemon_bind, run_host.
  pose proof (runtime_mut_behaves w Hw) as [Hg _]. pose proof (runtime_mut_host w) as Hh.
  assert (is_Some (runtime_mut w).2) as [h Hs].
  { unfold runtime_mut, state, mbind, Daemon_bind, fresh_uuid, with_env.
    destruct (ag_runtime (aw_agent w)); [by eexists|]. destruct (env_uuid (aw_env w)). by eexists. }
  destruct (runtime_mut w) as [w1 o]. simpl in *. subst o. specialize (Hh h eq_refl).
  specialize (Hm (mkWorld h (aw_env w1) (aw_sent w1)) (gd_host _ Hg h Hh)).
  destruct (m _) as [w2 o]. simpl in Hm. subst o. apply Hf.
Qed.

(** Nothing ever waits for an approval, since every action that would is
    refused for want of a grant: whatever the daemon has received, granting or
    denying an approval is refused. *)
Theorem agentd_has_nothing_to_approve lines id store e arg :
  let w := daemon_after lines id store e in
  (∀ h, ag_runtime (aw_agent w) = Some h → h_pending_approvals h = ∅) ∧
  ∀ command, command ∈ ["agent.approval.grant"; "agent.approval.deny"] →
    ∃ r, (handle_request (@iter) iter_working (mkAgentRequest command arg) w).2 = Some r ∧ rp_ok r = false.
Proof.
  intros w. pose proof (after_good lines id store e) as Hw. fold w in Hw. clearbody w.
  split; [intros h Hh; by apply (gd_host _ Hw h)|].
  intros command Hc. repeat (apply elem_of_cons in Hc as [->|Hc]); [..|by apply not_elem_of_nil in Hc]; unfold handle_request; cbn -[ag_approval_grant ag_approval_deny].
  - unfold ag_approval_grant. destruct (uuid_parse _) as [aid|]; [|by eexists].
    apply (on_host_answers _ None _ (λ o, ∃ r, o = Some r ∧ rp_ok r = false)); [done| |by eexists]. intros v Hg. unfold approve_request.
    by rewrite get_bind, (hg_pending _ Hg), lookup_empty.
  - unfold ag_approval_deny. destruct (uuid_parse _) as [aid|]; [|by eexists].
    apply (on_host_answers _ false _ (λ o, ∃ r, o = Some r ∧ rp_ok r = false)); [done| |by eexists]. intros v Hg. unfold deny_request.
    by rewrite get_bind, (hg_pending _ Hg), lookup_empty.
Qed.

(** The rings of events, progress and conversation never exceed their
    capacities, whatever is received, loaded or answered. *)
Theorem agentd_memory_bounded lines id store e :
  let a := aw_agent (daemon_after lines id store e) in
  length (ag_events a) ≤ EVENT_RING_CAPACITY ∧ length (pt_history (ag_progress a)) ≤ PROGRESS_RING_CAPACITY ∧
  (N.of_nat (length (cv_turns (ag_conversation a))) ≤ cv_capacity (ag_conversation a))%N.
Proof. intros a. destruct (gd_tidy _ (after_good lines id store e)). by split_and!. Qed.
End daemon.
