(* ===== verification/AgentdMemory.v ===== *)
(** * What the agent daemon remembers

    Saving and loading the memory of [Agentd], over an interface of memory stores that
    both stores of [MemoryStore] implement, and over any serializers that round-trip. *)
From S2P Require Import Prelude RustStd Text Json CoreTypes Actions AgentContext Intent Planner UnixFs MemoryStore RuntimeLog RuntimeHost RuntimeProps LanguageModel StructuredIntent Agentd AgentdProps.

(** ** What the daemon relies on in a memory store *)

(** The names the daemon saves under. *)
Definition memory_names : list string := ["conversation"; "working"; "audit_recent"].

(** Among these names, a store that is ready keeps what was saved. *)
Class MemoryStoreLaws (S : Type) `{MemoryStore S} (ready : S → Prop) : Prop := {
  save_stays_ready n b (s s' : S) r : n ∈ memory_names → ready s → store_save n b s = (s', r) → ready s';
  load_saved n b (s s' : S) : n ∈ memory_names → ready s → store_save n b s = (s', Ok tt) →
    store_load n s' = Ok (Some b);
  load_other n m b (s s' : S) r : n ∈ memory_names → m ∈ memory_names → n ≠ m → ready s →
    store_save n b s = (s', r) → store_load m s' = store_load m s;
}.

(** The store in memory is always ready. *)
#[export] Instance in_memory_laws `{DebugText} : MemoryStoreLaws InMemoryStore (λ _, True).
Proof.
  split; simpl; unfold InMemoryStore_save, InMemoryStore_load; [done|..].
  - intros n b s s' _ _ Hs. destruct (validate_name n) as [[]|e]; [|done].
    destruct (too_large b); [done|]. injection Hs as <-. exact (f_equal Ok (lookup_insert_eq (M := gmap string) s n b)).
  - intros n m b s s' r _ _ Hne _ Hs. destruct (validate_name m) as [[]|e]; [|done].
    destruct (validate_name n) as [[]|e]; [|by injection Hs as <-].
    destruct (too_large b); [by injection Hs as <-|]. injection Hs as <- _.
    exact (f_equal Ok (lookup_insert_ne (M := gmap string) s n m b Hne)).
Qed.

(** The store in a directory is ready when the directory is. *)
Lemma file_store_laws `{!DebugText} no_space root :
  MemoryStoreLaws filesystem (H := file_memory_store no_space root) (ready root memory_names).
Proof.
  assert (usable_names memory_names) as Hu by (by repeat constructor).
  split; simpl.
  - intros n b s s' r Hn Hr Hs. by apply (save_ready no_space root memory_names n b s s' r).
  - intros n b s s' Hn Hr Hs. destruct (save_ready no_space root memory_names n b s s' _ Hu Hn Hr Hs) as (Hr' & Hl & _).
    by rewrite (load_ready root memory_names n s' Hu Hn Hr'), Hl.
  - intros n m b s s' r Hn Hm Hne Hr Hs.
    destruct (save_ready no_space root memory_names n b s s' _ Hu Hn Hr Hs) as (Hr' & _ & Ho).
    by rewrite (load_ready root memory_names m s' Hu Hm Hr'), (load_ready root memory_names m s Hu Hm Hr), Ho by done.
Qed.

(** Serializing an envelope and reading it gives it back. *)
Class PersistLaws (T : Type) `{PersistCodec T} : Prop :=
  envelope_round_trip (p : Persisted T) bytes : envelope_to_vec p = Ok bytes → envelope_from_slice bytes = Ok p.

Lemma persisted_round_trip {T} `{PersistLaws T} now (x : T) bytes :
  encode_persisted now x = Ok bytes → decode_persisted bytes = Ok x.
Proof.
  unfold encode_persisted, Persisted_wrap, decode_persisted. destruct (data_to_vec x) as [inner|]; [|done]. simpl.
  destruct (envelope_to_vec _) as [b|] eqn:He; [|done]. intros [= <-]. by rewrite (envelope_round_trip _ _ He).
Qed.

Section memory.
Context {E S J : Type} `{!RuntimeEnv E} `{!WireEnv E} `{!AiProvider E} `{!MemoryStore S} (ready : S → Prop) `{!MemoryStoreLaws S ready}
  `{!JsonOps J} `{!JsonParse J} `{!JsonObject J} `{!EnvelopeParse J} `{!ObservationText J}
  `{!ResponseParse J} `{!UuidText} `{!Unicode} `{!DebugText}
  `{!PersistCodec ConversationSnapshot} `{!PersistCodec (gmap string string)}
  `{!PersistCodec (list RtAuditEntry)} `{!AgentRequestParse}
  `{!PersistLaws ConversationSnapshot} `{!PersistLaws (gmap string string)} `{!PersistLaws (list RtAuditEntry)}.
Implicit Types (w : AgentWorld E S J) (a : AgentState S J).

(** The parts of a state that are saved. *)
Definition same_memory a a' : Prop :=
  ag_conversation a' = ag_conversation a ∧ ag_working a' = ag_working a ∧
  ag_runtime a' = ag_runtime a ∧ ag_memory_store a' = ag_memory_store a.

Lemma same_memory_trans a1 a2 a3 : same_memory a1 a2 → same_memory a2 a3 → same_memory a1 a3.
Proof. intros (?&?&?&?) (?&?&?&?). split_and!; congruence. Qed.

Lemma event_memory sev source message w :
  ∃ w' ev, record_event sev source message w = (w', Some ev) ∧ same_memory (aw_agent w) (aw_agent w').
Proof.
  unfold record_event, fresh_uuid, clock, with_env, state, update, mbind, Daemon_bind.
  destruct (env_uuid (aw_env w)) as [id e1]. simpl. destruct (env_now e1) as [t e2]. by eexists _, _.
Qed.

Lemma clock_memory w : ∃ w' t, clock w = (w', Some t) ∧ same_memory (aw_agent w) (aw_agent w').
Proof. unfold clock, with_env. destruct (env_now (aw_env w)) as [t e]. by eexists _, _. Qed.

(** The store has a value under a name. *)
Definition holds {T} `{PersistCodec T} (name : string) (x : T) (s : S) : Prop := ∃ bytes,
  store_load name s = Ok (Some bytes) ∧ decode_persisted bytes = Ok x.

Lemma holds_saved {T} `{PersistLaws T} name now (x : T) bytes (s s' : S) :
  name ∈ memory_names → ready s → encode_persisted now x = Ok bytes → store_save name bytes s = (s', Ok tt) →
  holds name x s'.
Proof. intros Hn Hr He Hs. exists bytes. split; [by eapply load_saved|by eapply persisted_round_trip]. Qed.

Lemma holds_other {T} `{PersistCodec T} name name' (x : T) bytes (s s' : S) r :
  name' ∈ memory_names → name ∈ memory_names → name' ≠ name → ready s → store_save name' bytes s = (s', r) →
  holds name x s → holds name x s'.
Proof.
  intros Hn' Hn Hne Hr Hs (b & Hl & Hd). exists b. by rewrite (load_other _ _ _ _ _ _ Hn' Hn Hne Hr Hs).
Qed.

Lemma name_conversation : "conversation" ∈ memory_names. Proof. by left. Qed.
Lemma name_working : "working" ∈ memory_names. Proof. by right; left. Qed.
Lemma name_audit : "audit_recent" ∈ memory_names. Proof. by right; right; left. Qed.
#[local] Hint Resolve name_conversation name_working name_audit : core.

(** ** Saving *)

(** Steps through a computation whose next part changes no memory. *)
Ltac next_event :=
  unfold mbind at 1, Daemon_bind at 1;
  edestruct event_memory as (? & ? & -> & (? & ? & ? & ?)); simpl in *.

Lemma flush_conversation_saves w :
  ready (ag_memory_store (aw_agent w)) →
  ∃ w' o, flush_conversation w = (w', Some o) ∧
    ag_conversation (aw_agent w') = ag_conversation (aw_agent w) ∧
    ag_working (aw_agent w') = ag_working (aw_agent w) ∧ ag_runtime (aw_agent w') = ag_runtime (aw_agent w) ∧
    ready (ag_memory_store (aw_agent w')) ∧
    (outcome_is_clean o = true →
       holds "conversation" (conversation_snapshot (ag_conversation (aw_agent w))) (ag_memory_store (aw_agent w'))).
Proof.
  intros Hrd. unfold flush_conversation, warn, state, update. unfold mbind at 1, Daemon_bind at 1.
  destruct (clock_memory w) as (w1 & t & -> & (Hc & Hk & Hr & Hs)). unfold mbind at 1, Daemon_bind at 1. cbn iota.
  unfold conversation_persist. rewrite Hc. rewrite <-Hs in Hrd. destruct (encode_persisted t _) as [bytes|e] eqn:He.
  - destruct (store_save "conversation" bytes _) as [s [[]|e]] eqn:Hsave; unfold mbind at 1, Daemon_bind at 1; cbn iota.
    + eexists _, _. split; [done|]. split_and!; [done..|eapply save_stays_ready; [| |exact Hsave]; done|]. intros _. eapply holds_saved; [| |exact He|exact Hsave]; done.
    + next_event. eexists _, _. split; [done|]. split_and!; [congruence..| |done].
      eapply save_stays_ready in Hsave; [|done|done]. congruence.
  - unfold mbind at 1, Daemon_bind at 1. cbn iota. next_event.
    eexists _, _. split; [done|]. split_and!; [congruence..|done].
Qed.

Lemma flush_working_saves w :
  ready (ag_memory_store (aw_agent w)) →
  ∃ w' o, flush_working w = (w', Some o) ∧
    ag_conversation (aw_agent w') = ag_conversation (aw_agent w) ∧
    ag_working (aw_agent w') = ag_working (aw_agent w) ∧ ag_runtime (aw_agent w') = ag_runtime (aw_agent w) ∧
    ready (ag_memory_store (aw_agent w')) ∧
    (∀ snap : ConversationSnapshot, holds "conversation" snap (ag_memory_store (aw_agent w)) →
       holds "conversation" snap (ag_memory_store (aw_agent w'))) ∧
    (outcome_is_clean o = true → holds "working" (ag_working (aw_agent w)) (ag_memory_store (aw_agent w'))).
Proof.
  intros Hrd. unfold flush_working, warn, state, update. unfold mbind at 1, Daemon_bind at 1.
  destruct (clock_memory w) as (w1 & t & -> & (Hc & Hk & Hr & Hs)). unfold mbind at 1, Daemon_bind at 1. cbn iota.
  rewrite Hk. rewrite <-Hs in *. destruct (encode_persisted t _) as [bytes|e] eqn:He.
  - destruct (store_save "working" bytes _) as [s [[]|e]] eqn:Hsave; unfold mbind at 1, Daemon_bind at 1; cbn iota.
    + eexists _, _. split; [done|]. split_and!; [done..|eapply save_stays_ready; [| |exact Hsave]; done| |]; simpl.
      * intros snap. eapply holds_other; [| | | |exact Hsave]; done.
      * intros _. eapply holds_saved; [| |exact He|exact Hsave]; done.
    + next_event. eexists _, _. split; [done|]. split_and!; [congruence..| | |done].
      * eapply save_stays_ready in Hsave; [|done|done]. congruence.
      * intros snap Hh. eapply holds_other in Hh; [| | | | |exact Hsave]; [congruence|done..].
  - next_event. eexists _, _. split; [done|]. split_and!; [congruence..|done].
Qed.

(** The host that is there, or a new one with an empty log. *)
Lemma runtime_mut_memory w :
  ∃ w' h, runtime_mut w = (w', Some h) ∧
    ag_conversation (aw_agent w') = ag_conversation (aw_agent w) ∧
    ag_working (aw_agent w') = ag_working (aw_agent w) ∧
    ag_memory_store (aw_agent w') = ag_memory_store (aw_agent w) ∧
    h_audit h = from_option h_audit (AuditLog_new 4096) (ag_runtime (aw_agent w)).
Proof.
  unfold runtime_mut, state, fresh_uuid, with_env, update, mbind, Daemon_bind.
  destruct (ag_runtime (aw_agent w)) as [h|]; [by eexists _, _|]. destruct (env_uuid (aw_env w)). by eexists _, _.
Qed.

(** The audit entries of the host, as far as there is one. *)
Definition audit_of a : list RtAuditEntry :=
  match ag_runtime a with Some h => snapshot_recent 256 (h_audit h) | None => [] end.

Lemma flush_audit_saves w :
  ready (ag_memory_store (aw_agent w)) →
  ∃ w' o, flush_audit w = (w', Some o) ∧
    (∀ snap : ConversationSnapshot, holds "conversation" snap (ag_memory_store (aw_agent w)) →
       holds "conversation" snap (ag_memory_store (aw_agent w'))) ∧
    (∀ m : gmap string string, holds "working" m (ag_memory_store (aw_agent w)) →
       holds "working" m (ag_memory_store (aw_agent w'))) ∧
    (outcome_is_clean o = true → holds "audit_recent" (audit_of (aw_agent w)) (ag_memory_store (aw_agent w'))).
Proof.
  intros Hrd. destruct (runtime_mut_memory w) as (w1 & h & Hrt & _ & _ & Hs1 & Hlog).
  assert (snapshot_recent 256 (h_audit h) = audit_of (aw_agent w)) as Hh.
  { unfold audit_of. rewrite Hlog. by destruct (ag_runtime (aw_agent w)). }
  unfold flush_audit, warn, state, update. unfold mbind at 1, Daemon_bind at 1. rewrite Hrt.
  unfold mbind at 1, Daemon_bind at 1. destruct (clock_memory w1) as (w2 & t & -> & (_ & _ & _ & Hs2)).
  unfold mbind at 1, Daemon_bind at 1. cbn iota. unfold persist_audit_recent. rewrite Hh, Hs2, Hs1.
  destruct (encode_persisted t _) as [bytes|e] eqn:He.
  - destruct (store_save "audit_recent" bytes _) as [s [[]|e]] eqn:Hsave; unfold mbind at 1, Daemon_bind at 1; cbn iota.
    + eexists _, _. split; [done|]. split_and!; simpl; [intros; (eapply holds_other; [| | | |exact Hsave|]); done..|].
      intros _. eapply holds_saved; [| |exact He|exact Hsave]; done.
    + next_event. eexists _, _. split; [done|].
      split_and!; [intros y Hy; (eapply holds_other in Hy; [| | | | |exact Hsave]); [congruence|done..]..|done].
  - unfold mbind at 1, Daemon_bind at 1. cbn iota. next_event. eexists _, _. split; [done|].
    split_and!; [congruence..|done].
Qed.

(** ** Loading *)

Lemma restore_snapshot c :
  (N.of_nat (length (cv_turns c)) ≤ cv_capacity c)%N → (8 ≤ cv_capacity c)%N →
  conversation_restore (conversation_snapshot c) ConversationContext_default = (c, Ok tt).
Proof.
  intros Hl Hc. destruct c as [turns cap app win file]. unfold conversation_restore, conversation_snapshot. simpl in *.
  replace (N.max (N.max (N.max 8 2) cap) 2) with cap by lia.
  by replace (length turns - N.to_nat cap) with 0 by lia.
Qed.

Lemma load_conversation_restores c w :
  (N.of_nat (length (cv_turns c)) ≤ cv_capacity c)%N → (8 ≤ cv_capacity c)%N →
  ag_conversation (aw_agent w) = ConversationContext_default →
  holds "conversation" (conversation_snapshot c) (ag_memory_store (aw_agent w)) →
  ∃ w' o, load_conversation w = (w', Some o) ∧ outcome_is_clean o = true ∧ ag_conversation (aw_agent w') = c ∧
    ag_runtime (aw_agent w') = ag_runtime (aw_agent w) ∧
    ag_memory_store (aw_agent w') = ag_memory_store (aw_agent w).
Proof.
  intros Hl Hcap Hd (bytes & Hb & Hdec). unfold load_conversation, inform, state, update.
  unfold mbind at 1, Daemon_bind at 1. cbn iota. unfold conversation_load. rewrite Hb, Hdec, Hd.
  rewrite restore_snapshot by done. unfold mbind at 1, Daemon_bind at 1. cbn iota. next_event.
  eexists _, _. split; [done|]. by split_and!.
Qed.

Lemma load_working_restores m w :
  holds "working" m (ag_memory_store (aw_agent w)) →
  ∃ w' o, load_working w = (w', Some o) ∧ outcome_is_clean o = true ∧ ag_working (aw_agent w') = m ∧
    ag_conversation (aw_agent w') = ag_conversation (aw_agent w) ∧
    ag_runtime (aw_agent w') = ag_runtime (aw_agent w) ∧
    ag_memory_store (aw_agent w') = ag_memory_store (aw_agent w).
Proof.
  intros (bytes & Hb & Hdec). unfold load_working, inform, state, update.
  unfold mbind at 1, Daemon_bind at 1. cbn iota. rewrite Hb, Hdec.
  unfold mbind at 1, Daemon_bind at 1. cbn iota. next_event.
  eexists _, _. split; [done|]. by split_and!.
Qed.

Lemma load_audit_restores entries w :
  length entries ≤ 256 → ag_runtime (aw_agent w) = None →
  holds "audit_recent" entries (ag_memory_store (aw_agent w)) →
  ∃ w' o, load_audit w = (w', Some o) ∧ outcome_is_clean o = true ∧
    ag_conversation (aw_agent w') = ag_conversation (aw_agent w) ∧
    ag_working (aw_agent w') = ag_working (aw_agent w) ∧
    ∃ h, ag_runtime (aw_agent w') = Some h ∧ al_entries (h_audit h) = entries.
Proof.
  intros Hlen Hr (bytes & Hb & Hdec). destruct (runtime_mut_memory w) as (w1 & h & Hrt & Hc & Hk & Hs & Hlog).
  unfold load_audit, inform, state, update. unfold mbind at 1, Daemon_bind at 1. rewrite Hrt.
  unfold mbind at 1, Daemon_bind at 1. cbn iota. unfold restore_audit_recent. rewrite Hs, Hb, Hdec.
  unfold restore_recent. rewrite Hlog, Hr. simpl al_capacity.
  rewrite (proj2 (Nat.ltb_ge _ _)) by lia. unfold mbind at 1, Daemon_bind at 1. cbn iota.
  destruct (N.of_nat (length entries) =? 0)%N.
  - eexists _, _. split; [done|]. split_and!; [done..|]. by eexists.
  - next_event. eexists _, _. split; [done|]. split_and!; [done|congruence..|]. by eexists.
Qed.

(** Saving and loading again, in any store that is ready when the daemon saves. *)
Lemma memory_is_kept w control_port surface_port id' e' :
  tidy (aw_agent w) → ready (ag_memory_store (aw_agent w)) →
  ∃ w1 report, flush_persisted w = (w1, Some report) ∧
    (is_clean report = true →
     ∃ w2 report2,
       load_persisted (daemon_start control_port surface_port id' (ag_memory_store (aw_agent w1)) e')
         = (w2, Some report2) ∧ is_clean report2 = true ∧
       ag_conversation (aw_agent w2) = ag_conversation (aw_agent w) ∧
       ag_working (aw_agent w2) = ag_working (aw_agent w) ∧
       ∃ h, ag_runtime (aw_agent w2) = Some h ∧ al_entries (h_audit h) = audit_of (aw_agent w)).
Proof.
  intros Ht Hrd. unfold flush_persisted. unfold mbind at 1, Daemon_bind at 1.
  destruct (flush_conversation_saves w Hrd) as (w1 & o1 & -> & Hc1 & Hk1 & Hr1 & Hd1 & Hf1).
  unfold mbind at 1, Daemon_bind at 1.
  destruct (flush_working_saves w1 Hd1) as (w2 & o2 & -> & Hc2 & Hk2 & Hr2 & Hd2 & Hp2 & Hf2).
  unfold mbind at 1, Daemon_bind at 1. destruct (flush_audit_saves w2 Hd2) as (w3 & o3 & -> & Hp3 & Hq3 & Hf3).
  unfold mbind at 1, Daemon_bind at 1. destruct (clock_memory w3) as (w4 & t & -> & (_ & _ & _ & Hs4)).
  eexists _, _. split; [done|]. unfold is_clean. simpl. rewrite Hs4. rewrite !andb_true_iff. intros [[Ho1 Ho2] Ho3].
  specialize (Hf1 Ho1). specialize (Hf2 Ho2). specialize (Hf3 Ho3).
  set (s := ag_memory_store (aw_agent w3)) in *.
  assert (length (audit_of (aw_agent w2)) ≤ 256) as Hlen.
  { unfold audit_of. destruct (ag_runtime (aw_agent w2)); [|apply Nat.le_0_l]. unfold snapshot_recent.
    rewrite length_reverse, length_take. lia. }
  unfold load_persisted. unfold mbind at 1, Daemon_bind at 1.
  destruct (load_conversation_restores (ag_conversation (aw_agent w))
    (daemon_start control_port surface_port id' s e')) as (v1 & p1 & Hv1 & Hp1 & Hcv1 & Hrv1 & Hsv1);
    [apply Ht|apply Ht|done| |].
  { apply Hp3, Hp2. exact Hf1. }
  rewrite Hv1. unfold mbind at 1, Daemon_bind at 1.
  destruct (load_working_restores (ag_working (aw_agent w1)) v1) as (v2 & p2 & -> & Hp2' & Hkv2 & Hcv2 & Hrv2 & Hsv2).
  { rewrite Hsv1. by apply Hq3. }
  unfold mbind at 1, Daemon_bind at 1.
  destruct (load_audit_restores (audit_of (aw_agent w2)) v2) as (v3 & p3 & -> & Hp3' & Hcv3 & Hkv3 & h & Hh & Ha).
  { done. } { by rewrite Hrv2, Hrv1. } { rewrite Hsv2, Hsv1. exact Hf3. }
  eexists _, _. split; [done|]. split_and!.
  - simpl. by rewrite Hp1, Hp2', Hp3'.
  - congruence.
  - congruence.
  - exists h. split; [done|]. rewrite Ha. unfold audit_of. by rewrite Hr2, Hr1.
Qed.
End memory.

(** ** The store in a directory *)

Section directory.
Context {E J : Type} `{!RuntimeEnv E} `{!WireEnv E} `{!AiProvider E}
  `{!JsonOps J} `{!JsonParse J} `{!JsonObject J} `{!EnvelopeParse J} `{!ObservationText J}
  `{!ResponseParse J} `{!UuidText} `{!Unicode} `{!DebugText}
  `{!PersistCodec ConversationSnapshot} `{!PersistCodec (gmap string string)}
  `{!PersistCodec (list RtAuditEntry)} `{!AgentRequestParse}
  `{!PersistLaws ConversationSnapshot} `{!PersistLaws (gmap string string)} `{!PersistLaws (list RtAuditEntry)}.
Variable no_space : filesystem → path → bool.
Variable root : path.
#[local] Instance directory_store : MemoryStore filesystem := file_memory_store no_space root.
#[local] Instance directory_laws : MemoryStoreLaws filesystem (ready root memory_names) := file_store_laws no_space root.

(** C15: what the daemon saves in its directory survives a restart.  Whatever lines
    the daemon has received, saving always returns a report; if the report is clean
    (every part was encoded and written), a daemon that is started on that file
    system and loads its memory has the same conversation and working memory, and
    the last 256 entries of the audit log, and its report is clean.  The directory may
    run out of space at any write.  Assumed: when the daemon saves, the root exists and
    is reached without links, and none of the three names and their temporary files
    is a directory or a link; and the serializers read back an envelope they wrote. *)
Theorem saved_memory_survives_restart lines iter iter_working control_port surface_port id fs e id' e' :
  let w := daemon_after (J := J) (@iter) iter_working control_port surface_port lines id fs e in
  ready root memory_names (ag_memory_store (aw_agent w)) →
  ∃ w1 report, flush_persisted w = (w1, Some report) ∧
    (is_clean report = true →
     ∃ (w2 : AgentWorld E filesystem J) report2,
       load_persisted (daemon_start control_port surface_port id' (ag_memory_store (aw_agent w1)) e')
         = (w2, Some report2) ∧ is_clean report2 = true ∧
       ag_conversation (aw_agent w2) = ag_conversation (aw_agent w) ∧
       ag_working (aw_agent w2) = ag_working (aw_agent w) ∧
       ∃ h, ag_runtime (aw_agent w2) = Some h ∧ al_entries (h_audit h) = audit_of (aw_agent w)).
Proof.
  intros w Hr. pose proof (gd_tidy _ _ _ (after_good (@iter) iter_working control_port surface_port lines id fs e)) as Ht.
  by apply (memory_is_kept (ready root memory_names)).
Qed.
End directory.

(** ** A concrete daemon *)

#[local] Instance turn_eq_dec : EqDecision ConversationTurn. Proof. solve_decision. Defined.
#[local] Instance snapshot_eq_dec : EqDecision ConversationSnapshot. Proof. solve_decision. Defined.
#[local] Instance audit_type_eq_dec : EqDecision AuditEventType. Proof. solve_decision. Defined.
#[local] Instance audit_entry_eq_dec : EqDecision RtAuditEntry. Proof. solve_decision. Defined.

(** Serializers that know the envelope of one value. *)
Section one_value.
Context {T : Type} `{EqDecision T} (x : T).
Definition one_envelope : Persisted T := mkPersisted ENVELOPE_VERSION 0 (fnv1a_64_hex []) x.
Definition one_value_codec : PersistCodec T := {|
  data_to_vec _ := Ok [];
  envelope_to_vec p :=
    if decide (pd_version p = ENVELOPE_VERSION ∧ pd_saved_at_ms p = 0%N ∧
               pd_content_checksum p = fnv1a_64_hex [] ∧ pd_data p = x)
    then Ok [Byte.x01] else Err "unknown";
  envelope_from_slice b := if decide (b = [Byte.x01]) then Ok one_envelope else Err "unknown";
|}.
Lemma one_value_laws : PersistLaws T (H := one_value_codec).
Proof.
  intros [v t c d] bytes. unfold envelope_to_vec, envelope_from_slice, one_value_codec. simpl.
  destruct (decide _) as [(-> & -> & -> & ->)|]; [|done]. intros [= <-]. by destruct (decide _).
Qed.
End one_value.

#[local] Instance still_env : RuntimeEnv unit := {|
  env_now e := (0%N, e);
  env_uuid e := (0%N, e);
  env_exchange _ _ e := (Err (ConnectError "refused"), e);
|}.
#[local] Instance still_wire : WireEnv unit := {|
  wire_call _ _ e := (Err (CeConnect "refused"), e);
  wire_surface _ _ e := (Err (SeConnect "refused"), e);
  wire_ask _ _ e := (None, e);
|}.
#[local] Instance plain_text : DebugText := {| debug_str s := s |}.
#[local] Instance plain_uuid : UuidText := {| uuid_text := pretty; uuid_parse _ := Err "not a uuid" |}.
#[local] Instance plain_unicode : Unicode := {| to_uppercase := to_ascii_uppercase |}.
#[local] Instance plain_parse : JsonParse ToyJson := {| json_from_str s := Ok (TStr s) |}.
#[local] Instance plain_object : JsonObject ToyJson :=
  {| json_as_object j := match j with TObj l => Some l | _ => None end |}.
#[local] Instance plain_envelope : EnvelopeParse ToyJson := {| envelope_from_value _ := Err "no envelope" |}.
#[local] Instance plain_observation : ObservationText ToyJson :=
  {| obs_to_value _ := TNull; obs_debug _ := "" |}.
#[local] Instance plain_response : ResponseParse ToyJson := {| ipc_response_from_str _ := Err "no response" |}.
(** Every line asks to remember something. *)
#[local] Instance plain_request : AgentRequestParse :=
  {| agent_request_from_str s := Ok (mkAgentRequest "agent.memory.set" (Some s)) |}.

#[local] Instance plain_ai : AiProvider unit := EchoProvider.
#[local] Instance conversation_codec : PersistCodec ConversationSnapshot :=
  one_value_codec (conversation_snapshot ConversationContext_default).
#[local] Instance working_codec : PersistCodec (gmap string string) := one_value_codec {["lang" := "en"]}.
#[local] Instance audit_codec : PersistCodec (list RtAuditEntry) := one_value_codec [].
#[local] Instance conversation_laws : PersistLaws ConversationSnapshot := one_value_laws _.
#[local] Instance working_laws : PersistLaws (gmap string string) := one_value_laws _.
#[local] Instance audit_laws : PersistLaws (list RtAuditEntry) := one_value_laws _.

(** A daemon with its memory in the directory [/m] that was told one thing. *)
#[local] Instance shelf_store : MemoryStore filesystem := file_memory_store (λ _ _, false) ["m"].
Definition told_once : AgentWorld unit filesystem ToyJson :=
  daemon_after (λ V m, map_to_list m) map_to_list 1 2 ["lang=en"] 7 shelf tt.

Lemma saved_memory_survives_restart_witness :
  ∃ w1 report, flush_persisted told_once = (w1, Some report) ∧ is_clean report = true ∧
    ∃ (w2 : AgentWorld unit filesystem ToyJson) report2,
      load_persisted (daemon_start 1 2 8 (ag_memory_store (aw_agent w1)) tt) = (w2, Some report2) ∧
      ag_working (aw_agent w2) = {["lang" := "en"]}.
Proof.
  destruct (saved_memory_survives_restart (E := unit) (J := ToyJson) (λ _ _, false) ["m"] ["lang=en"]
    (λ V m, map_to_list m) map_to_list 1 2 7 shelf tt 8 tt) as (w1 & report & Hf & Hl).
  { match goal with |- ready _ _ ?s => replace s with shelf by (vm_compute; reflexivity) end.
    split; [apply shelf_dir|intros; apply shelf_free..]. }
  exists w1, report. split; [exact Hf|].
  assert (is_clean report = true) as Hc.
  { assert (option_map is_clean (flush_persisted told_once).2 = Some true) as Hr by (vm_compute; reflexivity).
    change (flush_persisted told_once = (w1, Some report)) in Hf. rewrite Hf in Hr. simpl in Hr. congruence. }
  split; [exact Hc|]. destruct (Hl Hc) as (w2 & report2 & Hload & _ & _ & Hw & _).
  exists w2, report2. split; [exact Hload|]. rewrite Hw. vm_compute. reflexivity.
Defined.
