(* ===== verification/Credentials.v ===== *)
(** * The credential store

    Models security/aether-security/src/credentials.rs.  AES-256-GCM is
    third-party code: encryption and decryption under a key and a nonce are the
    class [Aead], what the store relies on is [AeadLaws].  Random bytes come
    from a source that is passed along. *)
From S2P Require Import Prelude RustStd.

Class Aead := {
  aead_encrypt : list byte → list byte → list byte → option (list byte);
  aead_decrypt : list byte → list byte → list byte → option (list byte);
}.

(** A ciphertext is 16 bytes longer than its text and decrypts to it; texts of
    up to 2^36 - 32 bytes are accepted. *)
Definition aead_max : N := (2 ^ 36 - 32)%N.

Class AeadLaws `{Aead} : Prop := {
  aead_total k n p : (N.of_nat (length p) ≤ aead_max)%N → is_Some (aead_encrypt k n p);
  aead_length k n p c : aead_encrypt k n p = Some c → length c = length p + 16;
  aead_round_trip k n p c : aead_encrypt k n p = Some c → aead_decrypt k n c = Some p;
}.

(** [fill_bytes] of a random generator. *)
Class Rng (R : Type) := { rng_fill : nat → R → list byte * R }.
Class RngLaws (R : Type) `{Rng R} : Prop := rng_fill_length k r : length (rng_fill k r).1 = k.

Record SealedBlob := mkSealedBlob {
  blob_bytes : list byte;
  blob_label : option string;
  blob_sealed_at_ms : N;
}.

Record Credential := mkCredential {
  cred_name : string;
  cred_blob : SealedBlob;
  cred_plaintext_len : nat;
}.

Inductive CredentialError :=
| CeNotFound | CeAuthenticationFailed | CeAlreadyExists (name : string) | CeMalformed.

Definition CredentialError_to_string (e : CredentialError) : string :=
  match e with
  | CeNotFound => "credential not found"
  | CeAuthenticationFailed => "credential authentication failed"
  | CeAlreadyExists name => "credential '" +:+ name +:+ "' already exists"
  | CeMalformed => "credential blob is malformed"
  end.

(** The trait [KeyProvider]: a key may be drawn anew. *)
Class KeyProvider (K R : Type) := { sealing_key : K → R → list byte * R }.

Record StaticKeyProvider := mkStaticKeyProvider { static_key : list byte }.
Record RandomKeyProvider := mkRandomKeyProvider {}.

#[export] Instance static_provider {R} : KeyProvider StaticKeyProvider R :=
  {| sealing_key k r := (static_key k, r) |}.
#[export] Instance random_provider {R} `{Rng R} : KeyProvider RandomKeyProvider R :=
  {| sealing_key _ r := rng_fill 32 r |}.

Record SealedStore {K : Type} := mkSealedStore {
  ss_key_provider : K;
  ss_entries : gmap string Credential;
}.
Arguments SealedStore K : clear implicits.
Arguments mkSealedStore {K}.

Section store.
Context `{!Aead} {R : Type} `{!Rng R} {K : Type} `{!KeyProvider K R}.
Implicit Types (s : SealedStore K) (r : R).

Definition SealedStore_new (k : K) : SealedStore K := mkSealedStore k ∅.
Definition ss_len s : nat := size (ss_entries s).
Definition ss_is_empty s : bool := (size (ss_entries s) =? 0)%nat.
Definition ss_names s : list string := btree_keys (ss_entries s).
Definition ss_contains s (name : string) : bool := bool_decide (is_Some (ss_entries s !! name)).
Definition ss_get s (name : string) : option Credential := ss_entries s !! name.

(** The time of day is an argument. *)
Definition seal (now_ms : N) (name plaintext : string) (label : option string) (force : bool) s r :
    SealedStore K * R * result Credential CredentialError :=
  if negb force && ss_contains s name then (s, r, Err (CeAlreadyExists name))
  else
    let '(key, r) := sealing_key (ss_key_provider s) r in
    let '(nonce, r) := rng_fill 12 r in
    match aead_encrypt key nonce (as_bytes plaintext) with
    | None => (s, r, Err CeAuthenticationFailed)
    | Some ciphertext =>
        let blob := mkSealedBlob (nonce ++ ciphertext) label now_ms in
        let c := mkCredential name blob (String.length plaintext) in
        (mkSealedStore (ss_key_provider s) (<[name := c]> (ss_entries s)), r, Ok c)
    end.

Definition unseal (name : string) s r : R * result string CredentialError :=
  match ss_entries s !! name with
  | None => (r, Err CeNotFound)
  | Some c =>
      let bytes := blob_bytes (cred_blob c) in
      if (length bytes <? 12 + 16)%nat then (r, Err CeMalformed)
      else
        let '(key, r) := sealing_key (ss_key_provider s) r in
        match aead_decrypt key (take 12 bytes) (drop 12 bytes) with
        | None => (r, Err CeAuthenticationFailed)
        | Some plaintext =>
            if is_utf8 plaintext then (r, Ok (string_of_bytes plaintext)) else (r, Err CeMalformed)
        end
  end.

Definition ss_remove (name : string) s : SealedStore K * result Credential CredentialError :=
  match ss_entries s !! name with
  | None => (s, Err CeNotFound)
  | Some c => (mkSealedStore (ss_key_provider s) (delete name (ss_entries s)), Ok c)
  end.

Definition ss_clear s : SealedStore K := mkSealedStore (ss_key_provider s) ∅.
End store.

(** ** The store as a map of secrets *)

(** The calls of a client. *)
Inductive CredOp :=
| CoSeal (now_ms : N) (name plaintext : string) (label : option string) (force : bool)
| CoUnseal (name : string)
| CoRemove (name : string)
| CoNames
| CoClear.

(** What a call answers, the ciphertext left out. *)
Inductive CredReply :=
| CrSealed (r : result (string * option string * nat) CredentialError)
| CrSecret (r : result string CredentialError)
| CrRemoved (r : result (string * option string * nat) CredentialError)
| CrNames (l : list string)
| CrDone.

Definition cred_view (c : Credential) : string * option string * nat :=
  (cred_name c, blob_label (cred_blob c), cred_plaintext_len c).

Definition result_map {A B E} (f : A → B) (r : result A E) : result B E :=
  match r with Ok a => Ok (f a) | Err e => Err e end.

Section run.
Context `{!Aead} {R : Type} `{!Rng R} {K : Type} `{!KeyProvider K R}.

Definition cred_step (op : CredOp) (s : SealedStore K) (r : R) : SealedStore K * R * CredReply :=
  match op with
  | CoSeal now name p label force =>
      let '(s, r, o) := seal now name p label force s r in (s, r, CrSealed (result_map cred_view o))
  | CoUnseal name => let '(r, o) := unseal name s r in (s, r, CrSecret o)
  | CoRemove name => let '(s, o) := ss_remove name s in (s, r, CrRemoved (result_map cred_view o))
  | CoNames => (s, r, CrNames (ss_names s))
  | CoClear => (ss_clear s, r, CrDone)
  end.

Fixpoint cred_run (ops : list CredOp) (s : SealedStore K) (r : R) : list CredReply :=
  match ops with
  | [] => []
  | op :: ops => let '(s, r, o) := cred_step op s r in o :: cred_run ops s r
  end.
End run.

(** The specification: a map from names to texts with their labels. *)
Abbreviation Secrets := (gmap string (string * option string)).

Definition spec_view (name : string) (x : string * option string) : string * option string * nat :=
  (name, x.2, String.length x.1).

Definition spec_step (op : CredOp) (m : Secrets) : Secrets * CredReply :=
  match op with
  | CoSeal _ name p label force =>
      if negb force && bool_decide (is_Some (m !! name)) then (m, CrSealed (Err (CeAlreadyExists name)))
      else (<[name := (p, label)]> m, CrSealed (Ok (spec_view name (p, label))))
  | CoUnseal name =>
      (m, CrSecret (match m !! name with Some x => Ok x.1 | None => Err CeNotFound end))
  | CoRemove name =>
      match m !! name with
      | Some x => (delete name m, CrRemoved (Ok (spec_view name x)))
      | None => (m, CrRemoved (Err CeNotFound))
      end
  | CoNames => (m, CrNames (btree_keys m))
  | CoClear => (∅, CrDone)
  end.

Fixpoint spec_run (ops : list CredOp) (m : Secrets) : list CredReply :=
  match ops with [] => [] | op :: ops => let '(m, o) := spec_step op m in o :: spec_run ops m end.

(** The texts are strings of Rust and within the limit of the cipher. *)
Definition sealable (op : CredOp) : Prop :=
  match op with
  | CoSeal _ _ p _ _ => is_utf8 (as_bytes p) = true ∧ (N.of_nat (String.length p) ≤ aead_max)%N
  | _ => True
  end.

Section refinement.
Context {AE : Aead} {AL : AeadLaws} {R : Type} {RG : Rng R} {RL : RngLaws R}.
Implicit Types (s : SealedStore StaticKeyProvider) (m : Secrets).

(** A credential that holds the text under the key. *)
Definition holds (key : list byte) (name : string) (x : string * option string) (c : Credential) : Prop :=
  cred_view c = spec_view name x ∧ is_utf8 (as_bytes x.1) = true ∧
  ∃ nonce ct, blob_bytes (cred_blob c) = nonce ++ ct ∧ length nonce = 12 ∧
    aead_encrypt key nonce (as_bytes x.1) = Some ct.

Definition stores m s : Prop :=
  ∀ name, option_Forall2 (holds (static_key (ss_key_provider s)) name) (m !! name) (ss_entries s !! name).

Lemma stores_is_Some m s name : stores m s → is_Some (ss_entries s !! name) ↔ is_Some (m !! name).
Proof.
  intros H. specialize (H name). destruct H; [|done]. split; by eexists.
Qed.

Lemma stores_keys m s : stores m s → ss_names s = btree_keys m.
Proof.
  intros H. unfold ss_names, btree_keys. do 2 f_equal. apply set_eq. intros name.
  rewrite !elem_of_dom. by apply stores_is_Some.
Qed.

Lemma unseal_stored m s name x (r : R) :
  stores m s → m !! name = Some x → unseal name s r = (r, Ok x.1).
Proof.
  intros H Hm. specialize (H name). rewrite Hm in H. inversion H as [? c Hc Hx Hs|]; subst.
  destruct Hc as (_ & Hu & nonce & ct & Hb & Hn & He). unfold unseal. rewrite <-Hs, Hb.
  pose proof (aead_length _ _ _ _ He) as Hl.
  destruct (Nat.ltb_spec (length (nonce ++ ct)) (12 + 16)) as [Hlt|_];
    [rewrite length_app in Hlt; lia|].
  simpl. rewrite take_app_length', drop_app_length' by done.
  rewrite (aead_round_trip _ _ _ _ He), Hu. by rewrite string_of_bytes_as_bytes.
Qed.

Lemma stores_insert m s name x c :
  stores m s → holds (static_key (ss_key_provider s)) name x c →
  stores (<[name := x]> m) (mkSealedStore (ss_key_provider s) (<[name := c]> (ss_entries s))).
Proof.
  intros H Hc name'. simpl. destruct (decide (name = name')) as [->|Hne].
  - rewrite !lookup_insert_eq. by constructor.
  - rewrite !lookup_insert_ne by done. apply H.
Qed.

Lemma seal_stores m s (r : R) now name p label force :
  stores m s → is_utf8 (as_bytes p) = true → (N.of_nat (String.length p) ≤ aead_max)%N →
  let '(s', _, o) := seal now name p label force s r in
  let '(m', o') := spec_step (CoSeal now name p label force) m in
  CrSealed (result_map cred_view o) = o' ∧ stores m' s'.
Proof.
  intros H Hu Hlen. unfold seal. cbn zeta.
  simpl spec_step. unfold ss_contains.
  rewrite (bool_decide_ext _ _ (stores_is_Some m s name H)).
  destruct (negb force && _); [done|]. simpl.
  destruct (rng_fill 12 r) as [nonce r'] eqn:En.
  pose proof (rng_fill_length 12 r) as Hn. rewrite En in Hn. simpl in Hn.
  destruct (aead_total (static_key (ss_key_provider s)) nonce (as_bytes p)) as [ct Hct].
  { by rewrite length_as_bytes. }
  rewrite Hct. split; [done|]. apply stores_insert; [done|]. split_and!; [done|done|].
  by exists nonce, ct.
Qed.

Lemma cred_step_refines op m s (r : R) :
  stores m s → sealable op →
  let '(s', _, o) := cred_step op s r in
  let '(m', o') := spec_step op m in
  o = o' ∧ stores m' s'.
Proof.
  intros H Hop. destruct op as [now name p label force|name|name| |].
  - destruct Hop as [Hu Hl]. unfold cred_step.
    pose proof (seal_stores m s r now name p label force H Hu Hl) as Hs.
    by destruct (seal now name p label force s r) as [[s' r'] o].
  - simpl. destruct (m !! name) as [x|] eqn:Hm.
    + by rewrite (unseal_stored m s name x r).
    + unfold unseal. pose proof (H name) as Hn. rewrite Hm in Hn. by inversion Hn.
  - simpl. unfold ss_remove. pose proof (H name) as Hn. destruct Hn as [x c Hc|]; [|done].
    split; [destruct Hc as [Hv _]; cbn [result_map]; by rewrite Hv|]. intros name'. simpl.
    destruct (decide (name = name')) as [->|Hne].
    + rewrite !lookup_delete_eq. constructor.
    + rewrite !lookup_delete_ne by done. apply H.
  - simpl. by rewrite (stores_keys m s).
  - simpl. split; [done|]. intros name. rewrite !lookup_empty. constructor.
Qed.

Lemma cred_run_refines ops : ∀ m s (r : R),
  stores m s → Forall sealable ops → cred_run ops s r = spec_run ops m.
Proof.
  induction ops as [|op ops IH]; intros m s r H Hops; [done|]. simpl.
  inversion Hops as [|?? Ho Hs]; subst. pose proof (cred_step_refines op m s r H Ho) as Hst.
  destruct (cred_step op s r) as [[s' r'] o], (spec_step op m) as [m' o'].
  destruct Hst as [-> Hst]. f_equal. by apply IH.
Qed.

(** C12: with a fixed key the sealed store is a map of secrets.  Over any
    sequence of calls, with texts in UTF-8 no longer than the cipher takes,
    it answers exactly as a map from names to texts would:
    what was sealed last under a name comes back until it is removed, a name in
    use is refused unless the caller forces it, and nothing is reported as
    malformed or not authentic, whatever nonces the generator draws. *)
Theorem sealed_store_refines_map (key : list byte) ops (r : R) :
  Forall sealable ops →
  cred_run ops (SealedStore_new (mkStaticKeyProvider key)) r = spec_run ops ∅.
Proof.
  apply cred_run_refines. intros name. simpl. rewrite !lookup_empty. constructor.
Qed.
End refinement.

(** A cipher that appends a tag of sixteen bytes, and a generator of zeros. *)
Module ToyAead.
#[export] Instance toy_aead : Aead := {|
  aead_encrypt k n p := Some (p ++ repeat Byte.x00 16);
  aead_decrypt k n c := Some (take (length c - 16) c);
|}.

#[export] Instance toy_aead_laws : AeadLaws.
Proof.
  split; cbn [aead_encrypt aead_decrypt toy_aead]; [by eexists| |]; intros k n p c <-%(inj Some);
    rewrite length_app, repeat_length; [done|]. by rewrite Nat.add_sub, take_app_length.
Qed.

#[export] Instance toy_rng : Rng unit := {| rng_fill k r := (repeat Byte.x00 k, r) |}.

#[export] Instance toy_rng_laws : RngLaws unit.
Proof. intros k r. apply repeat_length. Qed.
End ToyAead.

Section toy.
Import ToyAead.

Lemma sealed_store_refines_map_witness :
  Forall sealable [CoSeal 1 "wifi" "hunter2" None false; CoUnseal "wifi"] ∧
  cred_run [CoSeal 1 "wifi" "hunter2" None false; CoUnseal "wifi"]
    (SealedStore_new (mkStaticKeyProvider [])) tt =
  [CrSealed (Ok ("wifi", None, 7)); CrSecret (Ok "hunter2")].
Proof.
  assert (Forall sealable [CoSeal 1 "wifi" "hunter2" None false; CoUnseal "wifi"]) as H
    by (repeat constructor; vm_compute; congruence).
  split; [exact H|]. exact (sealed_store_refines_map [] _ tt H).
Defined.
End toy.
