(* ===== verification/AppManager.v ===== *)
(** * The application manager

    Models system/aether-application-manager/src/lib.rs.  Processes belong to
    the operating system: opening the output file of an application, starting,
    polling and killing a child are the class [Processes] over a state that is
    passed along. *)
From S2P Require Import Prelude RustStd CoreTypes.
From Stdlib Require Import Ascii.

(** The answer of [try_wait]. *)
Inductive WaitResult := WaitExited (success : bool) | WaitRunning | WaitError.

(** A child is known by its process id. *)
Class Processes (W : Type) := {
  (** Create the file for the output; whether it could be opened. *)
  proc_open_out : string → W → bool * W;
  (** [Command::spawn]; the flag tells whether the output goes to the file. *)
  proc_spawn : string → list string → bool → W → option N * W;
  proc_try_wait : N → W → WaitResult * W;
  proc_kill : N → W → W;
  proc_wait : N → W → W;
}.

Inductive AppType := AppBuiltin | AppNative.

Definition AppType_to_string (t : AppType) : string :=
  match t with AppBuiltin => "builtin" | AppNative => "native" end.

Record AppDefinition := mkAppDefinition {
  ad_id : string;
  ad_display_name : string;
  ad_version : string;
  ad_command : string;
  ad_app_type : AppType;
  ad_permissions : list string;
}.

Inductive AppManagerError :=
| AmUnknownApp (id : string) | AmAlreadyRunning (id : string) | AmNotRunning (instance : N)
| AmInvalidId (id : string) | AmManifest (e : string) | AmLaunchFailed (e : string).

Definition AppManagerError_to_string (e : AppManagerError) : string :=
  match e with
  | AmUnknownApp id => "unknown application '" +:+ id +:+ "'"
  | AmAlreadyRunning id => "application '" +:+ id +:+ "' is already running"
  | AmNotRunning i => "instance " +:+ pretty i +:+ " is not running"
  | AmInvalidId id => "invalid application id '" +:+ id +:+ "'; allowed: [a-z0-9._-]"
  | AmManifest e => "invalid manifest: " +:+ e
  | AmLaunchFailed e => "launch failed: " +:+ e
  end.

Definition AppDefinition_new (id display_name version command : string) (permissions : list string) :
    result AppDefinition AppManagerError :=
  match ComponentId_new id with
  | Err _ => Err (AmInvalidId id)
  | Ok c => Ok (mkAppDefinition (component_id_str c) display_name version command AppBuiltin permissions)
  end.

Inductive InstanceState := IsRunning | IsExited | IsFailed | IsClosed.

#[export] Instance InstanceState_eq_dec : EqDecision InstanceState.
Proof. solve_decision. Defined.

Definition InstanceState_to_string (s : InstanceState) : string :=
  match s with
  | IsRunning => "RUNNING" | IsExited => "EXITED" | IsFailed => "FAILED" | IsClosed => "CLOSED"
  end.

Record Instance_ := mkInstance {
  in_instance_id : N;
  in_app_id : string;
  in_pid : option N;
  in_state : InstanceState;
}.

Record AppStateReport := mkAppStateReport {
  asr_app_id : string;
  asr_installed : bool;
  asr_state : string;
  asr_instances : list Instance_;
}.

Record InstanceRecord := mkInstanceRecord { rec_instance : Instance_; rec_child : option N }.

(** The instances are a [BTreeMap] from ids that only grow: the list of its
    values in the order of the ids. *)
Record ApplicationManager := mkApplicationManager {
  apm_defs : gmap string AppDefinition;
  apm_instances : list InstanceRecord;
  apm_next_instance : N;
}.

Definition ApplicationManager_default : ApplicationManager := mkApplicationManager ∅ [] 0.

Definition set_instances (l : list InstanceRecord) (m : ApplicationManager) : ApplicationManager :=
  mkApplicationManager (apm_defs m) l (apm_next_instance m).

Definition with_state (s : InstanceState) (i : Instance_) : Instance_ :=
  mkInstance (in_instance_id i) (in_app_id i) (in_pid i) s.

Definition app_register (def : AppDefinition) (m : ApplicationManager) : ApplicationManager :=
  mkApplicationManager (<[ad_id def := def]> (apm_defs m)) (apm_instances m) (apm_next_instance m).

Definition register_json (id display_name command : string) (m : ApplicationManager) :
    ApplicationManager * result unit AppManagerError :=
  match AppDefinition_new id display_name "0.1.0" command ["display"] with
  | Err e => (m, Err e)
  | Ok def => (app_register def m, Ok tt)
  end.

Definition discover (m : ApplicationManager) : list AppDefinition :=
  omap (λ id, apm_defs m !! id) (btree_keys (apm_defs m)).
Definition registered_count (m : ApplicationManager) : nat := size (apm_defs m).

Definition is_running_of (app_id : string) (r : InstanceRecord) : bool :=
  String.eqb (in_app_id (rec_instance r)) app_id && bool_decide (in_state (rec_instance r) = IsRunning).

Section manager.
Context {W : Type} `{!Processes W}.
Implicit Types (m : ApplicationManager) (w : W).

(** One turn of the loop of [reap].  A running instance whose child was taken
    and is not put back has no child any more. *)
Definition reap_record (r : InstanceRecord) w : InstanceRecord * W :=
  if bool_decide (in_state (rec_instance r) ≠ IsRunning) then (r, w)
  else match rec_child r with
       | None => (r, w)
       | Some child =>
           let '(o, w) := proc_try_wait child w in
           (match o with
            | WaitExited success =>
                mkInstanceRecord (with_state (if success then IsExited else IsFailed) (rec_instance r)) None
            | WaitRunning => r
            | WaitError => mkInstanceRecord (with_state IsFailed (rec_instance r)) None
            end, w)
       end.

Fixpoint reap_all (l : list InstanceRecord) w : list InstanceRecord * W :=
  match l with
  | [] => ([], w)
  | r :: l =>
      let '(r, w) := reap_record r w in
      let '(l, w) := reap_all l w in
      (r :: l, w)
  end.

Definition reap m w : ApplicationManager * W :=
  let '(l, w) := reap_all (apm_instances m) w in (set_instances l m, w).

(** [program.rsplit('/').next()]. *)
Definition last_segment (program : string) : string := List.last (str_split "/" program) "".

(** The id counter is a [u64]; [None] is the overflow of the addition. *)
Definition launch_app (app_id : string) m w :
    option (ApplicationManager * W * result Instance_ AppManagerError) :=
  let '(m, w) := reap m w in
  match apm_defs m !! app_id with
  | None => Some (m, w, Err (AmUnknownApp app_id))
  | Some def =>
      if existsb (is_running_of (ad_id def)) (apm_instances m)
      then Some (m, w, Err (AmAlreadyRunning (ad_id def)))
      else if (apm_next_instance m =? u64_max)%N then None
      else
        let instance_id := (apm_next_instance m + 1)%N in
        let m := mkApplicationManager (apm_defs m) (apm_instances m) instance_id in
        match split_whitespace (ad_command def) with
        | [] => Some (m, w, Err (AmLaunchFailed "empty command"))
        | program :: args =>
            let '(out, w) := proc_open_out ("/tmp/" +:+ last_segment program +:+ ".out") w in
            let '(child, w) := proc_spawn program args out w in
            let state := match child with Some _ => IsRunning | None => IsFailed end in
            let instance := mkInstance instance_id (ad_id def) child state in
            let m := set_instances (apm_instances m ++ [mkInstanceRecord instance child]) m in
            match child with
            | None => Some (m, w, Err (AmLaunchFailed
                        ("spawn failed; recorded as FAILED instance " +:+ pretty instance_id)))
            | Some _ => Some (m, w, Ok instance)
            end
        end
  end.

Definition running m w : ApplicationManager * W * list Instance_ :=
  let '(m, w) := reap m w in
  (m, w, List.filter (λ i, bool_decide (in_state i = IsRunning)) (rec_instance <$> apm_instances m)).

Definition has_instance_id (id : N) (r : InstanceRecord) : bool :=
  (in_instance_id (rec_instance r) =? id)%N.

Definition close_record (r : InstanceRecord) : InstanceRecord :=
  mkInstanceRecord (with_state IsClosed (rec_instance r)) None.

Definition close_app (instance_id : N) m w :
    ApplicationManager * W * result Instance_ AppManagerError :=
  let '(m, w) := reap m w in
  match find_b (has_instance_id instance_id) (apm_instances m) with
  | None => (m, w, Err (AmNotRunning instance_id))
  | Some r =>
      let w := match rec_child r with Some c => proc_wait c (proc_kill c w) | None => w end in
      let l := (λ r, if has_instance_id instance_id r then close_record r else r) <$> apm_instances m in
      (set_instances l m, w, Ok (rec_instance (close_record r)))
  end.

Definition app_state (app_id : string) m w : ApplicationManager * W * AppStateReport :=
  let '(m, w) := reap m w in
  let installed := bool_decide (is_Some (apm_defs m !! app_id)) in
  let instances := List.filter (λ i, String.eqb (in_app_id i) app_id) (rec_instance <$> apm_instances m) in
  let has s := existsb (λ i, bool_decide (in_state i = s)) instances in
  let state :=
    if has IsRunning then "RUNNING"
    else if has IsFailed then "FAILED"
    else match last instances with
         | Some i => match in_state i with
                     | IsExited => "EXITED" | IsClosed => "CLOSED" | _ => "INSTALLED"
                     end
         | None => if installed then "INSTALLED" else "UNKNOWN"
         end in
  (m, w, mkAppStateReport app_id installed state instances).

Definition stats m w : ApplicationManager * W * (nat * nat * nat) :=
  let '(m, w) := reap m w in
  let count s := length (List.filter (λ r, bool_decide (in_state (rec_instance r) = s)) (apm_instances m)) in
  (m, w, (size (apm_defs m), count IsRunning, count IsFailed)).
End manager.

(** ** Histories of calls *)

Inductive AppCall :=
| AcRegister (def : AppDefinition) | AcLaunch (app_id : string) | AcRunning | AcClose (id : N)
| AcState (app_id : string) | AcStats.

Section history.
Context {W : Type} `{!Processes W}.
Implicit Types (m : ApplicationManager) (w : W) (l : list InstanceRecord).

Definition app_call (c : AppCall) m w : option (ApplicationManager * W) :=
  match c with
  | AcRegister def => Some (app_register def m, w)
  | AcLaunch id => fst <$> launch_app id m w
  | AcRunning => Some (running m w).1
  | AcClose id => Some (close_app id m w).1
  | AcState id => Some (app_state id m w).1
  | AcStats => Some (stats m w).1
  end.

Fixpoint app_calls (cs : list AppCall) m w : option (ApplicationManager * W) :=
  match cs with
  | [] => Some (m, w)
  | c :: cs => '(m, w) ← app_call c m w; app_calls cs m w
  end.

Definition rec_id (r : InstanceRecord) : N := in_instance_id (rec_instance r).
Definition rec_running (r : InstanceRecord) : Prop := in_state (rec_instance r) = IsRunning.

(** A record is running exactly when its child is still held, and the pid of
    a running one is that of the child. *)
Definition rec_ok (next : N) (r : InstanceRecord) : Prop :=
  (1 ≤ rec_id r ≤ next)%N ∧
  match rec_child r with
  | Some c => rec_running r ∧ in_pid (rec_instance r) = Some c
  | None => ¬ rec_running r
  end.

(** At most one instance of an application is running. *)
Definition exclusive l : Prop :=
  ∀ r1 r2, r1 ∈ l → r2 ∈ l → rec_running r1 → rec_running r2 →
    in_app_id (rec_instance r1) = in_app_id (rec_instance r2) → rec_id r1 = rec_id r2.

Definition app_inv m : Prop :=
  Forall (rec_ok (apm_next_instance m)) (apm_instances m) ∧
  StronglySorted N.lt (rec_id <$> apm_instances m) ∧
  exclusive (apm_instances m) ∧
  map_Forall (λ id def, ad_id def = id) (apm_defs m).

(** A record after a call: it is the same instance, and runs only if it did. *)
Definition evolves (r r' : InstanceRecord) : Prop :=
  rec_id r' = rec_id r ∧ in_app_id (rec_instance r') = in_app_id (rec_instance r) ∧
  (rec_running r' → rec_running r) ∧ ∀ next, rec_ok next r → rec_ok next r'.

Lemma evolves_refl r : evolves r r.
Proof. by split_and!. Qed.

Lemma evolves_stopped s r :
  s ≠ IsRunning → evolves r (mkInstanceRecord (with_state s (rec_instance r)) None).
Proof. intros Hs. split_and!; [done|done|done|]. intros next [Hid _]. by split. Qed.

Lemma evolves_ids l l' : Forall2 evolves l l' → rec_id <$> l' = rec_id <$> l.
Proof. induction 1 as [|r r' l l' (Hid & _) _ IH]; [done|]. csimpl. by rewrite IH, Hid. Qed.

Lemma evolves_from l l' r' : Forall2 evolves l l' → r' ∈ l' → ∃ r, r ∈ l ∧ evolves r r'.
Proof.
  induction 1 as [|r q l l' Hrq _ IH]; [by intros ?%elem_of_nil|]. rewrite elem_of_cons.
  intros [->|Hin]; [exists r; split; [left|done]|]. destruct (IH Hin) as (r0 & ? & ?).
  exists r0. split; [by right|done].
Qed.

Lemma evolves_inv m l' : app_inv m → Forall2 evolves (apm_instances m) l' → app_inv (set_instances l' m).
Proof.
  intros (Hok & Hs & He & Hd) Hl. split_and!; simpl; [| | |done].
  - rewrite Forall_forall in Hok |- *. intros r' Hr'.
    destruct (evolves_from _ _ _ Hl Hr') as (r & Hr & (_ & _ & _ & Hv)). by apply Hv, Hok.
  - by rewrite (evolves_ids _ _ Hl).
  - intros r1 r2 H1 H2 Hr1 Hr2 Ha.
    destruct (evolves_from _ _ _ Hl H1) as (q1 & Hq1 & (I1 & A1 & R1 & _)).
    destruct (evolves_from _ _ _ Hl H2) as (q2 & Hq2 & (I2 & A2 & R2 & _)).
    rewrite I1, I2. apply He; auto; congruence.
Qed.

Lemma reap_record_evolves r w : evolves r (reap_record r w).1.
Proof.
  unfold reap_record. case_bool_decide; [apply evolves_refl|].
  destruct (rec_child r) as [c|]; [|apply evolves_refl].
  destruct (proc_try_wait c w) as [[[]| |] w']; simpl;
    first [apply evolves_refl|by apply evolves_stopped].
Qed.

Lemma reap_all_evolves l w : Forall2 evolves l (reap_all l w).1.
Proof.
  revert w. induction l as [|r l IH]; intros w; [constructor|]. simpl.
  pose proof (reap_record_evolves r w) as Hr. destruct (reap_record r w) as [r' w'].
  specialize (IH w'). destruct (reap_all l w') as [l' w'']. by constructor.
Qed.

Lemma reap_inv m w : app_inv m → app_inv (reap m w).1.
Proof.
  intros H. unfold reap. pose proof (reap_all_evolves (apm_instances m) w) as Hl.
  destruct (reap_all _ w) as [l w']. by apply evolves_inv.
Qed.

Lemma register_inv def m : app_inv m → app_inv (app_register def m).
Proof.
  intros (H1 & H2 & H3 & H4). split_and!; [done..|]. simpl. by apply map_Forall_insert_2.
Qed.

Lemma close_inv id m w : app_inv m → app_inv (close_app id m w).1.1.
Proof.
  intros H%(reap_inv m w). unfold close_app. destruct (reap m w) as [m' w'].
  destruct (find_b _ _) as [r|]; [|done]. apply evolves_inv; [done|].
  apply Forall2_fmap_r, Forall_Forall2_diag, Forall_true. intros r'. simpl.
  destruct (has_instance_id id r'); [by apply evolves_stopped|apply evolves_refl].
Qed.

Lemma StronglySorted_snoc_N (l : list N) x :
  StronglySorted N.lt l → Forall (λ y, (y < x)%N) l → StronglySorted N.lt (l ++ [x]).
Proof.
  induction 1 as [|y l Hs IH Hy]; intros Hl; simpl; [by repeat constructor|].
  inversion Hl; subst. constructor; [by apply IH|]. apply Forall_app. auto.
Qed.

(** A new record with the next id, running only when no other instance of the
    application is. *)
Lemma append_inv m r :
  app_inv m → rec_id r = (apm_next_instance m + 1)%N → rec_ok (apm_next_instance m + 1) r →
  (∀ q, q ∈ apm_instances m → rec_running q → in_app_id (rec_instance q) ≠ in_app_id (rec_instance r)) →
  app_inv (mkApplicationManager (apm_defs m) (apm_instances m ++ [r]) (apm_next_instance m + 1)).
Proof.
  intros (Hok & Hs & He & Hd) Hid Hr Hno. split_and!; simpl; [| | |done].
  - apply Forall_app. split; [|by constructor]. eapply Forall_impl; [exact Hok|].
    intros q [Hq Hc]. split; [lia|done].
  - rewrite fmap_app. apply StronglySorted_snoc_N; [done|]. apply Forall_fmap.
    eapply Forall_impl; [exact Hok|]. intros q [Hq _]. unfold compose. lia.
  - intros r1 r2. rewrite !elem_of_app, !list_elem_of_singleton.
    intros [H1| ->] [H2| ->] R1 R2 Ha; [by apply He|by destruct (Hno r1)|by destruct (Hno r2)|done].
Qed.

Lemma next_inv m : app_inv m →
  app_inv (mkApplicationManager (apm_defs m) (apm_instances m) (apm_next_instance m + 1)).
Proof.
  intros (Hok & Hs & He & Hd). split_and!; simpl; [|done..]. eapply Forall_impl; [exact Hok|].
  intros q [Hq Hc]. split; [lia|done].
Qed.

Lemma launch_inv id m w m' w' o :
  app_inv m → launch_app id m w = Some (m', w', o) → app_inv m'.
Proof.
  intros H%(reap_inv m w). unfold launch_app. destruct (reap m w) as [m0 w0]. simpl in H.
  destruct (apm_defs m0 !! id) as [def|] eqn:Hd; [|by intros [= <- <- <-]].
  destruct (existsb _ _) eqn:Hrun; [by intros [= <- <- <-]|].
  destruct (apm_next_instance m0 =? u64_max)%N; [done|].
  destruct (split_whitespace (ad_command def)) as [|program args];
    [intros [= <- <- <-]; by apply next_inv|].
  destruct (proc_open_out _ _) as [out w1], (proc_spawn _ _ _ _) as [child w2].
  assert (app_inv (mkApplicationManager (apm_defs m0)
    (apm_instances m0 ++ [mkInstanceRecord (mkInstance (apm_next_instance m0 + 1) (ad_id def) child
       (match child with Some _ => IsRunning | None => IsFailed end)) child])
    (apm_next_instance m0 + 1))) as Hm.
  { apply append_inv; [done|done| |].
    - split; [unfold rec_id; simpl; lia|]. by destruct child.
    - simpl. intros q Hq Hqr Ha. apply not_true_iff_false in Hrun. apply Hrun, existsb_exists.
      exists q. split; [by apply list_elem_of_In|]. unfold is_running_of. rewrite Ha, String.eqb_refl.
      by rewrite bool_decide_true. }
  destruct child; intros [= <- <- <-]; exact Hm.
Qed.

(** A launch panics only when the counter is at its end. *)
Lemma launch_exhausted id m w : launch_app id m w = None → apm_next_instance m = u64_max.
Proof.
  unfold launch_app, reap. destruct (reap_all _ _) as [l w1]. simpl.
  destruct (apm_defs m !! id) as [def|]; [|done]. destruct (existsb _ _); [done|].
  destruct (N.eqb_spec (apm_next_instance m) u64_max) as [Hn|_]; [done|].
  destruct (split_whitespace _); [done|]. by destruct (proc_open_out _ _), (proc_spawn _ _ _ _) as [[] ?].
Qed.

Lemma app_call_inv c m w m' w' : app_inv m → app_call c m w = Some (m', w') → app_inv m'.
Proof.
  intros H. destruct c as [def|id| |id|id|]; simpl.
  - intros [= <- <-]. by apply register_inv.
  - destruct (launch_app id m w) as [[[m1 w1] o]|] eqn:E; [|done]. intros [= <- <-].
    by eapply launch_inv.
  - intros [= E]. pose proof (reap_inv m w H) as Hr. unfold running in E.
    destruct (reap m w). by injection E as <- <-.
  - intros [= E]. pose proof (close_inv id m w H) as Hr. destruct (close_app id m w) as [[m1 w1] o].
    by injection E as <- <-.
  - intros [= E]. pose proof (reap_inv m w H) as Hr. unfold app_state in E.
    destruct (reap m w). by injection E as <- <-.
  - intros [= E]. pose proof (reap_inv m w H) as Hr. unfold stats in E.
    destruct (reap m w). by injection E as <- <-.
Qed.

(** Over any history of calls, however its processes end, the application
    manager holds at most one running instance per application; instances have
    distinct ids in the order of their launch, a record counts as running
    exactly while its child is held, and every definition is filed under its
    own id. *)
Theorem one_instance_per_application cs w m w' :
  app_calls cs ApplicationManager_default w = Some (m, w') → app_inv m.
Proof.
  assert (app_inv ApplicationManager_default) as H0.
  { split_and!; [constructor|constructor|by intros ??? %elem_of_nil|apply map_Forall_empty]. }
  revert H0. generalize ApplicationManager_default. revert w.
  induction cs as [|c cs IH]; intros w m0 H0; simpl; [by intros [= <- <-]|].
  destruct (app_call c m0 w) as [[m1 w1]|] eqn:E; [|done]. simpl. apply IH.
  by eapply app_call_inv.
Qed.
End history.

Module ToyProcesses.
(** Every process starts with the next number and keeps running. *)
#[export] Instance toy_processes : Processes N := {|
  proc_open_out _ w := (true, w);
  proc_spawn _ _ _ w := (Some w, w + 1)%N;
  proc_try_wait _ w := (WaitRunning, w);
  proc_kill _ w := w;
  proc_wait _ w := w;
|}.
End ToyProcesses.

Section toy.
Import ToyProcesses.

Definition toy_notes : AppDefinition := mkAppDefinition "notes" "Notes" "0.1.0" "/bin/notes" AppBuiltin [].

Lemma one_instance_per_application_witness :
  ∃ m w, app_calls [AcRegister toy_notes; AcLaunch "notes"; AcLaunch "notes"]
    ApplicationManager_default 7%N = Some (m, w) ∧ length (apm_instances m) = 1 ∧ app_inv m.
Proof.
  eexists _, _. split; [vm_compute; reflexivity|]. split; [reflexivity|].
  eapply (one_instance_per_application [AcRegister toy_notes; AcLaunch "notes"; AcLaunch "notes"] 7%N).
  vm_compute. reflexivity.
Defined.
End toy.
