(* ===== verification/TaskToAction.v ===== *)
(** * From approved tasks to actions

    Models agent/aether-agent-runtime/src/task_to_action.rs: the action the
    executor runs for a task of the agent. *)
From S2P Require Import Prelude RustStd Json TaskGraph Actions.

Inductive TaskToActionError :=
| TaEmptySessionId
| TaUnsupportedKind (kind : TaskKind) (reason : string)
| TaMissingField (field : string)
| TaInvalidArguments (message : string).

Definition TaskToActionError_to_string (e : TaskToActionError) : string :=
  match e with
  | TaEmptySessionId => "session_id is required"
  | TaUnsupportedKind kind reason =>
      "task kind '" +:+ TaskKind_as_str kind +:+ "' is not executable: " +:+ reason
  | TaMissingField field => "missing required field '" +:+ field +:+ "'"
  | TaInvalidArguments message => "invalid arguments: " +:+ message
  end.

Section task_to_action.
Context {J : Type} `{!JsonOps J}.
Implicit Types (args : option J).

Definition arg args (key : string) : option J := a ← args; json_get a key.
Definition arg_str args (key : string) : option string := arg args key ≫= json_as_str.
Definition arg_u64 args (key : string) : option N := arg args key ≫= json_as_u64.

(** The first key that holds a string that is not empty. *)
Fixpoint first_string (a : J) (keys : list string) : option string :=
  match keys with
  | [] => None
  | key :: keys =>
      match json_get a key ≫= json_as_str with
      | Some s => if str_is_empty s then first_string a keys else Some s
      | None => first_string a keys
      end
  end.

Definition string_field (target : option string) args (keys : list string) :
    result string TaskToActionError :=
  let rest :=
    match args ≫= λ a, first_string a keys with
    | Some s => Ok s
    | None => Err (TaMissingField (default "value" (head keys)))
    end in
  match target with
  | Some t => if str_is_empty t then rest else Ok t
  | None => rest
  end.

(** [args.get("operation").or_else(|| args.get("kind"))] as a string. *)
Definition operation args : option string :=
  match arg args "operation" with Some v => json_as_str v | None => arg_str args "kind" end.

Definition power_variant args : result ActionVariant TaskToActionError :=
  let op := default "reboot" (operation args) in
  let delay_ms := default 0%N (arg_u64 args "delay_ms") in
  if (op =? "reboot")%string || (op =? "restart")%string then Ok (SystemReboot delay_ms)
  else if (op =? "shutdown")%string then Ok (SystemShutdown delay_ms)
  else if (op =? "suspend")%string || (op =? "hibernate")%string then Ok SystemSuspend
  else Err (TaInvalidArguments ("unknown power operation '" +:+ op +:+ "'")).

Definition security_variant args : result ActionVariant TaskToActionError :=
  let op := default "policy.reload" (operation args) in
  if (op =? "policy.reload")%string || (op =? "policy_reload")%string then Ok PolicyReload
  else Err (TaUnsupportedKind SecurityControl ("security operation '" +:+ op +:+ "' is not wired yet")).

Definition cleanup_variant args : result ActionVariant TaskToActionError :=
  let kind := default "" (arg_str args "kind") in
  if (kind =? "drop_page_cache")%string || (kind =? "free_disk_cache")%string || str_is_empty kind
  then Ok StorageStatus
  else Err (TaUnsupportedKind ProposeCleanup ("cleanup kind '" +:+ kind +:+ "' is not wired yet")).

Definition custom_variant args : result ActionVariant TaskToActionError :=
  match arg_str args "kind" with
  | None => Err (TaMissingField "kind")
  | Some kind =>
      if (kind =? "restart_service")%string then
        let? service := string_field None args ["service"] in Ok (ServiceRestart service)
      else if (kind =? "restart_app")%string then
        let? app_id := string_field None args ["app_id"] in Ok (ApplicationLaunch app_id)
      else if (kind =? "inform_user")%string then Ok ContextGet
      else if (kind =? "kill_process")%string
      then Err (TaUnsupportedKind Custom "kill_process requires a future process.kill action")
      else Err (TaUnsupportedKind Custom ("custom kind '" +:+ kind +:+ "' is not wired yet"))
  end.

Definition task_variant (t : AgentTask J) : result ActionVariant TaskToActionError :=
  let args := task_arguments t in
  match task_kind t with
  | RestartService => let? service := string_field (task_target t) args ["service"] in Ok (ServiceRestart service)
  | Notify => Ok ContextGet
  | DeviceControl =>
      let? device_id := string_field (task_target t) args ["device_id"] in
      Ok (if default true (arg args "enable" ≫= json_as_bool)
          then DeviceEnable device_id else DeviceDisable device_id)
  | DisplayControl =>
      let? display_id := string_field (task_target t) args ["display_id"] in
      match arg_u64 args "level" with
      | None => Err (TaMissingField "level")
      | Some level => Ok (DisplaySetBrightness display_id (N.min level 100))
      end
  | PowerControl => power_variant args
  | SecurityControl => security_variant args
  | ProposeCleanup => cleanup_variant args
  | Custom => custom_variant args
  | ProposeUpdate | ProposeInstall | ProposeSecurityScan =>
      Err (TaUnsupportedKind (task_kind t)
             "meta-proposals require a human operator or a future update pipeline")
  end.

(** The fresh id of the action is an argument. *)
Definition task_to_action (id : N) (session_id : string) (t : AgentTask J) :
    result Action TaskToActionError :=
  if str_is_empty (str_trim session_id) then Err TaEmptySessionId
  else let? v := task_variant t in Ok (Action_new id session_id v (task_description t)).

(** ** Risks *)

Definition ActionRisk_rank (r : ActionRisk) : nat :=
  match r with ArLow => 0 | ArMedium => 1 | ArHigh => 2 | ArCritical => 3 end.
Definition TaskRisk_rank (r : TaskRisk) : nat :=
  match r with RiskLow => 0 | RiskMedium => 1 | RiskHigh => 2 | RiskCritical => 3 end.

Lemma power_variant_cases args v :
  power_variant args = Ok v →
  v = SystemSuspend ∨ ∃ d, v = SystemReboot d ∨ v = SystemShutdown d.
Proof. unfold power_variant. repeat case_match; naive_solver. Qed.

Lemma security_variant_cases args v : security_variant args = Ok v → v = PolicyReload.
Proof. unfold security_variant. case_match; naive_solver. Qed.

Lemma cleanup_variant_cases args v : cleanup_variant args = Ok v → v = StorageStatus.
Proof. unfold cleanup_variant. case_match; naive_solver. Qed.

Lemma custom_variant_cases args v :
  custom_variant args = Ok v →
  v = ContextGet ∨ ∃ s, v = ServiceRestart s ∨ v = ApplicationLaunch s.
Proof.
  unfold custom_variant. destruct (arg_str args "kind") as [kind|]; [|done].
  repeat case_match; naive_solver.
Qed.

(** C13: the action run for a task is never riskier than the default risk of the
    kind of the task, it is fresh from the classification of its variant, and it
    carries the description of the task as its reason.  Kinds that ask for an
    update, an installation or a scan give no action at all. *)
Theorem task_action_risk_bounded id session_id (t : AgentTask J) a :
  task_to_action id session_id t = Ok a →
  ActionRisk_rank (act_risk_level a) ≤ TaskRisk_rank (TaskKind_default_risk (task_kind t)) ∧
  a = Action_new id session_id (act_variant a) (task_description t) ∧
  task_kind t ∉ [ProposeUpdate; ProposeInstall; ProposeSecurityScan].
Proof.
  unfold task_to_action. destruct (str_is_empty _); [done|].
  destruct (task_variant t) as [v|] eqn:Hv; [|done]. simpl. intros [= <-].
  split; [|split; [by destruct v|]].
  - unfold task_variant in Hv. destruct (task_kind t); simpl in *;
      try apply power_variant_cases in Hv; try apply security_variant_cases in Hv;
      try apply cleanup_variant_cases in Hv; try apply custom_variant_cases in Hv;
      repeat case_match; naive_solver lia.
  - unfold task_variant in Hv. destruct (task_kind t); simpl in *; first [discriminate|set_solver].
Qed.
End task_to_action.

Lemma task_action_risk_bounded_witness :
  ∃ a, task_to_action 7 "s" (mkAgentTask (Json := ToyJson) (mkTaskId "t") RestartService "title" "why" [] RiskMedium
         (Some "net") None) = Ok a ∧
       ActionRisk_rank (act_risk_level a) ≤ TaskRisk_rank (TaskKind_default_risk RestartService).
Proof.
  eexists. split; [vm_compute; reflexivity|].
  refine (proj1 (task_action_risk_bounded 7 "s"
    (mkAgentTask (mkTaskId "t") RestartService "title" "why" [] RiskMedium (Some "net") None : AgentTask ToyJson) _ _)).
  vm_compute. reflexivity.
Defined.
