(* ===== verification/SystemInfo.v ===== *)
(** * Reports about the machine

    Models storage/aether-storage/src/system_info.rs.  The files of /proc and
    /etc, the output of [df], the environment and the clock are read through the
    class [MachineFiles]; parsing of floating point numbers is [FloatText].  The
    build is one for Linux. *)
From S2P Require Import Prelude RustStd Json.
From Stdlib Require Import Ascii.

Class MachineFiles (W : Type) := {
  (** [fs::read_to_string] of a path. *)
  mf_read : W → string → option string;
  (** The output of [df -B1] on a path, when it succeeds. *)
  mf_df : W → string → option string;
  mf_exists : W → string → bool;
  mf_env : W → string → option string;
  mf_parallelism : W → option N;
  mf_arch : string;
  mf_os : string;
}.

Class FloatText (J : Type) := {
  (** [s.parse::<f64>()] as a JSON number. *)
  float_parse : string → option J;
  float_zero : J;
  (** [(s.parse::<f64>()? * 1000.0) as u64]. *)
  float_millis : string → option N;
}.

Section system_info.
Context {W J : Type} `{!MachineFiles W} `{!JsonOps J} `{!FloatText J}.
Implicit Types (w : W).

Definition read_os_version w : string :=
  match mf_read w "/etc/os-release" with
  | None => mf_os
  | Some content =>
      let lines := str_lines content in
      match list_first (strip_prefix "PRETTY_NAME=") lines with
      | Some rest => trim_matches (ascii_of_nat 39) (trim_matches (ascii_of_nat 34) rest)
      | None =>
          match list_first (strip_prefix "NAME=") lines with
          | None => mf_os
          | Some rest =>
              let name := trim_matches (ascii_of_nat 34) rest in
              let version := trim_matches (ascii_of_nat 34)
                               (default "" (list_first (strip_prefix "VERSION=") lines)) in
              if str_is_empty version then name else name +:+ " " +:+ version
          end
      end
  end.

Definition read_kernel_version w : string :=
  match mf_read w "/proc/version" with Some content => str_trim content | None => "unknown" end.

Definition read_hostname w : string :=
  match mf_read w "/proc/sys/kernel/hostname" with
  | Some content => str_trim content
  | None =>
      match mf_read w "/etc/hostname" with
      | Some content => str_trim content
      | None =>
          match mf_env w "COMPUTERNAME" with
          | Some n => n
          | None => default "aether" (mf_env w "HOSTNAME")
          end
      end
  end.

Definition system_info (services_snapshot : option J) w : J :=
  json_obj
    ([("os", json_str mf_os); ("arch", json_str mf_arch);
      ("os_version", json_str (read_os_version w));
      ("kernel_version", json_str (read_kernel_version w));
      ("hostname", json_str (read_hostname w))] ++
     match services_snapshot with Some services => [("services", services)] | None => [] end).

(** The second word of the line as a number. *)
Definition parse_kib (line : string) : N :=
  default 0%N (split_whitespace line !! 1 ≫= parse_unsigned u64_max).

Definition meminfo_line (acc : N * N) (line : string) : N * N :=
  if String.prefix "MemTotal:" line then (parse_kib line, acc.2)
  else if String.prefix "MemAvailable:" line then (acc.1, parse_kib line)
  else acc.

Definition read_meminfo w : N * N :=
  match mf_read w "/proc/meminfo" with
  | None => (0, 0)%N
  | Some content =>
      let '(total, available) := foldl meminfo_line (0, 0)%N (str_lines content) in
      if (0 <? total)%N then (total, available) else (0, 0)%N
  end.

Definition cpu_count w : N :=
  let count := match mf_read w "/proc/cpuinfo" with
               | Some content => N.of_nat (length (List.filter (String.prefix "processor") (str_lines content)))
               | None => 0%N
               end in
  if (0 <? count)%N then count else default 1%N (mf_parallelism w).

Definition read_loadavg w : J :=
  let average parts := json_obj
    [("1m", default float_zero (parts !! 0 ≫= float_parse));
     ("5m", default float_zero (parts !! 1 ≫= float_parse));
     ("15m", default float_zero (parts !! 2 ≫= float_parse))] in
  match mf_read w "/proc/loadavg" with
  | Some content =>
      let parts := split_whitespace content in
      if (3 <=? length parts)%nat then average parts else average []
  | None => average []
  end.

(** The columns of the first line after the header that has four of them. *)
Definition df_columns (out : string) : option (list string) :=
  find_b (λ cols, (4 <=? length cols)%nat) (split_whitespace <$> drop 1 (str_lines out)).

Definition column_u64 (cols : list string) (i : nat) : N :=
  default 0%N (cols !! i ≫= parse_unsigned u64_max).

Definition read_storage_for_path (path : string) w : J :=
  match mf_df w path ≫= df_columns with
  | Some cols => json_obj [("path", json_str path); ("total_bytes", json_num (column_u64 cols 1));
                           ("available_bytes", json_num (column_u64 cols 3))]
  | None => json_obj [("path", json_str path); ("exists", json_bool (mf_exists w path));
                      ("total_bytes", json_num 0); ("available_bytes", json_num 0)]
  end.

Definition system_resources (workspace_root : option string) w : J :=
  let '(mem_total_kib, mem_available_kib) := read_meminfo w in
  let storage :=
    match workspace_root with
    | Some path => read_storage_for_path path w
    | None => json_obj [("total_bytes", json_num 0); ("available_bytes", json_num 0)]
    end in
  json_obj [("cpu_count", json_num (cpu_count w)); ("load_average", read_loadavg w);
            ("memory", json_obj [("total_kib", json_num mem_total_kib);
                                 ("available_kib", json_num mem_available_kib)]);
            ("storage", storage)].

Definition read_uptime_ms w : option N :=
  content ← mf_read w "/proc/uptime"; first ← head (split_whitespace content); float_millis first.

Definition format_human_duration (ms : N) : string :=
  let secs := (ms / 1000)%N in
  let days := (secs / 86400)%N in
  let hours := (secs mod 86400 / 3600)%N in
  let mins := (secs mod 3600 / 60)%N in
  let secs := (secs mod 60)%N in
  if (0 <? days)%N then pretty days +:+ "d " +:+ pretty hours +:+ "h " +:+ pretty mins +:+ "m"
  else if (0 <? hours)%N then pretty hours +:+ "h " +:+ pretty mins +:+ "m " +:+ pretty secs +:+ "s"
  else if (0 <? mins)%N then pretty mins +:+ "m " +:+ pretty secs +:+ "s"
  else pretty secs +:+ "s".

(** [elapsed] is the time since [started_at] in milliseconds, if it was given
    and is not in the future; [now_ms] the time of day, or 0. *)
Definition system_uptime (elapsed : option N) (now_ms : N) w : J :=
  let uptime_ms := match elapsed with
                   | Some d => (d mod 2 ^ 64)%N
                   | None => default 0%N (read_uptime_ms w)
                   end in
  json_obj [("uptime_ms", json_num uptime_ms);
            ("uptime_human", json_str (format_human_duration uptime_ms));
            ("boot_time_ms", json_num (saturating_sub (now_ms mod 2 ^ 64) uptime_ms))].
End system_info.
