(* ===== verification/CoreState.v ===== *)
(** * The state of the system-core daemon

    The first file on system/aether-system-core/src/main.rs: what the daemon
    owns, the monad of its command handlers, the helpers the handlers share and
    the audit line of a dispatched command.

    A handler runs in [Cmd]: it changes the state of the daemon and gives an
    answer, or panics ([None]).  The mutexes of the source are not modelled: one
    thread handles all connections, and a poisoned lock is opened like a sound
    one. *)
From S2P Require Import Prelude RustStd Json Signing UpdateCore TaskGraph HashChain AuditChain.
From S2P Require Import CoreTypes DepGraph Manager Sandbox Policy AgentCore Devices UnixFs Storage.
From S2P Require Import Actions RuntimeLog RuntimeHost Credentials AppManager SystemInfo TaskToAction.
From Stdlib Require Import Ascii.

(** ** What lies outside *)

(** The exchange with the surface server. *)
Inductive SurfaceFailure := SfConnect (e : string) | SfSend (e : string) | SfRecv (e : string).

Class CoreEnv (E : Type) := {
  (** The time of day in milliseconds. *)
  env_unix_ms : E → N * E;
  (** The monotonic clock in milliseconds. *)
  env_instant : E → N;
  (** The time since the daemon started, if the clock was not set back. *)
  env_elapsed : E → option N;
  env_surface : N → string → E → result string SurfaceFailure * E;
  (** The names in /proc; [None] for one that is not text. *)
  env_proc_dir : E → option (list (option string));
  (** Whether a file cannot be written for lack of space. *)
  env_no_space : E → filesystem → path → bool;
  (** The order in which the names of a directory are listed. *)
  env_dir_names : E → filesystem → path → list string;
}.

(** The derived serializers and deserializers. *)
Class CoreJson (J : Type) := {
  (** [as_object_mut] and [insert]: what is not an object stays as it is. *)
  json_insert : J → string → J → J;
  status_to_value : CoreTypes.SystemStatus → result J string;
  report_json : AppStateReport → J;
  instance_json : Instance_ → J;
  file_metas_json : list FileMeta → J;
  sandbox_plan_to_value : SandboxPlan → result J string;
  update_plan_to_value : Plan.UpdatePlan → result J string;
  update_kind_json : UpdateKind → J;
  trust_json : ActorTrust → J;
  proposal_to_value : Proposal J → result J string;
  task_to_value : AgentTask J → result J string;
  observation_to_value : AgentCore.Observation J → result J string;
  device_to_value : RegisteredDevice → result J string;
  action_to_value : Action → result J string;
  header_from_value : J → result UpdateHeader string;
  proposal_from_value : J → result (Proposal J) string;
  observation_from_value : J → result (AgentCore.Observation J) string;
  grant_from_value : J → result PairingGrant string;
  pairing_request_from_value : J → result PairingRequest string;
  acceptance_from_value : J → result PairingAcceptance string;
  ipc_request_from_str : string → result (IpcRequest J) string;
}.

(** ** The state *)

Record Core {E J : Type} := mkCore {
  co_manager : ServiceManager;
  co_apps : ApplicationManager;
  co_files : WorkspaceConfig;
  co_fs : filesystem;
  co_audit : AuditChain;
  co_credentials : SealedStore StaticKeyProvider;
  co_trust_store : option Manifest.TrustStore;
  co_update_status : State.UpdateStatus;
  co_version_policy : Version.VersionPolicy;
  co_agent : AgentStatus J;
  co_devices : DeviceRegistry;
  co_env : E;
}.
Arguments Core E J : clear implicits.
Arguments mkCore {E J}.

Section updates.
Context {E J : Type}.
Implicit Types (c : Core E J).

Definition set_manager (x : ServiceManager) c : Core E J :=
  mkCore x (co_apps c) (co_files c) (co_fs c) (co_audit c) (co_credentials c) (co_trust_store c)
    (co_update_status c) (co_version_policy c) (co_agent c) (co_devices c) (co_env c).
Definition set_apps (x : ApplicationManager) (e : E) c : Core E J :=
  mkCore (co_manager c) x (co_files c) (co_fs c) (co_audit c) (co_credentials c) (co_trust_store c)
    (co_update_status c) (co_version_policy c) (co_agent c) (co_devices c) e.
Definition set_fs (x : filesystem) c : Core E J :=
  mkCore (co_manager c) (co_apps c) (co_files c) x (co_audit c) (co_credentials c) (co_trust_store c)
    (co_update_status c) (co_version_policy c) (co_agent c) (co_devices c) (co_env c).
Definition set_audit (x : AuditChain) c : Core E J :=
  mkCore (co_manager c) (co_apps c) (co_files c) (co_fs c) x (co_credentials c) (co_trust_store c)
    (co_update_status c) (co_version_policy c) (co_agent c) (co_devices c) (co_env c).
Definition set_credentials (x : SealedStore StaticKeyProvider) (e : E) c : Core E J :=
  mkCore (co_manager c) (co_apps c) (co_files c) (co_fs c) (co_audit c) x (co_trust_store c)
    (co_update_status c) (co_version_policy c) (co_agent c) (co_devices c) e.
Definition set_update_status (x : State.UpdateStatus) c : Core E J :=
  mkCore (co_manager c) (co_apps c) (co_files c) (co_fs c) (co_audit c) (co_credentials c)
    (co_trust_store c) x (co_version_policy c) (co_agent c) (co_devices c) (co_env c).
Definition set_agent (x : AgentStatus J) c : Core E J :=
  mkCore (co_manager c) (co_apps c) (co_files c) (co_fs c) (co_audit c) (co_credentials c)
    (co_trust_store c) (co_update_status c) (co_version_policy c) x (co_devices c) (co_env c).
Definition set_devices (x : DeviceRegistry) c : Core E J :=
  mkCore (co_manager c) (co_apps c) (co_files c) (co_fs c) (co_audit c) (co_credentials c)
    (co_trust_store c) (co_update_status c) (co_version_policy c) (co_agent c) x (co_env c).
Definition set_env (e : E) c : Core E J :=
  mkCore (co_manager c) (co_apps c) (co_files c) (co_fs c) (co_audit c) (co_credentials c)
    (co_trust_store c) (co_update_status c) (co_version_policy c) (co_agent c) (co_devices c) e.
End updates.

(** ** The monad of the handlers *)

Definition Cmd (E J A : Type) : Type := Core E J → Core E J * option A.

#[export] Instance Cmd_ret {E J} : MRet (Cmd E J) := λ A a c, (c, Some a).
#[export] Instance Cmd_bind {E J} : MBind (Cmd E J) := λ A B f m c,
  let '(c, o) := m c in match o with Some a => f a c | None => (c, None) end.

(** [let Some(x) = o else { return r }] and its form for a [Result]. *)
Notation "'require' x := o 'else' r 'in' k" :=
  (match o with Some x => k | None => mret r end)
  (at level 10, x name, o at level 200, r at level 200, k at level 200) : rust_scope.
Notation "'require?' x := o 'else' e '=>' r 'in' k" :=
  (match o with Ok x => k | Err e => mret r end)
  (at level 10, x name, e name, o at level 200, r at level 200, k at level 200) : rust_scope.

Section monad.
Context {E J : Type} `{!CoreEnv E}.

Definition state : Cmd E J (Core E J) := λ c, (c, Some c).
Definition update (f : Core E J → Core E J) : Cmd E J unit := λ c, (f c, Some tt).
Definition panics {A} : Cmd E J A := λ c, (c, None).

(** [unix_ms().min(u64::MAX)]. *)
Definition unix_ms : Cmd E J N := λ c,
  let '(t, e) := env_unix_ms (co_env c) in (set_env e c, Some (N.min t u64_max)).
End monad.

(** ** Helpers of main.rs *)

(** The in-process executor.  Its counter starts at 0 for every request, and
    the clock is read once. *)
Record LocalExecutor := mkLocalExecutor { le_next_pid : N; le_instant : N }.

#[export] Instance local_executor : ServiceExecutor LocalExecutor := {|
  executor_start id x :=
    let pid := (le_next_pid x + 1000)%N in
    (mkLocalExecutor (le_next_pid x + 1) (le_instant x),
     Ok (mkServiceHandle id (if (pid <=? u32_max)%N then pid else u32_max)));
  executor_stop _ x := (x, Ok tt);
  executor_health _ x := (x, Ok Healthy);
  executor_now x := le_instant x;
|}.

Section helpers.
Context {E J : Type} `{!CoreEnv E} `{!JsonOps J} `{!JsonParse J} `{!CoreJson J} `{!MachineFiles E}
  {D : Digest}.

Definition err (command code message : string) : IpcResponse J :=
  IpcResponse_err json_null command (mkIpcError code message).
Definition ok (command : string) (result : J) : IpcResponse J := IpcResponse_ok command result.

Definition new_executor (c : Core E J) : LocalExecutor := mkLocalExecutor 0 (env_instant (co_env c)).

Definition audit_entry_to_json (e : AuditEntry) : J :=
  json_obj [("index", json_num (ae_index e)); ("timestamp_ms", json_num (ae_timestamp_ms e));
            ("event", json_str (ae_event e)); ("component", json_str (ae_component e));
            ("detail", json_str (ae_detail e)); ("prev_hash", json_str (hex_of_bytes (ae_prev_hash e)));
            ("content_hash", json_str (hex_of_bytes (ae_content_hash e)))].

Definition chain_status_to_json (s : ChainStatus) : J :=
  let fault kind index :=
    json_obj [("ok", json_bool false); ("kind", json_str kind); ("index", json_num index)] in
  match s with
  | ChainOk => json_obj [("ok", json_bool true)]
  | ContentMismatch index => fault "content_mismatch" index
  | BrokenLink index => fault "broken_link" index
  | IndexGap index => fault "index_gap" index
  end.

Definition credential_error_response (command : string) (e : CredentialError) : IpcResponse J :=
  let code := match e with
              | CeNotFound => "NOT_FOUND"
              | CeAuthenticationFailed => "AUTHENTICATION_FAILED"
              | CeAlreadyExists _ => "ALREADY_EXISTS"
              | CeMalformed => "MALFORMED"
              end in
  err command code (CredentialError_to_string e).


(** The pairs of digits of [decode_hex_32]. *)
Fixpoint hex_pairs (s : string) : option (list byte) :=
  match s with
  | String a (String b s) =>
      hi ← hex_digit a; lo ← hex_digit b; rest ← hex_pairs s;
      Some (byte_of_N (hi * 16 + lo) :: rest)
  | _ => Some []
  end.

Definition decode_hex_32 (s : string) : option (list byte) :=
  if negb (String.length s =? 64)%nat then None else hex_pairs s.

(** The loop of [base64_decode] that drops the padding and maps the URL-safe
    alphabet to the standard one. *)
Fixpoint normalise_b64 (s : string) : string :=
  match s with
  | EmptyString => EmptyString
  | String ch s =>
      if Ascii.eqb ch "-" then String "+" (normalise_b64 s)
      else if Ascii.eqb ch "_" then String "/" (normalise_b64 s)
      else if Ascii.eqb ch "=" then normalise_b64 s
      else String ch (normalise_b64 s)
  end.

Definition b64_value (ch : ascii) : option N :=
  let n := N_of_ascii ch in
  if ((65 <=? n) && (n <=? 90))%N then Some (n - 65)%N
  else if ((97 <=? n) && (n <=? 122))%N then Some (n - 97 + 26)%N
  else if is_ascii_digit ch then Some (n - 48 + 52)%N
  else if Ascii.eqb ch "+" then Some 62%N
  else if Ascii.eqb ch "/" then Some 63%N
  else None.

(** The decoding loop: [buf] is a [u32] that is shifted and [bits] what is left
    in it.  The padding that is added back ends the loop. *)
Fixpoint b64_loop (s : string) (buf bits : N) : option (list byte) :=
  match s with
  | EmptyString => Some []
  | String ch s =>
      v ← b64_value ch;
      let buf := N.lor (N.shiftl buf 6 mod 2 ^ 32) v in
      let bits := (bits + 6)%N in
      if (8 <=? bits)%N then
        rest ← b64_loop s buf (bits - 8);
        Some (byte_of_N (N.land (N.shiftr buf (bits - 8)) 255) :: rest)
      else b64_loop s buf bits
  end.

Definition core_base64_decode (s : string) : option (list byte) :=
  let normalised := normalise_b64 s in
  if (String.length normalised mod 4 =? 1)%nat then None else b64_loop normalised 0 0.

Definition plan_error_message (e : Plan.UpdatePlanError) : string := Plan.UpdatePlanError_display e.
Definition update_action_str (a : UpdateAction) : string := UpdateAction_as_str a.

(** [load_trust_store] on the text of the file; the lines are counted from 1. *)
Fixpoint load_trust_lines (path : string) (idx : N) (lines : list string) (s : Manifest.TrustStore) :
    result Manifest.TrustStore string :=
  match lines with
  | [] => Ok s
  | raw :: lines =>
      let line := str_trim (default "" (head (str_split "#" raw))) in
      if str_is_empty line then load_trust_lines path (idx + 1) lines s
      else match Fingerprint_from_hex line with
           | None => Err ("trust store " +:+ path +:+ ":" +:+ pretty idx +:+
                          ": not a valid 32-character hex fingerprint: " +:+ line)
           | Some fp => load_trust_lines path (idx + 1) lines (Manifest.TrustStore_trust fp s).1
           end
  end.

(** The error of the read is an argument. *)
Definition load_trust_store (path : string) (text : result string string) :
    result Manifest.TrustStore string :=
  match text with
  | Err e => Err ("cannot read trust store file " +:+ path +:+ ": " +:+ e)
  | Ok text => load_trust_lines path 1 (str_lines text) Manifest.TrustStore_new
  end.

(** ** The audit line of a command *)

Definition record_audit (capability : string) (args : J) (component : string) (success : bool) :
    Cmd E J unit :=
  let result := if success then "success" else "failure" in
  let detail := "args=" +:+ json_to_string args +:+ " result=" +:+ result in
  t ← unix_ms;
  c ← state;
  match AuditChain_record t "ipc.dispatch" component ("capability=" +:+ capability +:+ " " +:+ detail)
          (co_audit c) with
  | None => panics
  | Some (chain, _) => update (set_audit chain)
  end.

(** ** The surface server *)

Definition surface_port (e : E) : N :=
  default 4750%N (mf_env e "AETHER_SURFACE_PORT" ≫= parse_unsigned u16_max).

Definition surface_call (request : J) : Cmd E J (result J string) :=
  c ← state;
  let port := surface_port (co_env c) in
  let '(r, e) := env_surface port (json_to_string request +:+ newline) (co_env c) in
  _ ← update (set_env e);
  mret match r with
       | Err (SfConnect e) => Err ("surface :" +:+ pretty port +:+ " " +:+ e)
       | Err (SfSend e) => Err ("send " +:+ e)
       | Err (SfRecv e) => Err ("recv " +:+ e)
       | Ok line =>
           if str_is_empty (str_trim line) then Err "empty surface response"
           else match json_from_str (str_trim line) with
                | Err e => Err ("decode " +:+ e)
                | Ok v =>
                    if default false (json_as_bool (json_index v "ok")) then Ok v
                    else Err (default "surface error" (json_as_str (json_index v "error")))
                end
       end.
End helpers.
