(* ===== verification/CoreCommands.v ===== *)
(** * Services, applications, windows, files and reports

    The command handlers of system/aether-system-core/src/main.rs that concern
    services, applications, windows, the workspace and the machine: one
    definition for each arm of the match of [dispatch_inner]. *)
From S2P Require Import Prelude RustStd Json Signing UpdateCore TaskGraph HashChain AuditChain.
From S2P Require Import CoreTypes DepGraph Manager Sandbox Policy AgentCore Devices UnixFs Storage.
From S2P Require Import Actions RuntimeLog RuntimeHost Credentials AppManager SystemInfo TaskToAction.
From S2P Require Import CoreState.
From Stdlib Require Import Ascii.

Section commands.
Context {E J : Type} `{!CoreEnv E} `{!JsonOps J} `{!JsonParse J} `{!CoreJson J} `{!MachineFiles E}
  `{!FloatText J} `{!Processes E}.
Implicit Types (req : IpcRequest J) (c : Core E J).

Definition param req (key : string) : option J := json_get (req_parameters req) key.
Definition param_str req (key : string) : option string := param req key ≫= json_as_str.
Definition param_u64 req (key : string) : option N := param req key ≫= json_as_u64.
Definition param_bool req (key : string) : option bool := param req key ≫= json_as_bool.

Definition result_ok {A Err} (r : result A Err) : option A :=
  match r with Ok a => Some a | Err _ => None end.

(** ** Services *)

Definition current_status c : CoreTypes.SystemStatus :=
  system_status (co_manager c) (new_executor c).

Definition app_stats : Cmd E J (nat * nat * nat) := λ c,
  let '(m, e, r) := stats (co_apps c) (co_env c) in (set_apps m e c, Some r).

Definition cmd_status req : Cmd E J (IpcResponse J) :=
  c ← state;
  require? value := status_to_value (current_status c) else e =>
    err (req_command req) "INTERNAL" e in
  '(installed, running, failed) ← app_stats;
  mret (ok (req_command req)
    (json_insert value "applications"
       (json_obj [("installed", json_num (N.of_nat installed)); ("running", json_num (N.of_nat running));
                  ("failed", json_num (N.of_nat failed))]))).

(** [running] of a dependency, read off the status report. *)
Definition reported_running (s : ServiceManager) (x : LocalExecutor) (id : string) : bool :=
  existsb (λ h, String.eqb (sh_service_id h) id && bool_decide (sh_status h = CoreTypes.SsRunning))
    (sys_services (system_status s x)).

(** The dependencies that are not running are started; their errors are
    dropped. *)
Fixpoint start_missing (deps : list string) (s : ServiceManager) (x : LocalExecutor) :
    ServiceManager * LocalExecutor :=
  match deps with
  | [] => (s, x)
  | d :: deps =>
      if reported_running s x d then start_missing deps s x
      else let '((s, x), _) := start_one d s x in start_missing deps s x
  end.

Definition service_state (id state : string) : J :=
  json_obj [("service", json_str id); ("state", json_str state)].

Definition cmd_service req : Cmd E J (IpcResponse J) :=
  let command := req_command req in
  require id := param_str req "service" else
    err command "INVALID_INPUT" "parameter 'service' is required" in
  c ← state;
  let s := co_manager c in
  match dg_manifest (sm_graph s) id with
  | None => mret (err command "NOT_FOUND" ("unknown service '" +:+ id +:+ "'"))
  | Some m =>
      let x := new_executor c in
      if (command =? "start")%string || (command =? "restart")%string then
        let '(s, x) := start_missing (dependencies m) s x in
        let '((s, _), r) := restart_one id s x in
        _ ← update (set_manager s);
        mret match r with
             | Ok _ => ok command (service_state id "RUNNING")
             | Err e => IpcResponse_err json_null command (IpcError_from e)
             end
      else
        let '((s, _), r) := stop_one id s x in
        _ ← update (set_manager s);
        mret match r with
             | Ok _ => ok command (service_state id "STOPPED")
             | Err e => IpcResponse_err json_null command (IpcError_from e)
             end
  end.

Definition cmd_sandbox_plan req : Cmd E J (IpcResponse J) :=
  c ← state;
  let plan_val plan := default (json_obj []) (result_ok (sandbox_plan_to_value plan)) in
  match param_str req "service" with
  | Some id =>
      match sandbox_plan (co_manager c) id with
      | Some plan => mret (ok "sandbox.plan" (json_obj [("service", json_str id); ("plan", plan_val plan)]))
      | None => mret (err "sandbox.plan" "NOT_FOUND" ("unknown service '" +:+ id +:+ "'"))
      end
  | None =>
      let plans := (λ x, json_obj [("service", json_str x.1); ("plan", plan_val x.2)])
                   <$> all_sandbox_plans (co_manager c) in
      mret (ok "sandbox.plan" (json_obj [("plans", json_arr plans)]))
  end.

(** ** Applications *)

Definition app_state_of (id : string) : Cmd E J AppStateReport := λ c,
  let '(m, e, r) := app_state id (co_apps c) (co_env c) in (set_apps m e c, Some r).
Definition app_running : Cmd E J (list Instance_) := λ c,
  let '(m, e, r) := running (co_apps c) (co_env c) in (set_apps m e c, Some r).
Definition app_close (id : N) : Cmd E J (result Instance_ AppManagerError) := λ c,
  let '(m, e, r) := close_app id (co_apps c) (co_env c) in (set_apps m e c, Some r).
Definition app_launch (id : string) : Cmd E J (result Instance_ AppManagerError) := λ c,
  match launch_app id (co_apps c) (co_env c) with
  | None => (c, None)
  | Some (m, e, r) => (set_apps m e c, Some r)
  end.

Definition app_required (command : string) : IpcResponse J :=
  err command "INVALID_INPUT" "parameter 'app' is required".

Definition cmd_app_status req : Cmd E J (IpcResponse J) :=
  require id := param_str req "app" else app_required "app.status" in
  report ← app_state_of id;
  mret (ok "app.status" (json_obj [("report", report_json report)])).

Definition cmd_app_list req : Cmd E J (IpcResponse J) :=
  c ← state;
  let entry d := json_obj [("id", json_str (ad_id d)); ("name", json_str (ad_display_name d));
                           ("version", json_str (ad_version d));
                           ("type", json_str (AppType_to_string (ad_app_type d)));
                           ("permissions", json_arr (json_str <$> ad_permissions d))] in
  mret (ok "app.list" (json_obj [("apps", json_arr (entry <$> discover (co_apps c)))])).

Definition cmd_app_launch req : Cmd E J (IpcResponse J) :=
  require id := param_str req "app" else app_required "app.launch" in
  r ← app_launch id;
  mret match r with
       | Ok instance =>
           ok "app.launch" (json_obj [("app", json_str id); ("instance", instance_json instance)])
       | Err e => err "app.launch" "APP_ERROR" (AppManagerError_to_string e)
       end.

Definition closed_reply (r : result Instance_ AppManagerError) : IpcResponse J :=
  match r with
  | Ok closed => ok "app.close" (json_obj [("closed", instance_json closed)])
  | Err e => err "app.close" "APP_ERROR" (AppManagerError_to_string e)
  end.

Definition cmd_app_close req : Cmd E J (IpcResponse J) :=
  match param_str req "app" with
  | Some id =>
      l ← app_running;
      require i := find_b (λ i, String.eqb (in_app_id i) id) l else
        err "app.close" "NOT_RUNNING" ("'" +:+ id +:+ "' has no running instance") in
      r ← app_close (in_instance_id i); mret (closed_reply r)
  | None =>
      require i := param_u64 req "instance" else
        err "app.close" "INVALID_INPUT" "'app' or numeric 'instance' is required" in
      r ← app_close i; mret (closed_reply r)
  end.

(** ** The context *)

(** The states of the applications, in the order they are asked for. *)
Fixpoint app_states (ids : list string) : Cmd E J (list (string * string)) :=
  match ids with
  | [] => mret []
  | id :: ids => r ← app_state_of id; rest ← app_states ids; mret ((id, asr_state r) :: rest)
  end.

Definition str_or (d : string) (j : J) : string := default d (json_as_str j).

Definition window_is_focused (w : J) : bool := default false (json_as_bool (json_index w "focused")).
Definition window_title (w : J) : string := str_or "?" (json_index w "title").
Definition window_state (w : J) : string := str_or "normal" (json_index w "state").

Definition window_json (w : J) : J :=
  json_obj [("id", json_index w "id"); ("app", json_index w "app"); ("title", json_str (window_title w));
            ("state", json_str (window_state w)); ("focused", json_bool (window_is_focused w))].

(** [running_apps] joined with the applications of the windows. *)
Definition add_app (apps : list string) (w : J) : list string :=
  match json_as_str (json_index w "app") with
  | Some app => if bool_decide (app ∈ apps) then apps else apps ++ [app]
  | None => apps
  end.

Definition list_windows : J := json_obj [("op", json_str "window.list")].

Definition build_context_snapshot : Cmd E J J :=
  c ← state;
  let status := default (json_obj []) (result_ok (status_to_value (current_status c))) in
  let installed := ad_id <$> discover (co_apps c) in
  states ← app_states installed;
  r ← surface_call list_windows;
  let windows := default [] (match r with Ok v => json_as_array (json_index v "windows") | Err _ => None end) in
  let focused := last (List.filter window_is_focused windows) in
  let minimized := List.filter (λ w, (window_state w =? "minimized")%string) windows in
  let shown := window_json <$> windows in
  let running := foldl add_app
    (fst <$> List.filter (λ x, (x.2 =? "RUNNING")%string) states) shown in
  mret (json_obj
    [("active_window", from_option (λ w, json_str (window_title w)) json_null focused);
     ("focused_window_id",
      from_option json_num json_null (focused ≫= λ w, json_as_u64 (json_index w "id")));
     ("windows", json_arr shown);
     ("minimized_windows", json_arr ((λ w, json_str (window_title w)) <$> minimized));
     ("running_apps", json_arr (json_str <$> running));
     ("installed_apps", json_arr (json_str <$> installed));
     ("app_states", json_obj ((λ x, (x.1, json_str x.2)) <$> states));
     ("overall_health", json_str (str_or "UNKNOWN" (json_index status "overall_health")));
     ("services", json_index status "services")]).

Definition cmd_context_get req : Cmd E J (IpcResponse J) :=
  ctx ← build_context_snapshot; mret (ok "context.get" ctx).

(** ** Windows *)

Definition cmd_window_list req : Cmd E J (IpcResponse J) :=
  r ← surface_call list_windows;
  mret match r with
       | Ok v => ok "window.list" v
       | Err e => err "window.list" "SURFACE_UNAVAILABLE" e
       end.

Definition window_matches (app : string) (w : J) : bool :=
  let name := to_ascii_lowercase app in
  String.eqb (to_ascii_lowercase (str_or "" (json_index w "app"))) name
  || String.eqb (to_ascii_lowercase (str_or "" (json_index w "title"))) name.

(** The id of the first window of the application; the search ends there even
    when it has none. *)
Definition window_of_app (app : string) (windows : list J) : option N :=
  find_b (window_matches app) windows ≫= λ w, json_as_u64 (json_index w "id").

Definition window_op (op : string) (id : N) : J :=
  json_obj [("op", json_str op); ("window_id", json_num id)].

Definition surface_reply (command : string) (payload : J) : Cmd E J (IpcResponse J) :=
  r ← surface_call payload;
  mret match r with Ok v => ok command v | Err e => err command "SURFACE_ERROR" e end.

Definition no_window (command app : string) : IpcResponse J :=
  err command "NOT_FOUND" ("no window for '" +:+ app +:+ "'").
Definition no_surface (command : string) : IpcResponse J :=
  err command "SURFACE_UNAVAILABLE" "surface unavailable".
Definition no_target (command : string) : IpcResponse J :=
  err command "INVALID_INPUT" "'app' or 'window_id' required".

Definition cmd_window_focus req : Cmd E J (IpcResponse J) :=
  let command := "window.focus" in
  match param_u64 req "window_id" with
  | Some id => surface_reply command (window_op "window.focus" id)
  | None =>
      require app := param_str req "app" else no_target command in
      r ← surface_call list_windows;
      require? v := r else _e => no_surface command in
      require windows := json_as_array (json_index v "windows") else
        err command "INTERNAL" "bad window.list shape" in
      require id := window_of_app app windows else no_window command app in
      surface_reply command (window_op "window.focus" id)
  end.

(** Looking the window up by its application, where a list of another shape
    counts as empty. *)
Definition window_by_app (command op app : string) : Cmd E J (IpcResponse J) :=
  r ← surface_call list_windows;
  require? v := r else _e => no_surface command in
  let windows := default [] (json_as_array (json_index v "windows")) in
  require id := window_of_app app windows else no_window command app in
  surface_reply command (window_op op id).

Definition cmd_window_minimize req : Cmd E J (IpcResponse J) :=
  match param_u64 req "window_id" with
  | Some id => surface_reply "window.minimize" (window_op "window.minimize" id)
  | None =>
      require app := param_str req "app" else no_target "window.minimize" in
      window_by_app "window.minimize" "window.minimize" app
  end.

Definition cmd_window_maximize req : Cmd E J (IpcResponse J) :=
  match param_u64 req "window_id" with
  | Some id => surface_reply "window.maximize" (window_op "window.maximize" id)
  | None =>
      require app := param_str req "app" else no_target "window.maximize" in
      window_by_app "window.maximize" "window.maximize" app
  end.

Definition cmd_window_close req : Cmd E J (IpcResponse J) :=
  match param_u64 req "window_id" with
  | Some id => surface_reply "window.close" (window_op "window.close" id)
  | None =>
      require app := param_str req "app" else no_target "window.close" in
      surface_reply "window.close" (json_obj [("op", json_str "window.close"); ("app_id", json_str app)])
  end.

Definition cmd_window_restore req : Cmd E J (IpcResponse J) :=
  match param_u64 req "window_id" with
  | Some id => surface_reply "window.restore" (window_op "window.focus" id)
  | None => window_by_app "window.restore" "window.focus" (default "" (param_str req "app"))
  end.

(** ** Files *)

Definition file_err (command : string) (e : AetherError) : IpcResponse J :=
  err command (ErrorKind_display (err_code e)) (err_message e).

Definition already_exists (e : AetherError) : bool :=
  bool_decide (err_code e = EkInvalidInput) && str_contains_from "already exists" (err_message e).

Definition text_param req (key : string) : string := default "" (param_str req key).

Definition cmd_file_list req : Cmd E J (IpcResponse J) :=
  let path := text_param req "path" in
  c ← state;
  mret match FileManager_list (co_files c) (env_dir_names (co_env c)) (co_fs c) path with
       | Ok entries => ok "file.list" (json_obj [("path", json_str path); ("files", file_metas_json entries)])
       | Err e => file_err "file.list" e
       end.

Definition cmd_file_search req : Cmd E J (IpcResponse J) :=
  let query := text_param req "query" in
  c ← state;
  mret match FileManager_search (co_files c) (env_dir_names (co_env c)) (co_fs c) query with
       | Ok l => ok "file.search" (json_obj [("query", json_str query); ("results", file_metas_json l)])
       | Err e => file_err "file.search" e
       end.

Definition cmd_file_read req : Cmd E J (IpcResponse J) :=
  let path := text_param req "path" in
  c ← state;
  mret match FileManager_read (co_files c) (co_fs c) path with
       | Ok content =>
           ok "file.read" (json_obj [("path", json_str path); ("content", json_str content);
                                     ("size", json_num (N.of_nat (String.length content)))])
       | Err e => file_err "file.read" e
       end.

Definition written (rel : string) (bytes : N) : J :=
  json_obj [("path", json_str rel); ("bytes_written", json_num bytes)].

Definition cmd_file_create req : Cmd E J (IpcResponse J) :=
  let path := text_param req "path" in
  c ← state;
  let '(fs, r) := FileManager_create (co_files c) (env_no_space (co_env c)) path
                    (text_param req "content") (co_fs c) in
  _ ← update (set_fs fs);
  mret match r with
       | Ok (rel, bytes) => ok "file.create" (written rel bytes)
       | Err e =>
           if already_exists e
           then err "file.create" "REQUIRES_CONFIRMATION"
                  (path +:+ " already exists; overwrite requires confirmation")
           else file_err "file.create" e
       end.

Definition cmd_file_write req : Cmd E J (IpcResponse J) :=
  c ← state;
  let '(fs, r) := FileManager_write (co_files c) (env_no_space (co_env c)) (text_param req "path")
                    (text_param req "content") (co_fs c) in
  _ ← update (set_fs fs);
  mret match r with
       | Ok (rel, bytes) => ok "file.write" (written rel bytes)
       | Err e => file_err "file.write" e
       end.

Definition moved (command from : string) (r : result string AetherError) : IpcResponse J :=
  match r with
  | Ok rel => ok command (json_obj [("from", json_str from); ("to", json_str rel)])
  | Err e =>
      if already_exists e then err command "REQUIRES_CONFIRMATION" (err_message e)
      else file_err command e
  end.

Definition cmd_file_rename req : Cmd E J (IpcResponse J) :=
  let from := text_param req "from" in
  c ← state;
  let '(fs, r) := FileManager_rename (co_files c) from (text_param req "to") (co_fs c) in
  _ ← update (set_fs fs); mret (moved "file.rename" from r).

Definition cmd_file_move req : Cmd E J (IpcResponse J) :=
  let from := text_param req "from" in
  c ← state;
  let '(fs, r) := FileManager_move_file (co_files c) from (text_param req "to") (co_fs c) in
  _ ← update (set_fs fs); mret (moved "file.move" from r).

Definition cmd_file_delete req : Cmd E J (IpcResponse J) :=
  mret (err "file.delete" "REQUIRES_CONFIRMATION" "delete requires explicit user confirmation").

(** ** The machine *)

Definition cmd_system_info req : Cmd E J (IpcResponse J) :=
  c ← state;
  let services := result_ok (status_to_value (current_status c)) ≫= λ v, json_get v "services" in
  mret (ok "system.info" (system_info services (co_env c))).

Definition workspace_root c : string := display (wc_root (co_files c)).

Definition cmd_system_resources req : Cmd E J (IpcResponse J) :=
  c ← state;
  mret (ok "system.resources" (system_resources (Some (workspace_root c)) (co_env c))).

Definition cmd_system_uptime req : Cmd E J (IpcResponse J) :=
  c ← state;
  let '(t, e) := env_unix_ms (co_env c) in
  _ ← update (set_env e);
  mret (ok "system.uptime" (system_uptime (env_elapsed (co_env c)) t (co_env c))).

Definition cmd_storage_status req : Cmd E J (IpcResponse J) :=
  c ← state;
  let root := workspace_root c in
  let count := match node_at (co_fs c) (wc_root (co_files c)) with
               | Some NDir => length (env_dir_names (co_env c) (co_fs c) (wc_root (co_files c)))
               | _ => 0
               end in
  mret (ok "storage.status"
    (json_obj [("workspace_root", json_str root);
               ("sandboxed", json_bool (str_contains_from "/workspace" root || str_contains_from "workspace" root));
               ("entry_count", json_num (N.of_nat count)); ("status", json_str "HEALTHY")])).

Definition comm_of (e : E) (pid : N) : string :=
  str_trim (default "" (mf_read e ("/proc/" +:+ pretty pid +:+ "/comm"))).

Definition proc_pid (name : option string) : option N := name ≫= parse_u32.

Definition cmd_process_list req : Cmd E J (IpcResponse J) :=
  c ← state;
  let entries := take 256 (default [] (env_proc_dir (co_env c))) in
  let process pid := json_obj [("pid", json_num pid); ("comm", json_str (comm_of (co_env c) pid))] in
  mret (ok "process.list" (json_obj [("processes", json_arr (process <$> omap proc_pid entries))])).

(** The process with the given name. *)
Definition pid_by_name (e : E) (name : string) : option N :=
  list_first (λ n, pid ← proc_pid n; if String.eqb (comm_of e pid) name then Some pid else None)
    (default [] (env_proc_dir e)).

Definition pid_param req (e : E) : option N :=
  match param_u64 req "pid" ≫= λ p, if (p <=? u32_max)%N then Some p else None with
  | Some p => Some p
  | None => param_str req "name" ≫= pid_by_name e
  end.

Definition shown_fields : list string :=
  ["Name"; "State"; "Pid"; "PPid"; "Uid"; "Gid"; "VmRSS"; "VmSize"].

Definition status_field (data : J) (line : string) : J :=
  match split_once ":"%char line with
  | Some (k, v) =>
      if bool_decide (str_trim k ∈ shown_fields)
      then json_insert data (str_trim k) (json_str (str_trim v)) else data
  | None => data
  end.

Definition cmd_process_inspect req : Cmd E J (IpcResponse J) :=
  c ← state;
  require pid := pid_param req (co_env c) else err "process.inspect" "NOT_FOUND" "no such process" in
  let text := default "" (mf_read (co_env c) ("/proc/" +:+ pretty pid +:+ "/status")) in
  mret (ok "process.inspect"
    (foldl status_field (json_obj [("pid", json_num pid)]) (str_lines text))).

Definition cmd_shutdown req : Cmd E J (IpcResponse J) :=
  mret (ok "shutdown" (json_obj [("state", json_str "SHUTTING_DOWN")])).
End commands.
