(* ===== verification/CoreSecurity.v ===== *)
(** * Audit, credentials and updates

    The command handlers of system/aether-system-core/src/main.rs for the audit
    chain, the trust store, sealed credentials and signed updates. *)
From S2P Require Import Prelude RustStd Json Signing UpdateCore TaskGraph HashChain AuditChain.
From S2P Require Import CoreTypes DepGraph Manager Sandbox Policy AgentCore Devices UnixFs Storage.
From S2P Require Import Actions RuntimeLog RuntimeHost Credentials AppManager SystemInfo TaskToAction.
From S2P Require Import CoreState CoreCommands.
From Stdlib Require Import Ascii.

(** The text of the error for a key that is no point of the curve. *)
Class KeyErrorText := { key_error_text : list byte → string }.

Section security.
Context {E J : Type} `{!CoreEnv E} `{!JsonOps J} `{!CoreJson J} `{!Rng E} `{!Aead} {D : Digest}
  {Cr : Crypto} `{!KeyErrorText}.
Implicit Types (req : IpcRequest J) (c : Core E J).

(** ** The audit chain *)

Definition cmd_audit_recent req : Cmd E J (IpcResponse J) :=
  c ← state;
  let n := N.to_nat (default 64%N (param_u64 req "n")) in
  let entries := audit_entry_to_json <$> AuditChain_recent n (co_audit c) in
  mret (ok "audit.recent"
    (json_obj [("total", json_num (N.of_nat (length (ac_entries (co_audit c)))));
               ("returned", json_num (N.of_nat (length entries))); ("entries", json_arr entries)])).

Definition cmd_audit_verify req : Cmd E J (IpcResponse J) :=
  c ← state;
  mret (ok "audit.verify"
    match AuditChain_verify_chain (co_audit c) with
    | Ok _ => json_obj [("ok", json_bool true);
                        ("entries", json_num (N.of_nat (length (ac_entries (co_audit c)))))]
    | Err s => chain_status_to_json s
    end).

Definition cmd_audit_prune req : Cmd E J (IpcResponse J) :=
  now_ms ← match param_u64 req "now_ms" with Some t => mret t | None => unix_ms end;
  c ← state;
  let '(chain, dropped) := AuditChain_prune_older_than now_ms (co_audit c) in
  _ ← update (set_audit chain);
  mret (ok "audit.prune"
    (json_obj [("now_ms", json_num now_ms); ("dropped", json_num (N.of_nat dropped));
               ("remaining", json_num (N.of_nat (length (ac_entries chain))))])).

Definition cmd_trust_store req : Cmd E J (IpcResponse J) :=
  c ← state;
  let reply enabled count fps :=
    ok "manifest.trust_store"
      (json_obj [("enabled", json_bool enabled); ("count", json_num (N.of_nat count));
                 ("fingerprints", json_arr fps)]) in
  mret match co_trust_store c with
       | Some store =>
           reply true (Manifest.TrustStore_len store)
             ((λ f, json_str (Fingerprint_as_hex f)) <$> Manifest.TrustStore_fingerprints store)
       | None => reply false 0 []
       end.

(** ** Credentials *)

Definition seal_at (t : N) (name plaintext : string) (label : option string) (force : bool) :
    Cmd E J (result Credential CredentialError) := λ c,
  let '(s, e, r) := seal t name plaintext label force (co_credentials c) (co_env c) in
  (set_credentials s e c, Some r).

Definition store_seal (name plaintext : string) (label : option string) (force : bool) :
    Cmd E J (result Credential CredentialError) :=
  t ← unix_ms; seal_at t name plaintext label force.

Definition store_unseal (name : string) : Cmd E J (result string CredentialError) := λ c,
  let '(e, r) := unseal name (co_credentials c) (co_env c) in (set_env e c, Some r).

Definition store_remove (name : string) : Cmd E J (result Credential CredentialError) := λ c,
  let '(s, r) := ss_remove name (co_credentials c) in (set_credentials s (co_env c) c, Some r).

Definition name_required (command : string) : IpcResponse J :=
  err command "INVALID_INPUT" "parameter 'name' is required".

Definition cmd_credentials_seal req : Cmd E J (IpcResponse J) :=
  let command := "credentials.seal" in
  let invalid := err command "INVALID_INPUT" "parameters 'name' and 'plaintext' are required" in
  require name := param_str req "name" else invalid in
  require plaintext := param_str req "plaintext" else invalid in
  r ← store_seal name plaintext (param_str req "label") (default false (param_bool req "force"));
  mret match r with
       | Ok _ => ok command (json_obj [("name", json_str name); ("sealed", json_bool true)])
       | Err e => credential_error_response command e
       end.

Definition cmd_credentials_unseal req : Cmd E J (IpcResponse J) :=
  let command := "credentials.unseal" in
  require name := param_str req "name" else name_required command in
  r ← store_unseal name;
  mret match r with
       | Ok value => ok command (json_obj [("name", json_str name); ("plaintext", json_str value)])
       | Err e => credential_error_response command e
       end.

Definition cmd_credentials_list req : Cmd E J (IpcResponse J) :=
  c ← state;
  mret (ok "credentials.list"
    (json_obj [("names", json_arr (json_str <$> ss_names (co_credentials c)));
               ("total", json_num (N.of_nat (ss_len (co_credentials c))))])).

Definition cmd_credentials_remove req : Cmd E J (IpcResponse J) :=
  let command := "credentials.remove" in
  require name := param_str req "name" else name_required command in
  r ← store_remove name;
  mret match r with
       | Ok removed =>
           ok command
             (json_obj [("name", json_str (cred_name removed));
                        ("plaintext_len", json_num (N.of_nat (cred_plaintext_len removed)));
                        ("sealed_at_ms", json_num (blob_sealed_at_ms (cred_blob removed)))])
       | Err e => credential_error_response command e
       end.

Definition cmd_credentials_metadata req : Cmd E J (IpcResponse J) :=
  let command := "credentials.metadata" in
  require name := param_str req "name" else name_required command in
  c ← state;
  mret match ss_get (co_credentials c) name with
       | Some cred =>
           ok command
             (json_obj [("name", json_str (cred_name cred));
                        ("label", from_option json_str json_null (blob_label (cred_blob cred)));
                        ("sealed_at_ms", json_num (blob_sealed_at_ms (cred_blob cred)));
                        ("plaintext_len", json_num (N.of_nat (cred_plaintext_len cred)));
                        ("ciphertext_len", json_num (N.of_nat (length (blob_bytes (cred_blob cred)))))])
       | None => err command "NOT_FOUND" ("credential '" +:+ name +:+ "' not found")
       end.

(** ** Updates *)

Definition missing (command key : string) : IpcResponse J :=
  err command "INVALID_INPUT" ("parameter '" +:+ key +:+ "' is required").

Definition bad_key (command hex : string) : IpcResponse J :=
  err command "INVALID_INPUT" ("public_key_hex is not 64 valid hex chars: " +:+ hex).

(** The parameters of [update.verify] and [update.plan], which differ in what
    they say about a missing key. *)
Definition parse_update (command key_missing : string) req :
    result (SignedUpdate * list byte) (IpcResponse J) :=
  match param req "header", param_str req "payload_b64", param_str req "signature_b64",
        param_str req "public_key_hex" with
  | None, _, _, _ => Err (missing command "header")
  | _, None, _, _ => Err (missing command "payload_b64")
  | _, _, None, _ => Err (missing command "signature_b64")
  | _, _, _, None => Err (err command "INVALID_INPUT" key_missing)
  | Some header, Some payload_b64, Some signature_b64, Some public_key_hex =>
      match decode_hex_32 public_key_hex, core_base64_decode payload_b64,
            core_base64_decode signature_b64, header_from_value header with
      | None, _, _, _ => Err (bad_key command public_key_hex)
      | _, None, _, _ => Err (err command "INVALID_INPUT" "payload_b64 is not valid base64")
      | _, _, None, _ => Err (err command "INVALID_INPUT" "signature_b64 is not valid base64")
      | _, _, _, Err e => Err (err command "INVALID_INPUT" ("header is not a valid UpdateHeader: " +:+ e))
      | Some key, Some payload, Some signature, Ok header =>
          Ok (mkSignedUpdate header payload signature, key)
      end
  end.

Definition cmd_update_verify req : Cmd E J (IpcResponse J) :=
  let command := "update.verify" in
  mret match parse_update command "parameter 'public_key_hex' is required (64 hex chars)" req with
       | Err r => r
       | Ok (u, key) =>
           let h := su_header u in
           let common := [("kind", update_kind_json (hdr_kind h)); ("target", json_str (hdr_target h));
                          ("version", json_str (hdr_version h))] in
           match Update.verify_signed_update_with_key u key with
           | Ok _ =>
               ok command (json_obj ([("ok", json_bool true)] ++ common ++
                 [("timestamp_ms", json_num (hdr_timestamp_ms h));
                  ("payload_len", json_num (hdr_payload_len h))]))
           | Err e =>
               ok command (json_obj ([("ok", json_bool false);
                 ("error", json_str (Update.UpdateVerifyError_display e))] ++ common))
           end
       end.

Definition cmd_update_fingerprint req : Cmd E J (IpcResponse J) :=
  let command := "update.fingerprint" in
  require hex := param_str req "public_key_hex" else
    err command "INVALID_INPUT" "parameter 'public_key_hex' is required (64 hex chars)" in
  require key := decode_hex_32 hex else bad_key command hex in
  require vk := vk_from_bytes key else
    err command "INVALID_INPUT" ("public key is not a valid Ed25519 key: " +:+ key_error_text key) in
  mret (ok command
    (json_obj [("fingerprint", json_str (Fingerprint_as_hex (Fingerprint_for_public_key vk)))])).

Definition cmd_update_plan req : Cmd E J (IpcResponse J) :=
  let command := "update.plan" in
  c ← state;
  mret match parse_update command "parameter 'public_key_hex' is required" req with
       | Err r => r
       | Ok (u, key) =>
           match Update.verify_signed_update_with_key u key with
           | Err e => err command "VERIFICATION_FAILED"
                        ("signature verification failed: " +:+ Update.UpdateVerifyError_display e)
           | Ok _ =>
               match Plan.plan_from_signed_update u (param_str req "installed_version")
                       (co_version_policy c) with
               | Ok plan =>
                   match update_plan_to_value plan with
                   | Ok v => ok command v
                   | Err e => err command "INTERNAL" ("plan serialisation: " +:+ e)
                   end
               | Err e => err command "POLICY_DENIED" (plan_error_message e)
               end
           end
       end.

Definition cmd_update_status req : Cmd E J (IpcResponse J) :=
  c ← state;
  let s := co_update_status c in
  let reply plan :=
    ok "update.status"
      (json_obj [("stage", json_str (State.UpdateStage_as_str (State.st_stage s)));
                 ("attempt", json_num (State.st_attempt s));
                 ("last_error", from_option json_str json_null (State.st_last_error s));
                 ("current_plan", plan)]) in
  mret match State.st_current_plan s with
       | None => reply json_null
       | Some p =>
           match update_plan_to_value p with
           | Ok v => reply v
           | Err e => err "update.status" "INTERNAL" ("plan serialisation: " +:+ e)
           end
       end.

Definition history_json (h : State.HistoryEntry) : J :=
  let t := State.he_transition h in
  json_obj [("from", json_str (State.UpdateStage_as_str (State.tr_from t)));
            ("to", json_str (State.UpdateStage_as_str (State.tr_to t)));
            ("timestamp_ms", json_num (State.tr_timestamp_ms t));
            ("note", from_option json_str json_null (State.tr_note t));
            ("plan", default json_null (State.he_plan h ≫= λ p, result_ok (update_plan_to_value p)))].

Definition cmd_update_history req : Cmd E J (IpcResponse J) :=
  c ← state;
  let entries := history_json <$> State.st_history (co_update_status c) in
  mret (ok "update.history"
    (json_obj [("entries", json_arr entries); ("total", json_num (N.of_nat (length entries)))])).

Definition stage_of_name (s : string) : option State.UpdateStage :=
  if (s =? "idle")%string then Some State.Idle
  else if (s =? "downloading")%string then Some State.Downloading
  else if (s =? "verifying")%string then Some State.Verifying
  else if (s =? "staging")%string then Some State.Staging
  else if (s =? "applying")%string then Some State.Applying
  else if (s =? "done")%string then Some State.Done
  else if (s =? "failed")%string then Some State.Failed
  else if (s =? "rolled-back")%string then Some State.RolledBack
  else None.

(** The loop of [update.simulate]: the transitions made before an unknown
    stage stay. *)
Fixpoint simulate (tokens : list string) (now : N) (s : State.UpdateStatus) (applied : list string) :
    State.UpdateStatus * result (list string) string :=
  match tokens with
  | [] => (s, Ok applied)
  | token :: tokens =>
      let name := str_trim token in
      if str_is_empty name then simulate tokens now s applied
      else match stage_of_name name with
           | None => (s, Err name)
           | Some stage =>
               simulate tokens now (State.transition stage now None s)
                 (applied ++ [State.UpdateStage_as_str stage])
           end
  end.

Definition cmd_update_simulate req : Cmd E J (IpcResponse J) :=
  let command := "update.simulate" in
  require sequence := param_str req "stages" else
    err command "INVALID_INPUT" "parameter 'stages' is required (comma-separated)" in
  now ← unix_ms;
  c ← state;
  let '(s, r) := simulate (str_split ","%char sequence) now (co_update_status c) [] in
  _ ← update (set_update_status s);
  mret match r with
       | Ok applied =>
           ok command (json_obj [("applied", json_arr (json_str <$> applied));
                                 ("current", json_str (State.UpdateStage_as_str (State.st_stage s)))])
       | Err other => err command "INVALID_INPUT" ("unknown stage '" +:+ other +:+ "'")
       end.
End security.
