(* ===== verification/CoreAgents.v ===== *)
(** * Proposals, tasks and devices

    The command handlers of system/aether-system-core/src/main.rs for the
    agent's observations, proposals and tasks, and for paired devices. *)
From S2P Require Import Prelude RustStd Json Signing UpdateCore TaskGraph HashChain AuditChain.
From S2P Require Import CoreTypes DepGraph Manager Sandbox Policy AgentCore Devices UnixFs Storage.
From S2P Require Import Actions RuntimeLog RuntimeHost Credentials AppManager SystemInfo TaskToAction.
From S2P Require Import CoreState CoreCommands.

Section agents.
Context {E J : Type} `{!CoreEnv E} `{!JsonOps J} `{!JsonParse J} `{!CoreJson J} `{!RuntimeEnv E}
  `{!ObservationText J} `{!UuidText}.
Implicit Types (req : IpcRequest J) (c : Core E J).

Definition null_or (r : result J string) : J := default json_null (result_ok r).
Definition required (command key : string) : IpcResponse J :=
  err command "INVALID_INPUT" ("parameter '" +:+ key +:+ "' is required").
Definition total_of {A} (l : list A) : J := json_num (N.of_nat (length l)).

(** ** Observations and proposals *)

Definition proposal_error_code (e : ProposalError) : string :=
  match e with
  | EmptyId => "EMPTY_ID"
  | IncompleteDescription => "INCOMPLETE_DESCRIPTION"
  | UnknownEvidence _ _ => "UNKNOWN_EVIDENCE"
  | RiskTooLowForKind _ _ => "RISK_TOO_LOW"
  end.

Definition cmd_agent_propose req : Cmd E J (IpcResponse J) :=
  let command := "agent.propose" in
  require value := param req "proposal" else required command "proposal" in
  require? p := proposal_from_value value else e => err command "INVALID_INPUT" ("proposal decode: " +:+ e) in
  c ← state;
  match validate_proposal p (as_observations (co_agent c)) with
  | Ok _ =>
      let '(s, was_new) := add_proposal p (co_agent c) in
      _ ← update (set_agent s);
      mret (ok command (json_obj [("id", json_str (prop_id p)); ("new", json_bool was_new)]))
  | Err e => mret (err command (proposal_error_code e) (ProposalError_display e))
  end.

Definition cmd_agent_observe req : Cmd E J (IpcResponse J) :=
  let command := "agent.observe" in
  require value := param req "observation" else required command "observation" in
  require? o := observation_from_value value else e =>
    err command "INVALID_INPUT" ("observation decode: " +:+ e) in
  c ← state;
  _ ← update (set_agent (add_observation o (co_agent c)));
  mret (ok command (json_obj [("id", json_str (obs_id o))])).

Definition cmd_agent_proposals req : Cmd E J (IpcResponse J) :=
  c ← state;
  let values := omap (λ p, result_ok (proposal_to_value p))
                  (sort_by prop_id (status_proposals (co_agent c))) in
  mret (ok "agent.proposals" (json_obj [("proposals", json_arr values); ("total", total_of values)])).

Definition cmd_agent_observations req : Cmd E J (IpcResponse J) :=
  c ← state;
  let entries := omap (λ o, result_ok (observation_to_value o)) (as_observations (co_agent c)) in
  mret (ok "agent.observations"
    (json_obj [("observations", json_arr entries); ("total", total_of entries)])).

(** ** Tasks *)

Definition with_tasks (l : list (AgentTask J)) (s : AgentStatus J) : AgentStatus J :=
  mkAgentStatus l (as_proposals s) (as_history s) (as_observations s).

(** [remove_task] of the agent status. *)
Definition agent_remove_task (id : TaskId) : Cmd E J (option (AgentTask J)) := λ c,
  let '(l, t) := graph_remove id (as_tasks (co_agent c)) in
  (set_agent (with_tasks l (co_agent c)) c, Some t).

(** [insert_task]; [None] is the end of the fuel of the cycle test. *)
Definition agent_insert_task (t : AgentTask J) : Cmd E J (result unit TaskDependencyError) := λ c,
  match graph_insert t (as_tasks (co_agent c)) with
  | None => (c, None)
  | Some (l, r) => (set_agent (with_tasks l (co_agent c)) c, Some r)
  end.

Definition agent_remove_proposal (id : string) : Cmd E J (option (Proposal J)) := λ c,
  let '(s, p) := remove_proposal id (co_agent c) in (set_agent s c, Some p).

Definition agent_record (t : AgentTask J) (stage : TaskStage) (now : N) (note : option string) :
    Cmd E J unit := λ c,
  match record_history true (mkTaskHistoryEntry t stage now note) (co_agent c) with
  | None => (c, None)
  | Some s => (set_agent s c, Some tt)
  end.

Definition task_ids (j : J) : list TaskId :=
  omap (λ item, json_as_str item ≫= TaskId_new) (default [] (json_as_array j)).

Definition cmd_agent_tasks req : Cmd E J (IpcResponse J) :=
  c ← state;
  let done := from_option task_ids [] (param req "done") in
  let values l := omap (λ t, result_ok (task_to_value t)) l in
  let tasks := values (as_tasks (co_agent c)) in
  let ready := values (graph_ready (as_tasks (co_agent c)) done) in
  mret (ok "agent.tasks"
    (json_obj [("tasks", json_arr tasks); ("ready", json_arr ready); ("task_count", total_of tasks);
               ("ready_count", total_of ready)])).

Definition cmd_agent_history req : Cmd E J (IpcResponse J) :=
  c ← state;
  let entry h :=
    json_obj [("stage", json_str (TaskStage_as_str (th_stage h)));
              ("timestamp_ms", json_num (th_timestamp_ms h));
              ("note", from_option json_str json_null (th_note h));
              ("task", null_or (task_to_value (th_task h)))] in
  let entries := entry <$> as_history (co_agent c) in
  mret (ok "agent.history" (json_obj [("entries", json_arr entries); ("total", total_of entries)])).

Definition no_task (command id : string) : IpcResponse J :=
  err command "NOT_FOUND" ("task '" +:+ id +:+ "' not found").

Definition cmd_agent_cancel req : Cmd E J (IpcResponse J) :=
  let command := "agent.cancel" in
  require id_str := param_str req "id" else required command "id" in
  require id := TaskId_new id_str else err command "INVALID_INPUT" "task id is empty" in
  removed ← agent_remove_task id;
  mret match removed with
       | Some t => ok command (json_obj [("removed", null_or (task_to_value t))])
       | None => no_task command id_str
       end.

Definition cmd_agent_approve req : Cmd E J (IpcResponse J) :=
  let command := "agent.approve" in
  require id_str := param_str req "id" else required command "id" in
  require pid := ProposalId_new id_str else err command "INVALID_INPUT" "proposal id is empty" in
  removed ← agent_remove_proposal pid;
  require p := removed else err command "NOT_FOUND" ("proposal '" +:+ id_str +:+ "' not found") in
  require task_id := TaskId_new ("task-" +:+ prop_id p) else
    err command "INTERNAL" "could not derive task id" in
  require t := proposal_to_task p task_id else
    err command "INTERNAL" "could not convert proposal to task" in
  r ← agent_insert_task t;
  mret match r with
       | Err e => err command "INVALID_INPUT" ("insert task: " +:+ TaskDependencyError_display e)
       | Ok _ => ok command (json_obj [("task", null_or (task_to_value t))])
       end.

(** The action of a task; a uuid is drawn when there is one. *)
Definition action_of_task (session_id : string) (t : AgentTask J) :
    Cmd E J (result Action TaskToActionError) := λ c,
  let '(id, e) := env_uuid (co_env c) in
  match task_to_action id session_id t with
  | Ok a => (set_env e c, Some (Ok a))
  | Err x => (c, Some (Err x))
  end.

(** The executor of the agent runtime.  It uses only the environment of the
    world it runs in; the host in it is none of the daemon's. *)
Definition run_executor (control_port : N) (a : Action) :
    Cmd E J (result (ExecutionResult J) AgentError) := λ c,
  let '(w, o) := execute_with_recovery control_port 4750 a
                   (mkWorld (start_host 0 0 0 []) (co_env c) []) in
  (set_env (w_env w) c,
   match o with
   | RuntimeHost.Done r => Some (Ok r)
   | RuntimeHost.Fail e => Some (Err e)
   | RuntimeHost.Panic => None
   end).

Definition agent_dry_run (session_id id_str : string) (id : TaskId) : Cmd E J (IpcResponse J) :=
  let command := "agent.execute" in
  c ← state;
  require t := graph_get (as_tasks (co_agent c)) id else no_task command id_str in
  r ← action_of_task session_id t;
  mret match r with
       | Ok a => ok command (json_obj [("dry_run", json_bool true); ("task", null_or (task_to_value t));
                                       ("action", null_or (action_to_value a))])
       | Err e => err command "UNSUPPORTED" (TaskToActionError_to_string e)
       end.

Definition cmd_agent_execute req : Cmd E J (IpcResponse J) :=
  let command := "agent.execute" in
  require id_str := param_str req "id" else required command "id" in
  let session_id := default "agent" (param_str req "session_id") in
  let control_port := (default 4747 (param_u64 req "control_port") mod 2 ^ 16)%N in
  require id := TaskId_new id_str else err command "INVALID_INPUT" "task id is empty" in
  if default false (param_bool req "dry_run") then agent_dry_run session_id id_str id
  else
    removed ← agent_remove_task id;
    require t := removed else no_task command id_str in
    now ← unix_ms;
    r ← action_of_task session_id t;
    match r with
    | Err e =>
        let message := TaskToActionError_to_string e in
        _ ← agent_record t StFailed now (Some message);
        mret (err command "UNSUPPORTED" message)
    | Ok a =>
        x ← run_executor control_port a;
        match x with
        | Ok result =>
            _ ← agent_record t StDone now None;
            mret (ok command
              (json_obj [("dry_run", json_bool false); ("task", null_or (task_to_value t));
                         ("action", null_or (action_to_value a));
                         ("success", json_bool (er_success result));
                         ("duration_ms", json_num (er_duration_ms result))]))
        | Err e =>
            let message := AgentError_to_string e in
            _ ← agent_record t StFailed now (Some message);
            mret (err command "EXECUTION_FAILED" message)
        end
    end.

(** ** Devices *)

Definition cmd_device_list req : Cmd E J (IpcResponse J) :=
  c ← state;
  let values l := omap (λ d, result_ok (device_to_value d)) l in
  let devices := values (registry_devices (co_devices c)) in
  let paired := values (registry_paired (co_devices c)) in
  mret (ok "device.list"
    (json_obj [("devices", json_arr devices); ("paired", json_arr paired); ("total", total_of devices);
               ("paired_count", total_of paired);
               ("capacity", json_num (N.of_nat DEVICE_REGISTRY_LIMIT))])).

Definition class_of_name (s : string) : option DeviceClass :=
  if (s =? "phone")%string then Some Phone
  else if (s =? "tablet")%string then Some Tablet
  else if (s =? "laptop")%string then Some Laptop
  else if (s =? "desktop")%string then Some Desktop
  else if (s =? "iot")%string then Some Iot
  else if (s =? "server")%string then Some Server
  else if (s =? "external")%string then Some External
  else if (s =? "other")%string then Some OtherDevice
  else None.

Definition registry_error_code (e : DeviceRegistryError) : string :=
  match e with
  | RegistryFull => "REGISTRY_FULL"
  | AlreadyRegistered => "ALREADY_REGISTERED"
  | UnknownDevice => "UNKNOWN_DEVICE"
  end.

Definition bad_device_id (command : string) : IpcResponse J :=
  err command "INVALID_INPUT" "device id is empty or too long".
Definition not_registered (command id : string) : IpcResponse J :=
  err command "NOT_FOUND" ("device '" +:+ id +:+ "' is not registered").
Definition device_state (id state : string) : J :=
  json_obj [("id", json_str id); ("state", json_str state)].

Definition cmd_device_register req : Cmd E J (IpcResponse J) :=
  let command := "device.register" in
  require id := param_str req "device_id" else required command "device_id" in
  require class_str := param_str req "device_class" else required command "device_class" in
  require class := class_of_name class_str else
    err command "INVALID_INPUT" ("unknown device class '" +:+ class_str +:+ "'") in
  require fp_hex := param_str req "fingerprint" else
    err command "INVALID_INPUT" "parameter 'fingerprint' is required (64 hex chars)" in
  require fp := decode_hex_32 fp_hex else
    err command "INVALID_INPUT" "fingerprint must be 64 hex chars" in
  require? grant := match param req "grant" with
                    | Some g => grant_from_value g
                    | None => Ok PairingGrant_permissive
                    end else e => err command "INVALID_INPUT" ("grant decode: " +:+ e) in
  require device_id := DeviceId_new id else bad_device_id command in
  now ← unix_ms;
  c ← state;
  let '(registry, r) := register_device device_id class fp grant now (co_devices c) in
  _ ← update (set_devices registry);
  mret match r with
       | Ok _ => ok command (device_state id "available")
       | Err e => err command (registry_error_code e) (DeviceRegistryError_display e)
       end.

(** [registry.transition] and its answer. *)
Definition device_transition (command device_id id name : string) (next : PairingState) (now : N) :
    Cmd E J (IpcResponse J) :=
  c ← state;
  let '(registry, r) := registry_transition device_id next now (co_devices c) in
  _ ← update (set_devices registry);
  mret match r with
       | Ok _ => ok command (device_state id name)
       | Err e => err command "REGISTRY_ERROR" (DeviceRegistryError_display e)
       end.

Definition cmd_device_pair_begin req : Cmd E J (IpcResponse J) :=
  let command := "device.pair.begin" in
  require id := param_str req "device_id" else required command "device_id" in
  require device_id := DeviceId_new id else bad_device_id command in
  now ← unix_ms;
  c ← state;
  require d := registry_get (co_devices c) device_id else not_registered command id in
  let current := pair_state (rd_pairing d) in
  if bool_decide (current = Available) || bool_decide (current = PCancelled)
  then device_transition command device_id id "pairing" PairingInProgress now
  else mret (err command "INVALID_STATE"
    ("device is in '" +:+ PairingState_as_str current +:+
     "' state; only Available or Cancelled can begin pairing")).

Definition pairing_error_code (e : PairingError) : string :=
  match e with
  | CodeMismatch => "CODE_MISMATCH"
  | FingerprintMismatch => "FINGERPRINT_MISMATCH"
  | IdentityMismatch => "IDENTITY_MISMATCH"
  | RequestExpired => "REQUEST_EXPIRED"
  | AlreadyPaired => "ALREADY_PAIRED"
  | TerminalState => "TERMINAL_STATE"
  end.

(** The code the local user reads, or the one of the request. *)
Definition local_code req (request : PairingRequest) : option PairingCode :=
  match param_str req "local_code" with
  | Some s => PairingCode_new s
  | None => Some (preq_code request)
  end.

Definition with_code (code : PairingCode) (r : PairingRequest) : PairingRequest :=
  mkPairingRequest (preq_device_id r) (preq_device_class r) (preq_fingerprint r) code (preq_grant r)
    (preq_timestamp_ms r).

Definition cmd_device_pair_complete req : Cmd E J (IpcResponse J) :=
  let command := "device.pair.complete" in
  require request_value := param req "request" else required command "request" in
  require acceptance_value := param req "acceptance" else required command "acceptance" in
  require? request := pairing_request_from_value request_value else e =>
    err command "INVALID_INPUT" ("request decode: " +:+ e) in
  require? acceptance := acceptance_from_value acceptance_value else e =>
    err command "INVALID_INPUT" ("acceptance decode: " +:+ e) in
  require code := local_code req request else
    err command "INVALID_INPUT" "local_code is not a 6-digit decimal" in
  now ← unix_ms;
  match validate_acceptance (with_code code request) acceptance 60000 now with
  | Err e => mret (err command (pairing_error_code e) (PairingError_display e))
  | Ok _ =>
      let id := pacc_device_id acceptance in
      require device_id := DeviceId_new id else bad_device_id command in
      c ← state;
      require d := registry_get (co_devices c) device_id else not_registered command id in
      let current := pair_state (rd_pairing d) in
      if bool_decide (current = PairingInProgress)
      then device_transition command device_id id "paired" Paired now
      else mret (err command "INVALID_STATE"
        ("device is in '" +:+ PairingState_as_str current +:+
         "' state; only Pairing can be completed"))
  end.

Definition cmd_device_revoke req : Cmd E J (IpcResponse J) :=
  let command := "device.revoke" in
  require id := param_str req "device_id" else required command "device_id" in
  require device_id := DeviceId_new id else bad_device_id command in
  now ← unix_ms;
  c ← state;
  require d := registry_get (co_devices c) device_id else not_registered command id in
  device_transition command device_id id "revoked" Revoked now.

Definition cmd_device_unregister req : Cmd E J (IpcResponse J) :=
  let command := "device.unregister" in
  require id := param_str req "device_id" else required command "device_id" in
  require device_id := DeviceId_new id else bad_device_id command in
  c ← state;
  let '(registry, removed) := unregister device_id (co_devices c) in
  _ ← update (set_devices registry);
  mret match removed with
       | Some entry =>
           ok command (json_obj [("id", json_str id); ("removed", null_or (device_to_value entry))])
       | None => not_registered command id
       end.
End agents.
