(* ===== verification/CoreDispatch.v ===== *)
(** * The dispatcher of the system-core daemon

    The policy gate, the table of commands, the audit of capability requests,
    the loop that serves connections and the start of the daemon, of
    system/aether-system-core/src/main.rs. *)
From S2P Require Import Prelude RustStd Json Signing UpdateCore TaskGraph HashChain AuditChain.
From S2P Require Import CoreTypes DepGraph Manager Sandbox Policy AgentCore Devices UnixFs Storage.
From S2P Require Import Actions RuntimeLog RuntimeHost Credentials AppManager SystemInfo TaskToAction.
From S2P Require Import CoreState CoreCommands CoreSecurity CoreAgents.

Section dispatch.
Context {E J : Type} `{!CoreEnv E} `{!RuntimeEnv E} `{!MachineFiles E} `{!Processes E} `{!Rng E}
  `{!JsonOps J} `{!JsonParse J} `{!CoreJson J} `{!FloatText J} `{!ObservationText J}
  `{!UuidText} `{!Aead} {D : Digest} {Cr : Crypto} `{!KeyErrorText}.
Implicit Types (req : IpcRequest J) (c : Core E J).

(** The arms of the match on the command. *)
Definition handlers : list (string * (IpcRequest J → Cmd E J (IpcResponse J))) :=
  [("status", cmd_status); ("system.status", cmd_status); ("app.status", cmd_app_status);
   ("start", cmd_service); ("stop", cmd_service); ("restart", cmd_service);
   ("app.list", cmd_app_list); ("app.launch", cmd_app_launch); ("app.close", cmd_app_close);
   ("context.get", cmd_context_get); ("window.list", cmd_window_list);
   ("window.focus", cmd_window_focus); ("window.minimize", cmd_window_minimize);
   ("window.maximize", cmd_window_maximize); ("window.close", cmd_window_close);
   ("window.restore", cmd_window_restore); ("file.list", cmd_file_list);
   ("file.search", cmd_file_search); ("file.read", cmd_file_read); ("file.create", cmd_file_create);
   ("file.write", cmd_file_write); ("file.rename", cmd_file_rename); ("file.move", cmd_file_move);
   ("file.delete", cmd_file_delete); ("system.info", cmd_system_info);
   ("system.resources", cmd_system_resources); ("system.uptime", cmd_system_uptime);
   ("storage.status", cmd_storage_status); ("process.list", cmd_process_list);
   ("process.inspect", cmd_process_inspect); ("shutdown", cmd_shutdown);
   ("sandbox.plan", cmd_sandbox_plan); ("audit.recent", cmd_audit_recent);
   ("audit.verify", cmd_audit_verify); ("manifest.trust_store", cmd_trust_store);
   ("audit.prune", cmd_audit_prune); ("credentials.seal", cmd_credentials_seal);
   ("credentials.unseal", cmd_credentials_unseal); ("credentials.list", cmd_credentials_list);
   ("credentials.remove", cmd_credentials_remove); ("credentials.metadata", cmd_credentials_metadata);
   ("update.verify", cmd_update_verify); ("update.fingerprint", cmd_update_fingerprint);
   ("update.plan", cmd_update_plan); ("update.status", cmd_update_status);
   ("update.history", cmd_update_history); ("update.simulate", cmd_update_simulate);
   ("agent.propose", cmd_agent_propose); ("agent.observe", cmd_agent_observe);
   ("agent.proposals", cmd_agent_proposals); ("agent.tasks", cmd_agent_tasks);
   ("agent.history", cmd_agent_history); ("agent.observations", cmd_agent_observations);
   ("agent.cancel", cmd_agent_cancel); ("agent.approve", cmd_agent_approve);
   ("agent.execute", cmd_agent_execute); ("device.list", cmd_device_list);
   ("device.register", cmd_device_register); ("device.pair.begin", cmd_device_pair_begin);
   ("device.pair.complete", cmd_device_pair_complete); ("device.revoke", cmd_device_revoke);
   ("device.unregister", cmd_device_unregister)].

Definition handler_of (command : string) : option (IpcRequest J → Cmd E J (IpcResponse J)) :=
  snd <$> find_b (λ h, String.eqb h.1 command) handlers.

Definition gate_response (command : string) (v : PolicyVerdict) : IpcResponse J :=
  match pv_decision v with
  | Deny =>
      let code := if str_contains_from "untrusted actor" (pv_reason v)
                  then "POLICY_DENIED_UNTRUSTED" else "POLICY_DENIED" in
      err command code (pv_reason v)
  | RequireConsent => err command "REQUIRES_CONFIRMATION" (pv_reason v)
  | Allow => err command "INTERNAL" "gate_response called for allow verdict"
  end.

Definition dispatch_inner req : Cmd E J (IpcResponse J) :=
  let command := req_command req in
  let verdict := policy_verdict command (req_actor_trust req) in
  if negb (PolicyVerdict_is_allow verdict) then
    _ ← record_audit "policy.deny"
          (json_obj [("command", json_str command); ("actor_trust", trust_json (req_actor_trust req))])
          (req_service_id req) false;
    mret (gate_response command verdict)
  else match handler_of command with
       | Some h => h req
       | None => mret (err command "INVALID_INPUT" ("unknown command '" +:+ command +:+ "'"))
       end.

Definition is_capability (command : string) : bool :=
  existsb (λ p, String.prefix p command) ["app."; "window."; "file."; "system."; "process."; "storage."]
  || (command =? "context.get")%string.

(** The arguments without the content of a file. *)
Definition sanitized (parameters : J) : J :=
  match json_get parameters "content" with
  | Some _ => json_insert parameters "content" (json_str "[REDACTED]")
  | None => parameters
  end.

Definition dispatch req : Cmd E J (IpcResponse J) :=
  response ← dispatch_inner req;
  if is_capability (req_command req) then
    _ ← record_audit (req_command req) (sanitized (req_parameters req)) (req_service_id req)
          (resp_ok response);
    mret response
  else mret response.

(** ** Connections *)

(** One line of a connection: the answer, if there is one, and whether a
    shutdown was asked for. *)
Definition serve_line (line : string) : Cmd E J (option (IpcResponse J) * bool) :=
  if str_is_empty (str_trim line) then mret (None, false)
  else match ipc_request_from_str line with
       | Ok req => r ← dispatch req; mret (Some r, (req_command req =? "shutdown")%string)
       | Err e => mret (Some (err "?" "INVALID_INPUT" ("bad request: " +:+ e)), false)
       end.

(** The lines of a connection, each with whether the answer to it can be
    written.  The result tells whether a shutdown was asked for. *)
Fixpoint serve_lines (lines : list (string * bool)) (stop_requested : bool) : Cmd E J bool :=
  match lines with
  | [] => mret stop_requested
  | (line, writable) :: lines =>
      '(reply, stop) ← serve_line line;
      let stop_requested := stop_requested || stop in
      match reply with
      | Some _ => if writable then serve_lines lines stop_requested else mret stop_requested
      | None => serve_lines lines stop_requested
      end
  end.

Definition stop_services : Cmd E J unit := λ c,
  let '((s, _), _) := stop_all (co_manager c) (new_executor c) in (set_manager s c, Some tt).

(** The connections in the order they arrive.  The result tells whether the
    daemon has left its loop. *)
Fixpoint serve (connections : list (list (string * bool))) : Cmd E J bool :=
  match connections with
  | [] => mret false
  | lines :: connections =>
      stop ← serve_lines lines false;
      if (stop : bool) then _ ← stop_services; mret true else serve connections
  end.

(** ** The start *)

Definition SEED_APPS : list (string * string * string * string) :=
  [("calculator", "Calculator", "0.1.0", "/bin/aether-calculator");
   ("notes", "Notes", "0.1.0", "/bin/aether-notes");
   ("files", "Files", "0.1.0", "/bin/sleep 3602")].

Definition seed_app (m : ApplicationManager) (x : string * string * string * string) :
    ApplicationManager :=
  let '(id, name, version, command) := x in
  match AppDefinition_new id name version command ["display"] with
  | Ok def => app_register def m
  | Err _ => m
  end.

(** The manifests that were loaded, the trust store, the configuration of the
    workspace and the sealing key are arguments.  [Err] is the fatal error the
    daemon exits with, [None] as in [DependencyGraph_new]. *)
Definition boot (manifests : list ServiceManifest) (trust : option Manifest.TrustStore)
    (config : WorkspaceConfig) (fs : filesystem) (key : list byte) (e : E) :
    option (result (Core E J) string) :=
  manager ← build_manager manifests;
  match manager with
  | Err e => Some (Err (AetherError_display e))
  | Ok s =>
      match start_all s (mkLocalExecutor 0 (env_instant e)) with
      | (_, Err e) => Some (Err (AetherError_display e))
      | ((s, _), Ok _) =>
          let apps := foldl seed_app ApplicationManager_default SEED_APPS in
          match FileManager_new config fs with
          | (_, Err e) => Some (Err (AetherError_display e))
          | (fs, Ok config) =>
              Some (Ok (mkCore s apps config fs AuditChain_default
                (SealedStore_new (mkStaticKeyProvider key)) trust State.UpdateStatus_default
                Version.VersionPolicy_default AgentStatus_new ∅ e))
          end
      end
  end.
End dispatch.
