(* ===== verification/CoreProps.v ===== *)
(** * What the requests of the system-core daemon do

    Theorems on the dispatcher: what a request can change, what the gate of the
    policy keeps out, the invariant of the daemon's state, and the request the
    gate does not stop. *)
From S2P Require Import Prelude RustStd Json Signing UpdateCore TaskGraph HashChain AuditChain.
From S2P Require Import CoreTypes DepGraph Manager Sandbox Policy AgentCore Devices UnixFs Storage.
From S2P Require Import Actions RuntimeLog RuntimeHost Credentials AppManager SystemInfo TaskToAction.
From S2P Require Import CoreState CoreCommands CoreSecurity CoreAgents CoreDispatch RuntimeScenarios.

(** ** Runs of a handler *)

Section runs.
Context {E J : Type}.
Implicit Types (R : relation (Core E J)) (c : Core E J).

(** The state a handler leaves is related to the one it found. *)
Definition runs_in {A} R (m : Cmd E J A) c : Prop := R c (m c).1.

Lemma runs_ret {A} R `{!Reflexive R} (a : A) c : runs_in R (mret a) c.
Proof. change (R c c). reflexivity. Qed.

Lemma runs_panics {A} R `{!Reflexive R} c : runs_in R (panics (A := A)) c.
Proof. change (R c c). reflexivity. Qed.

Lemma runs_state R `{!Reflexive R} c : runs_in R state c.
Proof. change (R c c). reflexivity. Qed.

Lemma runs_update R f c : R c (f c) → runs_in R (update f) c.
Proof. done. Qed.

Lemma runs_bind {A B} R `{!Transitive R} (m : Cmd E J A) (f : A → Cmd E J B) c :
  runs_in R m c → (∀ a c', m c = (c', Some a) → runs_in R (f a) c') → runs_in R (m ≫= f) c.
Proof.
  unfold runs_in. intros Hm Hf.
  change ((m ≫= f) c) with
    (let '(c, o) := m c in match o with Some a => f a c | None => (c, None) end).
  destruct (m c) as [c' [a|]] eqn:E1; simpl in *; [|done]. by etransitivity; [|apply Hf].
Qed.

Lemma runs_bind_state {B} R (f : Core E J → Cmd E J B) c :
  runs_in R (f c) c → runs_in R (state ≫= f) c.
Proof. done. Qed.
End runs.

(** ** Footprints *)

(** The parts of the state that a request can change.  The environment is not
    one of them, and the configuration, the trust store and the version policy
    never change. *)
Inductive Part := PManager | PApps | PFiles | PAudit | PCredentials | PUpdates | PAgent | PDevices.
#[export] Instance Part_eq_dec : EqDecision Part. Proof. solve_decision. Defined.

Section footprints.
Context {E J : Type}.
Implicit Types (c : Core E J).

Definition same_part (p : Part) c c' : Prop :=
  match p with
  | PManager => co_manager c' = co_manager c
  | PApps => co_apps c' = co_apps c
  | PFiles => co_fs c' = co_fs c
  | PAudit => co_audit c' = co_audit c
  | PCredentials => co_credentials c' = co_credentials c
  | PUpdates => co_update_status c' = co_update_status c
  | PAgent => co_agent c' = co_agent c
  | PDevices => co_devices c' = co_devices c
  end.

Definition same_setup c c' : Prop :=
  co_files c' = co_files c ∧ co_trust_store c' = co_trust_store c ∧
  co_version_policy c' = co_version_policy c.

(** Everything but the listed parts is as before. *)
Definition touches (l : list Part) c c' : Prop :=
  same_setup c c' ∧ ∀ p, p ∉ l → same_part p c c'.

#[export] Instance touches_preorder l : PreOrder (touches l).
Proof.
  split.
  - intros c. split; [done|]. by intros [].
  - intros c1 c2 c3 [(?&?&?) Ha] [(?&?&?) Hb]. split; [split_and!; congruence|].
    intros p Hp. specialize (Ha p Hp). specialize (Hb p Hp). destruct p; simpl in *; congruence.
Qed.

Lemma touches_env l (e : E) c : touches l c (set_env e c).
Proof. split; [done|]. by intros []. Qed.
Lemma touches_manager l x c : PManager ∈ l → touches l c (set_manager x c).
Proof. intros. split; [done|]. by intros []. Qed.
Lemma touches_apps l x e c : PApps ∈ l → touches l c (set_apps x e c).
Proof. intros. split; [done|]. by intros []. Qed.
Lemma touches_audit l x c : PAudit ∈ l → touches l c (set_audit x c).
Proof. intros. split; [done|]. by intros []. Qed.
Lemma touches_credentials l x e c : PCredentials ∈ l → touches l c (set_credentials x e c).
Proof. intros. split; [done|]. by intros []. Qed.
Lemma touches_updates l x c : PUpdates ∈ l → touches l c (set_update_status x c).
Proof. intros. split; [done|]. by intros []. Qed.
Lemma touches_agent l x c : PAgent ∈ l → touches l c (set_agent x c).
Proof. intros. split; [done|]. by intros []. Qed.
Lemma touches_devices l x c : PDevices ∈ l → touches l c (set_devices x c).
Proof. intros. split; [done|]. by intros []. Qed.
Lemma touches_files l x c : PFiles ∈ l → touches l c (set_fs x c).
Proof. intros. split; [done|]. by intros []. Qed.

Lemma touches_mono l l' c c' : l ⊆ l' → touches l c c' → touches l' c c'.
Proof. intros Hl [Hs H]. split; [done|]. intros p Hp. apply H. set_solver. Qed.
End footprints.

Create HintDb cmd discriminated.
#[export] Hint Resolve runs_ret runs_panics runs_state : cmd.
#[export] Hint Resolve touches_env touches_manager touches_apps touches_audit touches_credentials
  touches_updates touches_agent touches_devices touches_files : cmd.
#[export] Hint Extern 1 (_ ∈ _) => set_solver : cmd.

(** One step through a handler: the matches are split as they come. *)
Ltac run_step :=
  match goal with
  | |- runs_in _ (state ≫= _) _ => apply runs_bind_state; cbv beta zeta
  | |- runs_in _ (_ ≫= _) _ => notypeclasses refine (runs_bind _ _ _ _ _ _); [typeclasses eauto| |intros ? ? ?; cbv beta zeta]
  | |- runs_in _ (update _) _ => apply runs_update; solve [auto with cmd nocore]
  | |- runs_in _ _ _ => solve [auto with cmd nocore]
  | |- runs_in _ (mret _) _ => by apply runs_ret, _
  | |- runs_in _ panics _ => by apply runs_panics, _
  | |- runs_in _ (match ?x with _ => _ end) _ => destruct x eqn:?
  | |- runs_in _ (let '(_, _) := ?x in _) _ => destruct x eqn:?
  | |- runs_in _ (if ?x then _ else _) _ => destruct x eqn:?
  end.
Ltac run_steps := repeat run_step.

Section commands.
Context {E J : Type} `{!CoreEnv E} `{!RuntimeEnv E} `{!MachineFiles E} `{!Processes E} `{!Rng E}
  `{!JsonOps J} `{!JsonParse J} `{!CoreJson J} `{!FloatText J} `{!ObservationText J}
  `{!UuidText} `{!Aead} {D : Digest} {Cr : Crypto} `{!KeyErrorText}.
Implicit Types (req : IpcRequest J) (c : Core E J).

(** *** The primitive steps *)

Lemma unix_ms_touches l c : runs_in (touches l) unix_ms c.
Proof. unfold runs_in, unix_ms. destruct (env_unix_ms _). apply touches_env. Qed.

Lemma surface_call_touches l (j : J) c : runs_in (touches l) (surface_call j) c.
Proof.
  unfold surface_call. run_steps.
Qed.

Lemma record_audit_touches l cap args comp b c :
  PAudit ∈ l → runs_in (touches l) (record_audit cap args comp b) c.
Proof. intros. unfold record_audit. run_steps. apply unix_ms_touches. Qed.

(** The primitives that are not written in the monad. *)
Local Ltac prim := unfold runs_in; repeat case_match; simpl; auto with cmd; done.

Lemma app_state_of_touches l id c : PApps ∈ l → runs_in (touches l) (app_state_of id) c.
Proof. intros. unfold app_state_of. prim. Qed.
Lemma app_stats_touches l c : PApps ∈ l → runs_in (touches l) app_stats c.
Proof. intros. unfold app_stats. prim. Qed.
Lemma app_running_touches l c : PApps ∈ l → runs_in (touches l) app_running c.
Proof. intros. unfold app_running. prim. Qed.
Lemma app_close_touches l id c : PApps ∈ l → runs_in (touches l) (app_close id) c.
Proof. intros. unfold app_close. prim. Qed.
Lemma app_launch_touches l id c : PApps ∈ l → runs_in (touches l) (app_launch id) c.
Proof. intros. unfold app_launch. prim. Qed.
Lemma app_states_touches l ids c : PApps ∈ l → runs_in (touches l) (app_states ids) c.
Proof.
  intros Hl. revert c. induction ids as [|id ids IH]; intros c; simpl; run_steps.
  by apply app_state_of_touches.
Qed.
Lemma seal_at_touches l t n p b f c : PCredentials ∈ l → runs_in (touches l) (seal_at t n p b f) c.
Proof. intros. unfold seal_at. prim. Qed.
Lemma store_unseal_touches l n c : runs_in (touches l) (store_unseal n) c.
Proof. unfold store_unseal. prim. Qed.
Lemma store_remove_touches l n c : PCredentials ∈ l → runs_in (touches l) (store_remove n) c.
Proof. intros. unfold store_remove. prim. Qed.
Lemma agent_remove_task_touches l id c : PAgent ∈ l → runs_in (touches l) (agent_remove_task id) c.
Proof. intros. unfold agent_remove_task. prim. Qed.
Lemma agent_insert_task_touches l t c : PAgent ∈ l → runs_in (touches l) (agent_insert_task t) c.
Proof. intros. unfold agent_insert_task. prim. Qed.
Lemma agent_remove_proposal_touches l i c : PAgent ∈ l → runs_in (touches l) (agent_remove_proposal i) c.
Proof. intros. unfold agent_remove_proposal. prim. Qed.
Lemma agent_record_touches l t s n o c : PAgent ∈ l → runs_in (touches l) (agent_record t s n o) c.
Proof. intros. unfold agent_record. prim. Qed.
Lemma action_of_task_touches l s t c : runs_in (touches l) (action_of_task s t) c.
Proof. unfold action_of_task. prim. Qed.
Lemma run_executor_touches l p a c : runs_in (touches l) (run_executor p a) c.
Proof. unfold run_executor. prim. Qed.
#[local] Hint Resolve unix_ms_touches surface_call_touches record_audit_touches app_state_of_touches
  app_stats_touches app_running_touches app_close_touches app_launch_touches app_states_touches
  seal_at_touches store_unseal_touches store_remove_touches agent_remove_task_touches
  agent_insert_task_touches agent_remove_proposal_touches agent_record_touches
  action_of_task_touches run_executor_touches : cmd.

Lemma surface_reply_touches l cm j c : runs_in (touches l) (surface_reply cm j) c.
Proof. unfold surface_reply. run_steps. Qed.
Lemma window_by_app_touches l cm op a c : runs_in (touches l) (window_by_app cm op a) c.
Proof. unfold window_by_app. run_steps; apply surface_reply_touches. Qed.
Lemma device_transition_touches l cm d i n s t c :
  PDevices ∈ l → runs_in (touches l) (device_transition cm d i n s t) c.
Proof. intros. unfold device_transition. run_steps. Qed.
Lemma agent_dry_run_touches l s i t c : runs_in (touches l) (agent_dry_run s i t) c.
Proof. unfold agent_dry_run. run_steps. Qed.
Lemma context_touches l c : PApps ∈ l → runs_in (touches l) build_context_snapshot c.
Proof. intros. unfold build_context_snapshot. run_steps. Qed.
Lemma store_seal_touches l n p b f c : PCredentials ∈ l → runs_in (touches l) (store_seal n p b f) c.
Proof. intros. unfold store_seal. run_steps. Qed.

#[local] Hint Resolve surface_reply_touches window_by_app_touches device_transition_touches
  agent_dry_run_touches context_touches store_seal_touches : cmd.

(** What each command may change; the others only read. *)
Definition footprint_table : list (string * Part) :=
  [("status", PApps); ("system.status", PApps); ("app.status", PApps); ("app.launch", PApps);
   ("app.close", PApps); ("context.get", PApps);
   ("start", PManager); ("stop", PManager); ("restart", PManager);
   ("file.create", PFiles); ("file.write", PFiles); ("file.rename", PFiles); ("file.move", PFiles);
   ("audit.prune", PAudit);
   ("credentials.seal", PCredentials); ("credentials.remove", PCredentials);
   ("update.simulate", PUpdates);
   ("agent.propose", PAgent); ("agent.observe", PAgent); ("agent.cancel", PAgent);
   ("agent.approve", PAgent); ("agent.execute", PAgent);
   ("device.register", PDevices); ("device.pair.begin", PDevices); ("device.pair.complete", PDevices);
   ("device.revoke", PDevices); ("device.unregister", PDevices)].

Definition footprint (command : string) : list Part :=
  snd <$> List.filter (λ x, String.eqb x.1 command) footprint_table.

Lemma handlers_touch :
  Forall (λ nh, ∀ req c, runs_in (touches (footprint nh.1)) (nh.2 req) c) handlers.
Proof.
  unfold handlers. repeat (apply Forall_cons_2 || apply Forall_nil_2); intros req c; cbn [fst snd];
    match goal with |- runs_in (touches ?l) _ _ => let l' := eval vm_compute in l in change l with l' end;
    match goal with |- runs_in _ ?m _ => let m' := eval red in m in change m with m' end; cbv zeta;
    run_steps.
Qed.
Lemma handler_touches cm h req c :
  handler_of cm = Some h → runs_in (touches (footprint cm)) (h req) c.
Proof.
  unfold handler_of. destruct (find_b _ handlers) as [[n h']|] eqn:Hf; [|done]. simpl. intros [= ->].
  apply find_b_Some in Hf as [Hin Hn]. apply String.eqb_eq in Hn. simpl in Hn. subst n.
  pose proof handlers_touch as H2. rewrite Forall_forall in H2. exact (H2 _ Hin req c).
Qed.

(** The request passes the gate. *)
Definition allowed req : bool := PolicyVerdict_is_allow (policy_verdict (req_command req) (req_actor_trust req)).

(** What a request may change: the parts of its command when it passes the
    gate, and the audit chain when it does not or when it names a capability. *)
Definition request_footprint req : list Part :=
  (if allowed req then footprint (req_command req) else [PAudit]) ++
  (if is_capability (req_command req) then [PAudit] else []).

Lemma allowed_footprint req : allowed req = true → PFiles ∉ footprint (req_command req).
Proof.
  unfold allowed, footprint. intros Ha (x & Hx & Hin)%list_elem_of_fmap.
  apply list_elem_of_In, filter_In in Hin as [Hin Hc]. apply String.eqb_eq in Hc.
  rewrite <-Hc in Ha. unfold footprint_table in Hin.
  destruct (req_actor_trust req); [|done].
  repeat (destruct Hin as [<-|Hin]; [first [discriminate Hx|vm_compute in Ha; discriminate Ha]|]).
  destruct Hin.
Qed.

Lemma dispatch_inner_touches req c :
  runs_in (touches (if allowed req then footprint (req_command req) else [PAudit])) (dispatch_inner req) c.
Proof.
  unfold dispatch_inner. cbv zeta. fold (allowed req). destruct (allowed req); simpl.
  - destruct (handler_of _) as [h|] eqn:Hh; [by apply handler_touches|]. run_steps.
  - run_steps.
Qed.

Lemma dispatch_touches req c : runs_in (touches (request_footprint req)) (dispatch req) c.
Proof.
  unfold dispatch, request_footprint. apply runs_bind; [typeclasses eauto|..].
  - eapply touches_mono, dispatch_inner_touches. set_solver.
  - intros r c' _. cbv beta. destruct (is_capability _); run_steps.
Qed.

(** C4: a request changes nothing but the part of the daemon its command is
    about, and the audit chain when it names a capability or is refused.  No
    request changes the configuration, the trust store or the version policy,
    and none changes a file of the workspace: the commands that would are never
    let through the gate, whoever sends them. *)
Theorem requests_touch_only_their_part req c :
  let c' := (dispatch req c).1 in
  touches (request_footprint req) c c' ∧ same_setup c c' ∧ co_fs c' = co_fs c.
Proof.
  intros c'. pose proof (dispatch_touches req c) as H2. split_and!; [exact H2|apply H2|].
  apply (proj2 H2 PFiles). unfold request_footprint. rewrite not_elem_of_app. split.
  - destruct (allowed req) eqn:Ha; [by apply allowed_footprint|]. by intros ?%list_elem_of_singleton.
  - destruct (is_capability _); [by intros ?%list_elem_of_singleton|by intros ?%elem_of_nil].
Qed.

(** ** Refused requests *)

(** The chain can be written to. *)
Definition recordable (ch : AuditChain) : Prop := (0 < max_entries (ac_retention ch) < usize_max)%N.

Lemma chain_record_total ch t ev comp det :
  recordable ch → ∃ ch' i, AuditChain_record t ev comp det ch = Some (ch', i) ∧
    ac_retention ch' = ac_retention ch.
Proof.
  intros Hr. destruct (decide (N.of_nat (length (ac_entries ch)) < max_entries (ac_retention ch))%N).
  - rewrite record_room by done. by eexists _, _.
  - unfold recordable in Hr. destruct (ac_entries ch) as [|e l] eqn:Hc; [simpl in *; lia|].
    rewrite (record_full ch t ev comp det e l) by (rewrite ?Hc; simpl in *; done || lia). by eexists _, _.
Qed.

Lemma record_audit_total cap args comp b c :
  recordable (co_audit c) →
  ∃ ch e, record_audit cap args comp b c = (set_audit ch (set_env e c), Some tt) ∧ recordable ch.
Proof.
  intros Hr. unfold record_audit, unix_ms, mbind, Cmd_bind, state, update. cbv zeta.
  destruct (env_unix_ms (co_env c)) as [t e]. simpl.
  edestruct (chain_record_total (co_audit c)) as (ch & i & -> & Hk); [done|].
  exists ch, e. split; [done|]. unfold recordable in *. by rewrite Hk.
Qed.

Lemma gate_refuses req :
  allowed req = false →
  ∃ code message, gate_response (J := J) (req_command req) (policy_verdict (req_command req) (req_actor_trust req)) =
    err (req_command req) code message ∧
    code ∈ ["POLICY_DENIED_UNTRUSTED"; "POLICY_DENIED"; "REQUIRES_CONFIRMATION"].
Proof.
  unfold allowed, PolicyVerdict_is_allow, gate_response. rewrite bool_decide_eq_false.
  destruct (policy_verdict _ _) as [d reason]; simpl. destruct d; [done|..];
    intros _; eexists _, _; (split; [reflexivity|]); repeat case_match; set_solver.
Qed.

Lemma dispatch_refused req c :
  allowed req = false → recordable (co_audit c) →
  ∃ ch e code message,
    dispatch req c = (set_audit ch (set_env e c), Some (err (req_command req) code message)) ∧
    recordable ch ∧ code ∈ ["POLICY_DENIED_UNTRUSTED"; "POLICY_DENIED"; "REQUIRES_CONFIRMATION"].
Proof.
  intros Ha Hr. destruct (gate_refuses req Ha) as (code & msg & Hg & Hc).
  unfold dispatch, dispatch_inner. cbv zeta. fold (allowed req). rewrite Ha. simpl.
  edestruct (record_audit_total "policy.deny") as (ch & e & Hx & Hr1); [exact Hr|].
  unfold mbind, Cmd_bind. rewrite Hx, Hg. cbn [mret Cmd_ret].
  destruct (is_capability _).
  - edestruct (record_audit_total (req_command req)) as (ch2 & e2 & Hy & Hr2);
      [|rewrite Hy; by exists ch2, e2, code, msg]. done.
  - by exists ch, e, code, msg.
Qed.

(** ** Shutting down *)

Lemma shutdown_refused req : req_command req = "shutdown" → allowed req = false.
Proof. unfold allowed. intros ->. by destruct (req_actor_trust req). Qed.

Lemma local_stops_succeed : stops_succeed (X := LocalExecutor).
Proof. intros h x. by exists x. Qed.

Definition all_stopped (s : ServiceManager) : Prop :=
  ∀ id r, sm_state s !! id = Some r → ms_status r = SsStopped ∧ ms_handle r = None.

Lemma stop_services_stops l c :
  managed l (co_manager c) →
  ∃ s, stop_services c = (set_manager s c, Some tt) ∧ managed l s ∧ all_stopped s.
Proof.
  intros Hm. destruct (managed_graph l _ Hm) as [_ Hdom]. unfold stop_services, stop_all.
  destruct (stop_each_ok (stop_order (sm_graph (co_manager c))) None (co_manager c) (new_executor c)
    local_stops_succeed) as (s & x & Hs & Hin & Hout).
  { intros id Hid. unfold stop_order in Hid. rewrite elem_of_reverse in Hid.
    apply (proj2 Hm id), (Hdom id), Hid. }
  pose proof (stop_each_same (stop_order (sm_graph (co_manager c))) None (co_manager c) (new_executor c)) as Hsame.
  rewrite Hs in Hsame |- *. exists s. split; [done|].
  assert (managed l s) as Hm' by (by eapply managed_same). split; [done|]. intros id r Hr.
  destruct (decide (id ∈ stop_order (sm_graph (co_manager c)))) as [Hi|Hi].
  - destruct (Hin id Hi) as (r' & Hr' & ?). by simplify_eq.
  - destruct Hi. unfold stop_order. rewrite elem_of_reverse, Hdom, <-(proj1 Hsame).
    apply (proj2 Hm' id). by exists r.
Qed.

Lemma serve_line_refused line req c :
  str_is_empty (str_trim line) = false → ipc_request_from_str line = Ok req →
  allowed req = false → recordable (co_audit c) →
  ∃ ch e r, serve_line line c =
      (set_audit ch (set_env e c), Some (Some r, (req_command req =? "shutdown")%string)) ∧
    recordable ch ∧ resp_ok r = false.
Proof.
  intros Hl Hp Ha Hr. unfold serve_line. rewrite Hl, Hp.
  destruct (dispatch_refused req c Ha Hr) as (ch & e & code & msg & Hd & Hr' & _).
  unfold mbind, Cmd_bind. rewrite Hd. by eexists _, _, _.
Qed.

(** C6: any peer can stop the system.  A line that asks for a shutdown is
    refused by the gate, whoever it claims to come from, and is answered with an
    error; the daemon nevertheless stops every service and leaves its loop, and
    no later connection is served. *)
Theorem shutdown_needs_no_permission l line writable req rest c :
  str_is_empty (str_trim line) = false → ipc_request_from_str line = Ok req →
  req_command req = "shutdown" → managed l (co_manager c) → recordable (co_audit c) →
  ∃ r, snd <$> (serve_line line c).2 = Some true ∧ fst <$> (serve_line line c).2 = Some (Some r) ∧
    resp_ok r = false ∧
    ∃ c', serve ([(line, writable)] :: rest) c = (c', Some true) ∧ all_stopped (co_manager c').
Proof.
  intros Hl Hp Hs Hm Hr.
  destruct (serve_line_refused line req c Hl Hp (shutdown_refused req Hs) Hr) as (ch & e & r & Hd & _ & Hf).
  rewrite Hs in Hd. exists r. rewrite Hd. split_and!; [done|done|done|].
  destruct (stop_services_stops l (set_audit ch (set_env e c)) Hm) as (s & Hst & _ & Hall).
  exists (set_manager s (set_audit ch (set_env e c))). split; [|exact Hall].
  cbn [serve serve_lines]. unfold mbind, Cmd_bind. rewrite Hd. simpl.
  destruct writable; simpl; by rewrite Hst.
Qed.

(** ** Pairing *)

Lemma run_bind {A B} (m : Cmd E J A) (f : A → Cmd E J B) c c' a :
  m c = (c', Some a) → (m ≫= f) c = f a c'.
Proof. intros Hm. unfold mbind, Cmd_bind. by rewrite Hm. Qed.

Lemma state_run c : state c = (c, Some c).
Proof. done. Qed.

Lemma unix_ms_run c :
  unix_ms c = (set_env (env_unix_ms (co_env c)).2 c, Some (N.min (env_unix_ms (co_env c)).1 u64_max)).
Proof. unfold unix_ms. by destruct (env_unix_ms (co_env c)). Qed.

Lemma with_code_same r : with_code (preq_code r) r = r.
Proof. by destruct r. Qed.

(** Completing a pairing proves nothing about the peer.  For a device whose
    pairing has begun, any trusted caller who sends a request and an acceptance
    that agree with each other makes the device paired: neither the fingerprint
    it was registered with nor any code of the daemon's own is compared with
    what the caller sends.  The registered fingerprint stays, nothing but the
    registry changes, and no entry is written to the audit chain. *)
Theorem pairing_trusts_the_caller req request acceptance d c vr va :
  req_command req = "device.pair.complete" → req_actor_trust req = Trusted →
  param req "request" = Some vr → param req "acceptance" = Some va → param_str req "local_code" = None →
  pairing_request_from_value vr = Ok request → acceptance_from_value va = Ok acceptance →
  validate_acceptance request acceptance 60000 (N.min (env_unix_ms (co_env c)).1 u64_max) = Ok tt →
  DeviceId_new (pacc_device_id acceptance) = Some (pacc_device_id acceptance) →
  co_devices c !! pacc_device_id acceptance = Some d → pair_state (rd_pairing d) = PairingInProgress →
  let '(c', o) := dispatch req c in
  resp_ok <$> o = Some true ∧ touches [PDevices] c c' ∧
  ∃ d', co_devices c' !! pacc_device_id acceptance = Some d' ∧ pair_state (rd_pairing d') = Paired ∧
    rd_fingerprint d' = rd_fingerprint d ∧ rd_device_id d' = rd_device_id d.
Proof.
  intros Hcmd Htr Hr Ha Hlc Hdr Hda Hv Hid Hd Hst.
  assert (∃ e d', cmd_device_pair_complete req c =
    (set_devices (<[pacc_device_id acceptance := d']> (co_devices c)) (set_env e c),
     Some (ok "device.pair.complete" (device_state (pacc_device_id acceptance) "paired"))) ∧
    pair_state (rd_pairing d') = Paired ∧ rd_fingerprint d' = rd_fingerprint d ∧
    rd_device_id d' = rd_device_id d) as (e & d' & Hrun & Hp).
  { unfold cmd_device_pair_complete, local_code. rewrite Hr, Ha, Hlc, Hdr, Hda. cbv zeta.
    rewrite (run_bind _ _ _ _ _ (unix_ms_run c)). rewrite with_code_same, Hv, Hid.
    rewrite (run_bind _ _ _ _ _ (state_run _)). unfold registry_get. cbn [co_devices set_env]. rewrite Hd, Hst.
    rewrite bool_decide_true by done. unfold device_transition. rewrite (run_bind _ _ _ _ _ (state_run _)). unfold registry_transition.
    cbn [co_devices set_env]. rewrite Hd. by eexists _, _. }
  unfold dispatch, dispatch_inner. cbv zeta. rewrite Hcmd, Htr.
  change (handler_of (E := E) (J := J) "device.pair.complete") with (Some (cmd_device_pair_complete (E := E))).
  cbn [negb]. change (negb _) with false. cbv iota. rewrite (run_bind _ _ _ _ _ Hrun).
  split; [done|]. split; [by etransitivity; [apply touches_env|apply touches_devices; left]|].
  exists d'. split; [|done]. simpl. by rewrite lookup_insert_eq.
Qed.
End commands.

(** ** A concrete daemon *)

Module ToyCore.
Export ToyRuntime ToyProcesses ToyAead.

#[export] Instance toy_core_env : CoreEnv N := {|
  env_unix_ms e := (e, e + 1)%N;
  env_instant e := e;
  env_elapsed e := Some e;
  env_surface port line e := (Err (SfConnect "refused"), e);
  env_proc_dir e := None;
  env_no_space e fs p := false;
  env_dir_names e fs p := [];
|}.

#[export] Instance toy_machine : MachineFiles N := {|
  mf_read e p := None;
  mf_df e p := None;
  mf_exists e p := false;
  mf_env e k := None;
  mf_parallelism e := None;
  mf_arch := "x86_64";
  mf_os := "linux";
|}.

#[export] Instance toy_core_rng : Rng N := {| rng_fill k e := (repeat Byte.x00 k, e) |}.
#[export] Instance toy_float : FloatText ToyJson := {|
  float_parse s := None;
  float_zero := TNum 0;
  float_millis s := None;
|}.
#[export] Instance toy_core_digest : Digest := λ m, repeat Byte.x00 32.
#[export] Instance toy_key_text : KeyErrorText := {| key_error_text k := "not a key" |}.

(** A line is read as a request: the name of the command, with the mark of an
    untrusted sender in front.  A pairing message is always the same one. *)
#[export] Instance toy_core_json : CoreJson ToyJson := {|
  json_insert j k v := match j with TObj l => TObj (l ++ [(k, v)]) | _ => j end;
  status_to_value s := Ok (TObj []);
  report_json r := TNull;
  instance_json i := TNull;
  file_metas_json l := TNull;
  sandbox_plan_to_value p := Ok TNull;
  update_plan_to_value p := Ok TNull;
  update_kind_json k := TNull;
  trust_json t := TNull;
  proposal_to_value p := Ok TNull;
  task_to_value t := Ok TNull;
  observation_to_value o := Ok TNull;
  device_to_value d := Ok TNull;
  action_to_value a := Ok TNull;
  header_from_value j := Err "no header";
  proposal_from_value j := Err "no proposal";
  observation_from_value j := Err "no observation";
  grant_from_value j := Err "no grant";
  pairing_request_from_value j :=
    Ok (mkPairingRequest "phone-1" Phone [Byte.x01] (mkPairingCode []) PairingGrant_permissive 5);
  acceptance_from_value j :=
    Ok (mkPairingAcceptance "phone-1" Phone [Byte.x01] (mkPairingCode []) PairingGrant_permissive 6);
  ipc_request_from_str s :=
    if String.prefix "!" s
    then Ok (mkIpcRequest "peer" (String.substring 1 (String.length s - 1) s) (TObj []) Untrusted)
    else Ok (mkIpcRequest "peer" s (TObj []) Trusted);
|}.

(** The daemon over two services, one of which depends on the other. *)
Definition toy_core : Core N ToyJson :=
  mkCore (fst (fst (start_all (ServiceManager_new example_dgraph) (mkLocalExecutor 0 7))))
    ApplicationManager_default (mkWorkspaceConfig [] 4096 ∅) ∅ AuditChain_default
    (SealedStore_new (mkStaticKeyProvider [])) None State.UpdateStatus_default
    Version.VersionPolicy_default AgentStatus_new ∅ 7%N.
End ToyCore.

Section toy.
Import ToyCore.

Lemma toy_managed : managed example_services (co_manager toy_core).
Proof.
  apply (run_op_invariant example_services OpStartAll (ServiceManager_new example_dgraph, mkLocalExecutor 0 7)).
  - apply managed_new, example_dgraph_resolved.
  - intros id m n _. unfold restarts_of. simpl. rewrite lookup_fmap.
    destruct (_ !! id); simpl; [|done]. intros [= <-]. lia.
Qed.

Lemma shutdown_needs_no_permission_witness :
  is_running (co_manager toy_core) "net" = true ∧
  ∃ c', serve [[("!shutdown", true)]; [("status", true)]] toy_core = (c', Some true) ∧
    is_running (co_manager c') "net" = false.
Proof.
  split; [vm_compute; reflexivity|].
  edestruct (shutdown_needs_no_permission example_services "!shutdown" true
    (mkIpcRequest "peer" "shutdown" (TObj []) Untrusted) [[("status", true)]] toy_core)
    as (r & _ & _ & _ & c' & Hc & Hall);
    [reflexivity|reflexivity|reflexivity|apply toy_managed|split; reflexivity|].
  exists c'. split; [exact Hc|]. unfold is_running.
  destruct (sm_state (co_manager c') !! "net") as [r'|] eqn:Hr; [|reflexivity].
  destruct (Hall _ _ Hr) as [Hst _]. simpl. rewrite Hst. reflexivity.
Defined.

(** The phone was registered with another fingerprint than the caller's. *)
Definition toy_pairing_core : Core N ToyJson :=
  set_devices (registry_run [OpRegister "phone-1" Phone [Byte.x99] PairingGrant_permissive 1;
                             OpPairTransition "phone-1" PairingInProgress 2]) toy_core.

Definition toy_pairing_request : IpcRequest ToyJson :=
  mkIpcRequest "peer" "device.pair.complete" (TObj [("request", TNull); ("acceptance", TNull)]) Trusted.

Lemma pairing_trusts_the_caller_witness :
  ∃ c' o d', dispatch toy_pairing_request toy_pairing_core = (c', o) ∧ resp_ok <$> o = Some true ∧
    co_devices c' !! "phone-1" = Some d' ∧ pair_state (rd_pairing d') = Paired ∧
    rd_fingerprint d' = [Byte.x99].
Proof.
  destruct (co_devices toy_pairing_core !! "phone-1") as [d|] eqn:Hd; [|vm_compute in Hd; discriminate Hd].
  assert (pair_state (rd_pairing d) = PairingInProgress ∧ rd_fingerprint d = [Byte.x99]) as [Hs Hf]
    by (vm_compute in Hd; injection Hd as <-; split; reflexivity).
  pose proof (pairing_trusts_the_caller toy_pairing_request
    (mkPairingRequest "phone-1" Phone [Byte.x01] (mkPairingCode []) PairingGrant_permissive 5)
    (mkPairingAcceptance "phone-1" Phone [Byte.x01] (mkPairingCode []) PairingGrant_permissive 6)
    d toy_pairing_core TNull TNull eq_refl eq_refl eq_refl eq_refl eq_refl eq_refl eq_refl
    ltac:(vm_compute; reflexivity) ltac:(vm_compute; reflexivity) Hd Hs) as H.
  destruct (dispatch toy_pairing_request toy_pairing_core) as [c' o].
  destruct H as (Ho & _ & d' & Hd' & Hp & Hfp & _). exists c', o, d'.
  split; [reflexivity|]. split; [exact Ho|]. split; [exact Hd'|]. split; [exact Hp|].
  rewrite Hfp. exact Hf.
Defined.
End toy.
