(* ===== verification/CoreInvariant.v ===== *)
(** * The invariant of the system-core daemon

    Every request, whatever its command and its parameters, keeps the state of
    the daemon sound and is answered. *)
From S2P Require Import Prelude RustStd Json Signing UpdateCore TaskGraph HashChain AuditChain.
From S2P Require Import CoreTypes DepGraph Manager Sandbox Policy AgentCore Devices UnixFs Storage.
From S2P Require Import Actions RuntimeLog RuntimeHost RuntimeScenarios Credentials AppManager SystemInfo TaskToAction.
From S2P Require Import CoreState CoreCommands CoreSecurity CoreAgents CoreDispatch CoreProps.

(** ** Safe runs *)

Section safe.
Context {E J : Type}.
Implicit Types (I : Core E J → Prop) (c : Core E J).

(** The counter of application instances has reached its last value. *)
Definition exhausted c : Prop := apm_next_instance (co_apps c) = u64_max.

(** The handler keeps [I], and it panics only when the counter is exhausted. *)
Definition safe {A} I (m : Cmd E J A) c : Prop :=
  I (m c).1 ∧ ((m c).2 = None → exhausted (m c).1).

Lemma safe_ret {A} I (a : A) c : I c → safe I (mret a) c.
Proof. by split. Qed.

Lemma safe_update I f c : I (f c) → safe I (update f) c.
Proof. by split. Qed.

Lemma safe_bind {A B} I (m : Cmd E J A) (f : A → Cmd E J B) c :
  safe I m c → (∀ a c', m c = (c', Some a) → I c' → safe I (f a) c') → safe I (m ≫= f) c.
Proof.
  unfold safe. intros [HI Ho] Hf.
  change ((m ≫= f) c) with
    (let '(c, o) := m c in match o with Some a => f a c | None => (c, None) end).
  destruct (m c) as [c' [a|]] eqn:E1; simpl in *; [by apply Hf|split; auto].
Qed.

Lemma safe_bind_state {B} I (f : Core E J → Cmd E J B) c : safe I (f c) c → safe I (state ≫= f) c.
Proof. done. Qed.
End safe.

(** ** The invariant *)

Section invariant.
Context {E J : Type} `{!CoreEnv E} `{!RuntimeEnv E} `{!MachineFiles E} `{!Processes E} `{!Rng E}
  `{!JsonOps J} `{!JsonParse J} `{!CoreJson J} `{!FloatText J} `{!ObservationText J}
  `{!UuidText} `{!Aead} {D : Digest} {Cr : Crypto} `{!KeyErrorText}.
Implicit Types (req : IpcRequest J) (c : Core E J).

(** The requests that have reached the daemon. *)
Variable asked : IpcRequest J → Prop.

(** The observation, and the proposal, of such a request. *)
Definition observed (o : AgentCore.Observation J) : Prop :=
  ∃ req v, asked req ∧ req_command req = "agent.observe" ∧ param req "observation" = Some v ∧
    observation_from_value v = Ok o.
Definition proposed (p : Proposal J) : Prop :=
  ∃ req v, asked req ∧ req_command req = "agent.propose" ∧ param req "proposal" = Some v ∧
    proposal_from_value v = Ok p.

(** A pending proposal was proposed by a request and was valid for observations
    that had been reported. *)
Definition proposal_sound (p : Proposal J) : Prop :=
  proposed p ∧ ∃ observations, Forall observed observations ∧ proposal_valid p observations.

(** A task is the task of such a proposal, and a request approved it. *)
Definition task_sound (t : AgentTask J) : Prop :=
  (∃ p req, proposal_sound p ∧ asked req ∧ req_command req = "agent.approve" ∧
     param_str req "id" = Some (prop_id p) ∧
     proposal_to_task p (mkTaskId ("task-" +:+ prop_id p)) = Some t) ∧
  task_depends_on t = [] ∧
  ProposalRisk_rank (min_risk (task_kind t)) ≤ TaskRisk_rank (task_risk t).

Definition agent_inv (s : AgentStatus J) : Prop :=
  graph_wf (as_tasks s) ∧ Forall task_sound (as_tasks s) ∧
  map_Forall (λ id p, prop_id p = id ∧ proposal_sound p) (as_proposals s) ∧
  length (as_history s) ≤ MAX_TASK_HISTORY ∧ length (as_observations s) ≤ OBSERVATION_LOG_LIMIT ∧
  Forall observed (as_observations s).

(** Every credential is stored under its name and was sealed with the key of
    the store. *)
Definition sealed_inv (s : SealedStore StaticKeyProvider) : Prop :=
  map_Forall (λ name k, cred_name k = name ∧
    ∃ nonce p ct, blob_bytes (cred_blob k) = nonce ++ ct ∧
      aead_encrypt (static_key (ss_key_provider s)) nonce (as_bytes p) = Some ct ∧
      cred_plaintext_len k = String.length p) (ss_entries s).

(** The daemon over the services [l]. *)
Record core_inv (l : list ServiceManifest) c : Prop := {
  ci_manager : managed l (co_manager c);
  ci_apps : app_inv (co_apps c);
  ci_audit : recordable (co_audit c);
  ci_sealed : sealed_inv (co_credentials c);
  ci_agent : agent_inv (co_agent c);
  ci_devices : registry_wf (co_devices c);
}.

Lemma inv_env l e c : core_inv l c → core_inv l (set_env e c).
Proof. by intros []. Qed.
Lemma inv_manager l s c : managed l s → core_inv l c → core_inv l (set_manager s c).
Proof. by intros ? []. Qed.
Lemma inv_apps l m e c : app_inv m → core_inv l c → core_inv l (set_apps m e c).
Proof. by intros ? []. Qed.
Lemma inv_fs l fs c : core_inv l c → core_inv l (set_fs fs c).
Proof. by intros []. Qed.
Lemma inv_audit l ch c : recordable ch → core_inv l c → core_inv l (set_audit ch c).
Proof. by intros ? []. Qed.
Lemma inv_credentials l s e c : sealed_inv s → core_inv l c → core_inv l (set_credentials s e c).
Proof. by intros ? []. Qed.
Lemma inv_update_status l s c : core_inv l c → core_inv l (set_update_status s c).
Proof. by intros []. Qed.
Lemma inv_agent l s c : agent_inv s → core_inv l c → core_inv l (set_agent s c).
Proof. by intros ? []. Qed.
Lemma inv_devices l r c : registry_wf r → core_inv l c → core_inv l (set_devices r c).
Proof. by intros ? []. Qed.

(** *** The parts *)

Lemma seal_sealed t n p b f s (e : E) : sealed_inv s → sealed_inv (seal t n p b f s e).1.1.
Proof.
  intros Hs. unfold seal. destruct (negb f && _); [done|]. simpl.
  destruct (rng_fill 12 e) as [nonce e']. destruct (aead_encrypt _ _ _) as [ct|] eqn:Hct; [|done]. simpl.
  apply map_Forall_insert_2; [|done]. split; [done|]. by exists nonce, p, ct.
Qed.

Lemma remove_sealed n s : sealed_inv s → sealed_inv (ss_remove n s).1.
Proof.
  intros Hs. unfold ss_remove. destruct (ss_entries s !! n); [|done]. by apply map_Forall_delete.
Qed.

Lemma start_missing_same deps s x : same_services s (start_missing deps s x).1.
Proof.
  revert s x. induction deps as [|d deps IH]; intros s x; simpl; [auto with aether|].
  destruct (reported_running s x d); [apply IH|].
  pose proof (start_one_same d s x) as Hs. destruct (start_one d s x) as [[s1 x1] r]. simpl in Hs.
  eapply same_services_trans; [exact Hs|apply IH].
Qed.

Lemma restart_one_same {X} `{!ServiceExecutor X} id s (x : X) : same_services s (restart_one id s x).1.1.
Proof.
  unfold restart_one. pose proof (stop_one_same id s x) as Hs.
  destruct (stop_one id s x) as [[s1 x1] [u|e]]; simpl in *; [|done].
  eapply same_services_trans; [exact Hs|]. eapply same_services_trans; [|apply start_one_same].
  auto with aether.
Qed.

Lemma add_proposal_inv p s : proposal_sound p → agent_inv s → agent_inv (add_proposal p s).1.
Proof. intros ? (?&?&?&?&?&?). split_and!; try done. simpl. by apply map_Forall_insert_2. Qed.

Lemma add_observation_inv o s : observed o → agent_inv s → agent_inv (add_observation o s).
Proof.
  intros Ho (?&?&?&?&?&Hos). split_and!; try done; [apply length_push_bounded|].
  simpl. apply Forall_push_bounded; done.
Qed.

Lemma record_history_inv t stage now note s s' :
  record_history true (mkTaskHistoryEntry t stage now note) s = Some s' → agent_inv s → agent_inv s'.
Proof.
  unfold record_history. destruct (_ && _); [done|]. intros [= <-] (?&?&?&?&?&?).
  split_and!; try done. apply length_push_bounded.
Qed.

Lemma graph_remove_sublist id (g : list (AgentTask J)) : (graph_remove id g).1 `sublist_of` g.
Proof. unfold graph_remove. destruct (position _ g); [apply vec_remove_sublist|done]. Qed.

Lemma remove_task_inv id s :
  agent_inv s → agent_inv (with_tasks (graph_remove id (as_tasks s)).1 s).
Proof.
  intros (Hg&Ht&?&?&?&?). split_and!; simpl; try done; [by apply graph_remove_wf|].
  rewrite Forall_forall in Ht |- *. intros t Hin. apply Ht.
  eapply sublist_subseteq; [apply (graph_remove_sublist id)|done].
Qed.

Lemma remove_proposal_inv id s : agent_inv s → agent_inv (remove_proposal id s).1.
Proof. intros (?&?&?&?&?&?). split_and!; try done. by apply map_Forall_delete. Qed.

Lemma insert_task_inv t s :
  task_sound t → agent_inv s →
  ∃ g r, graph_insert t (as_tasks s) = Some (g, r) ∧ agent_inv (with_tasks g s).
Proof.
  intros Ht (Hg&Hts&?&?&?&?). destruct (graph_insert_spec (as_tasks s) t Hg) as ([g r] & Hi & Hsp).
  exists g, r. split; [done|]. pose proof (insert_spec_wf _ _ _ Hg Hsp) as Hw.
  split_and!; try done. simpl. inversion Hsp; subst; try done. apply Forall_app. by split; [|constructor].
Qed.

Lemma approved_task_sound (p : Proposal J) req :
  proposal_sound p → asked req → req_command req = "agent.approve" →
  param_str req "id" = Some (prop_id p) →
  ∃ t, proposal_to_task p (mkTaskId ("task-" +:+ prop_id p)) = Some t ∧ task_sound t.
Proof.
  intros Hp Ha Hc Hid. pose proof Hp as (_ & obs & _ & Hv).
  destruct (proposal_to_task_valid p obs (mkTaskId ("task-" +:+ prop_id p)) Hv)
    as (t & Ht & _ & Hk & Hri & Hd & _); [done|].
  exists t. split; [done|]. split_and!; [by exists p, req|done|]. rewrite Hk, Hri.
  destruct Hv as (_ & _ & _ & _ & _ & Hr). by destruct (prop_risk p).
Qed.

(** *** Steps *)

Lemma unix_ms_safe l c : core_inv l c → safe (core_inv l) unix_ms c.
Proof. intros H2. unfold safe, unix_ms. destruct (env_unix_ms _). split; [by apply inv_env|done]. Qed.

Lemma record_audit_safe l cap args comp b c :
  core_inv l c → safe (core_inv l) (record_audit cap args comp b) c.
Proof.
  intros H2. destruct (record_audit_total cap args comp b c) as (ch & e & Heq & Hr); [apply H2|].
  unfold safe. rewrite Heq. split; [|done]. by apply inv_audit, inv_env.
Qed.

Lemma app_state_of_safe l id c : core_inv l c → safe (core_inv l) (app_state_of id) c.
Proof.
  intros H2. unfold safe, app_state_of. pose proof (reap_inv _ (co_env c) (ci_apps _ _ H2)) as Ha.
  unfold app_state. destruct (reap _ _). split; [by apply inv_apps|done].
Qed.
Lemma app_stats_safe l c : core_inv l c → safe (core_inv l) app_stats c.
Proof.
  intros H2. unfold safe, app_stats. pose proof (reap_inv _ (co_env c) (ci_apps _ _ H2)) as Ha.
  unfold stats. destruct (reap _ _). split; [by apply inv_apps|done].
Qed.
Lemma app_running_safe l c : core_inv l c → safe (core_inv l) app_running c.
Proof.
  intros H2. unfold safe, app_running. pose proof (reap_inv _ (co_env c) (ci_apps _ _ H2)) as Ha.
  unfold running. destruct (reap _ _). split; [by apply inv_apps|done].
Qed.
Lemma app_close_safe l id c : core_inv l c → safe (core_inv l) (app_close id) c.
Proof.
  intros H2. unfold safe, app_close. pose proof (close_inv id _ (co_env c) (ci_apps _ _ H2)) as Ha.
  destruct (close_app _ _ _) as [[m e] r]. split; [by apply inv_apps|done].
Qed.
Lemma app_launch_safe l id c : core_inv l c → safe (core_inv l) (app_launch id) c.
Proof.
  intros H2. unfold safe, app_launch. destruct (launch_app _ _ _) as [[[m e] r]|] eqn:Hl.
  - split; [|done]. apply inv_apps; [|done]. by eapply launch_inv, Hl; apply H2.
  - split; [done|]. intros _. by eapply launch_exhausted.
Qed.
Lemma app_states_safe l ids c : core_inv l c → safe (core_inv l) (app_states ids) c.
Proof.
  revert c. induction ids as [|id ids IH]; intros c Hc; [by apply safe_ret|]. simpl.
  apply safe_bind; [by apply app_state_of_safe|]. intros r c1 _ H2.
  apply safe_bind; [by apply IH|]. intros. by apply safe_ret.
Qed.

Lemma seal_at_safe l t n p b f c : core_inv l c → safe (core_inv l) (seal_at t n p b f) c.
Proof.
  intros H2. unfold safe, seal_at.
  pose proof (seal_sealed t n p b f _ (co_env c) (ci_sealed _ _ H2)) as Hs.
  destruct (seal _ _ _ _ _ _ _) as [[s e] r]. split; [by apply inv_credentials|done].
Qed.
Lemma store_unseal_safe l n c : core_inv l c → safe (core_inv l) (store_unseal n) c.
Proof. intros H2. unfold safe, store_unseal. destruct (unseal _ _ _). split; [by apply inv_env|done]. Qed.
Lemma store_remove_safe l n c : core_inv l c → safe (core_inv l) (store_remove n) c.
Proof.
  intros H2. unfold safe, store_remove. pose proof (remove_sealed n _ (ci_sealed _ _ H2)) as Hs.
  destruct (ss_remove _ _). split; [by apply inv_credentials|done].
Qed.

Lemma agent_remove_task_safe l id c : core_inv l c → safe (core_inv l) (agent_remove_task id) c.
Proof.
  intros H2. unfold safe, agent_remove_task. pose proof (remove_task_inv id _ (ci_agent _ _ H2)) as Hs.
  destruct (graph_remove _ _). split; [by apply inv_agent|done].
Qed.
Lemma agent_insert_task_safe l t c :
  task_sound t → core_inv l c → safe (core_inv l) (agent_insert_task t) c.
Proof.
  intros Ht H2. unfold safe, agent_insert_task.
  destruct (insert_task_inv t _ Ht (ci_agent _ _ H2)) as (g & r & -> & Hs). split; [by apply inv_agent|done].
Qed.
Lemma agent_remove_proposal_safe l id c : core_inv l c → safe (core_inv l) (agent_remove_proposal id) c.
Proof.
  intros H2. unfold safe, agent_remove_proposal.
  pose proof (remove_proposal_inv id _ (ci_agent _ _ H2)) as Hs.
  destruct (remove_proposal _ _). split; [by apply inv_agent|done].
Qed.
Lemma agent_record_safe l t stage now note c :
  TaskStage_is_terminal stage = true → core_inv l c → safe (core_inv l) (agent_record t stage now note) c.
Proof.
  intros Ht H2. unfold safe, agent_record.
  destruct (record_history _ _ _) as [s|] eqn:Hr.
  - split; [|done]. apply inv_agent; [|done]. eapply record_history_inv; [exact Hr|apply H2].
  - unfold record_history in Hr. simpl in Hr. by rewrite Ht in Hr.
Qed.
Lemma action_of_task_safe l s t c : core_inv l c → safe (core_inv l) (action_of_task s t) c.
Proof.
  intros H2. unfold safe, action_of_task. destruct (env_uuid _), (task_to_action _ _ _);
    (split; [simpl; auto using inv_env|done]).
Qed.
Lemma run_executor_safe l p a c : core_inv l c → safe (core_inv l) (run_executor p a) c.
Proof.
  intros H2. unfold safe, run_executor.
  destruct (execute_with_recovery_tries p 4750 a (mkWorld (start_host 0 0 0 []) (co_env c) [])) as [_ Hp].
  destruct (execute_with_recovery _ _ _ _) as [w o]. simpl in Hp.
  split; [by apply inv_env|]. by destruct o.
Qed.
Lemma surface_call_safe l (j : J) c : core_inv l c → safe (core_inv l) (surface_call j) c.
Proof.
  intros H2. unfold surface_call. apply safe_bind_state. cbv zeta. destruct (env_surface _ _ _) as [r e].
  apply safe_bind; [by apply safe_update, inv_env|]. intros. by apply safe_ret.
Qed.

Create HintDb safe discriminated.
#[local] Hint Resolve inv_env inv_fs inv_update_status : safe.
#[local] Hint Resolve unix_ms_safe record_audit_safe app_state_of_safe app_stats_safe app_running_safe
  app_close_safe app_launch_safe app_states_safe seal_at_safe store_unseal_safe store_remove_safe
  agent_remove_task_safe agent_remove_proposal_safe action_of_task_safe run_executor_safe
  surface_call_safe : safe.
#[local] Hint Extern 1 (safe _ (agent_record _ _ _ _) _) => apply agent_record_safe; [reflexivity|] : safe.

(** One step through a handler. *)
Local Ltac safe_step :=
  match goal with
  | |- safe _ (state ≫= _) _ => apply safe_bind_state; cbv beta zeta
  | |- safe _ (_ ≫= _) _ => apply safe_bind; [|intros ? ? ? ?; cbv beta zeta]
  | |- safe _ (update _) _ => apply safe_update; solve [auto with safe nocore]
  | |- safe _ (mret _) _ => apply safe_ret; assumption
  | |- safe _ (match ?x with _ => _ end) _ => destruct x eqn:?
  | |- safe _ _ _ => solve [auto with safe nocore]
  end.
Local Ltac safe_steps := repeat safe_step.

Lemma surface_reply_safe l cm j c : core_inv l c → safe (core_inv l) (surface_reply cm j) c.
Proof. intros. unfold surface_reply. safe_steps. Qed.
Lemma window_by_app_safe l cm op a c : core_inv l c → safe (core_inv l) (window_by_app cm op a) c.
Proof. intros. unfold window_by_app. safe_steps; by apply surface_reply_safe. Qed.
Lemma device_step_safe l o c :
  core_inv l c → core_inv l (set_devices (registry_step o (co_devices c)) c).
Proof. intros H2. apply inv_devices; [|done]. apply registry_step_wf, H2. Qed.
Lemma device_transition_safe l cm d i n s t c :
  core_inv l c → safe (core_inv l) (device_transition cm d i n s t) c.
Proof.
  intros H2. unfold device_transition. apply safe_bind_state. cbv beta.
  pose proof (device_step_safe l (OpPairTransition d s t) c H2) as H3. cbn [registry_step] in H3.
  destruct (registry_transition _ _ _ _) as [r o]. apply safe_bind; [by apply safe_update|].
  intros. by apply safe_ret.
Qed.
Lemma agent_dry_run_safe l s i t c : core_inv l c → safe (core_inv l) (agent_dry_run s i t) c.
Proof. intros. unfold agent_dry_run. safe_steps. Qed.
Lemma context_safe l c : core_inv l c → safe (core_inv l) build_context_snapshot c.
Proof. intros. unfold build_context_snapshot. safe_steps. Qed.
Lemma store_seal_safe l n p b f c : core_inv l c → safe (core_inv l) (store_seal n p b f) c.
Proof. intros. unfold store_seal. safe_steps. Qed.
#[local] Hint Resolve surface_reply_safe window_by_app_safe device_transition_safe agent_dry_run_safe
  context_safe store_seal_safe : safe.

(** *** Commands *)

Lemma cmd_service_safe l req c : core_inv l c → safe (core_inv l) (cmd_service req) c.
Proof.
  intros H2. unfold cmd_service. cbv zeta. destruct (param_str req "service") as [id|]; [|by apply safe_ret].
  apply safe_bind_state. cbv beta zeta. destruct (dg_manifest _ id) as [m|]; [|by apply safe_ret].
  assert (∀ s, same_services (co_manager c) s → core_inv l (set_manager s c)) as Hs.
  { intros s Hs. apply inv_manager; [|done]. eapply managed_same, Hs. apply H2. }
  destruct (_ || _).
  - pose proof (start_missing_same (dependencies m) (co_manager c) (new_executor c)) as Ha.
    destruct (start_missing _ _ _) as [s1 x1]. pose proof (restart_one_same id s1 x1) as Hb.
    destruct (restart_one id s1 x1) as [[s2 x2] r]. simpl in *.
    apply safe_bind; [by eapply safe_update, Hs, same_services_trans|]. intros. by apply safe_ret.
  - pose proof (stop_one_same id (co_manager c) (new_executor c)) as Ha.
    destruct (stop_one _ _ _) as [[s2 x2] r]. simpl in *.
    apply safe_bind; [by apply safe_update, Hs|]. intros. by apply safe_ret.
Qed.

Lemma cmd_audit_prune_safe l req c : core_inv l c → safe (core_inv l) (cmd_audit_prune req) c.
Proof.
  intros H2. unfold cmd_audit_prune. apply safe_bind; [safe_steps|]. intros now c1 _ H3.
  apply safe_bind_state. cbv beta. unfold AuditChain_prune_older_than.
  destruct (chain_prune _ _ _) as [es n]. apply safe_bind; [|intros; by apply safe_ret].
  apply safe_update, inv_audit; [|done]. apply H3.
Qed.

Lemma cmd_agent_propose_safe l req c :
  asked req → req_command req = "agent.propose" → core_inv l c → safe (core_inv l) (cmd_agent_propose req) c.
Proof.
  intros Hq Hc H2. unfold cmd_agent_propose. cbv zeta.
  destruct (param req "proposal") as [v|] eqn:Hv0; [|safe_steps].
  destruct (proposal_from_value v) as [p|] eqn:Hp; [|safe_steps].
  safe_step. destruct (validate_proposal _ _) as [[]|e] eqn:Hv; [|safe_steps].
  apply validate_proposal_Ok in Hv. assert (proposal_sound p) as Hps.
  { split; [by exists req, v|]. eexists. split; [|exact Hv]. apply H2. }
  pose proof (add_proposal_inv _ _ Hps (ci_agent _ _ H2)) as Ha.
  destruct (add_proposal _ _) as [s b]. apply safe_bind; [by apply safe_update, inv_agent|].
  intros. by apply safe_ret.
Qed.

Lemma cmd_agent_observe_safe l req c :
  asked req → req_command req = "agent.observe" → core_inv l c → safe (core_inv l) (cmd_agent_observe req) c.
Proof.
  intros Hq Hc H2. unfold cmd_agent_observe. cbv zeta.
  destruct (param req "observation") as [v|] eqn:Hv; [|safe_steps].
  destruct (observation_from_value v) as [o|] eqn:Ho; [|safe_steps].
  safe_step. apply safe_bind; [|intros; by apply safe_ret].
  apply safe_update, inv_agent; [|done]. apply add_observation_inv; [by exists req, v|apply H2].
Qed.

Lemma agent_remove_proposal_sound l id c c' p :
  core_inv l c → agent_remove_proposal id c = (c', Some (Some p)) → prop_id p = id ∧ proposal_sound p.
Proof.
  unfold agent_remove_proposal. simpl. intros H2 [= _ Hp]. by apply (ci_agent _ _ H2) in Hp.
Qed.

Lemma cmd_agent_approve_safe l req c :
  asked req → req_command req = "agent.approve" → core_inv l c → safe (core_inv l) (cmd_agent_approve req) c.
Proof.
  intros Hq Hc H2. unfold cmd_agent_approve. cbv zeta.
  destruct (param_str req "id") as [id|] eqn:Hid; [|safe_steps]. unfold ProposalId_new.
  destruct (str_is_empty id); [safe_steps|].
  apply safe_bind; [safe_steps|]. intros [p|] c1 Hrm H3; cbv beta; [|safe_steps].
  destruct (agent_remove_proposal_sound l _ c c1 p H2 Hrm) as [Hpid Hps]. rewrite <-Hpid in Hid.
  destruct (approved_task_sound p req Hps Hq Hc Hid) as (t & Ht & Hs).
  unfold TaskId_new. simpl. rewrite Ht.
  apply safe_bind; [by apply agent_insert_task_safe|]. intros. by apply safe_ret.
Qed.

Lemma cmd_device_register_safe l req c : core_inv l c → safe (core_inv l) (cmd_device_register req) c.
Proof.
  intros H2. unfold cmd_device_register. cbv zeta. do 7 (safe_step; [|safe_steps]).
  safe_step; [safe_steps|]. safe_step.
  match goal with |- context [register_device ?i ?k ?f ?g ?t _] =>
    pose proof (device_step_safe l (OpRegister i k f g t) _ ltac:(eassumption)) as Hd end.
  cbn [registry_step] in Hd. destruct (register_device _ _ _ _ _ _) as [r o]. cbn [fst] in Hd.
  apply safe_bind; [by apply safe_update|]. intros. by apply safe_ret.
Qed.

Lemma cmd_device_unregister_safe l req c : core_inv l c → safe (core_inv l) (cmd_device_unregister req) c.
Proof.
  intros H2. unfold cmd_device_unregister. cbv zeta. do 2 (safe_step; [|safe_steps]). safe_step.
  match goal with |- context [unregister ?i _] =>
    pose proof (device_step_safe l (OpUnregister i) c H2) as Hd end.
  cbn [registry_step] in Hd. destruct (unregister _ _) as [r o]. cbn [fst] in Hd.
  apply safe_bind; [by apply safe_update|]. intros. by apply safe_ret.
Qed.
#[local] Hint Resolve cmd_service_safe cmd_audit_prune_safe cmd_agent_propose_safe cmd_agent_observe_safe
  cmd_agent_approve_safe cmd_device_register_safe cmd_device_unregister_safe : safe.

Lemma handlers_safe l :
  Forall (λ nh, ∀ req c, asked req → req_command req = nh.1 → core_inv l c →
    safe (core_inv l) (nh.2 req) c) handlers.
Proof.
  unfold handlers. repeat (apply Forall_cons_2 || apply Forall_nil_2); intros req c Hq Hc H2; cbn [fst snd] in *;
    first [solve [auto with safe nocore]
          |match goal with |- safe _ ?m _ => let m' := eval red in m in change m with m' end; cbv zeta;
           solve [safe_steps]].
Qed.

Lemma dispatch_safe l req c : asked req → core_inv l c → safe (core_inv l) (dispatch req) c.
Proof.
  intros Hq H2. unfold dispatch. apply safe_bind; [|intros r c1 _ H3; safe_steps].
  unfold dispatch_inner. cbv zeta. destruct (negb _); [safe_steps|].
  destruct (handler_of _) as [h|] eqn:Hh; [|safe_steps]. unfold handler_of in Hh.
  destruct (find_b _ handlers) as [[n h']|] eqn:Hf; [|done]. simpl in Hh. injection Hh as <-.
  apply find_b_Some in Hf as [Hin Hn%String.eqb_eq]. pose proof (handlers_safe l) as Ha.
  rewrite Forall_forall in Ha. by apply (Ha _ Hin).
Qed.

(** ** The whole run *)

(** The request is on one of the lines of the connections. *)
Definition received (conns : list (list (string * bool))) (req : IpcRequest J) : Prop :=
  ∃ lines line w, lines ∈ conns ∧ (line, w) ∈ lines ∧ ipc_request_from_str line = Ok req.

Lemma serve_line_safe l line c :
  (∀ req, ipc_request_from_str line = Ok req → asked req) → core_inv l c → safe (core_inv l) (serve_line line) c.
Proof.
  intros Hq H2. unfold serve_line. destruct (str_is_empty _); [by apply safe_ret|].
  destruct (ipc_request_from_str line); [|by apply safe_ret].
  apply safe_bind; [by apply dispatch_safe; auto|]. intros. by apply safe_ret.
Qed.

Lemma serve_lines_safe l lines stop c :
  (∀ line w req, (line, w) ∈ lines → ipc_request_from_str line = Ok req → asked req) → core_inv l c → safe (core_inv l) (serve_lines lines stop) c.
Proof.
  revert stop c. induction lines as [|[line w] lines IH]; intros stop c Hq H2; [by apply safe_ret|].
  assert (∀ line' w' req, (line', w') ∈ lines → ipc_request_from_str line' = Ok req → asked req) as Hq'
    by (intros line' w' req' Hin; apply (Hq line' w'); by right).
  cbn [serve_lines]. apply safe_bind; [apply serve_line_safe; [intros req'; apply (Hq line w); by left|done]|]. intros [[r|] b] c1 _ H3; cbv beta zeta.
  - destruct w; [by apply IH|by apply safe_ret].
  - by apply IH.
Qed.

Lemma serve_safe l conns c :
  (∀ req, received conns req → asked req) → core_inv l c → safe (core_inv l) (serve conns) c.
Proof.
  revert c. induction conns as [|lines conns IH]; intros c Hq H2; [by apply safe_ret|]. cbn [serve].
  apply safe_bind.
  { apply serve_lines_safe; [|done]. intros line w req' Hin Hr. apply Hq. exists lines, line, w. by split; [left|]. }
  intros stop c1 _ H3; cbv beta. destruct stop.
  2:{ apply IH; [|done]. intros req' (lines' & line & w & Hin & Hr). apply Hq. exists lines', line, w. by split; [right|]. }
  apply safe_bind; [|intros; by apply safe_ret].
  destruct (stop_services_stops l c1 (ci_manager _ _ H3)) as (s & Hst & Hm & _).
  unfold safe. rewrite Hst. split; [by apply inv_manager|done].
Qed.

Lemma seed_inv m x : app_inv m → app_inv (seed_app m x).
Proof.
  intros Hm. destruct x as [[[id name] version] command]. unfold seed_app.
  destruct (AppDefinition_new _ _ _ _ _); [by apply register_inv|done].
Qed.

Lemma seeds_inv xs m : app_inv m → app_inv (foldl seed_app m xs).
Proof. revert m. induction xs as [|x xs IH]; intros m Hm; [done|]. by apply IH, seed_inv. Qed.

Lemma boot_inv manifests trust config fs key (e : E) c :
  boot (J := J) manifests trust config fs key e = Some (Ok c) →
  core_inv manifests c ∧ ∀ id, id ∈ dg_start_order (sm_graph (co_manager c)) →
    is_running (co_manager c) id = true.
Proof.
  unfold boot, build_manager.
  destruct (DependencyGraph_new manifests) as [[g|ge]|] eqn:Hg; [|done..]. cbn [mbind option_bind].
  pose proof (managed_new _ _ Hg) as Hm.
  pose proof (start_each_spec manifests (dg_start_order g) (ServiceManager_new g)
    (mkLocalExecutor 0 (env_instant e)) Hm (λ _ H, H)) as Hs.
  unfold start_all in *. cbn [sm_graph ServiceManager_new] in *.
  destruct (start_each _ _ _) as [[s x] [u|er]]; [|done]. destruct Hs as (Hms & Hrun & _).
  assert (app_inv (foldl seed_app ApplicationManager_default SEED_APPS)) as Happs.
  { apply seeds_inv. split_and!; [constructor|constructor| |apply map_Forall_empty].
    by intros r1 r2 ?%elem_of_nil. }
  cbv zeta. revert Happs. generalize (foldl seed_app ApplicationManager_default SEED_APPS). intros apps Happs.
  destruct (FileManager_new config fs) as [fs' [config'|fe]]; [|done]. intros [= <-]. split.
  - constructor; simpl; [done|done|done|apply map_Forall_empty|..].
    + split_and!; [apply graph_wf_nil|constructor|apply map_Forall_empty|simpl; lia|simpl; lia|constructor].
    + apply (registry_run_wf []).
  - simpl. intros id. rewrite (managed_graph_eq _ _ _ Hm Hms). apply Hrun.
Qed.

End invariant.

Section run.
Context {E J : Type} `{!CoreEnv E} `{!RuntimeEnv E} `{!MachineFiles E} `{!Processes E} `{!Rng E}
  `{!JsonOps J} `{!JsonParse J} `{!CoreJson J} `{!FloatText J} `{!ObservationText J}
  `{!UuidText} `{!Aead} {D : Digest} {Cr : Crypto} `{!KeyErrorText}.

(** C3: the daemon stays sound and answers.  From a successful start on, over
    any sequence of connections and lines, whatever the requests, their senders
    and the rest of the machine do: the service manager keeps one record for
    every service of the graph, at most one instance of an application runs,
    the audit chain can be written to, every stored credential is one that was
    sealed with the daemon's key, the logs are within their bounds and the
    device registry is consistent.  The task graph is acyclic, and each of its
    tasks is the task of a proposal that one of the lines proposed, that was
    valid for observations the lines had reported, and that one of the lines
    approved by its id; its risk is not below the floor of its kind and it
    depends on no other task.  A panic is possible only after the last instance
    number has been used. *)
Theorem daemon_stays_sound manifests trust config fs key (e : E) (c : Core E J) conns :
  boot manifests trust config fs key e = Some (Ok c) →
  let '(c', o) := serve conns c in
  core_inv (received conns) manifests c' ∧ (o = None → exhausted c').
Proof.
  intros [Hc _]%(boot_inv (received conns)).
  destruct (serve_safe (received conns) manifests conns c (λ _ H, H) Hc) as [Ha Hb].
  by destruct (serve conns c) as [c' o].
Qed.
End run.

Section toy.
Import ToyCore.

Definition toy_config : WorkspaceConfig := mkWorkspaceConfig ["ws"] 4096 ∅.

Lemma daemon_stays_sound_witness :
  ∃ c, boot (E := N) (J := ToyJson) example_services None toy_config ∅ [] 7%N = Some (Ok c) ∧
    let '(c', o) := serve [[("status", true); ("app.launch", true)]; [("agent.tasks", false)]] c in
    core_inv (received [[("status", true); ("app.launch", true)]; [("agent.tasks", false)]]) example_services c' ∧
    (o = None → exhausted c').
Proof.
  destruct (boot (E := N) (J := ToyJson) example_services None toy_config ∅ [] 7%N) as [[c|er]|] eqn:Hb.
  - exists c. split; [reflexivity|]. exact (daemon_stays_sound _ _ _ _ _ _ _ _ Hb).
  - vm_compute in Hb. discriminate Hb.
  - vm_compute in Hb. discriminate Hb.
Defined.
End toy.
