(* ===== verification/Loader.v ===== *)
(** * The manifest loader and the start of the system-core daemon

    Models system/aether-system-core/src/loader.rs and the first part of [main]
    in main.rs: the directory, the trust store and the manifests, before
    [CoreDispatch.boot] takes over. *)
From S2P Require Import Prelude RustStd Text Json Signing UpdateCore TaskGraph HashChain AuditChain.
From S2P Require Import CoreTypes DepGraph Manager Sandbox Policy AgentCore Devices UnixFs Storage.
From S2P Require Import Actions RuntimeLog RuntimeHost RuntimeScenarios Credentials AppManager SystemInfo TaskToAction.
From S2P Require Import CoreState CoreCommands CoreSecurity CoreAgents CoreDispatch CoreProps CoreInvariant.
From Stdlib Require Import Ascii.

(** ** What lies outside *)

(** [std::fs] as the loader uses it.  Errors are their texts; an entry of a
    directory is its file name. *)
Class ManifestFs (F : Type) := {
  read_dir : F → string → result (list (result string string)) string;
  read_to_string : F → string → result string string;
}.

(** The derived deserializers. *)
Class ManifestJson := {
  service_manifest_from_str : string → result ServiceManifest string;
  signed_manifest_from_str : string → result Manifest.SignedManifest string;
}.

(** [Path::extension] of a path with this file name: what follows the last dot,
    unless nothing or nothing but that dot comes before. *)
Definition path_extension (file : string) : option string :=
  if (file =? "..")%string then None
  else match str_split "." file with
       | [_] | [EmptyString; _] => None
       | l => last l
       end.

(** ** loader.rs *)

Definition sig_path_for (manifest_path : string) : string := manifest_path +:+ ".sig".

Section loader.
Context {F : Type} `{!ManifestFs F} `{!ManifestJson} {Cr : Crypto}.
Implicit Types (fs : F) (trust : option Manifest.TrustStore).

(** The signature check of one manifest. *)
Definition check_signature fs (trust_store : Manifest.TrustStore) (path raw : string) :
    result unit AetherError :=
  let sig_path := sig_path_for path in
  let? sig_text := map_err (λ e, AetherError_new EkInvalidInput
    ("missing signature file for manifest " +:+ path +:+ ": expected " +:+ sig_path +:+
     " (" +:+ e +:+ ")")) (read_to_string fs sig_path) in
  let? envelope := map_err (λ e, AetherError_new EkInvalidInput
    ("invalid signature envelope " +:+ sig_path +:+ ": " +:+ e)) (signed_manifest_from_str sig_text) in
  if negb (bool_decide (Manifest.sm_manifest_bytes envelope = as_bytes raw))
  then Err (AetherError_new EkInvalidInput
         ("signature envelope bytes do not match manifest bytes for " +:+ path))
  else map_err (λ e, AetherError_new EkInvalidInput
         ("manifest " +:+ path +:+ " failed signature verification: " +:+
          Manifest.ManifestVerifyError_display e)) (Manifest.verify_signed_manifest envelope trust_store).

(** The body of the loop; [None] is a file that is passed over. *)
Definition load_entry fs (dir : string) trust (entry : result string string) :
    result (option ServiceManifest) AetherError :=
  let? name := map_err (AetherError_new EkIo) entry in
  let path := path_join dir name in
  if negb (bool_decide (path_extension name = Some "json")) then Ok None
  else if ends_with ".json.sig" path then Ok None
  else
    let? raw := map_err (λ e, AetherError_new EkIo ("cannot read manifest " +:+ path +:+ ": " +:+ e))
      (read_to_string fs path) in
    let? _ := match trust with
              | Some trust_store => check_signature fs trust_store path raw
              | None => Ok tt
              end in
    let? manifest := map_err (λ e, AetherError_new EkInvalidInput
      ("invalid manifest " +:+ path +:+ ": " +:+ e)) (service_manifest_from_str raw) in
    let? _ := ServiceManifest_validate manifest in
    Ok (Some manifest).

Fixpoint load_entries fs (dir : string) trust (entries : list (result string string))
    (manifests : list ServiceManifest) : result (list ServiceManifest) AetherError :=
  match entries with
  | [] => Ok manifests
  | entry :: entries =>
      let? o := load_entry fs dir trust entry in
      load_entries fs dir trust entries (manifests ++ option_list o)
  end.

Definition load_manifests_with_trust fs (dir : string) trust :
    result (list ServiceManifest) AetherError :=
  let? entries := map_err (λ e, AetherError_new EkNotFound
    ("cannot read manifest directory " +:+ dir +:+ ": " +:+ e)) (read_dir fs dir) in
  let? manifests := load_entries fs dir trust entries [] in
  Ok (sort_by service_id manifests).

Definition load_manifests_from_dir fs (dir : string) : result (list ServiceManifest) AetherError :=
  load_manifests_with_trust fs dir None.
End loader.

(** ** The start of the daemon *)

Section start.
Context {F : Type} `{!ManifestFs F} `{!ManifestJson}.
Context {E J : Type} `{!CoreEnv E} `{!RuntimeEnv E} `{!MachineFiles E} `{!Processes E} `{!Rng E}
  `{!JsonOps J} `{!JsonParse J} `{!CoreJson J} `{!FloatText J} `{!ObservationText J}
  `{!UuidText} `{!Aead} {D : Digest} {Cr : Crypto} `{!KeyErrorText}.

Definition start_manifests_dir (arg : option string) (e : E) : string :=
  match arg with
  | Some d => d
  | None => default "/etc/aether/services.d" (mf_env e "AETHER_MANIFEST_DIR")
  end.

Definition start_port (e : E) : N :=
  default 4747%N (mf_env e "AETHER_CONTROL_PORT" ≫= parse_unsigned u16_max).

Definition start_bind_addr (e : E) : string := default "127.0.0.1" (mf_env e "AETHER_BIND").

Definition start_trust_store (files : F) (e : E) : result (option Manifest.TrustStore) string :=
  match mf_env e "AETHER_MANIFEST_TRUST_FILE" with
  | None => Ok None
  | Some path => let? store := load_trust_store path (read_to_string files path) in Ok (Some store)
  end.

Definition start_manifests (files : F) (dir : string) (trust_store : option Manifest.TrustStore) :
    result (list ServiceManifest) AetherError :=
  match trust_store with
  | Some store => load_manifests_with_trust files dir (Some store)
  | None => load_manifests_from_dir files dir
  end.

(** [main] up to the loop over connections.  [Err] is the text it exits with. *)
Definition start (arg : option string) (files : F) (config : WorkspaceConfig) (fs : filesystem)
    (key : list byte) (e : E) : option (result (Core E J) string) :=
  match start_trust_store files e with
  | Err e => Some (Err e)
  | Ok trust_store =>
      match start_manifests files (start_manifests_dir arg e) trust_store with
      | Err e => Some (Err (AetherError_display e))
      | Ok manifests => boot manifests trust_store config fs key e
      end
  end.
End start.

(** ** Names of manifests *)

Lemma str_last_app (a b : string) : b ≠ EmptyString → str_last (a +:+ b) = str_last b.
Proof.
  intros Hb. induction a as [|c a IH]; [done|]. rewrite str_app_cons.
  destruct (a +:+ b) as [|d x] eqn:Ea; [|by rewrite <-IH].
  destruct a; [by rewrite str_app_empty in Ea|discriminate].
Qed.

Lemma ends_with_last (suf s : string) :
  suf ≠ EmptyString → ends_with suf s = true → str_last s = str_last suf.
Proof.
  intros Hs. induction s as [|c s IH]; cbn [ends_with]; rewrite orb_true_iff; intros [H%String.eqb_eq|H];
    [by rewrite H|done|by rewrite H|].
  rewrite <-(IH H). destruct s; [|done]. cbn [ends_with] in H.
  apply orb_prop in H as [H%String.eqb_eq|?]; done.
Qed.

Lemma str_split_one sep s p : str_split sep s = [p] → s = p.
Proof.
  revert p. induction s as [|c s IH]; intros p; [by intros [= <-]|]. rewrite str_split_cons.
  pose proof (str_split_nonempty sep s) as Hne.
  destruct (str_split sep s) as [|q l]; [done|]. destruct (Ascii.eqb c sep); [done|].
  intros [= <- ->]. by rewrite (IH q eq_refl) at 1.
Qed.

(** The last part of a split is what follows the last separator. *)
Lemma str_split_last sep s p q l x :
  str_split sep s = p :: q :: l → last (q :: l) = Some x → ∃ a, s = a +:+ String sep x.
Proof.
  revert p q l. induction s as [|c s IH]; intros p q l; [done|]. rewrite str_split_cons.
  destruct (str_split sep s) as [|p' l'] eqn:Es; [by destruct (str_split_nonempty sep s)|].
  destruct (Ascii.eqb_spec c sep) as [->|_].
  - intros [= <- -> ->] Hx. destruct l as [|q' l].
    + injection Hx as ->. exists EmptyString. by rewrite (str_split_one _ _ _ Es).
    + destruct (IH q q' l eq_refl Hx) as [a ->]. by exists (String sep a).
  - intros [= <- ->] Hx. destruct (IH p' q l eq_refl Hx) as [a ->]. by exists (String c a).
Qed.

Lemma json_name name : path_extension name = Some "json" → ∃ a, name = a +:+ ".json".
Proof.
  unfold path_extension. destruct (name =? "..")%string; [done|].
  destruct (str_split "." name) as [|p [|q l]] eqn:Es; [done|by destruct p|].
  intros Hx. apply (str_split_last "." name p q l); [done|].
  destruct p; [destruct l; [done|]|]; by rewrite last_cons_cons in Hx.
Qed.

Lemma path_join_suffix dir name : ∃ p, path_join dir name = p +:+ name.
Proof.
  unfold path_join. destruct (String.prefix "/" name); [by exists EmptyString|].
  destruct (str_last dir) as [c|]; [|by exists EmptyString].
  destruct (Ascii.eqb c "/"); [by exists dir|]. exists (dir +:+ "/"). by rewrite str_app_assoc.
Qed.

(** The second guard of the loop never applies. *)
Lemma json_is_no_signature dir name :
  path_extension name = Some "json" → ends_with ".json.sig" (path_join dir name) = false.
Proof.
  intros [a ->]%json_name. destruct (path_join_suffix dir (a +:+ ".json")) as [p ->].
  destruct (ends_with _ _) eqn:H; [|done]. apply ends_with_last in H; [|done].
  by rewrite <-str_app_assoc, str_last_app in H.
Qed.

(** ** What is loaded *)

Section loaded.
Context {F : Type} `{!ManifestFs F} `{!ManifestJson} {Cr : Crypto}.
Implicit Types (fs : F) (trust : option Manifest.TrustStore).

(** The text of the envelope is a signature of exactly the bytes of the
    manifest by a key whose fingerprint is trusted. *)
Definition signature_for (store : Manifest.TrustStore) (raw sig_text : string) : Prop :=
  ∃ envelope k s,
    signed_manifest_from_str sig_text = Ok envelope ∧
    Manifest.sm_manifest_bytes envelope = as_bytes raw ∧
    length (Manifest.sm_signer_public_key envelope) = 32 ∧
    length (Manifest.env_signature (Manifest.sm_signature envelope)) = 64 ∧
    vk_from_bytes (Manifest.sm_signer_public_key envelope) = Some k ∧
    sig_try_from (Manifest.env_signature (Manifest.sm_signature envelope)) = Some s ∧
    vk_verify k (as_bytes raw) s = true ∧
    fp_hex (Fingerprint_for_public_key k) ∈ Manifest.ts_fingerprints store.

(** The file of that name holds the manifest, which is valid, and with a trust
    store the file beside it holds its signature. *)
Definition manifest_file fs (dir : string) trust (name : string) (m : ServiceManifest) : Prop :=
  ∃ raw, read_to_string fs (path_join dir name) = Ok raw ∧
    service_manifest_from_str raw = Ok m ∧ ServiceManifest_validate m = Ok tt ∧
    ∀ store, trust = Some store → ∃ sig_text,
      read_to_string fs (path_join dir name +:+ ".sig") = Ok sig_text ∧ signature_for store raw sig_text.

Definition is_manifest (name : string) : bool := bool_decide (path_extension name = Some "json").

Lemma verify_signed_manifest_ok envelope store :
  Manifest.verify_signed_manifest envelope store = Ok tt ↔
  ∃ k s, length (Manifest.sm_signer_public_key envelope) = 32 ∧
    length (Manifest.env_signature (Manifest.sm_signature envelope)) = 64 ∧
    vk_from_bytes (Manifest.sm_signer_public_key envelope) = Some k ∧
    sig_try_from (Manifest.env_signature (Manifest.sm_signature envelope)) = Some s ∧
    vk_verify k (Manifest.sm_manifest_bytes envelope) s = true ∧
    fp_hex (Fingerprint_for_public_key k) ∈ Manifest.ts_fingerprints store.
Proof.
  unfold Manifest.verify_signed_manifest, Manifest.TrustStore_is_trusted, Manifest.canonical_manifest_bytes.
  split.
  - destruct (Nat.eqb_spec (length (Manifest.env_signature (Manifest.sm_signature envelope))) 64); [|done].
    destruct (Nat.eqb_spec (length (Manifest.sm_signer_public_key envelope)) 32); [|done]. cbn [negb orb].
    destruct (vk_from_bytes _) as [k|]; [|done]. cbv zeta. case_bool_decide; [|done]. cbn [negb].
    destruct (sig_try_from _) as [s|]; [|done]. destruct (vk_verify _ _ _) eqn:Hv; [|done].
    intros _. by exists k, s.
  - intros (k & s & -> & -> & -> & -> & Hv & Hin). cbn. by rewrite bool_decide_eq_true_2, Hv.
Qed.

Lemma check_signature_ok fs store path raw :
  check_signature fs store path raw = Ok tt ↔
  ∃ sig_text, read_to_string fs (path +:+ ".sig") = Ok sig_text ∧ signature_for store raw sig_text.
Proof.
  unfold check_signature, sig_path_for, signature_for. cbv zeta.
  destruct (read_to_string fs (path +:+ ".sig")) as [t|e]; [|naive_solver].
  cbn [map_err]. destruct (signed_manifest_from_str t) as [en|e] eqn:He; [|naive_solver congruence].
  cbn [map_err]. case_bool_decide as Hb; cbn [negb]; [|naive_solver congruence].
  transitivity (Manifest.verify_signed_manifest en store = Ok tt).
  { destruct (Manifest.verify_signed_manifest en store) as [[]|]; [done|]. split; done. }
  rewrite verify_signed_manifest_ok, Hb. split.
  - intros (k & s & Hk). exists t. split; [done|]. exists en, k, s. naive_solver.
  - intros (t' & [= <-] & en' & k & s & Hk). exists k, s. naive_solver congruence.
Qed.

Lemma load_entry_ok fs dir trust name o :
  load_entry fs dir trust (Ok name) = Ok o ↔
  if is_manifest name then ∃ m, o = Some m ∧ manifest_file fs dir trust name m else o = None.
Proof.
  unfold load_entry, is_manifest, manifest_file. cbn [map_err]. cbv zeta.
  case_bool_decide as Hext; cbn [negb]; [|naive_solver].
  rewrite json_is_no_signature by done.
  destruct (read_to_string fs (path_join dir name)) as [raw|] eqn:Hr; cbn [map_err]; [|naive_solver congruence].
  assert (match trust with Some s => check_signature fs s (path_join dir name) raw | None => Ok tt end = Ok tt ↔
    ∀ store, trust = Some store → ∃ sig_text,
      read_to_string fs (path_join dir name +:+ ".sig") = Ok sig_text ∧ signature_for store raw sig_text) as Hs.
  { destruct trust as [store|]; [|naive_solver]. rewrite check_signature_ok. naive_solver. }
  destruct (match trust with Some _ => _ | None => _ end) as [[]|] eqn:Hc; [|naive_solver congruence].
  destruct (service_manifest_from_str raw) as [m|] eqn:Hm; cbn [map_err]; [|naive_solver congruence].
  destruct (ServiceManifest_validate m) as [[]|] eqn:Hv; naive_solver congruence.
Qed.

Lemma load_entries_ok fs dir trust entries acc l :
  load_entries fs dir trust entries acc = Ok l ↔
  ∃ names ms, entries = Ok <$> names ∧ l = acc ++ ms ∧
    Forall2 (manifest_file fs dir trust) (List.filter is_manifest names) ms.
Proof.
  revert acc l. induction entries as [|[name|e] entries IH]; intros acc l; cbn [load_entries].
  - split; [intros [= <-]; exists [], []; by rewrite app_nil_r|].
    intros (names & ms & Hn & -> & Hf). destruct names; [|done]. apply Forall2_nil_inv_l in Hf as ->.
    by rewrite app_nil_r.
  - pose proof (load_entry_ok fs dir trust name) as He. split.
    + destruct (load_entry _ _ _ _) as [o|]; [|done]. specialize (proj1 (He o) eq_refl) as Ho.
      intros (names & ms & -> & -> & Hf)%IH. exists (name :: names), (option_list o ++ ms).
      split_and!; [done|by rewrite app_assoc|]. cbn [List.filter]. destruct (is_manifest name).
      * destruct Ho as (m & -> & Hm). by constructor.
      * by subst.
    + intros (names & ms & Hn & -> & Hf). destruct names as [|n names]; [done|].
      injection Hn as <- ->. cbn [List.filter] in Hf. destruct (is_manifest name).
      * apply Forall2_cons_inv_l in Hf as (m & ms' & Hm & Hf & ->).
        rewrite (proj2 (He (Some m))) by eauto. apply IH. exists names, ms'. by rewrite <-app_assoc.
      * rewrite (proj2 (He None)) by done. apply IH. exists names, ms. by rewrite app_nil_r.
  - split; [done|]. intros (names & ? & Hn & _). by destruct names.
Qed.

(** Loading is all or nothing. *)
Theorem load_manifests_exact fs dir trust l :
  load_manifests_with_trust fs dir trust = Ok l ↔
  ∃ names ms, read_dir fs dir = Ok (Ok <$> names) ∧ l = sort_by service_id ms ∧
    Forall2 (manifest_file fs dir trust) (List.filter is_manifest names) ms.
Proof.
  unfold load_manifests_with_trust. destruct (read_dir fs dir) as [entries|]; cbn [map_err]; [|naive_solver].
  pose proof (load_entries_ok fs dir trust entries []) as He. split.
  - destruct (load_entries _ _ _ _ _) as [ms|]; [|done]. intros [= <-].
    destruct (proj1 (He ms) eq_refl) as (names & ms' & -> & -> & Hf). by exists names, ms'.
  - intros (names & ms & [= ->] & -> & Hf). rewrite (proj2 (He ms)); [done|]. by exists names, ms.
Qed.
End loaded.

(** ** The trust file *)

(** The fingerprints of the store are those the lines of the file spell. *)
Definition trust_line (line : string) : string := str_trim (default "" (head (str_split "#" line))).

Lemma load_trust_lines_ok path lines idx s s' :
  load_trust_lines path idx lines s = Ok s' →
  ∀ f, f ∈ Manifest.ts_fingerprints s' ↔
    f ∈ Manifest.ts_fingerprints s ∨
    ∃ line, line ∈ lines ∧ Fingerprint_from_hex (trust_line line) = Some (mkFingerprint f).
Proof.
  revert idx s. induction lines as [|raw lines IH]; intros idx s; cbn [load_trust_lines].
  { intros [= <-] f. set_solver. }
  cbv zeta. fold (trust_line raw). destruct (str_is_empty (trust_line raw)) eqn:Hemp.
  - intros Hl f. rewrite (IH _ _ Hl). setoid_rewrite elem_of_cons.
    assert (Fingerprint_from_hex (trust_line raw) = None) as Hn.
    { by destruct (trust_line raw). }
    naive_solver congruence.
  - destruct (Fingerprint_from_hex (trust_line raw)) as [fp|] eqn:Hfp; [|done].
    intros Hl f. rewrite (IH _ _ Hl). setoid_rewrite elem_of_cons. cbn.
    rewrite elem_of_union, elem_of_singleton. destruct fp as [h]. cbn. naive_solver congruence.
Qed.

(** ** Only signed services run *)

Section signed.
Context {F : Type} `{!ManifestFs F} `{!ManifestJson}.
Context {E J : Type} `{!CoreEnv E} `{!RuntimeEnv E} `{!MachineFiles E} `{!Processes E} `{!Rng E}
  `{!JsonOps J} `{!JsonParse J} `{!CoreJson J} `{!FloatText J} `{!ObservationText J}
  `{!UuidText} `{!Aead} {D : Digest} {Cr : Crypto} `{!KeyErrorText}.

(** The service that runs under this name was described by a signed file of the
    directory. *)
Definition signed_service (files : F) (dir : string) (store : Manifest.TrustStore)
    (s : ServiceManager) (id : string) : Prop :=
  ∃ m name names, dg_manifests (sm_graph s) !! id = Some m ∧ service_id m = id ∧
    read_dir files dir = Ok (Ok <$> names) ∧ name ∈ names ∧ path_extension name = Some "json" ∧
    manifest_file files dir (Some store) name m.

Lemma managed_is_loaded l s id :
  managed l s → is_Some (sm_state s !! id) →
  ∃ m, dg_manifests (sm_graph s) !! id = Some m ∧ service_id m = id ∧ m ∈ l.
Proof.
  intros [Hg Hdom] [m Hm]%Hdom. exists m. split; [done|]. clear Hdom. revert Hg Hm.
  generalize (sm_graph s). intros g Hg Hm.
  destruct (DependencyGraph_new_spec l) as (r & Hr & Hs). rewrite Hg in Hr. injection Hr as <-.
  inversion Hs as [| | |order Hnd]; subst. cbn in Hm.
  rewrite manifest_map_lookup in Hm by done.
  by apply find_b_Some in Hm as [? ?%bool_decide_eq_true_1].
Qed.

(** C5: With a trust file, only signed services run.  When the daemon starts with
    [AETHER_MANIFEST_TRUST_FILE] set, then after any connections and requests
    every service it manages comes from a [.json] file of the manifest directory
    beside which lies a signature of exactly its bytes, by a key whose
    fingerprint is spelled by a line of the trust file. *)
Theorem services_run_signed_manifests arg files config fs key (e : E) path (c : Core E J) conns :
  mf_env e "AETHER_MANIFEST_TRUST_FILE" = Some path →
  start arg files config fs key e = Some (Ok c) →
  ∃ text store, read_to_string files path = Ok text ∧
    (∀ f, f ∈ Manifest.ts_fingerprints store ↔ ∃ line, line ∈ str_lines text ∧
       Fingerprint_from_hex (trust_line line) = Some (mkFingerprint f)) ∧
    ∀ id, is_Some (sm_state (co_manager (serve conns c).1) !! id) →
      signed_service files (start_manifests_dir arg e) store (co_manager (serve conns c).1) id.
Proof.
  intros Henv. unfold start, start_trust_store. rewrite Henv.
  destruct (read_to_string files path) as [text|]; [|done]. cbn [load_trust_store].
  destruct (load_trust_lines path 1 (str_lines text) _) as [store|] eqn:Ht; [|done]. cbn [start_manifests].
  destruct (load_manifests_with_trust _ _ _) as [l|] eqn:Hl; [|done]. intros [Hb _]%(boot_inv (λ _, True)).
  exists text, store. split_and!; [done| |].
  { intros f. rewrite (load_trust_lines_ok _ _ _ _ _ Ht). cbn. set_solver. }
  intros id Hid. destruct (serve_safe (λ _, True) l conns c (λ _ _, I) Hb) as [Hinv _].
  destruct (managed_is_loaded _ _ _ (ci_manager _ _ _ Hinv) Hid) as (m & Hm & Hsid & Hin).
  apply load_manifests_exact in Hl as (names & ms & Hd & -> & Hf).
  rewrite sort_by_perm in Hin. apply list_elem_of_lookup in Hin as [i Hi].
  destruct (Forall2_lookup_r _ _ _ _ _ Hf Hi) as (name & Hn%list_elem_of_lookup_2 & Hmf).
  apply list_elem_of_In, List.filter_In in Hn as [Hn%list_elem_of_In Hj%bool_decide_eq_true_1].
  by exists m, name, names.
Qed.
End signed.

(** ** A signed directory *)

Section toy.
Import ToyCore.

#[local] Instance toy_files : ManifestFs (list (string * string)) := {|
  read_dir l d := Ok (Ok <$> ["net.json"; "net.json.sig"; "notes.txt"]);
  read_to_string l p :=
    match list_find (λ kv, kv.1 = p) l with Some (_, kv) => Ok kv.2 | None => Err "not found" end;
|}.

Definition toy_signer : Manifest.ManifestSigner ToyCrypto := Manifest.ManifestSigner_from_seed [Byte.x03].

(** A manifest is its name; an envelope is the text it signs. *)
#[local] Instance toy_manifest_json : ManifestJson := {|
  service_manifest_from_str s := Ok (simple_manifest s [] 5 3);
  signed_manifest_from_str s := Ok (Manifest.ManifestSigner_sign toy_signer (as_bytes s));
|}.

#[local] Instance toy_trusting_machine : MachineFiles N := {|
  mf_read e p := None;
  mf_df e p := None;
  mf_exists e p := false;
  mf_env e k := if (k =? "AETHER_MANIFEST_TRUST_FILE")%string then Some "/trust" else None;
  mf_parallelism e := None;
  mf_arch := "x86_64";
  mf_os := "linux";
|}.

Definition toy_manifests (signed : string) : list (string * string) :=
  [("/trust", fp_hex (Manifest.ManifestSigner_fingerprint toy_signer) +:+ " # release");
   ("/m/net.json", "net"); ("/m/net.json.sig", signed)].

Lemma services_run_signed_manifests_witness :
  ∃ c, start (E := N) (J := ToyJson) (Some "/m") (toy_manifests "net") toy_config ∅ [] 7%N = Some (Ok c) ∧
    ∃ text store, read_to_string (toy_manifests "net") "/trust" = Ok text ∧
    (∀ f, f ∈ Manifest.ts_fingerprints store ↔ ∃ line, line ∈ str_lines text ∧
       Fingerprint_from_hex (trust_line line) = Some (mkFingerprint f)) ∧
    ∀ id, is_Some (sm_state (co_manager (serve [[("status", true)]] c).1) !! id) →
      signed_service (toy_manifests "net") "/m" store (co_manager (serve [[("status", true)]] c).1) id.
Proof.
  destruct (start (E := N) (J := ToyJson) (Some "/m") (toy_manifests "net") toy_config ∅ [] 7%N)
    as [[c|er]|] eqn:Hb.
  - exists c. split; [reflexivity|].
    exact (services_run_signed_manifests _ _ _ _ _ _ _ _ [[("status", true)]] eq_refl Hb).
  - vm_compute in Hb. discriminate Hb.
  - vm_compute in Hb. discriminate Hb.
Defined.

(** A signature of other bytes stops the daemon. *)
Example forged_manifest_refused :
  start (E := N) (J := ToyJson) (Some "/m") (toy_manifests "other") toy_config ∅ [] 7%N =
  Some (Err "[INVALID_INPUT] signature envelope bytes do not match manifest bytes for /m/net.json").
Proof. vm_compute. reflexivity. Qed.
End toy.
