(* ===== verification/Sdk.v ===== *)
(** * The software development kit

    Models sdk/rust/aether-sdk/src: the builders of manifests and packages
    (manifest_builder.rs, package_builder.rs), permissions.rs, the requests of
    install.rs and client.rs, and the control client tools/aetherctl, which is
    written on it.  The exchange with the control plane is [client_request] of
    the planner. *)
From S2P Require Import Prelude RustStd Json Signing UpdateCore TaskGraph HashChain AuditChain.
From S2P Require Import CoreTypes DepGraph Manager Sandbox Policy AgentCore Devices UnixFs Storage.
From S2P Require Import Actions RuntimeLog RuntimeHost RuntimeScenarios Credentials AppManager SystemInfo TaskToAction.
From S2P Require Import CoreState CoreCommands CoreSecurity CoreAgents CoreDispatch CoreProps.
From S2P Require Import Base64 Apps AppStore.

(** ** manifest_builder.rs *)

Inductive ManifestBuildError :=
| MbInvalidAppId (s : string) | MbEmptyName | MbEmptyVersion | MbEmptyPublisher | MbEmptyPayload.

Definition ManifestBuildError_display (e : ManifestBuildError) : string :=
  match e with
  | MbInvalidAppId s => "app_id is not a valid reverse-DNS id: '" +:+ s +:+ "'"
  | MbEmptyName => "app name is required"
  | MbEmptyVersion => "app version is required"
  | MbEmptyPublisher => "publisher is required"
  | MbEmptyPayload => "payload is empty"
  end.

Record AppManifestBuilder := mkAppManifestBuilder {
  mb_app_id : string;
  mb_name : string;
  mb_version : string;
  mb_publisher : string;
  mb_description : string;
  mb_min_os_version : string;
  mb_permissions : list AppPermission;
  mb_resources : AppResourceLimits;
  mb_depends_on : list string;
  mb_timestamp_ms : N;
  mb_payload : list byte;
}.

(** The version of the workspace, 0.1.0, gives the default of the required
    system version. *)
Definition AppManifestBuilder_new (app_id name version publisher : string) (payload : list byte) :
    AppManifestBuilder :=
  mkAppManifestBuilder app_id name version publisher "" ("0" +:+ "." +:+ "1" +:+ ".0") []
    (AppResourceLimits_default_for "placeholder") [] 0 payload.

Definition mb_set_description (d : string) (b : AppManifestBuilder) : AppManifestBuilder :=
  mkAppManifestBuilder (mb_app_id b) (mb_name b) (mb_version b) (mb_publisher b) d
    (mb_min_os_version b) (mb_permissions b) (mb_resources b) (mb_depends_on b) (mb_timestamp_ms b)
    (mb_payload b).

Definition mb_set_min_os_version (v : string) (b : AppManifestBuilder) : AppManifestBuilder :=
  mkAppManifestBuilder (mb_app_id b) (mb_name b) (mb_version b) (mb_publisher b) (mb_description b)
    v (mb_permissions b) (mb_resources b) (mb_depends_on b) (mb_timestamp_ms b) (mb_payload b).

Definition mb_permission (p : AppPermission) (b : AppManifestBuilder) : AppManifestBuilder :=
  mkAppManifestBuilder (mb_app_id b) (mb_name b) (mb_version b) (mb_publisher b) (mb_description b)
    (mb_min_os_version b)
    (if bool_decide (p ∈ mb_permissions b) then mb_permissions b else mb_permissions b ++ [p])
    (mb_resources b) (mb_depends_on b) (mb_timestamp_ms b) (mb_payload b).

Definition mb_set_resources (r : AppResourceLimits) (b : AppManifestBuilder) : AppManifestBuilder :=
  mkAppManifestBuilder (mb_app_id b) (mb_name b) (mb_version b) (mb_publisher b) (mb_description b)
    (mb_min_os_version b) (mb_permissions b) r (mb_depends_on b) (mb_timestamp_ms b) (mb_payload b).

Definition mb_depend_on (s : string) (b : AppManifestBuilder) : AppManifestBuilder :=
  mkAppManifestBuilder (mb_app_id b) (mb_name b) (mb_version b) (mb_publisher b) (mb_description b)
    (mb_min_os_version b) (mb_permissions b) (mb_resources b)
    (if bool_decide (s ∈ mb_depends_on b) then mb_depends_on b else mb_depends_on b ++ [s])
    (mb_timestamp_ms b) (mb_payload b).

Definition mb_set_timestamp_ms (t : N) (b : AppManifestBuilder) : AppManifestBuilder :=
  mkAppManifestBuilder (mb_app_id b) (mb_name b) (mb_version b) (mb_publisher b) (mb_description b)
    (mb_min_os_version b) (mb_permissions b) (mb_resources b) (mb_depends_on b) t (mb_payload b).

Definition self_payload (_manifest : AppManifest) : list byte := [].

(** ** package_builder.rs *)

Inductive PackageBuildError :=
| PbInvalidManifest (s : string) | PbEmptyPayload | PbSigner (s : string).

Definition PackageBuildError_display (e : PackageBuildError) : string :=
  match e with
  | PbInvalidManifest s => "invalid manifest: " +:+ s
  | PbEmptyPayload => "payload is empty"
  | PbSigner s => "signer rejected package: " +:+ s
  end.

Definition validate_manifest_pre_sign (m : AppManifest) : result unit PackageBuildError :=
  let r := am_resources m in
  let invalid s := Err (PbInvalidManifest s) in
  if negb (am_schema_version m =? APP_PACKAGE_SCHEMA_VERSION)%string then
    invalid ("unsupported app manifest schema_version '" +:+ am_schema_version m +:+
             "' (this build expects '" +:+ APP_PACKAGE_SCHEMA_VERSION +:+ "')")
  else if str_is_empty (am_app_id m) then invalid "app_id is required"
  else if negb (is_valid_app_id (am_app_id m)) then
    invalid ("app_id '" +:+ am_app_id m +:+ "' is not a valid reverse-DNS identifier")
  else if str_is_empty (am_name m) then invalid "name is required"
  else if str_is_empty (am_version m) then invalid "version is required"
  else if str_is_empty (am_publisher m) then invalid "publisher is required"
  else if str_is_empty (am_min_os_version m) then invalid "min_os_version is required"
  else if negb (String.length (am_binary_sha256 m) =? 64)%nat ||
          negb (str_all is_ascii_hexdigit (am_binary_sha256 m)) then
    invalid ("binary_sha256 '" +:+ am_binary_sha256 m +:+ "' is not a 64-character hex string")
  else if (am_payload_len m =? 0)%N then invalid "payload_len must be > 0"
  else if ((arl_cpu_weight r <? 1) || (10000 <? arl_cpu_weight r))%N then
    invalid (weight_error "cpu_weight" (arl_cpu_weight r))
  else if ((arl_io_weight r <? 1) || (10000 <? arl_io_weight r))%N then
    invalid (weight_error "io_weight" (arl_io_weight r))
  else Ok tt.

Record AppPackageBuilder := mkAppPackageBuilder {
  pb_manifest : AppManifest;
  pb_payload : list byte;
}.

Definition AppPackageBuilder_new (m : AppManifest) (payload : list byte) :
    result AppPackageBuilder PackageBuildError :=
  if bool_decide (payload = []) then Err PbEmptyPayload
  else let? _ := validate_manifest_pre_sign m in Ok (mkAppPackageBuilder m payload).

Definition pb_set_manifest (m : AppManifest) (b : AppPackageBuilder) : AppPackageBuilder :=
  mkAppPackageBuilder m (pb_payload b).
Definition pb_set_payload (p : list byte) (b : AppPackageBuilder) : AppPackageBuilder :=
  mkAppPackageBuilder (pb_manifest b) p.
Definition manifest_ref (b : AppPackageBuilder) : AppManifest := pb_manifest b.
Definition payload_ref (b : AppPackageBuilder) : list byte := pb_payload b.

Definition set_publisher_key_id (id : string) (m : AppManifest) : AppManifest :=
  mkAppManifest (am_schema_version m) (am_app_id m) (am_name m) (am_version m) (am_publisher m)
    (am_description m) (am_min_os_version m) (am_permissions m) (am_sandbox_profile m)
    (am_resources m) (am_binary_sha256 m) (am_payload_len m) (am_depends_on m) (am_timestamp_ms m) id.

Section builders.
Context {C : Crypto} `{!AppJson}.

Definition mb_build (b : AppManifestBuilder) : result AppManifest ManifestBuildError :=
  if str_is_empty (mb_app_id b) || negb (is_valid_app_id (mb_app_id b))
  then Err (MbInvalidAppId (mb_app_id b))
  else if str_is_empty (mb_name b) then Err MbEmptyName
  else if str_is_empty (mb_version b) then Err MbEmptyVersion
  else if str_is_empty (mb_publisher b) then Err MbEmptyPublisher
  else if bool_decide (mb_payload b = []) then Err MbEmptyPayload
  else
    Ok (mkAppManifest APP_PACKAGE_SCHEMA_VERSION (mb_app_id b) (mb_name b) (mb_version b)
          (mb_publisher b) (mb_description b) (mb_min_os_version b) (mb_permissions b)
          SbRestrictedService (mb_resources b) (hex_of_bytes (sha256 (mb_payload b)))
          (N.of_nat (length (mb_payload b))) (mb_depends_on b) (mb_timestamp_ms b) "").

Definition build_skeleton (b : AppManifestBuilder) :
    result (AppManifest * list byte) ManifestBuildError :=
  let? m := mb_build b in
  let payload := self_payload m in
  Ok (m, payload).

Definition pb_sign (b : AppPackageBuilder) (signer : AppPackageSigner) :
    result AppPackage PackageBuildError :=
  let? _ := validate_manifest_pre_sign (pb_manifest b) in
  if bool_decide (pb_payload b = []) then Err PbEmptyPayload
  else
    let manifest := set_publisher_key_id (public_key_fingerprint_hex signer) (pb_manifest b) in
    let? _ := map_err PbInvalidManifest (AppManifest_validate manifest) in
    map_err PbSigner (sign_package signer (mkAppPackage manifest "" (pb_payload b))).

Definition build_signed (m : AppManifest) (payload : list byte) (signer : AppPackageSigner) :
    result AppPackage PackageBuildError :=
  let? b := AppPackageBuilder_new m payload in pb_sign b signer.
End builders.

(** ** permissions.rs *)

Record PermissionRequest := mkPermissionRequest {
  pr_permission : AppPermission;
  pr_capability : Capability;
}.

Definition PermissionRequest_risk_level (r : PermissionRequest) : RiskLevel :=
  cap_risk_level (pr_capability r).

Definition permissions_to_capabilities (perms : list AppPermission) : list PermissionRequest :=
  (λ p, mkPermissionRequest p (app_permission_capability p)) <$> perms.

Definition count_permissions (perms : list AppPermission) : nat := length perms.

(** ** install.rs and client.rs *)

Definition STORE_SERVICE_ID : string := "aether-store".

Section requests.
Context {J : Type} `{!JsonOps J} `{!CoreJson J}.

Definition install_request (package_path : string) (t : ActorTrust) : IpcRequest J :=
  mkIpcRequest STORE_SERVICE_ID "install" (json_obj [("package_path", json_str package_path)]) t.

Definition launch_request (app_id : string) (instance_label : option string) (t : ActorTrust) :
    IpcRequest J :=
  let params := json_obj [("app_id", json_str app_id)] in
  let params := match instance_label with
                | Some label => json_insert params "instance_label" (json_str label)
                | None => params
                end in
  mkIpcRequest STORE_SERVICE_ID "launch" params t.

Definition uninstall_request (app_id : string) (t : ActorTrust) : IpcRequest J :=
  mkIpcRequest STORE_SERVICE_ID "uninstall" (json_obj [("app_id", json_str app_id)]) t.

Definition client_status : IpcRequest J :=
  mkIpcRequest "aether-system-core" "status" (json_obj []) Trusted.

Definition client_service_control (action service_id : string) : IpcRequest J :=
  mkIpcRequest "aether-system-core" action (json_obj [("service", json_str service_id)]) Trusted.

Definition client_shutdown : IpcRequest J :=
  mkIpcRequest "aether-system-core" "shutdown" (json_obj []) Trusted.

(** ** aetherctl *)

Definition aetherctl_request (args : list string) : option (IpcRequest J) :=
  match args with
  | [a] =>
      if (a =? "status")%string then
        Some (mkIpcRequest "aether-system-core" "status" (json_obj []) Trusted)
      else if (a =? "shutdown")%string then
        Some (mkIpcRequest "aether-system-core" "shutdown" (json_obj []) Trusted)
      else None
  | [action; service] =>
      if existsb (String.eqb action) ["start"; "stop"; "restart"] then
        Some (mkIpcRequest service action (json_obj [("service", json_str service)]) Trusted)
      else None
  | _ => None
  end.

(** The exit code; the answer of the control plane is an argument. *)
Definition aetherctl (args : list string) (call : IpcRequest J → result (IpcResponse J) string) : N :=
  match aetherctl_request args with
  | None => match args with [] => 0 | _ => 2 end
  | Some request =>
      match call request with
      | Ok res => if resp_ok res then 0 else 1
      | Err _ => 1
      end
  end%N.
End requests.

(** ** Built manifests *)

(** What the methods of the builder keep. *)
Inductive built : AppManifestBuilder → Prop :=
| built_new app_id name version publisher payload :
    built (AppManifestBuilder_new app_id name version publisher payload)
| built_description d b : built b → built (mb_set_description d b)
| built_min_os_version v b : built b → built (mb_set_min_os_version v b)
| built_permission p b : built b → built (mb_permission p b)
| built_resources r b : built b → built (mb_set_resources r b)
| built_depend_on s b : built b → built (mb_depend_on s b)
| built_timestamp t b : built b → built (mb_set_timestamp_ms t b).

Lemma push_new_NoDup {A} `{EqDecision A} (x : A) l :
  NoDup l → NoDup (if bool_decide (x ∈ l) then l else l ++ [x]).
Proof.
  intros Hl. case_bool_decide; [done|]. apply NoDup_app. split_and!; [done|set_solver|apply NoDup_singleton].
Qed.

Lemma built_NoDup b : built b → NoDup (mb_permissions b) ∧ NoDup (mb_depends_on b).
Proof.
  induction 1; cbn; try done; [split; constructor|..]; destruct IHbuilt; split; auto using push_new_NoDup.
Qed.

Section sdk.
Context {C : Crypto} {L : CryptoLaws C} `{!AppJson}.
Implicit Types (b : AppManifestBuilder) (m : AppManifest) (signer : AppPackageSigner).

(** What must be there for a manifest to be built. *)
Definition complete b : Prop :=
  is_valid_app_id (mb_app_id b) = true ∧ mb_name b ≠ EmptyString ∧ mb_version b ≠ EmptyString ∧
  mb_publisher b ≠ EmptyString ∧ mb_payload b ≠ [].

Lemma mb_build_ok b m :
  mb_build b = Ok m ↔ complete b ∧
    m = mkAppManifest "1" (mb_app_id b) (mb_name b) (mb_version b)
          (mb_publisher b) (mb_description b) (mb_min_os_version b) (mb_permissions b)
          SbRestrictedService (mb_resources b) (hex_of_bytes (sha256 (mb_payload b)))
          (N.of_nat (length (mb_payload b))) (mb_depends_on b) (mb_timestamp_ms b) "".
Proof.
  unfold mb_build, complete. destruct (str_is_empty (mb_app_id b)) eqn:Hid.
  { apply str_is_empty_true in Hid. rewrite Hid. cbn. naive_solver. }
  cbn [orb]. destruct (is_valid_app_id (mb_app_id b)); cbn [negb]; [|naive_solver].
  repeat match goal with
  | |- context [str_is_empty ?s] =>
      let E := fresh in destruct (str_is_empty s) eqn:E;
        [apply str_is_empty_true in E; naive_solver|apply str_is_empty_false in E]
  end.
  case_bool_decide; naive_solver.
Qed.

(** The check before signing is the check of the manifest, less the publisher's
    key. *)
Lemma pre_sign_validates id m :
  id ≠ EmptyString →
  (validate_manifest_pre_sign m = Ok tt ↔ AppManifest_validate (set_publisher_key_id id m) = Ok tt).
Proof.
  intros Hid%str_is_empty_false. unfold validate_manifest_pre_sign, AppManifest_validate. cbn. rewrite Hid.
  repeat match goal with |- context [if ?c then _ else _] => destruct c end; naive_solver.
Qed.

Lemma fingerprint_nonempty signer : public_key_fingerprint_hex signer ≠ EmptyString.
Proof.
  unfold public_key_fingerprint_hex. intros E. apply (f_equal String.length) in E.
  by rewrite length_hex_of_bytes, sha256_len in E.
Qed.




(** Signing what the package builder took fails only in the signer, as its
    documentation says. *)
Theorem signing_fails_only_in_signer m payload pb signer e :
  AppPackageBuilder_new m payload = Ok pb → pb_sign pb signer = Err e → ∃ s, e = PbSigner s.
Proof.
  unfold AppPackageBuilder_new, pb_sign. case_bool_decide as Hp; [done|].
  destruct (validate_manifest_pre_sign m) as [[]|] eqn:Hm; [|done]. intros [= <-]. cbn. rewrite Hm.
  rewrite bool_decide_eq_false_2 by done.
  rewrite (proj1 (pre_sign_validates _ m (fingerprint_nonempty signer)) Hm). cbn.
  destruct (sign_package _ _) as [|s]; cbn; [done|]. intros [= <-]. by exists s.
Qed.

(** A skeleton comes without its payload, so no package can be made of it. *)
Theorem skeleton_cannot_be_packaged b m payload signer :
  build_skeleton b = Ok (m, payload) →
  payload = [] ∧ mb_payload b ≠ [] ∧ build_signed m payload signer = Err PbEmptyPayload.
Proof.
  unfold build_skeleton. destruct (mb_build b) as [m'|] eqn:Hb; [|done]. intros [= <- <-].
  apply mb_build_ok in Hb as [(_ & _ & _ & _ & Hp) _]. done.
Qed.
End sdk.

(** ** From the kit to the store *)

Section install.
Context {F K : Type} `{!StoreFs F} `{!AppLauncher K} {SJ : StoreJson} {AJ : AppJson} {D : Digest}
  {C : Crypto} {L : CryptoLaws C}.
Implicit Types (s : Store F K) (b : AppManifestBuilder).




End install.

(** ** The requests of the kit *)

Section requests_props.
Context {E J : Type} `{!CoreEnv E} `{!RuntimeEnv E} `{!MachineFiles E} `{!Processes E} `{!Rng E}
  `{!JsonOps J} `{!JsonParse J} `{!CoreJson J} `{!FloatText J} `{!ObservationText J}
  `{!UuidText} `{!Aead} {D : Digest} {Cr : Crypto} `{!KeyErrorText}.
Implicit Types (c : Core E J).

Lemma unknown_command (req : IpcRequest J) c :
  PolicyVerdict_is_allow (policy_verdict (req_command req) (req_actor_trust req)) = true →
  handler_of (E := E) (J := J) (req_command req) = None → is_capability (req_command req) = false →
  dispatch req c =
    (c, Some (err (req_command req) "INVALID_INPUT" ("unknown command '" +:+ req_command req +:+ "'"))).
Proof. intros Hp Hh Hc. unfold dispatch, dispatch_inner. cbv zeta. by rewrite Hp, Hh, Hc. Qed.

(** The control plane does not know the requests of install.rs: it answers
    each of them with an error and changes nothing. *)
Theorem store_requests_unknown path app_id label c :
  Forall (λ req : IpcRequest J, dispatch req c =
      (c, Some (err (req_command req) "INVALID_INPUT" ("unknown command '" +:+ req_command req +:+ "'"))))
    [install_request path Trusted; launch_request app_id label Trusted; uninstall_request app_id Trusted].
Proof. repeat (apply Forall_cons_2 || apply Forall_nil_2); apply unknown_command; vm_compute; reflexivity. Qed.

(** What aetherctl sends is a command the control plane knows, and the requests
    of the client are among them. *)
Theorem aetherctl_sends_known_commands args (req : IpcRequest J) :
  aetherctl_request args = Some req →
  is_Some (handler_of (E := E) (req_command req)) ∧ req_actor_trust req = Trusted ∧
  (req = client_status ∨ req = client_shutdown ∨
   ∃ action service, args = [action; service] ∧ action ∈ ["start"; "stop"; "restart"] ∧
     req = mkIpcRequest service action (req_parameters (client_service_control (J := J) action service)) Trusted).
Proof.
  destruct args as [|a [|service [|]]]; cbn [aetherctl_request]; try done.
  - destruct (String.eqb_spec a "status"); [intros [= <-]|destruct (a =? "shutdown")%string; [intros [= <-]|done]];
      (split; [eexists; reflexivity|split; [done|auto]]).
  - destruct (existsb _ _) eqn:Ha; [|done]. intros [= <-].
    apply existsb_exists in Ha as (x & Hx%list_elem_of_In & ->%String.eqb_eq). cbn.
    split; [|split; [done|right; right; by exists x, service]].
    rewrite !elem_of_cons in Hx. destruct Hx as [->|[->|[->|[]%elem_of_nil]]]; eexists; reflexivity.
Qed.
End requests_props.

(** ** An application of the kit *)

Definition kit_signer : AppPackageSigner := AppPackageSigner_from_secret_bytes [Byte.x07].

Definition kit_builder : AppManifestBuilder :=
  mb_permission Camera (mb_permission Camera
    (AppManifestBuilder_new "com.example.kit" "Kit" "1.0.0" "Example Org" (as_bytes "payload"))).




Lemma skeleton_cannot_be_packaged_witness :
  ∃ m, build_skeleton kit_builder = Ok (m, []) ∧ mb_payload kit_builder ≠ [] ∧
    build_signed m [] kit_signer = Err PbEmptyPayload.
Proof.
  destruct (build_skeleton kit_builder) as [[m payload]|e] eqn:Hb; [|by vm_compute in Hb].
  destruct (skeleton_cannot_be_packaged _ _ _ kit_signer Hb) as (-> & Hp & Hs). by exists m.
Defined.
