(* ===== verification/Supervisor.v ===== *)
(** * The service supervisor

    Models services/aether-supervisor/src: the backoff and the decision of
    lib.rs, and main.rs, the arguments and the loop that polls one child.  The
    loop is cut after a number of rounds; what it does to the system is
    written down in order. *)
From S2P Require Import Prelude RustStd CoreTypes.

(** ** lib.rs *)

Inductive SupervisionAction := SaLaunch | SaWait | SaGiveUp.

#[export] Instance SupervisionAction_eq_dec : EqDecision SupervisionAction.
Proof. solve_decision. Defined.

(** Instants and durations are in milliseconds. *)
Record Backoff := mkBackoff {
  bo_base_ms : N;
  bo_max_ms : N;
  bo_attempt : N;
  bo_last_transition : option N;
}.

Definition Backoff_new (base_ms max_ms : N) : Backoff :=
  mkBackoff (N.max base_ms 1) (N.max max_ms (N.max base_ms 1)) 0 None.

Definition Backoff_record_failure (now : N) (b : Backoff) : Backoff * N :=
  let attempt := saturating_add u32_max (bo_attempt b) 1 in
  let shift := N.min (saturating_sub attempt 1) 16 in
  let delay := N.min (saturating_mul u64_max (bo_base_ms b) (N.shiftl 1 shift)) (bo_max_ms b) in
  (mkBackoff (bo_base_ms b) (bo_max_ms b) attempt (Some now), delay).

Definition Backoff_reset_if_stable (now stable : N) (b : Backoff) : Backoff * bool :=
  match bo_last_transition b with
  | Some t =>
      if (stable <=? now - t)%N
      then (mkBackoff (bo_base_ms b) (bo_max_ms b) 0 (bo_last_transition b), true)
      else (b, false)
  | None => (b, false)
  end.

Definition Backoff_attempts (b : Backoff) : N := bo_attempt b.

Definition decide (policy : RestartPolicy) (running : bool) (restarts restart_limit : N)
    (backoff_elapsed required_backoff : option N) : SupervisionAction :=
  if running then SaWait
  else match policy with
       | RpNever => SaGiveUp
       | RpOnFailure | RpAlways =>
           if (restart_limit <=? restarts)%N then SaGiveUp
           else match backoff_elapsed, required_backoff with
                | Some elapsed, Some required => if (elapsed <? required)%N then SaWait else SaLaunch
                | _, _ => SaLaunch
                end
       end.

(** ** The arguments of main.rs *)

Definition parse_policy (s : string) : RestartPolicy :=
  if (s =? "never")%string || (s =? "Never")%string then RpNever
  else if (s =? "always")%string || (s =? "Always")%string then RpAlways
  else RpOnFailure.

Record Arguments_ := mkArguments {
  arg_policy : RestartPolicy;
  arg_limit : N;
  arg_command_line : list string;
}.

(** The loop over [raw], of which [i] words have been read. *)
Fixpoint parse_arguments (raw : list string) (a : Arguments_) : Arguments_ :=
  match raw with
  | [] => a
  | w :: raw =>
      let push := mkArguments (arg_policy a) (arg_limit a) (arg_command_line a ++ [w]) in
      if (w =? "--policy")%string then
        match raw with
        | p :: raw => parse_arguments raw (mkArguments (parse_policy p) (arg_limit a) (arg_command_line a))
        | [] => push
        end
      else if (w =? "--limit")%string then
        match raw with
        | l :: raw =>
            parse_arguments raw (mkArguments (arg_policy a)
              (default (arg_limit a) (parse_unsigned u32_max l)) (arg_command_line a))
        | [] => push
        end
      else if (w =? "--")%string then mkArguments (arg_policy a) (arg_limit a) raw
      else parse_arguments raw push
  end.

Definition default_arguments : Arguments_ := mkArguments RpOnFailure 5 [].

(** ** The loop of main.rs *)

(** Starting and polling a child.  A poll gives the exit status if there is
    one, or fails. *)
Class Children (E : Type) := {
  ch_spawn : string → list string → E → E * result unit string;
  ch_try_wait : E → E * result (option string) string;
  ch_sleep : N → E → E;
  ch_now : E → N;
}.

Inductive SupEvent := EvSpawn (ok : bool) | EvExited (status : string) | EvSleep (ms : N).

(** The unit with the world around it.  [su_child] says whether there is a
    child to poll. *)
Record Sup {E : Type} := mkSup {
  su_command : string;
  su_args : list string;
  su_policy : RestartPolicy;
  su_restart_limit : N;
  su_backoff : Backoff;
  su_restarts : N;
  su_child : bool;
  su_env : E;
  su_log : list SupEvent;
}.
Arguments Sup E : clear implicits.
Arguments mkSup {E}.

(** How the supervisor goes on. *)
Inductive Outcome {E : Type} :=
| Running (s : Sup E)
| Exited (code : N) (s : Sup E)
| Panicked.
Arguments Outcome E : clear implicits.

Section loop.
Context {E : Type} `{!Children E}.
Implicit Types (s : Sup E).

Definition su_with (b : Backoff) (restarts : N) (child : bool) (e : E) (log : list SupEvent) s : Sup E :=
  mkSup (su_command s) (su_args s) (su_policy s) (su_restart_limit s) b restarts child e (su_log s ++ log).

Definition launch s : Sup E * bool :=
  match ch_spawn (su_command s) (su_args s) (su_env s) with
  | (e, Ok _) => (su_with (su_backoff s) (su_restarts s) true e [EvSpawn true] s, true)
  | (e, Err _) => (su_with (su_backoff s) (su_restarts s) (su_child s) e [EvSpawn false] s, false)
  end.

Definition sleep (ms : N) s : Sup E :=
  su_with (su_backoff s) (su_restarts s) (su_child s) (ch_sleep ms (su_env s)) [EvSleep ms] s.

(** The match over the child; [Some] is the status of one that exited. *)
Definition poll s : Sup E * option string :=
  if su_child s then
    match ch_try_wait (su_env s) with
    | (e, Ok (Some status)) => (su_with (su_backoff s) (su_restarts s) true e [] s, Some status)
    | (e, Ok None) => (su_with (su_backoff s) (su_restarts s) true e [] s, None)
    | (e, Err _) => (su_with (su_backoff s) (su_restarts s) false e [] s, None)
    end
  else (s, None).

(** One round of the loop. *)
Definition supervise_round s : Outcome E :=
  match poll (sleep 100 s) with
  | (s, None) => Running s
  | (s, Some status) =>
      let '(backoff, required) := Backoff_record_failure (ch_now (su_env s)) (su_backoff s) in
      let s := su_with backoff (su_restarts s) false (su_env s) [EvExited status] s in
      match decide (su_policy s) false (su_restarts s) (su_restart_limit s) None None with
      | SaLaunch =>
          if (u32_max <? su_restarts s + 1)%N then Panicked
          else
            let s := su_with (su_backoff s) (su_restarts s + 1) false (su_env s) [] s in
            Running (launch (sleep required s)).1
      | SaGiveUp => Exited 1 s
      | SaWait => Running s
      end
  end.

Fixpoint supervise_rounds (n : nat) s : Outcome E :=
  match n with
  | O => Running s
  | S n => match supervise_round s with Running s => supervise_rounds n s | o => o end
  end.

(** [main], its loop cut after [n] rounds; [None] is the usage message
    and exit code 2. *)
Definition supervisor_main (raw : list string) (n : nat) (e : E) : option (Outcome E) :=
  let a := parse_arguments raw default_arguments in
  match arg_command_line a with
  | [] => None
  | command :: args =>
      let u := mkSup command args (arg_policy a) (arg_limit a) (Backoff_new 200 10000) 0 false e [] in
      let '(u, launched) := launch u in
      if negb launched && bool_decide (su_policy u = RpNever) then Some (Exited 1 u)
      else Some (supervise_rounds n u)
  end.
End loop.

(** ** Backoff *)

(** The delays of a row of failures at the given times. *)
Fixpoint delays (times : list N) (b : Backoff) : list N :=
  match times with
  | [] => []
  | t :: times => let '(b, d) := Backoff_record_failure t b in d :: delays times b
  end.

(** The delay after the failure number [i], counted from 0. *)
Definition delay_at (base max i : N) : N := N.min max (base * 2 ^ N.min i 16).

Lemma record_failure_delay now b :
  (bo_attempt b ≤ u32_max)%N → (bo_max_ms b ≤ u64_max)%N →
  (Backoff_record_failure now b).2 = delay_at (bo_base_ms b) (bo_max_ms b) (bo_attempt b).
Proof.
  intros Ha Hm. unfold Backoff_record_failure, delay_at, saturating_add, saturating_mul, saturating_sub.
  cbn [snd]. rewrite N.shiftl_1_l.
  replace (N.min (N.min u32_max (bo_attempt b + 1) - 1) 16) with (N.min (bo_attempt b) 16)
    by (unfold u32_max in *; lia). lia.
Qed.

(** The delays double up to the sixteenth and never exceed the maximum, however
    many failures there are, also beyond the range of the counter. *)
Theorem backoff_delays_exact times base max i :
  (max ≤ u64_max)%N → (base ≤ u64_max)%N → i < length times →
  delays times (Backoff_new base max) !! i =
  Some (delay_at (N.max base 1) (N.max max (N.max base 1)) (N.of_nat i)).
Proof.
  intros Hmax Hbase. set (B := N.max base 1). set (M := N.max max B).
  assert (M ≤ u64_max)%N as HM by (unfold M, B, u64_max in *; lia).
  enough (∀ k l, (k ≤ u32_max)%N → i < length times →
    delays times (mkBackoff B M k l) !! i = Some (delay_at B M (k + N.of_nat i))) as Hk
    by (intros Hi; apply Hk; [unfold u32_max; lia|done]).
  clearbody B M. clear -HM. revert i. induction times as [|t times IH]; intros i k l Hk Hi; cbn in Hi; [lia|].
  pose proof (record_failure_delay t (mkBackoff B M k l) Hk HM) as Hd. cbn in Hd.
  cbn [delays]. unfold Backoff_record_failure. cbn. destruct i as [|i]; cbn.
  { rewrite N.add_0_r, <-Hd. done. }
  rewrite IH by (unfold saturating_add, u32_max in *; lia). f_equal. unfold delay_at, saturating_add.
  do 3 f_equal. unfold u32_max in *. lia.
Qed.

Lemma backoff_delays_exact_witness :
  delays (replicate 20 7%N) (Backoff_new 200 10000) !! 3 = Some 1600%N.
Proof. refine (backoff_delays_exact (replicate 20 7%N) 200 10000 3 _ _ _); vm_compute; [congruence..|lia]. Defined.

(** ** The arguments *)

Lemma parse_arguments_limit raw a :
  (arg_limit a ≤ u32_max)%N → (arg_limit (parse_arguments raw a) ≤ u32_max)%N.
Proof.
  enough (∀ n raw a, length raw ≤ n → (arg_limit a ≤ u32_max)%N →
    (arg_limit (parse_arguments raw a) ≤ u32_max)%N) by eauto.
  clear. induction n as [|n IH]; intros raw a Hn Ha; (destruct raw as [|w raw]; [done|]); cbn in Hn; [lia|].
  cbn [parse_arguments]. cbv zeta.
  destruct (w =? "--policy")%string; [destruct raw; cbn in *; [done|apply IH; cbn; [lia|done]]|].
  destruct (w =? "--limit")%string.
  { destruct raw as [|l raw]; cbn in *; [done|]. apply IH; cbn; [lia|].
    destruct (parse_unsigned u32_max l) eqn:Hp; [by eapply parse_unsigned_bound|done]. }
  destruct (w =? "--")%string; [done|]. apply IH; cbn; [lia|done].
Qed.

(** ** What a run does *)

(** Apart from the polls every 100 ms: the child is started, exits, and is
    started again after the delay. *)
Definition not_tick (ev : SupEvent) : bool :=
  match ev with EvSleep ms => negb (ms =? 100)%N | _ => true end.

Definition restart_events (i : nat) (status : string) : list SupEvent :=
  [EvSpawn true; EvExited status; EvSleep (delay_at 200 10000 (N.of_nat i))].

Definition history (statuses : list string) (last_ok : bool) : list SupEvent :=
  concat (imap restart_events statuses) ++ [EvSpawn last_ok].

Lemma history_snoc sts st b :
  history (sts ++ [st]) b =
  history sts true ++ [EvExited st; EvSleep (delay_at 200 10000 (N.of_nat (length sts))); EvSpawn b].
Proof.
  unfold history. rewrite imap_app, concat_app. cbn. rewrite Nat.add_0_r.
  by rewrite <-!app_assoc.
Qed.

Section run.
Context {E : Type} `{!Children E}.
Implicit Types (s : Sup E).

Record run_inv (a : Arguments_) (statuses : list string) (last_ok : bool) s : Prop := {
  ri_log : List.filter not_tick (su_log s) = history statuses last_ok;
  ri_policy : su_policy s = arg_policy a;
  ri_limit : su_restart_limit s = arg_limit a;
  ri_restarts : su_restarts s = N.of_nat (length statuses);
  ri_backoff : ∃ l, su_backoff s = mkBackoff 200 10000 (N.of_nat (length statuses)) l;
  ri_bound : (N.of_nat (length statuses) ≤ arg_limit a)%N;
  ri_never : arg_policy a = RpNever → statuses = [];
  ri_child : su_child s = true → last_ok = true;
}.

(** How a supervisor that has given up ends. *)
Definition gave_up (a : Arguments_) s : Prop :=
  ∃ statuses status,
    List.filter not_tick (su_log s) = history statuses true ++ [EvExited status] ∧
    (arg_policy a = RpNever ∧ statuses = [] ∨
     arg_policy a ≠ RpNever ∧ N.of_nat (length statuses) = arg_limit a).

Definition outcome_sound (a : Arguments_) (o : Outcome E) : Prop :=
  match o with
  | Running s => ∃ statuses b, run_inv a statuses b s
  | Exited code s => code = 1%N ∧ gave_up a s
  | Panicked => False
  end.

Lemma delay_not_tick i : (delay_at 200 10000 i =? 100)%N = false.
Proof.
  apply N.eqb_neq. unfold delay_at. pose proof (N.pow_nonzero 2 (N.min i 16)). lia.
Qed.

Lemma spawn_inv a sts s :
  List.filter not_tick (su_log s) ++ [EvSpawn true] = history sts true →
  su_policy s = arg_policy a → su_restart_limit s = arg_limit a →
  su_restarts s = N.of_nat (length sts) →
  (∃ l, su_backoff s = mkBackoff 200 10000 (N.of_nat (length sts)) l) →
  (N.of_nat (length sts) ≤ arg_limit a)%N → (arg_policy a = RpNever → sts = []) → su_child s = false →
  run_inv a sts (launch s).2 (launch s).1.
Proof.
  unfold history. intros [Hlog _]%app_inj_2 Hp Hl Hr Hb Hbd Hn Hc; [|done]. unfold launch.
  destruct (ch_spawn _ _ _) as [e [?|?]]; constructor; cbn; try done;
    try (by rewrite List.filter_app, Hlog). congruence.
Qed.

Lemma round_sound a sts b s :
  (arg_limit a ≤ u32_max)%N → run_inv a sts b s → outcome_sound a (supervise_round s).
Proof.
  intros Hl [Hlog Hp Hlim Hr [l Hb] Hbd Hnv Hch]. unfold supervise_round.
  destruct (poll (sleep 100 s)) as [s1 o] eqn:Hpoll.
  assert (run_inv a sts b s1 ∧ (is_Some o → su_child s = true)) as [Hi Ho].
  { unfold poll, sleep in Hpoll. cbn in Hpoll.
    assert (List.filter not_tick (su_log s ++ [EvSleep 100]) = history sts b) as Ht
      by (rewrite List.filter_app, Hlog; apply app_nil_r).
    destruct (su_child s).
    - destruct (ch_try_wait _) as [e [[st|]|er]]; injection Hpoll as <- <-; (split; [|done]);
        constructor; cbn; rewrite ?app_nil_r; eauto; done.
    - injection Hpoll as <- <-. split; [|by intros []]. constructor; cbn; eauto. }
  destruct o as [st|]; [|by exists sts, b]. specialize (Hch (Ho (mk_is_Some _ _ eq_refl))). subst b.
  clear Hlog Hp Hlim Hr Hb l Ho Hpoll. destruct Hi as [Hlog Hp Hlim Hr [l Hb] _ _ _].
  set (k := N.of_nat (length sts)) in *.
  assert (Backoff_record_failure (ch_now (su_env s1)) (su_backoff s1) =
    (mkBackoff 200 10000 (saturating_add u32_max k 1) (Some (ch_now (su_env s1))), delay_at 200 10000 k)) as Hrf.
  { pose proof (record_failure_delay (ch_now (su_env s1)) (su_backoff s1)) as Hd. rewrite Hb in *. cbn in Hd.
    rewrite <-Hd by (unfold u64_max; lia). done. }
  rewrite Hrf. cbn. rewrite Hp, Hlim, Hr. fold k.
  assert (∀ lg, List.filter not_tick (su_log s1 ++ EvExited st :: lg) =
    history sts true ++ EvExited st :: List.filter not_tick lg) as Hf by (intros; by rewrite List.filter_app, Hlog).
  destruct (N.leb_spec (arg_limit a) k) as [Hge|Hlt].
  - assert (gave_up a (su_with (mkBackoff 200 10000 (saturating_add u32_max k 1) (Some (ch_now (su_env s1))))
      k false (su_env s1) [EvExited st] s1)) as Hg.
    { exists sts, st. split; [apply Hf|]. destruct (arg_policy a); [left; auto|right..]; split; [done|lia|done|lia]. }
    destruct (arg_policy a); by split.
  - destruct (arg_policy a) eqn:Hpa.
    { split; [done|]. exists sts, st. split; [apply Hf|]. rewrite Hpa. left; auto. }
    all: destruct (N.ltb_spec u32_max (k + 1)) as [?|_]; [lia|]; exists (sts ++ [st]); eexists; apply spawn_inv.
    all: cbn; rewrite ?length_app, ?app_nil_r, <-?app_assoc; cbn [app length]; rewrite ?Hpa; try done.
    all: try (rewrite Hf, history_snoc; cbn [List.filter not_tick]; fold k;
              rewrite delay_not_tick; cbn [negb]; by rewrite <-app_assoc).
    all: try (unfold k in *; lia).
    all: eexists; f_equal; unfold saturating_add, k in *; lia.
Qed.

Lemma rounds_sound a n sts b s :
  (arg_limit a ≤ u32_max)%N → run_inv a sts b s → outcome_sound a (supervise_rounds n s).
Proof.
  intros Hl. revert sts b s. induction n as [|n IH]; intros sts b s Hs; cbn [supervise_rounds]; [by exists sts, b|].
  pose proof (round_sound a sts b s Hl Hs) as Hr. destruct (supervise_round s); [|done..].
  destruct Hr as (sts' & b' & Hr). by eapply IH.
Qed.

(** C40: The supervisor restarts its child at most as often as the limit says, never
    overflows its counter, and waits the delay of the backoff before each
    restart: apart from the polls, what it has done after any number of rounds
    is one history of starts, exits and delays.  It ends only with exit code 1:
    after the first exit or a failed start with the policy [never], and with
    the others after the last restart it may make. *)
Theorem supervisor_history_exact raw n (e : E) :
  let a := parse_arguments raw default_arguments in
  match supervisor_main raw n e with
  | None => arg_command_line a = []
  | Some (Running s) =>
      ∃ statuses b, List.filter not_tick (su_log s) = history statuses b ∧
        (N.of_nat (length statuses) ≤ arg_limit a)%N ∧ (arg_policy a = RpNever → statuses = [])
  | Some (Exited code s) =>
      code = 1%N ∧ (arg_policy a = RpNever ∧ su_log s = [EvSpawn false] ∨ gave_up a s)
  | Some Panicked => False
  end.
Proof.
  intros a. unfold supervisor_main. fold a.
  assert (arg_limit a ≤ u32_max)%N as Hl by (by apply parse_arguments_limit).
  destruct (arg_command_line a) as [|command args]; [done|]. cbv zeta.
  set (u := mkSup _ _ _ _ _ _ _ _ _).
  assert (run_inv a [] (launch u).2 (launch u).1) as Hi.
  { apply spawn_inv; cbn; [done..|by eexists|lia|done|done]. }
  assert ((launch u).2 = false → su_log (launch u).1 = [EvSpawn false]) as Hf.
  { unfold launch. by destruct (ch_spawn _ _ _) as [? []]. }
  destruct (launch u) as [u1 [|]]; cbn in *.
  - pose proof (rounds_sound a n [] true u1 Hl Hi) as Ho. destruct (supervise_rounds n u1); cbn in Ho; [|naive_solver..].
    destruct Ho as (sts & b & []); eauto.
  - case_bool_decide as Hp; [rewrite (ri_policy _ _ _ _ Hi) in Hp; auto|].
    pose proof (rounds_sound a n [] false u1 Hl Hi) as Ho. destruct (supervise_rounds n u1); cbn in Ho; [|naive_solver..].
    destruct Ho as (sts & b & []); eauto.
Qed.

(** A supervisor without a child only sleeps. *)
Lemma childless_rounds n s :
  su_child s = false → ∃ s', supervise_rounds n s = Running s' ∧
    su_log s' = su_log s ++ replicate n (EvSleep 100).
Proof.
  revert s. induction n as [|n IH]; intros s Hc; cbn [supervise_rounds replicate].
  { exists s. by rewrite app_nil_r. }
  unfold supervise_round, poll. cbn. rewrite Hc. destruct (IH (sleep 100 s) Hc) as (s' & Hs & Hlog).
  exists s'. split; [done|]. rewrite Hlog. cbn. by rewrite <-app_assoc.
Qed.

(** A command that could not be started is never tried again: whatever the
    policy and the limit, unless it is [never], the supervisor goes on forever
    without a child and without another attempt. *)
Theorem failed_start_never_retried raw n (e : E) command args :
  let a := parse_arguments raw default_arguments in
  arg_command_line a = command :: args → arg_policy a ≠ RpNever →
  is_ok (ch_spawn command args e).2 = false →
  ∃ s, supervisor_main raw n e = Some (Running s) ∧ su_log s = EvSpawn false :: replicate n (EvSleep 100).
Proof.
  intros a Ha Hp Hs. unfold supervisor_main. fold a. rewrite Ha. cbv zeta. unfold launch. cbn.
  destruct (ch_spawn command args e) as [e1 [?|er]]; [done|]. cbn.
  rewrite bool_decide_eq_false_2 by done.
  set (u := su_with _ _ _ _ _ _). destruct (childless_rounds n u eq_refl) as (s & -> & Hlog). by exists s.
Qed.
End run.

(** ** A child that always succeeds *)

(** The environment counts the polls; the child exits at every poll, with
    success. *)
#[local] Instance ToyChildren : Children N := {|
  ch_spawn c args e := (e, if (c =? "missing")%string then Err "no such file" else Ok tt);
  ch_try_wait e := (e, Ok (Some "exit status: 0"));
  ch_sleep ms e := (e + ms)%N;
  ch_now e := e;
|}.

(** The policy [on-failure] restarts a child that succeeded. *)
Example success_is_restarted :
  match supervisor_main ["--limit"; "2"; "--"; "true"] 9 0%N with
  | Some (Exited 1 s) => su_restarts s = 2%N ∧ su_policy s = RpOnFailure
  | _ => False
  end.
Proof. vm_compute. auto. Qed.

(** Words before [--] are dropped from the command line. *)
Example words_before_dashes_dropped :
  arg_command_line (parse_arguments ["nice"; "--"; "true"] default_arguments) = ["true"].
Proof. reflexivity. Qed.

Lemma failed_start_never_retried_witness :
  ∃ s, supervisor_main ["--policy"; "always"; "missing"] 50 0%N = Some (Running s) ∧
    su_log s = EvSpawn false :: replicate 50 (EvSleep 100).
Proof. by apply (failed_start_never_retried ["--policy"; "always"; "missing"] 50 0%N "missing" []). Defined.
