(* ===== verification/Tools.v ===== *)
(** * The tools of the agent runtime

    Models tool.rs and tools.rs of agent/aether-agent-runtime/src: the registry of
    tools and the catalogue that describes every action.  The catalogue is compared
    with the classification of actions in action.rs and with what the executor
    sends. *)
From S2P Require Import Prelude RustStd Json Actions RuntimeHost RuntimeProps RuntimeScenarios.

(** ** tool.rs *)

(** A [ToolId] is its string. *)
Definition ToolId : Type := string.

Inductive ToolRisk := TrLow | TrMedium | TrHigh | TrCritical.

Record ToolDefinition {J : Type} := mkToolDefinition {
  td_id : ToolId;
  td_name : string;
  td_description : string;
  td_input_schema : J;
  td_output_schema : J;
  td_required_capabilities : list string;
  td_risk_level : ToolRisk;
  td_timeout_ms : N;
  td_side_effects : list string;
  td_requires_confirmation : bool;
}.
Arguments ToolDefinition J : clear implicits.
Arguments mkToolDefinition {J}.

Section tool.
Context {J : Type} `{!JsonOps J}.
Implicit Types (t : ToolDefinition J) (reg : gmap ToolId (ToolDefinition J)).

Definition ToolDefinition_new (id name description : string) : ToolDefinition J :=
  mkToolDefinition id name description (json_obj []) (json_obj []) [] TrLow 30000 [] false.

Definition with_capability (cap : string) t : ToolDefinition J :=
  mkToolDefinition (td_id t) (td_name t) (td_description t) (td_input_schema t) (td_output_schema t)
    (td_required_capabilities t ++ [cap]) (td_risk_level t) (td_timeout_ms t) (td_side_effects t)
    (td_requires_confirmation t).
Definition with_risk_level (level : ToolRisk) t : ToolDefinition J :=
  mkToolDefinition (td_id t) (td_name t) (td_description t) (td_input_schema t) (td_output_schema t)
    (td_required_capabilities t) level (td_timeout_ms t) (td_side_effects t) (td_requires_confirmation t).
Definition with_timeout (ms : N) t : ToolDefinition J :=
  mkToolDefinition (td_id t) (td_name t) (td_description t) (td_input_schema t) (td_output_schema t)
    (td_required_capabilities t) (td_risk_level t) ms (td_side_effects t) (td_requires_confirmation t).
Definition with_side_effect (effect : string) t : ToolDefinition J :=
  mkToolDefinition (td_id t) (td_name t) (td_description t) (td_input_schema t) (td_output_schema t)
    (td_required_capabilities t) (td_risk_level t) (td_timeout_ms t) (td_side_effects t ++ [effect])
    (td_requires_confirmation t).
Definition with_confirmation t : ToolDefinition J :=
  mkToolDefinition (td_id t) (td_name t) (td_description t) (td_input_schema t) (td_output_schema t)
    (td_required_capabilities t) (td_risk_level t) (td_timeout_ms t) (td_side_effects t) true.
Definition with_input_schema (schema : J) t : ToolDefinition J :=
  mkToolDefinition (td_id t) (td_name t) (td_description t) schema (td_output_schema t)
    (td_required_capabilities t) (td_risk_level t) (td_timeout_ms t) (td_side_effects t)
    (td_requires_confirmation t).
Definition with_output_schema (schema : J) t : ToolDefinition J :=
  mkToolDefinition (td_id t) (td_name t) (td_description t) (td_input_schema t) schema
    (td_required_capabilities t) (td_risk_level t) (td_timeout_ms t) (td_side_effects t)
    (td_requires_confirmation t).

(** The first field of the list that the input lacks. *)
Definition missing_field (input : J) (fields : list J) : option string :=
  list_first (λ field,
    name ← json_as_str field;
    match json_get input name with None => Some name | Some _ => None end) fields.

Definition tool_validate_input t (input : J) : result unit string :=
  match json_get (td_input_schema t) "required" ≫= json_as_array with
  | None => Ok tt
  | Some fields =>
      match missing_field input fields with
      | Some name => Err ("Missing required field: " +:+ name)
      | None => Ok tt
      end
  end.

Definition ToolRegistry : Type := gmap ToolId (ToolDefinition J).
Definition ToolRegistry_new : ToolRegistry := ∅.

Definition registry_register t reg : ToolRegistry * result unit string :=
  match reg !! td_id t with
  | Some _ => (reg, Err ("Tool '" +:+ td_id t +:+ "' already registered"))
  | None => (<[td_id t := t]> reg, Ok tt)
  end.

Definition registry_unregister (id : ToolId) reg : ToolRegistry * bool :=
  (delete id reg, bool_decide (is_Some (reg !! id))).

(** [values] is the order in which a [HashMap] is iterated. *)
Definition registry_discover (values : ToolRegistry → list (ToolDefinition J)) (capability : string)
    reg : list (ToolDefinition J) :=
  List.filter (λ t, existsb (λ c, (c =? capability)%string) (td_required_capabilities t)) (values reg).

Definition registry_validate_input (id : ToolId) (input : J) reg : result unit string :=
  match reg !! id with
  | None => Err ("Tool '" +:+ id +:+ "' not found")
  | Some t => tool_validate_input t input
  end.

(** [json!({})] and [json!({"required": [..]})]. *)
Definition empty_schema : J := json_obj [].
Definition required_fields (fields : list string) : J :=
  json_obj [("required", json_arr (json_str <$> fields))].

Definition default_tool_list : list (ToolDefinition J) :=
  [with_input_schema (required_fields ["path"]) (with_capability "file.list"
     (ToolDefinition_new "filesystem.list" "List Files" "List files in a directory"));
   with_input_schema (required_fields ["path"]) (with_capability "file.read"
     (ToolDefinition_new "filesystem.stat" "File Status" "Get file metadata"));
   with_input_schema (required_fields ["query"]) (with_capability "file.search"
     (ToolDefinition_new "filesystem.search" "Search Files" "Search for files"));
   with_capability "storage.status"
     (ToolDefinition_new "storage.status" "Storage Status" "Get storage status");
   with_capability "process.list"
     (ToolDefinition_new "process.list" "List Processes" "List running processes");
   with_input_schema (required_fields ["pid"]) (with_capability "process.inspect"
     (ToolDefinition_new "process.inspect" "Inspect Process" "Inspect a process"));
   with_capability "application.list"
     (ToolDefinition_new "application.list" "List Applications" "List registered applications");
   with_input_schema (required_fields ["application_id"]) (with_side_effect "process.start"
     (with_risk_level TrMedium (with_capability "application.launch"
       (ToolDefinition_new "application.launch" "Launch Application" "Launch an application"))));
   with_input_schema (required_fields ["application_id"]) (with_side_effect "process.stop"
     (with_risk_level TrMedium (with_capability "application.close"
       (ToolDefinition_new "application.close" "Close Application" "Close an application"))));
   with_capability "network.status"
     (ToolDefinition_new "network.status" "Network Status" "Get network status");
   with_capability "network.interfaces"
     (ToolDefinition_new "network.interfaces" "Network Interfaces" "List network interfaces");
   with_capability "system.status"
     (ToolDefinition_new "system.status" "System Status" "Get system status");
   with_capability "window.list" (ToolDefinition_new "window.list" "List Windows" "List open windows");
   with_input_schema (required_fields ["window_id"]) (with_capability "window.list"
     (ToolDefinition_new "window.inspect" "Inspect Window" "Inspect a window"))].

Definition default_tools : ToolRegistry :=
  foldl (λ reg t, (registry_register t reg).1) ToolRegistry_new default_tool_list.

(** ** tools.rs *)

Definition SERVICE_SYSTEM_CORE : string := "aether-system-core".
Definition SERVICE_SURFACE : string := "aether-surface".

(** The output schema carries the route of the tool. *)
Definition routing (service command : string) : J :=
  json_obj [("service", json_str service); ("command", json_str command)].

Definition tool (id description command : string) (input_schema : J) (risk : ToolRisk)
    (capability : string) (side_effects : list string) (timeout_ms : N) (requires_confirmation : bool) :
    ToolDefinition J :=
  let t := with_timeout timeout_ms (with_capability capability (with_risk_level risk
             (with_input_schema input_schema (ToolDefinition_new id id description)))) in
  let t := foldl (λ t e, with_side_effect e t) t side_effects in
  let t := if requires_confirmation then with_confirmation t else t in
  with_output_schema (routing SERVICE_SYSTEM_CORE command) t.

Definition application_tools : list (ToolDefinition J) :=
  [tool "application.launch" "Launch a registered application." "app.launch" (required_fields ["application_id"]) TrMedium "application.launch" ["process.start"; "window.create"] 15000 false;
   tool "application.close" "Close a running application." "app.close" (required_fields ["application_id"]) TrMedium "application.close" ["process.stop"; "window.close"] 10000 false].
Definition window_tools : list (ToolDefinition J) :=
  [with_output_schema (routing SERVICE_SURFACE "window.list")
      (tool "window.list" "List all open windows." "window.list" empty_schema TrLow "window.list" [] 5000 false);
   with_output_schema (routing SERVICE_SURFACE "window.focus")
      (tool "window.focus" "Focus a window by id or by app." "window.focus" empty_schema TrLow "window.focus" ["window.focus"] 5000 false);
   with_output_schema (routing SERVICE_SURFACE "window.minimize")
      (tool "window.minimize" "Minimize a window." "window.minimize" (required_fields ["window_id"]) TrLow "window.minimize" ["window.minimize"] 5000 false);
   with_output_schema (routing SERVICE_SURFACE "window.maximize")
      (tool "window.maximize" "Maximize a window." "window.maximize" (required_fields ["window_id"]) TrLow "window.maximize" ["window.maximize"] 5000 false);
   with_output_schema (routing SERVICE_SURFACE "window.close")
      (tool "window.close" "Close a window." "window.close" empty_schema TrMedium "window.close" ["window.close"] 5000 false)].
Definition file_tools : list (ToolDefinition J) :=
  [tool "file.list" "List files in a directory." "file.list" (required_fields ["path"]) TrLow "file.list" [] 5000 false;
   tool "file.read" "Read a file's contents." "file.read" (required_fields ["path"]) TrLow "file.read" [] 5000 false;
   tool "file.create" "Create a new file." "file.create" (required_fields ["path"]) TrMedium "file.create" ["file.create"] 5000 false;
   tool "file.write" "Overwrite a file." "file.write" (required_fields ["path"; "content"]) TrMedium "file.write" ["file.write"] 5000 false;
   tool "file.search" "Search for files matching a query." "file.search" (required_fields ["query"]) TrLow "file.search" [] 10000 false;
   tool "file.rename" "Rename a file." "file.rename" (required_fields ["from"; "to"]) TrMedium "file.rename" ["file.rename"] 5000 false;
   tool "file.move" "Move a file." "file.move" (required_fields ["from"; "to"]) TrMedium "file.move" ["file.move"] 5000 false;
   tool "file.delete" "Delete a file. High risk: cannot be undone." "file.delete" (required_fields ["path"]) TrHigh "file.delete" ["file.delete"] 5000 true].
Definition process_tools : list (ToolDefinition J) :=
  [tool "process.list" "List running processes." "process.list" empty_schema TrLow "process.list" [] 5000 false;
   tool "process.inspect" "Inspect a process by pid or name." "process.inspect" empty_schema TrLow "process.inspect" [] 5000 false].
Definition network_tools : list (ToolDefinition J) :=
  [tool "network.status" "Get network connectivity status." "network.status" empty_schema TrLow "network.status" [] 5000 false;
   tool "network.interfaces" "List network interfaces." "network.interfaces" empty_schema TrLow "network.interfaces" [] 5000 false].
Definition system_tools : list (ToolDefinition J) :=
  [tool "system.status" "Get system status." "status" empty_schema TrLow "system.status" [] 5000 false;
   tool "system.info" "Get system information." "system.info" empty_schema TrLow "system.info" [] 5000 false;
   tool "system.resources" "Get current resource usage." "system.resources" empty_schema TrLow "system.resources" [] 5000 false;
   tool "system.uptime" "Get system uptime." "system.uptime" empty_schema TrLow "system.uptime" [] 5000 false].
Definition service_tools : list (ToolDefinition J) :=
  [tool "service.restart" "Restart an Aether service unit." "service.restart" (required_fields ["service_id"]) TrMedium "service.restart" ["service.restart"] 30000 true].
Definition storage_tools : list (ToolDefinition J) :=
  [tool "storage.status" "Get storage status." "storage.status" empty_schema TrLow "storage.status" [] 5000 false].
Definition context_tools : list (ToolDefinition J) :=
  [tool "context.get" "Get a context snapshot." "context.get" empty_schema TrLow "context.get" [] 5000 false].
Definition display_tools : list (ToolDefinition J) :=
  [tool "display.list" "List connected displays." "display.list" empty_schema TrLow "display.list" [] 5000 false;
   tool "display.set_brightness" "Set display brightness (0-100)." "display.set_brightness" (required_fields ["display_id"; "level"]) TrLow "display.set_brightness" ["display.brightness"] 5000 false;
   tool "display.set_resolution" "Set display resolution." "display.set_resolution" (required_fields ["display_id"; "width"; "height"]) TrMedium "display.set_resolution" ["display.resolution"] 5000 true].
Definition device_tools : list (ToolDefinition J) :=
  [tool "device.list" "List hardware devices." "device.list" empty_schema TrLow "device.list" [] 5000 false;
   tool "device.inspect" "Inspect a hardware device." "device.inspect" (required_fields ["device_id"]) TrLow "device.inspect" [] 5000 false;
   tool "device.enable" "Enable a disabled device." "device.enable" (required_fields ["device_id"]) TrMedium "device.enable" ["device.state"] 5000 true;
   tool "device.disable" "Disable a device." "device.disable" (required_fields ["device_id"]) TrMedium "device.disable" ["device.state"] 5000 true].
Definition power_tools : list (ToolDefinition J) :=
  [tool "system.reboot" "Reboot the system. Interrupts every user." "system.reboot" (required_fields ["delay_ms"]) TrCritical "system.reboot" ["system.reboot"; "session.terminate"] 60000 true;
   tool "system.shutdown" "Shut the system down." "system.shutdown" (required_fields ["delay_ms"]) TrCritical "system.shutdown" ["system.shutdown"; "session.terminate"] 60000 true;
   tool "system.suspend" "Suspend the system." "system.suspend" empty_schema TrHigh "system.suspend" ["system.suspend"] 30000 true].
Definition credential_tools : list (ToolDefinition J) :=
  [tool "credential.seal" "Seal a credential for long-term storage." "credentials.seal" (required_fields ["name"; "plaintext"]) TrHigh "credential.seal" ["credential.seal"] 5000 true;
   tool "credential.unseal" "Unseal a previously sealed credential." "credentials.unseal" (required_fields ["name"]) TrHigh "credential.unseal" ["credential.unseal"] 5000 true].
Definition policy_tools : list (ToolDefinition J) :=
  [tool "policy.reload" "Reload the active policy bundle." "policy.reload" empty_schema TrMedium "policy.reload" ["policy.reload"] 10000 true].

Definition all_tool_definitions : list (ToolDefinition J) :=
  application_tools ++ window_tools ++ file_tools ++ process_tools ++ network_tools ++ system_tools ++ service_tools ++ storage_tools ++ context_tools ++ display_tools ++ device_tools ++ power_tools ++ credential_tools ++ policy_tools.

(** [debug] says whether debug assertions are compiled in; [None] is their panic. *)
Fixpoint register_each (debug : bool) (l : list (ToolDefinition J)) reg : option ToolRegistry :=
  match l with
  | [] => Some reg
  | t :: l =>
      let '(reg, r) := registry_register t reg in
      if debug && negb (is_ok r) then None else register_each debug l reg
  end.

Definition register_all_tools (debug : bool) : option ToolRegistry :=
  register_each debug all_tool_definitions ToolRegistry_new.

Definition routing_for reg (id : ToolId) : option (string * string) :=
  t ← reg !! id;
  service ← json_get (td_output_schema t) "service" ≫= json_as_str;
  command ← json_get (td_output_schema t) "command" ≫= json_as_str;
  Some (service, command).
End tool.

(** * Properties of the tools

    The catalogue of tools against the actions: every action has exactly one tool,
    which asks for the capability of the action and names the service and the
    command the executor uses; where they differ is stated exactly. *)

#[export] Instance ToolRisk_eq_dec : EqDecision ToolRisk.
Proof. solve_decision. Defined.

Section props.
Context {J : Type} `{!JsonOps J}.
Implicit Types (t : ToolDefinition J) (reg : gmap ToolId (ToolDefinition J)).

(** ** Registering *)

Lemma register_each_fresh debug (l : list (ToolDefinition J)) reg :
  NoDup (td_id <$> l) → (∀ t, t ∈ l → reg !! td_id t = None) →
  ∃ reg', register_each debug l reg = Some reg' ∧
    ∀ id, reg' !! id = match List.find (λ t, (td_id t =? id)%string) l with Some t => Some t | None => reg !! id end.
Proof.
  revert reg. induction l as [|t l IH]; intros reg Hnd Hfresh; cbn; [eauto|].
  apply NoDup_cons in Hnd as [Hni Hnd]. unfold registry_register. rewrite Hfresh by by left. cbn.
  rewrite andb_false_r.
  assert (∀ t', t' ∈ l → <[td_id t := t]> reg !! td_id t' = None) as Hfresh'.
  { intros t' Ht'. rewrite lookup_insert_ne; [apply Hfresh; by right|]. intros E. apply Hni. rewrite E.
    by apply list_elem_of_fmap_2. }
  destruct (IH _ Hnd Hfresh') as (reg' & Hr & Hlook). exists reg'. split; [done|]. intros id. rewrite Hlook.
  destruct (String.eqb_spec (td_id t) id) as [<-|Hne].
  - destruct (List.find _ l) as [t'|] eqn:Ef; [|by rewrite lookup_insert_eq].
    exfalso. apply find_some in Ef as [Hin E%String.eqb_eq]. apply Hni. rewrite <-E.
    apply list_elem_of_fmap_2. by apply list_elem_of_In.
  - destruct (List.find _ l); [done|]. by rewrite lookup_insert_ne.
Qed.

Lemma all_tools_nodup : NoDup (td_id <$> all_tool_definitions (J := J)).
Proof. apply (bool_decide_unpack _). vm_compute. exact I. Qed.

Lemma register_all_lookup debug : ∃ reg, register_all_tools (J := J) debug = Some reg ∧
  ∀ id, reg !! id = List.find (λ t, (td_id t =? id)%string) all_tool_definitions.
Proof.
  destruct (register_each_fresh debug all_tool_definitions ∅ all_tools_nodup) as (reg & Hr & Hlook); [done|].
  exists reg. split; [done|]. intros id. rewrite Hlook. by destruct (List.find _ _).
Qed.

Definition tool_risk (r : ActionRisk) : ToolRisk :=
  match r with ArLow => TrLow | ArMedium => TrMedium | ArHigh => TrHigh | ArCritical => TrCritical end.

(** The actions whose tool asks for a confirmation the runtime does not ask for. *)
Definition confirmation_differs (v : ActionVariant) : bool :=
  match v with
  | ServiceRestart _ | DisplaySetResolution _ _ _ | DeviceEnable _ | DeviceDisable _ => true
  | _ => false
  end.

(** The risk in the catalogue: that of the action, one exception apart. *)
Definition catalogue_risk (v : ActionVariant) : ToolRisk :=
  match v with PolicyReload => TrMedium | _ => tool_risk (classify_action v).2 end.

(** What the catalogue says of a tool, and what it should say of an action. *)
Definition row t : string * (list string * ToolRisk * bool) :=
  (td_id t, (td_required_capabilities t, td_risk_level t, td_requires_confirmation t)).
Definition expected_row (v : ActionVariant) : string * (list string * ToolRisk * bool) :=
  (action_name v, ((classify_action v).1, catalogue_risk v,
     match (classify_action v).2 with ArHigh | ArCritical => true | _ => false end || confirmation_differs v)).

Definition sample_actions : list ActionVariant :=
  [ApplicationLaunch ""; ApplicationClose ""; WindowList; WindowFocus None None; WindowMinimize 0; WindowMaximize 0;
   WindowClose None None; FileList ""; FileRead ""; FileCreate "" None; FileWrite "" ""; FileSearch "" None;
   FileRename "" ""; FileMove "" ""; FileDelete ""; ProcessList; ProcessInspect None None; NetworkStatus;
   NetworkInterfaces; SystemStatus; SystemInfo; SystemResources; SystemUptime; ServiceRestart ""; StorageStatus;
   ContextGet; DisplayList; DisplaySetBrightness "" 0; DisplaySetResolution "" 0 0; DeviceList; DeviceInspect "";
   DeviceEnable ""; DeviceDisable ""; SystemReboot 0; SystemShutdown 0; SystemSuspend; CredentialSeal "" "";
   CredentialUnseal ""; PolicyReload].

Lemma catalogue_rows : row <$> all_tool_definitions (J := J) = expected_row <$> sample_actions.
Proof. vm_compute. reflexivity. Qed.

Lemma expected_row_sampled v : expected_row v ∈ expected_row <$> sample_actions.
Proof. destruct v; apply (bool_decide_unpack _); vm_compute; exact I. Qed.

Lemma all_tools_unique t t' : t ∈ all_tool_definitions (J := J) → t' ∈ all_tool_definitions (J := J) →
  td_id t = td_id t' → t = t'.
Proof.
  intros (i & Hi)%list_elem_of_lookup (j & Hj)%list_elem_of_lookup E.
  enough (i = j) by congruence. apply (NoDup_lookup _ i j (td_id t) all_tools_nodup).
  - by rewrite list_lookup_fmap, Hi.
  - by rewrite list_lookup_fmap, Hj, E.
Qed.

Lemma catalogue_find t : t ∈ all_tool_definitions (J := J) →
  List.find (λ t', (td_id t' =? td_id t)%string) (all_tool_definitions (J := J)) = Some t.
Proof.
  intros Hin. destruct (List.find _ _) as [t'|] eqn:Ef.
  - apply find_some in Ef as [Hin' E%String.eqb_eq]. f_equal. by apply all_tools_unique; [apply list_elem_of_In| |].
  - apply find_none with (x := t) in Ef; [|by apply list_elem_of_In]. by rewrite String.eqb_refl in Ef.
Qed.

(** C18: Registering the catalogue succeeds with and without debug assertions; it has
    a tool for every action and no other, which requires exactly the capabilities
    of the action, has its risk except for policy.reload, and asks for a
    confirmation exactly when the runtime asks for an approval or the action
    restarts a service, changes a resolution, or enables or disables a device. *)
Theorem catalogue_describes_actions debug : ∃ reg, register_all_tools (J := J) debug = Some reg ∧
  (∀ v, ∃ t, reg !! action_name v = Some t ∧ row t = expected_row v) ∧
  (∀ id, is_Some (reg !! id) → ∃ v, id = action_name v).
Proof.
  destruct (register_all_lookup debug) as (reg & Hr & Hlook). exists reg. split_and!; [done| |].
  - intros v. pose proof (expected_row_sampled v) as Hv. rewrite <-catalogue_rows in Hv.
    apply list_elem_of_fmap in Hv as (t & Et & Hin). exists t. split; [|done].
    rewrite Hlook, <-(catalogue_find t Hin). f_equal. by injection Et as -> _ _ _.
  - intros id [t Ht]. rewrite Hlook in Ht. apply find_some in Ht as [Hin <-%String.eqb_eq].
    apply list_elem_of_In, (list_elem_of_fmap_2 row) in Hin. rewrite catalogue_rows in Hin.
    apply list_elem_of_fmap in Hin as (v & E & _). exists v. by injection E as -> _ _ _.
Qed.

(** ** Validation of inputs *)

(** The input check looks only for the presence of the required fields. *)
Theorem tool_input_exact `{!JsonLaws J} (Harr : ∀ l, json_as_array (json_arr l) = Some l) t fields input :
  td_input_schema t = required_fields fields →
  tool_validate_input t input = Ok tt ↔ Forall (λ name, is_Some (json_get input name)) fields.
Proof.
  intros Hs. unfold tool_validate_input. rewrite Hs. clear Hs. unfold required_fields.
  rewrite (json_get_obj _ "required" (json_arr (json_str <$> fields))); [|apply NoDup_singleton|by left].
  cbn. rewrite Harr. unfold missing_field.
  induction fields as [|name fields IH]; cbn; [split; [by constructor|done]|].
  rewrite json_as_str_str. cbn. rewrite Forall_cons. destruct (json_get input name) as [v|] eqn:E.
  - rewrite IH. split; [by eauto|by intros [_ ?]].
  - split; [done|]. by intros [[] _].
Qed.

(** ** Routes *)

(** The service and the command of an action in the catalogue. *)
Definition route (v : ActionVariant) : string * string :=
  match v with
  | ApplicationLaunch _ => (SERVICE_SYSTEM_CORE, "app.launch")
  | ApplicationClose _ => (SERVICE_SYSTEM_CORE, "app.close")
  | WindowList | WindowFocus _ _ | WindowMinimize _ | WindowMaximize _ | WindowClose _ _ =>
      (SERVICE_SURFACE, action_name v)
  | SystemStatus => (SERVICE_SYSTEM_CORE, "status")
  | CredentialSeal _ _ => (SERVICE_SYSTEM_CORE, "credentials.seal")
  | CredentialUnseal _ => (SERVICE_SYSTEM_CORE, "credentials.unseal")
  | _ => (SERVICE_SYSTEM_CORE, action_name v)
  end.

Lemma catalogue_routes : (λ t, (td_id t, td_output_schema t)) <$> all_tool_definitions (J := J)
  = (λ v, (action_name v, routing (route v).1 (route v).2)) <$> sample_actions.
Proof. vm_compute. reflexivity. Qed.

Lemma route_sampled v : ∃ v', v' ∈ sample_actions ∧ action_name v' = action_name v ∧ route v' = route v.
Proof.
  assert ((action_name v, route v) ∈ (λ v, (action_name v, route v)) <$> sample_actions) as Hv
    by (destruct v; apply (bool_decide_unpack _); vm_compute; exact I).
  apply list_elem_of_fmap in Hv as (v' & [= -> ->] & ?). by exists v'.
Qed.

Lemma routing_for_route `{!JsonLaws J} debug reg v : register_all_tools debug = Some reg →
  routing_for reg (action_name v) = Some (route v).
Proof.
  intros Hr. destruct (register_all_lookup debug) as (reg' & Hr' & Hlook). rewrite Hr in Hr'. injection Hr' as <-.
  destruct (route_sampled v) as (v' & Hin & Hname & <-). rewrite <-Hname.
  apply (list_elem_of_fmap_2 (λ v, (action_name v, routing (J := J) (route v).1 (route v).2))) in Hin.
  rewrite <-catalogue_routes in Hin. apply list_elem_of_fmap in Hin as (t & [= E1 E2] & Hin).
  unfold routing_for. rewrite E1, Hlook, (catalogue_find t Hin). cbn. rewrite <-E2. unfold routing.
  assert (NoDup ["service"; "command"]) as Hnd by (apply (bool_decide_unpack _); vm_compute; exact I).
  rewrite (json_get_obj _ "service" (json_str (route v').1)) by (done || by left). cbn. rewrite json_as_str_str. cbn.
  rewrite (json_get_obj _ "command" (json_str (route v').2)) by (done || by right; left). cbn. rewrite json_as_str_str. cbn.
  by destruct (route v').
Qed.
End props.

Section routes.
Context {E J : Type} `{!RuntimeEnv E} `{!JsonOps J} `{!JsonLaws J} `{!JsonParse J} `{!ObservationText J} `{!UuidText}.
Variables control_port surface_port : N.

(** A request that follows a route. *)
Definition follows (r : string * string) (s : Sent J) : Prop :=
  (r.1 = SERVICE_SYSTEM_CORE ∧ sent_port s = control_port ∧
   json_get (sent_payload s) "command" = Some (json_str r.2)) ∨
  (r.1 = SERVICE_SURFACE ∧ sent_port s = surface_port ∧ json_get (sent_payload s) "op" = Some (json_str r.2)).

Definition sent_all (P : Sent J → Prop) (w w' : World E J) : Prop :=
  ∃ l, w_sent w' = w_sent w ++ l ∧ Forall P l.

#[local] Instance sent_all_preorder P : PreOrder (sent_all P).
Proof.
  split; [intros w; exists []; by rewrite app_nil_r|].
  intros w1 w2 w3 (l1 & E1 & H1) (l2 & E2 & H2). exists (l1 ++ l2). rewrite E2, E1, <-app_assoc.
  split; [done|]. by apply Forall_app.
Qed.

Lemma frame_sent_all P {A} (m : M E J A) : always frame m → always (sent_all P) m.
Proof. apply always_weaken. intros w w' (_ & _ & H3). exists []. by rewrite app_nil_r. Qed.

Lemma exchange_sent_all (P : Sent J → Prop) a port j line : P (mkSent a port j) →
  always (sent_all P) (exchange a port j line).
Proof.
  intros HP w. unfold exchange. destruct (env_exchange port line (w_env w)) as [r e]. exists [mkSent a port j].
  split; [done|]. by constructor.
Qed.

Lemma decode_sent_all P s l : always (sent_all P) (decode_line (E := E) (J := J) s l).
Proof. unfold decode_line. always_split. Qed.

Lemma ipc_follows a c j : always (sent_all (follows (SERVICE_SYSTEM_CORE, c))) (ipc_request control_port a c j).
Proof.
  unfold ipc_request. apply always_bind; [typeclasses eauto| |].
  - apply exchange_sent_all. left. cbn. split_and!; [done|done|].
    apply json_get_obj; [|by right; left]. apply (bool_decide_unpack _). vm_compute. exact I.
  - intros r. destruct r; [apply decode_sent_all|auto with always typeclass_instances].
Qed.

Lemma surface_follows a op l : NoDup ("op" :: l.*1) →
  always (sent_all (follows (SERVICE_SURFACE, op))) (surface_request surface_port a (json_obj (("op", json_str op) :: l))).
Proof.
  intros Hnd. unfold surface_request. apply always_bind; [typeclasses eauto| |].
  - apply exchange_sent_all. right. cbn. split_and!; [done|done|]. apply json_get_obj; [done|by left].
  - intros r. destruct r; [apply decode_sent_all|auto with always typeclass_instances].
Qed.

Lemma execute_follows a v :
  always (sent_all (follows (match v with ServiceRestart _ => (SERVICE_SYSTEM_CORE, "restart") | _ => route v end)))
    (match v with
     | ApplicationLaunch _ | ApplicationClose _ | WindowList | WindowFocus _ _
     | WindowMinimize _ | WindowMaximize _ | WindowClose _ _ => execute_windows control_port surface_port a v
     | FileList _ | FileRead _ | FileCreate _ _ | FileWrite _ _ | FileSearch _ _
     | FileRename _ _ | FileMove _ _ | FileDelete _ => execute_files control_port a v
     | ProcessList | ProcessInspect _ _ | NetworkStatus | NetworkInterfaces | SystemStatus
     | SystemInfo | SystemResources | SystemUptime | ServiceRestart _ | StorageStatus
     | ContextGet => execute_system control_port a v
     | DisplayList | DisplaySetBrightness _ _ | DisplaySetResolution _ _ _ | DeviceList
     | DeviceInspect _ | DeviceEnable _ | DeviceDisable _ => execute_devices control_port a v
     | _ => execute_power control_port a v
     end).
Proof.
  destruct v; cbn [execute_windows execute_files execute_system execute_devices execute_power]; unfold file_request;
    try (apply always_bind; [typeclasses eauto| |intros ?; auto with always typeclass_instances];
         first [apply ipc_follows | apply surface_follows; apply (bool_decide_unpack _); vm_compute; exact I]).
  - assert (∀ l, NoDup ("op" :: l.*1) → always (sent_all (follows (SERVICE_SURFACE, "window.close")))
      (surface_request surface_port a (json_obj (("op", json_str "window.close") :: l))
         ≫= λ _, mret (Some (ObsWindowClosed (J := J) (default 0%N window_id))))) as Hclose.
    { intros l Hl. apply always_bind; [typeclasses eauto|by apply surface_follows|].
      intros ?. auto with always typeclass_instances. }
    destruct window_id as [id|]; [|destruct application_id as [app|]].
    + intros w. apply (Hclose [("window_id", json_num id)]). apply (bool_decide_unpack _). vm_compute. exact I.
    + intros w. apply (Hclose [("app_id", json_str app)]). apply (bool_decide_unpack _). vm_compute. exact I.
    + intros w. apply (always_fail (sent_all _)).
  - auto with always typeclass_instances.
Qed.

(** The route the executor takes: the catalogue's, except for restarting a service. *)
Definition executor_route (v : ActionVariant) : string * string :=
  match v with ServiceRestart _ => (SERVICE_SYSTEM_CORE, "restart") | _ => route v end.

Lemma execute_routed a : always (sent_all (follows (executor_route (act_variant a)))) (execute control_port surface_port a).
Proof.
  pose proof (λ A (m : M E J A), frame_sent_all (follows (executor_route (act_variant a))) m) as Hf.
  unfold execute, execute_variant. apply always_bind; [typeclasses eauto|apply Hf, frame_now|intros start].
  apply always_bind; [typeclasses eauto| |intros o].
  - apply always_bind; [typeclasses eauto| |intros o; always_split]. apply execute_follows.
  - do 2 (apply always_bind; [typeclasses eauto|apply Hf, frame_now|intros ?]).
    apply always_bind; [typeclasses eauto|apply Hf, frame_uuid|intros id]. auto with always typeclass_instances.
Qed.

Lemma recovery_routed fuel a started attempt :
  always (sent_all (follows (executor_route (act_variant a)))) (recovery_loop control_port surface_port fuel a started attempt).
Proof.
  revert attempt. induction fuel as [|fuel IH]; intros attempt; cbn [recovery_loop]; [auto with always typeclass_instances|].
  apply always_bind; [typeclasses eauto|apply always_try, execute_routed|intros [res|e]].
  - apply always_bind; [typeclasses eauto|apply frame_sent_all, frame_now|intros stop]. auto with always typeclass_instances.
  - always_split.
Qed.

(** C17: Whatever the executor sends for an action, retries included, goes to the
    service and carries the command that the catalogue names for it, except that
    restarting a service is sent as the command restart. *)
Theorem executor_follows_catalogue debug a w : ∃ reg r l,
    register_all_tools debug = Some reg ∧ routing_for reg (action_name (act_variant a)) = Some r ∧
    w_sent (execute_with_recovery control_port surface_port a w).1 = w_sent w ++ l ∧
    Forall (follows match act_variant a with ServiceRestart _ => (SERVICE_SYSTEM_CORE, "restart") | _ => r end) l.
Proof.
  destruct (register_all_lookup (J := J) debug) as (reg & Hr & _). exists reg, (route (act_variant a)).
  assert (always (sent_all (follows (executor_route (act_variant a)))) (execute_with_recovery control_port surface_port a))
    as Hall.
  { unfold execute_with_recovery. apply always_bind; [typeclasses eauto|apply frame_sent_all, frame_now|intros t].
    apply recovery_routed. }
  destruct (Hall w) as (l & El & Hl). exists l. split_and!; [done|by eapply routing_for_route|done|]. exact Hl.
Qed.
End routes.

Section witness.
Import ToyRuntime.

Definition read_notes : Action := Action_new 900 "s" (FileRead "notes") "look".

Lemma executor_follows_catalogue_witness : ∃ reg r l,
  register_all_tools (J := ToyJson) true = Some reg ∧ routing_for reg "file.read" = Some r ∧
  w_sent (execute_with_recovery 4747 4750 read_notes (toy_world [])).1 = l ∧ length l = 1 ∧ Forall (follows 4747 4750 r) l.
Proof.
  destruct (executor_follows_catalogue 4747 4750 true read_notes (toy_world [])) as (reg & r & l & Hreg & Hr & Hl & Hf).
  assert (w_sent (execute_with_recovery 4747 4750 read_notes (toy_world [])).1 = l) as Hl' by exact Hl.
  exists reg, r, l. split_and!; [exact Hreg|exact Hr|exact Hl'| |exact Hf]. rewrite <-Hl'. vm_compute. reflexivity.
Defined.
End witness.
