(* ===== verification/Proposals.v ===== *)
(** * Proposals of a language model

    Models proposal_generator.rs and proposal_runner.rs of
    agent/aether-agent-runtime/src and the tasks of state.rs of
    agent/aether-agent-core/src: drafts asked of a language model become
    proposals, and a proposal becomes a task that is executed at once.  The derived
    serializers are the class [DraftText]. *)
From S2P Require Import Prelude RustStd Text TaskGraph CoreTypes AgentCore Json Actions RuntimeHost RuntimeProps RuntimeScenarios LanguageModel StructuredIntent TaskToAction.

(** ** state.rs *)

Section status.
Context {J : Type}.
Implicit Types (s : AgentStatus J).

Definition set_tasks (l : list (AgentTask J)) s : AgentStatus J :=
  mkAgentStatus l (as_proposals s) (as_history s) (as_observations s).

Definition remove_task (id : TaskId) s : AgentStatus J * option (AgentTask J) :=
  let '(l, t) := graph_remove id (as_tasks s) in (set_tasks l s, t).

(** [None] is the end of the fuel of the cycle test. *)
Definition insert_task (t : AgentTask J) s : option (AgentStatus J * result unit TaskDependencyError) :=
  '(l, r) ← graph_insert t (as_tasks s); Some (set_tasks l s, r).

Definition status_task s (id : TaskId) : option (AgentTask J) := graph_get (as_tasks s) id.

(** [debug] says whether debug assertions are compiled in; [None] is their panic. *)
Definition finish_task (debug : bool) (id : TaskId) (stage : TaskStage) (timestamp_ms : N) (note : option string) s :
    option (AgentStatus J * option (AgentTask J)) :=
  if debug && negb (TaskStage_is_terminal stage) then None
  else
    let '(s, t) := remove_task id s in
    match t with
    | None => Some (s, None)
    | Some t => s ← record_history debug (mkTaskHistoryEntry t stage timestamp_ms note) s; Some (s, Some t)
    end.
End status.

(** ** proposal_generator.rs *)

(** Back quotes stand for double quotes. *)
Definition PROPOSAL_SCHEMA : string := with_quotes "{
  `type`: `array`,
  `items`: {
    `type`: `object`,
    `required`: [`kind`, `title`, `description`, `reasoning`, `risk`],
    `properties`: {
      `kind`: { `type`: `string`, `enum`: [`RestartService`,`Notify`,`ProposeUpdate`,`ProposeInstall`,`ProposeCleanup`,`ProposeSecurityScan`,`DeviceControl`,`DisplayControl`,`PowerControl`,`SecurityControl`,`Custom`] },
      `title`: { `type`: `string`, `minLength`: 1 },
      `description`: { `type`: `string`, `minLength`: 1 },
      `reasoning`: { `type`: `string`, `minLength`: 1 },
      `risk`: { `type`: `string`, `enum`: [`Low`,`Medium`,`High`,`Critical`] },
      `target`: { `type`: `string` },
      `arguments`: { `type`: `object` }
    }
  }
}".

Definition SYSTEM_PROMPT : string := "You are the Aether OS autonomous agent proposal generator.

You receive a batch of system observations (sensor readings, anomaly detections, status reports).
Your job is to propose concrete actions to address them.

Rules:
- Each proposal MUST reference at least one observation id from the input as evidence.
- Risk must match the TaskKind's default floor: ProposeUpdate, ProposeInstall, ProposeSecurityScan require High; Custom requires High; others default to Low.
- Title and description must be concise and actionable.
- Reasoning must explain why this action is warranted by the evidence.
- Target and arguments are optional; use them when the TaskKind requires a specific target (e.g., service name for RestartService).

Output a JSON array of proposal objects. Do not include any text outside the JSON array.".

Record ProposalDraft {J : Type} := mkProposalDraft {
  pd_kind : string;
  pd_title : string;
  pd_description : string;
  pd_reasoning : string;
  pd_risk : string;
  pd_target : option string;
  pd_arguments : option J;
}.
Arguments ProposalDraft J : clear implicits.
Arguments mkProposalDraft {J}.

Class DraftText (J : Type) := {
  observations_pretty : list (Observation J) → result string string;
  drafts_from_value : J → result (list (ProposalDraft J)) string;
  (** The number 0.3. *)
  json_three_tenths : J;
}.

Definition parse_task_kind (s : string) : option TaskKind :=
  match s with
  | "RestartService" => Some RestartService
  | "Notify" => Some Notify
  | "ProposeUpdate" => Some ProposeUpdate
  | "ProposeInstall" => Some ProposeInstall
  | "ProposeCleanup" => Some ProposeCleanup
  | "ProposeSecurityScan" => Some ProposeSecurityScan
  | "DeviceControl" => Some DeviceControl
  | "DisplayControl" => Some DisplayControl
  | "PowerControl" => Some PowerControl
  | "SecurityControl" => Some SecurityControl
  | "Custom" => Some Custom
  | _ => None
  end%string.

Definition parse_risk (s : string) : option ProposalRisk :=
  match s with
  | "Low" => Some PrLow
  | "Medium" => Some PrMedium
  | "High" => Some PrHigh
  | "Critical" => Some PrCritical
  | _ => None
  end%string.

Section generator.
Context {E J : Type} `{!HttpEnv E} `{!JsonOps J} `{!JsonParse J} `{!DraftText J}.

Definition fence : string := "```".

Definition build_prompt (observations : list (Observation J)) : string :=
  let obs_json := match observations_pretty observations with Ok s => s | Err _ => "[]" end in
  "Current system observations:
" +:+ fence +:+ "json
" +:+ obs_json +:+ "
" +:+ fence +:+ "

Propose actions to address these observations. Return a JSON array of proposals.".

Definition option_ok {A} (o : option A) (e : string) : result A string :=
  match o with Some a => Ok a | None => Err e end.

(** The proposal of the draft at index [i]. *)
Definition draft_to_proposal (now_ms : N) (obs_ids : list string) (i : nat) (d : ProposalDraft J) :
    result (Proposal J) string :=
  let? kind := option_ok (parse_task_kind (pd_kind d)) ("unknown kind: " +:+ pd_kind d) in
  let? risk := option_ok (parse_risk (pd_risk d)) ("unknown risk: " +:+ pd_risk d) in
  let id := "prop-llm-" +:+ pretty now_ms +:+ "-" +:+ pretty i in
  let? p := option_ok (Proposal_new (Json := J) id kind (pd_title d) (pd_description d) (pd_reasoning d) risk now_ms)
              ("invalid proposal at index " +:+ pretty i) in
  Ok (mkProposal (prop_id p) (prop_kind p) (prop_title p) (prop_description p) (prop_risk p) (prop_reasoning p)
        obs_ids (prop_timestamp_ms p) (pd_target d) (pd_arguments d)).

Fixpoint drafts_from (now_ms : N) (obs_ids : list string) (i : nat) (drafts : list (ProposalDraft J)) :
    result (list (Proposal J)) string :=
  match drafts with
  | [] => Ok []
  | d :: drafts =>
      let? p := draft_to_proposal now_ms obs_ids i d in
      let? ps := drafts_from now_ms obs_ids (S i) drafts in
      Ok (p :: ps)
  end.

Definition drafts_to_proposals (drafts : list (ProposalDraft J)) (now_ms : N) (observations : list (Observation J)) :
    result (list (Proposal J)) string :=
  drafts_from now_ms (obs_id <$> observations) 0 drafts.

Definition generate (provider : LlmProvider E J) (observations : list (Observation J)) (now_ms : N) (e : E) :
    result (list (Proposal J) * list ProposalError) string * E :=
  match observations with
  | [] => (Ok ([], []), e)
  | _ =>
      match map_err (λ x, "schema parse: " +:+ x) (json_from_str PROPOSAL_SCHEMA) with
      | Err x => (Err x, e)
      | Ok schema =>
          let request := mkLlmRequest (build_prompt observations) (Some SYSTEM_PROMPT) (Some 4096%N)
                           (Some json_three_tenths) (Some schema) in
          let '(response, e) := LlmProvider_structured_output provider request schema e in
          (let? response := response in
           let? drafts := map_err (λ x, "parse drafts: " +:+ x) (drafts_from_value response) in
           let? proposals := drafts_to_proposals drafts now_ms observations in
           Ok (propose_from_observations proposals observations), e)
      end
  end.
End generator.

(** ** proposal_runner.rs *)

Inductive RunnerError :=
| ReProposalNotFound (id : string)
| ReProposalNotApprovable (id stage : string)
| ReProposalToTaskFailed
| ReTaskToAction (e : TaskToActionError)
| ReExecutionFailed (e : string)
| ReRequiresConsent (r : ApprovalRequest)
| ReValidationFailed (l : list ProposalError).

Definition RunnerError_to_string (e : RunnerError) : string :=
  match e with
  | ReProposalNotFound id => "proposal not found: " +:+ id
  | ReProposalNotApprovable id stage => "proposal " +:+ id +:+ " not approvable in stage " +:+ stage
  | ReProposalToTaskFailed => "proposal-to-task conversion failed"
  | ReTaskToAction e => "task-to-action: " +:+ TaskToActionError_to_string e
  | ReExecutionFailed e => "execution failed: " +:+ e
  | ReRequiresConsent r => "requires consent: " +:+ ap_reason r
  | ReValidationFailed l => "validation failed: " +:+ pretty (length l) +:+ " errors"
  end.

Record RunResult {J : Type} := mkRunResult {
  rr_proposal_id : string;
  rr_task_id : option string;
  rr_execution : option (ExecutionResult J);
  rr_error : option RunnerError;
}.
Arguments RunResult J : clear implicits.
Arguments mkRunResult {J}.

Section runner.
Context {E J : Type} `{!RuntimeEnv E} `{!JsonOps J} `{!JsonParse J} `{!ObservationText J} `{!UuidText}.
(** The executor, the session, and whether debug assertions are compiled in. *)
Variables control_port surface_port : N.
Variable session_id : string.
Variable debug : bool.

Fixpoint triage_proposals (proposals : list (Proposal J)) : M E J (list (Proposal J) * list ApprovalRequest) :=
  match proposals with
  | [] => mret ([], [])
  | p :: proposals =>
      if Proposal_requires_consent p then
        created ← now;
        id ← new_uuid;
        '(approved, consent) ← triage_proposals proposals;
        mret (approved, ApprovalRequest_new id created session_id (prop_id p) (prop_title p)
                          (ProposalRisk_as_str (prop_risk p)) (prop_reasoning p) :: consent)
      else
        '(approved, consent) ← triage_proposals proposals;
        mret (p :: approved, consent)
  end.

(** A uuid is drawn when there is an action. *)
Definition action_of (t : AgentTask J) : M E J (result Action TaskToActionError) := λ w,
  let '(id, e) := env_uuid (w_env w) in
  match task_to_action id session_id t with
  | Ok a => (mkWorld (w_host w) e (w_sent w), Done (Ok a))
  | Err x => (w, Done (Err x))
  end.

(** The end of an execution: the task goes to the history, the result is reported. *)
Definition close_run (s : AgentStatus J) (task_id : TaskId) (stage : TaskStage) (now_ms : N) (note : string)
    (r : RunResult J) : M E J (AgentStatus J * RunResult J) :=
  '(s, _) ← lift_option (finish_task debug task_id stage now_ms (Some note) s);
  mret (s, r).

Definition execute_proposal (s : AgentStatus J) (p : Proposal J) (now_ms : N) : M E J (AgentStatus J * RunResult J) :=
  let proposal_id := prop_id p in
  prefix ← lift_option (slice 0 (Nat.min 8 (String.length proposal_id)) proposal_id);
  task_id ← lift_option (TaskId_new ("task-" +:+ pretty now_ms +:+ "-" +:+ prefix));
  let result execution error := mkRunResult proposal_id (Some (task_id_str task_id)) execution error in
  let failed := result None (Some ReProposalToTaskFailed) in
  match proposal_to_task p task_id with
  | None => mret (s, failed)
  | Some task =>
      '(s, r) ← lift_option (insert_task task s);
      match r with
      | Err _ => mret (s, failed)
      | Ok _ =>
          match status_task s task_id with
          | None => mret (s, failed)
          | Some task_obj =>
              a ← action_of task_obj;
              match a with
              | Err e =>
                  close_run s task_id StFailed now_ms ("task_to_action failed: " +:+ TaskToActionError_to_string e)
                    (result None (Some (ReTaskToAction e)))
              | Ok action =>
                  x ← try (execute_with_recovery control_port surface_port action);
                  match x with
                  | Err e =>
                      close_run s task_id StFailed now_ms ("execution failed: " +:+ AgentError_to_string e)
                        (result None (Some (ReExecutionFailed (AgentError_to_string e))))
                  | Ok res =>
                      close_run s task_id (if er_success res then StDone else StFailed) now_ms
                        ("action completed in " +:+ pretty (er_duration_ms res) +:+ "ms") (result (Some res) None)
                  end
              end
          end
      end
  end.

Fixpoint execute_batch (s : AgentStatus J) (proposals : list (Proposal J)) (now_ms : N) :
    M E J (AgentStatus J * list (RunResult J)) :=
  match proposals with
  | [] => mret (s, [])
  | p :: proposals =>
      '(s, r) ← execute_proposal s p now_ms;
      '(s, rs) ← execute_batch s proposals now_ms;
      mret (s, r :: rs)
  end.
End runner.

(** * Properties of proposals

    What a language model can and cannot do with its drafts, and what executing a
    proposal leaves behind. *)

(** ** Generated proposals *)

Section generated.
Context {E J : Type} `{!HttpEnv E} `{!JsonOps J} `{!JsonParse J} `{!DraftText J}.

Lemma option_ok_Ok {A} (o : option A) e a : option_ok o e = Ok a → o = Some a.
Proof. destruct o; cbn; congruence. Qed.

Lemma draft_to_proposal_fields now ids i (d : ProposalDraft J) p : draft_to_proposal now ids i d = Ok p →
  prop_id p = "prop-llm-" +:+ pretty now +:+ "-" +:+ pretty i ∧ prop_evidence p = ids ∧ prop_timestamp_ms p = now ∧
  parse_task_kind (pd_kind d) = Some (prop_kind p) ∧ parse_risk (pd_risk d) = Some (prop_risk p).
Proof.
  unfold draft_to_proposal. destruct (option_ok (parse_task_kind _) _) as [k|] eqn:Ek; [|done].
  destruct (option_ok (parse_risk _) _) as [r|] eqn:Er; [|done]. apply option_ok_Ok in Ek, Er.
  destruct (option_ok (Proposal_new _ _ _ _ _ _ _) _) as [p0|] eqn:Ep; [|done]. apply option_ok_Ok in Ep.
  intros [= <-]. cbn. unfold Proposal_new in Ep. apply bind_Some in Ep as (id & Hid & Ep).
  destruct (_ || _ || _); [done|]. injection Ep as <-. cbn. unfold ProposalId_new in Hid.
  destruct (str_is_empty _) in Hid; [done|]. injection Hid as <-. done.
Qed.

Lemma drafts_from_spec now ids i (drafts : list (ProposalDraft J)) ps : drafts_from now ids i drafts = Ok ps →
  (prop_id <$> ps = (λ n, "prop-llm-" +:+ pretty now +:+ "-" +:+ pretty n) <$> seq i (length drafts)) ∧
  ∀ p, p ∈ ps → prop_evidence p = ids ∧ prop_timestamp_ms p = now.
Proof.
  revert i ps. induction drafts as [|d drafts IH]; intros i ps; cbn; [intros [= <-]; split; [done|]; intros p Hp; by apply elem_of_nil in Hp|].
  destruct (draft_to_proposal now ids i d) as [p|] eqn:Ep; [|done].
  destruct (drafts_from now ids (S i) drafts) as [ps'|] eqn:Eps; [|done]. intros [= <-].
  destruct (IH _ _ Eps) as [Hids Hall]. destruct (draft_to_proposal_fields _ _ _ _ _ Ep) as (Hid & Hev & Hts & _).
  split; [cbn; by rewrite Hid, Hids|]. intros q [->|Hq]%elem_of_cons; [done|by apply Hall].
Qed.

Lemma prop_ids_nodup (now : N) i n : NoDup ((λ k : nat, "prop-llm-" +:+ pretty now +:+ "-" +:+ pretty k) <$> seq i n).
Proof. apply NoDup_fmap_2; [|apply NoDup_seq]. intros a b Eab. by simplify_eq. Qed.

Lemma sublist_filter {A} (f : A → bool) l : List.filter f l `sublist_of` l.
Proof. induction l as [|x l IH]; cbn; [done|]. destruct (f x); by constructor. Qed.

(** C19: Whatever the language model answers, a proposal that comes out of generation
    is valid for the observations it was asked about, carries all of them as its
    evidence and the time of the call, and needs the consent of the user unless it
    is a notification or a display control; the proposals of one call have
    distinct ids. *)
Theorem generated_proposals_sound provider obs now e e' accepted rejected :
  generate (E := E) (J := J) provider obs now e = (Ok (accepted, rejected), e') →
  NoDup (prop_id <$> accepted) ∧
  ∀ p, p ∈ accepted → proposal_valid p obs ∧ prop_evidence p = obs_id <$> obs ∧ prop_timestamp_ms p = now ∧
    (Proposal_requires_consent p = false → prop_kind p = Notify ∨ prop_kind p = DisplayControl).
Proof.
  unfold generate. destruct obs as [|o obs0] eqn:Eobs; [intros [= <- <- <-]; split; [constructor|intros p Hp; by apply elem_of_nil in Hp]|].
  rewrite <-Eobs. clear Eobs o obs0. destruct (map_err _ _) as [schema|]; [|done].
  destruct (LlmProvider_structured_output _ _ _ _) as [[response|] e1]; [|done].
  destruct (map_err _ (drafts_from_value response)) as [drafts|]; [|done].
  destruct (drafts_to_proposals drafts now obs) as [ps|] eqn:Eps; [|done]. intros [= Hacc _].
  pose proof (propose_spec ps obs) as Hspec. rewrite Hacc in Hspec. destruct Hspec as (_ & Hfil & Hin).
  apply drafts_from_spec in Eps as [Hids Hall]. split.
  - apply (sublist_NoDup _ (prop_id <$> ps)); [rewrite Hids; apply prop_ids_nodup|].
    rewrite Hfil. apply fmap_sublist, sublist_filter.
  - intros p Hp. apply Hin in Hp as [Hp Hv]. destruct (Hall p Hp) as [Hev Hts]. split_and!; [done..|].
    destruct Hv as (_ & _ & _ & _ & _ & Hr). unfold Proposal_requires_consent.
    destruct (prop_risk p), (prop_kind p); simpl in *; auto; try done; lia.
Qed.
End generated.

(** ** Executing a proposal *)

Section run.
Context {E J : Type} `{!RuntimeEnv E} `{!JsonOps J} `{!JsonParse J} `{!ObservationText J} `{!UuidText}.
Variables control_port surface_port : N.
Variable session_id : string.
Variable debug : bool.
Implicit Types (s : AgentStatus J) (t : AgentTask J) (g : list (AgentTask J)).

Lemma position_snoc {A} (p : A → bool) l x : (∀ y, y ∈ l → p y = false) → p x = true →
  position p (l ++ [x]) = Some (length l).
Proof.
  induction l as [|y l IH]; cbn; intros Hl Hx; [by rewrite Hx|]. rewrite Hl by by left.
  rewrite IH; [done| |done]. intros z Hz. apply Hl. by right.
Qed.

Lemma graph_remove_snoc g t : task_id t ∉ task_id <$> g → graph_remove (task_id t) (g ++ [t]) = (g, Some t).
Proof.
  intros Hni. unfold graph_remove. rewrite position_snoc; [| |by rewrite bool_decide_true].
  - unfold vec_remove. rewrite take_app_length, drop_ge by (rewrite length_app; cbn; lia).
    by rewrite app_nil_r, lookup_app_r, Nat.sub_diag by lia.
  - intros y Hy. apply bool_decide_false. intros E1. apply Hni. rewrite <-E1. by apply list_elem_of_fmap_2.
Qed.

Lemma graph_get_snoc g t : task_id t ∉ task_id <$> g → graph_get (g ++ [t]) (task_id t) = Some t.
Proof.
  intros Hni. unfold graph_get. induction g as [|y g IH]; cbn; [by rewrite bool_decide_true|].
  cbn in Hni. apply not_elem_of_cons in Hni as [Hne Hni]. rewrite bool_decide_false by congruence. by apply IH.
Qed.

(** An execution that returns reports success. *)
Definition successful (m : M E J (ExecutionResult J)) : Prop :=
  ∀ w w' r, m w = (w', Done r) → er_success r = true.

Lemma successful_bind {A} (m : M E J A) f : (∀ a, successful (f a)) → successful (m ≫= f).
Proof.
  intros Hf w w' r. unfold mbind, M_bind. destruct (m w) as [w1 [a|e|]]; [apply Hf|done|done].
Qed.

Lemma execute_successful a : successful (execute control_port surface_port a).
Proof. unfold execute. do 5 (apply successful_bind; intros ?). intros w w' r [= <- <-]. done. Qed.

Lemma try_done {A} (m : M E J A) w w' r : try m w = (w', Done r) →
  (∃ a, r = Ok a ∧ m w = (w', Done a)) ∨ (∃ e, r = Err e ∧ m w = (w', Fail e)).
Proof. unfold try. destruct (m w) as [w1 [a|e|]]; intros [= <- <-]; eauto. Qed.

Lemma recovery_successful fuel a started attempt :
  successful (recovery_loop control_port surface_port fuel a started attempt).
Proof.
  revert attempt. induction fuel as [|fuel IH]; intros attempt; cbn [recovery_loop]; [by intros w w' r|].
  intros w w' r. unfold mbind at 1, M_bind at 1.
  destruct (try (execute control_port surface_port a) w) as [w1 [x|e|]] eqn:Et; [|done|done].
  apply try_done in Et as [(res & -> & Hres)|(e & -> & _)].
  - apply execute_successful in Hres. unfold mbind, M_bind. destruct (now w1) as [w2 [?|?|]]; [|done|done].
    intros [= <- <-]. exact Hres.
  - destruct (decide_recovery _ _ _ _) as [[]|]; [apply IH|done..].
Qed.

Lemma execute_with_recovery_successful a : successful (execute_with_recovery control_port surface_port a).
Proof. apply successful_bind. intros ?. apply recovery_successful. Qed.

(** What the history gets. *)
Definition settled s s' t (stage : TaskStage) (now_ms : N) : Prop :=
  as_tasks s' = as_tasks s ∧ as_proposals s' = as_proposals s ∧ as_observations s' = as_observations s ∧
  ∃ note, as_history s' = push_bounded MAX_TASK_HISTORY (mkTaskHistoryEntry t stage now_ms (Some note)) (as_history s).

Lemma close_run_settles s t stage now_ms note r w : task_id t ∉ task_id <$> as_tasks s → TaskStage_is_terminal stage = true →
  ∃ s', close_run (E := E) debug (set_tasks (as_tasks s ++ [t]) s) (task_id t) stage now_ms note r w = (w, Done (s', r)) ∧
    settled s s' t stage now_ms.
Proof.
  intros Hni Hst. unfold close_run, finish_task. rewrite Hst, andb_false_r. unfold remove_task. cbn.
  rewrite graph_remove_snoc by done. unfold record_history. cbn. rewrite Hst, andb_false_r. cbn.
  eexists. split; [reflexivity|]. split_and!; try done. by exists note.
Qed.

(** The id under which a proposal is executed, from the first eight bytes of its own. *)
Definition run_task_id (prefix : string) (now_ms : N) : TaskId := mkTaskId ("task-" +:+ pretty now_ms +:+ "-" +:+ prefix).

Lemma proposal_to_task_id p id t : proposal_to_task (Json := J) p id = Some t → task_id t = id.
Proof.
  unfold proposal_to_task, AgentTask_new, TaskId_new. destruct id as [id]. cbn.
  intros (t0 & (id' & Hid & Ht0)%bind_Some & Ht)%bind_Some. destruct (str_is_empty id); [done|].
  destruct (_ || _); [done|]. injection Hid as <-. injection Ht0 as <-. injection Ht as <-.
  by destruct (prop_target p), (prop_arguments p).
Qed.

(** Inserting the task of a proposal: refused with the graph as it was, or appended. *)
Lemma insert_task_cases s t : graph_wf (as_tasks s) →
  (∃ e, insert_task t s = Some (set_tasks (as_tasks s) s, Err e)) ∨
  (insert_task t s = Some (set_tasks (as_tasks s ++ [t]) s, Ok tt) ∧ task_id t ∉ task_id <$> as_tasks s).
Proof.
  intros Hwf. unfold insert_task. destruct (graph_insert_spec _ t Hwf) as (out & Hout & Hspec). rewrite Hout.
  destruct Hspec; eauto.
Qed.

Lemma lift_bind {A B} (a : A) (f : A → M E J B) w : (lift_option (Some a) ≫= f) w = f a w.
Proof. done. Qed.

Lemma run_task_new (prefix : string) (now_ms : N) :
  TaskId_new ("task-" +:+ pretty now_ms +:+ "-" +:+ prefix) = Some (run_task_id prefix now_ms).
Proof. done. Qed.

Lemma bind_eq {A B} (m : M E J A) (f : A → M E J B) w w' a : m w = (w', Done a) → (m ≫= f) w = f a w'.
Proof. intros Hm. unfold mbind, M_bind. by rewrite Hm. Qed.

(** The action of a task and its execution, which never panic. *)
Lemma run_action_cases t w : (∃ w' e, action_of session_id t w = (w', Done (Err e))) ∨
  ∃ w1 a w', action_of session_id t w = (w1, Done (Ok a)) ∧
    ((∃ e, try (execute_with_recovery control_port surface_port a) w1 = (w', Done (Err e))) ∨
     ∃ res, try (execute_with_recovery control_port surface_port a) w1 = (w', Done (Ok res)) ∧ er_success res = true).
Proof.
  unfold action_of. destruct (env_uuid (w_env w)) as [id e]. destruct (task_to_action id session_id t) as [a|x]; [right|by eauto].
  set (w1 := mkWorld _ _ _). exists w1, a. unfold try. pose proof (execute_with_recovery_tries control_port surface_port a w1) as [_ Hp].
  destruct (execute_with_recovery control_port surface_port a w1) as [w' [res|x|]] eqn:Ex; [|by eauto 10|done].
  exists w'. split; [done|]. right. exists res. split; [done|]. by eapply execute_with_recovery_successful.
Qed.

(** Executing a proposal always returns, if its id can be cut after eight bytes.
    Either nothing has changed and the conversion failed, or the task was executed:
    it is no longer in the live graph, which is as before, and the history has one
    entry more, done when there is no error and failed otherwise. *)
Theorem execute_proposal_settles s p now_ms prefix w : graph_wf (as_tasks s) →
  slice 0 (Nat.min 8 (String.length (prop_id p))) (prop_id p) = Some prefix →
  ∃ w' s' r, execute_proposal control_port surface_port session_id debug s p now_ms w = (w', Done (s', r)) ∧
    ((w' = w ∧ s' = s ∧ rr_error r = Some ReProposalToTaskFailed) ∨
     ∃ t stage, proposal_to_task p (run_task_id prefix now_ms) = Some t ∧ settled s s' t stage now_ms ∧
       match rr_error r with
       | None => stage = StDone ∧ ∃ x, rr_execution r = Some x ∧ er_success x = true
       | Some _ => stage = StFailed ∧ rr_execution r = None
       end).
Proof.
  intros Hwf Hb. unfold execute_proposal. rewrite Hb, lift_bind, run_task_new, lift_bind.
  destruct (proposal_to_task p (run_task_id prefix now_ms)) as [t|] eqn:Et; [|do 3 eexists; split; [reflexivity|by left]].
  pose proof (proposal_to_task_id _ _ _ Et) as Hid.
  destruct (insert_task_cases s t Hwf) as [(e & Hins)|[Hins Hni]]; rewrite Hins, lift_bind.
  { do 3 eexists. split; [reflexivity|]. left. by destruct s. }
  unfold status_task. cbn [as_tasks set_tasks]. rewrite <-Hid, graph_get_snoc by done.
  destruct (run_action_cases t w) as [(w1 & e & Ha)|(w1 & a & w2 & Ha & [(e & Hx)|(res & Hx & Hres)])];
    rewrite (bind_eq _ _ _ _ _ Ha); cbv beta iota.
  - destruct (close_run_settles s t StFailed now_ms ("task_to_action failed: " +:+ TaskToActionError_to_string e)
      (mkRunResult (prop_id p) (Some (task_id_str (task_id t))) None (Some (ReTaskToAction e))) w1 Hni) as (s' & -> & Hs); [done|].
    do 3 eexists. split; [reflexivity|]. right. exists t, StFailed. rewrite Hid. done.
  - rewrite (bind_eq _ _ _ _ _ Hx). cbv beta iota.
    destruct (close_run_settles s t StFailed now_ms ("execution failed: " +:+ AgentError_to_string e)
      (mkRunResult (prop_id p) (Some (task_id_str (task_id t))) None (Some (ReExecutionFailed (AgentError_to_string e)))) w2 Hni)
      as (s' & -> & Hs); [done|].
    do 3 eexists. split; [reflexivity|]. right. exists t, StFailed. rewrite Hid. done.
  - rewrite (bind_eq _ _ _ _ _ Hx). cbv beta iota. rewrite Hres.
    destruct (close_run_settles s t StDone now_ms ("action completed in " +:+ pretty (er_duration_ms res) +:+ "ms")
      (mkRunResult (prop_id p) (Some (task_id_str (task_id t))) (Some res) None) w2 Hni) as (s' & -> & Hs); [done|].
    do 3 eexists. split; [reflexivity|]. right. exists t, StDone. rewrite Hid.
    split; [done|]. split; [done|]. split; [done|by exists res].
Qed.
End run.

(** ** Consent *)

Section consent.
Import ToyRuntime.

(** A critical proposal to shut the machine down, as a model may draft it. *)
Definition shutdown_proposal : Proposal ToyJson :=
  mkProposal "prop-llm-5-0" PowerControl "Shut down" "Shut the machine down" PrCritical "idle" ["o1"] 5 None
    (Some (TObj [("operation", TStr "shutdown"); ("delay_ms", TNum 0)])).

(** Executing a proposal asks for no consent: a critical proposal that requires
    it, and that triage would park, is sent to the system core as a shutdown when it
    is handed to execute_proposal. *)
Theorem execution_asks_no_consent : Proposal_requires_consent shutdown_proposal = true ∧
  let '(w, o) := execute_proposal 4747 4750 "s" true AgentStatus_new shutdown_proposal 5 (toy_world []) in
  (∃ s r, o = Done (s, r) ∧ rr_error r = None) ∧
  (λ x, act_variant (sent_action x)) <$> w_sent w = [SystemShutdown 0].
Proof.
  split; [done|]. destruct (execute_proposal _ _ _ _ _ _ _ _) as [w o] eqn:Ex. vm_compute in Ex. injection Ex as <- <-.
  split; [by do 2 eexists|done].
Qed.

Lemma execute_proposal_settles_witness : ∃ w' s' r,
  execute_proposal 4747 4750 "s" true AgentStatus_new shutdown_proposal 5 (toy_world []) = (w', Done (s', r)) ∧
  as_tasks s' = [] ∧ rr_error r = None.
Proof.
  destruct (execute_proposal_settles 4747 4750 "s" true AgentStatus_new shutdown_proposal 5 "prop-llm" (toy_world []))
    as (w' & s' & r & Hx & [(-> & -> & _)|(t & stage & _ & (Ht & _) & Hr)]); [apply graph_wf_nil|reflexivity| |].
  - vm_compute in Hx. discriminate.
  - exists w', s', r. split; [exact Hx|]. split; [exact Ht|]. clear Hr. vm_compute in Hx. by injection Hx as _ <- <-.
Defined.
End consent.

Section generation.
Import ToyRuntime.

#[local] Instance silent_http : HttpEnv N := {| http_exchange _ _ e := (Err (HeConnect "refused"), e) |}.
(** Every answer is read as one draft. *)
#[local] Instance one_draft : DraftText ToyJson := {|
  observations_pretty _ := Ok "[]";
  drafts_from_value _ := Ok [mkProposalDraft "RestartService" "Restart" "Restart the service" "it failed" "High" (Some "net") None];
  json_three_tenths := TNull;
|}.

Definition one_observation : list (Observation ToyJson) := [mkObservation "o1" "net" "down" None SevWarning 1 None].

Lemma generated_proposals_sound_witness : ∃ p,
  (generate (E := N) (ScriptedLlmProvider_constant "m" "[]") one_observation 7 0%N).1 = Ok ([p], []) ∧
  prop_evidence p = ["o1"] ∧ proposal_valid p one_observation.
Proof.
  eexists. split; [vm_compute; reflexivity|]. split; [reflexivity|].
  refine (proj1 (proj2 (generated_proposals_sound (E := N) (ScriptedLlmProvider_constant "m" "[]") one_observation 7 0%N 0%N
    _ [] _) _ _)); [vm_compute; reflexivity|by left].
Defined.
End generation.
