(* ===== verification/Transport.v ===== *)
(** * Transports

    Models agent/aether-transport/src/lib.rs: the interface of a transport and of a
    pairing channel, the three transports that come with the crate, and the manager
    over any of them. *)
From S2P Require Import Prelude RustStd.

Inductive TransportError :=
| TeNotAvailable | TePoweredOff | TeNoDevicesFound | TeConnectionFailed (s : string)
| TeTransferFailed (s : string) | TeTimeout | TeRejected | TeInvalidData (s : string) | TeIoError (s : string).

Definition TransportError_to_string (e : TransportError) : string :=
  match e with
  | TeNotAvailable => "transport not available"
  | TePoweredOff => "transport powered off"
  | TeNoDevicesFound => "no devices found"
  | TeConnectionFailed s => "connection failed: " +:+ s
  | TeTransferFailed s => "transfer failed: " +:+ s
  | TeTimeout => "timeout"
  | TeRejected => "pairing rejected"
  | TeInvalidData s => "invalid data: " +:+ s
  | TeIoError s => "I/O error: " +:+ s
  end.

Definition TransportResult (A : Type) : Type := result A TransportError.

Inductive TransportKind := TkBle | TkQr | TkNFC.
#[export] Instance TransportKind_eq_dec : EqDecision TransportKind.
Proof. solve_decision. Defined.

Definition TransportKind_to_string (k : TransportKind) : string :=
  match k with TkBle => "BLE" | TkQr => "QR" | TkNFC => "NFC" end.

(** A [DeviceId] is its string. *)
Definition DeviceId : Type := string.

Inductive TransportMetadata :=
| MdBle (rssi : Z) (service_uuids : list string)
| MdQr (payload : string) (scanned : bool)
| MdNfc (tag_id technology : string).

Record DiscoveredDevice := mkDiscoveredDevice {
  dd_device_id : DeviceId;
  dd_name : string;
  dd_signal_strength : option N;
  dd_metadata : TransportMetadata;
  dd_previously_paired : bool;
}.

(** ** The interfaces *)

(** [PairingChannel]; the operations with [&mut self] return the new state. *)
Class PairingChannel (C : Type) := {
  chan_kind : C → TransportKind;
  chan_remote : C → DeviceId;
  chan_send : list N → C → C * TransportResult unit;
  chan_receive : C → C * TransportResult (list N);
  chan_close : C → C * TransportResult unit;
  chan_is_open : C → bool;
}.

(** A [Box<dyn PairingChannel>]. *)
Record AnyChannel := mkAnyChannel { ac_type : Type; ac_ops : PairingChannel ac_type; ac_state : ac_type }.

Class Transport (T : Type) := {
  tr_kind : T → TransportKind;
  tr_name : T → string;
  tr_is_available : T → bool;
  tr_power_on : T → T * TransportResult unit;
  tr_power_off : T → T * TransportResult unit;
  tr_is_powered_on : T → bool;
  tr_start_scan : T → T * TransportResult unit;
  tr_stop_scan : T → T * TransportResult unit;
  tr_discovered_devices : T → TransportResult (list DiscoveredDevice);
  tr_open_channel : DeviceId → T → TransportResult AnyChannel;
  tr_max_transfer_size : T → N;
  tr_range_meters : T → option N;
}.

(** A [Box<dyn Transport>]. *)
Record AnyTransport := mkAnyTransport { at_type : Type; at_ops : Transport at_type; at_state : at_type }.

(** ** The channel *)

Record MockPairingChannel := mkMockChannel {
  mc_kind : TransportKind; mc_remote : DeviceId; mc_open : bool; mc_buffer : list N;
}.

Definition channel_closed : TransportError := TeConnectionFailed "channel closed".

Definition MockPairingChannel_send (data : list N) (c : MockPairingChannel) :
    MockPairingChannel * TransportResult unit :=
  if mc_open c then (mkMockChannel (mc_kind c) (mc_remote c) (mc_open c) (mc_buffer c ++ data), Ok tt)
  else (c, Err channel_closed).

Definition MockPairingChannel_receive (c : MockPairingChannel) : MockPairingChannel * TransportResult (list N) :=
  if mc_open c then (mkMockChannel (mc_kind c) (mc_remote c) (mc_open c) [], Ok (mc_buffer c))
  else (c, Err channel_closed).

Definition MockPairingChannel_close (c : MockPairingChannel) : MockPairingChannel * TransportResult unit :=
  (mkMockChannel (mc_kind c) (mc_remote c) false (mc_buffer c), Ok tt).

#[export] Instance MockPairingChannel_ops : PairingChannel MockPairingChannel := {|
  chan_kind := mc_kind;
  chan_remote := mc_remote;
  chan_send := MockPairingChannel_send;
  chan_receive := MockPairingChannel_receive;
  chan_close := MockPairingChannel_close;
  chan_is_open := mc_open;
|}.

(** What [open_channel] of the three transports does with its list of devices. *)
Definition open_mock_channel (kind : TransportKind) (devices : list DiscoveredDevice) (id : DeviceId) :
    TransportResult AnyChannel :=
  if existsb (λ d, (dd_device_id d =? id)%string) devices
  then Ok (mkAnyChannel MockPairingChannel _ (mkMockChannel kind id true []))
  else Err TeNoDevicesFound.

(** ** The transports *)

Record MockBleTransport := mkBle { ble_devices : list DiscoveredDevice; ble_powered : bool; ble_scanning : bool }.
Definition MockBleTransport_new : MockBleTransport := mkBle [] false false.
Definition MockBleTransport_add_device (d : DiscoveredDevice) (t : MockBleTransport) : MockBleTransport :=
  mkBle (ble_devices t ++ [d]) (ble_powered t) (ble_scanning t).

#[export] Instance MockBleTransport_ops : Transport MockBleTransport := {|
  tr_kind _ := TkBle;
  tr_name _ := "mock-ble";
  tr_is_available _ := true;
  tr_power_on t := (mkBle (ble_devices t) true (ble_scanning t), Ok tt);
  tr_power_off t := (mkBle (ble_devices t) false false, Ok tt);
  tr_is_powered_on := ble_powered;
  tr_start_scan t := if ble_powered t then (mkBle (ble_devices t) (ble_powered t) true, Ok tt) else (t, Err TePoweredOff);
  tr_stop_scan t := (mkBle (ble_devices t) (ble_powered t) false, Ok tt);
  tr_discovered_devices t := if ble_scanning t then Ok (ble_devices t) else Ok [];
  tr_open_channel id t := open_mock_channel TkBle (ble_devices t) id;
  tr_max_transfer_size _ := 512%N;
  tr_range_meters _ := Some 10%N;
|}.

Record MockQrTransport := mkQr { qr_pending_scans : list DiscoveredDevice; qr_powered : bool }.
Definition MockQrTransport_new : MockQrTransport := mkQr [] false.
Definition MockQrTransport_queue_scan (d : DiscoveredDevice) (t : MockQrTransport) : MockQrTransport :=
  mkQr (qr_pending_scans t ++ [d]) (qr_powered t).

#[export] Instance MockQrTransport_ops : Transport MockQrTransport := {|
  tr_kind _ := TkQr;
  tr_name _ := "mock-qr";
  tr_is_available _ := true;
  tr_power_on t := (mkQr (qr_pending_scans t) true, Ok tt);
  tr_power_off t := (mkQr (qr_pending_scans t) false, Ok tt);
  tr_is_powered_on := qr_powered;
  tr_start_scan t := if qr_powered t then (t, Ok tt) else (t, Err TePoweredOff);
  tr_stop_scan t := (t, Ok tt);
  tr_discovered_devices t := Ok (qr_pending_scans t);
  tr_open_channel id t := open_mock_channel TkQr (qr_pending_scans t) id;
  tr_max_transfer_size _ := 1024%N;
  tr_range_meters _ := None;
|}.

Record MockNfcTransport := mkNfc { nfc_devices : list DiscoveredDevice; nfc_powered : bool }.
Definition MockNfcTransport_new : MockNfcTransport := mkNfc [] false.
Definition MockNfcTransport_add_tag (d : DiscoveredDevice) (t : MockNfcTransport) : MockNfcTransport :=
  mkNfc (nfc_devices t ++ [d]) (nfc_powered t).

#[export] Instance MockNfcTransport_ops : Transport MockNfcTransport := {|
  tr_kind _ := TkNFC;
  tr_name _ := "mock-nfc";
  tr_is_available _ := true;
  tr_power_on t := (mkNfc (nfc_devices t) true, Ok tt);
  tr_power_off t := (mkNfc (nfc_devices t) false, Ok tt);
  tr_is_powered_on := nfc_powered;
  tr_start_scan t := if nfc_powered t then (t, Ok tt) else (t, Err TePoweredOff);
  tr_stop_scan t := (t, Ok tt);
  tr_discovered_devices t := Ok (nfc_devices t);
  tr_open_channel id t := open_mock_channel TkNFC (nfc_devices t) id;
  tr_max_transfer_size _ := 256%N;
  tr_range_meters _ := Some 1%N;
|}.

(** ** The manager *)

Definition any_kind (t : AnyTransport) : TransportKind := tr_kind (Transport := at_ops t) (at_state t).
Definition any_available (t : AnyTransport) : bool := tr_is_available (Transport := at_ops t) (at_state t).
Definition any_powered (t : AnyTransport) : bool := tr_is_powered_on (Transport := at_ops t) (at_state t).
Definition any_devices (t : AnyTransport) : TransportResult (list DiscoveredDevice) :=
  tr_discovered_devices (Transport := at_ops t) (at_state t).

Definition TransportManager : Type := list AnyTransport.
Definition TransportManager_new : TransportManager := [].
Definition transport_register (t : AnyTransport) (m : TransportManager) : TransportManager := m ++ [t].
Definition transport_get (kind : TransportKind) (m : TransportManager) : option AnyTransport :=
  List.find (λ t, bool_decide (any_kind t = kind)) m.
Definition transport_available (m : TransportManager) : list AnyTransport := List.filter any_available m.

Fixpoint discover_all (m : TransportManager) : TransportResult (list DiscoveredDevice) :=
  match m with
  | [] => Ok []
  | t :: m =>
      if any_powered t then
        let? devices := any_devices t in
        let? rest := discover_all m in
        Ok (devices ++ rest)
      else discover_all m
  end.

(** ** Channels carry bytes in order *)

Inductive channel_op := ChSend (data : list N) | ChReceive | ChClose.

Inductive channel_out := OutUnit (r : TransportResult unit) | OutData (r : TransportResult (list N)).

Definition channel_step {C} `{PairingChannel C} (op : channel_op) (c : C) : C * channel_out :=
  match op with
  | ChSend data => let '(c, r) := chan_send data c in (c, OutUnit r)
  | ChReceive => let '(c, r) := chan_receive c in (c, OutData r)
  | ChClose => let '(c, r) := chan_close c in (c, OutUnit r)
  end.

Fixpoint channel_run {C} `{PairingChannel C} (ops : list channel_op) (c : C) : C * list channel_out :=
  match ops with
  | [] => (c, [])
  | op :: ops => let '(c, o) := channel_step op c in let '(c, l) := channel_run ops c in (c, o :: l)
  end.

(** The bytes sent while the channel was open, and those received. *)
Fixpoint bytes_sent (open : bool) (ops : list channel_op) : list N :=
  match ops with
  | [] => []
  | ChSend data :: ops => (if open then data else []) ++ bytes_sent open ops
  | ChReceive :: ops => bytes_sent open ops
  | ChClose :: ops => bytes_sent false ops
  end.
Fixpoint received (outs : list channel_out) : list N :=
  match outs with
  | [] => []
  | OutData (Ok l) :: outs => l ++ received outs
  | _ :: outs => received outs
  end.

Definition closes (ops : list channel_op) : bool := existsb (λ op, match op with ChClose => true | _ => false end) ops.

Lemma channel_run_spec ops (c : MockPairingChannel) :
  let '(c', outs) := channel_run ops c in
  mc_kind c' = mc_kind c ∧ mc_remote c' = mc_remote c ∧ mc_open c' = mc_open c && negb (closes ops) ∧
  received outs ++ mc_buffer c' = mc_buffer c ++ bytes_sent (mc_open c) ops.
Proof.
  revert c. induction ops as [|op ops IH]; intros c; cbn [channel_run].
  { cbn. by rewrite andb_true_r, app_nil_r. }
  destruct (channel_step op c) as [c1 o] eqn:Es. specialize (IH c1). destruct (channel_run ops c1) as [c' outs].
  destruct IH as (Hk & Hr & Ho & Hb). rewrite Hk, Hr, Ho. clear Hk Hr Ho.
  assert (mc_kind c1 = mc_kind c ∧ mc_remote c1 = mc_remote c) as [-> ->].
  { destruct op; cbn in Es; unfold MockPairingChannel_send, MockPairingChannel_receive in Es;
      destruct (mc_open c); injection Es as <- _; done. }
  destruct op; cbn in Es |- *; unfold MockPairingChannel_send, MockPairingChannel_receive in Es.
  - destruct (mc_open c) eqn:Eo; injection Es as <- <-; cbn in Hb |- *; rewrite ?Eo in *; cbn in Hb |- *;
      (split_and!; [done..|]); by rewrite Hb, <-?app_assoc.
  - destruct (mc_open c) eqn:Eo; injection Es as <- <-; cbn in Hb |- *; rewrite ?Eo in *; cbn in Hb |- *;
      (split_and!; [done..|]); by rewrite <-?app_assoc, Hb.
  - injection Es as <- <-. cbn in Hb |- *. rewrite andb_false_r. by split_and!.
Qed.

(** A channel is a queue of bytes: over any sequence of operations, what was
    received followed by what is still buffered is exactly what was sent while the
    channel was open, in order; it is open exactly until the first close, and
    neither its kind nor its peer changes. *)
Theorem channel_is_queue kind id ops :
  let '(c, outs) := channel_run ops (mkMockChannel kind id true []) in
  received outs ++ mc_buffer c = bytes_sent true ops ∧ mc_open c = negb (closes ops) ∧
  mc_kind c = kind ∧ mc_remote c = id.
Proof.
  pose proof (channel_run_spec ops (mkMockChannel kind id true [])) as Hs.
  destruct (channel_run ops _) as [c outs]. by destruct Hs as (? & ? & ? & ?).
Qed.

(** ** Discovery *)

(** What the manager reports is what the powered transports report, in their order. *)
Theorem discover_all_exact (m : TransportManager) devices : discover_all m = Ok devices ↔
  ∃ parts, Forall2 (λ t l, any_devices t = Ok l) (List.filter any_powered m) parts ∧ devices = mjoin parts.
Proof.
  revert devices. induction m as [|t m IH]; intros devices; cbn.
  - split; [intros [= <-]; exists []; done|]. intros (parts & Hp & ->). by apply Forall2_nil_inv_l in Hp as ->.
  - destruct (any_powered t); [|apply IH]. destruct (any_devices t) as [l|e] eqn:El.
    + destruct (discover_all m) as [rest|e].
      * split.
        -- intros [= <-]. destruct (proj1 (IH rest) eq_refl) as (parts & Hp & ->). exists (l :: parts). split; [by constructor|done].
        -- intros (parts & Hp & ->). apply Forall2_cons_inv_l in Hp as (l' & parts' & Hl & Hp & ->).
           assert (l' = l) as -> by congruence. cbn. f_equal. f_equal.
           assert (Ok rest = Ok (E := TransportError) (mjoin parts')) as [= ->] by (apply IH; eauto). done.
      * split; [done|]. intros (parts & Hp & ->). apply Forall2_cons_inv_l in Hp as (l' & parts' & Hl & Hp & ->).
        assert (Err e = Ok (mjoin parts')) by (apply IH; eauto). done.
    + split; [done|]. intros (parts & Hp & ->). apply Forall2_cons_inv_l in Hp as (l' & parts' & Hl & Hp & ->). congruence.
Qed.

(** ** Power and scanning *)

Inductive ble_op := BleAdd (d : DiscoveredDevice) | BleOn | BleOff | BleStart | BleStop.
Definition ble_step (op : ble_op) (t : MockBleTransport) : MockBleTransport :=
  match op with
  | BleAdd d => MockBleTransport_add_device d t
  | BleOn => (tr_power_on t).1
  | BleOff => (tr_power_off t).1
  | BleStart => (tr_start_scan t).1
  | BleStop => (tr_stop_scan t).1
  end.

(** Over any sequence of operations a Bluetooth transport scans only while it is
    powered, so that an unpowered one reports no device; but it opens a channel to
    a device it knows in any state. *)
Theorem ble_scans_only_powered ops : let t := foldl (λ t op, ble_step op t) MockBleTransport_new ops in
  (ble_scanning t = true → ble_powered t = true) ∧
  (ble_powered t = false → tr_discovered_devices t = Ok []) ∧
  ∀ d, d ∈ ble_devices t → is_ok (tr_open_channel (dd_device_id d) t) = true.
Proof.
  assert (∀ t0, (ble_scanning t0 = true → ble_powered t0 = true) →
    let t := foldl (λ t op, ble_step op t) t0 ops in ble_scanning t = true → ble_powered t = true) as Hinv.
  { induction ops as [|op ops IH]; intros t0 H0; [done|]. cbn. apply IH.
    destruct op; cbn; try done. destruct (ble_powered t0) eqn:Ep; cbn; [done|]. intros Hs. by rewrite H0 in Ep. }
  cbn zeta. set (t := foldl _ _ _). specialize (Hinv MockBleTransport_new (λ Hf, match Bool.diff_false_true Hf with end)).
  cbn zeta in Hinv. fold t in Hinv. split_and!; [done| |].
  - intros Hp. cbn. destruct (ble_scanning t); [by rewrite Hinv in Hp|done].
  - intros d Hd. cbn. unfold open_mock_channel. assert (existsb (λ x, (dd_device_id x =? dd_device_id d)%string) (ble_devices t) = true) as ->; [|done].
    apply existsb_exists. exists d. split; [by apply list_elem_of_In|apply String.eqb_refl].
Qed.
