(* ===== verification/Installer.v ===== *)
(** * The installer

    Models system/aether-installer/src/lib.rs: disk layouts, the interface of an
    installer backend, the backend in memory, and the plan of an installation.
    Sizes and block addresses are [u64].  An overflow in the backend is the panic
    of a build with overflow checks, [None]; the plan, which takes the size of
    any disk, is modelled for builds with and without them. *)
From S2P Require Import Prelude RustStd.
From Stdlib Require Import Lia ZifyN.

Inductive InstallError :=
| IeDiskNotFound (d : string) | IeInsufficientSpace (required available : N) | IeInvalidPartitionTable (s : string)
| IeFilesystemError (s : string) | IePermissionDenied | IeDeviceBusy (d : string) | IeIoError (s : string).

Definition InstallError_to_string (e : InstallError) : string :=
  match e with
  | IeDiskNotFound d => "disk not found: " +:+ d
  | IeInsufficientSpace required available =>
      "insufficient space: need " +:+ pretty required +:+ " bytes, have " +:+ pretty available
  | IeInvalidPartitionTable s => "invalid partition table: " +:+ s
  | IeFilesystemError s => "filesystem error: " +:+ s
  | IePermissionDenied => "permission denied"
  | IeDeviceBusy d => "device busy: " +:+ d
  | IeIoError s => "I/O error: " +:+ s
  end.

Record Partition := mkPartition {
  pt_index : N;
  pt_name : string;
  pt_type_guid : string;
  pt_unique_guid : string;
  pt_start_lba : N;
  pt_end_lba : N;
  pt_size_bytes : N;
  pt_filesystem : option string;
  pt_mount_point : option string;
  pt_is_esp : bool;
  pt_is_boot : bool;
  pt_is_root : bool;
  pt_is_recovery : bool;
}.

Module partition_types.
Definition ESP : string := "C12A7328-F81F-11D2-BA4B-00A0C93EC93B".
Definition LINUX_FS : string := "0FC63DAF-8483-4772-8E79-3D69D8477DE4".
Definition AETHER_ROOT : string := "A5B2D3E4-F6A7-8901-2345-6789ABCDEF01".
Definition AETHER_RECOVERY : string := "B6C3D4E5-A7B8-9012-3456-789ABCDEF012".
End partition_types.

Record DiskLayout := mkDiskLayout {
  dl_device : string;
  dl_size_bytes : N;
  dl_sector_size : N;
  dl_partitions : list Partition;
  dl_disk_guid : string;
}.

Definition set_partitions (l : list Partition) (d : DiskLayout) : DiskLayout :=
  mkDiskLayout (dl_device d) (dl_size_bytes d) (dl_sector_size d) l (dl_disk_guid d).

Fixpoint u64_sum (l : list N) : option N :=
  match l with
  | [] => Some 0%N
  | n :: l => rest ← u64_sum l; u64_add n rest
  end.

Definition used_bytes (d : DiskLayout) : option N := u64_sum (pt_size_bytes <$> dl_partitions d).
Definition free_bytes (d : DiskLayout) : option N := used ← used_bytes d; Some (saturating_sub (dl_size_bytes d) used).
Definition disk_esp (d : DiskLayout) : option Partition := List.find pt_is_esp (dl_partitions d).
Definition disk_root (d : DiskLayout) : option Partition := List.find pt_is_root (dl_partitions d).
Definition disk_recovery (d : DiskLayout) : option Partition := List.find pt_is_recovery (dl_partitions d).

Record InstallPlan := mkInstallPlan {
  ip_target_disk : string;
  ip_erase_disk : bool;
  ip_layout : DiskLayout;
  ip_os_version : string;
  ip_os_hash : string;
  ip_install_bootloader : bool;
  ip_create_recovery : bool;
}.

Record InstallValidation := mkInstallValidation {
  iv_esp_valid : bool;
  iv_root_valid : bool;
  iv_bootloader_installed : bool;
  iv_recovery_exists : bool;
  iv_errors : list string;
}.

Definition InstallValidation_is_valid (v : InstallValidation) : bool :=
  iv_esp_valid v && iv_root_valid v && match iv_errors v with [] => true | _ => false end.

(** [{:04x}] of a [u32]. *)
Fixpoint hex_from (fuel : nat) (n : N) : string :=
  match fuel with
  | 0 => EmptyString
  | S fuel => (if (n <? 16)%N then EmptyString else hex_from fuel (n / 16)) +:+ String (hex_char (n mod 16)) EmptyString
  end.
Definition hex_text (n : N) : string := hex_from 8 n.
Definition hex04 (n : N) : string :=
  let s := hex_text n in
  match 4 - String.length s with
  | 0 => s | 1 => "0" +:+ s | 2 => "00" +:+ s | _ => "000" +:+ s
  end.

(** ** The backend in memory *)

Record MockInstallerBackend := mkBackend { mb_disks : list DiskLayout; mb_next_partition_index : N }.

Definition MockInstallerBackend_new : MockInstallerBackend :=
  mkBackend [mkDiskLayout "/dev/sda" (256 * 1024 * 1024 * 1024) 512 [] "aether-mock-disk-001"] 1.

Definition find_disk (device : string) (disks : list DiskLayout) : option DiskLayout :=
  List.find (λ d, (dl_device d =? device)%string) disks.

(** The write through [iter_mut().find]: the first disk of that name. *)
Fixpoint update_disk (device : string) (f : DiskLayout → DiskLayout) (disks : list DiskLayout) : list DiskLayout :=
  match disks with
  | [] => []
  | d :: disks => if (dl_device d =? device)%string then f d :: disks else d :: update_disk device f disks
  end.

Definition backend_disk_layout (device : string) (b : MockInstallerBackend) : result DiskLayout InstallError :=
  match find_disk device (mb_disks b) with Some d => Ok d | None => Err (IeDiskNotFound device) end.

Definition create_partition_table (device : string) (b : MockInstallerBackend) :
    MockInstallerBackend * result unit InstallError :=
  match find_disk device (mb_disks b) with
  | None => (b, Err (IeDiskNotFound device))
  | Some _ => (mkBackend (update_disk device (set_partitions []) (mb_disks b)) (mb_next_partition_index b), Ok tt)
  end.

Definition create_partition (device name type_guid : string) (size_bytes : N) (b : MockInstallerBackend) :
    option (MockInstallerBackend * result Partition InstallError) :=
  match find_disk device (mb_disks b) with
  | None => Some (b, Err (IeDiskNotFound device))
  | Some disk =>
      free ← free_bytes disk;
      if (free <? size_bytes)%N then Some (b, Err (IeInsufficientSpace size_bytes free))
      else
        let index := mb_next_partition_index b in
        if (index =? u32_max)%N then None
        else
          start_lba ← match last (dl_partitions disk) with
                      | Some p => u64_add (pt_end_lba p) 1
                      | None => Some 2048%N
                      end;
          if (dl_sector_size disk =? 0)%N then None
          else
            let sectors := (size_bytes / dl_sector_size disk)%N in
            e ← u64_add start_lba sectors;
            end_lba ← u64_sub e 1;
            let is_esp := (type_guid =? partition_types.ESP)%string in
            let p := mkPartition index name type_guid ("mock-part-" +:+ hex04 index) start_lba end_lba size_bytes None None
                       is_esp is_esp (type_guid =? partition_types.AETHER_ROOT)%string
                       (type_guid =? partition_types.AETHER_RECOVERY)%string in
            Some (mkBackend (update_disk device (λ d, set_partitions (dl_partitions d ++ [p]) d) (mb_disks b)) (index + 1),
                  Ok p)
  end.

Definition delete_partition (device : string) (index : N) (b : MockInstallerBackend) :
    MockInstallerBackend * result unit InstallError :=
  match find_disk device (mb_disks b) with
  | None => (b, Err (IeDiskNotFound device))
  | Some _ =>
      (mkBackend (update_disk device (λ d, set_partitions (List.filter (λ p, negb (pt_index p =? index)%N) (dl_partitions d)) d)
                    (mb_disks b)) (mb_next_partition_index b), Ok tt)
  end.

Definition set_filesystem (fs : string) (p : Partition) : Partition :=
  mkPartition (pt_index p) (pt_name p) (pt_type_guid p) (pt_unique_guid p) (pt_start_lba p) (pt_end_lba p) (pt_size_bytes p)
    (Some fs) (pt_mount_point p) (pt_is_esp p) (pt_is_boot p) (pt_is_root p) (pt_is_recovery p).

Fixpoint format_first (index : N) (fs : string) (l : list Partition) : option (list Partition) :=
  match l with
  | [] => None
  | p :: l => if (pt_index p =? index)%N then Some (set_filesystem fs p :: l) else l ← format_first index fs l; Some (p :: l)
  end.

Definition format_partition (device : string) (index : N) (fs_type : string) (b : MockInstallerBackend) :
    MockInstallerBackend * result unit InstallError :=
  match find_disk device (mb_disks b) with
  | None => (b, Err (IeDiskNotFound device))
  | Some d =>
      match format_first index fs_type (dl_partitions d) with
      | None => (b, Err (IeInvalidPartitionTable ("partition " +:+ pretty index +:+ " not found")))
      | Some l => (mkBackend (update_disk device (set_partitions l) (mb_disks b)) (mb_next_partition_index b), Ok tt)
      end
  end.

Definition has_filesystem (o : option Partition) : bool :=
  match o with Some p => match pt_filesystem p with Some _ => true | None => false end | None => false end.

Definition backend_validate (device : string) (b : MockInstallerBackend) : result InstallValidation InstallError :=
  match find_disk device (mb_disks b) with
  | None => Err (IeDiskNotFound device)
  | Some d =>
      let esp_valid := has_filesystem (disk_esp d) in
      Ok (mkInstallValidation esp_valid (has_filesystem (disk_root d)) esp_valid (bool_decide (is_Some (disk_recovery d))) [])
  end.

(** ** The plan *)

Definition esp_size : N := 512 * 1024 * 1024.
Definition recovery_size : N := 2 * 1024 * 1024 * 1024.
Definition boot_size : N := 1024 * 1024 * 1024.

(** Arithmetic on [u64] in a build with or without overflow checks. *)
Definition add_in (checks : bool) (a b : N) : option N :=
  if checks then u64_add a b else Some ((a + b) mod 2 ^ 64)%N.
Definition sub_in (checks : bool) (a b : N) : option N :=
  if checks then u64_sub a b else Some ((a + 2 ^ 64 - b) mod 2 ^ 64)%N.

(** The closure [make_part] at an index and a first block, with the first block
    of the next partition. *)
Definition make_part (checks : bool) (index : N) (name guid : string) (size start_lba : N) :
    option (Partition * N) :=
  let sectors := (size / 512)%N in
  e ← add_in checks start_lba sectors;
  e ← sub_in checks e 1;
  next ← add_in checks e 1;
  Some (mkPartition index name guid ("install-" +:+ hex04 index) start_lba e size None None
          (guid =? partition_types.ESP)%string (guid =? partition_types.ESP)%string
          (guid =? partition_types.AETHER_ROOT)%string (guid =? partition_types.AETHER_RECOVERY)%string, next).

Definition plan_installation (checks : bool) (device : string) (disk_size : N) : option InstallPlan :=
  r ← sub_in checks disk_size esp_size;
  r ← sub_in checks r recovery_size;
  root_size ← sub_in checks r boot_size;
  '(esp, start) ← make_part checks 1 "ESP" partition_types.ESP esp_size 2048;
  '(boot, start) ← make_part checks 2 "boot" partition_types.LINUX_FS boot_size start;
  '(root, start) ← make_part checks 3 "aether-root" partition_types.AETHER_ROOT root_size start;
  '(recovery, _) ← make_part checks 4 "recovery" partition_types.AETHER_RECOVERY recovery_size start;
  Some (mkInstallPlan device true (mkDiskLayout device disk_size 512 [esp; boot; root; recovery] "aether-install-001")
          "0.1.0" "" true true).

(** * Properties of the installer

    The partitions of a plan and of the backend in memory do not overlap; a plan
    always reaches beyond the end of its disk. *)

#[local] Ltac Zify.zify_post_hook ::= Z.to_euclidean_division_equations.


(** ** The plan *)

Definition MIN_DISK : N := esp_size + boot_size + recovery_size.

(** A partition of the plan, by its place on the disk. *)
Definition partition_at (index : N) (name guid : string) (esp root recovery : bool) (start blocks size : N) :
    Partition :=
  mkPartition index name guid ("install-" +:+ hex04 index) start (start + blocks - 1) size None None
    esp esp root recovery.

(** The four partitions around a root of this size: 512 MiB from block 2048 on,
    1 GiB, the root and 2 GiB, without a gap. *)
Definition layout_around (root_size : N) : list Partition :=
  let root_start := 3147776%N in
  [partition_at 1 "ESP" "C12A7328-F81F-11D2-BA4B-00A0C93EC93B" true false false 2048 1048576 536870912;
   partition_at 2 "boot" "0FC63DAF-8483-4772-8E79-3D69D8477DE4" false false false 1050624 2097152 1073741824;
   partition_at 3 "aether-root" "A5B2D3E4-F6A7-8901-2345-6789ABCDEF01" false true false
     root_start (root_size / 512) root_size;
   partition_at 4 "recovery" "B6C3D4E5-A7B8-9012-3456-789ABCDEF012" false false true
     (root_start + root_size / 512) 4194304 2147483648].

Lemma add_in_small checks a b : (a + b ≤ u64_max)%N → add_in checks a b = Some (a + b)%N.
Proof.
  intros H. unfold add_in. destruct checks; [by apply u64_add_Some|].
  rewrite N.mod_small; [done|]. unfold u64_max in H. lia.
Qed.

Lemma sub_in_small checks a b : (b ≤ a ≤ u64_max)%N → sub_in checks a b = Some (a - b)%N.
Proof.
  intros H. unfold sub_in. destruct checks; [by apply u64_sub_Some; split; [|lia]|].
  replace (a + 2 ^ 64 - b)%N with (a - b + 1 * 2 ^ 64)%N by lia.
  rewrite N.Div0.mod_add, N.mod_small; [done|]. unfold u64_max in H. lia.
Qed.

(** What one partition of the plan is. *)
Lemma make_part_at checks index name guid size start :
  (1 ≤ start)%N → (start + size / 512 ≤ u64_max)%N →
  make_part checks index name guid size start =
    Some (partition_at index name guid (guid =? partition_types.ESP)%string
      (guid =? partition_types.AETHER_ROOT)%string (guid =? partition_types.AETHER_RECOVERY)%string
      start (size / 512) size, start + size / 512)%N.
Proof.
  intros Hs Hmax. unfold make_part. cbv zeta. rewrite add_in_small by done. cbn [mbind option_bind].
  rewrite sub_in_small by lia. cbn [mbind option_bind]. rewrite add_in_small by lia. cbn [mbind option_bind].
  do 2 f_equal. lia.
Qed.

(** The size of the root, if there is one. *)
Definition root_size (checks : bool) (disk_size : N) : option N :=
  if (MIN_DISK <=? disk_size)%N then Some (disk_size - MIN_DISK)%N
  else if checks then None else Some (2 ^ 64 - (MIN_DISK - disk_size))%N.

Lemma root_size_subtracts {A} checks disk_size (f : N → option A) : (disk_size ≤ u64_max)%N →
  (r ← sub_in checks disk_size esp_size; r ← sub_in checks r recovery_size;
   root ← sub_in checks r boot_size; f root) = root_size checks disk_size ≫= f.
Proof.
  intros Hmax. unfold root_size. assert (u64_max = 18446744073709551615%N) as Eu by done.
  assert (esp_size = 536870912%N ∧ boot_size = 1073741824%N ∧ recovery_size = 2147483648%N ∧
    MIN_DISK = 3758096384%N) as (-> & -> & -> & ->) by done.
  destruct (N.leb_spec 3758096384 disk_size).
  - rewrite sub_in_small by lia. cbn [mbind option_bind]. rewrite sub_in_small by lia. cbn [mbind option_bind].
    rewrite sub_in_small by lia. cbn [mbind option_bind]. f_equal. lia.
  - destruct checks; cbn [sub_in mbind option_bind].
    + unfold u64_sub. destruct (N.ltb_spec disk_size 536870912); [done|]. cbn [mbind option_bind].
      destruct (N.ltb_spec (disk_size - 536870912) 2147483648); [done|]. cbn [mbind option_bind].
      destruct (N.ltb_spec (disk_size - 536870912 - 2147483648) 1073741824); [done|]. lia.
    + f_equal. change (2 ^ 64)%N with 18446744073709551616%N. lia.
Qed.

(** C36: what an installation plan is, for every disk.  With overflow checks the
    planning panics exactly on a disk below 3.5 GiB, the sum of the three fixed
    partitions.  In every other case there is a plan, whose partitions are ESP,
    boot, root and recovery in this order, with their names, types, flags and
    sizes, from block 2048 on and without a gap.  On a disk of at least 3.5 GiB
    the four are together as large as the disk, so that the recovery partition
    ends one mebibyte beyond the last whole block.  Without overflow checks a
    smaller disk gets a root partition of more than 2 to the 63 bytes. *)
Theorem install_plan_overruns_disk checks device disk_size : (disk_size ≤ u64_max)%N →
  (plan_installation checks device disk_size = None ↔ checks = true ∧ (disk_size < MIN_DISK)%N) ∧
  ∀ plan, plan_installation checks device disk_size = Some plan →
    ∃ root, dl_partitions (ip_layout plan) = layout_around root ∧
      ((MIN_DISK ≤ disk_size)%N → root = (disk_size - MIN_DISK)%N ∧
         ∃ recovery, last (layout_around root) = Some recovery ∧
           ((pt_end_lba recovery + 1) * 512 = 1024 * 1024 + disk_size - disk_size mod 512)%N) ∧
      ((disk_size < MIN_DISK)%N → root = (2 ^ 64 - (MIN_DISK - disk_size))%N ∧ (2 ^ 63 < root)%N).
Proof.
  intros Hmax. unfold plan_installation. rewrite root_size_subtracts by done. unfold root_size.
  assert (u64_max = 18446744073709551615%N) as Eu by done.
  assert (MIN_DISK = 3758096384%N) as -> by done.
  assert (∀ root, (root ≤ u64_max)%N →
    ('(esp, start) ← make_part checks 1 "ESP" partition_types.ESP esp_size 2048;
     '(boot, start) ← make_part checks 2 "boot" partition_types.LINUX_FS boot_size start;
     '(root, start) ← make_part checks 3 "aether-root" partition_types.AETHER_ROOT root start;
     '(recovery, _) ← make_part checks 4 "recovery" partition_types.AETHER_RECOVERY recovery_size start;
     Some (mkInstallPlan device true (mkDiskLayout device disk_size 512 [esp; boot; root; recovery] "aether-install-001")
       "0.1.0" "" true true)) =
    Some (mkInstallPlan device true (mkDiskLayout device disk_size 512 (layout_around root) "aether-install-001")
       "0.1.0" "" true true)) as Hplan.
  { intros root Hroot. rewrite make_part_at by (vm_compute; congruence). cbn [mbind option_bind].
    rewrite make_part_at by (vm_compute; congruence). cbn [mbind option_bind].
    change (2048 + esp_size / 512 + boot_size / 512)%N with 3147776%N.
    rewrite make_part_at by lia. cbn [mbind option_bind].
    change (recovery_size) with 2147483648%N. rewrite make_part_at by lia. done. }
  destruct (N.leb_spec 3758096384 disk_size).
  - cbn [mbind option_bind]. rewrite Hplan by lia. split; [split; [done|lia]|].
    intros plan [= <-]. exists (disk_size - 3758096384)%N. split; [done|]. split; [|lia].
    intros _. split; [done|]. eexists. split; [done|]. cbn [pt_end_lba partition_at]. lia.
  - destruct checks; cbn [mbind option_bind]; [by split; [split|]|]. rewrite Hplan by lia.
    split; [split; [done|by intros [? _]]|]. intros plan [= <-].
    exists (2 ^ 64 - (3758096384 - disk_size))%N. split; [done|]. split; [lia|]. intros _. split; [done|lia].
Qed.

Lemma install_plan_overruns_disk_witness :
  ∃ plan, plan_installation true "/dev/sda" (256 * 1024 * 1024 * 1024) = Some plan ∧
  ∃ root recovery, dl_partitions (ip_layout plan) = layout_around root ∧
    last (layout_around root) = Some recovery ∧
    ((pt_end_lba recovery + 1) * 512 = 256 * 1024 * 1024 * 1024 + 1024 * 1024)%N.
Proof.
  eexists. split; [vm_compute; reflexivity|].
  destruct (proj2 (install_plan_overruns_disk true "/dev/sda" (256 * 1024 * 1024 * 1024) ltac:(done)) _ eq_refl)
    as (root & E & Hbig & _).
  destruct (Hbig ltac:(done)) as (_ & recovery & Hl & Hend).
  exists root, recovery. split; [exact E|]. split; [exact Hl|]. rewrite Hend. reflexivity.
Defined.

(** ** The backend *)

Inductive backend_op :=
| BoTable (device : string) | BoCreate (device name guid : string) (size : N) | BoDelete (device : string) (index : N)
| BoFormat (device : string) (index : N) (fs : string).

Definition backend_step (op : backend_op) (b : MockInstallerBackend) : option MockInstallerBackend :=
  match op with
  | BoTable device => Some (create_partition_table device b).1
  | BoCreate device name guid size => fst <$> create_partition device name guid size b
  | BoDelete device index => Some (delete_partition device index b).1
  | BoFormat device index fs => Some (format_partition device index fs b).1
  end.

Fixpoint backend_run (ops : list backend_op) (b : MockInstallerBackend) : option MockInstallerBackend :=
  match ops with
  | [] => Some b
  | op :: ops => b ← backend_step op b; backend_run ops b
  end.

Definition before (p q : Partition) : Prop := (pt_end_lba p < pt_start_lba q)%N.
Fixpoint sum_sizes (l : list Partition) : N := match l with [] => 0%N | p :: l => (pt_size_bytes p + sum_sizes l)%N end.

(** The partitions of a disk: within its size, in the order of their blocks without
    overlap, with distinct indices that were given out. *)
Record disk_ok (next : N) (d : DiskLayout) : Prop := mkDiskOk {
  do_size : (sum_sizes (dl_partitions d) ≤ dl_size_bytes d)%N;
  do_order : StronglySorted before (dl_partitions d);
  do_start : Forall (λ p, (pt_start_lba p ≤ pt_end_lba p + 1)%N) (dl_partitions d);
  do_index : NoDup (pt_index <$> dl_partitions d);
  do_next : Forall (λ p, (pt_index p < next)%N) (dl_partitions d);
}.

Definition backend_ok (b : MockInstallerBackend) : Prop := Forall (disk_ok (mb_next_partition_index b)) (mb_disks b).

Lemma disk_ok_next n m d : (n ≤ m)%N → disk_ok n d → disk_ok m d.
Proof. intros Hle [? ? ? ? Hn]. split; try done. eapply Forall_impl; [exact Hn|]. cbn. lia. Qed.

Lemma update_disk_ok (P : DiskLayout → Prop) device f disks d : find_disk device disks = Some d →
  Forall P disks → P (f d) → Forall P (update_disk device f disks).
Proof.
  induction disks as [|d0 disks IH]; cbn; [done|]. intros Hf [H0 Hd]%Forall_cons Hp.
  destruct (String.eqb (dl_device d0) device).
  - injection Hf as ->. by constructor.
  - constructor; [done|by apply IH].
Qed.

Lemma find_disk_ok (P : DiskLayout → Prop) device disks d : find_disk device disks = Some d → Forall P disks → P d.
Proof. intros [Hin _]%find_some Hd. rewrite Forall_forall in Hd. by apply Hd, list_elem_of_In. Qed.

Lemma sublist_Forall' {A} (P : A → Prop) (l k : list A) : l `sublist_of` k → Forall P k → Forall P l.
Proof. intros Hsub. rewrite !Forall_forall. intros Hk x Hx. apply Hk. by eapply elem_of_sublist. Qed.

(** Parts of a disk's partitions. *)
Lemma sublist_disk_ok next l d : l `sublist_of` dl_partitions d → disk_ok next d → disk_ok next (set_partitions l d).
Proof.
  intros Hsub [H1 H2 H3 H4 H5]. split; cbn.
  - etrans; [|exact H1]. clear -Hsub. induction Hsub; cbn; lia.
  - clear -Hsub H2. induction Hsub as [|x l1 l2 Hl IH|x l1 l2 Hl IH]; [constructor| |].
    + apply StronglySorted_inv in H2 as [H2 Hx]. constructor; [by apply IH|]. by eapply sublist_Forall'.
    + apply StronglySorted_inv in H2 as [H2 _]. by apply IH.
  - by eapply sublist_Forall'.
  - eapply sublist_NoDup; [exact H4|]. by apply fmap_sublist.
  - by eapply sublist_Forall'.
Qed.

Lemma filter_sublist' {A} (f : A → bool) l : List.filter f l `sublist_of` l.
Proof. induction l as [|x l IH]; cbn; [done|]. destruct (f x); by constructor. Qed.

(** Formatting changes nothing the invariant looks at. *)
Lemma format_first_same index fs l l' : format_first index fs l = Some l' →
  Forall2 (λ p q, pt_index q = pt_index p ∧ pt_start_lba q = pt_start_lba p ∧ pt_end_lba q = pt_end_lba p ∧
                  pt_size_bytes q = pt_size_bytes p) l l'.
Proof.
  revert l'. induction l as [|p l IH]; intros l'; cbn; [done|]. destruct (pt_index p =? index)%N.
  - intros [= <-]. constructor; [done|]. by apply Forall2_same_length_lookup_2; [|intros i x y Hx Hy; simplify_eq].
  - intros (l1 & Hl1 & Hl')%bind_Some. injection Hl' as <-. constructor; [done|]. by apply IH.
Qed.

Lemma same_disk_ok next l d :
  Forall2 (λ p q, pt_index q = pt_index p ∧ pt_start_lba q = pt_start_lba p ∧ pt_end_lba q = pt_end_lba p ∧
                  pt_size_bytes q = pt_size_bytes p) (dl_partitions d) l →
  disk_ok next d → disk_ok next (set_partitions l d).
Proof.
  intros Hsame [H1 H2 H3 H4 H5]. split; cbn.
  - etrans; [|exact H1]. clear -Hsame. induction Hsame as [|p q l1 l2 (?&?&?&?)]; cbn; lia.
  - clear -Hsame H2. induction Hsame as [|p q l1 l2 (?&?&He&?) Hl IH]; [constructor|].
    apply StronglySorted_inv in H2 as [H2 Hp]. constructor; [by apply IH|]. clear -Hp Hl He.
    induction Hl as [|p' q' l1 l2 (?&Hs&?&?) Hl IH]; [constructor|]. apply Forall_cons in Hp as [Hp1 Hp2].
    constructor; [|by apply IH]. unfold before in *. lia.
  - clear -Hsame H3. induction Hsame as [|p q l1 l2 (?&?&?&?)]; [constructor|]. apply Forall_cons in H3 as [? ?].
    constructor; [lia|auto].
  - assert (pt_index <$> l = pt_index <$> dl_partitions d) as ->; [|done]. clear -Hsame.
    induction Hsame as [|p q l1 l2 (Hi&?&?&?) Hl IH]; [done|]. cbn. by rewrite Hi, IH.
  - clear -Hsame H5. induction Hsame as [|p q l1 l2 (?&?&?&?)]; [constructor|]. apply Forall_cons in H5 as [? ?].
    constructor; [lia|auto].
Qed.

Lemma u64_sum_sizes l used : u64_sum (pt_size_bytes <$> l) = Some used → used = sum_sizes l.
Proof.
  revert used. induction l as [|p l IH]; cbn; intros used; [by intros [= <-]|].
  intros (r & Hr & Hu)%bind_Some. apply u64_add_Some in Hu as [-> _]. by rewrite (IH r Hr).
Qed.

Lemma sum_sizes_snoc l p : sum_sizes (l ++ [p]) = (sum_sizes l + pt_size_bytes p)%N.
Proof. induction l as [|q l IH]; cbn; lia. Qed.

(** A partition that starts after the last one. *)
Lemma snoc_disk_ok next d p : disk_ok next d → (sum_sizes (dl_partitions d) + pt_size_bytes p ≤ dl_size_bytes d)%N →
  pt_index p = next → (pt_start_lba p ≤ pt_end_lba p + 1)%N →
  (∀ q, last (dl_partitions d) = Some q → pt_start_lba p = (pt_end_lba q + 1)%N) →
  disk_ok (next + 1) (set_partitions (dl_partitions d ++ [p]) d).
Proof.
  intros [H1 H2 H3 H4 H5] Hsum Hidx Hst Hlast.
  assert (Forall (λ q, before q p) (dl_partitions d)) as Hbefore.
  { destruct (dl_partitions d) as [|q l] eqn:E using rev_ind; [constructor|]. rewrite last_snoc in Hlast.
    specialize (Hlast q eq_refl). clear IHl. apply Forall_app in H3 as [_ [Hq _]%Forall_cons].
    apply Forall_forall. intros x [Hx| ->%list_elem_of_singleton]%elem_of_app; unfold before; [|lia].
    enough (before x q) by (unfold before in *; lia). clear -H2 Hx. induction l as [|y l IH]; [by apply elem_of_nil in Hx|].
    apply StronglySorted_inv in H2 as [H2 Hy]. apply elem_of_cons in Hx as [->|Hx]; [|by apply IH].
    rewrite Forall_forall in Hy. apply Hy, elem_of_app. right. by left. }
  split; cbn.
  - rewrite sum_sizes_snoc. lia.
  - clear -H2 Hbefore. induction (dl_partitions d) as [|q l IH]; cbn; [repeat constructor|].
    apply StronglySorted_inv in H2 as [H2 Hq]. apply Forall_cons in Hbefore as [Hb Hbefore].
    constructor; [by apply IH|]. apply Forall_app. split; [done|by constructor].
  - apply Forall_app. split; [done|by constructor].
  - rewrite fmap_app. apply NoDup_app. split_and!; [done| |apply NoDup_singleton]. cbn.
    intros i (q & -> & Hq)%list_elem_of_fmap E%list_elem_of_singleton. rewrite Forall_forall in H5.
    specialize (H5 q Hq). cbn in H5. lia.
  - apply Forall_app. split; [|by constructor; [lia|]]. eapply Forall_impl; [exact H5|]. cbn. lia.
Qed.

Lemma create_partition_ok device name guid size b b' r :
  create_partition device name guid size b = Some (b', r) → backend_ok b → backend_ok b'.
Proof.
  unfold create_partition, backend_ok. destruct (find_disk device (mb_disks b)) as [d|] eqn:Ed; [|by intros [= <- <-]].
  intros (free & Hfree & Hc)%bind_Some Hok. destruct (N.ltb_spec free size) as [|Hsize]; [by injection Hc as <- <-|].
  destruct (_ =? u32_max)%N; [done|]. apply bind_Some in Hc as (start & Hstart & Hc).
  destruct (dl_sector_size d =? 0)%N; [done|]. apply bind_Some in Hc as (e1 & He1 & Hc). apply bind_Some in Hc as (e & He & Hc).
  injection Hc as <- _. cbn. apply u64_add_Some in He1 as [-> _]. apply u64_sub_Some in He as [-> He].
  unfold free_bytes in Hfree. apply bind_Some in Hfree as (used & ->%u64_sum_sizes & Hfree). injection Hfree as <-.
  pose proof (find_disk_ok _ _ _ _ Ed Hok) as Hd. eapply update_disk_ok; [exact Ed| |].
  - eapply Forall_impl; [exact Hok|]. intros x. apply disk_ok_next. lia.
  - pose proof (do_size _ _ Hd). unfold saturating_sub in Hsize.
    apply snoc_disk_ok; cbn; [done|lia|done|lia|]. intros q Hq. rewrite Hq in Hstart. by apply u64_add_Some in Hstart as [-> _].
Qed.

Lemma backend_step_ok op b b' : backend_step op b = Some b' → backend_ok b → backend_ok b'.
Proof.
  intros Hs Hok. destruct op as [device|device name guid size|device index|device index fs]; cbn in Hs.
  - injection Hs as <-. unfold create_partition_table. destruct (find_disk _ _) as [d|] eqn:Ed; [|done].
    eapply (update_disk_ok _ _ _ _ _ Ed Hok). eapply sublist_disk_ok; [apply sublist_nil_l|by eapply find_disk_ok].
  - apply fmap_Some in Hs as ([b1 r] & Hc & ->). by eapply create_partition_ok.
  - injection Hs as <-. unfold delete_partition. destruct (find_disk _ _) as [d|] eqn:Ed; [|done].
    eapply (update_disk_ok _ _ _ _ _ Ed Hok). eapply sublist_disk_ok; [apply filter_sublist'|by eapply find_disk_ok].
  - injection Hs as <-. unfold format_partition. destruct (find_disk _ _) as [d|] eqn:Ed; [|done].
    destruct (format_first index fs (dl_partitions d)) as [l|] eqn:El; [|done].
    eapply (update_disk_ok _ _ _ _ _ Ed Hok). eapply same_disk_ok; [by eapply format_first_same|by eapply find_disk_ok].
Qed.

(** After any sequence of operations of the backend that does not panic, the
    partitions of every disk fit in its size, lie one after the other without
    overlap and have distinct indices. *)
Theorem partitions_never_overlap ops b : backend_run ops MockInstallerBackend_new = Some b → backend_ok b.
Proof.
  assert (∀ b0, backend_ok b0 → backend_run ops b0 = Some b → backend_ok b) as Hrun.
  { induction ops as [|op ops IH]; intros b0 H0; cbn; [by intros [= <-]|].
    intros (b1 & Hs & Hr)%bind_Some. eapply IH; [|exact Hr]. by eapply backend_step_ok. }
  apply Hrun. repeat constructor. vm_compute. discriminate.
Qed.

(** The order of creation the backend expects: an ESP and a root partition, both
    formatted, make the disk valid. *)
Example backend_installs : ∃ b, backend_run
    [BoTable "/dev/sda"; BoCreate "/dev/sda" "ESP" partition_types.ESP esp_size;
     BoCreate "/dev/sda" "root" partition_types.AETHER_ROOT boot_size; BoFormat "/dev/sda" 1 "vfat"; BoFormat "/dev/sda" 2 "ext4"]
    MockInstallerBackend_new = Some b ∧
  ∃ v, backend_validate "/dev/sda" b = Ok v ∧ InstallValidation_is_valid v = true ∧ iv_recovery_exists v = false.
Proof. eexists. split; [vm_compute; reflexivity|]. eexists. split; [vm_compute; reflexivity|]. done. Qed.
