(* ===== verification/ProcessManager.v ===== *)
(** * The process manager

    Models system/aether-process-manager/src: security.rs, lifecycle.rs,
    discovery.rs and inspection.rs.  A path is its text; two paths are equal when
    their components are.  Floating-point numbers are a parameter. *)
From S2P Require Import Prelude RustStd Text CoreTypes LanguageModel.
From Stdlib Require Import Ascii.

(** ** Paths *)

Definition slash : ascii := "/"%char.

(** [Path::components]: whether the path is absolute, and its names; a dot counts
    only at the start of a relative path. *)
Definition path_key (p : string) : bool * list string :=
  let parts := str_split slash p in
  let names := List.filter (λ c, negb ((c =? "")%string || (c =? ".")%string)) parts in
  if String.prefix "/" p then (true, names)
  else (false, match parts with "."%string :: _ => "."%string :: names | _ => names end).

(** [Path::file_name]. *)
Definition file_name (p : string) : option string :=
  match last (path_key p).2 with
  | Some n => if (n =? "..")%string || (n =? ".")%string then None else Some n
  | None => None
  end.

(** [str::rsplit_once] at a dot. *)
Fixpoint rsplit_dot (s : string) : option (string * string) :=
  match s with
  | EmptyString => None
  | String c s =>
      match rsplit_dot s with
      | Some (a, b) => Some (String c a, b)
      | None => if Ascii.eqb c "." then Some (EmptyString, s) else None
      end
  end.

(** [Path::file_stem]. *)
Definition file_stem (p : string) : option string :=
  n ← file_name p;
  Some match rsplit_dot n with
       | Some (EmptyString, _) | None => n
       | Some (before, _) => before
       end.

(** [str::trim_end_matches] with a string. *)
Definition trim_end_matches (pat s : string) : string :=
  str_rev (trim_start_matches (str_rev pat EmptyString) (str_rev s EmptyString)) EmptyString.

(** ** security.rs *)

Inductive ViolationKind := VkDisallowedExecutable | VkUnauthorizedUser | VkProtectedProcess | VkResourceLimit | VkShellExecution.

Definition ViolationKind_to_string (k : ViolationKind) : string :=
  match k with
  | VkDisallowedExecutable => "DISALLOWED_EXECUTABLE"
  | VkUnauthorizedUser => "UNAUTHORIZED_USER"
  | VkProtectedProcess => "PROTECTED_PROCESS"
  | VkResourceLimit => "RESOURCE_LIMIT"
  | VkShellExecution => "SHELL_EXECUTION"
  end.

Record SecurityViolation := mkViolation { sv_kind : ViolationKind; sv_process_id : N; sv_detail : string; sv_timestamp_ms : N }.

Definition SecurityViolation_to_string (v : SecurityViolation) : string :=
  ViolationKind_to_string (sv_kind v) +:+ " on pid " +:+ pretty (sv_process_id v) +:+ ": " +:+ sv_detail v.

Record ProcessPolicy := mkProcessPolicy {
  pp_allowed_executables : gset (bool * list string);
  pp_allowed_users : gset string;
  pp_protected_pids : gset N;
  pp_max_processes_per_user : N;
  pp_deny_shell_execution : bool;
}.

Definition ProcessPolicy_new : ProcessPolicy := mkProcessPolicy ∅ ∅ ∅ 0 true.
Definition allow_executable (path : string) (p : ProcessPolicy) : ProcessPolicy :=
  mkProcessPolicy ({[path_key path]} ∪ pp_allowed_executables p) (pp_allowed_users p) (pp_protected_pids p)
    (pp_max_processes_per_user p) (pp_deny_shell_execution p).
Definition allow_user (user : string) (p : ProcessPolicy) : ProcessPolicy :=
  mkProcessPolicy (pp_allowed_executables p) ({[user]} ∪ pp_allowed_users p) (pp_protected_pids p)
    (pp_max_processes_per_user p) (pp_deny_shell_execution p).
Definition protect (pid : N) (p : ProcessPolicy) : ProcessPolicy :=
  mkProcessPolicy (pp_allowed_executables p) (pp_allowed_users p) ({[pid]} ∪ pp_protected_pids p)
    (pp_max_processes_per_user p) (pp_deny_shell_execution p).

Definition SHELL_NAMES : list string := ["sh"; "bash"; "dash"; "zsh"; "cmd"; "powershell"].
Definition is_shell (executable : string) : bool :=
  match file_stem executable with
  | None => false
  | Some stem => existsb (λ n, (n =? trim_end_matches ".exe" stem)%string) SHELL_NAMES
  end.

Record ProcessGuard := mkProcessGuard { pg_policy : ProcessPolicy; pg_violations : list SecurityViolation }.
Definition ProcessGuard_new (p : ProcessPolicy) : ProcessGuard := mkProcessGuard p [].

Definition guard_record (kind : ViolationKind) (pid : N) (detail : string) (timestamp_ms : N) (g : ProcessGuard) :
    ProcessGuard * AetherError :=
  let v := mkViolation kind pid detail timestamp_ms in
  (mkProcessGuard (pg_policy g) (pg_violations g ++ [v]), AetherError_permission_denied (SecurityViolation_to_string v)).

Definition refuse (kind : ViolationKind) (pid : N) (detail : string) (timestamp_ms : N) (g : ProcessGuard) :
    ProcessGuard * result unit AetherError :=
  let '(g, e) := guard_record kind pid detail timestamp_ms g in (g, Err e).

Definition check_spawn (pid : N) (executable user : string) (count timestamp_ms : N) (g : ProcessGuard) :
    ProcessGuard * result unit AetherError :=
  let p := pg_policy g in
  if pp_deny_shell_execution p && is_shell executable then
    refuse VkShellExecution pid ("shell-like executable denied: " +:+ executable) timestamp_ms g
  else if bool_decide (pp_allowed_executables p ≠ ∅ ∧ path_key executable ∉ pp_allowed_executables p) then
    refuse VkDisallowedExecutable pid ("executable not allowlisted: " +:+ executable) timestamp_ms g
  else if bool_decide (pp_allowed_users p ≠ ∅ ∧ user ∉ pp_allowed_users p) then
    refuse VkUnauthorizedUser pid ("user not authorized: " +:+ user) timestamp_ms g
  else if (0 <? pp_max_processes_per_user p)%N && (pp_max_processes_per_user p <=? count)%N then
    refuse VkResourceLimit pid
      ("user " +:+ user +:+ " at process limit (" +:+ pretty (pp_max_processes_per_user p) +:+ ")") timestamp_ms g
  else (g, Ok tt).

Definition check_signal (pid timestamp_ms : N) (g : ProcessGuard) : ProcessGuard * result unit AetherError :=
  if bool_decide (pid ∈ pp_protected_pids (pg_policy g)) then
    refuse VkProtectedProcess pid "target process is protected" timestamp_ms g
  else (g, Ok tt).

(** ** lifecycle.rs *)

Inductive ProcessState := PsCreated | PsRunning | PsSleeping | PsStopped | PsZombie | PsTerminated.
#[export] Instance ProcessState_eq_dec : EqDecision ProcessState.
Proof. solve_decision. Defined.

Definition is_alive (s : ProcessState) : bool :=
  match s with PsCreated | PsRunning | PsSleeping | PsStopped => true | _ => false end.

Definition process_can_transition_to (s next : ProcessState) : bool :=
  match s, next with
  | PsCreated, PsRunning | PsCreated, PsTerminated
  | PsRunning, PsSleeping | PsRunning, PsStopped | PsRunning, PsZombie
  | PsSleeping, PsRunning | PsSleeping, PsStopped | PsSleeping, PsZombie
  | PsStopped, PsRunning | PsStopped, PsZombie
  | PsZombie, PsTerminated => true
  | _, _ => false
  end.

Definition ProcessState_to_string (s : ProcessState) : string :=
  match s with
  | PsCreated => "CREATED" | PsRunning => "RUNNING" | PsSleeping => "SLEEPING"
  | PsStopped => "STOPPED" | PsZombie => "ZOMBIE" | PsTerminated => "TERMINATED"
  end.

Record StateTransition := mkStateTransition {
  st_process_id : N; st_from : ProcessState; st_to : ProcessState; st_timestamp_ms : N; st_reason : string;
}.

Record ProcessLifecycle := mkLifecycle { lc_states : gmap N ProcessState; lc_transitions : list StateTransition }.
Definition ProcessLifecycle_new : ProcessLifecycle := mkLifecycle ∅ [].

Definition register_process (pid timestamp_ms : N) (l : ProcessLifecycle) : ProcessLifecycle * result unit AetherError :=
  match lc_states l !! pid with
  | Some _ => (l, Err (AetherError_invalid_input ("Process " +:+ pretty pid +:+ " already registered")))
  | None =>
      (mkLifecycle (<[pid := PsCreated]> (lc_states l))
         (lc_transitions l ++ [mkStateTransition pid PsTerminated PsCreated timestamp_ms "registered"]), Ok tt)
  end.

Definition transition_process (pid : N) (next : ProcessState) (timestamp_ms : N) (reason : string) (l : ProcessLifecycle) :
    ProcessLifecycle * result unit AetherError :=
  match lc_states l !! pid with
  | None => (l, Err (AetherError_not_found ("process " +:+ pretty pid)))
  | Some current =>
      if process_can_transition_to current next then
        (mkLifecycle (<[pid := next]> (lc_states l))
           (lc_transitions l ++ [mkStateTransition pid current next timestamp_ms reason]), Ok tt)
      else
        (l, Err (AetherError_invalid_input
                   ("Illegal transition for process " +:+ pretty pid +:+ ": " +:+ ProcessState_to_string current +:+ " -> "
                    +:+ ProcessState_to_string next)))
  end.

Definition reap (pid timestamp_ms : N) (l : ProcessLifecycle) : ProcessLifecycle * result unit AetherError :=
  transition_process pid PsTerminated timestamp_ms "reaped" l.

(** [iter] is the order in which a [HashMap] is iterated. *)
Definition live_processes (iter : gmap N ProcessState → list (N * ProcessState)) (l : ProcessLifecycle) : list N :=
  fst <$> List.filter (λ x, is_alive x.2) (iter (lc_states l)).

(** ** discovery.rs *)

Section discovery.
Context {F : Type} (f_zero : F) (f_lt : F → F → bool) (f_text : F → string).

Record ProcessRecord := mkProcessRecord {
  prc_process_id : N;
  prc_parent_id : N;
  prc_name : string;
  prc_executable_path : string;
  prc_arguments : list string;
  prc_state : ProcessState;
  prc_user : string;
  prc_cpu_usage_pct : F;
  prc_memory_kb : N;
  prc_open_fds : N;
  prc_environment : list string;
  prc_start_time_ms : N;
  prc_last_update_ms : N;
  prc_is_critical : bool;
  prc_is_protected : bool;
}.

Definition ProcessRecord_new (pid parent : N) (name path : string) (arguments : list string) : ProcessRecord :=
  mkProcessRecord pid parent name path arguments PsRunning "" f_zero 0 0 [] 0 0 false false.

Definition has_ancestor (target : N) (r : ProcessRecord) : bool :=
  (prc_process_id r =? target)%N || (prc_parent_id r =? target)%N.

Definition ProcessRecord_to_string (r : ProcessRecord) : string :=
  "PID " +:+ pretty (prc_process_id r) +:+ " (" +:+ ProcessState_to_string (prc_state r) +:+ "): " +:+ prc_name r +:+ " "
  +:+ f_text (prc_cpu_usage_pct r) +:+ " - " +:+ pretty (prc_memory_kb r) +:+ "KB mem, " +:+ pretty (prc_open_fds r) +:+ " fds".

Record ProcessDiscovery := mkDiscovery { pdi_metadata_dir : string; pdi_recursive : bool }.
Definition ProcessDiscovery_new (dir : string) : ProcessDiscovery := mkDiscovery dir true.
Definition ProcessDiscovery_default : ProcessDiscovery := ProcessDiscovery_new "/tmp/aether/processes".
Definition with_recursive (b : bool) (d : ProcessDiscovery) : ProcessDiscovery := mkDiscovery (pdi_metadata_dir d) b.

Definition discover (d : ProcessDiscovery) : result (list ProcessRecord) AetherError := Ok [].

Definition discover_where (p : ProcessRecord → bool) (d : ProcessDiscovery) : result (list ProcessRecord) AetherError :=
  let? all := discover d in Ok (List.filter p all).
Definition discover_by_name (pattern : string) := discover_where (λ r, str_contains_from pattern (prc_name r)).
Definition discover_by_user (user : string) := discover_where (λ r, (prc_user r =? user)%string).
Definition discover_high_resource (cpu : F) (memory_kb : N) :=
  discover_where (λ r, f_lt cpu (prc_cpu_usage_pct r) || (memory_kb <? prc_memory_kb r)%N).
Definition discover_children (parent : N) := discover_where (λ r, (prc_parent_id r =? parent)%N).

(** ** inspection.rs *)

Record ProcessInfo := mkProcessInfo {
  pi_process_id : N;
  pi_parent_id : N;
  pi_name : string;
  pi_executable_path : string;
  pi_state : ProcessState;
  pi_user : string;
  pi_command_line : string;
  pi_working_directory : string;
  pi_thread_count : N;
  pi_cpu_time_ms : N;
  pi_peak_memory_kb : N;
}.

Definition ProcessInfo_from_record (r : ProcessRecord) : ProcessInfo :=
  mkProcessInfo (prc_process_id r) (prc_parent_id r) (prc_name r) (prc_executable_path r) (prc_state r) (prc_user r)
    (str_join " " (prc_arguments r)) "" 0 0 (prc_memory_kb r).

Definition ProcessInfo_to_string (i : ProcessInfo) : string :=
  pretty (pi_process_id i) +:+ " [" +:+ ProcessState_to_string (pi_state i) +:+ "] " +:+ pi_name i +:+ " ("
  +:+ pi_executable_path i +:+ ") user=" +:+ (if str_is_empty (pi_user i) then "?" else pi_user i) +:+ " threads="
  +:+ pretty (pi_thread_count i) +:+ " cpu=" +:+ pretty (pi_cpu_time_ms i) +:+ "ms".

Record ProcessSnapshot := mkSnapshot { sn_captured_at_ms : N; sn_processes : list ProcessInfo }.

Definition snapshot_capture (records : list ProcessRecord) (at_ms : N) : ProcessSnapshot :=
  mkSnapshot at_ms (ProcessInfo_from_record <$> records).
Definition snapshot_find (pid : N) (s : ProcessSnapshot) : option ProcessInfo :=
  List.find (λ i, (pi_process_id i =? pid)%N) (sn_processes s).
(** The index of a pid: of two processes with the same one, the last. *)
Definition index_by_pid (s : ProcessSnapshot) : gmap N nat :=
  foldl (λ m x, <[pi_process_id x.2 := x.1]> m) ∅ (imap pair (sn_processes s)).
Definition children_of (parent : N) (s : ProcessSnapshot) : list ProcessInfo :=
  List.filter (λ i, (pi_parent_id i =? parent)%N) (sn_processes s).
Definition snapshot_alive (s : ProcessSnapshot) : list ProcessInfo :=
  List.filter (λ i, is_alive (pi_state i)) (sn_processes s).

Definition cycle_error : AetherError :=
  AetherError_internal "ancestor walk exceeded process count (cycle suspected)".

(** The loop of [ancestors_of] after [guard] steps; [None] is the end of the fuel
    or an index out of range. *)
Fixpoint ancestors_loop (fuel : nat) (s : ProcessSnapshot) (pid : N) (guard : nat) :
    option (result (list ProcessInfo) AetherError) :=
  match fuel with
  | 0 => None
  | S fuel =>
      match snapshot_find pid s with
      | None => Some (Ok [])
      | Some info =>
          if (pi_parent_id info =? 0)%N then Some (Ok [])
          else if (length (sn_processes s) <? S guard)%nat then Some (Err cycle_error)
          else match index_by_pid s !! pi_parent_id info with
               | None => Some (Ok [])
               | Some i =>
                   p ← sn_processes s !! i;
                   rest ← ancestors_loop fuel s (pi_parent_id info) (S guard);
                   Some (let? rest := rest in Ok (p :: rest))
               end
      end
  end.

Definition ancestors_of (pid : N) (s : ProcessSnapshot) : option (result (list ProcessInfo) AetherError) :=
  ancestors_loop (length (sn_processes s) + 1) s pid 0.
End discovery.
Arguments ProcessRecord F : clear implicits.

(** * Properties of the process manager *)

(** ** The guard *)

Definition spawn_allowed (p : ProcessPolicy) (executable user : string) (count : N) : Prop :=
  (pp_deny_shell_execution p = true → is_shell executable = false) ∧
  (pp_allowed_executables p = ∅ ∨ path_key executable ∈ pp_allowed_executables p) ∧
  (pp_allowed_users p = ∅ ∨ user ∈ pp_allowed_users p) ∧
  (pp_max_processes_per_user p = 0%N ∨ (count < pp_max_processes_per_user p)%N).

Lemma unrestricted {A} `{Countable A} (X : gset A) x : ¬ (X ≠ ∅ ∧ x ∉ X) → X = ∅ ∨ x ∈ X.
Proof. destruct (decide (X = ∅)); [by left|]. destruct (decide (x ∈ X)); [by right|]. naive_solver. Qed.

(** The guard lets a process start exactly when every part of the policy allows it,
    and then changes nothing; otherwise it logs one violation for the process. *)
Theorem spawn_guard_exact pid executable user count now g :
  let '(g', r) := check_spawn pid executable user count now g in
  (r = Ok tt ↔ spawn_allowed (pg_policy g) executable user count) ∧
  match r with
  | Ok _ => g' = g
  | Err e => ∃ kind detail, g' = mkProcessGuard (pg_policy g) (pg_violations g ++ [mkViolation kind pid detail now]) ∧
      err_code e = EkPermissionDenied
  end.
Proof.
  unfold check_spawn, refuse, guard_record, spawn_allowed.
  destruct (pp_deny_shell_execution (pg_policy g) && is_shell executable) eqn:Es.
  { apply andb_true_iff in Es as [Hd Hs]. split; [|by do 2 eexists]. split; [done|]. intros (Hno & _). by rewrite Hno in Hs. }
  assert (pp_deny_shell_execution (pg_policy g) = true → is_shell executable = false) as Hshell.
  { intros Hd. by rewrite Hd in Es. }
  case_bool_decide as H1; [split; [split; [done|]; intros (_ & [?|?] & _); naive_solver|by do 2 eexists]|].
  case_bool_decide as H2; [split; [split; [done|]; intros (_ & _ & [?|?] & _); naive_solver|by do 2 eexists]|].
  apply unrestricted in H1, H2.
  destruct (N.ltb_spec 0 (pp_max_processes_per_user (pg_policy g)));
    destruct (N.leb_spec (pp_max_processes_per_user (pg_policy g)) count); cbn [andb].
  - split; [split; [done|]; intros (_ & _ & _ & [?|?]); lia|by do 2 eexists].
  - split; [|done]. split; [|done]. intros _. split_and!; [done..|]. by right.
  - split; [|done]. split; [|done]. intros _. split_and!; [done..|]. left. lia.
  - split; [|done]. split; [|done]. intros _. split_and!; [done..|]. by right.
Qed.

(** ** The life of a process *)

Inductive lifecycle_op := LoRegister (pid now : N) | LoTransition (pid : N) (next : ProcessState) (now : N) (reason : string)
| LoReap (pid now : N).

Definition lifecycle_step (op : lifecycle_op) (l : ProcessLifecycle) : ProcessLifecycle :=
  match op with
  | LoRegister pid now => (register_process pid now l).1
  | LoTransition pid next now reason => (transition_process pid next now reason l).1
  | LoReap pid now => (reap pid now l).1
  end.

(** The transitions of one process. *)
Definition of_process (pid : N) (l : list StateTransition) : list StateTransition :=
  List.filter (λ t, (st_process_id t =? pid)%N) l.

(** A life: registered, then allowed transitions, each from where the last ended. *)
Inductive life : list StateTransition → ProcessState → Prop :=
| life_begins pid now : life [mkStateTransition pid PsTerminated PsCreated now "registered"] PsCreated
| life_goes_on l s t : life l s → st_from t = s → process_can_transition_to s (st_to t) = true → life (l ++ [t]) (st_to t).

Definition history_ok (l : ProcessLifecycle) : Prop :=
  ∀ pid, match lc_states l !! pid with
         | None => of_process pid (lc_transitions l) = []
         | Some s => life (of_process pid (lc_transitions l)) s
         end.

Lemma of_process_snoc pid l t : of_process pid (l ++ [t]) =
  if (st_process_id t =? pid)%N then of_process pid l ++ [t] else of_process pid l.
Proof. unfold of_process. rewrite List.filter_app. cbn. destruct (_ =? pid)%N; [done|]. by rewrite app_nil_r. Qed.

(** Appending a transition of one process and its state. *)
Lemma process_history_step l t : history_ok l →
  match lc_states l !! st_process_id t with
  | None => t = mkStateTransition (st_process_id t) PsTerminated PsCreated (st_timestamp_ms t) "registered"
  | Some s => st_from t = s ∧ process_can_transition_to s (st_to t) = true
  end →
  history_ok (mkLifecycle (<[st_process_id t := st_to t]> (lc_states l)) (lc_transitions l ++ [t])).
Proof.
  intros Hok Ht pid. cbn [lc_states lc_transitions]. rewrite of_process_snoc. destruct (N.eqb_spec (st_process_id t) pid) as [<-|Hne].
  - rewrite lookup_insert_eq. specialize (Hok (st_process_id t)). destruct (lc_states l !! _) as [s|].
    + destruct Ht. by eapply life_goes_on.
    + rewrite Hok. cbn. rewrite Ht. cbn. constructor.
  - rewrite lookup_insert_ne by done. apply Hok.
Qed.

Lemma transition_ok pid next now reason l : history_ok l → history_ok (transition_process pid next now reason l).1.
Proof.
  intros Hok. unfold transition_process. destruct (lc_states l !! pid) as [s|] eqn:Es; [|done].
  destruct (process_can_transition_to s next) eqn:Et; [|done].
  apply (process_history_step l (mkStateTransition pid s next now reason) Hok). cbn. by rewrite Es.
Qed.

Lemma lifecycle_step_ok op l : history_ok l → history_ok (lifecycle_step op l).
Proof.
  intros Hok. destruct op; cbn; [|by apply transition_ok..]. unfold register_process.
  destruct (lc_states l !! pid) as [s|] eqn:Es; [done|].
  apply (process_history_step l (mkStateTransition pid PsTerminated PsCreated now "registered") Hok). cbn. by rewrite Es.
Qed.

Lemma lifecycle_terminated op l pid : lc_states l !! pid = Some PsTerminated →
  lc_states (lifecycle_step op l) !! pid = Some PsTerminated.
Proof.
  intros Hp. destruct op as [q now|q next now reason|q now]; cbn; unfold reap, register_process, transition_process;
    (destruct (decide (q = pid)) as [->|]; [rewrite Hp; cbn; done|]);
    repeat case_match; cbn; rewrite ?lookup_insert_ne by done; done.
Qed.

(** C30: Over any sequence of registrations, transitions and reapings, the state of a
    process is the end of its recorded transitions, which begin with its
    registration and are all allowed and connected; nothing is recorded of a process
    that was not registered; and a terminated process stays terminated, so that its
    pid is never used again. *)
Theorem process_history_exact ops : let l := foldl (λ l op, lifecycle_step op l) ProcessLifecycle_new ops in
  history_ok l ∧ ∀ more pid, lc_states l !! pid = Some PsTerminated →
    lc_states (foldl (λ l op, lifecycle_step op l) l more) !! pid = Some PsTerminated.
Proof.
  cbn zeta. split.
  - assert (∀ l0, history_ok l0 → history_ok (foldl (λ l op, lifecycle_step op l) l0 ops)) as Hrun.
    { induction ops as [|op ops IH]; intros l0 H0; [done|]. by apply IH, lifecycle_step_ok. }
    by apply Hrun.
  - intros more pid. generalize (foldl (λ l op, lifecycle_step op l) ProcessLifecycle_new ops).
    induction more as [|op more IH]; intros l Hl; [done|]. by apply IH, lifecycle_terminated.
Qed.

(** ** Ancestors *)

Section ancestors.
Context {F : Type}.
Implicit Types (s : ProcessSnapshot).

Lemma index_by_pid_lookup s k i : index_by_pid s !! k = Some i → ∃ p, sn_processes s !! i = Some p ∧ pi_process_id p = k.
Proof.
  unfold index_by_pid. enough (∀ l (m : gmap N nat),
    (∀ x, x ∈ l → sn_processes s !! x.1 = Some x.2) →
    (∀ k i, m !! k = Some i → ∃ p, sn_processes s !! i = Some p ∧ pi_process_id p = k) →
    ∀ k i, foldl (λ m x, <[pi_process_id x.2 := x.1]> m) m l !! k = Some i →
      ∃ p, sn_processes s !! i = Some p ∧ pi_process_id p = k) as Hgen.
  { apply Hgen; [|done]. intros [j p] Hx. apply list_elem_of_lookup in Hx as (n & Hn).
    rewrite list_lookup_imap in Hn. apply fmap_Some in Hn as (p' & Hp' & [= -> ->]). done. }
  induction l as [|[j p] l IH]; intros m Hl Hm; [exact Hm|]. cbn. apply IH; [intros x Hx; apply Hl; by right|].
  intros k0 i0 [[<- <-]|[_ Hk]]%lookup_insert_Some; [|by apply Hm]. exists p. split; [|done]. apply (Hl (j, p)). by left.
Qed.

(** Each process of a chain is the parent of the one before. *)
Fixpoint ancestry s (pid : N) (chain : list ProcessInfo) : Prop :=
  match chain with
  | [] => True
  | p :: chain => ∃ info, snapshot_find pid s = Some info ∧ pi_parent_id info ≠ 0%N ∧
      pi_process_id p = pi_parent_id info ∧ ancestry s (pi_process_id p) chain
  end.

Lemma ancestors_loop_total fuel s pid guard : fuel + guard = length (sn_processes s) + 1 → 0 < fuel →
  ∃ r, ancestors_loop fuel s pid guard = Some r ∧
    match r with
    | Ok chain => ancestry s pid chain ∧ length chain + guard ≤ length (sn_processes s)
    | Err e => e = cycle_error
    end.
Proof.
  revert pid guard. induction fuel as [|fuel IH]; intros pid guard Hf H0; [lia|]. cbn [ancestors_loop].
  destruct (snapshot_find pid s) as [info|] eqn:Ei; [|eexists; split; [done|]; cbn; split; [done|lia]].
  destruct (N.eqb_spec (pi_parent_id info) 0); [eexists; split; [done|]; cbn; split; [done|lia]|].
  destruct (Nat.ltb_spec (length (sn_processes s)) (S guard)); [by eexists|].
  destruct (index_by_pid s !! pi_parent_id info) as [i|] eqn:Ex; [|eexists; split; [done|]; cbn; split; [done|lia]].
  destruct (index_by_pid_lookup s _ _ Ex) as (p & Hp & Hpid). rewrite Hp. cbn.
  destruct (IH (pi_parent_id info) (S guard)) as (r & -> & Hr); [lia|lia|]. cbn. eexists. split; [done|].
  destruct r as [chain|e]; [|done]. destruct Hr as [Ha Hlen]. cbn. split; [|lia]. exists info. by rewrite Hpid.
Qed.

(** The walk to the ancestors of a process always ends, also on a snapshot whose
    parents form a cycle: with the chain of parents, no longer than the snapshot, or
    with the error for a cycle. *)
Theorem ancestors_walk_ends pid s : ∃ r, ancestors_of pid s = Some r ∧
  match r with
  | Ok chain => ancestry s pid chain ∧ length chain ≤ length (sn_processes s)
  | Err e => e = cycle_error
  end.
Proof.
  destruct (ancestors_loop_total (length (sn_processes s) + 1) s pid 0) as (r & Hr & Hs); [lia|lia|].
  exists r. split; [done|]. destruct r; [|done]. by rewrite Nat.add_0_r in Hs.
Qed.
End ancestors.
