(* ===== verification/Init.v ===== *)
(** * The first process

    Models system/aether-init/src: lib.rs, the boot stages, the kernel parameters and
    the order of a shutdown, and main.rs on Linux, the boot sequence and the loop of
    process 1.  Commands, processes and files are the operations of the class
    [InitEnv]; what is written to the console and started is kept in a log. *)
From S2P Require Import Prelude RustStd Text.
From Stdlib Require Import Ascii.

(** ** lib.rs *)

Inductive BootStage := BsEarlyMounts | BsKernelParams | BsServices | BsReady | BsShutdown.

Definition BootStage_ALL : list BootStage := [BsEarlyMounts; BsKernelParams; BsServices; BsReady; BsShutdown].

Definition BootStage_next (s : BootStage) : option BootStage :=
  match s with
  | BsEarlyMounts => Some BsKernelParams
  | BsKernelParams => Some BsServices
  | BsServices => Some BsReady
  | BsReady => Some BsShutdown
  | BsShutdown => None
  end.

Definition BootStage_label (s : BootStage) : string :=
  match s with
  | BsEarlyMounts => "early-mounts" | BsKernelParams => "kernel-params" | BsServices => "services"
  | BsReady => "ready" | BsShutdown => "shutdown"
  end.

Record BootConfig := mkBootConfig { bc_manifest_dir : string; bc_control_port : N; bc_quiet : bool; bc_single_user : bool }.

Definition BootConfig_default : BootConfig := mkBootConfig "/etc/aether/services.d" 4747 false false.


(** One token of the parameter. *)
Definition parse_token (c : BootConfig) (token : string) : BootConfig :=
  let token := str_trim token in
  if (token =? "quiet")%string then mkBootConfig (bc_manifest_dir c) (bc_control_port c) true (bc_single_user c)
  else if (token =? "single")%string then mkBootConfig (bc_manifest_dir c) (bc_control_port c) (bc_quiet c) true
  else match split_once "=" token with
       | None => c
       | Some (key, val) =>
           let key := str_trim key in
           if (key =? "port")%string then
             match parse_unsigned u16_max (str_trim val) with
             | Some p => mkBootConfig (bc_manifest_dir c) p (bc_quiet c) (bc_single_user c)
             | None => c
             end
           else if (key =? "manifests")%string then
             mkBootConfig (str_trim val) (bc_control_port c) (bc_quiet c) (bc_single_user c)
           else c
       end.

Definition parse_param (value : string) : BootConfig := foldl parse_token BootConfig_default (str_split "," value).

Definition from_cmdline (cmdline : string) : BootConfig :=
  match list_first (strip_prefix "aether=") (split_whitespace cmdline) with
  | Some value => parse_param value
  | None => BootConfig_default
  end.

Definition shutdown_plan (service_ids : list string) : list string :=
  reverse (sort_by id service_ids) ++ ["aether-system-core"].

(** ** main.rs *)

Definition esc (s : string) : string := String (ascii_of_nat 27) ("[" +:+ s).
Definition RESET : string := esc "0m".
Definition CYAN : string := esc "36;1m".
Definition GREEN : string := esc "32m".
Definition YELLOW : string := esc "33;1m".
Definition RED : string := esc "31;1m".

Definition BANNER : string := "

          ___   __  __ ______ _   __ _____
         /   | / / / // ____// | / // ___/
        / /| |/ / / // __/  /  |/ / \__ \
       / ___ / /_/ // /___ / /|  / ___/ /
      /_/  |_\____//_____//_/ |_/ //____/

           AI-native operating system
".

(** How a command ended: its text and whether it succeeded. *)
Record ExitStatus := mkExitStatus { ex_success : bool; ex_text : string }.

Class InitEnv (E : Type) := {
  (** [Command::status] with arguments, in an environment of variables. *)
  env_status : string → list string → list (string * string) → E → result ExitStatus string * E;
  (** [Command::spawn] with arguments and variables. *)
  env_spawn : string → list string → list (string * string) → E → result N string * E;
  (** [Child::try_wait]: the status of a child that has exited. *)
  env_try_wait : N → E → result (option ExitStatus) string * E;
  (** The text of /proc/cmdline. *)
  env_cmdline : E → result string string * E;
}.

Inductive init_event :=
| EvConsole (line : string)
| EvCommand (prog : string) (args : list string)
(** An attempt to start a process in this environment, and whether it succeeded. *)
| EvSpawn (prog : string) (args : list string) (vars : list (string * string)) (ok : bool).

(** The machine, the flag [QUIET], the environment of the process and the log. *)
Record InitWorld {E : Type} := mkInitWorld {
  iw_env : E;
  iw_quiet : bool;
  iw_vars : list (string * string);
  iw_log : list init_event;
}.
Arguments InitWorld E : clear implicits.
Arguments mkInitWorld {E}.

Definition I (E A : Type) : Type := InitWorld E → InitWorld E * A.
#[export] Instance I_ret {E} : MRet (I E) := λ A a w, (w, a).
#[export] Instance I_bind {E} : MBind (I E) := λ A B f m w, let '(w, a) := m w in f a w.

Section main.
Context {E : Type} `{!InitEnv E}.

Definition emit (e : init_event) : I E unit := λ w,
  (mkInitWorld (iw_env w) (iw_quiet w) (iw_vars w) (iw_log w ++ [e]), tt).
Definition is_quiet : I E bool := λ w, (w, iw_quiet w).
Definition set_quiet : I E unit := λ w, (mkInitWorld (iw_env w) true (iw_vars w) (iw_log w), tt).

(** [std::env::set_var]. *)
Definition set_in (k v : string) (vars : list (string * string)) : list (string * string) :=
  List.filter (λ kv, negb (kv.1 =? k)%string) vars ++ [(k, v)].
Definition set_var (k v : string) : I E unit := λ w,
  (mkInitWorld (iw_env w) (iw_quiet w) (set_in k v (iw_vars w)) (iw_log w), tt).

Definition command (prog : string) (args : list string) : I E (result ExitStatus string) := λ w,
  let '(r, e) := env_status prog args (iw_vars w) (iw_env w) in
  (mkInitWorld e (iw_quiet w) (iw_vars w) (iw_log w ++ [EvCommand prog args]), r).

(** A child inherits the environment, with the given variables in addition. *)
Definition spawn (prog : string) (args : list string) (vars : list (string * string)) : I E (result N string) := λ w,
  let '(r, e) := env_spawn prog args (iw_vars w ++ vars) (iw_env w) in
  (mkInitWorld e (iw_quiet w) (iw_vars w) (iw_log w ++ [EvSpawn prog args (iw_vars w ++ vars) (is_ok r)]), r).
Definition try_wait (child : N) : I E (result (option ExitStatus) string) := λ w,
  let '(r, e) := env_try_wait child (iw_env w) in (mkInitWorld e (iw_quiet w) (iw_vars w) (iw_log w), r).
Definition read_cmdline : I E string := λ w,
  let '(r, e) := env_cmdline (iw_env w) in
  (mkInitWorld e (iw_quiet w) (iw_vars w) (iw_log w), match r with Ok s => s | Err _ => EmptyString end).

Definition console_out (line : string) : I E unit := emit (EvConsole line).

(** [{:<13}]. *)
Fixpoint spaces (n : nat) : string := match n with 0 => EmptyString | S n => String " " (spaces n) end.
Definition pad13 (s : string) : string := s +:+ spaces (13 - String.length s).

Definition tagged (color tag stage message : string) : string :=
  color +:+ tag +:+ RESET +:+ " " +:+ CYAN +:+ pad13 stage +:+ RESET +:+ " " +:+ message.

Definition log (stage message : string) : I E unit :=
  q ← is_quiet;
  if (q : bool) then mret tt else console_out (tagged GREEN "[ OK ]" stage message).
Definition log_warn (stage message : string) : I E unit := console_out (tagged YELLOW "[ WARN]" stage message).
Definition log_fail (stage message : string) : I E unit := console_out (tagged RED "[FAIL]" stage message).

Fixpoint console_lines (l : list string) : I E unit :=
  match l with
  | [] => mret tt
  | line :: l => _ ← console_out (CYAN +:+ line +:+ RESET); console_lines l
  end.

Definition show_banner : I E unit :=
  q ← is_quiet;
  if (q : bool) then mret tt
  else
    _ ← console_out (esc "2J" +:+ esc "1;1H");
    _ ← console_lines (str_lines BANNER);
    console_out "".

Definition mounts : list (string * string * string) :=
  [("proc", "proc", "/proc"); ("sysfs", "sysfs", "/sys"); ("devtmpfs", "devtmpfs", "/dev"); ("tmpfs", "tmpfs", "/run")].

Fixpoint mount_each (l : list (string * string * string)) : I E unit :=
  match l with
  | [] => mret tt
  | (fstype, source, target) :: l =>
      status ← command "/bin/mount" ["-t"; fstype; source; target];
      _ ← match status with
          | Ok s => if ex_success s then mret tt
                    else log_warn "early-mounts" ("mount " +:+ fstype +:+ " exited " +:+ ex_text s)
          | Err e => log_warn "early-mounts" ("mount " +:+ fstype +:+ " failed: " +:+ e)
          end;
      mount_each l
  end.
Definition early_mounts : I E unit := mount_each mounts.

Definition succeeded (r : result ExitStatus string) : bool := match r with Ok s => ex_success s | Err _ => false end.

Fixpoint loopback_try (attempts : list (string * list string)) : I E unit :=
  match attempts with
  | [] => log_warn "early-mounts" "could not bring loopback up"
  | (prog, args) :: attempts =>
      r ← command prog args;
      if succeeded r then log "early-mounts" "loopback up" else loopback_try attempts
  end.
Definition loopback_up : I E unit :=
  loopback_try [("/bin/ip", ["link"; "set"; "lo"; "up"]);
                ("/bin/ifconfig", ["lo"; "127.0.0.1"; "netmask"; "255.0.0.0"; "up"]);
                ("/sbin/ifconfig", ["lo"; "up"])].

Definition net_up : I E unit :=
  r ← command "modprobe" ["virtio_net"];
  _ ← (if succeeded r then log "early-mounts" "virtio_net loaded"
       else log_warn "early-mounts" "virtio_net modprobe skipped (builtin?)");
  _ ← command "modprobe" ["psmouse"];
  _ ← command "/bin/ifconfig" ["eth0"; "up"];
  _ ← command "modprobe" ["virtio_net"];
  _ ← command "/bin/ifconfig" ["eth0"; "up"];
  cfg ← command "/bin/ifconfig" ["eth0"; "10.0.2.15"; "netmask"; "255.255.255.0"];
  if succeeded cfg then
    _ ← log "early-mounts" "eth0 = 10.0.2.15";
    _ ← command "/bin/route" ["add"; "default"; "gw"; "10.0.2.2"];
    mret tt
  else log_warn "early-mounts" "no eth0; loopback-only operation".

Fixpoint load_modules (l : list string) : I E unit :=
  match l with
  | [] => mret tt
  | m :: l =>
      r ← command "modprobe" [m];
      _ ← (if succeeded r then log "early-mounts" (m +:+ " loaded") else mret tt);
      load_modules l
  end.
Definition gpu_drivers : I E unit := load_modules ["virtio_gpu"; "bochs"].

Definition spawn_system_core (cfg : BootConfig) : I E (result N string) :=
  spawn "aether-system-core" [bc_manifest_dir cfg]
    [("AETHER_CONTROL_PORT", pretty (bc_control_port cfg)); ("AETHER_BIND", "0.0.0.0")].

Definition spawn_agentd : I E (option N) :=
  r ← spawn "/sbin/aether-agentd" [] [("AETHER_BIND", "0.0.0.0")];
  match r with
  | Ok child => _ ← log "services" "agent daemon started"; mret (Some child)
  | Err e => _ ← log_warn "services" ("agent daemon not started: " +:+ e); mret None
  end.

Definition spawn_graphical_shell (exclusive_input : bool) : I E (option N) :=
  r ← spawn "/bin/aether-graphical-shell" [] (if exclusive_input then [("AETHER_GFX_INPUT", "1")] else []);
  match r with
  | Ok child => _ ← log "ready" "graphical shell started"; mret (Some child)
  | Err e => _ ← log_warn "ready" ("graphical shell not started: " +:+ e); mret None
  end.

Definition init_reap (core : option N) : I E bool :=
  match core with
  | None => mret false
  | Some child =>
      r ← try_wait child;
      match r with
      | Ok (Some status) => _ ← log "services" ("system-core exited: " +:+ ex_text status); mret true
      | _ => mret false
      end
  end.

Definition exited (child : N) : I E (option ExitStatus) :=
  r ← try_wait child; mret match r with Ok o => o | Err _ => None end.

Definition ensure_console_session (session : option N) : I E (option N) :=
  gone ← match session with
         | Some child => o ← exited child; mret (bool_decide (o ≠ None))
         | None => mret true
         end;
  if (gone : bool) then
    r ← spawn "/bin/sh" ["-i"] [];
    match r with
    | Ok child => mret (Some child)
    | Err e => _ ← log "ready" ("cannot start console session: " +:+ e); mret session
    end
  else mret session.

(** A child that is watched: dropped with a warning when it has exited. *)
Definition watch (what : string) (child : option N) : I E (option N) :=
  match child with
  | None => mret None
  | Some c =>
      o ← exited c;
      match o with
      | Some status => _ ← log_warn "ready" (what +:+ " exited: " +:+ ex_text status); mret None
      | None => mret (Some c)
      end
  end.

Record Children := mkChildren { ch_core : option N; ch_gfx : option N; ch_agentd : option N; ch_console : option N }.

(** One round of the loop; [None] when it ends. *)
Definition init_round (cfg : BootConfig) (c : Children) : I E (option Children) :=
  stop ← init_reap (ch_core c);
  if (stop : bool) then mret None
  else
    gfx ← watch "graphical shell" (ch_gfx c);
    agentd ← watch "agent daemon" (ch_agentd c);
    console ← (if bc_single_user cfg then mret (ch_console c) else ensure_console_session (ch_console c));
    mret (Some (mkChildren (ch_core c) gfx agentd console)).

Definition stage_next (s : BootStage) : BootStage := default s (BootStage_next s).

(** The boot before the kernel parameters are read. *)
Definition early_boot : I E unit :=
  _ ← set_var "PATH" "/sbin:/usr/sbin:/bin:/usr/bin";
  _ ← show_banner;
  _ ← log (BootStage_label BsEarlyMounts) "Aether OS boot beginning";
  _ ← early_mounts;
  _ ← loopback_up;
  _ ← net_up;
  gpu_drivers.

(** The boot up to the loop: the children and the stage reached. *)
Definition boot : I E (BootConfig * Children * BootStage) :=
  _ ← early_boot;
  let stage := stage_next BsEarlyMounts in
  cmdline ← read_cmdline;
  let cfg := from_cmdline cmdline in
  _ ← (if bc_quiet cfg then set_quiet else mret tt);
  _ ← log (BootStage_label stage) ("manifests=" +:+ bc_manifest_dir cfg +:+ " port=" +:+ pretty (bc_control_port cfg));
  let stage := stage_next stage in
  _ ← log (BootStage_label stage) "starting aether-system-core";
  r ← spawn_system_core cfg;
  core ← match r with
         | Ok child => mret (Some child)
         | Err e => _ ← log_fail (BootStage_label stage) ("failed to start system-core: " +:+ e); mret None
         end;
  let stage := stage_next stage in
  agentd ← spawn_agentd;
  gfx ← spawn_graphical_shell (bc_single_user cfg);
  console ← (if bc_single_user cfg then mret None
             else
               s ← ensure_console_session None;
               _ ← log (BootStage_label stage) "console ready — type 'aetherctl status'";
               mret s);
  _ ← (match core with
       | Some _ => log (BootStage_label stage) "Aether OS is live"
       | None => log_warn (BootStage_label stage) "running without system-core"
       end);
  mret (cfg, mkChildren core gfx agentd console, stage).

(** [rounds] rounds of the loop, and the message after it when it ended. *)
Fixpoint init_loop (rounds : nat) (cfg : BootConfig) (c : Children) (stage : BootStage) : I E bool :=
  match rounds with
  | 0 => mret false
  | S rounds =>
      r ← init_round cfg c;
      match r with
      | None => _ ← log_fail (BootStage_label (stage_next stage)) "system-core exited; halting"; mret true
      | Some c => init_loop rounds cfg c stage
      end
  end.

Definition init_main (rounds : nat) : I E bool :=
  '(cfg, c, stage) ← boot;
  init_loop rounds cfg c stage.
End main.

(** * Properties of the first process *)

(** ** What is started *)

Section spawns.
Context {E : Type} `{!InitEnv E}.

(** The attempts to start a process, console shells apart. *)
Definition started (l : list init_event) : list init_event :=
  List.filter (λ e, match e with EvSpawn prog _ _ _ => negb (prog =? "/bin/sh")%string | _ => false end) l.

(** A part of the boot that starts nothing but consoles and leaves the variables
    alone. *)
Definition silent {A} (m : I E A) : Prop := ∀ w,
  started (iw_log (m w).1) = started (iw_log w) ∧ iw_vars (m w).1 = iw_vars w.

Lemma started_app l k : started (l ++ k) = started l ++ started k.
Proof. apply List.filter_app. Qed.

Lemma bind_run {A B} (m : I E A) (f : A → I E B) w : (m ≫= f) w = f (m w).2 (m w).1.
Proof. unfold mbind, I_bind. by destruct (m w). Qed.

Lemma silent_ret {A} (a : A) : silent (mret a).
Proof. done. Qed.
Lemma silent_bind {A B} (m : I E A) (f : A → I E B) : silent m → (∀ a, silent (f a)) → silent (m ≫= f).
Proof.
  intros Hm Hf w. rewrite bind_run. destruct (Hm w) as [<- <-], (Hf (m w).2 (m w).1) as [-> ->]. done.
Qed.
Lemma silent_console line : silent (console_out line).
Proof. intros w. cbn. by rewrite started_app, app_nil_r. Qed.
Lemma silent_command prog args : silent (command prog args).
Proof. intros w. unfold command. destruct (env_status _ _ _ _). cbn. by rewrite started_app, app_nil_r. Qed.
Lemma silent_shell : silent (spawn "/bin/sh" ["-i"] []).
Proof. intros w. unfold spawn. destruct (env_spawn _ _ _ (iw_env w)). cbn. by rewrite started_app, app_nil_r. Qed.
Lemma silent_wait c : silent (try_wait c).
Proof. intros w. unfold try_wait. by destruct (env_try_wait c (iw_env w)). Qed.
Lemma silent_cmdline : silent read_cmdline.
Proof. intros w. unfold read_cmdline. by destruct (env_cmdline (iw_env w)). Qed.
Lemma silent_quiet : silent is_quiet.
Proof. done. Qed.
Lemma silent_set_quiet : silent set_quiet.
Proof. done. Qed.

Create HintDb silent.
#[local] Hint Resolve silent_ret silent_console silent_command silent_shell silent_wait silent_cmdline silent_quiet
  silent_set_quiet : silent.

Ltac silent_split :=
  repeat match goal with
         | |- silent (match ?x with _ => _ end) => destruct x
         | |- silent (_ ≫= _) => apply silent_bind; [|intros ?]
         end; auto with silent.

Lemma silent_log s m : silent (log s m).
Proof. unfold log. silent_split. Qed.
Lemma silent_warn s m : silent (log_warn s m).
Proof. unfold log_warn. silent_split. Qed.
Lemma silent_fail s m : silent (log_fail s m).
Proof. unfold log_fail. silent_split. Qed.
#[local] Hint Resolve silent_log silent_warn silent_fail : silent.

Lemma silent_lines l : silent (console_lines l).
Proof. induction l; cbn [console_lines]; silent_split. Qed.
#[local] Hint Resolve silent_lines : silent.
Lemma silent_banner : silent show_banner.
Proof. unfold show_banner. silent_split. Qed.
Lemma silent_mounts l : silent (mount_each l).
Proof. induction l as [|[[? ?] ?] l IH]; cbn [mount_each]; silent_split. Qed.
Lemma silent_loopback l : silent (loopback_try l).
Proof. induction l as [|[? ?] l IH]; cbn [loopback_try]; silent_split. Qed.
Lemma silent_net : silent net_up.
Proof. unfold net_up. silent_split. Qed.
Lemma silent_modules l : silent (load_modules l).
Proof. induction l; cbn [load_modules]; silent_split. Qed.
#[local] Hint Resolve silent_banner silent_mounts silent_loopback silent_net silent_modules : silent.

Lemma silent_reap c : silent (init_reap c).
Proof. unfold init_reap. silent_split. Qed.
Lemma silent_exited c : silent (exited c).
Proof. unfold exited. silent_split. Qed.
#[local] Hint Resolve silent_reap silent_exited : silent.
Lemma silent_console_session s : silent (ensure_console_session s).
Proof. unfold ensure_console_session. silent_split. Qed.
Lemma silent_watch what c : silent (watch what c).
Proof. unfold watch. silent_split. Qed.
#[local] Hint Resolve silent_console_session silent_watch : silent.
Lemma silent_round cfg c : silent (init_round cfg c).
Proof. unfold init_round. silent_split. Qed.
#[local] Hint Resolve silent_round : silent.
Lemma silent_loop rounds cfg c stage : silent (init_loop rounds cfg c stage).
Proof. revert c. induction rounds as [|rounds IH]; intros c; cbn [init_loop]; silent_split. Qed.

(** A part that tries once to start a program and leaves the variables alone. *)
Definition attempts {A} (m : I E A) (prog : string) (args : list string) (vars : list (string * string)) : Prop :=
  ∀ w, iw_vars (m w).1 = iw_vars w ∧
    ∃ ok, started (iw_log (m w).1) = started (iw_log w) ++ [EvSpawn prog args (iw_vars w ++ vars) ok].

Lemma spawn_attempts prog args vars w : (prog =? "/bin/sh")%string = false →
  let '(w', r) := spawn prog args vars w in
  iw_vars w' = iw_vars w ∧
  started (iw_log w') = started (iw_log w) ++ [EvSpawn prog args (iw_vars w ++ vars) (is_ok r)].
Proof.
  intros Hp. unfold spawn. destruct (env_spawn _ _ _ (iw_env w)). cbn. rewrite started_app. cbn. by rewrite Hp.
Qed.

Lemma attempts_spawn {A} prog args vars (f : result N string → I E A) :
  (prog =? "/bin/sh")%string = false → (∀ r, silent (f r)) → attempts (spawn prog args vars ≫= f) prog args vars.
Proof.
  intros Hp Hf w. rewrite bind_run. pose proof (spawn_attempts prog args vars w Hp) as Hs.
  destruct (spawn prog args vars w) as [w' r]. cbn. destruct Hs as [Hv Hl], (Hf r w') as [-> ->]. eauto.
Qed.

Lemma agentd_attempts : attempts spawn_agentd "/sbin/aether-agentd" [] [("AETHER_BIND", "0.0.0.0")].
Proof. apply attempts_spawn; [done|]. intros r. silent_split. Qed.
Lemma graphical_attempts b : attempts (spawn_graphical_shell b) "/bin/aether-graphical-shell" []
  (if b then [("AETHER_GFX_INPUT", "1")] else []).
Proof. apply attempts_spawn; [done|]. intros r. silent_split. Qed.

(** The three services of the boot, by the kernel parameters and the environment,
    each with whether it could be started. *)
Definition boot_services (cmdline : string) (vars : list (string * string)) (core agentd shell : bool) :
    list init_event :=
  let cfg := from_cmdline cmdline in
  [EvSpawn "aether-system-core" [bc_manifest_dir cfg]
     (vars ++ [("AETHER_CONTROL_PORT", pretty (bc_control_port cfg)); ("AETHER_BIND", "0.0.0.0")]) core;
   EvSpawn "/sbin/aether-agentd" [] (vars ++ [("AETHER_BIND", "0.0.0.0")]) agentd;
   EvSpawn "/bin/aether-graphical-shell" []
     (vars ++ (if bc_single_user cfg then [("AETHER_GFX_INPUT", "1")] else [])) shell].

(** The kernel parameters as the machine gives them once the early part of the boot
    is over; without them the empty text. *)
Definition kernel_cmdline (w : InitWorld E) : string :=
  match (env_cmdline (iw_env (early_boot w).1)).1 with Ok s => s | Err _ => EmptyString end.

Definition boot_vars (w : InitWorld E) : list (string * string) :=
  set_in "PATH" "/sbin:/usr/sbin:/bin:/usr/bin" (iw_vars w).

Lemma early_boot_quiet w :
  started (iw_log (early_boot w).1) = started (iw_log w) ∧ iw_vars (early_boot w).1 = boot_vars w.
Proof.
  unfold early_boot. rewrite bind_run.
  assert (∀ w', let m := (_ ← show_banner;
    _ ← log (BootStage_label BsEarlyMounts) "Aether OS boot beginning";
    _ ← early_mounts; _ ← loopback_up; _ ← net_up; gpu_drivers) in
    started (iw_log (m w').1) = started (iw_log w') ∧ iw_vars (m w').1 = iw_vars w') as Hs.
  { intros w'. apply silent_bind; [auto with silent|intros _].
    unfold early_mounts, loopback_up, gpu_drivers. silent_split. }
  destruct (Hs (set_var "PATH" "/sbin:/usr/sbin:/bin:/usr/bin" w).1) as [-> ->]. done.
Qed.

(** One step through the boot: a part that starts nothing. *)
Ltac quiet_step Hr := rewrite bind_run in Hr; match type of Hr with
  | context [(?m ?w).1] =>
      let H := fresh "Hm" in assert (silent m) as H by silent_split; destruct (H w);
      let w' := fresh "w" in destruct (m w) as [w' ?]; cbn [fst snd] in *; clear H
  end.

Lemma boot_starts w : ∃ core agentd shell,
  started (iw_log (boot w).1) =
    started (iw_log w) ++ boot_services (kernel_cmdline w) (boot_vars w) core agentd shell ∧
  (core = false → ch_core (boot w).2.1.2 = None).
Proof.
  remember (boot w) as r eqn:Hr. unfold boot in Hr. rewrite bind_run in Hr. pose proof (early_boot_quiet w) as [Hl0 Hv0].
  unfold kernel_cmdline. destruct (early_boot w) as [w0 []]. cbn [fst snd] in *. cbv zeta in Hr.
  replace (match (env_cmdline (iw_env w0)).1 with Ok s => s | Err _ => EmptyString end)
    with (read_cmdline w0).2 by (unfold read_cmdline; by destruct (env_cmdline _)).
  rewrite bind_run in Hr. destruct (silent_cmdline w0) as [Hl1 Hv1]. destruct (read_cmdline w0) as [w1 cmdline].
  cbn [fst snd] in *. do 3 quiet_step Hr. rewrite bind_run in Hr. unfold spawn_system_core in Hr.
  pose proof (spawn_attempts "aether-system-core" [bc_manifest_dir (from_cmdline cmdline)]
    [("AETHER_CONTROL_PORT", pretty (bc_control_port (from_cmdline cmdline))); ("AETHER_BIND", "0.0.0.0")] w4 eq_refl) as Hc.
  destruct (spawn _ _ _ _) as [w5 core]. destruct Hc as [Hv5 Hl5]. cbn [fst snd] in *.
  rewrite bind_run in Hr.
  match type of Hr with context [(?m w5).1] => assert (silent m) as Hm by silent_split; destruct (Hm w5) as [Hl6 Hv6];
    assert (is_ok core = false → (m w5).2 = None) as Hcore by (destruct core; [done|intros _; by rewrite bind_run]);
    destruct (m w5) as [w6 core']; cbn [fst snd] in *; clear Hm end.
  rewrite bind_run in Hr. destruct (agentd_attempts w6) as [Hv7 [ok2 Hl7]]. destruct (spawn_agentd w6) as [w7 agentd].
  cbn [fst snd] in *. rewrite bind_run in Hr.
  destruct (graphical_attempts (bc_single_user (from_cmdline cmdline)) w7) as [Hv8 [ok3 Hl8]].
  destruct (spawn_graphical_shell _ w7) as [w8 gfx]. cbn [fst snd] in *.
  do 2 quiet_step Hr. subst r. exists (is_ok core), ok2, ok3. split; [|exact Hcore].
  unfold boot_services. cbn [mret I_ret fst]. repeat match goal with H : started (iw_log ?x) = _ |- context [started (iw_log ?x)] => rewrite H end.
  rewrite <- !app_assoc. cbn. congruence.
Qed.

(** ** The loop *)

Lemma round_without_core cfg c w : ch_core c = None →
  ∃ w' c', init_round cfg c w = (w', Some c') ∧ ch_core c' = None.
Proof.
  intros Hc. unfold init_round. rewrite Hc, bind_run. cbn [init_reap mret I_ret fst snd].
  rewrite !bind_run. by do 2 eexists.
Qed.

(** When the system core could not be started, the loop never ends and the machine
    is never halted. *)
Lemma no_core_never_halts rounds cfg c stage w : ch_core c = None → (init_loop rounds cfg c stage w).2 = false.
Proof.
  revert c w. induction rounds as [|rounds IH]; intros c w Hc; [done|]. cbn [init_loop].
  destruct (round_without_core cfg c w Hc) as (w' & c' & Hr & Hc'). unfold mbind at 1, I_bind at 1. rewrite Hr. by apply IH.
Qed.

(** C35: whatever the machine answers and however many rounds the loop runs, the first
    process tries, beside console shells, exactly three times to start a process, in
    this order: the system core, with the directory and the port of the kernel
    parameters the machine gave when they were read after the early part of the boot
    (the defaults when they could not be read), the agent daemon and the graphical
    shell, which gets the input devices in single-user mode only; all three in the
    environment of the process with PATH set to the four directories of the system.
    Each attempt is made once, whether the earlier ones and it itself succeed or not: no
    service is ever started again, not even when it exits.  The loop ends, which halts
    the machine, only when the system core could be started. *)
Theorem boot_starts_each_service_once rounds w : ∃ core agentd shell,
  started (iw_log (init_main rounds w).1) =
    started (iw_log w) ++ boot_services (kernel_cmdline w) (boot_vars w) core agentd shell ∧
  ((init_main rounds w).2 = true → core = true).
Proof.
  destruct (boot_starts w) as (core & agentd & shell & Hl & Hc). exists core, agentd, shell.
  unfold init_main. rewrite bind_run. destruct (boot w) as [w1 [[cfg c] stage]]. cbn [fst snd] in *.
  destruct (silent_loop rounds cfg c stage w1) as [-> _]. split; [done|].
  intros Hend. destruct core; [done|]. by rewrite no_core_never_halts in Hend by auto.
Qed.
End spawns.

(** ** The kernel parameters *)

Lemma parse_token_port c token : (bc_control_port c ≤ u16_max)%N → (bc_control_port (parse_token c token) ≤ u16_max)%N.
Proof.
  intros Hc. unfold parse_token. cbn zeta. repeat case_match; cbn; try done.
  by eapply parse_unsigned_bound.
Qed.

(** Whatever the command line holds, the port is one; without a parameter of Aether
    the defaults are used. *)
Theorem cmdline_port_bounded cmdline : (bc_control_port (from_cmdline cmdline) ≤ u16_max)%N.
Proof.
  unfold from_cmdline. destruct (list_first _ _) as [v|]; [|done]. unfold parse_param.
  assert (bc_control_port BootConfig_default ≤ u16_max)%N as H0 by done. revert H0. generalize BootConfig_default.
  induction (str_split "," v) as [|token l IH]; intros c Hc; [done|]. cbn. by apply IH, parse_token_port.
Qed.

Example cmdline_example :
  from_cmdline "console=ttyS0 aether=quiet,port=70000,manifests=/srv/units,port=4800 root=/dev/vda aether=single"
  = mkBootConfig "/srv/units" 4800 true false.
Proof. vm_compute. reflexivity. Qed.

(** ** Shutdown *)

(** A shutdown stops every service once and the system core last. *)
Theorem shutdown_plan_complete ids : shutdown_plan ids ≡ₚ ids ++ ["aether-system-core"] ∧
  last (shutdown_plan ids) = Some "aether-system-core".
Proof.
  unfold shutdown_plan. split; [|apply last_snoc]. rewrite reverse_Permutation. f_equiv. apply sort_by_perm.
Qed.
