(* ===== verification/Network.v ===== *)
(** * The network service

    Models network/aether-network/src: the types of lib.rs, the manager, the stub
    backend and the selection of a backend (manager.rs), the backend that reads
    /proc (proc.rs), and the line protocol of the daemon (main.rs), for a Linux
    target.  A backend reads an environment of type [E]; [None] is a panic, from a
    slice inside a character or an overflow. *)
From S2P Require Import Prelude RustStd Text Json.
From Stdlib Require Import Ascii.

(** ** lib.rs *)

Inductive InterfaceKind := IkLoopback | IkEthernet | IkWifi | IkBridge | IkTunnel | IkVirtual | IkUnknown.
Inductive InterfaceState := IsUp | IsDown | IsUnknown.
Inductive AddressFamily := AfV4 | AfV6.
Inductive ConnectivityStatus := CsFull | CsLimited | CsNone | CsUnknown.

#[export] Instance InterfaceKind_eq_dec : EqDecision InterfaceKind.
Proof. solve_decision. Defined.
#[export] Instance InterfaceState_eq_dec : EqDecision InterfaceState.
Proof. solve_decision. Defined.
#[export] Instance AddressFamily_eq_dec : EqDecision AddressFamily.
Proof. solve_decision. Defined.
#[export] Instance ConnectivityStatus_eq_dec : EqDecision ConnectivityStatus.
Proof. solve_decision. Defined.

Definition InterfaceKind_as_str (k : InterfaceKind) : string :=
  match k with
  | IkLoopback => "loopback" | IkEthernet => "ethernet" | IkWifi => "wifi" | IkBridge => "bridge"
  | IkTunnel => "tunnel" | IkVirtual => "virtual" | IkUnknown => "unknown"
  end.
Definition InterfaceState_as_str (s : InterfaceState) : string :=
  match s with IsUp => "up" | IsDown => "down" | IsUnknown => "unknown" end.
Definition AddressFamily_as_str (f : AddressFamily) : string := match f with AfV4 => "ipv4" | AfV6 => "ipv6" end.
Definition ConnectivityStatus_as_str (c : ConnectivityStatus) : string :=
  match c with CsFull => "full" | CsLimited => "limited" | CsNone => "none" | CsUnknown => "unknown" end.

Record Interface := mkInterface {
  if_name : string;
  if_kind : InterfaceKind;
  if_state : InterfaceState;
  if_mac_address : string;
  if_mtu : N;
  if_index : N;
}.

Definition is_up (i : Interface) : bool := match if_state i with IsUp => true | _ => false end.

Record Address := mkAddress {
  ad_interface : string;
  ad_family : AddressFamily;
  ad_address : string;
  ad_prefix_len : N;
  ad_scope : string;
}.

Record Route := mkRoute {
  ro_family : AddressFamily;
  ro_destination : string;
  ro_prefix_len : N;
  ro_gateway : string;
  ro_interface : string;
  ro_metric : N;
}.

Record DnsConfig := mkDnsConfig {
  dns_nameservers : list string;
  dns_search_domains : list string;
  dns_source : string;
}.

Definition DnsConfig_default : DnsConfig := mkDnsConfig [] [] "".
Definition DnsConfig_empty : DnsConfig := mkDnsConfig [] [] "empty".

Record InterfaceStats := mkInterfaceStats {
  st_interface : string;
  st_rx_bytes : N;
  st_tx_bytes : N;
  st_rx_packets : N;
  st_tx_packets : N;
  st_rx_errors : N;
  st_tx_errors : N;
  st_rx_dropped : N;
  st_tx_dropped : N;
}.

Inductive NetEvent :=
| LinkUp (name : string) | LinkDown (name : string)
| AddressAdded (a : Address) | AddressRemoved (a : Address) | DnsChanged.

Definition NetEvent_label (e : NetEvent) : string :=
  match e with
  | LinkUp _ => "link.up" | LinkDown _ => "link.down" | AddressAdded _ => "address.added"
  | AddressRemoved _ => "address.removed" | DnsChanged => "dns.changed"
  end.

Definition MAX_EVENTS : nat := 64.

Inductive NetworkError :=
| NeBackend (s : string) | NeNotFound (s : string) | NeParse (s : string) | NeIo (s : string).

Definition NetworkError_to_string (e : NetworkError) : string :=
  match e with
  | NeBackend s => "backend error: " +:+ s
  | NeNotFound s => "not found: " +:+ s
  | NeParse s => "parse error: " +:+ s
  | NeIo s => "i/o error: " +:+ s
  end.

Record NetworkStatus := mkNetworkStatus {
  ns_backend : string;
  ns_interface_count : N;
  ns_interfaces_up : N;
  ns_address_count : N;
  ns_route_count : N;
  ns_connectivity : ConnectivityStatus;
  ns_dns_source : string;
}.

(** ** Loading *)

(** A computation over the environment; [None] is a panic. *)
Definition Load (E A : Type) : Type := E → option (E * A).
#[export] Instance Load_ret E : MRet (Load E) := λ A a e, Some (e, a).
#[export] Instance Load_bind E : MBind (Load E) := λ A B f m e,
  match m e with Some (e, a) => f a e | None => None end.
Definition or_panic {E A} (o : option A) : Load E A := λ e, (λ a, (e, a)) <$> o.
Definition unwrap_or {A F} (d : A) (r : result A F) : A := match r with Ok a => a | Err _ => d end.

(** trait NetworkBackend. *)
Record NetworkBackend (E : Type) := mkNetworkBackend {
  backend_name : string;
  load_interfaces : Load E (result (list Interface) NetworkError);
  load_addresses : Load E (result (list Address) NetworkError);
  load_routes : Load E (result (list Route) NetworkError);
  load_dns : Load E (result DnsConfig NetworkError);
  load_stats : Load E (result (list InterfaceStats) NetworkError);
  load_events : Load E (result (list NetEvent) NetworkError);
}.
Arguments mkNetworkBackend {E}.
Arguments backend_name {E}.
Arguments load_interfaces {E}.
Arguments load_addresses {E}.
Arguments load_routes {E}.
Arguments load_dns {E}.
Arguments load_stats {E}.
Arguments load_events {E}.

Record Snapshot := mkSnapshot {
  sn_backend : string;
  sn_interfaces : list Interface;
  sn_addresses : list Address;
  sn_routes : list Route;
  sn_dns : DnsConfig;
  sn_stats : list InterfaceStats;
  sn_events : list NetEvent;
}.

Record NetworkManager (E : Type) := mkNetworkManager {
  nm_backend : NetworkBackend E;
  nm_snap : Snapshot;
}.
Arguments mkNetworkManager {E}.
Arguments nm_backend {E}.
Arguments nm_snap {E}.

(** ** manager.rs *)

Section manager.
Context {E : Type}.
Implicit Types (m : NetworkManager E) (b : NetworkBackend E).

Definition new_with_backend b : NetworkManager E :=
  mkNetworkManager b (mkSnapshot (backend_name b) [] [] [] DnsConfig_default [] []).

Definition push_event (events : list NetEvent) (ev : NetEvent) : list NetEvent :=
  (if (MAX_EVENTS <=? length events)%nat then tail events else events) ++ [ev].

Definition refresh m : Load E (NetworkManager E) :=
  let b := nm_backend m in
  interfaces ← load_interfaces b;
  addresses ← load_addresses b;
  routes ← load_routes b;
  dns ← load_dns b;
  stats ← load_stats b;
  new_events ← load_events b;
  mret (mkNetworkManager b
    (mkSnapshot (sn_backend (nm_snap m)) (unwrap_or [] interfaces) (unwrap_or [] addresses) (unwrap_or [] routes)
       (unwrap_or DnsConfig_empty dns) (unwrap_or [] stats)
       (foldl push_event (sn_events (nm_snap m)) (unwrap_or [] new_events)))).

Definition default_route (r : Route) : bool :=
  match ro_family r with
  | AfV4 => (ro_prefix_len r =? 0)%N && (ro_destination r =? "0.0.0.0")%string
  | AfV6 => false
  end.
Definition default_route6 (r : Route) : bool :=
  match ro_family r with
  | AfV6 => (ro_prefix_len r =? 0)%N && (ro_destination r =? "::")%string
  | AfV4 => false
  end.

Definition derive_connectivity (s : Snapshot) : ConnectivityStatus :=
  match sn_interfaces s with
  | [] => CsUnknown
  | _ =>
      let has_non_loopback_up := existsb (λ i, is_up i && bool_decide (if_kind i ≠ IkLoopback)) (sn_interfaces s) in
      let has_default_route := existsb default_route (sn_routes s) || existsb default_route6 (sn_routes s) in
      match has_non_loopback_up, has_default_route with
      | true, true => CsFull
      | true, false => CsLimited
      | false, _ => CsNone
      end
  end.

Definition status m : NetworkStatus :=
  let s := nm_snap m in
  mkNetworkStatus (sn_backend s) (N.of_nat (length (sn_interfaces s)))
    (N.of_nat (length (List.filter is_up (sn_interfaces s)))) (N.of_nat (length (sn_addresses s)))
    (N.of_nat (length (sn_routes s))) (derive_connectivity s) (dns_source (sn_dns s)).

Definition inspect m (name : string) : result Interface NetworkError :=
  match List.find (λ i, (if_name i =? name)%string) (sn_interfaces (nm_snap m)) with
  | Some i => Ok i
  | None => Err (NeNotFound name)
  end.

Definition connectivity m : ConnectivityStatus := derive_connectivity (nm_snap m).
End manager.

(** ** The stub *)

Record StubSeed := mkStubSeed {
  seed_interfaces : list Interface;
  seed_addresses : list Address;
  seed_routes : list Route;
  seed_dns : DnsConfig;
  seed_stats : list InterfaceStats;
  seed_events : list NetEvent;
}.

Definition StubSeed_canonical : StubSeed :=
  mkStubSeed
    [mkInterface "lo" IkLoopback IsUp "00:00:00:00:00:00" 65536 1;
     mkInterface "eth0" IkEthernet IsUp "02:42:ac:11:00:02" 1500 2]
    [mkAddress "lo" AfV4 "127.0.0.1" 8 "host"; mkAddress "lo" AfV6 "::1" 128 "host";
     mkAddress "eth0" AfV4 "10.0.2.15" 24 "global"; mkAddress "eth0" AfV6 "fe80::42:acff:fe11:2" 64 "link"]
    [mkRoute AfV4 "10.0.2.0" 24 "0.0.0.0" "eth0" 100; mkRoute AfV4 "0.0.0.0" 0 "10.0.2.2" "eth0" 100;
     mkRoute AfV6 "fe80::" 64 "::" "eth0" 256]
    (mkDnsConfig ["10.0.2.3"] ["aether.local"] "stub")
    [mkInterfaceStats "lo" 0 0 0 0 0 0 0 0; mkInterfaceStats "eth0" 1024 512 8 4 0 0 0 0]
    [].

Definition StubBackend {E} (seed : StubSeed) : NetworkBackend E :=
  mkNetworkBackend "stub" (mret (Ok (seed_interfaces seed))) (mret (Ok (seed_addresses seed)))
    (mret (Ok (seed_routes seed))) (mret (Ok (seed_dns seed))) (mret (Ok (seed_stats seed)))
    (mret (Ok (seed_events seed))).
Definition StubBackend_default_seed {E} : NetworkBackend E := StubBackend StubSeed_canonical.
Definition NetworkManager_default {E} : NetworkManager E := new_with_backend StubBackend_default_seed.

(** ** proc.rs: parsing *)

Definition kind_for (name : string) : InterfaceKind :=
  if (name =? "lo")%string then IkLoopback
  else if String.prefix "eth" name || String.prefix "en" name then IkEthernet
  else if String.prefix "wl" name then IkWifi
  else if String.prefix "br" name then IkBridge
  else if String.prefix "tun" name || String.prefix "wg" name then IkTunnel
  else if String.prefix "veth" name || String.prefix "docker" name then IkVirtual
  else IkUnknown.

(** A line of /proc/net/dev. *)
Definition net_dev_line (line : string) : option (string * InterfaceStats) :=
  '(name, rest) ← split_once ":" (str_trim line);
  let fields := split_whitespace rest in
  if (length fields <? 16)%nat then None
  else
    let parse i := default 0%N (fields !! i ≫= parse_unsigned u64_max) in
    let name := str_trim name in
    Some (name, mkInterfaceStats name (parse 0) (parse 8) (parse 1) (parse 9) (parse 2) (parse 10) (parse 3) (parse 11)).

Definition parse_proc_net_dev (content : string) : list (string * InterfaceStats) := omap net_dev_line (str_lines content).

Definition u8_max : N := 255.

(** The outer [None] is the panic of a slice, the inner one a byte that is not hexadecimal. *)
Definition hex_byte (from : nat) (hex : string) : option (option N) :=
  from_str_radix_16 u8_max <$> slice from (from + 2) hex.

Definition hex_to_ipv4 (hex : string) : option (option string) :=
  if negb (String.length hex =? 8)%nat then Some None
  else
    b0 ← hex_byte 0 hex;
    match b0 with None => Some None | Some b0 =>
    b1 ← hex_byte 2 hex;
    match b1 with None => Some None | Some b1 =>
    b2 ← hex_byte 4 hex;
    match b2 with None => Some None | Some b2 =>
    b3 ← hex_byte 6 hex;
    match b3 with None => Some None | Some b3 =>
    Some (Some (pretty b0 +:+ "." +:+ pretty b1 +:+ "." +:+ pretty b2 +:+ "." +:+ pretty b3))
    end end end end.

Definition hex32_to_ipv6 (hex : string) : option (option string) :=
  if negb (String.length hex =? 32)%nat then Some None
  else groups ← mapM (λ i, slice (i * 4) (i * 4 + 4) hex) (seq 0 8); Some (Some (str_join ":" groups)).

Fixpoint count_ones_go (fuel : nat) (n : N) : N :=
  match fuel with 0 => 0 | S fuel => (n mod 2 + count_ones_go fuel (n / 2))%N end.
(** [u8::count_ones]. *)
Definition count_ones (n : N) : N := count_ones_go 8 n.

Definition mask_to_prefix (mask : string) : N :=
  N.min 255 (foldl (λ count part, match parse_unsigned u8_max part with
                                  | Some n => N.min u32_max (count + count_ones n)
                                  | None => count
                                  end) 0%N (str_split "." mask)).

(** The routes of the lines from the [i]-th on; the first line is the header. *)
Fixpoint routes_from (i : nat) (lines : list string) : option (result (list Route) NetworkError) :=
  match lines with
  | [] => Some (Ok [])
  | line :: lines =>
      if (i =? 0)%nat then routes_from (S i) lines
      else
        let cols := split_whitespace line in
        if (length cols <? 11)%nat then routes_from (S i) lines
        else
          let col k := default EmptyString (cols !! k) in
          let bad what := Some (Err (NeParse ("bad " +:+ what +:+ " in route line " +:+ pretty i))) in
          destination ← hex_to_ipv4 (col 1);
          match destination with None => bad "destination" | Some destination =>
          gateway ← hex_to_ipv4 (col 2);
          match gateway with None => bad "gateway" | Some gateway =>
          mask ← hex_to_ipv4 (col 7);
          match mask with None => bad "mask" | Some mask =>
          let metric := default 0%N (parse_u32 (col 6)) in
          rest ← routes_from (S i) lines;
          Some (match rest with
                | Ok l => Ok (mkRoute AfV4 destination (mask_to_prefix mask) gateway (col 0) metric :: l)
                | Err e => Err e
                end)
          end end end
  end.
Definition parse_proc_net_route (content : string) : option (result (list Route) NetworkError) :=
  routes_from 0 (str_lines content).

Definition inet6_scope (code : N) : string :=
  match code with
  | 0%N => "global" | 16%N => "host" | 32%N => "link" | 64%N => "site" | 128%N => "global" | _ => "unknown"
  end.

(** A line of /proc/net/if_inet6: no address from a line that is too short or whose
    address has not 32 bytes. *)
Definition inet6_line (line : string) : option (option Address) :=
  let cols := split_whitespace line in
  if (length cols <? 6)%nat then Some None
  else
    let col k := default EmptyString (cols !! k) in
    let prefix_len := default 64%N (from_str_radix_16 u8_max (col 2)) in
    let scope_code := default 0%N (from_str_radix_16 u32_max (col 3)) in
    (λ addr : option string, (λ a, mkAddress (col 5) AfV6 a prefix_len (inet6_scope scope_code)) <$> addr)
      <$> hex32_to_ipv6 (col 0).

Definition parse_proc_net_if_inet6 (content : string) : option (list Address) :=
  l ← mapM inet6_line (str_lines content); Some (omap id l).

Definition resolv_line (d : DnsConfig) (line : string) : DnsConfig :=
  let line := str_trim line in
  if str_is_empty line || String.prefix "#" line then d
  else
    match strip_prefix "nameserver" line with
    | Some rest =>
        let ns := str_trim rest in
        if str_is_empty ns then d
        else mkDnsConfig (dns_nameservers d ++ [ns]) (dns_search_domains d) (dns_source d)
    | None =>
        match strip_prefix "search" line with
        | Some rest =>
            mkDnsConfig (dns_nameservers d) (dns_search_domains d ++ split_whitespace rest) (dns_source d)
        | None =>
            match strip_prefix "domain" line with
            | Some rest =>
                match split_whitespace rest with
                | domain :: _ => mkDnsConfig (dns_nameservers d) (dns_search_domains d ++ [domain]) (dns_source d)
                | [] => d
                end
            | None => d
            end
        end
    end.
Definition parse_resolv_conf (content : string) : DnsConfig :=
  foldl resolv_line (mkDnsConfig [] [] "resolv.conf") (str_lines content).

(** ** proc.rs: the backend *)

(** What the service uses of the system: [std::fs::read_to_string] and
    [std::fs::metadata], with the text of the error, an environment variable, and
    one line of output. *)
Class NetEnv (E : Type) := {
  env_read_to_string : string → E → E * result string string;
  env_metadata : string → E → E * bool;
  env_backend_var : E → E * option string;
  env_write_line : string → E → E * bool;
}.

Section proc.
Context {E : Type} `{!NetEnv E}.

Definition fs_read (path : string) : Load E (result string NetworkError) := λ e,
  let '(e, r) := env_read_to_string path e in Some (e, map_err NeIo r).

Definition proc_read (root rel : string) : Load E (result string NetworkError) :=
  fs_read (trim_end_by (Ascii.eqb "/") root +:+ "/" +:+ rel).

Definition proc_interface (i : nat) (x : string * InterfaceStats) : option Interface :=
  let '(name, stats) := x in
  packets ← u64_add (st_rx_packets stats) (st_tx_packets stats);
  Some (mkInterface name (kind_for name)
          (if (0 <? packets)%N || (name =? "lo")%string then IsUp else IsUnknown) "" 1500 (N.of_nat i + 1)).

Definition proc_load_interfaces (root : string) : Load E (result (list Interface) NetworkError) :=
  content ← proc_read root "net/dev";
  match content with
  | Err e => mret (Err e)
  | Ok content =>
      ifs ← or_panic (mapM (λ '(i, x), proc_interface i x)
                        (imap (λ i x, (i, x)) (parse_proc_net_dev content)));
      mret (Ok ifs)
  end.

Definition proc_load_addresses (root : string) : Load E (result (list Address) NetworkError) :=
  inet6 ← proc_read root "net/if_inet6";
  out ← match inet6 with
        | Ok content => or_panic (parse_proc_net_if_inet6 content)
        | Err _ => mret []
        end;
  dev ← proc_read root "net/dev";
  mret (Ok (out ++ match dev with
                   | Ok content =>
                       omap (λ '(name, _), if (name =? "lo")%string
                                           then Some (mkAddress name AfV4 "127.0.0.1" 8 "host") else None)
                         (parse_proc_net_dev content)
                   | Err _ => []
                   end)).

Definition proc_load_routes (root : string) : Load E (result (list Route) NetworkError) :=
  content ← proc_read root "net/route";
  match content with Err e => mret (Err e) | Ok content => or_panic (parse_proc_net_route content) end.

Definition proc_load_dns (root : string) : Load E (result DnsConfig NetworkError) :=
  content ← fs_read (trim_end_by (Ascii.eqb "/") root +:+ "/etc/resolv.conf");
  mret (match content with Err e => Err e | Ok content => Ok (parse_resolv_conf content) end).

Definition proc_load_stats (root : string) : Load E (result (list InterfaceStats) NetworkError) :=
  content ← proc_read root "net/dev";
  mret (match content with Err e => Err e | Ok content => Ok (snd <$> parse_proc_net_dev content) end).

Definition ProcBackend (root : string) : NetworkBackend E :=
  mkNetworkBackend "proc" (proc_load_interfaces root) (proc_load_addresses root) (proc_load_routes root)
    (proc_load_dns root) (proc_load_stats root) (mret (Ok [])).
Definition ProcBackend_new : NetworkBackend E := ProcBackend "/proc".

Definition auto_select : Load E (NetworkBackend E) := λ e,
  let '(e, found) := env_metadata "/proc/net/dev" e in
  Some (e, if (found : bool) then ProcBackend_new else StubBackend_default_seed).

Definition select_backend (selector : string) : Load E (NetworkBackend E) :=
  if (selector =? "stub")%string then mret StubBackend_default_seed
  else if (selector =? "proc")%string then mret ProcBackend_new
  else auto_select.
End proc.

(** ** main.rs *)

Section json.
Context {J : Type} `{!JsonOps J}.

(** The derived serializations. *)
Definition InterfaceKind_json (k : InterfaceKind) : J :=
  json_str match k with
           | IkLoopback => "Loopback" | IkEthernet => "Ethernet" | IkWifi => "Wifi" | IkBridge => "Bridge"
           | IkTunnel => "Tunnel" | IkVirtual => "Virtual" | IkUnknown => "Unknown"
           end.
Definition InterfaceState_json (s : InterfaceState) : J :=
  json_str match s with IsUp => "Up" | IsDown => "Down" | IsUnknown => "Unknown" end.
Definition AddressFamily_json (f : AddressFamily) : J := json_str match f with AfV4 => "V4" | AfV6 => "V6" end.
Definition ConnectivityStatus_json (c : ConnectivityStatus) : J :=
  json_str match c with CsFull => "Full" | CsLimited => "Limited" | CsNone => "None" | CsUnknown => "Unknown" end.
Definition Interface_json (i : Interface) : J :=
  json_obj [("name", json_str (if_name i)); ("kind", InterfaceKind_json (if_kind i));
            ("state", InterfaceState_json (if_state i)); ("mac_address", json_str (if_mac_address i));
            ("mtu", json_num (if_mtu i)); ("index", json_num (if_index i))].
Definition Address_json (a : Address) : J :=
  json_obj [("interface", json_str (ad_interface a)); ("family", AddressFamily_json (ad_family a));
            ("address", json_str (ad_address a)); ("prefix_len", json_num (ad_prefix_len a));
            ("scope", json_str (ad_scope a))].
Definition Route_json (r : Route) : J :=
  json_obj [("family", AddressFamily_json (ro_family r)); ("destination", json_str (ro_destination r));
            ("prefix_len", json_num (ro_prefix_len r)); ("gateway", json_str (ro_gateway r));
            ("interface", json_str (ro_interface r)); ("metric", json_num (ro_metric r))].
Definition DnsConfig_json (d : DnsConfig) : J :=
  json_obj [("nameservers", json_arr (json_str <$> dns_nameservers d));
            ("search_domains", json_arr (json_str <$> dns_search_domains d)); ("source", json_str (dns_source d))].
Definition InterfaceStats_json (s : InterfaceStats) : J :=
  json_obj [("interface", json_str (st_interface s)); ("rx_bytes", json_num (st_rx_bytes s));
            ("tx_bytes", json_num (st_tx_bytes s)); ("rx_packets", json_num (st_rx_packets s));
            ("tx_packets", json_num (st_tx_packets s)); ("rx_errors", json_num (st_rx_errors s));
            ("tx_errors", json_num (st_tx_errors s)); ("rx_dropped", json_num (st_rx_dropped s));
            ("tx_dropped", json_num (st_tx_dropped s))].
Definition NetEvent_json (e : NetEvent) : J :=
  match e with
  | LinkUp name => json_obj [("LinkUp", json_str name)]
  | LinkDown name => json_obj [("LinkDown", json_str name)]
  | AddressAdded a => json_obj [("AddressAdded", Address_json a)]
  | AddressRemoved a => json_obj [("AddressRemoved", Address_json a)]
  | DnsChanged => json_str "DnsChanged"
  end.
Definition NetworkStatus_json (s : NetworkStatus) : J :=
  json_obj [("backend", json_str (ns_backend s)); ("interface_count", json_num (ns_interface_count s));
            ("interfaces_up", json_num (ns_interfaces_up s)); ("address_count", json_num (ns_address_count s));
            ("route_count", json_num (ns_route_count s)); ("connectivity", ConnectivityStatus_json (ns_connectivity s));
            ("dns_source", json_str (ns_dns_source s))].

Definition net_ok (result : J) : J := json_obj [("ok", json_bool true); ("result", result)].
Definition net_error (error : string) : J := json_obj [("ok", json_bool false); ("error", json_str error)].

Context {E : Type} `{!NetEnv E}.

Definition net_dispatch (line : string) (m : NetworkManager E) : J :=
  let tokens := split_whitespace line in
  let cmd := default EmptyString (head tokens) in
  let cmd_is name := (cmd =? name)%string in
  let s := nm_snap m in
  if cmd_is "status" then net_ok (NetworkStatus_json (status m))
  else if cmd_is "interfaces" then net_ok (json_arr (Interface_json <$> sn_interfaces s))
  else if cmd_is "inspect" then
    match tokens !! 1 with
    | Some name =>
        match inspect m name with
        | Ok i => net_ok (Interface_json i)
        | Err e => net_error (NetworkError_to_string e)
        end
    | None => net_error "inspect requires an interface name"
    end
  else if cmd_is "addresses" then net_ok (json_arr (Address_json <$> sn_addresses s))
  else if cmd_is "routes" then net_ok (json_arr (Route_json <$> sn_routes s))
  else if cmd_is "dns" then net_ok (DnsConfig_json (sn_dns s))
  else if cmd_is "connectivity" then net_ok (ConnectivityStatus_json (connectivity m))
  else if cmd_is "stats" then net_ok (json_arr (InterfaceStats_json <$> sn_stats s))
  else if cmd_is "events" then net_ok (json_arr (NetEvent_json <$> sn_events s))
  else if cmd_is "help" || cmd_is "" then
    net_ok (json_str "status | interfaces | inspect <name> | addresses | routes | dns | connectivity | stats | events")
  else net_error ("unknown command '" +:+ cmd +:+ "'").

Definition backend_choice : Load E string := λ e,
  let '(e, v) := env_backend_var e in
  Some (e, match v with
           | Some "stub" => "stub"
           | Some "proc" => "proc"
           | _ => "auto"
           end).

(** The lines of the input up to the first that cannot be read, each with its answer;
    the loop ends when an answer cannot be written. *)
Fixpoint serve (lines : list (result string string)) (m : NetworkManager E) : Load E unit :=
  match lines with
  | Ok line :: lines => λ e,
      let '(e, written) := env_write_line (json_to_string (net_dispatch (str_trim line) m) +:+ String (ascii_of_nat 10) EmptyString) e in
      if (written : bool) then serve lines m e else Some (e, tt)
  | _ => mret tt
  end.

Definition net_main (lines : list (result string string)) : Load E unit :=
  choice ← backend_choice;
  backend ← select_backend choice;
  m ← refresh (new_with_backend backend);
  serve lines m.
End json.

(** * Properties of the network service *)

(** ** The log of events *)

Lemma push_event_suffix events ev : push_event (suffix_n MAX_EVENTS events) ev = suffix_n MAX_EVENTS (events ++ [ev]).
Proof.
  unfold push_event, suffix_n. rewrite length_drop, length_app. cbn [length]. destruct (Nat.leb_spec MAX_EVENTS (length events - (length events - MAX_EVENTS))).
  - rewrite drop_app_le by (unfold MAX_EVENTS in *; lia). f_equal.
    replace (length events + 1 - MAX_EVENTS) with (S (length events - MAX_EVENTS)) by (unfold MAX_EVENTS in *; lia).
    rewrite <-Nat.add_1_r, <-drop_drop. by destruct (drop (length events - MAX_EVENTS) events).
  - unfold MAX_EVENTS in *. replace (length events - 64) with 0 by lia. replace (length events + 1 - 64) with 0 by lia. done.
Qed.

Lemma push_events_suffix events l :
  foldl push_event (suffix_n MAX_EVENTS events) l = suffix_n MAX_EVENTS (events ++ l).
Proof.
  revert events. induction l as [|ev l IH]; intros events; cbn [foldl]; [by rewrite app_nil_r|].
  by rewrite push_event_suffix, IH, <-app_assoc.
Qed.

Section log.
Context {E : Type}.
Implicit Types (m : NetworkManager E) (b : NetworkBackend E).

(** The events that the backend reports during a refresh. *)
Definition reported b (e : E) : list NetEvent :=
  match (_ ← load_interfaces b; _ ← load_addresses b; _ ← load_routes b; _ ← load_dns b; _ ← load_stats b;
         load_events b) e with
  | Some (_, r) => unwrap_or [] r
  | None => []
  end.

(** The managers that refreshing in any environments leads to, with all events that
    were reported on the way. *)
Inductive refreshed b : NetworkManager E → list NetEvent → Prop :=
| refreshed_new : refreshed b (new_with_backend b) []
| refreshed_again m events e e' m' :
    refreshed b m events → refresh m e = Some (e', m') → refreshed b m' (events ++ reported (nm_backend m) e).

Lemma refresh_events m e e' m' : refresh m e = Some (e', m') →
  nm_backend m' = nm_backend m ∧ sn_backend (nm_snap m') = sn_backend (nm_snap m) ∧
  sn_events (nm_snap m') = foldl push_event (sn_events (nm_snap m)) (reported (nm_backend m) e).
Proof.
  unfold refresh, reported, mbind, Load_bind.
  destruct (load_interfaces _ e) as [[e1 r1]|]; [|done]. destruct (load_addresses _ e1) as [[e2 r2]|]; [|done].
  destruct (load_routes _ e2) as [[e3 r3]|]; [|done]. destruct (load_dns _ e3) as [[e4 r4]|]; [|done].
  destruct (load_stats _ e4) as [[e5 r5]|]; [|done]. destruct (load_events _ e5) as [[e6 r6]|]; [|done].
  cbn. by intros [= <- <-].
Qed.

(** After any refreshes, whatever the backend answers, the manager still has its
    backend and the log holds the last 64 of all the events that were reported, in
    their order. *)
Theorem network_log_exact b m events : refreshed b m events →
  nm_backend m = b ∧ sn_backend (nm_snap m) = backend_name b ∧
  sn_events (nm_snap m) = suffix_n MAX_EVENTS events ∧ length (sn_events (nm_snap m)) ≤ MAX_EVENTS.
Proof.
  intros Hm. enough (nm_backend m = b ∧ sn_backend (nm_snap m) = backend_name b ∧
    sn_events (nm_snap m) = suffix_n MAX_EVENTS events) as (? & ? & Hl).
  { split_and!; [done..|]. rewrite Hl. rewrite length_suffix_n. lia. }
  induction Hm as [|m events e e' m' _ (Hb & Hn & Hl) Hr]; [done|].
  apply refresh_events in Hr as (-> & -> & ->). split_and!; [done..|]. by rewrite Hl, push_events_suffix.
Qed.
End log.

Lemma network_log_exact_witness : ∃ m : NetworkManager unit,
  sn_events (nm_snap m) = [LinkUp "eth0"; DnsChanged; LinkUp "eth0"; DnsChanged].
Proof.
  set (b := StubBackend (E := unit) (mkStubSeed [] [] [] DnsConfig_empty [] [LinkUp "eth0"; DnsChanged])).
  destruct (refresh (new_with_backend b) tt) as [[[] m1]|] eqn:E1; [|done].
  destruct (refresh m1 tt) as [[[] m2]|] eqn:E2; [|by injection E1 as <-].
  pose proof (refreshed_again b _ _ _ _ _ (refreshed_again b _ _ _ _ _ (refreshed_new b) E1) E2) as Hr.
  exists m2. destruct (network_log_exact b m2 _ Hr) as (_ & _ & -> & _). by injection E1 as <-.
Defined.

(** ** Connectivity *)

Definition usable (s : Snapshot) : Prop :=
  ∃ i, i ∈ sn_interfaces s ∧ if_state i = IsUp ∧ if_kind i ≠ IkLoopback.
Definition routed (s : Snapshot) : Prop :=
  ∃ r, r ∈ sn_routes s ∧ ro_prefix_len r = 0%N ∧
    ro_destination r = match ro_family r with AfV4 => "0.0.0.0" | AfV6 => "::" end.

Lemma usable_spec s :
  existsb (λ i, is_up i && bool_decide (if_kind i ≠ IkLoopback)) (sn_interfaces s) = true ↔ usable s.
Proof.
  rewrite existsb_exists. unfold usable, is_up. split; intros (i & Hi%list_elem_of_In & Hx); exists i; (split; [done|]).
  - apply andb_true_iff in Hx as [Hu Hk%bool_decide_eq_true]. by destruct (if_state i).
  - destruct Hx as [-> Hk]. by rewrite bool_decide_true.
Qed.

Lemma routed_spec s : existsb default_route (sn_routes s) || existsb default_route6 (sn_routes s) = true ↔ routed s.
Proof.
  rewrite orb_true_iff, !existsb_exists. unfold routed, default_route, default_route6. split.
  - intros [(r & Hi%list_elem_of_In & Hx)|(r & Hi%list_elem_of_In & Hx)]; exists r; (split; [done|]);
      destruct (ro_family r); try done; by apply andb_true_iff in Hx as [?%N.eqb_eq ?%String.eqb_eq].
  - intros (r & Hi%list_elem_of_In & Hp & Hd). destruct (ro_family r) eqn:Ef; [left|right]; exists r;
      by rewrite Ef, Hp, Hd.
Qed.

(** The verdict is unknown without interfaces, full with a default route and an
    interface other than the loopback that is up, limited with such an interface
    only, and none otherwise. *)
Theorem connectivity_exact s :
  match derive_connectivity s with
  | CsUnknown => sn_interfaces s = []
  | CsNone => sn_interfaces s ≠ [] ∧ ¬ usable s
  | CsLimited => usable s ∧ ¬ routed s
  | CsFull => usable s ∧ routed s
  end.
Proof.
  unfold derive_connectivity. pose proof (usable_spec s) as Hu. pose proof (routed_spec s) as Hr.
  destruct (sn_interfaces s) as [|i0 l] eqn:Ei; [done|]. rewrite <-Ei in Hu. rewrite <-Ei.
  destruct (existsb _ (sn_interfaces s)); [|rewrite Ei; naive_solver]. destruct (_ || _); naive_solver.
Qed.

(** ** The routing table *)

(** An address of four bytes, as the table has it and as it is shown. *)
Definition hex4 (b : list N) : string := foldr (λ n s, hex_fixed 2 n +:+ s) EmptyString b.
Definition dotted (b : list N) : string := str_join "." (pretty <$> b).

(** A decidable claim about the numbers below a bound, by evaluation. *)
Lemma below (P : N → Prop) `{∀ n, Decision (P n)} (bound : N) :
  bool_decide (Forall (λ k, P (N.of_nat k)) (seq 0 (N.to_nat bound))) = true → ∀ n, (n < bound)%N → P n.
Proof.
  intros Hall%bool_decide_eq_true n Hn. rewrite Forall_forall in Hall. rewrite <-(N2Nat.id n). apply Hall, elem_of_seq. lia.
Qed.

Lemma hex2_parse n : (n < 256)%N → from_str_radix_16 u8_max (hex_fixed 2 n) = Some n.
Proof.
  apply (below (λ k, from_str_radix_16 u8_max (hex_fixed 2 k) = Some k) 256). by vm_compute.
Qed.

Lemma hex2_chars n : ∃ c d, hex_fixed 2 n = String c (String d EmptyString) ∧
  starts_char c = true ∧ starts_char d = true.
Proof.
  assert (∀ m, starts_char (hex_char (m mod 16)) = true) as Hs; [|do 2 eexists; split; [reflexivity|split; apply Hs]].
  intros m. assert (m mod 16 < 16)%N as Hm by (apply N.mod_lt; done). revert Hm. generalize (m mod 16)%N. intros k Hk.
  revert k Hk. apply (below _ 16). by vm_compute.
Qed.

(** Four bytes in hexadecimal are read as the address, in the order they stand. *)
Lemma hex_to_ipv4_bytes a b c d : (a < 256)%N → (b < 256)%N → (c < 256)%N → (d < 256)%N →
  hex_to_ipv4 (hex4 [a; b; c; d]) = Some (Some (dotted [a; b; c; d])).
Proof.
  intros Ha%hex2_parse Hb%hex2_parse Hc%hex2_parse Hd%hex2_parse. unfold hex4. cbn [foldr].
  destruct (hex2_chars a) as (a1 & a2 & Ea & Sa1 & Sa2). destruct (hex2_chars b) as (b1 & b2 & Eb & Sb1 & Sb2).
  destruct (hex2_chars c) as (c1 & c2 & Ec & Sc1 & Sc2). destruct (hex2_chars d) as (d1 & d2 & Ed & Sd1 & Sd2).
  rewrite Ea, Eb, Ec, Ed in *. rewrite !str_app_cons, !str_app_empty. set (s := String a1 (String a2 (String b1 _))).
  assert (slice 0 2 s = Some (String a1 (String a2 EmptyString)) ∧ slice 2 4 s = Some (String b1 (String b2 EmptyString)) ∧
    slice 4 6 s = Some (String c1 (String c2 EmptyString)) ∧ slice 6 8 s = Some (String d1 (String d2 EmptyString)))
    as (H0 & H2 & H4 & H6).
  { unfold slice, is_char_boundary. split_and!; cbv -[starts_char]; by rewrite ?Sa1, ?Sb1, ?Sc1, ?Sd1. }
  assert (hex_byte 0 s = Some (Some a) ∧ hex_byte 2 s = Some (Some b) ∧ hex_byte 4 s = Some (Some c) ∧
    hex_byte 6 s = Some (Some d)) as (K0 & K2 & K4 & K6).
  { unfold hex_byte. cbn [Nat.add]. rewrite H0, H2, H4, H6. cbn [fmap option_fmap option_map]. by rewrite Ha, Hb, Hc, Hd. }
  unfold hex_to_ipv4. change (String.length s =? 8)%nat with true. cbn [negb].
  rewrite K0. cbn [mbind option_bind]. rewrite K2. cbn [mbind option_bind]. rewrite K4. cbn [mbind option_bind].
  rewrite K6. cbn [mbind option_bind]. unfold dotted. cbn [fmap list_fmap str_join foldl].
  by repeat (rewrite str_app_assoc || rewrite str_app_cons || rewrite str_app_empty).
Qed.

(** The mask of a prefix, and how long a prefix its bytes have. *)
Definition mask_bytes (n : N) : list N :=
  (λ k, (256 - 2 ^ (8 - N.min 8 (n - 8 * k)))%N) <$> [0; 1; 2; 3]%N.

Lemma mask_to_prefix_mask n : (n < 33)%N → mask_to_prefix (dotted (mask_bytes n)) = n.
Proof. apply (below (λ n, mask_to_prefix (dotted (mask_bytes n)) = n) 33). by vm_compute. Qed.

Record Entry := mkEntry {
  en_iface : string;
  en_destination : list N;
  en_gateway : list N;
  en_flags : string;
  en_refcnt : string;
  en_use : string;
  en_metric : N;
  en_prefix : N;
  en_rest : list string;
}.

Definition is_address (b : list N) : Prop := length b = 4 ∧ Forall (λ n, (n < 256)%N) b.

Definition entry_wf (en : Entry) : Prop :=
  Forall is_word ([en_iface en; en_flags en; en_refcnt en; en_use en] ++ en_rest en) ∧
  is_address (en_destination en) ∧ is_address (en_gateway en) ∧
  (en_metric en ≤ u32_max)%N ∧ (en_prefix en < 33)%N ∧ 3 ≤ length (en_rest en).

Definition TAB : ascii := ascii_of_nat 9.

(** The columns of an entry, and the line they are on. *)
Definition entry_cols (en : Entry) : list string :=
  en_iface en :: hex4 (en_destination en) :: hex4 (en_gateway en) :: en_flags en :: en_refcnt en :: en_use en ::
  pretty (en_metric en) :: hex4 (mask_bytes (en_prefix en)) :: en_rest en.
Definition entry_line (en : Entry) : string := str_join (String TAB EmptyString) (entry_cols en).

Definition entry_route (en : Entry) : Route :=
  mkRoute AfV4 (dotted (en_destination en)) (en_prefix en) (dotted (en_gateway en)) (en_iface en) (en_metric en).

Lemma hex_to_ipv4_address b : is_address b → hex_to_ipv4 (hex4 b) = Some (Some (dotted b)).
Proof.
  intros [Hl Hb]. destruct b as [|a1 [|a2 [|a3 [|a4 [|]]]]]; try done.
  repeat (apply Forall_cons in Hb as [? Hb]). by apply hex_to_ipv4_bytes.
Qed.

Lemma mask_is_address n : (n < 33)%N → is_address (mask_bytes n).
Proof.
  intros Hn. split; [done|]. revert n Hn. apply (below (λ n, Forall (λ k, (k < 256)%N) (mask_bytes n)) 33). by vm_compute.
Qed.

Lemma lower_hex_graphic c : is_lower_hex c = true → graphic c = true.
Proof. destruct c as [[] [] [] [] [] [] [] []]; by vm_compute. Qed.

Lemma hex4_word b : is_address b → is_word (hex4 b).
Proof.
  intros [Hl Hb]. destruct b as [|a1 [|a2 [|a3 [|a4 [|]]]]]; try done. split; [done|].
  generalize [a1; a2; a3; a4]. clear. intros l. induction l as [|n l IH]; [done|]. unfold hex4 in *. cbn [foldr].
  rewrite str_all_app, IH, andb_true_r. eapply str_all_impl; [|apply (hex_fixed_lower 2 n)]. apply lower_hex_graphic.
Qed.

Lemma digit_graphic c : is_ascii_digit c = true → graphic c = true.
Proof. destruct c as [[] [] [] [] [] [] [] []]; by vm_compute. Qed.

Lemma pretty_word (n : N) : is_word (pretty n).
Proof.
  split; [destruct (pretty_N_nonempty n) as (c & s & -> & _); done|].
  eapply str_all_impl; [|apply (pretty_N_digits n)]. apply digit_graphic.
Qed.

Lemma entry_split en : entry_wf en → split_whitespace (entry_line en) = entry_cols en.
Proof.
  intros (Hw & Hd & Hg & _ & Hp & _). repeat (apply Forall_cons in Hw as [? Hw]). unfold entry_line, entry_cols.
  apply split_words; [done..|]. repeat (apply Forall_cons; split; try done);
    auto using hex4_word, pretty_word, mask_is_address.
Qed.

Lemma join_line ws : Forall is_word ws → is_line (str_join (String TAB EmptyString) ws).
Proof.
  assert (∀ w, str_all graphic w = true → str_all (λ c, negb (Ascii.eqb c (ascii_of_nat 13)) && char_ne (ascii_of_nat 10) c) w = true) as Hg.
  { intros w. apply str_all_impl. intros c. destruct c as [[] [] [] [] [] [] [] []]; by vm_compute. }
  intros Hws. enough (str_all (λ c, negb (Ascii.eqb c (ascii_of_nat 13)) && char_ne (ascii_of_nat 10) c)
                        (str_join (String TAB EmptyString) ws) = true) as Hall.
  { split; (eapply str_all_impl; [|exact Hall]); intros c; rewrite andb_true_iff; naive_solver. }
  destruct ws as [|w ws]; [done|]. revert w Hws. induction ws as [|v ws IH]; intros w [[_ Hw] Hws]%Forall_cons; [by apply Hg|].
  rewrite str_join_cons, !str_all_app, Hg, IH by done. done.
Qed.

(** The lines of a routing table are read back: a table of well-formed entries under
    any header gives exactly their routes, with the prefix of each mask. *)
Theorem route_table_roundtrip header entries : is_line header → Forall entry_wf entries →
  parse_proc_net_route (foldr (λ l s, l +:+ LF +:+ s) EmptyString (header :: (entry_line <$> entries))) =
    Some (Ok (entry_route <$> entries)).
Proof.
  intros Hh Hen. unfold parse_proc_net_route. rewrite str_lines_concat.
  2:{ constructor; [done|]. apply Forall_fmap. eapply Forall_impl; [exact Hen|]. intros en (Hw & Hd & Hg & _ & Hp & _).
      apply join_line. unfold entry_cols. repeat (apply Forall_cons in Hw as [? Hw]).
      repeat (apply Forall_cons; split; try done); auto using hex4_word, pretty_word, mask_is_address. }
  cbn [routes_from Nat.eqb]. generalize 0 as i. induction Hen as [|en entries Hen _ IH]; intros i; [done|].
  cbn [fmap list_fmap routes_from Nat.eqb]. rewrite entry_split by done. destruct Hen as (Hw & Hd & Hg & Hm & Hp & Hr).
  unfold entry_cols at 1. cbn [length]. rewrite (proj2 (Nat.ltb_ge _ _)) by lia.
  unfold entry_cols. cbn [lookup list_lookup default from_option id].
  rewrite !hex_to_ipv4_address by auto using mask_is_address. cbn [mbind option_bind]. rewrite IH. cbn [mbind option_bind].
  rewrite mask_to_prefix_mask, parse_u32_pretty by done. done.
Qed.

Lemma route_table_roundtrip_witness :
  parse_proc_net_route ("Iface Destination Gateway Flags RefCnt Use Metric Mask MTU Window IRTT" +:+ LF +:+
    (entry_line (mkEntry "eth0" [0; 0; 0; 0]%N [10; 0; 2; 2]%N "0003" "0" "0" 100 0 ["0"; "0"; "0"]) +:+ LF +:+ EmptyString)) =
  Some (Ok [mkRoute AfV4 "0.0.0.0" 0 "10.0.2.2" "eth0" 100]).
Proof.
  apply (route_table_roundtrip "Iface Destination Gateway Flags RefCnt Use Metric Mask MTU Window IRTT"
           [mkEntry "eth0" [0; 0; 0; 0]%N [10; 0; 2; 2]%N "0003" "0" "0" 100 0 ["0"; "0"; "0"]]); [by split|].
  constructor; [|constructor]. unfold entry_wf, is_address. cbn -[is_word]. split_and!; try done; try lia; repeat constructor; done.
Defined.

(** A column of eight bytes in which a character stands across two of them ends the
    service. *)
Example split_character_panics : hex_to_ipv4 ("0" +:+ String (ascii_of_nat 195) (String (ascii_of_nat 169) "00000")) = None.
Proof. reflexivity. Qed.

(** The backend of the running system looks for the resolvers below /proc. *)
Theorem resolvers_sought_below_proc {E} `{!NetEnv E} (e : E) :
  load_dns ProcBackend_new e =
    let '(e, r) := env_read_to_string "/proc/etc/resolv.conf" e in
    Some (e, match r with Ok content => Ok (parse_resolv_conf content) | Err x => Err (NeIo x) end).
Proof.
  cbn. unfold proc_load_dns, fs_read, mbind, Load_bind. change (_ +:+ _) with "/proc/etc/resolv.conf".
  by destruct (env_read_to_string _ e) as [e' []].
Qed.
