(* ===== verification/Proactive.v ===== *)
(** * The proactive daemon

    Models services/aether-proactive/src/lib.rs (probe, thresholds, classification,
    sinks and the tick of the daemon over the background agent) and
    src/bin/proactived.rs (arguments, the probe over the control plane, the sink
    that sends to it, and the loop).  A [BTreeMap] is iterated in the order of its
    keys.  The exchange with the control plane is the class [PeerEnv]. *)
From S2P Require Import Prelude RustStd Text CoreTypes TaskGraph AgentCore Json Diagnostics Automation.
From Stdlib Require Import Ascii.

(** ** lib.rs: the probe *)

Record SystemProbe := mkSystemProbe {
  sp_storage_percent : gmap string N;
  sp_network_reachable : option bool;
  sp_memory_percent : option N;
  sp_process_cpu : gmap N N;
  sp_process_memory_mib : gmap N N;
}.

Definition SystemProbe_default : SystemProbe := mkSystemProbe ∅ None None ∅ ∅.

Definition probe_is_empty (p : SystemProbe) : bool :=
  bool_decide (sp_storage_percent p = ∅) && bool_decide (sp_network_reachable p = None) &&
  bool_decide (sp_memory_percent p = None) && bool_decide (sp_process_cpu p = ∅) &&
  bool_decide (sp_process_memory_mib p = ∅).

Record Thresholds := mkThresholds {
  th_storage_warning_pct : N;
  th_storage_critical_pct : N;
  th_memory_warning_pct : N;
  th_process_cpu_warning_pct : N;
  th_process_memory_warning_mib : N;
}.

Definition Thresholds_default : Thresholds := mkThresholds 85 95 85 80 2048.

(** The entries of a [BTreeMap], in the order of the keys. *)
Definition entries_by_name (m : gmap string N) : list (string * N) := sort_by fst (map_to_list m).
Definition entries_by_pid (m : gmap N N) : list (N * N) := sort_with (λ x y, (x.1 <=? y.1)%N) (map_to_list m).

Section classify.
Context {J : Type} `{!JsonOps J}.
Implicit Types (t : Thresholds) (o : Observation J).

Definition observed (id component summary : string) (severity : ObservationSeverity) (now_ms : N)
    (detail : string) (data : option J) : option (Observation J) :=
  o ← Observation_new id component summary severity now_ms;
  let o := Observation_with_detail detail o in
  Some match data with Some d => Observation_with_data d o | None => o end.

Definition storage_observation t (now_ms : N) (x : string * N) : option (Observation J) :=
  let '(mount, pct) := x in
  let severity := if (th_storage_critical_pct t <=? pct)%N then SevCritical
                  else if (th_storage_warning_pct t <=? pct)%N then SevWarning
                  else SevInfo in
  match severity with
  | SevInfo => None
  | _ =>
      observed ("obs-storage-" +:+ mount) "storage" ("Mount `" +:+ mount +:+ "` is " +:+ pretty pct +:+ "% full") severity now_ms
        ("Storage on `" +:+ mount +:+ "` is at " +:+ pretty pct +:+ "% of capacity (warning at " +:+
         pretty (th_storage_warning_pct t) +:+ "%, critical at " +:+ pretty (th_storage_critical_pct t) +:+ "%).")
        (Some (json_obj [("mount", json_str mount); ("percent", json_num pct)]))
  end.

Definition network_observation (now_ms : N) (reachable : option bool) : option (Observation J) :=
  match reachable with
  | Some false =>
      observed "obs-network-unreachable" "network" "Network is unreachable" SevWarning now_ms
        "The system cannot reach the network. Check the active interface and the routing table." None
  | _ => None
  end.

Definition memory_observation t (now_ms : N) (percent : option N) : option (Observation J) :=
  pct ← percent;
  if (th_memory_warning_pct t <=? pct)%N then
    observed "obs-memory-pressure" "memory" ("Memory is " +:+ pretty pct +:+ "% in use")
      (if (95 <=? pct)%N then SevCritical else SevWarning) now_ms
      ("Resident memory is at " +:+ pretty pct +:+ "% (warning at " +:+ pretty (th_memory_warning_pct t) +:+
       "%). A future proposal may suggest dropping the page cache or closing heavy applications.")
      (Some (json_obj [("percent", json_num pct)]))
  else None.

Definition cpu_observation t (now_ms : N) (x : N * N) : option (Observation J) :=
  let '(pid, cpu) := x in
  if (th_process_cpu_warning_pct t <=? cpu)%N then
    observed ("obs-process-cpu-" +:+ pretty pid) "process"
      ("Process " +:+ pretty pid +:+ " is using " +:+ pretty cpu +:+ "% CPU") SevWarning now_ms
      ("Process " +:+ pretty pid +:+ " is using " +:+ pretty cpu +:+ "% CPU. The agent may propose to throttle or restart it.")
      (Some (json_obj [("pid", json_num pid); ("percent", json_num cpu)]))
  else None.

Definition rss_observation t (now_ms : N) (x : N * N) : option (Observation J) :=
  let '(pid, mib) := x in
  if (th_process_memory_warning_mib t <=? mib)%N then
    observed ("obs-process-memory-" +:+ pretty pid) "process"
      ("Process " +:+ pretty pid +:+ " is using " +:+ pretty mib +:+ " MiB") SevWarning now_ms
      ("Process " +:+ pretty pid +:+ " is using " +:+ pretty mib +:+ " MiB of resident memory (warning at " +:+
       pretty (th_process_memory_warning_mib t) +:+ " MiB). The agent may propose to restart it.")
      (Some (json_obj [("pid", json_num pid); ("mib", json_num mib)]))
  else None.

Definition classify_to_observations (p : SystemProbe) t (now_ms : N) : list (Observation J) :=
  omap (storage_observation t now_ms) (entries_by_name (sp_storage_percent p)) ++
  option_list (network_observation now_ms (sp_network_reachable p)) ++
  option_list (memory_observation t now_ms (sp_memory_percent p)) ++
  omap (cpu_observation t now_ms) (entries_by_pid (sp_process_cpu p)) ++
  omap (rss_observation t now_ms) (entries_by_pid (sp_process_memory_mib p)).

(** 0.8 as the nearest [f32]. *)
Definition f32_0_80 : f32 := SpecFloat.S754_finite false 13421773 (-24).

Definition observation_event o : AgentEvent :=
  let value := match obs_severity o with
               | SevInfo => f32_zero | SevNotice => f32_half | SevWarning => f32_0_80 | SevCritical => f32_0_95
               end in
  EvSignalUpdate (Signal_new SubOther (obs_id o) value (obs_summary o)).
Definition observations_to_events (l : list (Observation J)) : list AgentEvent := observation_event <$> l.
End classify.

(** ** lib.rs: sinks and the tick *)

(** trait ObservationSink. *)
Class ObservationSink (J S : Type) := {
  submit_observation : Observation J → S → S;
  submit_actions : list (ActionItem J) → S → S;
  tick_started : N → S → S;
  tick_finished : N → nat → nat → S → S;
}.

Record InMemorySink {J : Type} := mkInMemorySink {
  ims_observations : list (Observation J);
  ims_actions : list (ActionItem J);
  ims_started : N;
  ims_finished : N;
}.
Arguments InMemorySink J : clear implicits.
Arguments mkInMemorySink {J}.

Definition InMemorySink_default {J} : InMemorySink J := mkInMemorySink [] [] 0 0.

#[export] Instance InMemorySink_sink J : ObservationSink J (InMemorySink J) := {|
  submit_observation o s := mkInMemorySink (ims_observations s ++ [o]) (ims_actions s) (ims_started s) (ims_finished s);
  submit_actions l s := mkInMemorySink (ims_observations s) (ims_actions s ++ l) (ims_started s) (ims_finished s);
  tick_started _ s :=
    mkInMemorySink (ims_observations s) (ims_actions s) (N.min u32_max (ims_started s + 1)) (ims_finished s);
  tick_finished _ _ _ s :=
    mkInMemorySink (ims_observations s) (ims_actions s) (ims_started s) (N.min u32_max (ims_finished s + 1));
|}.

Record DaemonLoop := mkDaemonLoop { dl_state : BackgroundState; dl_thresholds : Thresholds }.

Definition with_thresholds (t : Thresholds) : DaemonLoop := mkDaemonLoop default_state t.
Definition DaemonLoop_new : DaemonLoop := with_thresholds Thresholds_default.

Record TickResult := mkTickResult { tr_observations : nat; tr_actions : nat }.

Section tick.
Context {J S : Type} `{!JsonOps J} `{!ObservationSink J S}.

Definition loop_tick (p : SystemProbe) (now_ms : N) (d : DaemonLoop) (sink : S) : DaemonLoop * S * TickResult :=
  let sink := tick_started now_ms sink in
  let observations :=
    if probe_is_empty p then [] else classify_to_observations (J := J) p (dl_thresholds d) now_ms in
  let sink := foldl (λ s o, submit_observation o s) sink observations in
  let '(state, items) := tick (J := J) now_ms (observations_to_events observations) (dl_state d) in
  let sink := match items with [] => sink | _ => submit_actions items sink end in
  let result := mkTickResult (length observations) (length items) in
  (mkDaemonLoop state (dl_thresholds d), tick_finished (J := J) now_ms (tr_observations result) (tr_actions result) sink, result).
End tick.

(** ** proactived.rs: the arguments *)

Definition DEFAULT_CONTROL_PLANE : string := "127.0.0.1:4747".
Definition DEFAULT_TICK_MS : N := 5000.

Record Cli := mkCli { cli_control_plane : string; cli_tick_ms : N; cli_now_ms : N; cli_once : bool }.

(** What the arguments lead to: the help ends the process. *)
Inductive Parsed := PdCli (c : Cli) | PdHelp | PdUsage (e : string).

(** The text of a [ParseIntError] is the argument [parse_error]. *)
Fixpoint parse_flags (parse_error : string → string) (args : list string) (c : Cli) : Parsed :=
  match args with
  | [] => PdCli c
  | "--control-plane" :: rest =>
      match rest with
      | v :: args => parse_flags parse_error args (mkCli v (cli_tick_ms c) (cli_now_ms c) (cli_once c))
      | [] => PdUsage "--control-plane requires a value"
      end
  | "--tick-ms" :: rest =>
      match rest with
      | v :: args =>
          match parse_unsigned u64_max v with
          | Some n => parse_flags parse_error args (mkCli (cli_control_plane c) n (cli_now_ms c) (cli_once c))
          | None => PdUsage ("invalid --tick-ms: " +:+ parse_error v)
          end
      | [] => PdUsage "--tick-ms requires a value"
      end
  | "--now-ms" :: rest =>
      match rest with
      | v :: args =>
          match parse_unsigned u64_max v with
          | Some n => parse_flags parse_error args (mkCli (cli_control_plane c) (cli_tick_ms c) n (cli_once c))
          | None => PdUsage ("invalid --now-ms: " +:+ parse_error v)
          end
      | [] => PdUsage "--now-ms requires a value"
      end
  | "--once" :: args => parse_flags parse_error args (mkCli (cli_control_plane c) (cli_tick_ms c) (cli_now_ms c) true)
  | "-h" :: _ | "--help" :: _ => PdHelp
  | other :: _ => PdUsage ("unknown argument: " +:+ other)
  end.

(** The first argument is the name of the program. *)
Definition parse_args (parse_error : string → string) (now_ms : N) (args : list string) : Parsed :=
  parse_flags parse_error (tail args) (mkCli DEFAULT_CONTROL_PLANE DEFAULT_TICK_MS now_ms false).

(** [str::rsplit_once] at a colon. *)
Fixpoint rsplit_colon (s : string) : option (string * string) :=
  match s with
  | EmptyString => None
  | String c s =>
      match rsplit_colon s with
      | Some (a, b) => Some (String c a, b)
      | None => if Ascii.eqb c ":" then Some (EmptyString, s) else None
      end
  end.

Definition parse_endpoint (parse_error : string → string) (endpoint : string) : result (string * N) string :=
  match rsplit_colon endpoint with
  | None => Err ("invalid endpoint: " +:+ endpoint)
  | Some (host, port) =>
      match parse_unsigned u16_max port with
      | Some n => Ok (host, n)
      | None => Err ("invalid port: " +:+ parse_error port)
      end
  end.

(** ** proactived.rs: the control plane *)

Inductive PeerError := PeConnect (e : string) | PeTimeout (e : string) | PeSend (e : string) | PeRecv (e : string).

(** Connecting to a host and port, sending a line and reading one. *)
Class PeerEnv (E : Type) := {
  peer_exchange : string → N → string → E → E * result string PeerError;
  peer_parse_error : string → string;
}.

(** What the daemon prints; [to_err] tells the error output. *)
Record Printed := mkPrinted { to_err : bool; pr_line : string }.

Record IpcSink {E J : Type} := mkIpcSink {
  is_endpoint : string;
  is_env : E;
  is_sent : list (string * J);
  is_out : list Printed;
}.
Arguments IpcSink E J : clear implicits.
Arguments mkIpcSink {E J}.

Section ipc.
Context {E J : Type} `{!PeerEnv E} `{!JsonOps J} `{!JsonParse J}.
Implicit Types (s : IpcSink E J).

Definition IpcSink_new (endpoint : string) (e : E) : IpcSink E J := mkIpcSink endpoint e [] [].

Definition say (to_err : bool) (line : string) s : IpcSink E J :=
  mkIpcSink (is_endpoint s) (is_env s) (is_sent s) (is_out s ++ [mkPrinted to_err line]).

(** The requests that were begun to be sent are kept, with their commands. *)
Definition rpc (command : string) (parameters : J) s : IpcSink E J * result J string :=
  match parse_endpoint peer_parse_error (is_endpoint s) with
  | Err e => (s, Err e)
  | Ok (host, port) =>
      let req := json_obj [("service_id", json_str "aether-proactive"); ("command", json_str command);
                           ("parameters", parameters)] in
      let '(e, r) := peer_exchange host port (json_to_string req +:+ LF) (is_env s) in
      let s := mkIpcSink (is_endpoint s) e (is_sent s ++ [(command, parameters)]) (is_out s) in
      (s, match r with
          | Err (PeConnect e) => Err ("connect " +:+ is_endpoint s +:+ ": " +:+ e)
          | Err (PeTimeout e) => Err ("read timeout: " +:+ e)
          | Err (PeSend e) => Err ("send: " +:+ e)
          | Err (PeRecv e) => Err ("recv: " +:+ e)
          | Ok line =>
              if str_is_empty line then Err "empty response"
              else
                match json_from_str (str_trim line) with
                | Err e => Err ("decode: " +:+ e)
                | Ok value =>
                    match json_get value "error" with
                    | Some err => Err ("rpc error: " +:+ json_to_string err)
                    | None => Ok (default (json_obj []) (json_get value "result"))
                    end
                end
          end)
  end.

Definition get_u64 (v : J) (key : string) : option N := json_get v key ≫= json_as_u64.

Definition probe_mount (m : gmap string N) (mount : J) : gmap string N :=
  match json_get mount "mount" ≫= json_as_str, get_u64 mount "percent" with
  | Some name, Some percent => <[name := N.min percent 100]> m
  | _, _ => m
  end.

Definition probe_process (ms : gmap N N * gmap N N) (p : J) : gmap N N * gmap N N :=
  match get_u64 p "pid" with
  | None => ms
  | Some pid =>
      let pid := (pid mod 2 ^ 32)%N in
      let cpu := match get_u64 p "cpu_percent" with Some cpu => <[pid := N.min cpu 100]> ms.1 | None => ms.1 end in
      let mem := match get_u64 p "rss_mib" with Some mib => <[pid := mib]> ms.2 | None => ms.2 end in
      (cpu, mem)
  end.

(** A field that is not there keeps its default; the [Err] of the source is never
    returned. *)
Definition probe_system s : IpcSink E J * SystemProbe :=
  let '(s, info) := rpc "system.info" (json_obj []) s in
  let memory := match info with Ok v => (λ n, N.min n 100) <$> get_u64 v "memory_percent" | Err _ => None end in
  let '(s, storage) := rpc "storage.status" (json_obj []) s in
  let mounts := match storage with
                | Ok v => foldl probe_mount ∅ (default [] (json_get v "mounts" ≫= json_as_array))
                | Err _ => ∅
                end in
  let '(s, network) := rpc "network.status" (json_obj []) s in
  let reachable := match network with Ok v => json_get v "reachable" ≫= json_as_bool | Err _ => None end in
  let '(s, processes) := rpc "process.list" (json_obj []) s in
  let '(cpu, mem) := match processes with
                     | Ok v => foldl probe_process (∅, ∅) (default [] (json_get v "processes" ≫= json_as_array))
                     | Err _ => (∅, ∅)
                     end in
  (s, mkSystemProbe mounts reachable memory cpu mem).

Definition json_option {A} (f : A → J) (o : option A) : J := from_option f json_null o.
(** The derived serialization of an observation. *)
Definition Observation_json (o : Observation J) : J :=
  json_obj [("id", json_str (obs_id o)); ("component", json_str (obs_component o)); ("summary", json_str (obs_summary o));
            ("detail", json_option json_str (obs_detail o)); ("severity", json_str (ObservationSeverity_as_str (obs_severity o)));
            ("timestamp_ms", json_num (obs_timestamp_ms o)); ("data", json_option id (obs_data o))].
Definition TaskRisk_json (r : TaskRisk) : J :=
  json_str match r with RiskLow => "low" | RiskMedium => "medium" | RiskHigh => "high" | RiskCritical => "critical" end.

Definition ipc_submit_observation (o : Observation J) s : IpcSink E J :=
  let '(s, r) := rpc "agent.observe" (json_obj [("observation", Observation_json o)]) s in
  match r with
  | Err e => say true ("proactived: submit_observation failed: " +:+ e) s
  | Ok _ => s
  end.

Definition ipc_submit_action s (i : ActionItem J) : IpcSink E J :=
  let '(s, r) := rpc "agent.propose"
    (json_obj [("title", json_str (ai_title i)); ("description", json_str (ai_description i)); ("payload", ai_payload i);
               ("risk", TaskRisk_json (ai_task_risk i)); ("requires_consent", json_bool (ai_requires_consent i))]) s in
  match r with
  | Err e => say true ("proactived: submit_actions failed: " +:+ e) s
  | Ok _ => s
  end.

#[export] Instance IpcSink_sink : ObservationSink J (IpcSink E J) := {|
  submit_observation := ipc_submit_observation;
  submit_actions l s := foldl ipc_submit_action s l;
  tick_started now_ms s := say false ("aether-proactived: tick_started now_ms=" +:+ pretty now_ms) s;
  tick_finished now_ms observations actions s :=
    say false ("aether-proactived: tick_finished now_ms=" +:+ pretty now_ms +:+ " observations=" +:+ pretty observations +:+
               " actions=" +:+ pretty actions) s;
|}.

Definition print_tick_result (r : TickResult) s : IpcSink E J :=
  say false ("aether-proactived: tick: observations=" +:+ pretty (tr_observations r) +:+ " actions=" +:+ pretty (tr_actions r)) s.

(** One round: a probe and a tick at the time of the start. *)
Definition proactive_round (c : Cli) (ds : DaemonLoop * IpcSink E J) : DaemonLoop * IpcSink E J :=
  let '(d, s) := ds in
  let '(s, p) := probe_system s in
  let '(d, s, r) := loop_tick (J := J) p (cli_now_ms c) d s in
  (d, print_tick_result r s).

(** The loop never ends by itself; it is cut after [rounds].  [None] is the exit with
    status 2, and the help. *)
Definition proactived_main (rounds : nat) (now_ms : N) (args : list string) (e : E) : option (DaemonLoop * IpcSink E J) :=
  match parse_args peer_parse_error now_ms args with
  | PdCli c =>
      let start := (DaemonLoop_new, IpcSink_new (cli_control_plane c) e) in
      if cli_once c then Some (proactive_round c start)
      else
        let '(d, s) := start in
        let s := say false ("aether-proactived: control_plane=" +:+ cli_control_plane c +:+ " tick_ms=" +:+
                            pretty (cli_tick_ms c) +:+ " now_ms=" +:+ pretty (cli_now_ms c)) s in
        Some (Nat.iter rounds (proactive_round c) (d, s))
  | _ => None
  end.
End ipc.

(** * Properties of the proactive daemon *)

(** ** Classification *)

Section classification.
Context {J : Type} `{!JsonOps J}.
Implicit Types (t : Thresholds) (o : Observation J).

Lemma observed_fields id component summary severity now detail data o :
  observed (J := J) id component summary severity now detail data = Some o →
  obs_id o = id ∧ obs_severity o = severity ∧ obs_timestamp_ms o = now.
Proof.
  unfold observed. intros (o0 & Hn & [= <-])%bind_Some. unfold Observation_new in Hn. destruct (_ || _ || _); [done|].
  injection Hn as <-. by destruct data.
Qed.

Lemma observed_Some id component summary severity now detail data : id ≠ "" → component ≠ "" → summary ≠ "" →
  ∃ o, observed (J := J) id component summary severity now detail data = Some o.
Proof.
  intros Hi%str_is_empty_false Hc%str_is_empty_false Hs%str_is_empty_false. unfold observed, Observation_new.
  rewrite Hi, Hc, Hs. cbn. by eexists.
Qed.

(** The observations of a loop over entries with different keys have different ids. *)
Lemma omap_ids {A K} `{EqDecision K} (f : A → option (Observation J)) (key : A → K) (name : K → string) l :
  (∀ x o, f x = Some o → obs_id o = name (key x)) → (∀ a b, name a = name b → a = b) → NoDup (key <$> l) →
  NoDup (obs_id <$> omap f l).
Proof.
  intros Hf Hinj. induction l as [|x l IH]; cbn; [constructor|]. intros [Hni Hnd]%NoDup_cons.
  destruct (f x) as [o|] eqn:Ex; [|by apply IH]. cbn. constructor; [|by apply IH]. intros Hin. apply Hni.
  apply list_elem_of_fmap in Hin as (o' & Eid & Hin). apply list_elem_of_omap in Hin as (x' & Hx' & Ex').
  apply list_elem_of_fmap. exists x'. split; [|done]. apply Hinj. rewrite <-(Hf _ _ Ex), <-(Hf _ _ Ex'). done.
Qed.

Lemma by_name_nodup (m : gmap string N) : NoDup (fst <$> entries_by_name m).
Proof. unfold entries_by_name. rewrite sort_by_perm. apply NoDup_fst_map_to_list. Qed.
Lemma by_pid_nodup (m : gmap N N) : NoDup (fst <$> entries_by_pid m).
Proof. unfold entries_by_pid. rewrite sort_with_perm. apply NoDup_fst_map_to_list. Qed.
Lemma by_name_elem (m : gmap string N) k v : (k, v) ∈ entries_by_name m ↔ m !! k = Some v.
Proof. unfold entries_by_name. rewrite sort_by_perm. apply elem_of_map_to_list. Qed.
Lemma by_pid_elem (m : gmap N N) k v : (k, v) ∈ entries_by_pid m ↔ m !! k = Some v.
Proof. unfold entries_by_pid. rewrite sort_with_perm. apply elem_of_map_to_list. Qed.

(** What an observation is about. *)
Inductive Concern := CoMount (m : string) | CoNetwork | CoMemory | CoCpu (pid : N) | CoRss (pid : N).

Definition concern_id (c : Concern) : string :=
  match c with
  | CoMount m => "obs-storage-" +:+ m
  | CoNetwork => "obs-network-unreachable"
  | CoMemory => "obs-memory-pressure"
  | CoCpu pid => "obs-process-cpu-" +:+ pretty pid
  | CoRss pid => "obs-process-memory-" +:+ pretty pid
  end.

(** When it is made, and how severe it is. *)
Definition concern_severity (p : SystemProbe) t (c : Concern) : option ObservationSeverity :=
  match c with
  | CoMount m => pct ← sp_storage_percent p !! m;
      if (th_storage_critical_pct t <=? pct)%N then Some SevCritical
      else if (th_storage_warning_pct t <=? pct)%N then Some SevWarning else None
  | CoNetwork => if bool_decide (sp_network_reachable p = Some false) then Some SevWarning else None
  | CoMemory => pct ← sp_memory_percent p;
      if (th_memory_warning_pct t <=? pct)%N then Some (if (95 <=? pct)%N then SevCritical else SevWarning) else None
  | CoCpu pid => cpu ← sp_process_cpu p !! pid;
      if (th_process_cpu_warning_pct t <=? cpu)%N then Some SevWarning else None
  | CoRss pid => mib ← sp_process_memory_mib p !! pid;
      if (th_process_memory_warning_mib t <=? mib)%N then Some SevWarning else None
  end.

Definition view o : string * ObservationSeverity := (obs_id o, obs_severity o).

Lemma observed_view id component summary severity now detail data : id ≠ "" → component ≠ "" → summary ≠ "" →
  view <$> observed (J := J) id component summary severity now detail data = Some (id, severity).
Proof.
  intros Hi Hc Hs. destruct (observed_Some id component summary severity now detail data) as [o Ho]; [done..|].
  rewrite Ho. cbn. unfold view. by destruct (observed_fields _ _ _ _ _ _ _ _ Ho) as (-> & -> & _).
Qed.

Lemma storage_view t now m pct : view <$> storage_observation t now (m, pct) =
  (λ s, (concern_id (CoMount m), s)) <$>
    (if (th_storage_critical_pct t <=? pct)%N then Some SevCritical
     else if (th_storage_warning_pct t <=? pct)%N then Some SevWarning else None).
Proof.
  unfold storage_observation. destruct (_ <=? pct)%N; [by apply observed_view|].
  destruct (_ <=? pct)%N; [by apply observed_view|done].
Qed.

Lemma network_view now r : view <$> network_observation now r =
  (λ s, (concern_id CoNetwork, s)) <$> (if bool_decide (r = Some false) then Some SevWarning else None).
Proof. destruct r as [[]|]; [done|by apply observed_view|done]. Qed.

Lemma memory_view t now percent : view <$> memory_observation t now percent =
  (λ s, (concern_id CoMemory, s)) <$> (pct ← percent;
    if (th_memory_warning_pct t <=? pct)%N then Some (if (95 <=? pct)%N then SevCritical else SevWarning) else None).
Proof. destruct percent as [pct|]; [|done]. cbn. destruct (_ <=? pct)%N; [by apply observed_view|done]. Qed.

Lemma cpu_view t now pid cpu : view <$> cpu_observation t now (pid, cpu) =
  (λ s, (concern_id (CoCpu pid), s)) <$> (if (th_process_cpu_warning_pct t <=? cpu)%N then Some SevWarning else None).
Proof. unfold cpu_observation. destruct (_ <=? cpu)%N; [by apply observed_view|done]. Qed.

Lemma rss_view t now pid mib : view <$> rss_observation t now (pid, mib) =
  (λ s, (concern_id (CoRss pid), s)) <$> (if (th_process_memory_warning_mib t <=? mib)%N then Some SevWarning else None).
Proof. unfold rss_observation. destruct (_ <=? mib)%N; [by apply observed_view|done]. Qed.

(** The views of a loop over the entries of a map, from the view of each. *)
Lemma entries_view {K} (f : K * N → option (Observation J)) (name : K → Concern) (sev : N → option ObservationSeverity)
    (l : list (K * N)) (look : K → option N) y :
  (∀ k v, view <$> f (k, v) = (λ s, (concern_id (name k), s)) <$> sev v) → (∀ k v, (k, v) ∈ l ↔ look k = Some v) →
  y ∈ view <$> omap f l ↔ ∃ k s, y = (concern_id (name k), s) ∧ look k ≫= sev = Some s.
Proof.
  intros Hf Hl. rewrite list_elem_of_fmap. split.
  - intros (o & -> & Ho). apply list_elem_of_omap in Ho as ([k v] & Hx%Hl & Ex). specialize (Hf k v). rewrite Ex in Hf.
    symmetry in Hf. apply fmap_Some in Hf as (s & Es & Ev). exists k, s. by rewrite Hx.
  - intros (k & s & -> & (v & Hv & Es)%bind_Some). specialize (Hf k v). rewrite Es in Hf. apply fmap_Some in Hf as (o & Eo & Ev).
    exists o. split; [done|]. apply list_elem_of_omap. exists (k, v). by rewrite Hl.
Qed.

Lemma option_view (o : option (Observation J)) g y : view <$> o = g → y ∈ view <$> option_list o ↔ g = Some y.
Proof.
  intros <-. destruct o as [o|]; cbn; [|split; [intros H; by apply elem_of_nil in H|done]].
  rewrite list_elem_of_singleton. naive_solver.
Qed.

Lemma classify_view p t now y : y ∈ view <$> classify_to_observations p t now ↔
  ∃ c s, y = (concern_id c, s) ∧ concern_severity p t c = Some s.
Proof.
  unfold classify_to_observations. rewrite !fmap_app, !elem_of_app.
  rewrite (entries_view _ CoMount _ _ _ _ (storage_view t now) (by_name_elem _)).
  rewrite (entries_view _ CoCpu _ _ _ _ (cpu_view t now) (by_pid_elem _)).
  rewrite (entries_view _ CoRss _ _ _ _ (rss_view t now) (by_pid_elem _)).
  rewrite (option_view _ _ _ (network_view now _)), (option_view _ _ _ (memory_view t now _)). split.
  - intros [(k & s & -> & Hs)|[(s & Hs & ->)%fmap_Some|[(s & Hs & ->)%fmap_Some|[(k & s & -> & Hs)|(k & s & -> & Hs)]]]];
      [exists (CoMount k)|exists CoNetwork|exists CoMemory|exists (CoCpu k)|exists (CoRss k)]; by exists s.
  - intros ([m| | |pid|pid] & s & -> & Hs); cbn [concern_severity] in Hs;
      [left|right; left|right; right; left|do 3 right; left|do 4 right]; try (by eauto); by rewrite Hs.
Qed.

(** Ids of different concerns differ. *)
Lemma concern_id_inj c d : concern_id c = concern_id d → c = d.
Proof. destruct c, d; cbn; intros E; simplify_eq; done. Qed.

Lemma view_id {K} (f : K * N → option (Observation J)) (name : K → Concern) (sev : N → option ObservationSeverity) :
  (∀ k v, view <$> f (k, v) = (λ s, (concern_id (name k), s)) <$> sev v) →
  ∀ x o, f x = Some o → obs_id o = concern_id (name x.1).
Proof.
  intros Hf [k v] o Eo. specialize (Hf k v). rewrite Eo in Hf. symmetry in Hf. apply fmap_Some in Hf as (s & _ & [= -> _]). done.
Qed.

Lemma entries_part {K} `{EqDecision K} (f : K * N → option (Observation J)) (name : K → Concern) sev (l : list (K * N)) :
  (∀ k v, view <$> f (k, v) = (λ s, (concern_id (name k), s)) <$> sev v) → (∀ a b, name a = name b → a = b) →
  NoDup (fst <$> l) →
  NoDup (obs_id <$> omap f l) ∧ ∀ x, x ∈ obs_id <$> omap f l → ∃ k, x = concern_id (name k).
Proof.
  intros Hf Hinj Hl. pose proof (view_id f name sev Hf) as Hid. split.
  - apply (omap_ids f fst (λ k, concern_id (name k))); [done| |done]. intros a b E%concern_id_inj. by apply Hinj.
  - intros x (o & -> & Ho)%list_elem_of_fmap. apply list_elem_of_omap in Ho as ([k v] & _ & Eo). exists k. by apply (Hid (k, v)).
Qed.

Lemma option_part (o : option (Observation J)) c g : view <$> o = (λ s, (concern_id c, s)) <$> g →
  NoDup (obs_id <$> option_list o) ∧ ∀ x, x ∈ obs_id <$> option_list o → x = concern_id c.
Proof.
  destruct o as [o|]; cbn; [|intros _; split; [constructor|intros x Hx; by apply elem_of_nil in Hx]].
  intros Hg. symmetry in Hg. apply fmap_Some in Hg as (s & _ & [= Hid _]). split; [apply NoDup_singleton|].
  by intros x ->%list_elem_of_singleton.
Qed.

(** C34: The observations of a probe have different ids, and they are exactly one for
    every mount, process and resource whose value reaches its threshold, with the
    severity of that threshold. *)
Theorem probe_classified_exactly p t now :
  NoDup (obs_id <$> classify_to_observations (J := J) p t now) ∧
  ∀ id severity, (∃ o, o ∈ classify_to_observations (J := J) p t now ∧ obs_id o = id ∧ obs_severity o = severity) ↔
    ∃ c, id = concern_id c ∧ concern_severity p t c = Some severity.
Proof.
  split.
  2:{ intros id severity. transitivity ((id, severity) ∈ view <$> classify_to_observations (J := J) p t now).
      - rewrite list_elem_of_fmap. unfold view. naive_solver.
      - rewrite classify_view. naive_solver. }
  unfold classify_to_observations. rewrite !fmap_app.
  destruct (entries_part _ CoMount _ _ (storage_view t now) ltac:(by intros ?? [= ->]) (by_name_nodup (sp_storage_percent p))) as [N1 P1].
  destruct (option_part _ CoNetwork _ (network_view now (sp_network_reachable p))) as [N2 P2].
  destruct (option_part _ CoMemory _ (memory_view t now (sp_memory_percent p))) as [N3 P3].
  destruct (entries_part _ CoCpu _ _ (cpu_view t now) ltac:(by intros ?? [= ->]) (by_pid_nodup (sp_process_cpu p))) as [N4 P4].
  destruct (entries_part _ CoRss _ _ (rss_view t now) ltac:(by intros ?? [= ->]) (by_pid_nodup (sp_process_memory_mib p))) as [N5 P5].
  repeat (apply NoDup_app; split_and!; try done); intros x Hx; rewrite ?elem_of_app; intros Hy;
    repeat match goal with H : _ ∨ _ |- _ => destruct H as [H|H] end;
    repeat match goal with
           | P : ∀ y, y ∈ ?l → _, Hin : ?z ∈ ?l |- _ => apply P in Hin
           end; destruct_and?; naive_solver (eauto using concern_id_inj).
Qed.
End classification.

(** ** What the daemon proposes *)

(** A background agent whose log holds only signals of observations, under the
    default rules. *)
Definition only_observations (s : BackgroundState) : Prop :=
  dr_rules (bs_report s) = default_rules ∧
  Forall (λ x, String.prefix "obs-" (sig_tag x) = true) (dr_signals (bs_report s)).

Section proposals.
Context {J : Type} `{!JsonOps J}.

Lemma concern_prefix c : String.prefix "obs-" (concern_id c) = true.
Proof. by destruct c. Qed.

Lemma suffix_n_Forall {A} (P : A → Prop) n l : Forall P l → Forall P (suffix_n n l).
Proof. apply Forall_drop. Qed.

Lemma ingest_observations (l : list (Observation J)) now s :
  Forall (λ o, String.prefix "obs-" (obs_id o) = true) l → only_observations s →
  let '(s', q) := handle_events (J := J) now (observations_to_events l) s in q = [] ∧ only_observations s'.
Proof.
  intros Hl. revert s. induction Hl as [|o l Ho _ IH]; intros s [Hr Hs]; cbn; [done|].
  specialize (IH (set_report (ingest (Signal_new SubOther (obs_id o)
     match obs_severity o with SevInfo => f32_zero | SevNotice => f32_half | SevWarning => f32_0_80 | SevCritical => f32_0_95 end
     (obs_summary o)) (bs_report s)) s)).
  destruct (handle_events _ _ _) as [s' q]. cbn. apply IH. split; [done|]. cbn. rewrite push_bounded_spec.
  apply suffix_n_Forall, Forall_app. split; [done|]. by apply Forall_singleton.
Qed.

Lemma no_symptoms s : only_observations s → dr_symptoms (evaluate_report (bs_report s)) = [].
Proof.
  intros [Hr Hs]. unfold evaluate_report. cbn. rewrite Hr.
  assert (∀ tag, String.prefix "obs-" tag = false → ∀ x, x ∈ dr_signals (bs_report s) → sig_tag x ≠ tag) as Hne.
  { intros tag Htag x Hx. rewrite Forall_forall in Hs. apply Hs in Hx. congruence. }
  assert (∀ sub tag th id sev, String.prefix "obs-" tag = false →
    rule_matches (AboveThreshold sub tag th id sev) (dr_signals (bs_report s)) = None) as Habove.
  { intros sub tag th id sev Htag. cbn. rewrite (proj2 (find_b_None _ _)); [done|]. intros x Hx.
    rewrite (bool_decide_false (sig_tag x = tag)) by by apply Hne. apply andb_false_r. }
  assert (∀ tag, String.prefix "obs-" tag = false →
    existsb (λ x, bool_decide (sig_tag x = tag) && is_alarming x) (dr_signals (bs_report s)) = false) as Hany.
  { intros tag Htag. apply not_true_iff_false. intros (x & Hx%list_elem_of_In & Ha)%existsb_exists.
    apply andb_true_iff in Ha as [Ha%bool_decide_eq_true _]. by eapply Hne. }
  unfold default_rules. cbn -[rule_matches]. rewrite !Habove by done. cbn. rewrite !Hany by done. done.
Qed.

(** No tick of the background agent on observations has an item. *)
Lemma observations_plan_nothing (l : list (Observation J)) now s :
  Forall (λ o, String.prefix "obs-" (obs_id o) = true) l → only_observations s →
  let '(s', q) := tick (J := J) now (observations_to_events l) s in q = [] ∧ only_observations s'.
Proof.
  intros Hl Hs. unfold tick. pose proof (ingest_observations l now s Hl Hs) as Hi.
  destruct (handle_events now _ s) as [s1 q]. destruct Hi as [-> Hi].
  cbn [bs_report set_report bs_recovery bs_planned_symptoms]. rewrite (no_symptoms s1 Hi). split; [done|]. exact Hi.
Qed.

Lemma classified_prefix p t now : Forall (λ o, String.prefix "obs-" (obs_id o) = true) (classify_to_observations (J := J) p t now).
Proof.
  apply Forall_forall. intros o Ho. apply (list_elem_of_fmap_2 view) in Ho. rewrite classify_view in Ho.
  destruct Ho as (c & s & [= -> _] & _). apply concern_prefix.
Qed.

Definition probe_observations (t : Thresholds) (x : SystemProbe * N) : list (Observation J) :=
  if probe_is_empty x.1 then [] else classify_to_observations x.1 t x.2.

Context {S : Type} `{!ObservationSink J S}.

(** One tick tells the sink of its observations, and of nothing else. *)
Lemma tick_observes p now d (sink : S) : only_observations (dl_state d) →
  ∃ d', only_observations (dl_state d') ∧ dl_thresholds d' = dl_thresholds d ∧
    let l := probe_observations (dl_thresholds d) (p, now) in
    loop_tick (J := J) p now d sink =
      (d', tick_finished (J := J) now (length l) 0
             (foldl (λ s o, submit_observation o s) (tick_started (J := J) now sink) l), mkTickResult (length l) 0).
Proof.
  intros Hd. unfold loop_tick, probe_observations. cbn [fst snd]. set (l := if probe_is_empty p then _ else _).
  assert (Forall (λ o, String.prefix "obs-" (obs_id o) = true) l) as Hl.
  { unfold l. destruct (probe_is_empty p); [constructor|apply classified_prefix]. }
  pose proof (observations_plan_nothing l now (dl_state d) Hl Hd) as Ht.
  destruct (tick now (observations_to_events l) (dl_state d)) as [s' q]. destruct Ht as [-> Hs'].
  exists (mkDaemonLoop s' (dl_thresholds d)). done.
Qed.
End proposals.

(** The daemon proposes nothing: over any probes, however bad, and under any
    thresholds, a sink receives the observations of all of them in order and no action
    item at all, since no rule of the diagnostics is about an observation. *)
Theorem proactive_proposes_nothing {J} `{!JsonOps J} t probes :
  let '(_, sink) := foldl (λ '(d, s) x, (loop_tick (J := J) x.1 x.2 d s).1)
                      (with_thresholds t, InMemorySink_default (J := J)) probes in
  ims_actions sink = [] ∧ ims_observations sink = probes ≫= probe_observations t.
Proof.
  assert (∀ d (s : InMemorySink J), only_observations (dl_state d) → dl_thresholds d = t →
    let '(_, s') := foldl (λ '(d, s) x, (loop_tick (J := J) x.1 x.2 d s).1) (d, s) probes in
    ims_actions s' = ims_actions s ∧ ims_observations s' = ims_observations s ++ (probes ≫= probe_observations t)) as Hrun.
  { induction probes as [|[p now] probes IH]; intros d s Hd Ht; cbn [foldl]; [by rewrite app_nil_r|].
    destruct (tick_observes (J := J) p now d s Hd) as (d' & Hd' & Ht' & Ex). cbn [fst snd]. rewrite Ex. cbn [fst]. rewrite Ht in *.
    assert (∀ l (s : InMemorySink J), let s' := foldl (λ s o, submit_observation o s) s l in
      ims_actions s' = ims_actions s ∧ ims_observations s' = ims_observations s ++ l) as Hsub.
    { clear. cbv zeta. induction l as [|o l IH]; intros s; cbn [foldl]; [by rewrite app_nil_r|].
      destruct (IH (submit_observation o s)) as [-> ->]. cbn. by rewrite <-app_assoc. }
    specialize (IH d' (tick_finished (J := J) now (length (probe_observations t (p, now))) 0
             (foldl (λ s o, submit_observation o s) (tick_started (J := J) now s) (probe_observations t (p, now)))) Hd' Ht').
    destruct (foldl _ _ probes) as [d2 s2]. destruct IH as [-> ->].
    cbn [tick_finished InMemorySink_sink ims_actions ims_observations].
    destruct (Hsub (probe_observations t (p, now)) (tick_started (J := J) now s)) as [-> ->].
    cbn [mbind list_bind tick_started InMemorySink_sink ims_actions ims_observations]. by rewrite <-app_assoc. }
  specialize (Hrun (with_thresholds t) InMemorySink_default). destruct (foldl _ _ probes) as [d s].
  apply Hrun; [|done]. split; [done|constructor].
Qed.

(** ** The daemon on the control plane *)

(** The derived serialization of the answers of the system core: the error is always
    there, null when there is none. *)
Definition IpcResponse_json {J} `{!JsonOps J} (r : IpcResponse J) : J :=
  json_obj [("ok", json_bool (resp_ok r)); ("command", json_str (resp_command r)); ("result", resp_result r);
            ("error", from_option (λ e, json_obj [("code", json_str (ipc_code e)); ("message", json_str (ipc_message e))])
                        json_null (resp_error r))].

Definition probe_commands : list string := ["system.info"; "storage.status"; "network.status"; "process.list"].

Section plane.
Context {E J : Type} `{!PeerEnv E} `{!JsonOps J} `{!JsonParse J} `{!JsonLaws J}.
(** The peer answers as the system core does, if at all. *)
Hypothesis peer_is_core : ∀ host port text (e : E) e' line, peer_exchange host port text e = (e', Ok line) →
  ∃ r : IpcResponse J, json_from_str (str_trim line) = Ok (IpcResponse_json r).

Lemma rpc_fails command parameters (s : IpcSink E J) : ∃ e err sent, rpc command parameters s =
  (mkIpcSink (is_endpoint s) e (is_sent s ++ sent) (is_out s), Err err) ∧ Forall (λ x, x.1 = command) sent.
Proof.
  unfold rpc. destruct (parse_endpoint _ _) as [[host port]|e]; [|exists (is_env s), e, []; rewrite app_nil_r; by destruct s].
  destruct (peer_exchange _ _ _ _) as [e' r] eqn:Ex. exists e'. destruct r as [line|[]]; cbn [is_endpoint];
    try (do 2 eexists; split; [reflexivity|by repeat constructor]).
  destruct (str_is_empty line); [do 2 eexists; split; [reflexivity|by repeat constructor]|].
  destruct (peer_is_core _ _ _ _ _ _ Ex) as [r ->].
  assert (is_Some (json_get (IpcResponse_json r) "error")) as [err ->].
  { unfold IpcResponse_json. eexists. apply json_get_obj; [apply (bool_decide_unpack _); by vm_compute|].
    do 3 (apply elem_of_cons; right). apply elem_of_cons; by left. }
  do 2 eexists; split; [reflexivity|by repeat constructor].
Qed.

Lemma probe_blind (s : IpcSink E J) : ∃ e sent, probe_system s =
  (mkIpcSink (is_endpoint s) e (is_sent s ++ sent) (is_out s), SystemProbe_default) ∧
  Forall (λ x, x.1 ∈ probe_commands) sent.
Proof.
  unfold probe_system.
  destruct (rpc_fails "system.info" (json_obj []) s) as (e1 & x1 & l1 & -> & H1).
  destruct (rpc_fails "storage.status" (json_obj []) (mkIpcSink (is_endpoint s) e1 (is_sent s ++ l1) (is_out s)))
    as (e2 & x2 & l2 & -> & H2).
  cbn [is_endpoint is_sent is_out].
  destruct (rpc_fails "network.status" (json_obj []) (mkIpcSink (is_endpoint s) e2 ((is_sent s ++ l1) ++ l2) (is_out s)))
    as (e3 & x3 & l3 & -> & H3).
  cbn [is_endpoint is_sent is_out].
  destruct (rpc_fails "process.list" (json_obj []) (mkIpcSink (is_endpoint s) e3 (((is_sent s ++ l1) ++ l2) ++ l3) (is_out s)))
    as (e4 & x4 & l4 & -> & H4).
  cbn [is_endpoint is_sent is_out]. exists e4, (l1 ++ l2 ++ l3 ++ l4). split; [by rewrite <-!app_assoc|].
  rewrite !Forall_app. split_and!; (eapply Forall_impl; [eassumption|]); intros x ->; unfold probe_commands; set_solver.
Qed.

(** A sink that has only asked for probes. *)
Definition blind (ds : DaemonLoop * IpcSink E J) : Prop :=
  only_observations (dl_state ds.1) ∧ Forall (λ x, x.1 ∈ probe_commands) (is_sent ds.2).

Lemma round_blind c ds : blind ds → blind (proactive_round c ds).
Proof.
  destruct ds as [d s]. intros [Hd Hs]. unfold proactive_round. destruct (probe_blind s) as (e & sent & -> & Hsent).
  destruct (tick_observes (J := J) SystemProbe_default (cli_now_ms c) d (mkIpcSink (is_endpoint s) e (is_sent s ++ sent) (is_out s)) Hd)
    as (d' & Hd' & _ & ->).
  split; [done|]. cbn. by apply Forall_app.
Qed.

(** C31: Against the system core the daemon sees nothing: it takes every answer for an
    error, because the field is there also when it is null, so that over any rounds it
    has only asked for the four parts of a probe and has sent neither an observation
    nor a proposal. *)
Theorem proactived_is_blind rounds now_ms args (e : E) d s :
  proactived_main (J := J) rounds now_ms args e = Some (d, s) → Forall (λ x, x.1 ∈ probe_commands) (is_sent s).
Proof.
  unfold proactived_main. destruct (parse_args _ _ _) as [c| |]; [|done..].
  assert (∀ n ds, blind ds → blind (Nat.iter n (proactive_round c) ds)) as Hrun.
  { intros n ds Hds. induction n as [|n IH]; [done|]. cbn. by apply round_blind. }
  assert (∀ out, blind (DaemonLoop_new, mkIpcSink (cli_control_plane c) e [] out)) as Hstart.
  { intros out. split; [split; [done|constructor]|constructor]. }
  intros Eds. enough (blind (d, s)) as [_ Hs] by done.
  destruct (cli_once c); apply (inj Some) in Eds; rewrite <-Eds; [apply round_blind|apply Hrun]; apply Hstart.
Qed.
End plane.

(** A peer that answers every line with the result of an empty object. *)
Module ToyPeer.
#[export] Instance env : PeerEnv unit := {| peer_exchange _ _ _ e := (e, Ok "answer"); peer_parse_error _ := "bad" |}.
#[export] Instance parse : JsonParse ToyJson := {|
  json_from_str _ := Ok (IpcResponse_json (IpcResponse_ok "system.info" (TObj [("memory_percent", TNum 99)]))) |}.
End ToyPeer.

Section witness.
Import ToyPeer.

Lemma proactived_is_blind_witness : ∃ d s,
  proactived_main (J := ToyJson) (E := unit) 1 5 ["aether-proactived"; "--once"] tt = Some (d, s) ∧
  length (is_sent s) = 4 ∧ Forall (λ x, x.1 ∈ probe_commands) (is_sent s).
Proof.
  destruct (proactived_main (J := ToyJson) (E := unit) 1 5 ["aether-proactived"; "--once"] tt) as [[d s]|] eqn:Em; [|done].
  exists d, s. split; [done|]. split; [|eapply (proactived_is_blind (E := unit) (J := ToyJson)); [|exact Em]].
  - vm_compute in Em. by injection Em as <- <-.
  - intros ??????  _. by exists (IpcResponse_ok "system.info" (TObj [("memory_percent", TNum 99)])).
Defined.
End witness.
