(* ===== verification/Hardware.v ===== *)
(** * The hardware service

    Models system/aether-hardware-service/src: devices, capabilities and the registry
    (lib.rs), and the executor that decides requests (executor.rs). *)
From S2P Require Import Prelude RustStd.

(** ** lib.rs *)

Inductive DeviceKind :=
| DkCpu | DkGpu | DkDisplay | DkExternalDisplay | DkKeyboard | DkTouchpad | DkMouse | DkAudioOutput | DkMicrophone
| DkCamera | DkWifi | DkBluetooth | DkEthernet | DkUsb | DkStorage | DkBattery | DkThermalSensor | DkPrinter
| DkFutureSensor.

#[export] Instance DeviceKind_eq_dec : EqDecision DeviceKind.
Proof. solve_decision. Defined.

Definition DeviceKind_as_str (k : DeviceKind) : string :=
  match k with
  | DkCpu => "cpu" | DkGpu => "gpu" | DkDisplay => "display" | DkExternalDisplay => "external-display"
  | DkKeyboard => "keyboard" | DkTouchpad => "touchpad" | DkMouse => "mouse" | DkAudioOutput => "audio-output"
  | DkMicrophone => "microphone" | DkCamera => "camera" | DkWifi => "wifi" | DkBluetooth => "bluetooth"
  | DkEthernet => "ethernet" | DkUsb => "usb" | DkStorage => "storage" | DkBattery => "battery"
  | DkThermalSensor => "thermal-sensor" | DkPrinter => "printer" | DkFutureSensor => "future-sensor"
  end.

Definition DeviceKind_label (k : DeviceKind) : string :=
  match k with
  | DkCpu => "CPU" | DkGpu => "GPU" | DkDisplay => "Display" | DkExternalDisplay => "External display"
  | DkKeyboard => "Keyboard" | DkTouchpad => "Touchpad" | DkMouse => "Mouse" | DkAudioOutput => "Audio output"
  | DkMicrophone => "Microphone" | DkCamera => "Camera" | DkWifi => "Wi-Fi" | DkBluetooth => "Bluetooth"
  | DkEthernet => "Ethernet" | DkUsb => "USB" | DkStorage => "Storage" | DkBattery => "Battery"
  | DkThermalSensor => "Thermal sensor" | DkPrinter => "Printer" | DkFutureSensor => "Future sensor"
  end.

Inductive DeviceState := DsPresent | DsDisabled | DsErrored | DsDisconnected.

#[export] Instance DeviceState_eq_dec : EqDecision DeviceState.
Proof. solve_decision. Defined.

Definition DeviceState_as_str (s : DeviceState) : string :=
  match s with
  | DsPresent => "present" | DsDisabled => "disabled" | DsErrored => "errored" | DsDisconnected => "disconnected"
  end.

Inductive PowerState := PwSelfPowered | PwBattery (level_per_mille : option N) | PwPowerOff.

#[export] Instance PowerState_eq_dec : EqDecision PowerState.
Proof. solve_decision. Defined.

Inductive Capability :=
| RouteAudio | CaptureAudio | CaptureVideo | ConnectWifi (ssid : string) | ConnectBluetooth (peer_id : string)
| MountStorage | UnmountStorage | Enable | Disable | SetBrightness (percent : N) | Print_ (path : string).

#[export] Instance Capability_eq_dec : EqDecision Capability.
Proof. solve_decision. Defined.

Definition verb (c : Capability) : string :=
  match c with
  | RouteAudio => "route-audio" | CaptureAudio => "capture-audio" | CaptureVideo => "capture-video"
  | ConnectWifi _ => "connect-wifi" | ConnectBluetooth _ => "connect-bluetooth" | MountStorage => "mount-storage"
  | UnmountStorage => "unmount-storage" | Enable => "enable" | Disable => "disable"
  | SetBrightness _ => "set-brightness" | Print_ _ => "print"
  end.

Definition Capability_requires_consent (c : Capability) : bool :=
  match c with
  | RouteAudio | SetBrightness _ | Enable | Disable => false
  | CaptureAudio | CaptureVideo | ConnectWifi _ | ConnectBluetooth _ | MountStorage | UnmountStorage | Print_ _ => true
  end.

Record Device := mkDevice {
  dev_id : string;
  dev_kind : DeviceKind;
  dev_name : string;
  dev_vendor : string;
  dev_product : string;
  dev_state : DeviceState;
  dev_power : PowerState;
  dev_capabilities : list Capability;
}.

Definition Device_new (id : string) (kind : DeviceKind) (name vendor product : string) (state : DeviceState)
    (power : PowerState) : Device := mkDevice id kind name vendor product state power [].

Definition with_capability (cap : Capability) (d : Device) : Device :=
  mkDevice (dev_id d) (dev_kind d) (dev_name d) (dev_vendor d) (dev_product d) (dev_state d) (dev_power d)
    (dev_capabilities d ++ [cap]).

Definition with_state (s : DeviceState) (d : Device) : Device :=
  mkDevice (dev_id d) (dev_kind d) (dev_name d) (dev_vendor d) (dev_product d) s (dev_power d) (dev_capabilities d).

Definition is_usable (d : Device) : bool := match dev_state d with DsPresent => true | _ => false end.
Definition has_capability (cap : Capability) (d : Device) : bool :=
  existsb (λ c, bool_decide (c = cap)) (dev_capabilities d).

(** A [HardwareService] is its vector of devices. *)
Definition HardwareService : Type := list Device.
Definition HardwareService_new : HardwareService := [].

Section service.
Implicit Types (l : HardwareService).

Definition has_id (id : string) (d : Device) : bool := (dev_id d =? id)%string.

Definition get (id : string) l : option Device := find_b (has_id id) l.

(** The first device of an id, changed in place. *)
Fixpoint alter_first (id : string) (f : Device → Device) l : HardwareService :=
  match l with
  | [] => []
  | d :: l => if has_id id d then f d :: l else d :: alter_first id f l
  end.

Definition upsert (d : Device) l : HardwareService * bool :=
  match get (dev_id d) l with
  | Some _ => (alter_first (dev_id d) (λ _, d) l, false)
  | None => (l ++ [d], true)
  end.

Fixpoint remove (id : string) l : HardwareService * option Device :=
  match l with
  | [] => ([], None)
  | d :: l => if has_id id d then (l, Some d) else let '(l, r) := remove id l in (d :: l, r)
  end.

Definition with_kind (kind : DeviceKind) l : list Device := List.filter (λ d, bool_decide (dev_kind d = kind)) l.
Definition find_capable (cap : Capability) l : option Device := find_b (λ d, is_usable d && has_capability cap d) l.
Definition all_capable (cap : Capability) l : list Device := List.filter (λ d, is_usable d && has_capability cap d) l.

Definition set_state (id : string) (s : DeviceState) l : HardwareService * option DeviceState :=
  match get id l with
  | None => (l, None)
  | Some d => (alter_first id (with_state s) l, Some (dev_state d))
  end.

Definition toggle (id : string) l : HardwareService * option DeviceState :=
  match get id l with
  | None => (l, None)
  | Some d =>
      let new_state := match dev_state d with DsDisabled => DsPresent | _ => DsDisabled end in
      ((set_state id new_state l).1, Some new_state)
  end.
End service.

Inductive CapabilityResult :=
| CrOk (detail : string) | CrRefused (reason : string) | CrInvalidState (state : DeviceState) | CrTimeout.

Definition CapabilityResult_is_ok (r : CapabilityResult) : bool := match r with CrOk _ => true | _ => false end.

(** ** executor.rs *)

Inductive Actor := AcUser | AcAgent | AcPeer.

#[export] Instance Actor_eq_dec : EqDecision Actor.
Proof. solve_decision. Defined.

Definition Actor_requires_consent (a : Actor) : bool := match a with AcUser => false | AcAgent | AcPeer => true end.

Record CapabilityRequest := mkCapabilityRequest {
  cq_capability : Capability;
  cq_target_device_id : string;
  cq_actor : Actor;
}.

Record CapabilityExecutor := mkCapabilityExecutor { ce_service : HardwareService; ce_approved : list Capability }.

Section executor.
Implicit Types (x : CapabilityExecutor) (q : CapabilityRequest).

Definition CapabilityExecutor_new (service : HardwareService) : CapabilityExecutor := mkCapabilityExecutor service [].
Definition approve (c : Capability) x : CapabilityExecutor := mkCapabilityExecutor (ce_service x) (ce_approved x ++ [c]).
Definition is_approved (c : Capability) x : bool := existsb (λ a, bool_decide (a = c)) (ce_approved x).
Definition device (id : string) x : option Device := get id (ce_service x).

Definition state_allows (d : Device) (c : Capability) : bool :=
  match c with Enable | Disable => true | _ => is_usable d end.

Definition describe (k : DeviceKind) (c : Capability) (name : string) : string :=
  match c with
  | RouteAudio => "routed audio to " +:+ name
  | CaptureAudio => "set " +:+ name +:+ " as the active microphone"
  | CaptureVideo => "opened " +:+ name +:+ " for video capture"
  | ConnectWifi ssid => "connected " +:+ name +:+ " to '" +:+ ssid +:+ "'"
  | ConnectBluetooth peer => "paired " +:+ name +:+ " with '" +:+ peer +:+ "'"
  | MountStorage => "mounted " +:+ name
  | UnmountStorage => "unmounted " +:+ name
  | Enable => "enabled " +:+ DeviceKind_label k
  | Disable => "disabled " +:+ DeviceKind_label k
  | SetBrightness percent => "set " +:+ name +:+ " brightness to " +:+ pretty percent +:+ "%"
  | Print_ path => "sent '" +:+ path +:+ "' to " +:+ name
  end.

Definition switches (c : Capability) : bool := match c with Enable | Disable => true | _ => false end.

Definition execute x q : CapabilityResult :=
  match get (cq_target_device_id q) (ce_service x) with
  | None => CrRefused ("device '" +:+ cq_target_device_id q +:+ "' not found")
  | Some d =>
      if negb (state_allows d (cq_capability q)) then CrInvalidState (dev_state d)
      else if negb (switches (cq_capability q)) && negb (has_capability (cq_capability q) d) then
        CrRefused ("device '" +:+ dev_id d +:+ "' does not claim capability '" +:+ verb (cq_capability q) +:+ "'")
      else if Actor_requires_consent (cq_actor q) && Capability_requires_consent (cq_capability q)
              && negb (is_approved (cq_capability q) x) then
        CrRefused ("capability '" +:+ verb (cq_capability q) +:+ "' requires user consent")
      else CrOk (describe (dev_kind d) (cq_capability q) (dev_name d))
  end.

Definition can_exercise x q : bool := CapabilityResult_is_ok (execute x q).
Definition device_count x : nat := length (ce_service x).
End executor.

(** * Properties of the hardware service *)

(** ** The registry is a map *)

Inductive HwOp := HwUpsert (d : Device) | HwRemove (id : string) | HwSetState (id : string) (s : DeviceState) | HwToggle (id : string).

Inductive HwAnswer := HaNew (b : bool) | HaDevice (d : option Device) | HaState (s : option DeviceState).

Definition hw_step (op : HwOp) (l : HardwareService) : HardwareService * HwAnswer :=
  match op with
  | HwUpsert d => let '(l, b) := upsert d l in (l, HaNew b)
  | HwRemove id => let '(l, d) := remove id l in (l, HaDevice d)
  | HwSetState id s => let '(l, p) := set_state id s l in (l, HaState p)
  | HwToggle id => let '(l, p) := toggle id l in (l, HaState p)
  end.

(** The same on a map from ids to devices. *)
Definition hw_spec (op : HwOp) (m : gmap string Device) : gmap string Device * HwAnswer :=
  match op with
  | HwUpsert d => (<[dev_id d := d]> m, HaNew (bool_decide (m !! dev_id d = None)))
  | HwRemove id => (delete id m, HaDevice (m !! id))
  | HwSetState id s => (alter (with_state s) id m, HaState (dev_state <$> m !! id))
  | HwToggle id =>
      let next d := match dev_state d with DsDisabled => DsPresent | _ => DsDisabled end in
      (alter (λ d, with_state (next d) d) id m, HaState (next <$> m !! id))
  end.

Definition hw_refines (l : HardwareService) (m : gmap string Device) : Prop :=
  NoDup (dev_id <$> l) ∧ ∀ id, get id l = m !! id.

Lemma get_id id l d : get id l = Some d → dev_id d = id ∧ d ∈ l.
Proof. intros [Hin Hp]%find_b_Some. unfold has_id in Hp. by apply String.eqb_eq in Hp. Qed.

Lemma get_None id l : get id l = None ↔ id ∉ dev_id <$> l.
Proof.
  unfold get. rewrite find_b_None. unfold has_id. split.
  - intros Hn (d & -> & Hd)%list_elem_of_fmap. specialize (Hn d Hd). by rewrite String.eqb_refl in Hn.
  - intros Hn d Hd. apply String.eqb_neq. intros <-. apply Hn. by apply list_elem_of_fmap_2.
Qed.

Lemma get_cons id d l : get id (d :: l) = if (dev_id d =? id)%string then Some d else get id l.
Proof. done. Qed.

Lemma alter_first_ids id f l : (∀ d, dev_id d = id → dev_id (f d) = id) → dev_id <$> alter_first id f l = dev_id <$> l.
Proof.
  intros Hf. induction l as [|d l IH]; cbn; [done|]. unfold has_id. destruct (String.eqb_spec (dev_id d) id); cbn; [|by rewrite IH].
  rewrite (Hf d) by done. by f_equal.
Qed.

Lemma get_alter_first id f l id' : (∀ d, dev_id d = id → dev_id (f d) = id) →
  get id' (alter_first id f l) = if decide (id = id') then f <$> get id' l else get id' l.
Proof.
  intros Hf. induction l as [|d l IH]; [by case_decide|]. cbn [alter_first]. unfold has_id.
  destruct (String.eqb_spec (dev_id d) id) as [E|Hne]; rewrite !get_cons.
  - rewrite (Hf d E), E. destruct (String.eqb_spec id id'); by case_decide.
  - destruct (String.eqb_spec (dev_id d) id') as [E'|]; [|done]. case_decide; [congruence|done].
Qed.

Lemma remove_spec id l : NoDup (dev_id <$> l) → let '(l', r) := remove id l in
  r = get id l ∧ NoDup (dev_id <$> l') ∧ (∀ x, x ∈ dev_id <$> l' → x ∈ dev_id <$> l) ∧
  ∀ id', get id' l' = if decide (id = id') then None else get id' l.
Proof.
  induction l as [|d l IH]; [intros _; split_and!; [done|constructor|done|intros; by case_decide]|].
  cbn [fmap list_fmap remove]. intros [Hni Hnd]%NoDup_cons. unfold has_id. rewrite get_cons.
  destruct (String.eqb_spec (dev_id d) id) as [E|Hne].
  - split_and!; [done..|intros x; rewrite elem_of_cons; by right|].
    intros id'. rewrite get_cons. case_decide as Hid; [subst; by apply get_None|].
    by rewrite (proj2 (String.eqb_neq _ _)) by congruence.
  - specialize (IH Hnd). destruct (remove id l) as [l' r]. destruct IH as (-> & Hnd' & Hsub & Hlook). split_and!; [done| | |].
    + cbn. apply NoDup_cons. split; [|done]. intros Hin. by apply Hni, Hsub.
    + intros x. cbn. rewrite !elem_of_cons. naive_solver.
    + intros id'. rewrite !get_cons, Hlook. destruct (String.eqb_spec (dev_id d) id'); [case_decide; [congruence|done]|done].
Qed.

Lemma hw_step_refines op l m : hw_refines l m →
  let '(l', a) := hw_step op l in let '(m', b) := hw_spec op m in a = b ∧ hw_refines l' m'.
Proof.
  intros [Hnd Hm]. destruct op as [d|id|id s|id]; cbn.
  - unfold upsert. rewrite Hm. destruct (m !! dev_id d) as [d0|] eqn:E.
    + split; [by rewrite bool_decide_false|]. split; [by rewrite alter_first_ids|]. intros id'.
      rewrite get_alter_first by done. case_decide as Hid; [subst; by rewrite lookup_insert_eq, Hm, E|by rewrite lookup_insert_ne, Hm].
    + split; [done|]. assert (dev_id d ∉ dev_id <$> l) as Hni by (apply get_None; by rewrite Hm). split.
      * rewrite fmap_app. apply NoDup_app. split_and!; [done| |apply NoDup_singleton]. intros x Hx ->%list_elem_of_singleton. done.
      * intros id'. unfold get. rewrite find_b_app. fold (get id' l). rewrite Hm. cbn. unfold has_id.
        destruct (String.eqb_spec (dev_id d) id') as [<-|]; [by rewrite E, lookup_insert_eq|].
        rewrite lookup_insert_ne by done. by destruct (m !! id').
  - pose proof (remove_spec id l Hnd) as Hr. destruct (remove id l) as [l' r]. destruct Hr as (-> & Hnd' & _ & Hlook).
    split; [by rewrite Hm|]. split; [done|]. intros id'. rewrite Hlook. case_decide; [subst; by rewrite lookup_delete_eq|].
    by rewrite lookup_delete_ne, Hm.
  - unfold set_state. rewrite Hm. destruct (m !! id) as [d|] eqn:E; cbn.
    + split; [done|]. split; [by rewrite alter_first_ids|]. intros id'. rewrite get_alter_first by done. rewrite Hm.
      case_decide; [subst; by rewrite lookup_alter_eq|by rewrite lookup_alter_ne].
    + split; [done|]. split; [done|]. intros id'. rewrite Hm. destruct (decide (id = id')) as [<-|];
        [by rewrite lookup_alter_eq, E|by rewrite lookup_alter_ne].
  - unfold toggle, set_state. rewrite Hm. destruct (m !! id) as [d|] eqn:E; cbn.
    + split; [done|]. split; [by rewrite alter_first_ids|]. intros id'. rewrite get_alter_first by done. rewrite Hm.
      case_decide; [subst; by rewrite lookup_alter_eq, E|by rewrite lookup_alter_ne].
    + split; [done|]. split; [done|]. intros id'. rewrite Hm. destruct (decide (id = id')) as [<-|];
        [by rewrite lookup_alter_eq, E|by rewrite lookup_alter_ne].
Qed.

Fixpoint hw_run {S} (step : HwOp → S → S * HwAnswer) (ops : list HwOp) (s : S) : S * list HwAnswer :=
  match ops with
  | [] => (s, [])
  | op :: ops => let '(s, a) := step op s in let '(s, l) := hw_run step ops s in (s, a :: l)
  end.

(** C32: The registry behaves as a map from ids to devices: any operations from an empty
    one give the answers of the map, no id is there twice, and every lookup agrees. *)
Theorem hardware_registry_refines_map ops :
  let '(l, a) := hw_run hw_step ops HardwareService_new in
  let '(m, b) := hw_run hw_spec ops ∅ in a = b ∧ hw_refines l m.
Proof.
  assert (∀ l m, hw_refines l m → let '(l', a) := hw_run hw_step ops l in let '(m', b) := hw_run hw_spec ops m in
    a = b ∧ hw_refines l' m') as Hrun; [|apply Hrun; split; [constructor|done]].
  induction ops as [|op ops IH]; intros l m Hlm; cbn; [done|]. pose proof (hw_step_refines op l m Hlm) as Hs.
  destruct (hw_step op l) as [l1 a], (hw_spec op m) as [m1 b]. destruct Hs as [-> Hlm1]. specialize (IH l1 m1 Hlm1).
  destruct (hw_run hw_step ops l1), (hw_run hw_spec ops m1). by destruct IH as [-> ?].
Qed.

(** ** Decisions *)

(** What the executor allows: the device is there; it is usable and claims exactly
    this capability, parameters included, unless it is to be switched on or off; and an
    agent or a peer has the approval of the user where the capability needs it. *)
Definition allowed (x : CapabilityExecutor) (q : CapabilityRequest) : Prop :=
  ∃ d, get (cq_target_device_id q) (ce_service x) = Some d ∧
    (cq_capability q = Enable ∨ cq_capability q = Disable ∨
     (dev_state d = DsPresent ∧ cq_capability q ∈ dev_capabilities d)) ∧
    (cq_actor q = AcUser ∨ Capability_requires_consent (cq_capability q) = false ∨ cq_capability q ∈ ce_approved x).

Lemma existsb_elem {A} `{EqDecision A} (x : A) l : existsb (λ y, bool_decide (y = x)) l = true ↔ x ∈ l.
Proof.
  rewrite existsb_exists. split; [intros (y & Hy%list_elem_of_In & ->%bool_decide_eq_true); done|].
  intros Hx%list_elem_of_In. exists x. by rewrite bool_decide_true.
Qed.

Lemma execute_allowed x q : can_exercise x q = true ↔ allowed x q.
Proof.
  unfold can_exercise, execute, allowed. destruct (get _ _) as [d|]; [|split; [done|by intros (? & ? & _)]].
  assert (is_usable d = true ↔ dev_state d = DsPresent) as Hu by (unfold is_usable; by destruct (dev_state d)).
  pose proof (existsb_elem (cq_capability q) (dev_capabilities d)) as Hc. fold (has_capability (cq_capability q) d) in Hc.
  pose proof (existsb_elem (cq_capability q) (ce_approved x)) as Ha. fold (is_approved (cq_capability q) x) in Ha.
  assert (Actor_requires_consent (cq_actor q) = false ↔ cq_actor q = AcUser) as Hact by by destruct (cq_actor q).
  destruct (state_allows d (cq_capability q)) eqn:Es; cbn [negb].
  2:{ split; [done|]. intros (d' & [= <-] & Hs & _). exfalso. unfold state_allows in Es.
      destruct (cq_capability q); naive_solver congruence. }
  destruct (switches (cq_capability q)) eqn:Esw; cbn [negb andb].
  - assert (cq_capability q = Enable ∨ cq_capability q = Disable) as Hsw by (destruct (cq_capability q); naive_solver).
    assert (Capability_requires_consent (cq_capability q) = false) as -> by by destruct Hsw as [-> | ->].
    rewrite andb_false_r. cbn. split; [|done]. intros _. exists d. naive_solver.
  - assert (dev_state d = DsPresent) as Hp by (apply Hu; unfold state_allows in Es; by destruct (cq_capability q)).
    destruct (has_capability (cq_capability q) d); cbn [negb].
    2:{ split; [done|]. intros (d' & [= <-] & [Hq|[Hq|[_ Hin]]] & _); [by rewrite Hq in Esw..|]. by apply Hc in Hin. }
    destruct (Actor_requires_consent (cq_actor q)), (Capability_requires_consent (cq_capability q)),
      (is_approved (cq_capability q) x); cbn; (split; [intros Ht|]); try done;
      try (exists d; split; [done|]; split; [right; right; split; [done|by apply Hc]|]); naive_solver.
Qed.

(** C33: the executor grants a request exactly when the device is there; the
    device is present and claims exactly this capability, parameters included,
    unless it is to be switched on or off; and the actor is the user, the
    capability needs no consent, or the user has approved this capability.  To
    grant a request is to answer with its description: nothing is done to the
    device.  A peer gets the answer an agent gets, in every case: without any
    consent where the capability needs none, although the comment on the actor
    says that a peer always needs it. *)
Theorem hardware_execution_exact x q :
  (can_exercise x q = true ↔ allowed x q) ∧
  (allowed x q → ∃ d, get (cq_target_device_id q) (ce_service x) = Some d ∧
     execute x q = CrOk (describe (dev_kind d) (cq_capability q) (dev_name d))) ∧
  (cq_actor q = AcPeer →
   execute x q = execute x (mkCapabilityRequest (cq_capability q) (cq_target_device_id q) AcAgent)).
Proof.
  split; [apply execute_allowed|]. split.
  - intros Ha%execute_allowed. unfold can_exercise, execute in *. destruct (get _ _) as [d|]; [|done].
    exists d. split; [done|]. by repeat case_match.
  - intros Hp. unfold execute. by rewrite Hp.
Qed.

(** An agent may switch any device off without asking: the network, the keyboard or the
    display. *)
Theorem agents_disable_any_device x id d : get id (ce_service x) = Some d →
  execute x (mkCapabilityRequest Disable id AcAgent) = CrOk ("disabled " +:+ DeviceKind_label (dev_kind d)).
Proof. intros Hd. unfold execute. cbn. by rewrite Hd. Qed.
