(* ===== verification/Hal.v ===== *)
(** * The hardware abstraction layer

    Models system/aether-hal/src/lib.rs, the types and traits, and
    system/aether-hal-mock/src/lib.rs, the mock of all of them.  A trait is a record of
    operations over a state of type [S]; the state of the mock is a mutex, which may be
    poisoned, shared by all its parts.  [HalSettings] is what the client of the layer
    relies on. *)
From S2P Require Import Prelude RustStd Diagnostics.
From Stdlib Require Import Floats.SpecFloat.

(** ** aether-hal: types *)

Inductive HalError :=
| HeNotFound | HeInvalidState (s : string) | HeTimeout | HePermissionDenied | HeBackendUnavailable
| HeIoError (s : string) | HeUnsupported (s : string) | HeConstraintViolation (s : string).

Definition HalError_to_string (e : HalError) : string :=
  match e with
  | HeNotFound => "device not found"
  | HeInvalidState s => "invalid state: " +:+ s
  | HeTimeout => "operation timed out"
  | HePermissionDenied => "permission denied"
  | HeBackendUnavailable => "backend unavailable"
  | HeIoError s => "I/O error: " +:+ s
  | HeUnsupported s => "unsupported: " +:+ s
  | HeConstraintViolation s => "constraint violated: " +:+ s
  end.

Abbreviation HalResult A := (result A HalError).

Inductive HalDeviceState := HdPresent | HdDisabled | HdErrored | HdDisconnected.
Inductive HalPowerState := HpSelfPowered | HpBattery (level_percent : option N) | HpPowerOff.

Inductive HalDeviceKind :=
| KCpu | KGpu | KDisplay | KExternalDisplay | KKeyboard | KTouchpad | KMouse | KAudioOutput | KMicrophone | KCamera
| KWifi | KBluetooth | KEthernet | KUsb | KStorage | KBattery | KThermalSensor | KPrinter | KFutureSensor.

Definition HalDeviceKind_as_str (k : HalDeviceKind) : string :=
  match k with
  | KCpu => "cpu" | KGpu => "gpu" | KDisplay => "display" | KExternalDisplay => "external-display"
  | KKeyboard => "keyboard" | KTouchpad => "touchpad" | KMouse => "mouse" | KAudioOutput => "audio-output"
  | KMicrophone => "microphone" | KCamera => "camera" | KWifi => "wifi" | KBluetooth => "bluetooth"
  | KEthernet => "ethernet" | KUsb => "usb" | KStorage => "storage" | KBattery => "battery"
  | KThermalSensor => "thermal-sensor" | KPrinter => "printer" | KFutureSensor => "future-sensor"
  end.

Definition HalDeviceKind_label (k : HalDeviceKind) : string :=
  match k with
  | KCpu => "CPU" | KGpu => "GPU" | KDisplay => "Display" | KExternalDisplay => "External Display"
  | KKeyboard => "Keyboard" | KTouchpad => "Touchpad" | KMouse => "Mouse" | KAudioOutput => "Audio Output"
  | KMicrophone => "Microphone" | KCamera => "Camera" | KWifi => "Wi-Fi" | KBluetooth => "Bluetooth"
  | KEthernet => "Ethernet" | KUsb => "USB" | KStorage => "Storage" | KBattery => "Battery"
  | KThermalSensor => "Thermal Sensor" | KPrinter => "Printer" | KFutureSensor => "Sensor"
  end.

Record DeviceInfo := mkDeviceInfo {
  di_id : string;
  di_kind : HalDeviceKind;
  di_name : string;
  di_vendor : string;
  di_product : string;
  di_state : HalDeviceState;
  di_power : HalPowerState;
  di_capabilities : list string;
}.

Inductive DeviceChange :=
| Appeared | Disappeared | StateChanged (from to : HalDeviceState) | PowerChanged (from to : HalPowerState)
| CapabilityChanged (capability : string) (available : bool).

Record DeviceEvent := mkDeviceEvent {
  de_device_id : string;
  de_kind : HalDeviceKind;
  de_change : DeviceChange;
  de_timestamp_ms : N;
}.

Record CpuInfo := mkCpuInfo { cpi_model : string; cpi_cores : N; cpi_base_freq_mhz : N; cpi_current_freq_mhz : N }.
Record GpuInfo := mkGpuInfo { gpi_model : string; gpi_vram_mib : N; gpi_driver : string }.
Record DisplayConfig := mkDisplayConfig { dc_width : N; dc_height : N; dc_refresh_hz : N; dc_bpp : N; dc_connected : bool }.
Record DisplayMode := mkDisplayMode { dm_width : N; dm_height : N; dm_refresh_hz : N }.
Record KeyboardInfo := mkKeyboardInfo { ki_name : string; ki_key_count : N; ki_layout : string }.
Record KeyEvent := mkKeyEvent { ke_code : N; ke_pressed : bool; ke_timestamp_ms : N }.
Record KeyboardLeds := mkKeyboardLeds { kl_caps_lock : bool; kl_num_lock : bool; kl_scroll_lock : bool }.
Inductive PointingKind := PkMouse | PkTouchpad | PkTrackpoint.
Record PointingInfo := mkPointingInfo { pi_name : string; pi_kind : PointingKind; pi_max_x : N; pi_max_y : N }.
Record PointingEvent := mkPointingEvent { pe_dx : Z; pe_dy : Z; pe_buttons : N; pe_scroll : Z; pe_timestamp_ms : N }.
Record AudioInfo := mkAudioInfo { au_name : string; au_driver : string; au_sample_rate : N; au_channels : N }.
Record AudioRoute := mkAudioRoute { ar_id : string; ar_name : string; ar_active : bool }.
Record CameraInfo := mkCameraInfo { cm_name : string; cm_supported_resolutions : list (N * N); cm_supported_frame_rates : list N }.
Record WifiInfo := mkWifiInfo { wi_name : string; wi_bands : list string; wi_standards : list string }.
Inductive WifiState := WsDisconnected | WsScanning | WsConnecting | WsConnected | WsFailed.
Record WifiNetwork := mkWifiNetwork { wn_ssid : string; wn_signal : N; wn_secured : bool; wn_band : string }.
Record BluetoothInfo := mkBluetoothInfo { bi_name : string; bi_address : string; bi_profiles : list string }.
Inductive BluetoothState := BtOff | BtOn | BtDiscovering | BtConnecting.
Record BluetoothDevice := mkBluetoothDevice { bd_address : string; bd_name : string; bd_class : N; bd_paired : bool; bd_signal : N }.
Record EthernetInfo := mkEthernetInfo { ei_name : string; ei_mac : string; ei_driver : string }.
Record UsbDevice := mkUsbDevice { ud_bus : N; ud_address : N; ud_vendor_id : N; ud_product_id : N; ud_name : string; ud_class : N }.
Record UsbInfo := mkUsbInfo { ui_name : string; ui_version : string; ui_ports : N }.
Record StorageDevice := mkStorageDevice { sd_path : string; sd_name : string; sd_size_bytes : N; sd_fs_type : string; sd_removable : bool }.
Record StorageMount := mkStorageMount {
  sm_device : string; sm_mount_point : string; sm_fs_type : string; sm_total_bytes : N; sm_used_bytes : N; sm_available_bytes : N }.
Record BatteryInfo := mkBatteryInfo {
  ba_model : string; ba_design_capacity_mah : N; ba_current_capacity_mah : N; ba_cycle_count : N; ba_health_percent : N }.
Record ThermalZone := mkThermalZone { tz_name : string; tz_zone_type : string; tz_temperature_c : f32 }.

(** ** aether-hal: traits *)

(** What is read from a device, and what changes it. *)
Definition Query (S A : Type) : Type := S → HalResult A.
Definition Update (S : Type) : Type := S → S * HalResult unit.

(** trait EventSink. *)
Class EventSink (K : Type) := { emit : DeviceEvent → K → K }.
#[export] Instance NullEventSink : EventSink unit := {| emit _ k := k |}.

Section traits.
Context {S : Type}.

Record CpuHal := mkCpuHal { cpu_info : Query S CpuInfo; cpu_usage : Query S f32; cpu_temperature : Query S (option f32) }.
Record GpuHal := mkGpuHal { gpu_info : Query S GpuInfo; gpu_usage : Query S f32 }.
Record DisplayHal := mkDisplayHal {
  display_config : Query S DisplayConfig;
  set_brightness : N → Update S;
  brightness : Query S N;
  display_modes : Query S (list DisplayMode);
  set_mode : DisplayMode → Update S;
}.
Record KeyboardHal := mkKeyboardHal {
  keyboard_info : Query S KeyboardInfo;
  read_keys : S → S * HalResult (list KeyEvent);
  set_leds : KeyboardLeds → Update S;
}.
Record PointingDeviceHal := mkPointingDeviceHal {
  pointing_info : Query S PointingInfo;
  read_events : S → S * HalResult (list PointingEvent);
  set_acceleration : f32 → Update S;
  set_tap_to_click : bool → Update S;
}.
Record AudioOutputHal := mkAudioOutputHal {
  audio_info : Query S AudioInfo;
  volume : Query S N;
  set_volume : N → Update S;
  audio_is_muted : Query S bool;
  audio_set_muted : bool → Update S;
  set_route : string → Update S;
  audio_routes : Query S (list AudioRoute);
}.
Record MicrophoneHal := mkMicrophoneHal {
  mic_info : Query S AudioInfo;
  gain : Query S N;
  set_gain : N → Update S;
  mic_is_muted : Query S bool;
  mic_set_muted : bool → Update S;
}.
Record CameraHal := mkCameraHal {
  camera_info : Query S CameraInfo;
  resolution : Query S (N * N);
  set_resolution : N → N → Update S;
  frame_rate : Query S N;
  set_frame_rate : N → Update S;
}.
Record WifiHal := mkWifiHal {
  wifi_info : Query S WifiInfo;
  wifi_state : Query S WifiState;
  wifi_scan : Query S (list WifiNetwork);
  wifi_connect : string → option string → Update S;
  wifi_disconnect : Update S;
  signal_strength : Query S N;
}.
Record BluetoothHal := mkBluetoothHal {
  bluetooth_info : Query S BluetoothInfo;
  bluetooth_state : Query S BluetoothState;
  start_discovery : Update S;
  stop_discovery : Update S;
  discovered : Query S (list BluetoothDevice);
  bt_pair : string → Update S;
  bt_connect : string → Update S;
  bt_disconnect : string → Update S;
}.
Record EthernetHal := mkEthernetHal { ethernet_info : Query S EthernetInfo; link_up : Query S bool; speed_mbps : Query S N }.
Record UsbHal := mkUsbHal { usb_enumerate : Query S (list UsbDevice); usb_info : Query S UsbInfo }.
Record StorageHal := mkStorageHal { storage_devices : Query S (list StorageDevice); storage_mounts : Query S (list StorageMount) }.
Record BatteryHal := mkBatteryHal {
  battery_info : Query S BatteryInfo;
  charge_percent : Query S N;
  is_charging : Query S bool;
  time_to_empty : Query S (option N);
  time_to_full : Query S (option N);
}.
Record ThermalHal := mkThermalHal { thermal_zones : Query S (list ThermalZone); zone_temperature : string → Query S f32 }.
Record PowerHal := mkPowerHal { shutdown : Update S; reboot : Update S; suspend : Update S; can_suspend : Query S bool }.

(** The composition; [discover] emits to any sink. *)
Record Hal := mkHal {
  hal_cpu : CpuHal;
  hal_gpu : GpuHal;
  hal_display : DisplayHal;
  hal_keyboard : KeyboardHal;
  hal_pointing : PointingDeviceHal;
  hal_audio_output : AudioOutputHal;
  hal_microphone : MicrophoneHal;
  hal_camera : CameraHal;
  hal_wifi : WifiHal;
  hal_bluetooth : BluetoothHal;
  hal_ethernet : EthernetHal;
  hal_usb : UsbHal;
  hal_storage : StorageHal;
  hal_battery : BatteryHal;
  hal_thermal : ThermalHal;
  hal_power : PowerHal;
  hal_discover : ∀ K : Type, EventSink K → K → S → K * HalResult unit;
  hal_backend_name : string;
}.
End traits.

Arguments CpuHal : clear implicits.
Arguments GpuHal : clear implicits.
Arguments DisplayHal : clear implicits.
Arguments KeyboardHal : clear implicits.
Arguments PointingDeviceHal : clear implicits.
Arguments AudioOutputHal : clear implicits.
Arguments MicrophoneHal : clear implicits.
Arguments CameraHal : clear implicits.
Arguments WifiHal : clear implicits.
Arguments BluetoothHal : clear implicits.
Arguments EthernetHal : clear implicits.
Arguments UsbHal : clear implicits.
Arguments StorageHal : clear implicits.
Arguments BatteryHal : clear implicits.
Arguments ThermalHal : clear implicits.
Arguments PowerHal : clear implicits.
Arguments Hal : clear implicits.

(** ** aether-hal-mock: the state *)

Definition default_device_info (kind : HalDeviceKind) : DeviceInfo :=
  let name := match kind with
              | KCpu => "Mock CPU" | KGpu => "Mock GPU" | KDisplay => "Mock Display" | KKeyboard => "Mock Keyboard"
              | KTouchpad => "Mock Touchpad" | KMouse => "Mock Mouse" | KAudioOutput => "Mock Speakers"
              | KMicrophone => "Mock Mic" | KCamera => "Mock Camera" | KWifi => "Mock Wi-Fi"
              | KBluetooth => "Mock Bluetooth" | KEthernet => "Mock Ethernet" | KUsb => "Mock USB"
              | KStorage => "Mock Storage" | KBattery => "Mock Battery" | KThermalSensor => "Mock Thermal"
              | KPrinter => "Mock Printer" | KExternalDisplay => "Mock External" | KFutureSensor => "Mock Sensor"
              end in
  mkDeviceInfo ("mock-" +:+ HalDeviceKind_as_str kind) kind name "Aether Mock" name HdPresent HpSelfPowered [].

Record MockHalState := mkMockHalState {
  ms_cpu_usage : f32;
  ms_cpu_temp : option f32;
  ms_brightness : N;
  ms_display_mode : DisplayConfig;
  ms_volume : N;
  ms_audio_muted : bool;
  ms_audio_routes : list AudioRoute;
  ms_mic_gain : N;
  ms_mic_muted : bool;
  ms_wifi_state : WifiState;
  ms_wifi_networks : list WifiNetwork;
  ms_wifi_signal : N;
  ms_bt_state : BluetoothState;
  ms_bt_devices : list BluetoothDevice;
  ms_eth_link_up : bool;
  ms_eth_speed : N;
  ms_usb_devices : list UsbDevice;
  ms_storage_devices : list StorageDevice;
  ms_storage_mounts : list StorageMount;
  ms_battery_charge : N;
  ms_battery_charging : bool;
  ms_thermal_zones : list ThermalZone;
  ms_keyboard_leds : KeyboardLeds;
  ms_key_events : list KeyEvent;
  ms_pointing_events : list PointingEvent;
  ms_can_suspend : bool;
  ms_events : list DeviceEvent;
}.

(** 0.15, 0.1, 45.0 and 40.0 as [f32]. *)
Definition f32_0_15 : f32 := S754_finite false 10066330 (-26).
Definition f32_0_10 : f32 := S754_finite false 13421773 (-27).
Definition f32_45 : f32 := S754_finite false 11796480 (-18).
Definition f32_40 : f32 := S754_finite false 10485760 (-18).

Definition MockHalState_default : MockHalState := {|
  ms_cpu_usage := f32_0_15;
  ms_cpu_temp := Some f32_45;
  ms_brightness := 80;
  ms_display_mode := mkDisplayConfig 1920 1080 60 32 true;
  ms_volume := 75;
  ms_audio_muted := false;
  ms_audio_routes := [mkAudioRoute "speakers" "Speakers" true; mkAudioRoute "headphones" "Headphones" false];
  ms_mic_gain := 50;
  ms_mic_muted := false;
  ms_wifi_state := WsConnected;
  ms_wifi_networks := [mkWifiNetwork "Aether-Test" 85 true "5GHz"];
  ms_wifi_signal := 85;
  ms_bt_state := BtOn;
  ms_bt_devices := [];
  ms_eth_link_up := true;
  ms_eth_speed := 1000;
  ms_usb_devices := [];
  ms_storage_devices := [mkStorageDevice "/dev/sda" "Mock SSD" 256000000000 "ext4" false];
  ms_storage_mounts := [mkStorageMount "/dev/sda" "/" "ext4" 256000000000 128000000000 128000000000];
  ms_battery_charge := 85;
  ms_battery_charging := false;
  ms_thermal_zones := [mkThermalZone "cpu" "cpu" f32_45; mkThermalZone "gpu" "gpu" f32_40];
  ms_keyboard_leds := mkKeyboardLeds false false false;
  ms_key_events := [];
  ms_pointing_events := [];
  ms_can_suspend := true;
  ms_events := [];
|}.

(** Assignments to one field. *)
Definition put_brightness (v : N) (s : MockHalState) : MockHalState :=
  mkMockHalState (ms_cpu_usage s) (ms_cpu_temp s) v (ms_display_mode s) (ms_volume s) (ms_audio_muted s)
    (ms_audio_routes s) (ms_mic_gain s) (ms_mic_muted s) (ms_wifi_state s) (ms_wifi_networks s) (ms_wifi_signal
    s) (ms_bt_state s) (ms_bt_devices s) (ms_eth_link_up s) (ms_eth_speed s) (ms_usb_devices s)
    (ms_storage_devices s) (ms_storage_mounts s) (ms_battery_charge s) (ms_battery_charging s) (ms_thermal_zones
    s) (ms_keyboard_leds s) (ms_key_events s) (ms_pointing_events s) (ms_can_suspend s) (ms_events s).
Definition put_display_mode (v : DisplayConfig) (s : MockHalState) : MockHalState :=
  mkMockHalState (ms_cpu_usage s) (ms_cpu_temp s) (ms_brightness s) v (ms_volume s) (ms_audio_muted s)
    (ms_audio_routes s) (ms_mic_gain s) (ms_mic_muted s) (ms_wifi_state s) (ms_wifi_networks s) (ms_wifi_signal
    s) (ms_bt_state s) (ms_bt_devices s) (ms_eth_link_up s) (ms_eth_speed s) (ms_usb_devices s)
    (ms_storage_devices s) (ms_storage_mounts s) (ms_battery_charge s) (ms_battery_charging s) (ms_thermal_zones
    s) (ms_keyboard_leds s) (ms_key_events s) (ms_pointing_events s) (ms_can_suspend s) (ms_events s).
Definition put_volume (v : N) (s : MockHalState) : MockHalState :=
  mkMockHalState (ms_cpu_usage s) (ms_cpu_temp s) (ms_brightness s) (ms_display_mode s) v (ms_audio_muted s)
    (ms_audio_routes s) (ms_mic_gain s) (ms_mic_muted s) (ms_wifi_state s) (ms_wifi_networks s) (ms_wifi_signal
    s) (ms_bt_state s) (ms_bt_devices s) (ms_eth_link_up s) (ms_eth_speed s) (ms_usb_devices s)
    (ms_storage_devices s) (ms_storage_mounts s) (ms_battery_charge s) (ms_battery_charging s) (ms_thermal_zones
    s) (ms_keyboard_leds s) (ms_key_events s) (ms_pointing_events s) (ms_can_suspend s) (ms_events s).
Definition put_audio_muted (v : bool) (s : MockHalState) : MockHalState :=
  mkMockHalState (ms_cpu_usage s) (ms_cpu_temp s) (ms_brightness s) (ms_display_mode s) (ms_volume s) v
    (ms_audio_routes s) (ms_mic_gain s) (ms_mic_muted s) (ms_wifi_state s) (ms_wifi_networks s) (ms_wifi_signal
    s) (ms_bt_state s) (ms_bt_devices s) (ms_eth_link_up s) (ms_eth_speed s) (ms_usb_devices s)
    (ms_storage_devices s) (ms_storage_mounts s) (ms_battery_charge s) (ms_battery_charging s) (ms_thermal_zones
    s) (ms_keyboard_leds s) (ms_key_events s) (ms_pointing_events s) (ms_can_suspend s) (ms_events s).
Definition put_audio_routes (v : list AudioRoute) (s : MockHalState) : MockHalState :=
  mkMockHalState (ms_cpu_usage s) (ms_cpu_temp s) (ms_brightness s) (ms_display_mode s) (ms_volume s)
    (ms_audio_muted s) v (ms_mic_gain s) (ms_mic_muted s) (ms_wifi_state s) (ms_wifi_networks s) (ms_wifi_signal
    s) (ms_bt_state s) (ms_bt_devices s) (ms_eth_link_up s) (ms_eth_speed s) (ms_usb_devices s)
    (ms_storage_devices s) (ms_storage_mounts s) (ms_battery_charge s) (ms_battery_charging s) (ms_thermal_zones
    s) (ms_keyboard_leds s) (ms_key_events s) (ms_pointing_events s) (ms_can_suspend s) (ms_events s).
Definition put_mic_gain (v : N) (s : MockHalState) : MockHalState :=
  mkMockHalState (ms_cpu_usage s) (ms_cpu_temp s) (ms_brightness s) (ms_display_mode s) (ms_volume s)
    (ms_audio_muted s) (ms_audio_routes s) v (ms_mic_muted s) (ms_wifi_state s) (ms_wifi_networks s)
    (ms_wifi_signal s) (ms_bt_state s) (ms_bt_devices s) (ms_eth_link_up s) (ms_eth_speed s) (ms_usb_devices s)
    (ms_storage_devices s) (ms_storage_mounts s) (ms_battery_charge s) (ms_battery_charging s) (ms_thermal_zones
    s) (ms_keyboard_leds s) (ms_key_events s) (ms_pointing_events s) (ms_can_suspend s) (ms_events s).
Definition put_mic_muted (v : bool) (s : MockHalState) : MockHalState :=
  mkMockHalState (ms_cpu_usage s) (ms_cpu_temp s) (ms_brightness s) (ms_display_mode s) (ms_volume s)
    (ms_audio_muted s) (ms_audio_routes s) (ms_mic_gain s) v (ms_wifi_state s) (ms_wifi_networks s)
    (ms_wifi_signal s) (ms_bt_state s) (ms_bt_devices s) (ms_eth_link_up s) (ms_eth_speed s) (ms_usb_devices s)
    (ms_storage_devices s) (ms_storage_mounts s) (ms_battery_charge s) (ms_battery_charging s) (ms_thermal_zones
    s) (ms_keyboard_leds s) (ms_key_events s) (ms_pointing_events s) (ms_can_suspend s) (ms_events s).
Definition put_wifi_state (v : WifiState) (s : MockHalState) : MockHalState :=
  mkMockHalState (ms_cpu_usage s) (ms_cpu_temp s) (ms_brightness s) (ms_display_mode s) (ms_volume s)
    (ms_audio_muted s) (ms_audio_routes s) (ms_mic_gain s) (ms_mic_muted s) v (ms_wifi_networks s)
    (ms_wifi_signal s) (ms_bt_state s) (ms_bt_devices s) (ms_eth_link_up s) (ms_eth_speed s) (ms_usb_devices s)
    (ms_storage_devices s) (ms_storage_mounts s) (ms_battery_charge s) (ms_battery_charging s) (ms_thermal_zones
    s) (ms_keyboard_leds s) (ms_key_events s) (ms_pointing_events s) (ms_can_suspend s) (ms_events s).
Definition put_bt_state (v : BluetoothState) (s : MockHalState) : MockHalState :=
  mkMockHalState (ms_cpu_usage s) (ms_cpu_temp s) (ms_brightness s) (ms_display_mode s) (ms_volume s)
    (ms_audio_muted s) (ms_audio_routes s) (ms_mic_gain s) (ms_mic_muted s) (ms_wifi_state s) (ms_wifi_networks
    s) (ms_wifi_signal s) v (ms_bt_devices s) (ms_eth_link_up s) (ms_eth_speed s) (ms_usb_devices s)
    (ms_storage_devices s) (ms_storage_mounts s) (ms_battery_charge s) (ms_battery_charging s) (ms_thermal_zones
    s) (ms_keyboard_leds s) (ms_key_events s) (ms_pointing_events s) (ms_can_suspend s) (ms_events s).
Definition put_keyboard_leds (v : KeyboardLeds) (s : MockHalState) : MockHalState :=
  mkMockHalState (ms_cpu_usage s) (ms_cpu_temp s) (ms_brightness s) (ms_display_mode s) (ms_volume s)
    (ms_audio_muted s) (ms_audio_routes s) (ms_mic_gain s) (ms_mic_muted s) (ms_wifi_state s) (ms_wifi_networks
    s) (ms_wifi_signal s) (ms_bt_state s) (ms_bt_devices s) (ms_eth_link_up s) (ms_eth_speed s) (ms_usb_devices
    s) (ms_storage_devices s) (ms_storage_mounts s) (ms_battery_charge s) (ms_battery_charging s)
    (ms_thermal_zones s) v (ms_key_events s) (ms_pointing_events s) (ms_can_suspend s) (ms_events s).
Definition put_key_events (v : list KeyEvent) (s : MockHalState) : MockHalState :=
  mkMockHalState (ms_cpu_usage s) (ms_cpu_temp s) (ms_brightness s) (ms_display_mode s) (ms_volume s)
    (ms_audio_muted s) (ms_audio_routes s) (ms_mic_gain s) (ms_mic_muted s) (ms_wifi_state s) (ms_wifi_networks
    s) (ms_wifi_signal s) (ms_bt_state s) (ms_bt_devices s) (ms_eth_link_up s) (ms_eth_speed s) (ms_usb_devices
    s) (ms_storage_devices s) (ms_storage_mounts s) (ms_battery_charge s) (ms_battery_charging s)
    (ms_thermal_zones s) (ms_keyboard_leds s) v (ms_pointing_events s) (ms_can_suspend s) (ms_events s).
Definition put_pointing_events (v : list PointingEvent) (s : MockHalState) : MockHalState :=
  mkMockHalState (ms_cpu_usage s) (ms_cpu_temp s) (ms_brightness s) (ms_display_mode s) (ms_volume s)
    (ms_audio_muted s) (ms_audio_routes s) (ms_mic_gain s) (ms_mic_muted s) (ms_wifi_state s) (ms_wifi_networks
    s) (ms_wifi_signal s) (ms_bt_state s) (ms_bt_devices s) (ms_eth_link_up s) (ms_eth_speed s) (ms_usb_devices
    s) (ms_storage_devices s) (ms_storage_mounts s) (ms_battery_charge s) (ms_battery_charging s)
    (ms_thermal_zones s) (ms_keyboard_leds s) (ms_key_events s) v (ms_can_suspend s) (ms_events s).
Definition put_events (v : list DeviceEvent) (s : MockHalState) : MockHalState :=
  mkMockHalState (ms_cpu_usage s) (ms_cpu_temp s) (ms_brightness s) (ms_display_mode s) (ms_volume s)
    (ms_audio_muted s) (ms_audio_routes s) (ms_mic_gain s) (ms_mic_muted s) (ms_wifi_state s) (ms_wifi_networks
    s) (ms_wifi_signal s) (ms_bt_state s) (ms_bt_devices s) (ms_eth_link_up s) (ms_eth_speed s) (ms_usb_devices
    s) (ms_storage_devices s) (ms_storage_mounts s) (ms_battery_charge s) (ms_battery_charging s)
    (ms_thermal_zones s) (ms_keyboard_leds s) (ms_key_events s) (ms_pointing_events s) (ms_can_suspend s) v.

(** [Arc<Mutex<MockHalState>>]: the lock of a poisoned mutex is an error. *)
Record SharedMockState := mkSharedMockState { sh_poisoned : bool; sh_state : MockHalState }.
Definition new_mock_state : SharedMockState := mkSharedMockState false MockHalState_default.

Definition poison_error : HalError := HeIoError "poisoned lock: another task failed inside".

(** Reading under the lock, and changing the state under it. *)
Definition locked {A} (f : MockHalState → HalResult A) : Query SharedMockState A := λ m,
  if sh_poisoned m then Err poison_error else f (sh_state m).
Definition field {A} (f : MockHalState → A) : Query SharedMockState A := locked (λ s, Ok (f s)).
Definition assign (f : MockHalState → MockHalState) : Update SharedMockState := λ m,
  if sh_poisoned m then (m, Err poison_error) else (mkSharedMockState false (f (sh_state m)), Ok tt).
(** [std::mem::take] under the lock. *)
Definition take_field {A} (f : MockHalState → list A) (put : list A → MockHalState → MockHalState)
    (m : SharedMockState) : SharedMockState * HalResult (list A) :=
  if sh_poisoned m then (m, Err poison_error) else (mkSharedMockState false (put [] (sh_state m)), Ok (f (sh_state m))).
Definition constant {A} (a : A) : Query SharedMockState A := λ _, Ok a.
Definition no_effect : Update SharedMockState := λ m, (m, Ok tt).

(** ** aether-hal-mock: the parts *)

Definition MockCpuHal : CpuHal SharedMockState := {|
  cpu_info := constant (mkCpuInfo "Mock CPU @ 3.0 GHz" 4 3000 3000);
  cpu_usage := field ms_cpu_usage;
  cpu_temperature := field ms_cpu_temp;
|}.
Definition MockGpuHal : GpuHal SharedMockState := {|
  gpu_info := constant (mkGpuInfo "Mock GPU" 256 "mock-drm");
  gpu_usage := constant f32_0_10;
|}.
Definition MockDisplayHal : DisplayHal SharedMockState := {|
  display_config := field ms_display_mode;
  set_brightness percent := assign (put_brightness percent);
  brightness := field ms_brightness;
  display_modes := constant [mkDisplayMode 1920 1080 60; mkDisplayMode 1920 1080 144; mkDisplayMode 2560 1440 60];
  set_mode mode := assign (put_display_mode (mkDisplayConfig (dm_width mode) (dm_height mode) (dm_refresh_hz mode) 32 true));
|}.
Definition MockKeyboardHal : KeyboardHal SharedMockState := {|
  keyboard_info := constant (mkKeyboardInfo "Mock Keyboard" 104 "us");
  read_keys := take_field ms_key_events put_key_events;
  set_leds leds := assign (put_keyboard_leds leds);
|}.
Definition MockPointingHal : PointingDeviceHal SharedMockState := {|
  pointing_info := constant (mkPointingInfo "Mock Mouse" PkMouse 1920 1080);
  read_events := take_field ms_pointing_events put_pointing_events;
  set_acceleration _ := no_effect;
  set_tap_to_click _ := no_effect;
|}.
Definition activate_route (route : string) (r : AudioRoute) : AudioRoute :=
  mkAudioRoute (ar_id r) (ar_name r) (ar_id r =? route)%string.
Definition MockAudioOutputHal : AudioOutputHal SharedMockState := {|
  audio_info := constant (mkAudioInfo "Mock Audio" "mock-pulse" 48000 2);
  volume := field ms_volume;
  set_volume percent := assign (put_volume percent);
  audio_is_muted := field ms_audio_muted;
  audio_set_muted muted := assign (put_audio_muted muted);
  set_route route := assign (λ s, put_audio_routes (activate_route route <$> ms_audio_routes s) s);
  audio_routes := field ms_audio_routes;
|}.
Definition MockMicrophoneHal : MicrophoneHal SharedMockState := {|
  mic_info := constant (mkAudioInfo "Mock Mic" "mock-pulse" 48000 1);
  gain := field ms_mic_gain;
  set_gain percent := assign (put_mic_gain percent);
  mic_is_muted := field ms_mic_muted;
  mic_set_muted muted := assign (put_mic_muted muted);
|}.
Definition MockCameraHal : CameraHal SharedMockState := {|
  camera_info := constant (mkCameraInfo "Mock Camera" [(640, 480); (1280, 720); (1920, 1080)]%N [15; 30; 60]%N);
  resolution := constant (1280, 720)%N;
  set_resolution _ _ := no_effect;
  frame_rate := constant 30%N;
  set_frame_rate _ := no_effect;
|}.
Definition MockWifiHal : WifiHal SharedMockState := {|
  wifi_info := constant (mkWifiInfo "Mock Wi-Fi" ["2.4GHz"; "5GHz"] ["802.11ac"; "802.11ax"]);
  wifi_state := field ms_wifi_state;
  wifi_scan := field ms_wifi_networks;
  wifi_connect _ _ := assign (put_wifi_state WsConnected);
  wifi_disconnect := assign (put_wifi_state WsDisconnected);
  signal_strength := field ms_wifi_signal;
|}.
Definition MockBluetoothHal : BluetoothHal SharedMockState := {|
  bluetooth_info := constant (mkBluetoothInfo "Mock BT" "AA:BB:CC:DD:EE:FF" ["A2DP"; "HFP"]);
  bluetooth_state := field ms_bt_state;
  start_discovery := assign (put_bt_state BtDiscovering);
  stop_discovery := assign (put_bt_state BtOn);
  discovered := field ms_bt_devices;
  bt_pair _ := no_effect;
  bt_connect _ := no_effect;
  bt_disconnect _ := no_effect;
|}.
Definition MockEthernetHal : EthernetHal SharedMockState := {|
  ethernet_info := constant (mkEthernetInfo "eth0" "00:11:22:33:44:55" "mock-e1000");
  link_up := field ms_eth_link_up;
  speed_mbps := field ms_eth_speed;
|}.
Definition MockUsbHal : UsbHal SharedMockState := {|
  usb_enumerate := field ms_usb_devices;
  usb_info := constant (mkUsbInfo "Mock USB Controller" "3.0" 4);
|}.
Definition MockStorageHal : StorageHal SharedMockState := {|
  storage_devices := field ms_storage_devices;
  storage_mounts := field ms_storage_mounts;
|}.
Definition MockBatteryHal : BatteryHal SharedMockState := {|
  battery_info := constant (mkBatteryInfo "Mock Battery" 5000 4250 50 95);
  charge_percent := field ms_battery_charge;
  is_charging := field ms_battery_charging;
  time_to_empty := constant (Some 7200%N);
  time_to_full := constant (Some 3600%N);
|}.
Definition MockThermalHal : ThermalHal SharedMockState := {|
  thermal_zones := field ms_thermal_zones;
  zone_temperature zone := locked (λ s,
    match find_b (λ z, (tz_name z =? zone)%string) (ms_thermal_zones s) with
    | Some z => Ok (tz_temperature_c z)
    | None => Err HeNotFound
    end);
|}.
Definition MockPowerHal : PowerHal SharedMockState := {|
  shutdown := assign (λ s, put_events (ms_events s ++
    [mkDeviceEvent "system" KCpu (PowerChanged HpSelfPowered HpPowerOff) 0]) s);
  reboot := no_effect;
  suspend := no_effect;
  can_suspend := field ms_can_suspend;
|}.

Definition discovered_kinds : list HalDeviceKind :=
  [KCpu; KGpu; KDisplay; KKeyboard; KMouse; KAudioOutput; KMicrophone; KWifi; KEthernet; KUsb; KStorage; KBattery;
   KThermalSensor].

Definition mock_discover (K : Type) (sink : EventSink K) (k : K) (_ : SharedMockState) : K * HalResult unit :=
  (foldl (λ k kind, emit (mkDeviceEvent ("mock-" +:+ HalDeviceKind_as_str kind) kind Appeared 0) k) k discovered_kinds, Ok tt).

Definition MockHal : Hal SharedMockState :=
  mkHal MockCpuHal MockGpuHal MockDisplayHal MockKeyboardHal MockPointingHal MockAudioOutputHal MockMicrophoneHal
    MockCameraHal MockWifiHal MockBluetoothHal MockEthernetHal MockUsbHal MockStorageHal MockBatteryHal MockThermalHal
    MockPowerHal mock_discover "mock".

(** * Properties of the hardware abstraction layer *)

(** ** The settings of a machine *)

Inductive Setting := SeBrightness | SeVolume | SeGain | SeAudioMuted | SeMicMuted.

#[export] Instance Setting_eq_dec : EqDecision Setting.
Proof. solve_decision. Defined.

(** The values of a setting: a percentage or a switch. *)
Definition value_of (k : Setting) : Type := match k with SeAudioMuted | SeMicMuted => bool | _ => N end.

Definition setting_get {S} (h : Hal S) (k : Setting) : Query S (value_of k) :=
  match k with
  | SeBrightness => brightness (hal_display h)
  | SeVolume => volume (hal_audio_output h)
  | SeGain => gain (hal_microphone h)
  | SeAudioMuted => audio_is_muted (hal_audio_output h)
  | SeMicMuted => mic_is_muted (hal_microphone h)
  end.

Definition setting_set {S} (h : Hal S) (k : Setting) : value_of k → Update S :=
  match k with
  | SeBrightness => set_brightness (hal_display h)
  | SeVolume => set_volume (hal_audio_output h)
  | SeGain => set_gain (hal_microphone h)
  | SeAudioMuted => audio_set_muted (hal_audio_output h)
  | SeMicMuted => mic_set_muted (hal_microphone h)
  end.

(** What a client relies on: a machine that works goes on working, a setting has the
    value it was given, and the other settings keep theirs. *)
Class HalSettings {S} (h : Hal S) (works : S → Prop) : Prop := {
  settings_read k s : works s → ∃ v, setting_get h k s = Ok v;
  settings_set k v s : works s → ∃ s', setting_set h k v s = (s', Ok tt) ∧ works s' ∧ setting_get h k s' = Ok v;
  settings_frame k v s s' r k' : works s → setting_set h k v s = (s', r) → k' ≠ k → setting_get h k' s' = setting_get h k' s;
}.

Section client.
Context {S : Type} {h : Hal S} {works : S → Prop} `{!HalSettings h works}.

(** The last value a setting is given by a list of assignments. *)
Fixpoint last_value (k : Setting) (d : value_of k) (ops : list (sigT value_of)) : value_of k :=
  match ops with
  | [] => d
  | existT k' v :: ops =>
      last_value k (match decide (k' = k) with left E => eq_rect k' value_of v k E | right _ => d end) ops
  end.

Definition run_settings (ops : list (sigT value_of)) (s : S) : S :=
  foldl (λ s op, (setting_set h (projT1 op) (projT2 op) s).1) s ops.

(** After any assignments a setting has the last value it was given, or the one it had
    when it was given none. *)
Lemma settings_keep_last ops k s v : works s → setting_get h k s = Ok v →
  works (run_settings ops s) ∧ setting_get h k (run_settings ops s) = Ok (last_value k v ops).
Proof.
  revert s v. induction ops as [|[k' v'] ops IH]; intros s v Hs Hv; cbn; [done|].
  destruct (settings_set k' v' s Hs) as (s' & Es & Hs' & Hget). rewrite Es. cbn. apply IH; [done|].
  destruct (decide (k' = k)) as [->|Hne]; [done|]. rewrite <-Hv. by eapply settings_frame.
Qed.
End client.

(** The mock works while its lock is not poisoned. *)
Definition mock_works (m : SharedMockState) : Prop := sh_poisoned m = false.

#[export] Instance MockHal_settings : HalSettings MockHal mock_works.
Proof.
  split.
  - intros k [p s] Hp. change (p = false) in Hp. subst p. destruct k; by eexists.
  - intros k v [p s] Hp. change (p = false) in Hp. subst p. destruct k; eexists; (split; [reflexivity|]); done.
  - intros k v [p s] s' r k' Hp. change (p = false) in Hp. subst p.
    destruct k, k'; try done; cbn; intros [= <- _] _; done.
Qed.

(** The settings of the mock behave as variables: from a fresh mock, over any
    assignments, each one has the last value it was given, even one beyond a hundred
    percent, or its default. *)
Theorem mock_settings_are_variables ops k v : setting_get MockHal k new_mock_state = Ok v →
  setting_get MockHal k (run_settings (h := MockHal) ops new_mock_state) = Ok (last_value k v ops).
Proof. intros Hv. by apply (settings_keep_last (works := mock_works)). Qed.

Lemma mock_settings_are_variables_witness :
  setting_get MockHal SeVolume
    (run_settings (h := MockHal) [existT SeVolume 30%N; existT SeAudioMuted true; existT SeVolume 200%N] new_mock_state) = Ok 200%N.
Proof.
  apply (mock_settings_are_variables [existT SeVolume 30%N; existT SeAudioMuted true; existT SeVolume 200%N] SeVolume 75%N).
  reflexivity.
Defined.

(** ** Input *)

(** Keys are read once: after the queue was read it is empty. *)
Theorem keys_read_once m : mock_works m → let '(m', r) := read_keys (hal_keyboard MockHal) m in
  r = Ok (ms_key_events (sh_state m)) ∧ (read_keys (hal_keyboard MockHal) m').2 = Ok [].
Proof. destruct m as [p s]. intros Hp. change (p = false) in Hp. by subst p. Qed.

(** ** Routes *)

(** Setting a route activates the routes of that id and no other; with an id that no
    route has, none is active any more, and there is no error. *)
Theorem route_selected route m : mock_works m →
  let '(m', r) := set_route (hal_audio_output MockHal) route m in
  r = Ok tt ∧ ∃ l, audio_routes (hal_audio_output MockHal) m' = Ok l ∧ length l = length (ms_audio_routes (sh_state m)) ∧
    ∀ x, x ∈ l → (ar_active x = true ↔ ar_id x = route).
Proof.
  destruct m as [p s]. intros Hp. change (p = false) in Hp. subst p. split; [done|]. eexists. split; [reflexivity|]. cbn.
  split; [by rewrite length_fmap|]. intros x (y & -> & _)%list_elem_of_fmap. cbn. apply String.eqb_eq.
Qed.

(** ** Failure *)

(** Everything that can change the mock or reads its state. *)
Inductive HalOp :=
| HoSet (k : Setting) (v : value_of k) | HoMode (m : DisplayMode) | HoLeds (l : KeyboardLeds) | HoRoute (r : string)
| HoWifiConnect (ssid : string) (password : option string) | HoWifiDisconnect | HoStartDiscovery | HoStopDiscovery | HoShutdown
| HoReadKeys | HoReadEvents.

Definition hal_op {S} (h : Hal S) (op : HalOp) (s : S) : S * HalResult unit :=
  match op with
  | HoSet k v => setting_set h k v s
  | HoMode m => set_mode (hal_display h) m s
  | HoLeds l => set_leds (hal_keyboard h) l s
  | HoRoute r => set_route (hal_audio_output h) r s
  | HoWifiConnect ssid password => wifi_connect (hal_wifi h) ssid password s
  | HoWifiDisconnect => wifi_disconnect (hal_wifi h) s
  | HoStartDiscovery => start_discovery (hal_bluetooth h) s
  | HoStopDiscovery => stop_discovery (hal_bluetooth h) s
  | HoShutdown => shutdown (hal_power h) s
  | HoReadKeys => let '(s, r) := read_keys (hal_keyboard h) s in (s, match r with Ok _ => Ok tt | Err e => Err e end)
  | HoReadEvents => let '(s, r) := read_events (hal_pointing h) s in (s, match r with Ok _ => Ok tt | Err e => Err e end)
  end.

(** An operation of the mock fails exactly when the lock is poisoned, and then changes
    nothing; it never poisons the lock. *)
Theorem mock_fails_only_poisoned op m : let '(m', r) := hal_op MockHal op m in
  sh_poisoned m' = sh_poisoned m ∧
  (if sh_poisoned m then m' = m ∧ r = Err poison_error else r = Ok tt).
Proof. destruct m as [[] s]; destruct op as [[] v| | | | | | | | | |]; done. Qed.

(** Connecting to a network of any name with any password succeeds. *)
Theorem wifi_connects_to_anything ssid password m : mock_works m →
  let '(m', r) := wifi_connect (hal_wifi MockHal) ssid password m in
  r = Ok tt ∧ wifi_state (hal_wifi MockHal) m' = Ok WsConnected.
Proof. destruct m as [p s]. intros Hp. change (p = false) in Hp. by subst p. Qed.
