(* ===== verification/Profiles.v ===== *)
(** * Hardware profiles and telemetry

    Models system/aether-hardware-profiles/src/lib.rs, the profiles of machines and
    their registry, and system/aether-telemetry/src/lib.rs, the collector behind the
    consent of the user. *)
From S2P Require Import Prelude RustStd Diagnostics Hal.

(** ** Profiles *)

Inductive Platform := PlQemu | PlDesktop | PlLaptop | PlIot | PlServer | PlArmSbc.
Inductive GpuKind := GkVirtio | GkIntelIntegrated | GkAmdDiscrete | GkNvidiaDiscrete | GkSoftware.
Inductive StorageKind := SkVirtioBlock | SkSata | SkNvme | SkEmmc.

Record CpuProfile := mkCpuProfile { cpp_model_contains : string; cpp_min_cores : N; cpp_min_freq_mhz : N; cpp_has_thermal : bool }.
Record GpuProfile := mkGpuProfile { gpp_kind : GpuKind; gpp_driver : string; gpp_min_vram_mib : N; gpp_hardware_accel : bool }.
Record DisplayProfile := mkDisplayProfile {
  dpp_min_resolution : N * N; dpp_preferred_refresh_hz : N; dpp_has_brightness : bool; dpp_multi_monitor : bool }.
Record InputProfile := mkInputProfile {
  inp_has_keyboard : bool; inp_has_touchpad : bool; inp_has_mouse : bool; inp_has_touchscreen : bool; inp_has_trackpoint : bool }.
Record AudioProfile := mkAudioProfile {
  aup_driver : string; aup_has_speakers : bool; aup_has_microphone : bool; aup_has_headphone_jack : bool; aup_has_hdmi_audio : bool }.
Record NetworkProfile := mkNetworkProfile {
  np_has_wifi : bool; np_wifi_driver : option string; np_has_bluetooth : bool; np_bluetooth_driver : option string;
  np_has_ethernet : bool; np_ethernet_driver : option string }.
Record StorageProfile := mkStorageProfile { stp_kind : StorageKind; stp_min_size_gib : N; stp_nvme : bool }.
Record PowerProfile := mkPowerProfile { pwp_has_battery : bool; pwp_supports_suspend : bool; pwp_has_wol : bool }.
Record DriverRequirement := mkDriverRequirement {
  dr_module : string; dr_kind : HalDeviceKind; dr_required : bool; dr_fallback : option string }.

Record HardwareProfile := mkHardwareProfile {
  hp_id : string;
  hp_name : string;
  hp_version : string;
  hp_platform : Platform;
  hp_cpu : CpuProfile;
  hp_gpu : GpuProfile;
  hp_display : DisplayProfile;
  hp_input : InputProfile;
  hp_audio : AudioProfile;
  hp_network : NetworkProfile;
  hp_storage : StorageProfile;
  hp_power : PowerProfile;
  hp_quirks : list string;
  hp_drivers : list DriverRequirement;
}.

Definition has_device_kind (p : HardwareProfile) (k : HalDeviceKind) : bool :=
  match k, hp_platform p with
  | KCpu, _ | KGpu, _ | KDisplay, _ => true
  | KKeyboard, (PlLaptop | PlDesktop) => true
  | KTouchpad, PlLaptop => true
  | KMouse, (PlDesktop | PlQemu) => true
  | KAudioOutput, _ => true
  | KMicrophone, (PlLaptop | PlDesktop) => true
  | KWifi, PlLaptop | KBluetooth, PlLaptop => true
  | KEthernet, _ | KStorage, _ => true
  | KBattery, PlLaptop => true
  | _, _ => false
  end.

Definition required_drivers (p : HardwareProfile) : list DriverRequirement := List.filter dr_required (hp_drivers p).

(** A [ProfileRegistry] is its map; the entries in the order in which a [HashMap] is
    iterated are the argument [order]. *)
Definition ProfileRegistry : Type := gmap string HardwareProfile.
Definition ProfileRegistry_new : ProfileRegistry := ∅.

Section registry.
Context (order : ProfileRegistry → list (string * HardwareProfile)).
Implicit Types (r : ProfileRegistry).

Definition register_profile (p : HardwareProfile) r : ProfileRegistry := <[hp_id p := p]> r.
Definition get_profile (id : string) r : option HardwareProfile := r !! id.
Definition profile_ids r : list string := fst <$> order r.

Definition matching (detected : list HalDeviceKind) (p : HardwareProfile) : nat := length (List.filter (has_device_kind p) detected).

(** [max_by_key]: the last of the greatest. *)
Definition better (key : HardwareProfile → nat) (best : option HardwareProfile) (p : HardwareProfile) : option HardwareProfile :=
  match best with
  | Some b => if (key b <=? key p)%nat then Some p else Some b
  | None => Some p
  end.
Definition best_match (detected : list HalDeviceKind) r : option HardwareProfile :=
  foldl (better (matching detected)) None (snd <$> order r).
End registry.

Definition qemu_standard_profile : HardwareProfile :=
  mkHardwareProfile "qemu-standard" "QEMU Standard Virtual Machine" "1.0" PlQemu
    (mkCpuProfile "QEMU" 2 2000 false)
    (mkGpuProfile GkVirtio "virtio-gpu" 128 false)
    (mkDisplayProfile (1024, 768)%N 60 false false)
    (mkInputProfile true false true false false)
    (mkAudioProfile "hda" true true false false)
    (mkNetworkProfile false None false None true (Some "e1000"))
    (mkStorageProfile SkVirtioBlock 20 false)
    (mkPowerProfile false false false)
    ["no-acpi-battery"; "virtio-input"]
    [mkDriverRequirement "virtio-pci" KStorage true None; mkDriverRequirement "virtio-gpu" KGpu true (Some "bochs");
     mkDriverRequirement "e1000" KEthernet true (Some "rtl8139"); mkDriverRequirement "hda-intel" KAudioOutput false None].

Definition laptop_profile : HardwareProfile :=
  mkHardwareProfile "generic-laptop" "Generic Laptop" "1.0" PlLaptop
    (mkCpuProfile "" 2 1500 true)
    (mkGpuProfile GkIntelIntegrated "i915" 256 true)
    (mkDisplayProfile (1366, 768)%N 60 true false)
    (mkInputProfile true true false false false)
    (mkAudioProfile "hda-intel" true true true true)
    (mkNetworkProfile true (Some "iwlwifi") true (Some "btintel") true (Some "e1000e"))
    (mkStorageProfile SkNvme 128 true)
    (mkPowerProfile true true true)
    []
    [mkDriverRequirement "i915" KGpu true (Some "modesetting"); mkDriverRequirement "iwlwifi" KWifi true None;
     mkDriverRequirement "btintel" KBluetooth false None; mkDriverRequirement "snd-hda-intel" KAudioOutput true None].

(** ** Telemetry *)

Inductive ConsentState := ConsentOff | ConsentOn.

Definition is_enabled (c : ConsentState) : bool := match c with ConsentOn => true | ConsentOff => false end.

(** The value is an [f64], which is only passed on. *)
Record TelemetryRecord := mkTelemetryRecord {
  tr_metric : string; tr_value : SpecFloat.spec_float; tr_timestamp_ms : N; tr_unit : option string }.

Record ConsentChangeEvent := mkConsentChangeEvent {
  cc_from : ConsentState; cc_to : ConsentState; cc_timestamp_ms : N; cc_reason : option string }.

Definition TELEMETRY_DATA_SET : list string :=
  ["system.uptime_ms"; "system.boot_count"; "memory.total_bytes"; "memory.used_bytes"; "memory.available_bytes";
   "storage.total_bytes"; "storage.used_bytes"; "storage.mount_count"; "cpu.core_count"; "cpu.model"; "process.total_count";
   "process.running_count"; "network.interface_count"; "aether.version"; "aether.os_type"].

Definition TELEMETRY_NEVER_COLLECTS : list string :=
  ["user names or real names"; "email addresses"; "IP addresses (beyond local interface names)"; "file paths or file contents";
   "passwords, tokens, API keys, or credentials"; "SSH keys or certificates"; "browser history"; "document contents";
   "chat messages or AI conversations"; "keystrokes or input recordings"; "screen captures"; "geolocation data";
   "hardware serial numbers"; "MAC addresses"; "clipboard contents"].

Record TelemetryCollector := mkTelemetryCollector { tc_consent : ConsentState; tc_history : list ConsentChangeEvent }.

Section telemetry.
Implicit Types (c : TelemetryCollector).

Definition TelemetryCollector_new : TelemetryCollector := mkTelemetryCollector ConsentOff [].

Definition set_consent (state : ConsentState) (now_ms : N) (reason : option string) c : TelemetryCollector * ConsentChangeEvent :=
  let event := mkConsentChangeEvent (tc_consent c) state now_ms reason in
  (mkTelemetryCollector state (tc_history c ++ [event]), event).

Definition collect (r : TelemetryRecord) c : option TelemetryRecord := if is_enabled (tc_consent c) then Some r else None.

Definition revoke_and_clear (now_ms : N) c : TelemetryCollector * ConsentChangeEvent :=
  let event := mkConsentChangeEvent (tc_consent c) ConsentOff now_ms (Some "User revoked consent") in
  (mkTelemetryCollector ConsentOff (tc_history c ++ [event]), event).

Definition uninstall (now_ms : N) c : TelemetryCollector * list ConsentChangeEvent :=
  let event := mkConsentChangeEvent (tc_consent c) ConsentOff now_ms (Some "Uninstall: all telemetry data deleted") in
  (mkTelemetryCollector ConsentOff [], tc_history c ++ [event]).
End telemetry.

(** * Properties of profiles and telemetry *)

Lemma better_greatest key l best :
  match foldl (better key) best l with
  | None => best = None ∧ l = []
  | Some p => (p ∈ l ∨ best = Some p) ∧ (∀ q, q ∈ l ∨ best = Some q → key q ≤ key p)
  end.
Proof.
  revert best. induction l as [|x l IH]; intros best; cbn [foldl].
  - destruct best; [split; [by right|]|done]. intros q [Hq|[= ->]]; [by apply elem_of_nil in Hq|done].
  - specialize (IH (better key best x)). destruct (foldl _ _ l) as [p|]; [|destruct best; cbn in IH; [case_match|]; naive_solver].
    destruct IH as [Hin Hmax]. destruct best as [b|]; cbn in *.
    + destruct (Nat.leb_spec (key b) (key x)); (split; [set_solver|]); intros q Hq; rewrite elem_of_cons in Hq;
        pose proof (Hmax x); pose proof (Hmax b); pose proof (Hmax q); naive_solver lia.
    + split; [set_solver|]. intros q Hq. rewrite elem_of_cons in Hq. pose proof (Hmax x). pose proof (Hmax q). naive_solver.
Qed.

(** In whatever order the registry is iterated, a match is found exactly when it is not
    empty, it is one of its profiles, and no profile has more of the detected devices. *)
Theorem best_match_is_greatest order detected r : order r ≡ₚ map_to_list r →
  match best_match order detected r with
  | None => r = ∅
  | Some p => (∃ id, get_profile id r = Some p) ∧
      ∀ id q, get_profile id r = Some q → matching detected q ≤ matching detected p
  end.
Proof.
  intros Hperm. unfold best_match, get_profile.
  assert (∀ p, p ∈ snd <$> order r ↔ ∃ id, r !! id = Some p) as Ho.
  { intros p. rewrite Hperm, list_elem_of_fmap. split; [|intros [id Hid%elem_of_map_to_list]; by exists (id, p)].
    intros ([id q] & -> & Hq%elem_of_map_to_list). by exists id. }
  pose proof (better_greatest (matching detected) (snd <$> order r) None) as Hb.
  destruct (foldl _ _ _) as [p|].
  - destruct Hb as [[Hin|] Hmax]; [|done]. split; [by apply Ho|]. intros id q Hq. apply Hmax. left. apply Ho. eauto.
  - destruct Hb as [_ Hl]. apply map_empty. intros id. destruct (r !! id) as [p|] eqn:E; [|done].
    assert (p ∈ snd <$> order r) as Hp by (apply Ho; eauto). rewrite Hl in Hp. by apply elem_of_nil in Hp.
Qed.

(** The QEMU profile has a keyboard and a microphone, and is said to have neither. *)
Example qemu_keyboard_unseen :
  inp_has_keyboard (hp_input qemu_standard_profile) = true ∧ has_device_kind qemu_standard_profile KKeyboard = false ∧
  aup_has_microphone (hp_audio qemu_standard_profile) = true ∧ has_device_kind qemu_standard_profile KMicrophone = false.
Proof. done. Qed.

Inductive TelemetryOp := ToSet (s : ConsentState) (now : N) (reason : option string) | ToRevoke (now : N) | ToUninstall (now : N).

Definition telemetry_step (op : TelemetryOp) (c : TelemetryCollector) : TelemetryCollector :=
  match op with
  | ToSet s now reason => (set_consent s now reason c).1
  | ToRevoke now => (revoke_and_clear now c).1
  | ToUninstall now => (uninstall now c).1
  end.

(** The changes lead from one state to another. *)
Fixpoint consent_path (from : ConsentState) (l : list ConsentChangeEvent) (to : ConsentState) : Prop :=
  match l with
  | [] => from = to
  | e :: l => cc_from e = from ∧ consent_path (cc_to e) l to
  end.

Lemma consent_path_snoc a l e b : consent_path a l (cc_from e) → cc_to e = b → consent_path a (l ++ [e]) b.
Proof. revert a. induction l as [|x l IH]; intros a; cbn; [naive_solver|]. intros [-> H] He. split; [done|]. by apply IH. Qed.

(** Over any changes of consent, the history leads without a gap from the consent being
    off to what it is now, and a record is collected exactly when consent was last given
    and neither revoked nor deleted since. *)
Theorem telemetry_follows_consent ops r :
  let c := foldl (λ c op, telemetry_step op c) TelemetryCollector_new ops in
  consent_path ConsentOff (tc_history c) (tc_consent c) ∧
  (collect r c = Some r ↔ ∃ now reason, last ops = Some (ToSet ConsentOn now reason)) ∧
  (collect r c = None ∨ collect r c = Some r).
Proof.
  cbv zeta. split_and!.
  - assert (∀ c, consent_path ConsentOff (tc_history c) (tc_consent c) →
      let c' := foldl (λ c op, telemetry_step op c) c ops in consent_path ConsentOff (tc_history c') (tc_consent c')) as Hrun.
    { induction ops as [|op ops IH]; intros c Hc; cbn [foldl]; [done|]. apply IH. destruct op; cbn; [| |done];
        by apply consent_path_snoc. }
    by apply Hrun.
  - destruct ops as [|op l _] using rev_ind; [cbn; naive_solver|].
    rewrite foldl_snoc, last_snoc. unfold collect. destruct op as [[]| |]; cbn; naive_solver.
  - unfold collect. destruct (is_enabled _); auto.
Qed.
