(* ===== verification/WindowManager.v ===== *)
(** * The window manager

    Models graphics/aether-wm/src/lib.rs.  Coordinates are [i32] and sizes
    [u32]; an addition that leaves its type is a panic, [None]. *)
From S2P Require Import Prelude RustStd.

Inductive WindowState := WsNormal | WsMinimized | WsMaximized | WsFullscreen.
#[export] Instance WindowState_eq_dec : EqDecision WindowState.
Proof. solve_decision. Defined.

Definition WindowState_display (s : WindowState) : string :=
  match s with
  | WsNormal => "normal" | WsMinimized => "minimized" | WsMaximized => "maximized"
  | WsFullscreen => "fullscreen"
  end.

Definition Rect : Type := Z * Z * N * N.

Record Window := mkWindow {
  win_id : N;
  win_app_id : string;
  win_title : string;
  win_x : Z;
  win_y : Z;
  win_width : N;
  win_height : N;
  win_state : WindowState;
  win_focused : bool;
  win_visible : bool;
  win_surface_id : option string;
  win_process_id : option N;
  win_session_id : string;
  win_workspace_id : N;
  win_restore_rect : option Rect;
}.

Definition win_rect (w : Window) : Rect := (win_x w, win_y w, win_width w, win_height w).

(** The updates of a window. *)
Definition set_focused (b : bool) (w : Window) : Window :=
  mkWindow (win_id w) (win_app_id w) (win_title w) (win_x w) (win_y w) (win_width w) (win_height w)
    (win_state w) b (win_visible w) (win_surface_id w) (win_process_id w) (win_session_id w)
    (win_workspace_id w) (win_restore_rect w).
Definition set_visible (b : bool) (w : Window) : Window :=
  mkWindow (win_id w) (win_app_id w) (win_title w) (win_x w) (win_y w) (win_width w) (win_height w)
    (win_state w) (win_focused w) b (win_surface_id w) (win_process_id w) (win_session_id w)
    (win_workspace_id w) (win_restore_rect w).
Definition set_win_state (s : WindowState) (w : Window) : Window :=
  mkWindow (win_id w) (win_app_id w) (win_title w) (win_x w) (win_y w) (win_width w) (win_height w)
    s (win_focused w) (win_visible w) (win_surface_id w) (win_process_id w) (win_session_id w)
    (win_workspace_id w) (win_restore_rect w).
Definition set_rect (r : Rect) (w : Window) : Window :=
  let '(x, y, width, height) := r in
  mkWindow (win_id w) (win_app_id w) (win_title w) x y width height
    (win_state w) (win_focused w) (win_visible w) (win_surface_id w) (win_process_id w)
    (win_session_id w) (win_workspace_id w) (win_restore_rect w).
Definition set_restore (r : option Rect) (w : Window) : Window :=
  mkWindow (win_id w) (win_app_id w) (win_title w) (win_x w) (win_y w) (win_width w) (win_height w)
    (win_state w) (win_focused w) (win_visible w) (win_surface_id w) (win_process_id w)
    (win_session_id w) (win_workspace_id w) r.
Definition set_workspace (k : N) (w : Window) : Window :=
  mkWindow (win_id w) (win_app_id w) (win_title w) (win_x w) (win_y w) (win_width w) (win_height w)
    (win_state w) (win_focused w) (win_visible w) (win_surface_id w) (win_process_id w)
    (win_session_id w) k (win_restore_rect w).
Definition set_tracking (surface : option string) (process : option N) (session : string) (w : Window) :
    Window :=
  mkWindow (win_id w) (win_app_id w) (win_title w) (win_x w) (win_y w) (win_width w) (win_height w)
    (win_state w) (win_focused w) (win_visible w) surface process session (win_workspace_id w)
    (win_restore_rect w).

Definition is_minimized (w : Window) : bool := bool_decide (win_state w = WsMinimized).

(** [i32] arithmetic. *)
Definition i32_ok (z : Z) : bool := ((-2147483648 <=? z) && (z <=? 2147483647))%Z.
Definition i32_add (a b : Z) : option Z := if i32_ok (a + b) then Some (a + b)%Z else None.
(** [n as i32] for a [u32]. *)
Definition as_i32 (n : N) : Z :=
  let z := Z.of_N (n mod 4294967296) in if (z <=? 2147483647)%Z then z else (z - 4294967296)%Z.

Definition TITLE_H : N := 28.
Definition content_rect (w : Window) : option Rect :=
  if is_minimized w then Some (0%Z, 0%Z, 0%N, 0%N)
  else
    y ← i32_add (win_y w) (as_i32 TITLE_H);
    Some (win_x w, y, win_width w, saturating_sub (win_height w) TITLE_H).

Record ScreenArea := mkScreenArea { sa_x : Z; sa_y : Z; sa_width : N; sa_height : N }.
Record Workspace := mkWorkspace { wsp_id : N; wsp_name : string; wsp_windows : list N }.

Inductive WindowAction :=
| WaFocus (id : N) | WaMove (id : N) (x y : Z) | WaResize (id width height : N)
| WaMinimize (id : N) | WaMaximize (id : N) | WaRestore (id : N) | WaClose (id : N).

Inductive WindowEvent :=
| WindowCreated (id : N) (app_id : string) | WindowClosed (id : N) | WindowFocused (id : N)
| WindowMoved (id : N) (x y : Z) | WindowResized (id w h : N)
| WorkspaceCreated (id : N) (name : string) | WorkspaceChanged (id : N) | WorkspaceDestroyed (id : N).

Record WindowManager := mkWindowManager {
  wm_windows : gmap N Window;
  wm_stack : list N;
  wm_focused : option N;
  wm_next_id : N;
  wm_area : option ScreenArea;
  wm_active_workspace : N;
  wm_workspaces : gmap N Workspace;
  wm_events : list WindowEvent;
}.
Implicit Types wm : WindowManager.

Definition set_windows (m : gmap N Window) wm : WindowManager :=
  mkWindowManager m (wm_stack wm) (wm_focused wm) (wm_next_id wm) (wm_area wm) (wm_active_workspace wm)
    (wm_workspaces wm) (wm_events wm).
Definition set_stack (l : list N) wm : WindowManager :=
  mkWindowManager (wm_windows wm) l (wm_focused wm) (wm_next_id wm) (wm_area wm) (wm_active_workspace wm)
    (wm_workspaces wm) (wm_events wm).
Definition set_wm_focused (o : option N) wm : WindowManager :=
  mkWindowManager (wm_windows wm) (wm_stack wm) o (wm_next_id wm) (wm_area wm) (wm_active_workspace wm)
    (wm_workspaces wm) (wm_events wm).
Definition set_next_id (n : N) wm : WindowManager :=
  mkWindowManager (wm_windows wm) (wm_stack wm) (wm_focused wm) n (wm_area wm) (wm_active_workspace wm)
    (wm_workspaces wm) (wm_events wm).
Definition set_active (k : N) wm : WindowManager :=
  mkWindowManager (wm_windows wm) (wm_stack wm) (wm_focused wm) (wm_next_id wm) (wm_area wm) k
    (wm_workspaces wm) (wm_events wm).
Definition set_workspaces (m : gmap N Workspace) wm : WindowManager :=
  mkWindowManager (wm_windows wm) (wm_stack wm) (wm_focused wm) (wm_next_id wm) (wm_area wm)
    (wm_active_workspace wm) m (wm_events wm).
Definition push_event (e : WindowEvent) wm : WindowManager :=
  mkWindowManager (wm_windows wm) (wm_stack wm) (wm_focused wm) (wm_next_id wm) (wm_area wm)
    (wm_active_workspace wm) (wm_workspaces wm) (wm_events wm ++ [e]).

Definition alter_window (id : N) (f : Window → Window) wm : WindowManager :=
  set_windows (alter f id (wm_windows wm)) wm.
Definition alter_workspace (k : N) (f : list N → list N) wm : WindowManager :=
  set_workspaces (alter (λ ws, mkWorkspace (wsp_id ws) (wsp_name ws) (f (wsp_windows ws))) k
    (wm_workspaces wm)) wm.

Definition WindowManager_new (area : ScreenArea) : WindowManager :=
  mkWindowManager ∅ [] None 0 (Some area) 0 {[0%N := mkWorkspace 0 "Desktop" []]} [].
Definition WindowManager_default : WindowManager := mkWindowManager ∅ [] None 0 None 0 ∅ [].

(** ** Windows *)

(** The place of the next window: the two by two grid. *)
Definition tile_of (count : N) : N * N :=
  match count with
  | 0 => (0, 0)
  | 1 => (1, 0)
  | 2 => (0, 1)
  | 3 => (1, 1)
  | n => (n mod 2, (n / 2) mod 2)
  end%N.

Definition create (app_id title : string) (preferred_width preferred_height : N) wm :
    option (WindowManager * option Window) :=
  match wm_area wm with
  | None => Some (wm, None)
  | Some area =>
      if (wm_next_id wm =? u64_max)%N then None
      else
        let id := (wm_next_id wm + 1)%N in
        let '(col, row) := tile_of (N.of_nat (size (wm_windows wm))) in
        let tile_w := (sa_width area / 2)%N in
        let tile_h := (sa_height area / 2)%N in
        let w := N.max (N.min preferred_width (saturating_sub tile_w 16)) 200 in
        let h := N.max (N.min preferred_height (saturating_sub tile_h 16)) 150 in
        x ← i32_add (sa_x area) (as_i32 (col * tile_w));
        x ← i32_add x 8;
        y ← i32_add (sa_y area) (as_i32 (row * tile_h));
        y ← i32_add y 8;
        let window := mkWindow id app_id title x y w h WsNormal true true None None ""
                        (wm_active_workspace wm) None in
        let wm := set_next_id id wm in
        let wm := set_windows (<[id := window]> (set_focused false <$> wm_windows wm)) wm in
        let wm := set_stack (wm_stack wm ++ [id]) wm in
        let wm := set_wm_focused (Some id) wm in
        let wm := alter_workspace (wm_active_workspace wm) (λ l, l ++ [id]) wm in
        Some (push_event (WindowCreated id app_id) wm, Some window)
  end.

Definition create_tracked (app_id title : string) (preferred_width preferred_height : N)
    (surface_id : option string) (process_id : option N) (session_id : string) wm :
    option (WindowManager * option Window) :=
  r ← create app_id title preferred_width preferred_height wm;
  match r with
  | (wm, None) => Some (wm, None)
  | (wm, Some win) =>
      let win := set_tracking surface_id process_id session_id win in
      Some (set_windows (<[win_id win := win]> (wm_windows wm)) wm, Some win)
  end.

(** [Vec::remove] at the first position of an element. *)
Fixpoint remove_first (id : N) (l : list N) : list N :=
  match l with
  | [] => []
  | x :: l => if (x =? id)%N then l else x :: remove_first id l
  end.

Definition focus_window (w : Window) : Window :=
  let w := set_visible true (set_focused true w) in
  if is_minimized w then set_win_state WsNormal w else w.

Definition focus (id : N) wm : WindowManager * option Window :=
  match wm_windows wm !! id with
  | None => (wm, None)
  | Some _ =>
      let wm := alter_window id focus_window wm in
      let wm := set_stack (remove_first id (wm_stack wm) ++ [id]) wm in
      let wm := set_windows ((λ w, if (win_id w =? id)%N then w else set_focused false w) <$> wm_windows wm) wm in
      let wm := push_event (WindowFocused id) (set_wm_focused (Some id) wm) in
      (wm, wm_windows wm !! id)
  end.

Definition is_shown (w : Window) : bool := win_visible w && negb (is_minimized w).

(** The topmost window of the stack that satisfies [p]. *)
Definition topmost (p : Window → bool) wm : option N :=
  list_first (λ id, w ← wm_windows wm !! id; if p w then Some id else None) (reverse (wm_stack wm)).

(** The loop that gives the focus to the topmost window that satisfies [p]. *)
Definition refocus (p : Window → bool) wm : WindowManager :=
  let wm := set_wm_focused None wm in
  match topmost p wm with
  | Some id => set_wm_focused (Some id) (alter_window id (set_focused true) wm)
  | None => wm
  end.

Definition close (id : N) wm : WindowManager * option Window :=
  match wm_windows wm !! id with
  | None => (wm, None)
  | Some removed =>
      let wm := set_windows (delete id (wm_windows wm)) wm in
      let wm := set_stack (filter (λ w, w ≠ id) (wm_stack wm)) wm in
      let wm := alter_workspace (win_workspace_id removed) (filter (λ w, w ≠ id)) wm in
      let wm := if bool_decide (wm_focused wm = Some id) then refocus is_shown wm else wm in
      (push_event (WindowClosed id) wm, Some removed)
  end.

(** A change of a window that exists. *)
Definition on_window (id : N) wm (f : Window → WindowManager) : WindowManager * option Window :=
  match wm_windows wm !! id with
  | None => (wm, None)
  | Some w => let wm := f w in (wm, wm_windows wm !! id)
  end.

Definition maximized (area : ScreenArea) (w : Window) : Window :=
  let w := if bool_decide (win_state w = WsMaximized) then w else set_restore (Some (win_rect w)) w in
  set_rect (sa_x area, sa_y area, sa_width area, sa_height area)
    (set_visible true (set_win_state WsMaximized w)).

Definition restored (w : Window) : Window :=
  match win_state w with
  | WsMinimized => set_visible true (set_win_state WsNormal w)
  | WsMaximized =>
      let w := match win_restore_rect w with
               | Some r => set_rect r (set_restore None w)
               | None => w
               end in
      set_win_state WsNormal w
  | _ => w
  end.

Definition apply_action (action : WindowAction) wm : WindowManager * option Window :=
  match action with
  | WaFocus id => focus id wm
  | WaMove id x y =>
      on_window id wm (λ w, push_event (WindowMoved id x y)
        (alter_window id (set_rect (x, y, win_width w, win_height w)) wm))
  | WaResize id width height =>
      let width := N.max width 120 in
      let height := N.max height 80 in
      on_window id wm (λ w, push_event (WindowResized id width height)
        (alter_window id (set_rect (win_x w, win_y w, width, height)) wm))
  | WaMinimize id =>
      on_window id wm (λ _,
        let wm := alter_window id (λ w, set_focused false (set_visible false (set_win_state WsMinimized w))) wm in
        if bool_decide (wm_focused wm = Some id) then refocus is_shown wm else wm)
  | WaMaximize id =>
      match wm_area wm with
      | None => (wm, None)
      | Some area => on_window id wm (λ _, (focus id (alter_window id (maximized area) wm)).1)
      end
  | WaRestore id => on_window id wm (λ _, (focus id (alter_window id restored wm)).1)
  | WaClose id => close id wm
  end.

(** ** Queries *)

(** Whether a point lies in a window; [None] when its edge is out of range. *)
Definition contains_point (px py : Z) (w : Window) : option bool :=
  in_x ← (if (win_x w <=? px)%Z then r ← i32_add (win_x w) (as_i32 (win_width w)); Some (px <? r)%Z
          else Some false);
  in_y ← (if (win_y w <=? py)%Z then b ← i32_add (win_y w) (as_i32 (win_height w)); Some (py <? b)%Z
          else Some false);
  Some (in_x && in_y).

Fixpoint first_at (px py : Z) (windows : gmap N Window) (ids : list N) : option (option N) :=
  match ids with
  | [] => Some None
  | id :: ids =>
      match windows !! id with
      | None => first_at px py windows ids
      | Some w =>
          if is_shown w then
            inside ← contains_point px py w;
            if inside : bool then Some (Some id) else first_at px py windows ids
          else first_at px py windows ids
      end
  end.

Definition window_at (px py : Z) wm : option (option N) :=
  first_at px py (wm_windows wm) (reverse (wm_stack wm)).

(** The keys of a [BTreeMap]. *)
Definition sorted_keys {V} (m : gmap N V) : list N := sort_with N.leb (map_to_list m).*1.
Definition sorted_values {V} (m : gmap N V) : list V := omap (λ k, m !! k) (sorted_keys m).

Definition cycle_focus wm : WindowManager * option Window :=
  let visible := win_id <$> List.filter is_shown (sorted_values (wm_windows wm)) in
  match visible with
  | [] => (wm, None)
  | first :: _ =>
      let current := default 0%N (wm_focused wm) in
      focus (default first (List.find (λ i, current <? i)%N visible)) wm
  end.

Definition stacked wm : list Window := omap (λ id, wm_windows wm !! id) (wm_stack wm).

Definition drain_events wm : WindowManager * list WindowEvent :=
  (mkWindowManager (wm_windows wm) (wm_stack wm) (wm_focused wm) (wm_next_id wm) (wm_area wm)
     (wm_active_workspace wm) (wm_workspaces wm) [], wm_events wm).

(** ** Workspaces *)

Definition create_workspace (name : string) wm : option (WindowManager * N) :=
  let next := match last (sorted_keys (wm_workspaces wm)) with None => 1%N | Some k => (k + 1)%N end in
  if (u32_max <? next)%N then None
  else
    let wm := push_event (WorkspaceCreated next name) wm in
    Some (set_workspaces (<[next := mkWorkspace next name []]> (wm_workspaces wm)) wm, next).

(** The loop that moves the windows of a workspace to the first one. *)
Fixpoint adopt (ids : list N) wm : WindowManager :=
  match ids with
  | [] => wm
  | id :: ids => adopt ids (alter_window id (set_workspace 0) (alter_workspace 0 (λ l, l ++ [id]) wm))
  end.

Definition destroy_workspace (id : N) wm : WindowManager * bool :=
  if (id =? 0)%N then (wm, false)
  else match wm_workspaces wm !! id with
       | None => (wm, false)
       | Some ws =>
           let wm := set_workspaces (delete id (wm_workspaces wm)) wm in
           let wm := match wm_workspaces wm !! 0%N with
                     | Some _ => adopt (wsp_windows ws) wm
                     | None => wm
                     end in
           let wm := if (wm_active_workspace wm =? id)%N then push_event (WorkspaceChanged 0) (set_active 0 wm)
                     else wm in
           (push_event (WorkspaceDestroyed id) wm, true)
       end.

Fixpoint alter_all (f : Window → Window) (ids : list N) wm : WindowManager :=
  match ids with
  | [] => wm
  | id :: ids => alter_all f ids (alter_window id f wm)
  end.

Definition windows_of (k : N) wm : list N := from_option wsp_windows [] (wm_workspaces wm !! k).

Definition activate_workspace (id : N) wm : WindowManager * bool :=
  match wm_workspaces wm !! id with
  | None => (wm, false)
  | Some ws =>
      let old := wm_active_workspace wm in
      let wm := set_active id wm in
      let wm := alter_all (λ w, if is_minimized w then w else set_visible false w) (windows_of old wm) wm in
      let wm := alter_all (set_visible true) (wsp_windows ws) wm in
      let wm := refocus (λ w, win_visible w && (win_workspace_id w =? id)%N && negb (is_minimized w)) wm in
      (push_event (WorkspaceChanged id) wm, true)
  end.

Definition windows_in_workspace (k : N) wm : list Window :=
  List.filter (λ w, (win_workspace_id w =? k)%N) (sorted_values (wm_windows wm)).

Definition move_window_to_workspace (wid target : N) wm : WindowManager * bool :=
  match wm_workspaces wm !! target, wm_windows wm !! wid with
  | None, _ | Some _, None => (wm, false)
  | Some _, Some w =>
      let wm := alter_window wid (set_workspace target) wm in
      let wm := alter_workspace (win_workspace_id w) (filter (λ x, x ≠ wid)) wm in
      (alter_workspace target (λ l, l ++ [wid]) wm, true)
  end.

(** * Properties of the window manager

    Any sequence of operations from a fresh window manager keeps the stack, the
    windows and the lists of the workspaces in agreement and the focus on a shown
    window; the focus flags agree with the focus as long as no workspace is
    activated.  [window_at] is the hit test of the stacking order, and restoring a
    maximized window gives its rectangle back. *)

Implicit Types (w : Window).

(** ** Sequences of operations *)

Inductive WmOp :=
| OpCreate (app_id title : string) (width height : N)
| OpCreateTracked (app_id title : string) (width height : N) (surface : option string)
    (process : option N) (session : string)
| OpAct (a : WindowAction) | OpCycle | OpDrain
| OpNewWorkspace (name : string) | OpDestroyWorkspace (k : N) | OpActivate (k : N)
| OpMoveWindow (wid k : N).

Definition wm_step (op : WmOp) wm : option WindowManager :=
  match op with
  | OpCreate a t width height => fst <$> create a t width height wm
  | OpCreateTracked a t width height s p se => fst <$> create_tracked a t width height s p se wm
  | OpAct a => Some (apply_action a wm).1
  | OpCycle => Some (cycle_focus wm).1
  | OpDrain => Some (drain_events wm).1
  | OpNewWorkspace name => fst <$> create_workspace name wm
  | OpDestroyWorkspace k => Some (destroy_workspace k wm).1
  | OpActivate k => Some (activate_workspace k wm).1
  | OpMoveWindow wid k => Some (move_window_to_workspace wid k wm).1
  end.

Fixpoint wm_run (ops : list WmOp) wm : option WindowManager :=
  match ops with
  | [] => Some wm
  | op :: ops => wm ← wm_step op wm; wm_run ops wm
  end.

Definition activates (op : WmOp) : bool := match op with OpActivate _ => true | _ => false end.

(** ** The structure *)

(** The identifier and the workspace each window carries. *)
Definition wkey w : N * N := (win_id w, win_workspace_id w).
Definition wkeys wm : gmap N (N * N) := wkey <$> wm_windows wm.

Record Structure wm : Prop := mkStructure {
  st_stack : NoDup (wm_stack wm);
  st_dom : ∀ id, id ∈ wm_stack wm ↔ is_Some (wkeys wm !! id);
  st_id : ∀ id k, wkeys wm !! id = Some k → k.1 = id ∧ (id ≤ wm_next_id wm)%N;
  st_home : ∀ id k, wkeys wm !! id = Some k → is_Some (wm_workspaces wm !! k.2);
  st_ws : ∀ k ws, wm_workspaces wm !! k = Some ws →
    NoDup (wsp_windows ws) ∧ ∀ id, id ∈ wsp_windows ws ↔ snd <$> wkeys wm !! id = Some k;
  st_active : is_Some (wm_workspaces wm !! wm_active_workspace wm);
  st_zero : is_Some (wm_workspaces wm !! 0%N);
}.

Definition FocusSound wm : Prop :=
  ∀ id, wm_focused wm = Some id → ∃ w, wm_windows wm !! id = Some w ∧ win_focused w = true ∧ is_shown w = true.

Definition FocusUnique wm : Prop :=
  ∀ id w, wm_windows wm !! id = Some w → win_focused w = true → wm_focused wm = Some id.

(** Two states with the same windows, workspaces and stack up to its order. *)
Record same_shape wm wm' : Prop := mkSame {
  ss_keys : wkeys wm' = wkeys wm;
  ss_stack : wm_stack wm' ≡ₚ wm_stack wm;
  ss_next : wm_next_id wm' = wm_next_id wm;
  ss_active : wm_active_workspace wm' = wm_active_workspace wm;
  ss_workspaces : wm_workspaces wm' = wm_workspaces wm;
}.

#[export] Instance same_shape_refl : Reflexive same_shape.
Proof. done. Qed.
#[export] Instance same_shape_trans : Transitive same_shape.
Proof. intros a b c [] []; split; etrans; eauto. Qed.

Lemma Structure_same wm wm' : same_shape wm wm' → Structure wm → Structure wm'.
Proof.
  intros [Ek Es En Ea Ew] [S1 S2 S3 S4 S5 S6 S7].
  split; rewrite ?Es, ?Ek, ?En, ?Ea, ?Ew; try done.
  intros id. rewrite Es. apply S2.
Qed.

Lemma wkeys_lookup wm id : wkeys wm !! id = wkey <$> wm_windows wm !! id.
Proof. apply lookup_fmap. Qed.

Lemma same_shape_windows f wm :
  (∀ id, wkey <$> f wm !! id = wkey <$> wm_windows wm !! id) → same_shape wm (set_windows (f wm) wm).
Proof. intros E. split; try done. apply map_eq. intros id. rewrite !wkeys_lookup. apply E. Qed.

Lemma same_shape_alter id f wm : (∀ w, wkey (f w) = wkey w) → same_shape wm (alter_window id f wm).
Proof.
  intros E. apply (same_shape_windows (λ wm, alter f id (wm_windows wm))). intros j.
  destruct (decide (j = id)) as [->|]; [|by rewrite lookup_alter_ne].
  rewrite lookup_alter_eq, <-option_fmap_compose. destruct (wm_windows wm !! id); [|done]. by cbn; rewrite E.
Qed.

Lemma same_shape_alter_all f ids wm : (∀ w, wkey (f w) = wkey w) → same_shape wm (alter_all f ids wm).
Proof.
  intros E. revert wm. induction ids as [|id ids IH]; intros wm; [done|].
  etrans; [by apply same_shape_alter|apply IH].
Qed.

Lemma same_shape_refocus p wm : same_shape wm (refocus p wm).
Proof.
  unfold refocus. destruct (topmost p _) as [n|]; [|done].
  by destruct (same_shape_alter n (set_focused true) wm (λ _, eq_refl)).
Qed.

Lemma remove_first_perm id l : id ∈ l → remove_first id l ++ [id] ≡ₚ l.
Proof.
  induction l as [|x l IH]; cbn; [by intros ?%elem_of_nil|].
  destruct (N.eqb_spec x id) as [->|Hne]; intros Hin; cbn.
  - by rewrite <-Permutation_cons_append.
  - apply elem_of_cons in Hin as [?|?]; [congruence|]. by rewrite IH.
Qed.

(** The windows after [focus]. *)
Definition focused_on (id : N) w : Window :=
  if (win_id w =? id)%N then focus_window w else set_focused false w.

Lemma focus_window_fields w : wkey (focus_window w) = wkey w ∧ win_focused (focus_window w) = true ∧
  is_shown (focus_window w) = true ∧ win_rect (focus_window w) = win_rect w.
Proof. destruct w as [? ? ? ? ? ? ? []]; done. Qed.

Lemma focus_windows id wm : Structure wm → is_Some (wm_windows wm !! id) →
  wm_windows (focus id wm).1 = focused_on id <$> wm_windows wm.
Proof.
  intros HS [w Ew]. unfold focus. rewrite Ew. cbn. apply map_eq. intros j. rewrite !lookup_fmap.
  destruct (decide (j = id)) as [->|Hne].
  - rewrite lookup_alter_eq, Ew. cbn. unfold focused_on.
    destruct (st_id _ HS id (wkey w)) as [Hid _]; [by rewrite wkeys_lookup, Ew|]. cbn in Hid.
    assert (win_id (focus_window w) = id) as -> by (destruct (focus_window_fields w) as [[=] _]; congruence).
    by rewrite Hid, N.eqb_refl.
  - rewrite lookup_alter_ne by done. destruct (wm_windows wm !! j) as [v|] eqn:Ev; [cbn|done].
    destruct (st_id _ HS j (wkey v)) as [Hid _]; [by rewrite wkeys_lookup, Ev|]. cbn in Hid.
    unfold focused_on. by rewrite (proj2 (N.eqb_neq _ _)) by congruence.
Qed.

Lemma wkey_focused_on id w : wkey (focused_on id w) = wkey w.
Proof. unfold focused_on. split_match; [apply focus_window_fields|done]. Qed.

Lemma focus_none id wm : wm_windows wm !! id = None → focus id wm = (wm, None).
Proof. unfold focus. by intros ->. Qed.

Lemma focus_structure id wm : Structure wm → Structure (focus id wm).1.
Proof.
  intros HS. destruct (wm_windows wm !! id) as [w|] eqn:Ew; [|by rewrite focus_none].
  apply (Structure_same wm); [|done]. split.
  - apply map_eq. intros j. rewrite !wkeys_lookup, focus_windows, lookup_fmap by eauto.
    destruct (_ !! j); [cbn|done]. by rewrite wkey_focused_on.
  - unfold focus. rewrite Ew. cbn. apply remove_first_perm, (st_dom _ HS). rewrite wkeys_lookup, Ew. by eexists.
  - unfold focus. by rewrite Ew.
  - unfold focus. by rewrite Ew.
  - unfold focus. by rewrite Ew.
Qed.

Lemma focus_focus id wm : Structure wm → is_Some (wm_windows wm !! id) →
  FocusSound (focus id wm).1 ∧ FocusUnique (focus id wm).1.
Proof.
  intros HS Hsome. pose proof (focus_windows id wm HS Hsome) as Ef.
  assert (wm_focused (focus id wm).1 = Some id) as Efoc by (unfold focus; by destruct Hsome as [? ->]).
  assert (∀ j w, wm_windows wm !! j = Some w → win_id w = j) as Hid.
  { intros j w Ew. destruct (st_id _ HS j (wkey w)); [by rewrite wkeys_lookup, Ew|done]. }
  split; unfold FocusSound, FocusUnique; rewrite Ef, Efoc.
  - intros ? [= <-]. destruct Hsome as [w Ew]. exists (focus_window w). rewrite lookup_fmap, Ew. cbn.
    unfold focused_on. rewrite (Hid _ _ Ew), N.eqb_refl. split; [done|]. by destruct (focus_window_fields w) as (_ & ? & ? & _).
  - intros j w' Ew' Hf. rewrite lookup_fmap in Ew'. destruct (wm_windows wm !! j) as [w|] eqn:Ew; [|done].
    injection Ew' as <-. unfold focused_on in Hf. destruct (N.eqb_spec (win_id w) id) as [<-|]; [|done].
    by rewrite (Hid _ _ Ew).
Qed.

(** ** The focus after [refocus] *)

Lemma list_first_found {A B} (f : A → option B) l y : list_first f l = Some y → ∃ x, x ∈ l ∧ f x = Some y.
Proof.
  induction l as [|x l IH]; cbn; [done|]. destruct (f x) eqn:E.
  - intros [= <-]. exists x. split; [by left|done].
  - intros (z & ? & ?)%IH. exists z. split; [by right|done].
Qed.

Lemma topmost_found p wm id : topmost p wm = Some id → ∃ w, wm_windows wm !! id = Some w ∧ p w = true.
Proof.
  intros (j & _ & Ej)%list_first_found. destruct (wm_windows wm !! j) as [w|] eqn:Ew; cbn in Ej; [|done].
  destruct (p w) eqn:Ep; [|done]. injection Ej as ->. eauto.
Qed.

Lemma refocus_sound p wm : (∀ w, p w = true → is_shown w = true) → FocusSound (refocus p wm).
Proof.
  intros Hp id. unfold refocus. destruct (topmost p _) as [n|] eqn:E; cbn; [|done]. intros [= <-].
  apply topmost_found in E as (w & Ew & Hw). cbn in Ew. exists (set_focused true w).
  rewrite lookup_alter_eq, Ew. split; [done|]. split; [done|]. apply (Hp w Hw).
Qed.

(** With no flag set before it, only the window it chooses has one. *)
Lemma refocus_unique p wm : (∀ id w, wm_windows wm !! id = Some w → win_focused w = false) →
  FocusUnique (refocus p wm).
Proof.
  intros Hnone id w. unfold refocus. destruct (topmost p _) as [n|] eqn:E; cbn.
  - destruct (decide (id = n)) as [->|]; [done|]. rewrite lookup_alter_ne by done. intros Ew.
    by rewrite (Hnone _ _ Ew).
  - intros Ew. by rewrite (Hnone _ _ Ew).
Qed.

(** A change of one window that keeps it shown and its flag. *)
Lemma alter_focus id f wm wm' : wm_windows wm' = alter f id (wm_windows wm) → wm_focused wm' = wm_focused wm →
  (∀ w, win_focused (f w) = win_focused w ∧ is_shown (f w) = is_shown w) →
  (FocusSound wm → FocusSound wm') ∧ (FocusUnique wm → FocusUnique wm').
Proof.
  intros Ew Ef Hf. split; unfold FocusSound, FocusUnique; rewrite Ew, Ef; intros HF.
  - intros j Hj. destruct (HF j Hj) as (w & Hw & ? & ?).
    destruct (decide (j = id)) as [->|]; [|rewrite lookup_alter_ne by done; eauto].
    exists (f w). rewrite lookup_alter_eq, Hw. destruct (Hf w) as [-> ->]. done.
  - intros j w. destruct (decide (j = id)) as [->|]; [|rewrite lookup_alter_ne by done; apply HF].
    rewrite lookup_alter_eq. destruct (wm_windows wm !! id) as [v|] eqn:Ev; [|done]. intros [= <-].
    destruct (Hf v) as [-> _]. by apply HF.
Qed.

(** ** Every operation keeps the invariant *)

(** The invariant of one state; the second focus condition is the one activation breaks. *)
Definition WmInv (strict : bool) wm : Prop :=
  Structure wm ∧ FocusSound wm ∧ (strict = true → FocusUnique wm).

Lemma focus_inv b id wm : WmInv b wm → WmInv b (focus id wm).1.
Proof.
  intros (HS & HF & HU). destruct (wm_windows wm !! id) eqn:E; [|by rewrite focus_none].
  destruct (focus_focus id wm HS); [by rewrite E|]. split; [by apply focus_structure|done].
Qed.

(** Focusing after a change that keeps the keys of the window. *)
Lemma focus_alter_inv b id f wm : (∀ w, wkey (f w) = wkey w) → is_Some (wm_windows wm !! id) → WmInv b wm →
  WmInv b (focus id (alter_window id f wm)).1.
Proof.
  intros Hf Hs (HS & _ & _).
  assert (Structure (alter_window id f wm)) as HS' by (apply (Structure_same wm); [by apply same_shape_alter|done]).
  destruct (focus_focus id (alter_window id f wm) HS').
  { cbn. rewrite lookup_alter_eq. by destruct Hs as [? ->]. }
  split; [by apply focus_structure|done].
Qed.

Lemma set_rect_fields r w : wkey (set_rect r w) = wkey w ∧ win_focused (set_rect r w) = win_focused w ∧
  is_shown (set_rect r w) = is_shown w.
Proof. by destruct r as [[[? ?] ?] ?]. Qed.

Lemma place_inv b id r e wm : WmInv b wm → WmInv b (push_event e (alter_window id (set_rect r) wm)).
Proof.
  intros (HS & HF & HU). split.
  - apply (Structure_same wm); [|done].
    by destruct (same_shape_alter id (set_rect r) wm (λ w, proj1 (set_rect_fields r w))).
  - destruct (alter_focus id (set_rect r) wm (push_event e (alter_window id (set_rect r) wm))) as [? ?]; [done..| |].
    + intros w. apply set_rect_fields.
    + auto.
Qed.

Definition minimized_of w : Window := set_focused false (set_visible false (set_win_state WsMinimized w)).

Lemma refocus_shown p wm : p = is_shown → FocusSound (refocus p wm).
Proof. intros ->. by apply refocus_sound. Qed.

Lemma minimize_inv b id wm : WmInv b wm →
  WmInv b (let wm := alter_window id minimized_of wm in
           if bool_decide (wm_focused wm = Some id) then refocus is_shown wm else wm).
Proof.
  intros (HS & HF & HU). cbn zeta.
  assert (same_shape wm (alter_window id minimized_of wm)) as Hsame by by apply same_shape_alter.
  case_bool_decide as Hid; cbn in Hid.
  - split; [|split; [by apply refocus_sound|]].
    + apply (Structure_same wm); [|done]. etrans; [done|apply same_shape_refocus].
    + intros Hb. apply refocus_unique. intros j w. cbn. destruct (decide (j = id)) as [->|Hne].
      * rewrite lookup_alter_eq. destruct (wm_windows wm !! id); [|done]. by intros [= <-].
      * rewrite lookup_alter_ne by done. intros Ew. apply not_true_is_false. intros Hw.
        pose proof (HU Hb _ _ Ew Hw). congruence.
  - split; [by apply (Structure_same wm)|]. split.
    + intros j Hj. cbn in *. rewrite lookup_alter_ne by congruence. by apply HF.
    + intros Hb j w Ew Hw. cbn in *. destruct (decide (j = id)) as [->|Hne].
      * rewrite lookup_alter_eq in Ew. destruct (wm_windows wm !! id); [|done]. by injection Ew as <-.
      * rewrite lookup_alter_ne in Ew by done. by apply (HU Hb j w).
Qed.

(** *** Closing *)

Lemma close_base_structure id w wm wm' : Structure wm → wm_windows wm !! id = Some w →
  wm_windows wm' = delete id (wm_windows wm) → wm_stack wm' = filter (λ x, x ≠ id) (wm_stack wm) →
  wm_next_id wm' = wm_next_id wm → wm_active_workspace wm' = wm_active_workspace wm →
  wm_workspaces wm' = wm_workspaces (alter_workspace (win_workspace_id w) (filter (λ x, x ≠ id)) wm) →
  Structure wm'.
Proof.
  intros [S1 S2 S3 S4 S5 S6 S7] Ew Ewin Est En Ea Ews. cbn in Ews.
  assert (∀ j, wkeys wm' !! j = if decide (j = id) then None else wkeys wm !! j) as Ek.
  { intros j. rewrite !wkeys_lookup, Ewin. case_decide as Hj; [subst; by rewrite lookup_delete_eq|].
    by rewrite lookup_delete_ne. }
  assert (∀ k, is_Some (wm_workspaces wm !! k) → is_Some (wm_workspaces wm' !! k)) as Hws.
  { intros k. rewrite Ews, lookup_alter. case_decide; [subst|done]. by rewrite fmap_is_Some. }
  split; rewrite ?Est, ?En, ?Ea; auto.
  - by apply NoDup_filter.
  - intros j. rewrite list_elem_of_filter, S2, Ek. case_decide; [|naive_solver]. split; [naive_solver|by intros []].
  - intros j k. rewrite Ek. case_decide; [done|apply S3].
  - intros j k. rewrite Ek. case_decide; [done|]. intros ?. by eapply Hws, S4.
  - intros k ws. rewrite Ews, lookup_alter. case_decide as Hk.
    + subst k. intros (ws0 & Ew0 & ->)%fmap_Some. cbn.
      destruct (S5 _ _ Ew0) as [Hnd Hin]. split; [by apply NoDup_filter|]. intros j.
      rewrite list_elem_of_filter, Hin, Ek. case_decide; [subst|naive_solver]. split; [naive_solver|done].
    + intros Ew0. destruct (S5 _ _ Ew0) as [Hnd Hin]. split; [done|]. intros j. rewrite Hin, Ek.
      case_decide; [subst|done]. rewrite wkeys_lookup, Ew. cbn. split; intros ?; congruence.
Qed.

Lemma close_window_inv b id wm : WmInv b wm → WmInv b (close id wm).1.
Proof.
  intros (HS & HF & HU). unfold close. destruct (wm_windows wm !! id) as [w|] eqn:Ew; [|done]. cbn.
  case_bool_decide as Hid.
  - split; [|split].
    + match goal with |- Structure (push_event _ (refocus ?p ?x)) =>
        apply (Structure_same x); [by destruct (same_shape_refocus p x)|by eapply (close_base_structure id w wm)] end.
    + match goal with |- FocusSound (push_event _ (refocus ?p ?x)) => apply (refocus_sound p x); done end.
    + intros Hb. match goal with |- FocusUnique (push_event _ (refocus ?p ?x)) =>
        apply (refocus_unique p x) end.
      intros j v. cbn. intros [Hne Ev]%lookup_delete_Some. apply not_true_is_false. intros Hv.
      pose proof (HU Hb _ _ Ev Hv). congruence.
  - split; [by eapply (close_base_structure id w wm)|]. split.
    + intros j Hj. cbn in *. destruct (HF j Hj) as (v & ? & ?). exists v. rewrite lookup_delete_ne by congruence. done.
    + intros Hb j v Ev. apply (HU Hb). cbn in Ev. by apply lookup_delete_Some in Ev as [? ?].
Qed.

Lemma apply_action_inv b a wm : WmInv b wm → WmInv b (apply_action a wm).1.
Proof.
  intros HI. destruct a; cbn; [by apply focus_inv| | | | | |by apply close_window_inv].
  all: unfold on_window; try (destruct (wm_area wm); [|done]).
  all: destruct (wm_windows wm !! id) as [w|] eqn:Ew; [cbn [fst]|done].
  - by apply place_inv.
  - by apply place_inv.
  - by apply minimize_inv.
  - apply focus_alter_inv; [|by rewrite Ew|done]. intros v. unfold maximized. by case_bool_decide.
  - apply focus_alter_inv; [|by rewrite Ew|done]. intros v. unfold restored.
    destruct (win_state v), (win_restore_rect v) as [[[[? ?] ?] ?]|]; done.
Qed.

(** *** Opening *)

Lemma open_structure wm wm' : Structure wm → let id := (wm_next_id wm + 1)%N in
  wkeys wm' = <[id := (id, wm_active_workspace wm)]> (wkeys wm) → wm_stack wm' = wm_stack wm ++ [id] →
  wm_next_id wm' = id → wm_active_workspace wm' = wm_active_workspace wm →
  wm_workspaces wm' = wm_workspaces (alter_workspace (wm_active_workspace wm) (λ l, l ++ [id]) wm) →
  Structure wm'.
Proof.
  intros [S1 S2 S3 S4 S5 S6 S7] id Ek Est En Ea Ews. cbn in Ews.
  assert (wkeys wm !! id = None) as Hfresh.
  { destruct (wkeys wm !! id) as [k|] eqn:E; [|done]. apply S3 in E as [_ ?]. unfold id in *. lia. }
  assert (∀ k, is_Some (wm_workspaces wm !! k) → is_Some (wm_workspaces wm' !! k)) as Hws.
  { intros k. rewrite Ews, lookup_alter. case_decide; [subst|done]. by rewrite fmap_is_Some. }
  split; rewrite ?Est, ?En, ?Ea, ?Ek; auto.
  - apply NoDup_app. split_and!; [done| |apply NoDup_singleton].
    intros j Hj ->%list_elem_of_singleton. apply S2 in Hj as [? ?]. congruence.
  - intros j. rewrite elem_of_app, list_elem_of_singleton, S2, lookup_insert_is_Some. destruct (decide (id = j)); naive_solver.
  - intros j k [[<- <-]|[? Hj]]%lookup_insert_Some; [done|]. apply S3 in Hj as [? ?]. split; [done|]. unfold id. lia.
  - intros j k [[<- <-]|[? Hj]]%lookup_insert_Some; [by apply Hws|]. by eapply Hws, S4.
  - intros k ws. rewrite Ews, lookup_alter. case_decide as Hk.
    + subst k. intros (ws0 & Ew0 & ->)%fmap_Some. cbn. destruct (S5 _ _ Ew0) as [Hnd Hin]. split.
      * apply NoDup_app. split_and!; [done| |apply NoDup_singleton].
        intros j Hj ->%list_elem_of_singleton. apply Hin in Hj. by rewrite Hfresh in Hj.
      * intros j. rewrite elem_of_app, list_elem_of_singleton, Hin, lookup_insert. case_decide; [subst|naive_solver].
        split; [done|by right].
    + intros Ew0. destruct (S5 _ _ Ew0) as [Hnd Hin]. split; [done|]. intros j. rewrite Hin, lookup_insert.
      case_decide; [subst|done]. rewrite Hfresh. cbn. split; [done|congruence].
Qed.

(** What [create] does when it opens a window. *)
Lemma create_opens a t width height wm wm' o : create a t width height wm = Some (wm', o) →
  (wm' = wm ∧ o = None) ∨
  ∃ w, o = Some w ∧ wkey w = ((wm_next_id wm + 1)%N, wm_active_workspace wm) ∧ win_focused w = true ∧ is_shown w = true ∧
    wm_windows wm' = <[win_id w := w]> (set_focused false <$> wm_windows wm) ∧ wm_focused wm' = Some (win_id w) ∧
    wm_stack wm' = wm_stack wm ++ [win_id w] ∧ wm_next_id wm' = win_id w ∧
    wm_active_workspace wm' = wm_active_workspace wm ∧
    wm_workspaces wm' = wm_workspaces (alter_workspace (wm_active_workspace wm) (λ l, l ++ [win_id w]) wm).
Proof.
  unfold create. destruct (wm_area wm) as [area|]; [|intros [= <- <-]; by left]. split_match; [done|].
  destruct (tile_of _) as [col row]. intros Hc. right.
  repeat (apply bind_Some in Hc as (? & _ & Hc)). injection Hc as <- <-. by eexists.
Qed.

(** The window [create] opens, with its tracking fields set or not. *)
Lemma opened_inv b w w' wm wm' : WmInv b wm → wkey w = ((wm_next_id wm + 1)%N, wm_active_workspace wm) →
  wkey w' = wkey w → win_focused w' = true → is_shown w' = true →
  wm_windows wm' = <[win_id w := w']> (set_focused false <$> wm_windows wm) → wm_focused wm' = Some (win_id w) →
  wm_stack wm' = wm_stack wm ++ [win_id w] → wm_next_id wm' = win_id w →
  wm_active_workspace wm' = wm_active_workspace wm →
  wm_workspaces wm' = wm_workspaces (alter_workspace (wm_active_workspace wm) (λ l, l ++ [win_id w]) wm) →
  WmInv b wm'.
Proof.
  intros (HS & _ & _) Hk Hk' Hf Hs Ewin Efoc Est En Ea Ews. unfold wkey in Hk. injection Hk as Hid Hact.
  rewrite Hid in Ewin, Efoc, Est, En, Ews. split; [|split].
  - apply (open_structure wm); try done. unfold wkeys. rewrite Ewin, fmap_insert, Hk'. unfold wkey at 1.
    rewrite Hid, Hact. f_equal. rewrite <-map_fmap_compose. by apply map_fmap_ext.
  - intros j. rewrite Efoc. intros [= <-]. exists w'. by rewrite Ewin, lookup_insert_eq.
  - intros _ j v. rewrite Ewin, Efoc. intros [[<- <-]|[Hne Ev]]%lookup_insert_Some; [done|].
    rewrite lookup_fmap in Ev. destruct (wm_windows wm !! j); [|done]. by injection Ev as <-.
Qed.

Lemma create_inv b a t width height wm wm' o : create a t width height wm = Some (wm', o) → WmInv b wm → WmInv b wm'.
Proof.
  intros [[-> ->]|(w & _ & Hk & Hf & Hs & E1 & E2 & E3 & E4 & E5 & E6)]%create_opens HI; [done|].
  by apply (opened_inv b w w wm).
Qed.

Lemma create_tracked_inv b a t width height s p se wm wm' o :
  create_tracked a t width height s p se wm = Some (wm', o) → WmInv b wm → WmInv b wm'.
Proof.
  unfold create_tracked. intros ([wm1 o1] & Hc & Ht)%bind_Some HI.
  apply create_opens in Hc as [[-> ->]|(w & -> & Hk & Hf & Hs & E1 & E2 & E3 & E4 & E5 & E6)]; [by injection Ht as <- <-|].
  injection Ht as <- <-. apply (opened_inv b w (set_tracking s p se w) wm); try done. cbn. by rewrite E1, insert_insert_eq.
Qed.

Lemma cycle_inv b wm : WmInv b wm → WmInv b (cycle_focus wm).1.
Proof. intros HI. unfold cycle_focus. destruct (win_id <$> _); [done|]. by apply focus_inv. Qed.

(** *** Workspaces *)

Lemma sort_with_sorted l : StronglySorted N.le (sort_with N.leb l).
Proof.
  assert (∀ x k, StronglySorted N.le k → StronglySorted N.le (insert_with N.leb x k)) as Hins.
  { intros x k. induction k as [|y k IH]; cbn; intros Hk; [repeat constructor|].
    apply StronglySorted_inv in Hk as [Hk Hy]. destruct (N.leb_spec x y).
    - repeat constructor; [done..|]. eapply Forall_impl; [done|]. cbn. lia.
    - constructor; [by apply IH|]. rewrite insert_with_perm. constructor; [lia|done]. }
  induction l; cbn; [constructor|]. by apply Hins.
Qed.

Lemma elem_of_sorted_keys {V} (m : gmap N V) k : k ∈ sorted_keys m ↔ is_Some (m !! k).
Proof.
  unfold sorted_keys. rewrite sort_with_perm, list_elem_of_fmap. split.
  - intros ([? v] & -> & Hv%elem_of_map_to_list). by exists v.
  - intros [v Hv%elem_of_map_to_list]. by exists (k, v).
Qed.

Lemma sorted_keys_last {V} (m : gmap N V) k : is_Some (m !! k) →
  ∃ n, last (sorted_keys m) = Some n ∧ (k ≤ n)%N.
Proof.
  intros Hk%elem_of_sorted_keys. pose proof (sort_with_sorted (map_to_list m).*1) as Hs. fold (sorted_keys m) in Hs.
  destruct (last (sorted_keys m)) as [n|] eqn:El; [|by apply last_None in El; rewrite El in Hk; apply elem_of_nil in Hk].
  exists n. split; [done|]. apply last_Some in El as [l El]. rewrite El in Hk, Hs.
  apply elem_of_app in Hk as [Hk| ->%list_elem_of_singleton]; [|done].
  clear El. induction l as [|x l IH]; [by apply elem_of_nil in Hk|]. apply StronglySorted_inv in Hs as [Hs Hx].
  apply elem_of_cons in Hk as [->|Hk]; [|by apply IH]. rewrite Forall_forall in Hx. apply Hx, elem_of_app. right. by left.
Qed.

Lemma create_workspace_inv b name wm wm' k : create_workspace name wm = Some (wm', k) → WmInv b wm →
  WmInv b wm' ∧ wm_workspaces wm !! k = None.
Proof.
  unfold create_workspace. cbn zeta.
  set (next := match last _ with None => _ | Some _ => _ end).
  destruct (_ <? next)%N; [done|]. intros [= <- <-] (HS & HF & HU).
  assert (wm_workspaces wm !! next = None) as Hn.
  { apply eq_None_not_Some. intros Hs. destruct (sorted_keys_last _ _ Hs) as (n & En & Hle). unfold next in *.
    rewrite En in Hle. lia. }
  split; [|done]. split; [|exact (conj HF HU)]. destruct HS as [S1 S2 S3 S4 S5 S6 S7].
  assert (∀ k, is_Some (wm_workspaces wm !! k) →
    is_Some (<[next := mkWorkspace next name []]> (wm_workspaces wm) !! k)) as Hws.
  { intros k Hk. apply lookup_insert_is_Some. destruct (decide (next = k)); auto. }
  split; cbn; auto.
  - intros id j Hj. by eapply Hws, S4.
  - intros j ws [[<- <-]|[? Hj]]%lookup_insert_Some; [|by apply S5]. cbn. split; [constructor|].
    intros id. split; [by intros ?%elem_of_nil|]. intros (key & Ekey & Enext)%fmap_Some.
    apply S4 in Ekey as [? ?]. congruence.
Qed.

Lemma adopt_windows ids wm : let wm' := adopt ids wm in
  (∀ j, wm_windows wm' !! j = if decide (j ∈ ids) then set_workspace 0 <$> wm_windows wm !! j else wm_windows wm !! j) ∧
  (∀ k, wm_workspaces wm' !! k =
     if decide (k = 0%N) then (λ ws, mkWorkspace (wsp_id ws) (wsp_name ws) (wsp_windows ws ++ ids)) <$> wm_workspaces wm !! k
     else wm_workspaces wm !! k) ∧
  wm_stack wm' = wm_stack wm ∧ wm_focused wm' = wm_focused wm ∧ wm_next_id wm' = wm_next_id wm ∧
  wm_active_workspace wm' = wm_active_workspace wm.
Proof.
  cbn zeta. revert wm. induction ids as [|id ids IH]; intros wm; cbn [adopt].
  { split_and!; try done. intros k. case_decide; [|done]. destruct (_ !! k) as [[]|]; [|done]. cbn. by rewrite app_nil_r. }
  match goal with |- context [adopt ids ?x] => destruct (IH x) as (Hw & Hk & -> & -> & -> & ->) end.
  split_and!; try done.
  - intros j. rewrite Hw. cbn. destruct (decide (id = j)) as [->|Hne].
    + rewrite lookup_alter_eq, (decide_True (P := j ∈ j :: ids)) by by left.
      destruct (wm_windows wm !! j) as [w|]; [|by case_decide]. by case_decide.
    + rewrite lookup_alter_ne by done. case_decide as H1; case_decide as H2; try done; exfalso.
      * apply H2. by right.
      * apply elem_of_cons in H2 as [?|?]; [congruence|done].
  - intros k. rewrite Hk. cbn. case_decide; [subst|by rewrite lookup_alter_ne].
    rewrite lookup_alter_eq, <-option_fmap_compose. destruct (_ !! 0%N); [|done]. cbn. by rewrite <-app_assoc.
Qed.

Definition home wm (id : N) : option N := snd <$> wkeys wm !! id.

Lemma home_lookup wm id : home wm id = win_workspace_id <$> wm_windows wm !! id.
Proof. unfold home. rewrite wkeys_lookup, <-option_fmap_compose. by destruct (_ !! id). Qed.

(** What is left of the structure when only workspaces change. *)
Lemma rehome_structure wm wm' : Structure wm → wm_stack wm' = wm_stack wm → wm_next_id wm' = wm_next_id wm →
  (∀ id, fst <$> wkeys wm' !! id = fst <$> wkeys wm !! id) →
  (∀ id k, home wm' id = Some k → is_Some (wm_workspaces wm' !! k)) →
  (∀ k ws, wm_workspaces wm' !! k = Some ws → NoDup (wsp_windows ws) ∧ ∀ id, id ∈ wsp_windows ws ↔ home wm' id = Some k) →
  is_Some (wm_workspaces wm' !! wm_active_workspace wm') → is_Some (wm_workspaces wm' !! 0%N) → Structure wm'.
Proof.
  intros [S1 S2 S3 S4 S5 S6 S7] Est En Ek Hh Hws Ha H0. split; rewrite ?Est, ?En; try done.
  - intros j. rewrite S2, <-(fmap_is_Some fst (wkeys wm !! j)), <-Ek. by rewrite fmap_is_Some.
  - intros j k Ej. specialize (Ek j). rewrite Ej in Ek. symmetry in Ek. apply fmap_Some in Ek as (k' & Ek' & E).
    rewrite E. by apply S3 in Ek'.
  - intros j k Ej. apply (Hh j). unfold home. by rewrite Ej.
Qed.

(** The windows of workspace [id] are handed to workspace 0. *)
Lemma merge_structure id ws ws0 wm wm' : Structure wm → id ≠ 0%N →
  wm_workspaces wm !! id = Some ws → wm_workspaces wm !! 0%N = Some ws0 →
  wm_stack wm' = wm_stack wm → wm_next_id wm' = wm_next_id wm →
  wm_active_workspace wm' = (if (wm_active_workspace wm =? id)%N then 0%N else wm_active_workspace wm) →
  (∀ j, fst <$> wkeys wm' !! j = fst <$> wkeys wm !! j) →
  (∀ j, home wm' j = if decide (j ∈ wsp_windows ws) then Some 0%N else home wm j) →
  (∀ k, wm_workspaces wm' !! k = if decide (k = 0%N)
      then Some (mkWorkspace (wsp_id ws0) (wsp_name ws0) (wsp_windows ws0 ++ wsp_windows ws))
      else if decide (k = id) then None else wm_workspaces wm !! k) → Structure wm'.
Proof.
  intros HS Hid Ews Ews0 Est En Ea Hids Hhome Hwsp.
  destruct (st_ws _ HS _ _ Ews) as [Hnd Hin]. destruct (st_ws _ HS _ _ Ews0) as [Hnd0 Hin0].
  apply (rehome_structure wm); try done.
  - intros j k. rewrite Hhome, Hwsp. case_decide as Hj; [by intros [= <-]|]. intros Hjk.
    case_decide; [done|]. case_decide as Hki; [subst; by apply Hin in Hjk|].
    unfold home in Hjk. apply fmap_Some in Hjk as (key & Ekey & ->). by apply (st_home _ HS) in Ekey.
  - intros k v. rewrite Hwsp. case_decide as Hk0.
    + intros [= <-]. cbn. split.
      { apply NoDup_app. split_and!; [done| |done]. intros j Hj0%Hin0 Hj%Hin. congruence. }
      intros j. rewrite elem_of_app, Hhome, Hk0. case_decide; [naive_solver|]. rewrite Hin0. unfold home. naive_solver.
    + case_decide as Hki; [done|]. intros Ev. destruct (st_ws _ HS _ _ Ev) as [Hndv Hinv]. split; [done|].
      intros j. rewrite Hinv, Hhome. case_decide as Hj; [|done]. apply Hin in Hj. split; intros ?; congruence.
  - rewrite Hwsp, Ea. destruct (N.eqb_spec (wm_active_workspace wm) id); [done|]. case_decide; [done|].
    rewrite decide_False by done. apply (st_active _ HS).
  - by rewrite Hwsp.
Qed.

Lemma destroy_workspace_inv b id wm : WmInv b wm → WmInv b (destroy_workspace id wm).1.
Proof.
  intros (HS & HF & HU). unfold destroy_workspace. destruct (N.eqb_spec id 0) as [|Hid]; [done|].
  destruct (wm_workspaces wm !! id) as [ws|] eqn:Ews; [|done]. destruct (st_zero _ HS) as [ws0 Ews0].
  cbn. rewrite lookup_delete_ne, Ews0 by done.
  set (wm1 := adopt _ _). destruct (adopt_windows (wsp_windows ws) (set_workspaces (delete id (wm_workspaces wm)) wm))
    as (Hw & Hk & Est & Ef & En & Ea). fold wm1 in Hw, Hk, Est, Ef, En, Ea. cbn in Hw, Hk, Est, Ef, En, Ea. clearbody wm1.
  set (wm2 := push_event _ _).
  assert (wm_windows wm2 = wm_windows wm1 ∧ wm_workspaces wm2 = wm_workspaces wm1 ∧ wm_stack wm2 = wm_stack wm ∧
    wm_focused wm2 = wm_focused wm ∧ wm_next_id wm2 = wm_next_id wm ∧
    wm_active_workspace wm2 = if (wm_active_workspace wm =? id)%N then 0%N else wm_active_workspace wm)
    as (E1 & E2 & E3 & E4 & E5 & E6).
  { subst wm2. rewrite Ea. by split_match. }
  clearbody wm2. split; [|split].
  - apply (merge_structure id ws ws0 wm); try done.
    + intros j. rewrite !wkeys_lookup, E1, Hw. case_decide; [|done]. by destruct (_ !! j).
    + intros j. rewrite !home_lookup, E1, Hw. case_decide as Hj; [|done]. apply (st_ws _ HS _ _ Ews) in Hj.
      apply fmap_Some in Hj as (key & Hkey & _). rewrite wkeys_lookup in Hkey. by destruct (wm_windows wm !! j).
    + intros k. rewrite E2, Hk. case_decide; [subst; by rewrite lookup_delete_ne, Ews0|].
      case_decide; [subst; by rewrite lookup_delete_eq|by rewrite lookup_delete_ne].
  - intros j. rewrite E4. intros Hj. destruct (HF j Hj) as (w & Ew & ? & ?). rewrite E1, Hw, Ew.
    case_decide; eexists; (split_and!; [reflexivity|eassumption..]).
  - intros Hb j w. rewrite E1, E4, Hw. case_decide; [|by apply (HU Hb)].
    intros (v & Ev & ->)%fmap_Some Hv. exact (HU Hb j v Ev Hv).
Qed.

Lemma activate_inv b id wm : WmInv b wm → WmInv false (activate_workspace id wm).1.
Proof.
  intros (HS & HF & HU). unfold activate_workspace. destruct (wm_workspaces wm !! id) as [ws|] eqn:Ews; [|done]. cbn.
  match goal with |- WmInv _ (push_event _ (refocus ?p ?x)) =>
    pose proof (same_shape_refocus p x) as Hr; pose proof (refocus_sound p x) as Hf end.
  split; [|split; [|done]].
  - apply (Structure_same (set_active id wm)).
    + destruct Hr as [R1 R2 R3 R4 R5].
      match type of R1 with context [wkeys (alter_all ?f ?l (alter_all ?g ?k ?x))] =>
        destruct (same_shape_alter_all g k x) as [G1 G2 G3 G4 G5]; [intros w; by destruct (is_minimized w)|];
        destruct (same_shape_alter_all f l (alter_all g k x)) as [F1 F2 F3 F4 F5]; [done|] end.
      split; cbn in *; etrans; try eassumption; etrans; eassumption.
    + destruct HS. by split.
  - apply Hf. intros w. unfold is_shown. by destruct (win_visible w), (_ =? _)%N.
Qed.

Lemma filter_ne_absent (x : N) (l : list N) : x ∉ l → filter (λ y, y ≠ x) l = l.
Proof.
  induction l as [|y l IH]; [done|]. rewrite not_elem_of_cons. intros [Hne Hl].
  rewrite filter_cons_True by congruence. by rewrite IH.
Qed.

(** The workspaces after a window has moved. *)
Lemma moved_workspace wid w target wm k : Structure wm → wm_windows wm !! wid = Some w →
  wm_workspaces (alter_workspace target (λ l, l ++ [wid])
    (alter_workspace (win_workspace_id w) (filter (λ x, x ≠ wid)) wm)) !! k
  = (λ ws, mkWorkspace (wsp_id ws) (wsp_name ws)
      (filter (λ x, x ≠ wid) (wsp_windows ws) ++ (if decide (target = k) then [wid] else []))) <$> wm_workspaces wm !! k.
Proof.
  intros HS Ew. cbn.
  assert (∀ ws, wm_workspaces wm !! k = Some ws → win_workspace_id w ≠ k →
    filter (λ x, x ≠ wid) (wsp_windows ws) = wsp_windows ws) as Habs.
  { intros ws Ek Hne. apply filter_ne_absent. intros Hin%(st_ws _ HS _ _ Ek).
    rewrite wkeys_lookup, Ew in Hin. cbn in Hin. congruence. }
  destruct (decide (target = k)) as [->|]; destruct (decide (win_workspace_id w = k)) as [<-|];
    rewrite ?lookup_alter_eq, ?lookup_alter_ne by done; rewrite ?lookup_alter_eq by done;
    destruct (wm_workspaces wm !! _) as [ws|]; cbn; try done; rewrite ?app_nil_r; rewrite ?Habs by done; by destruct ws.
Qed.

Lemma move_window_inv b wid target wm : WmInv b wm → WmInv b (move_window_to_workspace wid target wm).1.
Proof.
  intros (HS & HF & HU). unfold move_window_to_workspace.
  destruct (wm_workspaces wm !! target) as [wt|] eqn:Et; [|done].
  destruct (wm_windows wm !! wid) as [w|] eqn:Ew; [cbn [fst]|done].
  set (wm' := alter_workspace target _ _).
  assert (∀ j, wm_windows wm' !! j = if decide (wid = j) then set_workspace target <$> wm_windows wm !! j else wm_windows wm !! j) as Hw.
  { intros j. cbn. rewrite lookup_alter. case_decide; [by subst|done]. }
  assert (∀ j, home wm' j = if decide (wid = j) then Some target else home wm j) as Hhome.
  { intros j. rewrite !home_lookup, Hw. case_decide; [|done]. subst j. by rewrite Ew. }
  assert (∀ k, wm_workspaces wm' !! k = (λ ws, mkWorkspace (wsp_id ws) (wsp_name ws)
    (filter (λ x, x ≠ wid) (wsp_windows ws) ++ (if decide (target = k) then [wid] else []))) <$> wm_workspaces wm !! k) as Hwsp.
  { intros k. exact (moved_workspace wid w target wm k HS Ew). }
  assert (∀ k, is_Some (wm_workspaces wm !! k) → is_Some (wm_workspaces wm' !! k)) as Hsome.
  { intros k ?. by rewrite Hwsp, fmap_is_Some. }
  destruct (alter_focus wid (set_workspace target) wm wm') as [HF' HU']; [done..|].
  split; [|by auto]. apply (rehome_structure wm); try done.
  - intros j. rewrite !wkeys_lookup, Hw. case_decide; [|done]. by destruct (_ !! j).
  - intros j k. rewrite Hhome. case_decide; [intros [= <-]; by apply Hsome|]. intros (key & Ekey & ->)%fmap_Some.
    by eapply Hsome, (st_home _ HS).
  - intros k ws. rewrite Hwsp. intros (ws0 & Ews0 & ->)%fmap_Some. destruct (st_ws _ HS _ _ Ews0) as [Hnd Hin]. cbn. split.
    + apply NoDup_app. split_and!; [by apply NoDup_filter| |case_decide; [apply NoDup_singleton|constructor]].
      intros j [Hj _]%list_elem_of_filter. case_decide; [by intros ->%list_elem_of_singleton|by intros ?%elem_of_nil].
    + intros j. rewrite elem_of_app, list_elem_of_filter, Hhome, Hin. fold (home wm j). destruct (decide (target = k)) as [->|].
      * rewrite list_elem_of_singleton. case_decide; naive_solver.
      * rewrite elem_of_nil. case_decide; [|naive_solver]. split; [naive_solver|congruence].
  - apply Hsome, (st_active _ HS).
  - apply Hsome, (st_zero _ HS).
Qed.

(** ** Runs *)

Lemma wm_step_inv b op wm wm' : wm_step op wm = Some wm' → WmInv b wm →
  WmInv (b && negb (activates op)) wm'.
Proof.
  intros Hs HI. destruct op; cbn [activates negb]; rewrite ?andb_true_r, ?andb_false_r; cbn in Hs.
  - apply fmap_Some in Hs as ([? o] & Hc & ->). by eapply create_inv.
  - apply fmap_Some in Hs as ([? o] & Hc & ->). by eapply create_tracked_inv.
  - injection Hs as <-. by apply apply_action_inv.
  - injection Hs as <-. by apply cycle_inv.
  - injection Hs as <-. destruct HI as (HS & HF & HU). split; [|done]. by apply (Structure_same wm).
  - apply fmap_Some in Hs as ([? k] & Hc & ->). by eapply create_workspace_inv.
  - injection Hs as <-. by apply destroy_workspace_inv.
  - injection Hs as <-. by eapply activate_inv.
  - injection Hs as <-. by apply move_window_inv.
Qed.

Lemma wm_run_inv b ops wm wm' : wm_run ops wm = Some wm' → WmInv b wm →
  WmInv (b && negb (existsb activates ops)) wm'.
Proof.
  revert b wm. induction ops as [|op ops IH]; intros b wm; cbn; [intros [= <-]; by rewrite andb_true_r|].
  intros (wm1 & Hs & Hr)%bind_Some HI. rewrite negb_orb, andb_assoc.
  eapply IH; [done|]. by eapply wm_step_inv.
Qed.

Lemma WindowManager_new_inv area : WmInv true (WindowManager_new area).
Proof.
  assert (∀ id, wkeys (WindowManager_new area) !! id = None) as Hk by (intros id; by rewrite wkeys_lookup).
  split; [|split]; [|done|done]. split; try (setoid_rewrite Hk); try done.
  - constructor.
  - intros id. split; [by intros ?%elem_of_nil|by intros []].
  - intros k ws E. cbn in E. apply lookup_singleton_Some in E as [<- <-]. split; [constructor|]. intros id.
    by split; [intros ?%elem_of_nil|].
Qed.

(** C29: after any sequence of operations on a fresh window manager that does not
    panic, every window is on the stack exactly once and in the list of exactly
    the workspace it carries, identifiers are unique and at most the last one
    given, the active workspace and workspace 0 exist, and the focus is on an
    existing, visible, not minimized window whose flag is set; if no workspace was
    activated, no other window has the flag. *)
Theorem window_manager_sound area ops wm : wm_run ops (WindowManager_new area) = Some wm →
  Structure wm ∧ FocusSound wm ∧ (existsb activates ops = false → FocusUnique wm).
Proof.
  intros Hr. destruct (wm_run_inv true _ _ _ Hr (WindowManager_new_inv area)) as (? & ? & HU).
  split_and!; [done..|]. intros Hn. apply HU. by rewrite Hn.
Qed.

Definition screen : ScreenArea := mkScreenArea 0 32 1920 1048.
Definition session_ops : list WmOp :=
  [OpCreate "aether.terminal" "Terminal" 800 600; OpCreate "aether.files" "Files" 640 480;
   OpNewWorkspace "Work"; OpMoveWindow 2 1; OpAct (WaMaximize 1); OpAct (WaMinimize 1); OpCycle; OpDestroyWorkspace 1].

Lemma window_manager_sound_witness :
  ∃ wm, wm_run session_ops (WindowManager_new screen) = Some wm ∧ wm_focused wm = Some 2%N ∧ FocusUnique wm.
Proof.
  eexists. split; [vm_compute; reflexivity|]. split; [reflexivity|].
  refine (proj2 (proj2 (window_manager_sound screen session_ops _ _)) _); vm_compute; reflexivity.
Defined.

(** ** Activating a workspace *)

Lemma alter_all_lookup f ids wm j w : wm_windows wm !! j = Some w → (∀ v, win_focused (f v) = win_focused v) →
  ∃ w', wm_windows (alter_all f ids wm) !! j = Some w' ∧ win_focused w' = win_focused w.
Proof.
  intros Ew Hf. revert wm w Ew. induction ids as [|id ids IH]; intros wm w Ew; [eauto|]. cbn [alter_all].
  destruct (decide (id = j)) as [->|].
  - destruct (IH (alter_window j f wm) (f w)) as (w' & ? & Hw'); [cbn; by rewrite lookup_alter_eq, Ew|].
    exists w'. by rewrite Hw', Hf.
  - apply IH. cbn. by rewrite lookup_alter_ne.
Qed.

(** Activation clears the focus and not the flag: a window of another workspace
    that had the focus keeps its flag, so a window that gets the focus is a second
    one. *)
Theorem activation_leaves_two_focused wm k f g : WmInv true wm → wm_focused wm = Some f →
  wm_focused (activate_workspace k wm).1 = Some g → f ≠ g →
  ∃ wf wg, wm_windows (activate_workspace k wm).1 !! f = Some wf ∧ win_focused wf = true ∧
    wm_windows (activate_workspace k wm).1 !! g = Some wg ∧ win_focused wg = true.
Proof.
  intros HI Ef Eg Hne. destruct (HI) as (_ & HF & _). destruct (HF f Ef) as (w & Ew & Hw & _).
  destruct (activate_inv true k wm HI) as (_ & HF' & _). destruct (HF' g Eg) as (wg & Ewg & Hwg & _).
  enough (∃ wf, wm_windows (activate_workspace k wm).1 !! f = Some wf ∧ win_focused wf = true) as (wf & ? & ?) by by exists wf, wg.
  revert Eg. unfold activate_workspace. destruct (wm_workspaces wm !! k) as [ws|]; [|eauto]. cbn.
  unfold refocus. destruct (topmost _ _) as [n|]; [cbn; intros [= ->]|done]. rewrite lookup_alter_ne by done.
  match goal with |- context [alter_all ?p ?l (alter_all ?q ?m ?x)] =>
    destruct (alter_all_lookup q m x f w Ew) as (w1 & E1 & H1); [intros v; by destruct (is_minimized v)|];
    destruct (alter_all_lookup p l _ f w1 E1) as (w2 & E2 & H2); [done|] end.
  exists w2. split; [exact E2|congruence].
Qed.

Definition two_workspaces : list WmOp :=
  [OpCreate "aether.terminal" "Terminal" 800 600; OpNewWorkspace "Work"; OpActivate 1;
   OpCreate "aether.files" "Files" 640 480; OpActivate 0; OpAct (WaFocus 1)].

Definition two_workspaces_state : WindowManager :=
  default WindowManager_default (wm_run two_workspaces (WindowManager_new screen)).

Lemma two_workspaces_run : wm_run two_workspaces (WindowManager_new screen) = Some two_workspaces_state.
Proof. vm_compute. reflexivity. Qed.

Lemma two_workspaces_inv : WmInv true two_workspaces_state.
Proof.
  destruct (wm_run_inv true _ _ _ two_workspaces_run (WindowManager_new_inv screen)) as (HS & HF & _).
  split_and!; [done..|]. intros _.
  assert (map_Forall (λ id w, win_focused w = true → wm_focused two_workspaces_state = Some id)
    (wm_windows two_workspaces_state)) as HU by
    (refine (bool_decide_eq_true_1 _ _); vm_compute; reflexivity).
  exact HU.
Qed.

Lemma activation_leaves_two_focused_witness : ∃ w1 w2,
  wm_windows (activate_workspace 1 two_workspaces_state).1 !! 1%N = Some w1 ∧ win_focused w1 = true ∧
  wm_windows (activate_workspace 1 two_workspaces_state).1 !! 2%N = Some w2 ∧ win_focused w2 = true.
Proof.
  apply (activation_leaves_two_focused two_workspaces_state 1 1 2 two_workspaces_inv); [by vm_compute|by vm_compute|done].
Defined.

(** ** Hit test *)

(** The windows a point can hit, by the geometry of the screen. *)
Definition hits (px py : Z) w : Prop :=
  is_shown w = true ∧ contains_point px py w = Some true.
Definition misses (px py : Z) w : Prop :=
  is_shown w = false ∨ contains_point px py w = Some false.

Lemma first_at_spec px py m ids o : first_at px py m ids = Some o →
  match o with
  | Some id => ∃ before after w, ids = before ++ id :: after ∧ m !! id = Some w ∧ hits px py w ∧
      ∀ j v, j ∈ before → m !! j = Some v → misses px py v
  | None => ∀ j v, j ∈ ids → m !! j = Some v → misses px py v
  end.
Proof.
  induction ids as [|id ids IH]; cbn; [intros [= <-] j v Hj; by apply elem_of_nil in Hj|].
  assert (∀ (P : first_at px py m ids = Some o) (Hm : ∀ v, m !! id = Some v → misses px py v), match o with
    | Some id' => ∃ before after w, id :: ids = before ++ id' :: after ∧ m !! id' = Some w ∧ hits px py w ∧
        ∀ j v, j ∈ before → m !! j = Some v → misses px py v
    | None => ∀ j v, j ∈ id :: ids → m !! j = Some v → misses px py v
    end) as Hskip.
  { intros P Hm. specialize (IH P). destruct o as [id'|].
    - destruct IH as (before & after & w & -> & Ew & Hw & Hb). exists (id :: before), after, w. split_and!; try done.
      intros j v [->|Hj]%elem_of_cons; [apply Hm|by apply Hb].
    - intros j v [->|Hj]%elem_of_cons; [apply Hm|by apply IH]. }
  destruct (m !! id) as [w|] eqn:Ew; [|intros; by apply Hskip].
  destruct (is_shown w) eqn:Es.
  - intros (c & Ec & Hc)%bind_Some. destruct c.
    + injection Hc as <-. exists [], ids, w. split_and!; try done. intros j v Hj. by apply elem_of_nil in Hj.
    + apply Hskip; [done|]. intros v [= <-]. by right.
  - intros Hc. apply Hskip; [done|]. intros v [= <-]. by left.
Qed.

(** The window at a point is a shown window that contains it, and every window above
    it on the stack is hidden or does not contain the point; no window is reported
    only when no shown window contains it. *)
Theorem window_at_topmost px py wm o : window_at px py wm = Some o →
  match o with
  | Some id => ∃ below above w, wm_stack wm = below ++ id :: above ∧ wm_windows wm !! id = Some w ∧ hits px py w ∧
      ∀ j v, j ∈ above → wm_windows wm !! j = Some v → misses px py v
  | None => ∀ j v, j ∈ wm_stack wm → wm_windows wm !! j = Some v → misses px py v
  end.
Proof.
  intros Hat%first_at_spec. destruct o as [id|].
  - destruct Hat as (before & after & w & Est & Ew & Hw & Hb). exists (reverse after), (reverse before), w.
    split_and!; try done.
    + rewrite <-(reverse_involutive (wm_stack wm)), Est, reverse_app, reverse_cons, <-app_assoc. done.
    + intros j v Hj. apply Hb. by rewrite reverse_Permutation in Hj.
  - intros j v Hj. apply Hat. by rewrite reverse_Permutation.
Qed.

(** ** Maximizing and restoring *)

Lemma focus_lookup id wm w : Structure wm → wm_windows wm !! id = Some w →
  wm_windows (focus id wm).1 !! id = Some (focus_window w).
Proof.
  intros HS Ew. rewrite focus_windows, lookup_fmap, Ew by by rewrite ?Ew. cbn. unfold focused_on.
  destruct (st_id _ HS id (wkey w)) as [Hid _]; [by rewrite wkeys_lookup, Ew|]. cbn in Hid.
  by rewrite Hid, N.eqb_refl.
Qed.

(** A window that is not maximized, maximized and then restored, has its position
    and size back and is in the normal state, shown and focused, on top of the stack. *)
Theorem maximize_restore_roundtrip id w area wm : WmInv true wm → wm_area wm = Some area →
  wm_windows wm !! id = Some w → win_state w ≠ WsMaximized →
  let wm' := (apply_action (WaRestore id) (apply_action (WaMaximize id) wm).1).1 in
  ∃ w', wm_windows wm' !! id = Some w' ∧ win_rect w' = win_rect w ∧ win_state w' = WsNormal ∧
    is_shown w' = true ∧ win_focused w' = true ∧ win_restore_rect w' = None ∧
    wm_focused wm' = Some id ∧ last (wm_stack wm') = Some id.
Proof.
  intros HI Ea Ew Hst. pose proof (apply_action_inv true (WaMaximize id) wm HI) as (HS1 & _).
  destruct HI as (HS & _). cbn -[focus maximized restored] in *. rewrite Ea in *.
  unfold on_window in *. rewrite Ew in *. cbn [fst] in *.
  set (wm1 := (focus id (alter_window id (maximized area) wm)).1) in *.
  assert (wm_windows wm1 !! id = Some (focus_window (maximized area w))) as E1.
  { apply focus_lookup; [|cbn; by rewrite lookup_alter_eq, Ew]. apply (Structure_same wm); [|done].
    apply same_shape_alter. intros v. unfold maximized. by case_bool_decide. }
  rewrite E1. cbn [fst]. clearbody wm1.
  assert (wm_windows (alter_window id restored wm1) !! id = Some (restored (focus_window (maximized area w)))) as E2
    by (cbn; by rewrite lookup_alter_eq, E1).
  exists (focus_window (restored (focus_window (maximized area w)))). split.
  { apply focus_lookup; [|done]. apply (Structure_same wm1); [|done]. apply same_shape_alter.
    intros v. unfold restored. destruct (win_state v), (win_restore_rect v) as [[[[? ?] ?] ?]|]; done. }
  unfold maximized. rewrite bool_decide_false by done. split_and!; try done; unfold focus; rewrite E2; cbn; [done|].
  apply last_snoc.
Qed.

Definition maximize_state : WindowManager :=
  default WindowManager_default (wm_run [OpCreate "aether.terminal" "Terminal" 800 600] (WindowManager_new screen)).

Definition maximize_window : Window :=
  mkWindow 1 "aether.terminal" "Terminal" 8 40 800 508 WsNormal true true None None "" 0 None.

Lemma maximize_state_inv : WmInv true maximize_state.
Proof.
  refine (wm_run_inv true [OpCreate "aether.terminal" "Terminal" 800 600] _ _ _ (WindowManager_new_inv screen)).
  vm_compute. reflexivity.
Qed.

Lemma maximize_restore_roundtrip_witness :
  ∃ w', wm_windows (apply_action (WaRestore 1) (apply_action (WaMaximize 1) maximize_state).1).1 !! 1%N = Some w' ∧
    win_rect w' = (8%Z, 40%Z, 800%N, 508%N).
Proof.
  destruct (maximize_restore_roundtrip 1 maximize_window screen maximize_state maximize_state_inv)
    as (w' & E1 & E2 & _); [reflexivity|vm_compute; reflexivity|done|].
  exists w'. split; [exact E1|exact E2].
Defined.
